(* ===== verification/_CoqProject ===== *)
-Q . S2P
Prelude.v
Bytes.v
Ranges.v
FixedBlock.v
HighOrder.v
FrameAlloc.v
PageTable.v
TlbEntry.v
MemMap.v
VirtFixup.v
FrameAttr.v
HeapBuddy.v
AllocIf.v
Cow.v
SingleArc.v
Files.v
TmpFs.v
Vfs.v
CpuBitmap.v
Tlb.v
Mutex.v
Irq.v
Scheduler.v
Ps2.v
Elf.v
BootMem.v
Dma.v
BitField.v
Ehci.v
EhciQueue.v
EhciSched.v
Ata.v
AhciRegs.v
AhciCmd.v
Ahci.v
PciCfg.v
PciMsi.v
Serial.v
UsbProto.v
UsbDevice.v
Hid.v
UsbHid.v
Apic.v
Console.v
