(* ===== verification/Prelude.v ===== *)
(** * Hootux: verification development

    Hootux is a kernel for x86-64 written in Rust, with its drivers and its boot library.  This
    library models the parts of it that are algorithms over data or protocols over shared state:
    memory, locks, tasks, interrupts, files, and the drivers for disks, USB, serial ports and
    keyboards.  Each definition names the source it translates; paths are relative to the
    repository and start with [kernel/src] unless another crate is named.

    ** Parts and how they interact

    The boot library hands out frames and builds the memory map that the kernel starts from; the
    ELF loader moves and relocates the kernel image.  Page frames come from the early frame
    allocator until the buddy frame allocator takes over what is left of the memory map.  A request
    to the kernel heap goes to the fixed-size-block allocator, which takes pages from the buddy heap
    of address space; larger requests and device memory are mapped page by page in the page
    tables.  Changing a mapping invalidates it on every CPU; frames that are shared are counted.
    Interrupt lines and messages are routed to vectors, vectors to handlers, and handlers hand data
    to tasks.  Tasks are futures that per-CPU executors poll; wakers put them back into queues
    according to their CPU affinity, which is a CPU bitmap.  The virtual file system resolves paths
    through drivers, of which the memory file system is one; its file locks are weak references.
    Drivers describe their buffers to devices as regions of physical memory and lend them.

    ** Files

    Shared:
    - [Prelude]: panics ([outcome]), [Result], 64-bit arithmetic, bit counting, sorted lists,
      the hint database [hootux] and the tactics [inv_done], [split_match], [bool_to_prop] and
      [unwrap64].
    - [Bytes], [BitField]: bytes, layouts of structures, and the accessors that the [bitflags] and
      [bitfield] crates generate, as classes with laws.
    - [Ranges]: address ranges and tilings, [Layout], and the interface [HeapAlloc] between the
      fixed-size-block allocator and the heap below it.

    Memory:
    - [BootMem]: [lib/libboot], the frames and the memory map at boot.
    - [Elf]: [lib/elfload] and [elf.rs].
    - [FrameAlloc]: [mem/buddy_frame_alloc.rs] (Modules [PreInit] and [BuddyFrame]); the third-party
      buddy allocator is the class [Backend].
    - [HighOrder]: [mem/high_order_alloc.rs].
    - [FixedBlock]: [mem/allocator/fixed_size_block.rs] over intrusive lists in a modelled memory.
    - [HeapBuddy]: [mem/allocator/buddy_alloc.rs], an instance of [HeapAlloc].
    - [PageTable], [MemMap]: [mem/offset_page_table.rs] and [mem/mem_map.rs].
    - [TlbEntry], [Tlb]: [mem/tlb.rs], its data and its protocol.
    - [VirtFixup], [FrameAttr]: [mem/virt_fixup.rs] and [mem/frame_attribute_table.rs], whose
      copy on fault is in [Cow], above the allocators it uses.
    - [AllocIf]: [mem/allocator/alloc_interface.rs].
    - [Dma]: [mem/dma.rs].

    Tasks, interrupts and time:
    - [CpuBitmap]: [mp/bitmap.rs].  [Mutex]: [util/mutex.rs].
    - [Irq]: [interrupts/vector_tables.rs], the reservations of [interrupts.rs] and
      [interrupts/buff.rs].
    - [Apic]: [interrupts/apic], the routing of [system/sysfs/systemctl.rs], and [time.rs].
    - [Scheduler]: [task/kernel_scheduler.rs] and the timers of [task/util/sleep.rs].

    Files:
    - [SingleArc]: [util/single_arc.rs] and the file lock built on it.
    - [Files], [TmpFs], [Vfs]: [fs]; [FileOps] with [FileLaws] is the interface of drivers.

    Devices:
    - [PciCfg], [PciMsi]: [system/pci].
    - [Ata], [AhciRegs], [AhciCmd], [Ahci]: [lib/ata] and [drivers/ahci].
    - [Ehci], [EhciQueue], [EhciSched]: [drivers/usb/hci/ehci] and [drivers/usb/src/ehci.rs].
    - [UsbProto], [UsbDevice], [Hid], [UsbHid]: [drivers/usb/usb-proto],
      [drivers/usb/src/ehci/device.rs], [lib/hid] and [drivers/usb/device-drivers/usb-hid].
    - [Serial]: [serial.rs] and [serial/dispatcher.rs].
    - [Ps2]: [lib/hid-8042] and [drivers/hid-ps2].
    - [Console]: [graphics.rs], [graphics/pixel.rs], [graphics/basic_output.rs] and [kshell.rs].

    ** How the code is modelled

    Operations are functions on explicit state.  A function that can panic returns an [outcome];
    a [Result] of the source is a [result]; a call that never returns is [None].  The workspace is
    built without overflow checks, so arithmetic wraps at the width of its type.  Locks that only
    guard one call are left out; where concurrency matters (mutexes, executors, shootdowns, the
    system time, lending of buffers) the state is shared and the steps of all CPUs interleave.  Code
    that is not part of the repository is an argument with its documented behaviour as a class of
    laws, and so is hardware whose registers the code drives; modules of witnesses instantiate the
    classes.

    Loops run on fuel where the recursion is not structural.  Where a bound follows from the data,
    the definition has it: [drain_blocks] takes 129 turns, since each block it frees doubles the
    alignment of the start or halves what is left; [drain_loop] two more than the memory map has
    entries; [dealloc_while] size / 8 + 1, since each turn frees at least 8 bytes; [limit_fuel] one
    turn for every piece of a region of physical memory.  Elsewhere the fuel is an argument, and the
    theorems say how much is enough ([boot_fuel] for the memory map at boot) or show what a run of
    that many turns does ([run_kernel], and the waits of [Ps2] and [Serial], which depend on the
    device).

    ** What the theorems show

    - Boot: the memory map is sound and never gives out what the loader handed out
      ([memory_map_sound], [boot_frames_reserved]); the loader's allocator is a queue
      ([boot_alloc_refines]); the two relocation loops agree ([relocate_simple_image]).
    - Heap and frames: requests succeed while address space is left, with blocks that are aligned
      and belong to nobody else ([kernel_heap_allocate]); large blocks are backed by fresh frames and
      give them back ([kalloc_large_maps], [kalloc_dealloc_roundtrip]); draining tiles what is left
      ([drain_tiles]).
    - Paging: the page tables refine a function from pages to entries ([map_to_refines]); after a
      shootdown no CPU has an old translation, and every shootdown can return
      ([shootdown_coherent], [shootdown_returns]), for the forms of shootdown that
      do return; a copy on fault gives the page a private copy ([cow_fault_copies]).
    - Locks and tasks: mutual exclusion in every interleaving ([reentrant_mutex_exclusive]), the file
      lock refines an owner variable ([file_lock_protocol]), and a future is polled by one CPU at a
      time and never after it finished ([executor_polls_safe]); wakes during a poll can be lost
      ([wake_during_poll_lost]).
    - Interrupts and time: a pin is routed as configured and never raises an interrupt by half an
      entry ([gsi_routed], [set_entry_glitchless]); MSI-X entries reach their handlers
      ([msix_routes]); the system time counts every period once ([system_time_counts]).
    - Files: created files are found under their paths for every driver with the laws
      ([vfs_create_open]); reads return what was written ([tmpfs_write_read]).
    - Disks: region lists describe their buffers ([prd_describes], [command_describes_buffer]), what is
      sent to a disk lies on it ([file_command_spec]), lending is safe ([dma_loan_safe]), and a port
      neither loses nor duplicates a command and answers every one ([ahci_port_safe], [ahci_port_drains], [refresh_exec_refines]).
    - Buses and devices: the search finds the functions that can be reached ([scan_finds]) and
      describes them ([device_new_spec]); the asynchronous schedule stays a ring
      ([drop_endpoints_ring], [setup_endpoint_scheduled]); interfaces are read as the device has them
      ([interfaces_fetched]); reports become the characters of the keys that changed and reach their
      readers ([report_updates], [send_op_delivers], [mainloop_tracks]); a serial write sends its
      bytes in order and once, at the nearest rate ([serial_write_sends], [divisor_of_nearest]); a
      PS/2 port sends a command and returns the reply of the device ([port_command_sends]).
    - Screen: printing is text on a grid ([tty_prints]).

    The statements carry the conditions under which the code does this; the comment of each theorem
    names them, and what happens outside of them is a theorem of its own where it could be shown.

    Theorems also state where the code departs from its documentation or from the hardware, among
    them [get_id_zero], [pins_unreachable], [one_io_apic] and [calibration_undivided] for the
    interrupt controllers, [tmpfs_remove_keeps_name] for files, and [hid_binds_any] and [keys_wrong]
    for keyboards.

    ** What is not modelled

    Assembly and what surrounds it: the boot entry, processor start-up, descriptor tables, segment
    and model-specific registers, exception entry.  Code that generates code: the procedural macros.
    Output: the logger and the older terminal, which is not built.  Bindings to firmware tables (ACPI) and
    the driver interface; the objects of sysfs; the unused linear allocators; small wrappers
    (write-once cells, message queues, run levels).  The EHCI controller's registers, its interrupt
    worker and the enumeration of ports; the construction of the memory file system from a tarball.
    Allocation failure of the Rust heap, memory ordering weaker than sequential consistency,
    suspension inside file system drivers, and interrupts that arrive inside an operation, except
    where a protocol is about them, are outside the models. *)
From Stdlib Require Import Sorted.
From stdpp Require Import prelude gmap strings.

(** ** Panicking computations

    The kernel is built with [panic = abort]: a panic ends the run, so a function that may
    panic returns an [outcome].  [unwrap], [expect], [assert!], [unreachable!] and slice
    indexing out of range are the sources of [Panic] in the models. *)
Inductive outcome (A : Type) : Type :=
| Done (a : A)
| Panic.
Arguments Done {A} a.
Arguments Panic {A}.

#[global] Instance outcome_ret : MRet outcome := fun A a => Done a.
#[global] Instance outcome_bind : MBind outcome :=
  fun A B f m => match m with Done a => f a | Panic => Panic end.
#[global] Instance outcome_fmap : FMap outcome :=
  fun A B f m => match m with Done a => Done (f a) | Panic => Panic end.

(** [Option::unwrap] and [Option::expect]. *)
Definition unwrap {A} (o : option A) : outcome A :=
  match o with Some a => Done a | None => Panic end.

(** [assert!]. *)
Definition assert_that (b : bool) : outcome unit := if b then Done tt else Panic.

(** [Result] values.  The error type of the source is kept. *)
Inductive result (A E : Type) : Type :=
| Ok (a : A)
| Err (e : E).
Arguments Ok {A E} a.
Arguments Err {A E} e.

#[global] Instance result_ret E : MRet (fun A => result A E) := fun A a => Ok a.

Definition result_bind {A B E} (m : result A E) (f : A -> result B E) : result B E :=
  match m with Ok a => f a | Err e => Err e end.

Definition result_ok {A E} (m : result A E) : option A :=
  match m with Ok a => Some a | Err _ => None end.

Definition is_ok {A E} (m : result A E) : bool :=
  match m with Ok _ => true | Err _ => false end.

Lemma outcome_bind_Done {A B} (m : outcome A) (f : A -> outcome B) (b : B) :
  mbind f m = Done b <-> exists a, m = Done a /\ f a = Done b.
Proof.
  destruct m as [a|]; cbn; split.
  - eauto.
  - intros (a' & [= <-] & H). done.
  - done.
  - intros (? & ? & ?). done.
Qed.

Lemma unwrap_Done {A} (o : option A) (a : A) : unwrap o = Done a <-> o = Some a.
Proof. destruct o; cbn; naive_solver. Qed.

Lemma assert_that_Done (b : bool) (u : unit) : assert_that b = Done u <-> b = true.
Proof. destruct b, u; cbn; naive_solver. Qed.

(** ** Automation

    [hootux] collects the resolution hints of the components.  [inv_done] inverts a chain of
    binds that is known to have returned. *)
Create HintDb hootux.

Ltac inv_done :=
  repeat match goal with
  | H : mbind _ _ = Done _ |- _ =>
      apply outcome_bind_Done in H; destruct H as (? & ? & ?)
  | H : unwrap _ = Done _ |- _ => apply unwrap_Done in H
  | H : assert_that _ = Done _ |- _ => apply assert_that_Done in H
  | H : Done _ = Done _ |- _ => injection H as H; try subst
  | H : Panic = Done _ |- _ => discriminate H
  | H : mret _ = Done _ |- _ => injection H as H; try subst
  end.

(** Case analysis on the scrutinee of a [match] or [if] of the goal or of a hypothesis. *)
Ltac split_match :=
  match goal with
  | |- context [match ?x with _ => _ end] => destruct x eqn:?
  | H : context [match ?x with _ => _ end] |- _ => destruct x eqn:?
  end.

(** Turns boolean comparisons of [Z] and [nat] into propositions. *)
Ltac bool_to_prop :=
  repeat match goal with
  | H : (_ && _)%bool = true |- _ => apply andb_true_iff in H; destruct H
  | H : (_ || _)%bool = false |- _ => apply orb_false_iff in H; destruct H
  | H : negb _ = true |- _ => apply negb_true_iff in H
  | H : negb _ = false |- _ => apply negb_false_iff in H
  | H : Z.eqb _ _ = true |- _ => apply Z.eqb_eq in H
  | H : Z.eqb _ _ = false |- _ => apply Z.eqb_neq in H
  | H : Z.ltb _ _ = true |- _ => apply Z.ltb_lt in H
  | H : Z.ltb _ _ = false |- _ => apply Z.ltb_ge in H
  | H : Z.leb _ _ = true |- _ => apply Z.leb_le in H
  | H : Z.leb _ _ = false |- _ => apply Z.leb_gt in H
  | H : Nat.eqb _ _ = true |- _ => apply Nat.eqb_eq in H
  | H : Nat.eqb _ _ = false |- _ => apply Nat.eqb_neq in H
  | H : Nat.ltb _ _ = true |- _ => apply Nat.ltb_lt in H
  | H : Nat.ltb _ _ = false |- _ => apply Nat.ltb_ge in H
  | H : Nat.leb _ _ = true |- _ => apply Nat.leb_le in H
  | H : Nat.leb _ _ = false |- _ => apply Nat.leb_gt in H
  | H : bool_decide _ = true |- _ => apply bool_decide_eq_true in H
  | H : bool_decide _ = false |- _ => apply bool_decide_eq_false in H
  end.

(** ** Machine integers

    The workspace builds every profile with [overflow-checks = false], so [+], [-] and [*] on
    [usize] and [u64] wrap.  A 64-bit value is a [Z] between [0] and [2^64 - 1]. *)
Definition is_u64 (z : Z) : Prop := (0 <= z < 2 ^ 64)%Z.

Definition wrap64 (z : Z) : Z := (z mod 2 ^ 64)%Z.

Definition wadd (a b : Z) : Z := wrap64 (a + b).
Definition wsub (a b : Z) : Z := wrap64 (a - b).
Definition wmul (a b : Z) : Z := wrap64 (a * b).
(** [!a] on a 64-bit unsigned value. *)
Definition wnot (a : Z) : Z := (2 ^ 64 - 1 - a)%Z.
(** [a << b]: the shift amount is taken modulo 64 when overflow checks are off. *)
Definition wshl (a b : Z) : Z := wrap64 (Z.shiftl a (b mod 64)).

#[global] Arguments wrap64 : simpl never.
#[global] Arguments wadd : simpl never.
#[global] Arguments wsub : simpl never.
#[global] Arguments wmul : simpl never.
#[global] Arguments wnot : simpl never.
#[global] Arguments wshl : simpl never.

Declare Scope u64_scope.
Delimit Scope u64_scope with u64.
Infix "⊕" := wadd (at level 50, left associativity) : u64_scope.
Infix "⊖" := wsub (at level 50, left associativity) : u64_scope.
Infix "⊗" := wmul (at level 40, left associativity) : u64_scope.
Open Scope u64_scope.

Lemma wadd_small a b : (0 <= a + b < 2 ^ 64)%Z -> (a ⊕ b)%u64 = (a + b)%Z.
Proof. intros ?. unfold wadd, wrap64. by apply Z.mod_small. Qed.

Lemma wsub_small a b : (0 <= a - b < 2 ^ 64)%Z -> (a ⊖ b)%u64 = (a - b)%Z.
Proof. intros ?. unfold wsub, wrap64. by apply Z.mod_small. Qed.

Lemma wsub_zero a b : is_u64 a -> is_u64 b -> (a ⊖ b)%u64 = 0%Z <-> a = b.
Proof.
  unfold is_u64, wsub, wrap64. intros Ha Hb. split; [|intros ->; by rewrite Z.sub_diag].
  intros H. apply Z.mod_divide in H as [q Hq]; [|done]. assert (q = 0)%Z by lia. lia.
Qed.

Lemma wrap64_range z : is_u64 (wrap64 z).
Proof. unfold is_u64, wrap64. apply Z.mod_pos_bound. done. Qed.

#[export] Hint Resolve wrap64_range : hootux.

(** Removes the wrap-around of every sum and difference whose range [lia] can bound. *)
Ltac unwrap64 :=
  repeat first
    [ rewrite wadd_small by (unfold is_u64 in *; lia)
    | rewrite wsub_small by (unfold is_u64 in *; lia) ].

(** *** Alignment masks *)

Lemma land_mask x k : (0 <= k)%Z -> Z.land x (2 ^ k - 1) = (x mod 2 ^ k)%Z.
Proof.
  intros. rewrite <- Z.land_ones by done. f_equal. rewrite Z.ones_equiv. lia.
Qed.

Lemma land_wnot_mask x k :
  is_u64 x -> (0 <= k <= 64)%Z ->
  Z.land x (wnot (2 ^ k - 1)) = (x - x mod 2 ^ k)%Z.
Proof.
  intros Hx Hk. unfold wnot.
  replace (2 ^ 64 - 1 - (2 ^ k - 1))%Z with (Z.ldiff (Z.ones 64) (Z.ones k)).
  - rewrite (Z.mod_eq x (2 ^ k)) by lia.
    replace (x - (x - 2 ^ k * (x / 2 ^ k)))%Z with (x / 2 ^ k * 2 ^ k)%Z by lia.
    rewrite <- Z.shiftr_div_pow2, <- Z.shiftl_mul_pow2 by lia.
    rewrite <- Z.ldiff_ones_r by lia.
    apply Z.bits_inj'. intros n Hn.
    rewrite Z.land_spec, !Z.ldiff_spec.
    destruct (decide (n < 64)%Z).
    + rewrite (Z.ones_spec_low 64) by lia. by destruct (Z.testbit x n).
    + rewrite (Z.bits_above_log2 x n); [done|unfold is_u64 in Hx; lia|].
      unfold is_u64 in Hx. destruct (decide (x = 0)%Z) as [->|]; [cbn; lia|].
      apply Z.log2_lt_pow2; [lia|]. eapply Z.lt_le_trans; [apply Hx|].
      apply Z.pow_le_mono_r; lia.
  - rewrite <- Z.sub_nocarry_ldiff.
    + rewrite !Z.ones_equiv. lia.
    + apply Z.bits_inj'. intros n Hn. rewrite Z.ldiff_spec, Z.bits_0.
      destruct (decide (n < k)%Z).
      * rewrite (Z.ones_spec_low 64) by lia. by destruct (Z.testbit _ n).
      * rewrite (Z.ones_spec_high k) by lia. done.
Qed.

(** [align_up(addr, align)] of [kernel/src/mem/allocator.rs]. *)
Definition align_up (addr align : Z) : Z := Z.land (addr ⊕ align ⊖ 1)%u64 (wnot (align ⊖ 1)%u64).

(** *** Counting bits *)

(** [trailing_zeros] of the low [n] bits of [x]; [n] when they are all clear. *)
Fixpoint ctz (n : nat) (x : Z) : Z :=
  match n with
  | O => 0
  | S n' => if Z.testbit x 0 then 0 else 1 + ctz n' (Z.shiftr x 1)
  end%Z.

Definition trailing_zeros (x : Z) : Z := ctz 64 x.
Definition trailing_ones (x : Z) : Z := trailing_zeros (wnot x).
Definition leading_zeros (x : Z) : Z := (if x =? 0 then 64 else 63 - Z.log2 x)%Z.

(** [count_ones] of the low [n] bits. *)
Fixpoint popcount (n : nat) (x : Z) : Z :=
  match n with
  | O => 0
  | S n' => Z.b2z (Z.testbit x (Z.of_nat n')) + popcount n' x
  end%Z.

Definition count_ones (x : Z) : Z := popcount 64 x.

(** [next_power_of_two]: without overflow checks the result wraps to [0] when it does not fit. *)
Definition next_power_of_two (x : Z) : Z := wrap64 (2 ^ Z.log2_up x).

Lemma ctz_bound n x : (0 <= ctz n x <= Z.of_nat n)%Z.
Proof. revert x. induction n as [|n IH]; intros x; cbn [ctz]; [lia|]. destruct (Z.testbit x 0); [lia|]. specialize (IH (Z.shiftr x 1)). lia. Qed.

Lemma ctz_below n x i : (0 <= i < ctz n x)%Z -> Z.testbit x i = false.
Proof.
  revert x i. induction n as [|n IH]; intros x i; cbn [ctz]; [lia|].
  destruct (Z.testbit x 0) eqn:E; [lia|]. intros Hi.
  destruct (decide (i = 0)%Z) as [->|]; [done|].
  specialize (IH (Z.shiftr x 1) (i - 1)%Z ltac:(lia)).
  rewrite Z.shiftr_spec in IH by lia. rewrite <- IH. f_equal. lia.
Qed.

Lemma ctz_at n x : (ctz n x < Z.of_nat n)%Z -> Z.testbit x (ctz n x) = true.
Proof.
  revert x. induction n as [|n IH]; intros x; cbn [ctz]; [lia|].
  destruct (Z.testbit x 0) eqn:E; [done|]. intros Hi.
  specialize (IH (Z.shiftr x 1) ltac:(lia)).
  rewrite Z.shiftr_spec in IH by apply ctz_bound. rewrite <- IH. f_equal. lia.
Qed.

Lemma mod_pow2_bits x k :
  (0 <= k)%Z -> (forall i, 0 <= i < k -> Z.testbit x i = false)%Z -> (x mod 2 ^ k = 0)%Z.
Proof.
  intros Hk H. apply Z.bits_inj'. intros n Hn. rewrite Z.bits_0.
  destruct (decide (n < k)%Z).
  - rewrite Z.mod_pow2_bits_low by lia. apply H. lia.
  - apply Z.mod_pow2_bits_high. lia.
Qed.

Lemma trailing_zeros_mod x : (x mod 2 ^ trailing_zeros x = 0)%Z.
Proof.
  apply mod_pow2_bits; [apply ctz_bound|]. intros i. apply (ctz_below 64).
Qed.

Lemma trailing_zeros_bound x : (0 <= trailing_zeros x <= 64)%Z.
Proof. apply (ctz_bound 64). Qed.

Lemma trailing_zeros_ge x j : (0 <= j <= 64 -> x mod 2 ^ j = 0 -> j <= trailing_zeros x)%Z.
Proof.
  intros Hj Hx. destruct (decide (trailing_zeros x < j)%Z) as [Hlt|]; [|lia].
  pose proof (trailing_zeros_bound x). exfalso.
  pose proof (ctz_at 64 x ltac:(unfold trailing_zeros in *; lia)) as Hb. fold (trailing_zeros x) in Hb.
  rewrite <- (Z.mod_pow2_bits_low x j) in Hb by lia. rewrite Hx, Z.bits_0 in Hb. done.
Qed.

(** Adding the lowest set bit clears it. *)
Lemma trailing_zeros_add x : (trailing_zeros x < 64 -> (x + 2 ^ trailing_zeros x) mod 2 ^ (trailing_zeros x + 1) = 0)%Z.
Proof.
  intros Hlt. pose proof (trailing_zeros_bound x) as Hb. pose proof (trailing_zeros_mod x) as Hm.
  pose proof (ctz_at 64 x ltac:(unfold trailing_zeros in *; lia)) as Ht. fold (trailing_zeros x) in Ht.
  set (t := trailing_zeros x) in *. rewrite Z.testbit_odd, Z.shiftr_div_pow2 in Ht by lia.
  apply Z.odd_spec in Ht as [q Hq]. apply Z.mod_divide; [lia|]. exists (q + 1)%Z.
  rewrite Z.pow_add_r by lia. pose proof (Z.div_mod x (2 ^ t) ltac:(lia)). nia.
Qed.

Lemma wadd_divide j a b : (0 <= j <= 64 -> (2 ^ j | a) -> (2 ^ j | b) -> (2 ^ j | wadd a b))%Z.
Proof.
  intros Hj Ha Hb. unfold wadd, wrap64. rewrite Z.mod_eq by lia. apply Z.divide_sub_r.
  - by apply Z.divide_add_r.
  - apply Z.divide_mul_l. exists (2 ^ (64 - j))%Z. rewrite <- Z.pow_add_r by lia. f_equal. lia.
Qed.

(** ** Sorted lists *)

Lemma StronglySorted_app_iff {A} (R : A -> A -> Prop) l1 l2 :
  StronglySorted R (l1 ++ l2) <->
  StronglySorted R l1 /\ StronglySorted R l2 /\ forall x y, x ∈ l1 -> y ∈ l2 -> R x y.
Proof.
  induction l1 as [|a l1 IH]; cbn.
  - split; [intros H; split; [constructor|]; split; [done|]; intros x y Hx; by apply elem_of_nil in Hx|tauto].
  - split.
    + intros [H1 H2]%StronglySorted_inv. apply IH in H1 as (H3 & H4 & H5). apply Forall_app in H2 as [H6 H7].
      split; [by constructor|]. split; [done|]. intros x y [->|Hx]%elem_of_cons Hy; [|by apply H5].
      rewrite Forall_forall in H7. by apply H7.
    + intros ([H1 H2]%StronglySorted_inv & H3 & H4). constructor.
      * apply IH. split; [done|]. split; [done|]. intros x y Hx Hy. apply H4; [by right|done].
      * apply Forall_app. split; [done|]. apply Forall_forall. intros y Hy. apply H4; [by left|done].
Qed.
