(* ===== verification/Bytes.v ===== *)
(** * Bytes, structures in memory and bit flags

    What the drivers use of the language and of its crates to look at raw bytes: little-endian numbers,
    the layout that [repr(C)] gives a structure, valid UTF-8, and the types that the [bitflags] crate
    generates.  That crate is not part of the repository: its methods are the class [FlagOps], with
    their documented meaning on the bits as laws. *)
From Stdlib Require Import String.
From stdpp Require Import prelude list.
From S2P Require Import Prelude.
Open Scope Z_scope.

(** ** Little-endian numbers *)
Fixpoint le_bytes (n : nat) (v : Z) : list Z :=
  match n with O => [] | S n => v mod 256 :: le_bytes n (v / 256) end.

Fixpoint of_le (bs : list Z) : Z := match bs with [] => 0 | b :: bs => b + 256 * of_le bs end.

Definition is_byte (b : Z) : Prop := 0 <= b < 256.

Lemma le_bytes_length n : forall v, length (le_bytes n v) = n.
Proof. induction n as [|n IH]; intros v; cbn; [done|]. by rewrite IH. Qed.

Lemma of_le_bytes n : forall v, 0 <= v < 256 ^ Z.of_nat n -> of_le (le_bytes n v) = v.
Proof.
  induction n as [|n IH]; intros v Hv; cbn [le_bytes of_le]; [cbn in Hv; lia|].
  rewrite Nat2Z.inj_succ, Z.pow_succ_r in Hv by lia.
  rewrite IH; [pose proof (Z.div_mod v 256 ltac:(lia)); lia|]. split; [apply Z.div_pos; lia|]. apply Z.div_lt_upper_bound; lia.
Qed.

Lemma le_bytes_bytes n : forall v, Forall is_byte (le_bytes n v).
Proof. induction n as [|n IH]; intros v; cbn; constructor; [apply Z.mod_pos_bound; lia|apply IH]. Qed.

Lemma of_le_bound l : Forall is_byte l -> 0 <= of_le l < 256 ^ Z.of_nat (length l).
Proof.
  induction 1 as [|b l Hb _ IH]; cbn [of_le length]; [cbn; lia|]. rewrite Nat2Z.inj_succ, Z.pow_succ_r by lia. unfold is_byte in Hb. lia.
Qed.

Lemma le_bytes_of_le l : Forall is_byte l -> le_bytes (length l) (of_le l) = l.
Proof.
  induction 1 as [|b l Hb _ IH]; cbn [of_le length le_bytes]; [done|]. unfold is_byte in Hb.
  rewrite (Z.mul_comm 256), Z.mod_add, Z.div_add, (Z.mod_small b), (Z.div_small b), Z.add_0_l by lia. by rewrite IH.
Qed.

Lemma of_le_app l1 l2 : of_le (l1 ++ l2) = of_le l1 + 256 ^ Z.of_nat (length l1) * of_le l2.
Proof.
  induction l1 as [|b l IH]; cbn [app of_le length]; [cbn [Z.of_nat]; rewrite Z.pow_0_r; lia|].
  rewrite IH, Nat2Z.inj_succ, Z.pow_succ_r by lia. lia.
Qed.

Lemma le_bytes_app n m v : 0 <= v -> le_bytes (n + m) v = le_bytes n v ++ le_bytes m (v / 256 ^ Z.of_nat n).
Proof.
  revert v. induction n as [|n IH]; intros v Hv; cbn [Nat.add le_bytes app]; [by rewrite Z.div_1_r|].
  rewrite IH by (apply Z.div_pos; lia). rewrite Z.div_div by lia. rewrite Nat2Z.inj_succ, Z.pow_succ_r by lia. done.
Qed.

(** ** Structures in memory *)
Definition slice (d : list Z) (o n : nat) : list Z := take n (drop o d).

Record field := mkField { f_name : string; f_size : nat; f_align : nat }.

Definition round_up (o a : nat) : nat := ((o + a - 1) / a * a)%nat.

(** [repr(C)] puts each field at the next offset that its alignment allows. *)
Fixpoint layout_from (o : nat) (l : list field) : list (string * nat * nat) :=
  match l with
  | [] => []
  | f :: l => let s := round_up o (f_align f) in (f_name f, s, f_size f) :: layout_from (s + f_size f) l
  end.

Definition layout (l : list field) : list (string * nat * nat) := layout_from 0 l.

Definition struct_align (l : list field) : nat := foldr (fun f a => Nat.max (f_align f) a) 1%nat l.

Definition struct_size (l : list field) : nat :=
  round_up (match last (layout l) with Some (_, o, n) => o + n | None => 0 end)%nat (struct_align l).

Definition offset_of (l : list field) (name : string) : option (nat * nat) :=
  match List.find (fun e => String.eqb (fst (fst e)) name) (layout l) with Some (_, o, n) => Some (o, n) | None => None end.

(** The bytes of a field of a structure, and its value as an unsigned number. *)
Definition field_bytes (l : list field) (d : list Z) (name : string) : list Z :=
  match offset_of l name with Some (o, n) => slice d o n | None => [] end.

Definition field_val (l : list field) (d : list Z) (name : string) : Z := of_le (field_bytes l d name).

Lemma slice_bytes d o n : Forall is_byte d -> Forall is_byte (slice d o n).
Proof. intros H. by apply Forall_take, Forall_drop. Qed.

Lemma slice_length d o n : (o + n <= length d)%nat -> length (slice d o n) = n.
Proof. intros H. unfold slice. rewrite length_take, length_drop. lia. Qed.

Lemma field_bound l d name o n : Forall is_byte d -> offset_of l name = Some (o, n) -> 0 <= field_val l d name < 256 ^ Z.of_nat n.
Proof.
  intros Hd Ho. unfold field_val, field_bytes. rewrite Ho. pose proof (of_le_bound _ (slice_bytes d o n Hd)) as Hb.
  assert (length (slice d o n) <= n)%nat as Hl by (unfold slice; rewrite length_take; lia).
  split; [lia|]. eapply Z.lt_le_trans; [apply Hb|]. apply Z.pow_le_mono_r; lia.
Qed.

(** ** UTF-8 *)
Definition is_cont (b : Z) : bool := (128 <=? b) && (b <? 192).

(** [core::str::from_utf8] accepts exactly the well-formed byte sequences: no overlong forms, no
    surrogates and nothing above U+10FFFF. *)
Fixpoint utf8_ok (l : list Z) : bool :=
  match l with
  | [] => true
  | b :: l1 =>
      if b <? 128 then utf8_ok l1
      else if (194 <=? b) && (b <? 224) then match l1 with c :: l2 => is_cont c && utf8_ok l2 | [] => false end
      else if (224 <=? b) && (b <? 240) then
        match l1 with
        | c :: d :: l3 => (if b =? 224 then 160 <=? c else true) && (if b =? 237 then c <? 160 else true) && is_cont c && is_cont d && utf8_ok l3
        | _ => false
        end
      else if (240 <=? b) && (b <? 245) then
        match l1 with
        | c :: d :: e :: l4 => (if b =? 240 then 144 <=? c else true) && (if b =? 244 then c <? 144 else true) && is_cont c && is_cont d && is_cont e && utf8_ok l4
        | _ => false
        end
      else false
  end.

(** ** Flags *)
Class FlagOps := {
  contains : Z -> Z -> bool;
  intersects : Z -> Z -> bool;
  flag_set : Z -> Z -> bool -> Z;
  flag_truncate : Z -> Z -> Z;
}.

Class FlagLaws `{FlagOps} := {
  contains_spec : forall w f, contains w f = (Z.land w f =? f);
  intersects_spec : forall w f, intersects w f = negb (Z.land w f =? 0);
  flag_set_spec : forall w f b, flag_set w f b = if b then Z.lor w f else Z.ldiff w f;
  flag_truncate_spec : forall all w, flag_truncate all w = Z.land w all;
}.

(** The flag of one bit. *)
Definition bit (n : Z) : Z := Z.shiftl 1 n.
Definition any_of (l : list Z) : Z := foldr Z.lor 0 l.

Section Flags.
Context `{FO : FlagOps} {FL : FlagLaws}.

Lemma bit_test n i : 0 <= n -> Z.testbit (bit n) i = bool_decide (i = n).
Proof.
  intros Hn. unfold bit. rewrite Z.shiftl_1_l, Z.pow2_bits_eqb by done. destruct (Z.eqb_spec n i) as [->|]; [by rewrite bool_decide_eq_true_2|by rewrite bool_decide_eq_false_2].
Qed.

Lemma land_bit w n : 0 <= n -> Z.land w (bit n) = if Z.testbit w n then bit n else 0.
Proof.
  intros Hn. apply Z.bits_inj'. intros i Hi. rewrite Z.land_spec, bit_test by done. destruct (decide (i = n)) as [->|Hne].
  - rewrite bool_decide_eq_true_2 by done. rewrite andb_true_r. destruct (Z.testbit w n); [by rewrite bit_test, bool_decide_eq_true_2|by rewrite Z.bits_0].
  - rewrite bool_decide_eq_false_2 by done. rewrite andb_false_r. destruct (Z.testbit w n); [by rewrite bit_test, bool_decide_eq_false_2|by rewrite Z.bits_0].
Qed.

Lemma bit_pos n : 0 <= n -> 0 < bit n.
Proof. intros Hn. unfold bit. rewrite Z.shiftl_1_l. apply Z.pow_pos_nonneg; lia. Qed.

Lemma flags_contain_bit w n : 0 <= n -> contains w (bit n) = Z.testbit w n.
Proof using FL.
  intros Hn. rewrite contains_spec, land_bit by done. destruct (Z.testbit w n); [by rewrite Z.eqb_refl|]. pose proof (bit_pos n Hn).
  by rewrite (proj2 (Z.eqb_neq _ _)) by lia.
Qed.

Lemma land_bit_zero w n : 0 <= n -> (Z.land w (bit n) =? 0) = negb (Z.testbit w n).
Proof. intros Hn. rewrite land_bit by done. pose proof (bit_pos n Hn). destruct (Z.testbit w n); cbn [negb]; [by rewrite (proj2 (Z.eqb_neq _ _)) by lia|done]. Qed.

Lemma intersects_bit w n : 0 <= n -> intersects w (bit n) = Z.testbit w n.
Proof using FL. intros Hn. rewrite intersects_spec, land_bit_zero by done. apply negb_involutive. Qed.

Lemma flag_set_test w n b i : 0 <= n -> 0 <= i -> Z.testbit (flag_set w (bit n) b) i = if decide (i = n) then b else Z.testbit w i.
Proof using FL.
  intros Hn Hi. rewrite flag_set_spec. destruct b.
  - rewrite Z.lor_spec, bit_test by done. case_decide; [rewrite bool_decide_eq_true_2 by done; apply orb_true_r|rewrite bool_decide_eq_false_2 by done; apply orb_false_r].
  - rewrite Z.ldiff_spec, bit_test by done. case_decide; [rewrite bool_decide_eq_true_2 by done; apply andb_false_r|rewrite bool_decide_eq_false_2 by done; apply andb_true_r].
Qed.

End Flags.

(** ** The flags as masks *)
Module FlagWitness.

#[export] Instance mask_ops : FlagOps := {
  contains w f := Z.land w f =? f;
  intersects w f := negb (Z.land w f =? 0);
  flag_set w f b := if b then Z.lor w f else Z.ldiff w f;
  flag_truncate all w := Z.land w all }.

#[export] Instance mask_laws : FlagLaws.
Proof. by split. Qed.

End FlagWitness.
