(* ===== verification/Ranges.v ===== *)
(** * Address ranges and memory layouts

    Shared by the allocator components: [Layout] of [core::alloc], half-open address ranges,
    lists of pairwise disjoint ranges, the set of addresses they cover, tilings, and the
    interface between a heap of address space and its clients ([HeapAlloc]). *)
From stdpp Require Import prelude.
From S2P Require Import Prelude.
Open Scope Z_scope.

(** [core::alloc::Layout].  [from_size_align] guarantees a power-of-two alignment. *)
Record Layout := mkLayout { l_size : Z; l_align : Z }.

Definition layout_ok (l : Layout) : Prop :=
  0 <= l_size l < 2 ^ 63 /\ exists k, 0 <= k < 63 /\ l_align l = 2 ^ k.

(** [Layout::from_size_align]: the alignment is a power of two and the size, rounded up to it,
    fits [isize]. *)
Definition is_power_of_two (a : Z) : bool := (0 <? a) && (Z.land a (a - 1) =? 0).

Definition from_size_align (size align : Z) : option Layout :=
  if is_power_of_two align && (size <=? 2 ^ 63 - align) then Some (mkLayout size align) else None.

(** A range is its first address and its length. *)
Definition range : Type := Z * Z.

Definition in_range (x : Z) (r : range) : Prop := r.1 <= x < r.1 + r.2.

Definition disj (r1 r2 : range) : Prop := r1.1 + r1.2 <= r2.1 \/ r2.1 + r2.2 <= r1.1.

Definition covers (rs : list range) (x : Z) : Prop := Exists (in_range x) rs.

(** Pairwise disjoint ranges. *)
Fixpoint Disj (rs : list range) : Prop :=
  match rs with
  | [] => True
  | r :: rest => Forall (disj r) rest /\ Disj rest
  end.

Lemma disj_sym r1 r2 : disj r1 r2 -> disj r2 r1.
Proof. unfold disj. lia. Qed.

Lemma disj_spec r1 r2 : disj r1 r2 -> forall x, in_range x r1 -> in_range x r2 -> False.
Proof. unfold disj, in_range. lia. Qed.

Lemma disj_intro r1 r2 :
  0 < r1.2 -> 0 < r2.2 -> (forall x, in_range x r1 -> in_range x r2 -> False) -> disj r1 r2.
Proof.
  unfold disj, in_range. intros H1 H2 H.
  destruct (decide (r1.1 + r1.2 <= r2.1)); [by left|].
  destruct (decide (r2.1 + r2.2 <= r1.1)); [by right|].
  exfalso. apply (H (Z.max r1.1 r2.1)); lia.
Qed.

Lemma Disj_perm rs rs' : rs ≡ₚ rs' -> Disj rs -> Disj rs'.
Proof.
  induction 1; cbn.
  - done.
  - intros [Hf Hd]. split; [by rewrite <- H|auto].
  - intros [Hf [Hf' Hd]]. apply Forall_cons in Hf as [Hxy Hf].
    split; [apply Forall_cons; split; [by apply disj_sym|done]|done].
  - auto.
Qed.

Lemma covers_cons r rs x : covers (r :: rs) x <-> in_range x r \/ covers rs x.
Proof. apply Exists_cons. Qed.

Lemma covers_app rs rs' x : covers (rs ++ rs') x <-> covers rs x \/ covers rs' x.
Proof. apply Exists_app. Qed.

Lemma covers_nil x : covers [] x <-> False.
Proof. apply Exists_nil. Qed.

Lemma covers_elem rs x : covers rs x <-> exists r, r ∈ rs /\ in_range x r.
Proof. apply Exists_exists. Qed.

(** A non-empty range is disjoint from every range of a list exactly when they share no address. *)
Lemma disj_covers r rs :
  0 < r.2 -> Forall (fun r' => 0 < r'.2) rs ->
  Forall (disj r) rs <-> (forall x, in_range x r -> ~ covers rs x).
Proof.
  intros Hr Hrs. split.
  - intros Hf x Hx (r' & Hin & Hx')%covers_elem. rewrite Forall_forall in Hf.
    by eapply disj_spec; [apply Hf|..].
  - intros H. apply Forall_forall. intros r' Hin. rewrite Forall_forall in Hrs.
    apply disj_intro; [done|by apply Hrs|]. intros x Hx Hx'. apply (H x Hx), covers_elem. eauto.
Qed.

Lemma Disj_app rs rs' :
  Disj (rs ++ rs') <-> Disj rs /\ Disj rs' /\ Forall (fun r => Forall (disj r) rs') rs.
Proof.
  induction rs as [|r rs IH]; cbn.
  - split; [intros; repeat split; auto|tauto].
  - rewrite IH, Forall_app, Forall_cons. tauto.
Qed.

(** [k] consecutive blocks of size [t] from address [s]. *)
Definition tiles (s t : Z) (k : nat) : list range := (fun i => (s + t * Z.of_nat i, t)) <$> seq 0 k.

Lemma tiles_S s t k : tiles s t (S k) = tiles s t k ++ [(s + t * Z.of_nat k, t)].
Proof. unfold tiles. by rewrite seq_S, fmap_app. Qed.

Lemma tiles_cons s t k : tiles s t (S k) = (s, t) :: tiles (s + t) t k.
Proof.
  unfold tiles. cbn. f_equal; [f_equal; lia|]. rewrite <- fmap_S_seq, <- list_fmap_compose.
  apply list_fmap_ext. intros i x _. cbn. f_equal. lia.
Qed.

Lemma tiles_covers s t k x : 0 < t -> covers (tiles s t k) x <-> in_range x (s, t * Z.of_nat k).
Proof.
  intros Ht. induction k as [|k IH].
  - cbn. rewrite covers_nil. unfold in_range. cbn. lia.
  - rewrite tiles_S, covers_app, IH, covers_cons, covers_nil. unfold in_range. cbn. nia.
Qed.

Lemma tiles_elem s t k r : r ∈ tiles s t k -> exists i, (i < k)%nat /\ r = (s + t * Z.of_nat i, t).
Proof.
  unfold tiles. intros (i & -> & Hi)%list_elem_of_fmap. exists i.
  apply elem_of_seq in Hi. split; [lia|done].
Qed.

Lemma tiles_Disj s t k : 0 < t -> Disj (tiles s t k).
Proof.
  intros Ht. induction k as [|k IH]; [done|]. rewrite tiles_S. apply Disj_app.
  split; [done|]. split; [by split|]. apply Forall_forall. intros r (i & Hi & ->)%tiles_elem.
  apply Forall_cons. split; [|done]. left. cbn. nia.
Qed.

(** ** The heap interface

    [HeapAlloc] of [kernel/src/mem/allocator.rs]: what the fixed-size-block allocator calls for
    fresh pages.  [avail h x] says that the heap may still hand out address [x], [heap_inv]
    is its invariant and [room h] says that it has address space left. *)
Class HeapAlloc (H : Type) := {
  virt_allocate : Layout -> H -> outcome (result range unit * H);
  avail : H -> Z -> Prop;
  heap_inv : H -> Prop;
  room : H -> Prop;
}.

(** What the clients rely on: a page that is allocated is fresh, aligned and non-null, the heap
    gives it up and stays in a good state. *)
Definition page_layout : Layout := mkLayout 4096 4096.

Class HeapAllocLaws (H : Type) `{HeapAlloc H} := {
  virt_allocate_page : forall h r h',
    heap_inv h -> room h -> virt_allocate page_layout h = Done (Ok r, h') ->
    heap_inv h' /\ 4096 <= r.2 /\ r.1 mod 4096 = 0 /\ 0 < r.1 /\ r.1 + 4096 <= 2 ^ 64 /\
    (forall x, in_range x (r.1, 4096) -> avail h x /\ ~ avail h' x) /\
    (forall x, avail h' x -> avail h x);
}.
