(* ===== verification/FixedBlock.v ===== *)
(** * Fixed-size-block allocator

    Model of [kernel/src/mem/allocator/allocator_linked_list.rs] ([RawLinkedList], an intrusive
    list whose nodes live in the free blocks themselves) and of [NewFixedBlockAllocator] in
    [kernel/src/mem/allocator/fixed_size_block.rs].

    The memory that holds the list nodes is explicit: [mem] maps the address of a node to its
    [next] pointer, so a list is only what can be reached through memory.  The theorems relate
    this store to nine lists of free block addresses.  Fresh pages come from the superior
    allocator through the [HeapAlloc] interface; [AllocIf] instantiates it with a heap whose pages
    are mapped ([mem_map::map_page] in [extend]) before they are handed over. *)
From Stdlib Require Import Sorted.
From stdpp Require Import prelude gmap.
From S2P Require Import Prelude Ranges.
Open Scope Z_scope.

Module RawLinkedList.

Definition memory := gmap Z (option Z).

Record RawLinkedList := mk { len : Z; head : option Z }.

Definition new : RawLinkedList := mk 0 None.

(** [add]: the node written at [ptr] points to the old head. *)
Definition add (ptr : Z) (l : RawLinkedList) (m : gmap Z (option Z)) : RawLinkedList * gmap Z (option Z) :=
  (mk (len l ⊕ 1)%u64 (Some ptr), <[ptr := head l]> m).

Definition is_empty (l : RawLinkedList) : bool :=
  match head l with Some _ => false | None => true end.

(** [fetch]: [next.take()] moves the pointer out of the node.  A head that does not point to a
    node written by [add] has no defined behaviour in the source and is [Panic] here. *)
Definition fetch (l : RawLinkedList) (m : gmap Z (option Z)) :
    outcome (option Z * RawLinkedList * gmap Z (option Z)) :=
  match head l with
  | None => Done (None, l, m)
  | Some a =>
      next ← unwrap (m !! a);
      Done (Some a, mk (len l ⊖ 1)%u64 next, <[a := None]> m)
  end.

(** The list of node addresses reachable from a head pointer. *)
Fixpoint chain (m : gmap Z (option Z)) (h : option Z) (l : list Z) : Prop :=
  match l with
  | [] => h = None
  | a :: rest => h = Some a /\ exists n, m !! a = Some n /\ chain m n rest
  end.

Lemma chain_insert m h l a n : a ∉ l -> chain m h l -> chain (<[a := n]> m) h l.
Proof.
  revert h. induction l as [|b l IH]; intros h Ha; cbn; [done|].
  apply not_elem_of_cons in Ha as [Hne Ha].
  intros (-> & n' & Hn & Hc). split; [done|]. exists n'. split; [|by apply IH].
  by rewrite lookup_insert_ne.
Qed.

End RawLinkedList.

Module FixedBlock.
Import RawLinkedList.

Definition BLOCK_SIZES : list Z := [8; 16; 32; 64; 128; 256; 512; 1024; 2048].
Definition PAGE_SIZE : Z := 4096.
Definition INIT_BYTES : Z := 4096.

(** [FixedBlockInner], with the memory its lists are threaded through. *)
Record FixedBlockInner := mkInner {
  list_heads : list RawLinkedList;
  start : Z;
  alloc_count : Z;
  fmem : gmap Z (option Z);
}.

Definition new (m : gmap Z (option Z)) : FixedBlockInner :=
  mkInner (replicate (length BLOCK_SIZES) RawLinkedList.new) 0 0 m.

(** [iter().position(|&s| s >= n)]. *)
Fixpoint position (n : Z) (sizes : list Z) : option nat :=
  match sizes with
  | [] => None
  | s :: rest => if n <=? s then Some O else S <$> position n rest
  end.

Definition get_block_index (l : Layout) : option nat :=
  position (Z.max (l_size l) (l_align l)) BLOCK_SIZES.

(** [self.list_heads[i].add(ptr)]. *)
Definition list_add (i : nat) (ptr : Z) (a : FixedBlockInner) : outcome FixedBlockInner :=
  l ← unwrap (list_heads a !! i);
  let '(l', m') := add ptr l (fmem a) in
  Done (mkInner (<[i := l']> (list_heads a)) (start a) (alloc_count a) m').

(** [self.list_heads[i].fetch()]. *)
Definition list_fetch (i : nat) (a : FixedBlockInner) : outcome (option Z * FixedBlockInner) :=
  l ← unwrap (list_heads a !! i);
  r ← fetch l (fmem a);
  let '(p, l', m') := r in
  Done (p, mkInner (<[i := l']> (list_heads a)) (start a) (alloc_count a) m').

(** First non-empty list from index [i] on. *)
Fixpoint first_nonempty (i : nat) (heads : list RawLinkedList) : option nat :=
  match heads with
  | [] => None
  | l :: rest => if is_empty l then first_nonempty (S i) rest else Some i
  end.

(** [for block in 0..n { self.list_heads[target].add(region + t_target * block) }]. *)
Fixpoint add_blocks (target : nat) (region t_target : Z) (n : nat) (a : FixedBlockInner) : outcome FixedBlockInner :=
  match n with
  | O => Done a
  | S n' =>
      a' ← add_blocks target region t_target n' a;
      list_add target (region + t_target * Z.of_nat n') a'
  end.

Definition crack (target : nat) (a : FixedBlockInner) : outcome (result unit unit * FixedBlockInner) :=
  _ ← assert_that (bool_decide (target < length BLOCK_SIZES)%nat);
  match first_nonempty (target + 1) (drop (target + 1) (list_heads a)) with
  | None => Done (Err tt, a)
  | Some i =>
      t_large ← unwrap (BLOCK_SIZES !! i);
      t_target ← unwrap (BLOCK_SIZES !! target);
      r ← list_fetch i a;
      region ← unwrap r.1;
      a' ← add_blocks target region t_target (Z.to_nat (t_large / t_target)) r.2;
      Done (Ok tt, a')
  end.

Definition deallocate (ptr : Z) (l : Layout) (a : FixedBlockInner) : outcome FixedBlockInner :=
  if l_size l =? 0 then Done a
  else
    index ← unwrap (get_block_index l);
    list_add index ptr a.

(** [while (layout.size() - complete) >= num]: frees one block of [num] bytes per turn.  [fuel]
    bounds the turns; [layout.size() / 8 + 1] is enough, the blocks being at least 8 bytes. *)
Fixpoint dealloc_while (fuel : nat) (addr num size complete : Z) (a : FixedBlockInner) :
    outcome (Z * FixedBlockInner) :=
  match fuel with
  | O => Panic
  | S fuel' =>
      if num <=? (size ⊖ complete)%u64 then
        _ ← assert_that (negb ((addr ⊕ complete)%u64 =? 0));
        a' ← deallocate (addr ⊕ complete)%u64 (mkLayout num 1) a;
        dealloc_while fuel' addr num size (complete ⊕ num)%u64 a'
      else Done (complete, a)
  end.

(** [for i in BLOCK_SIZES.iter().rev()] with the early exit when everything is freed. *)
Fixpoint dealloc_sizes (fuel : nat) (addr size complete : Z) (sizes : list Z) (a : FixedBlockInner) :
    outcome FixedBlockInner :=
  match sizes with
  | [] => Done a
  | num :: rest =>
      r ← dealloc_while fuel addr num size complete a;
      let '(complete', a') := r in
      if complete' =? size then Done a' else dealloc_sizes fuel addr size complete' rest a'
  end.

Definition force_dealloc (ptr : Z) (l : Layout) (a : FixedBlockInner) : outcome FixedBlockInner :=
  _ ← assert_that (ptr mod 8 =? 0);
  dealloc_sizes (S (Z.to_nat (l_size l / 8))) ptr (l_size l) 0 (rev BLOCK_SIZES) a.

Definition init (ptr : Z) (a : FixedBlockInner) : outcome FixedBlockInner :=
  add_blocks 8 ptr 2048 (Z.to_nat (INIT_BYTES / 2048))
    (mkInner (list_heads a) ptr (alloc_count a) (fmem a)).

Section WithHeap.
Context {Heap : Type} `{HA : HeapAlloc Heap}.

Definition extend (a : FixedBlockInner) (h : Heap) : outcome (FixedBlockInner * Heap) :=
  let layout := mkLayout PAGE_SIZE PAGE_SIZE in
  r ← virt_allocate layout h;
  let '(res, h') := r in
  ptr ← unwrap (result_ok res);
  a' ← force_dealloc ptr.1 layout a;
  Done (a', h').

(** Refills list [index] when it is empty. *)
Definition refill (index : nat) (a : FixedBlockInner) (h : Heap) : outcome (FixedBlockInner * Heap) :=
  l ← unwrap (list_heads a !! index);
  if is_empty l then
    c ← crack index a;
    match c with
    | (Ok _, a') => Done (a', h)
    | (Err _, a') =>
        e ← extend a' h;
        let '(a'', h') := e in
        if bool_decide (index <> length BLOCK_SIZES - 1)%nat then
          c' ← crack index a'';
          match c' with (Ok _, a3) => Done (a3, h') | (Err _, _) => Panic end
        else Done (a'', h')
    end
  else Done (a, h).

(** A successful allocation is the slice [(address, length)]; a zero-sized one is dangling. *)
Definition allocate (l : Layout) (a : FixedBlockInner) (h : Heap) :
    outcome (result range unit * FixedBlockInner * Heap) :=
  let a := mkInner (list_heads a) (start a) (alloc_count a ⊕ 1)%u64 (fmem a) in
  if l_size l =? 0 then Done (Ok (1, 0), a, h)
  else match get_block_index l with
  | None => Done (Err tt, a, h)
  | Some index =>
      rf ← refill index a h;
      let '(a', h') := rf in
      f ← list_fetch index a';
      ptr ← unwrap f.1;
      size ← unwrap (BLOCK_SIZES !! index);
      Done (Ok (ptr, size), f.2, h')
  end.

End WithHeap.

(** ** The free lists as lists of addresses *)

(** [L] gives the addresses of the free blocks of each size. *)
Record repr (a : FixedBlockInner) (L : list (list Z)) : Prop := {
  repr_heads : length (list_heads a) = 9%nat;
  repr_lists : length L = 9%nat;
  repr_chain : forall i r l, list_heads a !! i = Some r -> L !! i = Some l ->
    chain (fmem a) (head r) l /\ len r = wrap64 (Z.of_nat (length l));
}.

(** The free blocks with their sizes. *)
Definition blocks_of (L : list (list Z)) (sizes : list Z) : list range :=
  concat (zip_with (fun s l => (fun p => (p, s)) <$> l) sizes L).

Definition blocks (L : list (list Z)) : list range := blocks_of L BLOCK_SIZES.

(** A block: naturally aligned, not at address zero, inside the address space. *)
Definition block_ok (r : range) : Prop :=
  r.2 ∈ BLOCK_SIZES /\ r.1 mod r.2 = 0 /\ 0 < r.1 /\ r.1 + r.2 <= 2 ^ 64.

Definition heap_ok (L : list (list Z)) : Prop := Disj (blocks L) /\ Forall block_ok (blocks L).

(** [ok a L]: the store realises the free lists [L], and the blocks are well formed. *)
Definition ok (a : FixedBlockInner) (L : list (list Z)) : Prop := repr a L /\ heap_ok L.

Lemma blocks_insert L sizes i l s p :
  L !! i = Some l -> sizes !! i = Some s ->
  blocks_of (<[i := p :: l]> L) sizes ≡ₚ (p, s) :: blocks_of L sizes.
Proof.
  unfold blocks_of. revert L i. induction sizes as [|s' sizes IH]; intros [|l' L] [|i] Hl Hs;
    try discriminate; cbn in *.
  - by simplify_eq.
  - rewrite (IH L i) by done. by rewrite Permutation_middle.
Qed.

Lemma blocks_remove L sizes i l s p :
  L !! i = Some (p :: l) -> sizes !! i = Some s ->
  blocks_of L sizes ≡ₚ (p, s) :: blocks_of (<[i := l]> L) sizes.
Proof.
  intros Hl Hs. rewrite <- (list_insert_id L i (p :: l)) at 1 by done.
  rewrite <- (blocks_insert (<[i := l]> L) sizes i l s p); [|apply list_lookup_insert_eq; by eapply lookup_lt_Some|done].
  by rewrite list_insert_insert_eq.
Qed.

Lemma blocks_fst L sizes : length L = length sizes -> (fst <$> blocks_of L sizes) = concat L.
Proof.
  unfold blocks_of. revert L. induction sizes as [|s sizes IH]; intros [|l L] Hlen; try discriminate; [done|].
  cbn. rewrite fmap_app, IH by (cbn in Hlen; lia). f_equal.
  rewrite <- list_fmap_compose. apply list_fmap_id.
Qed.

Lemma sizes_pos s : s ∈ BLOCK_SIZES -> 8 <= s <= 2048.
Proof. unfold BLOCK_SIZES. rewrite !elem_of_cons, elem_of_nil. lia. Qed.

Lemma heap_ok_pos L : heap_ok L -> Forall (fun r => 0 < r.2) (blocks L).
Proof.
  intros [_ Hok]. eapply Forall_impl; [exact Hok|]. intros r (Hs & _). cbn.
  apply sizes_pos in Hs. lia.
Qed.

Lemma blocks_elem a L p : ok a L -> p ∈ concat L -> exists s, (p, s) ∈ blocks L.
Proof.
  intros [Hr _] Hp. rewrite <- (blocks_fst L BLOCK_SIZES) in Hp by apply Hr.
  apply list_elem_of_fmap in Hp as ([p' s] & -> & Hin). by exists s.
Qed.

Lemma ok_fresh a L p s : ok a L -> 0 < s -> Forall (disj (p, s)) (blocks L) -> p ∉ concat L.
Proof.
  intros Hok Hs Hd Hin. pose proof Hok as [_ Hh]. apply (blocks_elem a) in Hin as [s' Hin]; [|done].
  rewrite Forall_forall in Hd. apply Hd in Hin as Hdj.
  apply heap_ok_pos in Hh. rewrite Forall_forall in Hh. apply Hh in Hin. cbn in Hin.
  unfold disj in Hdj. cbn in Hdj. lia.
Qed.

Lemma ok_nodup a L : ok a L -> NoDup (concat L).
Proof.
  intros [Hr [Hd Hok]]. rewrite <- (blocks_fst L BLOCK_SIZES) by apply Hr.
  fold (blocks L). induction (blocks L) as [|[p s] bs IH]; [constructor|]. cbn in *.
  apply Forall_cons in Hok as [Hb Hok]. destruct Hd as [Hd1 Hd2].
  constructor; [|by apply IH]. intros ([p' s'] & -> & Hin)%list_elem_of_fmap. cbn in *.
  rewrite Forall_forall in Hd1, Hok. apply Hd1 in Hin as Hdj. apply Hok in Hin as (Hs' & _).
  destruct Hb as (Hs & _). apply sizes_pos in Hs, Hs'. unfold disj in Hdj. cbn in *. lia.
Qed.

Lemma heads_lookup a L i l : repr a L -> L !! i = Some l -> exists r, list_heads a !! i = Some r.
Proof. intros Hr Hl. apply lookup_lt_is_Some. rewrite (repr_heads _ _ Hr), <- (repr_lists _ _ Hr). by eapply lookup_lt_Some. Qed.

Lemma elem_concat (L : list (list Z)) i l p : L !! i = Some l -> p ∈ l -> p ∈ concat L.
Proof.
  intros Hl Hp. apply list_elem_of_In, in_concat. exists l.
  split; apply list_elem_of_In; [by eapply list_elem_of_lookup_2|done].
Qed.

(** Pushing a block that is disjoint from the free ones. *)
Lemma list_add_ok a L i l s p :
  ok a L -> L !! i = Some l -> BLOCK_SIZES !! i = Some s ->
  Forall (disj (p, s)) (blocks L) -> block_ok (p, s) ->
  exists a', list_add i p a = Done a' /\ ok a' (<[i := p :: l]> L) /\
             blocks (<[i := p :: l]> L) ≡ₚ (p, s) :: blocks L.
Proof.
  intros Hok Hl Hs Hd Hb. pose proof Hok as [Hr [HD HF]].
  assert (0 < s) as Hpos by (destruct Hb as (Hb & _); apply sizes_pos in Hb; cbn in Hb; lia).
  pose proof (ok_fresh _ _ _ _ Hok Hpos Hd) as Hfresh.
  destruct (heads_lookup _ _ _ _ Hr Hl) as [r Hri].
  pose proof (blocks_insert L BLOCK_SIZES i l s p Hl Hs) as Hperm.
  eexists. split; [unfold list_add; rewrite Hri; reflexivity|]. split; [|exact Hperm].
  split; [split; cbn|split].
  - by rewrite length_insert, (repr_heads _ _ Hr).
  - by rewrite length_insert, (repr_lists _ _ Hr).
  - intros j r' l' Hj Hl'. destruct (decide (i = j)) as [<-|Hij].
    + rewrite list_lookup_insert_eq in Hj by by eapply lookup_lt_Some.
      rewrite list_lookup_insert_eq in Hl' by by eapply lookup_lt_Some. simplify_eq. cbn.
      destruct (repr_chain _ _ Hr _ _ _ Hri Hl) as [Hc Hn]. split.
      * split; [done|]. eexists. rewrite lookup_insert_eq. split; [done|].
        apply chain_insert; [|done]. intros Hp. by apply Hfresh; eapply elem_concat.
      * rewrite Hn. unfold wadd, wrap64. rewrite Z.add_mod_idemp_l by lia. f_equal. lia.
    + rewrite list_lookup_insert_ne in Hj by done.
      rewrite list_lookup_insert_ne in Hl' by done.
      destruct (repr_chain _ _ Hr _ _ _ Hj Hl') as [Hc Hn]. split; [|done].
      apply chain_insert; [|done]. intros Hp. by apply Hfresh; eapply elem_concat.
  - unfold blocks. eapply Disj_perm; [symmetry; exact Hperm|]. by split.
  - unfold blocks. rewrite Hperm. by constructor.
Qed.

(** Popping a block. *)
Lemma list_fetch_ok a L i l s p :
  ok a L -> L !! i = Some (p :: l) -> BLOCK_SIZES !! i = Some s ->
  exists a', list_fetch i a = Done (Some p, a') /\ ok a' (<[i := l]> L) /\
             blocks L ≡ₚ (p, s) :: blocks (<[i := l]> L).
Proof.
  intros Hok Hl Hs. pose proof Hok as [Hr [HD HF]].
  destruct (heads_lookup _ _ _ _ Hr Hl) as [r Hri].
  destruct (repr_chain _ _ Hr _ _ _ Hri Hl) as [(Hh & n & Hn & Hc) Hlen].
  pose proof (blocks_remove L BLOCK_SIZES i l s p Hl Hs) as Hperm.
  pose proof (ok_nodup _ _ Hok) as Hnd.
  assert (concat L ≡ₚ p :: concat (<[i := l]> L)) as Hcp.
  { rewrite <- !(blocks_fst _ BLOCK_SIZES) by (rewrite ?length_insert; apply Hr).
    rewrite Hperm. done. }
  rewrite Hcp in Hnd. apply NoDup_cons in Hnd as [Hfresh _].
  eexists. split; [unfold list_fetch; rewrite Hri; cbn; unfold fetch; rewrite Hh; cbn; rewrite Hn; reflexivity|].
  split; [|exact Hperm]. split; [split; cbn|split].
  - by rewrite length_insert, (repr_heads _ _ Hr).
  - by rewrite length_insert, (repr_lists _ _ Hr).
  - intros j r' l' Hj Hl'.
    assert (p ∉ l') as Hp by (intros Hp; by apply Hfresh; eapply elem_concat).
    destruct (decide (i = j)) as [<-|Hij].
    + rewrite list_lookup_insert_eq in Hj by by eapply lookup_lt_Some.
      rewrite list_lookup_insert_eq in Hl' by by eapply lookup_lt_Some. simplify_eq. cbn.
      split; [by apply chain_insert|].
      rewrite Hlen. unfold wsub, wrap64. rewrite Zminus_mod_idemp_l. f_equal. cbn. lia.
    + rewrite list_lookup_insert_ne in Hj by done.
      rewrite list_lookup_insert_ne in Hl' by done.
      destruct (repr_chain _ _ Hr _ _ _ Hj Hl') as [Hc' Hn']. split; [|done].
      by apply chain_insert.
  - unfold blocks in *. by apply (Disj_perm _ _ Hperm).
  - unfold blocks in *. rewrite Hperm in HF. by apply Forall_cons in HF as [_ HF].
Qed.

Lemma lists_lookup a L i : ok a L -> (i < 9)%nat -> exists l, L !! i = Some l.
Proof. intros [Hr _] Hi. apply lookup_lt_is_Some. by rewrite (repr_lists _ _ Hr). Qed.

(** Pushing a tiling block by block. *)
Lemma add_blocks_ok i s p n a L :
  ok a L -> BLOCK_SIZES !! i = Some s ->
  Disj (tiles p s n ++ blocks L) -> Forall block_ok (tiles p s n) ->
  exists a' L', add_blocks i p s n a = Done a' /\ ok a' L' /\
    blocks L' ≡ₚ tiles p s n ++ blocks L /\ (0 < n -> L' !! i <> Some [])%nat.
Proof.
  intros Hok Hs. induction n as [|n IH]; intros HD HF.
  - exists a, L. cbn. split; [done|]. split; [done|]. split; [done|lia].
  - rewrite tiles_S in HD, HF |- *. apply Forall_app in HF as [HF Hb]. apply Forall_cons in Hb as [Hb _].
    assert (Disj ((p + s * Z.of_nat n, s) :: tiles p s n ++ blocks L)) as [Hd HD'].
    { eapply Disj_perm; [|exact HD]. rewrite <- app_assoc. cbn. by rewrite Permutation_middle. }
    destruct (IH HD' HF) as (a1 & L1 & Heq & Hok1 & Hp1 & _). cbn. rewrite Heq. cbn.
    assert (i < 9)%nat as Hi by by apply lookup_lt_Some in Hs.
    destruct (lists_lookup _ _ _ Hok1 Hi) as [l Hl].
    destruct (list_add_ok a1 L1 i l s (p + s * Z.of_nat n) Hok1 Hl Hs) as (a2 & Heq2 & Hok2 & Hp2);
      [by rewrite Hp1|done|].
    exists a2, (<[i := (p + s * Z.of_nat n) :: l]> L1). split; [done|]. split; [done|]. split.
    + rewrite Hp2, Hp1, <- app_assoc. cbn. by rewrite <- Permutation_middle.
    + intros _. rewrite list_lookup_insert_eq by by eapply lookup_lt_Some. done.
Qed.

Lemma first_nonempty_spec k hs :
  match first_nonempty k hs with
  | Some i => exists j r, i = (k + j)%nat /\ hs !! j = Some r /\ is_empty r = false
  | None => forall j r, hs !! j = Some r -> is_empty r = true
  end.
Proof.
  revert k. induction hs as [|r hs IH]; intros k; cbn; [intros j r; done|].
  destruct (is_empty r) eqn:He.
  - specialize (IH (S k)). destruct first_nonempty as [i|].
    + destruct IH as (j & r' & -> & Hj & Hr'). exists (S j), r'. split; [lia|done].
    + intros [|j] r' Hj; cbn in Hj; [by simplify_eq|by eapply IH].
  - exists O, r. split; [lia|done].
Qed.

Lemma is_empty_spec a L i r l :
  ok a L -> list_heads a !! i = Some r -> L !! i = Some l -> is_empty r = bool_decide (l = []).
Proof.
  intros [Hr _] Hri Hl. destruct (repr_chain _ _ Hr _ _ _ Hri Hl) as [Hc _]. unfold is_empty.
  destruct l; cbn in Hc; [by rewrite Hc|]. destruct Hc as [-> _]. done.
Qed.

Lemma sizes_divide i j s t :
  BLOCK_SIZES !! i = Some s -> BLOCK_SIZES !! j = Some t -> (i <= j)%nat -> s * (t / s) = t.
Proof.
  intros Hi Hj Hij.
  assert (i < 9 /\ j < 9)%nat as [H1 H2] by (split; by eapply (lookup_lt_Some BLOCK_SIZES)).
  do 9 (destruct i as [|i]; [do 9 (destruct j as [|j]; [cbn in *; simplify_eq; first [reflexivity|lia]|]); lia|]).
  lia.
Qed.

(** A well-formed block splits into well-formed tiles. *)
Lemma tiles_block_ok p s t n :
  block_ok (p, t) -> s ∈ BLOCK_SIZES -> s * Z.of_nat n = t -> Forall block_ok (tiles p s n).
Proof.
  intros (Ht & Hal & Hp & Hend) Hs Hn. pose proof (sizes_pos _ Hs) as Hpos.
  apply sizes_pos in Ht. cbn in *.
  apply Forall_forall. intros r (i & Hi & ->)%tiles_elem. split; [done|]. cbn.
  assert (p mod s = 0) as Hps.
  { apply Z.mod_divide; [lia|]. apply Z.divide_trans with t; [exists (Z.of_nat n); lia|].
    apply Z.mod_divide; lia. }
  assert (s * (Z.of_nat i + 1) <= s * Z.of_nat n) by (apply Z.mul_le_mono_nonneg_l; lia).
  split; [|lia]. rewrite Z.mul_comm, Z_mod_plus_full. done.
Qed.

Lemma tiles_split p s t n R :
  0 < s -> s * Z.of_nat n = t -> (0 < n)%nat -> Forall (fun r => 0 < r.2) R ->
  Disj ((p, t) :: R) -> Disj (tiles p s n ++ R).
Proof.
  intros Hs Hn Hn0 HR [Hd HD]. apply Disj_app. split; [by apply tiles_Disj|]. split; [done|].
  apply Forall_forall. intros r (i & Hi & ->)%tiles_elem. apply disj_covers; [done..|].
  intros x Hx. eapply disj_covers; [| |exact Hd|]; [cbn; nia|done|]. unfold in_range in *. cbn in *. nia.
Qed.

(** [crack]: fails exactly when no larger block is free; otherwise one larger block is replaced
    by its tiling, so the free bytes stay the same. *)
Lemma crack_ok a L target s :
  ok a L -> BLOCK_SIZES !! target = Some s ->
  (crack target a = Done (Err tt, a) /\
     forall j, (target < j < 9)%nat -> L !! j = Some []) \/
  exists a' L' p t R, crack target a = Done (Ok tt, a') /\ ok a' L' /\
    blocks L ≡ₚ (p, t) :: R /\ blocks L' ≡ₚ tiles p s (Z.to_nat (t / s)) ++ R /\
    s * (t / s) = t /\ 0 < t / s /\ L' !! target <> Some [].
Proof.
  intros Hok Hs. pose proof (lookup_lt_Some _ _ _ Hs) as Ht. cbn in Ht.
  unfold crack. rewrite bool_decide_true by (cbn; lia). cbn [assert_that mbind outcome_bind].
  pose proof (first_nonempty_spec (target + 1) (drop (target + 1) (list_heads a))) as Hfn.
  destruct first_nonempty as [i|].
  - right. destruct Hfn as (j & r & -> & Hj & Hne). rewrite lookup_drop in Hj.
    assert (target + 1 + j < 9)%nat as Hi.
    { destruct Hok as [Hr _]. rewrite <- (repr_heads _ _ Hr). by eapply lookup_lt_Some. }
    destruct (lists_lookup _ _ _ Hok Hi) as [l Hl].
    rewrite (is_empty_spec _ _ _ _ _ Hok Hj Hl) in Hne. destruct l as [|p l]; [done|].
    destruct (lookup_lt_is_Some_2 BLOCK_SIZES (target + 1 + j) Hi) as [t Hti].
    pose proof (sizes_divide _ _ _ _ Hs Hti ltac:(lia)) as Hdiv.
    destruct (list_fetch_ok _ _ _ _ _ _ Hok Hl Hti) as (a1 & Heq & Hok1 & Hp1).
    rewrite Hti, Hs. cbn. rewrite Heq. cbn.
    assert (8 <= s <= 2048) as Hsp by (apply sizes_pos; by eapply list_elem_of_lookup_2).
    assert (8 <= t <= 2048) as Htp by (apply sizes_pos; by eapply list_elem_of_lookup_2).
    assert (0 < t / s) as Hq by nia.
    destruct (add_blocks_ok target s p (Z.to_nat (t / s)) a1 _ Hok1 Hs) as (a2 & L2 & Heq2 & Hok2 & Hp2 & Hne2).
    + apply (tiles_split p s t); [lia|lia|lia|apply heap_ok_pos, Hok1|].
      eapply Disj_perm; [exact Hp1|]. apply Hok.
    + apply (tiles_block_ok p s t); [|by eapply list_elem_of_lookup_2|lia].
      destruct Hok as [_ [_ HF]]. rewrite Hp1 in HF. by apply Forall_cons in HF as [HF _].
    + rewrite Heq2. cbn. exists a2, L2, p, t, (blocks (<[(target + 1 + j)%nat:=l]> L)).
      split; [done|]. split; [done|]. split; [done|]. split; [done|]. split; [done|]. split; [done|].
      apply Hne2. lia.
  - left. split; [done|]. intros j Hj. destruct (lists_lookup _ _ _ Hok (proj2 Hj)) as [l Hl].
    destruct (heads_lookup _ _ _ _ (proj1 Hok) Hl) as [r Hri].
    specialize (Hfn (j - (target + 1))%nat r). rewrite lookup_drop in Hfn.
    replace (target + 1 + (j - (target + 1)))%nat with j in Hfn by lia.
    specialize (Hfn Hri). rewrite (is_empty_spec _ _ _ _ _ Hok Hri Hl) in Hfn.
    apply bool_decide_eq_true in Hfn. by subst.
Qed.

Lemma position_spec n i : position n BLOCK_SIZES = Some i ->
  exists s, BLOCK_SIZES !! i = Some s /\ n <= s /\ forall j t, (j < i)%nat -> BLOCK_SIZES !! j = Some t -> t < n.
Proof.
  generalize BLOCK_SIZES as sizes. intros sizes. revert i.
  induction sizes as [|s sizes IH]; intros i; cbn; [done|]. destruct (n <=? s) eqn:E; bool_to_prop.
  - intros [= <-]. exists s. split; [done|]. split; [lia|]. intros j t Hj. lia.
  - destruct position as [i'|]; cbn; intros [= <-]. destruct (IH i' eq_refl) as (s' & Hs' & Hn & Hmin).
    exists s'. split; [done|]. split; [done|]. intros [|j] t Hj Ht; cbn in Ht; [simplify_eq; lia|].
    eapply Hmin; [|done]. lia.
Qed.

Lemma position_none n : position n BLOCK_SIZES = None <-> 2048 < n.
Proof.
  unfold BLOCK_SIZES. cbn.
  repeat (match goal with |- context [n <=? ?k] => destruct (n <=? k) eqn:?; cbn; bool_to_prop end);
    (split; [first [done | lia] | first [done | lia]]).
Qed.

Lemma index_of_size i s : BLOCK_SIZES !! i = Some s -> get_block_index (mkLayout s 1) = Some i.
Proof.
  intros Hs. assert (i < 9)%nat as Hi by by eapply (lookup_lt_Some BLOCK_SIZES).
  do 9 (destruct i as [|i]; [cbn in Hs; by simplify_eq|]). lia.
Qed.

(** [deallocate] pushes the block on the list of its size class. *)
Lemma deallocate_ok a L l i s p :
  ok a L -> l_size l <> 0 -> get_block_index l = Some i -> BLOCK_SIZES !! i = Some s ->
  Forall (disj (p, s)) (blocks L) -> block_ok (p, s) ->
  exists a' L', deallocate p l a = Done a' /\ ok a' L' /\ blocks L' ≡ₚ (p, s) :: blocks L /\
    exists tl, L' !! i = Some (p :: tl) /\ L !! i = Some tl.
Proof.
  intros Hok Hsz Hi Hs Hd Hb. assert (i < 9)%nat as Hi9 by by eapply (lookup_lt_Some BLOCK_SIZES).
  destruct (lists_lookup _ _ _ Hok Hi9) as [tl Htl].
  destruct (list_add_ok _ _ _ _ _ _ Hok Htl Hs Hd Hb) as (a' & Heq & Hok' & Hp).
  exists a', (<[i := p :: tl]> L). unfold deallocate. rewrite (proj2 (Z.eqb_neq _ _) Hsz), Hi. cbn.
  split; [done|]. split; [done|]. split; [done|]. exists tl. split; [|done].
  apply list_lookup_insert_eq. by eapply lookup_lt_Some.
Qed.

Section Force.
Context (addr size : Z) (Haddr : 0 < addr) (Hsize : 0 <= size < 2 ^ 63) (Hend : addr + size <= 2 ^ 64).

(** The bytes still to be freed after [complete] of them. *)
Definition rest_fresh (complete : Z) (L : list (list Z)) : Prop :=
  forall x, in_range x (addr + complete, size - complete) -> ~ covers (blocks L) x.

Lemma dealloc_while_ok num i fuel complete a L :
  ok a L -> BLOCK_SIZES !! i = Some num -> (num | addr) -> (num | complete) ->
  0 <= complete <= size -> (size - complete) / num < Z.of_nat fuel -> rest_fresh complete L ->
  let k := (size - complete) / num in
  exists a' L', dealloc_while fuel addr num size complete a = Done (complete + num * k, a') /\
    ok a' L' /\ blocks L' ≡ₚ tiles (addr + complete) num (Z.to_nat k) ++ blocks L.
Proof.
  intros Hok Hi Hda. revert complete a L Hok.
  assert (8 <= num <= 2048) as Hnum by (apply sizes_pos; by eapply list_elem_of_lookup_2).
  induction fuel as [|fuel IH]; intros complete a L Hok Hdc Hc Hfuel Hfresh k; cbn.
  { pose proof (Z.div_pos (size - complete) num). lia. }
  rewrite wsub_small by (unfold is_u64; lia). destruct (num <=? size - complete) eqn:E; bool_to_prop.
  - rewrite !wadd_small by (unfold is_u64; lia).
    rewrite (proj2 (Z.eqb_neq (addr + complete) 0)) by lia. cbn [assert_that negb mbind outcome_bind].
    assert (Forall (disj (addr + complete, num)) (blocks L)) as Hd.
    { apply disj_covers; [cbn; lia|apply heap_ok_pos, Hok|]. intros x Hx. apply Hfresh.
      unfold in_range in *. cbn in *. lia. }
    destruct (deallocate_ok a L (mkLayout num 1) i num (addr + complete) Hok) as (a1 & L1 & Heq & Hok1 & Hp1 & _);
      [cbn; lia|by apply index_of_size|done|done| |].
    { split; [by eapply list_elem_of_lookup_2|]. cbn. split; [|lia].
      apply Z.mod_divide; [lia|]. by apply Z.divide_add_r. }
    rewrite Heq. cbn.
    assert (k = (size - (complete + num)) / num + 1) as Hk.
    { subst k. rewrite <- Z.div_add by lia. f_equal. lia. }
    destruct (IH (complete + num) a1 L1 Hok1) as (a2 & L2 & Heq2 & Hok2 & Hp2).
    + apply Z.divide_add_r; [done|apply Z.divide_refl].
    + lia.
    + fold k in Hfuel. lia.
    + intros x Hx. unfold covers. rewrite Hp1. intros [Hin|Hin]%covers_cons.
      * unfold in_range in *. cbn in *. lia.
      * eapply Hfresh; [|exact Hin]. unfold in_range in *. cbn in *. lia.
    + assert (0 <= (size - (complete + num)) / num) by (apply Z.div_pos; lia).
      exists a2, L2. rewrite Heq2, Hk. split; [do 2 f_equal; lia|]. split; [done|].
      rewrite Hp2, Hp1, Z.add_1_r, Z2Nat.inj_succ, tiles_cons by done. cbn.
      by rewrite <- Permutation_middle, Z.add_assoc.
  - exists a, L. subst k. rewrite Z.div_small by lia. split; [do 2 f_equal; lia|]. split; done.
Qed.

(** The blocks [T] pushed between two values of [complete]. *)
Definition freed (complete c num : Z) (L L' : list (list Z)) (T : list range) : Prop :=
  blocks L' ≡ₚ T ++ blocks L /\ complete <= c <= size /\ size - c < num /\ (num | c) /\
  forall x, covers T x <-> in_range x (addr + complete, c - complete).

Lemma dealloc_while_freed num fuel complete a L :
  ok a L -> num ∈ BLOCK_SIZES -> (num | addr) -> (num | complete) ->
  0 <= complete <= size -> size / 8 < Z.of_nat fuel -> rest_fresh complete L ->
  exists a' L' T c, dealloc_while fuel addr num size complete a = Done (c, a') /\
    ok a' L' /\ freed complete c num L L' T /\ rest_fresh c L' /\
    (num <= size - complete -> (addr + complete, num) ∈ T).
Proof.
  intros Hok Hnum Hda Hdc Hc Hfuel Hfresh.
  destruct (proj1 (list_elem_of_lookup _ _) Hnum) as [i Hi]. pose proof (sizes_pos _ Hnum) as Hpos.
  assert ((size - complete) / num < Z.of_nat fuel) as Hfuel'.
  { eapply Z.le_lt_trans; [|exact Hfuel]. transitivity (size / num);
      [apply Z.div_le_mono; lia|apply Z.div_le_compat_l; lia]. }
  destruct (dealloc_while_ok num i fuel complete a L Hok Hi Hda Hdc Hc Hfuel' Hfresh)
    as (a1 & L1 & Heq & Hok1 & Hp1).
  set (k := (size - complete) / num) in *. assert (0 <= k) as Hk by (apply Z.div_pos; lia).
  pose proof (Z.div_mod (size - complete) num ltac:(lia)) as Hdm.
  pose proof (Z.mod_pos_bound (size - complete) num ltac:(lia)) as Hmb. fold k in Hdm.
  assert (forall x, covers (tiles (addr + complete) num (Z.to_nat k)) x <->
                    in_range x (addr + complete, complete + num * k - complete)) as Hcov.
  { intros x. rewrite tiles_covers, Z2Nat.id by lia. unfold in_range. cbn. lia. }
  exists a1, L1, (tiles (addr + complete) num (Z.to_nat k)), (complete + num * k).
  split; [done|]. split; [done|]. split; [|split].
  - split; [done|]. split; [lia|]. split; [lia|]. split; [|done].
    apply Z.divide_add_r; [done|apply Z.divide_factor_l].
  - intros x Hx. unfold covers. rewrite Hp1. intros [Hin|Hin]%covers_app.
    + apply Hcov in Hin. unfold in_range in *. cbn in *. lia.
    + eapply Hfresh; [|exact Hin]. unfold in_range in *. cbn in *. lia.
  - intros Hle. assert (0 < k) by nia. replace (Z.to_nat k) with (S (Z.to_nat (k - 1))) by lia.
    rewrite tiles_cons. left.
Qed.

Lemma last_divides num sizes :
  StronglySorted (fun s t => (t | s)) (num :: sizes) -> forall z, (num | z) -> (List.last (num :: sizes) 1 | z).
Proof.
  revert num. induction sizes as [|num' sizes IH]; intros num Hs z Hz; [done|].
  apply StronglySorted_inv in Hs as [Hs Hd]. apply Forall_cons in Hd as [Hd _].
  apply (IH num' Hs). by apply Z.divide_trans with num.
Qed.

Lemma last_positive num sizes : Forall (.∈ BLOCK_SIZES) (num :: sizes) -> 0 < List.last (num :: sizes) 1.
Proof.
  revert num. induction sizes as [|num' sizes IH]; intros num [Hn Hs]%Forall_cons; [|by apply IH].
  cbn. apply sizes_pos in Hn. lia.
Qed.

Lemma dealloc_sizes_ok sizes num fuel complete a L :
  ok a L -> StronglySorted (fun s t => (t | s)) (num :: sizes) -> Forall (.∈ BLOCK_SIZES) (num :: sizes) ->
  (num | addr) -> (num | complete) -> 0 <= complete <= size -> size / 8 < Z.of_nat fuel ->
  rest_fresh complete L ->
  exists a' L' T c, dealloc_sizes fuel addr size complete (num :: sizes) a = Done a' /\
    ok a' L' /\ freed complete c (List.last (num :: sizes) 1) L L' T /\
    (num <= size - complete -> (addr + complete, num) ∈ T).
Proof.
  revert num complete a L. induction sizes as [|num' sizes IH];
    intros num complete a L Hok Hsort Hin Hda Hdc Hc Hfuel Hfresh;
    pose proof Hin as [Hnum Hin']%Forall_cons;
    destruct (dealloc_while_freed num fuel complete a L Hok Hnum Hda Hdc Hc Hfuel Hfresh)
      as (a1 & L1 & T1 & c1 & Heq & Hok1 & Hfr & Hfresh1 & Hhd);
    cbn [dealloc_sizes]; rewrite Heq; cbn [mbind outcome_bind].
  - exists a1, L1, T1, c1. split; [by destruct (_ =? _)|]. done.
  - pose proof (last_divides _ _ Hsort) as Hlast. pose proof (last_positive _ _ Hin) as Hlp.
    destruct Hfr as (Hp1 & Hc1 & Hr1 & Hd1 & HT1). destruct (c1 =? size) eqn:E; bool_to_prop.
    + exists a1, L1, T1, c1. split; [done|]. split; [done|]. split; [|done].
      split; [done|]. split; [lia|]. split; [lia|]. split; [by apply Hlast|done].
    + apply StronglySorted_inv in Hsort as [Hsort [Hd _]%Forall_cons].
      destruct (IH num' c1 a1 L1 Hok1 Hsort Hin') as
        (a2 & L2 & T2 & c & Heq2 & Hok2 & (Hp2 & Hc2 & Hr2 & Hd2 & HT2) & _);
        [by apply Z.divide_trans with num|by apply Z.divide_trans with num|lia|done|done|].
      exists a2, L2, (T1 ++ T2), c. split; [done|]. split; [done|]. split; [split; [|split; [lia|]]|].
      * rewrite Hp2, Hp1, !app_assoc. by rewrite (Permutation_app_comm T1).
      * split; [done|]. split; [done|]. intros x. rewrite covers_app, HT1, HT2. unfold in_range. cbn. lia.
      * intros Hle. apply elem_of_app. left. by apply Hhd.
Qed.

End Force.

Lemma block_sizes_sorted : StronglySorted (fun s t => (t | s)) (rev BLOCK_SIZES).
Proof.
  cbn. repeat constructor;
    match goal with |- (?a | ?b) => exists (b / a); reflexivity end.
Qed.

Lemma force_dealloc_lists addr l a L :
  ok a L -> addr mod 2048 = 0 -> 0 < addr -> 0 <= l_size l < 2 ^ 63 -> addr + l_size l <= 2 ^ 64 ->
  rest_fresh addr (l_size l) 0 L ->
  exists a' L' T, force_dealloc addr l a = Done a' /\ ok a' L' /\ blocks L' ≡ₚ T ++ blocks L /\
    (forall x, covers T x <-> in_range x (addr, l_size l - l_size l mod 8)) /\
    (2048 <= l_size l -> (addr, 2048) ∈ T).
Proof.
  intros Hok Hal Hpos Hsz Hend Hfresh. apply Z.mod_divide in Hal; [|lia].
  unfold force_dealloc. rewrite (proj2 (Z.eqb_eq (addr mod 8) 0)).
  2:{ apply Z.mod_divide; [lia|]. apply Z.divide_trans with 2048; [by exists 256|done]. }
  cbn [assert_that mbind outcome_bind].
  destruct (dealloc_sizes_ok addr (l_size l) Hpos Hsz Hend [1024; 512; 256; 128; 64; 32; 16; 8] 2048
    (S (Z.to_nat (l_size l / 8))) 0 a L Hok block_sizes_sorted)
    as (a' & L' & T & c & Heq & Hok' & (Hp & Hc & Hr & Hd & HT) & Hhd); [|done|apply Z.divide_0_r|lia| |done|].
  - by apply (bool_decide_unpack _).
  - rewrite Nat2Z.inj_succ, Z2Nat.id by (apply Z.div_pos; lia). lia.
  - exists a', L', T. split; [exact Heq|]. split; [done|]. split; [done|].
    rewrite Z.add_0_r, Z.sub_0_r in Hhd. split; [|exact Hhd].
    intros x. rewrite HT. cbn in Hr, Hd. destruct Hd as [q ->].
    replace (l_size l mod 8) with (l_size l - q * 8); [unfold in_range; cbn; lia|].
    apply Z.mod_unique_pos with q; lia.
Qed.

Lemma blocks_elem_list L i p s :
  (p, s) ∈ blocks L -> BLOCK_SIZES !! i = Some s -> L !! i <> Some [].
Proof.
  intros Hin Hi. enough (exists j l, L !! j = Some l /\ BLOCK_SIZES !! j = Some s /\ l <> []) as (j & l & Hl & Hj & Hne).
  { assert (i = j) as -> by (eapply (NoDup_lookup BLOCK_SIZES); [by apply (bool_decide_unpack _)|done..]).
    rewrite Hl. congruence. }
  revert Hin. unfold blocks, blocks_of. clear Hi. generalize BLOCK_SIZES as sizes. intros sizes. revert L.
  induction sizes as [|s' sizes IH]; intros [|l L] Hin; cbn in Hin; try by apply elem_of_nil in Hin.
  apply elem_of_app in Hin as [Hin|Hin].
  - apply list_elem_of_fmap in Hin as (p' & [= -> ->] & Hp'). exists O, l. split; [done|]. split; [done|].
    intros ->. by apply elem_of_nil in Hp'.
  - destruct (IH L Hin) as (j & l' & ?). by exists (S j), l'.
Qed.

Lemma sizes_pow s : s ∈ BLOCK_SIZES -> exists j, 0 <= j /\ s = 2 ^ j.
Proof.
  unfold BLOCK_SIZES. rewrite !elem_of_cons, elem_of_nil. intros Hs.
  destruct_or! Hs; [exists 3|exists 4|exists 5|exists 6|exists 7|exists 8|exists 9|exists 10|exists 11];
    subst; split; (lia || reflexivity).
Qed.

Lemma block_aligned p s k : s ∈ BLOCK_SIZES -> 0 <= k -> 2 ^ k <= s -> p mod s = 0 -> p mod 2 ^ k = 0.
Proof.
  intros Hs Hk Hle Hp. destruct (sizes_pow _ Hs) as (j & Hj & ->).
  apply Z.pow_le_mono_r_iff in Hle; [|lia|lia]. apply Z.mod_divide in Hp; [|lia]. apply Z.mod_divide; [lia|].
  apply Z.divide_trans with (2 ^ j); [|done]. exists (2 ^ (j - k)). rewrite <- Z.pow_add_r by lia. f_equal. lia.
Qed.

(** Splitting a free block keeps the free bytes. *)
Lemma crack_covers L L' p t s R x :
  0 < s -> s * (t / s) = t -> 0 < t / s -> blocks L ≡ₚ (p, t) :: R ->
  blocks L' ≡ₚ tiles p s (Z.to_nat (t / s)) ++ R -> covers (blocks L') x <-> covers (blocks L) x.
Proof.
  intros Hs Hd Hq H1 H2. unfold covers. rewrite H1, H2.
  change (covers (tiles p s (Z.to_nat (t / s)) ++ R) x <-> covers ((p, t) :: R) x).
  rewrite covers_app, covers_cons, tiles_covers, Z2Nat.id, Hd by lia. done.
Qed.

Section Client.
Context {Heap : Type} `{HL : HeapAllocLaws Heap}.

(** The heap below is in a good state and does not own the free blocks. *)
Definition sep (L : list (list Z)) (h : Heap) : Prop :=
  heap_inv h /\ forall x, covers (blocks L) x -> ~ avail h x.

(** The heap below can serve one more page. *)
Definition can_page (h : Heap) : Prop :=
  room h /\ exists r h', virt_allocate page_layout h = Done (Ok r, h').

Lemma extend_ok a L h :
  ok a L -> sep L h -> can_page h ->
  exists a' L' h', extend a h = Done (a', h') /\ ok a' L' /\ sep L' h' /\ L' !! 8%nat <> Some [] /\
    (forall x, covers (blocks L) x -> covers (blocks L') x) /\
    (forall x, covers (blocks L') x -> covers (blocks L) x \/ avail h x) /\
    (forall x, avail h' x -> avail h x).
Proof.
  intros Hok [Hinv Hsep] (Hroom & r & h' & Hva).
  destruct (virt_allocate_page h r h' Hinv Hroom Hva) as (Hinv' & Hlen & Hal & Hpos & Hend & Hfresh & Hmono).
  assert (r.1 mod 2048 = 0) as Hal2.
  { apply Z.mod_divide in Hal; [|discriminate]. apply Z.mod_divide; [lia|].
    apply Z.divide_trans with 4096; [by exists 2|done]. }
  destruct (force_dealloc_lists r.1 (mkLayout PAGE_SIZE PAGE_SIZE) a L Hok Hal2 Hpos)
    as (a' & L' & T & Heq & Hok' & Hp & HT & Hhd); [cbn; unfold PAGE_SIZE; lia|cbn; unfold PAGE_SIZE in *; lia| |].
  { intros x Hx Hc. rewrite Z.add_0_r, Z.sub_0_r in Hx. by eapply Hsep, Hfresh. }
  assert (forall x, covers (blocks L') x <-> in_range x (r.1, PAGE_SIZE) \/ covers (blocks L) x) as Hcov.
  { intros x. unfold covers. rewrite Hp. rewrite <- (HT x). apply covers_app. }
  exists a', L', h'. unfold extend.
  change (mkLayout PAGE_SIZE PAGE_SIZE) with page_layout in *. rewrite Hva. cbn. rewrite Heq. split; [done|]. split; [done|]. split; [|split].
  - split; [done|]. intros x [Hx|Hx]%Hcov; [by apply Hfresh|]. intros Hav. by eapply Hsep, Hmono.
  - apply blocks_elem_list with r.1 2048; [|done]. rewrite Hp. apply elem_of_app. left. apply Hhd. done.
  - split; [intros x Hx; apply Hcov; by right|]. split; [|done].
    intros x [Hx|Hx]%Hcov; [right; by apply Hfresh|by left].
Qed.

Lemma refill_ok a L h i s :
  ok a L -> sep L h -> can_page h -> BLOCK_SIZES !! i = Some s ->
  exists a' L' h', refill i a h = Done (a', h') /\ ok a' L' /\ sep L' h' /\ L' !! i <> Some [] /\
    (forall x, covers (blocks L) x -> covers (blocks L') x) /\
    (forall x, covers (blocks L') x -> covers (blocks L) x \/ avail h x) /\
    (forall x, avail h' x -> avail h x).
Proof.
  intros Hok Hsep Hpage Hs. pose proof (lookup_lt_Some _ _ _ Hs) as Hi. cbn in Hi.
  assert (0 < s) as Hsp by (apply list_elem_of_lookup_2, sizes_pos in Hs; lia).
  destruct (lists_lookup _ _ _ Hok Hi) as [l Hl]. destruct (heads_lookup _ _ _ _ (proj1 Hok) Hl) as [r Hr].
  unfold refill. rewrite Hr. cbn [unwrap mbind outcome_bind]. rewrite (is_empty_spec _ _ _ _ _ Hok Hr Hl).
  case_bool_decide as Hemp.
  2:{ exists a, L, h. split; [done|]. split; [done|]. split; [done|]. split; [congruence|]. auto. }
  destruct (crack_ok a L i s Hok Hs) as [[Hc _]|(a1 & L1 & p & t & R & Hc & Hok1 & Hp1 & Hp2 & Hd & Hq & Hne)];
    rewrite Hc; cbn [unwrap mbind outcome_bind].
  - destruct (extend_ok a L h Hok Hsep Hpage) as (a1 & L1 & h1 & He & Hok1 & Hsep1 & Hne & Hc1 & Hc2 & Hm).
    rewrite He. cbn [mbind outcome_bind]. case_bool_decide as Hlast.
    + destruct (crack_ok a1 L1 i s Hok1 Hs) as [[_ Hall]|(a2 & L2 & p & t & R & Hc' & Hok2 & Hp1 & Hp2 & Hd & Hq & Hne2)].
      { destruct Hne. apply Hall. cbn in Hlast. lia. }
      rewrite Hc'. cbn. pose proof (fun x => crack_covers _ _ _ _ _ _ x Hsp Hd Hq Hp1 Hp2) as Hcc.
      exists a2, L2, h1. split; [done|]. split; [done|].
      split; [split; [apply Hsep1|intros x Hx; apply Hsep1, Hcc, Hx]|]. split; [done|].
      split; [intros x Hx; by apply Hcc, Hc1|]. split; [intros x Hx; by apply Hc2, Hcc|done].
    + exists a1, L1, h1. split; [done|]. split; [done|]. split; [done|].
      replace i with 8%nat by (cbn in Hlast; lia). auto.
  - pose proof (fun x => crack_covers _ _ _ _ _ _ x Hsp Hd Hq Hp1 Hp2) as Hcc.
    exists a1, L1, h. split; [done|]. split; [done|].
    split; [split; [apply Hsep|intros x Hx; apply Hsep, Hcc, Hx]|].
    split; [done|]. split; [intros x Hx; by apply Hcc|]. split; [intros x Hx; left; by apply Hcc|done].
Qed.

Lemma ok_count a L n : ok a L -> ok (mkInner (list_heads a) (start a) n (fmem a)) L.
Proof. intros [[H1 H2 H3] Hh]. split; [split; cbn; done|done]. Qed.

(** The calls are counted, whatever they return. *)
Definition counted (a : FixedBlockInner) : FixedBlockInner := mkInner (list_heads a) (start a) (alloc_count a ⊕ 1)%u64 (fmem a).

Lemma allocate_zero a h l : l_size l = 0 -> allocate l a h = Done (Ok (1, 0), counted a, h).
Proof. intros Hl. unfold allocate. by rewrite Hl. Qed.

Lemma allocate_large a h l : l_size l <> 0 -> 2048 < Z.max (l_size l) (l_align l) -> allocate l a h = Done (Err tt, counted a, h).
Proof.
  intros Hl Hmax. unfold allocate. rewrite (proj2 (Z.eqb_neq _ _) Hl). destruct (get_block_index l) as [i|] eqn:Hi; [|done].
  apply position_spec in Hi as (s & Hs & Hle & _). assert (s <= 2048); [|lia]. by apply sizes_pos, (list_elem_of_lookup_2 _ i).
Qed.

(** Soundness and totality of [allocate] over any heap that keeps its promises. *)
Lemma allocate_ok a L h l :
  ok a L -> sep L h -> can_page h -> layout_ok l -> 0 < l_size l -> Z.max (l_size l) (l_align l) <= 2048 ->
  exists p s a' L' h', allocate l a h = Done (Ok (p, s), a', h') /\
    l_size l <= s /\ p mod l_align l = 0 /\ 0 < p /\
    ok a' L' /\ sep L' h' /\
    (forall x, in_range x (p, s) -> (covers (blocks L) x \/ avail h x) /\ ~ covers (blocks L') x /\ ~ avail h' x) /\
    (forall x, covers (blocks L) x -> in_range x (p, s) \/ covers (blocks L') x).
Proof.
  intros Hok Hsep Hpage [Hsz (k & Hk & Hal)] Hpos Hmax. unfold allocate.
  rewrite (proj2 (Z.eqb_neq _ _)) by lia.
  destruct (get_block_index l) as [i|] eqn:Hi; [|apply position_none in Hi; lia].
  apply position_spec in Hi as (s & Hs & Hle & _).
  destruct (refill_ok _ L h i s (ok_count _ _ (alloc_count a ⊕ 1)%u64 Hok) Hsep Hpage Hs)
    as (a1 & L1 & h1 & Hr & Hok1 & Hsep1 & Hne & Hc1 & Hc2 & Hm).
  rewrite Hr. cbn [mbind outcome_bind].
  destruct (lists_lookup a1 L1 i Hok1) as [[|p tl] Hl]; [by eapply (lookup_lt_Some BLOCK_SIZES)|done|].
  destruct (list_fetch_ok _ _ _ _ _ _ Hok1 Hl Hs) as (a2 & Hf & Hok2 & Hperm).
  assert (block_ok (p, s) /\ Forall (disj (p, s)) (blocks (<[i:=tl]> L1))) as [(Hin & Hps & Hp0 & _) Hdj].
  { destruct Hok1 as [_ [HD HF]]. rewrite Hperm in HF. apply Forall_cons in HF as [HF _].
    split; [done|]. by destruct (Disj_perm _ _ Hperm HD). }
  assert (forall x, covers (blocks L1) x <-> in_range x (p, s) \/ covers (blocks (<[i:=tl]> L1)) x) as Hcov.
  { intros x. unfold covers. rewrite Hperm. apply covers_cons. }
  rewrite Hf, Hs. cbn. exists p, s, a2, (<[i := tl]> L1), h1.
  split; [done|]. split; [lia|]. split; [rewrite Hal in *; cbn in *; eapply block_aligned; [exact Hin|lia..|done]|].
  split; [done|]. split; [done|]. split; [split; [apply Hsep1|intros x Hx; apply Hsep1, Hcov; by right]|].
  split; [|intros x Hx; by apply Hcov, Hc1].
  intros x Hx. split; [apply Hc2, Hcov; by left|]. split; [|apply Hsep1, Hcov; by left].
  eapply disj_covers; [| |exact Hdj|done]; [apply sizes_pos in Hin; cbn in *; lia|by apply heap_ok_pos, Hok2].
Qed.

(** Freeing a block and allocating again with the same layout is a round trip: the freed block
    comes back, the heap below is not asked for anything and the free lists are the original ones
    (last in, first out). *)
Theorem fixed_block_free_alloc a L h l i p s :
  ok a L -> 0 < l_size l -> get_block_index l = Some i -> BLOCK_SIZES !! i = Some s ->
  Forall (disj (p, s)) (blocks L) -> block_ok (p, s) ->
  exists a1 L1 a2, deallocate p l a = Done a1 /\ ok a1 L1 /\
    (forall x, covers (blocks L1) x <-> in_range x (p, s) \/ covers (blocks L) x) /\
    allocate l a1 h = Done (Ok (p, s), a2, h) /\ ok a2 L.
Proof.
  intros Hok Hpos Hi Hs Hd Hb.
  assert (i < 9)%nat as Hi9 by by eapply (lookup_lt_Some BLOCK_SIZES).
  destruct (lists_lookup _ _ _ Hok Hi9) as [tl Htl].
  destruct (list_add_ok _ _ _ _ _ _ Hok Htl Hs Hd Hb) as (a1 & Heq & Hok1 & Hp).
  assert (<[i := p :: tl]> L !! i = Some (p :: tl)) as HL1 by (apply list_lookup_insert_eq; by eapply lookup_lt_Some).
  apply (ok_count _ _ (alloc_count a1 ⊕ 1)%u64) in Hok1 as Hok1'.
  destruct (list_fetch_ok _ _ _ _ _ _ Hok1' HL1 Hs) as (a2 & Hf & Hok2 & _).
  rewrite list_insert_insert_eq, list_insert_id in Hok2 by done.
  destruct (heads_lookup _ _ _ _ (proj1 Hok1') HL1) as [r Hr].
  exists a1, (<[i := p :: tl]> L), a2. unfold deallocate, allocate, refill.
  rewrite (proj2 (Z.eqb_neq (l_size l) 0)) by lia. rewrite Hi. cbn [unwrap mbind outcome_bind].
  split; [done|]. split; [done|]. split; [intros x; unfold covers; rewrite Hp; apply covers_cons|].
  rewrite Hr. cbn [unwrap mbind outcome_bind]. rewrite (is_empty_spec _ _ _ _ _ Hok1' Hr HL1). cbn [bool_decide].
  rewrite bool_decide_false by done. cbn [mbind outcome_bind]. rewrite Hf, Hs. done.
Qed.

End Client.

(** [force_dealloc] frees a region of any size at a 2048-aligned address by tiling it: the
    free bytes grow by exactly the region rounded down to a multiple of eight, whatever mixture of
    block sizes is used, and the free lists stay well formed. *)
Theorem force_dealloc_covers addr l a L :
  ok a L -> addr mod 2048 = 0 -> 0 < addr -> 0 <= l_size l < 2 ^ 63 -> addr + l_size l <= 2 ^ 64 ->
  (forall x, in_range x (addr, l_size l) -> ~ covers (blocks L) x) ->
  exists a' L', force_dealloc addr l a = Done a' /\ ok a' L' /\
    (forall x, covers (blocks L') x <-> in_range x (addr, l_size l - l_size l mod 8) \/ covers (blocks L) x).
Proof.
  intros Hok Hal Hpos Hsz Hend Hfresh.
  destruct (force_dealloc_lists addr l a L Hok Hal Hpos Hsz Hend) as (a' & L' & T & Heq & Hok' & Hp & HT & _).
  { intros x Hx. apply Hfresh. by rewrite Z.add_0_r, Z.sub_0_r in Hx. }
  exists a', L'. split; [done|]. split; [done|]. intros x. rewrite <- HT. unfold covers. rewrite Hp. apply covers_app.
Qed.

(** Requests above the largest block size are refused and leave the lists alone. *)
Lemma allocate_too_big {Heap : Type} `{HeapAlloc Heap} l a (h : Heap) :
  0 < l_size l -> (2048 < Z.max (l_size l) (l_align l) <->
    exists a', allocate l a h = Done (Err tt, a', h) /\ list_heads a' = list_heads a /\ fmem a' = fmem a).
Proof.
  intros Hpos. unfold allocate. rewrite (proj2 (Z.eqb_neq (l_size l) 0)) by lia.
  rewrite <- position_none. fold (get_block_index l). split.
  - intros ->. eexists. split; [done|]. done.
  - intros (a' & Ha & _). destruct (get_block_index l); [|done]. exfalso. revert Ha.
    destruct refill as [[a1 h1]|]; [|done]. cbn. destruct list_fetch as [[[q|] a2]|]; [|done..]. cbn.
    destruct (BLOCK_SIZES !! n); done.
Qed.

End FixedBlock.

(** ** Instances

    A heap that hands out page-aligned address space upwards, and an empty allocator on it. *)
Module FixedBlockWitness.
Import FixedBlock.

Record UpHeap := mkUp { next_page : Z }.

#[export] Instance up_heap : HeapAlloc UpHeap := {
  virt_allocate l h :=
    if (0 <? next_page h) && (l_align l <=? 4096) && (next_page h * 4096 + l_size l <=? 2 ^ 63)
    then Done (Ok (next_page h * 4096, l_size l), mkUp (next_page h + (l_size l + 4095) / 4096))
    else Done (Err tt, h);
  avail h x := next_page h * 4096 <= x;
  heap_inv h := True;
  room h := True;
}.

#[export] Instance up_heap_laws : HeapAllocLaws UpHeap.
Proof.
  split. intros h r h' _ _. cbn. destruct (_ && _) eqn:E; [|done]. bool_to_prop. intros [= <- <-].
  cbn in *. change ((4096 + 4095) / 4096) with 1. split; [done|]. split; [lia|]. split; [by apply Z_mod_mult|]. split; [lia|]. split; [lia|].
  split; intros x; unfold in_range; cbn; lia.
Qed.

Lemma new_ok : ok (new ∅) (replicate 9 []).
Proof.
  split; [split; [done..|]|split; [done|by constructor]].
  intros i r l Hr Hl. apply lookup_replicate in Hr as [-> _]. apply lookup_replicate in Hl as [-> _]. done.
Qed.

Lemma fixed_block_free_alloc_witness :
  exists a1 L1 a2, deallocate 4096 (mkLayout 24 8) (new ∅) = Done a1 /\ ok a1 L1 /\
    (forall x, covers (blocks L1) x <-> in_range x (4096, 32) \/ covers (blocks (replicate 9 [])) x) /\
    allocate (mkLayout 24 8) a1 (mkUp 1) = Done (Ok (4096, 32), a2, mkUp 1) /\ ok a2 (replicate 9 []).
Proof.
  apply (fixed_block_free_alloc (new ∅) (replicate 9 []) (mkUp 1) (mkLayout 24 8) 2 4096 32).
  - exact new_ok.
  - done.
  - done.
  - done.
  - by constructor.
  - by apply (bool_decide_unpack _).
Defined.

Lemma force_dealloc_covers_witness :
  exists a' L', force_dealloc 4096 (mkLayout 3000 8) (new ∅) = Done a' /\ ok a' L' /\
    (forall x, covers (blocks L') x <-> in_range x (4096, 3000 - 3000 mod 8) \/ covers (blocks (replicate 9 [])) x).
Proof.
  apply (force_dealloc_covers 4096 (mkLayout 3000 8) (new ∅) (replicate 9 [])).
  - exact new_ok.
  - done.
  - done.
  - cbn. lia.
  - cbn. lia.
  - intros x _ Hx. by apply covers_nil in Hx.
Defined.

End FixedBlockWitness.
