(* ===== verification/HighOrder.v ===== *)
(** * High-order block allocator

    Model of [kernel/src/mem/high_order_alloc.rs]: [FreeMem], a free region whose start is
    aligned to the block size [BS], and [HighOrderAlloc], a vector of such regions ordered by
    start address.  The address type is [u64] or [usize], both 64 bits wide; [BS] is a power of
    two.  Methods that take [&mut self] return the new value of [self]. *)
From Stdlib Require Import Sorted.
From stdpp Require Import prelude.
From S2P Require Import Prelude Ranges.
Open Scope Z_scope.

Module HighOrder.

Record FreeMem := mkFree { start : Z; len : Z }.

Definition HighOrderAlloc := list FreeMem.

Section Alloc.
Context (BS : Z).

Definition new (addr l : Z) : option FreeMem :=
  if l <? BS then None
  else if negb (Z.land addr (BS ⊖ 1)%u64 =? 0) then None
  else Some (mkFree addr l).

Definition as_raw (m : FreeMem) : Z * Z := (start m, len m).

(** [end]: the address of the next byte. *)
Definition fend (m : FreeMem) : Z := (start m ⊕ len m)%u64.

(** [merge]: [None] when [other] was merged, together with the new [self]. *)
Definition merge (self other : FreeMem) : option FreeMem * FreeMem :=
  if fend self =? start other then (None, mkFree (start self) (len self ⊕ len other)%u64)
  else if fend other =? start self then (None, mkFree (start other) (len other ⊕ len self)%u64)
  else (Some other, self).

(** [split]: the returned block and the new [self]. *)
Definition split (self : FreeMem) (new_size : Z) : outcome (FreeMem * FreeMem) :=
  _ ← assert_that (negb ((start self ⊖ new_size)%u64 =? 0));
  _ ← assert_that (Z.land new_size (BS - 1) =? 0);
  let b2s := (len self ⊕ new_size)%u64 in
  let diff := (len self ⊖ new_size)%u64 in
  ret ← unwrap (new b2s diff);
  Done (ret, mkFree (start self) new_size).

Definition chk_fit (self : FreeMem) (layout : Layout) : bool :=
  let size := l_size layout in
  let align := l_size layout in
  let use_start :=
    if Z.land (start self) (align ⊖ 1)%u64 =? 0 then start self
    else Z.land (start self) (wnot (align ⊖ 1)%u64) in
  size <? (fend self ⊖ use_start)%u64.

Definition chk_clean (self : FreeMem) (layout : Layout) : bool :=
  let size := l_size layout in
  let align := l_size layout in
  if len self <? size then false
  else if Z.land (start self) (align ⊖ 1)%u64 =? 0 then true
  else Z.land (fend self ⊖ size)%u64 (align ⊖ 1)%u64 =? 0.

(** [try_split_to_layout]: the block split off, if any, and the new [self]. *)
Definition try_split_to_layout (self : FreeMem) (layout : Layout) : outcome (option FreeMem * FreeMem) :=
  let size := l_size layout in
  let align := l_align layout in
  if negb (chk_fit self layout) then Done (None, self)
  else if len self <? size then Done (None, self)
  else if Z.land (start self) (align ⊖ 1)%u64 =? 0 then
    ts ← split self size;
    let '(t, self') := ts in Done (Some self', t)
  else if Z.land (fend self ⊖ size)%u64 (align ⊖ 1)%u64 =? 0 then
    ts ← split self (len self ⊖ size)%u64;
    let '(t, self') := ts in Done (Some t, self')
  else Done (None, self).

(** [force_split_to_layout]: the allocated block, the remaining block and the new [self]. *)
Definition force_split_to_layout (self : FreeMem) (layout : Layout) :
    outcome (option FreeMem * option FreeMem * FreeMem) :=
  let size := l_size layout in
  let align := l_size layout in
  if negb (chk_fit self layout) then Done (None, None, self)
  else if len self <? size then Done (None, None, self)
  else
    r ← try_split_to_layout self layout;
    let '(ob, self) := r in
    match ob with
    | Some b => Done (Some b, None, self)
    | None =>
        let lbs := (Z.land (start self) align ⊕ align)%u64 in
        let low_block_size := (start self ⊖ lbs)%u64 in
        let hbs := Z.land (fend self ⊖ size)%u64 (wnot align) in
        let high_block_size := (fend self ⊖ (hbs ⊕ size))%u64 in
        let at_ := if low_block_size <? high_block_size then low_block_size else (start self ⊖ hbs)%u64 in
        s1 ← split self at_;
        let '(rb, self) := s1 in
        s2 ← split rb size;
        let '(nb, rb) := s2 in
        Done (Some rb, Some nb, self)
    end.

Definition alloc_score (self : FreeMem) (layout : Layout) : outcome (bool * Z) :=
  _ ← assert_that (chk_fit self layout);
  if chk_clean self layout then
    r ← try_split_to_layout self layout;
    _ ← unwrap r.1;
    Done (true, len r.2)
  else
    r ← force_split_to_layout self layout;
    b ← unwrap r.1.2;
    Done (false, Z.min (len r.2) (len b)).

(** [slice::binary_search] on a vector ordered by [start]: [Ok] with the index of an equal
    element, or [Err] with the index where the element belongs. *)
Fixpoint insertion_point (x : Z) (l : list FreeMem) : nat :=
  match l with
  | [] => O
  | b :: rest => if start b <? x then S (insertion_point x rest) else O
  end.

Definition binary_search (l : list FreeMem) (r : FreeMem) : result nat nat :=
  let i := insertion_point (start r) l in
  match l !! i with
  | Some b => if start b =? start r then Ok i else Err i
  | None => Err i
  end.

(** [Vec::insert]. *)
Definition vec_insert (i : nat) (r : FreeMem) (l : list FreeMem) : list FreeMem :=
  take i l ++ r :: drop i l.

(** [if let Some(b) = self.free_list.get_mut(i) { if b.merge(region).is_none() { return } }] *)
Definition merge_at (i : nat) (region : FreeMem) (l : list FreeMem) : option (list FreeMem) :=
  match l !! i with
  | Some b => match merge b region with (None, b') => Some (<[i := b']> l) | (Some _, _) => None end
  | None => None
  end.

(** [get_mut(i - 1)] with [i = 0] asks for index [usize::MAX], which is out of range. *)
Definition merge_before (i : nat) (region : FreeMem) (l : list FreeMem) : option (list FreeMem) :=
  match i with O => None | S i' => merge_at i' region l end.

Definition free (l : list FreeMem) (region : FreeMem) : outcome (result unit unit * HighOrderAlloc) :=
  match binary_search l region with
  | Ok _ => Panic
  | Err i =>
      match merge_at i region l with
      | Some l' => Done (Ok tt, l')
      | None =>
          match merge_before i region l with
          | Some l' => Done (Ok tt, l')
          | None =>
              match merge_at (S i) region l with
              | Some l' => Done (Ok tt, l')
              | None => Done (Ok tt, vec_insert i region l)
              end
          end
      end
  end.

(** The scan of [allocate]: [is_clean], [score] and [index] are its variables. *)
Fixpoint scan (layout : Layout) (l : list FreeMem) (i : nat) (is_clean : bool) (score : option Z)
    (index : option nat) : outcome (option nat) :=
  match l with
  | [] => Done index
  | b :: rest =>
      if chk_fit b layout then
        cs ← alloc_score b layout;
        let '(c, s) := cs in
        st ← match c, is_clean with
             | true, false => Done (true, Some s, Some i)
             | false, true => Done (is_clean, score, index)
             | _, _ => sc ← unwrap score;
                       Done (if s <? sc then (is_clean, Some s, Some i) else (is_clean, score, index))
             end;
        let '(is_clean, score, index) := st in
        if bool_decide (score = Some 0) then Done index
        else scan layout rest (S i) is_clean score index
      else scan layout rest (S i) is_clean score index
  end.

Definition allocate (l : list FreeMem) (layout : Layout) : outcome (option FreeMem * HighOrderAlloc) :=
  index ← scan layout l 0 false None None;
  match index with
  | None => Done (None, l)
  | Some i =>
      b ← unwrap (l !! i);
      let l := delete i l in
      r ← force_split_to_layout b layout;
      let '(ret, rem, _) := r in
      match rem with
      | None => Done (ret, l)
      | Some f =>
          match binary_search l f with
          | Ok _ => Panic
          | Err j => Done (ret, vec_insert j f l)
          end
      end
  end.

End Alloc.

Definition region (m : FreeMem) : range := (start m, len m).

Definition mem_ok (m : FreeMem) : Prop := 0 <= start m /\ 0 < len m /\ start m + len m < 2 ^ 64.

(** The invariant of the free list: ordered, pairwise disjoint, inside the address space. *)
Definition before (a b : FreeMem) : Prop := start a + len a <= start b.

Definition list_ok (l : list FreeMem) : Prop := StronglySorted before l /\ Forall mem_ok l.

(** The search splits the list at the place of the region. *)
Lemma insertion_point_split x l :
  StronglySorted before l -> Forall mem_ok l ->
  exists l1 l2, l = l1 ++ l2 /\ insertion_point x l = length l1 /\
    Forall (fun b => start b < x) l1 /\ Forall (fun b => x <= start b) l2.
Proof.
  induction l as [|b l IH]; intros Hs Hf; [by exists [], []|].
  apply StronglySorted_inv in Hs as [Hs Hb]. apply Forall_cons in Hf as [Hm Hf]. cbn.
  destruct (start b <? x) eqn:E; bool_to_prop.
  - destruct (IH Hs Hf) as (l1 & l2 & -> & -> & H1 & H2). exists (b :: l1), l2. split; [done|]. split; [done|].
    by split; [constructor|].
  - exists [], (b :: l). split; [done|]. split; [done|]. split; [done|]. constructor; [done|].
    eapply Forall_impl; [exact Hb|]. unfold before, mem_ok in *. intros c Hc. cbn in *. lia.
Qed.

Lemma merge_none self other :
  mem_ok self -> mem_ok other -> before self other \/ before other self ->
  (exists m, merge self other = (None, m) /\ mem_ok m /\
     (start m = start self /\ start self + len self = start other /\ len m = len self + len other \/
      start m = start other /\ start other + len other = start self /\ len m = len other + len self)) \/
  (merge self other = (Some other, self) /\
     start self + len self <> start other /\ start other + len other <> start self).
Proof.
  unfold mem_ok, before, merge, fend. intros H1 H2 H3. rewrite !wadd_small by (unfold is_u64; lia).
  destruct (_ =? _) eqn:E1; bool_to_prop.
  - left. eexists. split; [done|]. cbn. lia.
  - destruct (_ =? _) eqn:E2; bool_to_prop; [left|by right].
    eexists. split; [done|]. cbn. lia.
Qed.

Definition free_cover (l : list FreeMem) : Z -> Prop := covers (region <$> l).

Lemma free_cover_app l1 l2 x : free_cover (l1 ++ l2) x <-> free_cover l1 x \/ free_cover l2 x.
Proof. unfold free_cover. by rewrite fmap_app, covers_app. Qed.

Lemma free_cover_cons b l x : free_cover (b :: l) x <-> start b <= x < start b + len b \/ free_cover l x.
Proof. unfold free_cover. cbn. by rewrite covers_cons. Qed.

Lemma list_ok_app l1 l2 :
  list_ok (l1 ++ l2) <-> list_ok l1 /\ list_ok l2 /\ forall x y, x ∈ l1 -> y ∈ l2 -> before x y.
Proof. unfold list_ok. rewrite StronglySorted_app_iff, Forall_app. tauto. Qed.

Lemma list_ok_cons b l : list_ok (b :: l) <-> mem_ok b /\ list_ok l /\ Forall (before b) l.
Proof.
  unfold list_ok. rewrite Forall_cons. split.
  - intros [[H1 H2]%StronglySorted_inv [H3 H4]]. auto.
  - intros (H1 & (H2 & H3) & H4). split; [by constructor|done].
Qed.

(** The region does not touch the free list. *)
Definition apart (r : FreeMem) (l : list FreeMem) : Prop := Forall (fun b => before b r \/ before r b) l.

(** Merging the region into the block in the middle. *)
Lemma merge_at_ok l1 b l2 r l' :
  list_ok (l1 ++ b :: l2) -> mem_ok r -> before b r \/ before r b ->
  Forall (fun c => before c r) l1 -> Forall (before r) l2 ->
  merge_at (length l1) r (l1 ++ b :: l2) = Some l' ->
  list_ok l' /\ forall x, free_cover l' x <-> free_cover (l1 ++ b :: l2) x \/ start r <= x < start r + len r.
Proof.
  intros Hok Hr Hb H1 H2. unfold merge_at. rewrite list_lookup_middle by done.
  apply list_ok_app in Hok as (Hl1 & (Hm & Hl2 & Hf)%list_ok_cons & Hc).
  destruct (merge_none b r Hm Hr Hb) as [(m & -> & Hmm & Hd)|[-> _]]; [|done].
  intros [= <-]. rewrite <- (Nat.add_0_r (length l1)), insert_app_r. cbn.
  rewrite Forall_forall in H1, H2, Hf. split.
  - apply list_ok_app. split; [done|]. split; [apply list_ok_cons; split; [done|split; [done|]]|].
    + apply Forall_forall. intros c Hc2. specialize (H2 _ Hc2). specialize (Hf _ Hc2). unfold before in *. lia.
    + intros y z Hy [->|Hz]%elem_of_cons; [|by apply Hc; [|right]].
      specialize (H1 _ Hy). pose proof (Hc _ b Hy ltac:(left)) as Hyb.
      clear Hc. unfold before in *. lia.
  - intros x. rewrite !free_cover_app, !free_cover_cons. unfold before, mem_ok in *.
    split; intros; destruct_or?; try tauto; lia.
Qed.

Lemma vec_insert_ok l1 l2 r :
  list_ok (l1 ++ l2) -> mem_ok r -> Forall (fun c => before c r) l1 -> Forall (before r) l2 ->
  list_ok (vec_insert (length l1) r (l1 ++ l2)) /\
  forall x, free_cover (vec_insert (length l1) r (l1 ++ l2)) x <->
            free_cover (l1 ++ l2) x \/ start r <= x < start r + len r.
Proof.
  intros (Hl1 & Hl2 & Hc)%list_ok_app Hr H1 H2. unfold vec_insert.
  rewrite take_app_length, drop_app_length. split.
  - apply list_ok_app. split; [done|]. split; [by apply list_ok_cons|].
    intros y z Hy [->|Hz]%elem_of_cons; [|by apply Hc]. rewrite Forall_forall in H1. by apply H1.
  - intros x. rewrite !free_cover_app, free_cover_cons. tauto.
Qed.

(** The free list around the place of a region that does not touch it. *)
Lemma apart_split l r :
  list_ok l -> mem_ok r -> apart r l ->
  exists l1 l2, l = l1 ++ l2 /\ binary_search l r = Err (length l1) /\
    Forall (fun c => before c r) l1 /\ Forall (before r) l2.
Proof.
  intros [Hs Hf] Hr Ha. destruct (insertion_point_split (start r) l Hs Hf) as (l1 & l2 & -> & Hi & H1 & H2).
  assert (Forall (fun c => before c r) l1 /\ Forall (before r) l2) as [G1 G2].
  { apply Forall_app in Ha as [Ha1 Ha2]. apply Forall_app in Hf as [Hf1 Hf2].
    rewrite !Forall_forall in *. split; intros c Hc.
    - destruct (Ha1 _ Hc); [done|]. specialize (H1 _ Hc). unfold before, mem_ok in *. cbn in *. lia.
    - destruct (Ha2 _ Hc); [|done]. specialize (H2 _ Hc). specialize (Hf2 _ Hc). unfold before, mem_ok in *. cbn in *. lia. }
  exists l1, l2. split; [done|]. split; [|done]. unfold binary_search. rewrite Hi.
  rewrite lookup_app_r, Nat.sub_diag by lia. destruct l2 as [|b l2]; [done|]. cbn.
  apply Forall_cons in G2 as [Hb _]. rewrite (proj2 (Z.eqb_neq _ _)); [done|]. unfold before, mem_ok in *. lia.
Qed.

(** A region that does not overlap the free list is added to it. *)
Lemma free_ok l r :
  list_ok l -> mem_ok r -> apart r l ->
  exists l', free l r = Done (Ok tt, l') /\ list_ok l' /\
    forall x, free_cover l' x <-> free_cover l x \/ start r <= x < start r + len r.
Proof.
  intros Hok Hr Ha. destruct (apart_split l r Hok Hr Ha) as (l1 & l2 & -> & Hbs & H1 & H2).
  unfold free. rewrite Hbs.
  destruct (merge_at (length l1) r (l1 ++ l2)) as [l'|] eqn:E1.
  { exists l'. split; [done|]. destruct l2 as [|b l2]; [unfold merge_at in E1; by rewrite lookup_app_r, Nat.sub_diag in E1|].
    apply Forall_cons in H2 as [Hb H2]. apply (merge_at_ok l1 b l2); auto. }
  destruct (merge_before (length l1) r (l1 ++ l2)) as [l'|] eqn:E2.
  { exists l'. split; [done|]. destruct l1 as [|b l1 _] using rev_ind; [done|].
    rewrite length_app, Nat.add_1_r in E2. cbn in E2. rewrite <- app_assoc in E2 |- *. cbn in E2 |- *.
    apply Forall_app in H1 as [H1 [Hb _]%Forall_cons]. rewrite <- app_assoc in Hok.
    apply (merge_at_ok l1 b l2); auto. }
  destruct (merge_at (S (length l1)) r (l1 ++ l2)) as [l'|] eqn:E3.
  { exists l'. split; [done|]. destruct l2 as [|b [|b2 l2]].
    1,2: unfold merge_at in E3; rewrite lookup_ge_None_2 in E3 by (rewrite length_app; cbn; lia); done.
    apply Forall_cons in H2 as [Hb [Hb2 H2]%Forall_cons].
    pose proof Hok as (_ & (Hm & _ & [Hbb _]%Forall_cons)%list_ok_cons & _)%list_ok_app.
    replace (S (length l1)) with (length (l1 ++ [b])) in E3 by (rewrite length_app; cbn; lia).
    replace (l1 ++ b :: b2 :: l2) with ((l1 ++ [b]) ++ b2 :: l2) in * by by rewrite <- app_assoc.
    exfalso. revert E3. unfold merge_at. rewrite list_lookup_middle by done.
    apply list_ok_app in Hok as (_ & (Hm2 & _)%list_ok_cons & _).
    destruct (merge_none b2 r Hm2 Hr (or_intror Hb2)) as [(m & _ & _ & Hd)|[-> _]]; [|done].
    unfold before, mem_ok in *. lia. }
  exists (vec_insert (length l1) r (l1 ++ l2)). split; [done|]. by apply vec_insert_ok.
Qed.

(** Block alignment survives merging. *)
Definition blocked (j : Z) (m : FreeMem) : Prop := (2 ^ j | start m) /\ (2 ^ j | len m).

Lemma merge_at_blocked j i r l l' :
  0 <= j <= 64 -> Forall (blocked j) l -> blocked j r -> merge_at i r l = Some l' -> Forall (blocked j) l'.
Proof.
  intros Hj Hl [Hr1 Hr2]. unfold merge_at. destruct (l !! i) as [b|] eqn:Hb; [|done].
  assert (blocked j b) as [Hb1 Hb2] by (eapply Forall_lookup_1; [exact Hl|exact Hb]).
  unfold merge. destruct (_ =? _); [|destruct (_ =? _); [|done]]; intros [= <-]; apply Forall_insert; auto;
    split; cbn; auto using wadd_divide.
Qed.

Lemma free_blocked j l r l' :
  0 <= j <= 64 -> Forall (blocked j) l -> blocked j r -> free l r = Done (Ok tt, l') -> Forall (blocked j) l'.
Proof.
  intros Hj Hl Hr. unfold free. destruct binary_search as [|i]; [done|].
  destruct (merge_at i r l) eqn:E1; [intros [= <-]; by eapply merge_at_blocked|].
  destruct (merge_before i r l) eqn:E2.
  { destruct i; [done|]. intros [= <-]. by eapply merge_at_blocked. }
  destruct (merge_at (S i) r l) eqn:E3; [intros [= <-]; by eapply merge_at_blocked|].
  intros [= <-]. unfold vec_insert. apply Forall_app. split; [by apply Forall_take|].
  constructor; [done|]. by apply Forall_drop.
Qed.

Lemma new_spec j addr l : 0 <= j < 64 ->
  new (2 ^ j) addr l = if bool_decide (2 ^ j <= l /\ addr mod 2 ^ j = 0) then Some (mkFree addr l) else None.
Proof.
  intros Hj. pose proof (Z.pow_pos_nonneg 2 j ltac:(lia) ltac:(lia)). pose proof (Z.pow_lt_mono_r 2 j 64 ltac:(lia) ltac:(lia)).
  unfold new. rewrite wsub_small, land_mask by lia.
  destruct (l <? 2 ^ j) eqn:E; bool_to_prop.
  { rewrite bool_decide_false by lia. done. }
  destruct (_ =? 0) eqn:E2; bool_to_prop; cbn.
  - rewrite bool_decide_true by tauto. done.
  - rewrite bool_decide_false by tauto. done.
Qed.

(** [HighOrderAlloc::free] of a region made with [FreeMem::new] that does not overlap the free
    list succeeds.  The list stays ordered and disjoint and its blocks stay aligned to the block
    size, and the free bytes afterwards are exactly the old ones and the region, whether the region
    is merged with the following block, with the preceding one, or inserted as a new block. *)
Theorem high_order_free j l addr n r :
  0 <= j < 64 -> list_ok l -> Forall (blocked j) l -> (2 ^ j | n) ->
  new (2 ^ j) addr n = Some r -> mem_ok r -> apart r l ->
  exists l', free l r = Done (Ok tt, l') /\ list_ok l' /\ Forall (blocked j) l' /\
    forall x, free_cover l' x <-> free_cover l x \/ addr <= x < addr + n.
Proof.
  intros Hj Hok Hbl Hn Hnew Hr Ha. destruct (free_ok l r Hok Hr Ha) as (l' & H1 & H2 & H3).
  rewrite new_spec in Hnew by done. case_bool_decide as Hd; [destruct Hd as [_ Hd]|done]. simplify_eq.
  apply Z.mod_divide in Hd; [|lia]. exists l'. split; [done|]. split; [done|]. split; [|exact H3].
  eapply (free_blocked j l _ l'); [lia|done| |exact H1]. by split.
Qed.

Lemma apart_of_cover l r :
  Forall mem_ok l -> mem_ok r -> (forall x, start r <= x < start r + len r -> ~ free_cover l x) -> apart r l.
Proof.
  intros Hl Hr Hx. apply Forall_forall. intros b Hb. rewrite Forall_forall in Hl. pose proof (Hl _ Hb) as Hmb.
  destruct (disj_intro (region b) (region r)); unfold before, mem_ok in *; cbn in *; auto; [lia|lia|].
  intros x H1 H2. unfold in_range in *. cbn in *. apply (Hx x); [lia|]. apply covers_elem. exists (region b).
  split; [apply list_elem_of_fmap; by exists b|]. unfold in_range. cbn. lia.
Qed.

(** Freeing a region whose start is already in the free list panics ([expect_err]) and this is
    the only way [free] fails. *)
Theorem high_order_free_duplicate l r :
  list_ok l -> (free l r = Panic <-> exists b, b ∈ l /\ start b = start r).
Proof.
  intros [Hs Hf]. destruct (insertion_point_split (start r) l Hs Hf) as (l1 & l2 & -> & Hi & H1 & H2).
  unfold free, binary_search. rewrite Hi, lookup_app_r, Nat.sub_diag by lia. split.
  - destruct l2 as [|b l2]; cbn.
    + destruct merge_at; [done|]. destruct merge_before; [done|]. by destruct merge_at.
    + destruct (start b =? start r) eqn:E; bool_to_prop.
      * intros _. exists b. split; [|done]. apply elem_of_app. right. by left.
      * destruct merge_at; [done|]. destruct merge_before; [done|]. by destruct merge_at.
  - intros (b & [Hb|Hb]%elem_of_app & Heq).
    { rewrite Forall_forall in H1. specialize (H1 _ Hb). cbn in H1. lia. }
    destruct l2 as [|b2 l2]; [by apply elem_of_nil in Hb|]. cbn.
    rewrite (proj2 (Z.eqb_eq _ _)); [done|]. apply StronglySorted_app_iff in Hs as (_ & Hs & _).
    apply StronglySorted_inv in Hs as [_ Hs]. apply Forall_app in Hf as [_ [Hm _]%Forall_cons].
    apply Forall_cons in H2 as [H2 _]. apply elem_of_cons in Hb as [->|Hb]; [done|].
    rewrite Forall_forall in Hs. specialize (Hs _ Hb). unfold before, mem_ok in *. lia.
Qed.

Lemma delete_ok l i b :
  list_ok l -> l !! i = Some b ->
  list_ok (delete i l) /\
  forall x, start b <= x < start b + len b -> free_cover l x /\ ~ free_cover (delete i l) x.
Proof.
  intros Hok Hi. rewrite delete_take_drop. pose proof (take_drop_middle l i b Hi) as Hsplit.
  rewrite <- Hsplit in Hok. apply list_ok_app in Hok as (H1 & (Hm & H2 & H3)%list_ok_cons & H4).
  split; [apply list_ok_app; split; [done|split; [done|]]; intros x y Hx Hy; apply H4; [done|by right]|].
  intros x Hx. rewrite <- Hsplit at 1. rewrite !free_cover_app, free_cover_cons. split; [tauto|].
  intros [(r & (c & -> & Hc)%list_elem_of_fmap & Hxc)%covers_elem|(r & (c & -> & Hc)%list_elem_of_fmap & Hxc)%covers_elem].
  - specialize (H4 c b Hc ltac:(left)). unfold before, in_range in *. cbn in *. lia.
  - rewrite Forall_forall in H3. specialize (H3 c Hc). unfold before, in_range in *. cbn in *. lia.
Qed.

Lemma delete_elem i (l : list FreeMem) b : b ∈ delete i l -> b ∈ l.
Proof.
  rewrite delete_take_drop. intros [H|H]%elem_of_app; [by eapply subseteq_take|by eapply subseteq_drop].
Qed.

Lemma delete_cover i l x : free_cover (delete i l) x -> free_cover l x.
Proof.
  intros (r & (c & -> & Hc)%list_elem_of_fmap & Hx)%covers_elem. apply covers_elem. exists (region c).
  split; [|done]. apply list_elem_of_fmap. exists c. split; [done|]. by eapply delete_elem.
Qed.

(** ** Allocation from aligned blocks *)
Section Clean.
Context (j k : Z) (Hj : 0 <= j <= k) (Hk : k < 62).

Local Abbreviation BSZ := (2 ^ j).
Local Abbreviation sz := (2 ^ k).
Local Abbreviation lay := (mkLayout (2 ^ k) (2 ^ k)).

(** A block that starts on a multiple of the requested size. *)
Definition aligned_block (b : FreeMem) : Prop :=
  mem_ok b /\ start b mod sz = 0 /\ len b mod BSZ = 0 /\ start b <> sz.

Lemma sz_bounds : 1 <= BSZ <= sz /\ sz < 2 ^ 62.
Proof using Hj Hk.
  pose proof (Z.pow_le_mono_r 2 j k). pose proof (Z.pow_le_mono_r 2 0 j). pose proof (Z.pow_lt_mono_r 2 k 62). lia.
Qed.

Lemma aligned_start b : aligned_block b -> Z.land (start b) (sz ⊖ 1)%u64 = 0.
Proof using Hj Hk.
  intros (_ & Ha & _). pose proof sz_bounds. rewrite wsub_small by (unfold is_u64; lia). rewrite land_mask by lia. done.
Qed.

Lemma chk_fit_aligned b : aligned_block b -> chk_fit b lay = (sz <? len b).
Proof using Hj Hk.
  intros Hb. unfold chk_fit. cbn [l_size l_align]. rewrite (aligned_start _ Hb). cbn.
  destruct Hb as ((H1 & H2 & H3) & _). unfold fend. rewrite wadd_small by (unfold is_u64; lia).
  rewrite wsub_small by (unfold is_u64; lia). f_equal. lia.
Qed.

(** The two parts a larger aligned block is split into. *)
Lemma try_split_aligned b :
  aligned_block b -> sz < len b ->
  exists t, try_split_to_layout BSZ b lay = Done (Some (mkFree (start b) sz), t) /\ len t = len b - sz.
Proof using Hj Hk.
  intros Hb Hlt. pose proof sz_bounds as Hsz. unfold try_split_to_layout. rewrite chk_fit_aligned by done.
  rewrite (proj2 (Z.ltb_lt _ _)) by done. cbn [negb l_size l_align].
  rewrite (proj2 (Z.ltb_ge _ _)) by lia. rewrite (aligned_start _ Hb). cbn [Z.eqb].
  pose proof Hb as ((H1 & H2 & H3) & Hmod & Hbs & Hne).
  assert (sz mod BSZ = 0) as Hszm.
  { apply Z.mod_divide; [lia|]. exists (2 ^ (k - j)). rewrite <- Z.pow_add_r by lia. f_equal. lia. }
  assert (len b - sz >= BSZ) as Hdiff.
  { assert (BSZ | len b - sz) as [q Hq] by (apply Z.divide_sub_r; apply Z.mod_divide; lia).
    assert (0 < q) by nia. nia. }
  unfold split. rewrite (proj2 (Z.eqb_neq (start b ⊖ sz)%u64 0)).
  2:{ rewrite wsub_zero; unfold is_u64; lia. }
  cbn [assert_that negb mbind outcome_bind]. rewrite (land_mask sz j), Hszm by lia.
  cbn [assert_that mbind outcome_bind Z.eqb]. rewrite (wsub_small (len b)) by (unfold is_u64; lia).
  unfold new. rewrite (proj2 (Z.ltb_ge (len b - sz) _)) by lia. rewrite (wsub_small BSZ 1) by (unfold is_u64; lia).
  rewrite land_mask by lia.
  replace ((len b ⊕ sz)%u64 mod BSZ) with 0.
  2:{ unfold wadd, wrap64. rewrite Z.mod_mod_divide.
      - rewrite Z.add_mod, Hbs, Hszm by lia. by rewrite Z.mod_0_l by lia.
      - exists (2 ^ (64 - j)). rewrite <- Z.pow_add_r by lia. f_equal. lia. }
  cbn. eexists. split; [done|]. done.
Qed.

Lemma alloc_score_aligned b :
  aligned_block b -> sz < len b -> alloc_score BSZ b lay = Done (true, len b - sz).
Proof using Hj Hk.
  intros Hb Hlt. destruct (try_split_aligned b Hb Hlt) as (t & Ht & Hl).
  unfold alloc_score. rewrite chk_fit_aligned, (proj2 (Z.ltb_lt _ _)) by done. cbn [assert_that mbind outcome_bind].
  assert (chk_clean b lay = true) as ->.
  { unfold chk_clean. cbn [l_size l_align]. rewrite (proj2 (Z.ltb_ge _ _)) by lia. by rewrite aligned_start. }
  rewrite Ht. cbn. by rewrite Hl.
Qed.

(** What the scan knows after the blocks [pre]. *)
Definition best (pre : list FreeMem) (is_clean : bool) (score : option Z) (index : option nat) : Prop :=
  (is_clean = false /\ score = None /\ index = None /\ Forall (fun b => len b <= sz) pre) \/
  exists i b, is_clean = true /\ score = Some (len b - sz) /\ index = Some i /\
    pre !! i = Some b /\ sz < len b /\ Forall (fun c => sz < len c -> len b <= len c) pre.

Lemma best_skip pre b ic sc ix : len b <= sz -> best pre ic sc ix -> best (pre ++ [b]) ic sc ix.
Proof.
  intros Hb [(-> & -> & -> & Hf)|(i & b0 & -> & -> & -> & Hi & Hlt & Hf)]; [left|right].
  - split; [done|]. split; [done|]. split; [done|]. apply Forall_app. split; [done|]. by constructor.
  - exists i, b0. repeat (split; [done || by apply lookup_app_l_Some|]). apply Forall_app. split; [done|].
    constructor; [lia|done].
Qed.

Lemma best_take pre b : 
  sz < len b -> Forall (fun c => sz < len c -> len b <= len c) pre ->
  best (pre ++ [b]) true (Some (len b - sz)) (Some (length pre)).
Proof.
  intros Hb Hf. right. exists (length pre), b. repeat (split; [done || by apply list_lookup_middle|]).
  apply Forall_app. split; [done|]. by constructor.
Qed.

Lemma best_keep pre b i b0 :
  best pre true (Some (len b0 - sz)) (Some i) -> len b0 <= len b ->
  best (pre ++ [b]) true (Some (len b0 - sz)) (Some i).
Proof.
  intros [(? & _)|(i' & b1 & _ & [= Hsc] & [= <-] & Hi & Hlt & Hf)] Hle; [done|]. right. exists i, b1.
  rewrite Hsc. repeat (split; [done || by apply lookup_app_l_Some|]). apply Forall_app. split; [done|].
  constructor; [lia|done].
Qed.

(** One turn of the scan. *)
Lemma scan_step b rest pre ic sc ix :
  aligned_block b -> best pre ic sc ix ->
  exists ic' sc' ix', best (pre ++ [b]) ic' sc' ix' /\
    scan BSZ lay (b :: rest) (length pre) ic sc ix = scan BSZ lay rest (length (pre ++ [b])) ic' sc' ix'.
Proof using Hj Hk.
  intros Hb Hbest. cbn [scan]. rewrite chk_fit_aligned by done.
  replace (length (pre ++ [b])) with (S (length pre)) by (rewrite length_app; cbn; lia).
  destruct (sz <? len b) eqn:E; bool_to_prop; [|exists ic, sc, ix; split; [by apply best_skip|done]].
  rewrite alloc_score_aligned by done. cbn [mbind outcome_bind].
  destruct Hbest as [(-> & -> & -> & Hf)|(i & b0 & -> & -> & -> & Hi & Hlt & Hf)]; cbn.
  - rewrite bool_decide_false by (intros [= ?]; lia). do 3 eexists. split; [|done]. apply best_take; [done|].
    eapply Forall_impl; [exact Hf|]. cbn. intros c ?. lia.
  - destruct (len b - sz <? len b0 - sz) eqn:E2; bool_to_prop;
      (rewrite bool_decide_false by (intros [= ?]; lia)); (do 3 eexists; split; [|done]).
    + apply best_take; [done|]. eapply Forall_impl; [exact Hf|]. cbn. intros c Hc Hs. specialize (Hc Hs). lia.
    + apply best_keep; [|lia]. right. by exists i, b0.
Qed.

Lemma scan_aligned l rest : forall pre ic sc ix,
  Forall aligned_block l -> best pre ic sc ix ->
  exists ic' sc' ix', best (pre ++ l) ic' sc' ix' /\
    scan BSZ lay (l ++ rest) (length pre) ic sc ix = scan BSZ lay rest (length (pre ++ l)) ic' sc' ix'.
Proof using Hj Hk.
  induction l as [|b l IH]; intros pre ic sc ix Hl Hbest.
  { rewrite app_nil_r. by exists ic, sc, ix. }
  apply Forall_cons in Hl as [Hb Hl].
  destruct (scan_step b (l ++ rest) pre ic sc ix Hb Hbest) as (ic1 & sc1 & ix1 & Hb1 & H1).
  destruct (IH (pre ++ [b]) ic1 sc1 ix1 Hl Hb1) as (ic2 & sc2 & ix2 & Hb2 & H2).
  rewrite <- app_assoc in Hb2, H2. exists ic2, sc2, ix2. split; [done|]. cbn [app] in *. by rewrite H1.
Qed.

(** The whole of [allocate] on aligned blocks. *)
Lemma allocate_aligned l :
  Forall aligned_block l ->
  (Forall (fun b => len b <= sz) l /\ allocate BSZ l lay = Done (None, l)) \/
  exists i b, l !! i = Some b /\ sz < len b /\ Forall (fun c => sz < len c -> len b <= len c) l /\
    allocate BSZ l lay = Done (Some (mkFree (start b) sz), delete i l).
Proof using Hj Hk.
  intros Hl. destruct (scan_aligned l [] [] false None None Hl) as (c & s & i & Hbest & Hscan).
  { left. by repeat split. }
  unfold allocate. rewrite app_nil_r in Hscan. cbn [length app scan mbind outcome_bind] in *. rewrite Hscan.
  cbn [mbind outcome_bind].
  destruct Hbest as [(_ & _ & -> & Hf)|(i' & b & _ & _ & -> & Hi & Hlt & Hf)]; [by left|right].
  exists i', b. split; [done|]. split; [done|]. split; [done|]. cbv beta iota. rewrite Hi. cbn [unwrap mbind outcome_bind].
  assert (aligned_block b) as Hb by (eapply Forall_lookup_1; [exact Hl|exact Hi]).
  destruct (try_split_aligned b Hb Hlt) as (t & Ht & _).
  unfold force_split_to_layout. rewrite chk_fit_aligned, (proj2 (Z.ltb_lt _ _)) by done. cbn [negb l_size l_align].
  rewrite (proj2 (Z.ltb_ge _ _)) by lia. rewrite Ht. done.
Qed.

(** [HighOrderAlloc::allocate] on a free list whose blocks start on multiples of the requested
    power-of-two size never panics.  It fails only when no block is strictly larger than the
    request; otherwise it returns the first bytes of the smallest block that is, which were free,
    and no byte of the result stays in the free list. *)
Theorem high_order_allocate_sound l :
  list_ok l -> Forall aligned_block l ->
  exists ret l', allocate BSZ l lay = Done (ret, l') /\ list_ok l' /\
    match ret with
    | None => l' = l /\ Forall (fun b => len b <= sz) l
    | Some m => len m = sz /\ start m mod sz = 0 /\
        (forall x, start m <= x < start m + len m -> free_cover l x /\ ~ free_cover l' x) /\
        exists b, b ∈ l /\ start b = start m /\ sz < len b /\ Forall (fun c => sz < len c -> len b <= len c) l
    end.
Proof using Hj Hk.
  intros Hok Hl. destruct (allocate_aligned l Hl) as [[Hf Ha]|(i & b & Hi & Hlt & Hf & Ha)].
  { exists None, l. auto. }
  destruct (delete_ok l i b Hok Hi) as [Hok' Hcov]. assert (b ∈ l) as Hin by by eapply list_elem_of_lookup_2.
  exists (Some (mkFree (start b) sz)), (delete i l). split; [done|]. split; [done|].
  split; [done|]. split; [by apply (proj1 (Forall_forall _ _) Hl) in Hin as (_ & ? & _)|].
  split; [|by exists b]. cbn. intros x Hx. apply Hcov. lia.
Qed.

(** The rest of the block [allocate] took the result from is lost: it is neither returned nor
    put back, so its bytes can never be allocated again. *)
Theorem high_order_allocate_loses_rest l m l' :
  list_ok l -> Forall aligned_block l -> allocate BSZ l lay = Done (Some m, l') ->
  exists b, b ∈ l /\ start b = start m /\ len m < len b /\
    forall x, start m + len m <= x < start b + len b -> free_cover l x /\ ~ free_cover l' x.
Proof using Hj Hk.
  intros Hok Hl Hall. destruct (allocate_aligned l Hl) as [[Hf Ha]|(i & b & Hi & Hlt & Hf & Ha)];
    rewrite Hall in Ha; [done|]. injection Ha as -> ->.
  exists b. split; [by eapply list_elem_of_lookup_2|]. split; [done|]. split; [done|]. cbn. intros x Hx.
  pose proof sz_bounds. apply (delete_ok l i b Hok Hi). lia.
Qed.

(** A clean split at the high end of a block computes the address of the new block from the
    length of the old one: the result starts at [2 * len - size] instead of
    [start + len - size], so it lies outside the block unless [start = len]. *)
Theorem high_order_split_high_end b :
  mem_ok b -> start b mod sz <> 0 -> (start b + len b) mod sz = 0 -> sz <= len b -> 2 * len b < 2 ^ 64 ->
  start b mod BSZ = 0 -> len b mod BSZ = 0 -> start b + sz <> len b ->
  try_split_to_layout BSZ b lay = Done (Some (mkFree (2 * len b - sz) sz), mkFree (start b) (len b - sz)).
Proof using Hj Hk.
  intros (H1 & H2 & H3) Hs He Hlen Hlen2 Hbs Hbl Hne. pose proof sz_bounds as Hsz.
  pose proof (Z.mod_pos_bound (start b) sz ltac:(lia)).
  assert (sz mod BSZ = 0) as Hszm.
  { apply Z.mod_divide; [lia|]. exists (2 ^ (k - j)). rewrite <- Z.pow_add_r by lia. f_equal. lia. }
  assert ((len b - sz) mod BSZ = 0) as Hd by (by rewrite Zminus_mod, Hbl, Hszm, Z.mod_0_l by lia).
  assert ((len b + (len b - sz)) mod BSZ = 0) as Hd2 by (by rewrite Z.add_mod, Hbl, Hd, Z.mod_0_l by lia).
  unfold try_split_to_layout, chk_fit, fend. cbn [l_size l_align].
  rewrite (wsub_small sz 1), (wadd_small (start b)) by lia. rewrite !land_mask, land_wnot_mask by (unfold is_u64; lia).
  rewrite (proj2 (Z.eqb_neq _ _) Hs). pose proof (Z.mod_le (start b) sz ltac:(lia) ltac:(lia)).
  rewrite (wsub_small (start b + len b) (start b - start b mod sz)) by lia.
  rewrite (proj2 (Z.ltb_lt sz _)) by lia. rewrite (proj2 (Z.ltb_ge (len b) sz)) by lia. cbn [negb].
  rewrite (wsub_small (start b + len b) sz) by lia.
  rewrite Zminus_mod, He, Z_mod_same_full, Z.mod_0_l by lia. cbn [Z.eqb].
  unfold split. rewrite (wsub_small (len b) sz) by lia.
  rewrite (proj2 (Z.eqb_neq (start b ⊖ (len b - sz))%u64 0)) by (rewrite wsub_zero; unfold is_u64; lia).
  cbn [assert_that negb mbind outcome_bind]. rewrite (land_mask (len b - sz) j), Hd by lia.
  cbn [assert_that mbind outcome_bind Z.eqb]. rewrite wadd_small, (wsub_small (len b)) by lia.
  unfold new. rewrite (proj2 (Z.ltb_ge (len b - (len b - sz)) _)) by lia. rewrite (wsub_small BSZ 1) by lia.
  rewrite land_mask, Hd2 by lia. cbn. do 2 f_equal. f_equal. f_equal; lia.
Qed.

Lemma split_at_size b : start b = sz -> split BSZ b sz = Panic.
Proof. intros Hb. unfold split. rewrite Hb. unfold wsub. by rewrite Z.sub_diag. Qed.

Lemma score_at_size b : mem_ok b -> start b = sz -> sz < len b -> chk_fit b lay = true /\ alloc_score BSZ b lay = Panic.
Proof using Hj Hk.
  intros Hb Hs Hlt. pose proof sz_bounds as Hsz.
  assert (Z.land (start b) (sz ⊖ 1)%u64 = 0) as Hland.
  { rewrite wsub_small by (unfold is_u64; lia). rewrite land_mask, Hs by lia. apply Z_mod_same_full. }
  assert (chk_fit b lay = true) as Hfit.
  { unfold chk_fit, fend, mem_ok in *. cbn [l_size l_align]. rewrite Hland. cbn.
    rewrite wadd_small by (unfold is_u64; lia). rewrite wsub_small by (unfold is_u64; lia). apply Z.ltb_lt. lia. }
  split; [done|]. unfold alloc_score, chk_clean, try_split_to_layout. rewrite Hfit. cbn [l_size l_align].
  rewrite (proj2 (Z.ltb_ge _ _)) by lia. rewrite Hland. cbn. by rewrite (split_at_size b Hs).
Qed.

(** A free block that starts at the address equal to the requested size makes [allocate]
    panic: [split] asserts [start - new_size != 0]. *)
Theorem high_order_allocate_panics pre b post :
  Forall aligned_block pre -> mem_ok b -> start b = sz -> sz < len b ->
  allocate BSZ (pre ++ b :: post) lay = Panic.
Proof using Hj Hk.
  intros Hpre Hb Hs Hlt. unfold allocate.
  destruct (scan_aligned pre (b :: post) [] false None None Hpre) as (c & s & i & _ & Hscan); [left; by repeat split|].
  cbn [length] in Hscan. rewrite Hscan. cbn. destruct (score_at_size b Hb Hs Hlt) as [-> ->]. done.
Qed.

End Clean.

Definition sample_list : list FreeMem := [mkFree (2 ^ 22) (2 ^ 23); mkFree (2 ^ 24) (2 ^ 24)].

Lemma sample_list_ok : list_ok sample_list.
Proof.
  split; [repeat constructor; unfold before; cbn; lia|]. repeat constructor; cbn; lia.
Qed.

Lemma sample_list_blocked : Forall (blocked 21) sample_list.
Proof.
  repeat constructor; cbn; [exists 2|exists 4|exists 8|exists 8]; reflexivity.
Qed.

Lemma high_order_free_witness :
  exists l', free sample_list (mkFree (3 * 2 ^ 22) (2 ^ 21)) = Done (Ok tt, l') /\ list_ok l' /\
    Forall (blocked 21) l' /\
    forall x, free_cover l' x <-> free_cover sample_list x \/ 3 * 2 ^ 22 <= x < 3 * 2 ^ 22 + 2 ^ 21.
Proof.
  apply (high_order_free 21 sample_list (3 * 2 ^ 22) (2 ^ 21)).
  - lia.
  - exact sample_list_ok.
  - exact sample_list_blocked.
  - by exists 1.
  - reflexivity.
  - unfold mem_ok. cbn. lia.
  - repeat constructor; unfold before; cbn; lia.
Defined.

Lemma high_order_free_duplicate_witness :
  free sample_list (mkFree (2 ^ 22) (2 ^ 21)) = Panic <->
  exists b, b ∈ sample_list /\ start b = start (mkFree (2 ^ 22) (2 ^ 21)).
Proof. apply (high_order_free_duplicate sample_list (mkFree (2 ^ 22) (2 ^ 21)) sample_list_ok). Defined.

Lemma sample_list_aligned : Forall (aligned_block 21 21) sample_list.
Proof. repeat constructor; cbn; lia. Qed.

Lemma high_order_allocate_sound_witness :
  exists ret l', allocate (2 ^ 21) sample_list (mkLayout (2 ^ 21) (2 ^ 21)) = Done (ret, l') /\ list_ok l' /\
    match ret with
    | None => l' = sample_list /\ Forall (fun b => len b <= 2 ^ 21) sample_list
    | Some m => len m = 2 ^ 21 /\ start m mod 2 ^ 21 = 0 /\
        (forall x, start m <= x < start m + len m -> free_cover sample_list x /\ ~ free_cover l' x) /\
        exists b, b ∈ sample_list /\ start b = start m /\ 2 ^ 21 < len b /\
          Forall (fun c => 2 ^ 21 < len c -> len b <= len c) sample_list
    end.
Proof.
  apply (high_order_allocate_sound 21 21 ltac:(lia) ltac:(lia) sample_list).
  - exact sample_list_ok.
  - exact sample_list_aligned.
Defined.

Lemma high_order_allocate_loses_rest_witness :
  exists b, b ∈ sample_list /\ start b = 2 ^ 22 /\ 2 ^ 21 < len b /\
    forall x, 2 ^ 22 + 2 ^ 21 <= x < start b + len b ->
      free_cover sample_list x /\ ~ free_cover [mkFree (2 ^ 24) (2 ^ 24)] x.
Proof.
  apply (high_order_allocate_loses_rest 21 21 ltac:(lia) ltac:(lia) sample_list (mkFree (2 ^ 22) (2 ^ 21))).
  - exact sample_list_ok.
  - exact sample_list_aligned.
  - vm_compute. reflexivity.
Defined.

(** The memory from 4 MiB on as one block, with 4 MiB requested. *)
Lemma high_order_allocate_panics_witness :
  allocate (2 ^ 22) ([] ++ mkFree (2 ^ 22) (2 ^ 30) :: []) (mkLayout (2 ^ 22) (2 ^ 22)) = Panic.
Proof.
  apply (high_order_allocate_panics 22 22 ltac:(lia) ltac:(lia) [] (mkFree (2 ^ 22) (2 ^ 30)) []);
    first [reflexivity | by constructor | unfold mem_ok; cbn; lia].
Defined.

(** The block [10 MiB, 16 MiB) is asked for 4 MiB: the result is [8 MiB, 12 MiB). *)
Lemma high_order_split_high_end_witness :
  try_split_to_layout (2 ^ 21) (mkFree (10 * 2 ^ 20) (6 * 2 ^ 20)) (mkLayout (2 ^ 22) (2 ^ 22)) =
  Done (Some (mkFree (8 * 2 ^ 20) (4 * 2 ^ 20)), mkFree (10 * 2 ^ 20) (2 * 2 ^ 20)).
Proof.
  apply (high_order_split_high_end 21 22 ltac:(lia) ltac:(lia) (mkFree (10 * 2 ^ 20) (6 * 2 ^ 20)));
    first [reflexivity | discriminate | unfold mem_ok; cbn; lia].
Defined.

End HighOrder.
