(* ===== verification/FrameAlloc.v ===== *)
(** * Physical frame allocation

    Model of [kernel/src/mem/buddy_frame_alloc.rs] and of [MemRegion] in [kernel/src/mem.rs]:
    the allocator used before the heap exists ([IterSegment], [PreInitFrameAlloc]), which walks
    the boot memory map, and the one used afterwards ([Region], [BuddyFrameAlloc]), which puts a
    buddy allocator and a high-order list behind each DMA region.

    [PhysAddr] and [PhysFrame] come from the [x86_64] crate and the buddy allocator from
    [bootstrappable_buddy_allocator]; both are classes here ([PhysAddrOps], [Backend]) with the
    behaviour their documentation gives as laws. *)
From stdpp Require Import prelude gmap.
From S2P Require Import Prelude Ranges HighOrder.
Open Scope Z_scope.

Definition PAGE_SIZE : Z := 4096.

(** Addresses of the [x86_64] crate: [PhysAddr::new] and [+] panic outside the 52-bit physical
    address space, [PhysFrame::from_start_address] needs page alignment. *)
Class PhysAddrOps := {
  phys_new : Z -> outcome Z;
  phys_add : Z -> Z -> outcome Z;
  from_start_address : Z -> option Z;
}.

Class PhysAddrLaws `{PhysAddrOps} := {
  phys_new_valid : forall a, 0 <= a < 2 ^ 52 -> phys_new a = Done a;
  phys_new_inv : forall a b, phys_new a = Done b -> b = a;
  phys_add_valid : forall a n, 0 <= a -> 0 <= n -> a + n < 2 ^ 52 -> phys_add a n = Done (a + n);
  from_start_address_aligned : forall a, a mod PAGE_SIZE = 0 -> from_start_address a = Some a;
}.

(** ** DMA regions *)
Inductive MemRegion := Mem16 | Mem32 | Mem64.

Definition upper_limit (r : MemRegion) : Z :=
  match r with Mem16 => 0xffff | Mem32 => 0xffffffff | Mem64 => 0xffffffffffffffff end.

Definition lower_limit (r : MemRegion) : Z :=
  match r with Mem16 => 0 | Mem32 => 0x10000 | Mem64 => 0x100000000 end.

(** [impl From<PhysAddr> for MemRegion]. *)
Definition region_of (raw : Z) : MemRegion :=
  if raw <=? 0xffff then Mem16 else if raw <=? 0xffffffff then Mem32 else Mem64.

(** ** The boot memory map *)
Inductive MemoryRegionType := Usable | Bootloader | Unusable (ty : Z) | Unknown (ty : Z).

Record MemoryRegion := mkMemoryRegion { phys_addr : Z; size : Z; ty : MemoryRegionType }.

(** [MemoryRegionType::eq] compares discriminants. *)
Definition is_usable (r : MemoryRegion) : bool := match ty r with Usable => true | _ => false end.

Module PreInit.

Record IterSegment := mkSeg { mem_region : MemRegion; current : option Z; seg_num : nat; seg_len : Z }.

Definition seg_new (r : MemRegion) : IterSegment := mkSeg r None 0 0.

Definition seg_start (r : MemRegion) (e : MemoryRegion) : Z := Z.max (phys_addr e) (lower_limit r).
Definition seg_end (r : MemRegion) (e : MemoryRegion) : Z := Z.min (phys_addr e ⊕ size e)%u64 (upper_limit r).

Section Ops.
Context `{PO : PhysAddrOps}.

(** The loop of [advance], over the entries that are left after [skip]; [i] is their index. *)
Fixpoint advance_loop (s : IterSegment) (i : nat) (map : list MemoryRegion) : outcome IterSegment :=
  match map with
  | [] => Done s
  | e :: rest =>
      if is_usable e && (seg_start (mem_region s) e <? seg_end (mem_region s) e) then
        a ← phys_new (seg_start (mem_region s) e);
        _ ← assert_that (match current s with None => true | Some _ => false end);
        Done (mkSeg (mem_region s) (Some a) i (seg_end (mem_region s) e ⊖ seg_start (mem_region s) e)%u64)
      else advance_loop s (S i) rest
  end.

Definition advance (s : IterSegment) (map : list MemoryRegion) : outcome IterSegment :=
  advance_loop s (seg_num s + 1) (drop (seg_num s + 1) map).

(** One page off the current run. *)
Definition take_page (s : IterSegment) (rc : Z) : outcome (option Z * IterSegment) :=
  let len := (seg_len s ⊖ PAGE_SIZE)%u64 in
  if len =? 0 then Done (Some rc, mkSeg (mem_region s) None (seg_num s) len)
  else
    next ← phys_add rc PAGE_SIZE;
    Done (Some rc, mkSeg (mem_region s) (Some next) (seg_num s) len).

Definition alloc (s : IterSegment) (map : list MemoryRegion) : outcome (option Z * IterSegment) :=
  match current s with
  | Some rc => take_page s rc
  | None =>
      s ← advance s map;
      match current s with
      | Some rc => take_page s rc
      | None => Done (None, s)
      end
  end.

Definition pop (s : IterSegment) (map : list MemoryRegion) : outcome (option (Z * Z) * IterSegment) :=
  let taken s addr := (Some (addr, seg_len s), mkSeg (mem_region s) None (seg_num s) 0) in
  match current s with
  | Some addr => Done (taken s addr)
  | None =>
      s ← advance s map;
      match current s with
      | Some addr => Done (taken s addr)
      | None => Done (None, s)
      end
  end.

(** [dissolve]: the next block, the new [addr] and the new [len]. *)
Definition dissolve (addr len : Z) : outcome (option (Z * Z) * Z * Z) :=
  if len =? 0 then Done (None, addr, len)
  else
    let tz := trailing_zeros addr in
    let tgt_size := if tz <? 64 then Z.shiftl 1 tz else 2 ^ 63 in
    let tgt_size := if len <? tgt_size then wshl 1 (64 - (leading_zeros len + 1)) else tgt_size in
    addr' ← phys_add addr tgt_size;
    Done (Some (addr, tgt_size), addr', (len ⊖ tgt_size)%u64).

(** The inner loop of [drain]; [free] is [region.deallocate].  Each turn at least halves what is
    left or doubles the alignment of [addr], so 129 turns are enough. *)
Fixpoint drain_blocks {R} (free : Z -> Z -> R -> outcome R) (fuel : nat) (addr len : Z) (r : R) : outcome R :=
  match fuel with
  | O => Panic
  | S fuel =>
      d ← dissolve addr len;
      let '(blk, addr, len) := d in
      match blk with
      | Some (base, blen) => r ← free base blen r; drain_blocks free fuel addr len r
      | None => Done r
      end
  end.

(** The outer loop: each turn that goes on advances [seg_num], so [length map + 2] turns are
    enough. *)
Fixpoint drain_loop {R} (free : Z -> Z -> R -> outcome R) (fuel : nat) (s : IterSegment)
    (map : list MemoryRegion) (r : R) : outcome (IterSegment * R) :=
  match fuel with
  | O => Panic
  | S fuel =>
      p ← pop s map;
      let '(seg, s) := p in
      match seg with
      | Some (addr, len) => r ← drain_blocks free 129 addr len r; drain_loop free fuel s map r
      | None => Done (s, r)
      end
  end.

Definition drain {R} (free : Z -> Z -> R -> outcome R) (s : IterSegment) (map : list MemoryRegion) (r : R) :
    outcome (IterSegment * R) := drain_loop free (length map + 2) s map r.

Record PreInitFrameAlloc := mkPre {
  pmap : list MemoryRegion; dma_16 : IterSegment; dma_32 : IterSegment; dma_64 : IterSegment }.

Definition pre_new (map : list MemoryRegion) : PreInitFrameAlloc :=
  mkPre map (seg_new Mem16) (seg_new Mem32) (seg_new Mem64).

Definition allocate_frame (p : PreInitFrameAlloc) : outcome (option Z * PreInitFrameAlloc) :=
  r ← alloc (dma_64 p) (pmap p);
  let p := mkPre (pmap p) (dma_16 p) (dma_32 p) r.2 in
  match r.1 with
  | Some a => f ← unwrap (from_start_address a); Done (Some f, p)
  | None =>
      r ← alloc (dma_32 p) (pmap p);
      let p := mkPre (pmap p) (dma_16 p) r.2 (dma_64 p) in
      match r.1 with
      | Some a => f ← unwrap (from_start_address a); Done (Some f, p)
      | None =>
          r ← alloc (dma_16 p) (pmap p);
          let p := mkPre (pmap p) r.2 (dma_32 p) (dma_64 p) in
          match r.1 with
          | Some a => f ← unwrap (from_start_address a); Done (Some f, p)
          | None => Done (None, p)
          end
      end
  end.

End Ops.

(** ** The frames a segment still has to give *)

(** The pages of a run of [len] bytes at [a]. *)
Definition run (a len : Z) : list Z := (fun i => a + PAGE_SIZE * Z.of_nat i) <$> seq 0 (Z.to_nat (len / PAGE_SIZE)).

(** The pages of a map entry that lie in the DMA region. *)
Definition frames (r : MemRegion) (e : MemoryRegion) : list Z :=
  if is_usable e && (seg_start r e <? seg_end r e) then run (seg_start r e) (seg_end r e - seg_start r e) else [].

Definition remaining (s : IterSegment) (map : list MemoryRegion) : list Z :=
  match current s with Some a => run a (seg_len s) | None => [] end ++
  concat (frames (mem_region s) <$> drop (seg_num s + 1) map).

(** Whole pages in the physical address space. *)
Definition run_ok (a len : Z) : Prop :=
  0 <= a /\ 0 < len /\ a + len < 2 ^ 52 /\ a mod PAGE_SIZE = 0 /\ len mod PAGE_SIZE = 0.

(** The part of every usable entry in the region is made of whole pages. *)
Definition map_ok (r : MemRegion) (map : list MemoryRegion) : Prop :=
  Forall (fun e => is_usable e = true -> seg_start r e < seg_end r e ->
                   run_ok (seg_start r e) (seg_end r e - seg_start r e)) map.

Definition seg_ok (s : IterSegment) : Prop :=
  match current s with Some a => run_ok a (seg_len s) | None => True end.

Lemma run_page a len : run_ok a len -> 1 <= len / PAGE_SIZE /\ len = PAGE_SIZE * (len / PAGE_SIZE).
Proof.
  unfold run_ok, PAGE_SIZE. intros H. pose proof (Z.div_mod len 4096 ltac:(lia)). lia.
Qed.

Lemma run_cons a len : run_ok a len -> run a len = a :: run (a + PAGE_SIZE) (len - PAGE_SIZE).
Proof.
  intros H. apply run_page in H as [H1 H2]. unfold run.
  replace ((len - PAGE_SIZE) / PAGE_SIZE) with (len / PAGE_SIZE - 1).
  2:{ rewrite H2 at 2. replace (PAGE_SIZE * (len / PAGE_SIZE) - PAGE_SIZE) with ((len / PAGE_SIZE - 1) * PAGE_SIZE) by lia.
      by rewrite Z.div_mul. }
  replace (Z.to_nat (len / PAGE_SIZE)) with (S (Z.to_nat (len / PAGE_SIZE - 1))) by lia.
  cbn [seq fmap list_fmap]. f_equal; [lia|]. rewrite <- fmap_S_seq, <- list_fmap_compose.
  apply list_fmap_ext. intros i x _. cbn. lia.
Qed.

Section Laws.
Context `{PL : PhysAddrLaws}.

(** [advance] moves to the next entry with pages in the region, if there is one. *)
Lemma advance_loop_ok s i map :
  current s = None -> map_ok (mem_region s) map ->
  (concat (frames (mem_region s) <$> map) = [] /\ advance_loop s i map = Done s) \/
  exists pre e post, map = pre ++ e :: post /\
    let r := mem_region s in
    concat (frames r <$> map) = run (seg_start r e) (seg_end r e - seg_start r e) ++ concat (frames r <$> post) /\
    run_ok (seg_start r e) (seg_end r e - seg_start r e) /\
    advance_loop s i map =
      Done (mkSeg r (Some (seg_start r e)) (i + length pre) (seg_end r e - seg_start r e)).
Proof using PL.
  intros Hc. revert i. induction map as [|e map IH]; intros i Hok; [by left|].
  apply Forall_cons in Hok as [He Hok]. cbn [advance_loop fmap list_fmap concat].
  unfold frames at 1 3. destruct (is_usable e && _) eqn:E.
  - right. bool_to_prop. exists [], e, map. split; [done|]. cbn zeta. specialize (He ltac:(done) ltac:(done)).
    split; [done|]. split; [done|]. pose proof He as (G1 & G2 & G3 & _).
    rewrite phys_new_valid by lia. rewrite Hc. cbn. rewrite wsub_small by lia. by rewrite Nat.add_0_r.
  - destruct (IH (S i) Hok) as [[H1 H2]|(pre & e' & post & -> & H1 & H2 & H3)]; [by left|right].
    exists (e :: pre), e', post. split; [done|]. cbn zeta. split; [done|]. split; [done|].
    rewrite H3. do 2 f_equal. cbn. lia.
Qed.

Lemma take_page_ok s a map :
  current s = Some a -> run_ok a (seg_len s) ->
  exists s', take_page s a = Done (Some a, s') /\ seg_ok s' /\ mem_region s' = mem_region s /\
    remaining s map = a :: remaining s' map.
Proof using PL.
  intros Hc Hr. pose proof (run_page _ _ Hr) as [H1 H2]. pose proof Hr as (Ha & Hl & Hlt & Hma & Hml).
  unfold take_page, remaining. rewrite Hc, (run_cons _ _ Hr). unfold PAGE_SIZE in *.
  rewrite wsub_small by lia. destruct (_ =? 0) eqn:E; bool_to_prop.
  - eexists. split; [done|]. cbn. split; [done|]. split; [done|]. by rewrite E.
  - rewrite phys_add_valid by lia. cbn. eexists. split; [done|]. cbn. split; [|done].
    unfold seg_ok, run_ok, PAGE_SIZE. cbn. split; [lia|]. split; [lia|]. split; [lia|].
    rewrite Zplus_mod, Zminus_mod, Hma, Hml. done.
Qed.

(** Before the heap exists, [IterSegment::alloc] is a queue of page frames: it hands out, in
    order and each once, exactly the pages of the usable map entries after the current position
    that lie inside the DMA region, and answers [None] when there are none left.  It never panics
    when the entries are made of whole pages. *)
Theorem iter_segment_alloc_refines s map :
  seg_ok s -> map_ok (mem_region s) map ->
  exists s', alloc s map = Done (head (remaining s map), s') /\ seg_ok s' /\
    mem_region s' = mem_region s /\ remaining s' map = tail (remaining s map).
Proof using PL.
  intros Hs Hok. unfold alloc. destruct (current s) as [a|] eqn:Hc.
  - unfold seg_ok in Hs. rewrite Hc in Hs. destruct (take_page_ok s a map Hc Hs) as (s' & H1 & H2 & H3 & H4).
    exists s'. by rewrite H4.
  - assert (map_ok (mem_region s) (drop (seg_num s + 1) map)) as Hok' by by apply Forall_drop.
    assert (remaining s map = concat (frames (mem_region s) <$> drop (seg_num s + 1) map)) as Hrem
      by (unfold remaining; by rewrite Hc).
    unfold advance.
    destruct (advance_loop_ok s (seg_num s + 1) _ Hc Hok') as [[H1 ->]|(pre & e & post & Hsp & H1 & H2 & ->)].
    + cbn [mbind outcome_bind]. rewrite Hc. exists s. rewrite Hrem, H1. done.
    + cbn [mbind outcome_bind current]. set (s1 := mkSeg _ _ _ _).
      destruct (take_page_ok s1 (seg_start (mem_region s) e) map eq_refl H2) as (s' & G1 & G2 & G3 & G4).
      assert (remaining s map = remaining s1 map) as ->.
      { rewrite Hrem, H1. unfold remaining. cbn. do 3 f_equal.
        replace (seg_num s + 1 + length pre + 1)%nat with (seg_num s + 1 + (length pre + 1))%nat by lia.
        rewrite <- drop_drop, Hsp.
        replace (pre ++ e :: post) with ((pre ++ [e]) ++ post) by by rewrite <- app_assoc.
        by rewrite drop_app_length' by (rewrite length_app; cbn; lia). }
      exists s'. by rewrite G4.
Qed.

(** The first entry of the map is never used: a fresh segment starts at [skip(0 + 1)]. *)
Lemma iter_segment_skips_first r e e' map : alloc (seg_new r) (e :: map) = alloc (seg_new r) (e' :: map).
Proof. reflexivity. Qed.

(** When the part of an entry inside the DMA region is not a whole number of pages, [alloc]
    does not stop at its end: the last partial page is handed out, the remaining length wraps
    around and the page after it, outside the entry, comes next. *)
Theorem iter_segment_overruns s map a :
  current s = Some a -> 0 < seg_len s < PAGE_SIZE -> 0 <= a -> a + 2 * PAGE_SIZE < 2 ^ 52 ->
  exists s1 s2, alloc s map = Done (Some a, s1) /\ alloc s1 map = Done (Some (a + PAGE_SIZE), s2) /\
    a + seg_len s <= a + PAGE_SIZE.
Proof using PL.
  unfold PAGE_SIZE. intros Hc Hl Ha Hlt. unfold alloc. rewrite Hc. unfold take_page, PAGE_SIZE.
  assert ((seg_len s ⊖ 4096)%u64 = seg_len s - 4096 + 2 ^ 64) as Hw.
  { unfold wsub, wrap64. symmetry. apply Z.mod_unique_pos with (-1); lia. }
  rewrite Hw, (proj2 (Z.eqb_neq _ 0)) by lia. rewrite phys_add_valid by lia. cbn [mbind outcome_bind].
  eexists. eexists. split; [done|]. cbn [current seg_len].
  rewrite wsub_small by lia. rewrite (proj2 (Z.eqb_neq _ 0)) by lia. rewrite phys_add_valid by lia.
  cbn [mbind outcome_bind]. split; [done|lia].
Qed.

(** ** Dissolving a run into naturally aligned blocks *)

(** What bounds the number of turns: first the alignment of [addr] grows, then [len] halves. *)
Definition turns (addr len : Z) : Z :=
  if len =? 0 then 0
  else if 2 ^ trailing_zeros addr <=? len then 128 - trailing_zeros addr else Z.log2 len + 1.

Definition natural (b : Z * Z) : Prop := exists k, 0 <= k /\ b.2 = 2 ^ k /\ b.1 mod b.2 = 0.

Lemma turns_small addr len t :
  0 < len < 2 ^ 52 -> len < 2 ^ (t + 1) -> 0 <= t -> t <= trailing_zeros addr -> len < 2 ^ t ->
  turns addr len <= t.
Proof.
  intros Hl H1 Ht Htz H2. unfold turns. rewrite (proj2 (Z.eqb_neq _ _)) by lia.
  pose proof (Z.pow_le_mono_r 2 t (trailing_zeros addr) ltac:(lia) ltac:(lia)).
  rewrite (proj2 (Z.leb_gt _ _)) by lia. pose proof (proj1 (Z.log2_lt_pow2 len t ltac:(lia)) ltac:(lia)). lia.
Qed.

Lemma turns_bound addr len : 0 <= len < 2 ^ 52 -> 0 <= turns addr len <= 128.
Proof.
  intros Hl. unfold turns. destruct (_ =? 0) eqn:E; [lia|]. bool_to_prop. pose proof (trailing_zeros_bound addr).
  destruct (_ <=? _); [lia|]. pose proof (Z.log2_nonneg len).
  pose proof (proj1 (Z.log2_lt_pow2 len 52 ltac:(lia)) ltac:(lia)). lia.
Qed.

(** A block taken at full alignment. *)
Lemma dissolve_grow addr len :
  0 <= addr -> addr + len < 2 ^ 52 -> 2 ^ trailing_zeros addr <= len ->
  let t := 2 ^ trailing_zeros addr in
  dissolve addr len = Done (Some (addr, t), addr + t, len - t) /\ turns (addr + t) (len - t) < turns addr len.
Proof using PL.
  intros Ha Hlt Hle t. pose proof (trailing_zeros_bound addr) as Hb. set (z := trailing_zeros addr) in *.
  assert (z < 52) as Hz by (apply (Z.pow_lt_mono_r_iff 2); lia).
  pose proof (Z.pow_pos_nonneg 2 z ltac:(lia) ltac:(lia)) as Hp. split.
  - unfold dissolve. fold z. rewrite (proj2 (Z.eqb_neq len 0)), (proj2 (Z.ltb_lt z 64)) by lia.
    rewrite Z.shiftl_mul_pow2, Z.mul_1_l by lia. rewrite (proj2 (Z.ltb_ge len (2 ^ z))) by lia.
    rewrite phys_add_valid by lia. cbn [mbind outcome_bind]. by rewrite wsub_small by lia.
  - unfold turns at 2. fold z. rewrite (proj2 (Z.eqb_neq len 0)), (proj2 (Z.leb_le _ len)) by lia.
    pose proof (trailing_zeros_ge (addr + t) (z + 1) ltac:(lia) (trailing_zeros_add addr ltac:(lia))).
    unfold turns. destruct (_ =? 0) eqn:E; bool_to_prop; [lia|]. destruct (_ <=? _); [lia|].
    pose proof (proj1 (Z.log2_lt_pow2 (len - t) 52 ltac:(lia)) ltac:(lia)). lia.
Qed.

(** A block limited by what is left. *)
Lemma dissolve_shrink addr len :
  0 <= addr -> 0 < len -> addr + len < 2 ^ 52 -> len < 2 ^ trailing_zeros addr ->
  let t := 2 ^ Z.log2 len in
  dissolve addr len = Done (Some (addr, t), addr + t, len - t) /\ addr mod t = 0 /\
  turns (addr + t) (len - t) < turns addr len.
Proof using PL.
  intros Ha Hl Hlt Hle t. pose proof (trailing_zeros_bound addr) as Hb. set (z := trailing_zeros addr) in *.
  pose proof (Z.log2_spec len Hl) as Hlog. pose proof (Z.log2_nonneg len). rewrite Z.pow_succ_r in Hlog by lia.
  fold t in Hlog. assert (Z.log2 len < z) as Hz by (apply (Z.pow_lt_mono_r_iff 2); lia).
  assert (Z.log2 len < 52) as Hl52 by (apply (Z.pow_lt_mono_r_iff 2); lia).
  assert (addr mod t = 0) as Hal.
  { apply Z.mod_divide; [lia|]. apply Z.divide_trans with (2 ^ z).
    - exists (2 ^ (z - Z.log2 len)). unfold t. rewrite <- Z.pow_add_r by lia. f_equal. lia.
    - apply Z.mod_divide; [lia|]. apply trailing_zeros_mod. }
  split; [|split; [done|]].
  - unfold dissolve. fold z. rewrite (proj2 (Z.eqb_neq len 0)) by lia.
    assert ((len <? (if z <? 64 then Z.shiftl 1 z else 2 ^ 63)) = true) as ->.
    { apply Z.ltb_lt. destruct (z <? 64) eqn:E; [|lia]. rewrite Z.shiftl_mul_pow2 by lia. lia. }
    unfold wshl, leading_zeros. rewrite (proj2 (Z.eqb_neq len 0)) by lia.
    replace (64 - (63 - Z.log2 len + 1)) with (Z.log2 len) by lia.
    rewrite Z.mod_small, Z.shiftl_mul_pow2, Z.mul_1_l by lia. fold t. unfold wrap64. rewrite Z.mod_small by lia.
    rewrite phys_add_valid by lia. cbn [mbind outcome_bind]. by rewrite wsub_small by lia.
  - unfold turns at 2. fold z. rewrite (proj2 (Z.eqb_neq len 0)), (proj2 (Z.leb_gt _ len)) by lia.
    destruct (decide (len - t = 0)) as [->|Hne]; [cbn; lia|].
    enough (turns (addr + t) (len - t) <= Z.log2 len) by lia.
    apply turns_small; [lia| |lia| |fold t; lia].
    + rewrite Z.pow_add_r by lia. fold t. lia.
    + apply trailing_zeros_ge; [lia|]. fold t. rewrite Z.add_mod, Hal, Z_mod_same_full by lia. by rewrite Z.mod_0_l by lia.
Qed.

(** Consecutive blocks from [a] to [fin]. *)
Fixpoint tile_from (a : Z) (bs : list (Z * Z)) (fin : Z) : Prop :=
  match bs with
  | [] => a = fin
  | (b, l) :: rest => b = a /\ tile_from (a + l) rest fin
  end.

(** Calls of [free] for a list of blocks, in order. *)
Fixpoint free_all {R} (free : Z -> Z -> R -> outcome R) (bs : list (Z * Z)) (r : R) : outcome R :=
  match bs with
  | [] => Done r
  | (b, l) :: rest => r ← free b l r; free_all free rest r
  end.

Lemma drain_blocks_ok fuel : forall addr len,
  0 <= addr -> 0 <= len -> addr + len < 2 ^ 52 -> turns addr len < Z.of_nat fuel ->
  exists bs, tile_from addr bs (addr + len) /\ Forall natural bs /\
    forall R (free : Z -> Z -> R -> outcome R) r, drain_blocks free fuel addr len r = free_all free bs r.
Proof using PL.
  induction fuel as [|fuel IH]; intros addr len Ha Hl Hlt Hf.
  { pose proof (turns_bound addr len). lia. }
  destruct (decide (len = 0)) as [->|Hne].
  { exists []. split; [cbn; lia|]. split; [done|]. done. }
  assert (exists t, dissolve addr len = Done (Some (addr, t), addr + t, len - t) /\ natural (addr, t) /\
            0 < t <= len /\ turns (addr + t) (len - t) < turns addr len) as (t & Hd & Hn & Ht & Hm).
  { destruct (decide (2 ^ trailing_zeros addr <= len)).
    - destruct (dissolve_grow addr len) as [H1 H2]; [done..|]. eexists. split; [exact H1|].
      pose proof (trailing_zeros_bound addr). split; [|split; [split; [apply Z.pow_pos_nonneg|]; lia|done]].
      exists (trailing_zeros addr). split; [lia|]. split; [done|]. apply trailing_zeros_mod.
    - destruct (dissolve_shrink addr len) as (H1 & H2 & H3); [lia..|]. eexists. split; [exact H1|].
      pose proof (Z.log2_nonneg len). pose proof (Z.log2_spec len ltac:(lia)).
      split; [|split; [split; [apply Z.pow_pos_nonneg|]; lia|done]]. by exists (Z.log2 len). }
  destruct (IH (addr + t) (len - t)) as (bs & Hbs & Hnat & Heq); [lia..|].
  replace (addr + t + (len - t)) with (addr + len) in Hbs by lia.
  exists ((addr, t) :: bs). split; [by split|]. split; [by constructor|]. intros R free r.
  cbn [drain_blocks free_all]. rewrite Hd. cbn. destruct (free addr t r) as [r'|]; [|done]. cbn. apply Heq.
Qed.

(** C37. Draining a run of the memory map into a region terminates and tiles it: the loop of
    [dissolve] calls [deallocate] on consecutive blocks that cover exactly
    [addr .. addr + len], each of a power-of-two size and aligned to its size, which is what the
    buddy allocator behind the region requires. *)
Theorem drain_tiles addr len :
  0 <= addr -> 0 <= len -> addr + len < 2 ^ 52 ->
  exists bs, tile_from addr bs (addr + len) /\ Forall natural bs /\
    forall R (free : Z -> Z -> R -> outcome R) r, drain_blocks free 129 addr len r = free_all free bs r.
Proof using PL.
  intros Ha Hl Hlt. apply drain_blocks_ok; [done..|]. pose proof (turns_bound addr len ltac:(lia)). lia.
Qed.

End Laws.

End PreInit.

(** ** The buddy allocator behind a region

    [ORDER_MAX_SIZE], [allocate] and [deallocate] of [bootstrappable_buddy_allocator] in its
    [Overflow] configuration; [bk_avail b x] says that byte [x] is free in [b]. *)
Class Backend (B : Type) := {
  ORDER_MAX_SIZE : Z;
  bk_allocate : Z -> B -> result Z unit * B;
  bk_deallocate : Z -> Z -> B -> result unit Z * B;
  bk_avail : B -> Z -> Prop;
}.

(** A power of two between the page size and the largest order. *)
Definition order_size `{Backend B} (s : Z) : Prop := exists j, 12 <= j /\ s = 2 ^ j /\ s <= ORDER_MAX_SIZE.

Class BackendLaws (B : Type) `{Backend B} := {
  order_max : exists k, 12 <= k <= 40 /\ ORDER_MAX_SIZE = 2 ^ k;
  (** an allocated block is naturally aligned, was free, and is the only thing that changes *)
  bk_allocate_ok : forall s b a b', order_size s -> bk_allocate s b = (Ok a, b') ->
    0 <= a /\ a mod s = 0 /\ (forall x, in_range x (a, s) -> bk_avail b x) /\
    (forall x, bk_avail b' x <-> bk_avail b x /\ ~ in_range x (a, s));
  (** allocation fails only when no aligned block of the size is free *)
  bk_allocate_err : forall s b e b', order_size s -> bk_allocate s b = (Err e, b') ->
    (forall a, 0 <= a -> a mod s = 0 -> exists x, in_range x (a, s) /\ ~ bk_avail b x) /\
    (forall x, bk_avail b' x <-> bk_avail b x);
  bk_deallocate_ok : forall s a b b', order_size s -> 0 <= a -> a mod s = 0 -> bk_deallocate s a b = (Ok tt, b') ->
    forall x, bk_avail b' x <-> bk_avail b x \/ in_range x (a, s);
  (** [Overflow]: two free buddies of the largest order are taken out and handed to the caller *)
  bk_deallocate_err : forall s a b c b', order_size s -> 0 <= a -> a mod s = 0 -> bk_deallocate s a b = (Err c, b') ->
    c = a - a mod (2 * ORDER_MAX_SIZE) /\
    (forall x, in_range x (c, 2 * ORDER_MAX_SIZE) -> bk_avail b x \/ in_range x (a, s)) /\
    (forall x, bk_avail b' x <->
       (bk_avail b x \/ in_range x (a, s)) /\ ~ in_range x (c, 2 * ORDER_MAX_SIZE));
}.

Module BuddyFrame.
Import PreInit.

Record Region (B : Type) := mkRegion { backend : B; high : list HighOrder.FreeMem; extend_recurse : bool }.
Arguments mkRegion {B}.
Arguments backend {B}.
Arguments high {B}.
Arguments extend_recurse {B}.

Section Region.
Context {B : Type} `{BK : Backend B} `{PO : PhysAddrOps}.

Definition HIGH_ORDER_BLOCK_SIZE : Z := ORDER_MAX_SIZE * 2.

Definition use_high (size : Z) : bool := ORDER_MAX_SIZE <? size.

Definition extend_from_high (r : Region B) : outcome (result Z unit * Region B) :=
  if extend_recurse r then Done (Err tt, r)
  else
    layout ← unwrap (from_size_align HIGH_ORDER_BLOCK_SIZE HIGH_ORDER_BLOCK_SIZE);
    t ← HighOrder.allocate HIGH_ORDER_BLOCK_SIZE (high r) layout;
    let '(t, high') := t in
    match t with
    | None => Done (Err tt, mkRegion (backend r) high' false)
    | Some t =>
        base ← phys_new (HighOrder.as_raw t).1;
        higher ← phys_add base ORDER_MAX_SIZE;
        let '(d, backend') := bk_deallocate ORDER_MAX_SIZE base (backend r) in
        _ ← unwrap (result_ok d);
        Done (Ok higher, mkRegion backend' high' false)
    end.

Definition allocate (r : Region B) (size : Z) : outcome (result Z unit * Region B) :=
  if size =? 0 then Done (Ok 0, r)
  else
    let size := next_power_of_two size in
    if use_high size then
      layout ← unwrap (from_size_align size size);
      t ← HighOrder.allocate HIGH_ORDER_BLOCK_SIZE (high r) layout;
      let '(t, high') := t in
      let r' := mkRegion (backend r) high' (extend_recurse r) in
      match t with
      | None => Done (Err tt, r')
      | Some m => a ← phys_new (HighOrder.as_raw m).1; Done (Ok a, r')
      end
    else
      match bk_allocate size (backend r) with
      | (Ok a, b') => Done (Ok a, mkRegion b' (high r) (extend_recurse r))
      | (Err _, b') =>
          e ← extend_from_high (mkRegion b' (high r) (extend_recurse r));
          match e with
          | (Err _, r') => Done (Err tt, r')
          | (Ok hold, r') =>
              match bk_allocate size (backend r') with
              | (Err _, b') => Done (Err tt, mkRegion b' (high r') (extend_recurse r'))
              | (Ok rc, b') =>
                  let '(d, b') := bk_deallocate ORDER_MAX_SIZE hold b' in
                  _ ← unwrap (result_ok d);
                  Done (Ok rc, mkRegion b' (high r') (extend_recurse r'))
              end
          end
      end.

(** [self.high_order_alloc.free(FreeMem::new(addr, size).unwrap()).unwrap()] *)
Definition free_high (r : Region B) (b : B) (addr size : Z) : outcome (Region B) :=
  m ← unwrap (HighOrder.new HIGH_ORDER_BLOCK_SIZE addr size);
  f ← HighOrder.free (high r) m;
  let '(res, high') := f in
  _ ← unwrap (result_ok res);
  Done (mkRegion b high' (extend_recurse r)).

Definition deallocate (base size : Z) (r : Region B) : outcome (Region B) :=
  if size =? 0 then Done r
  else
    let size := next_power_of_two size in
    if use_high size then free_high r (backend r) base size
    else
      match bk_deallocate size base (backend r) with
      | (Ok _, b') => Done (mkRegion b' (high r) (extend_recurse r))
      | (Err addr, b') => free_high r b' addr HIGH_ORDER_BLOCK_SIZE
      end.

(** [BuddyFrameAlloc], with the static [MEM_MAP] that backs it before the heap exists. *)
Record BuddyFrameAlloc := mkFrameAlloc {
  mem_16 : Region B; mem_32 : Region B; mem_64 : Region B; MEM_MAP : PreInitFrameAlloc }.

Definition allocate_16 (f : BuddyFrameAlloc) (l : Layout) : outcome (result Z unit * BuddyFrameAlloc) :=
  r ← allocate (mem_16 f) (Z.max (l_size l) (l_align l));
  Done (r.1, mkFrameAlloc r.2 (mem_32 f) (mem_64 f) (MEM_MAP f)).

Definition allocate_32 (f : BuddyFrameAlloc) (l : Layout) : outcome (result Z unit * BuddyFrameAlloc) :=
  r ← allocate (mem_32 f) (Z.max (l_size l) (l_align l));
  let f := mkFrameAlloc (mem_16 f) r.2 (mem_64 f) (MEM_MAP f) in
  match r.1 with
  | Ok a => Done (Ok a, f)
  | Err _ => allocate_16 f l
  end.

(** [BuddyFrameAlloc::allocate], its recursive calls unfolded. *)
Definition frame_allocate (f : BuddyFrameAlloc) (l : Layout) (region : MemRegion) :
    outcome (result Z unit * BuddyFrameAlloc) :=
  match region with
  | Mem16 => allocate_16 f l
  | Mem32 => allocate_32 f l
  | Mem64 =>
      r ← allocate (mem_64 f) (Z.max (l_size l) (l_align l));
      let f := mkFrameAlloc (mem_16 f) (mem_32 f) r.2 (MEM_MAP f) in
      match r.1 with
      | Ok a => Done (Ok a, f)
      | Err _ =>
          r ← allocate_32 f l;
          let '(res, f) := r in
          match res with
          | Ok a => Done (Ok a, f)
          | Err _ =>
              p ← allocate_frame (MEM_MAP f);
              let f := mkFrameAlloc (mem_16 f) (mem_32 f) (mem_64 f) p.2 in
              match p.1 with Some a => Done (Ok a, f) | None => Done (Err tt, f) end
          end
      end
  end.

Definition frame_dealloc (f : BuddyFrameAlloc) (addr : Z) (l : Layout) : outcome BuddyFrameAlloc :=
  let tgt_size := Z.max (l_size l) (l_align l) in
  match region_of addr with
  | Mem16 => r ← deallocate addr tgt_size (mem_16 f); Done (mkFrameAlloc r (mem_32 f) (mem_64 f) (MEM_MAP f))
  | Mem32 => r ← deallocate addr tgt_size (mem_32 f); Done (mkFrameAlloc (mem_16 f) r (mem_64 f) (MEM_MAP f))
  | Mem64 => r ← deallocate addr tgt_size (mem_64 f); Done (mkFrameAlloc (mem_16 f) (mem_32 f) r (MEM_MAP f))
  end.

(** [drain_map]: the memory the early allocator has not given away goes to the regions. *)
Definition drain_map (f : BuddyFrameAlloc) : outcome BuddyFrameAlloc :=
  let m := MEM_MAP f in
  r64 ← drain deallocate (dma_64 m) (pmap m) (mem_64 f);
  r32 ← drain deallocate (dma_32 m) (pmap m) (mem_32 f);
  r16 ← drain deallocate (dma_16 m) (pmap m) (mem_16 f);
  Done (mkFrameAlloc r16.2 r32.2 r64.2 (mkPre (pmap m) r16.1 r32.1 r64.1)).

End Region.

Section RegionLaws.
Context {B : Type} `{BL : BackendLaws B} `{PL : PhysAddrLaws}.

(** The bytes a region can still give. *)
Definition rfree (r : Region B) (x : Z) : Prop := bk_avail (backend r) x \/ HighOrder.free_cover (high r) x.

Record rinv (r : Region B) : Prop := {
  rinv_list : HighOrder.list_ok (high r);
  rinv_blocks : Forall (fun m => (HIGH_ORDER_BLOCK_SIZE | HighOrder.start m) /\
                                 (HIGH_ORDER_BLOCK_SIZE | HighOrder.len m)) (high r);
  rinv_disj : forall x, HighOrder.free_cover (high r) x -> ~ bk_avail (backend r) x;
  rinv_idle : extend_recurse r = false;
  rinv_phys : forall x, rfree r x -> 0 <= x < 2 ^ 52;
}.

Lemma next_power_of_two_bounds n : 2 ^ 12 <= n <= 2 ^ 51 ->
  exists j, 12 <= j <= 51 /\ next_power_of_two n = 2 ^ j /\ n <= 2 ^ j /\ forall k, n <= 2 ^ k -> 0 <= k -> j <= k.
Proof.
  intros Hn. exists (Z.log2_up n).
  assert (forall k, n <= 2 ^ k -> 0 <= k -> Z.log2_up n <= k) as Hmin.
  { intros k Hk Hk0. rewrite <- (Z.log2_up_pow2 k) by lia. by apply Z.log2_up_le_mono. }
  assert (12 <= Z.log2_up n <= 51).
  { split; [|apply Hmin; lia]. rewrite <- (Z.log2_up_pow2 12) by lia. apply Z.log2_up_le_mono. lia. }
  split; [done|]. pose proof (Z.log2_up_spec n ltac:(lia)).
  pose proof (Z.pow_lt_mono_r 2 (Z.log2_up n) 64 ltac:(lia) ltac:(lia)).
  split; [|split; [lia|done]]. unfold next_power_of_two, wrap64. apply Z.mod_small. lia.
Qed.

(** Aligned ranges that share a byte are nested. *)
Lemma aligned_nested a i b j x :
  0 <= i <= j -> a mod 2 ^ i = 0 -> b mod 2 ^ j = 0 -> in_range x (a, 2 ^ i) -> in_range x (b, 2 ^ j) ->
  forall y, in_range y (a, 2 ^ i) -> in_range y (b, 2 ^ j).
Proof.
  intros Hij Ha Hb Hx1 Hx2 y Hy. unfold in_range in *. cbn in *.
  pose proof (Z.pow_pos_nonneg 2 i ltac:(lia) ltac:(lia)).
  assert (2 ^ j = 2 ^ i * 2 ^ (j - i)) as Hj by (rewrite <- Z.pow_add_r by lia; f_equal; lia).
  apply Z.mod_divide in Ha as [p ->]; [|lia]. apply Z.mod_divide in Hb as [q ->]; [|lia].
  rewrite Hj in *. set (m := 2 ^ (j - i)) in *. set (t := 2 ^ i) in *.
  assert (q * m <= p < q * m + m) as Hp by nia. nia.
Qed.

Lemma pow_divide i j a : 0 <= i <= j -> a mod 2 ^ j = 0 -> a mod 2 ^ i = 0.
Proof.
  intros Hij Ha. apply Z.mod_divide; [lia|]. apply Z.mod_divide in Ha; [|lia].
  apply Z.divide_trans with (2 ^ j); [|done]. exists (2 ^ (j - i)). rewrite <- Z.pow_add_r by lia. f_equal. lia.
Qed.

Lemma from_size_align_pow k : 0 <= k < 62 -> from_size_align (2 ^ k) (2 ^ k) = Some (mkLayout (2 ^ k) (2 ^ k)).
Proof.
  intros Hk. unfold from_size_align, is_power_of_two. pose proof (Z.pow_lt_mono_r 2 k 62 ltac:(lia) ltac:(lia)).
  pose proof (Z.pow_pos_nonneg 2 k ltac:(lia) ltac:(lia)).
  rewrite (proj2 (Z.ltb_lt 0 _)), land_mask, Z_mod_same_full by lia. cbn. rewrite (proj2 (Z.leb_le _ _)) by lia. done.
Qed.

Lemma order_size_pow k j : ORDER_MAX_SIZE = 2 ^ k -> 12 <= j <= k -> order_size (2 ^ j).
Proof. intros Hk Hj. exists j. split; [lia|]. split; [done|]. rewrite Hk. apply Z.pow_le_mono_r; lia. Qed.

(** Giving the lower half of a high-order block to the backend does not overflow, because the
    upper half is not in the backend. *)
Lemma give_lower k b base :
  ORDER_MAX_SIZE = 2 ^ k -> 12 <= k -> 0 <= base -> base mod 2 ^ (k + 1) = 0 ->
  (exists x, in_range x (base + 2 ^ k, 2 ^ k) /\ ~ bk_avail b x) ->
  exists b', bk_deallocate ORDER_MAX_SIZE base b = (Ok tt, b') /\
    forall x, bk_avail b' x <-> bk_avail b x \/ in_range x (base, 2 ^ k).
Proof using BL.
  intros Hom Hk Hb0 Hal (x & Hx & Hnx). pose proof (order_size_pow k k Hom ltac:(lia)) as Hos.
  assert (base mod ORDER_MAX_SIZE = 0) as Hbm by (rewrite Hom; apply (pow_divide k (k + 1)); [lia|done]).
  rewrite <- Hom in Hos. destruct (bk_deallocate ORDER_MAX_SIZE base b) as [[[]|c] b'] eqn:E.
  - exists b'. split; [done|]. rewrite <- Hom. by apply bk_deallocate_ok.
  - exfalso. apply bk_deallocate_err in E as (Hc & Hin & _); [|done|lia|done]. rewrite Hom in *.
    replace (2 * 2 ^ k) with (2 ^ (k + 1)) in * by (rewrite Z.pow_add_r by lia; lia).
    rewrite Hal, Z.sub_0_r in Hc. subst c. rewrite Z.pow_add_r in Hin by lia.
    unfold in_range in *. cbn in *. destruct (Hin x ltac:(lia)) as [|?]; [done|lia].
Qed.

(** Giving the upper half while a block of the lower half is allocated does not overflow. *)
Lemma give_upper k b base y :
  ORDER_MAX_SIZE = 2 ^ k -> 12 <= k -> 0 <= base -> base mod 2 ^ (k + 1) = 0 ->
  in_range y (base, 2 ^ k) -> ~ bk_avail b y ->
  exists b', bk_deallocate ORDER_MAX_SIZE (base + 2 ^ k) b = (Ok tt, b') /\
    forall x, bk_avail b' x <-> bk_avail b x \/ in_range x (base + 2 ^ k, 2 ^ k).
Proof using BL.
  intros Hom Hk Hb0 Hal Hy Hny. pose proof (order_size_pow k k Hom ltac:(lia)) as Hos.
  pose proof (Z.pow_pos_nonneg 2 k ltac:(lia) ltac:(lia)) as Hp.
  assert ((base + 2 ^ k) mod ORDER_MAX_SIZE = 0) as Hbm.
  { rewrite Hom. apply Z.mod_divide; [lia|]. apply Z.divide_add_r; [|apply Z.divide_refl].
    apply Z.mod_divide; [lia|]. apply (pow_divide k (k + 1)); [lia|done]. }
  rewrite <- Hom in Hos. destruct (bk_deallocate ORDER_MAX_SIZE (base + 2 ^ k) b) as [[[]|c] b'] eqn:E.
  - exists b'. split; [done|]. intros x. rewrite (bk_deallocate_ok _ _ _ _ Hos (Z.add_nonneg_nonneg _ _ Hb0 (Z.lt_le_incl _ _ Hp)) Hbm E x), Hom. done.
  - exfalso. apply bk_deallocate_err in E as (Hc & Hin & _); [|done|lia|done]. rewrite Hom in *.
    replace (2 * 2 ^ k) with (2 ^ (k + 1)) in * by (rewrite Z.pow_add_r by lia; lia).
    assert (2 ^ (k + 1) = 2 * 2 ^ k) as H2 by (rewrite Z.pow_add_r by lia; lia).
    rewrite <- (Z.add_mod_idemp_l base), Hal, Z.add_0_l, Z.mod_small in Hc by lia.
    replace (base + 2 ^ k - 2 ^ k) with base in Hc by lia. subst c. rewrite H2 in Hin.
    unfold in_range in *. cbn in *. destruct (Hin y ltac:(lia)) as [|?]; [done|lia].
Qed.

(** No high-order block starts at the address equal to the block size. *)
Definition no_block_at_size (r : Region B) : Prop :=
  Forall (fun m => HighOrder.start m <> HIGH_ORDER_BLOCK_SIZE) (high r).

Lemma high_size k : ORDER_MAX_SIZE = 2 ^ k -> 0 <= k -> HIGH_ORDER_BLOCK_SIZE = 2 ^ (k + 1).
Proof. intros Hom Hk. unfold HIGH_ORDER_BLOCK_SIZE. rewrite Hom, Z.pow_add_r by lia. lia. Qed.

Lemma high_aligned k r : ORDER_MAX_SIZE = 2 ^ k -> 12 <= k <= 40 -> rinv r -> no_block_at_size r ->
  Forall (HighOrder.aligned_block (k + 1) (k + 1)) (high r).
Proof using BL.
  intros Hom Hk Hr Hn. unfold no_block_at_size in Hn. pose proof (rinv_blocks _ Hr) as Hb.
  pose proof (proj2 (rinv_list _ Hr)) as Hm. rewrite (high_size k) in * by (done || lia).
  rewrite !Forall_forall in *. intros m Hin. specialize (Hn _ Hin). specialize (Hm _ Hin). destruct (Hb _ Hin) as [H1 H2].
  split; [done|]. split; [apply Z.mod_divide; [lia|done]|]. split; [apply Z.mod_divide; [lia|done]|done].
Qed.

Lemma cover_phys r m x : rinv r -> m ∈ high r -> HighOrder.start m <= x < HighOrder.start m + HighOrder.len m ->
  0 <= x < 2 ^ 52 /\ HighOrder.free_cover (high r) x.
Proof.
  intros Hr Hin Hx. assert (HighOrder.free_cover (high r) x) as Hc.
  { apply covers_elem. exists (HighOrder.region m). split; [|done]. apply list_elem_of_fmap. by exists m. }
  split; [|done]. apply (rinv_phys _ Hr). by right.
Qed.

Lemma region_extend_ok k r :
  ORDER_MAX_SIZE = 2 ^ k -> 12 <= k <= 40 -> rinv r -> no_block_at_size r ->
  extend_from_high r = Done (Err tt, mkRegion (backend r) (high r) false) \/
  exists base b1 i,
    extend_from_high r = Done (Ok (base + 2 ^ k), mkRegion b1 (delete i (high r)) false) /\
    0 <= base /\ base mod 2 ^ (k + 1) = 0 /\
    (forall x, in_range x (base, 2 ^ (k + 1)) ->
       HighOrder.free_cover (high r) x /\ ~ HighOrder.free_cover (delete i (high r)) x) /\
    HighOrder.list_ok (delete i (high r)) /\
    (forall x, bk_avail b1 x <-> bk_avail (backend r) x \/ in_range x (base, 2 ^ k)).
Proof using BL PL.
  intros Hom Hk Hr Hn. pose proof (high_aligned k r Hom Hk Hr Hn) as Hal.
  assert (2 ^ (k + 1) = 2 ^ k + 2 ^ k) as H2 by (rewrite Z.pow_add_r by lia; lia).
  pose proof (Z.pow_pos_nonneg 2 k ltac:(lia) ltac:(lia)) as Hp.
  pose proof (high_size k Hom ltac:(lia)) as HOB.
  unfold extend_from_high. rewrite HOB, (rinv_idle _ Hr), from_size_align_pow by lia. cbn [unwrap mbind outcome_bind].
  destruct (HighOrder.allocate_aligned (k + 1) (k + 1) ltac:(lia) ltac:(lia) (high r) Hal)
    as [[_ ->]|(i & m & Hi & Hlt & _ & ->)]; cbn [mbind outcome_bind HighOrder.as_raw HighOrder.start fst].
  { by left. }
  right. assert (m ∈ high r) as Hin by by eapply list_elem_of_lookup_2.
  pose proof (proj1 (Forall_forall _ _) Hal m Hin) as ((Hs & Hl & _) & Hmod & _).
  destruct (cover_phys r m (HighOrder.start m + 2 ^ (k + 1)) Hr Hin) as [Hphys _]; [lia|].
  rewrite phys_new_valid by lia. cbn [mbind outcome_bind]. 
  replace (phys_add (HighOrder.start m) ORDER_MAX_SIZE) with (Done (HighOrder.start m + 2 ^ k))
    by (rewrite Hom; symmetry; apply phys_add_valid; lia).
  cbn [mbind outcome_bind].
  destruct (HighOrder.delete_ok (high r) i m (rinv_list _ Hr) Hi) as [Hok' Hcov].
  destruct (give_lower k (backend r) (HighOrder.start m) Hom ltac:(lia) Hs Hmod) as (b' & -> & Hb').
  { exists (HighOrder.start m + 2 ^ k). split; [unfold in_range; cbn; lia|]. apply (rinv_disj _ Hr).
    apply (cover_phys r m); [done|done|lia]. }
  exists (HighOrder.start m), b', i. split; [done|]. split; [done|]. split; [done|].
  split; [intros x Hx; apply Hcov; unfold in_range in Hx; cbn in Hx; lia|]. by split.
Qed.

(** The allocation that follows an extension comes from the lower half, so the upper half can be
    given to the backend: the comment "this can never return the buddy". *)
Lemma extended_alloc k j b0 b1 base :
  ORDER_MAX_SIZE = 2 ^ k -> 12 <= j <= k -> 0 <= base -> base mod 2 ^ (k + 1) = 0 ->
  (forall a, 0 <= a -> a mod 2 ^ j = 0 -> exists x, in_range x (a, 2 ^ j) /\ ~ bk_avail b0 x) ->
  (forall x, bk_avail b1 x <-> bk_avail b0 x \/ in_range x (base, 2 ^ k)) ->
  exists rc b2 b3, bk_allocate (2 ^ j) b1 = (Ok rc, b2) /\
    bk_deallocate ORDER_MAX_SIZE (base + 2 ^ k) b2 = (Ok tt, b3) /\
    0 <= rc /\ rc mod 2 ^ j = 0 /\ (forall x, in_range x (rc, 2 ^ j) -> in_range x (base, 2 ^ k)) /\
    (forall x, bk_avail b3 x <->
       (bk_avail b0 x /\ ~ in_range x (rc, 2 ^ j)) \/ (in_range x (base, 2 ^ (k + 1)) /\ ~ in_range x (rc, 2 ^ j))).
Proof using BL.
  intros Hom Hj Hbase Hal Hnone Hb1. pose proof (order_size_pow k j Hom Hj) as Hos.
  assert (2 ^ (k + 1) = 2 ^ k + 2 ^ k) as H2 by (rewrite Z.pow_add_r by lia; lia).
  pose proof (Z.pow_pos_nonneg 2 j ltac:(lia) ltac:(lia)) as Hp.
  pose proof (Z.pow_le_mono_r 2 j k ltac:(lia) ltac:(lia)) as Hjk.
  destruct (bk_allocate (2 ^ j) b1) as [[rc|e] b2] eqn:E.
  2:{ exfalso. apply bk_allocate_err in E as [Hno _]; [|done].
      destruct (Hno base Hbase) as (x & Hx & Hnx); [by apply (pow_divide j (k + 1)); [lia|]|].
      apply Hnx, Hb1. right. unfold in_range in *. cbn in *. lia. }
  apply bk_allocate_ok in E as (Hrc0 & Hrcm & Hin & Hb2); [|done].
  assert (forall x, in_range x (rc, 2 ^ j) -> in_range x (base, 2 ^ k)) as Hsub.
  { destruct (Hnone rc Hrc0 Hrcm) as (x & Hx & Hnx). pose proof (Hin x Hx) as [?|Hxb]%Hb1; [done|].
    apply (aligned_nested rc j base k x); auto; [lia|]. apply (pow_divide k (k + 1)); [lia|done]. }
  assert (in_range rc (rc, 2 ^ j)) as Hrc by (unfold in_range; cbn; lia).
  destruct (give_upper k b2 base rc Hom ltac:(lia) Hbase Hal (Hsub _ Hrc)) as (b3 & H3 & Hb3).
  { intros [_ Hn]%Hb2. done. }
  exists rc, b2, b3. split; [done|]. split; [done|]. split; [done|]. split; [done|]. split; [done|].
  intros x. rewrite Hb3, Hb2, Hb1, H2. pose proof (Hsub x) as Hs. unfold in_range in *. cbn in *. split.
  - intros [[[?|?] ?]|?]; [by left|right; split; [lia|done]|].
    right. split; [lia|]. intros Hn. specialize (Hs Hn). lia.
  - intros [[? ?]|[? ?]]; [left; split; [by left|done]|].
    destruct (decide (x < base + 2 ^ k)); [left; split; [right; lia|done]|right; lia].
Qed.

(** The invariant after memory has left the region. *)
Lemma rinv_shrink r b' h' :
  rinv r -> HighOrder.list_ok h' -> (forall m, m ∈ h' -> m ∈ high r) ->
  (forall x, HighOrder.free_cover h' x -> ~ bk_avail b' x) ->
  (forall x, rfree (mkRegion b' h' false) x -> rfree r x) -> rinv (mkRegion b' h' false).
Proof.
  intros Hr Hok Hin Hdj Hsub. split; [done| |done|done|].
  - apply Forall_forall. intros m Hm. by apply (proj1 (Forall_forall _ _) (rinv_blocks _ Hr)), Hin.
  - intros x Hx. by apply (rinv_phys _ Hr), Hsub.
Qed.

(** Allocation of at most the largest order from one region. *)
(** A block that the backend has. *)
Lemma region_backend_ok r s a b' :
  rinv r -> order_size s -> bk_allocate s (backend r) = (Ok a, b') ->
  let r' := mkRegion b' (high r) false in
  rinv r' /\ (forall x, rfree r' x -> rfree r x) /\ 0 <= a /\ a mod s = 0 /\
  forall x, in_range x (a, s) -> rfree r x /\ ~ rfree r' x.
Proof using BL.
  intros Hr Hos E r'. apply bk_allocate_ok in E as (Ha & Ham & Hin & Hb'); [|done].
  assert (forall x, rfree r' x -> rfree r x) as Hsub by (intros x [Hx|Hx]; [left; by apply Hb'|by right]).
  split; [apply (rinv_shrink r); [done|apply Hr|done| |done]|].
  - intros x Hx Hav. apply Hb' in Hav as [Hav _]. by apply (rinv_disj _ Hr) in Hx.
  - split; [done|]. split; [done|]. split; [done|]. intros x Hx. split; [left; by apply Hin|].
    intros [Hav|Hc]; cbn in *; [by apply Hb' in Hav as [_ ?]|]. by apply (rinv_disj _ Hr) in Hc; apply Hc, Hin.
Qed.

Lemma region_allocate_ok r n :
  rinv r -> no_block_at_size r -> PAGE_SIZE <= n <= ORDER_MAX_SIZE ->
  exists res r', allocate r n = Done (res, r') /\ rinv r' /\ no_block_at_size r' /\
    (forall x, rfree r' x -> rfree r x) /\
    match res with
    | Ok a => 0 <= a /\ n <= next_power_of_two n /\ a mod next_power_of_two n = 0 /\
        forall x, in_range x (a, next_power_of_two n) -> rfree r x /\ ~ rfree r' x
    | Err _ => forall x, rfree r x -> rfree r' x
    end.
Proof using BL PL.
  intros Hr Hn Hsz. destruct order_max as (k & Hk & Hom). unfold PAGE_SIZE in Hsz.
  pose proof (Z.pow_le_mono_r 2 k 40 ltac:(lia) ltac:(lia)) as Hk40.
  destruct (next_power_of_two_bounds n ltac:(lia)) as (j & Hj & Hnp & Hle & Hmin).
  pose proof (Hmin k ltac:(lia) ltac:(lia)) as Hjk. pose proof (order_size_pow k j Hom ltac:(lia)) as Hos.
  pose proof (Z.pow_le_mono_r 2 j k ltac:(lia) ltac:(lia)) as Hpjk.
  unfold allocate. rewrite (proj2 (Z.eqb_neq n 0)) by lia. rewrite Hnp. unfold use_high.
  rewrite (proj2 (Z.ltb_ge ORDER_MAX_SIZE _)) by lia.
  destruct (bk_allocate (2 ^ j) (backend r)) as [[a|e] b'] eqn:E.
  { destruct (region_backend_ok r _ _ _ Hr Hos E) as (Hr' & Hsub & Ha & Ham & Hin). rewrite (rinv_idle _ Hr).
    eexists (Ok a), _. auto 10. }
  apply bk_allocate_err in E as [Hnone Hb']; [|done]. rewrite (rinv_idle _ Hr).
  set (r0 := mkRegion b' (high r) false).
  assert (forall x, rfree r0 x <-> rfree r x) as Hiff by (intros x; unfold rfree; cbn; by rewrite Hb').
  assert (rinv r0) as Hr0.
  { apply (rinv_shrink r); [done|apply Hr|done| |intros x; apply Hiff].
    intros x Hx Hav. apply Hb' in Hav. by apply (rinv_disj _ Hr) in Hx. }
  destruct (region_extend_ok k r0 Hom Hk Hr0 Hn) as [->|(base & b1 & i & -> & Hb0 & Hbm & Hcov & Hok & Hb1)].
  { cbn [mbind outcome_bind]. exists (Err tt), r0. split; [done|]. split; [done|]. split; [done|]. split; intros x; apply Hiff. }
  cbn [mbind outcome_bind backend high extend_recurse].
  assert (forall x, bk_avail b1 x <-> bk_avail (backend r) x \/ in_range x (base, 2 ^ k)) as Hb1'
    by (intros x; rewrite Hb1; cbn; by rewrite Hb').
  destruct (extended_alloc k j (backend r) b1 base Hom ltac:(lia) Hb0 Hbm Hnone Hb1')
    as (rc & b2 & b3 & -> & -> & Hrc0 & Hrcm & Hsubr & Hb3). cbn.
  eexists (Ok rc), _. split; [done|].
  assert (forall x, rfree (mkRegion b3 (delete i (high r)) false) x -> rfree r x) as Hsub.
  { intros x [Hx|Hx]; [|right; exact (HighOrder.delete_cover _ _ _ Hx)].
    apply Hb3 in Hx as [[Hx _]|[Hx _]]; [by left|right; by apply Hcov]. }
  split; [apply (rinv_shrink r); [done|done|apply HighOrder.delete_elem| |done]|].
  { intros x Hx [[Hav _]|[Hav _]]%Hb3; [|by apply Hcov in Hav as [_ ?]].
    apply HighOrder.delete_cover in Hx. by apply (rinv_disj _ Hr) in Hx. }
  split; [apply Forall_forall; intros m Hm%HighOrder.delete_elem; by apply (proj1 (Forall_forall _ _) Hn)|].
  split; [done|]. split; [done|]. split; [done|]. split; [done|]. intros x Hx.
  assert (in_range x (base, 2 ^ (k + 1))) as Hxb.
  { apply Hsubr in Hx. rewrite Z.pow_add_r by lia. unfold in_range in *. cbn in *. lia. }
  apply Hcov in Hxb as [Hc1 Hc2]. split; [by right|].
  intros [Hav|Hc]; [|done]. by apply Hb3 in Hav as [[_ ?]|[_ ?]].
Qed.

Lemma free_high_ok k r b' c s :
  ORDER_MAX_SIZE = 2 ^ k -> 12 <= k <= 40 -> rinv r -> (2 ^ (k + 1) | c) -> (2 ^ (k + 1) | s) -> 2 ^ (k + 1) <= s ->
  0 <= c -> c + s <= 2 ^ 52 -> (forall x, in_range x (c, s) -> ~ HighOrder.free_cover (high r) x) ->
  (forall x, bk_avail b' x -> 0 <= x < 2 ^ 52) ->
  (forall x, bk_avail b' x -> ~ HighOrder.free_cover (high r) x /\ ~ in_range x (c, s)) ->
  exists r', free_high r b' c s = Done r' /\ rinv r' /\
    forall x, rfree r' x <-> bk_avail b' x \/ HighOrder.free_cover (high r) x \/ in_range x (c, s).
Proof using BL.
  intros Hom Hk Hr Hc Hs Hle Hc0 Hend Hfresh Hphys Hdj. pose proof (high_size k Hom ltac:(lia)) as HOB.
  pose proof (Z.pow_pos_nonneg 2 (k + 1) ltac:(lia) ltac:(lia)) as Hp.
  unfold free_high. rewrite HOB, HighOrder.new_spec, bool_decide_true; [|split; [done|by apply Z.mod_divide; [lia|]]|lia].
  cbn [unwrap mbind outcome_bind].
  assert (HighOrder.mem_ok (HighOrder.mkFree c s)) as Hm by (unfold HighOrder.mem_ok; cbn; lia).
  pose proof (rinv_list _ Hr) as Hl.
  destruct (HighOrder.free_ok (high r) (HighOrder.mkFree c s) Hl Hm) as (l' & Hf & Hok & Hcov).
  { apply HighOrder.apart_of_cover; [apply Hl|done|]. intros x Hx. apply Hfresh. exact Hx. }
  rewrite Hf. cbn [unwrap mbind outcome_bind result_ok]. eexists. split; [done|].
  assert (forall x, rfree (mkRegion b' l' (extend_recurse r)) x <->
    bk_avail b' x \/ HighOrder.free_cover (high r) x \/ in_range x (c, s)) as Hiff
    by (intros x; unfold rfree; cbn; by rewrite Hcov).
  split; [|done]. split; cbn; [done| | |apply Hr|].
  - pose proof (rinv_blocks _ Hr) as Hb. rewrite HOB in *.
    apply (HighOrder.free_blocked (k + 1) (high r) (HighOrder.mkFree c s) l'); [lia|done|by split|done].
  - intros x Hx Hav. apply Hcov in Hx. destruct (Hdj x Hav) as [? Hn]. by destruct Hx.
  - intros x [Hx|[Hx|Hx]]%Hiff; [by apply Hphys|apply (rinv_phys _ Hr); by right|].
    unfold in_range in Hx. cbn in Hx. lia.
Qed.

(** Freeing the second of two buddies of the largest order moves the pair to the high-order list. *)
Lemma overflow_ok k j r base c b' :
  ORDER_MAX_SIZE = 2 ^ k -> 12 <= k <= 40 -> rinv r -> order_size (2 ^ j) -> 0 < 2 ^ j -> 0 <= base ->
  base mod 2 ^ j = 0 -> base + 2 ^ j <= 2 ^ 52 -> (forall x, in_range x (base, 2 ^ j) -> ~ rfree r x) ->
  bk_deallocate (2 ^ j) base (backend r) = (Err c, b') ->
  exists r', free_high r b' c HIGH_ORDER_BLOCK_SIZE = Done r' /\ rinv r' /\
    forall x, rfree r' x <-> rfree r x \/ in_range x (base, 2 ^ j).
Proof using BL.
  intros Hom Hk Hr Hos Hp Hb0 Hbm Hend Hfresh Ed.
  assert (2 ^ (k + 1) = 2 * 2 ^ k) as H2 by (rewrite Z.pow_add_r by lia; lia).
  apply bk_deallocate_err in Ed as (Hc & Hin & Hb'); [|done..]. rewrite Hom, <- H2 in *.
  pose proof (Z.mod_pos_bound base (2 ^ (k + 1)) ltac:(lia)).
  pose proof (Z.mod_le base (2 ^ (k + 1)) ltac:(lia) ltac:(lia)).
  assert (forall x, in_range x (c, 2 ^ (k + 1)) -> 0 <= x < 2 ^ 52 /\ ~ HighOrder.free_cover (high r) x) as Hcx.
  { intros x [Hx|Hx]%Hin.
    - split; [apply (rinv_phys _ Hr); by left|]. intros Hcv. by apply (rinv_disj _ Hr) in Hcv.
    - split; [unfold in_range in Hx; cbn in Hx; lia|]. intros Hcv. apply (Hfresh x Hx). by right. }
  rewrite (high_size k Hom ltac:(lia)).
  destruct (free_high_ok k r b' c (2 ^ (k + 1)) Hom Hk Hr) as (r' & Hf & Hi' & Hrf).
  * rewrite Hc, Z.mod_eq by lia. replace (base - _) with (2 ^ (k + 1) * (base / 2 ^ (k + 1))) by lia. apply Z.divide_factor_l.
  * apply Z.divide_refl.
  * done.
  * lia.
  * destruct (Hcx (c + 2 ^ (k + 1) - 1)) as [? _]; [unfold in_range; cbn; lia|lia].
  * intros x Hx. by apply Hcx.
  * intros x [[Hx|Hx] _]%Hb'; [apply (rinv_phys _ Hr); by left|]. unfold in_range in Hx. cbn in Hx. lia.
  * intros x [[Hx|Hx] Hnc]%Hb'; (split; [|done]); intros Hcv; [by apply (rinv_disj _ Hr) in Hcv|].
    apply (Hfresh x Hx). by right.
  * exists r'. split; [done|]. split; [done|]. intros x. rewrite Hrf, Hb'. unfold rfree. specialize (Hin x).
    assert (in_range x (c, 2 ^ (k + 1)) \/ ~ in_range x (c, 2 ^ (k + 1))) by (unfold in_range; lia). tauto.
Qed.

(** Freeing a block of any size. *)
Lemma region_deallocate_ok r base n :
  rinv r -> PAGE_SIZE <= n <= 2 ^ 51 -> 0 <= base -> base mod next_power_of_two n = 0 ->
  base + next_power_of_two n <= 2 ^ 52 ->
  (forall x, in_range x (base, next_power_of_two n) -> ~ rfree r x) ->
  exists r', deallocate base n r = Done r' /\ rinv r' /\
    forall x, rfree r' x <-> rfree r x \/ in_range x (base, next_power_of_two n).
Proof using BL.
  intros Hr Hn Hb0 Hal Hend Hfresh. destruct order_max as (k & Hk & Hom). unfold PAGE_SIZE in Hn.
  destruct (next_power_of_two_bounds n ltac:(lia)) as (j & Hj & Hnp & Hle & Hmin). rewrite Hnp in *.
  pose proof (Z.pow_pos_nonneg 2 j ltac:(lia) ltac:(lia)) as Hp.
  assert (2 ^ (k + 1) = 2 * 2 ^ k) as H2 by (rewrite Z.pow_add_r by lia; lia).
  unfold deallocate. rewrite (proj2 (Z.eqb_neq n 0)) by lia. rewrite Hnp. unfold use_high. rewrite Hom.
  destruct (2 ^ k <? 2 ^ j) eqn:E; bool_to_prop.
  - apply Z.pow_lt_mono_r_iff in E; [|lia|lia].
    destruct (free_high_ok k r (backend r) base (2 ^ j) Hom Hk Hr) as (r' & Hf & Hi' & Hrf).
    + apply Z.mod_divide; [lia|]. apply (pow_divide (k + 1) j); [lia|done].
    + apply Z.mod_divide; [lia|]. apply (pow_divide (k + 1) j); [lia|]. apply Z_mod_same_full.
    + apply Z.pow_le_mono_r; lia.
    + done.
    + done.
    + intros x Hx Hc. apply (Hfresh x Hx). by right.
    + intros x Hx. apply (rinv_phys _ Hr). by left.
    + intros x Hx. split; [intros Hc; by apply (rinv_disj _ Hr) in Hc|]. intros Hxr. apply (Hfresh x Hxr). by left.
    + exists r'. split; [done|]. split; [done|]. intros x. rewrite Hrf. unfold rfree. tauto.
  - apply Z.pow_le_mono_r_iff in E; [|lia|lia]. pose proof (order_size_pow k j Hom ltac:(lia)) as Hos.
    destruct (bk_deallocate (2 ^ j) base (backend r)) as [[[]|c] b'] eqn:Ed.
    + pose proof (bk_deallocate_ok _ _ _ _ Hos Hb0 Hal Ed) as Hb'. eexists. split; [done|].
      assert (forall x, rfree (mkRegion b' (high r) (extend_recurse r)) x <-> rfree r x \/ in_range x (base, 2 ^ j)) as Hiff
        by (intros x; unfold rfree; cbn; rewrite Hb'; tauto).
      split; [|done]. split; cbn; [apply Hr|apply Hr| |apply Hr|].
      * intros x Hx [Hav|Hav]%Hb'; [by apply (rinv_disj _ Hr) in Hx|]. apply (Hfresh x Hav). by right.
      * intros x [Hx|Hx]%Hiff; [by apply (rinv_phys _ Hr)|]. unfold in_range in Hx. cbn in Hx. lia.
    + by apply (overflow_ok k j r base c b').
Qed.

(** ** The three regions together *)

(** The bytes free in a region belong to its part of the address space. *)
Definition bounded (m : MemRegion) (r : Region B) : Prop :=
  forall x, rfree r x -> lower_limit m <= x <= upper_limit m.

Definition ffree (f : BuddyFrameAlloc) (x : Z) : Prop :=
  rfree (mem_16 f) x \/ rfree (mem_32 f) x \/ rfree (mem_64 f) x.

Record finv (f : BuddyFrameAlloc) : Prop := {
  finv_16 : rinv (mem_16 f) /\ bounded Mem16 (mem_16 f);
  finv_32 : rinv (mem_32 f) /\ bounded Mem32 (mem_32 f);
  finv_64 : rinv (mem_64 f) /\ bounded Mem64 (mem_64 f);
}.

Definition no_size_blocks (f : BuddyFrameAlloc) : Prop :=
  no_block_at_size (mem_16 f) /\ no_block_at_size (mem_32 f) /\ no_block_at_size (mem_64 f).

(** What an allocation for DMA region [m] promises. *)
Definition dma_post (m : MemRegion) (n : Z) (f f' : BuddyFrameAlloc) (res : result Z unit) : Prop :=
  match res with
  | Ok a => a mod next_power_of_two n = 0 /\
      forall x, in_range x (a, next_power_of_two n) -> 0 <= x <= upper_limit m /\ ffree f x /\ ~ ffree f' x
  | Err _ => forall x, ffree f x -> ffree f' x
  end.

Lemma allocate_16_ok f l :
  finv f -> no_size_blocks f -> PAGE_SIZE <= Z.max (l_size l) (l_align l) <= ORDER_MAX_SIZE ->
  exists res f', allocate_16 f l = Done (res, f') /\ finv f' /\ no_size_blocks f' /\
    (forall x, ffree f' x -> ffree f x) /\ dma_post Mem16 (Z.max (l_size l) (l_align l)) f f' res.
Proof using BL PL.
  intros [[H16 B16] [H32 B32] [H64 B64]] (N16 & N32 & N64) Hsz.
  destruct (region_allocate_ok (mem_16 f) _ H16 N16 Hsz) as (res & r' & Heq & Hr' & Hn' & Hsub & Hres).
  unfold allocate_16. rewrite Heq. cbn [mbind outcome_bind fst snd]. eexists res, _. split; [done|].
  assert (bounded Mem16 r') as B16' by (intros x Hx; by apply B16, Hsub).
  split; [split; cbn; auto|]. split; [done|]. split; [intros x [Hx|Hx]; [left; by apply Hsub|by right]|].
  destruct res as [a|]; cbn.
  - destruct Hres as (_ & _ & Hal & Hx). split; [done|]. intros x Hin. destruct (Hx x Hin) as [H1 H2].
    pose proof (B16 x H1) as Hb. cbn in Hb. split; [done|]. split; [by left|].
    intros [?|[H3|H3]]; cbn in *; [done|apply B32 in H3|apply B64 in H3]; cbn in *; lia.
  - intros x [Hx|Hx]; [left; by apply Hres|by right].
Qed.

Lemma allocate_32_ok f l :
  finv f -> no_size_blocks f -> PAGE_SIZE <= Z.max (l_size l) (l_align l) <= ORDER_MAX_SIZE ->
  exists res f', allocate_32 f l = Done (res, f') /\ finv f' /\ no_size_blocks f' /\
    (forall x, ffree f' x -> ffree f x) /\ dma_post Mem32 (Z.max (l_size l) (l_align l)) f f' res.
Proof using BL PL.
  intros [[H16 B16] [H32 B32] [H64 B64]] (N16 & N32 & N64) Hsz.
  destruct (region_allocate_ok (mem_32 f) _ H32 N32 Hsz) as (res & r' & Heq & Hr' & Hn' & Hsub & Hres).
  unfold allocate_32. rewrite Heq. cbn [mbind outcome_bind fst snd]. set (f1 := mkFrameAlloc _ _ _ _).
  assert (bounded Mem32 r') as B32' by (intros x Hx; by apply B32, Hsub).
  assert (finv f1 /\ no_size_blocks f1) as [Hf1 Hnf1] by (split; [split; cbn; auto|done]).
  assert (forall x, ffree f1 x -> ffree f x) as Hsub1 by (intros x [Hx|[Hx|Hx]]; [by left|right; left; by apply Hsub|by right; right]).
  destruct res as [a|].
  - exists (Ok a), f1. split; [done|]. split; [done|]. split; [done|]. split; [done|].
    destruct Hres as (_ & _ & Hal & Hx). split; [done|]. intros x Hin. destruct (Hx x Hin) as [H1 H2].
    pose proof (B32 x H1) as Hb. cbn in Hb. split; [cbn; lia|]. split; [by right; left|].
    intros [H3|[?|H3]]; cbn in *; [apply B16 in H3|done|apply B64 in H3]; cbn in *; lia.
  - destruct (allocate_16_ok f1 l Hf1 Hnf1 Hsz) as (res & f' & -> & Hf' & Hnf' & Hsub' & Hpost).
    exists res, f'. split; [done|]. split; [done|]. split; [done|]. split; [intros x Hx; by apply Hsub1, Hsub'|].
    assert (forall x, ffree f x -> ffree f1 x) as Hsup by (intros x [Hx|[Hx|Hx]]; [by left|right; left; by apply Hres|by right; right]).
    destruct res as [a|]; cbn in *; [|intros x Hx; by apply Hpost, Hsup].
    destruct Hpost as [Hal Hx]. split; [done|]. intros x Hin. destruct (Hx x Hin) as (H1 & H2 & H3).
    split; [lia|]. split; [by apply Hsub1|done].
Qed.

(** DMA allocation: a request of at most the largest buddy order for 16-bit or 32-bit memory
    never panics; when it succeeds, every byte of the block is addressable with that many bits,
    was free and is free no more, and the block is aligned to the size rounded up to a power of
    two; when it fails nothing is lost.  In particular the backend calls that the code unwraps
    cannot fail, because the upper half of a split high-order block is only given back after its
    lower half has been allocated from. *)
Theorem frame_allocate_dma f l m :
  finv f -> no_size_blocks f -> PAGE_SIZE <= Z.max (l_size l) (l_align l) <= ORDER_MAX_SIZE -> m <> Mem64 ->
  exists res f', frame_allocate f l m = Done (res, f') /\ finv f' /\
    (forall x, ffree f' x -> ffree f x) /\ dma_post m (Z.max (l_size l) (l_align l)) f f' res.
Proof using BL PL.
  intros Hf Hn Hsz Hm. destruct m; [|..|done].
  - destruct (allocate_16_ok f l Hf Hn Hsz) as (res & f' & H1 & H2 & _ & H3). by exists res, f'.
  - destruct (allocate_32_ok f l Hf Hn Hsz) as (res & f' & H1 & H2 & _ & H3). by exists res, f'.
Qed.

Lemma region_of_limits a : 0 <= a < 2 ^ 64 -> lower_limit (region_of a) <= a <= upper_limit (region_of a).
Proof.
  intros Ha. unfold region_of. destruct (_ <=? _) eqn:E1; bool_to_prop; [cbn; lia|].
  destruct (_ <=? _) eqn:E2; bool_to_prop; cbn; lia.
Qed.

(** [dealloc] returns memory to the region it belongs to: for a block that is not free and
    does not straddle two DMA regions it succeeds, the free bytes grow by exactly the block, and
    every region still only holds memory of its own part of the address space. *)
Theorem frame_dealloc_returns f addr l :
  let s := next_power_of_two (Z.max (l_size l) (l_align l)) in
  finv f -> PAGE_SIZE <= Z.max (l_size l) (l_align l) <= 2 ^ 51 -> 0 <= addr -> addr mod s = 0 ->
  addr + s <= 2 ^ 52 -> addr + s - 1 <= upper_limit (region_of addr) ->
  (forall x, in_range x (addr, s) -> ~ ffree f x) ->
  exists f', frame_dealloc f addr l = Done f' /\ finv f' /\
    forall x, ffree f' x <-> ffree f x \/ in_range x (addr, s).
Proof using BL.
  intros s [[H16 B16] [H32 B32] [H64 B64]] Hsz Ha Hal Hend Hup Hfresh.
  assert (0 <= s) as Hs0 by apply wrap64_range.
  pose proof (region_of_limits addr ltac:(lia)) as Hlim. unfold frame_dealloc.
  assert (forall m r, rinv r -> bounded m r -> (forall x, rfree r x -> ffree f x) -> region_of addr = m ->
    exists r', deallocate addr (Z.max (l_size l) (l_align l)) r = Done r' /\ rinv r' /\ bounded m r' /\
      forall x, rfree r' x <-> rfree r x \/ in_range x (addr, s)) as Hgen.
  { intros m r Hr Hb Hsub Hm. destruct (region_deallocate_ok r addr _ Hr Hsz Ha Hal Hend) as (r' & H1 & H2 & H3).
    - intros x Hx Hrf. by apply (Hfresh x Hx), Hsub.
    - exists r'. split; [done|]. split; [done|]. split; [|done]. intros x [Hx|Hx]%H3; [by apply Hb|].
      subst m. fold s in Hx. unfold in_range in Hx. cbn [fst snd] in Hx. lia. }
  destruct (region_of addr) eqn:Er.
  - destruct (Hgen Mem16 (mem_16 f)) as (r' & -> & H1 & H2 & H3); [done|done|by left|done|]. cbn [mbind outcome_bind].
    eexists. split; [done|]. split; [split; cbn; auto|]. intros x. unfold ffree. cbn. rewrite H3. tauto.
  - destruct (Hgen Mem32 (mem_32 f)) as (r' & -> & H1 & H2 & H3); [done|done|by right; left|done|]. cbn [mbind outcome_bind].
    eexists. split; [done|]. split; [split; cbn; auto|]. intros x. unfold ffree. cbn. rewrite H3. tauto.
  - destruct (Hgen Mem64 (mem_64 f)) as (r' & -> & H1 & H2 & H3); [done|done|by right; right|done|]. cbn [mbind outcome_bind].
    eexists. split; [done|]. split; [split; cbn; auto|]. intros x. unfold ffree. cbn. rewrite H3. tauto.
Qed.

(** When no region can serve a 64-bit request, the early allocator answers with one page,
    whatever size was asked for. *)
Lemma frame_allocate_fallback f l r64 f32 p a :
  allocate (mem_64 f) (Z.max (l_size l) (l_align l)) = Done (Err tt, r64) ->
  allocate_32 (mkFrameAlloc (mem_16 f) (mem_32 f) r64 (MEM_MAP f)) l = Done (Err tt, f32) ->
  allocate_frame (MEM_MAP f32) = Done (Some a, p) ->
  exists f', frame_allocate f l Mem64 = Done (Ok a, f').
Proof. intros H1 H2 H3. unfold frame_allocate. rewrite H1. cbn. rewrite H2. cbn. rewrite H3. cbn. by eexists. Qed.

End RegionLaws.

End BuddyFrame.

(** ** Instances

    The 52-bit physical address space, and a backend that keeps the set of its free pages. *)
Module FrameWitness.
Import PreInit BuddyFrame.

#[export] Instance phys_ops : PhysAddrOps := {
  phys_new a := if (0 <=? a) && (a <? 2 ^ 52) then Done a else Panic;
  phys_add a n := if (0 <=? a + n) && (a + n <? 2 ^ 52) then Done (a + n) else Panic;
  from_start_address a := if a mod PAGE_SIZE =? 0 then Some a else None;
}.

#[export] Instance phys_laws : PhysAddrLaws.
Proof.
  split; cbn.
  - intros a Ha. by rewrite (proj2 (Z.leb_le 0 a)), (proj2 (Z.ltb_lt a _)) by lia.
  - intros a b. destruct (_ && _); congruence.
  - intros a n Ha Hn Hlt. by rewrite (proj2 (Z.leb_le 0 (a + n))), (proj2 (Z.ltb_lt (a + n) _)) by lia.
  - intros a ->. done.
Qed.

Definition pages (a s : Z) : list Z := (fun i => a / 4096 + Z.of_nat i) <$> seq 0 (Z.to_nat (s / 4096)).

Definition fits (s : Z) (b : gset Z) (p : Z) : bool :=
  (0 <=? p) && ((p * 4096) mod s =? 0) && bool_decide (Forall (.∈ b) (pages (p * 4096) s)).

#[export] Instance page_set : Backend (gset Z) := {
  ORDER_MAX_SIZE := 2 ^ 20;
  bk_allocate s b :=
    match List.find (fits s b) (elements b) with
    | Some p => (Ok (p * 4096), b ∖ list_to_set (pages (p * 4096) s))
    | None => (Err tt, b)
    end;
  bk_deallocate s a b := (Ok tt, b ∪ list_to_set (pages a s));
  bk_avail b x := 0 <= x /\ x / 4096 ∈ b;
}.

Lemma pages_spec a s p : 0 <= s -> p ∈ pages a s <-> a / 4096 <= p < a / 4096 + s / 4096.
Proof.
  intros Hs. pose proof (Z.div_pos s 4096 ltac:(lia) ltac:(lia)). unfold pages. rewrite list_elem_of_fmap. split.
  - intros (i & -> & Hi%elem_of_seq). lia.
  - intros Hp. exists (Z.to_nat (p - a / 4096)). rewrite elem_of_seq. lia.
Qed.

Lemma page_range a s x :
  0 <= a -> a mod 4096 = 0 -> s mod 4096 = 0 -> 0 <= s -> in_range x (a, s) <-> 0 <= x /\ x / 4096 ∈ pages a s.
Proof.
  intros Ha Ham Hsm Hs. rewrite pages_spec by done. unfold in_range. cbn.
  pose proof (Z.div_mod a 4096 ltac:(lia)). pose proof (Z.div_mod s 4096 ltac:(lia)).
  pose proof (Z.div_mod x 4096 ltac:(lia)). pose proof (Z.mod_pos_bound x 4096 ltac:(lia)). lia.
Qed.

Lemma order_page s : order_size s -> s mod 4096 = 0 /\ 4096 <= s.
Proof.
  intros (j & Hj & -> & _). split; [|change 4096 with (2 ^ 12); apply Z.pow_le_mono_r; lia].
  apply (pow_divide 12 j); [lia|]. apply Z_mod_same_full.
Qed.

Lemma order_page_addr s a : order_size s -> a mod s = 0 -> a mod 4096 = 0.
Proof. intros (j & Hj & -> & _). by apply (pow_divide 12 j); lia. Qed.

#[export] Instance page_set_laws : BackendLaws (gset Z).
Proof.
  split.
  - by exists 20.
  - intros s b a b' Hs. pose proof (order_page s Hs) as [Hm Hle]. cbn.
    destruct (List.find _ _) as [p|] eqn:E; [|done]. intros [= <- <-].
    apply find_some in E as [_ Hfit]. unfold fits in Hfit. bool_to_prop.
    rewrite Forall_forall in H0. split; [lia|]. split; [done|].
    pose proof (fun x => page_range (p * 4096) s x ltac:(lia) (order_page_addr s _ Hs ltac:(done)) Hm ltac:(lia)) as Hr.
    split; intros x.
    + intros [Hx Hin]%Hr. split; [done|]. by apply H0.
    + rewrite Hr, elem_of_difference, elem_of_list_to_set. tauto.
  - intros s b [] b' Hs. pose proof (order_page s Hs) as [Hm Hle]. cbn.
    destruct (List.find _ _) as [p|] eqn:E; [done|]. intros [= <-]. split; [|done]. intros a Ha Ham.
    pose proof (fun x => page_range a s x Ha (order_page_addr s _ Hs Ham) Hm ltac:(lia)) as Hr.
    destruct (decide (Forall (.∈ b) (pages a s))) as [Hall|Hnot].
    + exfalso. pose proof (Z.div_mod a 4096 ltac:(lia)) as Hd. rewrite (order_page_addr s _ Hs Ham) in Hd.
      assert (a / 4096 ∈ b) as Hin.
      { rewrite Forall_forall in Hall. apply Hall, pages_spec; [lia|].
        pose proof (Z.div_le_lower_bound s 4096 1 ltac:(lia) ltac:(lia)). lia. }
      apply find_none with (x := a / 4096) in E; [|by apply list_elem_of_In, elem_of_elements].
      unfold fits in E. replace (a / 4096 * 4096) with a in E by lia.
      rewrite (proj2 (Z.leb_le 0 _)), Ham, bool_decide_true in E; [done|done|by apply Z.div_pos].
    + apply not_Forall_Exists in Hnot; [|apply _]. apply Exists_exists in Hnot as (q & Hq & Hnq).
      exists (q * 4096). assert (q * 4096 / 4096 = q) as Hdq by by apply Z.div_mul.
      rewrite Hr. cbn. rewrite Hdq. split; [|intros [_ Hin]; by apply Hnq]. split; [|done]. apply pages_spec in Hq; [|lia].
      pose proof (Z.div_pos a 4096 ltac:(lia) ltac:(lia)). lia.
  - intros s a b b' Hs Ha Ham. pose proof (order_page s Hs) as [Hm Hle]. cbn. intros [= <-] x.
    rewrite (page_range a s x Ha (order_page_addr s _ Hs Ham) Hm ltac:(lia)), elem_of_union, elem_of_list_to_set. tauto.
  - intros s a b c b' _ _ _. cbn. done.
Qed.

Definition one_page (p : Z) : Region (gset Z) := mkRegion {[p]} [] false.

Lemma one_page_free p x : rfree (one_page p) x <-> 0 <= x /\ x / 4096 = p.
Proof.
  unfold rfree. cbn. rewrite elem_of_singleton. split; [intros [?|[]%covers_nil]; done|tauto].
Qed.

Lemma one_page_range p x : x / 4096 = p -> p * 4096 <= x < (p + 1) * 4096.
Proof. intros <-. pose proof (Z.div_mod x 4096 ltac:(lia)). pose proof (Z.mod_pos_bound x 4096 ltac:(lia)). lia. Qed.

Lemma one_page_inv p : 0 <= p < 2 ^ 40 -> rinv (one_page p).
Proof.
  intros Hp. split; cbn; [by split; constructor|by constructor|by intros x ?%covers_nil|done|].
  intros x [Hx Hd%one_page_range]%one_page_free. lia.
Qed.

Lemma one_page_bounded m p :
  lower_limit m <= p * 4096 -> (p + 1) * 4096 <= upper_limit m + 1 -> bounded m (one_page p).
Proof. intros H1 H2 x [Hx Hd%one_page_range]%one_page_free. lia. Qed.

(** Pages 4, 32 and [2^20] are free. *)
Definition sample_frames : BuddyFrameAlloc :=
  mkFrameAlloc (one_page 4) (one_page 32) (one_page (2 ^ 20)) (pre_new []).

Lemma sample_frames_inv : finv sample_frames.
Proof.
  split; (split; [apply one_page_inv|apply one_page_bounded]); cbn; lia.
Qed.

Lemma frame_allocate_dma_witness :
  exists res f', frame_allocate sample_frames (mkLayout 4096 4096) Mem32 = Done (res, f') /\ finv f' /\
    (forall x, ffree f' x -> ffree sample_frames x) /\ dma_post Mem32 4096 sample_frames f' res.
Proof.
  apply (frame_allocate_dma sample_frames (mkLayout 4096 4096) Mem32).
  - exact sample_frames_inv.
  - by repeat split; constructor.
  - cbn. unfold PAGE_SIZE. lia.
  - done.
Defined.

Lemma frame_dealloc_returns_witness :
  exists f', frame_dealloc sample_frames (40 * 4096) (mkLayout 4096 4096) = Done f' /\ finv f' /\
    forall x, ffree f' x <-> ffree sample_frames x \/ in_range x (40 * 4096, next_power_of_two 4096).
Proof.
  apply (frame_dealloc_returns sample_frames (40 * 4096) (mkLayout 4096 4096)).
  - exact sample_frames_inv.
  - cbn. unfold PAGE_SIZE. lia.
  - lia.
  - reflexivity.
  - vm_compute. discriminate.
  - vm_compute. discriminate.
  - intros x Hx. change (next_power_of_two _) with 4096 in Hx. unfold in_range in Hx. cbn [fst snd] in Hx.
    intros [[_ H%one_page_range]%one_page_free|[[_ H%one_page_range]%one_page_free|[_ H%one_page_range]%one_page_free]]; lia.
Defined.

Lemma drain_tiles_witness :
  exists bs, tile_from (3 * 4096) bs (3 * 4096 + 5 * 4096) /\ Forall natural bs /\
    forall R (free : Z -> Z -> R -> outcome R) r, drain_blocks free 129 (3 * 4096) (5 * 4096) r = free_all free bs r.
Proof. apply (drain_tiles (3 * 4096) (5 * 4096)); lia. Defined.

(** The map of a machine with one reserved and one usable entry. *)
Definition sample_map : list MemoryRegion :=
  [mkMemoryRegion 0 4096 Bootloader; mkMemoryRegion (2 ^ 32) (3 * 4096) Usable].

Lemma iter_segment_alloc_refines_witness :
  exists s', alloc (seg_new Mem64) sample_map = Done (head (remaining (seg_new Mem64) sample_map), s') /\ seg_ok s' /\
    mem_region s' = Mem64 /\ remaining s' sample_map = tail (remaining (seg_new Mem64) sample_map).
Proof.
  apply (iter_segment_alloc_refines (seg_new Mem64) sample_map).
  - exact I.
  - repeat constructor; cbn; done.
Defined.

Lemma iter_segment_overruns_witness :
  exists s1 s2, alloc (mkSeg Mem32 (Some 0xfffff000) 1 0xfff) sample_map = Done (Some 0xfffff000, s1) /\
    alloc s1 sample_map = Done (Some (0xfffff000 + PAGE_SIZE), s2) /\ 0xfffff000 + 0xfff <= 0xfffff000 + PAGE_SIZE.
Proof.
  apply (iter_segment_overruns (mkSeg Mem32 (Some 0xfffff000) 1 0xfff) sample_map 0xfffff000);
    first [reflexivity | unfold PAGE_SIZE; cbn; lia].
Defined.

End FrameWitness.
