(* ===== verification/PageTable.v ===== *)
(** * Page tables

    [kernel/src/mem/offset_page_table.rs] with [PageTableLevel] of [kernel/src/mem.rs]: the four
    levels of translation tables, reached through a window that maps all of physical memory at
    [offset_base].  Physical memory is a finite map from (table pointer, index) to entries; a word
    that was never written reads as the empty entry.

    Entries and address arithmetic of the [x86_64] crate are the classes [PteOps] and
    [VirtAddrOps], with their documented behaviour as laws.  The frame allocator that provides new
    tables is the class [FrameSource].

    The abstraction of a tree of tables is [page_view], a function from the four table indices of a
    page to its entry; [map_to], [unmap], [update_flags] and [translate_page] act on it as on a
    function. *)
From stdpp Require Import prelude gmap.
From S2P Require Import Prelude Ranges HighOrder FrameAlloc.
Open Scope Z_scope.

(** ** Entries and addresses of the [x86_64] crate *)

(** Bits of [PageTableFlags] the kernel uses. *)
Definition PRESENT : Z := 1.
Definition WRITABLE : Z := 2.
Definition NO_CACHE : Z := 16.
Definition HUGE_PAGE : Z := 128.
Definition BIT_9 : Z := 512.
Definition NO_EXECUTE : Z := 2 ^ 63.

(** [flags.contains(x)] *)
Definition contains (f x : Z) : bool := Z.land f x =? x.

Inductive FrameError := FrameNotPresent | HugeFrame.

Class PteOps := {
  pte : Type;
  pte_new : pte;
  is_unused : pte -> bool;
  pte_flags : pte -> Z;
  pte_addr : pte -> Z;
  pte_frame : pte -> result Z FrameError;
  set_addr : pte -> Z -> Z -> outcome pte;
  set_flags : pte -> Z -> pte;
  valid_flags : Z -> Prop;
}.

Class PteLaws `{PteOps} := {
  unused_new : forall e, is_unused e = true <-> e = pte_new;
  new_flags : pte_flags pte_new = 0;
  addr_range : forall e, 0 <= pte_addr e < 2 ^ 52 /\ pte_addr e mod PAGE_SIZE = 0;
  set_addr_aligned : forall e a f, 0 <= a < 2 ^ 52 -> a mod PAGE_SIZE = 0 -> valid_flags f ->
    exists e', set_addr e a f = Done e' /\ pte_addr e' = a /\ pte_flags e' = f /\
      (contains f PRESENT = true -> is_unused e' = false);
  set_flags_spec : forall e f, valid_flags f ->
    pte_addr (set_flags e f) = pte_addr e /\ pte_flags (set_flags e f) = f;
  frame_present : forall e, contains (pte_flags e) PRESENT = true -> contains (pte_flags e) HUGE_PAGE = false ->
    pte_frame e = Ok (pte_addr e);
  frame_absent : forall e, contains (pte_flags e) PRESENT = false -> pte_frame e = Err FrameNotPresent;
  valid_flags_lor : forall f g, valid_flags f -> valid_flags g -> valid_flags (Z.lor f g);
  valid_flags_empty : valid_flags 0;
  valid_flags_known : valid_flags PRESENT /\ valid_flags WRITABLE /\ valid_flags HUGE_PAGE /\
    valid_flags NO_CACHE /\ valid_flags BIT_9 /\ valid_flags NO_EXECUTE;
  valid_flags_sub : forall f g, valid_flags f -> valid_flags (Z.ldiff f g);
}.

(** [VirtAddr::new] and [VirtAddr + u64] panic when the result is not canonical. *)
Class VirtAddrOps := {
  virt_new : Z -> outcome Z;
  virt_add : Z -> Z -> outcome Z;
}.

Definition canonical (a : Z) : Prop := 0 <= a < 2 ^ 47 \/ 2 ^ 64 - 2 ^ 47 <= a < 2 ^ 64.

Class VirtAddrLaws `{VirtAddrOps} := {
  virt_new_valid : forall a, canonical a -> virt_new a = Done a;
  virt_add_valid : forall a n, canonical a -> 0 <= n -> canonical (a + n) -> virt_add a n = Done (a + n);
}.

(** The page sizes, as types of the [x86_64] crate. *)
Inductive PageSize := Size4KiB | Size2MiB | Size1GiB.

#[global] Instance PageSize_eq_dec : EqDecision PageSize.
Proof. solve_decision. Defined.

Definition SIZE (s : PageSize) : Z :=
  match s with Size4KiB => 0x1000 | Size2MiB => 0x200000 | Size1GiB => 0x40000000 end.

(** [PhysFrame::<S>::from_start_address] needs an address that is aligned to the size. *)
Class PhysFrameOps := { frame_from_start : PageSize -> Z -> option Z }.

Class PhysFrameLaws `{PhysFrameOps} := {
  frame_from_start_aligned : forall s a, a mod SIZE s = 0 -> frame_from_start s a = Some a;
}.

(** ** The source of frames for new tables

    [allocate] of the physical allocator for a block of a page size in a DMA region, and [dealloc] of
    such a block: a 4 KiB frame it returns is aligned, was free and is free no more. *)
Class FrameSource (F : Type) := {
  fs_allocate_in : MemRegion -> PageSize -> F -> outcome (option Z * F);
  fs_dealloc : PageSize -> Z -> F -> outcome F;
  fs_inv : F -> Prop;
  fs_free : F -> Z -> Prop;
}.

Class FrameSourceLaws (F : Type) `{FrameSource F} := {
  fs_allocate_in_ok : forall m f a f', fs_inv f -> fs_allocate_in m Size4KiB f = Done (Some a, f') ->
    fs_inv f' /\ 0 <= a < 2 ^ 52 /\ a mod PAGE_SIZE = 0 /\ fs_free f a /\ ~ fs_free f' a /\
    (forall x, fs_free f' x -> fs_free f x);
}.

(** A frame that is given back becomes free, and nothing else changes. *)
Class FrameReturnLaws (F : Type) `{FrameSource F} := {
  fs_dealloc_ok : forall f a, fs_inv f -> 0 <= a < 2 ^ 52 -> a mod PAGE_SIZE = 0 -> ~ fs_free f a ->
    exists f', fs_dealloc Size4KiB a f = Done f' /\ fs_inv f' /\ forall x, fs_free f' x <-> fs_free f x \/ x = a;
}.

(** [FrameAllocator::allocate_frame]. *)
Definition fs_allocate {F} `{FrameSource F} `{PhysFrameOps} (s : PageSize) (f : F) : outcome (option Z * F) :=
  r ← fs_allocate_in Mem64 s f;
  match r.1 with
  | Some addr => frame ← unwrap (frame_from_start s addr); Done (Some frame, r.2)
  | None => Done (None, r.2)
  end.

Lemma fs_allocate_ok {F} `{FrameSource F} `{PhysFrameOps} `{!FrameSourceLaws F} `{!PhysFrameLaws} (f : F) a f' :
  fs_inv f -> fs_allocate Size4KiB f = Done (Some a, f') ->
  fs_inv f' /\ 0 <= a < 2 ^ 52 /\ a mod PAGE_SIZE = 0 /\ fs_free f a /\ ~ fs_free f' a /\
  (forall x, fs_free f' x -> fs_free f x).
Proof.
  intros Hf Heq. unfold fs_allocate in Heq. apply outcome_bind_Done in Heq as ([[b|] f''] & Heq & Hret); cbn [fst snd] in Hret; [|done].
  pose proof (fs_allocate_in_ok _ _ _ _ Hf Heq) as Hok. rewrite frame_from_start_aligned in Hret by apply Hok.
  cbn [mbind outcome_bind unwrap] in Hret. injection Hret as <- <-. exact Hok.
Qed.

(** The source can serve [n] requests. *)
Fixpoint fs_room {F} `{FrameSource F} `{PhysFrameOps} (f : F) (n : nat) : Prop :=
  match n with
  | O => True
  | S n => match fs_allocate Size4KiB f with Done (Some _, f') => fs_room f' n | _ => False end
  end.

Lemma fs_room_le {F} `{FrameSource F} `{PhysFrameOps} n : forall (f : F) m, fs_room f n -> (m <= n)%nat -> fs_room f m.
Proof.
  induction n as [|n IH]; intros f [|m] Hr Hm; [done|lia|done|]. cbn in *.
  destruct (fs_allocate Size4KiB f) as [[[a|] f']|]; [|done..]. apply (IH f' m); [done|lia].
Qed.

(** ** Levels *)
Inductive PageTableLevel := L1 | L2 | L3 | L4.

#[global] Instance PageTableLevel_eq_dec : EqDecision PageTableLevel.
Proof. solve_decision. Defined.

Definition dec (l : PageTableLevel) : outcome PageTableLevel :=
  match l with L1 => Panic | L2 => Done L1 | L3 => Done L2 | L4 => Done L3 end.

Definition inc (l : PageTableLevel) : outcome PageTableLevel :=
  match l with L1 => Done L2 | L2 => Done L3 | L3 => Done L4 | L4 => Panic end.

(** The index of a page in the table of a level: nine bits each, from bit 12 upwards. *)
Definition get_index (l : PageTableLevel) (page : Z) : Z :=
  match l with
  | L1 => Z.land (Z.shiftr page 12) 511
  | L2 => Z.land (Z.shiftr page 21) 511
  | L3 => Z.land (Z.shiftr page 30) 511
  | L4 => Z.land (Z.shiftr page 39) 511
  end.

Definition from_page_size (s : PageSize) : PageTableLevel :=
  match s with Size4KiB => L1 | Size2MiB => L2 | Size1GiB => L3 end.

(** [Page::containing_address]. *)
Definition containing_address (s : PageSize) (a : Z) : Z := a - a mod SIZE s.

(** ** Errors *)
Inductive InternalError :=
| ParentEntryHugePage_ (l : PageTableLevel)
| PageNotMapped_ (l : PageTableLevel)
| PageAlreadyMapped_ (a : Z).

Inductive GetEntryErr := ParentHugePage | NotMapped.

Inductive MapToError := FrameAllocationFailed | MapParentEntryHugePage | PageAlreadyMapped (frame : Z).
Inductive UnmapError := UnmapParentEntryHugePage | UnmapPageNotMapped | InvalidFrameAddress (a : Z).
Inductive FlagUpdateError := FlagPageNotMapped | FlagParentEntryHugePage.
Inductive TranslateError := TrPageNotMapped | TrParentEntryHugePage | TrInvalidFrameAddress (a : Z).

Section Tables.
Context {F : Type} `{FS : FrameSource F} `{PF : PhysFrameOps} `{PO : PteOps} `{PA : PhysAddrOps} `{VA : VirtAddrOps}.

(** Physical memory as the tables see it: the entry at an index of the table a pointer names. *)
Record OffsetPageTable := mkPt {
  offset_base : Z; l4_table : Z; mem : gmap (Z * Z) pte; PHYS_ALLOCATOR : F }.

Definition rd (st : OffsetPageTable) (t i : Z) : pte := default pte_new (mem st !! (t, i)).

Definition set_mem (m : gmap (Z * Z) pte) (st : OffsetPageTable) : OffsetPageTable :=
  mkPt (offset_base st) (l4_table st) m (PHYS_ALLOCATOR st).

Definition wr (st : OffsetPageTable) (t i : Z) (e : pte) : OffsetPageTable := set_mem (<[(t, i) := e]> (mem st)) st.

(** ** Walking the tree

    The recursion goes from the fourth level down, and [dec] panics at the first, so four turns
    are all there can be. *)
Fixpoint traverse_inner_mut (fuel : nat) (st : OffsetPageTable) (curr_level target_level : PageTableLevel)
    (page table : Z) : outcome (result Z InternalError) :=
  match fuel with
  | O => Panic
  | S fuel =>
      let entry := rd st table (get_index curr_level page) in
      if is_unused entry then l ← dec curr_level; Done (Err (PageNotMapped_ l))
      else if contains (pte_flags entry) HUGE_PAGE then l ← dec curr_level; Done (Err (ParentEntryHugePage_ l))
      else
        table_addr ← virt_add (offset_base st) (pte_addr entry);
        l ← dec curr_level;
        if decide (l = target_level) then Done (Ok table_addr)
        else traverse_inner_mut fuel st l target_level page table_addr
  end.

Definition traverse_mut (st : OffsetPageTable) (level : PageTableLevel) (page : Z) : outcome (result Z InternalError) :=
  if decide (level = L4) then Done (Ok (l4_table st))
  else traverse_inner_mut 4 st L4 level (containing_address Size4KiB page) (l4_table st).

(** The shared versions have the text of the mutable ones. *)
Definition traverse_inner := traverse_inner_mut.

Definition traverse (st : OffsetPageTable) (level : PageTableLevel) (page : Z) : outcome (result Z InternalError) :=
  if decide (level = L4) then Done (Ok (l4_table st))
  else traverse_inner 4 st L4 level (containing_address Size4KiB page) (l4_table st).

(** [new_table]: a frame, cleared through the window. *)
Definition PageTable_new (m : gmap (Z * Z) pte) (t : Z) : gmap (Z * Z) pte :=
  foldr (fun i m => <[(t, Z.of_nat i) := pte_new]> m) m (seq 0 512).

Definition new_table (st : OffsetPageTable) : outcome (Z * OffsetPageTable) :=
  r ← fs_allocate Size4KiB (PHYS_ALLOCATOR st);
  frame ← unwrap r.1;
  let t := (offset_base st ⊕ frame)%u64 in
  Done (t, mkPt (offset_base st) (l4_table st) (PageTable_new (mem st) t) r.2).

(** [attach]: the recursion goes up to the fourth level, where [inc] panics. *)
Fixpoint attach (fuel : nat) (st : OffsetPageTable) (nt : Z) (level : PageTableLevel) (page flags : Z) :
    outcome (result unit InternalError * OffsetPageTable) :=
  match fuel with
  | O => Panic
  | S fuel =>
      phys_addr ← phys_new (nt ⊖ offset_base st)%u64;
      up ← inc level;
      let index := get_index up page in
      t ← traverse_mut st up page;
      r ← match t with
          | Ok table => Done (Ok table, st)
          | Err (PageNotMapped_ _) =>
              n ← new_table st;
              a ← attach fuel n.2 n.1 up page flags;
              _ ← unwrap (result_ok a.1);
              t ← traverse_mut a.2 up page;
              table ← unwrap (result_ok t);
              Done (Ok table, a.2)
          | Err (ParentEntryHugePage_ l) => Done (Err (ParentEntryHugePage_ l), st)
          | Err (PageAlreadyMapped_ _) => Panic
          end;
      match r with
      | (Err e, st) => Done (Err e, st)
      | (Ok table, st) =>
          let entry := rd st table index in
          if is_unused entry then
            entry ← set_addr entry phys_addr (Z.lor flags PRESENT);
            Done (Ok tt, wr st table index entry)
          else Done (Err (PageAlreadyMapped_ (pte_addr entry)), st)
      end
  end.

(** ** Single entries *)
Definition get_entry (st : OffsetPageTable) (level : PageTableLevel) (page : Z) : outcome (result pte GetEntryErr) :=
  let page := containing_address Size4KiB page in
  t ← traverse st level page;
  match t with
  | Err (ParentEntryHugePage_ _) => Done (Err ParentHugePage)
  | Err (PageNotMapped_ _) => Done (Err NotMapped)
  | Err (PageAlreadyMapped_ _) => Panic
  | Ok t => Done (Ok (rd st t (get_index level page)))
  end.

(** [get_entry_ref]: the place of the entry, its table and index. *)
Definition get_entry_ref (st : OffsetPageTable) (s : PageSize) (page : Z) :
    outcome (result (Z * Z) TranslateError) :=
  let tgt_level := from_page_size s in
  t ← traverse_mut st tgt_level page;
  match t with
  | Err (ParentEntryHugePage_ _) => Done (Err TrParentEntryHugePage)
  | Err (PageNotMapped_ _) => Done (Err TrPageNotMapped)
  | Err (PageAlreadyMapped_ _) => Panic
  | Ok table => Done (Ok (table, get_index tgt_level page))
  end.

Definition get_l3_for_addr (st : OffsetPageTable) (addr : Z) : outcome (result Z (FrameError * PageTableLevel)) :=
  match pte_frame (rd st (l4_table st) (get_index L4 addr)) with
  | Ok frame => t ← virt_add (offset_base st) frame; Done (Ok t)
  | Err err => Done (Err (err, L3))
  end.

Definition get_l2_for_addr (st : OffsetPageTable) (addr : Z) : outcome (result Z (FrameError * PageTableLevel)) :=
  r ← get_l3_for_addr st addr;
  match r with
  | Err err => Done (Err err)
  | Ok l3_table =>
      match pte_frame (rd st l3_table (get_index L3 addr)) with
      | Ok frame => t ← virt_add (offset_base st) frame; Done (Ok t)
      | Err err => Done (Err (err, L2))
      end
  end.

Definition get_l1_for_addr (st : OffsetPageTable) (addr : Z) : outcome (result Z (FrameError * PageTableLevel)) :=
  r ← get_l2_for_addr st addr;
  match r with
  | Err err => Done (Err err)
  | Ok l2_table =>
      match pte_frame (rd st l2_table (get_index L2 addr)) with
      | Ok frame => t ← virt_add (offset_base st) frame; Done (Ok t)
      | Err err => Done (Err (err, L1))
      end
  end.

(** [count_tables_inner]: [level] is structural, one number per level below the fourth. *)
Definition level_num (l : PageTableLevel) : nat := match l with L1 => 1 | L2 => 2 | L3 => 3 | L4 => 4 end.

Fixpoint count_tables_inner (fuel : nat) (st : OffsetPageTable) (table : Z) (level : PageTableLevel) : outcome Z :=
  match fuel with
  | O => Panic
  | S fuel =>
      foldl (fun acc i =>
        count ← acc;
        let e := rd st table (Z.of_nat i) in
        if contains (pte_flags e) PRESENT then
          if contains (pte_flags e) HUGE_PAGE then Done count
          else
            addr ← virt_add (offset_base st) (pte_addr e);
            count ← (if decide (level <> L2) then
                       l ← dec level; n ← count_tables_inner fuel st addr l; Done (count ⊕ n)%u64
                     else Done count);
            Done (count ⊕ 1)%u64
        else Done count) (Done 0) (seq 0 512)
  end.

Definition count_tables (st : OffsetPageTable) : outcome Z := count_tables_inner 4 st (l4_table st) L4.

(** ** [Mapper<Size4KiB>] *)

(** The table that holds the entry of a page, made if it is missing.  The error is that of a huge
    page in the way. *)
Definition map_to_4k (st : OffsetPageTable) (page frame flags parent_table_flags : Z) :
    outcome (result unit MapToError * OffsetPageTable) :=
  t ← traverse_mut st L1 page;
  r ← match t with
      | Ok table => Done (Ok table, st)
      | Err (PageNotMapped_ _) =>
          n ← new_table st;
          a ← attach 4 n.2 n.1 L1 page (Z.lor parent_table_flags WRITABLE);
          _ ← unwrap (result_ok a.1);
          t ← traverse_mut a.2 L1 page;
          table ← unwrap (result_ok t);
          Done (Ok table, a.2)
      | Err (ParentEntryHugePage_ _) => Done (Err MapParentEntryHugePage, st)
      | Err (PageAlreadyMapped_ _) => Panic
      end;
  match r with
  | (Err e, st) => Done (Err e, st)
  | (Ok table, st) =>
      let entry := rd st table (get_index L1 page) in
      if is_unused entry then
        entry ← set_addr entry frame flags;
        Done (Ok tt, wr st table (get_index L1 page) entry)
      else
        f ← unwrap (result_ok (pte_frame entry));
        Done (Err (PageAlreadyMapped f), st)
  end.

Definition unmap_4k (st : OffsetPageTable) (page : Z) : outcome (result Z UnmapError * OffsetPageTable) :=
  t ← traverse_mut st L1 page;
  match t with
  | Ok table =>
      let entry := rd st table (get_index L1 page) in
      if is_unused entry then Done (Err UnmapPageNotMapped, st)
      else Done (Ok (pte_addr entry), wr st table (get_index L1 page) pte_new)
  | Err (PageNotMapped_ _) => Done (Err UnmapPageNotMapped, st)
  | Err (ParentEntryHugePage_ _) => Done (Err UnmapParentEntryHugePage, st)
  | Err (PageAlreadyMapped_ _) => Panic
  end.

Definition update_flags_4k (st : OffsetPageTable) (page flags : Z) :
    outcome (result unit FlagUpdateError * OffsetPageTable) :=
  t ← traverse_mut st L1 page;
  match t with
  | Ok table =>
      let entry := rd st table (get_index L1 page) in
      Done (Ok tt, wr st table (get_index L1 page) (set_flags entry flags))
  | Err (PageNotMapped_ _) => Done (Err FlagPageNotMapped, st)
  | Err (ParentEntryHugePage_ _) => Done (Err FlagParentEntryHugePage, st)
  | Err (PageAlreadyMapped_ _) => Panic
  end.

Definition set_flags_p4_entry_4k (st : OffsetPageTable) (page flags : Z) :
    outcome (result unit FlagUpdateError * OffsetPageTable) :=
  let i := get_index L4 page in
  Done (Ok tt, wr st (l4_table st) i (set_flags (rd st (l4_table st) i) flags)).

Definition set_flags_p3_entry_4k (st : OffsetPageTable) (page flags : Z) :
    outcome (result unit FlagUpdateError * OffsetPageTable) :=
  t ← traverse_mut st L3 page;
  match t with
  | Ok table =>
      let i := get_index L3 page in
      Done (Ok tt, wr st table i (set_flags (rd st table i) flags))
  | Err (PageNotMapped_ _) => Done (Err FlagPageNotMapped, st)
  | Err _ => Panic
  end.

Definition set_flags_p2_entry_4k (st : OffsetPageTable) (page flags : Z) :
    outcome (result unit FlagUpdateError * OffsetPageTable) :=
  t ← traverse_mut st L2 page;
  match t with
  | Ok table =>
      let i := get_index L2 page in
      Done (Ok tt, wr st table i (set_flags (rd st table i) flags))
  | Err (PageNotMapped_ _) => Done (Err FlagPageNotMapped, st)
  | Err (ParentEntryHugePage_ _) => Done (Err FlagParentEntryHugePage, st)
  | Err (PageAlreadyMapped_ _) => Panic
  end.

Definition translate_page_4k (st : OffsetPageTable) (page : Z) : outcome (result Z TranslateError) :=
  t ← traverse st L1 page;
  match t with
  | Ok table =>
      let entry := rd st table (get_index L1 page) in
      if is_unused entry then Done (Err TrPageNotMapped)
      else f ← unwrap (result_ok (pte_frame entry)); Done (Ok f)
  | Err (PageNotMapped_ _) => Done (Err TrPageNotMapped)
  | Err (ParentEntryHugePage_ _) => Done (Err TrParentEntryHugePage)
  | Err (PageAlreadyMapped_ _) => Panic
  end.

(** ** [Mapper<Size2MiB>]

    The entry of the page is taken at the first-level index, as in the source. *)
Definition map_to_2m (st : OffsetPageTable) (page frame flags parent_table_flags : Z) :
    outcome (result unit MapToError * OffsetPageTable) :=
  t ← traverse_mut st L2 page;
  r ← match t with
      | Ok table => Done (Ok table, st)
      | Err (PageNotMapped_ _) =>
          n ← new_table st;
          a ← attach 4 n.2 n.1 L2 page parent_table_flags;
          _ ← unwrap (result_ok a.1);
          t ← traverse_mut a.2 L2 page;
          table ← unwrap (result_ok t);
          Done (Ok table, a.2)
      | Err (ParentEntryHugePage_ _) => Done (Err MapParentEntryHugePage, st)
      | Err (PageAlreadyMapped_ _) => Panic
      end;
  match r with
  | (Err e, st) => Done (Err e, st)
  | (Ok table, st) =>
      let entry := rd st table (get_index L1 page) in
      if is_unused entry then
        entry ← set_addr entry frame flags;
        Done (Ok tt, wr st table (get_index L1 page) entry)
      else
        f ← unwrap (result_ok (pte_frame entry));
        Done (Err (PageAlreadyMapped f), st)
  end.

Definition unmap_2m (st : OffsetPageTable) (page : Z) : outcome (result Z UnmapError * OffsetPageTable) :=
  t ← traverse_mut st L2 page;
  match t with
  | Ok table =>
      let entry := rd st table (get_index L2 page) in
      if is_unused entry then Done (Err UnmapPageNotMapped, st)
      else
        let st := wr st table (get_index L2 page) pte_new in
        f ← unwrap (result_ok (pte_frame entry));
        Done (Ok f, st)
  | Err (PageNotMapped_ _) => Done (Err UnmapPageNotMapped, st)
  | Err (ParentEntryHugePage_ _) => Done (Err UnmapParentEntryHugePage, st)
  | Err (PageAlreadyMapped_ _) => Panic
  end.

Definition update_flags_2m (st : OffsetPageTable) (page flags : Z) :
    outcome (result unit FlagUpdateError * OffsetPageTable) :=
  t ← traverse_mut st L2 page;
  match t with
  | Ok table =>
      let i := get_index L2 page in
      Done (Ok tt, wr st table i (set_flags (rd st table i) (Z.lor flags HUGE_PAGE)))
  | Err (PageNotMapped_ _) => Done (Err FlagPageNotMapped, st)
  | Err (ParentEntryHugePage_ _) => Done (Err FlagParentEntryHugePage, st)
  | Err (PageAlreadyMapped_ _) => Panic
  end.

Definition set_flags_p4_entry_2m (st : OffsetPageTable) (page flags : Z) :
    outcome (result unit FlagUpdateError * OffsetPageTable) :=
  let i := get_index L4 page in
  Done (Ok tt, wr st (l4_table st) i (set_flags (rd st (l4_table st) i) flags)).

(** [f.set(PageTableFlags::PRESENT, false)] *)
Definition clear_present (f : Z) : Z := Z.ldiff f PRESENT.

Definition set_flags_p3_entry_2m (st : OffsetPageTable) (page flags : Z) :
    outcome (result unit FlagUpdateError * OffsetPageTable) :=
  t ← traverse_mut st L3 page;
  match t with
  | Ok table =>
      let i := get_index L3 page in
      let entry := rd st table i in
      let entry := if contains (pte_flags entry) PRESENT then set_flags entry (clear_present (pte_flags entry))
                   else entry in
      Done (Ok tt, wr st table i (set_flags entry flags))
  | Err (PageNotMapped_ _) => Done (Err FlagPageNotMapped, st)
  | Err _ => Panic
  end.

Definition set_flags_p2_entry_2m (st : OffsetPageTable) (page flags : Z) :
    outcome (result unit FlagUpdateError * OffsetPageTable) :=
  t ← traverse_mut st L2 page;
  match t with
  | Ok table =>
      let i := get_index L2 page in
      Done (Ok tt, wr st table i (set_flags (rd st table i) flags))
  | Err (PageNotMapped_ _) => Done (Err FlagPageNotMapped, st)
  | Err _ => Panic
  end.

Definition translate_page_2m (st : OffsetPageTable) (page : Z) : outcome (result Z TranslateError) :=
  t ← traverse st L2 page;
  match t with
  | Ok table =>
      let entry := rd st table (get_index L2 page) in
      if is_unused entry then Done (Err TrPageNotMapped)
      else f ← unwrap (result_ok (pte_frame entry)); Done (Ok f)
  | Err (PageNotMapped_ _) => Done (Err TrPageNotMapped)
  | Err (ParentEntryHugePage_ _) => Done (Err TrParentEntryHugePage)
  | Err (PageAlreadyMapped_ _) => Panic
  end.

(** ** [Mapper<Size1GiB>]

    After attaching the third-level table the source looks for a second-level one. *)
Definition map_to_1g (st : OffsetPageTable) (page frame flags parent_table_flags : Z) :
    outcome (result unit MapToError * OffsetPageTable) :=
  t ← traverse_mut st L3 page;
  r ← match t with
      | Ok table => Done (Ok table, st)
      | Err (PageNotMapped_ _) =>
          n ← new_table st;
          a ← attach 4 n.2 n.1 L3 page parent_table_flags;
          _ ← unwrap (result_ok a.1);
          t ← traverse_mut a.2 L2 page;
          table ← unwrap (result_ok t);
          Done (Ok table, a.2)
      | Err (ParentEntryHugePage_ _) => Done (Err MapParentEntryHugePage, st)
      | Err (PageAlreadyMapped_ _) => Panic
      end;
  match r with
  | (Err e, st) => Done (Err e, st)
  | (Ok table, st) =>
      let entry := rd st table (get_index L1 page) in
      if is_unused entry then
        entry ← set_addr entry frame flags;
        Done (Ok tt, wr st table (get_index L1 page) entry)
      else
        f ← unwrap (result_ok (pte_frame entry));
        Done (Err (PageAlreadyMapped f), st)
  end.

Definition unmap_1g (st : OffsetPageTable) (page : Z) : outcome (result Z UnmapError * OffsetPageTable) :=
  t ← traverse_mut st L3 page;
  match t with
  | Ok table =>
      let entry := rd st table (get_index L3 page) in
      if is_unused entry then Done (Err UnmapPageNotMapped, st)
      else
        let st := wr st table (get_index L3 page) pte_new in
        f ← unwrap (result_ok (pte_frame entry));
        Done (Ok f, st)
  | Err (PageNotMapped_ _) => Done (Err UnmapPageNotMapped, st)
  | Err (ParentEntryHugePage_ _) => Done (Err UnmapParentEntryHugePage, st)
  | Err (PageAlreadyMapped_ _) => Panic
  end.

Definition update_flags_1g (st : OffsetPageTable) (page flags : Z) :
    outcome (result unit FlagUpdateError * OffsetPageTable) :=
  t ← traverse_mut st L3 page;
  match t with
  | Ok table =>
      let i := get_index L3 page in
      Done (Ok tt, wr st table i (set_flags (rd st table i) (Z.lor flags HUGE_PAGE)))
  | Err (PageNotMapped_ _) => Done (Err FlagPageNotMapped, st)
  | Err (ParentEntryHugePage_ _) => Done (Err FlagParentEntryHugePage, st)
  | Err (PageAlreadyMapped_ _) => Panic
  end.

Definition set_flags_p4_entry_1g (st : OffsetPageTable) (page flags : Z) :
    outcome (result unit FlagUpdateError * OffsetPageTable) :=
  let i := get_index L4 page in
  Done (Ok tt, wr st (l4_table st) i (set_flags (rd st (l4_table st) i) flags)).

Definition set_flags_p3_entry_1g (st : OffsetPageTable) (page flags : Z) :
    outcome (result unit FlagUpdateError * OffsetPageTable) :=
  t ← traverse_mut st L3 page;
  match t with
  | Ok table =>
      let i := get_index L3 page in
      let entry := rd st table i in
      let entry := if contains (pte_flags entry) PRESENT then set_flags entry (clear_present (pte_flags entry))
                   else entry in
      Done (Ok tt, wr st table i (set_flags entry flags))
  | Err (PageNotMapped_ _) => Done (Err FlagPageNotMapped, st)
  | Err _ => Panic
  end.

Definition set_flags_p2_entry_1g (st : OffsetPageTable) (page flags : Z) :
    outcome (result unit FlagUpdateError * OffsetPageTable) := Done (Err FlagParentEntryHugePage, st).

Definition translate_page_1g (st : OffsetPageTable) (page : Z) : outcome (result Z TranslateError) :=
  t ← traverse st L3 page;
  match t with
  | Ok table =>
      let entry := rd st table (get_index L3 page) in
      if is_unused entry then Done (Err TrPageNotMapped)
      else f ← unwrap (result_ok (pte_frame entry)); Done (Ok f)
  | Err (PageNotMapped_ _) => Done (Err TrPageNotMapped)
  | Err (ParentEntryHugePage_ _) => Done (Err TrParentEntryHugePage)
  | Err (PageAlreadyMapped_ _) => Panic
  end.

End Tables.

(** ** The tree of tables *)
Section TableLaws.
Context {F : Type} `{FS : FrameSource F} {FL : FrameSourceLaws F} `{PF : PhysFrameOps} {PFL : PhysFrameLaws}
        `{PO : PteOps} {PTL : PteLaws}
        `{PA : PhysAddrOps} {PL : PhysAddrLaws} `{VA : VirtAddrOps} {VL : VirtAddrLaws}.
Implicit Types st : OffsetPageTable (F := F).

Inductive wres := WTable (t : Z) | WUnmapped | WHuge.

Definition wstep st (t i : Z) : wres :=
  let e := rd st t i in
  if is_unused e then WUnmapped
  else if contains (pte_flags e) HUGE_PAGE then WHuge
  else WTable (offset_base st + pte_addr e).

Definition wnext st (w : wres) (i : Z) : wres := match w with WTable t => wstep st t i | _ => w end.

(** The table at the end of a path of indices from the root. *)
Definition walk st (p : list Z) : wres := foldl (wnext st) (WTable (l4_table st)) p.

Definition idx_ok (i : Z) : Prop := 0 <= i < 512.
#[global] Instance idx_ok_dec i : Decision (idx_ok i).
Proof. unfold idx_ok. apply _. Defined.

Definition path_ok (p : list Z) : Prop := (length p <= 3)%nat /\ Forall idx_ok p.

(** The indices of a page above a level. *)
Definition path (l : PageTableLevel) (page : Z) : list Z :=
  match l with
  | L4 => []
  | L3 => [get_index L4 page]
  | L2 => [get_index L4 page; get_index L3 page]
  | L1 => [get_index L4 page; get_index L3 page; get_index L2 page]
  end.

(** What a page maps to, by its table indices: an entry, or nothing because a larger page is in
    the way.  A page without tables has the empty entry. *)
Inductive vres := VEntry (e : pte) | VHuge.

Definition view st (p : list Z) (i : Z) : vres :=
  match walk st p with WTable t => VEntry (rd st t i) | WUnmapped => VEntry pte_new | WHuge => VHuge end.

Definition page_view st (page : Z) : vres := view st (path L1 page) (get_index L1 page).

(** The free frames of [st'] were free in [st]. *)
Definition fs_sub st' st : Prop := forall x, fs_free (PHYS_ALLOCATOR st') x -> fs_free (PHYS_ALLOCATOR st) x.

(** The tables form a tree inside the window, and no free frame is part of it. *)
Record wf (limit : Z) st : Prop := {
  wf_limit : 0 <= offset_base st /\ limit <= 2 ^ 52 /\ canonical (offset_base st) /\
             forall a, 0 <= a < limit -> canonical (offset_base st + a);
  wf_table : forall p t, path_ok p -> walk st p = WTable t -> 0 <= t - offset_base st < limit;
  wf_inj : forall p q t, path_ok p -> path_ok q -> walk st p = WTable t -> walk st q = WTable t -> p = q;
  wf_unfree : forall p a, path_ok p -> fs_free (PHYS_ALLOCATOR st) a -> walk st p <> WTable (offset_base st + a);
  wf_source : fs_inv (PHYS_ALLOCATOR st) /\ forall a, fs_free (PHYS_ALLOCATOR st) a -> 0 <= a < limit;
}.

(** A cleared frame that is neither free nor part of the tree. *)
Record fresh (limit : Z) st (a : Z) : Prop := {
  fresh_range : 0 <= a < limit /\ a mod PAGE_SIZE = 0;
  fresh_tree : forall p, path_ok p -> walk st p <> WTable (offset_base st + a);
  fresh_free : ~ fs_free (PHYS_ALLOCATOR st) a;
  fresh_zero : forall i, idx_ok i -> rd st (offset_base st + a) i = pte_new;
}.

Lemma rd_wr st t i e t' i' : rd (wr st t i e) t' i' = if decide ((t', i') = (t, i)) then e else rd st t' i'.
Proof.
  unfold rd, wr, set_mem. cbn [mem]. destruct (decide _) as [->|Hn]; [by rewrite lookup_insert_eq|by rewrite lookup_insert_ne].
Qed.

Lemma walk_snoc st p i : walk st (p ++ [i]) = wnext st (walk st p) i.
Proof. unfold walk. by rewrite foldl_app. Qed.

(** Two states with the same root agree on a path when they agree on the entries along it. *)
Lemma walk_agree st st' p :
  offset_base st' = offset_base st -> l4_table st' = l4_table st ->
  (forall q i t, (q ++ [i]) `prefix_of` p -> walk st q = WTable t -> rd st' t i = rd st t i) ->
  walk st' p = walk st p.
Proof.
  intros Hb Hr. induction p as [|i p IH] using rev_ind; intros H; [unfold walk; cbn; by rewrite Hr|].
  rewrite !walk_snoc, IH.
  - destruct (walk st p) as [t| |] eqn:E; [|done|done]. cbn. unfold wstep. by rewrite Hb, (H p i t).
  - intros q j t Hq. apply H. by apply prefix_app_r.
Qed.

Lemma path_ok_prefix p q : q `prefix_of` p -> path_ok p -> path_ok q.
Proof. intros [r ->] [H1 [H2 _]%Forall_app]. rewrite length_app in H1. split; [lia|done]. Qed.

Lemma path_ok_snoc p i : path_ok p -> (length p <= 2)%nat -> idx_ok i -> path_ok (p ++ [i]).
Proof. intros [_ Hp] Hl Hi. split; [rewrite length_app; cbn; lia|]. apply Forall_app. by rewrite Forall_singleton. Qed.

Lemma get_index_ok l page : idx_ok (get_index l page).
Proof.
  unfold idx_ok. assert (forall x, 0 <= Z.land x 511 < 512) as H.
  { intros x. change 511 with (Z.ones 9). rewrite Z.land_ones by lia. apply Z.mod_pos_bound. lia. }
  destruct l; apply H.
Qed.

Lemma path_path_ok l page : path_ok (path l page).
Proof. split; [destruct l; cbn; lia|]. destruct l; repeat constructor; apply get_index_ok. Qed.

Lemma get_index_page l page : get_index l (containing_address Size4KiB page) = get_index l page.
Proof.
  assert (forall k, 12 <= k -> Z.shiftr (page - page mod 0x1000) k = Z.shiftr page k) as H.
  { intros k Hk. replace k with (12 + (k - 12)) by lia. rewrite <- !Z.shiftr_shiftr by lia. f_equal.
    rewrite !Z.shiftr_div_pow2 by lia. change (2 ^ 12) with 0x1000.
    rewrite (Z.mod_eq page 0x1000) by lia. replace (page - (page - 0x1000 * (page / 0x1000))) with (page / 0x1000 * 0x1000) by lia.
    by rewrite Z.div_mul. }
  unfold containing_address. cbn [SIZE]. destruct l; cbn [get_index]; by rewrite H by lia.
Qed.

(** ** [traverse] follows the path *)
Definition tres (w : wres) (r : result Z InternalError) : Prop :=
  match w, r with
  | WTable t, Ok t' => t' = t
  | WUnmapped, Err (PageNotMapped_ _) => True
  | WHuge, Err (ParentEntryHugePage_ _) => True
  | _, _ => False
  end.

(** The tables along the path of a page lie in the window. *)
Definition in_window (limit : Z) st (p : list Z) : Prop :=
  canonical (offset_base st) /\ (forall a, 0 <= a < limit -> canonical (offset_base st + a)) /\
  forall q t, q `prefix_of` p -> walk st q = WTable t -> 0 <= t - offset_base st < limit.

Lemma wf_in_window limit st p : wf limit st -> path_ok p -> in_window limit st p.
Proof.
  intros Hwf Hp. destruct (wf_limit _ _ Hwf) as (_ & _ & Hc & Hl). split; [done|]. split; [done|].
  intros q t Hq. apply (wf_table _ _ Hwf). by eapply path_ok_prefix.
Qed.

Lemma in_window_prefix limit st p q : in_window limit st p -> q `prefix_of` p -> in_window limit st q.
Proof. intros (H1 & H2 & H3) Hq. split; [done|]. split; [done|]. intros q' t Hq'. apply H3. by etrans. Qed.

Lemma traverse_step limit st n curr l target page p t :
  in_window limit st (p ++ [get_index curr page]) -> walk st p = WTable t -> dec curr = Done l ->
  traverse_inner_mut (S n) st curr target page t =
    match walk st (p ++ [get_index curr page]) with
    | WTable t' => if decide (l = target) then Done (Ok t') else traverse_inner_mut n st l target page t'
    | WUnmapped => Done (Err (PageNotMapped_ l))
    | WHuge => Done (Err (ParentEntryHugePage_ l))
    end.
Proof using VL.
  intros (Hc & Hl & Ht) Hw Hd. specialize (Ht (p ++ [get_index curr page])).
  rewrite walk_snoc, Hw in *. cbn [wnext] in *. cbn [traverse_inner_mut]. unfold wstep in *.
  set (e := rd st t (get_index curr page)) in *.
  destruct (is_unused e); [by rewrite Hd|]. destruct (contains (pte_flags e) HUGE_PAGE); [by rewrite Hd|].
  specialize (Ht _ ltac:(done) eq_refl).
  rewrite virt_add_valid; [|done|lia|apply Hl; lia]. cbn [mbind outcome_bind]. rewrite Hd. done.
Qed.

Lemma path_L2 page : path L2 page = path L3 page ++ [get_index L3 page].
Proof. done. Qed.

Lemma path_L1 page : path L1 page = path L2 page ++ [get_index L2 page].
Proof. done. Qed.

Lemma path_containing l page : path l (containing_address Size4KiB page) = path l page.
Proof. destruct l; cbn [path]; by rewrite ?get_index_page. Qed.

Lemma traverse_window limit st l page :
  in_window limit st (path l page) -> exists r, traverse_mut st l page = Done r /\ tres (walk st (path l page)) r.
Proof using VL.
  intros Hwin. unfold traverse_mut. destruct (decide (l = L4)) as [->|Hl]; [by eexists|].
  rewrite <- path_containing in *. set (pg := containing_address Size4KiB page) in *.
  assert (path L3 pg `prefix_of` path l pg) as P3 by (destruct l; [by exists [get_index L3 pg; get_index L2 pg]|by exists [get_index L3 pg]|done|done]).
  rewrite (traverse_step limit st _ L4 L3 l pg [] (l4_table st)) by (done || by apply (in_window_prefix limit st (path l pg))).
  change ([] ++ [get_index L4 pg]) with (path L3 pg).
  destruct (walk st (path L3 pg)) as [t3| |] eqn:E3; [destruct (decide (L3 = l)) as [<-|H3]|..].
  { rewrite E3. by eexists. }
  2,3: eexists; split; [done|]; destruct l; [..|done]; rewrite ?path_L1, ?path_L2, ?walk_snoc, E3; done.
  assert (path L2 pg `prefix_of` path l pg) as P2 by (destruct l; [by exists [get_index L2 pg]|done..]).
  rewrite (traverse_step limit st _ L3 L2 l pg (path L3 pg) t3) by (done || by apply (in_window_prefix limit st (path l pg))).
  rewrite <- path_L2.
  destruct (walk st (path L2 pg)) as [t2| |] eqn:E2; [destruct (decide (L2 = l)) as [<-|H2]|..].
  { rewrite E2. by eexists. }
  2,3: eexists; split; [done|]; destruct l; [..|done|done]; rewrite ?path_L1, ?walk_snoc, E2; done.
  destruct l; [|done..].
  rewrite (traverse_step limit st _ L2 L1 L1 pg (path L2 pg) t2) by done.
  rewrite <- path_L1. destruct (walk st (path L1 pg)); by eexists.
Qed.

Lemma traverse_ok limit st l page :
  wf limit st -> exists r, traverse_mut st l page = Done r /\ tres (walk st (path l page)) r.
Proof using VL. intros Hwf. apply (traverse_window limit), wf_in_window; [done|apply path_path_ok]. Qed.

(** ** Updating one entry *)

(** A write to an entry is seen only by the paths through it. *)
Lemma walk_wr limit st p0 t0 i0 e p :
  wf limit st -> path_ok p0 -> walk st p0 = WTable t0 -> path_ok p -> ~ (p0 ++ [i0]) `prefix_of` p ->
  walk (wr st t0 i0 e) p = walk st p.
Proof.
  intros Hwf Hp0 Hw0 Hp Hnp. apply walk_agree; [done|done|]. intros q i t Hq Hw. rewrite rd_wr.
  destruct (decide _) as [[= -> ->]|]; [|done]. exfalso. apply Hnp.
  rewrite (wf_inj _ _ Hwf p0 q t0); [done|done| |done|done].
  eapply path_ok_prefix; [|exact Hp]. etrans; [|exact Hq]. by apply prefix_app_r.
Qed.

(** Entries of the first level are on no path. *)
Lemma walk_wr_leaf limit st p0 t0 i0 e p :
  wf limit st -> path_ok p0 -> length p0 = 3%nat -> walk st p0 = WTable t0 -> path_ok p ->
  walk (wr st t0 i0 e) p = walk st p.
Proof.
  intros Hwf Hp0 Hl Hw0 Hp. eapply walk_wr; [done|exact Hp0|done|done|].
  intros Hpre%prefix_length. rewrite length_app in Hpre. cbn in Hpre. destruct Hp. lia.
Qed.

Lemma wf_same_walks limit st st' :
  wf limit st -> offset_base st' = offset_base st -> PHYS_ALLOCATOR st' = PHYS_ALLOCATOR st ->
  (forall p, path_ok p -> walk st' p = walk st p) -> wf limit st'.
Proof.
  intros [H1 H2 H3 H4 H5] Hb Hf Hw. split; rewrite ?Hb, ?Hf; [done|..|done].
  - intros p t Hp. rewrite Hw by done. by apply H2.
  - intros p q t Hp Hq. rewrite !Hw by done. by apply H3.
  - intros p a Hp. rewrite Hw by done. by apply H4.
Qed.

Lemma leaf_wr_view limit st p0 t0 i0 e p i :
  wf limit st -> path_ok p0 -> length p0 = 3%nat -> walk st p0 = WTable t0 -> path_ok p ->
  view (wr st t0 i0 e) p i = if decide ((p, i) = (p0, i0)) then VEntry e else view st p i.
Proof.
  intros Hwf Hp0 Hl Hw0 Hp. unfold view. rewrite (walk_wr_leaf limit st p0) by done.
  destruct (walk st p) as [t| |] eqn:E.
  - rewrite rd_wr. destruct (decide ((p, i) = (p0, i0))) as [[= -> ->]|Hn].
    + replace t with t0 by congruence. by rewrite decide_True.
    + rewrite decide_False; [done|]. intros [= -> ->]. apply Hn. f_equal. by apply (wf_inj _ _ Hwf p p0 t0).
  - rewrite decide_False; [done|]. intros [= -> ->]. congruence.
  - rewrite decide_False; [done|]. intros [= -> ->]. congruence.
Qed.

(** ** New tables *)
Lemma PageTable_new_rd st t t' i :
  rd (set_mem (PageTable_new (mem st) t) st) t' i = if decide (t' = t /\ idx_ok i) then pte_new else rd st t' i.
Proof.
  assert (forall n k (m : gmap (Z * Z) pte), foldr (fun i m => <[(t, Z.of_nat i) := pte_new]> m) m (seq k n) !! (t', i) =
    if decide (t' = t /\ Z.of_nat k <= i < Z.of_nat (k + n)) then Some pte_new else m !! (t', i)) as Hfold.
  { induction n as [|n IH]; intros k m; cbn [seq foldr]; [rewrite decide_False by lia; done|].
    destruct (decide ((t', i) = (t, Z.of_nat k))) as [[= -> ->]|Hn].
    - rewrite lookup_insert_eq, decide_True by lia. done.
    - rewrite lookup_insert_ne, IH by done.
      destruct (decide (t' = t /\ Z.of_nat (S k) <= i < Z.of_nat (S k + n))).
      + rewrite decide_True by lia. done.
      + rewrite decide_False; [done|]. intros [-> ?]. apply Hn. f_equal. destruct (decide (i = Z.of_nat k)); [done|]. lia. }
  unfold rd, set_mem, PageTable_new. cbn [mem]. rewrite Hfold. unfold idx_ok.
  destruct (decide (t' = t /\ 0 <= i < 512)) as [Hd|Hd]; [by rewrite decide_True by lia|by rewrite decide_False by lia].
Qed.

(** A fresh cleared table changes no path. *)
Lemma new_table_ok limit st n :
  wf limit st -> fs_room (PHYS_ALLOCATOR st) (S n) ->
  exists a st', new_table st = Done (offset_base st + a, st') /\ wf limit st' /\ fresh limit st' a /\
    fs_room (PHYS_ALLOCATOR st') n /\ offset_base st' = offset_base st /\ fs_sub st' st /\
    (forall p, path_ok p -> walk st' p = walk st p) /\
    (forall p i, path_ok p -> view st' p i = view st p i) /\
    (forall b, fresh limit st b -> fresh limit st' b /\ a <> b) /\ fs_free (PHYS_ALLOCATOR st) a.
Proof using FL PFL.
  intros Hwf Hroom. destruct (wf_source _ _ Hwf) as [Hinv Hsrc]. destruct (wf_limit _ _ Hwf) as (H0 & Hlim & Hcb & Hcan).
  cbn [fs_room] in Hroom. destruct (fs_allocate Size4KiB _) as [[[a|] f']|] eqn:Heq; [|done..].
  destruct (fs_allocate_ok _ _ _ Hinv Heq) as (Hinv' & Ha & Hal & Hfree & Hnfree & Hsub).
  pose proof (Hsrc _ Hfree) as Hla. exists a. eexists. unfold new_table. rewrite Heq. cbn [mbind outcome_bind fst snd unwrap].
  assert ((offset_base st ⊕ a)%u64 = offset_base st + a) as ->.
  { pose proof (Hcan a Hla) as Hc. unfold canonical in Hc. rewrite wadd_small by lia. done. }
  split; [done|]. set (st' := mkPt _ _ _ _).
  assert (forall t i, rd st' t i = if decide (t = offset_base st + a /\ idx_ok i) then pte_new else rd st t i) as Hrd
    by (intros t i; exact (PageTable_new_rd st (offset_base st + a) t i)).
  assert (forall p, path_ok p -> walk st' p = walk st p) as Hwalk.
  { intros p Hp. apply walk_agree; [done|done|]. intros q i t Hq Hw. rewrite Hrd.
    destruct (decide _) as [[-> _]|]; [|done]. exfalso.
    apply (wf_unfree _ _ Hwf q a); [|done|done]. eapply path_ok_prefix; [|exact Hp].
    etrans; [|exact Hq]. by apply prefix_app_r. }
  assert (wf limit st') as Hwf'.
  { split; cbn [offset_base PHYS_ALLOCATOR st']; [done|..].
    - intros p t Hp. rewrite Hwalk by done. by apply (wf_table _ _ Hwf).
    - intros p q t Hp Hq. rewrite !Hwalk by done. by apply (wf_inj _ _ Hwf).
    - intros p b Hp Hb. rewrite Hwalk by done. by apply (wf_unfree _ _ Hwf), Hsub.
    - split; [done|]. intros b Hb. by apply Hsrc, Hsub. }
  split; [done|]. split.
  { split; cbn [offset_base PHYS_ALLOCATOR st']; [done|..].
    - intros p Hp. rewrite Hwalk by done. by apply (wf_unfree _ _ Hwf).
    - done.
    - intros i Hi. rewrite Hrd. by rewrite decide_True. }
  split; [done|]. split; [done|]. split; [done|]. split; [done|]. split.
  - intros p i Hp. unfold view. rewrite Hwalk by done. destruct (walk st p) as [t| |] eqn:E; [|done|done].
    rewrite Hrd. destruct (decide _) as [[-> _]|]; [|done]. by apply (wf_unfree _ _ Hwf) in E.
  - split; [|done]. intros b [Hb1 Hb2 Hb3 Hb4]. split; [|by intros ->]. split; cbn [offset_base PHYS_ALLOCATOR st']; [done|..].
    + intros p Hp. rewrite Hwalk by done. by apply Hb2.
    + intros Hb. by apply Hb3, Hsub.
    + intros i Hi. rewrite Hrd. destruct (decide _); [done|by apply Hb4].
Qed.

(** ** Linking a table into the tree *)
Section Link.
Variables (limit : Z) (st : OffsetPageTable (F := F)) (q : list Z) (t i a : Z) (e : pte).
Hypotheses (Hwf : wf limit st) (Hfresh : fresh limit st a) (Hq : path_ok q) (Hlen : (length q <= 2)%nat)
  (Hi : idx_ok i) (Hwalk : walk st q = WTable t) (Hunused : rd st t i = pte_new)
  (He : is_unused e = false) (Hflags : contains (pte_flags e) HUGE_PAGE = false) (Haddr : pte_addr e = a).

Let st' := wr st t i e.

Lemma link_at : walk st' (q ++ [i]) = WTable (offset_base st + a).
Proof using Hwf Hfresh Hq Hlen Hi Hwalk Hunused He Hflags Haddr PTL.
  rewrite walk_snoc. unfold st'. rewrite (walk_wr limit st q t i e q), Hwalk; [|done..|].
  - cbn [wnext]. unfold wstep. rewrite rd_wr, decide_True, He, Hflags, Haddr by done. done.
  - intros Hp%prefix_length. rewrite length_app in Hp. cbn in Hp. lia.
Qed.

Lemma link_before p : (q ++ [i]) `prefix_of` p -> walk st p = WUnmapped.
Proof using Hwf Hfresh Hq Hlen Hi Hwalk Hunused He Hflags Haddr PTL.
  intros [r ->]. induction r as [|j r IH] using rev_ind.
  - rewrite app_nil_r, walk_snoc, Hwalk. cbn [wnext]. unfold wstep. rewrite Hunused.
    by rewrite (proj2 (unused_new pte_new) eq_refl).
  - rewrite app_assoc, walk_snoc, IH. done.
Qed.

Lemma link_below p : path_ok p -> (q ++ [i]) `prefix_of` p -> p <> q ++ [i] -> walk st' p = WUnmapped.
Proof using Hwf Hfresh Hq Hlen Hi Hwalk Hunused He Hflags Haddr PTL.
  intros Hp [r ->]. destruct r as [|j r _] using rev_ind; [by rewrite app_nil_r|intros _].
  destruct Hp as [Hp1 Hp2]. rewrite !Forall_app in Hp2. destruct Hp2 as [_ [Hr Hj]]. rewrite Forall_singleton in Hj.
  clear Hp1. rewrite app_assoc, walk_snoc. revert j Hj. induction r as [|k r IH] using rev_ind; intros j Hj.
  - rewrite app_nil_r, link_at. cbn [wnext]. unfold wstep, st'. rewrite rd_wr, decide_False.
    + rewrite (fresh_zero _ _ _ Hfresh) by done. by rewrite (proj2 (unused_new pte_new) eq_refl).
    + intros [= <- _]. by apply (fresh_tree _ _ _ Hfresh q).
  - apply Forall_app in Hr as [Hr Hk]. rewrite Forall_singleton in Hk.
    rewrite app_assoc, walk_snoc, IH by done. done.
Qed.

Lemma link_walk p : path_ok p -> ~ (q ++ [i]) `prefix_of` p -> walk st' p = walk st p.
Proof using Hwf Hfresh Hq Hlen Hi Hwalk Hunused He Hflags Haddr PTL. intros Hp Hn. by apply (walk_wr limit st q). Qed.

Lemma link_cases p x : path_ok p -> walk st' p = WTable x ->
  (p = q ++ [i] /\ x = offset_base st + a) \/ walk st p = WTable x.
Proof using Hwf Hfresh Hq Hlen Hi Hwalk Hunused He Hflags Haddr PTL.
  intros Hp Hw. destruct (decide (q ++ [i] `prefix_of` p)) as [Hpre|Hn].
  - destruct (decide (p = q ++ [i])) as [->|Hne]; [left; rewrite link_at in Hw; by injection Hw|].
    by rewrite link_below in Hw.
  - right. by rewrite <- link_walk.
Qed.

Lemma link_wf : wf limit st'.
Proof using Hwf Hfresh Hq Hlen Hi Hwalk Hunused He Hflags Haddr PTL.
  destruct (fresh_range _ _ _ Hfresh) as [Ha _]. split; cbn [offset_base PHYS_ALLOCATOR st' wr set_mem].
  - exact (wf_limit _ _ Hwf).
  - intros p x Hp Hx. apply link_cases in Hx as [[_ ->]|Hw]; [lia|by apply (wf_table _ _ Hwf p)|done].
  - intros p p' x Hp Hp' Hx Hx'.
    apply link_cases in Hx as [[-> ->]|Hw]; [| |done]; apply link_cases in Hx' as [[-> Hx]|Hw']; [done| |done| | |done].
    + by apply (fresh_tree _ _ _ Hfresh) in Hw'.
    + subst x. by apply (fresh_tree _ _ _ Hfresh) in Hw.
    + by apply (wf_inj _ _ Hwf p p' x).
  - intros p b Hp Hb Hx. apply link_cases in Hx as [[_ Hx]|Hw]; [|by apply (wf_unfree _ _ Hwf) in Hw|done].
    assert (b = a) as -> by lia. by apply (fresh_free _ _ _ Hfresh).
  - exact (wf_source _ _ Hwf).
Qed.

Lemma link_fresh b : fresh limit st b -> b <> a -> fresh limit st' b.
Proof using Hwf Hfresh Hq Hlen Hi Hwalk Hunused He Hflags Haddr PTL.
  intros [H1 H2 H3 H4] Hne. split; cbn [offset_base PHYS_ALLOCATOR st' wr set_mem]; [done|..|done|].
  - intros p Hp Hx. apply link_cases in Hx as [[_ Hx]|Hw]; [lia|by apply H2 in Hw|done].
  - intros j Hj. unfold st'. rewrite rd_wr, decide_False; [by apply H4|]. intros [= <- _]. by apply (H2 q).
Qed.

Lemma link_zero j : idx_ok j -> rd st' (offset_base st + a) j = pte_new.
Proof using Hwf Hfresh Hq Hlen Hi Hwalk Hunused He Hflags Haddr PTL.
  intros Hj. unfold st'. rewrite rd_wr, decide_False; [by apply (fresh_zero _ _ _ Hfresh)|].
  intros [= <- _]. by apply (fresh_tree _ _ _ Hfresh q).
Qed.

(** No page changes its mapping. *)
Lemma link_view p j : path_ok p -> length p = 3%nat -> idx_ok j -> view st' p j = view st p j.
Proof using Hwf Hfresh Hq Hlen Hi Hwalk Hunused He Hflags Haddr PTL.
  intros Hp Hl Hj. unfold view. destruct (decide (q ++ [i] `prefix_of` p)) as [Hpre|Hn].
  - rewrite (link_before p Hpre). destruct (decide (p = q ++ [i])) as [->|Hne].
    + rewrite link_at, link_zero by done. done.
    + by rewrite link_below.
  - rewrite link_walk by done. destruct (walk st p) as [x| |] eqn:E; [|done..]. unfold st'. rewrite rd_wr.
    destruct (decide _) as [[= -> ->]|]; [|done]. exfalso.
    assert (p = q) as -> by by apply (wf_inj _ _ Hwf p q t). lia.
Qed.

End Link.

(** ** [attach] *)

(** The index of the entry for the next table. *)
Lemma path_inc l up page : inc l = Done up -> path l page = path up page ++ [get_index up page].
Proof. by destruct l; intros [= <-]. Qed.

(** Every table of [st'] is one of [st] or a frame that was free in [st]. *)
Definition grown st st' : Prop :=
  forall p t, path_ok p -> walk st' p = WTable t ->
  walk st p = WTable t \/ exists b, t = offset_base st + b /\ fs_free (PHYS_ALLOCATOR st) b.

(** What [attach] promises for a cleared frame at [offset_base + a]. *)
Definition attached (limit : Z) st (l : PageTableLevel) (page a : Z) st' : Prop :=
  wf limit st' /\ offset_base st' = offset_base st /\ fs_sub st' st /\
  walk st' (path l page) = WTable (offset_base st + a) /\
  (forall i, idx_ok i -> rd st' (offset_base st + a) i = pte_new) /\
  (forall p i, path_ok p -> length p = 3%nat -> idx_ok i -> view st' p i = view st p i) /\
  (forall b, fresh limit st b -> b <> a -> fresh limit st' b) /\
  (forall p t, path_ok p -> walk st' p = WTable t -> t <> offset_base st + a ->
     walk st p = WTable t \/ exists b, t = offset_base st + b /\ fs_free (PHYS_ALLOCATOR st) b).

Lemma attach_link limit st l up page flags a t :
  wf limit st -> fresh limit st a -> valid_flags flags -> contains (Z.lor flags PRESENT) HUGE_PAGE = false ->
  inc l = Done up -> walk st (path up page) = WTable t -> rd st t (get_index up page) = pte_new ->
  exists e, set_addr (rd st t (get_index up page)) a (Z.lor flags PRESENT) = Done e /\
    attached limit st l page a (wr st t (get_index up page) e).
Proof using PTL.
  intros Hwf Hfr Hvf Hnh Hinc Hw Hrd. destruct (fresh_range _ _ _ Hfr) as [Ha Hal].
  destruct (wf_limit _ _ Hwf) as (_ & Hlim & _).
  destruct (set_addr_aligned (rd st t (get_index up page)) a (Z.lor flags PRESENT)) as (e & He & Hea & Hef & Heu).
  - lia.
  - done.
  - apply valid_flags_lor; [done|apply valid_flags_known].
  - exists e. split; [done|]. assert (is_unused e = false) as Hu.
    { apply Heu. unfold contains. apply Z.eqb_eq. apply Z.bits_inj'. intros k Hk. rewrite Z.land_spec, Z.lor_spec.
      by destruct (Z.testbit flags k), (Z.testbit PRESENT k). }
    rewrite <- Hef in Hnh. assert (length (path up page) <= 2)%nat as Hl by (destruct l; cbn in Hinc; simplify_eq; cbn; lia).
    pose proof (path_path_ok up page) as Hp. pose proof (get_index_ok up page) as Hi.
    unfold attached. rewrite (path_inc l up) by done. split; [by apply (link_wf limit st (path up page) t _ a)|].
    split; [done|]. split; [by intros x|]. split; [by apply (link_at limit st (path up page) t _ a)|].
    split; [intros i' Hi'; by apply (link_zero limit st (path up page) t _ a)|].
    split; [intros p j Hp' Hl' Hj; by apply (link_view limit st (path up page) t _ a)|].
    split; [intros b Hb Hne; by apply (link_fresh limit st (path up page) t _ a)|].
    intros p x Hp' Hx Hne. left.
    destruct (link_cases limit st (path up page) t (get_index up page) a e Hwf Hfr Hp Hl Hi Hw Hrd Hu Hnh Hea p x Hp' Hx) as [[_ ?]|?]; done.
Qed.

Lemma attached_trans limit st st1 st2 st3 l up page a a1 :
  attached limit st1 up page a1 st2 -> attached limit st2 l page a st3 ->
  offset_base st1 = offset_base st -> fs_sub st1 st ->
  (forall p i, path_ok p -> view st1 p i = view st p i) ->
  (forall b, fresh limit st b -> fresh limit st1 b /\ a1 <> b) ->
  fs_free (PHYS_ALLOCATOR st) a1 -> (forall p, path_ok p -> walk st1 p = walk st p) ->
  attached limit st l page a st3.
Proof.
  intros (_ & B2 & S2 & _ & _ & V2 & Fr2 & T2) (W3 & B3 & S3 & Wk3 & Z3 & V3 & Fr3 & T3) B1 S1 V1 Fr1 Ha1 Wk1. unfold attached.
  rewrite B3, B2, B1 in *. split; [done|]. split; [done|]. split; [intros x Hx; by apply S1, S2, S3|]. split; [done|]. split; [done|]. split; [|split].
  - intros p i Hp Hl Hi. rewrite V3, V2, V1; done.
  - intros b Hb Hne. destruct (Fr1 b Hb). apply Fr3; [|done]. apply Fr2; [done|]. congruence.
  - intros p t Hp Hw Hne. destruct (T3 p t Hp Hw Hne) as [Hw2|(b & -> & Hb)]; [|right; exists b; split; [done|by apply S1, S2]].
    destruct (decide (t = offset_base st + a1)) as [->|Hn1]; [right; by exists a1|].
    destruct (T2 p t Hp Hw2 Hn1) as [Hw1|(b & -> & Hb)]; [left; by rewrite <- Wk1|right; exists b; split; [done|by apply S1]].
Qed.

(** A cleared table is linked at its place; missing tables above it are made on the way, at most
    one per level. *)
Lemma attach_ok limit : forall fuel l st page flags a n,
  (4 <= fuel + level_num l)%nat -> l <> L4 ->
  wf limit st -> fresh limit st a -> valid_flags flags -> contains (Z.lor flags PRESENT) HUGE_PAGE = false ->
  walk st (path l page) = WUnmapped -> fs_room (PHYS_ALLOCATOR st) (3 - level_num l + n) ->
  exists st', attach fuel st (offset_base st + a) l page flags = Done (Ok tt, st') /\
    fs_room (PHYS_ALLOCATOR st') n /\ attached limit st l page a st'.
Proof using FL PFL PTL PL VL.
  induction fuel as [|fuel IH]; intros l st page flags a n Hf Hl4 Hwf Hfr Hvf Hnh Hw Hroom; [by destruct l; cbn in Hf; first [lia|done]|].
  assert (exists up, inc l = Done up /\ level_num up = S (level_num l)) as (up & Hinc & Hnum)
    by (destruct l; [by eexists..|done]).
  destruct (fresh_range _ _ _ Hfr) as [Ha Hal]. destruct (wf_limit _ _ Hwf) as (Hb0 & Hlim & Hcb & _).
  cbn [attach]. unfold canonical in Hcb. rewrite (wsub_small (offset_base st + a)) by lia.
  replace (offset_base st + a - offset_base st) with a by lia.
  rewrite phys_new_valid, Hinc by lia. cbn [mbind outcome_bind].
  destruct (traverse_ok limit st up page Hwf) as (r & -> & Hr). cbn [mbind outcome_bind].
  rewrite (path_inc l up page Hinc), walk_snoc in Hw.
  destruct (walk st (path up page)) as [t| |] eqn:Ew; destruct r as [t'|[| |]]; try done; cbn [tres] in Hr.
  - subst t'. cbn [wnext] in Hw. unfold wstep in Hw.
    destruct (is_unused (rd st t (get_index up page))) eqn:Eu; [|by destruct (contains (pte_flags _) HUGE_PAGE)].
    cbn [mbind outcome_bind]. rewrite Eu. apply unused_new in Eu.
    destruct (attach_link limit st l up page flags a t) as (e & -> & Hatt); [done..|]. eexists. split; [done|].
    split; [by apply (fs_room_le _ _ _ Hroom); lia|done].
  - assert (up <> L4) as Hup by (intros ->; cbn in Ew; done).
    assert (3 - level_num l + n = S (3 - level_num up + n))%nat as Hlev by (destruct l; cbn in Hinc; simplify_eq; done).
    rewrite Hlev in Hroom. destruct (new_table_ok limit st _ Hwf Hroom) as (a1 & st1 & -> & Hwf1 & Hfr1 & Hroom1 & Hb1 & Hs1 & Hwk1 & Hv1 & Hfb1 & Hfa1).
    cbn [mbind outcome_bind fst snd]. rewrite <- Hb1.
    destruct (IH up st1 page flags a1 n) as (st2 & -> & Hroom2 & Hatt); [lia|done|done|done|done|done| |done|].
    { rewrite Hwk1 by apply path_path_ok. done. }
    cbn [mbind outcome_bind fst snd result_ok unwrap]. pose proof Hatt as (Hwf2 & Hb2 & _ & Hwk2 & Hz2 & _ & Hfr2 & _).
    destruct (traverse_ok limit st2 up page Hwf2) as (r & -> & Hr2). rewrite Hwk2 in Hr2. destruct r as [t'|]; [|done].
    cbn [tres] in Hr2. subst t'. cbn [mbind outcome_bind result_ok unwrap].
    pose proof (Hz2 (get_index up page) (get_index_ok _ _)) as Hz. destruct (Hfb1 a Hfr) as [Hfra Hna].
    rewrite (proj2 (unused_new _) Hz).
    destruct (attach_link limit st2 l up page flags a (offset_base st1 + a1)) as (e & -> & Hatt2); [done|by apply Hfr2|done..|].
    eexists. split; [done|]. split; [done|]. by apply (attached_trans limit st st1 st2 _ l up page a a1).
Qed.

(** ** The mapper acts on [page_view] as on a function *)

(** [traverse] to the first level in terms of the view. *)
Lemma page_view_entry st page t : walk st (path L1 page) = WTable t -> page_view st page = VEntry (rd st t (get_index L1 page)).
Proof. intros Hw. unfold page_view, view. by rewrite Hw. Qed.

Lemma path_L1_length page : length (path L1 page) = 3%nat.
Proof. done. Qed.

(** [st'] maps [page] to [e] and every other page as [st] does. *)
Definition view_updated st st' (page : Z) (e : pte) : Prop :=
  forall p i, path_ok p -> length p = 3%nat -> idx_ok i ->
    view st' p i = if decide ((p, i) = (path L1 page, get_index L1 page)) then VEntry e else view st p i.

Lemma leaf_updated limit st page t e :
  wf limit st -> walk st (path L1 page) = WTable t ->
  wf limit (wr st t (get_index L1 page) e) /\ view_updated st (wr st t (get_index L1 page) e) page e.
Proof.
  intros Hwf Hw. pose proof (path_path_ok L1 page) as Hp. split.
  - apply (wf_same_walks limit st); [done..|]. intros p Hok. by apply (walk_wr_leaf limit st (path L1 page)).
  - intros p i Hok _ _. by apply (leaf_wr_view limit st (path L1 page)).
Qed.

(** The last step of [map_to]: the entry is free and gets the frame. *)
Lemma map_leaf limit st page frame flags t :
  wf limit st -> walk st (path L1 page) = WTable t -> rd st t (get_index L1 page) = pte_new ->
  0 <= frame < 2 ^ 52 -> frame mod PAGE_SIZE = 0 -> valid_flags flags -> contains flags PRESENT = true ->
  exists e, set_addr (rd st t (get_index L1 page)) frame flags = Done e /\
    pte_addr e = frame /\ pte_flags e = flags /\ is_unused e = false /\
    wf limit (wr st t (get_index L1 page) e) /\ view_updated st (wr st t (get_index L1 page) e) page e.
Proof using PTL.
  intros Hwf Hw Hrd Hfr Hal Hvf Hpr.
  destruct (set_addr_aligned (rd st t (get_index L1 page)) frame flags) as (e & He & Hea & Hef & Heu); [done..|].
  exists e. split; [done|]. split; [done|]. split; [done|]. split; [by apply Heu|]. by apply leaf_updated.
Qed.

Lemma map_to_tree limit n st page frame flags parent_flags :
  wf limit st -> fs_room (PHYS_ALLOCATOR st) (3 + n) ->
  0 <= frame < 2 ^ 52 -> frame mod PAGE_SIZE = 0 ->
  valid_flags flags -> contains flags PRESENT = true ->
  valid_flags parent_flags -> contains (Z.lor (Z.lor parent_flags WRITABLE) PRESENT) HUGE_PAGE = false ->
  match page_view st page with
  | VHuge => map_to_4k st page frame flags parent_flags = Done (Err MapParentEntryHugePage, st)
  | VEntry e =>
      if is_unused e then
        exists e' st', map_to_4k st page frame flags parent_flags = Done (Ok tt, st') /\ fs_room (PHYS_ALLOCATOR st') n /\ fs_sub st' st /\ wf limit st' /\
          pte_addr e' = frame /\ pte_flags e' = flags /\ is_unused e' = false /\ view_updated st st' page e' /\
          offset_base st' = offset_base st /\ grown st st'
      else contains (pte_flags e) PRESENT = true -> contains (pte_flags e) HUGE_PAGE = false ->
        map_to_4k st page frame flags parent_flags = Done (Err (PageAlreadyMapped (pte_addr e)), st)
  end.
Proof using FL PFL PTL PL VL.
  intros Hwf Hroom Hfr Hal Hvf Hpr Hvp Hnh. unfold map_to_4k.
  destruct (traverse_ok limit st L1 page Hwf) as (r & -> & Hr). unfold page_view, view.
  destruct (walk st (path L1 page)) as [t| |] eqn:Ew; destruct r as [t'|[| |]]; try done; cbn [tres mbind outcome_bind] in *.
  - subst t'. destruct (is_unused (rd st t (get_index L1 page))) eqn:Eu.
    + apply unused_new in Eu. destruct (map_leaf limit st page frame flags t) as (e & -> & H1 & H2 & H3 & H4 & H5); [done..|].
      exists e, (wr st t (get_index L1 page) e). split; [done|]. split; [apply (fs_room_le _ _ _ Hroom); lia|]. split; [by intros x|].
      do 4 (split; [done|]). split; [done|]. split; [done|].
      intros p x Hp Hx. left. by rewrite (walk_wr_leaf limit st (path L1 page)) in Hx by (done || apply path_path_ok).
    + intros Hp Hh. rewrite frame_present by done. done.
  - rewrite (proj2 (unused_new pte_new) eq_refl).
    destruct (new_table_ok limit st (2 + n) Hwf Hroom) as (a & st1 & -> & Hwf1 & Hfr1 & Hroom1 & Hb1 & Hs1 & Hwk1 & Hv1 & _ & Hfa).
    cbn [mbind outcome_bind fst snd]. rewrite <- Hb1.
    destruct (attach_ok limit 4 L1 st1 page (Z.lor parent_flags WRITABLE) a n) as (st2 & -> & Hroom2 & Hatt); try done.
    { cbn. lia. } { apply valid_flags_lor; [done|apply valid_flags_known]. } { by rewrite Hwk1 by apply path_path_ok. }
    cbn [mbind outcome_bind fst snd result_ok unwrap]. destruct Hatt as (Hwf2 & Hb2 & Hs2 & Hwk2 & Hz2 & Hv2 & _ & Ht2).
    destruct (traverse_ok limit st2 L1 page Hwf2) as (r & -> & Hr2). rewrite Hwk2 in Hr2. destruct r as [t'|]; [|done].
    cbn [tres] in Hr2. subst t'. cbn [mbind outcome_bind result_ok unwrap].
    pose proof (Hz2 (get_index L1 page) (get_index_ok _ _)) as Hz. rewrite (proj2 (unused_new _) Hz).
    destruct (map_leaf limit st2 page frame flags (offset_base st1 + a)) as (e & -> & H1 & H2 & H3 & H4 & H5); [done..|].
    eexists e, _. split; [done|]. split; [done|]. split; [intros x Hx; by apply Hs1, Hs2|]. split; [done|]. split; [done|]. split; [done|]. split; [done|].
    split; [intros p i Hp Hl Hi; by rewrite H5, Hv2, Hv1 by done|]. split; [cbn; congruence|].
    intros p x Hp Hx. rewrite (walk_wr_leaf limit st2 (path L1 page)) in Hx by (done || apply path_path_ok). rewrite Hb1 in *.
    destruct (decide (x = offset_base st + a)) as [->|Hne]; [right; by exists a|].
    destruct (Ht2 p x Hp Hx Hne) as [Hw|(b & -> & Hb)]; [left; by rewrite <- Hwk1|right; exists b; split; [done|by apply Hs1]].
Qed.

Lemma map_to_view limit n st page frame flags parent_flags :
  wf limit st -> fs_room (PHYS_ALLOCATOR st) (3 + n) ->
  0 <= frame < 2 ^ 52 -> frame mod PAGE_SIZE = 0 ->
  valid_flags flags -> contains flags PRESENT = true ->
  valid_flags parent_flags -> contains (Z.lor (Z.lor parent_flags WRITABLE) PRESENT) HUGE_PAGE = false ->
  match page_view st page with
  | VHuge => map_to_4k st page frame flags parent_flags = Done (Err MapParentEntryHugePage, st)
  | VEntry e =>
      if is_unused e then
        exists e' st', map_to_4k st page frame flags parent_flags = Done (Ok tt, st') /\ fs_room (PHYS_ALLOCATOR st') n /\ fs_sub st' st /\ wf limit st' /\
          pte_addr e' = frame /\ pte_flags e' = flags /\ is_unused e' = false /\ view_updated st st' page e'
      else contains (pte_flags e) PRESENT = true -> contains (pte_flags e) HUGE_PAGE = false ->
        map_to_4k st page frame flags parent_flags = Done (Err (PageAlreadyMapped (pte_addr e)), st)
  end.
Proof using FL PFL PTL PL VL.
  intros Hwf Hroom Hfr Hal Hvf Hpr Hvp Hnh. pose proof (map_to_tree limit n st page frame flags parent_flags Hwf Hroom Hfr Hal Hvf Hpr Hvp Hnh) as Hm.
  destruct (page_view st page) as [e|]; [|done]. destruct (is_unused e); [|done].
  destruct Hm as (e' & st' & H1 & H2 & H3 & H4 & H5 & H6 & H7 & H8 & _). by exists e', st'.
Qed.

(** C2. [map_to] for 4 KiB pages implements an update of the function from pages to entries.  If a
    larger page is in the way or the page is in use, the call fails and nothing changes.  Otherwise
    it succeeds, even when all three lower tables have to be made from free frames: the page gets
    exactly the frame and flags that were asked for, every other page of the address space keeps
    its entry, and the tables still form a tree of distinct frames, none of which is free. *)
Theorem map_to_refines limit st page frame flags parent_flags :
  wf limit st -> fs_room (PHYS_ALLOCATOR st) 3 ->
  0 <= frame < 2 ^ 52 -> frame mod PAGE_SIZE = 0 ->
  valid_flags flags -> contains flags PRESENT = true ->
  valid_flags parent_flags -> contains (Z.lor (Z.lor parent_flags WRITABLE) PRESENT) HUGE_PAGE = false ->
  match page_view st page with
  | VHuge => map_to_4k st page frame flags parent_flags = Done (Err MapParentEntryHugePage, st)
  | VEntry e =>
      if is_unused e then
        exists e' st', map_to_4k st page frame flags parent_flags = Done (Ok tt, st') /\ wf limit st' /\
          pte_addr e' = frame /\ pte_flags e' = flags /\ is_unused e' = false /\ view_updated st st' page e'
      else contains (pte_flags e) PRESENT = true -> contains (pte_flags e) HUGE_PAGE = false ->
        map_to_4k st page frame flags parent_flags = Done (Err (PageAlreadyMapped (pte_addr e)), st)
  end.
Proof using FL PFL PTL PL VL.
  intros Hwf Hroom Hfr Hal Hvf Hpr Hvp Hnh.
  pose proof (map_to_view limit 0 st page frame flags parent_flags Hwf Hroom Hfr Hal Hvf Hpr Hvp Hnh) as H.
  destruct (page_view st page) as [e|]; [|done]. destruct (is_unused e); [|done].
  destruct H as (e' & st' & H1 & _ & _ & H2). by exists e', st'.
Qed.

Lemma unmap_view limit st page :
  wf limit st ->
  match page_view st page with
  | VHuge => unmap_4k st page = Done (Err UnmapParentEntryHugePage, st)
  | VEntry e =>
      if is_unused e then unmap_4k st page = Done (Err UnmapPageNotMapped, st)
      else exists st', unmap_4k st page = Done (Ok (pte_addr e), st') /\ wf limit st' /\ view_updated st st' page pte_new
  end.
Proof using PTL VL.
  intros Hwf. unfold unmap_4k. destruct (traverse_ok limit st L1 page Hwf) as (r & -> & Hr). unfold page_view, view.
  destruct (walk st (path L1 page)) as [t| |] eqn:Ew; destruct r as [t'|[| |]]; try done; cbn [tres mbind outcome_bind] in *.
  - subst t'. destruct (is_unused _); [done|]. eexists. split; [done|]. by apply leaf_updated.
  - by rewrite (proj2 (unused_new pte_new) eq_refl).
Qed.

Lemma translate_view limit st page :
  wf limit st ->
  translate_page_4k st page =
    match page_view st page with
    | VHuge => Done (Err TrParentEntryHugePage)
    | VEntry e => if is_unused e then Done (Err TrPageNotMapped)
                  else f ← unwrap (result_ok (pte_frame e)); Done (Ok f)
    end.
Proof using PTL VL.
  intros Hwf. unfold translate_page_4k. change (traverse st L1 page) with (traverse_mut st L1 page).
  destruct (traverse_ok limit st L1 page Hwf) as (r & -> & Hr). unfold page_view, view.
  destruct (walk st (path L1 page)) as [t| |] eqn:Ew; destruct r as [t'|[| |]]; try done; cbn [tres mbind outcome_bind] in *.
  - by subst t'.
  - by rewrite (proj2 (unused_new pte_new) eq_refl).
Qed.

(** Pages of the 48-bit address space are told apart by their indices. *)
Lemma indices_inj page page' :
  page mod PAGE_SIZE = 0 -> page' mod PAGE_SIZE = 0 ->
  path L1 page = path L1 page' -> get_index L1 page = get_index L1 page' -> page mod 2 ^ 48 = page' mod 2 ^ 48.
Proof.
  intros Ha Ha' [= H4 H3 H2] H1. cbn [get_index] in *. apply Z.bits_inj'. intros n Hn.
  destruct (decide (n < 48)); [|by rewrite !Z.mod_pow2_bits_high by lia].
  rewrite !Z.mod_pow2_bits_low by lia. change PAGE_SIZE with (2 ^ 12) in *.
  assert (forall x, x mod 2 ^ 12 = 0 -> n < 12 -> Z.testbit x n = false) as Hlow.
  { intros x Hx Hlt. rewrite <- (Z.mod_pow2_bits_low x 12) by lia. by rewrite Hx, Z.bits_0. }
  destruct (decide (n < 12)); [by rewrite !Hlow|].
  assert (forall k x y, Z.land (Z.shiftr x k) 511 = Z.land (Z.shiftr y k) 511 -> 0 <= k <= n -> n < k + 9 ->
    Z.testbit x n = Z.testbit y n) as Hbit.
  { intros k x y Heq Hk Hlt. assert (Z.testbit (Z.land (Z.shiftr x k) 511) (n - k) = Z.testbit (Z.land (Z.shiftr y k) 511) (n - k)) as Hb
      by by rewrite Heq. change 511 with (Z.ones 9) in Hb. rewrite !Z.land_spec, !Z.shiftr_spec, Z.ones_spec_low, !andb_true_r in Hb by lia.
    by replace (n - k + k) with n in Hb by lia. }
  destruct (decide (n < 21)); [by apply (Hbit 12); [|lia..]|]. destruct (decide (n < 30)); [by apply (Hbit 21); [|lia..]|].
  destruct (decide (n < 39)); [by apply (Hbit 30); [|lia..]|]. by apply (Hbit 39); [|lia..].
Qed.

(** The page that was updated, and the others, as [translate_page] sees them. *)
Lemma updated_translate limit st st' page e page' :
  wf limit st -> wf limit st' -> view_updated st st' page e ->
  page mod PAGE_SIZE = 0 -> page' mod PAGE_SIZE = 0 -> page' mod 2 ^ 48 <> page mod 2 ^ 48 ->
  translate_page_4k st' page' = translate_page_4k st page'.
Proof using PTL VL.
  intros Hwf Hwf' Hv Ha Ha' Hne. rewrite !(translate_view limit) by done. unfold page_view. rewrite Hv.
  - rewrite decide_False; [done|]. intros [Hp Hi]%pair_eq. apply Hne. by apply indices_inj.
  - apply path_path_ok.
  - done.
  - apply get_index_ok.
Qed.

Lemma updated_page st st' page e : view_updated st st' page e -> page_view st' page = VEntry e.
Proof. intros Hv. unfold page_view. rewrite Hv, decide_True; [done..|apply path_path_ok|done|apply get_index_ok]. Qed.

(** [unmap] undoes [map_to]: a page that was just mapped translates to its frame, and unmapping
    it returns that frame and gives every page of the address space the entry it had before. *)
Theorem map_unmap_roundtrip limit st page frame flags parent_flags st1 :
  wf limit st -> fs_room (PHYS_ALLOCATOR st) 3 ->
  0 <= frame < 2 ^ 52 -> frame mod PAGE_SIZE = 0 ->
  valid_flags flags -> contains flags PRESENT = true -> contains flags HUGE_PAGE = false ->
  valid_flags parent_flags -> contains (Z.lor (Z.lor parent_flags WRITABLE) PRESENT) HUGE_PAGE = false ->
  page_view st page = VEntry pte_new ->
  map_to_4k st page frame flags parent_flags = Done (Ok tt, st1) ->
  translate_page_4k st1 page = Done (Ok frame) /\
  (forall page', page mod PAGE_SIZE = 0 -> page' mod PAGE_SIZE = 0 -> page' mod 2 ^ 48 <> page mod 2 ^ 48 ->
     translate_page_4k st1 page' = translate_page_4k st page') /\
  exists st2, unmap_4k st1 page = Done (Ok frame, st2) /\ wf limit st2 /\
    (forall p i, path_ok p -> length p = 3%nat -> idx_ok i -> view st2 p i = view st p i).
Proof using FL PFL PTL PL VL.
  intros Hwf Hroom Hfr Hal Hvf Hpr Hnh Hvp Hnhp Hpv Hmap.
  pose proof (map_to_view limit 0 st page frame flags parent_flags Hwf Hroom Hfr Hal Hvf Hpr Hvp Hnhp) as Hm.
  rewrite Hpv, (proj2 (unused_new pte_new) eq_refl), Hmap in Hm. destruct Hm as (e & st1' & [= <-] & _ & _ & Hwf1 & Hea & Hef & Heu & Hv).
  pose proof (updated_page _ _ _ _ Hv) as Hpv1. split; [|split].
  - rewrite (translate_view limit), Hpv1, Heu by done. rewrite frame_present; [|by rewrite Hef..]. cbn. by rewrite Hea.
  - intros page' Ha Ha' Hne. by apply (updated_translate limit st st1 page e).
  - pose proof (unmap_view limit st1 page Hwf1) as Hu. rewrite Hpv1, Heu, Hea in Hu. destruct Hu as (st2 & Hu & Hwf2 & Hv2).
    exists st2. split; [done|]. split; [done|]. intros p i Hp Hl Hi. rewrite Hv2, Hv by done.
    destruct (decide _) as [[= -> ->]|]; [|done]. done.
Qed.

(** ** Huge pages *)

(** A page of 2 MiB starts at a multiple of its size, so its first-level index is zero. *)
Lemma huge_index page : page mod SIZE Size2MiB = 0 -> get_index L1 page = 0.
Proof.
  intros Hp. cbn [get_index]. apply Z.bits_inj'. intros n Hn. change 511 with (Z.ones 9).
  rewrite Z.land_spec, Z.shiftr_spec, Z.bits_0 by lia. destruct (decide (n < 9)).
  - rewrite <- (Z.mod_pow2_bits_low page 21) by lia. change (2 ^ 21) with (SIZE Size2MiB). by rewrite Hp, Z.bits_0.
  - rewrite Z.ones_spec_high, andb_false_r by lia. done.
Qed.

(** [map_to] for 2 MiB pages writes the wrong entry: the index is computed for the first level, which is
    zero for every aligned page, so the call reports success after writing entry 0 of the table,
    and the page that was to be mapped still translates to nothing. *)
Theorem map_to_2m_wrong_entry limit st page frame flags parent_flags t :
  wf limit st -> walk st (path L2 page) = WTable t -> page mod SIZE Size2MiB = 0 ->
  get_index L2 page <> 0 -> rd st t 0 = pte_new -> rd st t (get_index L2 page) = pte_new ->
  0 <= frame < 2 ^ 52 -> frame mod PAGE_SIZE = 0 -> valid_flags flags -> contains flags PRESENT = true ->
  exists e, map_to_2m st page frame flags parent_flags = Done (Ok tt, wr st t 0 e) /\ pte_addr e = frame /\
    is_unused e = false /\ translate_page_2m (wr st t 0 e) page = Done (Err TrPageNotMapped).
Proof using PTL VL.
  intros Hwf Hw Hal Hi Hz Hu Hfr Hfa Hvf Hpr. pose proof (path_path_ok L2 page) as Hp. unfold map_to_2m.
  destruct (traverse_ok limit st L2 page Hwf) as (r & -> & Hr). rewrite Hw in Hr. destruct r as [t'|]; [|done].
  cbn [tres] in Hr. subst t'. cbn [mbind outcome_bind]. rewrite (huge_index page Hal), Hz.
  rewrite (proj2 (unused_new pte_new) eq_refl).
  destruct (set_addr_aligned pte_new frame flags) as (e & -> & Hea & Hef & Heu); [done..|].
  exists e. split; [done|]. split; [done|]. split; [by apply Heu|].
  assert (forall q, q `prefix_of` path L2 page -> walk (wr st t 0 e) q = walk st q) as Hwalk.
  { intros q Hq. apply (walk_wr limit st (path L2 page)); [done..|by eapply path_ok_prefix|].
    intros Hq'%prefix_length. apply prefix_length in Hq. rewrite length_app in Hq'. cbn in *. lia. }
  unfold translate_page_2m. change (traverse (wr st t 0 e) L2 page) with (traverse_mut (wr st t 0 e) L2 page).
  destruct (traverse_window limit (wr st t 0 e) L2 page) as (r & -> & Hr).
  - destruct (wf_in_window limit st (path L2 page) Hwf Hp) as (H1 & H2 & H3). split; [done|]. split; [done|].
    intros q x Hq. rewrite Hwalk by done. by apply H3.
  - rewrite Hwalk, Hw in Hr by done. destruct r as [t'|]; [|done]. cbn [tres] in Hr. subst t'. cbn [mbind outcome_bind].
    rewrite rd_wr, decide_False, Hu by congruence. by rewrite (proj2 (unused_new pte_new) eq_refl).
Qed.

(** [map_to] for 1 GiB pages panics whenever the third-level table is missing: after attaching
    it the code looks for a second-level table, which a table that was just cleared cannot have. *)
Theorem map_to_1g_panics limit st page frame flags parent_flags :
  wf limit st -> fs_room (PHYS_ALLOCATOR st) 1 -> walk st (path L3 page) = WUnmapped ->
  valid_flags parent_flags -> contains (Z.lor parent_flags PRESENT) HUGE_PAGE = false ->
  map_to_1g st page frame flags parent_flags = Panic.
Proof using FL PFL PTL PL VL.
  intros Hwf Hroom Hw Hvp Hnh. unfold map_to_1g.
  destruct (traverse_ok limit st L3 page Hwf) as (r & -> & Hr). rewrite Hw in Hr. destruct r as [|[| |]]; try done.
  cbn [mbind outcome_bind].
  destruct (new_table_ok limit st 0 Hwf Hroom) as (a & st1 & -> & Hwf1 & Hfr1 & _ & Hb1 & _ & Hwk1 & _).
  cbn [mbind outcome_bind fst snd]. rewrite <- Hb1.
  destruct (attach_ok limit 4 L3 st1 page parent_flags a 0) as (st2 & -> & _ & Hatt); try done.
  { cbn. lia. } { by rewrite Hwk1 by apply path_path_ok. }
  cbn [mbind outcome_bind fst snd result_ok unwrap]. destruct Hatt as (Hwf2 & Hb2 & _ & Hwk2 & Hz2 & _).
  destruct (traverse_ok limit st2 L2 page Hwf2) as (r & -> & Hr2). rewrite path_L2, walk_snoc, Hwk2 in Hr2.
  cbn [wnext] in Hr2. unfold wstep in Hr2. rewrite Hz2, (proj2 (unused_new pte_new) eq_refl) in Hr2 by apply get_index_ok.
  destruct r as [|[| |]]; done.
Qed.

End TableLaws.

(** ** The physical frame allocator as a source of tables *)
Section BuddySource.
Import BuddyFrame.
Context {B : Type} `{BK : Backend B} {BL : BackendLaws B} `{PA : PhysAddrOps} {PL : PhysAddrLaws}.

(** A block of a page size, as [map_page], [allocate_frame] and the copy-on-fault code ask for it. *)
Definition buddy_allocate_frame (m : MemRegion) (s : PageSize) (f : BuddyFrameAlloc (B := B)) :
    outcome (option Z * BuddyFrameAlloc (B := B)) :=
  layout ← unwrap (from_size_align (SIZE s) (SIZE s));
  rc ← frame_allocate f layout m;
  Done (result_ok rc.1, rc.2).

Definition buddy_deallocate_frame (s : PageSize) (frame : Z) (f : BuddyFrameAlloc (B := B)) : outcome (BuddyFrameAlloc (B := B)) :=
  layout ← unwrap (from_size_align (SIZE s) (SIZE s));
  frame_dealloc f frame layout.

(** The regions are in order, and the early allocator has nothing left, as after [drain_map]. *)
#[export] Instance buddy_source : FrameSource (BuddyFrameAlloc (B := B)) := {
  fs_allocate_in := buddy_allocate_frame;
  fs_dealloc := buddy_deallocate_frame;
  fs_inv f := finv f /\ no_size_blocks f /\ PreInit.allocate_frame (MEM_MAP f) = Done (None, MEM_MAP f);
  fs_free f a := a mod PAGE_SIZE = 0 /\ ffree f a;
}.

Lemma frame_allocate_64 f l a f' :
  finv f -> no_size_blocks f -> PreInit.allocate_frame (MEM_MAP f) = Done (None, MEM_MAP f) ->
  PAGE_SIZE <= Z.max (l_size l) (l_align l) <= ORDER_MAX_SIZE -> frame_allocate f l Mem64 = Done (Ok a, f') ->
  finv f' /\ no_size_blocks f' /\ MEM_MAP f' = MEM_MAP f /\ (forall x, ffree f' x -> ffree f x) /\
  dma_post Mem64 (Z.max (l_size l) (l_align l)) f f' (Ok a).
Proof using BL PL.
  intros Hf Hn Hearly Hsz Heq. pose proof Hf as [[H16 B16] [H32 B32] [H64 B64]]. pose proof Hn as (N16 & N32 & N64).
  destruct (region_allocate_ok (mem_64 f) _ H64 N64 Hsz) as (res & r' & Hr & Hr' & Hn' & Hsub & Hres).
  unfold frame_allocate in Heq. rewrite Hr in Heq. cbn [mbind outcome_bind fst snd] in Heq.
  set (f1 := mkFrameAlloc (mem_16 f) (mem_32 f) r' (MEM_MAP f)) in *.
  assert (bounded Mem64 r') as B64' by (intros x Hx; by apply B64, Hsub).
  assert (finv f1 /\ no_size_blocks f1) as [Hf1 Hnf1] by (split; [split; cbn; auto|done]).
  assert (forall x, ffree f1 x -> ffree f x) as Hsub1 by (intros x [Hx|[Hx|Hx]]; [by left|by right; left|right; right; by apply Hsub]).
  destruct res as [a'|].
  - injection Heq as <- <-. split; [done|]. split; [done|]. split; [done|]. split; [done|].
    destruct Hres as (_ & _ & Hal & Hx). split; [done|]. intros x Hin. destruct (Hx x Hin) as [H1 H2].
    pose proof (B64 x H1) as Hb. cbn in Hb. split; [cbn; lia|]. split; [by right; right|].
    intros [H3|[H3|H3]]; cbn in H3; [apply B16 in H3|apply B32 in H3|done]; cbn in H3; lia.
  - destruct (allocate_32_ok f1 l Hf1 Hnf1 Hsz) as (res & f2 & Heq2 & Hf2 & Hn2 & Hsub2 & Hpost).
    assert (MEM_MAP f2 = MEM_MAP f) as Hmm.
    { unfold allocate_32, allocate_16 in Heq2. inv_done. destruct (x.1); inv_done; done. }
    rewrite Heq2 in Heq. cbn [mbind outcome_bind] in Heq. destruct res as [a'|].
    + injection Heq as <- <-. split; [done|]. split; [done|]. split; [done|]. split; [auto|].
      destruct Hpost as [Hal Hx]. split; [done|]. intros x Hin. destruct (Hx x Hin) as (H1 & H2 & H3).
      split; [cbn in *; lia|]. split; [by apply Hsub1|done].
    + rewrite Hmm, Hearly in Heq. done.
Qed.

Lemma allocate_map f l r f' :
  allocate_16 f l = Done (r, f') \/ allocate_32 f l = Done (r, f') -> MEM_MAP f' = MEM_MAP f.
Proof. unfold allocate_32, allocate_16. intros [H|H]; inv_done; [done|]. destruct (x.1); inv_done; done. Qed.

Lemma frame_allocate_any m f l a f' :
  finv f -> no_size_blocks f -> PreInit.allocate_frame (MEM_MAP f) = Done (None, MEM_MAP f) ->
  PAGE_SIZE <= Z.max (l_size l) (l_align l) <= ORDER_MAX_SIZE -> frame_allocate f l m = Done (Ok a, f') ->
  finv f' /\ no_size_blocks f' /\ MEM_MAP f' = MEM_MAP f /\ (forall x, ffree f' x -> ffree f x) /\
  dma_post m (Z.max (l_size l) (l_align l)) f f' (Ok a).
Proof using BL PL.
  intros Hf Hn Hearly Hsz Heq. destruct m; [| |by apply frame_allocate_64].
  - cbn in Heq. destruct (allocate_16_ok f l Hf Hn Hsz) as (res & f1 & Heq1 & H1 & H2 & H3 & H4).
    rewrite Heq1 in Heq. injection Heq as -> <-. pose proof (allocate_map f l _ _ (or_introl Heq1)). auto.
  - cbn in Heq. destruct (allocate_32_ok f l Hf Hn Hsz) as (res & f1 & Heq1 & H1 & H2 & H3 & H4).
    rewrite Heq1 in Heq. injection Heq as -> <-. pose proof (allocate_map f l _ _ (or_intror Heq1)). auto.
Qed.

#[export] Instance buddy_source_laws : FrameSourceLaws (BuddyFrameAlloc (B := B)).
Proof using BL PL.
  split. intros m f a f' (Hf & Hn & Hearly) Heq. cbn in Heq. unfold buddy_allocate_frame in Heq.
  destruct order_max as (k & Hk & Hom).
  assert (PAGE_SIZE <= ORDER_MAX_SIZE) as Hmax by (rewrite Hom; change PAGE_SIZE with (2 ^ 12); apply Z.pow_le_mono_r; lia).
  assert (from_size_align (SIZE Size4KiB) (SIZE Size4KiB) = Some (mkLayout PAGE_SIZE PAGE_SIZE)) as Hl by reflexivity.
  rewrite Hl in Heq. cbn [mbind outcome_bind unwrap] in Heq. apply outcome_bind_Done in Heq as ([[addr|] f''] & Heq & Hret);
    cbn [fst snd result_ok] in Hret; [|done]. injection Hret as -> ->.
  apply frame_allocate_any in Heq as (Hf' & Hn' & Hm & Hsub & Hal & Hpost); [|done..|cbn; lia].
  cbn [l_size l_align] in *. rewrite Z.max_id in *.
  assert (next_power_of_two PAGE_SIZE = PAGE_SIZE) as Hnp by reflexivity. rewrite Hnp in *.
  destruct (Hpost a) as (Hb & Hfree & Hnfree); [unfold in_range, PAGE_SIZE; cbn; lia|].
  assert (0 <= a < 2 ^ 52) as Hr.
  { destruct Hf as [[R16 _] [R32 _] [R64 _]]. destruct Hfree as [H|[H|H]];
      [apply (rinv_phys _ R16)|apply (rinv_phys _ R32)|apply (rinv_phys _ R64)]; done. }
  split; [split; [done|]; split; [done|]; by rewrite Hm|]. split; [done|]. split; [done|]. split; [done|].
  split; [by intros [_ ?]|]. intros x [? ?]. split; [done|by apply Hsub].
Qed.

End BuddySource.

(** ** A concrete machine

    Entries as 64-bit words with the address in bits 12 to 51, canonical 48-bit addresses, and a
    fourth-level table at [0x1000] in a window at [0xffff800000000000]. *)
Module PageTableWitness.
Import BuddyFrame FrameWitness.

Definition ADDR_MASK : Z := 0x000ffffffffff000.

#[export] Instance pte_ops : PteOps := {
  pte := Z;
  pte_new := 0;
  is_unused e := e =? 0;
  pte_flags e := Z.ldiff e ADDR_MASK;
  pte_addr e := Z.land e ADDR_MASK;
  pte_frame e :=
    if contains (Z.ldiff e ADDR_MASK) PRESENT then
      if contains (Z.ldiff e ADDR_MASK) HUGE_PAGE then Err HugeFrame else Ok (Z.land e ADDR_MASK)
    else Err FrameNotPresent;
  set_addr e a f := if a mod PAGE_SIZE =? 0 then Done (Z.lor a f) else Panic;
  set_flags e f := Z.lor (Z.land e ADDR_MASK) f;
  valid_flags f := Z.land f ADDR_MASK = 0;
}.

Lemma addr_mask_bits n : 0 <= n -> Z.testbit ADDR_MASK n = (12 <=? n) && (n <? 52).
Proof.
  intros Hn. change ADDR_MASK with (Z.shiftl (Z.ones 40) 12). rewrite Z.shiftl_spec by lia.
  destruct (Z.leb_spec 12 n); [|by rewrite Z.testbit_neg_r by lia].
  destruct (Z.ltb_spec n 52); [by rewrite Z.ones_spec_low by lia|by rewrite Z.ones_spec_high by lia].
Qed.

Lemma addr_of_aligned a : 0 <= a < 2 ^ 52 -> a mod PAGE_SIZE = 0 -> Z.land a ADDR_MASK = a.
Proof.
  intros Ha Hal. apply Z.bits_inj'. intros n Hn. rewrite Z.land_spec, addr_mask_bits by done.
  destruct (Z.leb_spec 12 n); [destruct (Z.ltb_spec n 52)|]; cbn; rewrite ?andb_true_r, ?andb_false_r; [done|..].
  - symmetry. rewrite <- (Z.mod_small a (2 ^ 52)) by done. apply Z.mod_pow2_bits_high. lia.
  - symmetry. rewrite <- (Z.mod_pow2_bits_low a 12) by lia. change (2 ^ 12) with PAGE_SIZE. by rewrite Hal, Z.bits_0.
Qed.

Lemma addr_in_range e : 0 <= Z.land e ADDR_MASK < 2 ^ 52 /\ Z.land e ADDR_MASK mod PAGE_SIZE = 0.
Proof.
  assert (Z.land e ADDR_MASK = Z.shiftl (Z.land (Z.shiftr e 12) (Z.ones 40)) 12) as ->.
  { apply Z.bits_inj'. intros n Hn. rewrite Z.land_spec, addr_mask_bits, Z.shiftl_spec by done.
    destruct (Z.leb_spec 12 n); [|by rewrite andb_false_r, Z.testbit_neg_r by lia].
    rewrite Z.land_spec, Z.shiftr_spec by lia. replace (n - 12 + 12) with n by lia. f_equal.
    destruct (Z.ltb_spec n 52); [by rewrite Z.ones_spec_low by lia|by rewrite Z.ones_spec_high by lia]. }
  rewrite Z.land_ones, Z.shiftl_mul_pow2 by lia. pose proof (Z.mod_pos_bound (Z.shiftr e 12) (2 ^ 40) ltac:(lia)).
  split; [lia|]. apply Z_mod_mult.
Qed.

Lemma lor_parts a f : Z.land a ADDR_MASK = a -> Z.land f ADDR_MASK = 0 ->
  Z.land (Z.lor a f) ADDR_MASK = a /\ Z.ldiff (Z.lor a f) ADDR_MASK = f.
Proof.
  intros Ha Hf. split.
  - rewrite Z.land_lor_distr_l, Ha, Hf. apply Z.lor_0_r.
  - rewrite <- Ha at 1. apply Z.bits_inj'. intros n Hn. pose proof (f_equal (fun z => Z.testbit z n) Hf) as Hb. cbn in Hb.
    rewrite Z.land_spec, Z.bits_0 in Hb. rewrite Z.ldiff_spec, Z.lor_spec, Z.land_spec.
    destruct (Z.testbit a n), (Z.testbit f n), (Z.testbit ADDR_MASK n); done.
Qed.

#[export] Instance pte_laws : PteLaws.
Proof.
  split; cbn.
  - intros e. apply Z.eqb_eq.
  - done.
  - intros e. apply addr_in_range.
  - intros _ a f Ha Hal Hf. rewrite Hal. cbn. eexists. split; [done|].
    destruct (lor_parts a f (addr_of_aligned a Ha Hal) Hf) as [H1 H2]. split; [done|]. split; [done|].
    intros Hp. apply Z.eqb_neq. intros [-> ->]%Z.lor_eq_0_iff. done.
  - intros e f Hf. apply lor_parts; [|done]. by rewrite <- Z.land_assoc, Z.land_diag.
  - intros e -> ->. done.
  - intros e ->. done.
  - intros f g Hf Hg. by rewrite Z.land_lor_distr_l, Hf, Hg.
  - done.
  - done.
  - intros f g Hf. by rewrite Z.ldiff_land, <- Z.land_assoc, (Z.land_comm (Z.lnot g)), Z.land_assoc, Hf.
Qed.

#[export] Instance frame_ops : PhysFrameOps := { frame_from_start s a := if a mod SIZE s =? 0 then Some a else None }.

#[export] Instance frame_laws : PhysFrameLaws.
Proof. split. intros s a Ha. cbn. by rewrite Ha. Qed.

Definition canonicalb (a : Z) : bool :=
  ((0 <=? a) && (a <? 2 ^ 47)) || ((2 ^ 64 - 2 ^ 47 <=? a) && (a <? 2 ^ 64)).

#[export] Instance virt_ops : VirtAddrOps := {
  virt_new a := if canonicalb a then Done a else Panic;
  virt_add a n := if canonicalb (a + n) then Done (a + n) else Panic;
}.

Lemma canonicalb_true a : canonical a -> canonicalb a = true.
Proof.
  unfold canonicalb. intros [H|H].
  - by rewrite (proj2 (Z.leb_le 0 a)), (proj2 (Z.ltb_lt a (2 ^ 47))) by lia.
  - rewrite (proj2 (Z.leb_le (2 ^ 64 - 2 ^ 47) a)), (proj2 (Z.ltb_lt a (2 ^ 64))) by lia. apply orb_true_r.
Qed.

#[export] Instance virt_laws : VirtAddrLaws.
Proof. split; cbn; intros; by rewrite canonicalb_true. Qed.

Definition BASE : Z := 0xffff800000000000.

(** An empty root; pages 4, 32 and [2^20] of physical memory are free. *)
Definition boot : OffsetPageTable (F := BuddyFrameAlloc (B := gset Z)) := mkPt BASE (BASE + 0x1000) ∅ sample_frames.

Lemma boot_walk p : walk boot p = match p with [] => WTable (BASE + 0x1000) | _ => WUnmapped end.
Proof.
  induction p as [|i p IH] using rev_ind; [done|]. rewrite walk_snoc, IH. destruct p; [|done].
  cbn. unfold wstep, rd. cbn. done.
Qed.

Lemma boot_wf : wf (2 ^ 46) boot.
Proof.
  split.
  - unfold canonical. change (offset_base boot) with 0xffff800000000000. split_and!; [lia..|]. intros a Ha. lia.
  - intros p t _. rewrite boot_walk. destruct p; [|done]. intros [= <-]. cbn. unfold BASE. lia.
  - intros p q t _ _. rewrite !boot_walk. by destruct p, q.
  - intros p a _. rewrite boot_walk. destruct p; [|done]. intros Hf [= Ha]. assert (a = 0x1000) as -> by (cbn in Ha; lia).
    cbn in Hf. destruct Hf as [_ Hf]. destruct Hf as [[_ H]%one_page_free|[[_ H]%one_page_free|[_ H]%one_page_free]]; vm_compute in H; discriminate.
  - split; [split; [exact sample_frames_inv|split; [by repeat split; constructor|reflexivity]]|].
    intros a [_ [H|[H|H]]]; apply one_page_free in H as [H0 H%one_page_range]; lia.
Qed.

Lemma boot_room : fs_room (PHYS_ALLOCATOR boot) 3.
Proof. vm_compute. exact I. Qed.

Lemma map_to_refines_witness :
  exists e' st', map_to_4k boot 0x7000 0x9000 3 3 = Done (Ok tt, st') /\ wf (2 ^ 46) st' /\
    pte_addr e' = 0x9000 /\ pte_flags e' = 3 /\ is_unused e' = false /\ view_updated boot st' 0x7000 e'.
Proof.
  pose proof (map_to_refines (2 ^ 46) boot 0x7000 0x9000 3 3 boot_wf boot_room) as H.
  replace (page_view boot 0x7000) with (VEntry pte_new) in H by reflexivity.
  change (is_unused pte_new) with true in H. cbv match in H. by apply H.
Defined.

(** The tables after mapping one page. *)
Definition mapped : OffsetPageTable :=
  match map_to_4k boot 0x7000 0x9000 3 3 with Done (_, st) => st | Panic => boot end.

Definition returns_ok {A E S} (x : outcome (result A E * S)) : bool :=
  match x with Done (Ok _, _) => true | _ => false end.

Lemma mapped_eq : map_to_4k boot 0x7000 0x9000 3 3 = Done (Ok tt, mapped).
Proof.
  assert (returns_ok (map_to_4k boot 0x7000 0x9000 3 3) = true) as H by (vm_compute; reflexivity).
  unfold mapped. by destruct (map_to_4k _ _ _ _ _) as [[[[]|] st]|].
Qed.

Lemma map_unmap_roundtrip_witness :
  translate_page_4k mapped 0x7000 = Done (Ok 0x9000) /\
  (forall page', 0x7000 mod PAGE_SIZE = 0 -> page' mod PAGE_SIZE = 0 -> page' mod 2 ^ 48 <> 0x7000 mod 2 ^ 48 ->
     translate_page_4k mapped page' = translate_page_4k boot page') /\
  exists st2, unmap_4k mapped 0x7000 = Done (Ok 0x9000, st2) /\ wf (2 ^ 46) st2 /\
    (forall p i, path_ok p -> length p = 3%nat -> idx_ok i -> view st2 p i = view boot p i).
Proof. apply (map_unmap_roundtrip (2 ^ 46) boot 0x7000 0x9000 3 3 mapped boot_wf boot_room).
  1-8: done.
  exact mapped_eq.
Defined.

Lemma map_to_1g_panics_witness : map_to_1g boot 0 0 3 3 = Panic.
Proof.
  apply (map_to_1g_panics (2 ^ 46) boot 0 0 3 3 boot_wf).
  - vm_compute. exact I.
  - rewrite boot_walk. reflexivity.
  - reflexivity.
  - reflexivity.
Defined.

(** A third-level and a second-level table in place, with nothing in them. *)
Definition two_tables : OffsetPageTable :=
  wr (wr boot (BASE + 0x1000) 0 0x2003) (BASE + 0x2000) 0 0x3003.

Lemma two_tables_step t i :
  wstep two_tables t i = if decide ((t, i) = (BASE + 0x2000, 0)) then WTable (BASE + 0x3000)
                         else if decide ((t, i) = (BASE + 0x1000, 0)) then WTable (BASE + 0x2000) else WUnmapped.
Proof. unfold wstep, two_tables. rewrite !rd_wr. destruct (decide _); [done|]. by destruct (decide _). Qed.

Lemma two_tables_walk p t : path_ok p -> walk two_tables p = WTable t ->
  (p, t) ∈ [([], BASE + 0x1000); ([0], BASE + 0x2000); ([0; 0], BASE + 0x3000)].
Proof.
  intros _. revert t. induction p as [|i p IH] using rev_ind; intros t; [intros [= <-]; left|].
  rewrite walk_snoc. destruct (walk two_tables p) as [t'| |]; [|done..]. specialize (IH t' eq_refl). cbn [wnext].
  rewrite two_tables_step. rewrite !elem_of_cons in IH.
  destruct (decide _) as [[= -> ->]|_]; [intros [= <-]|destruct (decide _) as [[= -> ->]|_]; [intros [= <-]|done]].
  - destruct IH as [E|[E|[E|[]%elem_of_nil]]]; [by injection E| |by injection E]. injection E as ->. right; right; left.
  - destruct IH as [E|[E|[E|[]%elem_of_nil]]]; [|by injection E..]. injection E as ->. right; left.
Qed.

Lemma two_tables_wf : wf (2 ^ 46) two_tables.
Proof.
  destruct boot_wf as [H1 _ _ _ [H5 H5']]. split; [done|..].
  - intros p t Hp Hw%two_tables_walk; [|done]. rewrite !elem_of_cons in Hw.
    change (offset_base two_tables) with BASE. destruct Hw as [[= _ ->]|[[= _ ->]|[[= _ ->]|[]%elem_of_nil]]]; lia.
  - intros p q t Hp Hq Hw%two_tables_walk Hw'%two_tables_walk; [|done..]. rewrite !elem_of_cons in Hw, Hw'.
    destruct Hw as [[= -> ->]|[[= -> ->]|[[= -> ->]|[]%elem_of_nil]]];
      destruct Hw' as [E|[E|[E|[]%elem_of_nil]]]; apply pair_eq in E as [-> E]; (done || (vm_compute in E; discriminate E)).
  - intros p a Hp Hf Hw%two_tables_walk; [|done]. change (offset_base two_tables) with BASE in Hw.
    rewrite !elem_of_cons in Hw. assert (a < 0x4000 /\ 0 <= a) as Ha.
    { split; [|exact (proj1 (H5' a Hf))]. destruct Hw as [[= _ E]|[[= _ E]|[[= _ E]|[]%elem_of_nil]]]; lia. }
    destruct Hf as [_ Hf]. destruct Hf as [[_ H%one_page_range]%one_page_free|[[_ H%one_page_range]%one_page_free|[_ H%one_page_range]%one_page_free]]; lia.
  - done.
Qed.

Lemma map_to_2m_wrong_entry_witness :
  exists e, map_to_2m two_tables 0x600000 0x800000 131 3 = Done (Ok tt, wr two_tables (BASE + 0x3000) 0 e) /\
    pte_addr e = 0x800000 /\ is_unused e = false /\
    translate_page_2m (wr two_tables (BASE + 0x3000) 0 e) 0x600000 = Done (Err TrPageNotMapped).
Proof.
  apply (map_to_2m_wrong_entry (2 ^ 46) two_tables 0x600000 0x800000 131 3 (BASE + 0x3000) two_tables_wf); done.
Defined.

End PageTableWitness.
