(* ===== verification/TlbEntry.v ===== *)
(** * Regions to invalidate

    The data half of [kernel/src/mem/tlb.rs]: [TlbDropEntry] and its 8-byte form
    [CompressedTlbDropEntry], [ShootdownContent] with the conversions into it, and what
    [invalidate] makes the CPU do.  Invalidating is a list of instructions ([Invlpg] for
    [tlb::flush], [ReloadCr3] for the [cr3] reload) that may end in a panic ([Abort]), so that the
    protocol of [Tlb] can run it one instruction at a time.  An entry's address is a
    [Page<Size4KiB>] in every variant, and [u32] arithmetic wraps. *)
From stdpp Require Import prelude.
From S2P Require Import Prelude FrameAlloc PageTable.
Open Scope Z_scope.

Inductive TlbDropEntry :=
| Kib4 (addr count : Z)
| Mib2 (addr count : Z)
| Gib1 (addr count : Z).

Definition CompressedTlbDropEntry : Type := Z.

Inductive ShootdownContent :=
| CNone
| CShort (t : TlbDropEntry)
| CIter (start end_ : Z)
| CLong (l : list CompressedTlbDropEntry)
| CFullContext.

Inductive Flush :=
| Invlpg (addr : Z)
| ReloadCr3
| Abort.

#[global] Instance TlbDropEntry_eq_dec : EqDecision TlbDropEntry.
Proof. solve_decision. Defined.
#[global] Instance ShootdownContent_eq_dec : EqDecision ShootdownContent.
Proof. solve_decision. Defined.
#[global] Instance Flush_eq_dec : EqDecision Flush.
Proof. solve_decision. Defined.

Definition entry_addr (e : TlbDropEntry) : Z := match e with Kib4 a _ | Mib2 a _ | Gib1 a _ => a end.
Definition entry_count (e : TlbDropEntry) : Z := match e with Kib4 _ c | Mib2 _ c | Gib1 _ c => c end.
(** The size of the pages the variant stands for. *)
Definition entry_size (e : TlbDropEntry) : PageSize :=
  match e with Kib4 _ _ => Size4KiB | Mib2 _ _ => Size2MiB | Gib1 _ _ => Size1GiB end.

Section Entries.
Context `{VA : VirtAddrOps}.

(** [Page<S> + n]. *)
Definition page_add (s : PageSize) (page n : Z) : outcome Z := a ← virt_add page (n ⊗ SIZE s)%u64; Done (containing_address s a).

(** The loop of [flush]: the page is advanced after every flush, the last one included. *)
Fixpoint flush_loop (n : nat) (addr : Z) : list Flush :=
  match n with
  | O => []
  | S n => Invlpg addr :: match page_add Size4KiB addr 1 with Done addr => flush_loop n addr | Panic => [Abort] end
  end.

Definition flush (e : TlbDropEntry) : list Flush :=
  match e with
  | Kib4 addr count => flush_loop (Z.to_nat count) addr
  | Mib2 addr count => flush_loop (Z.to_nat count) addr
  | Gib1 addr count => flush_loop (Z.to_nat count) addr
  end.

(** [u32::checked_add]. *)
Definition checked_add32 (a b : Z) : option Z := if a + b <? 2 ^ 32 then Some (a + b) else None.

(** [append]: the returned option and [self] afterwards. *)
Definition append (self other : TlbDropEntry) : outcome (option TlbDropEntry * TlbDropEntry) :=
  let merge (variant : Z -> Z -> TlbDropEntry) addr count op oc :=
    p ← page_add Size4KiB addr count;
    p ← page_add Size4KiB p 1;
    if p =? op then
      match checked_add32 count oc with
      | None => Done (None, variant addr count)
      | Some c => Done (None, variant addr c)
      end
    else Done (None, variant addr count) in
  match self, other with
  | Kib4 addr count, Kib4 op oc => merge Kib4 addr count op oc
  | Mib2 addr count, Mib2 op oc => merge Mib2 addr count op oc
  | Gib1 addr count, Gib1 op oc => merge Gib1 addr count op oc
  | _, _ => Done (None, self)
  end.

(** [From<CompressedTlbDropEntry> for TlbDropEntry]; [<<] binds tighter than [&]. *)
Definition decompress (raw : CompressedTlbDropEntry) : outcome TlbDropEntry :=
  let page bits := virt_new (Z.land raw (wnot (Z.shiftl 1 bits - 1))) in
  let count bits := Z.shiftr (Z.land raw (Z.shiftl (Z.shiftl 1 bits - 1) 2)) 2 mod 2 ^ 32 in
  match Z.land raw 3 with
  | 0 => p ← page 13; Done (Kib4 p (count 11))
  | 1 => p ← page 22; Done (Mib2 p (count 20))
  | 2 => p ← page 31; Done (Gib1 p (count 29))
  | _ => Panic
  end.

(** [TryInto<CompressedTlbDropEntry>]: on [Err] the compressed part and what is left. *)
Definition try_into (e : TlbDropEntry) : outcome (result CompressedTlbDropEntry (CompressedTlbDropEntry * TlbDropEntry)) :=
  let rest_count count := Z.shiftr ((count + 0x1000) mod 2 ^ 32) 2 in
  let fits addr count := Z.land addr (wshl (count ⊖ 1) 2)%u64 in
  match e with
  | Kib4 addr count =>
      if 0x1000 / 4 <? count then
        p ← page_add Size4KiB addr (0x1000 / 4); Done (Err (addr, Kib4 p (rest_count count)))
      else Done (Ok (fits addr count))
  | Mib2 addr count =>
      if 0x200000 / 4 <? count then
        p ← page_add Size4KiB addr (0x200000 / 4); Done (Err (addr, Kib4 p (rest_count count)))
      else Done (Ok (fits addr count))
  | Gib1 addr count =>
      if 0x10000000 / 4 <? count then
        p ← page_add Size4KiB addr (0x10000000 / 4); Done (Err (addr, Kib4 p (rest_count count)))
      else Done (Ok (fits addr count))
  end.

(** [From<Page<S>> for TlbDropEntry] and for [ShootdownContent]. *)
Definition from_page (s : PageSize) (page : Z) : TlbDropEntry :=
  match s with Size4KiB => Kib4 page 1 | Size2MiB => Mib2 page 1 | Size1GiB => Gib1 page 1 end.

Definition content_of_page (s : PageSize) (page : Z) : ShootdownContent := CShort (from_page s page).

(** [From<PageRangeInclusive<S>> for ShootdownContent], on the pages of the range. *)
Definition content_of_range (s : PageSize) (pages : list Z) : outcome ShootdownContent :=
  let len := Z.of_nat (length pages) in
  start ← unwrap (head pages);
  past ← page_add s start len;
  end_ ← virt_add past PAGE_SIZE;
  Done (CIter start end_).

(** [for i in (start..end).step_by(PAGE_SIZE)]. *)
Fixpoint iter_loop (n : nat) (i : Z) : list Flush :=
  match n with
  | O => []
  | S n => match virt_new i with Done a => Invlpg a :: iter_loop n (i + PAGE_SIZE) | Panic => [Abort] end
  end.

Fixpoint long_loop (l : list CompressedTlbDropEntry) : list Flush :=
  match l with
  | [] => []
  | i :: l => match decompress i with Done u => flush u ++ long_loop l | Panic => [Abort] end
  end.

Definition invalidate (c : ShootdownContent) : list Flush :=
  match c with
  | CNone => []
  | CShort t => flush t
  | CIter start end_ => iter_loop (Z.to_nat ((end_ - start + PAGE_SIZE - 1) / PAGE_SIZE)) start
  | CLong l => long_loop l
  | CFullContext => [ReloadCr3]
  end.

End Entries.

(** ** Addresses *)

(** The bytes of a region are canonical addresses: the region does not reach into the hole. *)
Definition span (a size : Z) : Prop := 0 <= a /\ a + size <= 2 ^ 47 \/ 2 ^ 64 - 2 ^ 47 <= a /\ a + size <= 2 ^ 64.

Lemma span_shrink a size size' : span a size -> size' <= size -> span a size'.
Proof. unfold span. lia. Qed.

Lemma span_canonical a size x : span a size -> a <= x < a + size -> canonical x.
Proof. unfold span, canonical. lia. Qed.

Lemma containing_aligned a : a mod 4096 = 0 -> containing_address Size4KiB a = a.
Proof. intros Ha. unfold containing_address. cbn [SIZE]. rewrite Ha. lia. Qed.

(** [n] consecutive pages of a size. *)
Definition pages_of (s : PageSize) (a : Z) (n : nat) : list Z := (fun i => a + SIZE s * Z.of_nat i) <$> seq 0 n.

Abbreviation pages_from := (pages_of Size4KiB).

Section Laws.
Context `{VA : VirtAddrOps} {VL : VirtAddrLaws}.

Lemma SIZE_pos s : 4096 <= SIZE s /\ SIZE s mod 4096 = 0.
Proof. by destruct s. Qed.

Lemma page_add_ok s page n :
  page mod SIZE s = 0 -> 0 <= n -> canonical page -> canonical (page + SIZE s * n) -> page_add s page n = Done (page + SIZE s * n).
Proof using VL.
  intros Hp Hn Hc Hc'. pose proof (SIZE_pos s) as [Hs _]. unfold page_add, wmul, wrap64.
  rewrite Z.mod_small by (unfold canonical in *; nia). rewrite virt_add_valid by (done || (replace (page + n * SIZE s) with (page + SIZE s * n) by lia; done) || nia).
  cbn [mbind outcome_bind]. unfold containing_address. rewrite Z.add_mod, Hp, Z.mod_mul, Z.add_0_l, Z.mod_0_l by lia. f_equal. lia.
Qed.

(** *** Converting a range *)

Lemma content_of_pages s a n :
  a mod SIZE s = 0 -> span a (SIZE s * Z.of_nat (S n) + PAGE_SIZE + 1) ->
  content_of_range s (pages_of s a (S n)) = Done (CIter a (a + SIZE s * Z.of_nat (S n) + PAGE_SIZE)).
Proof using VL.
  intros Ha Hsp. pose proof (SIZE_pos s) as [Hs _]. unfold content_of_range, pages_of. rewrite length_fmap, length_seq.
  cbn [seq fmap list_fmap head unwrap mbind outcome_bind]. rewrite Z.mul_0_r, Z.add_0_r.
  rewrite page_add_ok; [|done|lia|eapply span_canonical; [done|unfold PAGE_SIZE; nia]..].
  cbn [mbind outcome_bind]. rewrite virt_add_valid; [done|eapply span_canonical; [done|unfold PAGE_SIZE; nia]|done|].
  eapply span_canonical; [done|unfold PAGE_SIZE; nia].
Qed.

Lemma content_of_empty s : content_of_range s [] = Panic.
Proof. done. Qed.

Lemma iter_loop_ok n i : span i (4096 * Z.of_nat n) -> iter_loop n i = Invlpg <$> pages_from i n.
Proof using VL.
  revert i. induction n as [|n IH]; intros i Hs; [done|]. unfold pages_of. cbn [iter_loop seq fmap list_fmap].
  rewrite virt_new_valid by (eapply span_canonical; [exact Hs|lia]). rewrite Z.mul_0_r, Z.add_0_r. f_equal.
  rewrite IH by (unfold span, PAGE_SIZE in *; lia). unfold pages_of. rewrite <- seq_shift, <- !list_fmap_compose.
  apply list_fmap_ext. intros _ j _. cbn. f_equal. unfold PAGE_SIZE. lia.
Qed.

Lemma invalidate_range s a n :
  a mod SIZE s = 0 -> span a (SIZE s * Z.of_nat (S n) + 4097) ->
  exists c, content_of_range s (pages_of s a (S n)) = Done c /\
    invalidate c = Invlpg <$> pages_from a (Z.to_nat (SIZE s / 4096) * S n + 1).
Proof using VL.
  intros Ha Hsp. pose proof (SIZE_pos s) as [Hs Hm]. eexists. split; [apply content_of_pages; [done|]|].
  { by rewrite <- Z.add_assoc. }
  assert (SIZE s = 4096 * (SIZE s / 4096)) as Hd by (by destruct s). unfold invalidate.
  replace (Z.to_nat _) with (Z.to_nat (SIZE s / 4096) * S n + 1)%nat; [apply iter_loop_ok|].
  - unfold span in *. nia.
  - unfold PAGE_SIZE. replace (a + SIZE s * Z.of_nat (S n) + 4096 - a + 4096 - 1) with ((SIZE s / 4096 * Z.of_nat (S n) + 1) * 4096 + 4095) by nia.
    rewrite Z.div_add_l by lia. change (4095 / 4096) with 0. rewrite Z.add_0_r. nia.
Qed.

(** *** Flushing an entry *)

Lemma flush_loop_ok n a : a mod 4096 = 0 -> span a (4096 * Z.of_nat n + 1) -> flush_loop n a = Invlpg <$> pages_from a n.
Proof using VL.
  revert a. induction n as [|n IH]; intros a Ha Hs; [done|]. unfold pages_of. cbn [flush_loop seq fmap list_fmap].
  rewrite Z.mul_0_r, Z.add_0_r. f_equal.
  rewrite page_add_ok; [|done|lia|eapply span_canonical; [exact Hs|cbn [SIZE]; lia]..]. cbn [SIZE]. rewrite Z.mul_1_r.
  rewrite IH.
  - unfold pages_of. rewrite <- seq_shift, <- !list_fmap_compose. apply list_fmap_ext. intros _ j _. cbn. f_equal. lia.
  - by rewrite Z.add_mod, Ha by lia.
  - unfold span in *. lia.
Qed.

(** Pages of 2 MiB and 1 GiB are stepped over 4 KiB at a time: of a region of several such pages
    only the beginning of the first one is flushed. *)
Lemma flush_huge_short a n :
  a mod 0x200000 = 0 -> (0 < n <= 512)%nat -> span a (4096 * Z.of_nat n + 1) ->
  forall x, Invlpg x ∈ flush (Mib2 a (Z.of_nat n)) -> a <= x < a + 0x200000.
Proof using VL.
  intros Ha Hn Hs x. cbn [flush]. rewrite Nat2Z.id, flush_loop_ok; [|by rewrite <- (Z.mod_mod_divide a 0x200000 4096), Ha by (by exists 512)|done].
  unfold pages_of. rewrite <- list_fmap_compose, list_elem_of_fmap. intros (i & [= ->] & Hi). apply elem_of_seq in Hi. cbn [SIZE]. lia.
Qed.

(** *** The compressed form *)

Definition compress_limit (e : TlbDropEntry) : Z :=
  match e with Kib4 _ _ => 0x1000 / 4 | Mib2 _ _ => 0x200000 / 4 | Gib1 _ _ => 0x10000000 / 4 end.

Lemma land_disjoint a m k : 0 <= k -> a mod 2 ^ k = 0 -> 0 <= m < 2 ^ k -> Z.land a m = 0.
Proof.
  intros Hk Ha Hm. rewrite <- (Z.mod_small m (2 ^ k)), <- land_mask by done.
  rewrite (Z.land_comm m), Z.land_assoc, land_mask, Ha by done. done.
Qed.

Lemma try_into_zero e :
  entry_addr e mod SIZE (entry_size e) = 0 -> 1 <= entry_count e <= compress_limit e -> try_into e = Done (Ok 0).
Proof.
  assert (forall a c k, 2 <= k <= 30 -> a mod 2 ^ k = 0 -> 1 <= c <= 2 ^ (k - 2) -> Z.land a (wshl (c ⊖ 1)%u64 2) = 0) as H.
  { intros a c k Hk Ha Hc. apply (land_disjoint _ _ k); [lia|done|]. assert (2 ^ k = 4 * 2 ^ (k - 2)) as Hp.
    { replace k with (2 + (k - 2)) at 1 by lia. rewrite Z.pow_add_r by lia. done. }
    assert (2 ^ (k - 2) <= 2 ^ 28) by (apply Z.pow_le_mono_r; lia).
    rewrite wsub_small by lia. unfold wshl, wrap64. change (2 mod 64) with 2. rewrite Z.shiftl_mul_pow2 by lia. rewrite Z.mod_small by lia. lia. }
  destruct e as [a c|a c|a c]; cbn [entry_addr entry_size entry_count compress_limit SIZE try_into]; intros Ha Hc.
  - rewrite (proj2 (Z.ltb_ge _ _)) by lia. do 2 f_equal. apply (H _ _ 12); [lia|done|exact Hc].
  - rewrite (proj2 (Z.ltb_ge _ _)) by lia. do 2 f_equal. apply (H _ _ 21); [lia|done|exact Hc].
  - rewrite (proj2 (Z.ltb_ge _ _)) by lia. do 2 f_equal. apply (H _ _ 30); [lia|done|].
    change (0x10000000 / 4) with (2 ^ 26) in Hc. change (2 ^ (30 - 2)) with (2 ^ 28). lia.
Qed.

(** Compressing a region of pages loses it.  The length is masked into the address where it
    should have been added, so every region that fits compresses to the same word zero, and a
    shootdown of any list of such words invalidates nothing. *)
Theorem compressed_flushes_nothing (es : list TlbDropEntry) (raws : list CompressedTlbDropEntry) :
  Forall (fun e => entry_addr e mod SIZE (entry_size e) = 0 /\ 1 <= entry_count e <= compress_limit e) es ->
  Forall2 (fun e raw => try_into e = Done (Ok raw)) es raws ->
  invalidate (CLong raws) = [].
Proof using VL.
  intros Hes Hf. cbn [invalidate]. induction Hf as [|e raw es raws He Hf IH]; [done|].
  apply Forall_cons in Hes as [[Ha Hc] Hes]. rewrite try_into_zero in He by done. injection He as <-.
  cbn [long_loop]. unfold decompress. rewrite !Z.land_0_l, virt_new_valid by (left; lia). cbn. by apply IH.
Qed.

(** *** Joining regions *)

Lemma append_4k a c op oc :
  a mod 4096 = 0 -> 0 <= c -> span a (4096 * (c + 1) + 1) ->
  append (Kib4 a c) (Kib4 op oc) =
    Done (None, if (a + 4096 * (c + 1) =? op) && (c + oc <? 2 ^ 32) then Kib4 a (c + oc) else Kib4 a c).
Proof using VL.
  intros Ha Hc Hs. cbn [append].
  rewrite page_add_ok; [|done|lia|eapply span_canonical; [exact Hs|cbn [SIZE]; lia]..]. cbn [mbind outcome_bind SIZE].
  rewrite page_add_ok; [|cbn [SIZE]; by rewrite Z.add_mod, Ha, Z.mul_comm, Z.mod_mul|lia|eapply span_canonical; [exact Hs|cbn [SIZE]; lia]..].
  cbn [mbind outcome_bind SIZE]. replace (a + 4096 * c + 4096 * 1) with (a + 4096 * (c + 1)) by lia.
  unfold checked_add32. by destruct (_ =? op), (_ <? _).
Qed.

(** Appending a region to another one never covers all of it: the regions are compared one page
    too far.  A region that follows [self] directly is left out altogether, one that starts a page
    later is merged but the result ends a page early; in both cases [append] answers [None], and
    the last page of the appended region is flushed by neither. *)
Theorem append_loses_pages (a c op oc : Z) :
  a mod 4096 = 0 -> op mod 4096 = 0 -> 0 <= c -> 0 < oc -> c + oc < 2 ^ 32 ->
  a + 4096 * c <= op -> span a (4096 * (c + oc + 1) + 1) ->
  exists self', append (Kib4 a c) (Kib4 op oc) = Done (None, self') /\
    Invlpg (op + 4096 * (oc - 1)) ∉ flush self'.
Proof using VL.
  intros Ha Hop Hc Hoc Hlt Hle Hs. eexists. split; [apply append_4k; [done|done|unfold span in *; lia]|].
  assert (forall d, 0 <= d <= c + oc -> a + 4096 * d <= op + 4096 * (oc - 1) -> Invlpg (op + 4096 * (oc - 1)) ∉ flush (Kib4 a d)) as H.
  { intros d Hd Hend. cbn [flush]. rewrite flush_loop_ok by (done || (unfold span in *; rewrite Z2Nat.id by lia; lia)).
    unfold pages_of. rewrite <- list_fmap_compose, list_elem_of_fmap. intros (i & [= Hx] & Hi). apply elem_of_seq in Hi. cbn [SIZE] in *. lia. }
  destruct (Z.eqb_spec (a + 4096 * (c + 1)) op) as [E|E]; cbn [andb]; [rewrite (proj2 (Z.ltb_lt _ _)) by done|]; apply H; lia.
Qed.

End Laws.

Module TlbEntryWitness.
Import PageTableWitness.

Lemma compressed_flushes_nothing_witness : invalidate (CLong [0; 0]) = [].
Proof.
  apply (compressed_flushes_nothing [Kib4 0xffff800000005000 3; Mib2 0xffff800000200000 1]).
  - repeat constructor; vm_compute; done.
  - repeat constructor.
Defined.

Lemma append_loses_pages_witness :
  exists self', append (Kib4 0x5000 2) (Kib4 0x7000 3) = Done (None, self') /\ Invlpg (0x7000 + 4096 * (3 - 1)) ∉ flush self'.
Proof. apply append_loses_pages; try (vm_compute; done). left. lia. Defined.

(** A range of two pages invalidates three. *)
Example range_one_more :
  (c ← content_of_range Size4KiB [0x5000; 0x6000]; Done (invalidate c)) = Done [Invlpg 0x5000; Invlpg 0x6000; Invlpg 0x7000].
Proof. reflexivity. Qed.

(** Flushing the last page of the lower half panics: the page is advanced into the hole. *)
Example flush_last_page : flush (from_page Size4KiB 0x7ffffffff000) = [Invlpg 0x7ffffffff000; Abort].
Proof. reflexivity. Qed.

End TlbEntryWitness.
