(* ===== verification/MemMap.v ===== *)
(** * Memory maps

    [kernel/src/mem/mem_map.rs]: the functions the rest of the kernel calls to map, unmap,
    translate and re-flag memory, over the static [MEMORY_MAP].  TLB invalidation has no effect on
    the tables and is left out here. *)
From stdpp Require Import prelude gmap.
From S2P Require Import Prelude Ranges HighOrder FrameAlloc PageTable TlbEntry.
Open Scope Z_scope.

(** [Mapper::map_to] of the [x86_64] crate derives the flags of new parent tables from those of the
    page. *)
Class MapperDefaults := { parent_flags : Z -> Z }.

Class MapperDefaultsLaws `{PteOps} `{MapperDefaults} := {
  parent_flags_valid : forall f, valid_flags f -> valid_flags (parent_flags f);
  parent_flags_table : forall f, contains (Z.lor (Z.lor (parent_flags f) WRITABLE) PRESENT) HUGE_PAGE = false;
}.

(** Flags of normal data and of memory-mapped devices. *)
Definition PROGRAM_DATA_FLAGS : Z := Z.lor (Z.shiftl 1 63) 3.
Definition MMIO_FLAGS : Z := Z.lor (Z.shiftl 1 63) 19.

Inductive UpdateFlagsErr :=
| UpdPageNotMapped (page : Z)
| UpdParentHugePage (page : Z)
| InvalidAddress.

(** The pages of [PageRangeInclusive]: from the first to the last, both included. *)
Definition range_inclusive (s : PageSize) (a b : Z) : list Z :=
  (fun i => a + SIZE s * Z.of_nat i) <$> seq 0 (Z.to_nat ((b - a) / SIZE s + 1)).

Section MemMap.
Context {F : Type} `{FS : FrameSource F} `{PF : PhysFrameOps} `{PO : PteOps} `{PA : PhysAddrOps} `{VA : VirtAddrOps} `{MD : MapperDefaults}.

(** The static [MEMORY_MAP]. *)
Definition MemoryMap : Type := option (OffsetPageTable (F := F)).

Definition map_to (s : PageSize) (st : OffsetPageTable (F := F)) (page frame flags : Z) :
    outcome (result unit MapToError * OffsetPageTable) :=
  match s with
  | Size4KiB => map_to_4k st page frame flags (parent_flags flags)
  | Size2MiB => map_to_2m st page frame flags (parent_flags flags)
  | Size1GiB => map_to_1g st page frame flags (parent_flags flags)
  end.

Definition unmap (s : PageSize) (st : OffsetPageTable (F := F)) (page : Z) : outcome (result Z UnmapError * OffsetPageTable) :=
  match s with Size4KiB => unmap_4k st page | Size2MiB => unmap_2m st page | Size1GiB => unmap_1g st page end.

Definition translate_page (s : PageSize) (st : OffsetPageTable (F := F)) (page : Z) : outcome (result Z TranslateError) :=
  match s with
  | Size4KiB => translate_page_4k st page
  | Size2MiB => translate_page_2m st page
  | Size1GiB => translate_page_1g st page
  end.

(** The frame of one page: [b.allocate(..).expect(..)] and [PhysFrame::from_start_address]. *)
Definition take_frame (s : PageSize) (st : OffsetPageTable (F := F)) : outcome (Z * OffsetPageTable) :=
  r ← fs_allocate s (PHYS_ALLOCATOR st);
  frame ← unwrap r.1;
  Done (frame, mkPt (offset_base st) (l4_table st) (mem st) r.2).

Fixpoint map_range (mm : MemoryMap) (s : PageSize) (pages : list Z) (flags : Z) : outcome MemoryMap :=
  match pages with
  | [] => Done mm
  | page :: pages =>
      st ← unwrap mm;
      f ← take_frame s st;
      r ← map_to s f.2 page f.1 flags;
      match r with
      | (Ok _, st) => map_range (Some st) s pages flags
      | (Err _, _) => Panic
      end
  end.

Definition map_page (mm : MemoryMap) (s : PageSize) (page flags : Z) : outcome MemoryMap :=
  st ← unwrap mm;
  f ← take_frame s st;
  r ← map_to s f.2 page f.1 (Z.lor flags PRESENT);
  match r with
  | (Ok _, st) => Done (Some st)
  | (Err _, _) => Panic
  end.

(** ** Unmapping *)

(** The loop of [unmap_range]: it ends at the first page without a table. *)
Fixpoint unmap_loop (s : PageSize) (st : OffsetPageTable (F := F)) (pages : list Z) (start_addr end_addr : option Z) :
    outcome (OffsetPageTable (F := F) * option Z * option Z) :=
  match pages with
  | [] => Done (st, start_addr, end_addr)
  | page :: pages =>
      let start_addr := match start_addr with None => Some page | Some _ => start_addr end in
      e ← get_entry_ref st s page;
      match e with
      | Err _ => Done (st, start_addr, end_addr)
      | Ok (t, i) => unmap_loop s (wr st t i (set_flags (rd st t i) 0)) pages start_addr (Some page)
      end
  end.

(** [UnmappedPageIter]: the pages it was made for and the ones it has not returned yet. *)
Record UnmappedPageIter := mkIter { iter_size : PageSize; initial : list Z; iter_range : list Z }.

(** The shootdown itself is a step of [Tlb]; its argument, [range.into()], is evaluated here. *)
Definition unmap_range (mm : MemoryMap) (s : PageSize) (pages : list Z) : outcome (UnmappedPageIter * MemoryMap) :=
  match pages, mm with
  | [], _ =>
      let range := range_inclusive s (containing_address s 0) (containing_address s 0) in
      _ ← content_of_range s range;
      Done (mkIter s range range, mm)
  | _, None => Panic
  | pages, Some st =>
      r ← unmap_loop s st pages None None;
      let '(st, start_addr, end_addr) := r in
      let range := range_inclusive s (default (containing_address s 0) start_addr)
                                     (default (containing_address s 0) end_addr) in
      _ ← content_of_range s range;
      Done (mkIter s range range, Some st)
  end.

Definition next_page (mm : MemoryMap) (it : UnmappedPageIter) : outcome (option (Z * Z) * UnmappedPageIter) :=
  match iter_range it with
  | [] => Done (None, it)
  | page :: range =>
      st ← unwrap mm;
      e ← get_entry_ref st (iter_size it) page;
      ti ← unwrap (result_ok e);
      Done (Some ti, mkIter (iter_size it) (initial it) range)
  end.

Definition reload (it : UnmappedPageIter) : UnmappedPageIter := mkIter (iter_size it) (initial it) (initial it).

(** [clear]: one turn per page that is left. *)
Fixpoint clear_loop (fuel : nat) (mm : MemoryMap) (it : UnmappedPageIter) : outcome MemoryMap :=
  match fuel with
  | O => Panic
  | S fuel =>
      n ← next_page mm it;
      match n with
      | (None, _) => Done mm
      | (Some (t, i), it) =>
          st ← unwrap mm;
          clear_loop fuel (Some (wr st t i pte_new)) it
      end
  end.

Definition clear (mm : MemoryMap) (it : UnmappedPageIter) : outcome MemoryMap :=
  clear_loop (S (length (iter_range it))) mm it.

Definition clear_all (mm : MemoryMap) (it : UnmappedPageIter) : outcome MemoryMap := clear mm (reload it).

Definition unmap_page (mm : MemoryMap) (s : PageSize) (page : Z) : outcome (Z * MemoryMap) :=
  st ← unwrap mm;
  r ← unmap s st page;
  match r with
  | (Ok f, st) => Done (f, Some st)
  | (Err _, _) => Panic
  end.

(** ** Lookup *)
Definition map_get_entry (mm : MemoryMap) (s : PageSize) (page : Z) : outcome (result pte GetEntryErr) :=
  st ← unwrap mm; get_entry st (from_page_size s) page.

Definition translate (mm : MemoryMap) (addr : Z) : outcome (option Z) :=
  addr ← virt_new addr;
  st ← unwrap mm;
  r ← translate_page Size4KiB st (containing_address Size4KiB addr);
  match r with
  | Err TrParentEntryHugePage =>
      r ← translate_page Size2MiB st (containing_address Size2MiB addr);
      match r with
      | Err TrParentEntryHugePage =>
          r ← translate_page Size1GiB st (containing_address Size1GiB addr);
          Done ((fun f => f ⊕ Z.land addr (0x40000000 - 1))%u64 <$> result_ok r)
      | r => Done ((fun f => f ⊕ Z.land addr (0x200000 - 1))%u64 <$> result_ok r)
      end
  | r => Done ((fun f => f ⊕ Z.land addr (0x1000 - 1))%u64 <$> result_ok r)
  end.

(** ** Flags *)
Definition map_set_flags (mm : MemoryMap) (s : PageSize) (page flags : Z) : outcome (result unit UpdateFlagsErr * MemoryMap) :=
  st ← unwrap mm;
  e ← get_entry_ref st s page;
  match e with
  | Err TrPageNotMapped => Done (Err (UpdPageNotMapped page), Some st)
  | Err TrParentEntryHugePage => Done (Err (UpdParentHugePage page), Some st)
  | Err (TrInvalidFrameAddress _) => Panic
  | Ok (t, i) =>
      let entry := rd st t i in
      if contains (pte_flags entry) PRESENT then
        let st := wr st t i (set_flags entry 0) in
        let nflag := if bool_decide (s <> Size4KiB) then Z.lor flags HUGE_PAGE else flags in
        e ← get_entry_ref st s page;
        ti ← unwrap (result_ok e);
        let '(t, i) := ti in
        Done (Ok tt, Some (wr st t i (set_flags (rd st t i) nflag)))
      else Done (Ok tt, Some (wr st t i (set_flags entry flags)))
  end.

Fixpoint set_flags_iter (mm : MemoryMap) (s : PageSize) (pages : list Z) (flags : Z) :
    outcome (result unit UpdateFlagsErr * MemoryMap) :=
  match pages with
  | [] => Done (Ok tt, mm)
  | p :: pages =>
      r ← map_set_flags mm s p flags;
      match r with
      | (Ok _, mm) => set_flags_iter mm s pages flags
      | (Err e, mm) => Done (Err e, mm)
      end
  end.

(** The range form of [update_flags!]. *)
Definition update_flags_range (mm : MemoryMap) (flags start_addr end_addr : Z) :
    outcome (result unit UpdateFlagsErr * MemoryMap) :=
  let pages s := range_inclusive s (containing_address s start_addr) (containing_address s end_addr) in
  r ← set_flags_iter mm Size4KiB (pages Size4KiB) flags;
  match r with
  | (Err (UpdParentHugePage p), mm') =>
      if start_addr =? p then
        r ← set_flags_iter mm' Size2MiB (pages Size2MiB) flags;
        match r with
        | (Err (UpdParentHugePage p), mm'') =>
            if start_addr =? p then set_flags_iter mm'' Size1GiB (pages Size1GiB) flags else Done r
        | _ => Done r
        end
      else Done r
  | _ => Done r
  end.

Definition map_frame_to_page (mm : MemoryMap) (s : PageSize) (page frame flags : Z) :
    outcome (result unit MapToError * MemoryMap) :=
  st ← unwrap mm;
  r ← map_to s st (containing_address s page) frame flags;
  Done (r.1, Some r.2).

Definition init_kernel_mem_map (mm : MemoryMap) (map : OffsetPageTable (F := F)) : outcome MemoryMap :=
  match mm with None => Done (Some map) | Some _ => Panic end.

End MemMap.

Section MemMapLaws.
Context {F : Type} `{FS : FrameSource F} {FL : FrameSourceLaws F} `{PF : PhysFrameOps} {PFL : PhysFrameLaws}
        `{PO : PteOps} {PTL : PteLaws}
        `{PA : PhysAddrOps} {PL : PhysAddrLaws} `{VA : VirtAddrOps} {VL : VirtAddrLaws}
        `{MD : MapperDefaults} {MDL : MapperDefaultsLaws}.
Implicit Types st : OffsetPageTable (F := F).

(** The entry a 4 KiB page is stored at. *)
Definition page_key (page : Z) : list Z * Z := (path L1 page, get_index L1 page).

Definition key_ok (k : list Z * Z) : Prop := path_ok k.1 /\ length k.1 = 3%nat /\ idx_ok k.2.

Lemma page_key_ok page : key_ok (page_key page).
Proof. split; [apply path_path_ok|]. split; [done|apply get_index_ok]. Qed.

Definition key_view st (k : list Z * Z) : vres := view st k.1 k.2.

Lemma page_key_view st page : key_view st (page_key page) = page_view st page.
Proof. done. Qed.

Lemma view_updated_key st st' page e k :
  view_updated st st' page e -> key_ok k ->
  key_view st' k = if decide (k = page_key page) then VEntry e else key_view st k.
Proof. intros Hv (H1 & H2 & H3). destruct k as [p i]. by apply Hv. Qed.

Lemma get_entry_ref_4k limit st page :
  wf limit st ->
  get_entry_ref st Size4KiB page = Done
    match walk st (path L1 page) with
    | WTable t => Ok (t, get_index L1 page)
    | WUnmapped => Err TrPageNotMapped
    | WHuge => Err TrParentEntryHugePage
    end.
Proof using VL.
  intros Hwf. unfold get_entry_ref. cbn [from_page_size].
  destruct (traverse_ok limit st L1 page Hwf) as (r & -> & Hr).
  destruct (walk st (path L1 page)); destruct r as [|[| |]]; try done; cbn [tres] in Hr. by subst.
Qed.

Lemma present_used e : contains (pte_flags e) PRESENT = true -> is_unused e = false.
Proof using PTL.
  intros Hp. destruct (is_unused e) eqn:E; [|done]. apply unused_new in E as ->. by rewrite new_flags in Hp.
Qed.

(** ** Translation *)
Lemma containing_idem a : containing_address Size4KiB (containing_address Size4KiB a) = containing_address Size4KiB a.
Proof.
  unfold containing_address. cbn [SIZE]. rewrite (Z.mod_eq a 0x1000) by lia.
  replace (a - (a - 0x1000 * (a / 0x1000))) with (a / 0x1000 * 0x1000) by lia. rewrite Z_mod_mult. lia.
Qed.

Lemma page_view_containing st a : page_view st (containing_address Size4KiB a) = page_view st a.
Proof. unfold page_view. by rewrite path_containing, get_index_page. Qed.

Lemma translate_entry limit st addr e :
  wf limit st -> canonical addr -> page_view st addr = VEntry e ->
  (is_unused e = true \/ contains (pte_flags e) PRESENT = true /\ contains (pte_flags e) HUGE_PAGE = false) ->
  translate (Some st) addr = Done (if is_unused e then None else Some (pte_addr e + addr mod 0x1000)).
Proof using PTL VL.
  intros Hwf Hc Hv He. unfold translate. rewrite virt_new_valid by done. cbn [mbind outcome_bind unwrap translate_page].
  rewrite (translate_view limit), page_view_containing, Hv by done. destruct (is_unused e); [done|].
  destruct He as [|[Hp Hh]]; [done|]. rewrite frame_present by done. cbn [mbind outcome_bind unwrap result_ok fmap option_fmap option_map].
  change (0x1000 - 1) with (2 ^ 12 - 1). rewrite land_mask by lia. change (2 ^ 12) with 0x1000.
  pose proof (proj1 (addr_range e)). pose proof (Z.mod_pos_bound addr 0x1000 ltac:(lia)).
  rewrite wadd_small by lia. done.
Qed.

(** Mapping and translating fit together at every byte: after [map_frame_to_page] has mapped a
    free page, [translate] takes each address of the page to the byte at the same offset in the
    frame, and answers as before for the addresses of all other mapped or unmapped 4 KiB pages. *)
Theorem map_translate_bytes limit st page frame flags :
  wf limit st -> fs_room (PHYS_ALLOCATOR st) 3 ->
  0 <= frame < 2 ^ 52 -> frame mod PAGE_SIZE = 0 ->
  valid_flags flags -> contains flags PRESENT = true -> contains flags HUGE_PAGE = false ->
  page_view st page = VEntry pte_new ->
  exists st', map_frame_to_page (Some st) Size4KiB page frame flags = Done (Ok tt, Some st') /\ wf limit st' /\
    (forall addr, canonical addr -> containing_address Size4KiB addr = containing_address Size4KiB page ->
       translate (Some st') addr = Done (Some (frame + addr mod 0x1000))) /\
    (forall addr e, canonical addr -> page_key addr <> page_key page -> page_view st addr = VEntry e ->
       (is_unused e = true \/ contains (pte_flags e) PRESENT = true /\ contains (pte_flags e) HUGE_PAGE = false) ->
       translate (Some st') addr = translate (Some st) addr).
Proof using FL PFL PTL PL VL MDL.
  intros Hwf Hroom Hfr Hal Hvf Hpr Hnh Hv. unfold map_frame_to_page. cbn [mbind outcome_bind unwrap map_to].
  set (pg := containing_address Size4KiB page). assert (page_key pg = page_key page) as Hkey.
  { unfold page_key, pg. by rewrite path_containing, get_index_page. }
  pose proof (map_to_view limit 0 st pg frame flags (parent_flags flags) Hwf Hroom Hfr Hal Hvf Hpr
    (parent_flags_valid _ Hvf) (parent_flags_table _)) as Hm.
  unfold pg in Hm at 1. rewrite page_view_containing, Hv, (proj2 (unused_new pte_new) eq_refl) in Hm.
  destruct Hm as (e & st' & -> & _ & _ & Hwf' & Hea & Hef & Heu & Hupd). cbn [mbind outcome_bind fst snd].
  exists st'. split; [done|]. split; [done|].
  assert (forall a, page_view st' a = if decide (page_key a = page_key page) then VEntry e else page_view st a) as Hview.
  { intros a. rewrite <- page_key_view, (view_updated_key st st' pg e) by (done || apply page_key_ok). by rewrite Hkey. }
  split.
  - intros addr Hc Ha. rewrite (translate_entry limit st' addr e); [by rewrite Heu, Hea|done|done| |by rewrite Hef; right].
    rewrite Hview, decide_True; [done|]. unfold page_key. rewrite <- (path_containing L1 addr), <- (get_index_page L1 addr), Ha.
    exact Hkey.
  - intros addr e' Hc Hne Hv' He'. rewrite (translate_entry limit st addr e'), (translate_entry limit st' addr e'); try done.
    by rewrite Hview, decide_False.
Qed.

(** ** Ranges of pages *)

(** Taking a frame for data leaves the tables alone. *)
Lemma take_frame_ok limit st n :
  wf limit st -> fs_room (PHYS_ALLOCATOR st) (S n) ->
  exists a st', take_frame Size4KiB st = Done (a, st') /\ wf limit st' /\ fs_room (PHYS_ALLOCATOR st') n /\
    0 <= a < 2 ^ 52 /\ a mod PAGE_SIZE = 0 /\ fs_free (PHYS_ALLOCATOR st) a /\ ~ fs_free (PHYS_ALLOCATOR st') a /\
    fs_sub st' st /\ (forall k, key_view st' k = key_view st k).
Proof using FL PFL.
  intros Hwf Hroom. destruct (wf_source _ _ Hwf) as [Hinv Hsrc]. cbn [fs_room] in Hroom. unfold take_frame.
  destruct (fs_allocate Size4KiB _) as [[[a|] f']|] eqn:Heq; [|done..].
  destruct (fs_allocate_ok _ _ _ Hinv Heq) as (Hinv' & Ha & Hal & Hfree & Hnfree & Hsub).
  cbn [mbind outcome_bind unwrap fst snd]. exists a. eexists. split; [done|]. split; [|done].
  destruct Hwf as [H1 H2 H3 H4 H5]. split; [exact H1|exact H2|exact H3| |].
  - intros p b Hp Hb. apply H4; [done|by apply Hsub].
  - split; [done|]. intros b Hb. apply H5. by apply Hsub.
Qed.

Lemma take_frame_same s st a st' :
  take_frame s st = Done (a, st') -> offset_base st' = offset_base st /\ forall p, walk st' p = walk st p.
Proof.
  unfold take_frame. destruct (fs_allocate s _) as [[[b|] f]|]; [|done..]. cbn [mbind outcome_bind unwrap fst snd].
  intros [= <- <-]. done.
Qed.

Lemma grown_trans st st1 st2 :
  offset_base st1 = offset_base st -> fs_sub st1 st -> grown st st1 -> grown st1 st2 -> grown st st2.
Proof.
  intros Hb Hs H1 H2 p t Hp Hw. destruct (H2 p t Hp Hw) as [Hw1|(b & -> & Hf)]; [by apply H1|].
  right. exists b. rewrite Hb. split; [done|by apply Hs].
Qed.

(** A frame that was taken before the tables grew is not one of them. *)
Lemma grown_not_table limit st st' a :
  wf limit st -> grown st st' -> ~ fs_free (PHYS_ALLOCATOR st) a -> (forall p, path_ok p -> walk st p <> WTable (offset_base st + a)) ->
  forall p, path_ok p -> walk st' p <> WTable (offset_base st + a).
Proof.
  intros Hwf Hg Hn Ht p Hp Hw. destruct (Hg p _ Hp Hw) as [Hw1|(b & Hb & Hf)]; [by apply (Ht p)|].
  assert (b = a) as -> by lia. done.
Qed.

Lemma map_range_run limit flags :
  valid_flags flags -> contains flags PRESENT = true ->
  forall pages st, wf limit st -> fs_room (PHYS_ALLOCATOR st) (4 * length pages) ->
  NoDup (page_key <$> pages) -> Forall (fun page => page_view st page = VEntry pte_new) pages ->
  exists st' frames, map_range (Some st) Size4KiB pages flags = Done (Some st') /\ wf limit st' /\
    NoDup frames /\ Forall (fun f => fs_free (PHYS_ALLOCATOR st) f /\ ~ fs_free (PHYS_ALLOCATOR st') f) frames /\
    Forall2 (fun page f => exists e, page_view st' page = VEntry e /\ pte_addr e = f /\ pte_flags e = flags) pages frames /\
    (forall k, key_ok k -> k ∉ page_key <$> pages -> key_view st' k = key_view st k) /\ fs_sub st' st /\
    offset_base st' = offset_base st /\ grown st st' /\
    Forall (fun f => forall p, path_ok p -> walk st' p <> WTable (offset_base st + f)) frames.
Proof using FL PFL PTL PL VL MDL.
  intros Hvf Hpr. induction pages as [|page pages IH]; intros st Hwf Hroom Hnd Hun.
  { exists st, []. split; [done|]. split; [done|]. split; [constructor|]. split; [constructor|].
    split; [constructor|]. split; [done|]. split; [by intros x|].
    split; [done|]. split; [intros p t _ Hw; by left|constructor]. }
  apply NoDup_cons in Hnd as [Hnin Hnd]. apply Forall_cons in Hun as [Hp Hun].
  replace (4 * length (page :: pages))%nat with (S (3 + 4 * length pages)) in Hroom by (cbn [length]; lia).
  destruct (take_frame_ok limit st _ Hwf Hroom) as (a & st1 & Htk & Hwf1 & Hroom1 & Har & Hal & Hf & Hnf & Hs1 & Hv1).
  cbn [map_range mbind outcome_bind unwrap]. rewrite Htk. cbn [mbind outcome_bind fst snd map_to].
  destruct (take_frame_same _ _ _ _ Htk) as [Hb1 Hw1].
  pose proof (map_to_tree limit _ st1 page a flags (parent_flags flags) Hwf1 Hroom1 Har Hal Hvf Hpr
    (parent_flags_valid _ Hvf) (parent_flags_table _)) as Hm.
  rewrite <- page_key_view, Hv1, page_key_view, Hp, (proj2 (unused_new pte_new) eq_refl) in Hm.
  destruct Hm as (e & st2 & -> & Hroom2 & Hs2 & Hwf2 & Hea & Hef & Heu & Hupd & Hb2 & Hg2). cbn [mbind outcome_bind].
  assert (forall k, key_ok k -> k <> page_key page -> key_view st2 k = key_view st k) as Hother.
  { intros k Hk Hne. by rewrite (view_updated_key _ _ _ _ _ Hupd Hk), decide_False, Hv1. }
  destruct (IH st2 Hwf2 Hroom2 Hnd) as (st' & frames & Heq & Hwf' & Hnd' & Hfr' & Hmap & Hrest & Hsub & Hb' & Hg' & Htab).
  { rewrite Forall_forall in Hun |- *. intros q Hq. rewrite <- page_key_view, Hother; [by apply Hun|apply page_key_ok|].
    intros Hk. apply Hnin. rewrite <- Hk. by apply list_elem_of_fmap_2. }
  exists st', (a :: frames). rewrite Forall_forall in Hfr'. split; [done|]. split; [done|].
  split; [apply NoDup_cons; split; [|done]; intros Hin; by apply Hnf, Hs2, Hfr'|]. split; [|split; [|split; [|split; [|split; [|split]]]]].
  - apply Forall_cons. split; [split; [done|]; intros Hin; by apply Hnf, Hs2, Hsub|]. apply Forall_forall. intros f Hin.
    destruct (Hfr' f Hin). split; [by apply Hs1, Hs2|done].
  - apply Forall2_cons. split; [|done]. exists e. split; [|done].
    rewrite <- page_key_view, Hrest; [|apply page_key_ok|done]. exact (updated_page _ _ _ _ Hupd).
  - intros k Hk Hnk. cbn in Hnk. apply not_elem_of_cons in Hnk as [Hk1 Hk2]. rewrite Hrest, Hother by done. done.
  - intros x Hx. by apply Hs1, Hs2, Hsub.
  - congruence.
  - apply (grown_trans st st1); [done|done|intros p t Hpok Ht; left; by rewrite <- Hw1|]. by apply (grown_trans st1 st2).
  - assert (forall p, path_ok p -> walk st2 p <> WTable (offset_base st1 + a)) as Ht2.
    { apply (grown_not_table limit st1); [done..|]. intros p Hpok. rewrite Hw1, Hb1. by apply (wf_unfree _ _ Hwf). }
    apply Forall_cons. split; [|by rewrite <- Hb1, <- Hb2].
    rewrite <- Hb1, <- Hb2. apply (grown_not_table limit st2); [done..| |by rewrite Hb2]. intros Hf2. by apply Hnf, Hs2.
Qed.

(** [map_range] gives every page a frame of its own: for distinct pages that are not in use it
    never panics while the physical allocator can serve it (at most four frames per page), the
    frames were free, are distinct and are not free any more, each page maps to its frame with the
    requested flags, and no page outside the range changes. *)
Theorem map_range_ok limit flags :
  valid_flags flags -> contains flags PRESENT = true ->
  forall pages st, wf limit st -> fs_room (PHYS_ALLOCATOR st) (4 * length pages) ->
  NoDup (page_key <$> pages) -> Forall (fun page => page_view st page = VEntry pte_new) pages ->
  exists st' frames, map_range (Some st) Size4KiB pages flags = Done (Some st') /\ wf limit st' /\
    NoDup frames /\ Forall (fun f => fs_free (PHYS_ALLOCATOR st) f /\ ~ fs_free (PHYS_ALLOCATOR st') f) frames /\
    Forall2 (fun page f => exists e, page_view st' page = VEntry e /\ pte_addr e = f /\ pte_flags e = flags) pages frames /\
    (forall k, key_ok k -> k ∉ page_key <$> pages -> key_view st' k = key_view st k) /\ fs_sub st' st.
Proof using FL PFL PTL PL VL MDL.
  intros Hvf Hpr pages st Hwf Hroom Hnd Hun.
  destruct (map_range_run limit flags Hvf Hpr pages st Hwf Hroom Hnd Hun) as (st' & frames & H1 & H2 & H3 & H4 & H5 & H6 & H7 & _).
  by exists st', frames.
Qed.

(** ** Flags *)

(** A write to the entry of a page. *)
Lemma entry_written limit st page t e :
  wf limit st -> walk st (path L1 page) = WTable t ->
  let st' := wr st t (get_index L1 page) e in
  wf limit st' /\ (forall p, path_ok p -> walk st' p = walk st p) /\
  (forall k, key_ok k -> key_view st' k = if decide (k = page_key page) then VEntry e else key_view st k).
Proof.
  intros Hwf Hw st'. destruct (leaf_updated limit st page t e Hwf Hw) as [H1 H2]. split; [done|]. split.
  - intros p Hp. by apply (walk_wr_leaf limit st (path L1 page)); [|apply path_path_ok|..].
  - intros k Hk. by apply view_updated_key.
Qed.

(** [set_flags] changes the flags of one page and nothing else: the page keeps its frame and
    gets exactly the new flags, whether or not it was present (in which case the entry is first
    invalidated and then looked up again), every other page keeps its entry; without a table for
    the page it reports why and changes nothing. *)
Theorem map_set_flags_spec limit st page flags :
  wf limit st -> valid_flags flags ->
  match walk st (path L1 page) with
  | WUnmapped => map_set_flags (Some st) Size4KiB page flags = Done (Err (UpdPageNotMapped page), Some st)
  | WHuge => map_set_flags (Some st) Size4KiB page flags = Done (Err (UpdParentHugePage page), Some st)
  | WTable t =>
      exists st' e', map_set_flags (Some st) Size4KiB page flags = Done (Ok tt, Some st') /\ wf limit st' /\
        page_view st' page = VEntry e' /\ pte_addr e' = pte_addr (rd st t (get_index L1 page)) /\ pte_flags e' = flags /\
        (forall k, key_ok k -> k <> page_key page -> key_view st' k = key_view st k)
  end.
Proof using PTL VL.
  intros Hwf Hvf. unfold map_set_flags. cbn [mbind outcome_bind unwrap]. rewrite (get_entry_ref_4k limit) by done.
  destruct (walk st (path L1 page)) as [t| |] eqn:Ew; cbn [mbind outcome_bind]; [|done..].
  set (i := get_index L1 page). set (e := rd st t i). destruct (contains (pte_flags e) PRESENT).
  - destruct (entry_written limit st page t (set_flags e 0) Hwf Ew) as (Hwf1 & Hw1 & Hv1).
    rewrite (get_entry_ref_4k limit) by done. rewrite Hw1, Ew by apply path_path_ok. cbn [mbind outcome_bind result_ok unwrap].
    fold i. rewrite rd_wr, decide_True by done. change (bool_decide (Size4KiB <> Size4KiB)) with false. cbv match.
    set (st1 := wr st t i (set_flags e 0)) in *. set (e' := set_flags (set_flags e 0) flags).
    assert (walk st1 (path L1 page) = WTable t) as Ew1 by (by rewrite Hw1 by apply path_path_ok).
    destruct (entry_written limit st1 page t e' Hwf1 Ew1) as (Hwf2 & _ & Hv2).
    destruct (set_flags_spec (set_flags e 0) flags Hvf) as [Ha Hf]. destruct (set_flags_spec e 0 valid_flags_empty) as [Ha0 _].
    exists (wr st1 t i e'), e'. split; [done|]. split; [done|].
    split; [rewrite <- page_key_view, Hv2, decide_True; [done..|apply page_key_ok]|]. split; [unfold e'; congruence|].
    split; [done|]. intros k Hk Hne. rewrite Hv2, Hv1, !decide_False by done. done.
  - destruct (entry_written limit st page t (set_flags e flags) Hwf Ew) as (Hwf1 & _ & Hv1).
    destruct (set_flags_spec e flags Hvf) as [Ha Hf]. eexists _, (set_flags e flags). split; [done|]. split; [done|].
    split; [rewrite <- page_key_view, Hv1, decide_True; [done..|apply page_key_ok]|]. split; [done|]. split; [done|].
    intros k Hk Hne. by rewrite Hv1, decide_False.
Qed.

(** ** Unmapping a range *)
Definition has_table st (page : Z) : Prop := exists t, walk st (path L1 page) = WTable t.

Lemma has_table_walks st st' pages :
  (forall p, path_ok p -> walk st' p = walk st p) -> Forall (has_table st) pages -> Forall (has_table st') pages.
Proof. intros Hw Hf. apply (Forall_impl _ _ _ Hf). intros page [t Ht]. exists t. by rewrite Hw by apply path_path_ok. Qed.

(** The entries of [pages] lose their flags and keep their frames. *)
Lemma unmap_loop_ok limit s0 : forall pages st e0,
  wf limit st -> Forall (has_table st) pages ->
  exists st', unmap_loop Size4KiB st pages (Some s0) e0 =
      Done (st', Some s0, match pages with [] => e0 | _ => last pages end) /\ wf limit st' /\
    PHYS_ALLOCATOR st' = PHYS_ALLOCATOR st /\ offset_base st' = offset_base st /\
    (forall p, path_ok p -> walk st' p = walk st p) /\
    (forall k, key_ok k -> if decide (k ∈ page_key <$> pages)
       then exists e e', key_view st k = VEntry e /\ key_view st' k = VEntry e' /\ pte_addr e' = pte_addr e /\ pte_flags e' = 0
       else key_view st' k = key_view st k).
Proof using PTL VL.
  induction pages as [|page pages IH]; intros st e0 Hwf Ht.
  { exists st. do 5 (split; [done|]). intros k Hk. by rewrite decide_False by apply not_elem_of_nil. }
  apply Forall_cons in Ht as [[t Ew] Ht]. cbn [unmap_loop]. rewrite (get_entry_ref_4k limit), Ew by done. cbn [mbind outcome_bind].
  set (i := get_index L1 page). set (e := rd st t i).
  destruct (entry_written limit st page t (set_flags e 0) Hwf Ew) as (Hwf1 & Hw1 & Hv1). fold i in Hwf1, Hw1, Hv1.
  destruct (set_flags_spec e 0 valid_flags_empty) as [Ha Hf].
  destruct (IH _ (Some page) Hwf1 (has_table_walks _ _ _ Hw1 Ht)) as (st' & Heq & Hwf' & Hph & Hb & Hw' & Hv').
  exists st'. rewrite Heq. split; [by destruct pages|]. do 3 (split; [done|]).
  split; [intros p Hp; by rewrite Hw', Hw1|]. intros k Hk. specialize (Hv' k Hk). rewrite Hv1 in Hv' by done.
  cbn [fmap list_fmap]. destruct (decide (k ∈ page_key <$> pages)) as [Hin|Hnin].
  - rewrite decide_True by by right. destruct Hv' as (e1 & e2 & H1 & H2 & H3 & H4). destruct (decide (k = page_key page)) as [->|].
    + injection H1 as <-. exists e, e2. split; [exact (page_view_entry _ _ _ Ew)|]. split; [done|]. split; [congruence|done].
    + by exists e1, e2.
  - destruct (decide (k = page_key page)) as [->|Hne].
    + rewrite decide_True by by left. exists e, (set_flags e 0). split; [exact (page_view_entry _ _ _ Ew)|done].
    + rewrite decide_False; [done|]. by rewrite not_elem_of_cons.
Qed.

Lemma clear_loop_ok limit s init : forall pages st,
  s = Size4KiB -> wf limit st -> Forall (has_table st) pages ->
  exists st', clear_loop (S (length pages)) (Some st) (mkIter s init pages) = Done (Some st') /\ wf limit st' /\
    PHYS_ALLOCATOR st' = PHYS_ALLOCATOR st /\ offset_base st' = offset_base st /\ (forall p, path_ok p -> walk st' p = walk st p) /\
    (forall k, key_ok k -> key_view st' k = if decide (k ∈ page_key <$> pages) then VEntry pte_new else key_view st k).
Proof using VL.
  intros pages st ->. revert st. induction pages as [|page pages IH]; intros st Hwf Ht.
  { exists st. do 5 (split; [done|]). intros k Hk. by rewrite decide_False by apply not_elem_of_nil. }
  apply Forall_cons in Ht as [[t Ew] Ht]. change (length (page :: pages)) with (S (length pages)).
  remember (S (length pages)) as fuel eqn:Hfuel. cbn [clear_loop]. unfold next_page. cbn [iter_range iter_size initial mbind outcome_bind unwrap].
  rewrite (get_entry_ref_4k limit), Ew by done. cbn [mbind outcome_bind unwrap result_ok].
  destruct (entry_written limit st page t pte_new Hwf Ew) as (Hwf1 & Hw1 & Hv1).
  subst fuel. destruct (IH _ Hwf1 (has_table_walks _ _ _ Hw1 Ht)) as (st' & Heq & Hwf' & Hph & Hb & Hw & Hv'). exists st'. split; [exact Heq|]. split; [done|].
  split; [done|]. split; [done|]. split; [intros p Hp; by rewrite Hw, Hw1|]. intros k Hk. rewrite Hv', Hv1 by done. cbn [fmap list_fmap].
  destruct (decide (k ∈ page_key <$> pages)); [by rewrite decide_True by by right|].
  destruct (decide (k = page_key page)); [by rewrite decide_True by (apply elem_of_cons; by left)|]. by rewrite decide_False by by rewrite not_elem_of_cons.
Qed.

Lemma range_inclusive_seq a n : (0 < n)%nat ->
  range_inclusive Size4KiB a (a + SIZE Size4KiB * (Z.of_nat n - 1)) = pages_from a n.
Proof.
  intros Hn. unfold range_inclusive, pages_of. cbn [SIZE]. do 2 f_equal.
  replace (a + 4096 * (Z.of_nat n - 1) - a) with ((Z.of_nat n - 1) * 4096) by lia. rewrite Z.div_mul by lia. lia.
Qed.

(** Pages that can be unmapped together: the end of the range a shootdown computes, a page past
    the last one, is still an address. *)
Definition unmappable (a : Z) (n : nat) : Prop := a mod 4096 = 0 /\ (0 < n)%nat /\ span a (4096 * Z.of_nat n + 4097).

Lemma unmap_range_run limit st a n :
  wf limit st -> unmappable a n -> Forall (has_table st) (pages_from a n) ->
  exists st', unmap_range (Some st) Size4KiB (pages_from a n) = Done (mkIter Size4KiB (pages_from a n) (pages_from a n), Some st') /\
    wf limit st' /\ PHYS_ALLOCATOR st' = PHYS_ALLOCATOR st /\ offset_base st' = offset_base st /\
    (forall p, path_ok p -> walk st' p = walk st p) /\
    (forall k, key_ok k -> if decide (k ∈ page_key <$> pages_from a n)
       then exists e e', key_view st k = VEntry e /\ key_view st' k = VEntry e' /\ pte_addr e' = pte_addr e /\ pte_flags e' = 0
       else key_view st' k = key_view st k).
Proof using PTL VL.
  set (pages := pages_from a n). intros Hwf (Ha & Hn & Hs) Ht. assert (last pages = Some (a + SIZE Size4KiB * (Z.of_nat n - 1))) as Hl.
  { unfold pages, pages_of. rewrite last_lookup, length_fmap, length_seq, list_lookup_fmap, lookup_seq_lt by lia. cbn. do 2 f_equal. lia. }
  assert (exists r, pages = a :: r) as [r Hp].
  { unfold pages, pages_of. destruct n as [|m]; [lia|]. eexists. cbn [seq fmap list_fmap]. f_equal. lia. }
  assert (unmap_loop Size4KiB st pages None None = unmap_loop Size4KiB st pages (Some a) None) as Hstart by by rewrite Hp.
  destruct (unmap_loop_ok limit a pages st None Hwf Ht) as (st1 & Heq & Hwf1 & Hph & Hb & Hw1 & Hv1).
  exists st1. split; [|done].
  unfold unmap_range. rewrite Hp, <- Hp, Hstart, Heq, Hp. cbn [mbind outcome_bind default]. rewrite <- Hp, Hl. cbn [default id].
  rewrite range_inclusive_seq by done. fold pages. unfold pages. destruct n as [|m]; [lia|].
  destruct (invalidate_range Size4KiB a m Ha Hs) as (c & -> & _). done.
Qed.

(** Unmapping a range of consecutive pages is done in two steps that fit together:
    [unmap_range] takes the flags away from exactly those pages and leaves their frames in the
    entries for the caller to free; clearing the iterator it returns visits the same pages and
    empties their entries.  No other page changes. *)
Theorem unmap_range_clear limit st a n :
  let pages := pages_from a n in
  wf limit st -> unmappable a n -> Forall (has_table st) pages ->
  exists st1 st2, unmap_range (Some st) Size4KiB pages = Done (mkIter Size4KiB pages pages, Some st1) /\
    (forall page, page ∈ pages -> exists e e', page_view st page = VEntry e /\ page_view st1 page = VEntry e' /\
       pte_addr e' = pte_addr e /\ pte_flags e' = 0) /\
    clear_all (Some st1) (mkIter Size4KiB pages pages) = Done (Some st2) /\ wf limit st2 /\
    (forall page, page ∈ pages -> page_view st2 page = VEntry pte_new) /\
    (forall k, key_ok k -> k ∉ page_key <$> pages -> key_view st1 k = key_view st k /\ key_view st2 k = key_view st k).
Proof using PTL VL.
  intros pages Hwf Hn Ht. destruct (unmap_range_run limit st a n Hwf Hn Ht) as (st1 & Heq & Hwf1 & _ & _ & Hw1 & Hv1). fold pages in Heq, Hv1.
  destruct (clear_loop_ok limit Size4KiB pages pages st1 eq_refl Hwf1 (has_table_walks _ _ _ Hw1 Ht)) as (st2 & Hclr & Hwf2 & _ & _ & _ & Hv2).
  exists st1, st2. split; [exact Heq|].
  split; [|split; [exact Hclr|]; split; [done|]; split].
  - intros page Hin. specialize (Hv1 (page_key page) (page_key_ok page)). rewrite decide_True in Hv1; [done|by apply list_elem_of_fmap_2].
  - intros page Hin. rewrite <- page_key_view, Hv2, decide_True; [done|by apply list_elem_of_fmap_2|apply page_key_ok].
  - intros k Hk Hnin. specialize (Hv1 k Hk). rewrite decide_False in Hv1 by done. by rewrite Hv2, decide_False, Hv1.
Qed.

(** Unmapping a range whose first page has no table panics instead of skipping the page: the
    loop ends there with no last page, the range from the first page to page zero is empty, and
    the shootdown refuses an empty range. *)
Theorem unmap_range_unmapped_panics limit st page pages :
  wf limit st -> 4096 <= page -> walk st (path L1 page) = WUnmapped ->
  unmap_range (Some st) Size4KiB (page :: pages) = Panic.
Proof using VL.
  intros Hwf Hp Hw. unfold unmap_range. cbn [unmap_loop]. rewrite (get_entry_ref_4k limit), Hw by done.
  cbn [mbind outcome_bind default id]. unfold range_inclusive. change (containing_address Size4KiB 0) with 0. cbn [SIZE].
  replace (Z.to_nat ((0 - page) / 4096 + 1)) with 0%nat; [done|].
  assert ((0 - page) / 4096 < 0) by (apply Z.div_lt_upper_bound; lia). lia.
Qed.

End MemMapLaws.

(** ** A concrete machine with a list of free frames *)
Module MemMapWitness.
Import FrameWitness PageTableWitness.

#[export] Instance list_source : FrameSource (list Z) := {
  fs_allocate_in m s l := match s, l with Size4KiB, a :: l => Done (Some a, l) | _, l => Done (None, l) end;
  fs_dealloc s a l := Done (a :: l);
  fs_inv l := NoDup l /\ Forall (fun a => 0 <= a < 2 ^ 52 /\ a mod PAGE_SIZE = 0) l;
  fs_free l a := a ∈ l;
}.

#[export] Instance list_source_laws : FrameSourceLaws (list Z).
Proof.
  split. intros m [|b l] a f' [Hnd Hal] [= -> ->]. apply NoDup_cons in Hnd as [Hn Hnd]. apply Forall_cons in Hal as [[H1 H2] Hal].
  split; [done|]. split; [lia|]. split; [done|]. split; [by left|]. split; [done|]. intros x Hx. by right.
Qed.

#[export] Instance list_return_laws : FrameReturnLaws (list Z).
Proof.
  split. intros l a [Hnd Hal] Ha Hm Hn. exists (a :: l). split; [done|]. split; [by split; constructor|].
  intros x. cbn. rewrite elem_of_cons. tauto.
Qed.

(** [PRESENT], [WRITABLE] and [USER_ACCESSIBLE] are passed on to parents. *)
#[export] Instance mapper_defaults : MapperDefaults := { parent_flags f := Z.land f 7 }.

#[export] Instance mapper_defaults_laws : MapperDefaultsLaws.
Proof.
  split; cbn.
  - intros f Hf. rewrite <- Z.land_assoc, (Z.land_comm 7), Z.land_assoc, Hf. done.
  - intros f. unfold contains. apply Z.eqb_neq. intros H. apply (f_equal (fun z => Z.testbit z 7)) in H. revert H.
    rewrite Z.land_spec, !Z.lor_spec, Z.land_spec, andb_false_r. done.
Qed.

Definition empty : OffsetPageTable (F := list Z) :=
  mkPt BASE (BASE + 0x1000) ∅ [0x4000; 0x5000; 0x6000; 0x7000; 0x8000; 0x9000; 0xa000; 0xb000].

Lemma empty_walk p : walk empty p = match p with [] => WTable (BASE + 0x1000) | _ => WUnmapped end.
Proof. induction p as [|i p IH] using rev_ind; [done|]. rewrite walk_snoc, IH. by destruct p. Qed.

Lemma empty_wf : wf (2 ^ 46) empty.
Proof.
  split.
  - exact (wf_limit _ _ boot_wf).
  - intros p t _. rewrite empty_walk. destruct p; [|done]. intros [= <-]. cbn. unfold BASE. lia.
  - intros p q t _ _. rewrite !empty_walk. by destruct p, q.
  - intros p a _ Hf. rewrite empty_walk. destruct p; [|done]. intros [= Ha]. change (offset_base empty) with BASE in Ha.
    assert (a = 0x1000) as -> by lia. revert Hf. cbn. rewrite !elem_of_cons, elem_of_nil. lia.
  - split; [split; [|by repeat constructor]; apply (bool_decide_unpack (NoDup (PHYS_ALLOCATOR empty))); vm_compute; exact I|]. intros a. cbn. rewrite !elem_of_cons, elem_of_nil. lia.
Qed.

Lemma map_translate_bytes_witness :
  exists st', map_frame_to_page (Some empty) Size4KiB 0x7123 0x9000 3 = Done (Ok tt, Some st') /\ wf (2 ^ 46) st' /\
    (forall addr, canonical addr -> containing_address Size4KiB addr = containing_address Size4KiB 0x7123 ->
       translate (Some st') addr = Done (Some (0x9000 + addr mod 0x1000))) /\
    (forall addr e, canonical addr -> page_key addr <> page_key 0x7123 -> page_view empty addr = VEntry e ->
       (is_unused e = true \/ contains (pte_flags e) PRESENT = true /\ contains (pte_flags e) HUGE_PAGE = false) ->
       translate (Some st') addr = translate (Some empty) addr).
Proof. apply (map_translate_bytes (2 ^ 46) empty 0x7123 0x9000 3 empty_wf); done. Defined.

Lemma map_range_ok_witness :
  exists st' frames, map_range (Some empty) Size4KiB [0x200000; 0x201000] 3 = Done (Some st') /\ wf (2 ^ 46) st' /\
    NoDup frames /\ Forall (fun f => fs_free (PHYS_ALLOCATOR empty) f /\ ~ fs_free (PHYS_ALLOCATOR st') f) frames /\
    Forall2 (fun page f => exists e, page_view st' page = VEntry e /\ pte_addr e = f /\ pte_flags e = 3)
      [0x200000; 0x201000] frames /\
    (forall k, key_ok k -> k ∉ page_key <$> [0x200000; 0x201000] -> key_view st' k = key_view empty k) /\ fs_sub st' empty.
Proof.
  apply (map_range_ok (2 ^ 46) 3); [done|done|exact empty_wf|done| |].
  - apply (bool_decide_unpack (NoDup (page_key <$> [0x200000; 0x201000]))). vm_compute. exact I.
  - repeat constructor.
Defined.

(** Four tables above the page [0x5000]; the first level has one mapped page. *)
Definition one_mapped : OffsetPageTable (F := list Z) :=
  match map_to_4k empty 0x5000 0x9000 3 3 with Done (_, st) => st | Panic => empty end.

Lemma one_mapped_ok : wf (2 ^ 46) one_mapped /\ exists e t, page_view one_mapped 0x5000 = VEntry e /\ walk one_mapped (path L1 0x5000) = WTable t.
Proof.
  pose proof (map_to_view (2 ^ 46) 0 empty 0x5000 0x9000 3 3 empty_wf) as H.
  replace (page_view empty 0x5000) with (VEntry pte_new) in H by reflexivity.
  change (is_unused pte_new) with true in H. cbv match in H.
  destruct H as (e & st & Heq & _ & _ & Hwf & _ & _ & Hu & Hv); [done..|].
  unfold one_mapped. rewrite Heq. split; [exact Hwf|]. pose proof (updated_page _ _ _ _ Hv) as Hp. exists e. clear Heq Hv Hwf.
  unfold page_view, view in *. destruct (walk st _) as [t| |]; [by exists t| |discriminate].
  injection Hp as <-. discriminate.
Qed.

Lemma map_set_flags_spec_witness :
  match walk one_mapped (path L1 0x5000) with
  | WUnmapped => map_set_flags (Some one_mapped) Size4KiB 0x5000 1 = Done (Err (UpdPageNotMapped 0x5000), Some one_mapped)
  | WHuge => map_set_flags (Some one_mapped) Size4KiB 0x5000 1 = Done (Err (UpdParentHugePage 0x5000), Some one_mapped)
  | WTable t =>
      exists st' e', map_set_flags (Some one_mapped) Size4KiB 0x5000 1 = Done (Ok tt, Some st') /\ wf (2 ^ 46) st' /\
        page_view st' 0x5000 = VEntry e' /\ pte_addr e' = pte_addr (rd one_mapped t (get_index L1 0x5000)) /\ pte_flags e' = 1 /\
        (forall k, key_ok k -> k <> page_key 0x5000 -> key_view st' k = key_view one_mapped k)
  end.
Proof. apply (map_set_flags_spec (2 ^ 46) one_mapped 0x5000 1 (proj1 one_mapped_ok)). done. Defined.

Lemma unmap_range_clear_witness :
  let pages := (fun i => 0x5000 + SIZE Size4KiB * Z.of_nat i) <$> seq 0 2 in
  exists st1 st2, unmap_range (Some one_mapped) Size4KiB pages = Done (mkIter Size4KiB pages pages, Some st1) /\
    (forall page, page ∈ pages -> exists e e', page_view one_mapped page = VEntry e /\ page_view st1 page = VEntry e' /\
       pte_addr e' = pte_addr e /\ pte_flags e' = 0) /\
    clear_all (Some st1) (mkIter Size4KiB pages pages) = Done (Some st2) /\ wf (2 ^ 46) st2 /\
    (forall page, page ∈ pages -> page_view st2 page = VEntry pte_new) /\
    (forall k, key_ok k -> k ∉ page_key <$> pages -> key_view st1 k = key_view one_mapped k /\ key_view st2 k = key_view one_mapped k).
Proof.
  apply (unmap_range_clear (2 ^ 46) one_mapped 0x5000 2 (proj1 one_mapped_ok)); [split; [done|]; split; [lia|left; lia]|].
  destruct one_mapped_ok as (_ & e & t & _ & Hw). repeat constructor; by exists t.
Defined.

Lemma unmap_range_unmapped_panics_witness : unmap_range (Some empty) Size4KiB [0x7000; 0x8000] = Panic.
Proof. apply (unmap_range_unmapped_panics (2 ^ 46)); [exact empty_wf|lia|reflexivity]. Defined.

End MemMapWitness.
