(* ===== verification/VirtFixup.v ===== *)
(** * Page fix-ups

    [kernel/src/mem/virt_fixup.rs]: regions whose pages are mapped when they are first touched.  The
    entries are kept in a vector that is searched with [slice::binary_search_by].  Reading the
    faulting address from CR2 is an argument; the contents of the page that is mapped, which the code
    fills with zeros, are not part of the model. *)
From Stdlib Require Import Sorted.
From stdpp Require Import prelude gmap.
From S2P Require Import Prelude Ranges HighOrder FrameAlloc PageTable MemMap.
Open Scope Z_scope.

(** ** [slice::binary_search_by]

    The halving loop of [core]; the comparison may panic. *)
Section BinarySearch.
Context {A : Type} (f : A -> outcome comparison).

Fixpoint bs_loop (fuel : nat) (l : list A) (size base : nat) : outcome nat :=
  match fuel with
  | O => Done base
  | S fuel =>
      if (size <=? 1)%nat then Done base
      else
        let half := (size / 2)%nat in
        let mid := (base + half)%nat in
        x ← unwrap (l !! mid);
        c ← f x;
        bs_loop fuel l (size - half)%nat (match c with Gt => base | _ => mid end)
  end.

Definition binary_search_by (l : list A) : outcome (result nat nat) :=
  match l with
  | [] => Done (Err O)
  | _ =>
      base ← bs_loop (length l) l (length l) O;
      x ← unwrap (l !! base);
      c ← f x;
      Done (match c with Eq => Ok base | Lt => Err (S base) | Gt => Err base end)
  end.

(** A list in the order of the comparison: smaller elements, equal ones, greater ones. *)
Definition partitioned (l : list A) (i j : nat) : Prop :=
  (i <= j <= length l)%nat /\
  forall k x, l !! k = Some x ->
    f x = Done (if decide (k < i)%nat then Lt else if decide (k < j)%nat then Eq else Gt).

(** The loop keeps the answer inside the window and ends with a window of one element. *)
Lemma bs_loop_ok fuel : forall l size base i j,
  partitioned l i j -> (size <= fuel)%nat -> (1 <= size)%nat -> (base + size <= length l)%nat ->
  (base = O \/ base < j)%nat -> (j <= base + size)%nat ->
  exists b, bs_loop fuel l size base = Done b /\ (b < length l)%nat /\ (b = O \/ b < j)%nat /\ (j <= b + 1)%nat.
Proof.
  induction fuel as [|fuel IH]; intros l size base i j Hp Hf H1 Hl Hb Hj; [lia|]. cbn [bs_loop].
  destruct (Nat.leb_spec size 1); [exists base; split; [done|]; lia|].
  assert (1 <= size / 2 < size)%nat as Hh by (split; [apply Nat.div_le_lower_bound|apply Nat.div_lt]; lia).
  destruct (lookup_lt_is_Some_2 l (base + size / 2)%nat ltac:(lia)) as [x Hx].
  rewrite Hx. cbn [unwrap mbind outcome_bind]. rewrite (proj2 Hp _ _ Hx). cbn [mbind outcome_bind].
  pose proof (proj1 Hp) as Hij. pose proof (Nat.div_mod_eq size 2) as Hd.
  destruct (decide (base + size / 2 < i)%nat); [|destruct (decide (base + size / 2 < j)%nat)]; apply (IH l _ _ i j); (done || lia).
Qed.

(** The contract in the documentation of [binary_search_by]: the index of an equal element if
    there is one, the place to insert at otherwise. *)
Lemma binary_search_by_spec l i j :
  partitioned l i j ->
  exists r, binary_search_by l = Done r /\
    match r with Ok k => (i <= k < j)%nat | Err k => i = j /\ k = i end.
Proof.
  intros Hp. destruct l as [|a l]; [destruct Hp as [Hij _]; cbn in Hij; exists (Err O); split; [done|cbn; lia]|].
  set (l' := a :: l) in *. unfold binary_search_by. fold l'. unfold l' at 1.
  destruct (bs_loop_ok (length l') l' (length l') O i j) as (b & -> & Hb & H0 & Hj);
    [done|lia|cbn; lia|lia|by left|destruct Hp; lia|].
  cbn [mbind outcome_bind]. destruct (lookup_lt_is_Some_2 l' b Hb) as [x Hx]. rewrite Hx. cbn [unwrap mbind outcome_bind].
  rewrite (proj2 Hp _ _ Hx). cbn [mbind outcome_bind]. destruct Hp as [Hij _].
  destruct (decide (b < i)%nat); [|destruct (decide (b < j)%nat)]; eexists; (split; [done|]); cbn; lia.
Qed.

End BinarySearch.

(** ** Entries *)
Record FixupEntry := mkFixup {
  fx_address : Z; fx_len : Z; fixup_remain : Z; page_size : Z; clear_when_fixed : bool }.

(** [FixupEntry::fixup]: the page to map and its size.  The mask is written
    [!(self.page_size as u64) - 1], which is not the complement of [page_size - 1]. *)
Definition fixup_page (page_size addr : Z) : Z := Z.land (wnot page_size ⊖ 1)%u64 addr.

Definition size_of (s : Z) : option PageSize :=
  if s =? 0x1000 then Some Size4KiB else if s =? 0x200000 then Some Size2MiB
  else if s =? 0x40000000 then Some Size1GiB else None.

Section Fixup.
Context `{VA : VirtAddrOps}.

(** [impl Ord for FixupEntry]. *)
Definition entry_cmp (self other : FixupEntry) : outcome comparison :=
  oend ← virt_add (fx_address other) (fx_len other);
  if fx_address self <=? oend then Done Gt
  else
    send ← virt_add (fx_address self) (fx_len self);
    if fx_address other <=? send then Done Lt else Done Eq.

(** [impl PartialEq for FixupEntry]. *)
Definition entry_eq (self other : FixupEntry) : outcome bool :=
  oend ← virt_add (fx_address other) (fx_len other);
  if fx_address self <=? oend then
    send ← virt_add (fx_address self) (fx_len self); Done (fx_address other <=? send)
  else Done false.

(** [impl PartialOrd<FixupEntry> for VirtAddr]. *)
Definition addr_cmp (self : Z) (other : FixupEntry) : outcome comparison :=
  oend ← virt_add (fx_address other) (fx_len other);
  if oend <=? self then Done Gt else if self <? fx_address other then Done Lt else Done Eq.

(** [impl PartialEq<FixupEntry> for VirtAddr]. *)
Definition addr_eq (self : Z) (other : FixupEntry) : outcome bool :=
  if fx_address other <=? self then
    oend ← virt_add (fx_address other) (fx_len other); Done (self <=? oend)
  else Done false.

(** ** The list *)
Definition fixup_insert (l : list FixupEntry) (address len page_size : Z) (shrinkable : bool) :
    outcome (result unit unit * list FixupEntry) :=
  _ ← assert_that ((page_size =? 0x1000) || (page_size =? 0x200000) || (page_size =? 0x40000000));
  address ← virt_new address;
  let fixup := mkFixup address (len ⊖ 1)%u64 0 page_size (negb shrinkable) in
  r ← binary_search_by (fun e => entry_cmp e fixup) l;
  match r with
  | Ok _ => Done (Err tt, l)
  | Err index => Done (Ok tt, take index l ++ fixup :: drop index l)
  end.

(** [try_fixup]: the index of the region of an address. *)
Definition try_fixup (l : list FixupEntry) (address : Z) : outcome (option nat) :=
  r ← binary_search_by (addr_cmp address) l;
  match r with Ok i => Done (Some i) | Err _ => Done None end.

Definition fixup_remove (l : list FixupEntry) (address : Z) : outcome (result unit unit * list FixupEntry) :=
  r ← binary_search_by (fun e => Done (fx_address e ?= address)) l;
  match r with
  | Err _ => Done (Err tt, l)
  | Ok index => Done (Ok tt, delete index l)
  end.

Definition set_fixup_region := fixup_insert.

Definition remove_fixup_region (l : list FixupEntry) (address : Z) : outcome (result unit unit * list FixupEntry) :=
  a ← virt_new address; fixup_remove l a.

(** [query_fixup] reads the faulting address from CR2. *)
Definition query_fixup (cr2 : Z) (l : list FixupEntry) : outcome (option (nat * Z)) :=
  addr ← virt_new cr2;
  r ← try_fixup l addr;
  match r with Some i => Done (Some (i, addr)) | None => Done None end.

Context {F : Type} `{FS : FrameSource F} `{PF : PhysFrameOps} `{PO : PteOps} `{PA : PhysAddrOps} `{MD : MapperDefaults}.

(** [CachedFixup::fixup].  [fixup_remain] is unsigned, so [<= 0] means zero. *)
Definition sub_remain (e : FixupEntry) : FixupEntry :=
  mkFixup (fx_address e) (fx_len e) (fixup_remain e ⊖ page_size e)%u64 (page_size e) (clear_when_fixed e).

Definition cached_fixup (l : list FixupEntry) (mm : MemoryMap (F := F)) (index : nat) (address : Z) :
    outcome (list FixupEntry * MemoryMap (F := F)) :=
  e ← unwrap (l !! index);
  let l := alter sub_remain index l in
  addr ← virt_new (fixup_page (page_size e) address);
  s ← unwrap (size_of (page_size e));
  let flags := match s with Size4KiB => PROGRAM_DATA_FLAGS | _ => Z.lor PROGRAM_DATA_FLAGS HUGE_PAGE end in
  mm ← map_page mm s addr flags;
  let l := alter sub_remain index l in
  e ← unwrap (l !! index);
  if (fixup_remain e <=? 0) && clear_when_fixed e then Done (delete index l, mm) else Done (l, mm).

End Fixup.

Section FixupLaws.
Context `{VA : VirtAddrOps} {VL : VirtAddrLaws}.

Definition fx_end (e : FixupEntry) : Z := fx_address e + fx_len e.

Definition entry_ok (e : FixupEntry) : Prop := canonical (fx_address e) /\ 0 <= fx_len e /\ canonical (fx_end e).

(** The list is kept from high to low addresses. *)
Definition above (e1 e2 : FixupEntry) : Prop := fx_end e2 < fx_address e1.

Definition fixups_ok (l : list FixupEntry) : Prop := Forall entry_ok l /\ StronglySorted above l.

Lemma entry_end e : entry_ok e -> virt_add (fx_address e) (fx_len e) = Done (fx_end e).
Proof using VL. intros (H1 & H2 & H3). by apply virt_add_valid. Qed.

Lemma entry_cmp_ok e x : entry_ok e -> entry_ok x ->
  entry_cmp e x = Done (if decide (fx_address e <= fx_end x) then Gt else Lt).
Proof using VL.
  intros He Hx. unfold entry_cmp. rewrite (entry_end x) by done. cbn [mbind outcome_bind].
  destruct (Z.leb_spec (fx_address e) (fx_end x)); [by rewrite decide_True by lia|]. rewrite decide_False by lia.
  rewrite (entry_end e) by done. cbn [mbind outcome_bind]. destruct He as (_ & He & _), Hx as (_ & Hx & _). unfold fx_end in *.
  by rewrite (proj2 (Z.leb_le (fx_address x) _)) by lia.
Qed.

Lemma addr_cmp_ok a e : entry_ok e ->
  addr_cmp a e = Done (if decide (fx_end e <= a) then Gt else if decide (a < fx_address e) then Lt else Eq).
Proof using VL.
  intros He. unfold addr_cmp. rewrite (entry_end e) by done. cbn [mbind outcome_bind].
  destruct (Z.leb_spec (fx_end e) a); [by rewrite decide_True|rewrite decide_False by lia].
  destruct (Z.ltb_spec a (fx_address e)); [by rewrite decide_True|by rewrite decide_False by lia].
Qed.

(** A sorted list splits at any predicate that holds from some element on. *)
Lemma sorted_split (P : FixupEntry -> Prop) `{!forall e, Decision (P e)} l :
  (forall e1 e2, entry_ok e1 -> entry_ok e2 -> above e1 e2 -> P e1 -> P e2) -> fixups_ok l ->
  exists l1 l2, l = l1 ++ l2 /\ Forall (fun e => ~ P e) l1 /\ Forall P l2.
Proof.
  intros Hmono [Hok Hs]. induction Hs as [|e l Hs IH Hall]; [by exists [], []|].
  apply Forall_cons in Hok as [Hoe Hok]. destruct (decide (P e)) as [He|He].
  - exists [], (e :: l). split; [done|]. split; [constructor|]. constructor; [done|].
    rewrite Forall_forall in Hall, Hok |- *. intros x Hx. apply (Hmono e); auto.
  - destruct (IH Hok) as (l1 & l2 & -> & H1 & H2). exists (e :: l1), l2. split; [done|]. split; [by constructor|done].
Qed.

Lemma fixups_ok_app l1 l2 : fixups_ok (l1 ++ l2) -> fixups_ok l1 /\ fixups_ok l2.
Proof. intros [[H1 H2]%Forall_app (H3 & H4 & _)%StronglySorted_app_iff]. by split; split. Qed.

Lemma app_partitioned {A} (f : A -> outcome comparison) (l1 l2 l3 : list A) :
  Forall (fun e => f e = Done Lt) l1 -> Forall (fun e => f e = Done Eq) l2 -> Forall (fun e => f e = Done Gt) l3 ->
  partitioned f (l1 ++ l2 ++ l3) (length l1) (length l1 + length l2).
Proof.
  rewrite !Forall_forall. intros H1 H2 H3. split; [rewrite !length_app; lia|]. intros k x Hk.
  apply lookup_app_Some in Hk as [Hk|[Hlt Hk]].
  - rewrite decide_True by by eapply lookup_lt_Some. by eapply H1, list_elem_of_lookup_2.
  - rewrite decide_False by lia. apply lookup_app_Some in Hk as [Hk|[Hlt' Hk]].
    + rewrite decide_True by (apply lookup_lt_Some in Hk; lia). by eapply H2, list_elem_of_lookup_2.
    + rewrite decide_False by lia. by eapply H3, list_elem_of_lookup_2.
Qed.

(** [try_fixup] on a list in order. *)
Lemma try_fixup_ok l a :
  fixups_ok l ->
  exists r, try_fixup l a = Done r /\
    match r with
    | Some i => exists e, l !! i = Some e /\ fx_address e <= a < fx_end e
    | None => Forall (fun e => ~ fx_address e <= a < fx_end e) l
    end.
Proof using VL.
  intros Hl. destruct (sorted_split (fun e => fx_address e <= a) l) as (l1 & l23 & -> & H1 & H23); [|done|].
  { unfold entry_ok, above, fx_end. lia. }
  destruct (fixups_ok_app _ _ Hl) as [Hl1 Hl23].
  destruct (sorted_split (fun e => fx_end e <= a) l23) as (l2 & l3 & -> & H2 & H3); [|done|].
  { unfold entry_ok, above, fx_end. lia. }
  destruct (fixups_ok_app _ _ Hl23) as [Hl2 Hl3]. destruct Hl1 as [Hl1 _], Hl2 as [Hl2 _], Hl3 as [Hl3 _].
  rewrite Forall_app in H23. destruct H23 as [H2' _]. rewrite !Forall_forall in *.
  destruct (binary_search_by_spec (addr_cmp a) (l1 ++ l2 ++ l3) (length l1) (length l1 + length l2)) as (r & Hr & Hres).
  { apply app_partitioned; apply Forall_forall; intros e He; rewrite addr_cmp_ok by auto.
    - specialize (H1 e He). specialize (Hl1 e He). unfold entry_ok, fx_end in *. rewrite decide_False, decide_True by lia. done.
    - specialize (H2 e He). specialize (H2' e He). rewrite !decide_False by lia. done.
    - specialize (H3 e He). by rewrite decide_True by lia. }
  unfold try_fixup. rewrite Hr. cbn [mbind outcome_bind]. destruct r as [k|k].
  - exists (Some k). split; [done|]. destruct (lookup_lt_is_Some_2 l2 (k - length l1)%nat ltac:(lia)) as [e He].
    exists e. rewrite lookup_app_r, lookup_app_l by lia. split; [done|]. apply list_elem_of_lookup_2 in He.
    specialize (H2 e He). specialize (H2' e He). lia.
  - exists None. split; [done|]. destruct Hres as [Hres _]. assert (l2 = []) as -> by (apply length_zero_iff_nil; lia).
    rewrite Forall_forall. intros e. rewrite !elem_of_app, elem_of_nil. intros [He|[[]|He]].
    + specialize (H1 e He). lia.
    + specialize (H3 e He). lia.
Qed.

Lemma valid_page_size ps : size_of ps <> None -> (ps =? 0x1000) || (ps =? 0x200000) || (ps =? 0x40000000) = true.
Proof. unfold size_of. destruct (ps =? 0x1000); [done|]. destruct (ps =? 0x200000); [done|]. by destruct (ps =? 0x40000000). Qed.

Lemma fixup_insert_ok l address len ps shrinkable :
  let new := mkFixup address (len - 1) 0 ps (negb shrinkable) in
  fixups_ok l -> entry_ok new -> size_of ps <> None -> 1 <= len < 2 ^ 64 ->
  Forall (fun e => fx_end e < address \/ fx_end new < fx_address e) l ->
  exists l', fixup_insert l address len ps shrinkable = Done (Ok tt, l') /\ fixups_ok l' /\ l' ≡ₚ new :: l.
Proof using VL.
  intros new Hl Hnew Hps Hlen Hdisj. unfold fixup_insert. rewrite (valid_page_size ps Hps). cbn [assert_that mbind outcome_bind].
  rewrite virt_new_valid by apply Hnew. cbn [mbind outcome_bind]. rewrite wsub_small by lia. fold new.
  destruct (sorted_split (fun e => fx_address e <= fx_end new) l) as (l1 & l2 & -> & H1 & H2); [|done|].
  { unfold entry_ok, above, fx_end. lia. }
  destruct (fixups_ok_app _ _ Hl) as [[Hl1 _] [Hl2 _]]. destruct Hl as [_ (Hs1 & Hs2 & Hs12)%StronglySorted_app_iff].
  apply Forall_app in Hdisj as [Hd1 Hd2]. rewrite Forall_forall in Hl1, Hl2, H1, H2, Hd1, Hd2.
  destruct (binary_search_by_spec (fun e => entry_cmp e new) (l1 ++ [] ++ l2) (length l1) (length l1 + 0)) as (r & Hr & Hres).
  { apply (app_partitioned _ l1 [] l2); [|constructor|]; apply Forall_forall; intros e He; rewrite entry_cmp_ok by auto.
    - by rewrite decide_False by by apply H1.
    - by rewrite decide_True by by apply H2. }
  cbn [app] in Hr. rewrite Hr. cbn [mbind outcome_bind]. destruct r as [k|k]; [lia|]. destruct Hres as [_ ->].
  rewrite take_app_length, drop_app_length. eexists. split; [done|]. split; [|by rewrite Permutation_middle]. split.
  - apply Forall_app. split; [by apply Forall_forall|]. constructor; [done|by apply Forall_forall].
  - apply StronglySorted_app_iff. split; [done|]. split.
    + constructor; [done|]. apply Forall_forall. intros e He. unfold above. change (fx_address new) with address.
      specialize (H2 e He). specialize (Hd2 e He). lia.
    + intros x y Hx [->|Hy]%elem_of_cons; [|by apply Hs12]. unfold above. specialize (H1 x Hx). lia.
Qed.

(** A region that overlaps no other can be registered and found: [insert] accepts it and keeps
    the list in order, and afterwards [try_fixup] resolves an address to a region that contains it,
    or to nothing if there is none.  The last byte of a region is the exception: the comparison
    treats it as lying above the region. *)
Theorem fixup_insert_lookup l address len ps shrinkable :
  let new := mkFixup address (len - 1) 0 ps (negb shrinkable) in
  fixups_ok l -> entry_ok new -> size_of ps <> None -> 1 <= len < 2 ^ 64 ->
  Forall (fun e => fx_end e < address \/ fx_end new < fx_address e) l ->
  exists l', fixup_insert l address len ps shrinkable = Done (Ok tt, l') /\ fixups_ok l' /\ l' ≡ₚ new :: l /\
    forall a, exists r, try_fixup l' a = Done r /\
      match r with
      | Some i => exists e, l' !! i = Some e /\ fx_address e <= a < fx_end e
      | None => Forall (fun e => ~ fx_address e <= a < fx_end e) l'
      end.
Proof using VL.
  intros new Hl Hnew Hps Hlen Hdisj. destruct (fixup_insert_ok l address len ps shrinkable) as (l' & H1 & H2 & H3); [done..|].
  exists l'. split; [done|]. split; [done|]. split; [done|]. intros a. by apply try_fixup_ok.
Qed.

(** A comparison that never answers [Eq] makes the search fail. *)
Lemma binary_search_never {A} (f : A -> outcome comparison) l :
  Forall (fun e => f e = Done Lt \/ f e = Done Gt) l -> exists k, binary_search_by f l = Done (Err k).
Proof.
  intros Hf. destruct l as [|a l]; [by eexists|]. set (l' := a :: l) in *. unfold binary_search_by. fold l'. unfold l' at 1.
  assert (forall fuel size base, (base + size <= length l')%nat -> (1 <= size)%nat ->
    exists b, bs_loop f fuel l' size base = Done b /\ (b < length l')%nat) as Hloop.
  { induction fuel as [|fuel IH]; intros size base Hb Hs; cbn [bs_loop]; [eexists; split; [done|lia]|].
    destruct (Nat.leb_spec size 1); [eexists; split; [done|lia]|].
    assert (1 <= size / 2 < size)%nat as Hh by (split; [apply Nat.div_le_lower_bound|apply Nat.div_lt]; lia).
    destruct (lookup_lt_is_Some_2 l' (base + size / 2)%nat ltac:(lia)) as [x Hx]. rewrite Hx. cbn [unwrap mbind outcome_bind].
    rewrite Forall_forall in Hf. destruct (Hf x ltac:(by eapply list_elem_of_lookup_2)) as [-> | ->]; cbn [mbind outcome_bind]; apply IH; lia. }
  destruct (Hloop (length l') (length l') O) as (b & -> & Hb); [lia|cbn; lia|]. cbn [mbind outcome_bind].
  destruct (lookup_lt_is_Some_2 l' b Hb) as [x Hx]. rewrite Hx. cbn [unwrap mbind outcome_bind]. rewrite Forall_forall in Hf.
  destruct (Hf x ltac:(by eapply list_elem_of_lookup_2)) as [-> | ->]; cbn [mbind outcome_bind]; by eexists.
Qed.

(** [insert] never refuses a region: the documentation promises [Err] for one that intersects an
    existing region, but the comparison of entries has no outcome [Equal], so every region is
    accepted, whatever it overlaps. *)
Theorem fixup_insert_overlap l address len ps shrinkable :
  Forall entry_ok l -> entry_ok (mkFixup address (len - 1) 0 ps (negb shrinkable)) -> size_of ps <> None -> 1 <= len < 2 ^ 64 ->
  exists l', fixup_insert l address len ps shrinkable = Done (Ok tt, l') /\ length l' = S (length l).
Proof using VL.
  intros Hl Hnew Hps Hlen. unfold fixup_insert. rewrite (valid_page_size ps Hps). cbn [assert_that mbind outcome_bind].
  rewrite virt_new_valid by apply Hnew. cbn [mbind outcome_bind]. rewrite wsub_small by lia.
  edestruct (binary_search_never (fun e => entry_cmp e (mkFixup address (len - 1) 0 ps (negb shrinkable))) l) as [k ->].
  - rewrite Forall_forall in Hl |- *. intros e He. rewrite entry_cmp_ok by auto. destruct (decide _); auto.
  - cbn [mbind outcome_bind]. eexists. split; [done|]. rewrite length_app, length_take. cbn. rewrite length_drop. lia.
Qed.

End FixupLaws.

(** ** The page that is mapped *)

(** With bit 12 of the address set, the mask takes that bit and bit 0 away. *)
Lemma fixup_page_odd addr :
  is_u64 addr -> Z.testbit addr 12 = true -> fixup_page 0x1000 addr = addr - 0x1000 - addr mod 2.
Proof.
  intros Ha Hb. assert (fixup_page 0x1000 addr = Z.ldiff addr 0x1001) as ->.
  { unfold fixup_page. apply Z.bits_inj'. intros n Hn. rewrite Z.land_spec, Z.ldiff_spec.
    change (wnot 0x1000 ⊖ 1)%u64 with (Z.ldiff (Z.ones 64) 0x1001). rewrite Z.ldiff_spec.
    destruct (decide (n < 64)); [rewrite Z.ones_spec_low by lia; cbn; apply andb_comm|].
    assert (Z.testbit addr n = false) as ->; [|by rewrite andb_false_r].
    rewrite <- (Z.mod_small addr (2 ^ 64)) by exact Ha. apply Z.mod_pow2_bits_high. lia. }
  assert (Z.ldiff addr 0x1001 = Z.ldiff (Z.ldiff addr 0x1000) 1) as ->.
  { apply Z.bits_inj'. intros n Hn. rewrite !Z.ldiff_spec. change 0x1001 with (Z.lor 0x1000 1). rewrite Z.lor_spec.
    by destruct (Z.testbit addr n), (Z.testbit 0x1000 n), (Z.testbit 1 n). }
  assert (Z.ldiff addr 0x1000 = addr - 0x1000) as ->.
  { symmetry. apply Z.sub_nocarry_ldiff. apply Z.bits_inj'. intros n Hn. rewrite Z.ldiff_spec, Z.bits_0.
    change 0x1000 with (2 ^ 12). rewrite Z.pow2_bits_eqb by lia. destruct (Z.eqb_spec 12 n) as [<-|]; [by rewrite Hb|done]. }
  change 1 with (Z.ones 1). rewrite Z.ldiff_ones_r, Z.shiftr_div_pow2, Z.shiftl_mul_pow2 by lia.
  change (2 ^ 1) with 2. rewrite (Z.mod_eq addr 2) by lia.
  replace (addr - 0x1000) with (addr + (-0x800) * 2) by lia. rewrite Z.div_add by lia. lia.
Qed.

Lemma odd_page_canonical addr : canonical addr -> Z.testbit addr 12 = true -> canonical (addr - 0x1000 - addr mod 2).
Proof.
  intros Hc Hb. rewrite Z.testbit_odd, Z.shiftr_div_pow2 in Hb by lia. apply Z.odd_spec in Hb as [q Hq].
  pose proof (Z.div_mod addr (2 ^ 12) ltac:(lia)) as Hd. pose proof (Z.mod_pos_bound addr (2 ^ 12) ltac:(lia)) as Hm.
  change (2 ^ 12) with 4096 in *. rewrite Hq in Hd.
  assert (addr mod 2 <= addr mod 4096 /\ 0 <= addr mod 2) as [H2 H2'].
  { split; [|apply Z.mod_pos_bound; lia]. assert ((2 | 4096)) as Hdiv by (by exists 2048). rewrite <- (Z.mod_mod_divide addr 4096 2 Hdiv).
    apply Z.mod_le; lia. }
  unfold canonical in *. destruct Hc; [left|right]; lia.
Qed.

Lemma page_key_shiftr a b : Z.shiftr a 12 = Z.shiftr b 12 -> page_key a = page_key b.
Proof.
  intros H. assert (forall l, get_index l a = get_index l b) as Hi.
  { assert (forall k, 12 <= k -> Z.shiftr a k = Z.shiftr b k) as Hk.
    { intros k Hk. replace k with (12 + (k - 12)) by lia. by rewrite <- !Z.shiftr_shiftr, H by lia. }
    intros []; cbn [get_index]; by rewrite Hk by lia. }
  unfold page_key. cbn [path]. by rewrite !Hi.
Qed.

(** The page of the masked address is the one before. *)
Lemma odd_page_key addr :
  is_u64 addr -> Z.testbit addr 12 = true -> page_key (fixup_page 0x1000 addr) = page_key (addr - 0x1000).
Proof.
  intros Hu Hb. apply page_key_shiftr. rewrite (fixup_page_odd addr Hu Hb), !Z.shiftr_div_pow2 by lia. change (2 ^ 12) with 4096.
  replace (addr - 0x1000 - addr mod 2) with ((addr - addr mod 2) + (-1) * 4096) by lia.
  replace (addr - 0x1000) with (addr + (-1) * 4096) by lia. rewrite !Z.div_add by lia. f_equal.
  replace 4096 with (2 * 2048) by lia. rewrite <- !Z.div_div by lia. f_equal. rewrite Z.mod_eq by lia.
  replace (addr - (addr - 2 * (addr / 2))) with (addr / 2 * 2) by lia. by rewrite Z.div_mul.
Qed.

Lemma odd_page_key_ne addr : Z.testbit addr 12 = true -> page_key addr <> page_key (addr - 0x1000).
Proof.
  intros Hb [_ Hi]%pair_eq. cbn [get_index] in Hi. apply (f_equal (fun z => Z.testbit z 0)) in Hi. revert Hi.
  rewrite !Z.land_spec, !Z.shiftr_spec by lia. change (0 + 12) with 12. rewrite Hb.
  assert (addr - 0x1000 = Z.ldiff addr 0x1000) as ->.
  { apply Z.sub_nocarry_ldiff. apply Z.bits_inj'. intros n Hn. rewrite Z.ldiff_spec, Z.bits_0. change 0x1000 with (2 ^ 12).
    rewrite Z.pow2_bits_eqb by lia. destruct (Z.eqb_spec 12 n) as [<-|]; [by rewrite Hb|done]. }
  rewrite Z.ldiff_spec, Hb. done.
Qed.

Section FixupPage.
Context {F : Type} `{FS : FrameSource F} {FL : FrameSourceLaws F} `{PF : PhysFrameOps} {PFL : PhysFrameLaws}
        `{PO : PteOps} {PTL : PteLaws}
        `{PA : PhysAddrOps} {PL : PhysAddrLaws} `{VA : VirtAddrOps} {VL : VirtAddrLaws}
        `{MD : MapperDefaults} {MDL : MapperDefaultsLaws}.

Lemma program_data_valid : valid_flags (Z.lor PROGRAM_DATA_FLAGS PRESENT) /\ contains (Z.lor PROGRAM_DATA_FLAGS PRESENT) PRESENT = true.
Proof using PTL.
  split; [|done]. change (Z.lor PROGRAM_DATA_FLAGS PRESENT) with (Z.lor NO_EXECUTE (Z.lor PRESENT WRITABLE)).
  destruct valid_flags_known as (H1 & H2 & _ & _ & _ & H3). by repeat apply valid_flags_lor.
Qed.

(** [map_page] for a 4 KiB page in terms of the view. *)
Lemma map_page_view limit st page :
  wf limit st -> fs_room (PHYS_ALLOCATOR st) 4 -> page_view st page = VEntry pte_new ->
  exists st' e, map_page (Some st) Size4KiB page PROGRAM_DATA_FLAGS = Done (Some st') /\ wf limit st' /\
    contains (pte_flags e) PRESENT = true /\ page_view st' page = VEntry e /\
    (forall k, key_ok k -> k <> page_key page -> key_view st' k = key_view st k).
Proof using FL PFL PTL PL VL MDL.
  intros Hwf Hroom Hv. unfold map_page. cbn [unwrap mbind outcome_bind].
  destruct (take_frame_ok limit st 3 Hwf Hroom) as (a & st1 & -> & Hwf1 & Hroom1 & Har & Hal & _ & _ & _ & Hv1).
  cbn [mbind outcome_bind fst snd map_to]. destruct program_data_valid as [Hvf Hpr].
  pose proof (map_to_view limit 0 st1 page a _ (parent_flags (Z.lor PROGRAM_DATA_FLAGS PRESENT)) Hwf1 Hroom1 Har Hal Hvf Hpr
    (parent_flags_valid _ Hvf) (parent_flags_table _)) as Hm.
  rewrite <- page_key_view, Hv1, page_key_view, Hv, (proj2 (unused_new pte_new) eq_refl) in Hm.
  destruct Hm as (e & st2 & -> & _ & _ & Hwf2 & Hea & Hef & Heu & Hupd). cbn [mbind outcome_bind].
  exists st2, e. split; [done|]. split; [done|]. split; [by rewrite Hef|]. split; [exact (updated_page _ _ _ _ Hupd)|].
  intros k Hk Hne. by rewrite (view_updated_key _ _ _ _ _ Hupd Hk), decide_False, Hv1.
Qed.

Lemma map_page_used st page e :
  (exists limit, wf limit st) -> page_view st page = VEntry e ->
  contains (pte_flags e) PRESENT = true -> map_page (Some st) Size4KiB page PROGRAM_DATA_FLAGS = Panic.
Proof using PTL VL.
  intros [limit Hwf] Hv Hp. unfold map_page. cbn [unwrap mbind outcome_bind]. unfold take_frame.
  destruct (fs_allocate Size4KiB (PHYS_ALLOCATOR st)) as [[[a|] f']|]; cbn [mbind outcome_bind unwrap fst snd]; [|done..].
  set (st1 := mkPt _ _ _ _). cbn [map_to]. unfold map_to_4k.
  assert (in_window limit st1 (path L1 page)) as Hw by exact (wf_in_window limit st _ Hwf (path_path_ok L1 page)).
  destruct (traverse_window limit st1 L1 page Hw) as (r & -> & Hr). change (walk st1 (path L1 page)) with (walk st (path L1 page)) in Hr.
  unfold page_view, view in Hv. destruct (walk st (path L1 page)) as [t| |]; destruct r as [t'|[| |]]; try done; cbn [tres] in Hr.
  - subst t'. assert (rd st t (get_index L1 page) = e) as Hve by by injection Hv. cbn [mbind outcome_bind].
    change (rd st1 t (get_index L1 page)) with (rd st t (get_index L1 page)).
    rewrite Hve, (present_used e Hp). by destruct (result_ok (pte_frame e)).
  - injection Hv as <-. by rewrite new_flags in Hp.
Qed.

(** A fault in a page with an odd page number is never resolved: the mask that should align the
    faulting address clears bits 0 and 12 instead of the low twelve, so [fixup] maps the page
    before it; the faulting page stays unmapped, and when the access faults again the second
    [fixup] panics, because that neighbour is mapped already. *)
Theorem fixup_wrong_page limit st l i e addr :
  wf limit st -> fs_room (PHYS_ALLOCATOR st) 4 -> l !! i = Some e -> page_size e = 0x1000 ->
  canonical addr -> Z.testbit addr 12 = true ->
  page_view st addr = VEntry pte_new -> page_view st (addr - 0x1000) = VEntry pte_new ->
  exists l' st' e', cached_fixup l (Some st) i addr = Done (l', Some st') /\
    page_view st' addr = VEntry pte_new /\
    page_view st' (addr - 0x1000) = VEntry e' /\ contains (pte_flags e') PRESENT = true /\
    forall l2 j e2, l2 !! j = Some e2 -> page_size e2 = 0x1000 -> cached_fixup l2 (Some st') j addr = Panic.
Proof using FL PFL PTL PL VL MDL.
  intros Hwf Hroom Hl Hps Hc Hb Hv Hv0. assert (is_u64 addr) as Hu by (unfold canonical in Hc; unfold is_u64; lia).
  pose proof (fixup_page_odd addr Hu Hb) as Hfp. pose proof (odd_page_canonical addr Hc Hb) as Hcf. rewrite <- Hfp in Hcf.
  set (page := fixup_page 0x1000 addr) in *.
  pose proof (odd_page_key addr Hu Hb) as Hkey. fold page in Hkey.
  assert (page_key addr <> page_key page) as Hne by (rewrite Hkey; by apply odd_page_key_ne).
  assert (page_view st page = VEntry pte_new) as Hvp by by rewrite <- page_key_view, Hkey.
  destruct (map_page_view limit st page Hwf Hroom Hvp) as (st' & e' & Hmap & Hwf' & Hpr & Hve' & Hrest).
  assert (forall l2 j e2 m, l2 !! j = Some e2 -> page_size e2 = 0x1000 ->
    cached_fixup l2 m j addr = mm ← map_page m Size4KiB page PROGRAM_DATA_FLAGS;
      let l3 := alter sub_remain j (alter sub_remain j l2) in
      e3 ← unwrap (l3 !! j);
      if (fixup_remain e3 <=? 0) && clear_when_fixed e3 then Done (delete j l3, mm) else Done (l3, mm)) as Hunfold.
  { intros l2 j e2 m Hl2 Hp2. unfold cached_fixup. rewrite Hl2. cbn [unwrap mbind outcome_bind]. rewrite Hp2.
    fold page. rewrite virt_new_valid by done. done. }
  assert (exists l', cached_fixup l (Some st) i addr = Done (l', Some st')) as [l' Hl'].
  { rewrite (Hunfold l i e (Some st) Hl Hps), Hmap. cbn [mbind outcome_bind]. cbv zeta.
    rewrite !list_lookup_alter_eq, Hl. cbn [fmap option_fmap option_map unwrap mbind outcome_bind]. destruct (_ && _); by eexists. }
  exists l', st', e'. split; [done|]. split; [rewrite <- page_key_view, Hrest; [done|apply page_key_ok|done]|].
  split; [by rewrite <- page_key_view, <- Hkey|]. split; [done|].
  intros l2 j e2 Hl2 Hp2. rewrite (Hunfold l2 j e2 _ Hl2 Hp2). rewrite (map_page_used st' page e'); [done|by exists limit|done|done].
Qed.

End FixupPage.

Module FixupWitness.
Import FrameWitness PageTableWitness MemMapWitness.

Definition regions : list FixupEntry := [mkFixup 0x30000 0xfff 0 0x1000 true; mkFixup 0x10000 0xfff 0 0x1000 true].

Lemma regions_ok : fixups_ok regions.
Proof.
  split.
  - repeat constructor; unfold fx_end, canonical; cbn; lia.
  - repeat constructor.
Qed.

Lemma fixup_insert_lookup_witness :
  let new := mkFixup 0x20000 0x1fff 0 0x1000 true in
  exists l', fixup_insert regions 0x20000 0x2000 0x1000 false = Done (Ok tt, l') /\ fixups_ok l' /\ l' ≡ₚ new :: regions /\
    forall a, exists r, try_fixup l' a = Done r /\
      match r with
      | Some i => exists e, l' !! i = Some e /\ fx_address e <= a < fx_end e
      | None => Forall (fun e => ~ fx_address e <= a < fx_end e) l'
      end.
Proof.
  apply (fixup_insert_lookup regions 0x20000 0x2000 0x1000 false regions_ok); [|done|lia|].
  - unfold entry_ok, fx_end, canonical. cbn. lia.
  - unfold regions, fx_end. rewrite !Forall_cons. cbn. split; [lia|]. split; [lia|constructor].
Defined.

Lemma fixup_insert_overlap_witness :
  exists l', fixup_insert regions 0x30000 0x1000 0x1000 false = Done (Ok tt, l') /\ length l' = S (length regions).
Proof.
  apply (fixup_insert_overlap regions 0x30000 0x1000 0x1000 false (proj1 regions_ok)); [|done|lia].
  unfold entry_ok, fx_end, canonical. cbn. lia.
Defined.

Lemma fixup_wrong_page_witness :
  exists l' st' e', cached_fixup [mkFixup 0x10000 0xfff 0 0x1000 true] (Some empty) 0 0x15abc = Done (l', Some st') /\
    page_view st' 0x15abc = VEntry pte_new /\
    page_view st' (0x15abc - 0x1000) = VEntry e' /\ contains (pte_flags e') PRESENT = true /\
    forall l2 j e2, l2 !! j = Some e2 -> page_size e2 = 0x1000 -> cached_fixup l2 (Some st') j 0x15abc = Panic.
Proof.
  apply (fixup_wrong_page (2 ^ 46) empty [mkFixup 0x10000 0xfff 0 0x1000 true] 0 (mkFixup 0x10000 0xfff 0 0x1000 true) 0x15abc empty_wf);
    [done|done|done|unfold canonical; lia|done|done|done].
Defined.

(** A second region makes the first one impossible to remove: [remove] searches the list in
    ascending order, but [insert] keeps it descending. *)
Example fixup_remove_fails : fixup_remove regions 0x30000 = Done (Err tt, regions).
Proof. reflexivity. Qed.

End FixupWitness.
