(* ===== verification/FrameAttr.v ===== *)
(** * The frame attribute table

    [kernel/src/mem/frame_attribute_table.rs], with [unmap_and_free] of [kernel/src/mem/mem_map.rs] and
    [try_free_frame] of [kernel/src/mem/allocator/alloc_interface.rs], which are its clients.  The table maps frame numbers to
    reference-counted entries; an [Arc] is the address of a cell, so that an entry taken out of the
    table is still the one its other holders see.  [Kernel] joins the table, the page tables, the
    fix-up regions and the heap of address space that the operations touch.  The copy of a shared frame on a fault is in [Cow]. *)
From stdpp Require Import prelude gmap.
From S2P Require Import Prelude Ranges HighOrder FrameAlloc PageTable MemMap VirtFixup.
Open Scope Z_scope.

(** [FRAME_ATTR_ENTRY_FLAG] *)
Definition FRAME_ATTR_ENTRY_FLAG : Z := BIT_9.

(** [AttributeFlags] *)
Definition NO_DROP : Z := 1.
Definition COPY_ON_FAULT : Z := Z.shiftl 1 1.
Definition DMA_USE_MEM16 : Z := Z.shiftl 1 28.
Definition DMA_USE_MEM32 : Z := Z.shiftl 2 28.
Definition DMA_USE_MEM64 : Z := Z.shiftl 3 28.

Definition get_mem_region (f : Z) : MemRegion :=
  if contains f DMA_USE_MEM16 then Mem16
  else if contains f DMA_USE_MEM32 then Mem32
  else if contains f DMA_USE_MEM64 then Mem64
  else Mem64.

Record FrameAttributesInner := mkFae { alias_count : Z; fae_flags : Z }.

(** A slice of [table_len] slots at [table_addr], and the cells the slots point to. *)
Record FrameAttributeTable := mkFat {
  table_addr : Z; table_len : Z; table : gmap Z Z; cells : gmap Z FrameAttributesInner; next_cell : Z }.

(** [FrameAttributes]: a handle on an entry. *)
Record FrameAttributes := mkAttr { inner : Z; attr_addr : Z }.

Inductive FatOperation :=
| NewAlias (attributes : Z)
| NewFae (attributes : Z) (fallible : bool) (count : Z)
| Alias
| UnAlias
| Reclaim.

Definition INIT_COW : FatOperation := NewAlias 6.

Definition req_virt (op : FatOperation) : bool := match op with NewAlias _ | Alias => true | _ => false end.

Inductive OperationIncomplete := Complete | RemoveFAE | ClearPageProperties.

(** ** Cells *)
Definition get_cell (t : FrameAttributeTable) (c : Z) : FrameAttributesInner := default (mkFae 0 0) (cells t !! c).

Definition set_cell (t : FrameAttributeTable) (c : Z) (v : FrameAttributesInner) : FrameAttributeTable :=
  mkFat (table_addr t) (table_len t) (table t) (<[c := v]> (cells t)) (next_cell t).

Definition new_cell (t : FrameAttributeTable) (v : FrameAttributesInner) : Z * FrameAttributeTable :=
  (next_cell t, mkFat (table_addr t) (table_len t) (table t) (<[next_cell t := v]> (cells t)) (next_cell t + 1)).

Definition set_slot (t : FrameAttributeTable) (i : Z) (s : option Z) : FrameAttributeTable :=
  mkFat (table_addr t) (table_len t) (partial_alter (fun _ => s) i (table t)) (cells t) (next_cell t).

(** ** [FatOperation::operate] on a slot *)
Definition operate (op : FatOperation) (fae : option Z) (t : FrameAttributeTable) :
    outcome (OperationIncomplete * option Z * FrameAttributeTable) :=
  match op with
  | NewAlias attributes =>
      match fae with
      | Some d => Done (Complete, fae, set_cell t d (mkFae (alias_count (get_cell t d) ⊕ 1)%u64 attributes))
      | None => let '(d, t) := new_cell t (mkFae 2 attributes) in Done (Complete, Some d, t)
      end
  | NewFae attributes fallible count =>
      match fae with
      | Some d =>
          if fallible then Done (Complete, fae, set_cell t d (mkFae (alias_count (get_cell t d)) attributes))
          else Panic
      | None => let '(d, t) := new_cell t (mkFae count attributes) in Done (Complete, Some d, t)
      end
  | Alias =>
      d ← unwrap fae;
      Done (Complete, fae, set_cell t d (mkFae (alias_count (get_cell t d) ⊕ 1)%u64 (fae_flags (get_cell t d))))
  | UnAlias =>
      d ← unwrap fae;
      let c := get_cell t d in
      if contains (fae_flags c) NO_DROP then Done (Complete, fae, t)
      else
        let t := set_cell t d (mkFae (alias_count c ⊖ 1)%u64 (fae_flags c)) in
        if alias_count c <? 3 then Done (RemoveFAE, fae, t) else Done (Complete, fae, t)
  | Reclaim =>
      match fae with
      | Some d => if alias_count (get_cell t d) <=? 1 then Done (ClearPageProperties, None, t) else Done (Complete, fae, t)
      | None => Done (Complete, None, t)
      end
  end.

(** [FatOperation::do_op]: on the entry of a handle, not on the table. *)
Definition op_do_op (op : FatOperation) (fae : FrameAttributes) (t : FrameAttributeTable) : outcome FrameAttributeTable :=
  r ← operate op (Some (inner fae)) t; Done r.2.

(** Methods of [FrameAttributes]. *)
Definition attr_alias_count (t : FrameAttributeTable) (a : FrameAttributes) : Z := alias_count (get_cell t (inner a)).

Definition attr_alias (t : FrameAttributeTable) (a : FrameAttributes) : FrameAttributeTable :=
  let c := get_cell t (inner a) in set_cell t (inner a) (mkFae (alias_count c ⊕ 1)%u64 (fae_flags c)).

Definition attr_de_alias (t : FrameAttributeTable) (a : FrameAttributes) : FrameAttributeTable :=
  let c := get_cell t (inner a) in set_cell t (inner a) (mkFae (alias_count c ⊖ 1)%u64 (fae_flags c)).

Definition attr_set_flags (t : FrameAttributeTable) (a : FrameAttributes) (flags : Z) : FrameAttributeTable :=
  set_cell t (inner a) (mkFae (alias_count (get_cell t (inner a))) flags).

Definition attr_get_flags (t : FrameAttributeTable) (a : FrameAttributes) : Z := fae_flags (get_cell t (inner a)).

(** ** The table *)

(** [select]: the index of a frame; slices are bounds-checked. *)
Definition select (t : FrameAttributeTable) (frame : Z) : outcome Z :=
  let index := Z.shiftr frame 12 in
  if index <? table_len t then Done index else Panic.

Definition fat_lookup (fat : option FrameAttributeTable) (frame : Z) : outcome (option FrameAttributes) :=
  t ← unwrap fat;
  i ← select t frame;
  Done ((fun c => mkAttr c frame) <$> table t !! i).

Definition do_op_phys (fat : option FrameAttributeTable) (addr : Z) (op : FatOperation) :
    outcome (option FrameAttributes * option FrameAttributeTable) :=
  t ← unwrap fat;
  i ← select t addr;
  r ← operate op (table t !! i) t;
  let '(_, s, t) := r in
  let t := set_slot t i s in
  Done ((fun c => mkAttr c addr) <$> table t !! i, Some t).

Definition BITS48_TABLE_ADDRESS : Z := 0xFFFFFF8000000000.
Definition BITS48_TABLE_SIZE : Z := 0x1000000000.
Definition BITS57_TABLE_ADDRESS : Z := 0xFFFF000000000000.
Definition BITS57_TABLE_SIZE : Z := 0x200000000000.

Section Kernel.
Context {F : Type} `{FS : FrameSource F} `{PF : PhysFrameOps} `{PO : PteOps} `{PA : PhysAddrOps} `{VA : VirtAddrOps}
        `{MD : MapperDefaults} {H : Type} `{HA : HeapAlloc H}.

(** [contents] gives what a frame holds. *)
Record Kernel := mkKernel {
  MEMORY_MAP : MemoryMap (F := F); ATTRIBUTE_TABLE_HEAD : option FrameAttributeTable;
  KERNEL_FIXUP_LIST : list FixupEntry; HEAP : H; contents : gmap Z Z }.

Definition set_map (m : MemoryMap (F := F)) (k : Kernel) : Kernel :=
  mkKernel m (ATTRIBUTE_TABLE_HEAD k) (KERNEL_FIXUP_LIST k) (HEAP k) (contents k).
Definition set_fat (t : option FrameAttributeTable) (k : Kernel) : Kernel :=
  mkKernel (MEMORY_MAP k) t (KERNEL_FIXUP_LIST k) (HEAP k) (contents k).
Definition set_fixups (l : list FixupEntry) (k : Kernel) : Kernel :=
  mkKernel (MEMORY_MAP k) (ATTRIBUTE_TABLE_HEAD k) l (HEAP k) (contents k).
Definition set_heap (h : H) (k : Kernel) : Kernel :=
  mkKernel (MEMORY_MAP k) (ATTRIBUTE_TABLE_HEAD k) (KERNEL_FIXUP_LIST k) h (contents k).
Definition set_contents (c : gmap Z Z) (k : Kernel) : Kernel :=
  mkKernel (MEMORY_MAP k) (ATTRIBUTE_TABLE_HEAD k) (KERNEL_FIXUP_LIST k) (HEAP k) c.

(** [FrameAttributeTable::init]. *)
Definition fat_init (is_57_bit : bool) (k : Kernel) : outcome Kernel :=
  let '(len, addr) := if is_57_bit then (BITS57_TABLE_SIZE, BITS57_TABLE_ADDRESS)
                      else (BITS48_TABLE_SIZE, BITS48_TABLE_ADDRESS) in
  r ← set_fixup_region (KERNEL_FIXUP_LIST k) addr (len ⊗ 8)%u64 PAGE_SIZE true;
  _ ← unwrap (result_ok r.1);
  Done (set_fat (Some (mkFat addr len ∅ ∅ 0)) (set_fixups r.2 k)).

(** [PHYS_ALLOCATOR.lock().dealloc(addr, layout)] for a block of a page size. *)
Definition dealloc_frame (k : Kernel) (addr : Z) (s : PageSize) : outcome Kernel :=
  st ← unwrap (MEMORY_MAP k);
  f ← fs_dealloc s addr (PHYS_ALLOCATOR st);
  Done (set_map (Some (mkPt (offset_base st) (l4_table st) (mem st) f)) k).

(** The closure [free] of [unmap_and_free]. *)
Definition free_entry (k : Kernel) (entry : pte) (s : PageSize) : outcome Kernel :=
  if contains (pte_flags entry) FRAME_ATTR_ENTRY_FLAG then
    r ← do_op_phys (ATTRIBUTE_TABLE_HEAD k) (pte_addr entry) UnAlias;
    let '(fae, fat) := r in
    let k := set_fat fat k in
    t ← unwrap fat;
    let free := match fae with Some fae => attr_alias_count t fae <=? 1 | None => true end in
    if free then dealloc_frame k (pte_addr entry) s else Done k
  else Done k.

Definition unmap_and_free (k : Kernel) (addr : Z) : outcome (result unit unit * Kernel) :=
  e ← map_get_entry (MEMORY_MAP k) Size4KiB (containing_address Size4KiB addr);
  match e with
  | Ok e =>
      if contains (pte_flags e) PRESENT then
        r ← unmap_page (MEMORY_MAP k) Size4KiB (containing_address Size4KiB addr);
        k ← free_entry (set_map r.2 k) e Size4KiB;
        Done (Ok tt, k)
      else Done (Err tt, k)
  | Err NotMapped => Done (Err tt, k)
  | Err ParentHugePage =>
      e ← map_get_entry (MEMORY_MAP k) Size2MiB (containing_address Size2MiB addr);
      match e with
      | Ok e =>
          r ← unmap_page (MEMORY_MAP k) Size2MiB (containing_address Size2MiB addr);
          k ← free_entry (set_map r.2 k) e Size2MiB;
          Done (Ok tt, k)
      | Err NotMapped => Panic
      | Err ParentHugePage =>
          r ← unmap_page (MEMORY_MAP k) Size1GiB (containing_address Size1GiB addr);
          let k := set_map r.2 k in
          e ← map_get_entry (MEMORY_MAP k) Size1GiB (containing_address Size1GiB addr);
          e ← unwrap (result_ok e);
          k ← free_entry k e Size1GiB;
          Done (Ok tt, k)
      end
  end.

(** [try_free_frame]: [FrameAttributes::alias_count] is read after the operation. *)
Definition try_free_frame (k : Kernel) (addr : Z) : outcome Kernel :=
  r ← do_op_phys (ATTRIBUTE_TABLE_HEAD k) addr UnAlias;
  let '(fae, fat) := r in
  let k := set_fat fat k in
  t ← unwrap fat;
  let will_free := match fae with Some fae => attr_alias_count t fae =? 0 | None => true end in
  if will_free then dealloc_frame k addr Size4KiB else Done k.

(** [rm_frame_entry_inner]: the slots of a page of the table are scanned, and an empty page is
    given back. *)
Definition rm_frame_entry_inner (k : Kernel) (frame : Z) : outcome Kernel :=
  t ← unwrap (ATTRIBUTE_TABLE_HEAD k);
  i ← select t frame;
  let t := set_slot t i None in
  let k := set_fat (Some t) k in
  let align := Z.land i (wnot (512 - 1)) in
  if table_len t <? align + 512 then Panic
  else if forallb (fun n => bool_decide (table t !! (align + Z.of_nat n) = None)) (seq 0 512) then
    addr ← virt_new (table_addr t ⊕ align ⊗ 8)%u64;
    r ← unmap_and_free k addr;
    _ ← unwrap (result_ok r.1);
    Done r.2
  else Done k.

Definition rm_page_entry (k : Kernel) (frame : Z) : outcome Kernel := rm_frame_entry_inner k frame.

(** [FrameAttributes::clear]. *)
Definition attr_clear (k : Kernel) (a : FrameAttributes) : outcome Kernel := rm_page_entry k (attr_addr a).

Definition lookup_ptr (k : Kernel) (ptr : Z) : outcome (option FrameAttributes) :=
  phys ← translate (MEMORY_MAP k) ptr;
  match phys with
  | Some phys => a ← phys_new phys; fat_lookup (ATTRIBUTE_TABLE_HEAD k) a
  | None => Done None
  end.

(** [FrameAttributeTable::get_entry]: the entry of an address and the size of its page. *)
Definition fat_get_entry (mm : MemoryMap (F := F)) (ptr : Z) : outcome (option (pte * PageSize)) :=
  ptr ← virt_new ptr;
  e ← map_get_entry mm Size4KiB (containing_address Size4KiB ptr);
  match e with
  | Ok e => Done (Some (e, Size4KiB))
  | Err NotMapped => Done None
  | Err ParentHugePage =>
      e ← map_get_entry mm Size2MiB (containing_address Size2MiB ptr);
      match e with
      | Ok e => Done (Some (e, Size2MiB))
      | Err NotMapped => Done None
      | Err ParentHugePage =>
          e ← map_get_entry mm Size1GiB (containing_address Size1GiB ptr);
          e ← unwrap (result_ok e);
          Done (Some (e, Size1GiB))
      end
  end.

(** ** [FrameAttributeTable::do_op] *)

(** [set_flags] of the page of an address, of whatever size. *)
Definition flag_page (k : Kernel) (addr : Z) (s : PageSize) (flags : Z) : outcome Kernel :=
  r ← map_set_flags (MEMORY_MAP k) s (containing_address s addr) flags;
  _ ← unwrap (result_ok r.1);
  Done (set_map r.2 k).

(** One turn of the loop over the pages of [tgt]. *)
Definition do_op_page (op : FatOperation) (tgt : Z) (virt : option Z) (cr2 : Z) (k : Kernel) (offset : Z) : outcome Kernel :=
  addr ← virt_new (tgt ⊕ offset)%u64;
  r ← fat_get_entry (MEMORY_MAP k) addr;
  ek ← match r with
       | Some es => Done (es, k)
       | None =>
           q ← query_fixup cr2 (KERNEL_FIXUP_LIST k);
           match q with
           | None => Panic
           | Some (i, a) =>
               c ← cached_fixup (KERNEL_FIXUP_LIST k) (MEMORY_MAP k) i a;
               let k := set_map c.2 (set_fixups c.1 k) in
               r ← fat_get_entry (MEMORY_MAP k) addr;
               es ← unwrap r;
               Done (es, k)
           end
       end;
  let '(entry, size, k) := ek in
  k ← match op with
      | NewFae _ _ _ | NewAlias _ =>
          flag_page k addr size (Z.ldiff (Z.lor (pte_flags entry) FRAME_ATTR_ENTRY_FLAG) WRITABLE)
      | _ => Done k
      end;
  t ← unwrap (ATTRIBUTE_TABLE_HEAD k);
  index ← select t (pte_addr entry);
  o ← operate op (table t !! index) t;
  let '(inc, s, t) := o in
  let k := set_fat (Some (set_slot t index s)) k in
  k ← match inc with
      | Complete => Done k
      | RemoveFAE => rm_frame_entry_inner k (pte_addr entry)
      | ClearPageProperties =>
          flag_page k addr size (Z.ldiff (Z.lor (pte_flags entry) WRITABLE) FRAME_ATTR_ENTRY_FLAG)
      end;
  match virt with
  | None => Done k
  | Some v =>
      let flags := Z.lor (Z.ldiff (pte_flags entry) WRITABLE) FRAME_ATTR_ENTRY_FLAG in
      let s := match size with Size4KiB => Size4KiB | _ => Size2MiB end in
      a ← virt_new (v ⊕ offset)%u64;
      m ← map_frame_to_page (MEMORY_MAP k) s a (pte_addr entry) flags;
      _ ← unwrap (result_ok m.1);
      Done (set_map m.2 k)
  end.

Fixpoint do_op_pages (op : FatOperation) (tgt : Z) (virt : option Z) (cr2 : Z) (k : Kernel) (offsets : list Z) : outcome Kernel :=
  match offsets with
  | [] => Done k
  | o :: os => k ← do_op_page op tgt virt cr2 k o; do_op_pages op tgt virt cr2 k os
  end.

(** [(0..len).step_by(4096)] *)
Definition steps (len : Z) : list Z := (fun i => 4096 * Z.of_nat i) <$> seq 0 (Z.to_nat ((len + 4095) / 4096)).

Definition do_op (k : Kernel) (tgt len align cr2 : Z) (op : FatOperation) : outcome (option Z * Kernel) :=
  _ ← unwrap (ATTRIBUTE_TABLE_HEAD k);
  vk ← (if req_virt op then
          layout ← unwrap (from_size_align len align);
          v ← virt_allocate layout (HEAP k);
          r ← unwrap (result_ok v.1);
          Done (Some r.1, set_heap v.2 k)
        else Done (None, k));
  let '(virt, k) := vk in
  k ← do_op_pages op tgt virt cr2 k (steps len);
  Done ((fun v => v ⊕ Z.land tgt (PAGE_SIZE - 1))%u64 <$> virt, k).

End Kernel.

Section KernelLaws.
Context {F : Type} `{FS : FrameSource F} {FL : FrameSourceLaws F} {FRL : FrameReturnLaws F}
        `{PF : PhysFrameOps} {PFL : PhysFrameLaws} `{PO : PteOps} {PTL : PteLaws} `{PA : PhysAddrOps} {PL : PhysAddrLaws}
        `{VA : VirtAddrOps} {VL : VirtAddrLaws} `{MD : MapperDefaults} {MDL : MapperDefaultsLaws}
        {H : Type} `{HA : HeapAlloc H}.
Implicit Types k : Kernel (F := F) (H := H).

(** Replaces the frame allocator under the tables. *)
Definition with_frames (st : OffsetPageTable (F := F)) (f : F) : OffsetPageTable (F := F) :=
  mkPt (offset_base st) (l4_table st) (mem st) f.

Lemma page_view_frames st f page : page_view (with_frames st f) page = page_view st page.
Proof. done. Qed.

Lemma get_entry_used limit st page e :
  wf limit st -> page_view st page = VEntry e -> is_unused e = false ->
  map_get_entry (Some st) Size4KiB page = Done (Ok e).
Proof using PTL VL.
  intros Hwf Hv Hu. unfold map_get_entry. cbn [unwrap mbind outcome_bind from_page_size]. unfold get_entry.
  change (traverse st L1) with (traverse_mut st L1).
  destruct (traverse_ok limit st L1 (containing_address Size4KiB page) Hwf) as (r & -> & Hr). cbn [mbind outcome_bind].
  rewrite path_containing in Hr. unfold page_view, view in Hv. rewrite get_index_page.
  destruct (walk st (path L1 page)) as [t| |]; destruct r as [t'|[| |]]; try done; cbn [tres] in Hr.
  - subst t'. assert (rd st t (get_index L1 page) = e) as -> by by injection Hv. done.
  - injection Hv as <-. by rewrite (proj2 (unused_new pte_new) eq_refl) in Hu.
Qed.

Lemma unmap_page_used limit st page e :
  wf limit st -> page_view st page = VEntry e -> is_unused e = false ->
  exists st', unmap_page (Some st) Size4KiB page = Done (pte_addr e, Some st') /\ wf limit st' /\
    PHYS_ALLOCATOR st' = PHYS_ALLOCATOR st /\ offset_base st' = offset_base st /\
    (forall p, path_ok p -> walk st' p = walk st p) /\
    (forall q, key_ok q -> key_view st' q = if decide (q = page_key page) then VEntry pte_new else key_view st q).
Proof using PTL VL.
  intros Hwf Hv Hu. unfold unmap_page. cbn [unwrap mbind outcome_bind unmap]. unfold unmap_4k.
  destruct (traverse_ok limit st L1 page Hwf) as (r & -> & Hr). cbn [mbind outcome_bind]. pose proof Hv as Hv'.
  unfold page_view, view in Hv. destruct (walk st (path L1 page)) as [t| |] eqn:Ew; destruct r as [t'|[| |]]; try done; cbn [tres] in Hr.
  - subst t'. assert (rd st t (get_index L1 page) = e) as -> by by injection Hv. rewrite Hu. cbn [mbind outcome_bind].
    eexists. split; [done|]. destruct (entry_written limit st page t pte_new Hwf Ew) as (H1 & H2 & H3). split; [done|]. done.
  - injection Hv as <-. by rewrite (proj2 (unused_new pte_new) eq_refl) in Hu.
Qed.

(** An entry of the table: the frame is in range, its slot points to a cell. *)
Definition has_fae (t : FrameAttributeTable) (frame n flags : Z) : Prop :=
  Z.shiftr frame 12 < table_len t /\ exists c, table t !! Z.shiftr frame 12 = Some c /\ cells t !! c = Some (mkFae n flags).

Lemma unalias_ok t frame n flags :
  has_fae t frame n flags -> 1 <= n < 2 ^ 64 -> contains flags NO_DROP = false ->
  exists t' a, do_op_phys (Some t) frame UnAlias = Done (Some a, Some t') /\ attr_alias_count t' a = n - 1 /\
    has_fae t' frame (n - 1) flags.
Proof.
  intros (Hlt & c & Hs & Hc) Hn Hnd. unfold do_op_phys. cbn [unwrap mbind outcome_bind]. unfold select.
  rewrite (proj2 (Z.ltb_lt _ _) Hlt). cbn [mbind outcome_bind]. rewrite Hs. cbn [operate unwrap mbind outcome_bind].
  unfold get_cell. rewrite Hc. cbn [default id alias_count fae_flags]. rewrite Hnd, wsub_small by lia.
  set (t1 := set_cell t c (mkFae (n - 1) flags)).
  assert (exists inc, (if n <? 3 then Done (RemoveFAE, Some c, t1) else Done (Complete, Some c, t1)) = Done (inc, Some c, t1))
    as [inc ->] by (destruct (n <? 3); by eexists).
  cbn [mbind outcome_bind]. exists (set_slot t1 (Z.shiftr frame 12) (Some c)), (mkAttr c frame).
  assert (table (set_slot t1 (Z.shiftr frame 12) (Some c)) !! Z.shiftr frame 12 = Some c) as Hs'
    by (cbn; by rewrite lookup_partial_alter_eq).
  rewrite Hs'. split; [done|]. split.
  - unfold attr_alias_count, get_cell. cbn. by rewrite lookup_insert_eq.
  - split; [done|]. exists c. split; [done|]. cbn. by rewrite lookup_insert_eq.
Qed.

(** Unmapping a page of a counted frame: the count drops by one, and the frame goes back to the
    allocator when at most one user is left. *)
Lemma unmap_counted limit k st t addr e n flags :
  MEMORY_MAP k = Some st -> ATTRIBUTE_TABLE_HEAD k = Some t -> wf limit st ->
  page_view st addr = VEntry e -> contains (pte_flags e) PRESENT = true -> contains (pte_flags e) FRAME_ATTR_ENTRY_FLAG = true ->
  has_fae t (pte_addr e) n flags -> 2 <= n < 2 ^ 64 -> contains flags NO_DROP = false ->
  pte_addr e < limit -> ~ fs_free (PHYS_ALLOCATOR st) (pte_addr e) ->
  (forall p, path_ok p -> walk st p <> WTable (offset_base st + pte_addr e)) ->
  exists st' t', unmap_and_free k addr = Done (Ok tt, set_fat (Some t') (set_map (Some st') k)) /\ wf limit st' /\
    has_fae t' (pte_addr e) (n - 1) flags /\
    (forall x, fs_free (PHYS_ALLOCATOR st') x <-> fs_free (PHYS_ALLOCATOR st) x \/ n = 2 /\ x = pte_addr e) /\
    (forall p, path_ok p -> walk st' p = walk st p) /\
    (forall q, key_ok q -> key_view st' q = if decide (q = page_key addr) then VEntry pte_new else key_view st q).
Proof using FL FRL PTL VL.
  intros Hm Ht Hwf Hv Hpr Hfa Hfae Hn Hnd Hlim Hnf Htree. pose proof (present_used e Hpr) as Hu. unfold unmap_and_free. rewrite Hm.
  assert (page_key (containing_address Size4KiB addr) = page_key addr) as Hkey
    by (unfold page_key; by rewrite path_containing, get_index_page).
  assert (page_view st (containing_address Size4KiB addr) = VEntry e) as Hv' by by rewrite page_view_containing.
  rewrite (get_entry_used limit st _ e Hwf Hv' Hu). cbn [mbind outcome_bind]. rewrite Hpr.
  destruct (unmap_page_used limit st _ e Hwf Hv' Hu) as (st1 & -> & Hwf1 & Hph & Hb1 & Hw1 & Hview). rewrite Hkey in Hview.
  cbn [mbind outcome_bind fst snd]. unfold free_entry. rewrite Hfa. cbn [ATTRIBUTE_TABLE_HEAD set_map]. rewrite Ht.
  destruct (unalias_ok t (pte_addr e) n flags Hfae ltac:(lia) Hnd) as (t' & a & -> & Hcnt & Hfae').
  cbn [mbind outcome_bind unwrap]. rewrite Hcnt. destruct (Z.leb_spec (n - 1) 1).
  - assert (n = 2) as -> by lia. unfold dealloc_frame. cbn [MEMORY_MAP set_fat set_map unwrap mbind outcome_bind].
    destruct (wf_source _ _ Hwf1) as [Hinv Hsrc]. destruct (addr_range e) as [Har Hal].
    destruct (fs_dealloc_ok (PHYS_ALLOCATOR st1) (pte_addr e) Hinv Har Hal ltac:(by rewrite Hph)) as (f' & -> & Hinv' & Hfree').
    cbn [mbind outcome_bind]. exists (with_frames st1 f'), t'. split; [done|]. split; [|split; [done|split; [|split; [exact Hw1|exact Hview]]]].
    + destruct Hwf1 as [W1 W2 W3 W4 W5]. split; [exact W1|exact W2|exact W3| |].
      * intros p x Hp [Hx| ->]%Hfree'; [by apply W4|]. change (offset_base (with_frames st1 f')) with (offset_base st1).
        rewrite Hb1. change (walk (with_frames st1 f') p) with (walk st1 p). rewrite Hw1 by done. by apply Htree.
      * split; [done|]. intros x [Hx| ->]%Hfree'; [by apply Hsrc|lia].
    + intros x. change (PHYS_ALLOCATOR (with_frames st1 f')) with f'. rewrite Hfree', Hph. split; [intros [?| ->]; [by left|by right]|intros [?|[_ ->]]; [by left|by right]].
  - exists st1, t'. split; [done|]. split; [done|]. split; [done|]. rewrite Hph. split; [|done]. intros x. split; [by left|].
    intros [Hx|[-> _]]; [done|lia].
Qed.

(** [unmap_and_free] frees frames that are still in use: when two pages share a frame and one of
    them is unmapped, the count is one afterwards, which the code takes for "not aliased"; the
    frame goes back to the allocator while the other page maps it. *)
Theorem unmap_frees_shared limit k st t addr other e e' flags :
  MEMORY_MAP k = Some st -> ATTRIBUTE_TABLE_HEAD k = Some t -> wf limit st ->
  page_view st addr = VEntry e -> contains (pte_flags e) PRESENT = true -> contains (pte_flags e) FRAME_ATTR_ENTRY_FLAG = true ->
  page_view st other = VEntry e' -> pte_addr e' = pte_addr e -> page_key other <> page_key addr ->
  has_fae t (pte_addr e) 2 flags -> contains flags NO_DROP = false ->
  pte_addr e < limit -> ~ fs_free (PHYS_ALLOCATOR st) (pte_addr e) ->
  (forall p, path_ok p -> walk st p <> WTable (offset_base st + pte_addr e)) ->
  exists k' st', unmap_and_free k addr = Done (Ok tt, k') /\ MEMORY_MAP k' = Some st' /\
    page_view st' other = VEntry e' /\ fs_free (PHYS_ALLOCATOR st') (pte_addr e').
Proof using FL FRL PTL VL.
  intros Hm Ht Hwf Hv Hpr Hfa Hv' Ha Hne Hfae Hnd Hlim Hnf Htree.
  destruct (unmap_counted limit k st t addr e 2 flags) as (st' & t' & Heq & Hwf' & _ & Hfree & _ & Hview); try done.
  eexists _, st'. split; [exact Heq|]. split; [done|]. split.
  - rewrite <- page_key_view, Hview, decide_False; [done|done|apply page_key_ok].
  - apply Hfree. by right.
Qed.

Lemma contains_bit f i : 0 <= i -> contains f (2 ^ i) = Z.testbit f i.
Proof.
  intros Hi. unfold contains. destruct (Z.testbit f i) eqn:E.
  - apply Z.eqb_eq, Z.bits_inj'. intros n Hn. rewrite Z.land_spec, Z.pow2_bits_eqb by lia.
    destruct (Z.eqb_spec i n) as [<-|]; [by rewrite E|apply andb_false_r].
  - apply Z.eqb_neq. intros Heq. apply (f_equal (fun z => Z.testbit z i)) in Heq. revert Heq.
    by rewrite Z.land_spec, E, Z.pow2_bits_true by lia.
Qed.

(** [map_to] where the tables exist already. *)
Lemma map_to_table limit st page frame flags parent t :
  wf limit st -> walk st (path L1 page) = WTable t -> page_view st page = VEntry pte_new ->
  0 <= frame < 2 ^ 52 -> frame mod PAGE_SIZE = 0 -> valid_flags flags -> contains flags PRESENT = true ->
  exists e st', map_to_4k st page frame flags parent = Done (Ok tt, st') /\ wf limit st' /\ pte_addr e = frame /\ pte_flags e = flags /\
    PHYS_ALLOCATOR st' = PHYS_ALLOCATOR st /\ view_updated st st' page e.
Proof using PTL VL.
  intros Hwf Hw Hv Hfr Hal Hvf Hpr. unfold map_to_4k. destruct (traverse_ok limit st L1 page Hwf) as (r & -> & Hr).
  rewrite Hw in Hr. destruct r as [t'|]; [|done]. cbn [tres] in Hr. subst t'. cbn [mbind outcome_bind].
  assert (rd st t (get_index L1 page) = pte_new) as Hrd by (rewrite (page_view_entry st page t Hw) in Hv; by injection Hv).
  rewrite (proj2 (unused_new _) Hrd).
  destruct (map_leaf limit st page frame flags t) as (e & -> & H1 & H2 & H3 & H4 & H5); [done..|]. cbn [mbind outcome_bind].
  by eexists e, _.
Qed.

End KernelLaws.

(** ** Departures from the documentation *)

(** [DMA_USE_MEM64] contains the bit of [DMA_USE_MEM16], which is asked for first. *)
Example mem64_is_mem16 : get_mem_region DMA_USE_MEM64 = Mem16.
Proof. reflexivity. Qed.

(** [NewFae] panics on an existing entry when [fallible] is clear, not when it is set. *)
Lemma new_fae_fallible attributes count d t :
  operate (NewFae attributes false count) (Some d) t = Panic /\
  exists t', operate (NewFae attributes true count) (Some d) t = Done (Complete, Some d, t').
Proof. split; [done|]. by eexists. Qed.

(** With [NO_DROP] the count is not decremented at all. *)
Lemma unalias_no_drop d t :
  contains (fae_flags (get_cell t d)) NO_DROP = true -> operate UnAlias (Some d) t = Done (Complete, Some d, t).
Proof. intros Hn. cbn. by rewrite Hn. Qed.

Section Leak.
Context {F : Type} `{FS : FrameSource F} `{PO : PteOps} {H : Type}.

(** Frames without an attribute entry are never given back by [unmap_and_free]. *)
Lemma free_entry_leaks (k : Kernel (F := F) (H := H)) e s :
  contains (pte_flags e) FRAME_ATTR_ENTRY_FLAG = false -> free_entry k e s = Done k.
Proof. intros Hf. unfold free_entry. by rewrite Hf. Qed.

End Leak.

Module FrameAttrWitness.
Import FrameWitness PageTableWitness MemMapWitness.

Definition entry (z : Z) : @pte pte_ops := z.

(** Tables at [0x1000] to [0x4000]; pages 5 and 6 both map frame [0x20000], read only and counted. *)
Definition shared : OffsetPageTable (F := list Z) :=
  wr (wr (wr (wr (wr (mkPt BASE (BASE + 0x1000) ∅ [0x8000; 0x9000; 0xa000])
    (BASE + 0x1000) 0 (entry 0x2003)) (BASE + 0x2000) 0 (entry 0x3003)) (BASE + 0x3000) 0 (entry 0x4003))
    (BASE + 0x4000) 5 (entry 0x20201)) (BASE + 0x4000) 6 (entry 0x20201).

Lemma shared_rd t i : rd shared t i =
  if decide ((t, i) = (BASE + 0x4000, 6)) then entry 0x20201 else if decide ((t, i) = (BASE + 0x4000, 5)) then entry 0x20201
  else if decide ((t, i) = (BASE + 0x3000, 0)) then entry 0x4003 else if decide ((t, i) = (BASE + 0x2000, 0)) then entry 0x3003
  else if decide ((t, i) = (BASE + 0x1000, 0)) then entry 0x2003 else entry 0.
Proof. unfold shared. rewrite !rd_wr. done. Qed.

Lemma shared_walk p t : path_ok p -> walk shared p = WTable t ->
  (p, t) ∈ [([], BASE + 0x1000); ([0], BASE + 0x2000); ([0; 0], BASE + 0x3000); ([0; 0; 0], BASE + 0x4000)].
Proof.
  assert (forall n, (n < 3)%nat -> forall p t, length p = S n -> walk shared p = WTable t ->
    p = replicate (S n) 0 /\ t = BASE + 0x2000 + 0x1000 * Z.of_nat n) as Hstep.
  { induction n as [|n IH]; intros Hn q x Hl; destruct q as [|i q _] using rev_ind; try done;
      rewrite length_app in Hl; cbn in Hl.
    - assert (q = []) as -> by (apply length_zero_iff_nil; lia). cbn. unfold wstep. rewrite shared_rd.
      repeat (destruct (decide _) as [E|_]; [try discriminate E|]); [|done]. injection E as ->. intros [= <-]. done.
    - rewrite walk_snoc. destruct (walk shared q) as [y| |] eqn:E; [|done..].
      destruct (IH ltac:(lia) q y ltac:(lia) E) as [-> ->]. cbn [wnext]. unfold wstep. rewrite shared_rd.
      destruct n as [|[|]]; [| |lia]; repeat (destruct (decide _) as [E'|_]; [try discriminate E'|]); try done;
        injection E' as ->; intros [= <-]; done. }
  intros [Hl _] Hw. destruct p as [|i p]; [injection Hw as <-; left|].
  destruct (Hstep (length p) ltac:(cbn in Hl; lia) (i :: p) t eq_refl Hw) as [Hp ->]. rewrite Hp.
  destruct p as [|j [|m [|]]]; cbn in Hl; [right; left|right; right; left|right; right; right; left|lia].
Qed.

Lemma shared_wf : wf (2 ^ 46) shared.
Proof.
  split.
  - exact (wf_limit _ _ boot_wf).
  - intros p t Hp Hw%shared_walk; [|done]. rewrite !elem_of_cons in Hw. change (offset_base shared) with BASE.
    destruct Hw as [[= _ ->]|[[= _ ->]|[[= _ ->]|[[= _ ->]|[]%elem_of_nil]]]]; lia.
  - intros p q t Hp Hq Hw%shared_walk Hw'%shared_walk; [|done..]. rewrite !elem_of_cons in Hw, Hw'.
    destruct Hw as [[= -> ->]|[[= -> ->]|[[= -> ->]|[[= -> ->]|[]%elem_of_nil]]]];
      destruct Hw' as [E|[E|[E|[E|[]%elem_of_nil]]]]; apply pair_eq in E as [-> E]; (done || (vm_compute in E; discriminate E)).
  - intros p a Hp Hf Hw%shared_walk; [|done]. change (offset_base shared) with BASE in Hw.
    rewrite !elem_of_cons in Hw. cbn in Hf. rewrite !elem_of_cons, elem_of_nil in Hf.
    destruct Hw as [[= _ E]|[[= _ E]|[[= _ E]|[[= _ E]|[]%elem_of_nil]]]]; lia.
  - split; [split; [|by repeat constructor]; apply (bool_decide_unpack (NoDup (PHYS_ALLOCATOR shared))); vm_compute; exact I|].
    intros a. cbn. rewrite !elem_of_cons, elem_of_nil. lia.
Qed.

Lemma shared_tree p : path_ok p -> walk shared p <> WTable (offset_base shared + 0x20000).
Proof.
  intros Hp Hw%shared_walk; [|done]. change (offset_base shared) with BASE in Hw. rewrite !elem_of_cons in Hw.
  destruct Hw as [[= _ E]|[[= _ E]|[[= _ E]|[[= _ E]|[]%elem_of_nil]]]]; lia.
Qed.

(** The frame has two users and is copied on a fault; the heap is not used. *)
Definition counted : FrameAttributeTable := mkFat 0 0x1000 {[ 0x20 := 0 ]} {[ 0 := mkFae 2 2 ]} 1.

Definition sharing : Kernel (F := list Z) (H := unit) := mkKernel (Some shared) (Some counted) [] tt {[ 0x20000 := 77 ]}.

Lemma counted_fae : has_fae counted 0x20000 2 2.
Proof. split; [done|]. by exists 0. Qed.

Lemma unmap_frees_shared_witness :
  exists k' st', unmap_and_free sharing 0x5000 = Done (Ok tt, k') /\ MEMORY_MAP k' = Some st' /\
    page_view st' 0x6000 = VEntry (entry 0x20201) /\ fs_free (PHYS_ALLOCATOR st') 0x20000.
Proof.
  apply (unmap_frees_shared (2 ^ 46) sharing shared counted 0x5000 0x6000 (entry 0x20201) (entry 0x20201) 2); try done.
  - exact shared_wf.
  - exact counted_fae.
  - change (~ 0x20000 ∈ [0x8000; 0x9000; 0xa000]). rewrite !elem_of_cons, elem_of_nil. lia.
  - exact shared_tree.
Defined.

End FrameAttrWitness.
