(* ===== verification/HeapBuddy.v ===== *)
(** * The kernel heap: buddy allocator of address space

    Model of [kernel/src/mem/allocator/buddy_alloc.rs] ([BuddyAllocatorInner] behind a
    [ReentrantMutex]) and its use below the fixed-size-block allocator, as
    [kernel/src/mem/allocator.rs] sets it up.  The buddy allocator proper is the [Backend] of
    [FrameAlloc], in the configuration for virtual addresses; [VirtAddr::new] of the
    [memory_addresses] crate is a parameter.

    The backend is given [alloc::Global] for the nodes of its free lists, and the mutex is re-entrant
    so that it can take them from this heap.  When it does is up to the crate; the operations of
    the [Backend] class change the backend only, so what is shown here is about calls in which it
    does not. *)
From stdpp Require Import prelude gmap.
From S2P Require Import Prelude Ranges FixedBlock HighOrder FrameAlloc.
Open Scope Z_scope.

(** Virtual addresses: the upper canonical half is valid. *)
Class VirtAddrOps := { virt_new : Z -> outcome Z; virt_add : Z -> Z -> outcome Z }.

Definition UPPER_HALF : Z := 2 ^ 64 - 2 ^ 47.

Class VirtAddrLaws `{VirtAddrOps} := {
  virt_new_valid : forall a, UPPER_HALF <= a < 2 ^ 64 -> virt_new a = Done a;
}.

Module HeapBuddy.

Record BuddyAllocatorInner (B : Type) := mkHeap {
  backend : B; high_order_alloc : list HighOrder.FreeMem; start : option Z; end_ : Z; extend_recurse : bool }.
Arguments mkHeap {B}.
Arguments backend {B}.
Arguments high_order_alloc {B}.
Arguments start {B}.
Arguments end_ {B}.
Arguments extend_recurse {B}.

Section Ops.
Context {B : Type} `{BK : Backend B} `{VO : VirtAddrOps}.

Definition MAX_ORDER_SIZE : Z := ORDER_MAX_SIZE.
Definition HIGH_ORDER_BLOCK_SIZE : Z := MAX_ORDER_SIZE * 2.

Definition new (b : B) : BuddyAllocatorInner B := mkHeap b [] None 0 false.

Definition layout_high (l : Layout) : bool := HIGH_ORDER_BLOCK_SIZE / 2 <=? Z.max (l_size l) (l_align l).

Definition extend (h : BuddyAllocatorInner B) : outcome (BuddyAllocatorInner B) :=
  a ← virt_new (end_ h);
  let '(r, b') := bk_deallocate MAX_ORDER_SIZE a (backend h) in
  _ ← unwrap (result_ok r);
  Done (mkHeap b' (high_order_alloc h) (start h) (end_ h ⊕ MAX_ORDER_SIZE)%u64 (extend_recurse h)).

Definition extend_from_high (h : BuddyAllocatorInner B) : outcome (result Z unit * BuddyAllocatorInner B) :=
  if extend_recurse h then Done (Err tt, h)
  else
    layout ← unwrap (from_size_align HIGH_ORDER_BLOCK_SIZE 1);
    t ← HighOrder.allocate HIGH_ORDER_BLOCK_SIZE (high_order_alloc h) layout;
    let '(t, high') := t in
    match t with
    | None => Done (Err tt, mkHeap (backend h) high' (start h) (end_ h) false)
    | Some t =>
        base ← virt_new (HighOrder.as_raw t).1;
        higher ← virt_add base MAX_ORDER_SIZE;
        let '(r, b') := bk_deallocate HIGH_ORDER_BLOCK_SIZE base (backend h) in
        _ ← unwrap (result_ok r);
        Done (Ok higher, mkHeap b' high' (start h) (end_ h) false)
    end.

(** [NonNull::new(p).unwrap()]. *)
Definition non_null (a : Z) : outcome Z := if a =? 0 then Panic else Done a.

Definition virt_allocate (l : Layout) (h : BuddyAllocatorInner B) :
    outcome (result range unit * BuddyAllocatorInner B) :=
  let size := next_power_of_two (Z.max (l_size l) (l_align l)) in
  if layout_high l then
    t ← HighOrder.allocate HIGH_ORDER_BLOCK_SIZE (high_order_alloc h) l;
    let '(t, high') := t in
    match t with
    | None =>
        p ← non_null (end_ h);
        Done (Ok (p, size), mkHeap (backend h) high' (start h) (end_ h ⊕ size)%u64 (extend_recurse h))
    | Some r =>
        p ← non_null (HighOrder.as_raw r).1;
        Done (Ok (p, (HighOrder.as_raw r).2), mkHeap (backend h) high' (start h) (end_ h) (extend_recurse h))
    end
  else if l_size l =? 0 then Done (Ok (1, 0), h)
  else
    let with_backend h b := mkHeap b (high_order_alloc h) (start h) (end_ h) (extend_recurse h) in
    match bk_allocate size (backend h) with
    | (Ok a, b') => p ← non_null a; Done (Ok (p, size), with_backend h b')
    | (Err _, b') =>
        e ← extend_from_high (with_backend h b');
        match e with
        | (Ok hold, h) =>
            match bk_allocate size (backend h) with
            | (Err _, b') => Done (Err tt, with_backend h b')
            | (Ok rc, b') =>
                let '(r, b') := bk_deallocate MAX_ORDER_SIZE hold b' in
                _ ← unwrap (result_ok r);
                p ← non_null rc;
                Done (Ok (p, size), with_backend h b')
            end
        | (Err _, h) =>
            h ← extend h;
            match bk_allocate size (backend h) with
            | (Err _, b') => Done (Err tt, with_backend h b')
            | (Ok t, b') => p ← non_null t; Done (Ok (p, size), with_backend h b')
            end
        end
    end.

(** [l.high_order_alloc.free(FreeMem::new(addr, size).unwrap()).unwrap()] *)
Definition free_high (h : BuddyAllocatorInner B) (addr size : Z) : outcome (BuddyAllocatorInner B) :=
  m ← unwrap (HighOrder.new HIGH_ORDER_BLOCK_SIZE addr size);
  f ← HighOrder.free (high_order_alloc h) m;
  let '(res, high') := f in
  _ ← unwrap (result_ok res);
  Done (mkHeap (backend h) high' (start h) (end_ h) (extend_recurse h)).

Definition virt_deallocate (ptr : Z) (l : Layout) (h : BuddyAllocatorInner B) : outcome (BuddyAllocatorInner B) :=
  let size := next_power_of_two (Z.max (l_size l) (l_align l)) in
  h ← (if layout_high l then free_high h ptr size else Done h);
  if l_size l =? 0 then Done h
  else
    let '(r, b') := bk_deallocate size ptr (backend h) in
    let h := mkHeap b' (high_order_alloc h) (start h) (end_ h) (extend_recurse h) in
    match r with
    | Ok _ => Done h
    | Err addr => free_high h addr HIGH_ORDER_BLOCK_SIZE
    end.

(** [SuperiorAllocator::init]: the first page of the heap is already in use. *)
Definition init (addr : Z) (h : BuddyAllocatorInner B) : outcome (BuddyAllocatorInner B) :=
  _ ← assert_that (negb (addr =? 0));
  _ ← assert_that (match start h with None => true | Some _ => false end);
  h ← extend (mkHeap (backend h) (high_order_alloc h) (Some addr) addr (extend_recurse h));
  match bk_allocate PAGE_SIZE (backend h) with
  | (Ok a, b') =>
      _ ← assert_that (a =? addr);
      Done (mkHeap b' (high_order_alloc h) (start h) (end_ h) (extend_recurse h))
  | (Err _, _) => Panic
  end.

End Ops.

Section Laws.
Context {B : Type} `{BL : BackendLaws B} `{VL : VirtAddrLaws}.

(** The backend holds addresses below [end], everything above is untouched. *)
Record hinv (h : BuddyAllocatorInner B) : Prop := {
  hinv_orders : PAGE_SIZE < MAX_ORDER_SIZE;
  hinv_end : UPPER_HALF <= end_ h < 2 ^ 64 /\ end_ h mod MAX_ORDER_SIZE = 0;
  hinv_avail : forall x, bk_avail (backend h) x -> UPPER_HALF <= x < end_ h;
}.

(** It has room for a page when the heap can be extended at its end: no high-order block waits in the
    list, no extension is going on, and there are addresses left. *)
#[export] Instance buddy_heap : HeapAlloc (BuddyAllocatorInner B) := {
  Ranges.virt_allocate := virt_allocate;
  avail h x := bk_avail (backend h) x \/ end_ h <= x < 2 ^ 64;
  heap_inv := hinv;
  room h := high_order_alloc h = [] /\ extend_recurse h = false /\ end_ h + MAX_ORDER_SIZE < 2 ^ 64;
}.

Lemma page_order : PAGE_SIZE < MAX_ORDER_SIZE -> order_size PAGE_SIZE.
Proof. intros H'. exists 12. split; [lia|]. split; [done|]. unfold MAX_ORDER_SIZE in H'. lia. Qed.

Lemma page_not_high : PAGE_SIZE < MAX_ORDER_SIZE -> layout_high page_layout = false.
Proof.
  intros H'. unfold layout_high, HIGH_ORDER_BLOCK_SIZE. rewrite Z.div_mul by done. cbn.
  apply Z.leb_gt. unfold PAGE_SIZE in *. lia.
Qed.

Lemma extend_from_empty h : high_order_alloc h = [] -> extend_recurse h = false -> PAGE_SIZE < MAX_ORDER_SIZE ->
  extend_from_high h = Done (Err tt, mkHeap (backend h) [] (start h) (end_ h) false).
Proof using BL.
  intros Hh Hi Ho. unfold extend_from_high. rewrite Hi, Hh.
  destruct order_max as (k & Hk & Hom). unfold HIGH_ORDER_BLOCK_SIZE, MAX_ORDER_SIZE in *. rewrite Hom.
  pose proof (Z.pow_le_mono_r 2 k 40 ltac:(lia) ltac:(lia)).
  unfold from_size_align. cbn [is_power_of_two]. change (is_power_of_two 1) with true.
  rewrite (proj2 (Z.leb_le _ _)) by lia. done.
Qed.

(** Bumping the end of the heap when the backend has no page left. *)
Lemma extend_bump h :
  hinv h -> room h ->
  (forall a, 0 <= a -> a mod PAGE_SIZE = 0 -> exists x, in_range x (a, PAGE_SIZE) /\ ~ bk_avail (backend h) x) ->
  exists b', extend h = Done (mkHeap b' (high_order_alloc h) (start h) (end_ h + MAX_ORDER_SIZE) (extend_recurse h)) /\
    forall x, bk_avail b' x <-> bk_avail (backend h) x \/ in_range x (end_ h, MAX_ORDER_SIZE).
Proof using BL VL.
  intros [Ho [He Hem] Hav] (_ & _ & Hroom) Hnone. destruct order_max as (k & Hk & Hom).
  unfold extend. rewrite virt_new_valid by done. cbn [mbind outcome_bind]. unfold MAX_ORDER_SIZE, PAGE_SIZE, UPPER_HALF in *.
  assert (order_size ORDER_MAX_SIZE) as Hos by (exists k; repeat split; lia).
  destruct (bk_deallocate ORDER_MAX_SIZE (end_ h) (backend h)) as [[[]|c] b'] eqn:E.
  - cbn. rewrite wadd_small by lia. exists b'. split; [done|]. apply (bk_deallocate_ok _ _ _ _ Hos); [lia|done|done].
  - exfalso. apply bk_deallocate_err in E as (Hc & Hin & _); [|done|lia|done]. unfold in_range in *. cbn in *.
    apply Z.mod_divide in Hem as [q Hq]; [|lia]. rewrite Hom in *.
    pose proof (Z.div_mod (end_ h) (2 * 2 ^ k) ltac:(lia)) as Hd.
    pose proof (Z.mod_pos_bound (end_ h) (2 * 2 ^ k) ltac:(lia)) as Hm.
    set (d := end_ h / (2 * 2 ^ k)) in *. set (m := end_ h mod (2 * 2 ^ k)) in *.
    assert (m = 0 \/ m = 2 ^ k) as [Hm0|Hmk] by (assert (q = 2 * d \/ q = 2 * d + 1) by nia; nia).
    + destruct (Hin (end_ h + 2 ^ k)) as [Hx%Hav|Hx]; lia.
    + destruct (Hnone c) as (x & Hx & Hnx); [lia| |].
      * rewrite Hc, Hq, Hmk. apply Z.mod_divide; [lia|]. replace (q * 2 ^ k - 2 ^ k) with ((q - 1) * 2 ^ k) by lia.
        apply Z.divide_mul_r. exists (2 ^ (k - 12)). change 4096 with (2 ^ 12). rewrite <- Z.pow_add_r by lia. f_equal. lia.
      * destruct (Hin x) as [|Hx2]; [lia|done|lia].
Qed.

(** A page taken from the backend is a good answer. *)
Lemma page_answer h b a b' e :
  hinv h -> bk_allocate PAGE_SIZE b = (Ok a, b') ->
  (forall x, bk_avail b x -> UPPER_HALF <= x < e) -> e < 2 ^ 64 ->
  a <> 0 /\ a mod 4096 = 0 /\ 0 < a /\ a + 4096 <= 2 ^ 64 /\
  (forall x, in_range x (a, 4096) -> bk_avail b x) /\
  (forall x, bk_avail b' x <-> bk_avail b x /\ ~ in_range x (a, 4096)).
Proof using BL.
  intros Hinv E Hb He. apply bk_allocate_ok in E as (Ha & Hal & Hin & Hb'); [|apply page_order, Hinv].
  unfold PAGE_SIZE in *. pose proof (Hb a (Hin a ltac:(unfold in_range; cbn; lia))) as H1.
  pose proof (Hb (a + 4095) (Hin (a + 4095) ltac:(unfold in_range; cbn; lia))) as H2.
  unfold UPPER_HALF in *. split; [lia|]. split; [done|]. split; [lia|]. split; [lia|]. done.
Qed.

(** The heap [h'] is left after a page was taken from a backend [b] whose memory [h] had. *)
Lemma page_taken h h' b a :
  hinv h -> bk_allocate PAGE_SIZE b = (Ok a, backend h') -> hinv h' -> end_ h <= end_ h' < 2 ^ 64 ->
  (forall x, bk_avail b x -> avail h x) -> (forall x, bk_avail b x -> UPPER_HALF <= x < end_ h') ->
  non_null a = Done a /\ a mod 4096 = 0 /\ 0 < a /\ a + 4096 <= 2 ^ 64 /\
  (forall x, in_range x (a, 4096) -> avail h x /\ ~ avail h' x) /\ (forall x, avail h' x -> avail h x).
Proof using BL.
  intros Hinv E Hinv' Hend Hsub Hb. destruct (page_answer h _ _ _ _ Hinv E Hb) as (Hne & Hal & Hp & Hle & Hin & Hb'); [lia|].
  split; [unfold non_null; by rewrite (proj2 (Z.eqb_neq a 0) Hne)|]. split; [done|]. split; [done|]. split; [done|].
  split; intros x Hx.
  - split; [by apply Hsub, Hin|]. pose proof (Hb x (Hin x Hx)).
    intros [Hx'|Hx']; [apply Hb' in Hx' as [_ Hn]; by apply Hn|lia].
  - destruct Hx as [Hx|Hx]; [by apply Hsub, Hb'|right; lia].
Qed.

(** After an extension by a block of the largest order there is a page. *)
Lemma page_after_extend h b1 e b2 :
  hinv h -> (forall x, in_range x (end_ h, MAX_ORDER_SIZE) -> bk_avail b1 x) -> bk_allocate PAGE_SIZE b1 <> (Err e, b2).
Proof using BL.
  intros [Ho [He Hem] Hav] Hb1 E. apply bk_allocate_err in E as [Hno _]; [|by apply page_order].
  destruct (Hno (end_ h)) as (x & Hx & Hnx); [unfold UPPER_HALF in *; lia| |].
  - destruct order_max as (k & Hk & Hom). unfold MAX_ORDER_SIZE in *. rewrite Hom in Hem.
    change PAGE_SIZE with (2 ^ 12). apply (BuddyFrame.pow_divide 12 k); [lia|done].
  - apply Hnx, Hb1. unfold in_range, PAGE_SIZE in *. cbn in *. lia.
Qed.

Lemma virt_allocate_page_ok h :
  hinv h -> room h ->
  exists r h', virt_allocate page_layout h = Done (Ok r, h') /\
    hinv h' /\ r.2 = 4096 /\ r.1 mod 4096 = 0 /\ 0 < r.1 /\ r.1 + 4096 <= 2 ^ 64 /\
    (forall x, in_range x (r.1, 4096) -> avail h x /\ ~ avail h' x) /\
    (forall x, avail h' x -> avail h x).
Proof using BL VL.
  intros Hinv (Hh & Hi & Hroom). pose proof Hinv as [Ho [He Hem] Hav].
  unfold virt_allocate. rewrite page_not_high by done. change (next_power_of_two _) with PAGE_SIZE. cbn [l_size page_layout Z.eqb].
  destruct (bk_allocate PAGE_SIZE (backend h)) as [[a|e] b'] eqn:E.
  - set (h' := mkHeap b' (high_order_alloc h) (start h) (end_ h) (extend_recurse h)).
    assert (hinv h') as Hinv'.
    { split; cbn; auto. intros x Hx. apply bk_allocate_ok in E as (_ & _ & _ & Hb'); [|by apply page_order]. by apply Hav, Hb'. }
    destruct (page_taken h h' _ _ Hinv E Hinv') as (-> & Hrest); [cbn; lia|by left|done|].
    exists (a, PAGE_SIZE), h'. split; [done|]. split; [done|]. split; [done|]. exact Hrest.
  - apply bk_allocate_err in E as [Hnone Hb']; [|by apply page_order]. cbn zeta beta.
    set (h0 := mkHeap b' (high_order_alloc h) (start h) (end_ h) (extend_recurse h)).
    rewrite (extend_from_empty h0) by done. cbn [mbind outcome_bind]. cbn [h0 backend start end_].
    set (h1 := mkHeap b' [] (start h) (end_ h) false).
    assert (hinv h1) as Hinv1 by (split; cbn; auto; intros x Hx; by apply Hav, Hb').
    destruct (extend_bump h1 Hinv1 ltac:(done)) as (b1 & -> & Hb1).
    { intros a Ha Ham. destruct (Hnone a Ha Ham) as (x & Hx & Hnx). exists x. split; [done|]. cbn. by rewrite Hb'. }
    cbn [mbind outcome_bind backend high_order_alloc start end_ extend_recurse h1].
    assert (forall x, bk_avail b1 x <-> bk_avail (backend h) x \/ in_range x (end_ h, MAX_ORDER_SIZE)) as Hb1'.
    { intros x. rewrite Hb1. cbn. by rewrite Hb'. }
    assert (forall x, bk_avail b1 x -> UPPER_HALF <= x < end_ h + MAX_ORDER_SIZE) as Hav1.
    { intros x [Hx%Hav|Hx]%Hb1'; unfold in_range, PAGE_SIZE in *; cbn in *; lia. }
    destruct (bk_allocate PAGE_SIZE b1) as [[a|e'] b2] eqn:E2;
      [|by destruct (page_after_extend h b1 e' b2 Hinv); [intros x Hx; apply Hb1'; by right|]].
    match goal with |- context [Done (Ok _, ?g)] => set (h' := g) end.
    assert (hinv h') as Hinv'.
    { apply bk_allocate_ok in E2 as (_ & _ & _ & Hb2); [|by apply page_order].
      split; cbn; auto; [|intros x Hx; by apply Hav1, Hb2]. unfold PAGE_SIZE in *. split; [lia|].
      rewrite <- Z.add_mod_idemp_r, Z_mod_same_full, Z.add_0_r by lia. done. }
    destruct (page_taken h h' _ _ Hinv E2 Hinv') as (-> & Hrest); [cbn; unfold PAGE_SIZE in *; lia| |done|].
    { intros x Hx. pose proof (Hav1 x Hx). apply Hb1' in Hx as [Hx|Hx]; [by left|right]. unfold in_range in Hx. cbn in Hx. lia. }
    exists (a, PAGE_SIZE), h'. split; [done|]. split; [done|]. split; [done|]. exact Hrest.
Qed.

#[export] Instance buddy_heap_laws : HeapAllocLaws (BuddyAllocatorInner B).
Proof using BL VL.
  split. intros h r h' Hinv Hroom Hva. destruct (virt_allocate_page_ok h Hinv Hroom) as (r0 & h0 & Heq & Hinv' & Hlen & H').
  cbn in Hva. rewrite Hva in Heq. injection Heq as <- <-. split; [done|]. split; [lia|done].
Qed.


(** A block of exactly the largest buddy order is sent to the high-order list, whose blocks are
    twice that size, so freeing it panics. *)
Theorem heap_free_max_order_panics ptr l h :
  Z.max (l_size l) (l_align l) = MAX_ORDER_SIZE -> virt_deallocate ptr l h = Panic.
Proof using BL.
  intros Hm. unfold virt_deallocate, layout_high, free_high, HighOrder.new. rewrite Hm.
  destruct order_max as (k & Hk & Hom). unfold HIGH_ORDER_BLOCK_SIZE, MAX_ORDER_SIZE in *. rewrite Hom.
  pose proof (Z.pow_le_mono_r 2 k 40 ltac:(lia) ltac:(lia)). pose proof (Z.pow_pos_nonneg 2 k ltac:(lia) ltac:(lia)).
  rewrite Z.div_mul, Z.leb_refl by lia. unfold next_power_of_two, wrap64. rewrite Z.log2_up_pow2, Z.mod_small by lia.
  rewrite (proj2 (Z.ltb_lt (2 ^ k) (2 ^ k * 2))) by lia. done.
Qed.

(** A larger block is freed twice: into the high-order list and into the backend. *)
Lemma heap_free_high_twice ptr l h m high' b' :
  let size := next_power_of_two (Z.max (l_size l) (l_align l)) in
  layout_high l = true -> l_size l <> 0 -> HighOrder.new HIGH_ORDER_BLOCK_SIZE ptr size = Some m ->
  HighOrder.free (high_order_alloc h) m = Done (Ok tt, high') ->
  bk_deallocate size ptr (backend h) = (Ok tt, b') ->
  virt_deallocate ptr l h = Done (mkHeap b' high' (start h) (end_ h) (extend_recurse h)).
Proof.
  intros size Hh Hs Hn Hf Hd. unfold virt_deallocate, free_high. rewrite Hh. fold size. rewrite Hn. cbn [unwrap mbind outcome_bind].
  rewrite Hf. cbn [unwrap mbind outcome_bind result_ok backend]. rewrite (proj2 (Z.eqb_neq _ _) Hs), Hd. done.
Qed.

End Laws.

End HeapBuddy.

(** ** Instances *)
Module HeapWitness.
Import HeapBuddy FrameWitness FixedBlockWitness.

#[export] Instance virt_ops : VirtAddrOps := {
  virt_new a := if (0 <=? a) && (a <? 2 ^ 64) then Done a else Panic;
  virt_add a n := if (0 <=? a + n) && (a + n <? 2 ^ 64) then Done (a + n) else Panic;
}.

#[export] Instance virt_laws : VirtAddrLaws.
Proof.
  split. cbn. unfold UPPER_HALF. intros a Ha. by rewrite (proj2 (Z.leb_le 0 a)), (proj2 (Z.ltb_lt a _)) by lia.
Qed.

(** The heap at [HEAP_START], nothing given to the backend yet. *)
Definition empty_heap : BuddyAllocatorInner (gset Z) := mkHeap ∅ [] (Some 0xffff808000000000) 0xffff808000000000 false.

Lemma empty_heap_inv : hinv empty_heap.
Proof. split; [done|split; [split; vm_compute; done|done]|]. cbn. intros x [_ Hx]. by apply elem_of_empty in Hx. Qed.


Lemma heap_free_max_order_panics_witness :
  virt_deallocate 0xffff808000000000 (mkLayout (2 ^ 20) 1) empty_heap = Panic.
Proof. apply (heap_free_max_order_panics 0xffff808000000000 (mkLayout (2 ^ 20) 1) empty_heap). reflexivity. Defined.

End HeapWitness.
