(* ===== verification/AllocIf.v ===== *)
(** * Allocator interfaces

    [kernel/src/mem/allocator/alloc_interface.rs]: the global allocator, which serves requests below
    half a page from the fixed-size blocks and maps fresh frames for larger ones, and the allocators
    for device memory, DMA buffers and bare address space.  They join the heap of address space, the
    fixed-size blocks, the page tables, the physical allocator and the frame attribute table.

    The heap is [HeapAlloc] with [HeapFree]; the physical allocator for arbitrary layouts is
    [PhysAllocator].  The fixed-size blocks of [FixedBlock] are used on the instance [interior_heap]
    of [HeapAlloc], a page of address space that [NewFixedBlockAllocator::extend] has mapped. *)
From stdpp Require Import prelude gmap.
From S2P Require Import Prelude Ranges FixedBlock HighOrder FrameAlloc PageTable TlbEntry MemMap VirtFixup FrameAttr.
Open Scope Z_scope.

(** [HeapAlloc::virt_deallocate]. *)
Class HeapFree (H : Type) := { virt_deallocate : Z -> Layout -> H -> outcome H }.

(** [allocate] and [dealloc] of the physical allocator. *)
Class PhysAllocator (F : Type) := {
  phys_allocate : Layout -> MemRegion -> F -> outcome (result Z unit * F);
  phys_dealloc : Z -> Layout -> F -> outcome F;
}.

(** [VirtAddr - u64] and [PhysFrame + u64] of the [x86_64] crate. *)
Class AddrStepOps := {
  virt_sub : Z -> Z -> outcome Z;
  frame_add : Z -> Z -> outcome Z;
}.

Class AddrStepLaws `{AddrStepOps} := {
  virt_sub_valid : forall a n, canonical a -> 0 <= n -> canonical (a - n) -> virt_sub a n = Done (a - n);
  frame_add_valid : forall f n, 0 <= f -> 0 <= n -> f + PAGE_SIZE * n < 2 ^ 52 -> frame_add f n = Done (f + PAGE_SIZE * n);
}.

(** [Layout::align_to] and [Layout::pad_to_align]. *)
Definition align_to (l : Layout) (align : Z) : option Layout := from_size_align (l_size l) (Z.max (l_align l) align).

Definition pad_to_align (l : Layout) : Layout :=
  mkLayout ((l_size l + l_align l - 1) / l_align l * l_align l) (l_align l).

(** [KernelAllocator::ALLOC_SIZE_SEP]. *)
Definition ALLOC_SIZE_SEP : Z := PAGE_SIZE / 2.

(** The flags [MmioAlloc::allocate] and [NewFixedBlockAllocator::extend] map with. *)
Definition mmio_flags : Z := Z.lor (Z.lor (Z.lor PRESENT WRITABLE) NO_EXECUTE) NO_CACHE.
Definition extend_flags : Z := Z.lor (Z.lor PRESENT NO_EXECUTE) WRITABLE.

(** The pages, or frames, of [PageRangeInclusive] between those of two addresses. *)
Definition page_range (first last : Z) : list Z :=
  range_inclusive Size4KiB (containing_address Size4KiB first) (containing_address Size4KiB last).

(** [MmioAlloc::offset_addr]: the pointer to the physical address [self] inside the page of [ptr]. *)
Definition offset_addr (self ptr : Z) : Z := (ptr ⊕ Z.land self (PAGE_SIZE - 1))%u64.

Record DmaAlloc := mkDma { region : MemRegion; phys_align : Z }.

Definition dma_new (region : MemRegion) (phys_align : Z) : outcome DmaAlloc :=
  _ ← assert_that (is_power_of_two phys_align);
  _ ← assert_that (negb (phys_align =? 0));
  Done (mkDma region phys_align).

Section AllocIf.
Context {F : Type} `{FS : FrameSource F} `{PX : PhysAllocator F} `{PF : PhysFrameOps} `{PO : PteOps} `{PA : PhysAddrOps}
        `{VA : VirtAddrOps} `{AS : AddrStepOps} `{MD : MapperDefaults} {H : Type} `{HA : HeapAlloc H} `{HF : HeapFree H}.
Abbreviation Kernel := (Kernel (F := F) (H := H)).

(** [NewFixedBlockAllocator::extend] takes a page from the heap and maps it. *)
Definition interior_allocate (layout : Layout) (k : Kernel) : outcome (result range unit * Kernel) :=
  r ← virt_allocate layout (HEAP k);
  let k := set_heap r.2 k in
  match r.1 with
  | Err e => Done (Err e, k)
  | Ok ptr =>
      region_start ← virt_new ptr.1;
      mm ← map_page (MEMORY_MAP k) Size4KiB (containing_address Size4KiB region_start) extend_flags;
      Done (Ok ptr, set_map mm k)
  end.

(** ** [KernelAllocator] *)

(** [MEMORY_ALLOCATORS.1] and the rest of the kernel. *)
Record Memory := mkMemory { small : FixedBlock.FixedBlockInner; kern : Kernel }.

(** A null pointer is zero. *)
Definition alloc_small `{IH : HeapAlloc Kernel} (m : Memory) (layout : Layout) : outcome (Z * Memory) :=
  r ← FixedBlock.allocate layout (small m) (kern m);
  let '(res, s, k) := r in
  Done (match res with Ok p => p.1 | Err _ => 0 end, mkMemory s k).

Definition alloc_large (m : Memory) (layout : Layout) : outcome (Z * Memory) :=
  let size := Z.max (l_size layout) (l_align layout) in
  r ← virt_allocate layout (HEAP (kern m));
  let k := set_heap r.2 (kern m) in
  match r.1 with
  | Err _ => Done (0, mkMemory (small m) k)
  | Ok virt_addr =>
      first ← virt_new virt_addr.1;
      last ← virt_new ((virt_addr.1 ⊕ size) ⊖ 1)%u64;
      mm ← map_range (MEMORY_MAP k) Size4KiB (page_range first last) PROGRAM_DATA_FLAGS;
      Done (virt_addr.1, mkMemory (small m) (set_map mm k))
  end.

Definition kalloc `{IH : HeapAlloc Kernel} (m : Memory) (layout : Layout) : outcome (Z * Memory) :=
  if Z.max (l_size layout) (l_align layout) <? ALLOC_SIZE_SEP then alloc_small m layout else alloc_large m layout.

(** The loop of [dealloc] over the entries [unmap_range] left. *)
Fixpoint free_pages (fuel : nat) (k : Kernel) (it : UnmappedPageIter) : outcome Kernel :=
  match fuel with
  | O => Panic
  | S fuel =>
      n ← next_page (MEMORY_MAP k) it;
      match n with
      | (None, _) => Done k
      | (Some (t, i), it) =>
          st ← unwrap (MEMORY_MAP k);
          let entry := rd st t i in
          k ← (if contains (pte_flags entry) FRAME_ATTR_ENTRY_FLAG then try_free_frame k (pte_addr entry)
               else dealloc_frame k (pte_addr entry) Size4KiB);
          st ← unwrap (MEMORY_MAP k);
          free_pages fuel (set_map (Some (wr st t i pte_new)) k) it
      end
  end.

Definition dealloc_large (k : Kernel) (ptr : Z) (layout : Layout) : outcome Kernel :=
  let size := Z.max (l_size layout) (l_align layout) in
  first ← virt_new ptr;
  last ← virt_new ((ptr ⊕ size) ⊖ 1)%u64;
  r ← unmap_range (MEMORY_MAP k) Size4KiB (page_range first last);
  free_pages (S (length (iter_range r.1))) (set_map r.2 k) r.1.

Definition kdealloc (m : Memory) (ptr : Z) (layout : Layout) : outcome Memory :=
  if Z.max (l_size layout) (l_align layout) <? ALLOC_SIZE_SEP then
    _ ← assert_that (negb (ptr =? 0));
    s ← FixedBlock.deallocate ptr layout (small m);
    Done (mkMemory s (kern m))
  else k ← dealloc_large (kern m) ptr layout; Done (mkMemory (small m) k).

(** ** [MmioAlloc], which is the physical address [self] *)
Definition get_page_range (layout : Layout) (ptr : Z) : outcome (list Z) :=
  addr ← virt_new ptr;
  past ← virt_add addr (l_size layout);
  last ← virt_sub past 1;
  Done (page_range addr last).

(** The loop of [allocate]: page [i] gets frame [phys_frame + i]. *)
Fixpoint map_frames (mm : MemoryMap (F := F)) (pages : list Z) (phys_frame i flags : Z) : outcome (MemoryMap (F := F)) :=
  match pages with
  | [] => Done mm
  | page :: pages =>
      frame ← frame_add phys_frame i;
      r ← map_frame_to_page mm Size4KiB page frame flags;
      _ ← unwrap (result_ok r.1);
      map_frames r.2 pages phys_frame (i + 1) flags
  end.

Definition mmio_allocate (k : Kernel) (self : Z) (layout : Layout) : outcome (result range unit * Kernel) :=
  r ← virt_allocate layout (HEAP k);
  let k := set_heap r.2 k in
  match r.1 with
  | Err e => Done (Err e, k)
  | Ok ptr =>
      pages ← get_page_range layout ptr.1;
      phys ← phys_new self;
      mm ← map_frames (MEMORY_MAP k) pages (containing_address Size4KiB phys) 0 mmio_flags;
      Done (Ok (offset_addr self ptr.1, l_size layout), set_map mm k)
  end.

Definition mmio_deallocate (k : Kernel) (ptr : Z) (layout : Layout) : outcome Kernel :=
  pages ← get_page_range layout ptr;
  let addr := Z.land ptr (wnot (PAGE_SIZE - 1)) in
  r ← unmap_range (MEMORY_MAP k) Size4KiB pages;
  mm ← clear r.2 r.1;
  _ ← assert_that (negb (addr =? 0));
  h ← virt_deallocate addr layout (HEAP k);
  Done (set_heap h (set_map mm k)).

(** [grow] and [shrink]. *)
Definition mmio_resize (k : Kernel) (self ptr : Z) (old_layout new_layout : Layout) : outcome (result range unit * Kernel) :=
  k ← mmio_deallocate k ptr old_layout;
  mmio_allocate k self new_layout.

(** ** [DmaAlloc] *)
Fixpoint map_zip (mm : MemoryMap (F := F)) (pages frames : list Z) (flags : Z) : outcome (MemoryMap (F := F)) :=
  match pages, frames with
  | p :: pages, f :: frames =>
      r ← map_frame_to_page mm Size4KiB p f flags;
      _ ← unwrap (result_ok r.1);
      map_zip r.2 pages frames flags
  | _, _ => Done mm
  end.

Definition dma_layout (layout : Layout) : outcome Layout :=
  if Z.land (l_align layout) (PAGE_SIZE - 1) =? 0 then Done layout
  else l ← unwrap (align_to layout PAGE_SIZE); Done (pad_to_align l).

Definition dma_allocate (k : Kernel) (self : DmaAlloc) (layout : Layout) : outcome (result range unit * Kernel) :=
  layout ← dma_layout layout;
  r ← virt_allocate layout (HEAP k);
  let k := set_heap r.2 k in
  match r.1 with
  | Err e => Done (Err e, k)
  | Ok addr =>
      first ← virt_new addr.1;
      last ← virt_new ((addr.2 ⊕ addr.1) ⊖ 1)%u64;
      pl ← unwrap (from_size_align (l_size layout) (phys_align self));
      st ← unwrap (MEMORY_MAP k);
      p ← phys_allocate pl (region self) (PHYS_ALLOCATOR st);
      let mm := Some (with_frames st p.2) in
      match p.1 with
      | Err e => Done (Err e, set_map mm k)
      | Ok start =>
          end_ ← phys_add start (l_size layout ⊖ 1)%u64;
          mm ← map_zip mm (page_range first last) (page_range start end_) MMIO_FLAGS;
          Done (Ok addr, set_map mm k)
      end
  end.

(** The first loop of [deallocate]: it stops at an entry with the attribute flag. *)
Fixpoint any_counted (fuel : nat) (mm : MemoryMap (F := F)) (it : UnmappedPageIter) : outcome (bool * UnmappedPageIter) :=
  match fuel with
  | O => Panic
  | S fuel =>
      n ← next_page mm it;
      match n with
      | (None, it) => Done (false, it)
      | (Some (t, i), it) =>
          st ← unwrap mm;
          if contains (pte_flags (rd st t i)) FRAME_ATTR_ENTRY_FLAG then Done (true, it) else any_counted fuel mm it
      end
  end.

Fixpoint free_separately (fuel : nat) (k : Kernel) (it : UnmappedPageIter) : outcome Kernel :=
  match fuel with
  | O => Panic
  | S fuel =>
      n ← next_page (MEMORY_MAP k) it;
      match n with
      | (None, _) => Done k
      | (Some (t, i), it) =>
          st ← unwrap (MEMORY_MAP k);
          k ← try_free_frame k (pte_addr (rd st t i));
          st ← unwrap (MEMORY_MAP k);
          free_separately fuel (set_map (Some (wr st t i pte_new)) k) it
      end
  end.

(** Frames without attributes are given back as one block, at the address of the first entry; the
    address space is not given back when there is no entry. *)
Definition dma_deallocate (k : Kernel) (ptr : Z) (layout : Layout) : outcome Kernel :=
  first ← virt_new ptr;
  last ← virt_new ((ptr ⊕ l_size layout) ⊖ 1)%u64;
  r ← unmap_range (MEMORY_MAP k) Size4KiB (page_range first last);
  let '(it, mm) := r in
  let k := set_map mm k in
  let fuel := S (length (iter_range it)) in
  c ← any_counted fuel mm it;
  let free_separate : bool := c.1 in
  let it := reload c.2 in
  if free_separate then
    k ← free_separately fuel k it;
    h ← virt_deallocate ptr layout (HEAP k);
    Done (set_heap h k)
  else
    n ← next_page mm it;
    match n with
    | (None, _) => Done k
    | (Some (t, i), it) =>
        st ← unwrap mm;
        f ← phys_dealloc (pte_addr (rd st t i)) layout (PHYS_ALLOCATOR st);
        mm ← clear_all (Some (with_frames st f)) it;
        h ← virt_deallocate ptr layout (HEAP k);
        Done (set_heap h (set_map mm k))
    end.

(** ** [VirtAlloc] *)
Definition virt_alloc_allocate (k : Kernel) (layout : Layout) : outcome (result range unit * Kernel) :=
  r ← virt_allocate layout (HEAP k); Done (r.1, set_heap r.2 k).

(** One call of [unmap_and_free] per byte; its result is ignored. *)
Fixpoint unmap_bytes (n : nat) (addr : Z) (k : Kernel) : outcome Kernel :=
  match n with
  | O => Done k
  | S n => a ← virt_new addr; r ← unmap_and_free k a; unmap_bytes n (addr + 1) r.2
  end.

Definition virt_alloc_deallocate (k : Kernel) (ptr : Z) (layout : Layout) : outcome Kernel :=
  let off := Z.land ptr (PAGE_SIZE - 1) in
  let ptr := (ptr ⊖ off)%u64 in
  h ← virt_deallocate ptr layout (HEAP k);
  unmap_bytes (Z.to_nat ((ptr ⊕ l_size layout)%u64 - ptr)) ptr (set_heap h k).

End AllocIf.

(** ** Spans of address space *)


Definition num_pages (size : Z) : nat := Z.to_nat ((size + 4095) / 4096).

Lemma num_pages_bound size : 0 < size -> size <= 4096 * Z.of_nat (num_pages size) < size + 4096.
Proof. intros Hs. unfold num_pages. pose proof (Z.div_mod (size + 4095) 4096). pose proof (Z.mod_pos_bound (size + 4095) 4096). lia. Qed.

(** The last page of an aligned span does not leave it. *)
Lemma span_pages a size : a mod 4096 = 0 -> 0 < size -> span a size -> span a (4096 * Z.of_nat (num_pages size)).
Proof.
  intros Ha Hs Hsp. pose proof (num_pages_bound size Hs). pose proof (Z.div_mod a 4096 ltac:(lia)). unfold span in *. lia.
Qed.

Lemma page_range_pages a size : a mod 4096 = 0 -> 0 < size -> page_range a (a + size - 1) = pages_from a (num_pages size).
Proof.
  intros Ha Hs. unfold page_range. rewrite containing_aligned by done. pose proof (num_pages_bound size Hs) as Hn.
  replace (containing_address Size4KiB (a + size - 1)) with (a + SIZE Size4KiB * (Z.of_nat (num_pages size) - 1));
    [apply range_inclusive_seq; lia|].
  unfold containing_address. cbn [SIZE]. pose proof (Z.div_mod a 4096 ltac:(lia)).
  replace ((a + size - 1) mod 4096) with (a + size - 1 - 4096 * (a / 4096 + Z.of_nat (num_pages size) - 1)); [lia|].
  apply (Z.mod_unique_pos _ _ (a / 4096 + Z.of_nat (num_pages size) - 1)); lia.
Qed.

(** Canonical addresses with the same entry are on the same page. *)
Lemma key_page a b : canonical a -> canonical b -> page_key a = page_key b ->
  containing_address Size4KiB a = containing_address Size4KiB b.
Proof.
  intros Ha Hb [Hp Hi]%pair_eq. rewrite <- (path_containing L1 a), <- (path_containing L1 b) in Hp.
  rewrite <- (get_index_page L1 a), <- (get_index_page L1 b) in Hi.
  assert (forall x, containing_address Size4KiB x mod PAGE_SIZE = 0) as Hal.
  { intros x. unfold containing_address, PAGE_SIZE. cbn [SIZE]. rewrite Zminus_mod_idemp_r, Z.sub_diag. done. }
  pose proof (indices_inj _ _ (Hal a) (Hal b) Hp Hi) as Hm. unfold canonical, containing_address in *. cbn [SIZE] in *.
  pose proof (Z.mod_pos_bound a 4096 ltac:(lia)). pose proof (Z.mod_pos_bound b 4096 ltac:(lia)).
  pose proof (Z.div_mod a 4096 ltac:(lia)). pose proof (Z.div_mod b 4096 ltac:(lia)).
  pose proof (Z.div_mod (a - a mod 4096) (2 ^ 48) ltac:(lia)). pose proof (Z.div_mod (b - b mod 4096) (2 ^ 48) ltac:(lia)).
  pose proof (Z.mod_pos_bound (a - a mod 4096) (2 ^ 48) ltac:(lia)). lia.
Qed.

Lemma pages_from_lookup a n i p : pages_from a n !! i = Some p <-> p = a + 4096 * Z.of_nat i /\ (i < n)%nat.
Proof.
  unfold pages_of. rewrite list_lookup_fmap_Some. setoid_rewrite lookup_seq. split.
  - intros (j & -> & -> & Hlt). done.
  - intros [-> Hlt]. exists i. done.
Qed.

Lemma pages_from_length a n : length (pages_from a n) = n.
Proof. unfold pages_of. by rewrite length_fmap, length_seq. Qed.

Lemma pages_from_elem a n p : p ∈ pages_from a n <-> exists i, p = a + 4096 * Z.of_nat i /\ (i < n)%nat.
Proof. rewrite list_elem_of_lookup. by setoid_rewrite pages_from_lookup. Qed.

Lemma pages_from_keys a n : a mod 4096 = 0 -> span a (4096 * Z.of_nat n) -> NoDup (page_key <$> pages_from a n).
Proof.
  intros Ha Hsp. apply NoDup_alt. intros i j k. rewrite !list_lookup_fmap_Some.
  intros (p & -> & (-> & Hi)%pages_from_lookup) (q & Hk & (-> & Hj)%pages_from_lookup).
  apply key_page in Hk; [|apply (span_canonical _ _ _ Hsp); lia..].
  pose proof (Z.div_mod a 4096 ltac:(lia)).
  rewrite !containing_aligned in Hk; [lia|..]; rewrite Z.mul_comm, Z_mod_plus_full; done.
Qed.

(** The page of an address of a span. *)
Lemma span_page a n x : a mod 4096 = 0 -> a <= x < a + 4096 * Z.of_nat n ->
  exists i, (i < n)%nat /\ containing_address Size4KiB x = a + 4096 * Z.of_nat i.
Proof.
  intros Ha Hx. exists (Z.to_nat ((x - a) / 4096)). pose proof (Z.div_mod (x - a) 4096 ltac:(lia)) as Hd.
  pose proof (Z.mod_pos_bound (x - a) 4096 ltac:(lia)) as Hm. pose proof (Z.div_mod a 4096 ltac:(lia)) as Hda.
  assert (x mod 4096 = (x - a) mod 4096) as Hxm.
  { apply (Z.mod_unique_pos _ _ (x / 4096 - a / 4096)); [apply Z.mod_pos_bound; lia|].
    pose proof (Z.div_mod x 4096 ltac:(lia)). lia. }
  unfold containing_address. cbn [SIZE]. lia.
Qed.

Section Laws.
Context {F : Type} `{FS : FrameSource F} {FL : FrameSourceLaws F} {FRL : FrameReturnLaws F} `{PX : PhysAllocator F}
        `{PF : PhysFrameOps} {PFL : PhysFrameLaws} `{PO : PteOps} {PTL : PteLaws} `{PA : PhysAddrOps} {PL : PhysAddrLaws}
        `{VA : VirtAddrOps} {VL : VirtAddrLaws} `{AS : AddrStepOps} {ASL : AddrStepLaws}
        `{MD : MapperDefaults} {MDL : MapperDefaultsLaws} {H : Type} `{HA : HeapAlloc H} `{HF : HeapFree H}.
Abbreviation Kernel := (Kernel (F := F) (H := H)).
Implicit Types st : OffsetPageTable (F := F).
Implicit Types k : Kernel.

(** ** Giving frames back *)

(** The frame can be given back: it is in use and not a table. *)
Definition releasable (limit : Z) st (a : Z) : Prop :=
  a < limit /\ ~ fs_free (PHYS_ALLOCATOR st) a /\ forall p, path_ok p -> walk st p <> WTable (offset_base st + a).

Lemma dealloc_frame_ok limit k st e :
  MEMORY_MAP k = Some st -> wf limit st -> releasable limit st (pte_addr e) ->
  exists f, dealloc_frame k (pte_addr e) Size4KiB = Done (set_map (Some (with_frames st f)) k) /\ wf limit (with_frames st f) /\
    forall x, fs_free f x <-> fs_free (PHYS_ALLOCATOR st) x \/ x = pte_addr e.
Proof using FL FRL PTL.
  intros Hm Hwf (Hlim & Hnf & Ht). unfold dealloc_frame. rewrite Hm. cbn [unwrap mbind outcome_bind].
  destruct (wf_source _ _ Hwf) as [Hinv Hsrc]. destruct (addr_range e) as [Hr Hal].
  destruct (fs_dealloc_ok (PHYS_ALLOCATOR st) (pte_addr e) Hinv Hr Hal Hnf) as (f & -> & Hinv' & Hf).
  exists f. split; [done|]. split; [|done]. destruct Hwf as [W1 W2 W3 W4 W5]. split; [exact W1|exact W2|exact W3|..].
  - intros p a Hp [Ha| ->]%Hf; [by apply W4|by apply Ht].
  - split; [done|]. intros a [Ha| ->]%Hf; [by apply Hsrc|lia].
Qed.

(** Entries without flags: every frame is given back and every entry is cleared, one page after
    the other. *)
Lemma free_pages_ok limit init : forall pages k st es,
  MEMORY_MAP k = Some st -> wf limit st -> Forall (has_table st) pages -> NoDup (page_key <$> pages) ->
  Forall2 (fun page e => page_view st page = VEntry e) pages es -> Forall (fun e => pte_flags e = 0) es ->
  NoDup (pte_addr <$> es) -> Forall (fun e => releasable limit st (pte_addr e)) es ->
  exists st', free_pages (S (length pages)) k (mkIter Size4KiB init pages) = Done (set_map (Some st') k) /\ wf limit st' /\
    (forall q, key_ok q -> key_view st' q = if decide (q ∈ page_key <$> pages) then VEntry pte_new else key_view st q) /\
    (forall x, fs_free (PHYS_ALLOCATOR st') x <-> fs_free (PHYS_ALLOCATOR st) x \/ x ∈ pte_addr <$> es).
Proof using FL FRL PTL VL.
  induction pages as [|page pages IH]; intros k st es Hm Hwf Htab Hnd Hes Hfl Hnda Hrel; inv Hes.
  { exists st. split; [cbn; rewrite <- Hm; by destruct k|]. split; [done|]. split; [done|]. intros x. cbn. rewrite elem_of_nil. tauto. }
  rename y into e, l' into es. apply NoDup_cons in Hnd as [Hnin Hnd], Hnda as [Hna Hnda].
  apply Forall_cons in Htab as [[t Ew] Htab], Hfl as [Hf0 Hfl], Hrel as [Hre Hrel].
  change (length (page :: pages)) with (S (length pages)). remember (S (length pages)) as fuel eqn:Hfuel.
  cbn [free_pages]. unfold next_page. rewrite Hm. cbn [iter_range iter_size initial mbind outcome_bind unwrap].
  rewrite (get_entry_ref_4k limit), Ew by done. cbn [mbind outcome_bind unwrap result_ok].
  assert (rd st t (get_index L1 page) = e) as -> by (rewrite (page_view_entry _ _ _ Ew) in H2; by injection H2).
  rewrite Hf0. change (contains 0 FRAME_ATTR_ENTRY_FLAG) with false. cbv match.
  destruct (dealloc_frame_ok limit k st e Hm Hwf Hre) as (f & -> & Hwf1 & Hf). cbn [mbind outcome_bind MEMORY_MAP set_map unwrap].
  assert (walk (with_frames st f) (path L1 page) = WTable t) as Ew1 by done.
  destruct (entry_written limit _ page t pte_new Hwf1 Ew1) as (Hwf2 & Hw2 & Hv2). subst fuel.
  set (st2 := wr (with_frames st f) t (get_index L1 page) pte_new) in *.
  edestruct (IH (set_map (Some st2) k) st2 es) as (st' & Heq & Hwf' & Hv' & Hfr').
  - done.
  - done.
  - by apply (has_table_walks st).
  - done.
  - apply Forall2_same_length_lookup_2; [by apply Forall2_length in H4|]. intros i p e' Hp He'.
    rewrite <- page_key_view, Hv2, decide_False; [by apply (Forall2_lookup_lr _ _ _ _ _ _ H4 Hp He')| |apply page_key_ok].
    intros Hk. apply Hnin. rewrite <- Hk. apply list_elem_of_fmap_2. by apply list_elem_of_lookup_2 in Hp.
  - done.
  - done.
  - rewrite Forall_forall in Hrel |- *. intros e' He'. destruct (Hrel e' He') as (R1 & R2 & R3). split; [done|]. split.
    + intros [|Heq]%Hf; [done|]. apply Hna. rewrite <- Heq. by apply list_elem_of_fmap_2.
    + intros p Hp. rewrite Hw2 by done. by apply R3.
  - exists st'. split; [exact Heq|]. split; [done|]. split.
    + intros q Hq. rewrite Hv', Hv2 by done. cbn [fmap list_fmap]. rewrite (decide_ext (q ∈ page_key page :: _) _ _ _ (elem_of_cons _ _ _)).
      destruct (decide (q ∈ page_key <$> pages)); [by rewrite decide_True by by right|].
      destruct (decide (q = page_key page)); [by rewrite decide_True by by left|by rewrite decide_False by tauto].
    + intros x. rewrite Hfr'. cbn [fmap list_fmap]. rewrite elem_of_cons. cbn [PHYS_ALLOCATOR st2 wr set_mem]. rewrite (Hf x). tauto.
Qed.

(** ** The global allocator *)

Lemma last_byte a size : 0 <= a -> 0 < size -> a + size <= 2 ^ 64 -> ((a ⊕ size) ⊖ 1)%u64 = a + size - 1.
Proof.
  intros Ha Hs He. unfold wsub, wadd, wrap64. rewrite Zminus_mod_idemp_l. apply Z.mod_small. lia.
Qed.

Lemma used_table st page e : page_view st page = VEntry e -> is_unused e = false -> has_table st page.
Proof using PTL.
  unfold page_view, view, has_table. destruct (walk st (path L1 page)) as [t| |]; [by exists t| |done].
  intros [= <-]. by rewrite (proj2 (unused_new pte_new) eq_refl).
Qed.

Lemma span_bounds a size : span a size -> 0 < size -> 0 <= a /\ a + size <= 2 ^ 64 /\ canonical a /\ canonical (a + size - 1).
Proof. unfold span, canonical. lia. Qed.

(** What [unmap_range] leaves for the loop: the frames of the pages, without flags. *)
Lemma unmapped_entries st st' a n es :
  Forall2 (fun page e => page_view st page = VEntry e) (pages_from a n) es ->
  (forall q, key_ok q -> if decide (q ∈ page_key <$> pages_from a n)
     then exists e e', key_view st q = VEntry e /\ key_view st' q = VEntry e' /\ pte_addr e' = pte_addr e /\ pte_flags e' = 0
     else key_view st' q = key_view st q) ->
  exists es', Forall2 (fun page e => page_view st' page = VEntry e) (pages_from a n) es' /\
    Forall (fun e => pte_flags e = 0) es' /\ pte_addr <$> es' = pte_addr <$> es.
Proof.
  intros Hes Hv. assert (forall page e, page ∈ pages_from a n -> page_view st page = VEntry e ->
    exists e', page_view st' page = VEntry e' /\ pte_addr e' = pte_addr e /\ pte_flags e' = 0) as Hone.
  { intros page e Hin He. specialize (Hv (page_key page) (page_key_ok page)). rewrite decide_True in Hv by by apply list_elem_of_fmap_2.
    destruct Hv as (e0 & e' & H1 & H2 & H3 & H4). rewrite page_key_view, He in H1. injection H1 as <-. by exists e'. }
  clear Hv. induction Hes as [|page e pages es He Hes IH].
  { exists []. split; [constructor|]. split; [constructor|done]. }
  destruct (Hone page e ltac:(by left) He) as (e' & Hv & Ha & Hf).
  destruct IH as (es' & H1 & H2 & H3); [intros p q Hp; apply Hone; by right|].
  exists (e' :: es'). split; [by constructor|]. split; [by constructor|]. cbn. congruence.
Qed.

(** [dealloc] of a large block: the frames of all its pages are given back, whether or not their
    entries said that they are counted, and nothing of the kernel changes apart from the page
    tables and the free frames. *)
Lemma dealloc_large_run limit k st ptr layout es :
  let size := Z.max (l_size layout) (l_align layout) in
  MEMORY_MAP k = Some st -> wf limit st -> ptr mod 4096 = 0 -> 0 < size -> span ptr (size + 8192) ->
  Forall2 (fun page e => page_view st page = VEntry e) (pages_from ptr (num_pages size)) es ->
  Forall (fun e => contains (pte_flags e) PRESENT = true) es ->
  NoDup (pte_addr <$> es) -> Forall (releasable limit st) (pte_addr <$> es) ->
  exists st', dealloc_large k ptr layout = Done (set_map (Some st') k) /\ wf limit st' /\
    (forall q, key_ok q -> key_view st' q =
       if decide (q ∈ page_key <$> pages_from ptr (num_pages size)) then VEntry pte_new else key_view st q) /\
    (forall x, fs_free (PHYS_ALLOCATOR st') x <-> fs_free (PHYS_ALLOCATOR st) x \/ x ∈ pte_addr <$> es).
Proof using FL FRL PTL VL.
  intros size Hm Hwf Ha Hs Hsp' Hes Hpr Hnd Hrel. pose proof (span_shrink _ _ size Hsp' ltac:(lia)) as Hsp. destruct (span_bounds _ _ Hsp Hs) as (H0 & Hend & Hc & Hcl).
  pose proof (num_pages_bound size Hs) as Hn. set (pages := pages_from ptr (num_pages size)) in *.
  unfold dealloc_large. fold size. rewrite last_byte, !virt_new_valid by done. cbn [mbind outcome_bind].
  rewrite page_range_pages, Hm by done. fold pages. assert (Forall (has_table st) pages) as Htab.
  { apply Forall_lookup. intros i p Hp. destruct (Forall2_lookup_l _ _ _ _ _ Hes Hp) as (e & He & Hv).
    apply (used_table st p e Hv), present_used. by apply (Forall_lookup_1 _ _ _ _ Hpr He). }
  destruct (unmap_range_run limit st ptr (num_pages size) Hwf ltac:(split; [done|]; split; [lia|]; apply (span_shrink _ _ _ Hsp'); lia) Htab) as (st1 & Hun & Hwf1 & Hph1 & Hb1 & Hw1 & Hv1).
  fold pages in Hun, Hv1. rewrite Hun. cbn [mbind outcome_bind fst snd iter_range].
  destruct (unmapped_entries st st1 ptr (num_pages size) es Hes Hv1) as (es' & Hes' & Hfl' & Haddr).
  destruct (free_pages_ok limit pages pages (set_map (Some st1) k) st1 es') as (st' & -> & Hwf' & Hv' & Hfr').
  - done.
  - done.
  - by apply (has_table_walks st).
  - apply pages_from_keys; [done|by apply span_pages].
  - done.
  - done.
  - by rewrite Haddr.
  - change (Forall (releasable limit st1 ∘ pte_addr) es'). rewrite <- Forall_fmap, Haddr. apply (Forall_impl _ _ _ Hrel). intros a (R1 & R2 & R3). split; [done|].
    split; [by rewrite Hph1|]. intros p Hp. rewrite Hw1, Hb1 by done. by apply R3.
  - exists st'. split; [done|]. split; [done|]. split.
    + intros q Hq. rewrite Hv' by done. specialize (Hv1 q Hq). fold pages in Hv1. by destruct (decide (q ∈ page_key <$> pages)).
    + intros x. by rewrite Hfr', Haddr, Hph1.
Qed.

Lemma data_flags_valid : valid_flags PROGRAM_DATA_FLAGS.
Proof using PTL. exact (proj1 program_data_valid). Qed.

(** A large block that the heap has found address space for; the range of a shootdown ends up to two
    pages after it. *)
Record large_request (limit : Z) k st (layout : Layout) (a len : Z) (h : H) : Prop := {
  req_map : MEMORY_MAP k = Some st;
  req_wf : wf limit st;
  req_size : ALLOC_SIZE_SEP <= Z.max (l_size layout) (l_align layout);
  req_heap : virt_allocate layout (HEAP k) = Done (Ok (a, len), h);
  req_align : a mod 4096 = 0;
  req_span : span a (Z.max (l_size layout) (l_align layout) + 8192);
  req_room : fs_room (PHYS_ALLOCATOR st) (4 * num_pages (Z.max (l_size layout) (l_align layout)));
  req_unused : Forall (fun page => page_view st page = VEntry pte_new) (pages_from a (num_pages (Z.max (l_size layout) (l_align layout))));
}.

Lemma alloc_large_run limit m st layout a len h :
  large_request limit (kern m) st layout a len h ->
  let pages := pages_from a (num_pages (Z.max (l_size layout) (l_align layout))) in
  exists st' es, alloc_large m layout = Done (a, mkMemory (small m) (set_map (Some st') (set_heap h (kern m)))) /\ wf limit st' /\
    Forall2 (fun page e => page_view st' page = VEntry e) pages es /\
    Forall (fun e => pte_flags e = PROGRAM_DATA_FLAGS) es /\ NoDup (pte_addr <$> es) /\
    Forall (fun f => fs_free (PHYS_ALLOCATOR st) f /\ releasable limit st' f) (pte_addr <$> es) /\ fs_sub st' st /\
    (forall q, key_ok q -> q ∉ page_key <$> pages -> key_view st' q = key_view st q).
Proof using FL PFL PTL PL VL MDL.
  intros [Hm Hwf Hsz Hh Ha Hsp' Hroom Hun]. set (size := Z.max _ _) in *. cbv zeta.
  pose proof (span_shrink _ _ size Hsp' ltac:(lia)) as Hsp.
  assert (0 < size) as Hs by (change ALLOC_SIZE_SEP with 2048 in Hsz; lia).
  destruct (span_bounds _ _ Hsp Hs) as (H0 & Hend & Hc & Hcl). unfold alloc_large. fold size. rewrite Hh. cbn [mbind outcome_bind fst snd].
  rewrite last_byte, !virt_new_valid by done. cbn [mbind outcome_bind]. rewrite page_range_pages by done. cbn [MEMORY_MAP set_heap]. rewrite Hm.
  set (pages := pages_from a (num_pages size)) in *.
  destruct (map_range_run limit PROGRAM_DATA_FLAGS data_flags_valid eq_refl pages st Hwf) as (st' & frames & -> & Hwf' & Hnd & Hfr & Hmap & Hrest & Hsub & Hb & _ & Htab).
  { unfold pages, pages_of. by rewrite length_fmap, length_seq. }
  { apply pages_from_keys; [done|by apply span_pages]. }
  { done. }
  cbn [mbind outcome_bind]. exists st'.
  assert (exists es, Forall2 (fun page e => page_view st' page = VEntry e) pages es /\
    Forall (fun e => pte_flags e = PROGRAM_DATA_FLAGS) es /\ pte_addr <$> es = frames) as (es & He1 & He2 & <-).
  { clear -Hmap. induction Hmap as [|page f pages frames (e & H1 & H2 & H3) Hmap (es & I1 & I2 & I3)].
    - exists []. split; [constructor|]. split; [constructor|done].
    - exists (e :: es). split; [by constructor|]. split; [by constructor|]. cbn. congruence. }
  exists es. split; [done|]. do 4 (split; [done|]). split; [|done].
  rewrite Forall_forall in Hfr, Htab |- *. intros f Hin. destruct (Hfr f Hin) as [F1 F2]. split; [done|]. split; [by apply (wf_source _ _ Hwf)|].
  split; [done|]. rewrite Hb. by apply Htab.
Qed.

(** The pages of a block translate to its frames. *)
Lemma block_translates limit st a size es : wf limit st -> 0 < size -> a mod 4096 = 0 -> span a size ->
  Forall2 (fun page e => page_view st page = VEntry e) (pages_from a (num_pages size)) es -> Forall (fun e => pte_flags e = PROGRAM_DATA_FLAGS) es ->
  forall x, a <= x < a + size -> exists f, (pte_addr <$> es) !! Z.to_nat ((x - a) / 4096) = Some f /\ translate (Some st) x = Done (Some (f + x mod 4096)).
Proof using FL PFL PTL PL VL MDL.
  intros Hwf Hs Ha Hsp Hes Hfl x Hx. pose proof (num_pages_bound size Hs) as Hn. pose proof (Z.div_mod (x - a) 4096 ltac:(lia)).
  pose proof (Z.mod_pos_bound (x - a) 4096 ltac:(lia)). pose proof (Z.div_mod a 4096 ltac:(lia)).
  set (i := Z.to_nat ((x - a) / 4096)). assert (pages_from a (num_pages size) !! i = Some (a + 4096 * Z.of_nat i)) as Hi
    by (apply pages_from_lookup; split; [done|]; lia).
  destruct (Forall2_lookup_l _ _ _ _ _ Hes Hi) as (e & He & Hv). exists (pte_addr e).
  split; [by rewrite list_lookup_fmap, He|]. assert (pte_flags e = PROGRAM_DATA_FLAGS) as Hef by by apply (Forall_lookup_1 _ _ _ _ Hfl He).
  assert (contains (pte_flags e) PRESENT = true) as Hpr by by rewrite Hef.
  destruct (span_page a (num_pages size) x Ha ltac:(lia)) as (j & Hj & Hcon). assert (j = i) as ->.
  { unfold containing_address in Hcon. cbn [SIZE] in Hcon. pose proof (Z.mod_pos_bound x 4096 ltac:(lia)). lia. }
  rewrite (translate_entry limit st x e); [by rewrite present_used|done|by apply (span_canonical a size)| |].
  - by rewrite <- page_view_containing, Hcon.
  - right. by rewrite Hef.
Qed.

(** C7. Large requests of the global allocator are backed by memory: the result is the address the
    heap found, every byte of the block translates to the byte at the same offset in a frame that
    was free and is not free any more, different pages have different frames, and no page outside
    the block changes. *)
Theorem kalloc_large_maps `{IH : HeapAlloc Kernel} limit m st layout a len h :
  large_request limit (kern m) st layout a len h ->
  exists st' frames, kalloc m layout = Done (a, mkMemory (small m) (set_map (Some st') (set_heap h (kern m)))) /\ wf limit st' /\
    NoDup frames /\ Forall (fun f => fs_free (PHYS_ALLOCATOR st) f /\ ~ fs_free (PHYS_ALLOCATOR st') f) frames /\
    (forall x, a <= x < a + Z.max (l_size layout) (l_align layout) ->
       exists f, frames !! Z.to_nat ((x - a) / 4096) = Some f /\ translate (Some st') x = Done (Some (f + x mod 4096))) /\
    (forall q, key_ok q -> q ∉ page_key <$> pages_from a (num_pages (Z.max (l_size layout) (l_align layout))) ->
       key_view st' q = key_view st q).
Proof using FL PFL PTL PL VL MDL.
  intros Hreq. destruct (alloc_large_run limit m st layout a len h Hreq) as (st' & es & Heq & Hwf' & Hes & Hfl & Hnd & Hfr & _ & Hrest).
  destruct Hreq as [_ _ Hsz _ Ha Hsp' _ _]. set (size := Z.max _ _) in *. pose proof (span_shrink _ _ size Hsp' ltac:(lia)) as Hsp.
  assert (0 < size) as Hs by (change ALLOC_SIZE_SEP with 2048 in Hsz; lia).
  exists st', (pte_addr <$> es). unfold kalloc. fold size. rewrite (proj2 (Z.ltb_ge _ _) Hsz). split; [done|]. split; [done|]. split; [done|].
  split; [by apply (Forall_impl _ _ _ Hfr); intros f (? & _ & ? & _)|]. split; [by eapply block_translates|done].
Qed.

(** C36. For a request of at least 2048 bytes that the heap places on unused, page-aligned address space, and an allocator with four frames for each page: freeing the block that was just allocated gives back exactly its frames, one for each page, all different, those that the bytes of the block
    translated to in between, and leaves every
    page of the address space as it was before the allocation.  The address space itself is not
    given back: the heap stays as the allocation left it. *)
Theorem kalloc_dealloc_roundtrip `{IH : HeapAlloc Kernel} limit m st layout a len h :
  large_request limit (kern m) st layout a len h ->
  exists m1 m2 st1 st2 frames, kalloc m layout = Done (a, m1) /\ kdealloc m1 a layout = Done m2 /\
    MEMORY_MAP (kern m1) = Some st1 /\ MEMORY_MAP (kern m2) = Some st2 /\ wf limit st2 /\
    (forall page, page_view st2 page = page_view st page) /\
    length frames = num_pages (Z.max (l_size layout) (l_align layout)) /\ NoDup frames /\
    (forall x, a <= x < a + Z.max (l_size layout) (l_align layout) ->
       exists f, frames !! Z.to_nat ((x - a) / 4096) = Some f /\ translate (Some st1) x = Done (Some (f + x mod 4096))) /\
    Forall (fun f => fs_free (PHYS_ALLOCATOR st) f /\ ~ fs_free (PHYS_ALLOCATOR st1) f) frames /\
    (forall x, fs_free (PHYS_ALLOCATOR st2) x <-> fs_free (PHYS_ALLOCATOR st1) x \/ x ∈ frames) /\
    HEAP (kern m2) = h.
Proof using FL FRL PFL PTL PL VL MDL.
  intros Hreq. destruct (alloc_large_run limit m st layout a len h Hreq) as (st1 & es & Heq & Hwf1 & Hes & Hfl & Hnd & Hfr & _ & Hrest).
  destruct Hreq as [_ _ Hsz _ Ha Hsp _ Hun]. set (size := Z.max _ _) in *.
  assert (0 < size) as Hs by (change ALLOC_SIZE_SEP with 2048 in Hsz; lia).
  destruct (dealloc_large_run limit (set_map (Some st1) (set_heap h (kern m))) st1 a layout es) as (st2 & Hd & Hwf2 & Hv2 & Hf2); [done|done|done|done|done|done| |done| |].
  { apply (Forall_impl _ _ _ Hfl). by intros e ->. }
  { apply (Forall_impl _ _ _ Hfr). by intros f [_ ?]. }
  eexists _, _, st1, st2, (pte_addr <$> es). unfold kalloc, kdealloc. fold size. rewrite (proj2 (Z.ltb_ge _ _) Hsz).
  split; [exact Heq|]. cbn [kern small]. rewrite Hd. cbn [mbind outcome_bind]. split; [done|]. split; [done|]. split; [done|].
  split; [done|]. split; [|split; [|split; [done|split; [|split; [|done]]]]].
  - intros page. rewrite <- !page_key_view, Hv2 by apply page_key_ok. destruct (decide _) as [(p & Hp & Hin)%list_elem_of_fmap|Hn].
    + rewrite Hp, page_key_view. rewrite Forall_forall in Hun. by rewrite Hun.
    + apply Hrest; [apply page_key_ok|done].
  - rewrite length_fmap. apply Forall2_length in Hes. rewrite <- Hes. apply pages_from_length.
  - eapply block_translates; try done. apply (span_shrink _ _ _ Hsp). lia.
  - by apply (Forall_impl _ _ _ Hfr); intros f (? & _ & ? & _).
Qed.

(** The global allocator does not look at sharing: when a large block is freed, the frame of each
    of its pages becomes free, also one whose entry carries the attribute flag and whose count
    says that other pages use it ([unmap_range] has cleared the flags by the time they are
    tested).  The attribute table does not change. *)
Theorem kdealloc_frees_counted limit (m : Memory (F := F) (H := H)) st t ptr layout es e n flags :
  let size := Z.max (l_size layout) (l_align layout) in
  MEMORY_MAP (kern m) = Some st -> ATTRIBUTE_TABLE_HEAD (kern m) = Some t -> wf limit st ->
  ALLOC_SIZE_SEP <= size -> ptr mod 4096 = 0 -> span ptr (size + 8192) ->
  Forall2 (fun page e => page_view st page = VEntry e) (pages_from ptr (num_pages size)) es ->
  Forall (fun e => contains (pte_flags e) PRESENT = true) es ->
  NoDup (pte_addr <$> es) -> Forall (releasable limit st) (pte_addr <$> es) ->
  e ∈ es -> contains (pte_flags e) FRAME_ATTR_ENTRY_FLAG = true -> has_fae t (pte_addr e) n flags -> 2 <= n ->
  exists st', kdealloc m ptr layout = Done (mkMemory (small m) (set_map (Some st') (kern m))) /\
    fs_free (PHYS_ALLOCATOR st') (pte_addr e) /\
    forall x, fs_free (PHYS_ALLOCATOR st') x <-> fs_free (PHYS_ALLOCATOR st) x \/ x ∈ pte_addr <$> es.
Proof using FL FRL PTL VL.
  intros size Hm _ Hwf Hsz Ha Hsp Hes Hpr Hnd Hrel Hin _ _ _.
  assert (0 < size) as Hs by (change ALLOC_SIZE_SEP with 2048 in Hsz; lia).
  destruct (dealloc_large_run limit (kern m) st ptr layout es) as (st' & Hd & _ & _ & Hf); [done..|].
  exists st'. unfold kdealloc. fold size. rewrite (proj2 (Z.ltb_ge _ _) Hsz), Hd. split; [done|]. split; [|done].
  apply Hf. right. by apply list_elem_of_fmap_2.
Qed.

(** ** Device memory *)

Lemma mmio_flags_valid : valid_flags mmio_flags.
Proof using PTL. destruct valid_flags_known as (H1 & H2 & _ & H3 & _ & H4). unfold mmio_flags. by repeat apply valid_flags_lor. Qed.

(** Consecutive frames for consecutive pages. *)
Lemma map_zip_ok limit flags :
  valid_flags flags -> contains flags PRESENT = true ->
  forall pages frames st, wf limit st -> fs_room (PHYS_ALLOCATOR st) (3 * length pages) -> NoDup (page_key <$> pages) ->
  Forall (fun page => page_view st page = VEntry pte_new) pages -> length frames = length pages ->
  Forall (fun f => 0 <= f < 2 ^ 52 /\ f mod PAGE_SIZE = 0) frames ->
  exists st', map_zip (Some st) pages frames flags = Done (Some st') /\ wf limit st' /\
    Forall2 (fun page f => exists e, page_view st' page = VEntry e /\ pte_addr e = f /\ pte_flags e = flags) pages frames /\
    (forall q, key_ok q -> q ∉ page_key <$> pages -> key_view st' q = key_view st q).
Proof using FL PFL PTL PL VL MDL.
  intros Hvf Hpr. induction pages as [|page pages IH]; intros [|f frames] st Hwf Hroom Hnd Hun Hlen Hfr; try done.
  { exists st. split; [done|]. split; [done|]. split; [constructor|done]. }
  apply NoDup_cons in Hnd as [Hnin Hnd]. apply Forall_cons in Hun as [Hp Hun], Hfr as [[Hf Hal] Hfr]. cbn in Hlen.
  replace (3 * length (page :: pages))%nat with (3 + 3 * length pages)%nat in Hroom by (cbn [length]; lia).
  cbn [map_zip]. unfold map_frame_to_page. cbn [mbind outcome_bind unwrap map_to]. set (pg := containing_address Size4KiB page).
  pose proof (map_to_view limit _ st pg f flags (parent_flags flags) Hwf Hroom Hf Hal Hvf Hpr
    (parent_flags_valid _ Hvf) (parent_flags_table _)) as Hm.
  unfold pg in Hm at 1. rewrite page_view_containing, Hp, (proj2 (unused_new pte_new) eq_refl) in Hm.
  destruct Hm as (e & st1 & -> & Hroom1 & _ & Hwf1 & Hea & Hef & Heu & Hupd). cbn [mbind outcome_bind unwrap result_ok fst snd].
  assert (page_key pg = page_key page) as Hkey by (unfold page_key, pg; by rewrite path_containing, get_index_page).
  assert (forall q, key_ok q -> q <> page_key page -> key_view st1 q = key_view st q) as Hother.
  { intros q Hq Hne. by rewrite (view_updated_key _ _ _ _ _ Hupd Hq), decide_False by by rewrite Hkey. }
  destruct (IH frames st1 Hwf1 Hroom1 Hnd) as (st' & Heq & Hwf' & Hmap & Hrest); [|lia|done|].
  { rewrite Forall_forall in Hun |- *. intros q Hq. rewrite <- page_key_view, Hother; [by apply Hun|apply page_key_ok|].
    intros Hk. apply Hnin. rewrite <- Hk. by apply list_elem_of_fmap_2. }
  exists st'. split; [done|]. split; [done|]. split.
  - constructor; [|done]. exists e. split; [|done]. rewrite <- page_key_view, Hrest; [|apply page_key_ok|done].
    rewrite (view_updated_key _ _ _ _ _ Hupd), decide_True; [done..|apply page_key_ok].
  - intros q Hq Hnq. cbn in Hnq. apply not_elem_of_cons in Hnq as [Hq1 Hq2]. by rewrite Hrest, Hother.
Qed.

Lemma map_frames_zip f flags : 0 <= f -> forall pages i mm, 0 <= i -> f + PAGE_SIZE * (i + Z.of_nat (length pages)) < 2 ^ 52 ->
  map_frames mm pages f i flags = map_zip mm pages (pages_from (f + PAGE_SIZE * i) (length pages)) flags.
Proof using ASL.
  intros Hf. unfold PAGE_SIZE. induction pages as [|page pages IH]; intros i mm Hi Hlim; [done|]. cbn [length] in Hlim |- *.
  assert (pages_from (f + 4096 * i) (S (length pages)) = (f + 4096 * i) :: pages_from (f + 4096 * (i + 1)) (length pages)) as ->.
  { unfold pages_of. cbn [seq fmap list_fmap]. f_equal; [lia|]. rewrite <- fmap_S_seq, <- list_fmap_compose.
    apply list_fmap_ext. intros j x _. cbn. lia. }
  cbn [map_frames map_zip]. rewrite frame_add_valid by (unfold PAGE_SIZE; lia). cbn [mbind outcome_bind].
  destruct (map_frame_to_page _ _ _ _ _) as [[res mm']|]; [|done]. cbn [mbind outcome_bind fst snd]. unfold PAGE_SIZE in *.
  destruct (unwrap (result_ok res)); [|done]. cbn [mbind outcome_bind]. rewrite IH by lia. done.
Qed.

(** A block of pages on a block of frames: the bytes of the one are the bytes of the other. *)
Lemma map_block_ok limit flags a f n st :
  valid_flags flags -> contains flags PRESENT = true -> contains flags HUGE_PAGE = false ->
  wf limit st -> fs_room (PHYS_ALLOCATOR st) (3 * n) -> a mod 4096 = 0 -> span a (4096 * Z.of_nat n) ->
  Forall (fun page => page_view st page = VEntry pte_new) (pages_from a n) ->
  0 <= f -> f mod 4096 = 0 -> f + 4096 * Z.of_nat n <= 2 ^ 52 ->
  exists st', map_zip (Some st) (pages_from a n) (pages_from f n) flags = Done (Some st') /\ wf limit st' /\
    (forall x, a <= x < a + 4096 * Z.of_nat n -> translate (Some st') x = Done (Some (f + (x - a)))) /\
    (forall q, key_ok q -> q ∉ page_key <$> pages_from a n -> key_view st' q = key_view st q).
Proof using FL PFL PTL PL VL MDL.
  intros Hvf Hpr Hnh Hwf Hroom Ha Hsp Hun Hf Hfa Hlim.
  destruct (map_zip_ok limit flags Hvf Hpr (pages_from a n) (pages_from f n) st Hwf) as (st' & Heq & Hwf' & Hmap & Hrest).
  { by rewrite pages_from_length. } { by apply pages_from_keys. } { done. } { by rewrite !pages_from_length. }
  { apply Forall_forall. intros x (i & -> & Hi)%pages_from_elem. split; [lia|].
    unfold PAGE_SIZE. by rewrite Z.mul_comm, Z_mod_plus_full. }
  exists st'. split; [done|]. split; [done|]. split; [|done]. intros x Hx. destruct (span_page a n x Ha Hx) as (i & Hi & Hcon).
  destruct (Forall2_lookup_lr _ _ _ i _ _ Hmap (proj2 (pages_from_lookup a n i _) (conj eq_refl Hi)) (proj2 (pages_from_lookup f n i _) (conj eq_refl Hi)))
    as (e & Hv & Hea & Hef).
  rewrite (translate_entry limit st' x e); [|done|by apply (span_canonical a (4096 * Z.of_nat n))|by rewrite <- page_view_containing, Hcon|right; by rewrite Hef].
  rewrite present_used, Hea by by rewrite Hef. do 2 f_equal. unfold containing_address in Hcon. cbn [SIZE] in Hcon. lia.
Qed.

(** A request for device memory that the heap has found address space for. *)
Record mmio_request (limit : Z) k st (self : Z) (layout : Layout) (a len : Z) (h : H) : Prop := {
  mreq_map : MEMORY_MAP k = Some st;
  mreq_wf : wf limit st;
  mreq_size : 0 < l_size layout;
  mreq_heap : virt_allocate layout (HEAP k) = Done (Ok (a, len), h);
  mreq_align : a mod 4096 = 0;
  mreq_span : span a (4096 * Z.of_nat (num_pages (l_size layout)) + 4096);
  mreq_room : fs_room (PHYS_ALLOCATOR st) (3 * num_pages (l_size layout));
  mreq_unused : Forall (fun page => page_view st page = VEntry pte_new) (pages_from a (num_pages (l_size layout)));
  mreq_phys : 0 <= self /\ self + 4096 * Z.of_nat (num_pages (l_size layout)) < 2 ^ 52;
}.

Lemma get_page_range_ok layout a : 0 < l_size layout -> a mod 4096 = 0 -> span a (l_size layout + 1) ->
  get_page_range layout a = Done (pages_from a (num_pages (l_size layout))).
Proof using VL ASL.
  intros Hs Ha Hsp. assert (canonical a /\ canonical (a + l_size layout) /\ canonical (a + l_size layout - 1)) as (C1 & C2 & C3)
    by (unfold span, canonical in *; lia).
  unfold get_page_range. rewrite virt_new_valid by done. cbn [mbind outcome_bind]. rewrite virt_add_valid by (done || lia).
  cbn [mbind outcome_bind]. rewrite virt_sub_valid by (done || lia). cbn [mbind outcome_bind].
  by rewrite page_range_pages.
Qed.

(** [MmioAlloc::allocate] maps the pages of the block to consecutive uncached frames and returns a
    pointer to the requested physical address: byte [b] behind the pointer is byte [b] of the
    device, as long as the offset of the device in its page and [b] stay inside the pages that the
    size alone needs.  The bytes after them keep whatever mapping they had, although a device that
    is not aligned can reach there: the number of pages does not count its offset. *)
Theorem mmio_allocate_bytes limit k st self layout a len h :
  mmio_request limit k st self layout a len h ->
  let mapped := 4096 * Z.of_nat (num_pages (l_size layout)) in
  exists st', mmio_allocate k self layout = Done (Ok (a + self mod 4096, l_size layout), set_map (Some st') (set_heap h k)) /\
    wf limit st' /\
    (forall b, 0 <= b -> self mod 4096 + b < mapped -> translate (Some st') (a + self mod 4096 + b) = Done (Some (self + b))) /\
    (forall b, mapped <= self mod 4096 + b -> b < l_size layout ->
       page_view st' (a + self mod 4096 + b) = page_view st (a + self mod 4096 + b)).
Proof using FL PFL PTL PL VL ASL MDL.
  intros [Hm Hwf Hs Hh Ha Hsp Hroom Hun [Hp0 Hp1]] mapped. set (n := num_pages (l_size layout)) in *.
  pose proof (num_pages_bound _ Hs) as Hn. fold n in Hn. pose proof (Z.mod_pos_bound self 4096 ltac:(lia)) as Hmod.
  pose proof (Z.div_mod self 4096 ltac:(lia)) as Hdm. unfold mmio_allocate. rewrite Hh. cbn [mbind outcome_bind fst snd].
  rewrite get_page_range_ok by (done || (unfold span in *; lia)). cbn [mbind outcome_bind]. rewrite phys_new_valid by lia.
  cbn [mbind outcome_bind MEMORY_MAP set_heap]. rewrite Hm. fold n.
  set (f := containing_address Size4KiB self). assert (f = 4096 * (self / 4096)) as Hf by (unfold f, containing_address; cbn [SIZE]; lia).
  assert (span a mapped) as Hspm by (unfold span in *; lia).
  rewrite map_frames_zip by (rewrite ?pages_from_length; unfold PAGE_SIZE; lia).
  rewrite pages_from_length, Z.mul_0_r, Z.add_0_r.
  destruct (map_block_ok limit mmio_flags a f n st mmio_flags_valid eq_refl eq_refl Hwf Hroom Ha Hspm Hun ltac:(lia)
    ltac:(rewrite Hf, Z.mul_comm; apply Z_mod_mult) ltac:(lia)) as (st' & -> & Hwf' & Hbytes & Hrest).
  cbn [mbind outcome_bind]. exists st'. split.
  { unfold offset_addr. change (PAGE_SIZE - 1) with (2 ^ 12 - 1). rewrite land_mask by lia. change (2 ^ 12) with 4096.
    rewrite wadd_small by (unfold span in *; lia). done. }
  split; [done|]. split.
  - intros b Hb Hlt. rewrite Hbytes by lia. do 2 f_equal. lia.
  - intros b Hb Hlt. set (x := a + self mod 4096 + b). rewrite <- !page_key_view. apply Hrest; [apply page_key_ok|].
    intros (p & Hk & (i & -> & Hi)%pages_from_elem)%list_elem_of_fmap.
    apply key_page in Hk; [|unfold canonical, span in *; lia..]. unfold containing_address in Hk. cbn [SIZE] in Hk.
    pose proof (Z.mod_pos_bound x 4096 ltac:(lia)). pose proof (Z.div_mod a 4096 ltac:(lia)).
    rewrite (Z.mul_comm 4096 (Z.of_nat i)), Z_mod_plus_full in Hk. lia.
Qed.

(** ** DMA buffers *)

Lemma map_zip_app mm flags frames more : forall pages, length pages = length frames ->
  map_zip mm (pages ++ more) frames flags = map_zip mm pages frames flags.
Proof.
  revert mm. induction frames as [|f frames IH]; intros mm [|p pages] Hl; try done; [by destruct more|]. cbn [map_zip app].
  destruct (map_frame_to_page _ _ _ _ _) as [[res mm']|]; [|done]. cbn [mbind outcome_bind fst snd].
  destruct (unwrap (result_ok res)); [|done]. cbn [mbind outcome_bind]. apply IH. by injection Hl.
Qed.

Lemma pages_from_split a n m : pages_from a (n + m) = pages_from a n ++ pages_from (a + 4096 * Z.of_nat n) m.
Proof.
  unfold pages_of. rewrite seq_app, fmap_app. f_equal. rewrite <- (Nat.add_0_r (0 + n)), <- fmap_add_seq, <- list_fmap_compose.
  apply list_fmap_ext. intros i x _. cbn. lia.
Qed.

(** A request for a DMA buffer of the layout [l], for which the heap has found the address space
    [(a, len)] and the physical allocator the memory at [start]. *)
Record dma_request (limit : Z) k st (self : DmaAlloc) (l : Layout) (a len start : Z) (h : H) (f : F) : Prop := {
  dreq_map : MEMORY_MAP k = Some st;
  dreq_wf : wf limit (with_frames st f);
  dreq_size : 0 < l_size l <= len /\ l_size l < 2 ^ 52;
  dreq_heap : virt_allocate l (HEAP k) = Done (Ok (a, len), h);
  dreq_align : a mod 4096 = 0;
  dreq_span : span a len;
  dreq_phys : exists pl, from_size_align (l_size l) (phys_align self) = Some pl /\
    phys_allocate pl (region self) (PHYS_ALLOCATOR st) = Done (Ok start, f);
  dreq_start : 0 <= start /\ start mod 4096 = 0 /\ start + 4096 * Z.of_nat (num_pages (l_size l)) <= 2 ^ 52;
  dreq_room : fs_room f (3 * num_pages (l_size l));
  dreq_unused : Forall (fun page => page_view st page = VEntry pte_new) (pages_from a (num_pages (l_size l)));
}.

Lemma num_pages_mono a b : a <= b -> (num_pages a <= num_pages b)%nat.
Proof. intros Hab. unfold num_pages. pose proof (Z.div_le_mono (a + 4095) (b + 4095) 4096 ltac:(lia) ltac:(lia)). lia. Qed.

(** [DmaAlloc::allocate] gives memory that is contiguous for the device: byte [b] of the buffer is
    byte [b] of the physical block, up to the padded size of the request.  The slice it returns has
    the length the heap reports; when that is longer, the rest of it is not mapped. *)
Theorem dma_allocate_contiguous limit k st self layout l a len start h f :
  dma_layout layout = Done l -> dma_request limit k st self l a len start h f ->
  let mapped := 4096 * Z.of_nat (num_pages (l_size l)) in
  exists st', dma_allocate k self layout = Done (Ok (a, len), set_map (Some st') (set_heap h k)) /\ wf limit st' /\ l_size l <= mapped /\
    (forall b, 0 <= b < mapped -> translate (Some st') (a + b) = Done (Some (start + b))) /\
    (forall b, mapped <= b < len -> page_view st' (a + b) = page_view st (a + b)).
Proof using FL PFL PTL PL VL MDL.
  intros Hl [Hm Hwf [[Hs Hle] Hbig] Hh Ha Hsp (pl & Hpl & Hph) (Hs0 & Hsa & Hse) Hroom Hun] mapped.
  set (n := num_pages (l_size l)) in *. pose proof (num_pages_bound _ Hs) as Hn. fold n in Hn.
  destruct (span_bounds _ _ Hsp ltac:(lia)) as (H0 & Hend & Hc & Hcl). unfold dma_allocate. rewrite Hl. cbn [mbind outcome_bind].
  rewrite Hh. cbn [mbind outcome_bind fst snd]. replace ((len ⊕ a)%u64) with ((a ⊕ len)%u64) by (unfold wadd; by rewrite Z.add_comm).
  rewrite last_byte by lia. rewrite !virt_new_valid by done. cbn [mbind outcome_bind]. rewrite Hpl. cbn [unwrap mbind outcome_bind MEMORY_MAP set_heap].
  rewrite Hm. cbn [unwrap mbind outcome_bind]. rewrite Hph. cbn [mbind outcome_bind fst snd]. rewrite wsub_small by lia.
  rewrite phys_add_valid by lia. cbn [mbind outcome_bind]. replace (start + (l_size l - 1)) with (start + l_size l - 1) by lia.
  rewrite !page_range_pages by (done || lia). fold n. pose proof (num_pages_mono _ _ Hle) as Hnm. fold n in Hnm.
  replace (num_pages len) with (n + (num_pages len - n))%nat by lia. rewrite pages_from_split, map_zip_app by by rewrite !pages_from_length.
  assert (span a mapped) as Hspm by (apply span_pages; [done|done|unfold span in *; lia]).
  destruct (map_block_ok limit MMIO_FLAGS a start n (with_frames st f) mmio_flags_valid eq_refl eq_refl Hwf Hroom Ha Hspm Hun Hs0 Hsa Hse)
    as (st' & -> & Hwf' & Hbytes & Hrest).
  cbn [mbind outcome_bind]. exists st'. split; [done|]. split; [done|]. split; [lia|]. split.
  - intros b Hb. rewrite Hbytes by lia. do 2 f_equal. lia.
  - intros b Hb. rewrite <- !page_key_view. apply (Hrest (page_key (a + b))); [apply page_key_ok|].
    intros (p & Hk & (i & -> & Hi)%pages_from_elem)%list_elem_of_fmap.
    apply key_page in Hk; [|unfold canonical, span in *; lia..]. unfold containing_address in Hk. cbn [SIZE] in Hk.
    pose proof (Z.mod_pos_bound (a + b) 4096 ltac:(lia)). pose proof (Z.div_mod a 4096 ltac:(lia)).
    rewrite (Z.mul_comm 4096 (Z.of_nat i)), Z_mod_plus_full in Hk. lia.
Qed.

End Laws.

(** ** Small blocks *)
Section Small.
Context {F : Type} `{FS : FrameSource F} {FL : FrameSourceLaws F}
        `{PF : PhysFrameOps} {PFL : PhysFrameLaws} `{PO : PteOps} {PTL : PteLaws} `{PA : PhysAddrOps} {PL : PhysAddrLaws}
        `{VA : VirtAddrOps} {VL : VirtAddrLaws} `{MD : MapperDefaults} {MDL : MapperDefaultsLaws}
        {H : Type} `{HL : HeapAllocLaws H}.
Abbreviation Kernel := (Kernel (F := F) (H := H)).
Implicit Types k : Kernel.

(** The page of [x] is mapped. *)
Definition backed k (x : Z) : Prop :=
  exists st e, MEMORY_MAP k = Some st /\ page_view st x = VEntry e /\ contains (pte_flags e) PRESENT = true.

Lemma backed_em k x : backed k x \/ ~ backed k x.
Proof.
  unfold backed. destruct (MEMORY_MAP k) as [st|]; [|right; by intros (? & ? & ? & _)].
  destruct (page_view st x) as [e|] eqn:Hv; [|right; intros (? & ? & [= <-] & ? & _); congruence].
  destruct (contains (pte_flags e) PRESENT) eqn:Hp; [left; by exists st, e|].
  right. intros (? & ? & [= <-] & Hv' & ?). rewrite Hv in Hv'. congruence.
Qed.

(** The heap as the fixed-size blocks see it: the addresses that cannot be used are those the heap
    still owns and those that are not mapped.  Address space the heap owns is canonical and not
    mapped. *)
#[local] Instance interior_heap : HeapAlloc Kernel := {
  virt_allocate := interior_allocate;
  avail k x := avail (HEAP k) x \/ ~ backed k x;
  heap_inv k := heap_inv (HEAP k) /\ exists limit st, MEMORY_MAP k = Some st /\ wf limit st /\
    forall x, avail (HEAP k) x -> canonical x /\ page_view st x = VEntry pte_new;
  room k := room (HEAP k) /\ exists st, MEMORY_MAP k = Some st /\ fs_room (PHYS_ALLOCATOR st) 4;
}.

Lemma same_page a x : a mod 4096 = 0 -> containing_address Size4KiB x = containing_address Size4KiB a <-> in_range x (a, 4096).
Proof.
  intros Ha. rewrite (containing_aligned a) by done. unfold containing_address, in_range. cbn [SIZE fst snd].
  pose proof (Z.mod_pos_bound x 4096 ltac:(lia)). pose proof (Z.div_mod x 4096 ltac:(lia)). pose proof (Z.div_mod a 4096 ltac:(lia)). lia.
Qed.

Lemma interior_run k r h st limit :
  MEMORY_MAP k = Some st -> wf limit st -> fs_room (PHYS_ALLOCATOR st) 4 ->
  virt_allocate page_layout (HEAP k) = Done (Ok r, h) -> canonical r.1 -> r.1 mod 4096 = 0 -> page_view st r.1 = VEntry pte_new ->
  exists st' e, interior_allocate page_layout k = Done (Ok r, set_map (Some st') (set_heap h k)) /\ wf limit st' /\
    contains (pte_flags e) PRESENT = true /\ page_view st' r.1 = VEntry e /\
    (forall q, key_ok q -> q <> page_key r.1 -> key_view st' q = key_view st q).
Proof using FL PFL PTL PL VL MDL.
  intros Hm Hwf Hroom Hva Hc Ha Hv. unfold interior_allocate. rewrite Hva. cbn [mbind outcome_bind fst snd].
  rewrite virt_new_valid by done. cbn [mbind outcome_bind MEMORY_MAP set_heap]. rewrite Hm, containing_aligned by done.
  replace extend_flags with PROGRAM_DATA_FLAGS by reflexivity.
  destruct (map_page_view limit st r.1 Hwf Hroom Hv) as (st' & e & -> & H1 & H2 & H3 & H4). by exists st', e.
Qed.

#[local] Instance interior_heap_laws : HeapAllocLaws Kernel.
Proof using FL PFL PTL PL VL MDL HL.
  split. intros k r k' (Hinv & limit & st & Hm & Hwf & Hav) (Hroom & st0 & Hm0 & Hfs) Hrun.
  assert (st0 = st) as -> by congruence. cbn [virt_allocate interior_heap] in Hrun. pose proof Hrun as Hrun0. unfold interior_allocate in Hrun0.
  apply outcome_bind_Done in Hrun0 as ([[p|[]] h] & Hva & Hrest); cbn [fst snd] in Hrest; [|done].
  assert (p = r) as ->. { apply outcome_bind_Done in Hrest as (? & _ & Hrest). apply outcome_bind_Done in Hrest as (? & _ & Hrest). congruence. }
  clear Hrest. destruct (virt_allocate_page _ _ _ Hinv Hroom Hva) as (Hinv' & Hlen & Ha & Hpos & Hend & Hfresh & Hmono).
  assert (in_range r.1 (r.1, 4096)) as Hin by (unfold in_range; cbn; lia). destruct (Hav r.1 (proj1 (Hfresh _ Hin))) as [Hc Hv].
  destruct (interior_run k r h st limit Hm Hwf Hfs Hva Hc Ha Hv) as (st' & e & Heq & Hwf' & Hpr & Hve & Hrest).
  assert (k' = set_map (Some st') (set_heap h k)) as -> by congruence. cbn [avail heap_inv interior_heap HEAP set_map set_heap MEMORY_MAP].
  assert (forall x, page_key x = page_key r.1 -> page_view st' x = VEntry e) as Hkey by (intros x Hx; by rewrite <- page_key_view, Hx).
  split; [split; [done|]; exists limit, st'; split; [done|]; split; [done|]|]; [|do 4 (split; [done|]); split].
  - intros x Hx. destruct (Hav x (Hmono x Hx)) as [Hcx Hvx]. split; [done|]. rewrite <- page_key_view, Hrest; [done|apply page_key_ok|].
    intros Hk. apply (proj2 (Hfresh x ltac:(apply same_page; [done|by apply key_page]))). done.
  - intros x Hx. split; [left; by apply Hfresh|]. intros [Hx'|Hn]; [by apply (Hfresh x)|]. apply Hn. exists st', e. split; [done|].
    split; [|done]. apply Hkey. unfold page_key. apply same_page in Hx; [|done].
    by rewrite <- (path_containing L1 x), <- (get_index_page L1 x), Hx, path_containing, get_index_page.
  - intros x [Hx|Hn]; [left; by apply Hmono|]. right. intros (st0 & e0 & Hm1 & Hv0 & Hp0). apply Hn.
    assert (st0 = st) as -> by congruence. exists st'. destruct (decide (page_key x = page_key r.1)) as [Hk|Hk].
    + exists e. split; [done|]. split; [by apply Hkey|done].
    + exists e0. split; [done|]. split; [|done]. by rewrite <- page_key_view, Hrest by (done || apply page_key_ok).
Qed.

(** Small requests of the global allocator: while the heap has a page of address space left and
    the physical allocator four frames, the request succeeds; the block is aligned, not at address
    zero and large enough, every byte of it is mapped, and it is disjoint from the free blocks and
    from the address space of the heap that are left. *)
Theorem kalloc_small_backed (m : Memory (F := F) (H := H)) L l :
  FixedBlock.ok (small m) L -> FixedBlock.sep L (kern m) -> FixedBlock.can_page (kern m) ->
  layout_ok l -> 0 < l_size l -> Z.max (l_size l) (l_align l) < ALLOC_SIZE_SEP ->
  exists p s m' L', kalloc m l = Done (p, m') /\ l_size l <= s /\ p mod l_align l = 0 /\ 0 < p /\
    FixedBlock.ok (small m') L' /\ FixedBlock.sep L' (kern m') /\
    (forall x, in_range x (p, s) -> backed (kern m') x /\ ~ covers (FixedBlock.blocks L') x /\ ~ avail (HEAP (kern m')) x).
Proof using FL PFL PTL PL VL MDL HL.
  intros Hok Hsep Hpage Hl Hpos Hlt. unfold kalloc. rewrite (proj2 (Z.ltb_lt _ _) Hlt). change ALLOC_SIZE_SEP with 2048 in Hlt.
  destruct (FixedBlock.allocate_ok (small m) L (kern m) l Hok Hsep Hpage Hl Hpos ltac:(lia))
    as (p & s & a' & L' & k' & Heq & Hs & Hal & Hp & Hok' & Hsep' & Hx & _).
  exists p, s, (mkMemory a' k'), L'. unfold alloc_small. rewrite Heq. do 6 (split; [done|]).
  intros x Hin. destruct (Hx x Hin) as (_ & Hnc & Hna). cbn in Hna. destruct (backed_em k' x); tauto.
Qed.

End Small.

(** ** A concrete machine *)
Module AllocIfWitness.
Import FrameWitness PageTableWitness MemMapWitness FrameAttrWitness.
#[local] Existing Instance interior_heap.

(** A heap that hands out pages of the lower half upwards; its state is the next page. *)
#[export] Instance low_heap : HeapAlloc Z := {
  virt_allocate l h :=
    if (0 <? h) && (l_align l <=? 4096) && (0 <? l_size l) && (h * 4096 + l_size l <=? 2 ^ 46)
    then Done (Ok (h * 4096, l_size l), h + Z.of_nat (num_pages (l_size l))) else Done (Err tt, h);
  avail h x := 0 < h /\ h * 4096 <= x < 2 ^ 46;
  heap_inv h := 0 < h;
  room h := True;
}.

#[export] Instance low_heap_laws : HeapAllocLaws Z.
Proof.
  split. intros h r h' Hi _. cbn [virt_allocate low_heap]. change (num_pages (l_size page_layout)) with 1%nat. cbn.
  destruct (Z.ltb_spec 0 h); [|done]. cbn [andb].
  destruct (Z.leb_spec (h * 4096 + 4096) (2 ^ 46)); [|done]. intros [= <- <-]. cbn. unfold in_range. cbn.
  split; [lia|]. split; [lia|]. split; [apply Z_mod_mult|]. split; [lia|]. split; [lia|]. split; intros x Hx; lia.
Qed.

#[export] Instance addr_step : AddrStepOps := {
  virt_sub a n := if canonicalb (a - n) then Done (a - n) else Panic;
  frame_add f n := if f + PAGE_SIZE * n <? 2 ^ 52 then Done (f + PAGE_SIZE * n) else Panic;
}.

#[export] Instance addr_step_laws : AddrStepLaws.
Proof.
  split; cbn.
  - intros a n Ha Hn Hc. by rewrite canonicalb_true.
  - intros f n Hf Hn Hlt. by rewrite (proj2 (Z.ltb_lt _ _) Hlt).
Qed.

(** One reserved block of physical memory for buffers. *)
#[export] Instance block_phys : PhysAllocator (list Z) := {
  phys_allocate l r f := if l_size l <=? 0x10000 then Done (Ok 0x40000, f) else Done (Err tt, f);
  phys_dealloc a l f := Done f;
}.

Definition machine : Kernel (F := list Z) (H := Z) := mkKernel (Some empty) None [] 1 ∅.

Definition boot_memory : Memory (F := list Z) (H := Z) := mkMemory (FixedBlock.new ∅) machine.

Lemma machine_unused page : page_view empty page = VEntry pte_new.
Proof. unfold page_view, view. rewrite empty_walk. done. Qed.

Definition two_pages : Layout := mkLayout 8000 8.

Lemma boot_request : large_request (2 ^ 46) (kern boot_memory) empty two_pages 0x1000 8000 3.
Proof.
  split.
  - reflexivity.
  - exact empty_wf.
  - vm_compute. discriminate.
  - vm_compute. reflexivity.
  - reflexivity.
  - unfold span, two_pages. cbn [l_size l_align]. lia.
  - vm_compute. exact I.
  - apply Forall_forall. intros page _. apply machine_unused.
Qed.

Lemma kalloc_large_maps_witness :
  exists st' frames, kalloc (IH := interior_heap) boot_memory two_pages =
      Done (0x1000, mkMemory (FixedBlock.new ∅) (set_map (Some st') (set_heap 3 machine))) /\ wf (2 ^ 46) st' /\
    NoDup frames /\ Forall (fun f => fs_free (PHYS_ALLOCATOR empty) f /\ ~ fs_free (PHYS_ALLOCATOR st') f) frames /\
    (forall x, 0x1000 <= x < 0x1000 + Z.max 8000 8 ->
       exists f, frames !! Z.to_nat ((x - 0x1000) / 4096) = Some f /\ translate (Some st') x = Done (Some (f + x mod 4096))) /\
    (forall q, key_ok q -> q ∉ page_key <$> pages_from 0x1000 (num_pages (Z.max 8000 8)) -> key_view st' q = key_view empty q).
Proof. exact (kalloc_large_maps (IH := interior_heap) (2 ^ 46) boot_memory empty two_pages 0x1000 8000 3 boot_request). Defined.

Lemma kalloc_dealloc_roundtrip_witness :
  exists m1 m2 st1 st2 frames, kalloc (IH := interior_heap) boot_memory two_pages = Done (0x1000, m1) /\ kdealloc m1 0x1000 two_pages = Done m2 /\
    MEMORY_MAP (kern m1) = Some st1 /\ MEMORY_MAP (kern m2) = Some st2 /\ wf (2 ^ 46) st2 /\
    (forall page, page_view st2 page = page_view empty page) /\
    length frames = num_pages (Z.max (l_size two_pages) (l_align two_pages)) /\ NoDup frames /\
    (forall x, 0x1000 <= x < 0x1000 + Z.max (l_size two_pages) (l_align two_pages) ->
       exists f, frames !! Z.to_nat ((x - 0x1000) / 4096) = Some f /\ translate (Some st1) x = Done (Some (f + x mod 4096))) /\
    Forall (fun f => fs_free (PHYS_ALLOCATOR empty) f /\ ~ fs_free (PHYS_ALLOCATOR st1) f) frames /\
    (forall x, fs_free (PHYS_ALLOCATOR st2) x <-> fs_free (PHYS_ALLOCATOR st1) x \/ x ∈ frames) /\
    HEAP (kern m2) = 3.
Proof. exact (kalloc_dealloc_roundtrip (IH := interior_heap) (2 ^ 46) boot_memory empty two_pages 0x1000 8000 3 boot_request). Defined.

Lemma kdealloc_frees_counted_witness :
  exists st', kdealloc (mkMemory (FixedBlock.new ∅) sharing) 0x5000 (mkLayout 4096 8) =
      Done (mkMemory (FixedBlock.new ∅) (set_map (Some st') sharing)) /\
    fs_free (PHYS_ALLOCATOR st') 0x20000 /\
    forall x, fs_free (PHYS_ALLOCATOR st') x <-> fs_free (PHYS_ALLOCATOR shared) x \/ x ∈ [0x20000].
Proof.
  apply (kdealloc_frees_counted (2 ^ 46) (mkMemory (FixedBlock.new ∅) sharing) shared counted 0x5000 (mkLayout 4096 8)
    [entry 0x20201] (entry 0x20201) 2 2).
  - reflexivity.
  - reflexivity.
  - exact shared_wf.
  - vm_compute. discriminate.
  - reflexivity.
  - unfold span. cbn [l_size l_align]. lia.
  - change (pages_from 0x5000 _) with [0x5000]. constructor; [|constructor]. reflexivity.
  - repeat constructor.
  - apply (NoDup_singleton 0x20000).
  - constructor; [|constructor]. split; [done|]. split; [|exact shared_tree].
    change (~ 0x20000 ∈ [0x8000; 0x9000; 0xa000]). rewrite !elem_of_cons, elem_of_nil. lia.
  - by left.
  - reflexivity.
  - exact counted_fae.
  - lia.
Defined.

(** A device at an odd address whose registers end on the page after the mapped one. *)
Definition device : Z := 0xfec00ff0.

Lemma device_request : mmio_request (2 ^ 46) machine empty device (mkLayout 64 8) 0x1000 64 2.
Proof.
  assert (num_pages (l_size (mkLayout 64 8)) = 1%nat) as Hn by reflexivity. split; rewrite ?Hn.
  - reflexivity.
  - exact empty_wf.
  - reflexivity.
  - vm_compute. reflexivity.
  - reflexivity.
  - unfold span. lia.
  - vm_compute. exact I.
  - apply Forall_forall. intros page _. apply machine_unused.
  - unfold device. lia.
Qed.

Lemma mmio_allocate_bytes_witness :
  exists st', mmio_allocate machine device (mkLayout 64 8) = Done (Ok (0x1ff0, 64), set_map (Some st') (set_heap 2 machine)) /\
    wf (2 ^ 46) st' /\
    (forall b, 0 <= b -> device mod 4096 + b < 4096 -> translate (Some st') (0x1000 + device mod 4096 + b) = Done (Some (device + b))) /\
    (forall b, 4096 <= device mod 4096 + b -> b < 64 ->
       page_view st' (0x1000 + device mod 4096 + b) = page_view empty (0x1000 + device mod 4096 + b)).
Proof. exact (mmio_allocate_bytes (2 ^ 46) machine empty device (mkLayout 64 8) 0x1000 64 2 device_request). Defined.

Definition buffer_alloc : DmaAlloc := mkDma Mem32 4096.

Lemma buffer_request : dma_request (2 ^ 46) machine empty buffer_alloc (mkLayout 8192 4096) 0x1000 8192 0x40000 3 (PHYS_ALLOCATOR empty).
Proof.
  assert (num_pages (l_size (mkLayout 8192 4096)) = 2%nat) as Hn by reflexivity. split; rewrite ?Hn.
  - reflexivity.
  - exact empty_wf.
  - cbn [l_size]. lia.
  - vm_compute. reflexivity.
  - reflexivity.
  - unfold span. lia.
  - exists (mkLayout 8192 4096). split; reflexivity.
  - split; [lia|]. split; [reflexivity|]. vm_compute. discriminate.
  - vm_compute. exact I.
  - apply Forall_forall. intros page _. apply machine_unused.
Qed.

Lemma dma_allocate_contiguous_witness :
  exists st', dma_allocate machine buffer_alloc (mkLayout 5000 8) = Done (Ok (0x1000, 8192), set_map (Some st') (set_heap 3 machine)) /\
    wf (2 ^ 46) st' /\ 8192 <= 8192 /\
    (forall b, 0 <= b < 8192 -> translate (Some st') (0x1000 + b) = Done (Some (0x40000 + b))) /\
    (forall b, 8192 <= b < 8192 -> page_view st' (0x1000 + b) = page_view empty (0x1000 + b)).
Proof.
  exact (dma_allocate_contiguous (2 ^ 46) machine empty buffer_alloc (mkLayout 5000 8) (mkLayout 8192 4096) 0x1000 8192 0x40000 3
    (PHYS_ALLOCATOR empty) eq_refl buffer_request).
Defined.

Lemma kalloc_small_backed_witness :
  exists p s m' L', kalloc (IH := interior_heap) boot_memory (mkLayout 24 8) = Done (p, m') /\ 24 <= s /\ p mod 8 = 0 /\ 0 < p /\
    FixedBlock.ok (small m') L' /\ FixedBlock.sep L' (kern m') /\
    (forall x, in_range x (p, s) -> backed (kern m') x /\ ~ covers (FixedBlock.blocks L') x /\ ~ avail (HEAP (kern m')) x).
Proof.
  apply (kalloc_small_backed boot_memory (replicate 9 []) (mkLayout 24 8)).
  - exact FixedBlockWitness.new_ok.
  - split; [split; [reflexivity|]|].
    + exists (2 ^ 46), empty. split; [reflexivity|]. split; [exact empty_wf|]. intros x [_ Hx].
      split; [unfold canonical; cbn in Hx; lia|apply machine_unused].
    + intros x Hx. by apply covers_nil in Hx.
  - split; [split; [exact I|]; exists empty; split; [reflexivity|vm_compute; exact I]|].
    destruct (interior_run machine (0x1000, 4096) 2 empty (2 ^ 46)) as (st' & e & Heq & _); [reflexivity|exact empty_wf|vm_compute; exact I|reflexivity|
      unfold canonical; cbn; lia|reflexivity|apply machine_unused|]. eexists _, _. exact Heq.
  - split; [cbn; lia|]. exists 3. split; [lia|reflexivity].
  - reflexivity.
  - reflexivity.
Defined.

End AllocIfWitness.
