(* ===== verification/Cow.v ===== *)
(** * Copy on fault

    [FrameAttributeTable::fixup] and [copy_frame] of [kernel/src/mem/frame_attribute_table.rs]: what the page fault
    handler does for a page whose frame is shared.  The copy goes through two windows of device memory,
    [MmioAlloc] of [AllocIf], which take address space from the heap and frames for page tables and are
    given back when the two vectors are dropped.  A fault that the copy itself causes, which the
    source warns about, is a page the windows do not translate: it is a panic here. *)
From stdpp Require Import prelude gmap.
From S2P Require Import Prelude Ranges FixedBlock HighOrder FrameAlloc PageTable TlbEntry MemMap VirtFixup FrameAttr AllocIf.
Open Scope Z_scope.

Section Cow.
Context {F : Type} `{FS : FrameSource F} `{PF : PhysFrameOps} `{PO : PteOps} `{PA : PhysAddrOps}
        `{VA : VirtAddrOps} `{AS : AddrStepOps} `{MD : MapperDefaults} {H : Type} `{HA : HeapAlloc H} `{HF : HeapFree H}.
Abbreviation Kernel := (Kernel (F := F) (H := H)).

(** [copy_from_slice] on slices of [n] pages: each page is read and written where the tables say. *)
Fixpoint copy_pages (n : nat) (src dst : Z) (k : Kernel) : outcome Kernel :=
  match n with
  | O => Done k
  | S n =>
      s ← translate (MEMORY_MAP k) src; from ← unwrap s;
      d ← translate (MEMORY_MAP k) dst; to ← unwrap d;
      copy_pages n (src + PAGE_SIZE) (dst + PAGE_SIZE) (set_contents (partial_alter (fun _ => contents k !! from) to (contents k)) k)
  end.

(** [copy_frame] for a page of size [len].  [reserve] on an empty vector of bytes asks for [len] bytes and panics
    when the allocation fails; at the end [dst] is dropped, then [b]. *)
Definition copy_frame (k : Kernel) (origin dst : Z) (len : PageSize) : outcome Kernel :=
  let layout := mkLayout (SIZE len) 1 in
  r ← mmio_allocate k origin layout;
  b ← unwrap (result_ok r.1);
  r ← mmio_allocate r.2 dst layout;
  d ← unwrap (result_ok r.1);
  k ← copy_pages (num_pages (SIZE len)) b.1 d.1 r.2;
  k ← mmio_deallocate k d.1 layout;
  mmio_deallocate k b.1 layout.

(** [FrameAttributeTable::fixup]: copy on fault.  Every page size is mapped as a 4 KiB page. *)
Definition fat_fixup (k : Kernel) (addr : Z) : outcome (result unit unit * Kernel) :=
  r ← fat_get_entry (MEMORY_MAP k) addr;
  match r with
  | None => Done (Err tt, k)
  | Some (entry, size) =>
      if contains (pte_flags entry) FRAME_ATTR_ENTRY_FLAG then
        t ← unwrap (ATTRIBUTE_TABLE_HEAD k);
        index ← select t (pte_addr entry);
        match table t !! index with
        | None => Done (Err tt, k)
        | Some fae =>
            let flags := fae_flags (get_cell t fae) in
            if contains flags COPY_ON_FAULT then
              st ← unwrap (MEMORY_MAP k);
              a ← fs_allocate_in (get_mem_region flags) size (PHYS_ALLOCATOR st);
              frame ← unwrap a.1;
              k ← copy_frame (set_map (Some (mkPt (offset_base st) (l4_table st) (mem st) a.2)) k) (pte_addr entry) frame size;
              let pt_flags := Z.ldiff (Z.lor (pte_flags entry) WRITABLE) FRAME_ATTR_ENTRY_FLAG in
              u ← unmap_and_free k addr;
              let k := u.2 in
              m ← map_frame_to_page (MEMORY_MAP k) Size4KiB addr (containing_address Size4KiB frame) pt_flags;
              _ ← unwrap (result_ok m.1);
              Done (Ok tt, set_map m.2 k)
            else Done (Err tt, k)
        end
      else Done (Err tt, k)
  end.

End Cow.

Section Laws.
Context {F : Type} `{FS : FrameSource F} {FL : FrameSourceLaws F} {FRL : FrameReturnLaws F}
        `{PF : PhysFrameOps} {PFL : PhysFrameLaws} `{PO : PteOps} {PTL : PteLaws} `{PA : PhysAddrOps} {PL : PhysAddrLaws}
        `{VA : VirtAddrOps} {VL : VirtAddrLaws} `{AS : AddrStepOps} {ASL : AddrStepLaws}
        `{MD : MapperDefaults} {MDL : MapperDefaultsLaws} {H : Type} `{HA : HeapAlloc H} `{HF : HeapFree H}.
Abbreviation Kernel := (Kernel (F := F) (H := H)).
Implicit Types st : OffsetPageTable (F := F).
Implicit Types k : Kernel.

(** ** The windows *)

Definition window : Layout := mkLayout 4096 1.

Lemma window_range a : a mod 4096 = 0 -> span a 8193 -> get_page_range window a = Done [a].
Proof using VL ASL.
  intros Ha Hsp. rewrite get_page_range_ok by (done || (cbn; unfold span in *; lia)).
  change (num_pages (l_size window)) with 1%nat. unfold pages_of. cbn. by rewrite Z.add_0_r.
Qed.

(** A window of one page on the frame [f]. *)
Lemma window_opened limit n k st f a len h :
  MEMORY_MAP k = Some st -> wf limit st -> virt_allocate window (HEAP k) = Done (Ok (a, len), h) ->
  a mod 4096 = 0 -> span a 8193 -> page_view st a = VEntry pte_new -> fs_room (PHYS_ALLOCATOR st) (3 + n) ->
  0 <= f < 2 ^ 52 -> f mod 4096 = 0 ->
  exists st' e, mmio_allocate k f window = Done (Ok (a, 4096), set_map (Some st') (set_heap h k)) /\ wf limit st' /\
    page_view st' a = VEntry e /\ pte_addr e = f /\ pte_flags e = mmio_flags /\ fs_room (PHYS_ALLOCATOR st') n /\ fs_sub st' st /\
    offset_base st' = offset_base st /\ grown st st' /\
    (forall q, key_ok q -> q <> page_key a -> key_view st' q = key_view st q).
Proof using FL PFL PTL PL VL ASL MDL.
  intros Hm Hwf Hva Ha Hsp Hv Hroom Hf Hal. unfold mmio_allocate. rewrite Hva. cbn [mbind outcome_bind fst snd].
  rewrite window_range, phys_new_valid by (done || lia). cbn [mbind outcome_bind map_frames MEMORY_MAP set_heap].
  rewrite containing_aligned, frame_add_valid, Hm by (done || lia). rewrite Z.mul_0_r, Z.add_0_r. cbn [mbind outcome_bind].
  unfold map_frame_to_page. cbn [unwrap mbind outcome_bind map_to]. rewrite containing_aligned by done.
  pose proof (map_to_tree limit n st a f mmio_flags (parent_flags mmio_flags) Hwf Hroom Hf Hal mmio_flags_valid eq_refl
    (parent_flags_valid _ mmio_flags_valid) (parent_flags_table _)) as Hmap.
  rewrite Hv, (proj2 (unused_new pte_new) eq_refl) in Hmap.
  destruct Hmap as (e & st' & -> & Hr & Hs & Hwf' & Hea & Hef & _ & Hupd & Hb & Hg). cbn [mbind outcome_bind unwrap result_ok fst snd map_frames].
  exists st', e. split.
  { unfold offset_addr. change (PAGE_SIZE - 1) with (2 ^ 12 - 1). rewrite land_mask by lia. change (2 ^ 12) with 4096.
    rewrite Hal, wadd_small, Z.add_0_r by (unfold span in *; lia). done. }
  split; [done|]. split; [exact (updated_page _ _ _ _ Hupd)|]. do 6 (split; [done|]).
  intros q Hq Hne. by rewrite (view_updated_key _ _ _ _ _ Hupd Hq), decide_False.
Qed.

(** The window is closed when its vector is dropped. *)
Lemma window_closed limit k st a e h :
  MEMORY_MAP k = Some st -> wf limit st -> a mod 4096 = 0 -> 0 < a -> span a 8193 ->
  page_view st a = VEntry e -> contains (pte_flags e) PRESENT = true -> virt_deallocate a window (HEAP k) = Done h ->
  exists st', mmio_deallocate k a window = Done (set_heap h (set_map (Some st') k)) /\ wf limit st' /\
    PHYS_ALLOCATOR st' = PHYS_ALLOCATOR st /\ offset_base st' = offset_base st /\ (forall p, path_ok p -> walk st' p = walk st p) /\
    (forall q, key_ok q -> key_view st' q = if decide (q = page_key a) then VEntry pte_new else key_view st q).
Proof using PTL VL ASL.
  intros Hm Hwf Ha Hpos Hsp Hv Hpr Hvd. unfold mmio_deallocate. rewrite window_range by done. cbn [mbind outcome_bind].
  assert (pages_from a 1 = [a]) as Hpg by (unfold pages_of; cbn; by rewrite Z.add_0_r).
  assert (Forall (has_table st) [a]) as Ht.
  { constructor; [|constructor]. unfold has_table. unfold page_view, view in Hv. destruct (walk st (path L1 a)) as [t| |]; [by exists t| |done].
    injection Hv as <-. apply present_used in Hpr. by rewrite (proj2 (unused_new pte_new) eq_refl) in Hpr. }
  destruct (unmap_range_run limit st a 1 Hwf) as (st1 & Heq & Hwf1 & Hp1 & Hb1 & Hw1 & Hv1); [split; [done|]; split; [lia|done]|by rewrite Hpg|].
  rewrite Hpg in Heq, Hv1. rewrite Hm, Heq. cbn [mbind outcome_bind fst snd]. unfold clear. cbn [iter_range].
  destruct (clear_loop_ok limit Size4KiB [a] [a] st1 eq_refl Hwf1 (has_table_walks _ _ _ Hw1 Ht)) as (st2 & -> & Hwf2 & Hp2 & Hb2 & Hw2 & Hv2).
  cbn [mbind outcome_bind]. change (PAGE_SIZE - 1) with (2 ^ 12 - 1). rewrite land_wnot_mask by (unfold is_u64, span in *; lia).
  change (2 ^ 12) with 4096. rewrite Ha, Z.sub_0_r.
  rewrite (proj2 (Z.eqb_neq a 0)) by lia. cbn [negb assert_that mbind outcome_bind HEAP set_map]. rewrite Hvd. cbn [mbind outcome_bind].
  exists st2. split; [done|]. split; [done|]. split; [congruence|]. split; [congruence|]. split; [intros p Hp; by rewrite Hw2, Hw1|].
  intros q Hq. rewrite Hv2 by done. specialize (Hv1 q Hq). cbn [fmap list_fmap] in *.
  destruct (decide (q = page_key a)) as [->|Hne]; [by rewrite decide_True by by left|].
  rewrite decide_False in Hv1 by by rewrite list_elem_of_singleton. by rewrite decide_False by by rewrite list_elem_of_singleton.
Qed.

(** The heap has address space for the two windows, [a1] and [a2], takes both back and is then [h]; there are frames
    for the tables of the windows. *)
Record windows k st (a1 a2 : Z) (h : H) : Prop := {
  w_heap : exists len1 h1 len2 h2 h3,
    virt_allocate window (HEAP k) = Done (Ok (a1, len1), h1) /\ virt_allocate window h1 = Done (Ok (a2, len2), h2) /\
    virt_deallocate a2 window h2 = Done h3 /\ virt_deallocate a1 window h3 = Done h;
  w_aligned : a1 mod 4096 = 0 /\ a2 mod 4096 = 0;
  w_span : 0 < a1 /\ span a1 8193 /\ 0 < a2 /\ span a2 8193;
  w_distinct : page_key a1 <> page_key a2;
  w_unused : page_view st a1 = VEntry pte_new /\ page_view st a2 = VEntry pte_new;
  w_room : fs_room (PHYS_ALLOCATOR st) 6;
}.

(** A page of a window, seen through the tables. *)
Lemma window_page limit st a e :
  wf limit st -> a mod 4096 = 0 -> span a 8193 -> page_view st a = VEntry e -> pte_flags e = mmio_flags ->
  translate (Some st) a = Done (Some (pte_addr e)).
Proof using PTL VL.
  intros Hwf Ha Hsp Hv Hf. rewrite (translate_entry limit st a e); [|done|unfold canonical, span in *; lia|done|right; by rewrite Hf].
  rewrite present_used by by rewrite Hf. change 0x1000 with 4096. by rewrite Ha, Z.add_0_r.
Qed.

(** [copy_frame] copies one frame and leaves the address space as it was; tables it had to make stay. *)
Lemma frame_copied limit k st origin frame a1 a2 h :
  MEMORY_MAP k = Some st -> wf limit st -> windows k st a1 a2 h ->
  0 <= origin < 2 ^ 52 -> origin mod 4096 = 0 -> 0 <= frame < 2 ^ 52 -> frame mod 4096 = 0 ->
  exists k' st', copy_frame k origin frame Size4KiB = Done k' /\ MEMORY_MAP k' = Some st' /\
    ATTRIBUTE_TABLE_HEAD k' = ATTRIBUTE_TABLE_HEAD k /\ HEAP k' = h /\
    contents k' = partial_alter (fun _ => contents k !! origin) frame (contents k) /\
    wf limit st' /\ fs_sub st' st /\ offset_base st' = offset_base st /\ grown st st' /\
    (forall q, key_ok q -> key_view st' q = key_view st q).
Proof using FL PFL PTL PL VL ASL MDL.
  intros Hm Hwf [(len1 & h1 & len2 & h2 & h3 & Hh1 & Hh2 & Hh3 & Hh4) [A1 A2] (P1 & S1 & P2 & S2) Hne [U1 U2] Hroom] Ho Hoa Hf Hfa.
  unfold copy_frame. cbn [SIZE]. fold window.
  destruct (window_opened limit 3 k st origin a1 len1 h1) as (st1 & e1 & -> & Hwf1 & V1 & E1 & F1 & R1 & B1 & O1 & G1 & K1); [done..|].
  cbn [mbind outcome_bind unwrap result_ok fst snd]. set (k1 := set_map (Some st1) (set_heap h1 k)).
  assert (page_view st1 a2 = VEntry pte_new) as U2' by (rewrite <- page_key_view, K1; [done|apply page_key_ok|done]).
  destruct (window_opened limit 0 k1 st1 frame a2 len2 h2) as (st2 & e2 & -> & Hwf2 & V2 & E2 & F2 & _ & B2 & O2 & G2 & K2); [done..|].
  cbn [mbind outcome_bind unwrap result_ok fst snd]. change (num_pages 4096) with 1%nat. cbn [copy_pages MEMORY_MAP set_map].
  assert (page_view st2 a1 = VEntry e1) as V1' by (rewrite <- page_key_view, K2; [done|apply page_key_ok|done]).
  rewrite (window_page limit st2 a1 e1), (window_page limit st2 a2 e2) by done. cbn [mbind outcome_bind unwrap]. rewrite E1, E2.
  set (k2 := set_contents _ _).
  destruct (window_closed limit k2 st2 a2 e2 h3) as (st3 & -> & Hwf3 & B3 & O3 & W3 & K3); [done..|by rewrite F2|done|].
  cbn [mbind outcome_bind]. set (k3 := set_heap h3 _).
  assert (page_view st3 a1 = VEntry e1) as V1'' by (rewrite <- page_key_view, K3, decide_False; [done|done|apply page_key_ok]).
  destruct (window_closed limit k3 st3 a1 e1 h) as (st4 & -> & Hwf4 & B4 & O4 & W4 & K4); [done..|by rewrite F1|done|].
  eexists _, st4. split; [done|]. do 4 (split; [done|]). split; [done|]. split; [|split; [congruence|split]].
  - unfold fs_sub. rewrite B4, B3. intros x Hx. by apply B1, B2.
  - intros p t Hp. rewrite W4, W3 by done. by apply (grown_trans st st1 st2).
  - intros q Hq. rewrite K4, K3 by done. destruct (decide (q = page_key a1)) as [->|Hq1]; [by rewrite page_key_view|].
    destruct (decide (q = page_key a2)) as [->|Hq2]; [by rewrite page_key_view|]. by rewrite K2, K1.
Qed.

(** ** The fault *)

(** The flags of the private copy. *)
Lemma copy_flags f : let g := Z.ldiff (Z.lor f WRITABLE) FRAME_ATTR_ENTRY_FLAG in
  contains f PRESENT = true -> contains g PRESENT = true /\ contains g WRITABLE = true /\ contains g FRAME_ATTR_ENTRY_FLAG = false.
Proof.
  intros g. change PRESENT with (2 ^ 0). change FRAME_ATTR_ENTRY_FLAG with (2 ^ 9).
  assert (contains g WRITABLE = Z.testbit g 1) as -> by (change WRITABLE with (2 ^ 1); by apply contains_bit).
  rewrite !contains_bit by lia. unfold g. rewrite !Z.ldiff_spec, !Z.lor_spec. intros ->.
  split; [done|]. split; [by rewrite orb_true_r|]. by rewrite andb_false_r.
Qed.

(** The steps of [fixup] put together. *)
Lemma fat_fixup_run limit k st t addr e n flags frame f1 k1 st2 t2 st3 :
  let g := Z.ldiff (Z.lor (pte_flags e) WRITABLE) FRAME_ATTR_ENTRY_FLAG in
  MEMORY_MAP k = Some st -> ATTRIBUTE_TABLE_HEAD k = Some t -> wf limit st -> canonical addr ->
  page_view st addr = VEntry e -> is_unused e = false -> contains (pte_flags e) FRAME_ATTR_ENTRY_FLAG = true ->
  has_fae t (pte_addr e) n flags -> contains flags COPY_ON_FAULT = true ->
  fs_allocate_in (get_mem_region flags) Size4KiB (PHYS_ALLOCATOR st) = Done (Some frame, f1) ->
  copy_frame (set_map (Some (with_frames st f1)) k) (pte_addr e) frame Size4KiB = Done k1 ->
  unmap_and_free k1 addr = Done (Ok tt, set_fat (Some t2) (set_map (Some st2) k1)) ->
  containing_address Size4KiB frame = frame ->
  map_to_4k st2 (containing_address Size4KiB addr) frame g (parent_flags g) = Done (Ok tt, st3) ->
  fat_fixup k addr = Done (Ok tt, set_map (Some st3) (set_fat (Some t2) (set_map (Some st2) k1))).
Proof using PTL VL.
  intros g Hm Ht Hwf Hcan Hv Hu Hfa (Hlt & c & Hs & Hc) Hcow Halloc Hcopy Hun Hcf Hmap.
  unfold fat_fixup, fat_get_entry. rewrite Hm, virt_new_valid by done. cbn [mbind outcome_bind].
  rewrite (get_entry_used limit st _ e Hwf) by (done || by rewrite page_view_containing). cbn [mbind outcome_bind].
  rewrite Hfa, Ht. cbn [unwrap mbind outcome_bind]. unfold select. rewrite (proj2 (Z.ltb_lt _ _) Hlt).
  cbn [mbind outcome_bind]. rewrite Hs. unfold get_cell. rewrite Hc. cbn [default id fae_flags].
  rewrite Hcow. cbn [unwrap mbind outcome_bind]. rewrite Halloc. cbn [unwrap mbind outcome_bind fst snd].
  fold (with_frames st f1). rewrite Hcopy. cbn [mbind outcome_bind]. rewrite Hun. cbn [mbind outcome_bind fst snd MEMORY_MAP set_fat set_map]. fold g.
  unfold map_frame_to_page. cbn [unwrap mbind outcome_bind map_to]. rewrite Hcf, Hmap. done.
Qed.

(** Taking a frame leaves the tables well formed. *)
Lemma frame_taken limit st r frame f1 :
  wf limit st -> fs_allocate_in r Size4KiB (PHYS_ALLOCATOR st) = Done (Some frame, f1) ->
  wf limit (with_frames st f1) /\ 0 <= frame < 2 ^ 52 /\ frame mod PAGE_SIZE = 0 /\
  fs_free (PHYS_ALLOCATOR st) frame /\ ~ fs_free f1 frame /\ (forall x, fs_free f1 x -> fs_free (PHYS_ALLOCATOR st) x).
Proof using FL.
  intros Hwf Halloc. destruct (wf_source _ _ Hwf) as [Hinv Hsrc].
  destruct (fs_allocate_in_ok _ _ _ _ Hinv Halloc) as (Hinv1 & Hfr & Hal & Hff & Hnff & Hsub).
  split; [|done]. destruct Hwf as [W1 W2 W3 W4 W5]. split; [exact W1|exact W2|exact W3| |].
  - intros p x Hp Hx. apply W4; [done|by apply Hsub].
  - split; [done|]. intros x Hx. by apply Hsrc, Hsub.
Qed.

(** A mapped page gets a frame of its own; its tables are there. *)
Lemma remapped limit st addr frame g :
  wf limit st -> has_table st addr -> page_view st addr = VEntry pte_new -> 0 <= frame < 2 ^ 52 -> frame mod PAGE_SIZE = 0 ->
  valid_flags g -> contains g PRESENT = true ->
  exists e st', map_to_4k st (containing_address Size4KiB addr) frame g (parent_flags g) = Done (Ok tt, st') /\ wf limit st' /\
    pte_addr e = frame /\ pte_flags e = g /\ PHYS_ALLOCATOR st' = PHYS_ALLOCATOR st /\
    (forall q, key_ok q -> key_view st' q = if decide (q = page_key addr) then VEntry e else key_view st q).
Proof using PTL VL.
  intros Hwf [tb Htb] Hv Hf Hal Hg Hpr.
  assert (page_key (containing_address Size4KiB addr) = page_key addr) as Hkey
    by (unfold page_key; by rewrite path_containing, get_index_page).
  destruct (map_to_table limit st (containing_address Size4KiB addr) frame g (parent_flags g) tb) as (e & st' & Hmap & Hwf' & Hea & Hef & Hph & Hupd);
    [done|by rewrite path_containing|by rewrite page_view_containing|done..|].
  exists e, st'. do 5 (split; [done|]). intros q Hq. rewrite (view_updated_key _ _ _ _ _ Hupd Hq). by rewrite Hkey.
Qed.

(** C40. Copy on fault gives the faulting page a private frame.  A fault on a present 4 KiB page whose frame is counted,
    with [COPY_ON_FAULT] set and [NO_DROP] clear, succeeds: the page maps the newly allocated frame, writable and no
    longer counted, that frame holds what the shared frame held and no other frame in use changes, the
    count drops by one, every other page keeps its mapping, and the heap has both windows of the copy
    back.  The conditions are that the allocator has the frame and six more for page tables, and that
    the heap hands out two distinct unused pages for the windows (a failure of either is a panic; a
    copy that faults again is excluded, since the heap and the tables are not shared here).  When the page was one of
    exactly two users, the shared frame goes back to the allocator although the second user still maps it. *)
Theorem cow_fault_copies limit k st t addr e n flags frame f1 a1 a2 h :
  MEMORY_MAP k = Some st -> ATTRIBUTE_TABLE_HEAD k = Some t -> wf limit st -> canonical addr ->
  page_view st addr = VEntry e -> contains (pte_flags e) PRESENT = true -> contains (pte_flags e) FRAME_ATTR_ENTRY_FLAG = true ->
  valid_flags (pte_flags e) ->
  has_fae t (pte_addr e) n flags -> 2 <= n < 2 ^ 64 -> contains flags NO_DROP = false -> contains flags COPY_ON_FAULT = true ->
  pte_addr e < limit -> ~ fs_free (PHYS_ALLOCATOR st) (pte_addr e) ->
  (forall p, path_ok p -> walk st p <> WTable (offset_base st + pte_addr e)) ->
  fs_allocate_in (get_mem_region flags) Size4KiB (PHYS_ALLOCATOR st) = Done (Some frame, f1) ->
  windows k (with_frames st f1) a1 a2 h ->
  exists k' st' t' e', fat_fixup k addr = Done (Ok tt, k') /\ MEMORY_MAP k' = Some st' /\ ATTRIBUTE_TABLE_HEAD k' = Some t' /\
    wf limit st' /\ page_view st' addr = VEntry e' /\ pte_addr e' = frame /\
    contains (pte_flags e') WRITABLE = true /\ contains (pte_flags e') FRAME_ATTR_ENTRY_FLAG = false /\
    contents k' !! frame = contents k !! pte_addr e /\ (forall x, x <> frame -> contents k' !! x = contents k !! x) /\
    has_fae t' (pte_addr e) (n - 1) flags /\ HEAP k' = h /\
    (forall q, key_ok q -> q <> page_key addr -> key_view st' q = key_view st q) /\
    (fs_free (PHYS_ALLOCATOR st') (pte_addr e) <-> n = 2).
Proof using FL FRL PFL PTL PL VL ASL MDL.
  intros Hm Ht Hwf Hcan Hv Hpr Hfa Hvf Hfae Hn Hnd Hcow Hlim Hnf Htree Halloc Hwin. pose proof (present_used e Hpr) as Hu.
  destruct (frame_taken limit st _ frame f1 Hwf Halloc) as (Hwf0 & Hfr & Hal & Hff & Hnff & Hsub).
  destruct (addr_range e) as [Hea Hea']. assert (~ fs_free f1 (pte_addr e)) as Hnf0 by (intros Hx; by apply Hnf, Hsub).
  destruct (frame_copied limit (set_map (Some (with_frames st f1)) k) (with_frames st f1) (pte_addr e) frame a1 a2 h)
    as (k1 & st1 & Hcopy & Hm1 & Ht1 & Hh1 & Hc1 & Hwf1 & Hs1 & Hb1 & Hg1 & Hk1); [done| done|by destruct Hwin|done..|].
  assert (page_view st1 addr = VEntry e) as Hv1 by (rewrite <- page_key_view, Hk1; [done|apply page_key_ok]).
  assert (~ fs_free (PHYS_ALLOCATOR st1) (pte_addr e)) as Hnf1 by (intros Hx%Hs1; done).
  destruct (unmap_counted limit k1 st1 t addr e n flags) as (st2 & t2 & Hun & Hwf2 & Hfae2 & Hfree2 & Hw2 & Hview2); try done.
  { by rewrite Ht1. }
  { rewrite Hb1. by apply (grown_not_table limit (with_frames st f1)). }
  destruct (copy_flags (pte_flags e) Hpr) as (Hp & Hw & Hc). set (g := Z.ldiff (Z.lor (pte_flags e) WRITABLE) FRAME_ATTR_ENTRY_FLAG) in *.
  assert (valid_flags g) as Hvg by (apply valid_flags_sub, valid_flags_lor; [done|apply valid_flags_known]).
  assert (has_table st2 addr) as Htb.
  { unfold has_table. rewrite Hw2 by apply path_path_ok. unfold page_view, view in Hv1. destruct (walk st1 (path L1 addr)) as [tb| |]; [by exists tb| |done].
    injection Hv1 as <-. by rewrite (proj2 (unused_new pte_new) eq_refl) in Hu. }
  destruct (remapped limit st2 addr frame g) as (e3 & st3 & Hmap & Hwf3 & He3 & Hf3 & Hph3 & Hview3); try done.
  { rewrite <- page_key_view, Hview2, decide_True; [done..|apply page_key_ok]. }
  eexists _, st3, t2, e3. split; [eapply (fat_fixup_run limit k st t addr e n flags frame f1); try done|].
  { apply containing_aligned. exact Hal. }
  split; [done|]. split; [done|]. split; [done|]. split; [rewrite <- page_key_view, Hview3, decide_True; [done..|apply page_key_ok]|].
  split; [done|]. rewrite Hf3. split; [done|]. split; [done|]. cbn [contents set_map set_fat HEAP]. rewrite Hc1.
  split; [by rewrite lookup_partial_alter_eq|]. split; [intros x Hx; by rewrite lookup_partial_alter_ne|]. split; [done|]. split; [done|]. split.
  - intros q Hq Hne. by rewrite Hview3, Hview2, !decide_False, Hk1.
  - rewrite Hph3, Hfree2. split; [|intros ->; by right]. by intros [Hx|[-> _]].
Qed.

End Laws.

(** ** A concrete fault *)
Module CowWitness.
Import FrameWitness PageTableWitness MemMapWitness FrameAttrWitness AllocIfWitness.

(** The heap of [low_heap] takes back the block it handed out last. *)
#[export] Instance low_heap_free : HeapFree Z := {
  virt_deallocate a l h := if a =? (h - Z.of_nat (num_pages (l_size l))) * 4096 then Done (h - Z.of_nat (num_pages (l_size l))) else Panic;
}.

(** The tables of [shared] with more frames; the heap starts at page [0x600], which has no table yet. *)
Definition roomy : OffsetPageTable (F := list Z) :=
  with_frames shared [0x8000; 0x9000; 0xa000; 0xb000; 0xc000; 0xd000; 0xe000].

Definition faulting : Kernel (F := list Z) (H := Z) := mkKernel (Some roomy) (Some counted) [] 0x600 {[ 0x20000 := 77 ]}.

Lemma roomy_wf : wf (2 ^ 46) roomy.
Proof.
  destruct shared_wf as [W1 W2 W3 _ _]. split; [exact W1|exact W2|exact W3| |].
  - intros p a Hp Hf Hw. change (walk roomy p) with (walk shared p) in Hw. apply shared_walk in Hw; [|done].
    change (offset_base roomy) with BASE in Hw. rewrite !elem_of_cons in Hw. cbn in Hf. rewrite !elem_of_cons, elem_of_nil in Hf.
    destruct Hw as [[= _ E]|[[= _ E]|[[= _ E]|[[= _ E]|[]%elem_of_nil]]]]; lia.
  - split; [split; [|by repeat constructor]; apply (bool_decide_unpack (NoDup (PHYS_ALLOCATOR roomy))); vm_compute; exact I|].
    intros a. cbn. rewrite !elem_of_cons, elem_of_nil. lia.
Qed.

Lemma faulting_windows : windows faulting (with_frames roomy [0x9000; 0xa000; 0xb000; 0xc000; 0xd000; 0xe000]) 0x600000 0x601000 0x600.
Proof.
  split; [|done|unfold span; lia|done|done|done].
  exists 4096, 0x601, 4096, 0x602, 0x601. done.
Qed.

Lemma cow_fault_copies_witness :
  exists k' st' t' e', fat_fixup faulting 0x5000 = Done (Ok tt, k') /\ MEMORY_MAP k' = Some st' /\ ATTRIBUTE_TABLE_HEAD k' = Some t' /\
    wf (2 ^ 46) st' /\ page_view st' 0x5000 = VEntry e' /\ pte_addr e' = 0x8000 /\
    contains (pte_flags e') WRITABLE = true /\ contains (pte_flags e') FRAME_ATTR_ENTRY_FLAG = false /\
    contents k' !! 0x8000 = contents faulting !! 0x20000 /\ (forall x, x <> 0x8000 -> contents k' !! x = contents faulting !! x) /\
    has_fae t' 0x20000 (2 - 1) 2 /\ HEAP k' = 0x600 /\
    (forall q, key_ok q -> q <> page_key 0x5000 -> key_view st' q = key_view roomy q) /\
    (fs_free (PHYS_ALLOCATOR st') 0x20000 <-> 2 = 2).
Proof.
  apply (cow_fault_copies (2 ^ 46) faulting roomy counted 0x5000 (entry 0x20201) 2 2 0x8000 [0x9000; 0xa000; 0xb000; 0xc000; 0xd000; 0xe000]
    0x600000 0x601000 0x600); try done.
  - exact roomy_wf.
  - unfold canonical. lia.
  - exact counted_fae.
  - change (~ 0x20000 ∈ [0x8000; 0x9000; 0xa000; 0xb000; 0xc000; 0xd000; 0xe000]). rewrite !elem_of_cons, elem_of_nil. lia.
  - exact shared_tree.
  - exact faulting_windows.
Defined.

End CowWitness.
