(* ===== verification/SingleArc.v ===== *)
(** * File locks

    [SingleArc] and [Weak] of [kernel/src/util/single_arc.rs] over an explicit heap of their
    shared cells, and the lock of a file built on them ([file_lock] and [unlock_unsafe] of
    [fs/tmpfs.rs], [LockedFile] of [fs/file.rs]).  File objects are named by their addresses. *)
From stdpp Require Import prelude gmap.
From S2P Require Import Prelude.

Module SingleArc.

(** [SingleArcInner]: the boxed data is named by its address. *)
Record Cell := mkCell { weak_count : Z; data : option nat }.

(** The live cells.  A cell that was given to [Box::from_raw] is not in the map any more, and an
    access to it (undefined behaviour in the source) is [Panic]. *)
Record Heap := mkHeap { cells : gmap nat Cell; next : nat }.

(** [Weak]: the pointer it is bound to. *)
Definition Weak := option nat.

Definition cell (h : Heap) (p : nat) : outcome Cell := unwrap (cells h !! p).
Definition put (h : Heap) (p : nat) (c : Cell) : Heap := mkHeap (<[p := c]> (cells h)) (next h).
Definition dealloc (h : Heap) (p : nat) : Heap := mkHeap (delete p (cells h)) (next h).

(** [SingleArc::new]. *)
Definition new (obj : nat) (h : Heap) : nat * Heap :=
  (next h, mkHeap (<[next h := mkCell 0 (Some obj)]> (cells h)) (S (next h))).

(** [SingleArc::downgrade]. *)
Definition downgrade (p : nat) (h : Heap) : outcome (Weak * Heap) :=
  c ← cell h p; Done (Some p, put h p (mkCell (wadd (weak_count c) 1) (data c))).

(** [Drop for SingleArc]. *)
Definition arc_drop (p : nat) (h : Heap) : outcome Heap :=
  c ← cell h p;
  Done (if (weak_count c =? 0)%Z then dealloc h p else put h p (mkCell (weak_count c) None)).

(** [SingleArc::take], which consumes [self] and so drops it. *)
Definition take (p : nat) (h : Heap) : outcome (nat * Heap) :=
  c ← cell h p;
  obj ← unwrap (data c);
  h' ← arc_drop p (put h p (mkCell (weak_count c) None));
  Done (obj, h').

(** [Drop for Weak]. *)
Definition weak_drop (w : Weak) (h : Heap) : outcome Heap :=
  match w with
  | None => Done h
  | Some p =>
      c ← cell h p;
      let h' := put h p (mkCell (wsub (weak_count c) 1) (data c)) in
      Done (if ((weak_count c =? 1)%Z && bool_decide (data c = None))%bool then dealloc h' p else h')
  end.

(** [Weak::get]. *)
Definition weak_get (w : Weak) (h : Heap) : outcome (option nat) :=
  match w with None => Done None | Some p => c ← cell h p; Done (data c) end.

(** [Weak::clear]: the pointer is taken out of the cell, the count is not touched. *)
Definition weak_clear (w : Weak) : Weak := None.

(** The assignment [*self.inner.lock() = *strong.downgrade().inner.lock()]: the pointer of a
    temporary [Weak] is copied and the temporary is dropped at the end of the statement. *)
Definition bind_to (strong : nat) (h : Heap) : outcome (Weak * Heap) :=
  r ← downgrade strong h;
  let '(tmp, h1) := r in
  h2 ← weak_drop tmp h1;
  Done (tmp, h2).

(** [Weak::set]. *)
Definition weak_set (w : Weak) (strong : nat) (h : Heap) : outcome (result unit unit * Weak * Heap) :=
  match w with
  | None => r ← bind_to strong h; Done (Ok tt, r.1, r.2)
  | Some p =>
      c ← cell h p;
      match data c with
      | None => r ← bind_to strong h; Done (Ok tt, r.1, r.2)
      | Some _ => Done (Err tt, w, h)
      end
  end.

(** [Weak::cmp_t]. *)
Definition cmp_t (w : Weak) (other : nat) (h : Heap) : outcome bool :=
  r ← weak_get w h;
  Done (match r with Some inner => Nat.eqb inner other | None => true end).

End SingleArc.

Module FileLock.
Import SingleArc.

(** [TmpFsNormalFile::file_lock]: on success the [SingleArc] of the [LockedFile], on failure the
    object is handed back. *)
Definition file_lock (obj : nat) (w : Weak) (h : Heap) : outcome (result nat nat * Weak * Heap) :=
  let '(s, h1) := new obj h in
  r ← weak_set w s h1;
  let '(res, w', h2) := r in
  match (res : result unit unit) with
  | Ok _ => Done (Ok s, w', h2)
  | Err _ => t ← take s h2; Done (Err t.1, w', t.2)
  end.

(** [TmpFsNormalFile::unlock_unsafe]. *)
Definition unlock_unsafe (w : Weak) : Weak := weak_clear w.

(** [LockedFile::unlock] gives the object back, [Drop for LockedFile] drops it. *)
Definition unlock (s : nat) (w : Weak) (h : Heap) : outcome (nat * Weak * Heap) :=
  let w' := unlock_unsafe w in r ← take s h; Done (r.1, w', r.2).

Definition locked_drop (s : nat) (w : Weak) (h : Heap) : outcome (Weak * Heap) :=
  let w' := unlock_unsafe w in h' ← arc_drop s h; Done (w', h').

(** ** The protocol

    A client locks the file through an object, unlocks or drops the [LockedFile] it got, and
    accesses the file through any object. *)
Inductive op := Lock (obj : nat) | Unlock | DropLocked | Access (obj : nat).

Inductive answer := Locked (b : bool) | Returned (obj : nat) | Dropped | Granted (b : bool) | NoLock.

Record state := mkState { weak : Weak; heap : Heap; held : option nat }.
Definition start (h : Heap) : state := mkState None h None.

Definition do_op (o : op) (s : state) : outcome (answer * state) :=
  match o with
  | Lock obj =>
      r ← file_lock obj (weak s) (heap s);
      let '(res, w, h) := r in
      match (res : result nat nat) with
      | Ok p => Done (Locked true, mkState w h (Some p))
      | Err _ => Done (Locked false, mkState w h (held s))
      end
  | Unlock =>
      match held s with
      | None => Done (NoLock, s)
      | Some p => r ← unlock p (weak s) (heap s); let '(obj, w, h) := r in Done (Returned obj, mkState w h None)
      end
  | DropLocked =>
      match held s with
      | None => Done (NoLock, s)
      | Some p => r ← locked_drop p (weak s) (heap s); Done (Dropped, mkState r.1 r.2 None)
      end
  | Access obj => b ← cmp_t (weak s) obj (heap s); Done (Granted b, s)
  end.

Fixpoint do_ops (os : list op) (s : state) : outcome (list answer * state) :=
  match os with
  | [] => Done ([], s)
  | o :: rest => r ← do_op o s; t ← do_ops rest r.2; Done (r.1 :: t.1, t.2)
  end.

(** The lock as a client sees it: the object that owns the file. *)
Definition spec_op (o : op) (owner : option nat) : answer * option nat :=
  match o, owner with
  | Lock obj, None => (Locked true, Some obj)
  | Lock _, Some _ => (Locked false, owner)
  | Unlock, Some obj => (Returned obj, None)
  | DropLocked, Some _ => (Dropped, None)
  | Unlock, None | DropLocked, None => (NoLock, None)
  | Access obj, None => (Granted true, owner)
  | Access obj, Some o => (Granted (Nat.eqb o obj), owner)
  end.

Fixpoint spec_ops (os : list op) (owner : option nat) : list answer * option nat :=
  match os with
  | [] => ([], owner)
  | o :: rest => let r := spec_op o owner in let t := spec_ops rest r.2 in (r.1 :: t.1, t.2)
  end.

(** The heap holds the cell of the lock that is held, uncounted, and nothing else of the lock. *)
Definition repr (base : gmap nat Cell) (s : state) (owner : option nat) : Prop :=
  (forall p c, base !! p = Some c -> p < next (heap s)) /\
  match held s, owner with
  | None, None => weak s = None /\ cells (heap s) = base
  | Some p, Some o =>
      weak s = Some p /\ p < next (heap s) /\ base !! p = None /\ cells (heap s) = <[p := mkCell 0 (Some o)]> base
  | _, _ => False
  end.

Lemma base_fresh (base : gmap nat Cell) n : (forall p c, base !! p = Some c -> p < n) -> base !! n = None.
Proof. intros H. destruct (base !! n) as [c|] eqn:E; [|done]. apply H in E. lia. Qed.

(** Evaluates accesses to cells that were just written. *)
Ltac run_cells :=
  repeat (cbn; unfold unlock, locked_drop, file_lock, weak_set, bind_to, downgrade, take, arc_drop, cell; cbn; first [rewrite lookup_insert_eq | rewrite lookup_insert_ne by lia]); cbn.

Lemma do_op_repr base o s owner :
  repr base s owner -> exists s', do_op o s = Done ((spec_op o owner).1, s') /\ repr base s' (spec_op o owner).2.
Proof.
  intros [Hb Hs]. pose proof (base_fresh base _ Hb) as Hf.
  destruct s as [w h [p|]], owner as [ow|]; cbn in Hs; try done; destruct h as [cs n]; cbn in *.
  - destruct Hs as (-> & Hp & Hbp & ->).
    destruct o as [obj| | |obj]; run_cells; eexists; (split; [done|]).
    + split; cbn; [intros q c Hq; apply Hb in Hq; lia|]. split; [done|]. split; [lia|]. split; [done|].
      rewrite !delete_insert_eq. apply delete_id. by rewrite lookup_insert_ne by lia.
    + split; cbn; [done|]. split; [done|]. rewrite !delete_insert_eq. by apply delete_id.
    + split; cbn; [done|]. split; [done|]. rewrite !delete_insert_eq. by apply delete_id.
    + done.
  - destruct Hs as [-> ->]. destruct o as [obj| | |obj]; run_cells; try by eexists.
    eexists. split; [done|]. change (0 ⊕ 1 =? 1)%Z with true. change (0 ⊕ 1 ⊖ 1)%u64 with 0%Z.
    split; cbn; [intros q c Hq; apply Hb in Hq; lia|]. split; [done|]. split; [lia|]. split; [done|].
    by rewrite !insert_insert_eq.
Qed.

(** C22. The file lock works as a lock: for every sequence of lock, unlock, drop and access
    operations on one file, no freed cell is touched, the answers are those of an owner variable
    (one holder at a time, access for the holder only while the file is locked and for everybody
    otherwise, the locked object comes back on unlock), and when no lock is held at the end all
    memory of the locks has been given back.  Access is refused to an object other than the holder because [cmp_t] is false for
    another address, as its callers need; the documentation of [cmp_t] says true there. *)
Theorem file_lock_protocol os h :
  (forall p c, cells h !! p = Some c -> p < next h) ->
  exists s, do_ops os (start h) = Done ((spec_ops os None).1, s) /\
    ((spec_ops os None).2 = None -> cells (heap s) = cells h /\ weak s = None).
Proof.
  intros Hh.
  assert (forall s owner, repr (cells h) s owner ->
    exists s', do_ops os s = Done ((spec_ops os owner).1, s') /\ repr (cells h) s' (spec_ops os owner).2) as Hgen.
  { induction os as [|o os IH]; intros s owner Hr; [by exists s|]. cbn.
    destruct (do_op_repr _ o _ _ Hr) as (s1 & -> & H1). cbn. destruct (IH _ _ H1) as (s2 & -> & H2). by exists s2. }
  destruct (Hgen (start h) None) as (s & Hd & Hr); [done|]. exists s. split; [done|]. intros Hn. rewrite Hn in Hr.
  destruct Hr as [_ Hr]. destruct (held s); [done|]. by destruct Hr.
Qed.

Lemma file_lock_protocol_witness :
  exists s, do_ops [Lock 5; Access 5; Access 6; Lock 6; Unlock; Access 6] (start (mkHeap ∅ 0)) =
    Done ([Locked true; Granted true; Granted false; Locked false; Returned 5; Granted true], s) /\ cells (heap s) = ∅.
Proof.
  destruct (file_lock_protocol [Lock 5; Access 5; Access 6; Lock 6; Unlock; Access 6] (mkHeap ∅ 0)) as (s & H1 & H2).
  - intros p c Hp. cbn in Hp. by rewrite lookup_empty in Hp.
  - exists s. split; [exact H1|]. by apply H2.
Defined.

(** A [Weak] bound with [set] is not counted: when the [SingleArc] is dropped while the [Weak] is
    still bound, its cell is freed and the next use of the [Weak] is a use after free. *)
Lemma weak_set_dangles obj h : 
  exists p w h1 h2, new obj h = (p, h1) /\ weak_set None p h1 = Done (Ok tt, w, h2) /\
    exists h3, arc_drop p h2 = Done h3 /\ weak_get w h3 = Panic.
Proof.
  destruct h as [cs n]. eexists n, (Some n), _, (mkHeap (<[n := mkCell 0 (Some obj)]> cs) (S n)).
  split; [done|]. split; run_cells.
  - change (0 ⊕ 1 =? 1)%Z with true. change (0 ⊕ 1 ⊖ 1)%u64 with 0%Z. cbn. unfold put. cbn. by rewrite !insert_insert_eq.
  - eexists. split; [done|]. unfold cell. cbn. by rewrite lookup_delete_eq.
Qed.

End FileLock.
