(* ===== verification/Files.v ===== *)
(** * Files

    The vocabulary of [kernel/src/fs]: errors, device numbers, metadata and mount options
    ([fs/mod.rs], [fs/file.rs], [fs/vfs.rs]), paths, and the interface between the virtual file
    system and the file system drivers.  [FileOps] collects the methods of the traits [File],
    [Directory] and [FileSystem] that the virtual file system calls; [FileLaws] states what it
    relies on.  A driver call is one atomic step: suspension inside a driver is not modelled. *)
From stdpp Require Import prelude gmap strings pretty.
From S2P Require Import Prelude.
Open Scope string_scope.

Inductive IoError :=
| NotPresent | MediaError | DeviceError | NotSupported | Exclusive | EndOfFile | AlreadyExists
| NotEmpty | IsDevice | ReadOnly | Busy | NotReady | InvalidData.

#[export] Instance IoError_eq_dec : EqDecision IoError.
Proof. solve_decision. Defined.

Inductive FileType := NormalFile | MountPoint | Directory | CharDev | Native | BlkDev.

#[export] Instance FileType_eq_dec : EqDecision FileType.
Proof. solve_decision. Defined.

(** ** Device numbers *)

Record DevID := mkDevID { major : Z; minor : Z }.

#[export] Instance DevID_eq_dec : EqDecision DevID.
Proof. solve_decision. Defined.

#[export] Instance DevID_countable : Countable DevID.
Proof. apply (inj_countable' (fun d => (major d, minor d)) (fun p => mkDevID p.1 p.2)). by intros []. Defined.

Definition NULL : DevID := mkDevID 0 0.
Definition PUBLIC_BASE : Z := 2.

(** [MajorNum::new]: a global counter that starts at [PUBLIC_BASE]. *)
Definition major_new (next : Z) : Z * Z := (next, wadd next 1).

Record DeviceIdDistributer := mkDist { dist_major : option Z; dist_minor : Z }.
Definition dist_new : DeviceIdDistributer := mkDist None 0.

(** [DeviceIdDistributer::major] and [alloc_id]; [next] is the counter of [MajorNum::new]. *)
Definition dist_get_major (d : DeviceIdDistributer) (next : Z) : Z * DeviceIdDistributer * Z :=
  match dist_major d with
  | Some m => (m, d, next)
  | None => let '(m, next) := major_new next in (m, mkDist (Some m) (dist_minor d), next)
  end.

Definition alloc_id (d : DeviceIdDistributer) (next : Z) : DevID * DeviceIdDistributer * Z :=
  let '(m, d, next) := dist_get_major d next in
  (mkDevID m (dist_minor d), mkDist (dist_major d) (wadd (dist_minor d) 1), next).

(** ** Metadata and file handles *)

Record FileMetadata := mkMeta {
  unknown : bool; size : Z; block_size : Z; meta_id : Z; meta_device : DevID; f_type : FileType }.

(** [FileMetadata::new_unknown]. *)
Definition new_unknown : FileMetadata := mkMeta true 0 (2 ^ 64 - 1) 0 NULL NormalFile.

Record FileHandle (F : Type) := mkHandle {
  file_metadata : FileMetadata; device_hint : bool; hfile : option F }.
Arguments mkHandle {F}.
Arguments file_metadata {F}.
Arguments device_hint {F}.
Arguments hfile {F}.

(** [FileHandle::new_dev]: a handle that hints at a device and has no file. *)
Definition new_dev {F} (meta : FileMetadata) : FileHandle F := mkHandle meta true None.

(** ** File system options *)

Inductive FsOptionVariant := OptInt (i : Z) | OptBool (b : bool) | OptString (s : string).

#[export] Instance FsOptionVariant_eq_dec : EqDecision FsOptionVariant.
Proof. solve_decision. Defined.

(** [Display for FsOptionVariant]. *)
Definition to_string (v : FsOptionVariant) : string :=
  match v with
  | OptInt i => pretty i
  | OptBool b => if b then "true" else "false"
  | OptString s => s
  end.

(** [TryFrom<FsOptionVariant> for bool]. *)
Definition try_bool (v : FsOptionVariant) : option bool :=
  match v with OptBool b => Some b | _ => None end.

Definition DIR_CACHE : string := "dir_cache".
Definition DEV_ALLOWED : string := "dev_allowed".

Record FsOpts := mkOpts { dir_cache : bool; dev_allowed : bool; extra : gmap string FsOptionVariant }.

Definition opts_new (dir_cache dev_allowed : bool) : FsOpts := mkOpts dir_cache dev_allowed ∅.

(** [FsOpts::set].  An option that is set a second time fails in [expect_err]. *)
Definition opts_set (o : FsOpts) (property : string) (value : FsOptionVariant) : outcome FsOpts :=
  if String.eqb property DEV_ALLOWED then
    b ← unwrap (try_bool value); Done (mkOpts (dir_cache o) b (extra o))
  else if String.eqb property DIR_CACHE then
    Done (match value with OptBool b => mkOpts b (dev_allowed o) (extra o) | _ => o end)
  else
    match extra o !! property with
    | None => Done (mkOpts (dir_cache o) (dev_allowed o) (<[property := value]> (extra o)))
    | Some _ => Panic
    end.

(** [FsOpts::get]. *)
Definition opts_get (o : FsOpts) (property : string) : option FsOptionVariant :=
  if String.eqb property DIR_CACHE then Some (OptBool (dir_cache o))
  else if String.eqb property DEV_ALLOWED then Some (OptBool (dev_allowed o))
  else extra o !! property.

(** ** Paths *)

Definition THIS_DIR : string := ".".
Definition PARENT_DIR : string := "..".
Definition PATH_SEPARATOR : Ascii.ascii := Ascii.ascii_of_nat 47.

(** [str::split] by one character. *)
Fixpoint split (c : Ascii.ascii) (s : string) : list string :=
  match s with
  | EmptyString => [EmptyString]
  | String a s' =>
      if Ascii.eqb a c then EmptyString :: split c s'
      else match split c s' with h :: t => String a h :: t | [] => [] end
  end.

(** [s.split_at(s.rfind(c).unwrap() + 1)]; [None] when [rfind] finds nothing. *)
Fixpoint rsplit_after (c : Ascii.ascii) (s : string) : option (string * string) :=
  match s with
  | EmptyString => None
  | String a s' =>
      match rsplit_after c s' with
      | Some (p, n) => Some (String a p, n)
      | None => if Ascii.eqb a c then Some (String a EmptyString, s') else None
      end
  end.

(** [str::split_whitespace] on ASCII text. *)
Definition is_whitespace (a : Ascii.ascii) : bool :=
  let n := Ascii.nat_of_ascii a in (Nat.eqb n 32 || (Nat.leb 9 n && Nat.leb n 13))%bool.

Fixpoint split_whitespace_from (cur : string) (s : string) : list string :=
  match s with
  | EmptyString => if String.eqb cur EmptyString then [] else [cur]
  | String a s' =>
      if is_whitespace a then
        (if String.eqb cur EmptyString then [] else [cur]) ++ split_whitespace_from EmptyString s'
      else split_whitespace_from (cur +:+ String a EmptyString) s'
  end%list.
Definition split_whitespace (s : string) : list string := split_whitespace_from EmptyString s.

Lemma split_nonempty c s : split c s <> [].
Proof. induction s as [|a s IH]; cbn; [done|]. destruct (Ascii.eqb a c); [done|]. by destruct (split c s). Qed.

Lemma rsplit_none c s : rsplit_after c s = None -> split c s = [s].
Proof.
  induction s as [|a s IH]; cbn; [done|]. destruct (rsplit_after c s) as [[]|]; [done|].
  rewrite IH by done. by destruct (Ascii.eqb a c).
Qed.

(** The components of a path are the components of its directory part, whose last one is empty,
    with the file name in the place of that one. *)
Lemma rsplit_split c s p n :
  rsplit_after c s = Some (p, n) ->
  exists init, split c p = (init ++ [EmptyString])%list /\ split c s = (init ++ [n])%list /\ init <> [].
Proof.
  revert p n. induction s as [|a s IH]; intros p n; cbn; [done|].
  destruct (rsplit_after c s) as [[p' n']|] eqn:E.
  - intros [= <- <-]. destruct (IH p' n' eq_refl) as (init & H1 & H2 & H3). cbn. rewrite H1, H2.
    destruct (Ascii.eqb a c).
    + by exists (EmptyString :: init).
    + destruct init as [|h t]; [done|]. by exists (String a h :: t).
  - destruct (Ascii.eqb a c) eqn:Ea; [|done]. intros [= <- <-]. cbn. rewrite Ea, (rsplit_none _ _ E).
    by exists [EmptyString].
Qed.

(** A separator between two paths separates their components. *)
Lemma split_join c s1 s2 : split c (s1 +:+ String c s2) = (split c s1 ++ split c s2)%list.
Proof.
  induction s1 as [|a s1 IH].
  - change (EmptyString +:+ String c s2) with (String c s2). cbn. by rewrite Ascii.eqb_refl.
  - change (String a s1 +:+ String c s2) with (String a (s1 +:+ String c s2)). cbn. rewrite IH. destruct (Ascii.eqb a c); [done|]. pose proof (split_nonempty c s1). by destruct (split c s1).
Qed.

(** ** The interface of the drivers *)

(** A source file that is copied by [Directory::new_file]: its [len_chars] and its [read] at
    position 0. *)
Record SourceFile := mkSource {
  sf_len_chars : result Z IoError; sf_read : list Z -> result (list Z * nat) IoError }.

(** [W] is the state of all drivers and [F] the file objects.  [cast_directory] and
    [cast_filesystem] say which casts of [cast_file!] succeed. *)
Class FileOps (W F : Type) := {
  cast_directory : F -> bool;
  cast_filesystem : F -> bool;
  cast_device : F -> bool;
  file_type : F -> FileType;
  device : W -> F -> outcome DevID;
  file_id : F -> Z;
  file_meta : W -> F -> outcome (result FileMetadata IoError);
  fs_root : W -> F -> outcome F;
  get_opt : W -> F -> string -> outcome (option FsOptionVariant);
  set_opts : F -> string -> W -> outcome W;
  driver_name : F -> string;
  raw_file : F -> option string;
  get_file_with_meta : W -> F -> string -> outcome (result (FileHandle F) IoError);
  file_list : W -> F -> outcome (result (list string) IoError);
  new_file : F -> string -> option SourceFile -> W -> outcome (result unit (option IoError * option IoError) * W);
  new_dir : F -> string -> W -> outcome (result F IoError * W);
  store : F -> string -> F -> W -> outcome (result unit IoError * W);
  remove : F -> string -> W -> outcome (result unit IoError * W);
}.

(** What the virtual file system relies on.  [ext w w'] says that [w'] has every entry of [w]:
    creating files and directories extends the state, a lookup that succeeded goes on to find the
    same file, and a created directory or a stored device is found under its name. *)
Class FileLaws (W F : Type) `{FileOps W F} := {
  ext : W -> W -> Prop;
  ext_lookup w w' d n h : ext w w' -> get_file_with_meta w d n = Done (Ok h) ->
    exists h', get_file_with_meta w' d n = Done (Ok h') /\ hfile h' = hfile h /\ device_hint h' = device_hint h;
  ext_device w w' f i : ext w w' -> device w f = Done i -> device w' f = Done i;
  ext_root w w' f d : ext w w' -> fs_root w f = Done d -> fs_root w' f = Done d;
  root_directory w f d : fs_root w f = Done d -> cast_directory d = true;
  new_dir_found d n w f w' : n <> PARENT_DIR -> new_dir d n w = Done (Ok f, w') ->
    ext w w' /\ cast_directory f = true /\
    exists h, get_file_with_meta w' d n = Done (Ok h) /\ hfile h = Some f /\ device_hint h = false;
  new_file_found d n src w w' : n <> PARENT_DIR -> new_file d n src w = Done (Ok tt, w') ->
    ext w w' /\ exists h f, get_file_with_meta w' d n = Done (Ok h) /\ hfile h = Some f /\ device_hint h = false;
  store_found d n f w w' m : n <> PARENT_DIR -> cast_device f = true -> store d n f w = Done (Ok tt, w') ->
    file_meta w' f = Done (Ok m) ->
    ext w w' /\ exists h, get_file_with_meta w' d n = Done (Ok h) /\ hfile h = Some f;
}.
