(* ===== verification/TmpFs.v ===== *)
(** * The memory file system

    [kernel/src/fs/tmpfs.rs].  The accessors ([Arc<dyn TmpFsFile>]) live in a store and are named
    by their position in it, so that an accessor that is removed from the file map stays reachable
    through the file objects that hold it.  A file system that is not in [roots] has been dropped:
    [Weak::upgrade] then fails. *)
From stdpp Require Import prelude gmap strings sorting.
From S2P Require Import Prelude SingleArc Files.
Open Scope string_scope.

Module TmpFs.

(** A file object that belongs to another driver: its answers to the methods of [File]. *)
Record Foreign := mkForeign {
  o_device : DevID; o_id : Z; o_type : FileType; o_len : result Z IoError; o_block_size : Z; o_is_dev : bool }.

(** [TmpFsRoot], [Dir], [TmpFsNormalFile], and the objects of other drivers. *)
Inductive File :=
| FRoot (fs : nat)
| FDir (fs arc : nat) (serial : Z)
| FNormal (fs arc : nat) (serial : Z)
| FOther (o : Foreign).

Inductive TmpFsFile :=
| FileAccessor (data : list Z) (lock : SingleArc.Weak) (serial : Z)
| DirAccessor (map : gmap string Z) (parent serial : Z)
| DeviceFileObj (inner : File) (serial link_count : Z).

Record TmpFsRootInner := mkInner {
  f_map : gmap Z nat; fs_opts : FsOpts; dev_id : DevID; serial_count : Z }.

Record World := mkWorld {
  arcs : list TmpFsFile; roots : gmap nat TmpFsRootInner; next_root : nat; next_minor : Z;
  lock_heap : SingleArc.Heap }.

Definition PAGE_SIZE : Z := 4096.

Definition with_arcs (w : World) (a : list TmpFsFile) : World :=
  mkWorld a (roots w) (next_root w) (next_minor w) (lock_heap w).
Definition with_root (w : World) (fs : nat) (i : TmpFsRootInner) : World :=
  mkWorld (arcs w) (<[fs := i]> (roots w)) (next_root w) (next_minor w) (lock_heap w).

(** ** [TmpFsRootInner] *)

(** Stores a new accessor under the next serial number.  The flag says that the number was in use,
    in which case the old accessor has been replaced. *)
Definition insert_accessor (acc : Z -> TmpFsFile) (fs : nat) (i : TmpFsRootInner) (w : World) :
    bool * nat * Z * World :=
  let serial := serial_count i in
  let arc := length (arcs w) in
  (bool_decide (is_Some (f_map i !! serial)), arc, serial,
   with_root (with_arcs w (arcs w ++ [acc serial])) fs
     (mkInner (<[serial := arc]> (f_map i)) (fs_opts i) (dev_id i) (wadd serial 1))).

Definition inner_new_file (fs : nat) (i : TmpFsRootInner) (w : World) : option (nat * Z) * World :=
  let '(used, arc, serial, w') := insert_accessor (FileAccessor [] None) fs i w in
  (if (used : bool) then None else Some (arc, serial), w').

Definition inner_new_dir (fs : nat) (i : TmpFsRootInner) (parent_serial : Z) (w : World) : option (nat * Z) * World :=
  let '(used, arc, serial, w') := insert_accessor (DirAccessor ∅ parent_serial) fs i w in
  (if (used : bool) then None else Some (arc, serial), w').

Definition store_dev (fs : nat) (i : TmpFsRootInner) (dev : File) (w : World) : outcome (Z * World) :=
  let '(used, arc, serial, w') := insert_accessor (fun s => DeviceFileObj dev s 1) fs i w in
  if (used : bool) then Panic else Done (serial, w').

Definition link_count (a : TmpFsFile) : Z := match a with DeviceFileObj _ _ c => c | _ => 1 end.
Definition set_link (a : TmpFsFile) (count : Z) : TmpFsFile :=
  match a with DeviceFileObj d s _ => DeviceFileObj d s count | _ => a end.

Definition remove_file (fs : nat) (i : TmpFsRootInner) (serial : Z) (w : World) : outcome (result unit IoError * World) :=
  match f_map i !! serial with
  | None => Done (Err NotPresent, w)
  | Some arc =>
      t ← unwrap (arcs w !! arc);
      if (1 <? link_count t)%Z then Done (Ok tt, with_arcs w (<[arc := set_link t (link_count t - 1)]> (arcs w)))
      else Done (Ok tt, with_root w fs (mkInner (delete serial (f_map i)) (fs_opts i) (dev_id i) (serial_count i)))
  end.

(** [get_file_obj] of the three kinds of accessors. *)
Definition get_file_obj (fs arc : nat) (a : TmpFsFile) : File :=
  match a with
  | FileAccessor _ _ serial => FNormal fs arc serial
  | DirAccessor _ _ serial => FDir fs arc serial
  | DeviceFileObj inner _ _ => inner
  end.

Definition fetch_raw (i : TmpFsRootInner) (id : Z) (w : World) : outcome (option (nat * TmpFsFile)) :=
  match f_map i !! id with
  | None => Done None
  | Some arc => a ← unwrap (arcs w !! arc); Done (Some (arc, a))
  end.

Definition fetch (fs : nat) (i : TmpFsRootInner) (id : Z) (w : World) : outcome (option File) :=
  r ← fetch_raw i id w; Done (option_map (fun p => get_file_obj fs p.1 p.2) r).

(** ** [TmpFsRoot] *)

(** [TmpFsRoot::new]; [major] is [DRIVER_MAJOR]. *)
Definition tmpfs_new (major : Z) (w : World) : File * World :=
  let fs := next_root w in
  let arc := length (arcs w) in
  (FRoot fs,
   mkWorld (arcs w ++ [DirAccessor ∅ 0 0])
     (<[fs := mkInner {[0%Z := arc]} (opts_new true true) (mkDevID major (next_minor w)) 1]> (roots w))
     (S fs) (wadd (next_minor w) 1) (lock_heap w)).

Definition accessor_len (a : TmpFsFile) : option Z :=
  match a with
  | FileAccessor data _ _ => Some (Z.of_nat (length data))
  | DirAccessor map _ _ => Some (Z.of_nat (base.size map))
  | DeviceFileObj _ _ _ => None
  end.

(** [File::len].  Serial number 0 is the root directory that [TmpFsRoot::new] made. *)
Definition len (w : World) (f : File) : outcome (result Z IoError) :=
  match f with
  | FRoot fs =>
      i ← unwrap (roots w !! fs);
      r ← fetch_raw i 0 w;
      t ← unwrap r;
      n ← unwrap (accessor_len t.2); Done (Ok n)
  | FDir _ arc _ | FNormal _ arc _ =>
      a ← unwrap (arcs w !! arc);
      n ← unwrap (accessor_len a); Done (Ok n)
  | FOther o => Done (o_len o)
  end.

Definition tmp_file_type (f : File) : FileType :=
  match f with FRoot _ | FDir _ _ _ => Directory | FNormal _ _ _ => NormalFile | FOther o => o_type o end.

Definition tmp_device (w : World) (f : File) : outcome DevID :=
  match f with
  | FRoot fs | FDir fs _ _ | FNormal fs _ _ => i ← unwrap (roots w !! fs); Done (dev_id i)
  | FOther o => Done (o_device o)
  end.

Definition tmp_id (f : File) : Z :=
  match f with FRoot _ => 0%Z | FDir _ _ s | FNormal _ _ s => s | FOther o => o_id o end.

Definition tmp_block_size (f : File) : Z := match f with FOther o => o_block_size o | _ => PAGE_SIZE end.

(** [FileMetadata::new_from_file]. *)
Definition new_from_file (w : World) (f : File) : outcome (result FileMetadata IoError) :=
  l ← len w f;
  match l with
  | Err e => Done (Err e)
  | Ok n =>
      if (tmp_block_size f =? 0)%Z then Panic
      else d ← tmp_device w f; Done (Ok (mkMeta false n (tmp_block_size f) (tmp_id f) d (tmp_file_type f)))
  end.

Definition tmp_cast_directory (f : File) : bool := match f with FDir _ _ _ => true | _ => false end.
Definition tmp_cast_filesystem (f : File) : bool := match f with FRoot _ => true | _ => false end.
Definition tmp_cast_device (f : File) : bool :=
  match f with FRoot _ => true | FOther o => o_is_dev o | _ => false end.

(** [FileSystem::root]. *)
Definition tmp_root (w : World) (f : File) : outcome File :=
  match f with
  | FRoot fs =>
      i ← unwrap (roots w !! fs);
      r ← fetch fs i 0 w;
      d ← unwrap r;
      if tmp_cast_directory d then Done d else Panic
  | _ => Panic
  end.

Definition tmp_get_opt (w : World) (f : File) (opt : string) : outcome (option FsOptionVariant) :=
  match f with
  | FRoot fs => i ← unwrap (roots w !! fs); Done (opts_get (fs_opts i) opt)
  | _ => Panic
  end.

(** [set_opts]: the options are parsed into fresh [FsOpts]; unknown ones are logged. *)
Fixpoint parse_opts (words : list string) (o : FsOpts) : outcome FsOpts :=
  match words with
  | [] => Done o
  | i :: rest =>
      o' ← (if String.eqb i "NODEV" then opts_set o DEV_ALLOWED (OptString (to_string (OptBool false))) else Done o);
      parse_opts rest o'
  end.

Definition tmp_set_opts (f : File) (options : string) (w : World) : outcome World :=
  match f with
  | FRoot fs =>
      i ← unwrap (roots w !! fs);
      o ← parse_opts (split_whitespace options) (opts_new false true);
      Done (with_root w fs (mkInner (f_map i) o (dev_id i) (serial_count i)))
  | _ => Panic
  end.

(** ** [Dir] *)

(** The accessor of a directory object: its entries, its parent and its serial number. *)
Definition dir_accessor (w : World) (d : File) : outcome (nat * nat * gmap string Z * Z * Z) :=
  match d with
  | FDir fs arc _ =>
      match arcs w !! arc with Some (DirAccessor map parent serial) => Done (fs, arc, map, parent, serial) | _ => Panic end
  | _ => Panic
  end.

(** [entry.insert(id)] for a vacant entry of the directory [arc]. *)
Definition insert_entry (arc : nat) (name : string) (id : Z) (w : World) : World :=
  match arcs w !! arc with
  | Some (DirAccessor map parent serial) => with_arcs w (<[arc := DirAccessor (<[name := id]> map) parent serial]> (arcs w))
  | _ => w
  end.

Definition set_data (arc : nat) (data : list Z) (w : World) : World :=
  match arcs w !! arc with
  | Some (FileAccessor _ lock serial) => with_arcs w (<[arc := FileAccessor data lock serial]> (arcs w))
  | _ => w
  end.

(** What a copied file is filled with: the whole buffer, since [shrink_to] only touches the
    capacity; or the error of the source. *)
Definition copy_source (src : SourceFile) : result (list Z) IoError :=
  match sf_len_chars src with
  | Err e => Err e
  | Ok len =>
      match sf_read src (replicate (Z.to_nat len) 0%Z) with
      | Err e => Err e
      | Ok (buffer, _) => Ok buffer
      end
  end.

Definition tmp_new_file (d : File) (name : string) (src : option SourceFile) (w : World) :
    outcome (result unit (option IoError * option IoError) * World) :=
  a ← dir_accessor w d;
  let '(fs, arc, map, _, _) := a in
  match map !! name with
  | Some _ => Done (Err (Some AlreadyExists, None), w)
  | None =>
      match roots w !! fs with
      | None => Done (Err (Some NotPresent, None), w)
      | Some i =>
          let '(r, w1) := inner_new_file fs i w in
          nf ← unwrap r;
          match src with
          | None => Done (Ok tt, insert_entry arc name nf.2 w1)
          | Some s =>
              match copy_source s with
              | Err e => Done (Err (None, Some e), w1)
              | Ok data => Done (Ok tt, insert_entry arc name nf.2 (set_data nf.1 data w1))
              end
          end
      end
  end.

Definition tmp_new_dir (d : File) (name : string) (w : World) : outcome (result File IoError * World) :=
  a ← dir_accessor w d;
  let '(fs, arc, map, _, serial) := a in
  match map !! name with
  | Some _ => Done (Err AlreadyExists, w)
  | None =>
      match roots w !! fs with
      | None => Done (Err NotPresent, w)
      | Some i =>
          let '(r, w1) := inner_new_dir fs i serial w in
          match r with
          | None => Done (Err DeviceError, w1)
          | Some nd => Done (Ok (FDir fs nd.1 nd.2), insert_entry arc name nd.2 w1)
          end
      end
  end.

Definition tmp_store (d : File) (name : string) (f : File) (w : World) : outcome (result unit IoError * World) :=
  a ← dir_accessor w d;
  let '(fs, arc, map, _, _) := a in
  match map !! name with
  | Some _ => Done (Err AlreadyExists, w)
  | None =>
      if tmp_cast_device f then
        i ← unwrap (roots w !! fs);
        r ← store_dev fs i f w;
        Done (Ok tt, insert_entry arc name r.1 r.2)
      else Done (Ok tt, w)
  end.

(** [DirAccessor::is_root]. *)
Definition is_root (parent serial : Z) : bool := (parent =? serial)%Z.

Definition tmp_get_file (w : World) (d : File) (name : string) : outcome (result File IoError) :=
  a ← dir_accessor w d;
  let '(fs, arc, map, parent, serial) := a in
  if (String.eqb name PARENT_DIR && is_root parent serial)%bool then Done (Err IsDevice)
  else
    match map !! name with
    | None => Done (Err NotPresent)
    | Some id =>
        i ← unwrap (roots w !! fs);
        r ← fetch fs i id w;
        Done (match r with None => Err NotPresent | Some f => Ok f end)
    end.

Definition tmp_get_file_with_meta (w : World) (d : File) (name : string) : outcome (result (FileHandle File) IoError) :=
  a ← dir_accessor w d;
  let '(fs, arc, map, parent, serial) := a in
  if (String.eqb name PARENT_DIR && is_root parent serial)%bool then Done (Ok (new_dev new_unknown))
  else
    match map !! name with
    | None => Done (Err NotPresent)
    | Some id =>
        i ← unwrap (roots w !! fs);
        r ← fetch_raw i id w;
        match r with
        | None => Done (Err NotPresent)
        | Some (farc, acc) =>
            let dev_hint := match acc with DeviceFileObj _ _ _ => true | _ => false end in
            let f := get_file_obj fs farc acc in
            m ← new_from_file w f;
            Done (match m with Err e => Err e | Ok meta => Ok (mkHandle meta dev_hint (Some f)) end)
        end
    end.

(** [file_list]: the keys of the map, in their order. *)
Definition tmp_file_list (w : World) (d : File) : outcome (result (list string) IoError) :=
  a ← dir_accessor w d;
  let '(_, _, map, _, _) := a in
  Done (Ok (merge_sort String.le (elements (dom map)))).

Definition tmp_remove (d : File) (name : string) (w : World) : outcome (result unit IoError * World) :=
  a ← dir_accessor w d;
  let '(fs, arc, map, _, _) := a in
  match map !! name with
  | None => Done (Err NotPresent, w)
  | Some id =>
      match roots w !! fs with
      | None => Done (Err NotPresent, w)
      | Some i =>
          r ← fetch fs i id w;
          match r with
          | None => Done (Err NotPresent, w)
          | Some f =>
              if bool_decide (tmp_file_type f = Directory) then
                l ← len w f;
                match l with
                | Err e => Done (Err e, w)
                | Ok n => if (0 <? n)%Z then Done (Err NotEmpty, w) else remove_file fs i id w
                end
              else remove_file fs i id w
          end
      end
  end.

(** ** [TmpFsNormalFile]

    [obj] is the address of the file object the call goes through, which the lock compares. *)

Definition file_accessor (w : World) (f : File) : outcome (nat * list Z * SingleArc.Weak * Z) :=
  match f with
  | FNormal _ arc _ =>
      match arcs w !! arc with Some (FileAccessor data lock serial) => Done (arc, data, lock, serial) | _ => Panic end
  | _ => Panic
  end.

Definition len_chars (w : World) (f : File) : outcome (result Z IoError) :=
  a ← file_accessor w f; let '(_, data, _, _) := a in Done (Ok (Z.of_nat (length data))).

(** The result is the buffer and the number of bytes read. *)
Definition read (w : World) (f : File) (obj : nat) (pos : Z) (buff : list Z) :
    outcome (result (list Z * nat) (IoError * list Z * nat)) :=
  a ← file_accessor w f;
  let '(_, data, lock, _) := a in
  allowed ← SingleArc.cmp_t lock obj (lock_heap w);
  if negb allowed then Done (Err (Exclusive, buff, 0))
  else if (Z.of_nat (length data) <=? pos)%Z then Done (Err (EndOfFile, buff, 0))
  else
    let p := Z.to_nat pos in
    let count := Nat.min (length buff) (length data - p) in
    Done (Ok (take count (drop p data) ++ drop count buff, count))%list.

Definition isize_max : Z := 2 ^ 63 - 1.

(** [uninit] is what the memory beyond the old length holds after [reserve_exact]: [set_len]
    makes it part of the file. *)
Definition write (uninit : nat -> Z) (f : File) (obj : nat) (pos : Z) (buff : list Z) (w : World) :
    outcome (result nat IoError * World) :=
  a ← file_accessor w f;
  let '(arc, data, lock, serial) := a in
  allowed ← SingleArc.cmp_t lock obj (lock_heap w);
  if negb allowed then Done (Err Exclusive, w)
  else
    let end_ := wadd (Z.of_nat (length buff)) pos in
    file ← (if (Z.of_nat (length data) <? end_)%Z then
              if (isize_max <? Z.of_nat (length data) + end_)%Z then Panic
              else Done (data ++ (uninit <$> seq (length data) (Z.to_nat end_ - length data)))%list
            else Done data);
    if ((end_ <? pos) || (Z.of_nat (length file) <? end_))%Z then Panic
    else
      let file' := (take (Z.to_nat pos) file ++ buff ++ drop (Z.to_nat end_) file)%list in
      Done (Ok (length buff), with_arcs w (<[arc := FileAccessor file' lock serial]> (arcs w))).

(** [file_lock] and [unlock_unsafe] on the lock of the accessor. *)
Definition with_lock (w : World) (arc : nat) (a : TmpFsFile) (h : SingleArc.Heap) : World :=
  mkWorld (<[arc := a]> (arcs w)) (roots w) (next_root w) (next_minor w) h.

Definition tmp_file_lock (f : File) (obj : nat) (w : World) : outcome (result nat nat * World) :=
  a ← file_accessor w f;
  let '(arc, data, lock, serial) := a in
  r ← FileLock.file_lock obj lock (lock_heap w);
  let '(res, lock', h) := r in
  Done (res, with_lock w arc (FileAccessor data lock' serial) h).

Definition tmp_unlock_unsafe (f : File) (w : World) : outcome World :=
  a ← file_accessor w f;
  let '(arc, data, lock, serial) := a in
  Done (with_lock w arc (FileAccessor data (FileLock.unlock_unsafe lock) serial) (lock_heap w)).

#[export] Instance tmpfs_ops : FileOps World File := {
  cast_directory := tmp_cast_directory; cast_filesystem := tmp_cast_filesystem; cast_device := tmp_cast_device;
  file_type := tmp_file_type; device := tmp_device; file_id := tmp_id; file_meta := new_from_file;
  fs_root := tmp_root; get_opt := tmp_get_opt; set_opts := tmp_set_opts;
  driver_name := fun _ => "tmpfs"; raw_file := fun _ => None;
  get_file_with_meta := tmp_get_file_with_meta; file_list := tmp_file_list;
  new_file := tmp_new_file; new_dir := tmp_new_dir; store := tmp_store; remove := tmp_remove }.

(** ** The state only grows when files are created *)

Definition acc_ext (a a' : TmpFsFile) : Prop :=
  match a, a' with
  | FileAccessor _ _ s, FileAccessor _ _ s' => s = s'
  | DirAccessor m p s, DirAccessor m' p' s' => m ⊆ m' /\ p = p' /\ s = s'
  | DeviceFileObj f s _, DeviceFileObj f' s' _ => f = f' /\ s = s'
  | _, _ => False
  end.

Record tmp_ext (w w' : World) : Prop := {
  ext_arcs arc a : arcs w !! arc = Some a -> exists a', arcs w' !! arc = Some a' /\ acc_ext a a';
  ext_roots fs i : roots w !! fs = Some i ->
    exists i', roots w' !! fs = Some i' /\ f_map i ⊆ f_map i' /\ dev_id i' = dev_id i }.

Lemma acc_ext_refl a : acc_ext a a.
Proof. by destruct a. Qed.

Lemma acc_ext_trans a b c : acc_ext a b -> acc_ext b c -> acc_ext a c.
Proof. destruct a, b, c; cbn; naive_solver (try etrans; eauto). Qed.

#[export] Instance tmp_ext_preorder : PreOrder tmp_ext.
Proof.
  split.
  - intros w. split; [intros arc a Ha; exists a; split; [done|apply acc_ext_refl]|]. intros fs i Hi. by exists i.
  - intros w1 w2 w3 [A1 R1] [A2 R2]. split.
    + intros arc a Ha. destruct (A1 _ _ Ha) as (b & Hb & Hab). destruct (A2 _ _ Hb) as (c & Hc & Hbc).
      exists c. split; [done|]. by eapply acc_ext_trans.
    + intros fs i Hi. destruct (R1 _ _ Hi) as (j & Hj & H1 & H2). destruct (R2 _ _ Hj) as (k & Hk & H3 & H4).
      exists k. split; [done|]. split; [by etrans|congruence].
Qed.

Lemma ext_fetch_raw w w' fs i i' id arc a : tmp_ext w w' ->
  roots w !! fs = Some i -> roots w' !! fs = Some i' -> fetch_raw i id w = Done (Some (arc, a)) ->
  exists a', fetch_raw i' id w' = Done (Some (arc, a')) /\ acc_ext a a'.
Proof.
  intros [HA HR] Hi Hi'. unfold fetch_raw. destruct (f_map i !! id) as [k|] eqn:E; [|done].
  destruct (HR _ _ Hi) as (j & Hj & Hsub & _). rewrite Hi' in Hj. injection Hj as <-.
  rewrite (lookup_weaken _ _ _ _ E Hsub). destruct (arcs w !! k) as [b|] eqn:Eb; [|done]. cbn. intros [= <- <-].
  destruct (HA _ _ Eb) as (a' & -> & Ha). by exists a'.
Qed.

Lemma acc_ext_obj fs arc a a' : acc_ext a a' -> get_file_obj fs arc a' = get_file_obj fs arc a.
Proof. destruct a, a'; cbn; naive_solver. Qed.

Lemma ext_device_ok w w' f d : tmp_ext w w' -> tmp_device w f = Done d -> tmp_device w' f = Done d.
Proof.
  intros [_ HR]. destruct f as [fs|fs arc s|fs arc s|o]; cbn; [..|done].
  all: destruct (roots w !! fs) as [i|] eqn:E; cbn; [|done]; intros [= <-];
    destruct (HR _ _ E) as (i' & -> & _ & <-); done.
Qed.

Lemma acc_ext_len a a' n : acc_ext a a' -> accessor_len a = Some n -> exists n', accessor_len a' = Some n'.
Proof. destruct a, a'; cbn; naive_solver. Qed.

Lemma ext_arc_len w w' arc n : tmp_ext w w' ->
  (a ← unwrap (arcs w !! arc); m ← unwrap (accessor_len a); Done (Ok m)) = Done (@Ok Z IoError n) ->
  exists n', (a ← unwrap (arcs w' !! arc); m ← unwrap (accessor_len a); Done (Ok m)) = Done (@Ok Z IoError n').
Proof.
  intros [HA _]. destruct (arcs w !! arc) as [a|] eqn:E; cbn; [|done]. destruct (HA _ _ E) as (a' & -> & Ha). cbn.
  destruct (accessor_len a) as [m|] eqn:L; cbn; [|done]. intros _. destruct (acc_ext_len _ _ _ Ha L) as (n' & ->). by exists n'.
Qed.

Lemma ext_len w w' f n : tmp_ext w w' -> len w f = Done (Ok n) -> exists n', len w' f = Done (Ok n').
Proof.
  intros He. pose proof He as [HA HR]. destruct f as [fs|fs arc s|fs arc s|o]; cbn; [| | |by eauto].
  - destruct (roots w !! fs) as [i|] eqn:E; cbn; [|done]. destruct (HR _ _ E) as (i' & Hi' & _). rewrite Hi'. cbn.
    destruct (fetch_raw i 0 w) as [[[arc a]|]|] eqn:F; cbn; try done.
    destruct (ext_fetch_raw _ _ _ _ _ _ _ _ He E Hi' F) as (a' & -> & Ha). cbn.
    destruct (accessor_len a) as [m|] eqn:L; cbn; [|done]. intros _. destruct (acc_ext_len _ _ _ Ha L) as (n' & ->). by exists n'.
  - by apply ext_arc_len.
  - by apply ext_arc_len.
Qed.

Lemma ext_meta w w' f m : tmp_ext w w' -> new_from_file w f = Done (Ok m) -> exists m', new_from_file w' f = Done (Ok m').
Proof.
  intros He. unfold new_from_file. destruct (len w f) as [[n|e]|] eqn:L; cbn; try done.
  destruct (ext_len _ _ _ _ He L) as (n' & ->). cbn. destruct (tmp_block_size f =? 0)%Z; [done|].
  destruct (tmp_device w f) as [d|] eqn:D; cbn; [|done]. rewrite (ext_device_ok _ _ _ _ He D). cbn. by eauto.
Qed.

Lemma ext_dir_accessor w w' d fs arc map p s : tmp_ext w w' -> dir_accessor w d = Done (fs, arc, map, p, s) ->
  exists map', dir_accessor w' d = Done (fs, arc, map', p, s) /\ map ⊆ map'.
Proof.
  intros [HA _]. destruct d as [|fs' arc' s'| |]; cbn; try done. destruct (arcs w !! arc') as [[]|] eqn:E; try done.
  intros [= <- <- <- <- <-]. destruct (HA _ _ E) as (a' & -> & Ha). destruct a'; cbn in Ha; try done.
  destruct Ha as (Hm & -> & ->). by eauto.
Qed.

Lemma ext_lookup_ok w w' d n h : tmp_ext w w' -> tmp_get_file_with_meta w d n = Done (Ok h) ->
  exists h', tmp_get_file_with_meta w' d n = Done (Ok h') /\ hfile h' = hfile h /\ device_hint h' = device_hint h.
Proof.
  intros He. unfold tmp_get_file_with_meta. destruct (dir_accessor w d) as [[[[[fs arc] map] p] s]|] eqn:D; [|done].
  destruct (ext_dir_accessor _ _ _ _ _ _ _ _ He D) as (map' & -> & Hsub). cbn.
  destruct (_ && _)%bool; [by eauto|]. destruct (map !! n) as [id|] eqn:E; [|done].
  rewrite (lookup_weaken _ _ _ _ E Hsub). destruct (roots w !! fs) as [i|] eqn:R; cbn; [|done].
  destruct (ext_roots _ _ He _ _ R) as (i' & R' & _). rewrite R'. cbn.
  destruct (fetch_raw i id w) as [[[farc a]|]|] eqn:F; cbn; try done.
  destruct (ext_fetch_raw _ _ _ _ _ _ _ _ He R R' F) as (a' & -> & Ha). cbn.
  rewrite (acc_ext_obj fs farc a a' Ha).
  destruct (new_from_file w (get_file_obj fs farc a)) as [[m|e]|] eqn:M; cbn; try done.
  destruct (ext_meta _ _ _ _ He M) as (m' & ->). cbn. intros [= <-]. eexists. split; [done|]. cbn. split; [done|].
  by destruct a, a'.
Qed.

Lemma ext_root_ok w w' f d : tmp_ext w w' -> tmp_root w f = Done d -> tmp_root w' f = Done d.
Proof.
  intros He. destruct f as [fs| | |]; cbn; try done. destruct (roots w !! fs) as [i|] eqn:R; cbn; [|done].
  destruct (ext_roots _ _ He _ _ R) as (i' & R' & _). rewrite R'. cbn. unfold fetch.
  destruct (fetch_raw i 0 w) as [[[arc a]|]|] eqn:F; cbn; try done.
  destruct (ext_fetch_raw _ _ _ _ _ _ _ _ He R R' F) as (a' & -> & Ha). cbn. by rewrite (acc_ext_obj fs arc a a' Ha).
Qed.

Lemma root_is_directory w f d : tmp_root w f = Done d -> tmp_cast_directory d = true.
Proof.
  destruct f as [fs| | |]; cbn; try done. destruct (roots w !! fs) as [i|]; cbn; [|done].
  destruct (fetch fs i 0 w) as [[g|]|]; cbn; try done. destruct (tmp_cast_directory g) eqn:E; [|done]. by intros [= <-].
Qed.

(** ** Created entries are found *)

(** The state after a new accessor and an entry for it. *)
Definition created (acc : Z -> TmpFsFile) (fs arc : nat) (i : TmpFsRootInner) (name : string) (w : World) : World :=
  insert_entry arc name (serial_count i) (insert_accessor acc fs i w).2.

Section Created.
Context (acc : Z -> TmpFsFile) (fs arc : nat) (i : TmpFsRootInner) (name : string) (w : World).
Context (map : gmap string Z) (parent serial : Z).
Context (Hroot : roots w !! fs = Some i) (Hdir : arcs w !! arc = Some (DirAccessor map parent serial)).
Context (Hname : map !! name = None) (Hserial : f_map i !! serial_count i = None).

Lemma created_arcs : arcs (created acc fs arc i name w) =
  (<[arc := DirAccessor (<[name := serial_count i]> map) parent serial]> (arcs w) ++ [acc (serial_count i)])%list.
Proof.
  unfold created, insert_entry, insert_accessor. cbn. pose proof (lookup_lt_Some _ _ _ Hdir).
  rewrite lookup_app_l, Hdir by done. cbn. by rewrite insert_app_l.
Qed.

Lemma created_roots : roots (created acc fs arc i name w) =
  <[fs := mkInner (<[serial_count i := length (arcs w)]> (f_map i)) (fs_opts i) (dev_id i) (wadd (serial_count i) 1)]> (roots w).
Proof.
  unfold created, insert_entry, insert_accessor. cbn. pose proof (lookup_lt_Some _ _ _ Hdir).
  by rewrite lookup_app_l, Hdir by done.
Qed.

Lemma created_ext : tmp_ext w (created acc fs arc i name w).
Proof.
  split.
  - intros k a Hk. rewrite created_arcs. pose proof (lookup_lt_Some _ _ _ Hk).
    rewrite lookup_app_l by (by rewrite length_insert). destruct (decide (k = arc)) as [->|].
    + rewrite list_lookup_insert_eq by done. rewrite Hdir in Hk. injection Hk as <-. eexists. split; [done|]. cbn.
      split; [|done]. by apply insert_subseteq.
    + rewrite list_lookup_insert_ne by done. exists a. split; [done|]. apply acc_ext_refl.
  - intros k j Hk. rewrite created_roots. destruct (decide (k = fs)) as [->|].
    + rewrite lookup_insert_eq. rewrite Hroot in Hk. injection Hk as <-. eexists. split; [done|]. cbn.
      split; [|done]. by apply insert_subseteq.
    + rewrite lookup_insert_ne by done. by exists j.
Qed.

Lemma created_found x m :
  name <> PARENT_DIR -> let f := get_file_obj fs (length (arcs w)) (acc (serial_count i)) in
  new_from_file (created acc fs arc i name w) f = Done (Ok m) ->
  tmp_get_file_with_meta (created acc fs arc i name w) (FDir fs arc x) name =
    Done (Ok (mkHandle m (match acc (serial_count i) with DeviceFileObj _ _ _ => true | _ => false end) (Some f))).
Proof.
  intros Hn f Hm. unfold tmp_get_file_with_meta. cbn. pose proof (lookup_lt_Some _ _ _ Hdir).
  rewrite created_arcs at 1. rewrite lookup_app_l by (by rewrite length_insert).
  rewrite list_lookup_insert_eq by done. cbn. rewrite (proj2 (String.eqb_neq _ _) Hn). cbn.
  rewrite lookup_insert_eq, created_roots, lookup_insert_eq. cbn. unfold fetch_raw. cbn. rewrite lookup_insert_eq.
  rewrite created_arcs at 1. rewrite lookup_app_r by (by rewrite length_insert). rewrite length_insert, Nat.sub_diag. cbn.
  fold f. rewrite Hm. done.
Qed.

(** The metadata of a new file or directory can be read. *)
Lemma created_meta n : accessor_len (acc (serial_count i)) = Some n ->
  exists m, new_from_file (created acc fs arc i name w) (get_file_obj fs (length (arcs w)) (acc (serial_count i))) = Done (Ok m).
Proof.
  intros Hlen. unfold new_from_file.
  assert (arcs (created acc fs arc i name w) !! length (arcs w) = Some (acc (serial_count i))) as Ha.
  { rewrite created_arcs, lookup_app_r by (by rewrite length_insert). by rewrite length_insert, Nat.sub_diag. }
  destruct (acc (serial_count i)) as [data l s|mp p s|] eqn:E; cbn in Hlen |- *; [| |done].
  all: rewrite Ha; cbn; rewrite created_roots, lookup_insert_eq; cbn; by eauto.
Qed.

End Created.

Lemma dir_accessor_inv w d fs arc map p s : dir_accessor w d = Done (fs, arc, map, p, s) ->
  exists x, d = FDir fs arc x /\ arcs w !! arc = Some (DirAccessor map p s).
Proof.
  destruct d as [|fs' arc' x| |]; cbn; try done. destruct (arcs w !! arc') as [[]|] eqn:E; try done.
  intros [= <- <- <- <- <-]. by exists x.
Qed.

Lemma set_data_new data fs i w : set_data (length (arcs w)) data (insert_accessor (FileAccessor [] None) fs i w).2 =
  (insert_accessor (FileAccessor data None) fs i w).2.
Proof.
  unfold set_data, insert_accessor. cbn. rewrite lookup_app_r, Nat.sub_diag by done. cbn. unfold with_root, with_arcs. cbn.
  f_equal. rewrite insert_app_r_alt by done. by rewrite Nat.sub_diag.
Qed.

#[export] Instance tmpfs_laws : FileLaws World File.
Proof.
  refine {| ext := tmp_ext; ext_lookup := ext_lookup_ok; ext_device := ext_device_ok; ext_root := ext_root_ok; root_directory := root_is_directory |}.
  - intros d n w f w' Hn. cbn. unfold tmp_new_dir. destruct (dir_accessor w d) as [[[[[fs arc] map] p] s]|] eqn:D; [|done]. cbn.
    apply dir_accessor_inv in D as (x & -> & Ha). destruct (map !! n) eqn:E; [done|]. destruct (roots w !! fs) as [i|] eqn:R; [|done].
    destruct (f_map i !! serial_count i) eqn:S; cbn; [done|].
    intros [= <- <-].
    fold (created (DirAccessor ∅ s) fs arc i n w).
    split; [by apply (created_ext _ fs arc i n w map p s)|]. split; [done|].
    destruct (created_meta (DirAccessor ∅ s) fs arc i n w map p s Ha _ eq_refl) as (m & Hm).
    eexists. split; [by apply (created_found (DirAccessor ∅ s) fs arc i n w map p s Ha x m Hn)|]. done.
  - intros d n src w w' Hn. cbn. unfold tmp_new_file. destruct (dir_accessor w d) as [[[[[fs arc] map] p] s]|] eqn:D; [|done]. cbn.
    apply dir_accessor_inv in D as (x & -> & Ha). destruct (map !! n) eqn:E; [done|]. destruct (roots w !! fs) as [i|] eqn:R; [|done].
    destruct (f_map i !! serial_count i) eqn:S; cbn; [done|].
    intros Hw.
    assert (exists data, w' = created (FileAccessor data None) fs arc i n w) as (data & ->).
    { destruct src as [src|]; [|injection Hw as <-; by exists []]. destruct (copy_source src) as [data|]; [|done].
      injection Hw as <-. exists data. unfold created. by rewrite <- set_data_new. }
    split; [by apply (created_ext _ fs arc i n w map p s)|].
    destruct (created_meta (FileAccessor data None) fs arc i n w map p s Ha _ eq_refl) as (m & Hm).
    eexists _, _. split; [by apply (created_found (FileAccessor data None) fs arc i n w map p s Ha x m Hn)|]. done.
  - intros d n f w w' m Hn Hf. cbn in *. unfold tmp_store. destruct (dir_accessor w d) as [[[[[fs arc] map] p] s]|] eqn:D; [|done]. cbn.
    apply dir_accessor_inv in D as (x & -> & Ha). destruct (map !! n) eqn:E; [done|]. rewrite Hf.
    destruct (roots w !! fs) as [i|] eqn:R; [|done].
    unfold store_dev. cbn. destruct (f_map i !! serial_count i) eqn:S; cbn; [done|].
    intros [= <-].
    change (insert_entry _ _ _ _) with (created (fun s => DeviceFileObj f s 1) fs arc i n w). intros Hm.
    split; [by apply (created_ext _ fs arc i n w map p s)|]. eexists. split; [by apply (created_found (fun s => DeviceFileObj f s 1) fs arc i n w map p s Ha x m Hn)|]. done.
Qed.

(** ** Reading and writing *)

Lemma take_min_length {A} k (l : list A) : take (Nat.min k (length l)) l = take k l.
Proof.
  destruct (Nat.min_spec k (length l)) as [[_ ->]|[Hk ->]]; [done|]. by rewrite (take_ge l k), take_ge by lia.
Qed.

(** C38. Writing inside or at the end of a file: the call succeeds, the written bytes replace those
    at their position (the file grows when they reach beyond its end) and the other bytes stay;
    no uninitialised byte becomes visible.  A read then returns the bytes at its position, as many
    as the buffer and the file have, leaves the rest of the buffer alone, and answers
    [EndOfFile] exactly when the position is not inside the file. *)
Theorem tmpfs_write_read uninit w fs arc s obj pos buff data lock serial :
  arcs w !! arc = Some (FileAccessor data lock serial) ->
  SingleArc.cmp_t lock obj (lock_heap w) = Done true ->
  (0 <= pos <= Z.of_nat (length data))%Z -> (2 * (pos + Z.of_nat (length buff)) <= isize_max)%Z ->
  exists w', write uninit (FNormal fs arc s) obj pos buff w = Done (Ok (length buff), w') /\
    let p := Z.to_nat pos in
    let data' := (take p data ++ buff ++ drop (p + length buff) data)%list in
    arcs w' = <[arc := FileAccessor data' lock serial]> (arcs w) /\ roots w' = roots w /\
    forall rpos rbuff, (0 <= rpos)%Z ->
      read w' (FNormal fs arc s) obj rpos rbuff =
        Done (if (Z.of_nat (length data') <=? rpos)%Z then Err (EndOfFile, rbuff, 0)
              else let bytes := take (length rbuff) (drop (Z.to_nat rpos) data') in
                   Ok (bytes ++ drop (length bytes) rbuff, length bytes))%list.
Proof.
  intros Ha Hl Hpos Hmax. unfold write, isize_max in *. cbn. rewrite Ha. cbn. rewrite Hl. cbn.
  rewrite wadd_small by lia. set (e := (Z.of_nat (length buff) + pos)%Z).
  assert (exists file, (if (Z.of_nat (length data) <? e)%Z then
      if (2 ^ 63 - 1 <? Z.of_nat (length data) + e)%Z then Panic
      else Done (data ++ (uninit <$> seq (length data) (Z.to_nat e - length data)))%list else Done data) = Done file /\
    take (Z.to_nat pos) file = take (Z.to_nat pos) data /\ drop (Z.to_nat e) file = drop (Z.to_nat pos + length buff) data /\
    (e <= Z.of_nat (length file))%Z) as (file & -> & Ht & Hd & Hle).
  { destruct (Z.ltb_spec (Z.of_nat (length data)) e) as [Hlt|Hge].
    - rewrite (proj2 (Z.ltb_ge _ _)) by lia. eexists. split; [done|].
      rewrite take_app_le by lia. split; [done|]. rewrite drop_app_ge, (drop_ge data) by lia.
      rewrite drop_ge; [|rewrite length_fmap, length_seq; lia]. split; [done|]. rewrite length_app, length_fmap, length_seq. lia.
    - exists data. split; [done|]. split; [done|]. split; [f_equal; lia|lia]. }
  cbn. rewrite (proj2 (Z.ltb_ge e pos)), (proj2 (Z.ltb_ge _ e)) by lia. cbn. rewrite Ht, Hd.
  eexists. split; [done|]. cbn. split; [done|]. split; [done|]. intros rpos rbuff Hr. unfold read. cbn.
  rewrite list_lookup_insert_eq by (by eapply lookup_lt_Some). cbn. rewrite Hl. cbn.
  destruct (_ <=? rpos)%Z; [done|]. rewrite length_take, length_drop.
  rewrite <- (take_min_length (length rbuff) (drop (Z.to_nat rpos) _)) , length_drop. done.
Qed.

(** A write beyond the end makes the memory in the gap part of the file. *)
Lemma write_gap_uninit uninit w fs arc s obj pos buff data lock serial k :
  arcs w !! arc = Some (FileAccessor data lock serial) ->
  SingleArc.cmp_t lock obj (lock_heap w) = Done true ->
  (Z.of_nat (length data) < pos)%Z -> (2 * (pos + Z.of_nat (length buff)) <= isize_max)%Z ->
  length data <= k < Z.to_nat pos ->
  exists w' data', write uninit (FNormal fs arc s) obj pos buff w = Done (Ok (length buff), w') /\
    arcs w' !! arc = Some (FileAccessor data' lock serial) /\ data' !! k = Some (uninit k).
Proof.
  intros Ha Hl Hpos Hmax Hk. unfold write, isize_max in *. cbn. rewrite Ha. cbn. rewrite Hl. cbn.
  rewrite wadd_small by lia. set (e := (Z.of_nat (length buff) + pos)%Z).
  rewrite (proj2 (Z.ltb_lt (Z.of_nat (length data)) e)) by lia. rewrite (proj2 (Z.ltb_ge (2 ^ 63 - 1) _)) by lia. cbn.
  rewrite length_app, length_fmap, length_seq. rewrite (proj2 (Z.ltb_ge e pos)), (proj2 (Z.ltb_ge _ e)) by lia. cbn. eexists _, _. split; [done|].
  cbn. rewrite list_lookup_insert_eq by (by eapply lookup_lt_Some). split; [done|].
  rewrite lookup_app_l by (rewrite length_take, length_app, length_fmap, length_seq; lia).
  rewrite lookup_take_lt by lia. rewrite lookup_app_r by lia. rewrite list_lookup_fmap, lookup_seq_lt by lia. cbn. do 2 f_equal. lia.
Qed.

(** What a successful [remove] does: the accessor leaves the file map, the directory is not touched. *)
Lemma remove_inv d name w w' :
  Forall (fun a => (link_count a <= 1)%Z) (arcs w) -> tmp_remove d name w = Done (Ok tt, w') ->
  exists fs arc map p s id i, dir_accessor w d = Done (fs, arc, map, p, s) /\ map !! name = Some id /\
    roots w !! fs = Some i /\
    w' = with_root w fs (mkInner (delete id (f_map i)) (fs_opts i) (dev_id i) (serial_count i)).
Proof.
  intros Hlinks. unfold tmp_remove. destruct (dir_accessor w d) as [[[[[fs arc] map] p] s]|] eqn:D; [|done]. cbn.
  destruct (map !! name) as [id|] eqn:E; [|done]. destruct (roots w !! fs) as [i|] eqn:R; [|done].
  assert (forall w2, remove_file fs i id w = Done (Ok tt, w2) ->
    w2 = with_root w fs (mkInner (delete id (f_map i)) (fs_opts i) (dev_id i) (serial_count i))) as Hrem.
  { unfold remove_file. intros w2. destruct (f_map i !! id) as [k|]; [|done]. destruct (arcs w !! k) as [a|] eqn:Ea; [|done]. cbn.
    rewrite Forall_lookup in Hlinks. rewrite (proj2 (Z.ltb_ge _ _)) by (by eapply Hlinks). by intros [= <-]. }
  intros Hw. exists fs, arc, map, p, s, id, i. split; [done|]. split; [done|]. split; [done|]. apply Hrem. revert Hw.
  destruct (fetch fs i id w) as [[f|]|]; cbn; try done. case_bool_decide; [|done].
  destruct (len w f) as [[n|e]|]; cbn; try done. by destruct (0 <? n)%Z.
Qed.

(** [Dir::remove] takes the file out of the file system but leaves its name in the directory:
    the listing does not change, the name finds nothing any more, and no file, directory or device
    can be created under it again. *)
Theorem tmpfs_remove_keeps_name d name w w' :
  name <> PARENT_DIR -> Forall (fun a => (link_count a <= 1)%Z) (arcs w) ->
  tmp_remove d name w = Done (Ok tt, w') ->
  tmp_file_list w' d = tmp_file_list w d /\
  tmp_get_file w' d name = Done (Err NotPresent) /\
  (forall src, tmp_new_file d name src w' = Done (Err (Some AlreadyExists, None), w')) /\
  tmp_new_dir d name w' = Done (Err AlreadyExists, w') /\
  (forall f, tmp_store d name f w' = Done (Err AlreadyExists, w')).
Proof.
  intros Hn Hlinks Hr. destruct (remove_inv _ _ _ _ Hlinks Hr) as (fs & arc & map & p & s & id & i & D & E & R & ->).
  set (w' := with_root _ _ _). assert (dir_accessor w' d = Done (fs, arc, map, p, s)) as D' by (by destruct d).
  unfold tmp_file_list, tmp_get_file, tmp_new_file, tmp_new_dir, tmp_store. rewrite D, D'. cbn. rewrite E.
  split; [done|]. split; [|done]. rewrite (proj2 (String.eqb_neq _ _) Hn). cbn. rewrite lookup_insert_eq. cbn.
  unfold fetch, fetch_raw. cbn. by rewrite lookup_delete_eq.
Qed.

(** The option [NODEV] panics: it is passed to [FsOpts::set] as a string. *)
Lemma set_opts_nodev_panics fs i options w :
  roots w !! fs = Some i -> "NODEV" ∈ split_whitespace options -> tmp_set_opts (FRoot fs) options w = Panic.
Proof.
  intros R. cbn. rewrite R. cbn. generalize (opts_new false true) (split_whitespace options). intros o words.
  revert o. induction words as [|x words IH]; intros o Hin; cbn; [by apply elem_of_nil in Hin|].
  apply elem_of_cons in Hin as [<-|Hin]; [done|]. destruct (String.eqb x "NODEV"); [done|]. cbn. by apply IH.
Qed.

End TmpFs.

Module TmpFsWitness.
Import TmpFs.

(** A fresh file system with a file "a" that holds three bytes. *)
Definition empty_world : World := mkWorld [] ∅ 0 0 (SingleArc.mkHeap ∅ 0).
Definition fresh_fs : World := (tmpfs_new 2 empty_world).2.
Definition root_dir : File := FDir 0 0 0.
Definition or_empty {A} (o : outcome (A * World)) : World := match o with Done r => r.2 | Panic => empty_world end.
Definition sample : World := or_empty (tmp_new_file root_dir "a" (Some (mkSource (Ok 3%Z) (fun _ => Ok ([1; 2; 3]%Z, 3)))) fresh_fs).

Lemma tmpfs_write_read_witness :
  exists w', write (fun _ => 0%Z) (FNormal 0 1 1) 7 2 [8; 9]%Z sample = Done (Ok 2, w') /\
    read w' (FNormal 0 1 1) 7 1 [0; 0]%Z = Done (Ok ([2; 8]%Z, 2)) /\
    read w' (FNormal 0 1 1) 7 4 [0]%Z = Done (Err (EndOfFile, [0]%Z, 0)).
Proof.
  destruct (tmpfs_write_read (fun _ => 0%Z) sample 0 1 1 7 2 [8; 9]%Z [1; 2; 3]%Z None 1) as (w' & H1 & _ & _ & H2).
  - vm_compute. reflexivity.
  - vm_compute. reflexivity.
  - cbn. lia.
  - unfold isize_max. cbn. lia.
  - exists w'. split; [exact H1|]. split; [exact (H2 1%Z [0; 0]%Z ltac:(lia))|]. exact (H2 4%Z [0]%Z ltac:(lia)).
Defined.

Lemma tmpfs_remove_keeps_name_witness :
  let w' := or_empty (tmp_remove root_dir "a" sample) in
  tmp_file_list w' root_dir = Done (Ok ["a"]) /\ tmp_get_file w' root_dir "a" = Done (Err NotPresent) /\
  tmp_new_dir root_dir "a" w' = Done (Err AlreadyExists, w').
Proof.
  destruct (tmpfs_remove_keeps_name root_dir "a" sample (or_empty (tmp_remove root_dir "a" sample)))
    as (H1 & H2 & _ & H4 & _).
  - done.
  - repeat constructor; vm_compute; discriminate.
  - vm_compute. reflexivity.
  - split; [rewrite H1; vm_compute; reflexivity|]. split; [exact H2|exact H4].
Defined.

End TmpFsWitness.
