(* ===== verification/Vfs.v ===== *)
(** * The virtual file system

    [kernel/src/fs/vfs.rs]: path traversal, creation and removal of files, mounting.  The drivers
    are reached through [FileOps]; the theorems about created files hold for every driver with
    [FileLaws], and [VfsTmpFs] applies them to the memory file system. *)
From stdpp Require Import prelude gmap strings sorting.
From S2P Require Import Prelude SingleArc Files TmpFs.
Open Scope string_scope.

Module Vfs.

Inductive VfsError :=
| NotADirectory (depth : Z) | DoesNotExist (depth : Z) | InvalidArg | LowerLevel (e : IoError) | PathFrameError.

#[export] Instance VfsError_eq_dec : EqDecision VfsError.
Proof. solve_decision. Defined.

Record MountDescription (F : Type) := mkMount {
  md_file : F; is_fs : bool; md_dev : option string; location : string; ty : option string; options : string }.
Arguments mkMount {F}.
Arguments md_file {F}.
Arguments is_fs {F}.
Arguments md_dev {F}.
Arguments location {F}.
Arguments ty {F}.
Arguments options {F}.

(** [VirtualFileSystem] with its [DeviceCtl]: [MountPoints] and [DevOverrides]. *)
Record Vfs (F : Type) := mkVfs {
  root : F; mounts : gmap DevID (MountDescription F); dev_override : gmap (DevID * Z) (gmap string DevID) }.
Arguments mkVfs {F}.
Arguments root {F}.
Arguments mounts {F}.
Arguments dev_override {F}.

Definition usize_max : Z := 2 ^ 64 - 1.

(** [FilePath::is_absolute]. *)
Definition is_absolute (path : string) : result unit VfsError :=
  match path with
  | String a _ => if Ascii.eqb a PATH_SEPARATOR then Ok tt else Err PathFrameError
  | EmptyString => Err PathFrameError
  end.

Definition is_relative (path : string) : result unit VfsError :=
  if is_ok (is_absolute path) then Err PathFrameError else Ok tt.

Definition skipped (name : string) : bool := (String.eqb name EmptyString || String.eqb name THIS_DIR)%bool.

(** ** [DevOverrides] *)
Section Overrides.
Context (o : gmap (DevID * Z) (gmap string DevID)).

Definition in_dir (id : DevID * Z) : option (list string) :=
  option_map (fun m => merge_sort String.le (elements (dom m))) (o !! id).
Definition override_lookup (id : DevID * Z) (name : string) : option DevID := m ← o !! id; m !! name.
Definition override_store (id : DevID * Z) (name : string) (dev : DevID) : gmap (DevID * Z) (gmap string DevID) :=
  <[id := <[name := dev]> (default ∅ (o !! id))]> o.
Definition override_remove (id : DevID * Z) (name : string) : option DevID * gmap (DevID * Z) (gmap string DevID) :=
  match o !! id with
  | None => (None, o)
  | Some m =>
      match m !! name with
      | None => (None, o)
      | Some dev => (Some dev, if decide (delete name m = ∅) then delete id o else <[id := delete name m]> o)
      end
  end.
End Overrides.

Section Ops.
Context {W F : Type} `{FileOps W F}.
Implicit Types (v : Vfs F) (w : W) (f d : F).

(** ** [MountPoints] *)

(** [MountDescription::new]. *)
Definition mount_description (dev : F) (mountpoint opts : string) : MountDescription F :=
  let fs := cast_filesystem dev in
  mkMount dev fs (if fs then raw_file dev else None) mountpoint (if fs then Some (driver_name dev) else None) opts.

(** [MountPoints::insert]: [BTreeMap::insert] replaces the description of a known device. *)
Definition mounts_insert (m : gmap DevID (MountDescription F)) (id : DevID) (desc : MountDescription F) :
    result unit (MountDescription F) * gmap DevID (MountDescription F) :=
  (match m !! id with Some old => Err old | None => Ok tt end, <[id := desc]> m).

Definition dev_le (a b : DevID * MountDescription F) : Prop :=
  (major a.1 < major b.1 \/ (major a.1 = major b.1 /\ minor a.1 <= minor b.1))%Z.
#[local] Instance dev_le_dec : RelDecision dev_le.
Proof. intros a b. unfold dev_le. apply _. Defined.

(** [MountPoints::search]: the first mount, by device number, at the location or of the device. *)
Definition search (m : gmap DevID (MountDescription F)) (needle : string) : option (MountDescription F) :=
  snd <$> head (filter (fun e => location e.2 = needle \/ md_dev e.2 = Some needle) (merge_sort dev_le (map_to_list m))).

(** [VirtualFileSystem::new]. *)
Definition vfs_new (fs : F) w : outcome (Vfs F) :=
  id ← device w fs;
  let '(r, m) := mounts_insert ∅ id (mount_description fs "/" EmptyString) in
  if is_ok r then Done (mkVfs fs m ∅) else Panic.

(** [cast_dir!]. *)
Definition cast_dir w f : outcome (option F) :=
  if cast_directory f then Done (Some f)
  else if cast_filesystem f then r ← fs_root w f; Done (Some r)
  else Done None.

(** ** [open] *)
Definition open_step v w (i : Z) (file : F) (filename : string) : outcome (result F VfsError) :=
  if skipped filename then Done (Ok file)
  else
    c ← cast_dir w file;
    match c with
    | None => if decide (file_type file = Directory) then Panic else Done (Err (NotADirectory i))
    | Some dir =>
        h ← get_file_with_meta w dir filename;
        match h with
        | Err NotPresent => Done (Err (DoesNotExist i))
        | Err e => Done (Err (LowerLevel e))
        | Ok handle =>
            hit ← (if device_hint handle then
                     dd ← device w dir; Done (override_lookup (dev_override v) (dd, file_id dir) filename)
                   else Done None);
            match hit with
            | Some id => m ← unwrap (mounts v !! id); Done (Ok (md_file m))
            | None => f ← unwrap (hfile handle); Done (Ok f)
            end
        end
    end.

Fixpoint open_loop v w (i : Z) (file : F) (names : list string) : outcome (result F VfsError) :=
  match names with
  | [] => Done (Ok file)
  | n :: rest =>
      r ← open_step v w i file n;
      match r with Ok file' => open_loop v w (i + 1) file' rest | Err e => Done (Err e) end
  end.

Definition open v w (path : string) : outcome (result F VfsError) :=
  match is_absolute path with
  | Err e => Done (Err e)
  | Ok _ => r ← fs_root w (root v); open_loop v w 0 r (split PATH_SEPARATOR path)
  end.

(** ** [traverse_to_dir] *)
Definition traverse_file v w (dir : F) (name : string) : outcome (result F VfsError) :=
  if skipped name then Done (Ok dir)
  else
    r ← get_file_with_meta w dir name;
    match r with
    | Err NotPresent => Done (Err (DoesNotExist usize_max))
    | Err e => Done (Err (LowerLevel e))
    | Ok h =>
        match hfile h, device_hint h with
        | None, true =>
            dd ← device w dir;
            id ← unwrap (override_lookup (dev_override v) (dd, file_id dir) name);
            m ← unwrap (mounts v !! id); Done (Ok (md_file m))
        | Some file, true =>
            dd ← device w dir;
            Done (Ok (default file (id ← override_lookup (dev_override v) (dd, file_id dir) name; md_file <$> mounts v !! id)))
        | Some file, false => Done (Ok file)
        | None, false => Panic
        end
    end.

Fixpoint traverse_loop v w (depth : Z) (c_dir : F) (names : list string) : outcome (result (F * Z) VfsError) :=
  match names with
  | [] => Done (Ok (c_dir, depth))
  | f_name :: rest =>
      let depth := (depth + 1)%Z in
      if skipped f_name then traverse_loop v w depth c_dir rest
      else
        r ← traverse_file v w c_dir f_name;
        match r with
        | Ok f =>
            c ← cast_dir w f;
            match c with
            | Some d => traverse_loop v w depth d rest
            | None => Done (Err (NotADirectory depth))
            end
        | Err (DoesNotExist _) => Done (Err (DoesNotExist depth))
        | Err e => Done (Err e)
        end
  end.

(** The directory, the last component of the path and the depth. *)
Definition traverse_to_dir v w (path : string) : outcome (result (F * string * Z) VfsError) :=
  let names := split PATH_SEPARATOR path in
  c_dir ← fs_root w (root v);
  name ← unwrap (last names);
  r ← traverse_loop v w 0 c_dir (tail (removelast names));
  Done (match r with Ok (d, depth) => Ok (d, name, depth) | Err e => Err e end).

(** ** Creation, removal and listing *)
Definition mkdir v (path : string) w : outcome (result F VfsError * W) :=
  match is_absolute path with
  | Err e => Done (Err e, w)
  | Ok _ =>
      t ← traverse_to_dir v w path;
      match t with
      | Err e => Done (Err e, w)
      | Ok (dir, name, _) =>
          r ← new_dir dir name w;
          Done (match r.1 with Ok d => Ok d | Err e => Err (LowerLevel e) end, r.2)
      end
  end.

Definition vfs_new_file v (path : string) (src : option SourceFile) w : outcome (result unit VfsError * W) :=
  match is_absolute path with
  | Err e => Done (Err e, w)
  | Ok _ =>
      t ← traverse_to_dir v w path;
      match t with
      | Err e => Done (Err e, w)
      | Ok (dir, name, _) =>
          r ← new_file dir name src w;
          match r.1 with
          | Ok _ => Done (Ok tt, r.2)
          | Err (e, _) => e' ← unwrap e; Done (Err (LowerLevel e'), r.2)
          end
      end
  end.

(** In the last branch [file] is the device, which shadows the directory of the outer scope. *)
Definition vfs_remove v (path : string) w : outcome (result unit VfsError * Vfs F * W) :=
  match is_absolute path with
  | Err e => Done (Err e, v, w)
  | Ok _ =>
      t ← traverse_to_dir v w path;
      match t with
      | Err e => Done (Err e, v, w)
      | Ok (dir, name, _) =>
          r ← remove dir name w;
          let '(res, w') := r in
          match (res : result unit IoError) with
          | Err IsDevice =>
              dd ← device w' dir;
              match override_lookup (dev_override v) (dd, file_id dir) name with
              | None => Done (Ok tt, v, w')
              | Some id =>
                  m ← unwrap (mounts v !! id);
                  let file := md_file m in
                  if cast_filesystem file then Done (Err (LowerLevel IsDevice), v, w')
                  else
                    fd ← device w' file;
                    let '(dev, o) := override_remove (dev_override v) (fd, file_id file) name in
                    dev' ← unwrap dev;
                    Done (Ok tt, mkVfs (root v) (delete dev' (mounts v)) o, w')
              end
          | Err e => Done (Err (LowerLevel e), v, w')
          | Ok _ => Done (Ok tt, v, w')
          end
      end
  end.

Definition vfs_file_list v w (path : string) : outcome (result (list string) VfsError) :=
  match is_absolute path with
  | Err e => Done (Err e)
  | Ok _ =>
      t ← traverse_to_dir v w path;
      match t with
      | Err e => Done (Err e)
      | Ok (dir, name, depth) =>
          r ← traverse_file v w dir name;
          match r with
          | Err e => Done (Err e)
          | Ok f =>
              if cast_directory f then
                l ← file_list w f;
                match l with
                | Err e => Done (Err (LowerLevel e))
                | Ok l =>
                    dd ← device w f;
                    Done (Ok (l ++ default [] (in_dir (dev_override v) (dd, file_id f)))%list)
                end
              else Done (Err (NotADirectory (depth + 1)))
          end
      end
  end.

(** ** Mounting *)
Definition mount_dev v (dev : F) (mountpoint : string) w : outcome (result unit VfsError * Vfs F * W) :=
  match is_absolute mountpoint with
  | Err e => Done (Err e, v, w)
  | Ok _ =>
      id ← device w dev;
      if decide (id = NULL) then Done (Err InvalidArg, v, w)
      else
        p ← unwrap (rsplit_after PATH_SEPARATOR mountpoint);
        let '(path, f_name) := p in
        o ← open v w path;
        match o with
        | Err e => Done (Err e, v, w)
        | Ok dir =>
            if cast_directory dir then
              dd ← device w dir;
              fs ← unwrap (mounts v !! dd);
              if cast_filesystem (md_file fs) then
                opt ← get_opt w (md_file fs) DEV_ALLOWED;
                allowed ← unwrap opt;
                if decide (allowed = OptBool false) then Done (Err InvalidArg, v, w)
                else
                  let '(r, m) := mounts_insert (mounts v) id (mount_description dev mountpoint EmptyString) in
                  if is_ok r then
                    s ← store dir f_name dev w;
                    let '(res, w') := s in
                    match (res : result unit IoError) with
                    | Ok _ => Done (Ok tt, mkVfs (root v) m (dev_override v), w')
                    | Err NotSupported =>
                        dd' ← device w' dir;
                        Done (Ok tt, mkVfs (root v) m (override_store (dev_override v) (dd', file_id dir) f_name id), w')
                    | Err e => Done (Err (LowerLevel e), mkVfs (root v) (delete id m) (dev_override v), w')
                    end
                  else Done (Err (LowerLevel AlreadyExists), mkVfs (root v) m (dev_override v), w)
              else Panic
            else Done (Err InvalidArg, v, w)
        end
  end.

Definition mount v (fs : F) (mountpoint opts : string) w : outcome (result unit VfsError * Vfs F * W) :=
  w' ← set_opts fs opts w;
  if cast_device fs then mount_dev v fs mountpoint w' else Panic.

(** [umount] answers with the device and changes nothing. *)
Definition umount v (dev : string) : option F := md_file <$> search (mounts v) dev.

End Ops.

(** ** Created files are found *)
Section Laws.
Context {W F : Type} `{FL : FileLaws W F}.
Implicit Types (v : Vfs F) (w : W) (f d : F).

(** Every device of the override table is mounted. *)
Definition overrides_ok v : Prop :=
  forall id name dev, override_lookup (dev_override v) id name = Some dev -> is_Some (mounts v !! dev).

Lemma open_loop_app v w i f l1 l2 :
  open_loop v w i f (l1 ++ l2) =
  r ← open_loop v w i f l1;
  match r with Ok f' => open_loop v w (i + Z.of_nat (length l1)) f' l2 | Err e => Done (Err e) end.
Proof.
  revert i f. induction l1 as [|n l1 IH]; intros i f; cbn; [by rewrite Z.add_0_r|].
  destruct (open_step v w i f n) as [[f'|e]|]; cbn; [|done|done].
  rewrite IH. by replace (i + 1 + Z.of_nat (length l1))%Z with (i + Z.of_nat (S (length l1)))%Z by lia.
Qed.

Lemma open_skip v w i f n l : skipped n = true -> open_loop v w i f (n :: l) = open_loop v w (i + 1) f l.
Proof. intros Hn. cbn. unfold open_step. by rewrite Hn. Qed.

Lemma traverse_file_open v w i f dir name f' :
  overrides_ok v -> skipped name = false -> cast_dir w f = Done (Some dir) ->
  traverse_file v w dir name = Done (Ok f') -> open_step v w i f name = Done (Ok f').
Proof.
  intros Hov Hs Hc. unfold traverse_file, open_step. rewrite Hs, Hc. cbn.
  destruct (get_file_with_meta w dir name) as [[h|e]|]; cbn; [|by destruct e|done].
  destruct (hfile h) as [file|] eqn:Ef, (device_hint h) eqn:Eh; cbn; try done.
  - destruct (device w dir) as [dd|]; cbn; [|done]. destruct (override_lookup _ _ _) as [id|] eqn:El; cbn; [|done].
    destruct (Hov _ _ _ El) as [m ->]. done.
  - destruct (device w dir) as [dd|]; cbn; [|done]. by destruct (override_lookup _ _ _) as [id|].
Qed.

(** [traverse_to_dir] goes where [open] goes. *)
Lemma traverse_loop_open v w names : overrides_ok v -> forall depth i c_dir f d depth',
  cast_dir w f = Done (Some c_dir) -> traverse_loop v w depth c_dir names = Done (Ok (d, depth')) ->
  exists f', open_loop v w i f names = Done (Ok f') /\ cast_dir w f' = Done (Some d).
Proof.
  intros Hov. induction names as [|n names IH]; intros depth i c_dir f d depth' Hc; cbn [traverse_loop].
  - intros [= <- <-]. by exists f.
  - destruct (skipped n) eqn:Hs.
    + rewrite open_skip by done. by apply IH.
    + destruct (traverse_file v w c_dir n) as [[g|e]|] eqn:Ht; cbn; [|by destruct e|done].
      rewrite (traverse_file_open _ _ i _ _ _ _ Hov Hs Hc Ht). cbn.
      destruct (cast_dir w g) as [[d'|]|] eqn:Hg; cbn; try done. by apply IH.
Qed.

Lemma ext_cast_dir w w' f d : ext w w' -> cast_dir w f = Done (Some d) -> cast_dir w' f = Done (Some d).
Proof.
  intros He. unfold cast_dir. destruct (cast_directory f); [done|]. destruct (cast_filesystem f); [|done].
  destruct (fs_root w f) as [r|] eqn:E; cbn; [|done]. intros [= <-]. by rewrite (ext_root _ _ _ _ He E).
Qed.

Lemma ext_open_step v w w' i f n g : ext w w' -> open_step v w i f n = Done (Ok g) -> open_step v w' i f n = Done (Ok g).
Proof.
  intros He. unfold open_step. destruct (skipped n); [done|].
  destruct (cast_dir w f) as [[d|]|] eqn:Hc; cbn; [|by case_decide|done]. rewrite (ext_cast_dir _ _ _ _ He Hc). cbn.
  destruct (get_file_with_meta w d n) as [[h|e]|] eqn:Hg; cbn; [|by destruct e|done].
  destruct (ext_lookup _ _ _ _ _ He Hg) as (h' & -> & Hf & Hh). cbn. rewrite Hh, Hf.
  destruct (device_hint h); [|done]. destruct (device w d) as [dd|] eqn:Hd; cbn; [|done].
  by rewrite (ext_device _ _ _ _ He Hd).
Qed.

Lemma ext_open_loop v w w' names : ext w w' -> forall i f g,
  open_loop v w i f names = Done (Ok g) -> open_loop v w' i f names = Done (Ok g).
Proof.
  intros He. induction names as [|n names IH]; intros i f g; cbn; [done|].
  destruct (open_step v w i f n) as [[f'|e]|] eqn:E; cbn; [|done|done].
  rewrite (ext_open_step _ _ _ _ _ _ _ He E). cbn. apply IH.
Qed.

Lemma removelast_app_last {A} (l : list A) x : last l = Some x -> l = (removelast l ++ [x])%list.
Proof.
  induction l as [|a l IH]; [done|]. destruct l as [|b l]; [by intros [= ->]|]. intros Hl. cbn in *. f_equal. by apply IH.
Qed.

(** After [traverse_to_dir], [open] looks the last component up in the directory that was found. *)
Lemma traverse_open v w w' path d name depth :
  overrides_ok v -> is_absolute path = Ok tt -> traverse_to_dir v w path = Done (Ok (d, name, depth)) -> ext w w' ->
  exists f i, cast_dir w' f = Done (Some d) /\ open v w' path = open_loop v w' i f [name].
Proof.
  intros Hov Habs Ht He. unfold traverse_to_dir, open in *. rewrite Habs.
  destruct (fs_root w (root v)) as [r|] eqn:Hr; [|done]. rewrite (ext_root _ _ _ _ He Hr). cbn [mbind outcome_bind] in *.
  destruct path as [|a path]; [done|]. cbn [is_absolute] in Habs. cbn [split] in *.
  destruct (Ascii.eqb a PATH_SEPARATOR); [|done]. rewrite open_skip by done.
  pose proof (split_nonempty PATH_SEPARATOR path) as Hne. set (names := split PATH_SEPARATOR path) in *. clearbody names.
  assert (removelast (EmptyString :: names) = EmptyString :: removelast names) as Hrl by (by destruct names).
  assert (last (EmptyString :: names) = last names) as Hla by (by destruct names). rewrite Hrl, Hla in Ht. cbn [tail] in Ht.
  destruct (last names) as [x|] eqn:Hlast; cbn in Ht; [|done].
  destruct (traverse_loop v w 0 r (removelast names)) as [[[d' depth']|e]|] eqn:Hloop; cbn in Ht; try done.
  injection Ht as -> -> ->. pose proof (root_directory _ _ _ Hr) as Hrd.
  destruct (traverse_loop_open v w _ Hov 0 (0 + 1) r r d depth ltac:(unfold cast_dir; by rewrite Hrd) Hloop) as (f & Hf & Hc).
  exists f, (0 + 1 + Z.of_nat (length (removelast names)))%Z. split; [by eapply ext_cast_dir|].
  rewrite (removelast_app_last names name Hlast) at 1. rewrite open_loop_app.
  by rewrite (ext_open_loop _ _ _ _ He _ _ _ Hf).
Qed.

(** The last step of [open] at a file that the driver finds and that is not hinted to be a device. *)
Lemma open_last v w i f d name h g :
  skipped name = false -> cast_dir w f = Done (Some d) -> get_file_with_meta w d name = Done (Ok h) ->
  hfile h = Some g -> device_hint h = false -> open_loop v w i f [name] = Done (Ok g).
Proof. intros Hs Hc Hg Hf Hh. cbn. unfold open_step. rewrite Hs, Hc. cbn. rewrite Hg. cbn. rewrite Hh. cbn. by rewrite Hf. Qed.

(** The last component of a path. *)
Definition file_name (path : string) : string := default EmptyString (last (split PATH_SEPARATOR path)).

Lemma traverse_name v w path d name depth : traverse_to_dir v w path = Done (Ok (d, name, depth)) -> name = file_name path.
Proof.
  unfold traverse_to_dir, file_name. destruct (fs_root w (root v)); cbn [mbind outcome_bind]; [|done].
  destruct (last _); cbn; [|done]. destruct (traverse_loop _ _ _ _ _) as [[[]|]|]; cbn; try done. by intros [= <- <- <-].
Qed.

(** C16. Files that are created are found: after a successful [mkdir] the path opens to the new
    directory, and after a successful [new_file] it opens to a file, at any depth and through any
    number of mounted file systems and VFS-managed devices, for every driver that keeps the
    directory contract.  The last component must name a file (it is not empty, "." or ".."). *)
Theorem vfs_create_open v w path w' :
  overrides_ok v -> skipped (file_name path) = false -> file_name path <> PARENT_DIR ->
  (forall d, mkdir v path w = Done (Ok d, w') -> open v w' path = Done (Ok d)) /\
  (forall src, vfs_new_file v path src w = Done (Ok tt, w') -> exists f, open v w' path = Done (Ok f)).
Proof.
  intros Hov Hs Hn. split; [intros d|intros src]; unfold mkdir, vfs_new_file.
  - destruct (is_absolute path) as [[]|] eqn:Habs; [|done].
    destruct (traverse_to_dir v w path) as [[[[dir name] depth]|e]|] eqn:Ht; cbn; try done.
    destruct (new_dir dir name w) as [[[d'|e] w1]|] eqn:Hd; cbn; try done. intros [= -> ->].
    pose proof (traverse_name _ _ _ _ _ _ Ht). subst name.
    destruct (new_dir_found _ _ _ _ _ Hn Hd) as (He & _ & h & Hg & Hf & Hh).
    destruct (traverse_open v w w' path dir _ depth Hov Habs Ht He) as (f & i & Hc & ->). by eapply open_last.
  - destruct (is_absolute path) as [[]|] eqn:Habs; [|done].
    destruct (traverse_to_dir v w path) as [[[[dir name] depth]|e]|] eqn:Ht; cbn; try done.
    destruct (new_file dir name src w) as [[[[]|[[e1|] e2]] w1]|] eqn:Hd; cbn; try done. intros [= ->].
    pose proof (traverse_name _ _ _ _ _ _ Ht). subst name.
    destruct (new_file_found _ _ _ _ _ Hn Hd) as (He & h & g & Hg & Hf & Hh). exists g.
    destruct (traverse_open v w w' path dir _ depth Hov Habs Ht He) as (f & i & Hc & ->). by eapply open_last.
Qed.

(** Without VFS-managed devices the mount table does not matter to [open]. *)
Lemma open_loop_mounts v v' w names : dev_override v = ∅ -> dev_override v' = ∅ -> forall i f,
  open_loop v w i f names = open_loop v' w i f names.
Proof.
  intros Hv Hv'.
  assert (forall i f n, open_step v w i f n = open_step v' w i f n) as Hstep.
  { intros i f n. unfold open_step, override_lookup. rewrite Hv, Hv'. destruct (skipped n); [done|].
    destruct (cast_dir w f) as [[d|]|]; cbn; try done. destruct (get_file_with_meta w d n) as [[h|e]|]; cbn; try done.
    destruct (device_hint h); [|done]. by destruct (device w d). }
  induction names as [|n names IH]; intros i f; cbn; [done|]. rewrite Hstep.
  destruct (open_step v' w i f n) as [[g|e]|]; cbn; [|done|done]. apply IH.
Qed.

(** What a successful native [mount_dev] did. *)
Lemma mount_dev_inv v w dev path v' w' :
  (forall d r, store d (file_name path) dev w = Done r -> r.1 <> Err NotSupported) ->
  mount_dev v dev path w = Done (Ok tt, v', w') ->
  is_absolute path = Ok tt /\ exists init r dir id,
    split PATH_SEPARATOR path = (init ++ [file_name path])%list /\ fs_root w (root v) = Done r /\
    open_loop v w 0 r init = Done (Ok dir) /\ cast_directory dir = true /\
    (exists dd, device w dir = Done dd) /\
    store dir (file_name path) dev w = Done (Ok tt, w') /\ device w dev = Done id /\ mounts v !! id = None /\
    v' = mkVfs (root v) (<[id := mount_description dev path EmptyString]> (mounts v)) (dev_override v).
Proof.
  intros Hnat. unfold mount_dev. destruct (is_absolute path) as [[]|] eqn:Habs; [|done].
  destruct (device w dev) as [id|]; cbn [mbind outcome_bind]; [|done]. case_decide; [done|].
  destruct (rsplit_after PATH_SEPARATOR path) as [[p n]|] eqn:Hr; cbn [unwrap mbind outcome_bind]; [|done].
  destruct (rsplit_split _ _ _ _ Hr) as (init & Hp & Hs & _).
  assert (file_name path = n) as Hn by (unfold file_name; by rewrite Hs, last_snoc). rewrite Hn in *.
  unfold open. destruct (is_absolute p) as [[]|]; [|done]. destruct (fs_root w (root v)) as [r|] eqn:Hroot; [|done].
  cbn [mbind outcome_bind]. rewrite Hp, open_loop_app. destruct (open_loop v w 0 r init) as [[dir|e]|] eqn:Ho; cbn; try done.
  destruct (cast_directory dir) eqn:Hc; [|done]. destruct (device w dir) as [dd|] eqn:Hdd; cbn; [|done].
  destruct (mounts v !! dd) as [fs|]; cbn; [|done]. destruct (cast_filesystem (md_file fs)); [|done].
  destruct (get_opt w (md_file fs) DEV_ALLOWED) as [[opt|]|]; cbn; try done. case_decide; [done|].
  destruct (mounts v !! id) eqn:Hid; cbn; [done|].
  destruct (store dir n dev w) as [[res w1]|] eqn:Hst; cbn; [|done]. pose proof (Hnat _ _ Hst) as Hres. cbn in Hres.
  destruct res as [[]|e]; [|by destruct e]. intros [= <- <-]. split; [done|]. exists init, r, dir, id. eauto 20.
Qed.

(** Mounting works: after a successful mount through the driver of the parent directory, the
    mount point opens to the mounted device, and a path below it is resolved starting from that
    device, so for a file system in its root directory.  The device is recorded in the mount table
    with its mount point; it was not mounted before. *)
Theorem vfs_mount_open v w dev path v' w' m :
  dev_override v = ∅ -> cast_device dev = true -> skipped (file_name path) = false -> file_name path <> PARENT_DIR ->
  (forall d r, store d (file_name path) dev w = Done r -> r.1 <> Err NotSupported) ->
  mount_dev v dev path w = Done (Ok tt, v', w') -> file_meta w' dev = Done (Ok m) ->
  open v' w' path = Done (Ok dev) /\
  (forall rest, open v' w' (path +:+ String PATH_SEPARATOR rest) =
     open_loop v' w' (Z.of_nat (length (split PATH_SEPARATOR path))) dev (split PATH_SEPARATOR rest)) /\
  exists id, device w dev = Done id /\ mounts v !! id = None /\
    mounts v' = <[id := mount_description dev path EmptyString]> (mounts v).
Proof.
  intros Hov Hdev Hs Hn Hnat Hm Hmeta. destruct (mount_dev_inv _ _ _ _ _ _ Hnat Hm)
    as (Habs & init & r & dir & id & Hsp & Hr & Ho & Hc & (dd & Hdd) & Hst & Hid & Hnone & ->).
  set (v' := mkVfs _ _ _). destruct (store_found _ _ _ _ _ _ Hn Hdev Hst Hmeta) as (He & h & Hg & Hf).
  assert (open_loop v' w' 0 r (split PATH_SEPARATOR path) = Done (Ok dev)) as Hopen.
  { rewrite Hsp, open_loop_app, (open_loop_mounts v' v) by done. rewrite (ext_open_loop _ _ _ _ He _ _ _ Ho). cbn.
    unfold open_step, cast_dir, override_lookup. rewrite Hs, Hc. cbn. rewrite Hg, Hov. cbn.
    rewrite (ext_device _ _ _ _ He Hdd), Hf. cbn. by destruct (device_hint h). }
  assert (fs_root w' (root v') = Done r) as Hr' by exact (ext_root _ _ _ _ He Hr).
  split; [unfold open; rewrite Habs, Hr'; exact Hopen|]. split; [|by exists id].
  intros rest. unfold open. rewrite split_join. destruct path as [|a path]; [done|].
  change (is_absolute (String a path +:+ _)) with (is_absolute (String a path)). rewrite Habs, Hr'.
  cbn [mbind outcome_bind]. rewrite open_loop_app, Hopen. done.
Qed.

End Laws.
End Vfs.

(** The virtual file system over the memory file system. *)
Module VfsTmpFs.
Import Vfs TmpFs TmpFsWitness.

(** A file of the memory file system as the source of a copy. *)
Definition source_of (w : World) (f : File) (obj : nat) : SourceFile :=
  mkSource (match len_chars w f with Done r => r | Panic => Err NotPresent end)
    (fun buff => match read w f obj 0 buff with
                 | Done (Ok r) => Ok r
                 | Done (Err (e, _, _)) => Err e
                 | Panic => Err NotPresent
                 end).

(** Copying an empty file panics: reading at position 0 of an empty file answers [EndOfFile],
    which [new_file] of the directory reports as an error of the source, and
    [VirtualFileSystem::new_file] unwraps the error of the directory, which is absent. *)
Theorem vfs_copy_empty_panics v w path fs arc s obj lock serial dfs darc x name depth map p ds :
  arcs w !! arc = Some (FileAccessor [] lock serial) -> SingleArc.cmp_t lock obj (lock_heap w) = Done true ->
  is_absolute path = Ok tt -> traverse_to_dir v w path = Done (Ok (FDir dfs darc x, name, depth)) ->
  arcs w !! darc = Some (DirAccessor map p ds) -> map !! name = None -> is_Some (roots w !! dfs) ->
  vfs_new_file v path (Some (source_of w (FNormal fs arc s) obj)) w = Panic.
Proof.
  intros Ha Hl Habs Ht Hd Hn [i Hi].
  assert (copy_source (source_of w (FNormal fs arc s) obj) = Err EndOfFile) as Hcopy.
  { unfold copy_source, source_of, len_chars, read. cbn. rewrite Ha. cbn. rewrite Hl. done. }
  unfold vfs_new_file. rewrite Habs, Ht. cbn. unfold tmp_new_file. cbn -[inner_new_file copy_source]. rewrite Hd.
  cbn -[inner_new_file copy_source]. rewrite Hn, Hi, Hcopy.
  by case_bool_decide.
Qed.

(** ".." in the root directory of a file system panics. *)
Lemma open_parent_panics v w fs arc x map s :
  dev_override v = ∅ -> tmp_root w (root v) = Done (FDir fs arc x) -> arcs w !! arc = Some (DirAccessor map s s) ->
  is_Some (roots w !! fs) -> open v w "/.." = Panic.
Proof.
  intros Hov Hr Ha [i Hi]. unfold open. change (is_absolute "/..") with (@Ok unit VfsError tt). cbn [fs_root tmpfs_ops]. rewrite Hr.
  change (split PATH_SEPARATOR "/..") with [EmptyString; ".."]. cbn. unfold open_step. cbn. unfold tmp_get_file_with_meta. cbn.
  rewrite Ha. cbn. unfold is_root. rewrite Z.eqb_refl. cbn. rewrite Hi. cbn. unfold override_lookup. by rewrite Hov.
Qed.

(** ** Concrete systems *)

(** Two memory file systems; the first is the root of the virtual file system. *)
Definition two_fs : World := (tmpfs_new 2 fresh_fs).2.
Definition or_vfs (o : outcome (Vfs File)) : Vfs File := match o with Done v => v | Panic => mkVfs (FRoot 0) ∅ ∅ end.
Definition vfs0 : Vfs File := or_vfs (vfs_new (FRoot 0) two_fs).

Lemma vfs0_overrides : overrides_ok vfs0.
Proof. intros id name dev. vm_compute. by destruct id as [[[] []] []]. Qed.

Definition made : World := or_empty (mkdir vfs0 "/usr" two_fs).

Lemma vfs_create_open_witness :
  open vfs0 (or_empty (mkdir vfs0 "/usr/./lib" made)) "/usr/./lib" = Done (Ok (FDir 0 3 2)) /\
  exists f, open vfs0 (or_empty (vfs_new_file vfs0 "//usr/file" None made)) "//usr/file" = Done (Ok f).
Proof.
  destruct (vfs_create_open vfs0 made "/usr/./lib" (or_empty (mkdir vfs0 "/usr/./lib" made))) as [H1 _];
    [exact vfs0_overrides|reflexivity|vm_compute; discriminate|].
  destruct (vfs_create_open vfs0 made "//usr/file" (or_empty (vfs_new_file vfs0 "//usr/file" None made))) as [_ H2];
    [exact vfs0_overrides|reflexivity|vm_compute; discriminate|].
  split; [apply H1; vm_compute; reflexivity|]. apply (H2 None). vm_compute. reflexivity.
Defined.

Definition mnt : outcome (result unit VfsError * Vfs File * World) := mount_dev vfs0 (FRoot 1) "/mnt" two_fs.
Definition mnt_vfs : Vfs File := match mnt with Done (_, v, _) => v | Panic => vfs0 end.
Definition mnt_world : World := match mnt with Done (_, _, w) => w | Panic => two_fs end.

Lemma tmpfs_store_native d n f w r : tmp_store d n f w = Done r -> r.1 <> Err NotSupported.
Proof.
  unfold tmp_store. destruct (dir_accessor w d) as [[[[[fs arc] map] p] s]|]; [|done]. cbn.
  destruct (map !! n); [by intros [= <-]|]. destruct (tmp_cast_device f); [|by intros [= <-]].
  destruct (roots w !! fs) as [i|]; cbn -[store_dev]; [|done]. unfold store_dev. cbn. case_bool_decide; cbn; [done|]. by intros [= <-].
Qed.

Lemma vfs_mount_open_witness :
  open mnt_vfs mnt_world "/mnt" = Done (Ok (FRoot 1)) /\
  open mnt_vfs mnt_world "/mnt/dir" = open_loop mnt_vfs mnt_world 2 (FRoot 1) ["dir"].
Proof.
  destruct (new_from_file mnt_world (FRoot 1)) as [[m|e]|] eqn:Hm; [|discriminate Hm|discriminate Hm].
  destruct (vfs_mount_open vfs0 two_fs (FRoot 1) "/mnt" mnt_vfs mnt_world m) as (H1 & H2 & _).
  - reflexivity.
  - reflexivity.
  - reflexivity.
  - vm_compute. discriminate.
  - intros d r. apply tmpfs_store_native.
  - vm_compute. reflexivity.
  - exact Hm.
  - split; [exact H1|]. exact (H2 "dir").
Defined.

Definition with_empty : World := or_empty (vfs_new_file vfs0 "/empty" None two_fs).

Lemma vfs_copy_empty_panics_witness :
  vfs_new_file vfs0 "/copy" (Some (source_of with_empty (FNormal 0 2 1) 5)) with_empty = Panic.
Proof.
  apply (vfs_copy_empty_panics vfs0 with_empty "/copy" 0 2 1 5 None 1 0 0 0 "copy" 0 {["empty" := 1%Z]} 0 0);
    first [reflexivity | vm_compute; reflexivity | vm_compute; by eexists].
Defined.

(** A mounted file system is not a [Directory], so its mount point cannot be listed and nothing
    can be mounted directly in it. *)
Lemma list_mountpoint_fails :
  vfs_file_list mnt_vfs mnt_world "/mnt" = Done (Err (NotADirectory 1)) /\
  vfs_file_list mnt_vfs mnt_world "/mnt/" = Done (Ok []) /\
  (fun r : result unit VfsError * Vfs File * World => r.1.1) <$> mount_dev mnt_vfs (FOther (mkForeign (mkDevID 9 9) 0 CharDev (Ok 1%Z) 1 true)) "/mnt/x" mnt_world
    = Done (Err InvalidArg).
Proof. split; [|split]; vm_compute; reflexivity. Qed.

(** A second mount of a device is refused, but the description of the first mount is replaced. *)
Lemma mount_again_replaces :
  (fun r : result unit VfsError * Vfs File * World => (r.1.1, location <$> mounts r.1.2 !! mkDevID 2 1))
    <$> mount_dev mnt_vfs (FRoot 1) "/other" mnt_world = Done (Err (LowerLevel AlreadyExists), Some "/other").
Proof. vm_compute. reflexivity. Qed.

(** With a trailing slash [mkdir] makes an entry with an empty name, which no path reaches. *)
Lemma mkdir_trailing_slash :
  (fun r : result File VfsError * World => (is_ok r.1, tmp_file_list r.2 (FDir 0 2 1))) <$> mkdir vfs0 "/usr/" made
    = Done (true, Done (Ok [EmptyString])).
Proof. vm_compute. reflexivity. Qed.

End VfsTmpFs.
