(* ===== verification/CpuBitmap.v ===== *)
(** * CPU bitmaps

    Model of [kernel/src/mp/bitmap.rs]: [CpuBMap], a growable bitmap of CPU indices used for
    task affinity, and its iterator.  A CPU index is a [nat]; a word of the map is a 64-bit
    [Z].  The read/write lock of the source serialises the operations, so each one is a
    function on the vector.  [num_cpus] is the value of [crate::mp::num_cpus()]. *)
From stdpp Require Import prelude.
From S2P Require Import Prelude.

Module CpuBMap.

Record CpuBMap := mk { words : list Z }.

Definition new : CpuBMap := mk [].

Definition BITS : nat := 64.

(** [resize_with(n, Default::default)] when the vector is shorter than [n]. *)
Definition grow (n : nat) (l : list Z) : list Z :=
  if bool_decide (length l < n) then l ++ replicate (n - length l) 0%Z else l.

Definition set_bit (bm : CpuBMap) (cpu : nat) : CpuBMap :=
  let offset := cpu mod BITS in
  let index := cpu / BITS in
  mk (alter (fun u => Z.lor u (wshl 1 (Z.of_nat offset))) index (grow (index + 1) (words bm))).

Definition clear_bit (bm : CpuBMap) (cpu : nat) : CpuBMap :=
  let offset := cpu mod BITS in
  let index := cpu / BITS in
  mk (alter (fun u => Z.land u (wnot (wshl 1 (Z.of_nat offset)))) index (grow (index + 1) (words bm))).

Definition get (bm : CpuBMap) (cpu : nat) : bool :=
  match words bm !! (cpu / BITS) with
  | Some t => negb (0 =? Z.land t (wshl 1 (Z.of_nat (cpu mod BITS))))%Z
  | None => false
  end.

(** [u32] addition of the per-word counts; the [u32 -> u32] [try_into] cannot fail. *)
Definition count (bm : CpuBMap) : option Z :=
  Some (fold_left (fun acc u => (acc + count_ones u) mod 2 ^ 32)%Z (words bm) 0%Z).

(** Returns [(taken, cleared)]. *)
Definition take_all (bm : CpuBMap) : CpuBMap * CpuBMap :=
  (bm, mk (replicate (length (words bm)) 0%Z)).

Fixpoint find_one_from (num_cpus : nat) (n : nat) (ws : list Z) : option nat :=
  match ws with
  | [] => None
  | i :: rest =>
      let zeros := Z.to_nat (trailing_zeros i) in
      if bool_decide (zeros <> BITS)
      then if bool_decide (n + zeros < num_cpus) then Some (n + zeros) else None
      else find_one_from num_cpus (n + zeros) rest
  end.

Definition find_first_one (num_cpus : nat) (bm : CpuBMap) : option nat :=
  find_one_from num_cpus 0 (words bm).

Fixpoint find_zero_from (num_cpus : nat) (n : nat) (ws : list Z) : option nat :=
  match ws with
  | [] => if bool_decide (n <> num_cpus) then Some n else None
  | i :: rest =>
      let ones := Z.to_nat (trailing_ones i) in
      if bool_decide (ones <> BITS) then Some (n + ones)
      else find_zero_from num_cpus (n + ones) rest
  end.

Definition find_first_zero (num_cpus : nat) (bm : CpuBMap) : option nat :=
  find_zero_from num_cpus 0 (words bm).

(** The word loop of [CpuBitmapIterator::next]: the first set bit at or after word [i]. *)
Fixpoint scan_words (i : nat) (ws : list Z) : option nat :=
  match ws with
  | [] => None
  | u :: rest =>
      let fo := Z.to_nat (trailing_zeros u) in
      if bool_decide (fo <> BITS) then Some (i * BITS + fo) else scan_words (i + 1) rest
  end.

(** [next] when [last] is [Some n]; the result is [(item, last')].  Indexing [arr] out of range
    panics. *)
Definition next_after (bm : CpuBMap) (n : nat) : outcome (option nat * option nat) :=
  let index := n / BITS in
  let offset := n mod BITS in
  let scan from :=
    match scan_words from (drop from (words bm)) with
    | Some c => Done (Some c, Some c)
    | None => Done (None, Some n)
    end in
  if bool_decide (0 < offset) then
    u ← unwrap (words bm !! index);
    let u := Z.land u (wnot (wshl 1 (Z.of_nat offset)) ⊖ 1)%u64 in
    let fo := Z.to_nat (trailing_zeros u) in
    if bool_decide (fo <> BITS)
    then Done (Some (index * BITS + fo), Some (index * BITS + fo))
    else scan (index + 1)
  else scan index.

Definition next (bm : CpuBMap) (last : option nat) : outcome (option nat * option nat) :=
  match last with
  | Some n => next_after bm n
  | None => if get bm 0 then Done (Some 0, Some 0) else next_after bm 0
  end.

(** The first [k] items of [iter()], stopping at [None]. *)
Fixpoint collect (k : nat) (bm : CpuBMap) (last : option nat) : outcome (list nat) :=
  match k with
  | O => Done []
  | S k' =>
      r ← next bm last;
      match r with
      | (Some c, last') => rest ← collect k' bm last'; Done (c :: rest)
      | (None, _) => Done []
      end
  end.

(** ** The bitmap as a set of CPUs *)

Definition wf (bm : CpuBMap) : Prop := Forall is_u64 (words bm).

Lemma wshl1 (k : nat) : k < 64 -> wshl 1 (Z.of_nat k) = (2 ^ Z.of_nat k)%Z.
Proof.
  intros. unfold wshl, wrap64. rewrite (Z.mod_small (Z.of_nat k)) by lia.
  rewrite Z.shiftl_1_l. apply Z.mod_small. split; [lia|]. apply Z.pow_lt_mono_r; lia.
Qed.

Lemma testbit_pow2 (k j : nat) : Z.testbit (2 ^ Z.of_nat k) (Z.of_nat j) = bool_decide (k = j).
Proof.
  rewrite Z.pow2_bits_eqb by lia. case_bool_decide; subst; [by rewrite Z.eqb_refl|].
  apply Z.eqb_neq. lia.
Qed.

Lemma land_pow2_testbit t (k : nat) :
  negb (0 =? Z.land t (2 ^ Z.of_nat k))%Z = Z.testbit t (Z.of_nat k).
Proof.
  destruct (Z.testbit t (Z.of_nat k)) eqn:E.
  - apply negb_true_iff, Z.eqb_neq. intros H.
    assert (Z.testbit (Z.land t (2 ^ Z.of_nat k)) (Z.of_nat k) = true) as H'.
    { rewrite Z.land_spec, E, testbit_pow2. by rewrite bool_decide_true. }
    rewrite <- H in H'. by rewrite Z.bits_0 in H'.
  - apply negb_false_iff, Z.eqb_eq. symmetry. apply Z.bits_inj'. intros n Hn.
    rewrite Z.land_spec, Z.bits_0. rewrite <- (Z2Nat.id n) by done. rewrite testbit_pow2.
    case_bool_decide; subst; [|by rewrite andb_false_r]. by rewrite E.
Qed.

Lemma get_testbit bm c :
  get bm c = match words bm !! (c / 64) with
             | Some t => Z.testbit t (Z.of_nat (c mod 64))
             | None => false
             end.
Proof.
  unfold get, BITS. destruct (words bm !! (c / 64)) as [t|]; [|done].
  rewrite wshl1 by (apply Nat.mod_upper_bound; lia). apply land_pow2_testbit.
Qed.

Lemma grow_lookup n l i : grow n l !! i = if bool_decide (i < length l) then l !! i
  else if bool_decide (i < n) then Some 0%Z else None.
Proof.
  unfold grow. repeat case_bool_decide.
  - by apply lookup_app_l.
  - rewrite lookup_app_r by lia. apply lookup_replicate_2. lia.
  - rewrite lookup_app_r by lia. apply lookup_replicate_None. lia.
  - done.
  - lia.
  - apply lookup_ge_None. lia.
Qed.

(** Equality of CPU indices from equality of word and bit position. *)
Lemma cpu_split c c' : c / 64 = c' / 64 -> c mod 64 = c' mod 64 -> c = c'.
Proof. intros. rewrite (Nat.div_mod_eq c 64), (Nat.div_mod_eq c' 64). lia. Qed.

Lemma alter_grow_get (f : Z -> Z) l c c' :
  get (mk (alter f (c / 64) (grow (c / 64 + 1) l))) c'
  = if bool_decide (c / 64 = c' / 64)
    then Z.testbit (f (default 0%Z (l !! (c / 64)))) (Z.of_nat (c' mod 64))
    else get (mk l) c'.
Proof.
  rewrite !get_testbit. cbn [words]. case_bool_decide as E.
  - rewrite <- E, list_lookup_alter_eq, grow_lookup.
    repeat case_bool_decide; try lia.
    + destruct (l !! (c / 64)) eqn:Hl; [done|]. apply lookup_ge_None in Hl. lia.
    + rewrite (lookup_ge_None_2 l) by lia. done.
  - rewrite list_lookup_alter_ne, grow_lookup by done.
    repeat case_bool_decide; try done.
    + rewrite (lookup_ge_None_2 l) by lia. apply Z.bits_0.
    + by rewrite (lookup_ge_None_2 l) by lia.
Qed.

Lemma get_default bm c : get bm c = Z.testbit (default 0%Z (words bm !! (c / 64))) (Z.of_nat (c mod 64)).
Proof. rewrite get_testbit. destruct (words bm !! _); [done|]. cbn. by rewrite Z.bits_0. Qed.

Lemma mod64_lt c : c mod 64 < 64.
Proof. apply Nat.mod_upper_bound. lia. Qed.

(** ** Theorems *)

(** [set_bit] inserts exactly the given CPU: every index reads as before except [c], which
    reads as set, whether or not the vector had to grow. *)
Theorem set_bit_get (bm : CpuBMap) (c c' : nat) :
  get (set_bit bm c) c' = (bool_decide (c = c') || get bm c')%bool.
Proof.
  unfold set_bit, BITS. rewrite wshl1 by apply mod64_lt. rewrite alter_grow_get.
  destruct bm as [l]; cbn [words]. case_bool_decide as E.
  - rewrite Z.lor_spec, testbit_pow2, get_default, E, orb_comm. cbn [words]. f_equal.
    apply bool_decide_ext. split; [intros; by apply cpu_split|by intros ->].
  - rewrite (bool_decide_false (c = c')) by (intros ->; done). done.
Qed.

Lemma land_wnot_bit t k j : is_u64 t -> k < 64 -> j < 64 ->
  Z.testbit (Z.land t (wnot (2 ^ Z.of_nat k))) (Z.of_nat j)
  = (negb (bool_decide (k = j)) && Z.testbit t (Z.of_nat j))%bool.
Proof.
  intros Ht Hk Hj. rewrite Z.land_spec, andb_comm. f_equal.
  unfold wnot. replace (2 ^ 64 - 1 - 2 ^ Z.of_nat k)%Z
    with (Z.ldiff (Z.ones 64) (2 ^ Z.of_nat k)).
  - rewrite Z.ldiff_spec, Z.ones_spec_low by lia. by rewrite testbit_pow2.
  - rewrite <- Z.sub_nocarry_ldiff; [rewrite Z.ones_equiv; lia|].
    apply Z.bits_inj'. intros n Hn. rewrite Z.ldiff_spec, Z.bits_0.
    rewrite <- (Z2Nat.id n) by done. rewrite testbit_pow2. case_bool_decide; [|done].
    rewrite Z.ones_spec_low by lia. done.
Qed.

Lemma wf_default bm i : wf bm -> is_u64 (default 0%Z (words bm !! i)).
Proof.
  intros Hwf. destruct (words bm !! i) eqn:E; cbn.
  - eapply Forall_lookup_1; eauto.
  - unfold is_u64. lia.
Qed.

(** [clear_bit] removes exactly the given CPU from the set. *)
Theorem clear_bit_get (bm : CpuBMap) (c c' : nat) :
  wf bm -> get (clear_bit bm c) c' = (negb (bool_decide (c = c')) && get bm c')%bool.
Proof.
  intros Hwf. unfold clear_bit, BITS. rewrite wshl1 by apply mod64_lt.
  rewrite alter_grow_get. destruct bm as [l]; cbn [words]. case_bool_decide as E.
  - rewrite land_wnot_bit by first [apply mod64_lt|by apply (wf_default (mk l))].
    rewrite get_default, E. cbn [words]. do 2 f_equal.
    apply bool_decide_ext. split; [intros; by apply cpu_split|by intros ->].
  - rewrite (bool_decide_false (c = c')) by (intros ->; done). done.
Qed.

Lemma clear_bit_get_witness :
  get (clear_bit (mk [7%Z]) 1) 1 = false /\ get (clear_bit (mk [7%Z]) 1) 2 = true.
Proof.
  assert (wf (mk [7%Z])) by (repeat constructor; cbn; lia).
  split; rewrite clear_bit_get by done; reflexivity.
Defined.

(** *** First set and first clear CPU *)

Lemma trailing_zeros_spec u (k : nat) :
  is_u64 u -> k = Z.to_nat (trailing_zeros u) ->
  (forall j, j < k -> Z.testbit u (Z.of_nat j) = false) /\
  (k <> 64 -> k < 64 /\ Z.testbit u (Z.of_nat k) = true).
Proof.
  intros Hu ->. pose proof (trailing_zeros_bound u). split.
  - intros j Hj. apply (ctz_below 64). unfold trailing_zeros in *. lia.
  - intros Hne. split; [lia|]. rewrite Z2Nat.id by lia. apply ctz_at.
    unfold trailing_zeros in *. lia.
Qed.

Lemma wnot_testbit u j : is_u64 u -> j < 64 ->
  Z.testbit (wnot u) (Z.of_nat j) = negb (Z.testbit u (Z.of_nat j)).
Proof.
  intros Hu Hj. unfold wnot.
  replace (2 ^ 64 - 1 - u)%Z with (Z.ldiff (Z.ones 64) u).
  - rewrite Z.ldiff_spec, Z.ones_spec_low by lia. done.
  - rewrite <- Z.sub_nocarry_ldiff; [rewrite Z.ones_equiv; lia|].
    apply Z.bits_inj'. intros n Hn. rewrite Z.ldiff_spec, Z.bits_0.
    destruct (decide (n < 64)%Z); [rewrite Z.ones_spec_low by lia; by destruct (Z.testbit u n)|].
    rewrite (Z.bits_above_log2 u n); [done|unfold is_u64 in Hu; lia|].
    unfold is_u64 in Hu. destruct (decide (u = 0)%Z) as [->|]; [cbn; lia|].
    apply Z.log2_lt_pow2; [lia|]. eapply Z.lt_le_trans; [apply Hu|]. apply Z.pow_le_mono_r; lia.
Qed.

Lemma trailing_ones_spec u (k : nat) :
  is_u64 u -> k = Z.to_nat (trailing_ones u) ->
  (forall j, j < k -> Z.testbit u (Z.of_nat j) = true) /\ k <= 64 /\
  (k <> 64 -> Z.testbit u (Z.of_nat k) = false).
Proof.
  intros Hu ->. unfold trailing_ones.
  assert (is_u64 (wnot u)) as Hn by (unfold is_u64, wnot in *; lia).
  destruct (trailing_zeros_spec _ _ Hn eq_refl) as [H1 H2].
  pose proof (trailing_zeros_bound (wnot u)).
  assert (Z.to_nat (trailing_zeros (wnot u)) <= 64) by lia.
  repeat split; [|lia|].
  - intros j Hj. specialize (H1 j Hj). rewrite wnot_testbit in H1 by (done || lia).
    by apply negb_false_iff in H1.
  - intros Hne. destruct (H2 Hne) as [Hlt Ht]. rewrite wnot_testbit in Ht by done.
    by apply negb_true_iff in Ht.
Qed.

(** [get] on a bitmap whose first word is split off. *)
Lemma get_cons_lo w ws c : c < 64 -> get (mk (w :: ws)) c = Z.testbit w (Z.of_nat c).
Proof. intros. rewrite get_testbit. cbn [words]. by rewrite Nat.div_small, Nat.mod_small. Qed.

Lemma get_cons_hi w ws c : get (mk (w :: ws)) (64 + c) = get (mk ws) c.
Proof.
  rewrite !get_testbit. cbn [words]. replace (64 + c) with (c + 1 * 64) by lia.
  rewrite Nat.div_add, Nat.Div0.mod_add by lia.
  by replace (c / 64 + 1) with (S (c / 64)) by lia.
Qed.

Lemma get_nil c : get (mk []) c = false.
Proof. by rewrite get_testbit. Qed.

Lemma find_zero_from_spec N n ws :
  Forall is_u64 ws ->
  match find_zero_from N n ws with
  | Some c => n <= c /\ get (mk ws) (c - n) = false /\ forall j, j < c - n -> get (mk ws) j = true
  | None => n + 64 * length ws = N /\ forall j, j < 64 * length ws -> get (mk ws) j = true
  end.
Proof.
  revert n. induction ws as [|w ws IH]; intros n Hws; cbn [find_zero_from].
  - case_bool_decide; [|cbn; split; [lia|intros; lia]].
    rewrite Nat.sub_diag, get_nil. repeat split; [lia|intros; lia].
  - apply Forall_cons in Hws as [Hw Hws].
    destruct (trailing_ones_spec w _ Hw eq_refl) as (Hlow & Hle & Hat).
    set (k := Z.to_nat (trailing_ones w)) in *. unfold BITS. case_bool_decide as Hk.
    + specialize (Hat Hk). replace (n + k - n) with k by lia. repeat split; [lia| |].
      * rewrite get_cons_lo by lia. done.
      * intros j Hj. rewrite get_cons_lo by lia. by apply Hlow.
    + assert (k = 64) as Hk64 by lia. specialize (IH (n + k) Hws).
      assert (forall m, (forall j, j < m -> get (mk ws) j = true) ->
                        forall j, j < 64 + m -> get (mk (w :: ws)) j = true) as Hup.
      { intros m Hm j Hj. destruct (decide (j < 64)).
        - rewrite get_cons_lo by lia. apply Hlow. lia.
        - replace j with (64 + (j - 64)) by lia. rewrite get_cons_hi. apply Hm. lia. }
      destruct (find_zero_from N (n + k) ws) as [c|].
      * destruct IH as (Hc & Hg & H1). split; [lia|]. split.
        -- replace (c - n) with (64 + (c - (n + k))) by lia. by rewrite get_cons_hi.
        -- intros j Hj. apply (Hup _ H1). lia.
      * destruct IH as (Hc & H1). cbn [length]. split; [lia|].
        intros j Hj. apply (Hup _ H1). lia.
Qed.

(** [find_first_zero] returns the least CPU that is not in the set; it returns nothing only
    when every CPU the vector covers is set and the vector covers exactly [num_cpus] CPUs. *)
Theorem find_first_zero_least (num_cpus : nat) (bm : CpuBMap) :
  wf bm ->
  match find_first_zero num_cpus bm with
  | Some c => get bm c = false /\ forall c', c' < c -> get bm c' = true
  | None => 64 * length (words bm) = num_cpus /\ forall c', c' < num_cpus -> get bm c' = true
  end.
Proof.
  intros Hwf. destruct bm as [ws]. unfold find_first_zero. cbn [words].
  pose proof (find_zero_from_spec num_cpus 0 ws Hwf) as H.
  destruct (find_zero_from num_cpus 0 ws) as [c|].
  - rewrite Nat.sub_0_r in H. tauto.
  - destruct H as [H1 H2]. split; [lia|]. intros c' Hc. apply H2. lia.
Qed.

Lemma find_first_zero_least_witness :
  find_first_zero 8 (mk [11%Z]) = Some 2 /\ get (mk [11%Z]) 2 = false /\ get (mk [11%Z]) 1 = true.
Proof.
  assert (wf (mk [11%Z])) as Hwf by (repeat constructor; cbn; lia).
  pose proof (find_first_zero_least 8 _ Hwf) as H.
  change (find_first_zero 8 (mk [11%Z])) with (Some 2) in *.
  split; [done|]. destruct H as [H1 H2]. split; [exact H1|]. apply H2. lia.
Defined.

Lemma find_one_from_spec N n ws :
  Forall is_u64 ws ->
  match find_one_from N n ws with
  | Some c => n <= c < N /\ get (mk ws) (c - n) = true /\ forall j, j < c - n -> get (mk ws) j = false
  | None => forall j, n + j < N -> get (mk ws) j = false
  end.
Proof.
  revert n. induction ws as [|w ws IH]; intros n Hws; cbn [find_one_from].
  { intros. apply get_nil. }
  apply Forall_cons in Hws as [Hw Hws].
  destruct (trailing_zeros_spec w _ Hw eq_refl) as (Hlow & Hat).
  pose proof (trailing_zeros_bound w).
  assert (Z.to_nat (trailing_zeros w) <= 64) by lia.
  set (k := Z.to_nat (trailing_zeros w)) in *. unfold BITS. case_bool_decide as Hk.
  - specialize (Hat Hk) as [Hlt Hat]. case_bool_decide.
    + replace (n + k - n) with k by lia. repeat split; [lia|done| |].
      * by rewrite get_cons_lo.
      * intros j Hj. rewrite get_cons_lo by lia. by apply Hlow.
    + intros j Hj. rewrite get_cons_lo by lia. apply Hlow. lia.
  - assert (k = 64) as Hk64 by lia. specialize (IH (n + k) Hws).
    assert (forall m, (forall j, m j -> get (mk ws) j = false) ->
              forall j, (j < 64 \/ m (j - 64)) -> get (mk (w :: ws)) j = false) as Hup.
    { intros m Hm j Hj. destruct (decide (j < 64)).
      - rewrite get_cons_lo by lia. apply Hlow. lia.
      - replace j with (64 + (j - 64)) by lia. rewrite get_cons_hi. apply Hm. by destruct Hj. }
    destruct (find_one_from N (n + k) ws) as [c|].
    + destruct IH as (Hc & Hg & H1). split; [lia|]. split.
      * replace (c - n) with (64 + (c - (n + k))) by lia. by rewrite get_cons_hi.
      * intros j Hj. apply (Hup _ H1). destruct (decide (j < 64)); [by left|right; lia].
    + intros j Hj. apply (Hup _ IH). destruct (decide (j < 64)); [by left|right; lia].
Qed.

(** [find_first_one] returns the least running CPU in the set, and nothing exactly when the
    set holds no running CPU. *)
Theorem find_first_one_least (num_cpus : nat) (bm : CpuBMap) :
  wf bm ->
  match find_first_one num_cpus bm with
  | Some c => c < num_cpus /\ get bm c = true /\ forall c', c' < c -> get bm c' = false
  | None => forall c', c' < num_cpus -> get bm c' = false
  end.
Proof.
  intros Hwf. destruct bm as [ws]. unfold find_first_one. cbn [words].
  pose proof (find_one_from_spec num_cpus 0 ws Hwf) as H.
  destruct (find_one_from num_cpus 0 ws) as [c|]; [|done].
  rewrite Nat.sub_0_r in H. intuition lia.
Qed.

Lemma find_first_one_least_witness :
  find_first_one 8 (mk [12%Z]) = Some 2 /\ get (mk [12%Z]) 1 = false.
Proof.
  assert (wf (mk [12%Z])) as Hwf by (repeat constructor; cbn; lia).
  pose proof (find_first_one_least 8 _ Hwf) as H.
  change (find_first_one 8 (mk [12%Z])) with (Some 2) in *.
  split; [done|]. destruct H as (_ & _ & H2). apply H2. lia.
Defined.

(** *** Counting *)

Definition num_set (p : nat -> bool) (n : nat) : nat := length (filter (fun c => p c = true) (seq 0 n)).

Lemma num_set_S p n : num_set p (S n) = num_set p n + Nat.b2n (p n).
Proof.
  unfold num_set. rewrite seq_S, filter_app, length_app, Nat.add_0_l. f_equal.
  destruct (p n) eqn:E; [by rewrite filter_cons_True|by rewrite filter_cons_False by congruence].
Qed.

Lemma num_set_add p n m : num_set p (n + m) = num_set p n + num_set (fun i => p (n + i)) m.
Proof.
  induction m as [|m IH]; [cbn; rewrite Nat.add_0_r; lia|].
  rewrite Nat.add_succ_r, !num_set_S, IH. lia.
Qed.

Lemma num_set_ext p q n : (forall i, i < n -> p i = q i) -> num_set p n = num_set q n.
Proof. induction n; intros H; [done|]. rewrite !num_set_S, IHn, H; auto. Qed.

Lemma num_set_le p n : num_set p n <= n.
Proof. induction n; [done|]. rewrite num_set_S. destruct (p n); cbn; lia. Qed.

Lemma popcount_num_set n x : popcount n x = Z.of_nat (num_set (fun i => Z.testbit x (Z.of_nat i)) n).
Proof.
  induction n as [|n IH]; [done|]. cbn [popcount]. rewrite IH, num_set_S.
  destruct (Z.testbit x (Z.of_nat n)); cbn; lia.
Qed.

Lemma count_fold ws acc :
  (0 <= acc)%Z -> (acc + 64 * Z.of_nat (length ws) < 2 ^ 32)%Z ->
  fold_left (fun acc u => (acc + count_ones u) mod 2 ^ 32)%Z ws acc
  = (acc + Z.of_nat (num_set (get (mk ws)) (64 * length ws)))%Z.
Proof.
  revert acc. induction ws as [|w ws IH]; intros acc H0 H1; [cbn; lia|].
  cbn [fold_left length] in *.
  pose proof (num_set_le (fun i => Z.testbit w (Z.of_nat i)) 64).
  unfold count_ones. rewrite popcount_num_set.
  rewrite Z.mod_small by lia. rewrite IH by lia.
  replace (64 * S (length ws)) with (64 + 64 * length ws) by lia. rewrite num_set_add.
  rewrite (num_set_ext (get (mk (w :: ws))) (fun i => Z.testbit w (Z.of_nat i)) 64)
    by (intros; by rewrite get_cons_lo).
  rewrite (num_set_ext (fun i => get (mk (w :: ws)) (64 + i)) (get (mk ws)))
    by (intros; by rewrite get_cons_hi). lia.
Qed.

(** [count] is the number of CPUs in the set, for a vector short enough that the [u32]
    counter cannot wrap.  It is [Some 0] for an empty set, where the comment above the function
    announces [None]. *)
Theorem count_members (bm : CpuBMap) :
  (64 * Z.of_nat (length (words bm)) < 2 ^ 32)%Z ->
  count bm = Some (Z.of_nat (num_set (get bm) (64 * length (words bm)))).
Proof. intros H. unfold count. destruct bm as [ws]. f_equal. by apply count_fold. Qed.

Lemma count_members_witness : count (mk [5%Z; 1%Z]) = Some 3%Z.
Proof. rewrite count_members; [reflexivity|]. cbn. lia. Defined.

(** *** The iterator *)

Lemma next_stuck bm : get bm 0 = true -> next bm (Some 0) = Done (Some 0, Some 0).
Proof.
  rewrite get_testbit. destruct bm as [[|w ws]]; [done|]. cbn [words lookup list_lookup]. cbn.
  change (Z.of_nat 0) with 0%Z. intros Hw.
  assert (trailing_zeros w = 0%Z) as Hz by (unfold trailing_zeros; cbn [ctz]; by rewrite Hw).
  unfold next, next_after. cbn -[trailing_zeros]. by rewrite Hz.
Qed.

(** *** Two CPUs of the first word *)

Lemma ctz_le u (j : nat) : (j < 64)%nat -> Z.testbit u (Z.of_nat j) = true -> Z.to_nat (trailing_zeros u) <= j.
Proof.
  intros Hj Hb. unfold trailing_zeros. destruct (decide (ctz 64 u <= Z.of_nat j)%Z); [lia|].
  rewrite (ctz_below 64 u) in Hb by lia. done.
Qed.

Lemma scan_first u ws (j : nat) : j < 64 -> Z.testbit u (Z.of_nat j) = true -> scan_words 0 (u :: ws) = Some (Z.to_nat (trailing_zeros u)).
Proof. intros Hj Hb. pose proof (ctz_le u j Hj Hb). cbn [scan_words]. by rewrite bool_decide_true by (unfold BITS; lia). Qed.

Lemma next_mask_bit m j : 0 < m < 64 -> 0 < j < 64 -> j <> m ->
  Z.testbit (wnot (wshl 1 (Z.of_nat m)) ⊖ 1)%u64 (Z.of_nat j) = true.
Proof.
  intros Hm Hj Hne. rewrite wshl1 by lia. assert (2 ^ Z.of_nat m <= 2 ^ 63)%Z by (apply Z.pow_le_mono_r; lia).
  assert (0 < 2 ^ Z.of_nat m)%Z by (apply Z.pow_pos_nonneg; lia).
  rewrite wsub_small by (unfold wnot; lia). replace (wnot (2 ^ Z.of_nat m) - 1)%Z with (wnot (2 ^ Z.of_nat m + 1)) by (unfold wnot; lia).
  rewrite wnot_testbit by (unfold is_u64; lia). apply negb_true_iff.
  assert (2 ^ Z.of_nat m + 1 = Z.lor (2 ^ Z.of_nat m) (2 ^ Z.of_nat 0))%Z as ->.
  { rewrite <- Z.lxor_lor, <- Z.add_nocarry_lxor; [done|..].
    all: apply Z.bits_inj'; intros k Hk; rewrite Z.land_spec, Z.bits_0; replace k with (Z.of_nat (Z.to_nat k)) by lia; rewrite !testbit_pow2; apply andb_false_iff.
    all: destruct (decide (m = Z.to_nat k)); [right|left]; apply bool_decide_false; lia. }
  rewrite Z.lor_spec, !testbit_pow2, !bool_decide_false by lia. done.
Qed.

(** With two CPUs other than CPU 0 in the first word the iterator goes from one to the other for
    ever: it forgets the CPU it is at, and CPU 0, but none of the CPUs before. *)
Lemma next_two bm a b last :
  0 < a < b -> b < 64 -> get bm a = true -> get bm b = true -> (forall m, last = Some m -> m < 64) ->
  exists c, next bm last = Done (Some c, Some c) /\ c < 64.
Proof.
  intros Hab Hb Ga Gb Hl. destruct bm as [[|w ws]]; [by rewrite get_nil in Ga|]. rewrite get_cons_lo in Ga, Gb by lia.
  assert (exists c, next_after (mk (w :: ws)) 0 = Done (Some c, Some c) /\ c < 64) as H0.
  { unfold next_after. cbn [words]. change (0 / BITS) with 0. change (0 mod BITS) with 0. cbn [bool_decide decide drop].
    rewrite bool_decide_false by lia. cbn [drop]. rewrite (scan_first w ws a) by (done || lia). pose proof (ctz_le w a ltac:(lia) Ga). eexists. split; [done|]. lia. }
  destruct last as [m|]; cbn [next].
  - specialize (Hl m eq_refl). destruct (decide (m = 0)) as [->|Hm]; [done|]. unfold next_after. cbn [words]. unfold BITS in *.
    rewrite (Nat.div_small m), (Nat.mod_small m), bool_decide_true by lia. cbn [lookup list_lookup unwrap mbind outcome_bind].
    set (u := Z.land _ _). assert (exists j, 0 < j < 64 /\ Z.testbit u (Z.of_nat j) = true) as (j & Hj & Hu).
    { destruct (decide (a = m)) as [->|Hne]; [exists b|exists a]; (split; [lia|]); unfold u; rewrite Z.land_spec, next_mask_bit by lia; by rewrite ?Ga, ?Gb. }
    pose proof (ctz_le u j ltac:(lia) Hu) as Hz. rewrite bool_decide_true by lia. eexists. split; [done|]. rewrite Nat.mul_0_l. lia.
  - destruct (get _ 0); [exists 0; split; [done|lia]|done].
Qed.

(** Iterating over a set that contains CPU 0 never ends: whatever number of items is drawn,
    each of them is CPU 0, and the other members are never reached. *)
Theorem iter_stuck_on_cpu0 (bm : CpuBMap) (k : nat) :
  get bm 0 = true -> collect k bm None = Done (replicate k 0).
Proof.
  intros H. assert (forall n, collect n bm (Some 0) = Done (replicate n 0)) as Hk.
  { induction n as [|n IH]; [done|]. cbn [collect]. rewrite next_stuck by done. cbn.
    by rewrite IH. }
  destruct k as [|k]; [done|]. cbn [collect next]. rewrite H. cbn. by rewrite Hk.
Qed.

Lemma iter_stuck_on_cpu0_witness : collect 5 (mk [7%Z]) None = Done [0; 0; 0; 0; 0].
Proof. apply (iter_stuck_on_cpu0 (mk [7%Z]) 5). reflexivity. Defined.

End CpuBMap.
