(* ===== verification/Tlb.v ===== *)
(** * TLB shootdowns

    The protocol half of [kernel/src/mem/tlb.rs]: how a CPU makes all CPUs forget translations.
    The statics [SHOOTDOWN_LIST] ([master], [guest], [data]), [SHOOTDOWN_SYNC] ([lock], [count])
    and the per-CPU [MASK_SHOOTDOWN] are the shared state; every CPU has a thread, which may be
    inside [shootdown] or [target_shootdown], an interrupt handler, which may be inside
    [handle_shootdown], and a translation cache.  Each access to an atomic is one step, so a
    schedule is any interleaving of the accesses of all CPUs; a failed [compare_exchange_weak] or a
    turn of a spin loop leaves the state as it is.

    [tlb] maps 4 KiB pages to the entry the CPU has cached, [pt] to the entry in memory.  A CPU may
    cache an entry at any time, and the entries in memory may change at any time. *)
From stdpp Require Import prelude gmap relations.
From S2P Require Import Prelude FrameAlloc PageTable TlbEntry CpuBitmap.
Open Scope Z_scope.

Abbreviation CpuBMap := CpuBMap.CpuBMap.

(** Where [handle_shootdown] is: the two loads of [visit], its loop, entering, reading the
    content, the instructions left of [invalidate], dropping the visitor's guard, [shoot]. *)
Inductive Hpc :=
| HVisit | HLoad | HLoop (m : bool) | HEnter | HRead | HFlush (l : list Flush) | HLeave | HShoot
| HUnwrapNone | HAborted.

(** The arguments of a call: the count to synchronise with, the targets ([None] for all other
    CPUs), whether this CPU handles the shootdown too, and the content. *)
Record Op := mkOp { op_count : Z; op_targets : option CpuBMap; op_self : bool; op_content : ShootdownContent }.

(** Where [shootdown] or [target_shootdown] is: [set], [sync] with its closure, and the drop of the
    guard that [set] returned. *)
Inductive Pc :=
| Idle
| SetSpin (op : Op) | SetWrite (op : Op) | SetGuest (op : Op)
| SyncSpin (op : Op) | SyncStore (op : Op) | Send (op : Op) | SendTo (op : Op) (last : option nat)
| Handle (op : Op) (h : Hpc) | Wait (op : Op) | Unlock (op : Op)
| DropWait (op : Op) | DropSub (op : Op) | DropData (op : Op) | DropNested (op : Op) | DropMaster (op : Op)
| Panicked.

Record Cpu := mkCpu { thread : Pc; handler : option Hpc; pending : bool; mask : bool; tlb : gmap Z Z }.

Record Sys := mkSys {
  master : bool; guest : Z; data : ShootdownContent; lock : bool; count : Z; SHOOTDOWN_WARN : Z;
  pt : gmap Z Z; cpus : list Cpu }.

Definition set_master (b : bool) (s : Sys) : Sys := mkSys b (guest s) (data s) (lock s) (count s) (SHOOTDOWN_WARN s) (pt s) (cpus s).
Definition set_guest (g : Z) (s : Sys) : Sys := mkSys (master s) g (data s) (lock s) (count s) (SHOOTDOWN_WARN s) (pt s) (cpus s).
Definition set_data (d : ShootdownContent) (s : Sys) : Sys := mkSys (master s) (guest s) d (lock s) (count s) (SHOOTDOWN_WARN s) (pt s) (cpus s).
Definition set_lock (b : bool) (s : Sys) : Sys := mkSys (master s) (guest s) (data s) b (count s) (SHOOTDOWN_WARN s) (pt s) (cpus s).
Definition set_count (c : Z) (s : Sys) : Sys := mkSys (master s) (guest s) (data s) (lock s) c (SHOOTDOWN_WARN s) (pt s) (cpus s).
Definition set_warn (w : Z) (s : Sys) : Sys := mkSys (master s) (guest s) (data s) (lock s) (count s) w (pt s) (cpus s).
Definition set_pt (p : gmap Z Z) (s : Sys) : Sys := mkSys (master s) (guest s) (data s) (lock s) (count s) (SHOOTDOWN_WARN s) p (cpus s).
Definition set_cpus (l : list Cpu) (s : Sys) : Sys := mkSys (master s) (guest s) (data s) (lock s) (count s) (SHOOTDOWN_WARN s) (pt s) l.
Definition put (i : nat) (c : Cpu) (s : Sys) : Sys := set_cpus (<[i:=c]> (cpus s)) s.

Definition set_thread (p : Pc) (c : Cpu) : Cpu := mkCpu p (handler c) (pending c) (mask c) (tlb c).
Definition set_handler (h : option Hpc) (c : Cpu) : Cpu := mkCpu (thread c) h (pending c) (mask c) (tlb c).
Definition set_pending (b : bool) (c : Cpu) : Cpu := mkCpu (thread c) (handler c) b (mask c) (tlb c).
Definition set_mask (b : bool) (c : Cpu) : Cpu := mkCpu (thread c) (handler c) (pending c) b (tlb c).
Definition set_tlb (t : gmap Z Z) (c : Cpu) : Cpu := mkCpu (thread c) (handler c) (pending c) (mask c) t.

#[global] Instance idle_dec (p : Pc) : Decision (p = Idle).
Proof. destruct p; first [by left|by right]. Defined.

(** [shootdown_hint]: the counter around [f]; [ShootDownWarn] does the same with its constructor and
    its drop. *)
Definition warn_new (s : Sys) : Sys := set_warn (SHOOTDOWN_WARN s ⊕ 1)%u64 s.
Definition warn_drop (s : Sys) : Sys := set_warn (SHOOTDOWN_WARN s ⊖ 1)%u64 s.
Definition shootdown_hint {T} (f : Sys -> T * Sys) (s : Sys) : T * Sys :=
  let '(rc, s) := f (warn_new s) in (rc, warn_drop s).

(** [without_shootdowns] on the mask of the CPU that runs [f]. *)
Definition without_shootdowns {T} (f : Cpu -> T * Cpu) (c : Cpu) : T * Cpu :=
  let state := mask c in
  let '(r, c) := f (set_mask true c) in
  (r, set_mask state c).

Definition enable_shootdowns (c : Cpu) : Cpu := set_mask false c.

(** The effect of one instruction of [invalidate] on a cache: [invlpg] forgets a page, a [cr3]
    reload forgets everything that is not global (bit 8 of the entry). *)
Definition exec (f : Flush) (t : gmap Z Z) : gmap Z Z :=
  match f with
  | Invlpg a => delete (containing_address Size4KiB a) t
  | ReloadCr3 => filter (fun kv => Z.testbit kv.2 8 = true) t
  | Abort => t
  end.

Section Protocol.
Context `{VA : VirtAddrOps}.

(** One step of [handle_shootdown]: where it is afterwards ([None] when it returns), the shared
    state, and the cache. *)
Definition hstep (h : Hpc) (s : Sys) (t : gmap Z Z) : option (option Hpc * Sys * gmap Z Z) :=
  match h with
  | HVisit => Some (Some (if master s then HLoad else HUnwrapNone), s, t)
  | HLoad => Some (Some (HLoop (master s)), s, t)
  | HLoop m => Some (Some (if m && (guest s =? 0) then HLoad else HEnter), s, t)
  | HEnter => Some (Some HRead, set_guest (guest s ⊕ 1)%u64 s, t)
  | HRead => Some (Some (HFlush (invalidate (data s))), s, t)
  | HFlush [] => Some (Some HLeave, s, t)
  | HFlush (Abort :: _) => Some (Some HAborted, s, t)
  | HFlush (f :: l) => Some (Some (HFlush l), s, exec f t)
  | HLeave => Some (Some HShoot, set_guest (guest s ⊖ 1)%u64 s, t)
  | HShoot => Some (None, set_count ((count s - 1) mod 2 ^ 32) s, t)
  | HUnwrapNone | HAborted => None
  end.

(** [send_ipi(AllNotThisCpu, ..)]. *)
Definition send_others (i : nat) (l : list Cpu) : list Cpu :=
  imap (fun k c => if decide (k = i) then c else set_pending true c) l.

(** Dropping the content frees the memory of a vector.  One of more than 256 entries fills more than
    the 2 KiB that the heap has blocks for, so its pages are unmapped, by another [shootdown]. *)
Definition drop_unmaps (d : ShootdownContent) : bool := match d with CLong l => bool_decide (256 < length l)%nat | _ => false end.

(** One step of the thread of CPU [i], which is [c] and is at [p].  [send_ipi] to one CPU fails when
    its number is not a [u8].  A [shootdown] from the drop of the content begins with [set], and
    [master] is still taken. *)
Definition tstep (i : nat) (c : Cpu) (p : Pc) (s : Sys) : option Sys :=
  let go p s := Some (put i (set_thread p c) s) in
  match p with
  | Idle => None
  | SetSpin op => if master s then Some s else go (SetWrite op) (set_master true s)
  | SetWrite op => go (SetGuest op) (set_data (op_content op) s)
  | SetGuest op => go (SyncSpin op) (set_guest (guest s ⊕ 1)%u64 s)
  | SyncSpin op => if lock s then Some s else go (SyncStore op) (set_lock true s)
  | SyncStore op =>
      go (match op_targets op with None => Send op | Some _ => SendTo op None end) (set_count (op_count op) s)
  | Send op => go (Handle op HVisit) (set_cpus (send_others i (cpus s)) s)
  | SendTo op last =>
      match op_targets op with
      | None => None
      | Some targets =>
          match CpuBMap.next targets last with
          | Done (Some t, last) =>
              if bool_decide (t < 256)%nat then go (SendTo op last) (set_cpus (alter (set_pending true) t (cpus s)) s)
              else go Panicked s
          | Done (None, _) => go (if op_self op then Handle op HVisit else Wait op) s
          | Panic => go Panicked s
          end
      end
  | Handle op h =>
      match hstep h s (tlb c) with
      | None => None
      | Some (Some h, s, t) => Some (put i (set_tlb t (set_thread (Handle op h) c)) s)
      | Some (None, s, t) => Some (put i (set_tlb t (set_thread (Wait op) c)) s)
      end
  | Wait op => if count s =? 0 then go (Unlock op) s else Some s
  | Unlock op => go (DropWait op) (set_lock false s)
  | DropWait op => if 1 <? guest s then Some s else go (DropSub op) s
  | DropSub op => go (DropData op) (set_guest (guest s ⊖ 1)%u64 s)
  | DropData op => if drop_unmaps (data s) && negb (mask c) then go (DropNested op) s else go (DropMaster op) (set_data CNone s)
  | DropNested op => if master s then Some s else None
  | DropMaster op => go Idle (set_master false s)
  | Panicked => None
  end.

(** [shootdown] and [target_shootdown] up to [SHOOTDOWN_LIST.set]. *)
Definition shootdown (i : nat) (c : Cpu) (content : ShootdownContent) (s : Sys) : Sys :=
  if mask c then s
  else put i (set_thread (SetSpin (mkOp (Z.of_nat (length (cpus s))) None true content)) c) s.

Definition target_shootdown (i : nat) (c : Cpu) (targets : CpuBMap) (content : ShootdownContent) (s : Sys) : Sys :=
  if mask c then s
  else
    match CpuBMap.count targets with
    | None => s
    | Some n =>
        let tgt_self := CpuBMap.get targets i in
        let targets := if tgt_self then CpuBMap.clear_bit targets i else targets in
        put i (set_thread (SetSpin (mkOp n (Some targets) tgt_self content)) c) s
    end.

Inductive Lbl :=
| LCall (content : ShootdownContent)
| LTarget
| LWrite (page : Z)
| LStep.

Inductive step : Lbl -> Sys -> Sys -> Prop :=
| step_call i c content s :
    cpus s !! i = Some c -> thread c = Idle -> handler c = None ->
    step (LCall content) s (shootdown i c content s)
| step_target i c targets content s :
    cpus s !! i = Some c -> thread c = Idle -> handler c = None ->
    step LTarget s (target_shootdown i c targets content s)
| step_thread i c s s' :
    cpus s !! i = Some c -> handler c = None -> tstep i c (thread c) s = Some s' ->
    step LStep s s'
| step_interrupt i c s :
    cpus s !! i = Some c -> handler c = None -> pending c = true ->
    step LStep s (put i (set_pending false (set_handler (Some HVisit) c)) s)
| step_handler i c h h' s s' t :
    cpus s !! i = Some c -> handler c = Some h -> hstep h s (tlb c) = Some (h', s', t) ->
    step LStep s (put i (set_tlb t (set_handler h' c)) s')
| step_mask i c b s :
    cpus s !! i = Some c -> thread c = Idle -> handler c = None ->
    step LStep s (put i (set_mask b c) s)
| step_fill i c page e s :
    cpus s !! i = Some c -> pt s !! page = Some e ->
    step LStep s (put i (set_tlb (<[page:=e]> (tlb c)) c) s)
| step_write page e s :
    step (LWrite page) s (set_pt (partial_alter (fun _ => e) page (pt s)) s).

(** Runs all of whose steps have an allowed label. *)
Definition run (ok : Lbl -> Prop) : relation Sys := rtc (fun s s' => exists l, ok l /\ step l s s').

(** No shootdown is going on; the caches hold anything. *)
Definition initial (s : Sys) : Prop :=
  master s = false /\ guest s = 0 /\ data s = CNone /\ lock s = false /\ count s = 0 /\ Z.of_nat (length (cpus s)) < 2 ^ 32 /\
  Forall (fun c => thread c = Idle /\ handler c = None /\ pending c = false) (cpus s).

End Protocol.

(** ** Counting over the CPUs *)

Definition total (f : Cpu -> nat) (s : Sys) : nat := sum_list_with f (cpus s).

Definition holds_master (c : Cpu) : nat :=
  match thread c with Idle | SetSpin _ | Panicked => 0 | _ => 1 end.
Definition holds_lock (c : Cpu) : nat :=
  match thread c with SyncStore _ | Send _ | SendTo _ _ | Handle _ _ | Wait _ | Unlock _ => 1 | _ => 0 end.
(** Visitors of the content: the guard of [set] counts as one. *)
Definition visiting (h : Hpc) : nat := match h with HRead | HFlush _ | HLeave | HAborted => 1 | _ => 0 end.
Definition guests (c : Cpu) : nat :=
  (match thread c with
   | SyncSpin _ | SyncStore _ | Send _ | SendTo _ _ | Wait _ | Unlock _ | DropWait _ | DropSub _ => 1
   | Handle _ h => 1 + visiting h
   | _ => 0
   end + match handler c with Some h => visiting h | None => 0 end)%nat.
(** Calls of [shoot] still to come, from interrupts and from the thread that synchronises. *)
Definition irq_due (c : Cpu) : nat := (Nat.b2n (pending c) + match handler c with Some _ => 1 | None => 0 end)%nat.
Definition own_due (n : nat) (c : Cpu) : nat := match thread c with Send _ => n | Handle _ _ => 1 | _ => 0 end.
(** The interrupts have been sent and not all of them are known to be handled. *)
Definition sent (c : Cpu) : nat := match thread c with Handle _ _ | Wait _ => 1 | _ => 0 end.

Lemma sum_insert {A} (f : A -> nat) l i x y :
  l !! i = Some x -> (sum_list_with f (<[i:=y]> l) + f x = sum_list_with f l + f y)%nat.
Proof.
  revert i. induction l as [|a l IH]; intros [|i] Hi; try done.
  - injection Hi as <-. cbn. lia.
  - change (<[S i:=y]> (a :: l)) with (a :: <[i:=y]> l). specialize (IH i Hi). cbn [sum_list_with]. lia.
Qed.

Lemma sum_lookup {A} (f : A -> nat) l i x : l !! i = Some x -> (f x <= sum_list_with f l)%nat.
Proof.
  revert i. induction l as [|a l IH]; intros [|i] Hi; try done; cbn in *.
  - injection Hi as <-. lia.
  - specialize (IH i Hi). lia.
Qed.

Lemma sum_other {A} (f : A -> nat) l i j x y :
  l !! i = Some x -> l !! j = Some y -> i <> j -> (f x + f y <= sum_list_with f l)%nat.
Proof.
  revert i j. induction l as [|a l IH]; intros [|i] [|j] Hi Hj Hne; try done; cbn in *.
  - injection Hi as <-. apply (sum_lookup f) in Hj. lia.
  - injection Hj as <-. apply (sum_lookup f) in Hi. lia.
  - specialize (IH i j Hi Hj ltac:(lia)). lia.
Qed.

Lemma sum_zero {A} (f : A -> nat) l : sum_list_with f l = 0%nat <-> Forall (fun x => f x = 0%nat) l.
Proof.
  induction l as [|a l IH]; cbn; [by split; constructor|]. rewrite Forall_cons. split.
  - intros H. split; [lia|]. apply IH. lia.
  - intros [Ha H]. apply IH in H. lia.
Qed.

Lemma sum_pos {A} (f : A -> nat) l : (0 < sum_list_with f l)%nat -> exists i x, l !! i = Some x /\ (0 < f x)%nat.
Proof.
  induction l as [|a l IH]; cbn; [lia|]. intros Hp. destruct (decide (0 < f a)%nat); [by exists 0%nat, a|].
  destruct IH as (i & x & Hi & Hx); [lia|]. by exists (S i), x.
Qed.

Lemma sum_le {A} (f : A -> nat) l b : (forall x, f x <= b)%nat -> (sum_list_with f l <= b * length l)%nat.
Proof. intros Hf. induction l as [|a l IH]; cbn; [lia|]. specialize (Hf a). lia. Qed.

Lemma sum_single {A} (f : A -> nat) l i x :
  l !! i = Some x -> (forall j y, l !! j = Some y -> i <> j -> f y = 0%nat) -> sum_list_with f l = f x.
Proof.
  revert i. induction l as [|a l IH]; intros [|i] Hi Hoth; try done; cbn.
  - injection Hi as ->. enough (sum_list_with f l = 0%nat) by lia. apply sum_zero, Forall_lookup. intros j y Hj. by apply (Hoth (S j)).
  - rewrite (Hoth 0%nat a) by done. apply (IH i Hi). intros j y Hj Hne. apply (Hoth (S j)); [done|congruence].
Qed.

Lemma total_put f s i c c' : cpus s !! i = Some c -> (total f (put i c' s) + f c = total f s + f c')%nat.
Proof. apply sum_insert. Qed.

(** Sending to all others makes one interrupt pending on each of them. *)
Lemma send_others_insert i l c : l !! i = Some c -> send_others i l = <[i:=c]> (set_pending true <$> l).
Proof.
  intros Hi. apply list_eq. intros k. unfold send_others. rewrite list_lookup_imap. destruct (decide (k = i)) as [->|Hne].
  - rewrite list_lookup_insert_eq by (rewrite length_fmap; by eapply lookup_lt_Some). rewrite Hi. cbn. by destruct (decide (i = i)).
  - rewrite list_lookup_insert_ne, list_lookup_fmap by done. destruct (l !! k); [|done]. cbn. by destruct (decide (k = i)).
Qed.

Lemma sum_fmap_ext {A} (f : A -> nat) (g : A -> A) l : (forall c, f (g c) = f c) -> sum_list_with f (g <$> l) = sum_list_with f l.
Proof. intros Hf. induction l as [|c l IH]; cbn; [done|]. by rewrite Hf, IH. Qed.

Lemma send_others_due l : sum_list_with irq_due l = 0%nat -> sum_list_with irq_due (set_pending true <$> l) = length l.
Proof.
  intros Hz%sum_zero. induction Hz as [|c l Hc _ IH]; [done|]. cbn. rewrite IH. unfold irq_due in *. cbn.
  destruct (pending c), (handler c); cbn in *; lia.
Qed.

(** ** The invariant *)

Definition plain (n : nat) (op : Op) : Prop := op_count op = Z.of_nat n /\ op_targets op = None.

(** The thread is not in a targeted shootdown. *)
Definition full (n : nat) (p : Pc) : Prop :=
  match p with
  | Idle => True
  | SendTo _ _ | Panicked => False
  | SetSpin op | SetWrite op | SetGuest op | SyncSpin op | SyncStore op | Send op | Handle op _ | Wait op | Unlock op
  | DropWait op | DropSub op | DropData op | DropNested op | DropMaster op => plain n op
  end.

(** The content is the one of the call, from [set] to the drop of its guard. *)
Definition has_data (d : ShootdownContent) (p : Pc) : Prop :=
  match p with
  | SetGuest op | SyncSpin op | SyncStore op | Send op | SendTo op _ | Handle op _ | Wait op | Unlock op
  | DropWait op | DropSub op | DropData op | DropNested op => d = op_content op
  | _ => True
  end.

Definition no_none (p : Pc) (h : option Hpc) : Prop :=
  match p with Handle _ HUnwrapNone => False | _ => True end /\ match h with Some HUnwrapNone => False | _ => True end.

Definition cpu_ok (n : nat) (d : ShootdownContent) (c : Cpu) : Prop :=
  full n (thread c) /\ has_data d (thread c) /\ no_none (thread c) (handler c).

Record Inv (n : nat) (s : Sys) : Prop := {
  inv_len : length (cpus s) = n;
  inv_n : Z.of_nat n < 2 ^ 32;
  inv_master : total holds_master s = Nat.b2n (master s);
  inv_lock : total holds_lock s = Nat.b2n (lock s);
  inv_guest : guest s = Z.of_nat (total guests s);
  inv_count : count s = Z.of_nat (total irq_due s + total (own_due n) s);
  inv_bound : count s <= Z.of_nat n;
  inv_sent : total sent s = 0%nat -> total irq_due s = 0%nat;
  inv_cpu : Forall (cpu_ok n (data s)) (cpus s);
}.

Section Invariant.
Context `{VA : VirtAddrOps} (n : nat).
Implicit Types s : Sys.
Implicit Types c : Cpu.

Lemma guests_bound s : Inv n s -> 0 <= guest s < 2 ^ 34.
Proof.
  intros HI. rewrite (inv_guest _ _ HI). pose proof (inv_n _ _ HI). pose proof (inv_len _ _ HI) as Hl.
  assert (total guests s <= 3 * length (cpus s))%nat; [|lia]. apply sum_le. intros c.
  unfold guests. destruct (thread c) as [| | | | | | | | ? []| | | | | | | |], (handler c) as [[]|]; cbn; lia.
Qed.

(** Whoever holds the content is alone. *)
Lemma master_alone s i j c d :
  Inv n s -> cpus s !! i = Some c -> holds_master c = 1%nat -> cpus s !! j = Some d -> i <> j -> holds_master d = 0%nat.
Proof.
  intros HI Hi Hc Hj Hne. pose proof (sum_other holds_master _ _ _ _ _ Hi Hj Hne) as H. pose proof (inv_master _ _ HI) as Hm.
  unfold total in Hm. destruct (master s); cbn in Hm; lia.
Qed.

Lemma not_master_data d c : holds_master c = 0%nat -> has_data d (thread c).
Proof. unfold holds_master. by destruct (thread c). Qed.

(** An interrupt is handled only while some thread synchronises. *)
Lemma handler_owner s i c :
  Inv n s -> cpus s !! i = Some c -> (0 < irq_due c)%nat ->
  exists j d, cpus s !! j = Some d /\ sent d = 1%nat /\ master s = true /\ 1 <= guest s.
Proof.
  intros HI Hi Hc. assert (0 < total sent s)%nat as Hs.
  { pose proof (sum_lookup irq_due _ _ _ Hi) as H. pose proof (inv_sent _ _ HI). unfold total in *. lia. }
  apply sum_pos in Hs as (j & d & Hj & Hd). exists j, d. split; [done|].
  assert (sent d = 1 /\ holds_master d = 1 /\ 1 <= guests d)%nat as (H1 & H2 & H3).
  { unfold sent, holds_master, guests in *. destruct (thread d); cbn in *; lia. }
  pose proof (sum_lookup holds_master _ _ _ Hj) as Hm. pose proof (sum_lookup guests _ _ _ Hj) as Hg.
  pose proof (inv_master _ _ HI) as Hm'. pose proof (inv_guest _ _ HI) as Hg'. unfold total in *.
  split; [done|]. split; [|lia]. destruct (master s); [done|]. cbn in Hm'. lia.
Qed.

Lemma cpus_put (d d' : ShootdownContent) l i c c' :
  Forall (cpu_ok n d) l -> l !! i = Some c -> (forall j x, l !! j = Some x -> i <> j -> has_data d' (thread x)) ->
  cpu_ok n d' c' -> Forall (cpu_ok n d') (<[i:=c']> l).
Proof.
  intros Hall Hi Hoth Hc. apply Forall_lookup. intros j x Hj. destruct (decide (i = j)) as [<-|Hne].
  - rewrite list_lookup_insert_eq in Hj by (by eapply lookup_lt_Some). by injection Hj as <-.
  - rewrite list_lookup_insert_ne in Hj by done. destruct (Forall_lookup_1 _ _ _ _ Hall Hj) as (H1 & _ & H3).
    split; [done|]. split; [by apply (Hoth j)|done].
Qed.

(** A step of CPU [i] from [c] to [c'] keeps the invariant when the shared variables move with what
    the CPU holds. *)
Lemma inv_put s s' i c c' :
  Inv n s -> cpus s !! i = Some c -> cpus s' = cpus s ->
  (holds_master c' + Nat.b2n (master s) = holds_master c + Nat.b2n (master s'))%nat ->
  (holds_lock c' + Nat.b2n (lock s) = holds_lock c + Nat.b2n (lock s'))%nat ->
  guest s' + Z.of_nat (guests c) = guest s + Z.of_nat (guests c') ->
  count s' + Z.of_nat (irq_due c + own_due n c) = count s + Z.of_nat (irq_due c' + own_due n c') -> count s' <= Z.of_nat n ->
  ((total sent s + sent c' = sent c)%nat -> (total irq_due s + irq_due c' = irq_due c)%nat) ->
  (data s' = data s \/ forall j x, cpus s !! j = Some x -> i <> j -> has_data (data s') (thread x)) ->
  cpu_ok n (data s') c' -> Inv n (put i c' s').
Proof.
  intros HI Hi Hcp Hm Hl Hg Hc Hb Hs Hd Hok. pose proof HI as [I1 I2 I3 I4 I5 I6 _ I7 I8].
  assert (forall f, sum_list_with f (cpus (put i c' s')) + f c = total f s + f c')%nat as Hsum.
  { intros f. unfold total, put. cbn. rewrite Hcp. by apply sum_insert. }
  split; unfold total in *.
  - unfold put. cbn. by rewrite length_insert, Hcp.
  - done.
  - specialize (Hsum holds_master). cbn [put set_cpus master]. lia.
  - specialize (Hsum holds_lock). cbn [put set_cpus lock]. lia.
  - specialize (Hsum guests). cbn [put set_cpus guest]. lia.
  - pose proof (Hsum irq_due). pose proof (Hsum (own_due n)). cbn [put set_cpus count]. lia.
  - done.
  - pose proof (Hsum irq_due). pose proof (Hsum sent). intros Hz. lia.
  - cbn. rewrite Hcp. apply (cpus_put (data s) (data s') _ _ c); [done|done| |done].
    intros j x Hj Hne. destruct Hd as [->|Hd]; [|by apply (Hd j)]. by destruct (Forall_lookup_1 _ _ _ _ I8 Hj) as (_ & ? & _).
Qed.

Lemma inv_cpu_at s i c : Inv n s -> cpus s !! i = Some c -> cpu_ok n (data s) c.
Proof. intros HI Hi. by apply (Forall_lookup_1 _ _ _ _ (inv_cpu _ _ HI) Hi). Qed.

(** A step of [handle_shootdown], on whichever CPU and at whichever level: how it moves the shared
    variables. *)
Definition hdue (h : option Hpc) : nat := match h with Some _ => 1 | None => 0 end.
Definition hvisit (h : option Hpc) : nat := match h with Some h => visiting h | None => 0 end.

Lemma hstep_moves s h h' s' t t' :
  0 <= guest s < 2 ^ 34 -> master s = true -> ((0 < visiting h)%nat -> 1 <= guest s) -> 1 <= count s < 2 ^ 32 -> h <> HUnwrapNone ->
  hstep h s t = Some (h', s', t') ->
  cpus s' = cpus s /\ master s' = master s /\ lock s' = lock s /\ data s' = data s /\ pt s' = pt s /\
  guest s' + Z.of_nat (visiting h) = guest s + Z.of_nat (hvisit h') /\
  count s' + 1 = count s + Z.of_nat (hdue h') /\ h' <> Some HUnwrapNone.
Proof.
  intros Hg Hm Hv Hc Hn. destruct h as [| |m| | |[|[a| |] l]| | | |]; cbn [hstep]; try done; intros [= <- <- <-]; cbn; rewrite ?Hm.
  all: try (split_and!; done || lia).
  - destruct (m && _); split_and!; done || lia.
  - rewrite wadd_small by lia. split_and!; done || lia.
  - rewrite wsub_small by (cbn in Hv; lia). split_and!; done || lia.
  - rewrite Z.mod_small by lia. split_and!; done || lia.
Qed.

Ltac measures :=
  unfold holds_master, holds_lock, guests, irq_due, own_due, sent in *; cbn in *;
  repeat match goal with
  | H : thread _ = _ |- _ => progress rewrite !H in *
  | H : handler _ = _ |- _ => progress rewrite !H in *
  end; cbn in *.

(** Whoever holds the lock and has not sent the interrupts yet finds none of an earlier call. *)
Lemma lock_alone s i c :
  Inv n s -> cpus s !! i = Some c -> holds_lock c = 1%nat -> sent c = 0%nat ->
  total sent s = 0%nat /\ total irq_due s = 0%nat /\ (total (own_due n) s = own_due n c)%nat.
Proof.
  intros HI Hi Hc Hs. assert (forall j d, cpus s !! j = Some d -> i <> j -> holds_lock d = 0)%nat as Hoth.
  { intros j d Hj Hne. pose proof (sum_other holds_lock _ _ _ _ _ Hi Hj Hne). pose proof (inv_lock _ _ HI) as Hl.
    unfold total in Hl. destruct (lock s); cbn in Hl; lia. }
  assert (total sent s = 0)%nat as Hz.
  { apply sum_zero, Forall_lookup. intros j d Hj. destruct (decide (i = j)) as [<-|Hne]; [congruence|].
    specialize (Hoth j d Hj Hne). unfold sent, holds_lock in *. by destruct (thread d). }
  split; [done|]. split; [by apply (inv_sent _ _ HI)|]. unfold total.
  pose proof (sum_insert (own_due n) _ _ _ (set_thread Idle c) Hi) as Hins.
  assert (sum_list_with (own_due n) (<[i:=set_thread Idle c]> (cpus s)) = 0)%nat as Hz'; [|cbn in Hins; lia].
  apply sum_zero, Forall_lookup. intros j d Hj. destruct (decide (i = j)) as [<-|Hne].
  - rewrite list_lookup_insert_eq in Hj by (by eapply lookup_lt_Some). by injection Hj as <-.
  - rewrite list_lookup_insert_ne in Hj by done. specialize (Hoth j d Hj Hne). unfold own_due, holds_lock in *. by destruct (thread d).
Qed.

Lemma inv_send s i c op :
  Inv n s -> cpus s !! i = Some c -> thread c = Send op -> handler c = None ->
  Inv n (put i (set_thread (Handle op HVisit) c) (set_cpus (send_others i (cpus s)) s)).
Proof.
  intros HI Hi E Hh. destruct (lock_alone s i c HI Hi) as (Hs0 & Hi0 & Ho); [measures; done..|].
  pose proof HI as [I1 I2 I3 I4 I5 I6 Ib I7 I8]. unfold total in *. set (c' := set_thread _ c).
  assert (cpus (put i c' (set_cpus (send_others i (cpus s)) s)) = <[i:=c']> (set_pending true <$> cpus s)) as Hcp.
  { cbn. by rewrite (send_others_insert _ _ c), list_insert_insert_eq by done. }
  assert ((set_pending true <$> cpus s) !! i = Some (set_pending true c)) as Hi' by by rewrite list_lookup_fmap, Hi.
  assert (forall f : Cpu -> nat, (forall x, f (set_pending true x) = f x) ->
    sum_list_with f (<[i:=c']> (set_pending true <$> cpus s)) + f c = sum_list_with f (cpus s) + f c')%nat as Hsum.
  { intros f Hf. pose proof (sum_insert f _ _ _ c' Hi'). rewrite sum_fmap_ext, Hf in * by done. done. }
  pose proof (sum_insert irq_due _ _ _ c' Hi') as Hirq. rewrite send_others_due in Hirq by done.
  pose proof (sum_lookup irq_due _ _ _ Hi) as Hz.
  split; unfold total; rewrite ?Hcp.
  - by rewrite length_insert, length_fmap.
  - done.
  - specialize (Hsum holds_master ltac:(done)). measures. lia.
  - specialize (Hsum holds_lock ltac:(done)). measures. lia.
  - specialize (Hsum guests ltac:(done)). measures. lia.
  - specialize (Hsum (own_due n) ltac:(done)). cbn [put set_cpus count]. measures. destruct (pending c); cbn in *; lia.
  - done.
  - specialize (Hsum sent ltac:(done)). measures. lia.
  - cbn [put set_cpus data]. apply (cpus_put (data s) _ _ _ (set_pending true c)); [|done| |].
    + apply Forall_fmap. by apply (Forall_impl _ _ _ I8).
    + intros j x Hj _. rewrite list_lookup_fmap in Hj. destruct (cpus s !! j) as [y|] eqn:Ey; [|done]. injection Hj as <-.
      by destruct (inv_cpu_at _ _ _ HI Ey) as (_ & ? & _).
    + destruct (inv_cpu_at _ _ _ HI Hi) as (H1 & H2 & H3). unfold cpu_ok, no_none in *. subst c'. cbn in *. by rewrite E, Hh in *.
Qed.

Ltac fin :=
  match goal with
  | |- _ \/ _ => left; reflexivity
  | HI : Inv n ?s, Hi : cpus ?s !! ?i = Some ?c, E : thread ?c = _ |- _ \/ _ =>
      right; intros j x Hj Hne; apply not_master_data, (master_alone s i j c x HI Hi);
      [unfold holds_master; rewrite E; reflexivity|exact Hj|exact Hne]
  | |- cpu_ok _ _ _ => unfold cpu_ok, no_none in *; cbn in *;
      repeat match goal with H : handler _ = _ |- _ => progress rewrite ?H in * end; intuition congruence
  | _ => unfold total in *;
      repeat match goal with H : _ = sum_list_with _ _ |- _ => rewrite <- ?H in *; clear H end;
      measures; repeat match goal with H : _ = true |- _ => rewrite ?H in * | H : _ = false |- _ => rewrite ?H in * end;
      cbn in *; rewrite ?wadd_small, ?wsub_small by lia;
      try lia; try (destruct (master _), (lock _); cbn in *; lia)
  end.

(** The thread moves from one place of the protocol to another and takes or gives back what lies
    between. *)
Lemma inv_thread s i c s' :
  Inv n s -> cpus s !! i = Some c -> handler c = None -> tstep i c (thread c) s = Some s' -> Inv n s'.
Proof.
  intros HI Hi Hh. pose proof (guests_bound _ HI) as Hg. pose proof HI as [_ I2 I3 I4 I5 I6 Ib I7 _].
  destruct (inv_cpu_at _ _ _ HI Hi) as (Hf & Hd & Hn).
  pose proof (sum_lookup holds_master _ _ _ Hi) as Lm. pose proof (sum_lookup holds_lock _ _ _ Hi) as Ll.
  pose proof (sum_lookup guests _ _ _ Hi) as Lg. pose proof (sum_lookup (own_due n) _ _ _ Hi) as Lo.
  pose proof (lock_alone s i c HI Hi) as Hal. pose proof (inv_send s i c) as Hsend.
  pose proof (sum_lookup sent _ _ _ Hi) as Ls. pose proof (sum_lookup irq_due _ _ _ Hi) as Li.
  unfold total in I3, I4, I5, I6, I7, Hal.
  remember (sum_list_with holds_master (cpus s)) as tm. remember (sum_list_with holds_lock (cpus s)) as tl.
  remember (sum_list_with guests (cpus s)) as tg. remember (sum_list_with (own_due n) (cpus s)) as to.
  remember (sum_list_with sent (cpus s)) as ts eqn:Hts. remember (sum_list_with irq_due (cpus s)) as ti eqn:Hti.
  destruct (thread c) as [|op|op|op|op|op|op|op last|op h|op|op|op|op|op|op|op|] eqn:E; cbn [tstep]; try done.
  - destruct (master s) eqn:Em; intros [= <-]; [done|]. apply (inv_put s _ i c); try done. all: fin.
  - intros [= <-]. apply (inv_put s _ i c); try done. all: fin.
  - intros [= <-]. apply (inv_put s _ i c); try done. all: fin.
  - destruct (lock s) eqn:Em; intros [= <-]; [done|]. apply (inv_put s _ i c); try done. all: fin.
  - destruct (Hf) as [Hf1 ->]. intros [= <-]. destruct Hal as (-> & -> & Hal); [measures; done..|]. apply (inv_put s _ i c); try done. all: fin.
  - intros [= <-]. by apply Hsend.
  - destruct (hstep h s (tlb c)) as [[[h' s1] t]|] eqn:Eh; [|done]. intros Hs'.
    assert (master s = true) as Hm by (measures; destruct (master s); cbn in *; lia).
    apply hstep_moves in Eh as (Hc1 & Hm1 & Hl1 & Hd1 & _ & Hg1 & Hk1 & Hn1); [|done|done|measures; lia|measures; lia|].
    + destruct h' as [h'|]; injection Hs' as <-; apply (inv_put s _ i c); try done. all: rewrite ?Hd1, ?Hl1; try (by left).
      all: try (unfold cpu_ok, no_none; cbn; rewrite Hh; split; [done|]; split; [done|]; split; [by destruct h'|done]). all: fin.
    + intros ->. by destruct Hn.
  - destruct (Z.eqb_spec (count s) 0); intros [= <-]; [|done]. apply (inv_put s _ i c); try done. all: fin.
  - intros [= <-]. apply (inv_put s _ i c); try done. all: fin.
  - destruct (Z.ltb_spec 1 (guest s)); intros [= <-]; [done|]. apply (inv_put s _ i c); try done. all: fin.
  - intros [= <-]. apply (inv_put s _ i c); try done. all: fin.
  - destruct (_ && _); intros [= <-]; apply (inv_put s _ i c); try done. all: fin.
  - destruct (master s); [|done]. by intros [= <-].
  - intros [= <-]. apply (inv_put s _ i c); try done. all: fin.
Qed.

Lemma sent_same s c c' :
  Inv n s -> sent c' = sent c -> irq_due c' = irq_due c -> (total sent s + sent c' = sent c)%nat -> (total irq_due s + irq_due c' = irq_due c)%nat.
Proof. intros HI -> -> Hz. rewrite (inv_sent _ _ HI); lia. Qed.

Lemma inv_step l s s' : l <> LTarget -> Inv n s -> step l s s' -> Inv n s'.
Proof.
  intros Hl HI Hst. pose proof (guests_bound _ HI) as Hg.
  destruct Hst as [i c content s Hi E Hh|i c targets content s Hi E Hh|i c s s' Hi Hh Ht|i c s Hi Hh Hp|i c h h' s s' t Hi Hh Hst|i c b s Hi E Hh|i c page e s Hi He|page e s].
  - unfold shootdown. destruct (mask c); [done|]. apply (inv_put s _ i c); try done; [fin..|apply (inv_bound _ _ HI)|apply sent_same; [done|measures; done|done]|by left|].
    split; [|split; [done|]]; cbn; [by rewrite (inv_len _ _ HI)|]. rewrite Hh. done.
  - done.
  - by apply (inv_thread s i c).
  - apply (inv_put s _ i c); try done; [unfold guests; cbn; rewrite Hh; cbn; lia| |apply (inv_bound _ _ HI)| |by left|].
    + unfold irq_due, own_due. cbn. rewrite Hh, Hp. cbn. lia.
    + apply sent_same; [done|done|]. unfold irq_due. cbn. by rewrite Hh, Hp.
    + destruct (inv_cpu_at _ _ _ HI Hi) as (H1 & H2 & H3 & _). done.
  - destruct (inv_cpu_at _ _ _ HI Hi) as (H1 & H2 & H3 & H4). rewrite Hh in H4.
    destruct (handler_owner s i c HI Hi) as (j & d & Hj & Hd & Hm & Hg1); [unfold irq_due; rewrite Hh; lia|].
    pose proof (sum_lookup irq_due _ _ _ Hi) as Li. pose proof (sum_lookup sent _ _ _ Hj) as Ls. pose proof (inv_count _ _ HI) as Hc.
    pose proof (inv_bound _ _ HI). pose proof (inv_n _ _ HI). unfold total in *. unfold irq_due in Li at 1. rewrite Hh in Li.
    apply hstep_moves in Hst as (Hc1 & Hm1 & Hl1 & Hd1 & _ & Hg2 & Hk1 & Hn1); [|done|done|done|lia|by intros ->].
    apply (inv_put s _ i c); try done.
    + rewrite Hm1. unfold holds_master. cbn. lia.
    + rewrite Hl1. unfold holds_lock. cbn. lia.
    + unfold guests. cbn. rewrite Hh. unfold hvisit in Hg2. destruct h'; lia.
    + unfold irq_due, own_due. cbn. rewrite Hh. unfold hdue in Hk1. destruct h'; lia.
    + unfold hdue in Hk1. destruct h'; lia.
    + unfold total. change (sent (set_tlb t (set_handler h' c))) with (sent c). lia.
    + by left.
    + rewrite Hd1. split; [done|]. split; [done|]. split; [done|]. cbn. by destruct h' as [[]|].
  - apply (inv_put s _ i c); try done; [apply (inv_bound _ _ HI)| |by left|exact (inv_cpu_at s i c HI Hi)].
    by apply sent_same.
  - apply (inv_put s _ i c); try done; [apply (inv_bound _ _ HI)| |by left|exact (inv_cpu_at s i c HI Hi)].
    by apply sent_same.
  - destruct HI. by split.
Qed.

Lemma inv_initial s : initial s -> length (cpus s) = n -> Inv n s.
Proof.
  intros (Hm & Hg & Hd & Hl & Hc & Hn & Hall) Hlen.
  assert (forall f : Cpu -> nat, (forall c, thread c = Idle /\ handler c = None /\ pending c = false -> f c = 0%nat) -> total f s = 0%nat) as Hz.
  { intros f Hf. apply sum_zero. apply (Forall_impl _ _ _ Hall). exact Hf. }
  split; rewrite ?Hz, ?Hm, ?Hl, ?Hg, ?Hc; try done; try lia; try congruence.
  all: try (intros c (H1 & H2 & H3); unfold holds_master, holds_lock, guests, irq_due, own_due, sent; by rewrite ?H1, ?H2, ?H3).
  apply (Forall_impl _ _ _ Hall). intros c (H1 & H2 & H3). unfold cpu_ok. by rewrite H1, H2.
Qed.

Lemma inv_run ok s s' : (forall l, ok l -> l <> LTarget) -> Inv n s -> run ok s s' -> Inv n s'.
Proof. intros Hok HI Hr. induction Hr as [|s s1 s2 (l & Hl & Hst) _ IH]; [done|]. apply IH. apply (inv_step l s); [by apply Hok|done|done]. Qed.

End Invariant.

(** ** Coherence *)

(** What the cache holds for a page is what memory holds. *)
Definition clean_tlb (p : gmap Z Z) (a : Z) (t : gmap Z Z) : Prop := forall e, t !! a = Some e -> p !! a = Some e.
Definition clean (s : Sys) (a : Z) (c : Cpu) : Prop := clean_tlb (pt s) a (tlb c).

(** An instruction of the list forgets the page. *)
Definition hits (a : Z) (l : list Flush) : Prop := exists x, Invlpg x ∈ l /\ containing_address Size4KiB x = a.

(** The handler has yet to forget the page, or never comes to [shoot]. *)
Definition ahead (a : Z) (h : Hpc) : Prop :=
  match h with
  | HFlush l => hits a l
  | HLeave | HShoot => False
  | _ => True
  end.

Definition cpu_ahead (a : Z) (c : Cpu) : Prop :=
  pending c = true \/ (exists h, handler c = Some h /\ ahead a h) \/ (exists op h, thread c = Handle op h /\ ahead a h).

Section Coherence.
Context `{VA : VirtAddrOps} (n : nat).
Implicit Types s : Sys.
Implicit Types c : Cpu.

Lemma clean_exec p a f t : clean_tlb p a t -> clean_tlb p a (exec f t).
Proof.
  intros Hc e He. apply Hc. destruct f; cbn in He; [|by apply map_lookup_filter_Some in He as [? _]|done].
  by apply lookup_delete_Some in He as [_ ?].
Qed.

Lemma hstep_clean a s h t h' s' t' :
  hstep h s t = Some (h', s', t') ->
  pt s' = pt s /\ cpus s' = cpus s /\ (clean_tlb (pt s) a t -> clean_tlb (pt s) a t') /\
  (hits a (invalidate (data s)) -> ahead a h -> clean_tlb (pt s) a t' \/ exists h1, h' = Some h1 /\ ahead a h1).
Proof.
  assert (forall f l, f <> Abort -> hits a (f :: l) -> clean_tlb (pt s) a (exec f t) \/ exists h1, Some (HFlush l) = Some h1 /\ ahead a h1) as Hpop.
  { intros f l Hf (x & Hx & Ha). apply elem_of_cons in Hx as [<-|Hx]; [|right; eexists; split; [done|]; by exists x].
    left. intros e He. cbn in He. rewrite Ha, lookup_delete_eq in He. done. }
  destruct h as [| |m| | |[|[x| |] l]| | | |]; cbn [hstep]; try done; intros [= <- <- <-].
  all: split; [done|]; split; [done|]; split; [first [done|exact (clean_exec _ a (Invlpg _) t)|exact (clean_exec _ a ReloadCr3 t)]|].
  all: intros Hd Ha; try done; try (right; eexists; split; [done|]; cbn; done).
  - right. eexists. split; [done|]. by destruct (master s).
  - right. eexists. split; [done|]. by destruct (_ && _).
  - by destruct Ha as (? & ?%elem_of_nil & _).
  - by apply (Hpop (Invlpg x)).
  - by apply (Hpop ReloadCr3).
Qed.

(** What a step does to a CPU: a clean page stays clean, and a CPU that has yet to forget the page
    does so or still has to. *)
Definition moves s s' a c c' : Prop :=
  (clean s a c -> clean s' a c') /\ (hits a (invalidate (data s)) -> cpu_ahead a c -> clean s' a c' \/ cpu_ahead a c').

Lemma moves_put s s' i c c' a k d' :
  cpus s' = cpus s -> pt s' = pt s -> cpus s !! i = Some c -> moves s s' a c c' ->
  cpus (put i c' s') !! k = Some d' -> exists d, cpus s !! k = Some d /\ moves s (put i c' s') a d d'.
Proof.
  intros Hcp Hpt Hi Hm Hk. cbn in Hk. rewrite Hcp in Hk. destruct (decide (i = k)) as [<-|Hne].
  - rewrite list_lookup_insert_eq in Hk by (by eapply lookup_lt_Some). injection Hk as <-. by exists c.
  - rewrite list_lookup_insert_ne in Hk by done. exists d'. split; [done|]. unfold moves, clean. cbn. rewrite Hpt. auto.
Qed.

Lemma moves_same s s' a c c' :
  pt s' = pt s -> tlb c' = tlb c -> pending c' = pending c -> handler c' = handler c ->
  (forall op h, thread c = Handle op h -> exists op, thread c' = Handle op h) -> moves s s' a c c'.
Proof.
  intros Hp Ht Hq Hh Hth. split; unfold clean; rewrite Hp, Ht; [done|]. intros _ [H|[(h & H1 & H2)|(op & h & H1 & H2)]]; right; unfold cpu_ahead; rewrite Hq, Hh.
  - by left.
  - right. left. by exists h.
  - right. right. destruct (Hth op h H1) as [op' ->]. by exists op', h.
Qed.

Lemma moves_refl s s' a c : pt s' = pt s -> moves s s' a c c.
Proof. intros Hp. apply moves_same; try done. intros op h ->. by exists op. Qed.

Lemma send_moves s i c op a k d' :
  cpus s !! i = Some c -> thread c = Send op ->
  cpus (put i (set_thread (Handle op HVisit) c) (set_cpus (send_others i (cpus s)) s)) !! k = Some d' ->
  exists d, cpus s !! k = Some d /\ moves s (put i (set_thread (Handle op HVisit) c) (set_cpus (send_others i (cpus s)) s)) a d d' /\
    cpu_ahead a d'.
Proof.
  intros Hi E. cbn. rewrite (send_others_insert _ _ c), list_insert_insert_eq by done. destruct (decide (i = k)) as [<-|Hne].
  - rewrite list_lookup_insert_eq by (rewrite length_fmap; by eapply lookup_lt_Some). intros [= <-]. exists c.
    assert (cpu_ahead a (set_thread (Handle op HVisit) c)) by (right; right; by eexists _, _).
    split; [done|]. split; [split; [done|auto]|done].
  - rewrite list_lookup_insert_ne, list_lookup_fmap by done. destruct (cpus s !! k) as [d|]; [|done]. intros [= <-]. exists d.
    assert (cpu_ahead a (set_pending true d)) by by left. split; [done|]. split; [split; [done|auto]|done].
Qed.

Lemma thread_moves s i c s' a k d' :
  Inv n s -> cpus s !! i = Some c -> tstep i c (thread c) s = Some s' -> cpus s' !! k = Some d' ->
  pt s' = pt s /\ exists d, cpus s !! k = Some d /\ moves s s' a d d'.
Proof.
  intros HI Hi. destruct (inv_cpu_at n _ _ _ HI Hi) as (Hf & _ & _).
  assert (forall p s1, cpus s1 = cpus s -> pt s1 = pt s -> (forall op h, thread c <> Handle op h) ->
    cpus (put i (set_thread p c) s1) !! k = Some d' -> exists d, cpus s !! k = Some d /\ moves s (put i (set_thread p c) s1) a d d') as Hgo.
  { intros p s1 Hc1 Hp1 Hnh. apply (moves_put s s1 i c); [done|done|done|]. apply moves_same; try done. intros op h Hc. by destruct (Hnh op h). }
  assert (cpus s !! k = Some d' -> exists d, cpus s !! k = Some d /\ moves s s a d d') as Hstay by (intros Hk; exists d'; split; [done|by apply moves_refl]).
  destruct (thread c) as [|op|op|op|op|op|op|op last|op h|op|op|op|op|op|op|op|] eqn:E; cbn [tstep]; try done.
  - destruct (master s); intros [= <-] Hk; (split; [done|]); [by apply Hstay|by apply Hgo].
  - intros [= <-] Hk. split; [done|]. by apply Hgo.
  - intros [= <-] Hk. split; [done|]. by apply Hgo.
  - destruct (lock s); intros [= <-] Hk; (split; [done|]); [by apply Hstay|by apply Hgo].
  - intros [= <-] Hk. split; [done|]. by apply Hgo.
  - intros [= <-] Hk. split; [done|]. destruct (send_moves s i c op a k d' Hi E Hk) as (d & ? & ? & _). by exists d.
  - destruct (hstep h s (tlb c)) as [[[h' s1] t]|] eqn:Eh; [|done]. apply (hstep_clean a) in Eh as (Hp & Hc & H1 & H2).
    assert (forall p, (forall h1, h' = Some h1 -> p = Handle op h1) -> moves s s1 a c (set_tlb t (set_thread p c))) as Hm.
    { intros p Hpc. split; unfold clean; rewrite Hp; [done|]. intros Hh [Ha|[(h1 & Ha1 & Ha2)|(op' & h1 & Ha1 & Ha2)]].
      - right. by left.
      - right. right. left. by exists h1.
      - rewrite E in Ha1. injection Ha1 as <- <-. destruct (H2 Hh Ha2) as [Hcl|(h1 & -> & Ha)]; [by left|].
        right. right. right. exists op, h1. split; [by apply Hpc|done]. }
    destruct h' as [h'|]; intros [= <-] Hk; (split; [done|]); apply (moves_put s s1 i c); try done; apply Hm; try done.
    by intros h1 [= ->].
  - destruct (count s =? 0); intros [= <-] Hk; (split; [done|]); [by apply Hgo|by apply Hstay].
  - intros [= <-] Hk. split; [done|]. by apply Hgo.
  - destruct (1 <? guest s); intros [= <-] Hk; (split; [done|]); [by apply Hstay|by apply Hgo].
  - intros [= <-] Hk. split; [done|]. by apply Hgo.
  - destruct (_ && _); intros [= <-] Hk; (split; [done|]); by apply Hgo.
  - destruct (master s); [|done]. intros [= <-] Hk. split; [done|]. by apply Hstay.
  - intros [= <-] Hk. split; [done|]. by apply Hgo.
Qed.

Lemma step_moves l s s' a k d' :
  Inv n s -> l <> LTarget -> l <> LWrite a -> step l s s' -> cpus s' !! k = Some d' ->
  exists d, cpus s !! k = Some d /\ moves s s' a d d'.
Proof.
  intros HI Hl Hw Hst.
  destruct Hst as [i c content s Hi E Hh|i c targets content s Hi E Hh|i c s s' Hi Hh Ht|i c s Hi Hh Hp|i c h h' s s' t Hi Hh Hst|i c b s Hi E Hh|i c page e s Hi He|page e s].
  - unfold shootdown. destruct (mask c).
    + intros Hk. exists d'. split; [done|by apply moves_refl].
    + apply (moves_put s s i c); try done. apply moves_same; try done. congruence.
  - done.
  - intros Hk. by destruct (thread_moves s i c s' a k d' HI Hi Ht Hk) as [_ ?].
  - apply (moves_put s s i c); try done. split; [done|]. intros _ _. right. right. left. by exists HVisit.
  - apply (hstep_clean a) in Hst as (Hp & Hc & H1 & H2). apply (moves_put s s' i c); try done.
    split; unfold clean; rewrite Hp; [done|]. intros Hd [Ha|[(h1 & Ha1 & Ha2)|(op & h1 & Ha1 & Ha2)]].
    + right. by left.
    + rewrite Hh in Ha1. injection Ha1 as <-. destruct (H2 Hd Ha2) as [?|(h1 & -> & ?)]; [by left|]. right. right. left. by exists h1.
    + right. right. right. by exists op, h1.
  - apply (moves_put s s i c); try done. apply moves_same; try done. congruence.
  - apply (moves_put s s i c); try done. split.
    + intros Hc x. cbn. destruct (decide (page = a)) as [->|Hne]; [rewrite lookup_insert_eq; congruence|]. rewrite lookup_insert_ne by done. apply Hc.
    + intros _ [H|[H|H]]; right; [by left|by right; left|by right; right].
  - intros Hk. exists d'. split; [done|]. split; [|auto]. unfold clean, clean_tlb. cbn.
    rewrite lookup_partial_alter_ne by congruence. done.
Qed.

(** A step of the thread of one CPU leaves the threads of the others where they are. *)
Lemma tstep_other k d p s s' i c :
  tstep k d p s = Some s' -> cpus s !! i = Some c ->
  exists c', cpus s' !! i = Some c' /\ (thread c' = thread c \/ k = i).
Proof.
  intros Ht Hi. assert (forall q s1 c1, cpus s1 !! i = Some c1 -> thread c1 = thread c ->
    exists c', cpus (put k q s1) !! i = Some c' /\ (thread c' = thread c \/ k = i)) as Hput.
  { intros q s1 c1 H1 H2. cbn. destruct (decide (k = i)) as [->|Hne].
    - rewrite list_lookup_insert_eq by (by eapply lookup_lt_Some). eauto.
    - rewrite list_lookup_insert_ne by done. eauto. }
  revert Ht. unfold tstep. destruct p as [| | | | | | | |op h| | | | | | | |]; try done; repeat case_match; try done; intros [= <-].
  all: try (by eapply Hput). all: try (exists c; by auto).
  - apply (Hput _ _ (if decide (i = k) then c else set_pending true c)); [|by destruct (decide (i = k))].
    cbn. unfold send_others. by rewrite list_lookup_imap, Hi.
  - apply (Hput _ _ (if decide (n0 = i) then set_pending true c else c)); [|by destruct (decide (n0 = i))].
    cbn. destruct (decide (n0 = i)) as [->|]; [by rewrite list_lookup_alter_eq, Hi|by rewrite list_lookup_alter_ne].
  - apply (hstep_clean 0) in H as (_ & Hc & _). apply (Hput _ _ c); [by rewrite Hc|done].
  - apply (hstep_clean 0) in H as (_ & Hc & _). apply (Hput _ _ c); [by rewrite Hc|done].
Qed.

(** The thread of CPU [i] moves by its own steps only. *)
Lemma thread_control l s s' i c :
  step l s s' -> cpus s !! i = Some c -> thread c <> Idle ->
  exists c', cpus s' !! i = Some c' /\ (thread c' = thread c \/ tstep i c (thread c) s = Some s').
Proof.
  intros Hst Hi Hid.
  assert (forall k d d' s1, cpus s1 = cpus s -> cpus s !! k = Some d -> thread d' = thread d ->
    exists c', cpus (put k d' s1) !! i = Some c' /\ thread c' = thread c) as Hput.
  { intros k d d' s1 Hc1 Hk Hth. cbn. rewrite Hc1. destruct (decide (k = i)) as [->|Hne].
    - rewrite list_lookup_insert_eq by (by eapply lookup_lt_Some). exists d'. split; [done|]. rewrite Hi in Hk. by injection Hk as ->.
    - rewrite list_lookup_insert_ne by done. by exists c. }
  destruct Hst as [k d content s Hk E Hh|k d targets content s Hk E Hh|k d s s' Hk Hh Ht|k d s Hk Hh Hp|k d h h' s s' t Hk Hh Hst|k d b s Hk E Hh|k d page e s Hk He|page e s].
  - unfold shootdown. destruct (mask d); [by exists c; auto|]. exists c. split; [|by left]. cbn. rewrite list_lookup_insert_ne; [done|].
    intros ->. congruence.
  - unfold target_shootdown. destruct (mask d); [by exists c; auto|]. destruct (CpuBMap.count targets); [|by exists c; auto].
    exists c. split; [|by left]. cbn. rewrite list_lookup_insert_ne; [done|]. intros ->. congruence.
  - destruct (tstep_other _ _ _ _ _ _ _ Ht Hi) as (c' & Hc' & [Hth| ->]); exists c'; [by auto|]. split; [done|]. right.
    rewrite Hi in Hk. by injection Hk as ->.
  - destruct (Hput k d (set_pending false (set_handler (Some HVisit) d)) s) as (c' & ? & ?); [done..|]. exists c'. auto.
  - destruct (Hput k d (set_tlb t (set_handler h' d)) s') as (c' & ? & ?); [by apply (hstep_clean 0) in Hst as (_ & ? & _)|done..|]. exists c'. auto.
  - destruct (Hput k d (set_mask b d) s) as (c' & ? & ?); [done..|]. exists c'. auto.
  - destruct (Hput k d (set_tlb (<[page:=e]> (tlb d)) d) s) as (c' & ? & ?); [done..|]. exists c'. auto.
  - exists c. auto.
Qed.

(** The call [op] of CPU [i] is on its way, or its pages are clean everywhere. *)
Definition before_send (op : Op) (p : Pc) : Prop :=
  match p with
  | SetSpin o | SetWrite o | SetGuest o | SyncSpin o | SyncStore o | Send o => o = op
  | _ => False
  end.
Definition in_sync (op : Op) (p : Pc) : Prop := match p with Handle o _ | Wait o => o = op | _ => False end.

Definition on_the_way (i : nat) (op : Op) (a : Z) s : Prop :=
  Forall (clean s a) (cpus s) \/
  exists c, cpus s !! i = Some c /\
    (before_send op (thread c) \/ in_sync op (thread c) /\ Forall (fun d => clean s a d \/ cpu_ahead a d) (cpus s)).

(** When the count has come down to zero every CPU has forgotten the page. *)
Lemma synced_clean s a i op c :
  Inv n s -> cpus s !! i = Some c -> thread c = Wait op -> count s = 0 ->
  Forall (fun d => clean s a d \/ cpu_ahead a d) (cpus s) -> Forall (clean s a) (cpus s).
Proof.
  intros HI Hi E Hz Hall. pose proof (inv_count _ _ HI) as Hc. apply Forall_lookup. intros k d Hk.
  pose proof (sum_lookup irq_due _ _ _ Hk) as H1. pose proof (sum_lookup (own_due n) _ _ _ Hk) as H2. unfold total in Hc.
  destruct (Forall_lookup_1 _ _ _ _ Hall Hk) as [?|[Hp|[(h & Hh & _)|(o & h & Ht & _)]]]; [done|exfalso..].
  - unfold irq_due in H1 at 1. rewrite Hp in H1. cbn in H1. lia.
  - unfold irq_due in H1 at 1. rewrite Hh in H1. lia.
  - unfold own_due in H2 at 1. rewrite Ht in H2. lia.
Qed.

Lemma on_the_way_step l s s' i op a :
  Inv n s -> l <> LTarget -> l <> LWrite a -> hits a (invalidate (op_content op)) -> step l s s' ->
  on_the_way i op a s -> on_the_way i op a s'.
Proof.
  intros HI Hl Hw Hh Hst [Hcl|(c & Hi & Hph)].
  { left. apply Forall_lookup. intros k d' Hk. destruct (step_moves l s s' a k d' HI Hl Hw Hst Hk) as (d & Hd & Hm & _).
    apply Hm. by apply (Forall_lookup_1 _ _ _ _ Hcl Hd). }
  assert (thread c <> Idle) as Hid by (intros E; rewrite E in Hph; by destruct Hph as [|[]]).
  destruct (inv_cpu_at n _ _ _ HI Hi) as (Hf & Hd & _). destruct (thread_control l s s' i c Hst Hi Hid) as (c' & Hi' & Hth).
  assert (in_sync op (thread c) -> Forall (fun d => clean s a d \/ cpu_ahead a d) (cpus s) -> Forall (fun d => clean s' a d \/ cpu_ahead a d) (cpus s')) as Hkeep.
  { intros Hin Hall. apply Forall_lookup. intros k d' Hk. destruct (step_moves l s s' a k d' HI Hl Hw Hst Hk) as (d & Hkd & Hm1 & Hm2).
    assert (data s = op_content op) as Hdat by (destruct (thread c); try done; cbn in Hin, Hd; congruence).
    destruct (Forall_lookup_1 _ _ _ _ Hall Hkd) as [?|?]; [left; by apply Hm1|]. apply Hm2; [by rewrite Hdat|done]. }
  destruct Hth as [Hth|Ht].
  { right. exists c'. split; [done|]. rewrite Hth. destruct Hph as [?|[? ?]]; [by left|right]. auto. }
  assert (forall p s1, Some (put i (set_thread p c) s1) = Some s' -> thread c' = p) as Hp.
  { intros p s1 [= <-]. cbn in Hi'. destruct (decide (i < length (cpus s1))%nat) as [Hlt|Hge].
    - rewrite list_lookup_insert_eq in Hi' by done. by injection Hi' as <-.
    - rewrite list_insert_ge in Hi' by lia. apply lookup_lt_Some in Hi'. lia. }
  assert (forall p s1, before_send op p -> Some (put i (set_thread p c) s1) = Some s' -> on_the_way i op a s') as Hgo.
  { intros p s1 Hb Hs. right. exists c'. split; [done|]. left. by rewrite (Hp p s1 Hs). }
  destruct Hph as [Hb|[Hin Hall]]; [|specialize (Hkeep Hin Hall)].
  - assert (Some s = Some s' -> on_the_way i op a s') as Hst' by (intros [= <-]; right; exists c; auto).
    destruct (thread c) as [|o|o|o|o|o|o| | | | | | | | | |] eqn:E; try done; cbn in Hb; subst o; cbn [tstep] in Ht.
    + destruct (master s); [by apply Hst'|by apply (Hgo (SetWrite op)) in Ht].
    + by apply (Hgo (SetGuest op)) in Ht.
    + by apply (Hgo (SyncSpin op)) in Ht.
    + destruct (lock s); [by apply Hst'|by apply (Hgo (SyncStore op)) in Ht].
    + destruct Hf as [_ Hf]. rewrite Hf in Ht. by apply (Hgo (Send op)) in Ht.
    + right. exists c'. split; [done|]. right. rewrite (Hp _ _ Ht). split; [done|]. injection Ht as <-.
      apply Forall_lookup. intros k d' Hk. destruct (send_moves s i c op a k d' Hi E Hk) as (_ & _ & _ & ?). by right.
  - destruct (thread c) as [| | | | | | | |o h|o| | | | | | |] eqn:E; try done; cbn in Hin; subst o; cbn [tstep] in Ht.
    + right. exists c'. split; [done|]. right. split; [|done].
      destruct (hstep h s (tlb c)) as [[[[h'|] s1] t]|] eqn:Eh; [..|done]; apply (hstep_clean a) in Eh as (_ & Hc1 & _); injection Ht as <-.
      all: cbn in Hi'; rewrite Hc1, list_lookup_insert_eq in Hi' by (by eapply lookup_lt_Some); by injection Hi' as <-.
    + destruct (Z.eqb_spec (count s) 0) as [Hz|Hz].
      * left. injection Ht as <-. pose proof (synced_clean s a i op c HI Hi E Hz Hall) as Hcl.
        apply Forall_lookup. intros k d' Hk. destruct (moves_put s s i c (set_thread (Unlock op) c) a k d') as (d & Hkd & Hm & _); try done.
        { by apply moves_same; try done; congruence. }
        apply Hm. by apply (Forall_lookup_1 _ _ _ _ Hcl Hkd).
      * injection Ht as <-. right. exists c. rewrite E. split; [done|]. right. done.
Qed.

End Coherence.

(** ** Progress *)

(** No [invalidate] of the system panics, and no drop of a content starts another shootdown. *)
Definition calm_content `{VA : VirtAddrOps} (d : ShootdownContent) : Prop := Abort ∉ invalidate d /\ drop_unmaps d = false.
Definition calm_handler (h : Hpc) : Prop := match h with HFlush l => Abort ∉ l | HAborted => False | _ => True end.
Definition calm_thread `{VA : VirtAddrOps} (p : Pc) : Prop :=
  match p with
  | Idle | Panicked => True
  | DropNested _ => False
  | Handle op h => calm_content (op_content op) /\ calm_handler h
  | SetSpin op | SetWrite op | SetGuest op | SyncSpin op | SyncStore op | Send op | SendTo op _ | Wait op | Unlock op
  | DropWait op | DropSub op | DropData op | DropMaster op => calm_content (op_content op)
  end.
Definition calm_cpu `{VA : VirtAddrOps} (c : Cpu) : Prop :=
  calm_thread (thread c) /\ match handler c with Some h => calm_handler h | None => True end.
Definition calm `{VA : VirtAddrOps} (s : Sys) : Prop := calm_content (data s) /\ Forall calm_cpu (cpus s).

(** Steps left: of a handler when the content takes [d] instructions, of a thread, of a CPU. *)
Definition handler_left (d : nat) (h : Hpc) : nat :=
  match h with
  | HVisit => d + 8 | HLoad => d + 7 | HLoop _ => d + 6 | HEnter => d + 5 | HRead => d + 4
  | HFlush l => length l + 3 | HLeave => 2 | HShoot => 1
  | HUnwrapNone | HAborted => 0
  end.
Definition thread_left `{VA : VirtAddrOps} (n d : nat) (p : Pc) : nat :=
  let round op := ((n + 1) * (length (invalidate (op_content op)) + 10))%nat in
  match p with
  | Idle | Panicked | SendTo _ _ | DropNested _ => 0
  | DropMaster _ => 1 | DropData _ => 2 | DropSub _ => 3 | DropWait _ => 4 | Unlock _ => 5 | Wait _ => 6
  | Handle _ h => 7 + handler_left d h
  | Send op => 8 + round op | SyncStore op => 9 + round op | SyncSpin op => 10 + round op
  | SetGuest op => 11 + round op | SetWrite op => 12 + round op | SetSpin op => 13 + round op
  end.
Definition cpu_left `{VA : VirtAddrOps} (n d : nat) (c : Cpu) : nat :=
  (thread_left n d (thread c) + (if pending c then d + 9 else 0) + match handler c with Some h => handler_left d h | None => 0 end)%nat.
Definition left_ `{VA : VirtAddrOps} (n : nat) (s : Sys) : nat := sum_list_with (cpu_left n (length (invalidate (data s)))) (cpus s).

Section Progress.
Context `{VA : VirtAddrOps} (n : nat).
Implicit Types s : Sys.
Implicit Types c : Cpu.

Lemma hstep_calm h s t h' s' t' :
  hstep h s t = Some (h', s', t') -> calm_content (data s) -> calm_handler h ->
  data s' = data s /\ cpus s' = cpus s /\ match h' with Some h' => calm_handler h' | None => True end.
Proof.
  intros Hst [Hd _] Hc. destruct h as [| |m| | |[|[x| |] l]| | | |]; cbn [hstep] in Hst; try done; injection Hst as <- <- <-; (split; [done|]; split; [done|]).
  all: try done.
  - by destruct (master s).
  - by destruct (_ && _).
  - cbn in *. set_solver.
  - cbn in *. set_solver.
  - cbn in *. set_solver.
Qed.

Lemma calm_put s s' i c c' : calm s -> cpus s' = cpus s -> calm_content (data s') -> cpus s !! i = Some c -> (calm_cpu c -> calm_cpu c') -> calm (put i c' s').
Proof.
  intros [_ Hall] Hcp Hd Hi Hc. split; [done|]. cbn. rewrite Hcp. apply Forall_insert; [done|]. apply Hc. by apply (Forall_lookup_1 _ _ _ _ Hall Hi).
Qed.

Lemma calm_step l s s' : (forall content, l = LCall content -> calm_content content) -> l <> LTarget -> step l s s' -> Inv n s -> calm s -> calm s'.
Proof.
  intros Hlc Hl Hst HI Hs. pose proof Hs as [Hd Hall].
  destruct Hst as [i c content s Hi E Hh|i c targets content s Hi E Hh|i c s s' Hi Hh Ht|i c s Hi Hh Hp|i c h h' s s' t Hi Hh Hst|i c b s Hi E Hh|i c page e s Hi He|page e s].
  - unfold shootdown. destruct (mask c); [done|]. apply (calm_put s s i c); try done. intros [_ ?]. split; [|done]. by apply Hlc.
  - done.
  - destruct (Forall_lookup_1 _ _ _ _ Hall Hi) as [Hc1 Hc2]. destruct (inv_cpu_at n _ _ _ HI Hi) as (Hf & _ & _).
    assert (forall p s1, cpus s1 = cpus s -> calm_content (data s1) -> calm_thread p -> calm (put i (set_thread p c) s1)) as Hgo.
    { intros p s1 H1 H2 H3. apply (calm_put s s1 i c); try done; by intros [_ ?]. }
    destruct (thread c) as [|op|op|op|op|op|op|op last|op h|op|op|op|op|op|op|op|] eqn:Et; cbn [tstep] in Ht; try done.
    + destruct (master s); injection Ht as <-; [done|by apply Hgo].
    + injection Ht as <-. by apply Hgo.
    + injection Ht as <-. by apply Hgo.
    + destruct (lock s); injection Ht as <-; [done|by apply Hgo].
    + destruct Hf as [_ Hf]. rewrite Hf in Ht. injection Ht as <-. by apply Hgo.
    + injection Ht as <-. split; [done|]. cbn. rewrite (send_others_insert _ _ c), list_insert_insert_eq by done.
      apply Forall_insert; [apply Forall_fmap; by apply (Forall_impl _ _ _ Hall)|]. split; [|done]. by split.
    + destruct Hc1 as [Ho Hc1]. destruct (hstep h s (tlb c)) as [[[h' s1] t]|] eqn:Eh; [|done].
      apply hstep_calm in Eh as (E1 & E2 & E3); [|done|done]. rewrite <- E1 in Hd.
      destruct h' as [h'|]; injection Ht as <-; apply (calm_put s s1 i c); try done; intros [_ ?]; split; done.
    + destruct (count s =? 0); injection Ht as <-; [by apply Hgo|done].
    + injection Ht as <-. by apply Hgo.
    + destruct (1 <? guest s); injection Ht as <-; [done|by apply Hgo].
    + injection Ht as <-. by apply Hgo.
    + destruct Hd as [_ Hun]. rewrite Hun in Ht. injection Ht as <-. apply Hgo; [done|split; [by apply not_elem_of_nil|done]|done].
    + injection Ht as <-. by apply Hgo.
  - apply (calm_put s s i c); try done. by intros [? _].
  - destruct (Forall_lookup_1 _ _ _ _ Hall Hi) as [Hc1 Hc2]. rewrite Hh in Hc2. apply hstep_calm in Hst as (E1 & E2 & E3); [|done|done].
    rewrite <- E1 in Hd. by apply (calm_put s s' i c).
  - by apply (calm_put s s i c).
  - by apply (calm_put s s i c).
  - done.
Qed.

Lemma left_put s s' i c c' :
  cpus s' = cpus s -> data s' = data s -> cpus s !! i = Some c ->
  (forall d, d = length (invalidate (data s)) -> cpu_left n d c' < cpu_left n d c)%nat -> (left_ n (put i c' s') < left_ n s)%nat.
Proof.
  intros Hc Hd Hi Hlt. unfold left_. cbn. rewrite Hc, Hd. specialize (Hlt _ eq_refl).
  pose proof (sum_insert (cpu_left n (length (invalidate (data s)))) _ _ _ c' Hi). lia.
Qed.

(** With no handler active, what is left does not depend on the content that is set. *)
Lemma left_quiet d d' (l : list Cpu) :
  Forall (fun c => irq_due c = 0%nat /\ forall op h, thread c <> Handle op h) l -> sum_list_with (cpu_left n d) l = sum_list_with (cpu_left n d') l.
Proof.
  induction 1 as [|c l [Hc Ht] _ IH]; [done|]. cbn. rewrite IH. f_equal. unfold cpu_left, irq_due in *.
  destruct (pending c), (handler c); cbn in Hc; try lia. destruct (thread c); try done. by destruct (Ht op h).
Qed.

Lemma left_put_data s s' i c c' :
  Forall (fun c => irq_due c = 0%nat /\ forall op h, thread c <> Handle op h) (cpus s) -> cpus s' = cpus s -> cpus s !! i = Some c ->
  (forall d, cpu_left n d c' < cpu_left n d c)%nat -> (left_ n (put i c' s') < left_ n s)%nat.
Proof.
  intros Hq Hc Hi Hlt. unfold left_. cbn. rewrite Hc, (left_quiet (length (invalidate (data s))) (length (invalidate (data s'))) _ Hq).
  pose proof (sum_insert (cpu_left n (length (invalidate (data s')))) _ _ _ c' Hi). specialize (Hlt (length (invalidate (data s')))). lia.
Qed.

Lemma send_left d l : Forall (fun c => irq_due c = 0%nat) l ->
  sum_list_with (cpu_left n d) (set_pending true <$> l) = (sum_list_with (cpu_left n d) l + length l * (d + 9))%nat.
Proof.
  induction 1 as [|c l Hc _ IH]; [done|]. cbn. rewrite IH. unfold cpu_left, irq_due in *. cbn.
  destruct (pending c); cbn in Hc; [lia|]. lia.
Qed.

(** A handler that runs can go on, and comes closer to its end. *)
Lemma hstep_progress s t h :
  master s = true -> 1 <= guest s -> calm_handler h -> h <> HUnwrapNone ->
  exists h' s' t', hstep h s t = Some (h', s', t') /\ cpus s' = cpus s /\ data s' = data s /\
    (match h' with Some h' => handler_left (length (invalidate (data s))) h' | None => 0 end < handler_left (length (invalidate (data s))) h)%nat.
Proof.
  intros Hm Hg Hc Hn. destruct h as [| |m| | |[|[x| |] l]| | | |]; cbn [hstep]; try done.
  all: try (eexists _, _, _; split; [done|]; split; [done|]; split; [done|]; cbn; lia).
  - eexists _, _, _. split; [done|]. rewrite Hm. split; [done|]. split; [done|]. cbn. lia.
  - eexists _, _, _. split; [done|]. rewrite (proj2 (Z.eqb_neq _ 0)), andb_false_r by lia. split; [done|]. split; [done|]. cbn. lia.
Qed.

Lemma thread_progress s i c :
  Inv n s -> calm s -> total irq_due s = 0%nat -> cpus s !! i = Some c -> thread c <> Idle ->
  (holds_master c = 1%nat \/ master s = false) ->
  exists s', tstep i c (thread c) s = Some s' /\ (left_ n s' < left_ n s)%nat.
Proof.
  intros HI Hcalm Hq Hi Hid Hown. pose proof (guests_bound n _ HI) as Hg. destruct (inv_cpu_at n _ _ _ HI Hi) as (Hf & Hd & Hn & _).
  assert (Forall (fun c => irq_due c = 0%nat) (cpus s)) as Hq' by by apply sum_zero.
  assert (handler c = None /\ pending c = false) as [Hh Hp].
  { pose proof (Forall_lookup_1 _ _ _ _ Hq' Hi) as H. unfold irq_due in H. cbn in H. destruct (pending c), (handler c); cbn in H; try lia; done. }
  assert (holds_master c = 1%nat -> (forall op h, thread c <> Handle op h) -> Forall (fun c => irq_due c = 0%nat /\ forall op h, thread c <> Handle op h) (cpus s)) as Hquiet.
  { intros Hm Hnh. apply Forall_lookup. intros j d Hj. split; [by apply (Forall_lookup_1 _ _ _ _ Hq' Hj)|].
    destruct (decide (i = j)) as [<-|Hne]; [congruence|]. pose proof (master_alone n s i j c d HI Hi Hm Hj Hne) as H. unfold holds_master in H.
    intros op h E. by rewrite E in H. }
  assert (forall p s1, cpus s1 = cpus s -> data s1 = data s -> (forall d, thread_left n d p < thread_left n d (thread c))%nat ->
    left_ n (put i (set_thread p c) s1) < left_ n s)%nat as Hgo.
  { intros p s1 H1 H2 H3. apply (left_put s s1 i c); try done. intros d _. unfold cpu_left. cbn. specialize (H3 d). lia. }
  destruct (thread c) as [|op|op|op|op|op|op|op last|op h|op|op|op|op|op|op|op|] eqn:E; cbn [tstep]; try done.
  - destruct Hown as [Hown|Hm]; [unfold holds_master in Hown; by rewrite E in Hown|]. rewrite Hm. eexists. split; [done|]. apply Hgo; [done|done|]. intros d. cbn. lia.
  - eexists. split; [done|]. apply (left_put_data s _ i c); try done.
    + apply Hquiet; [unfold holds_master; by rewrite E|done].
    + intros d. unfold cpu_left. cbn. rewrite E. cbn. lia.
  - eexists. split; [done|]. apply Hgo; [done|done|]. intros d. cbn. lia.
  - assert (lock s = false) as ->.
    { pose proof (inv_lock _ _ HI) as Hl. destruct (lock s); [|done]. cbn in Hl. assert (0 < total holds_lock s)%nat as (j & d & Hj & Hd')%sum_pos by lia.
      assert (holds_master d = 1%nat) as Hmd by (unfold holds_master, holds_lock in *; destruct (thread d); cbn in *; lia).
      destruct (decide (j = i)) as [->|Hne]; [rewrite Hi in Hj; injection Hj as <-; unfold holds_lock in Hd'; rewrite E in Hd'; lia|].
      pose proof (master_alone n s j i d c HI Hj Hmd Hi Hne) as H. unfold holds_master in H. by rewrite E in H. }
    eexists. split; [done|]. apply Hgo; [done|done|]. intros d. cbn. lia.
  - destruct Hf as [_ ->]. eexists. split; [done|]. apply Hgo; [done|done|]. intros d. cbn. lia.
  - eexists. split; [done|]. unfold left_. cbn [put set_cpus cpus data]. rewrite (send_others_insert _ _ c), list_insert_insert_eq by done.
    cbn in Hd. rewrite Hd. set (d := length (invalidate (op_content op))).
    assert ((set_pending true <$> cpus s) !! i = Some (set_pending true c)) as Hi' by by rewrite list_lookup_fmap, Hi.
    pose proof (sum_insert (cpu_left n d) _ _ _ (set_thread (Handle op HVisit) c) Hi') as H. rewrite send_left in H by done.
    assert (cpu_left n d (set_pending true c) = 8 + (n + 1) * (d + 10) + (d + 9))%nat as H1 by (unfold cpu_left; cbn; rewrite E, Hh; cbn; fold d; lia).
    assert (cpu_left n d (set_thread (Handle op HVisit) c) = 15 + d)%nat as H2 by (unfold cpu_left; cbn; rewrite Hh, Hp; lia).
    rewrite H1, H2, (inv_len _ _ HI) in H. lia.
  - destruct (hstep_progress s (tlb c) h) as (h' & s1 & t & -> & H1 & H2 & H3).
    + pose proof (sum_lookup holds_master _ _ _ Hi) as L. pose proof (inv_master _ _ HI) as M. unfold total in M. unfold holds_master in L at 1. rewrite E in L.
      destruct (master s); [done|]. cbn in M. lia.
    + pose proof (sum_lookup guests _ _ _ Hi) as L. pose proof (inv_guest _ _ HI) as M. unfold total in M. unfold guests in L at 1. rewrite E in L. lia.
    + destruct Hcalm as [_ Hall]. destruct (Forall_lookup_1 _ _ _ _ Hall Hi) as [H _]. rewrite E in H. by destruct H.
    + by intros ->.
    + destruct h' as [h'|]; (eexists; split; [done|]); apply (left_put s s1 i c); try done; intros d ->; unfold cpu_left; cbn; rewrite E; cbn; lia.
  - assert (count s = 0) as ->; [|eexists; split; [done|]; apply Hgo; [done|done|]; intros d; cbn; lia].
    rewrite (inv_count _ _ HI), Hq. unfold total. rewrite (sum_single (own_due n) _ i c Hi); [unfold own_due; by rewrite E|].
    intros j d Hj Hne. pose proof (master_alone n s i j c d HI Hi ltac:(unfold holds_master; by rewrite E) Hj Hne) as H.
    unfold holds_master, own_due in *. by destruct (thread d).
  - eexists. split; [done|]. apply Hgo; [done|done|]. intros d. cbn. lia.
  - rewrite (proj2 (Z.ltb_ge 1 (guest s))); [eexists; split; [done|]; apply Hgo; [done|done|]; intros d; cbn; lia|].
    rewrite (inv_guest _ _ HI). unfold total. rewrite (sum_single guests _ i c Hi); [unfold guests; rewrite E, Hh; cbn; lia|].
    intros j d Hj Hne. pose proof (master_alone n s i j c d HI Hi ltac:(unfold holds_master; by rewrite E) Hj Hne) as H.
    pose proof (Forall_lookup_1 _ _ _ _ Hq' Hj) as H'. unfold holds_master, guests, irq_due in *. cbn in H'. destruct (handler d); [lia|]. by destruct (thread d).
  - eexists. split; [done|]. apply Hgo; [done|done|]. intros d. cbn. lia.
  - destruct Hcalm as [[_ Hun] _]. rewrite Hun. eexists. split; [done|]. apply (left_put_data s _ i c); try done.
    + apply Hquiet; [unfold holds_master; by rewrite E|done].
    + intros d. unfold cpu_left. cbn. rewrite E. cbn. lia.
  - destruct Hcalm as [_ Hall]. destruct (Forall_lookup_1 _ _ _ _ Hall Hi) as [H _]. by rewrite E in H.
  - eexists. split; [done|]. apply Hgo; [done|done|]. intros d. cbn. lia.
Qed.

Definition settled s : Prop :=
  master s = false /\ guest s = 0 /\ lock s = false /\ count s = 0 /\
  Forall (fun c => thread c = Idle /\ handler c = None /\ pending c = false) (cpus s).

(** Unless everything is settled there is a step that brings the end nearer. *)
Lemma progress_step s : Inv n s -> calm s -> settled s \/ exists s', step LStep s s' /\ (left_ n s' < left_ n s)%nat.
Proof.
  intros HI Hcalm. destruct (decide (total irq_due s = 0)%nat) as [Hq|Hq].
  - destruct (decide (Forall (fun c => thread c = Idle) (cpus s))) as [Hidle|Hbusy].
    { left. assert (forall f : Cpu -> nat, (forall c, thread c = Idle -> handler c = None -> f c = 0%nat) -> total f s = 0%nat) as Hz.
      { intros f Hf. apply sum_zero, Forall_lookup. intros k d Hk. apply Hf; [by apply (Forall_lookup_1 _ _ _ _ Hidle Hk)|].
        apply sum_zero in Hq. pose proof (Forall_lookup_1 _ _ _ _ Hq Hk) as H. unfold irq_due in H. cbn in H. destruct (handler d); [lia|done]. }
      pose proof HI as [_ _ I3 I4 I5 I6 _ _ _]. rewrite Hq in I6. rewrite Hz in I3, I4, I5, I6 by (intros c Hc Hh; unfold holds_master, holds_lock, guests, own_due; by rewrite Hc, ?Hh).
      repeat split; [by destruct (master s)|done|by destruct (lock s)|done|].
      apply sum_zero in Hq. apply Forall_lookup. intros k d Hk. split; [by apply (Forall_lookup_1 _ _ _ _ Hidle Hk)|].
      pose proof (Forall_lookup_1 _ _ _ _ Hq Hk) as H. unfold irq_due in H. cbn in H. destruct (handler d), (pending d); cbn in H; try lia; done. }
    right. assert (exists i c, cpus s !! i = Some c /\ thread c <> Idle /\ (holds_master c = 1%nat \/ master s = false)) as (i & c & Hi & Hid & Hown).
    { destruct (master s) eqn:Em.
      - pose proof (inv_master _ _ HI) as H. rewrite Em in H. cbn in H. destruct (sum_pos holds_master (cpus s)) as (i & c & Hi & Hc); [unfold total in H; lia|].
        exists i, c. split; [done|]. unfold holds_master in *. destruct (thread c); cbn in *; try lia; split; (done || by left).
      - apply not_Forall_Exists in Hbusy; [|apply _]. apply Exists_exists in Hbusy as (c & (i & Hi)%list_elem_of_lookup & Hc). exists i, c. auto. }
    destruct (thread_progress s i c HI Hcalm Hq Hi Hid Hown) as (s' & Ht & Hlt). exists s'. split; [|done]. apply (step_thread i c); [done| |done].
    apply sum_zero in Hq. pose proof (Forall_lookup_1 _ _ _ _ Hq Hi) as H. unfold irq_due in H. cbn in H. destruct (handler c); [lia|done].
  - right. destruct (sum_pos irq_due (cpus s)) as (i & c & Hi & Hc); [unfold total in Hq; lia|].
    destruct (handler_owner n s i c HI Hi Hc) as (_ & _ & _ & _ & Hm & Hg). destruct (inv_cpu_at n _ _ _ HI Hi) as (_ & _ & _ & Hn).
    destruct (handler c) as [h|] eqn:Hh.
    + destruct Hcalm as [_ Hall]. destruct (Forall_lookup_1 _ _ _ _ Hall Hi) as [_ Hch]. rewrite Hh in Hch.
      destruct (hstep_progress s (tlb c) h Hm Hg Hch) as (h' & s1 & t & Hst & H1 & H2 & H3); [by intros ->|].
      eexists. split; [by apply (step_handler i c h h' s s1 t)|]. apply (left_put s s1 i c); [done|done|done|].
      intros d ->. unfold cpu_left. cbn. rewrite Hh. lia.
    + unfold irq_due in Hc. rewrite Hh in Hc. destruct (pending c) eqn:Hp; [|cbn in Hc; lia].
      eexists. split; [by apply (step_interrupt i c)|]. apply (left_put s s i c); [done|done|done|].
      intros d _. unfold cpu_left. cbn. rewrite Hh, Hp. lia.
Qed.

Lemma progress_run s : Inv n s -> calm s -> exists s', run (fun l => l = LStep) s s' /\ settled s'.
Proof.
  remember (left_ n s) as k eqn:Hk. revert s Hk. induction (lt_wf k) as [k _ IH]. intros s -> HI Hcalm.
  destruct (progress_step s HI Hcalm) as [Hset|(s1 & Hst & Hlt)]; [exists s; split; [constructor|done]|].
  destruct (IH _ Hlt s1 eq_refl) as (s' & Hr & Hset).
  - by apply (inv_step n LStep s).
  - by apply (calm_step LStep s).
  - exists s'. split; [|done]. by apply (rtc_l _ s s1); [exists LStep|].
Qed.

End Progress.

(** The addresses that a call of [shootdown] is for: those of a region of 4 KiB pages, and those of
    a range of pages that was converted.  Neither the region nor the page after it reaches the end
    of an address half. *)
Inductive asked `{VA : VirtAddrOps} : ShootdownContent -> Z -> Prop :=
| asked_region addr count x :
    addr mod 4096 = 0 -> span addr (4096 * count + 1) -> addr <= x < addr + 4096 * count -> asked (CShort (Kib4 addr count)) x
| asked_range size first n content x :
    first mod SIZE size = 0 -> span first (SIZE size * Z.of_nat (S n) + 4097) ->
    content_of_range size (pages_of size first (S n)) = Done content ->
    first <= x < first + SIZE size * Z.of_nat (S n) -> asked content x.

Section Claims.
Context `{VA : VirtAddrOps} {VL : VirtAddrLaws}.

Lemma pages_from_hits a n x : a mod 4096 = 0 -> a <= x < a + 4096 * Z.of_nat n -> hits (containing_address Size4KiB x) (Invlpg <$> pages_from a n).
Proof.
  intros Ha Hx. assert (containing_address Size4KiB x = a + 4096 * ((x - a) / 4096)) as Hc.
  { unfold containing_address. cbn [SIZE]. pose proof (Z.div_mod (x - a) 4096 ltac:(lia)) as Hd.
    assert ((x - a) mod 4096 = x mod 4096) as Hm by (rewrite Zminus_mod, Ha, Z.sub_0_r, Z.mod_mod by lia; done). lia. }
  assert (0 <= (x - a) / 4096 < Z.of_nat n) by (split; [apply Z.div_pos; lia|apply Z.div_lt_upper_bound; lia]).
  exists (a + 4096 * ((x - a) / 4096)). split.
  - apply list_elem_of_fmap. eexists. split; [done|]. apply list_elem_of_fmap. exists (Z.to_nat ((x - a) / 4096)).
    rewrite Z2Nat.id by lia. split; [done|]. apply elem_of_seq. lia.
  - rewrite Hc. apply containing_aligned. by rewrite Z.add_mod, Ha, Z.mul_comm, Z.mod_mul by lia.
Qed.

(** [invalidate] forgets every page that it is asked to. *)
Lemma asked_hits content x : asked content x -> hits (containing_address Size4KiB x) (invalidate content).
Proof using VL.
  intros [addr count y Ha Hs Hx|size first n c y Hf Hs Hc Hx].
  - cbn [invalidate flush]. rewrite flush_loop_ok by (done || (rewrite Z2Nat.id by lia; done)). apply pages_from_hits; [done|lia].
  - destruct (invalidate_range size first n Hf Hs) as (c' & Hc' & Hi). rewrite Hc in Hc'. injection Hc' as <-. rewrite Hi.
    apply pages_from_hits.
    + destruct size; cbn [SIZE] in Hf; [done|rewrite <- (Z.mod_mod_divide first 0x200000 4096) by (by exists 512)|rewrite <- (Z.mod_mod_divide first 0x40000000 4096) by (by exists 262144)]; by rewrite Hf.
    + assert (SIZE size = 4096 * (SIZE size / 4096)) by (by destruct size). nia.
Qed.

Lemma coherent_hits (s0 s1 s2 : Sys) (i : nat) (c c2 d : Cpu) (content : ShootdownContent) (a : Z) (k : nat) :
  initial s0 -> run (fun l => l <> LTarget) s0 s1 ->
  cpus s1 !! i = Some c -> thread c = Idle -> handler c = None -> mask c = false -> hits a (invalidate content) ->
  run (fun l => l <> LTarget /\ l <> LWrite a) (shootdown i c content s1) s2 ->
  cpus s2 !! i = Some c2 -> thread c2 = Idle -> cpus s2 !! k = Some d -> clean s2 a d.
Proof.
  intros H0 Hr1 Hi Hid Hh Hm Hhit Hr2 Hi2 Hid2 Hk. set (n := length (cpus s0)).
  pose proof (inv_run n (fun l => l <> LTarget) s0 s1 (fun l Hl => Hl) (inv_initial n s0 H0 eq_refl) Hr1) as HI1.
  set (op := mkOp (Z.of_nat (length (cpus s1))) None true content).
  assert (Inv n (shootdown i c content s1)) as HI by (apply (inv_step n (LCall content) s1); [done|done|by constructor]).
  assert (on_the_way i op a (shootdown i c content s1)) as Hj.
  { unfold shootdown. rewrite Hm. right. exists (set_thread (SetSpin op) c). cbn. rewrite list_lookup_insert_eq by (by eapply lookup_lt_Some). auto. }
  assert (on_the_way i op a s2) as [Hcl|(c' & Hi' & Hph)].
  { clear -Hr2 HI Hj Hhit. induction Hr2 as [|s s' s2 (l & [Hl1 Hl2] & Hst) _ IH]; [done|].
    apply IH; [by apply (inv_step n l s)|by apply (on_the_way_step n l s)]. }
  - by apply (Forall_lookup_1 _ _ _ _ Hcl Hk).
  - rewrite Hi2 in Hi'. injection Hi' as <-. rewrite Hid2 in Hph. by destruct Hph as [|[]].
Qed.

(** C4. When [shootdown] returns, no CPU uses an old translation of the pages it was called for.  The
    content is a region of any number of 4 KiB pages, or what a range of pages of any size is
    converted to; the region does not touch the end of an address half, and shootdowns are enabled on the calling CPU.
    Any number of CPUs run, any number of shootdowns to all CPUs overlap (there are no targeted ones), and page tables and
    caches change in between in any way, apart from the page in question, whose entry is not
    changed again before the call returns: then whatever a CPU has cached for a 4 KiB page of the region is
    what memory holds. *)
Theorem shootdown_coherent (s0 s1 s2 : Sys) (i : nat) (c c2 d : Cpu) (content : ShootdownContent) (x : Z) (k : nat) :
  let a := containing_address Size4KiB x in
  initial s0 -> run (fun l => l <> LTarget) s0 s1 ->
  cpus s1 !! i = Some c -> thread c = Idle -> handler c = None -> mask c = false ->
  asked content x ->
  run (fun l => l <> LTarget /\ l <> LWrite a) (shootdown i c content s1) s2 ->
  cpus s2 !! i = Some c2 -> thread c2 = Idle ->
  cpus s2 !! k = Some d -> clean s2 a d.
Proof using VL.
  intros a H0 Hr1 Hi Hid Hh Hm Hx Hr2 Hi2 Hid2 Hk. apply (coherent_hits s0 s1 s2 i c c2 d content a k); try done. by apply asked_hits.
Qed.


(** The drop of a list of more than 256 regions waits for ever: the shootdown that frees the memory
    of the list spins on [master], which this CPU gives back only after the drop. *)
Theorem long_drop_never_returns (s0 s s' : Sys) (i : nat) (c : Cpu) (op : Op) :
  initial s0 -> run (fun l => l <> LTarget) s0 s -> cpus s !! i = Some c -> thread c = DropNested op ->
  run (fun l => l <> LTarget) s s' -> exists c', cpus s' !! i = Some c' /\ thread c' = DropNested op.
Proof.
  intros H0 Hr Hi E Hr'. pose proof (inv_run _ (fun l => l <> LTarget) s0 s (fun l Hl => Hl) (inv_initial _ s0 H0 eq_refl) Hr) as HI.
  clear H0 Hr. revert c HI Hi E. induction Hr' as [s|s s1 s2 (l & Hl & Hst) _ IH]; intros c HI Hi E; [by exists c|].
  destruct (thread_control l s s1 i c Hst Hi) as (c' & Hi' & Hth); [by rewrite E|]. apply (IH c'); [by apply (inv_step _ l s)|done|].
  destruct Hth as [Hth|Ht]; [congruence|]. rewrite E in Ht. cbn [tstep] in Ht. destruct (master s); [|done]. injection Ht as <-. congruence.
Qed.

(** The iterator of the targets has always one more. *)
Definition endless (P : option nat -> Prop) (bm : CpuBMap) : Prop :=
  P None /\ forall last, P last -> exists t, CpuBMap.next bm last = Done (Some t, Some t) /\ P (Some t).

(** The places a targeted call whose iteration does not end can be at. *)
Definition sending (P : option nat -> Prop) (op : Op) (p : Pc) : Prop :=
  match p with
  | SetSpin o | SetWrite o | SetGuest o | SyncSpin o | SyncStore o => o = op
  | SendTo o last => o = op /\ P last
  | Panicked => True
  | _ => False
  end.

Lemma endless_step P bm op l s s' i c :
  endless P bm -> op_targets op = Some bm -> step l s s' -> cpus s !! i = Some c -> sending P op (thread c) ->
  exists c', cpus s' !! i = Some c' /\ sending P op (thread c').
Proof.
  intros [HP0 HP] Hop Hst Hi Hs. assert (thread c <> Idle) as Hid by (intros E; by rewrite E in Hs).
  destruct (thread_control l s s' i c Hst Hi Hid) as (c' & Hi' & [Hth|Ht]); [exists c'; by rewrite Hth|].
  assert (forall p s1, length (cpus s1) = length (cpus s) -> sending P op p -> Some (put i (set_thread p c) s1) = Some s' ->
    exists c', cpus s' !! i = Some c' /\ sending P op (thread c')) as Hgo.
  { intros p s1 Hlen Hp [= <-]. exists (set_thread p c). cbn. rewrite list_lookup_insert_eq; [done|]. rewrite Hlen. by eapply lookup_lt_Some. }
  assert (Some s = Some s' -> exists c', cpus s' !! i = Some c' /\ sending P op (thread c')) as Hstay by (intros [= <-]; by exists c).
  destruct (thread c) as [|o|o|o|o|o|o|o last|o h|o|o|o|o|o|o|o|] eqn:E; try done; cbn [tstep] in Ht.
  - cbn in Hs. subst o. destruct (master s); [by apply Hstay|by apply Hgo in Ht].
  - cbn in Hs. subst o. by apply Hgo in Ht.
  - cbn in Hs. subst o. by apply Hgo in Ht.
  - cbn in Hs. subst o. destruct (lock s); [by apply Hstay|by apply Hgo in Ht].
  - cbn in Hs. subst o. rewrite Hop in Ht. by apply Hgo in Ht.
  - destruct Hs as [-> Hlast]. rewrite Hop in Ht. destruct (HP last Hlast) as (t & Hn & Ht'). rewrite Hn in Ht.
    case_bool_decide; [|by apply Hgo in Ht]. apply Hgo in Ht; [done|cbn; by rewrite length_alter|done].
Qed.

(** A targeted shootdown of several CPUs does not end.  When the targets other than the calling
    CPU contain CPU 0, or two of the CPUs 1 to 63, the iterator over them never comes to its end:
    the caller goes on sending interrupts, keeps the list of pages locked, and never returns. *)
Theorem target_shootdown_never_returns (s s' : Sys) (i : nat) (c c' : Cpu) (targets : CpuBMap) (content : ShootdownContent) :
  cpus s !! i = Some c -> mask c = false -> CpuBMap.wf targets ->
  (i <> 0%nat /\ CpuBMap.get targets 0 = true \/
   exists a b, (0 < a < b)%nat /\ (b < 64)%nat /\ a <> i /\ b <> i /\ CpuBMap.get targets a = true /\ CpuBMap.get targets b = true) ->
  run (fun _ => True) (target_shootdown i c targets content s) s' ->
  cpus s' !! i = Some c' -> thread c' <> Idle.
Proof.
  intros Hi Hm Hwf Ht Hr Hi'. set (bm := if CpuBMap.get targets i then CpuBMap.clear_bit targets i else targets).
  assert (forall j, j <> i -> CpuBMap.get bm j = CpuBMap.get targets j) as Hbm.
  { intros j Hj. unfold bm. destruct (CpuBMap.get targets i); [|done]. rewrite CpuBMap.clear_bit_get by done. rewrite bool_decide_false by done. done. }
  assert (exists P, endless P bm) as [P HP].
  { destruct Ht as [[Hi0 H0]|(a & b & H1 & H2 & H3 & H4 & H5 & H6)].
    - exists (fun last => last = None \/ last = Some 0%nat). rewrite <- Hbm in H0 by done. split; [by left|].
      intros last [-> | ->]; exists 0%nat; (split; [|by right]); [unfold CpuBMap.next; by rewrite H0|by apply CpuBMap.next_stuck].
    - exists (fun last => forall m, last = Some m -> (m < 64)%nat). split; [done|]. intros last Hl.
      destruct (CpuBMap.next_two bm a b last) as (t & Hn & Hlt); [done|done|by rewrite Hbm|by rewrite Hbm|done|]. exists t. split; [done|]. by intros m [= <-]. }
  unfold target_shootdown in Hr. rewrite Hm in Hr. cbn [CpuBMap.count] in Hr. fold bm in Hr. set (op := mkOp _ (Some bm) _ content) in Hr.
  assert (exists c', cpus s' !! i = Some c' /\ sending P op (thread c')) as (c2 & Hc2 & Hs).
  { assert (exists c', cpus (put i (set_thread (SetSpin op) c) s) !! i = Some c' /\ sending P op (thread c')) as H0.
    { eexists. cbn. rewrite list_lookup_insert_eq by (by eapply lookup_lt_Some). done. }
    revert H0. induction Hr as [|s1 s2 s3 (l & _ & Hst) _ IH]; [done|]. intros (d & Hd & Hp). apply IH.
    - done.
    - clear -Hst Hd Hp HP. by apply (endless_step P bm op l s1 s2 i d). }
  rewrite Hi' in Hc2. injection Hc2 as <-. intros E. by rewrite E in Hs.
Qed.

End Claims.

(** ** A machine with two CPUs *)
Module TlbWitness.
Import PageTableWitness.

(** A schedule: which CPU moves next, in its thread, by taking the interrupt, or in its handler. *)
Inductive Act := AThread (i : nat) | AInterrupt (i : nat) | AHandler (i : nat).

Definition act (a : Act) (s : Sys) : option Sys :=
  match a with
  | AThread i =>
      match cpus s !! i with
      | Some c => match handler c with None => tstep i c (thread c) s | Some _ => None end
      | None => None
      end
  | AInterrupt i =>
      match cpus s !! i with
      | Some c =>
          match handler c, pending c with
          | None, true => Some (put i (set_pending false (set_handler (Some HVisit) c)) s)
          | _, _ => None
          end
      | None => None
      end
  | AHandler i =>
      match cpus s !! i with
      | Some c =>
          match handler c with
          | Some h => match hstep h s (tlb c) with Some (h', s', t) => Some (put i (set_tlb t (set_handler h' c)) s') | None => None end
          | None => None
          end
      | None => None
      end
  end.

Definition play (l : list Act) (s : Sys) : option Sys := fold_left (fun s a => match s with Some s => act a s | None => None end) l (Some s).

Lemma act_step a s s' : act a s = Some s' -> step LStep s s'.
Proof.
  destruct a as [i|i|i]; cbn [act]; destruct (cpus s !! i) as [c|] eqn:Hi; try done; destruct (handler c) as [h|] eqn:Hh; try done.
  - intros Ht. by apply (step_thread i c).
  - destruct (pending c) eqn:Hp; [|done]. intros [= <-]. by apply step_interrupt.
  - destruct (hstep h s (tlb c)) as [[[h' s1] t]|] eqn:E; [|done]. intros [= <-]. by apply (step_handler i c h).
Qed.

Lemma play_run (ok : Lbl -> Prop) l s s' : ok LStep -> play l s = Some s' -> run ok s s'.
Proof.
  intros Hok. revert s. induction l as [|a l IH]; intros s; unfold play; cbn; [intros [= <-]; constructor|].
  destruct (act a s) as [s1|] eqn:E; [|intros H; exfalso; clear -H; induction l; [done|]; cbn in H; done].
  intros H. apply (rtc_l _ s s1); [exists LStep; split; [done|]; by apply (act_step a)|]. by apply IH.
Qed.

(** CPU 1 has cached page [0x5000], which is not mapped any more. *)
Definition cpu0 : Cpu := mkCpu Idle None false false ∅.
Definition cpu1 : Cpu := mkCpu Idle None false false {[ 0x5000 := 0x9003 ]}.
Definition two : Sys := mkSys false 0 CNone false 0 0 ∅ [cpu0; cpu1].

Definition called : Sys := shootdown 0 cpu0 (content_of_page Size4KiB 0x5000) two.

Definition schedule : list Act :=
  replicate 6 (AThread 0) ++ [AInterrupt 1; AHandler 1] ++ replicate 9 (AThread 0) ++ replicate 8 (AHandler 1) ++ replicate 6 (AThread 0).

Definition finished : Sys := match play schedule called with Some s => s | None => two end.

Lemma two_initial : initial two.
Proof. unfold initial. cbn. repeat split; try lia. repeat constructor. Qed.

Example stale_before : ~ clean two 0x5000 cpu1.
Proof. intros H. by specialize (H 0x9003 eq_refl). Qed.

Lemma shootdown_coherent_witness : clean finished 0x5000 (default cpu0 (cpus finished !! 1%nat)).
Proof.
  apply (shootdown_coherent two two finished 0 cpu0 (default cpu1 (cpus finished !! 0%nat)) _ (content_of_page Size4KiB 0x5000) 0x5123 1);
    [exact two_initial|constructor|done..|constructor; [done|left; lia|lia]| |vm_compute; reflexivity|vm_compute; reflexivity|vm_compute; reflexivity].
  apply (play_run _ schedule); [done|]. vm_compute. reflexivity.
Defined.


(** A list of 257 regions comes to that point. *)
Example long_drop_reached :
  let s := shootdown 0 cpu0 (CLong (replicate 257 0)) two in
  let schedule := replicate 6 (AThread 0) ++ [AInterrupt 1] ++ replicate 8 (AThread 0) ++ replicate 8 (AHandler 1) ++ replicate 5 (AThread 0) in
  match play schedule s with Some s => match thread <$> cpus s !! 0%nat with Some (DropNested _) => true | _ => false end | None => false end = true.
Proof. vm_compute. reflexivity. Qed.

Lemma target_shootdown_never_returns_witness :
  thread (default cpu1 (cpus (target_shootdown 0 cpu0 (CpuBMap.mk [6]) CNone two) !! 0%nat)) <> Idle.
Proof.
  apply (target_shootdown_never_returns two (target_shootdown 0 cpu0 (CpuBMap.mk [6]) CNone two) 0 cpu0 _ (CpuBMap.mk [6]) CNone); [done|done| | |constructor|done].
  - repeat constructor; cbn; lia.
  - right. exists 1%nat, 2%nat. split; [lia|]. split; [lia|]. split; [done|]. done.
Defined.

End TlbWitness.
