(* ===== verification/Mutex.v ===== *)
(** * Spin locks

    Model of [kernel/src/util/mutex.rs]: the plain [Mutex] and the [ReentrantMutex] that guards
    the heap allocators.  CPUs run concurrently; every atomic access of the source is one step,
    and steps of different CPUs interleave freely.  Atomics are modelled as sequentially
    consistent.  [force_acquire] (documented as breaking the exclusion) and handlers that
    interrupt a CPU inside a critical section are left out. *)
From stdpp Require Import prelude functions.
From S2P Require Import Prelude.

(** Reflexive transitive closure of a step relation, as used by the concurrent models. *)
Inductive steps {S : Type} (R : S -> S -> Prop) : S -> S -> Prop :=
| steps_refl s : steps R s s
| steps_trans s1 s2 s3 : steps R s1 s2 -> R s2 s3 -> steps R s1 s3.

Lemma steps_invariant {S} (R : S -> S -> Prop) (I : S -> Prop) :
  (forall s s', I s -> R s s' -> I s') -> forall s s', steps R s s' -> I s -> I s'.
Proof. intros HR s s' Hs. induction Hs; eauto. Qed.

Lemma steps_app {S} (R : S -> S -> Prop) s1 s2 s3 :
  steps R s1 s2 -> steps R s2 s3 -> steps R s1 s3.
Proof. intros H1 H2. induction H2; eauto using steps_trans. Qed.

Module SpinMutex.

(** [Mutex]: the lock bit, and for each CPU how many [MutexGuard]s it holds. *)
Record state := mk { lock : bool; held : nat -> nat }.

Definition init : state := mk false (fun _ => 0).

(** [try_lock]: [compare_exchange_weak(false, true)]; a failed or spurious exchange returns
    [None] and leaves the lock alone. *)
Inductive step : state -> state -> Prop :=
| try_lock_ok s cpu :
    lock s = false -> step s (mk true (<[cpu := S (held s cpu)]> (held s)))
| try_lock_fail s (cpu : nat) : step s s
| drop_guard s cpu :
    0 < held s cpu -> step s (mk false (<[cpu := held s cpu - 1]> (held s))).

Definition inv (s : state) : Prop :=
  match lock s with
  | false => forall c, held s c = 0
  | true => exists o, forall c, held s c = if decide (c = o) then 1 else 0
  end.

Lemma spin_step_inv s s' : inv s -> step s s' -> inv s'.
Proof.
  unfold inv. intros Hi Hs. destruct Hs as [s cpu Hl|s cpu|s cpu Hg]; cbn [lock held].
  - rewrite Hl in Hi. exists cpu. intros c. case_decide; subst.
    + rewrite fn_lookup_insert. by rewrite Hi.
    + by rewrite fn_lookup_insert_ne.
  - done.
  - destruct (lock s); [|specialize (Hi cpu); lia]. destruct Hi as [o Ho].
    intros c. destruct (decide (cpu = c)) as [->|].
    + rewrite fn_lookup_insert, Ho. case_decide; lia.
    + rewrite fn_lookup_insert_ne by done. rewrite Ho in *.
      repeat case_decide; subst; lia.
Qed.

(** Mutual exclusion for [Mutex]: in every reachable state at most one guard exists across
    all CPUs. *)
Theorem spin_mutex_exclusive (s : state) (c c' : nat) :
  steps step init s -> 0 < held s c -> 0 < held s c' -> c = c' /\ held s c = 1.
Proof.
  intros Hr Hc Hc'. assert (inv s) as Hi by (eapply steps_invariant; eauto using spin_step_inv; by cbn).
  unfold inv in Hi. destruct (lock s); [|rewrite Hi in Hc; lia].
  destruct Hi as [o Ho]. rewrite !Ho in *. repeat case_decide; subst; lia.
Qed.

Lemma spin_mutex_exclusive_witness :
  exists s, steps step init s /\ 0 < held s 3 /\ held s 3 = 1.
Proof.
  assert (steps step init (mk true (<[3 := 1]> (fun _ => 0)))) as Hr.
  { eapply steps_trans; [apply steps_refl|]. by apply (try_lock_ok init 3). }
  eexists. split; [exact Hr|]. split; [vm_compute; lia|].
  apply (spin_mutex_exclusive _ 3 3 Hr); vm_compute; lia.
Defined.

End SpinMutex.

Module ReentrantMutex.

(** Shared words of the mutex. *)
Record shared := mkShared { control : bool; owner : option nat; lock_count : Z }.

(** Which entry point runs: [try_lock_inner] (also the body of [lock] and [try_lock]) or
    [try_lock_pedantic]. *)
Inductive mode := Inner | Pedantic.

(** Where a CPU is.  [Idle]: outside the mutex code (it may hold guards).  The next five points
    lie between the successful exchange on [control] and its release; [Unlocking] is the point
    of [unlock] after the count dropped to zero and before the owner is cleared. *)
Inductive pc :=
| Idle
| Entered (m : mode)
| LoadedNone
| StoredOwner
| LoadedSelf
| Leaving
| Unlocking.

Record state := mk { sh : shared; pcs : nat -> pc; guards : nat -> nat }.

Definition init : state := mk (mkShared false None 0) (fun _ => Idle) (fun _ => 0).

Definition set_pc (s : state) (cpu : nat) (p : pc) : nat -> pc := <[cpu := p]> (pcs s).

(** One atomic access by one CPU. *)
Inductive step : state -> state -> Prop :=
| control_ok s cpu m :
    pcs s cpu = Idle -> control (sh s) = false ->
    step s (mk (mkShared true (owner (sh s)) (lock_count (sh s))) (set_pc s cpu (Entered m)) (guards s))
| control_fail s cpu :
    pcs s cpu = Idle -> step s s
| load_none s cpu m :
    pcs s cpu = Entered m -> owner (sh s) = None ->
    step s (mk (sh s) (set_pc s cpu LoadedNone) (guards s))
| load_self s cpu m :
    pcs s cpu = Entered m -> owner (sh s) = Some cpu ->
    step s (mk (sh s) (set_pc s cpu match m with Inner => LoadedSelf | Pedantic => Leaving end) (guards s))
| load_other s cpu m o :
    pcs s cpu = Entered m -> owner (sh s) = Some o -> o <> cpu ->
    step s (mk (sh s) (set_pc s cpu Leaving) (guards s))
| store_owner s cpu :
    pcs s cpu = LoadedNone ->
    step s (mk (mkShared (control (sh s)) (Some cpu) (lock_count (sh s))) (set_pc s cpu StoredOwner) (guards s))
| count_up s cpu :
    (pcs s cpu = StoredOwner \/ pcs s cpu = LoadedSelf) ->
    (* a CPU cannot hold 2^64 guard values *)
    (Z.of_nat (guards s cpu) + 1 < 2 ^ 64)%Z ->
    step s (mk (mkShared (control (sh s)) (owner (sh s)) (lock_count (sh s) ⊕ 1))
               (set_pc s cpu Leaving) (<[cpu := S (guards s cpu)]> (guards s)))
| release s cpu :
    pcs s cpu = Leaving ->
    step s (mk (mkShared false (owner (sh s)) (lock_count (sh s))) (set_pc s cpu Idle) (guards s))
| unlock s cpu :
    pcs s cpu = Idle -> 0 < guards s cpu ->
    step s (mk (mkShared (control (sh s)) (owner (sh s)) (lock_count (sh s) ⊖ 1))
               (set_pc s cpu (if (lock_count (sh s) =? 1)%Z then Unlocking else Idle))
               (<[cpu := guards s cpu - 1]> (guards s)))
| clear_owner s cpu :
    pcs s cpu = Unlocking ->
    step s (mk (mkShared (control (sh s)) None (lock_count (sh s))) (set_pc s cpu Idle) (guards s)).

(** The CPU is inside the region protected by the control bit. *)
Definition in_control (p : pc) : bool :=
  match p with Idle | Unlocking => false | _ => true end.

(** What is known of one CPU given the shared words. *)
Definition pc_ok (sh : shared) (p : pc) (cpu g : nat) : Prop :=
  match p with
  | Idle | Leaving => owner sh = Some cpu <-> 0 < g
  | Entered _ => owner sh = Some cpu <-> 0 < g
  | LoadedNone => owner sh = None
  | StoredOwner => owner sh = Some cpu /\ g = 0
  | LoadedSelf => owner sh = Some cpu /\ 0 < g
  | Unlocking => owner sh = Some cpu /\ g = 0
  end.

Record inv (s : state) : Prop := {
  inv_control : forall c, in_control (pcs s c) = true -> control (sh s) = true;
  inv_single : forall c c', in_control (pcs s c) = true -> in_control (pcs s c') = true -> c = c';
  inv_owner : forall c, 0 < guards s c -> owner (sh s) = Some c;
  inv_count : match owner (sh s) with
              | None => lock_count (sh s) = 0%Z
              | Some o => lock_count (sh s) = Z.of_nat (guards s o) /\ (Z.of_nat (guards s o) < 2 ^ 64)%Z
              end;
  inv_pc : forall c, pc_ok (sh s) (pcs s c) c (guards s c);
}.

Lemma reentrant_init_inv : inv init.
Proof. split; cbn; try done; try lia. intros c. split; [done|lia]. Qed.

(** Case split on whether an updated function is read at the updated CPU. *)
Ltac at_cpu cpu c :=
  let Hne := fresh "Hne" in
  destruct (decide (cpu = c)) as [<-|Hne];
  rewrite ?fn_lookup_insert, ?fn_lookup_insert_ne in * by done.

(** A CPU other than [cpu] keeps its [pc_ok] when the owner changes from [o] to [o'] and neither
    is that CPU, unless it relied on the owner being unset. *)
Lemma pc_ok_owner ctl o ctl' o' n n' p c g :
  pc_ok (mkShared ctl o n) p c g -> o <> Some c -> o' <> Some c -> (p = LoadedNone -> o' = None) ->
  pc_ok (mkShared ctl' o' n') p c g.
Proof. destruct p; cbn; intuition congruence. Qed.

Lemma pc_ok_count ctl o ctl' n n' p c g :
  pc_ok (mkShared ctl o n) p c g -> pc_ok (mkShared ctl' o n') p c g.
Proof. by destruct p. Qed.

Lemma in_control_others s cpu c :
  inv s -> in_control (pcs s cpu) = true -> cpu <> c -> in_control (pcs s c) = false.
Proof.
  intros Hi H Hne. destruct (in_control (pcs s c)) eqn:E; [|done].
  destruct Hne. by apply (inv_single s).
Qed.

Lemma not_in_control_free s c : inv s -> control (sh s) = false -> in_control (pcs s c) = false.
Proof.
  intros Hi H. destruct (in_control (pcs s c)) eqn:E; [|done].
  apply (inv_control s Hi) in E. congruence.
Qed.

Lemma not_owner_no_guard s c : inv s -> owner (sh s) <> Some c -> guards s c = 0.
Proof.
  intros Hi H. destruct (guards s c) eqn:E; [done|]. destruct H. apply (inv_owner s Hi). lia.
Qed.

(** The control-bit part of the invariant survives a step that changes only the program point of
    [cpu] (to [p']) and possibly the control bit (to [b]). *)
Lemma control_part s cpu p' b :
  inv s ->
  (in_control p' = true -> b = true /\ forall c, cpu <> c -> in_control (pcs s c) = false) ->
  (in_control p' = false -> forall c, cpu <> c -> in_control (pcs s c) = true -> b = true) ->
  (forall c, in_control (set_pc s cpu p' c) = true -> b = true) /\
  (forall c c', in_control (set_pc s cpu p' c) = true -> in_control (set_pc s cpu p' c') = true -> c = c').
Proof.
  intros Hi H1 H2. unfold set_pc. split.
  - intros c Hc. at_cpu cpu c; [by apply H1|].
    destruct (in_control p') eqn:E; [by apply H1|]. by apply (H2 eq_refl c).
  - intros c c' Hc Hc'. at_cpu cpu c; at_cpu cpu c'; try done.
    + apply H1 in Hc as [_ Hc]. rewrite Hc in Hc' by done. done.
    + apply H1 in Hc' as [_ Hc']. rewrite Hc' in Hc by done. done.
    + by apply (inv_single s Hi).
Qed.

(** A step that moves [cpu] to [p'] and sets the control bit to [b], leaving owner, count and
    guards alone. *)
Lemma inv_move s cpu p' b :
  inv s ->
  (in_control p' = true -> b = true /\ forall c, cpu <> c -> in_control (pcs s c) = false) ->
  (in_control p' = false -> forall c, cpu <> c -> in_control (pcs s c) = true -> b = true) ->
  pc_ok (sh s) p' cpu (guards s cpu) ->
  inv (mk (mkShared b (owner (sh s)) (lock_count (sh s))) (set_pc s cpu p') (guards s)).
Proof.
  intros Hi H1 H2 Hp. destruct (control_part s cpu p' b Hi H1 H2) as [Hc Hs].
  pose proof Hi as [Ic Is Io In Ip]. split; cbn; try done.
  intros c. unfold set_pc. destruct (sh s). at_cpu cpu c; [by eapply pc_ok_count|].
  eapply pc_ok_count, Ip.
Qed.

(** A move between two points of the control region. *)
Lemma inv_inside s cpu p' :
  inv s -> in_control (pcs s cpu) = true -> in_control p' = true ->
  pc_ok (sh s) p' cpu (guards s cpu) -> inv (mk (sh s) (set_pc s cpu p') (guards s)).
Proof.
  intros Hi H Hp Hok.
  replace (sh s) with (mkShared (control (sh s)) (owner (sh s)) (lock_count (sh s))) at 1
    by by destruct (sh s).
  apply inv_move; try done; [|congruence].
  intros _. split; [by apply (inv_control s Hi cpu)|]. intros c ?. by apply (in_control_others s cpu).
Qed.

(** The count and guard part of a step: [cpu], which owns the mutex, ends up with [g'] guards at
    point [p'] and the count follows. *)
Lemma inv_recount s cpu p' g' n' :
  inv s -> owner (sh s) = Some cpu ->
  (in_control p' = in_control (pcs s cpu)) ->
  n' = Z.of_nat g' -> (n' < 2 ^ 64)%Z -> pc_ok (sh s) p' cpu g' ->
  inv (mk (mkShared (control (sh s)) (owner (sh s)) n') (set_pc s cpu p') (<[cpu := g']> (guards s))).
Proof.
  intros Hi Ho Hp -> Hlt Hok.
  destruct (control_part s cpu p' (control (sh s)) Hi) as [Hc Hs].
  { intros E. rewrite Hp in E. split; [by apply (inv_control s Hi cpu)|].
    intros c ?. by apply (in_control_others s cpu). }
  { intros _ c _ E. by apply (inv_control s Hi c). }
  pose proof Hi as [Ic Is Io In Ip]. split; cbn; try done.
  - intros c. at_cpu cpu c; [done|]. intros Hg. by apply Io.
  - rewrite Ho. by rewrite fn_lookup_insert.
  - intros c. unfold set_pc. destruct (sh s) as [ctl o n]. cbn in *. subst.
    at_cpu cpu c; [by eapply pc_ok_count|]. eapply pc_ok_count, Ip.
Qed.

(** A step of [cpu] that changes the owner from [o] to [o'] while [cpu] holds no guard. *)
Lemma inv_reowner s cpu p' o' :
  inv s -> guards s cpu = 0 ->
  (forall c, owner (sh s) = Some c -> c = cpu) -> (forall c, o' = Some c -> c = cpu) ->
  (o' = None \/ in_control (pcs s cpu) = true) ->
  (in_control p' = in_control (pcs s cpu)) ->
  (forall ctl n, pc_ok (mkShared ctl o' n) p' cpu 0) ->
  inv (mk (mkShared (control (sh s)) o' (lock_count (sh s))) (set_pc s cpu p') (guards s)).
Proof.
  intros Hi Hg Ho Ho' Hsole Hp Hok.
  destruct (control_part s cpu p' (control (sh s)) Hi) as [Hc Hs].
  { intros E. rewrite Hp in E. split; [by apply (inv_control s Hi cpu)|].
    intros c ?. by apply (in_control_others s cpu). }
  { intros _ c _ E. by apply (inv_control s Hi c). }
  pose proof Hi as [Ic Is Io In Ip]. split; cbn; try done.
  - intros c Hc'. assert (c = cpu) as -> by (apply Ho, Io; done). lia.
  - assert (lock_count (sh s) = 0%Z) as ->.
    { destruct (owner (sh s)) as [o|]; [|done]. rewrite (Ho o), Hg in In by done. apply In. }
    destruct o' as [o|]; [|done]. rewrite (Ho' o) by done. rewrite Hg. done.
  - intros c. unfold set_pc. at_cpu cpu c; [rewrite Hg; apply Hok|].
    destruct (sh s) as [ctl o n] eqn:Es. cbn in *.
    eapply pc_ok_owner; [apply Ip|intros E; by apply Hne; symmetry; apply Ho
      |intros E; by apply Hne; symmetry; apply Ho'|].
    intros E. destruct Hsole as [?|Hin]; [done|].
    pose proof (in_control_others s cpu c Hi Hin ltac:(done)) as Hf. by rewrite E in Hf.
Qed.

Lemma reentrant_step_inv s s' : inv s -> step s s' -> inv s'.
Proof.
  intros Hi Hs.
  destruct Hs as [s cpu m Hpc Hc|s cpu Hpc|s cpu m Hpc Ho|s cpu m Hpc Ho|s cpu m o Hpc Ho Hne
    |s cpu Hpc|s cpu Hpc Hb|s cpu Hpc|s cpu Hpc Hg|s cpu Hpc];
    pose proof (inv_pc s Hi cpu) as Hok; pose proof (inv_count s Hi) as Hn.
  - rewrite Hpc in Hok. apply inv_move; try done.
    intros _. split; [done|]. intros c _. by apply not_in_control_free.
  - done.
  - apply inv_inside; rewrite ?Hpc; done.
  - rewrite Hpc in Hok. apply inv_inside; rewrite ?Hpc; destruct m; cbn in *; tauto.
  - rewrite Hpc in Hok. apply inv_inside; rewrite ?Hpc; cbn in *; done.
  - rewrite Hpc in Hok. cbn in Hok. apply inv_reowner; rewrite ?Hpc; try done.
    + apply not_owner_no_guard; [done|]. by rewrite Hok.
    + naive_solver.
    + naive_solver.
    + by right.
  - assert (owner (sh s) = Some cpu) as Ho by (destruct Hpc as [E|E]; rewrite E in Hok; apply Hok).
    rewrite Ho in Hn. destruct Hn as [Hn Hlt].
    apply inv_recount; try done.
    + destruct Hpc as [E|E]; by rewrite E.
    + rewrite wadd_small by lia. lia.
    + rewrite wadd_small by lia. lia.
    + cbn. split; [lia|done].
  - rewrite Hpc in Hok. apply inv_move; try done.
    intros _ c Hne Hin. rewrite (in_control_others s cpu c) in Hin; try done. by rewrite Hpc.
  - assert (owner (sh s) = Some cpu) as Ho by by apply (inv_owner s Hi).
    rewrite Ho in Hn. destruct Hn as [Hn Hlt].
    apply inv_recount; try done.
    + rewrite Hpc. by case_match.
    + rewrite wsub_small by lia. lia.
    + rewrite wsub_small by lia. lia.
    + destruct (lock_count (sh s) =? 1)%Z eqn:E; bool_to_prop; cbn.
      * split; [done|lia].
      * split; [lia|done].
  - rewrite Hpc in Hok. destruct Hok as [Ho Hg]. apply inv_reowner; rewrite ?Hpc; try done.
    + naive_solver.
    + by left.
    + cbn. split; [done|lia].
Qed.

(** C39. Mutual exclusion and reentrancy of [ReentrantMutex]: in every interleaving, guards are
    held by one CPU only, that CPU is the recorded owner, and [lock_count] is the number of
    guards it holds. *)
Theorem reentrant_mutex_exclusive (s : state) (c c' : nat) :
  steps step init s -> 0 < guards s c ->
  (0 < guards s c' -> c = c') /\ owner (sh s) = Some c /\ lock_count (sh s) = Z.of_nat (guards s c).
Proof.
  intros Hr Hg. assert (inv s) as Hi by (eapply steps_invariant; eauto using reentrant_step_inv, reentrant_init_inv).
  pose proof (inv_owner s Hi c Hg) as Ho. split; [|split; [done|]].
  - intros Hg'. pose proof (inv_owner s Hi c' Hg'). congruence.
  - pose proof (inv_count s Hi) as Hn. rewrite Ho in Hn. apply Hn.
Qed.

Lemma reentrant_mutex_exclusive_witness :
  exists s, steps step init s /\ guards s 1 = 1 /\ owner (sh s) = Some 1.
Proof.
  pose (s1 := mk (mkShared true None 0) (set_pc init 1 (Entered Inner)) (guards init)).
  pose (s2 := mk (sh s1) (set_pc s1 1 LoadedNone) (guards s1)).
  pose (s3 := mk (mkShared true (Some 1) 0) (set_pc s2 1 StoredOwner) (guards s2)).
  pose (s4 := mk (mkShared true (Some 1) (0 ⊕ 1)) (set_pc s3 1 Leaving) (<[1 := 1]> (guards s3))).
  assert (steps step init s4) as Hr.
  { eapply steps_trans; [|by apply (count_up s3 1); [left|]].
    eapply steps_trans; [|by apply (store_owner s2 1)].
    eapply steps_trans; [|by apply (load_none s1 1 Inner)].
    eapply steps_trans; [|by apply (control_ok init 1 Inner)]. apply steps_refl. }
  exists s4. split; [exact Hr|]. split; [reflexivity|].
  apply (reentrant_mutex_exclusive s4 1 1 Hr). vm_compute. lia.
Defined.

(** Locking a free mutex, or one the CPU already owns, succeeds: when the control bit is clear
    and no other CPU is the owner, [try_lock_inner] run without interference returns a guard and
    leaves the CPU outside the mutex code with the control bit clear again. *)
Theorem reentrant_try_lock_succeeds (s : state) (cpu : nat) :
  steps step init s -> pcs s cpu = Idle -> control (sh s) = false ->
  (owner (sh s) = None \/ owner (sh s) = Some cpu) -> (Z.of_nat (guards s cpu) + 1 < 2 ^ 64)%Z ->
  exists s', steps step s s' /\ guards s' cpu = S (guards s cpu) /\ owner (sh s') = Some cpu /\
             pcs s' cpu = Idle /\ control (sh s') = false.
Proof.
  intros Hr Hpc Hc Ho Hb.
  pose (s1 := mk (mkShared true (owner (sh s)) (lock_count (sh s))) (set_pc s cpu (Entered Inner)) (guards s)).
  assert (steps step s s1) as H1 by (eapply steps_trans; [apply steps_refl|by apply control_ok]).
  assert (exists s2, steps step s1 s2 /\ (pcs s2 cpu = StoredOwner \/ pcs s2 cpu = LoadedSelf) /\
            owner (sh s2) = Some cpu /\ guards s2 = guards s) as (s2 & H2 & Hpc2 & Ho2 & Hg2).
  { assert (pcs s1 cpu = Entered Inner) as Hp1 by (cbn; unfold set_pc; by rewrite fn_lookup_insert).
    destruct Ho as [Ho|Ho].
    - eexists. split; [|split; [left|split]].
      + eapply steps_trans; [eapply steps_trans; [apply steps_refl|apply (load_none s1 cpu Inner)]|
          apply store_owner]; try done. cbn. unfold set_pc. by rewrite fn_lookup_insert.
      + cbn. unfold set_pc. by rewrite fn_lookup_insert.
      + done.
      + done.
    - eexists. split; [eapply steps_trans; [apply steps_refl|by apply (load_self s1 cpu Inner)]|].
      split; [right; cbn; unfold set_pc; by rewrite fn_lookup_insert|]. done. }
  pose (s3 := mk (mkShared (control (sh s2)) (owner (sh s2)) (lock_count (sh s2) ⊕ 1))
               (set_pc s2 cpu Leaving) (<[cpu := S (guards s2 cpu)]> (guards s2))).
  assert (step s2 s3) as H3 by (apply count_up; [done|by rewrite Hg2]).
  exists (mk (mkShared false (owner (sh s3)) (lock_count (sh s3))) (set_pc s3 cpu Idle) (guards s3)).
  split; [|cbn; unfold set_pc; rewrite !fn_lookup_insert, Hg2; done].
  eapply steps_trans; [|apply release; cbn; unfold set_pc; by rewrite fn_lookup_insert].
  eapply steps_trans; [|exact H3].
  by apply (steps_app _ _ s1).
Qed.

Lemma reentrant_try_lock_succeeds_witness :
  exists s', steps step init s' /\ guards s' 2 = 1.
Proof.
  destruct (reentrant_try_lock_succeeds init 2) as (s' & H & Hg & _);
    [apply steps_refl|reflexivity|reflexivity|by left|vm_compute; done|].
  exists s'. split; [exact H|exact Hg].
Defined.

End ReentrantMutex.
