(* ===== verification/Irq.v ===== *)
(** * Interrupt vectors and interrupt buffers

    Model of [kernel/src/interrupts/vector_tables.rs] (the interrupt log and the handle registry),
    of the reservation functions of [kernel/src/interrupts.rs], and of the chunked buffer
    [kernel/src/interrupts/buff.rs].  Handlers are numbered; the read-write locks around the
    registry entries are held for the length of one operation, so an operation is one step. *)
From stdpp Require Import prelude.
From S2P Require Import Prelude.

Module InterruptLog.

(** The number of interrupts of each vector that one CPU has taken. *)
Definition new : list Z := replicate 256 0%Z.
(** [fetch_add] wraps. *)
Definition log (l : list Z) (vector : nat) : list Z := alter (fun n => wadd n 1) vector l.
Definition fetch_vec (l : list Z) (vector : nat) : outcome Z := unwrap (l !! vector).
Definition fetch_all (l : list Z) : list Z := l.

(** After any sequence of interrupts a counter holds the number of those of its vector. *)
Lemma log_counts vs v : v < 256 ->
  fetch_vec (foldl log new vs) v = Done (wrap64 (Z.of_nat (length (filter (fun x => x = v) vs)))).
Proof.
  intros Hv. unfold fetch_vec. enough (foldl log new vs !! v = Some (wrap64 (Z.of_nat (length (filter (fun x => x = v) vs))))) as ->; [done|].
  induction vs as [|x vs IH] using rev_ind; [by apply lookup_replicate_2|].
  rewrite foldl_app, filter_app, length_app. cbn [foldl]. unfold log at 1. destruct (decide (x = v)) as [->|Hne].
  - rewrite list_lookup_alter_eq, IH. rewrite filter_cons_True by done. cbn. rewrite Nat2Z.inj_add.
    unfold wadd, wrap64. by rewrite Zplus_mod_idemp_l.
  - rewrite list_lookup_alter_ne, IH by done. rewrite filter_cons_False by done. cbn. by rewrite Nat.add_0_r.
Qed.

End InterruptLog.

Module HandleRegistry.

Inductive InterruptHandleContainer :=
  | Empty
  | Reserved
  | SpecialHandle (f : nat)
  | Generic (queue : nat) (message : Z)
  | HighPerfCascading (fs : list nat)
  | HighPerf (f : nat) (vec arg : Z).

#[export] Instance container_eq_dec : EqDecision InterruptHandleContainer.
Proof. solve_decision. Defined.

(** [lock] is the manual lock; [arr] has 256 entries. *)
Record HandleRegistry := mkIHR { lock : bool; arr : list InterruptHandleContainer }.

Definition PUB_VEC_START : nat := 32.

Definition new : HandleRegistry := mkIHR false (replicate 256 Empty).

Definition put (h : HandleRegistry) (v : nat) (c : InterruptHandleContainer) : HandleRegistry :=
  mkIHR (lock h) (<[v := c]> (arr h)).

Definition reserve (h : HandleRegistry) (v : nat) : outcome (result unit unit * HandleRegistry) :=
  e ← unwrap (arr h !! v);
  match e with
  | Empty => Done (Ok tt, put h v Reserved)
  | _ => Done (Err tt, h)
  end.

Definition set (h : HandleRegistry) (v : nat) (c : InterruptHandleContainer) : outcome (result unit unit * HandleRegistry) :=
  e ← unwrap (arr h !! v);
  match e with
  | SpecialHandle _ | Generic _ _ => Done (Err tt, h)
  | _ => Done (Ok tt, put h v c)
  end.

Definition free_irq (h : HandleRegistry) (v : nat) : outcome (result unit unit * HandleRegistry) :=
  e ← unwrap (arr h !! v);
  Done (match e with Empty => Err tt | _ => Ok tt end, put h v Empty).

Definition unset (h : HandleRegistry) (v : nat) : outcome HandleRegistry :=
  _ ← unwrap (arr h !! v); Done (put h v Empty).

(** [get_free]: the count is a [u8]. *)
Definition get_free (h : HandleRegistry) : Z :=
  (Z.of_nat (length (filter (fun c => c = Empty) (arr h))) mod 256)%Z.

(** The loop of [reserve_contiguous]: [max], [found_start] and [found] are its variables.  The
    counters stay below 225, so their [u8] arithmetic does not wrap. *)
Fixpoint scan (l : list InterruptHandleContainer) (i req max : nat) (found_start : option nat) (found : nat) :
    nat * option nat * nat :=
  match l with
  | [] => (max, found_start, found)
  | v :: rest =>
      match v, found_start with
      | Empty, None => scan rest (S i) req max (Some i) 1
      | Empty, Some _ =>
          if bool_decide (S found = req) then (max, found_start, S found)
          else scan rest (S i) req max found_start (S found)
      | _, _ => scan rest (S i) req (Nat.max found max) None 0
      end
  end.

(** [for i in &self.arr[vec..vec + req] { *i.write() = Reserved }] *)
Definition mark (vec req : nat) (l : list InterruptHandleContainer) : list InterruptHandleContainer :=
  take vec l ++ replicate req Reserved ++ drop (vec + req) l.

Definition reserve_contiguous (h : HandleRegistry) (start req : nat) : outcome (result nat nat * HandleRegistry) :=
  let start := Nat.max start 32 in
  let '(max, found_start, found) := scan (drop start (arr h)) start req 0 None 0 in
  if bool_decide (found < req) then Done (Err (Nat.max max found), h)
  else
    match found_start with
    | None => Done (Err (Nat.max max found), h)
    | Some vec =>
        _ ← assert_that (bool_decide (vec + req <= length (arr h)));
        Done (Ok vec, mkIHR (lock h) (mark vec req (arr h)))
    end.

(** [reserve_irq]: [None] when the manual lock is held, in which case the caller spins. *)
Definition reserve_irq (h : HandleRegistry) (req_priority count : nat) :
    outcome (option (result nat nat) * HandleRegistry) :=
  _ ← assert_that (bool_decide (0 < count));
  if lock h then Done (None, h)
  else
    r ← reserve_contiguous (mkIHR true (arr h)) (Nat.max req_priority PUB_VEC_START) count;
    match r with
    | (Err n, h) => Done (Some (Err n), h)
    | (Ok n, h) => Done (Some (Ok n), mkIHR false (arr h))
    end.

Definition reserve_single (h : HandleRegistry) (req_priority : nat) : outcome (option nat * HandleRegistry) :=
  r ← reserve_contiguous h (Nat.max req_priority PUB_VEC_START) 1;
  Done (result_ok r.1, r.2).

Definition alloc_interrupt (h : HandleRegistry) : outcome (option nat * HandleRegistry) :=
  r ← reserve_contiguous h 32 1;
  Done (result_ok r.1, r.2).

Definition alloc_irq (h : HandleRegistry) (irq queue : nat) (message : Z) : outcome (result unit unit * HandleRegistry) :=
  set h irq (Generic queue message).

Definition alloc_irq_special (h : HandleRegistry) (irq f : nat) : outcome (result unit unit * HandleRegistry) :=
  e ← unwrap (arr h !! irq);
  match e with
  | Empty | Reserved => Done (Ok tt, put h irq (SpecialHandle f))
  | _ => Done (Err tt, h)
  end.

Definition callable (c : InterruptHandleContainer) : option InterruptHandleContainer :=
  match c with Empty | Reserved => None | _ => Some c end.

(** The numbers of the handlers that [call] runs, in order. *)
Definition call (c : InterruptHandleContainer) : list nat :=
  match c with
  | SpecialHandle f => [f]
  | Generic q _ => [q]
  | HighPerfCascading fs => fs
  | HighPerf f _ _ => [f]
  | _ => []
  end.

(** ** Runs of free vectors *)
Definition run_at (l : list InterruptHandleContainer) (a k : nat) : Prop :=
  forall j, a <= j < a + k -> l !! j = Some Empty.

(** What the scan knows when it has seen the entries [s .. i). *)
Record scanned (l : list InterruptHandleContainer) (s i max : nat) (fs : option nat) (found : nat) : Prop := {
  sc_bound : s <= i <= length l;
  sc_start : match fs with
             | Some v => s <= v /\ v + found = i /\ 1 <= found /\ run_at l v found
             | None => found = 0
             end;
  sc_runs : forall a k, s <= a -> a + k <= i -> run_at l a k -> k <= Nat.max max found;
  sc_last : forall a k, s <= a -> a + k = i -> run_at l a k -> k <= found;
  sc_max : max = 0 \/ exists a, s <= a /\ a + max <= i /\ run_at l a max;
}.

Lemma run_at_sub l a k a' k' : run_at l a k -> a <= a' -> a' + k' <= a + k -> run_at l a' k'.
Proof. intros H H1 H2 j Hj. apply H. lia. Qed.

Lemma scanned_start l s max fs found : s <= length l -> (max, fs, found) = (0, None, 0) -> scanned l s s max fs found.
Proof. intros Hs [= -> -> ->]. split; [lia|done|intros; lia|intros; lia|by left]. Qed.

(** A free entry extends the current run, or starts one. *)
Lemma scanned_empty l s i max fs found :
  scanned l s i max fs found -> l !! i = Some Empty ->
  scanned l s (S i) max (Some (from_option id i fs)) (S found).
Proof.
  intros [Hb Hs Hr Hl Hm] Hi. apply lookup_lt_Some in Hi as Hlt. split; [lia| | | |].
  - destruct fs as [v|]; cbn.
    + destruct Hs as (H1 & H2 & H3 & H4). split; [done|]. split; [lia|]. split; [lia|]. intros j Hj.
      destruct (decide (j = i)) as [->|]; [done|]. apply H4. lia.
    + subst found. split; [lia|]. split; [lia|]. split; [lia|]. intros j Hj. by replace j with i by lia.
  - intros a k Ha Hk Hrun. destruct (decide (a + k = S i)) as [He|]; [|pose proof (Hr a k Ha ltac:(lia) Hrun); lia].
    destruct k as [|k]; [lia|]. pose proof (Hl a k Ha ltac:(lia) (run_at_sub l a (S k) a k Hrun ltac:(lia) ltac:(lia))). lia.
  - intros a k Ha Hk Hrun. destruct k as [|k]; [lia|].
    pose proof (Hl a k Ha ltac:(lia) (run_at_sub l a (S k) a k Hrun ltac:(lia) ltac:(lia))). lia.
  - destruct Hm as [Hm|(a & H1 & H2 & H3)]; [by left|right; exists a; split; [done|split; [lia|done]]].
Qed.

(** A used entry ends the current run. *)
Lemma scanned_used l s i max fs found c :
  scanned l s i max fs found -> l !! i = Some c -> c <> Empty -> scanned l s (S i) (Nat.max found max) None 0.
Proof.
  intros [Hb Hs Hr Hl Hm] Hi Hc. apply lookup_lt_Some in Hi as Hlt.
  assert (forall a k, a + k = S i -> run_at l a k -> k = 0) as Hend.
  { intros a [|k] He Hrun; [done|]. specialize (Hrun i ltac:(lia)). congruence. }
  split; [lia|done| | |].
  - intros a k Ha Hk Hrun. destruct (decide (a + k = S i)) as [He|]; [rewrite (Hend a k He Hrun); lia|].
    pose proof (Hr a k Ha ltac:(lia) Hrun). lia.
  - intros a k Ha He Hrun. by rewrite (Hend a k He Hrun).
  - destruct (decide (found <= max)).
    + rewrite Nat.max_r by done. destruct Hm as [?|(a & H1 & H2 & H3)]; [by left|right; exists a; split; [done|split; [lia|done]]].
    + rewrite Nat.max_l by lia. right. destruct fs as [v|]; [|lia]. destruct Hs as (H1 & H2 & H3 & H4). exists v. split; [done|split; [lia|done]].
Qed.

(** The result of the scan: either it ran to the end, or it stopped at a run of [req]. *)
Lemma scan_ok l s req : forall rest i max fs found,
  scanned l s i max fs found -> drop i l = rest -> (2 <= req -> found < req /\ max < req) ->
  forall max' fs' found', scan rest i req max fs found = (max', fs', found') ->
  (scanned l s (length l) max' fs' found' /\ (2 <= req -> found' < req /\ max' < req)) \/
  (exists i', scanned l s i' max' fs' found' /\ found' = req /\ 2 <= req).
Proof.
  induction rest as [|c rest IH]; intros i max fs found Hsc Hd Hlt max' fs' found' Hscan.
  - cbn in Hscan. simplify_eq. left. apply (f_equal length) in Hd as Hlen. rewrite length_drop in Hlen. cbn in Hlen.
    pose proof (sc_bound _ _ _ _ _ _ Hsc). by replace (length l) with i by lia.
  - assert (l !! i = Some c) as Hi by (rewrite <- (Nat.add_0_r i), <- lookup_drop, Hd; done).
    assert (drop (S i) l = rest) as Hd' by (rewrite <- Nat.add_1_r, <- drop_drop, Hd; done).
    destruct (decide (c = Empty)) as [->|Hne].
    + pose proof (scanned_empty _ _ _ _ _ _ Hsc Hi) as Hsc'. cbn in Hscan. destruct fs as [v|].
      * case_bool_decide as Hreq.
        -- right. simplify_eq. exists (S i). split; [done|]. split; [done|].
           pose proof (sc_start _ _ _ _ _ _ Hsc) as (_ & _ & ? & _). lia.
        -- apply (IH (S i) max (Some v) (S found)); auto. intros H. specialize (Hlt H). lia.
      * pose proof (sc_start _ _ _ _ _ _ Hsc) as Hf. cbn in Hf. subst found.
        apply (IH (S i) max (Some i) 1); auto. intros H. specialize (Hlt H). lia.
    + apply (IH (S i) (Nat.max found max) None 0); auto; [by eapply scanned_used|lia|].
      destruct c; [done|exact Hscan..].
Qed.

Lemma mark_lookup vec req l j :
  vec + req <= length l ->
  mark vec req l !! j = if bool_decide (vec <= j < vec + req) then Some Reserved else l !! j.
Proof.
  intros Hlen. unfold mark. case_bool_decide as Hj.
  - rewrite lookup_app_r, length_take_le by (rewrite ?length_take; lia).
    rewrite lookup_app_l by (rewrite length_replicate; lia). apply lookup_replicate_2. lia.
  - destruct (decide (j < vec)).
    + rewrite lookup_app_l by (rewrite length_take; lia). by apply lookup_take_lt.
    + rewrite lookup_app_r, length_take_le by (rewrite ?length_take; lia).
      rewrite lookup_app_r, length_replicate, lookup_drop by (rewrite length_replicate; lia). f_equal. lia.
Qed.

(** [reserve_contiguous] in terms of runs. *)
Lemma reserve_contiguous_spec h start req :
  length (arr h) = 256 -> start < 256 -> 1 <= req ->
  let s := Nat.max start 32 in
  (exists v, reserve_contiguous h start req = Done (Ok v, mkIHR (lock h) (mark v req (arr h))) /\
     s <= v /\ v + req <= 256 /\ run_at (arr h) v req /\
     (req = 1 -> run_at (arr h) v (256 - v))) \/
  (exists m, reserve_contiguous h start req = Done (Err m, h) /\
     (forall a k, s <= a -> a + k <= 256 -> run_at (arr h) a k -> k <= m) /\
     (m = 0 \/ exists a, s <= a /\ a + m <= 256 /\ run_at (arr h) a m) /\
     (2 <= req -> m < req) /\ (req = 1 -> arr h !! 255 <> Some Empty)).
Proof.
  intros Hlen Hst Hreq s. unfold reserve_contiguous. fold s.
  destruct (scan (drop s (arr h)) s req 0 None 0) as [[max fs] found] eqn:Hscan.
  destruct (scan_ok (arr h) s req (drop s (arr h)) s 0 None 0) with (max' := max) (fs' := fs) (found' := found)
    as [[Hsc Hlt]|(i' & Hsc & -> & Hreq2)]; [apply scanned_start; [lia|done]|done|lia|done| |].
  - rewrite Hlen in Hsc. pose proof (sc_start _ _ _ _ _ _ Hsc) as Hs. case_bool_decide as Hf.
    + right. exists (Nat.max max found). split; [done|]. split; [intros a k; apply (sc_runs _ _ _ _ _ _ Hsc)|].
      split; [|split].
      * destruct (decide (found <= max)).
        -- rewrite Nat.max_l by done. apply (sc_max _ _ _ _ _ _ Hsc).
        -- rewrite Nat.max_r by lia. right. destruct fs as [v|]; [|lia]. destruct Hs as (? & ? & ? & ?). exists v. split; [done|split; [lia|done]].
      * intros H2. specialize (Hlt H2). lia.
      * intros -> He. pose proof (sc_last _ _ _ _ _ _ Hsc 255 1 ltac:(lia) ltac:(lia)) as H. lapply H; [lia|].
        intros j Hj. by replace j with 255 by lia.
    + destruct fs as [v|]; [|lia]. destruct Hs as (H1 & H2 & H3 & H4). left. exists v.
      rewrite bool_decide_true by lia. split; [done|]. split; [done|]. split; [lia|].
      split; [apply (run_at_sub (arr h) v found); [done|lia|lia]|]. intros _. by replace (256 - v) with found by lia.
  - pose proof (sc_start _ _ _ _ _ _ Hsc) as Hs. pose proof (sc_bound _ _ _ _ _ _ Hsc).
    rewrite bool_decide_false by lia. destruct fs as [v|]; [|lia]. destruct Hs as (H1 & H2 & H3 & H4). left. exists v.
    rewrite bool_decide_true by lia. split; [done|]. split; [done|]. split; [lia|]. split; [done|]. lia.
Qed.

(** [reserve_contiguous] is sound: a successful reservation is a range of vectors above the
    exceptions and not below the requested start, all of which were free; they become reserved
    and no other vector changes. *)
Theorem reserve_contiguous_sound h start req v h' :
  length (arr h) = 256 -> start < 256 -> 1 <= req -> reserve_contiguous h start req = Done (Ok v, h') ->
  32 <= v /\ start <= v /\ v + req <= 256 /\ lock h' = lock h /\
  (forall j, v <= j < v + req -> arr h !! j = Some Empty /\ arr h' !! j = Some Reserved) /\
  (forall j, ~ v <= j < v + req -> arr h' !! j = arr h !! j).
Proof.
  intros Hlen Hst Hreq Hr.
  destruct (reserve_contiguous_spec h start req Hlen Hst Hreq) as [(v' & Heq & H1 & H2 & H3 & _)|(m & Heq & _)];
    rewrite Hr in Heq; [|done]. injection Heq as <- ->. cbn.
  split; [lia|]. split; [lia|]. split; [lia|]. split; [done|]. split; intros j Hj; rewrite mark_lookup by lia.
  - rewrite bool_decide_true by lia. auto.
  - by rewrite bool_decide_false by lia.
Qed.

(** [reserve_contiguous] is complete for two or more vectors: it fails only when no range of
    that many free vectors exists, and the number it reports is then the length of the longest
    free range. *)
Theorem reserve_contiguous_complete h start req :
  length (arr h) = 256 -> start < 256 -> 2 <= req ->
  (exists v h', reserve_contiguous h start req = Done (Ok v, h')) \/
  (exists m, reserve_contiguous h start req = Done (Err m, h) /\ m < req /\
     (forall a k, Nat.max start 32 <= a -> a + k <= 256 -> run_at (arr h) a k -> k <= m) /\
     (m = 0 \/ exists a, Nat.max start 32 <= a /\ a + m <= 256 /\ run_at (arr h) a m)).
Proof.
  intros Hlen Hst Hreq.
  destruct (reserve_contiguous_spec h start req Hlen Hst ltac:(lia)) as [(v & Heq & _)|(m & Heq & H1 & H2 & H3 & _)].
  - left. by exists v, (mkIHR (lock h) (mark v req (arr h))).
  - right. exists m. auto.
Qed.

(** For a single vector the search never stops early: [reserve_contiguous(_, 1)], and with it
    [reserve_single] and [alloc_interrupt], succeeds exactly when vector 255 is free, however many
    other vectors are free. *)
Theorem reserve_one_needs_last h start :
  length (arr h) = 256 -> start < 256 ->
  ((exists v h', reserve_contiguous h start 1 = Done (Ok v, h')) <-> arr h !! 255 = Some Empty).
Proof.
  intros Hlen Hst.
  destruct (reserve_contiguous_spec h start 1 Hlen Hst ltac:(lia)) as [(v & Heq & H1 & H2 & H3 & H4)|(m & Heq & _ & _ & _ & H5)].
  - split; [|intros _; by eexists _, _]. intros _. apply (H4 eq_refl). lia.
  - split; [intros (v & h' & Hr); by rewrite Hr in Heq|]. intros He. by destruct (H5 eq_refl).
Qed.

(** A failed [reserve_irq] returns with the manual lock held, so the next call spins forever. *)
Lemma reserve_irq_keeps_lock h prio count n h' :
  lock h = false -> length (arr h) = 256 -> prio < 256 -> 1 <= count ->
  reserve_irq h prio count = Done (Some (Err n), h') ->
  lock h' = true /\ forall prio' count', 1 <= count' -> reserve_irq h' prio' count' = Done (None, h').
Proof.
  intros Hl Hlen Hp Hc. unfold reserve_irq. rewrite bool_decide_true, Hl by lia. cbn [assert_that mbind outcome_bind].
  destruct (reserve_contiguous_spec (mkIHR true (arr h)) (Nat.max prio PUB_VEC_START) count) as [(v & -> & _)|(m & -> & _)];
    [done|unfold PUB_VEC_START; lia|done|done|]. cbn. intros [= <- <-]. split; [done|]. intros prio' count' Hc'.
  by rewrite bool_decide_true by lia.
Qed.

(** [get_free] counts modulo 256: an empty registry has no free vector. *)
Lemma get_free_wraps : get_free new = 0%Z.
Proof. reflexivity. Qed.

Lemma reserve_contiguous_sound_witness :
  32 <= 32 /\ 0 <= 32 /\ 32 + 4 <= 256 /\ lock (mkIHR false (mark 32 4 (arr new))) = lock new /\
  (forall j, 32 <= j < 32 + 4 -> arr new !! j = Some Empty /\ arr (mkIHR false (mark 32 4 (arr new))) !! j = Some Reserved) /\
  (forall j, ~ 32 <= j < 32 + 4 -> arr (mkIHR false (mark 32 4 (arr new))) !! j = arr new !! j).
Proof.
  apply (reserve_contiguous_sound new 0 4 32); [reflexivity|lia|lia|vm_compute; reflexivity].
Defined.

Lemma reserve_contiguous_complete_witness :
  (exists v h', reserve_contiguous new 0 4 = Done (Ok v, h')) \/
  (exists m, reserve_contiguous new 0 4 = Done (Err m, new) /\ m < 4 /\
     (forall a k, Nat.max 0 32 <= a -> a + k <= 256 -> run_at (arr new) a k -> k <= m) /\
     (m = 0 \/ exists a, Nat.max 0 32 <= a /\ a + m <= 256 /\ run_at (arr new) a m)).
Proof. apply (reserve_contiguous_complete new 0 4); [reflexivity|lia|lia]. Defined.

Lemma reserve_one_needs_last_witness :
  (exists v h', reserve_contiguous (put new 255 Reserved) 0 1 = Done (Ok v, h')) <-> arr (put new 255 Reserved) !! 255 = Some Empty.
Proof. apply (reserve_one_needs_last (put new 255 Reserved) 0); [reflexivity|lia]. Defined.

End HandleRegistry.

Module ChonkyBuff.

(** Chunks are identified so that the [Push] future of a chunk can observe its completion. *)
Record chunk (T : Type) := mkChunk { cid : nat; cdata : list T }.
Arguments mkChunk {T}.
Arguments cid {T}.
Arguments cdata {T}.

(** [ChonkyBuff] with its inner lists; [completed] holds the chunks whose flag is set, and
    [next_id] numbers new chunks. *)
Record ChonkyBuff (T : Type) := mkBuff {
  chonk : list (chunk T); comp_chonk : list (chunk T); chonk_offset : nat;
  len : Z; invd_len : Z; completed : list nat; next_id : nat }.
Arguments mkBuff {T}.
Arguments chonk {T}.
Arguments comp_chonk {T}.
Arguments chonk_offset {T}.
Arguments len {T}.
Arguments invd_len {T}.
Arguments completed {T}.
Arguments next_id {T}.

Section Buff.
Context {T : Type}.
Implicit Types b : ChonkyBuff T.

Definition new : ChonkyBuff T := mkBuff [] [] 0 0 0 [] 0.

Definition free b : ChonkyBuff T :=
  mkBuff (chonk b) [] (chonk_offset b) (len b ⊖ invd_len b)%u64 0 (completed b) (next_id b).

(** [push]: the id of the chunk the returned future waits for. *)
Definition push (data : list T) b : nat * ChonkyBuff T :=
  let b := free b in
  let id := next_id b in
  match data with
  | [] => (id, mkBuff (chonk b) (comp_chonk b) (chonk_offset b) (len b) (invd_len b) (id :: completed b) (S id))
  | _ =>
      (id, mkBuff (chonk b ++ [mkChunk id data]) (comp_chonk b) (chonk_offset b)
             (len b ⊕ Z.of_nat (length data))%u64 (invd_len b) (completed b) (S id))
  end.

(** [pop].  The index of the first item of the following chunk is checked, as slices are. *)
Definition pop b : outcome (option T * ChonkyBuff T) :=
  match chonk b with
  | [] => Done (None, b)
  | ch :: rest =>
      match cdata ch !! chonk_offset b with
      | Some x => Done (Some x, mkBuff (chonk b) (comp_chonk b) (S (chonk_offset b)) (len b) (invd_len b) (completed b) (next_id b))
      | None =>
          let b' o := mkBuff rest (comp_chonk b ++ [ch]) o (len b)
                        (invd_len b ⊕ Z.of_nat (length (cdata ch)))%u64 (cid ch :: completed b) (next_id b) in
          match rest with
          | [] => Done (None, b' 0)
          | ch' :: _ => x ← unwrap (cdata ch' !! 0); Done (Some x, b' 1)
          end
      end
  end.

(** [peek]: [split_off(0)] takes the whole list, which the swap puts back, so [bind] is empty and
    [bind.back()?] returns. *)
Definition peek b : option T * ChonkyBuff T :=
  match chonk b with
  | [] => (None, b)
  | ch :: _ =>
      match cdata ch !! chonk_offset b with
      | Some x => (Some x, b)
      | None => (None, b)
      end
  end.

Definition buff_len b : Z := len b.
Definition valid_len b : Z := (len b ⊖ invd_len b)%u64.

(** [Push::poll]. *)
Definition poll_push (id : nat) b : bool := bool_decide (id ∈ completed b).

(** ** The buffer as a queue *)

(** The items that have not been read yet. *)
Definition contents b : list T :=
  match chonk b with
  | [] => []
  | ch :: rest => drop (chonk_offset b) (cdata ch) ++ concat (cdata <$> rest)
  end.

Record inv b : Prop := {
  inv_nonempty : Forall (fun ch => cdata ch <> []) (chonk b);
  inv_offset : match chonk b with [] => chonk_offset b = 0 | ch :: _ => chonk_offset b <= length (cdata ch) end;
  inv_ids : NoDup (cid <$> chonk b);
  inv_fresh : Forall (fun ch => cid ch < next_id b) (chonk b);
  inv_done : Forall (fun id => id < next_id b /\ id ∉ (cid <$> chonk b)) (completed b);
  inv_len : valid_len b = wrap64 (Z.of_nat (length (concat (cdata <$> chonk b))));
}.

Lemma wsub_wsub0 a c : (a ⊖ c ⊖ 0)%u64 = (a ⊖ c)%u64.
Proof. unfold wsub, wrap64. rewrite Z.sub_0_r. by rewrite Z.mod_mod. Qed.

Lemma free_inv b : inv b -> inv (free b) /\ contents (free b) = contents b.
Proof. intros [H1 H2 H3 H4 H5 H6]. split; [split; auto|done]. unfold valid_len in *. cbn. by rewrite wsub_wsub0. Qed.

Lemma push_inv data b : inv b -> inv (push data b).2 /\ contents (push data b).2 = contents b ++ data.
Proof.
  intros Hinv. apply free_inv in Hinv as [[H1 H2 H3 H4 H5 H6] <-]. unfold push.
  assert (invd_len (free b) = 0%Z) as Hi0 by done. set (b1 := free b) in *. clearbody b1.
  destruct data as [|x data].
  - rewrite app_nil_r. split; [|done]. split; cbn; auto.
    + eapply Forall_impl; [exact H4|]. cbn. intros ch ?. lia.
    + constructor.
      * split; [lia|]. intros (ch & Hid & Hin)%list_elem_of_fmap. rewrite Forall_forall in H4. specialize (H4 _ Hin). cbn in *. lia.
      * eapply Forall_impl; [exact H5|]. cbn. intros id [? ?]. split; [lia|done].
  - assert (next_id b1 ∉ cid <$> chonk b1) as Hnew.
    { intros (ch & Hid & Hin)%list_elem_of_fmap. rewrite Forall_forall in H4. specialize (H4 _ Hin). cbn beta in H4. lia. }
    split; [split; cbn|].
    + apply Forall_app. split; [done|]. by constructor.
    + destruct (chonk b1) as [|ch rest]; [cbn in *; lia|done].
    + rewrite fmap_app. apply NoDup_app. split; [done|]. split; [|cbn; apply NoDup_singleton].
      intros i Hi Hi'. cbn in Hi'. apply list_elem_of_singleton in Hi'. by subst i.
    + apply Forall_app. split; [eapply Forall_impl; [exact H4|]; cbn; intros ch ?; lia|]. constructor; [cbn; lia|done].
    + eapply Forall_impl; [exact H5|]. cbn. intros id [? Hn]. split; [lia|]. rewrite fmap_app, not_elem_of_app. split; [done|].
      cbn. rewrite list_elem_of_singleton. lia.
    + unfold valid_len in *. cbn in *. rewrite Hi0 in *. rewrite fmap_app, concat_app, length_app. cbn [fmap list_fmap concat cdata]. rewrite app_nil_r.
      unfold wsub, wadd, wrap64 in *. rewrite Z.sub_0_r in *. rewrite Z.mod_mod by done.
      by rewrite Nat2Z.inj_add, <- (Z.add_mod_idemp_l (len b1)), H6, Z.add_mod_idemp_l by done.
    + unfold contents. cbn. destruct (chonk b1) as [|ch rest]; cbn in *; [by rewrite H2, drop_0, app_nil_r|].
      rewrite fmap_app, concat_app, app_assoc. cbn. by rewrite app_nil_r.
Qed.

Lemma pop_inv b : inv b ->
  exists b', pop b = Done (head (contents b), b') /\ inv b' /\ contents b' = tail (contents b).
Proof.
  intros [H1 H2 H3 H4 H5 H6]. unfold pop, contents. destruct (chonk b) as [|ch rest] eqn:Hc.
  { exists b. split; [done|]. split; [split; rewrite ?Hc; done|by rewrite Hc]. }
  destruct (cdata ch !! chonk_offset b) as [x|] eqn:Hx.
  - rewrite (drop_S _ _ _ Hx). eexists. split; [done|]. split; [|cbn; by rewrite ?Hc].
    apply lookup_lt_Some in Hx. split; cbn; rewrite ?Hc; auto.
  - apply lookup_ge_None in Hx. rewrite drop_ge by done. cbn in H3. apply NoDup_cons in H3 as [Hn Hnd].
    apply Forall_cons in H1 as [_ H1], H4 as [Hid H4].
    assert (forall o, match rest with [] => o = 0 | ch' :: _ => o <= length (cdata ch') end ->
      inv (mkBuff rest (comp_chonk b ++ [ch]) o (len b) (invd_len b ⊕ Z.of_nat (length (cdata ch)))%u64
             (cid ch :: completed b) (next_id b))) as Hinv.
    { intros o Ho. split; cbn; auto.
      - constructor; [done|]. eapply Forall_impl; [exact H5|]. cbn. intros id [? Hni]. split; [done|]. set_solver.
      - unfold valid_len, wsub, wadd, wrap64 in *. cbn in *. rewrite length_app in H6.
        rewrite Zminus_mod_idemp_r. replace (len b - (invd_len b + Z.of_nat (length (cdata ch))))%Z
          with (len b - invd_len b - Z.of_nat (length (cdata ch)))%Z by lia.
        rewrite <- Zminus_mod_idemp_l, H6, Zminus_mod_idemp_l. f_equal. lia. }
    destruct rest as [|ch' rest].
    + eexists. split; [done|]. split; [by apply Hinv|done].
    + apply Forall_cons in H1 as [Hne _]. destruct (cdata ch') as [|x xs] eqn:Hd; [done|]. cbn. rewrite Hd. cbn.
      eexists. split; [done|]. split; [apply Hinv; rewrite ?Hd; cbn; lia|]. cbn. by rewrite Hd.
Qed.

(** Operations on the buffer, and the queue of unread items they are meant to implement. *)
Inductive op := Push (data : list T) | Pop | Free.

Definition do_op (o : op) b : outcome (list (option T) * ChonkyBuff T) :=
  match o with
  | Push data => Done ([], (push data b).2)
  | Pop => r ← pop b; Done ([r.1], r.2)
  | Free => Done ([], free b)
  end.

Fixpoint do_ops (os : list op) b : outcome (list (option T) * ChonkyBuff T) :=
  match os with
  | [] => Done ([], b)
  | o :: rest => r ← do_op o b; r' ← do_ops rest r.2; Done (r.1 ++ r'.1, r'.2)
  end.

Fixpoint queue_ops (os : list op) (q : list T) : list (option T) * list T :=
  match os with
  | [] => ([], q)
  | Push data :: rest => queue_ops rest (q ++ data)
  | Pop :: rest => let r := queue_ops rest (tail q) in (head q :: r.1, r.2)
  | Free :: rest => queue_ops rest q
  end.

(** [ChonkyBuff] implements a first-in first-out queue: any sequence of pushes, pops and frees
    runs without a panic and returns what a plain queue of items would return, across chunk
    boundaries; [valid_len] is the length of the chunks still held; and the future of a pushed
    slice is ready only when no chunk that refers to the slice is left to read. *)
Theorem chonky_buff_fifo os :
  exists b', do_ops os new = Done ((queue_ops os []).1, b') /\ contents b' = (queue_ops os []).2 /\
    valid_len b' = wrap64 (Z.of_nat (length (concat (cdata <$> chonk b')))) /\
    forall id, poll_push id b' = true -> id ∉ (cid <$> chonk b').
Proof.
  assert (forall b, inv b -> exists b', do_ops os b = Done ((queue_ops os (contents b)).1, b') /\
    contents b' = (queue_ops os (contents b)).2 /\ inv b') as Hgen.
  { induction os as [|[data| |] os IH]; intros b Hb; cbn.
    - by exists b.
    - apply (push_inv data) in Hb as [Hb <-]. destruct (IH _ Hb) as (b' & -> & H2 & H3). by exists b'.
    - destruct (pop_inv b Hb) as (b1 & -> & Hb1 & <-). cbn. destruct (IH _ Hb1) as (b' & -> & H2 & H3). by exists b'.
    - apply free_inv in Hb as [Hb <-]. destruct (IH _ Hb) as (b' & -> & H2 & H3). by exists b'. }
  destruct (Hgen new) as (b' & H1 & H2 & H3).
  { split; cbn; try done; constructor. }
  exists b'. split; [done|]. split; [done|]. split; [apply H3|]. intros id Hid%bool_decide_eq_true.
  apply (proj1 (Forall_forall _ _) (inv_done _ H3) id Hid).
Qed.

(** [peek] does not move on to the next chunk: at the end of a chunk it answers [None] although
    [pop] has an item. *)
Lemma peek_misses b ch ch' x xs rest :
  chonk b = ch :: ch' :: rest -> chonk_offset b = length (cdata ch) -> cdata ch' = x :: xs ->
  (peek b).1 = None /\ exists b', pop b = Done (Some x, b').
Proof.
  intros Hc Ho Hd. unfold peek, pop. rewrite Hc, Ho, lookup_ge_None_2 by done. split; [done|].
  rewrite Hd. cbn. by eexists.
Qed.

End Buff.

End ChonkyBuff.
