(* ===== verification/Scheduler.v ===== *)
(** * The kernel executor

    Model of [kernel/src/task/kernel_scheduler.rs] with [TaskId] and [SYS_EXECUTOR] of
    [kernel/src/task/mod.rs], and of the timer queue [kernel/src/task/util/sleep.rs].

    A [Task] lives behind an [Arc<Mutex<_>>] that the global list, the per-CPU caches and the
    wakers share; [heap] holds the tasks by id and the lists hold ids, so a change is seen through
    every reference.  Polling takes time: [run_task] is the two steps [run_start] (which takes the
    lock of the task) and [run_finish], and other CPUs may act in between.  The futures are code
    outside the executor: [poll_future] is a parameter that gives the answer of a poll, the new
    state of the future and the calls of [set_affinity] it made.  The names, devices and
    environments of tasks are not represented. *)
From Stdlib Require Import Sorted.
From stdpp Require Import prelude gmap.
From S2P Require Import Prelude CpuBitmap Mutex.

Module Scheduler.
Import CpuBMap.

Definition TaskId := nat.
Definition WORK_QUEUE_SIZE : nat := 256.

Inductive TaskResult := ExitedNormally | StoppedExternally | Error | Panicked.

Inductive Poll := Ready (r : TaskResult) | Pending.

Record TaskContext := mkCtx {
  id : TaskId; affinity : CpuBMap; parent : option TaskId; exited : bool; reload_waker : bool }.

Record KernelWaker := mkWaker { w_id : TaskId; w_local : bool; is_owned : bool; owner : nat }.

Record Task (F : Type) := mkTask { context : TaskContext; future : F; waker : option KernelWaker }.
Arguments mkTask {F}.
Arguments context {F}.
Arguments future {F}.
Arguments waker {F}.

Record LocalExecutor := mkExec {
  arbiter_local : bool; local_queue : list TaskId; stealable_queue : list TaskId; local_task_cache : gset TaskId }.

Definition exec_new : LocalExecutor := mkExec false [] [] ∅.

(** The executors of all CPUs, [GLOBAL_EXECUTOR] and the tasks.  [locked] holds the tasks whose
    mutex is taken, [current] the task context set on each CPU, and [polls] is the history of
    polls of futures, latest first: task, CPU and whether the answer was [Ready]. *)
Record Sys (F : Type) := mkSys {
  num_cpus : nat; execs : gmap nat LocalExecutor; advertised_work : list TaskId;
  global_task_list : gset TaskId; heap : gmap TaskId (Task F); locked : gset TaskId;
  current : gmap nat TaskId; next_id : TaskId; steal_arbiter : nat;
  polls : list (TaskId * nat * bool) }.
Arguments mkSys {F}.
Arguments num_cpus {F}.
Arguments execs {F}.
Arguments advertised_work {F}.
Arguments global_task_list {F}.
Arguments heap {F}.
Arguments locked {F}.
Arguments current {F}.
Arguments next_id {F}.
Arguments steal_arbiter {F}.
Arguments polls {F}.

Section Exec.
Context {F : Type} (poll_future : nat -> F -> Poll * F * list (nat * bool)).
Implicit Types s : Sys F.

Definition with_execs s e : Sys F :=
  mkSys (num_cpus s) e (advertised_work s) (global_task_list s) (heap s) (locked s) (current s) (next_id s) (steal_arbiter s) (polls s).
Definition with_heap s h : Sys F :=
  mkSys (num_cpus s) (execs s) (advertised_work s) (global_task_list s) h (locked s) (current s) (next_id s) (steal_arbiter s) (polls s).
Definition with_advertised s a : Sys F :=
  mkSys (num_cpus s) (execs s) a (global_task_list s) (heap s) (locked s) (current s) (next_id s) (steal_arbiter s) (polls s).

(** [ArrayQueue::push(..).expect(..)]. *)
Definition queue_push (q : list TaskId) (t : TaskId) : outcome (list TaskId) :=
  if bool_decide (length q < WORK_QUEUE_SIZE) then Done (q ++ [t]) else Panic.

(** [ArrayQueue::pop]. *)
Definition queue_pop (q : list TaskId) : option TaskId * list TaskId := (head q, tail q).

(** The choice of [fetch_kernel_task]: the id, whether it came from the local queue, and the
    executor afterwards. *)
Definition fetch_tid (e : LocalExecutor) : option (TaskId * bool) * LocalExecutor :=
  let local_first arb :=
    match queue_pop (local_queue e) with
    | (Some t, q) => (Some (t, true), mkExec arb q (stealable_queue e) (local_task_cache e))
    | (None, _) =>
        let '(t, q) := queue_pop (stealable_queue e) in
        ((fun t => (t, false)) <$> t, mkExec arb (local_queue e) q (local_task_cache e))
    end in
  if bool_decide (length (stealable_queue e) <= length (local_queue e)) then local_first false
  else if arbiter_local e then local_first false
  else
    match queue_pop (stealable_queue e) with
    | (Some t, q) => (Some (t, false), mkExec true (local_queue e) q (local_task_cache e))
    | (None, _) =>
        let '(t, q) := queue_pop (local_queue e) in
        ((fun t => (t, true)) <$> t, mkExec true q (stealable_queue e) (local_task_cache e))
    end.

(** [fetch_from_cache]: the cache is filled from the global list. *)
Definition fetch_from_cache s (e : LocalExecutor) (t : TaskId) : option TaskId * LocalExecutor :=
  if bool_decide (t ∈ local_task_cache e) then (Some t, e)
  else if bool_decide (t ∈ global_task_list s)
  then (Some t, mkExec (arbiter_local e) (local_queue e) (stealable_queue e) ({[t]} ∪ local_task_cache e))
  else (None, e).

Definition fetch_kernel_task (cpu : nat) s : outcome (option TaskId * Sys F) :=
  e ← unwrap (execs s !! cpu);
  match fetch_tid e with
  | (None, e) => Done (None, with_execs s (<[cpu := e]> (execs s)))
  | (Some (t, true), e) =>
      let '(r, e) := fetch_from_cache s e t in Done (r, with_execs s (<[cpu := e]> (execs s)))
  | (Some (t, false), e) =>
      Done (if bool_decide (t ∈ global_task_list s) then Some t else None, with_execs s (<[cpu := e]> (execs s)))
  end.

(** [Task::is_valid]: a set bit forbids the CPU. *)
Definition is_valid (cpu : nat) (t : Task F) : bool := negb (get (affinity (context t)) cpu).

(** [KernelWaker::reload]: the new waker fields and the context with its flag cleared. *)
Definition reload (n : nat) (w : KernelWaker) (c : TaskContext) : outcome (KernelWaker * TaskContext) :=
  let total := Z.of_nat n in
  let allowed := (match count (affinity c) with Some e => (total - e) mod 2 ^ 32 | None => total end)%Z in
  let allowed := if (allowed =? 0)%Z then total else allowed in
  w ← (if (allowed =? 1)%Z then
         o ← unwrap (find_first_zero n (affinity c));
         Done (mkWaker (w_id w) true true o)
       else Done (mkWaker (w_id w) false false (owner w)));
  Done (w, mkCtx (id c) (affinity c) (parent c) (exited c) false).

Definition waker_new (n : nat) (c : TaskContext) : outcome (KernelWaker * TaskContext) :=
  reload n (mkWaker (id c) false false 0) c.

Definition set_affinity (c : TaskContext) (cpu : nat) (enabled : bool) : TaskContext :=
  mkCtx (id c) (if enabled then clear_bit (affinity c) cpu else set_bit (affinity c) cpu) (parent c) (exited c) true.

(** The first half of [run_task]: [true] when the poll of the future begins. *)
Definition run_start (cpu : nat) (t : TaskId) s : outcome (bool * Sys F) :=
  if bool_decide (t ∈ locked s) then Done (false, s)
  else
    task ← unwrap (heap s !! t);
    if negb (is_valid cpu task) then Done (false, with_advertised s (advertised_work s ++ [id (context task)]))
    else
      wt ← match waker task with
           | Some w => Done (mkTask (context task) (future task) (Some w))
           | None =>
               wc ← waker_new (num_cpus s) (context task);
               Done (mkTask wc.2 (future task) (Some wc.1))
           end;
      let s := with_heap s (<[t := wt]> (heap s)) in
      if exited (context wt) then
        Done (false, mkSys (num_cpus s) (execs s) (advertised_work s) (global_task_list s ∖ {[id (context wt)]})
                       (heap s) (locked s) (current s) (next_id s) (steal_arbiter s) (polls s))
      else
        _ ← assert_that (bool_decide (current s !! cpu = None));
        Done (true, mkSys (num_cpus s) (execs s) (advertised_work s) (global_task_list s) (heap s)
                      ({[t]} ∪ locked s) (<[cpu := t]> (current s)) (next_id s) (steal_arbiter s) (polls s)).

(** The second half: the future answers, and the lock is released. *)
Definition run_finish (cpu : nat) s : outcome (Sys F) :=
  t ← unwrap (current s !! cpu);
  task ← unwrap (heap s !! t);
  let '(answer, fut, calls) := poll_future cpu (future task) in
  let ctx := fold_left (fun c ce => set_affinity c ce.1 ce.2) calls (context task) in
  let unlock g h ready :=
    mkSys (num_cpus s) (execs s) (advertised_work s) g h (locked s ∖ {[t]}) (delete cpu (current s))
      (next_id s) (steal_arbiter s) ((t, cpu, ready) :: polls s) in
  match answer with
  | Ready _ =>
      let ctx := mkCtx (id ctx) (affinity ctx) (parent ctx) true (reload_waker ctx) in
      Done (unlock (global_task_list s ∖ {[id ctx]}) (<[t := mkTask ctx fut (waker task)]> (heap s)) true)
  | Pending =>
      if reload_waker ctx then
        w ← unwrap (waker task);
        wc ← reload (num_cpus s) w ctx;
        Done (unlock (global_task_list s) (<[t := mkTask wc.2 fut (Some wc.1)]> (heap s)) false)
      else Done (unlock (global_task_list s) (<[t := mkTask ctx fut (waker task)]> (heap s)) false)
  end.

Definition run_task (cpu : nat) (t : TaskId) s : outcome (Sys F) :=
  r ← run_start cpu t s;
  let '(started, s) := r in
  if (started : bool) then run_finish cpu s else Done s.

(** [run_kernel] runs until [fetch_kernel_task] has nothing; [fuel] bounds the turns shown. *)
Fixpoint run_kernel (fuel : nat) (cpu : nat) s : outcome (Sys F) :=
  match fuel with
  | O => Done s
  | S fuel =>
      r ← fetch_kernel_task cpu s;
      match r.1 with
      | None => Done r.2
      | Some t => s ← run_task cpu t r.2; run_kernel fuel cpu s
      end
  end.

(** [KernelWaker::wake] called on [cpu], with [SYS_EXECUTOR] readable. *)
Definition push_to (e : LocalExecutor) (local : bool) (t : TaskId) : outcome LocalExecutor :=
  if local then q ← queue_push (local_queue e) t; Done (mkExec (arbiter_local e) q (stealable_queue e) (local_task_cache e))
  else q ← queue_push (stealable_queue e) t; Done (mkExec (arbiter_local e) (local_queue e) q (local_task_cache e)).

Definition wake (cpu : nat) (w : KernelWaker) s : outcome (Sys F) :=
  let target := if is_owned w then owner w else cpu in
  e ← unwrap (execs s !! target);
  e ← push_to e (w_local w) (w_id w);
  Done (with_execs s (<[target := e]> (execs s))).

(** [Task::new] followed by [Task::run], or [LocalExecutor::spawn]. *)
Definition spawn (cpu : nat) (fut : F) (par : option TaskId) s : outcome (Sys F) :=
  let t := next_id s in
  e ← unwrap (execs s !! cpu);
  e ← push_to e false t;
  Done (mkSys (num_cpus s) (<[cpu := e]> (execs s)) (advertised_work s) ({[t]} ∪ global_task_list s)
          (<[t := mkTask (mkCtx t CpuBMap.new par false false) fut None]> (heap s)) (locked s) (current s) (S t)
          (steal_arbiter s) (polls s)).

(** [LocalExecutor::steal] of executor [victim] by [cpu]; [n] counts the turns left. *)
Fixpoint steal_loop (n cpu : nat) (q : list TaskId) s : outcome (option TaskId * list TaskId) :=
  match n with
  | O => Done (None, q)
  | S n =>
      match queue_pop q with
      | (None, q) => Done (None, q)
      | (Some t, q) =>
          if bool_decide (t ∈ global_task_list s) then
            task ← unwrap (heap s !! t);
            if negb (bool_decide (t ∈ locked s)) && is_valid cpu task then Done (Some t, q)
            else q ← queue_push q t; steal_loop n cpu q s
          else Done (None, q)
      end
  end.

Definition steal (cpu victim : nat) s : outcome (option TaskId * Sys F) :=
  e ← unwrap (execs s !! victim);
  r ← steal_loop (length (stealable_queue e)) cpu (stealable_queue e) s;
  Done (r.1, with_execs s (<[victim := mkExec (arbiter_local e) (local_queue e) r.2 (local_task_cache e)]> (execs s))).

(** The loop over the advertised work in [steal_work]. *)
Fixpoint advertised_loop (n cpu : nat) (q : list TaskId) s : outcome (option TaskId * list TaskId) :=
  match n with
  | O => Done (None, q)
  | S n =>
      match q with
      | [] => Done (None, [])
      | t :: q =>
          if bool_decide (t ∈ global_task_list s) then
            task ← unwrap (heap s !! t);
            if negb (bool_decide (t ∈ locked s)) && is_valid cpu task then Done (Some t, q)
            else advertised_loop n cpu q s
          else advertised_loop n cpu q s
      end
  end.

Definition steal_work (cpu : nat) s : outcome (option TaskId * Sys F) :=
  r ← advertised_loop (length (advertised_work s)) cpu (advertised_work s) s;
  let s := with_advertised s r.2 in
  match r.1 with
  | Some t => Done (Some t, s)
  | None =>
      let victim := steal_arbiter s mod num_cpus s in
      steal cpu victim
        (mkSys (num_cpus s) (execs s) (advertised_work s) (global_task_list s) (heap s) (locked s) (current s)
           (next_id s) (S (steal_arbiter s)) (polls s))
  end.

(** ** Interleaved execution *)

(** One step of the machine: a CPU that is not polling fetches or steals a task and starts it, a
    poll ends, a waker is called, or a task is spawned. *)
Inductive step : Sys F -> Sys F -> Prop :=
| step_idle s cpu s' :
    current s !! cpu = None -> fetch_kernel_task cpu s = Done (None, s') -> step s s'
| step_fetch s cpu t s1 b s' :
    current s !! cpu = None -> fetch_kernel_task cpu s = Done (Some t, s1) ->
    run_start cpu t s1 = Done (b, s') -> step s s'
| step_no_steal s cpu s' :
    current s !! cpu = None -> steal_work cpu s = Done (None, s') -> step s s'
| step_steal s cpu t s1 b s' :
    current s !! cpu = None -> steal_work cpu s = Done (Some t, s1) ->
    run_start cpu t s1 = Done (b, s') -> step s s'
| step_finish s cpu s' : run_finish cpu s = Done s' -> step s s'
| step_wake s cpu t task w s' :
    heap s !! t = Some task -> waker task = Some w -> wake cpu w s = Done s' -> step s s'
| step_spawn s cpu fut par s' : spawn cpu fut par s = Done s' -> step s s'.

(** A machine with idle executors and no tasks. *)
Definition boot (n : nat) : Sys F :=
  mkSys n (list_to_map ((fun c => (c, exec_new)) <$> seq 0 n)) [] ∅ ∅ ∅ ∅ 0 0 [].

(** No poll of a task comes after one that was [Ready] ([polls] is latest first). *)
Fixpoint once_ready (ps : list (TaskId * nat * bool)) : Prop :=
  match ps with
  | [] => True
  | (t, _, _) :: rest => (forall c, (t, c, true) ∉ rest) /\ once_ready rest
  end.

Record inv s : Prop := {
  inv_heap : forall t task, heap s !! t = Some task -> id (context task) = t /\ t < next_id s;
  inv_current : forall cpu t, current s !! cpu = Some t ->
    exists task, heap s !! t = Some task /\ exited (context task) = false /\ is_valid cpu task = true;
  inv_locked : forall cpu t, current s !! cpu = Some t -> t ∈ locked s;
  inv_excl : forall c1 c2 t, current s !! c1 = Some t -> current s !! c2 = Some t -> c1 = c2;
  inv_ready : forall t c, (t, c, true) ∈ polls s -> exists task, heap s !! t = Some task /\ exited (context task) = true;
  inv_polls : once_ready (polls s);
}.

(** Steps that only touch queues keep the invariant. *)
Definition same_tasks s s' : Prop :=
  heap s' = heap s /\ locked s' = locked s /\ current s' = current s /\ next_id s' = next_id s /\ polls s' = polls s.

Lemma inv_same s s' : same_tasks s s' -> inv s -> inv s'.
Proof. intros (H1 & H2 & H3 & H4 & H5) [I1 I2 I3 I4 I5 I6]. split; rewrite ?H1, ?H2, ?H3, ?H4, ?H5; auto. Qed.

Lemma fetch_same cpu s r s' : fetch_kernel_task cpu s = Done (r, s') -> same_tasks s s'.
Proof.
  unfold fetch_kernel_task. destruct (execs s !! cpu) as [e|]; [|done]. cbn.
  destruct (fetch_tid e) as [[[t []]|] e']; [destruct (fetch_from_cache s e' t)|..]; intros [= <- <-]; done.
Qed.

Lemma steal_same cpu s r s' : steal_work cpu s = Done (r, s') -> same_tasks s s'.
Proof.
  unfold steal_work. destruct advertised_loop as [[[t|] q]|]; [|..|done]; cbn; [intros [= <- <-]; done|].
  unfold steal. cbn. destruct (execs s !! _) as [e|]; [|done]. cbn. destruct steal_loop as [[o q']|]; [|done]. cbn.
  intros [= <- <-]. done.
Qed.

Lemma reload_keeps n w c w' c' : reload n w c = Done (w', c') ->
  id c' = id c /\ affinity c' = affinity c /\ exited c' = exited c.
Proof.
  unfold reload. case_match; [destruct find_first_zero; [|done]|]; cbn; intros [= <- <-]; done.
Qed.

Lemma affinity_calls calls c :
  let c' := fold_left (fun c ce => set_affinity c ce.1 ce.2) calls c in id c' = id c /\ exited c' = exited c.
Proof.
  revert c. induction calls as [|ce calls IH]; intros c; [done|]. cbn. destruct (IH (set_affinity c ce.1 ce.2)) as [-> ->]. done.
Qed.

(** Replacing a task by one that differs only in its waker. *)
Lemma inv_rewake s t task task' : inv s -> heap s !! t = Some task ->
  id (context task') = id (context task) -> affinity (context task') = affinity (context task) ->
  exited (context task') = exited (context task) -> inv (with_heap s (<[t := task']> (heap s))).
Proof.
  intros [I1 I2 I3 I4 I5 I6] Ht Hid Haf Hex. pose proof (I1 t task Ht) as [Hidt Hlt]. split; cbn; auto.
  - intros t' task1 Ht'. destruct (decide (t = t')) as [<-|]; [rewrite lookup_insert_eq in Ht'; simplify_eq|rewrite lookup_insert_ne in Ht' by done; eauto].
    split; congruence.
  - intros cpu t' Hc. destruct (I2 cpu t' Hc) as (task1 & H1 & H2 & H3). destruct (decide (t = t')) as [<-|].
    + rewrite Ht in H1. simplify_eq. exists task'. rewrite lookup_insert_eq. split; [done|]. split; [congruence|]. unfold is_valid. by rewrite Haf.
    + exists task1. by rewrite lookup_insert_ne by done.
  - intros t' c Hp. destruct (I5 t' c Hp) as (task1 & H1 & H2). destruct (decide (t = t')) as [<-|].
    + rewrite Ht in H1. simplify_eq. exists task'. rewrite lookup_insert_eq. split; [done|congruence].
    + exists task1. by rewrite lookup_insert_ne by done.
Qed.

Lemma run_start_inv cpu t s b s' : inv s -> current s !! cpu = None -> run_start cpu t s = Done (b, s') -> inv s'.
Proof.
  intros Hinv Hcur. unfold run_start. case_bool_decide as Hlock; [intros [= <- <-]; done|].
  destruct (heap s !! t) as [task|] eqn:Ht; [|done]. cbn. destruct (is_valid cpu task) eqn:Hv; cbn.
  2:{ intros [= <- <-]. by apply (inv_same s). }
  assert (forall wt, id (context wt) = id (context task) -> affinity (context wt) = affinity (context task) ->
    exited (context wt) = exited (context task) ->
    (if exited (context wt)
     then Done (false, mkSys (num_cpus s) (execs s) (advertised_work s) (global_task_list s ∖ {[id (context wt)]})
            (<[t:=wt]> (heap s)) (locked s) (current s) (next_id s) (steal_arbiter s) (polls s))
     else assert_that (bool_decide (current s !! cpu = None)) ≫= fun _ =>
          Done (true, mkSys (num_cpus s) (execs s) (advertised_work s) (global_task_list s) (<[t:=wt]> (heap s))
            ({[t]} ∪ locked s) (<[cpu:=t]> (current s)) (next_id s) (steal_arbiter s) (polls s))) = Done (b, s') -> inv s') as Hgo.
  { intros wt Hid Haf Hex Heq. pose proof (inv_rewake s t task wt Hinv Ht Hid Haf Hex) as Hinv'.
    destruct (exited (context wt)) eqn:Hexw; [injection Heq as <- <-; by apply (inv_same (with_heap s (<[t:=wt]> (heap s))))|].
    rewrite bool_decide_true in Heq by done. injection Heq as <- <-. destruct Hinv' as [I1 I2 I3 I4 I5 I6]. cbn in *.
    assert (forall c, current s !! c = Some t -> False) as Hno by (intros c Hc; by apply Hlock, I3 with c).
    split; cbn; auto.
    - intros c t' Hc. destruct (decide (cpu = c)) as [<-|]; [|rewrite lookup_insert_ne in Hc by done; eauto].
      rewrite lookup_insert_eq in Hc. simplify_eq. exists wt. rewrite lookup_insert_eq. split; [done|]. split; [done|].
      unfold is_valid in *. by rewrite Haf.
    - intros c t' Hc. destruct (decide (cpu = c)) as [<-|]; [rewrite lookup_insert_eq in Hc; simplify_eq; set_solver|].
      rewrite lookup_insert_ne in Hc by done. apply I3 in Hc. set_solver.
    - intros c1 c2 t' H1 H2. destruct (decide (cpu = c1)) as [<-|], (decide (cpu = c2)) as [<-|]; [done| | |];
        rewrite ?lookup_insert_eq, ?lookup_insert_ne in H1 by done; rewrite ?lookup_insert_eq, ?lookup_insert_ne in H2 by done;
        simplify_eq; [by destruct (Hno c2)|by destruct (Hno c1)|eauto]. }
  destruct (waker task) as [w|] eqn:Hw; cbn; [by apply (Hgo (mkTask (context task) (future task) (Some w)))|].
  destruct (waker_new (num_cpus s) (context task)) as [[w c]|] eqn:Hn; [|done]. cbn.
  apply reload_keeps in Hn as (H1 & H2 & H3). by apply (Hgo (mkTask c (future task) (Some w))).
Qed.

Lemma run_finish_inv cpu s s' : inv s -> run_finish cpu s = Done s' -> inv s'.
Proof.
  intros [I1 I2 I3 I4 I5 I6]. unfold run_finish. destruct (current s !! cpu) as [t|] eqn:Hc; [|done]. cbn.
  destruct (I2 cpu t Hc) as (task & Ht & Hex & Hv). rewrite Ht. cbn.
  destruct (poll_future cpu (future task)) as [[answer fut] calls].
  pose proof (affinity_calls calls (context task)) as Hcalls. cbn in Hcalls.
  set (ctx := fold_left _ calls (context task)) in *. destruct Hcalls as [Hcid Hcex].
  assert (forall g task' ready, id (context task') = t -> exited (context task') = ready ->
    inv (mkSys (num_cpus s) (execs s) (advertised_work s) g (<[t:=task']> (heap s)) (locked s ∖ {[t]}) (delete cpu (current s))
      (next_id s) (steal_arbiter s) ((t, cpu, ready) :: polls s))) as Hgo.
  { intros g task' ready Hid Hr.
    assert (forall c t', delete cpu (current s) !! c = Some t' -> current s !! c = Some t' /\ t' <> t) as Hdel.
    { intros c t' Hd. apply lookup_delete_Some in Hd as [Hne Hd]. split; [done|]. intros ->. apply Hne. by apply (I4 cpu c t). }
    assert (forall c, (t, c, true) ∉ polls s) as Hnever.
    { intros c Hp. destruct (I5 t c Hp) as (task1 & H1 & H2). congruence. }
    split; cbn.
    - intros t' task1 Ht'. destruct (decide (t = t')) as [<-|]; [|rewrite lookup_insert_ne in Ht' by done; eauto].
      rewrite lookup_insert_eq in Ht'. simplify_eq. split; [done|]. by apply I1 in Ht as [_ ?].
    - intros c t' [Hc' Hne]%Hdel. rewrite lookup_insert_ne by done. eauto.
    - intros c t' [Hc' Hne]%Hdel. apply I3 in Hc'. set_solver.
    - intros c1 c2 t' [H1 _]%Hdel [H2 _]%Hdel. eauto.
    - intros t' c [[= -> -> <-]|Hp]%elem_of_cons.
      + exists task'. by rewrite lookup_insert_eq.
      + destruct (I5 t' c Hp) as (task1 & H1 & H2). exists task1. rewrite lookup_insert_ne; [done|]. intros ->. by apply (Hnever c).
    - split; done. }
  pose proof (I1 t task Ht) as [Hidt _]. destruct answer as [r|].
  - intros [= <-]. apply Hgo; cbn; congruence.
  - destruct (reload_waker ctx).
    + destruct (waker task) as [w|]; [|done]. cbn. destruct (reload (num_cpus s) w ctx) as [[w' c']|] eqn:Hrl; [|done]. cbn.
      intros [= <-]. apply reload_keeps in Hrl as (H1 & H2 & H3). apply Hgo; cbn; congruence.
    + intros [= <-]. apply Hgo; cbn; congruence.
Qed.

Lemma spawn_inv cpu fut par s s' : inv s -> spawn cpu fut par s = Done s' -> inv s'.
Proof.
  intros [I1 I2 I3 I4 I5 I6]. unfold spawn. destruct (execs s !! cpu) as [e|]; [|done]. cbn.
  destruct (queue_push _ _) as [q|]; [|done]. cbn. intros [= <-].
  assert (forall t task, heap s !! t = Some task -> next_id s <> t) as Hne by (intros t task [_ ?]%I1 ?; lia).
  split; cbn; auto.
  - intros t task Ht. destruct (decide (next_id s = t)) as [<-|].
    + rewrite lookup_insert_eq in Ht. simplify_eq. cbn. split; [done|lia].
    + rewrite lookup_insert_ne in Ht by done. apply I1 in Ht as [? ?]. split; [done|lia].
  - intros c t Hc. destruct (I2 c t Hc) as (task & H1 & H2). exists task. by rewrite lookup_insert_ne by by eapply Hne.
  - intros t c Hp. destruct (I5 t c Hp) as (task & H1 & H2). exists task. by rewrite lookup_insert_ne by by eapply Hne.
Qed.

Lemma step_inv s s' : inv s -> step s s' -> inv s'.
Proof.
  intros Hinv Hstep. destruct Hstep as [s cpu s' _ H|s cpu t s1 b s' Hc H H'|s cpu s' _ H|s cpu t s1 b s' Hc H H'|s cpu s' H|s cpu t task w s' _ _ H|s cpu fut par s' H].
  - apply fetch_same in H. by eapply inv_same.
  - apply fetch_same in H. pose proof H as (_ & _ & Hcur & _). eapply run_start_inv; [by eapply inv_same|by rewrite Hcur|done].
  - apply steal_same in H. by eapply inv_same.
  - apply steal_same in H. pose proof H as (_ & _ & Hcur & _). eapply run_start_inv; [by eapply inv_same|by rewrite Hcur|done].
  - by eapply run_finish_inv.
  - revert H. unfold wake. destruct (execs s !! _) as [e|]; [|done]. cbn. destruct push_to as [e'|]; [|done]. cbn.
    intros [= <-]. by apply (inv_same s).
  - by eapply spawn_inv.
Qed.

(** C5. In every interleaving of the executors: a future is polled by at most one CPU at a time, on
    a CPU its task is allowed to run on, and never again after it has answered [Ready]. *)
Theorem executor_polls_safe n s :
  steps step (boot n) s ->
  (forall c1 c2 t, current s !! c1 = Some t -> current s !! c2 = Some t -> c1 = c2) /\
  (forall cpu t, current s !! cpu = Some t -> exists task, heap s !! t = Some task /\
     is_valid cpu task = true /\ exited (context task) = false) /\
  once_ready (polls s).
Proof.
  intros Hs. assert (inv s) as [I1 I2 I3 I4 I5 I6].
  { eapply steps_invariant; [exact step_inv|exact Hs|]. split; cbn; try done. intros t c Hp. by apply elem_of_nil in Hp. }
  split; [done|]. split; [|done]. intros cpu t Hc. destruct (I2 cpu t Hc) as (task & H1 & H2 & H3). by exists task.
Qed.

(** [fetch_kernel_task] takes the oldest id of one of the two queues of the CPU and finds none
    only when both are empty.  The arbiter keeps a long stealable queue from starving the local
    one: after an id of the stealable queue, the next one is local if there is a local one. *)
Theorem fetch_tid_fair (e : LocalExecutor) :
  let '(r, e') := fetch_tid e in
  match r with
  | None => local_queue e = [] /\ stealable_queue e = []
  | Some (t, true) => local_queue e = t :: local_queue e' /\ stealable_queue e' = stealable_queue e
  | Some (t, false) =>
      stealable_queue e = t :: stealable_queue e' /\ local_queue e' = local_queue e /\
      (local_queue e' <> [] -> exists t', fst <$> (fetch_tid e').1 = Some t' /\ snd <$> (fetch_tid e').1 = Some true)
  end.
Proof.
  destruct e as [arb lq sq cache]. unfold fetch_tid, queue_pop. cbn.
  case_bool_decide as Hlen.
  - destruct lq as [|t lq]; cbn; [|done]. destruct sq as [|t sq]; cbn in *; [done|lia].
  - destruct sq as [|t sq]; [cbn in Hlen; lia|]. destruct arb; cbn.
    + destruct lq as [|t' lq]; cbn; [|done]. done.
    + split; [done|]. split; [done|]. intros Hne. destruct lq as [|t' lq]; [done|]. cbn.
      case_bool_decide; cbn; by exists t'.
Qed.

(** The number of CPUs a task may not run on. *)
Lemma count_forbidden (bm : CpuBMap) (n : nat) :
  (64 * Z.of_nat (length (words bm)) < 2 ^ 32)%Z -> (forall c, n <= c -> get bm c = false) ->
  count bm = Some (Z.of_nat (num_set (get bm) n)).
Proof.
  intros Hlen Hhi. destruct bm as [ws]. unfold count. cbn [words] in *. rewrite count_fold by lia. rewrite Z.add_0_l. do 2 f_equal.
  assert (forall a b, n <= a -> num_set (get (mk ws)) (a + b) = num_set (get (mk ws)) a) as Hext.
  { intros a b Ha. rewrite num_set_add. rewrite (num_set_ext (fun i => get (mk ws) (a + i)) (fun _ => false)) by (intros; apply Hhi; lia).
    enough (num_set (fun _ => false) b = 0) by lia. clear. induction b; [done|]. by rewrite num_set_S, IHb. }
  destruct (decide (n <= 64 * length ws)).
  - replace (64 * length ws) with (n + (64 * length ws - n)) by lia. rewrite Hext by lia. lia.
  - replace n with (64 * length ws + (n - 64 * length ws)) by lia.
    rewrite num_set_add. rewrite (num_set_ext (fun i => get (mk ws) (64 * length ws + i)) (fun _ => false)).
    + enough (num_set (fun _ => false) (n - 64 * length ws) = 0) by lia.
      generalize (n - 64 * length ws). clear. intros b. induction b; [done|]. by rewrite num_set_S, IHb.
    + intros i _. rewrite get_testbit. cbn [words]. rewrite lookup_ge_None_2; [done|].
      apply Nat.div_le_lower_bound; lia.
Qed.

Lemma num_set_one p n a : a < n -> p a = false -> (forall c, c < n -> c <> a -> p c = true) -> num_set p n = n - 1.
Proof.
  induction n as [|n IH]; intros Ha Hpa Hp; [lia|]. rewrite num_set_S.
  destruct (decide (a = n)) as [->|].
  - rewrite Hpa. cbn. enough (num_set p n = n) by lia.
    clear IH Ha Hpa. assert (forall c, c < n -> p c = true) as Hall by (intros c Hc; apply Hp; lia). clear Hp.
    induction n as [|n IH]; [done|]. rewrite num_set_S, Hall, IH by (try lia; intros; apply Hall; lia). cbn. lia.
  - rewrite IH by (try lia; auto with lia; intros; apply Hp; lia). rewrite Hp by lia. cbn. lia.
Qed.

(** A task that only one CPU may run is woken there: when the affinity of a task leaves exactly
    one of several CPUs, [KernelWaker::reload] makes that CPU the owner, and a wake on any CPU
    appends the task to the local queue of that CPU, from which other CPUs do not steal. *)
Theorem waker_routes_to_owner (n a : nat) (w : KernelWaker) (c : TaskContext) :
  2 <= n -> a < n -> wf (affinity c) -> (64 * Z.of_nat (length (words (affinity c))) < 2 ^ 32)%Z ->
  (forall cpu, get (affinity c) cpu = bool_decide (cpu < n /\ cpu <> a)) ->
  exists w', reload n w c = Done (w', mkCtx (id c) (affinity c) (parent c) (exited c) false) /\
    w_id w' = w_id w /\
    forall cpu s e, execs s !! a = Some e -> length (local_queue e) < WORK_QUEUE_SIZE ->
      wake cpu w' s = Done (with_execs s (<[a := mkExec (arbiter_local e) (local_queue e ++ [w_id w])
                                                   (stealable_queue e) (local_task_cache e)]> (execs s))).
Proof.
  intros Hn Ha Hwf Hlen Hget.
  assert (count (affinity c) = Some (Z.of_nat (n - 1))) as Hcount.
  { rewrite (count_forbidden _ n Hlen).
    - do 2 f_equal. apply (num_set_one _ n a); [done| |]; intros; rewrite Hget.
      + by rewrite bool_decide_false by lia.
      + by rewrite bool_decide_true by lia.
    - intros cpu Hc. rewrite Hget. by rewrite bool_decide_false by lia. }
  assert (find_first_zero n (affinity c) = Some a) as Hzero.
  { pose proof (find_zero_from_spec n 0 (words (affinity c)) Hwf) as Hz. unfold find_first_zero.
    assert (forall cpu, get (mk (words (affinity c))) cpu = bool_decide (cpu < n /\ cpu <> a)) as Hget' by (destruct (affinity c); done).
    destruct find_zero_from as [z|].
    - rewrite Nat.sub_0_r, Hget' in Hz. destruct Hz as (_ & Hz & Hbelow). case_bool_decide; [done|].
      destruct (decide (z = a)) as [->|]; [done|]. exfalso. specialize (Hbelow a ltac:(lia)). rewrite Hget' in Hbelow.
      by rewrite bool_decide_false in Hbelow by lia.
    - exfalso. destruct Hz as [Hz1 Hz2]. specialize (Hz2 a ltac:(lia)). rewrite Hget' in Hz2.
      by rewrite bool_decide_false in Hz2 by lia. }
  unfold reload. rewrite Hcount.
  replace ((Z.of_nat n - Z.of_nat (n - 1)) mod 2 ^ 32)%Z with 1%Z by (replace (Z.of_nat n - Z.of_nat (n - 1))%Z with 1%Z by lia; done).
  cbn. rewrite Hzero. cbn. eexists. split; [done|]. split; [done|]. intros cpu s e He Hq.
  unfold wake, push_to, queue_push. cbn. rewrite He. cbn. by rewrite bool_decide_true.
Qed.

(** On a one-CPU machine a task that may not run on CPU 0 gets an owner that does not exist, and
    waking it panics. *)
Lemma waker_owner_missing w c cpu s e :
  affinity c = set_bit CpuBMap.new 0 -> execs s = {[0 := e]} ->
  exists w' c', reload 1 w c = Done (w', c') /\ owner w' = 1 /\ wake cpu w' s = Panic.
Proof. intros Ha He. unfold reload. rewrite Ha. eexists. eexists. split; [vm_compute; reflexivity|]. split; [done|]. unfold wake. cbn. by rewrite He. Qed.

(** Advertised work that the CPU which takes it may not run is dropped. *)
Lemma steal_work_drops cpu t task s :
  t ∈ global_task_list s -> heap s !! t = Some task -> is_valid cpu task = false ->
  advertised_loop 1 cpu [t] s = Done (None, []).
Proof. intros H1 H2 H3. cbn. rewrite bool_decide_true by done. rewrite H2. cbn. rewrite H3, andb_false_r. done. Qed.

End Exec.

End Scheduler.

(** ** Idle work *)
Module IdleWork.

(** [IdleTask], with a name for the job. *)
Record IdleTask := mkIdle { job : nat; active_minimum : Z; stand_down_until : Z }.

Record IdleWorkList := mkList { arbiter : nat; idle_jobs : list IdleTask }.

Definition idle_new : IdleWorkList := mkList 0 [].

Definition idle_push (l : IdleWorkList) (t : IdleTask) : IdleWorkList := mkList (arbiter l) (idle_jobs l ++ [t]).

(** [AbsoluteTime::is_future] (true when the time has passed). *)
Definition is_future (now t : Z) : bool := (t <? now)%Z.

(** [iter().enumerate()]. *)
Definition enumerate {A} (l : list A) : list (nat * A) := zip (seq 0 (length l)) l.

(** [search] at time [now]: the slices are bounds checked, and both parts of the chain count from
    zero. *)
Definition search (now cpus_working : Z) (l : IdleWorkList) : outcome (option IdleTask * IdleWorkList) :=
  let start := arbiter l in
  let jobs := idle_jobs l in
  _ ← assert_that (bool_decide (start <= length jobs));
  match list_find (fun it => is_future now (stand_down_until it.2) = true /\ (active_minimum it.2 <= cpus_working)%Z)
          (enumerate (drop start jobs) ++ enumerate (take start jobs)) with
  | Some (_, (i, t)) =>
      let next := if bool_decide (length jobs <= start + i + 1) then start + i + 1 else 0 in
      Done (Some t, mkList next jobs)
  | None => Done (None, l)
  end.

(** [IdleTask::poll] when the job answers with a stand-down time. *)
Definition stand_down (now duration : Z) (t : IdleTask) : IdleTask :=
  mkIdle (job t) (active_minimum t) (now ⊕ duration)%u64.

Definition eligible (now cpus_working : Z) (t : IdleTask) : Prop :=
  is_future now (stand_down_until t) = true /\ (active_minimum t <= cpus_working)%Z.

Fixpoint searches (k : nat) (now cpus_working : Z) (l : IdleWorkList) : outcome (list (option IdleTask) * IdleWorkList) :=
  match k with
  | O => Done ([], l)
  | S k => r ← search now cpus_working l; r' ← searches k now cpus_working r.2; Done (r.1 :: r'.1, r'.2)
  end.

Lemma search_first now cw t ts :
  eligible now cw t ->
  search now cw (mkList 0 (t :: ts)) =
  Done (Some t, mkList (if bool_decide (ts = []) then 1 else 0) (t :: ts)).
Proof.
  intros He. unfold search. cbn [arbiter idle_jobs drop take]. rewrite bool_decide_true by lia. cbn.
  rewrite decide_True by done. cbn. do 3 f_equal. destruct ts; cbn; [done|]. by rewrite !bool_decide_false by (cbn; lia).
Qed.

(** The round robin over idle jobs is inverted.  With two or more jobs that stay eligible every
    search returns the first one, so the others never run; with a single job the third search
    indexes past the end of the list and panics. *)
Theorem idle_search_unfair now cw t ts :
  eligible now cw t ->
  if bool_decide (ts = []) then searches 3 now cw (mkList 0 [t]) = Panic
  else forall k, searches k now cw (mkList 0 (t :: ts)) = Done (replicate k (Some t), mkList 0 (t :: ts)).
Proof.
  intros He. case_bool_decide as Hts.
  - subst ts. cbn. rewrite (search_first now cw t [] He). cbn.
    unfold search. cbn. rewrite decide_True by done. cbn. done.
  - intros k. induction k as [|k IH]; [done|]. cbn. rewrite (search_first now cw t ts He).
    rewrite bool_decide_false by done. cbn. rewrite IH. done.
Qed.

Lemma idle_search_unfair_witness :
  searches 7 10 4 (mkList 0 [mkIdle 0 1 5; mkIdle 1 1 5]) =
    Done (replicate 7 (Some (mkIdle 0 1 5)), mkList 0 [mkIdle 0 1 5; mkIdle 1 1 5]).
Proof. apply (idle_search_unfair 10 4 (mkIdle 0 1 5) [mkIdle 1 1 5]). split; [reflexivity|cbn; lia]. Defined.

End IdleWork.

(** ** The timer queue *)
Module SleepQueue.

(** [SleepTimerInner]: timers are compared by [alarm] only. *)
Record Timer := mkTimer { tid : nat; alarm : Z }.

(** The queue and the timers whose [in_queue] flag is set. *)
Record SleepQueue := mkQueue { queue : list Timer; in_queue : gset nat }.

Definition timer_new (now : Z) (t : nat) (duration : Z) : Timer := mkTimer t (now ⊕ duration)%u64.

(** [VecDeque::binary_search]: which of several equal elements is found is not specified, so the
    search is a parameter with its documented contract. *)
Section Queue.
Context (binary_search : list Timer -> Timer -> result nat nat).
Context (binary_search_ok : forall l t i, StronglySorted (fun a b => (alarm a <= alarm b)%Z) l ->
  binary_search l t = Ok i -> exists x, l !! i = Some x /\ alarm x = alarm t).
Context (binary_search_err : forall l t i, StronglySorted (fun a b => (alarm a <= alarm b)%Z) l ->
  binary_search l t = Err i -> i <= length l /\ Forall (fun x => (alarm x < alarm t)%Z) (take i l) /\
    Forall (fun x => (alarm t < alarm x)%Z) (drop i l)).

Definition register (q : SleepQueue) (t : Timer) : SleepQueue :=
  let index := match binary_search (queue q) t with Ok i => i | Err i => i end in
  mkQueue (take index (queue q) ++ t :: drop index (queue q)) ({[tid t]} ∪ in_queue q).

(** [Timer::poll]: ready, and the queue afterwards. *)
Definition poll (now : Z) (t : Timer) (q : SleepQueue) : bool * SleepQueue :=
  if (now <? alarm t)%Z then
    (false, if bool_decide (tid t ∈ in_queue q) then q else register q t)
  else (true, q).

(** [wakeup]: the timer woken, if any. *)
Definition wakeup (now : Z) (q : SleepQueue) : option Timer * SleepQueue :=
  match queue q with
  | [] => (None, q)
  | t :: rest => if (now <? alarm t)%Z then (None, q) else (Some t, mkQueue rest (in_queue q))
  end.

Definition sorted (q : SleepQueue) : Prop := StronglySorted (fun a b => (alarm a <= alarm b)%Z) (queue q).

(** The timer queue stays ordered by alarm: registering a timer adds exactly that timer and
    keeps the order, wherever among equal alarms the binary search lands.  So the timer interrupt,
    which looks at the front only, wakes a timer exactly when one is due, never before its alarm,
    and always one with the earliest alarm. *)
Theorem sleep_queue_earliest q t now :
  sorted q ->
  sorted (register q t) /\ queue (register q t) ≡ₚ t :: queue q /\
  match wakeup now q with
  | (None, q') => q' = q /\ Forall (fun x => (now < alarm x)%Z) (queue q)
  | (Some x, q') => sorted q' /\ queue q = x :: queue q' /\ (alarm x <= now)%Z /\
                    Forall (fun y => (alarm x <= alarm y)%Z) (queue q')
  end.
Proof.
  intros Hs. split; [|split].
  - unfold sorted, register. cbn. set (l := queue q) in *.
    assert (exists i, (match binary_search l t with Ok i => i | Err i => i end) = i /\
      Forall (fun x => (alarm x <= alarm t)%Z) (take i l) /\ Forall (fun x => (alarm t <= alarm x)%Z) (drop i l)) as (i & -> & H1 & H2).
    { destruct (binary_search l t) as [i|i] eqn:E; exists i; (split; [done|]).
      - destruct (binary_search_ok l t i Hs E) as (x & Hx & Heq). unfold sorted in Hs. fold l in Hs.
        rewrite <- (take_drop_middle l i x Hx) in Hs. apply StronglySorted_app_iff in Hs as (_ & Hs & Hle).
        apply StronglySorted_inv in Hs as [_ Hf]. rewrite (drop_S l x i Hx), Forall_cons, !Forall_forall in *.
        split; [intros y Hy; specialize (Hle y x Hy ltac:(left)); lia|]. split; [lia|].
        intros y Hy. specialize (Hf y Hy). lia.
      - destruct (binary_search_err l t i Hs E) as (_ & H1 & H2). split; (eapply Forall_impl; [eassumption|]); cbn; lia. }
    unfold sorted in Hs. fold l in Hs. rewrite <- (take_drop i l) in Hs.
    apply StronglySorted_app_iff in Hs as (G1 & G2 & G3). apply StronglySorted_app_iff. rewrite Forall_forall in H1.
    split; [done|]. split; [by constructor|]. intros x y Hx [->|Hy]%elem_of_cons; [by apply H1|by apply G3].
  - unfold register. cbn. rewrite <- Permutation_middle. by rewrite take_drop.
  - unfold wakeup. destruct (queue q) as [|x l] eqn:Hq; [done|]. unfold sorted in Hs. rewrite Hq in Hs.
    apply StronglySorted_inv in Hs as [Hs Hf]. destruct (now <? alarm x)%Z eqn:E; bool_to_prop.
    + split; [done|]. constructor; [done|]. eapply Forall_impl; [exact Hf|]. cbn. lia.
    + split; [done|]. split; [done|]. split; [lia|done].
Qed.

(** At most one timer is woken per call, however many are due. *)
Lemma wakeup_one now q : length (queue q) <= S (length (queue (wakeup now q).2)).
Proof. unfold wakeup. destruct (queue q) as [|t l] eqn:E; [cbn; lia|]. destruct (_ <? _)%Z; cbn; rewrite ?E; cbn; lia. Qed.

End Queue.

(** A binary search that meets the contract. *)
Fixpoint find_index (l : list Timer) (t : Timer) : result nat nat :=
  match l with
  | [] => Err 0
  | x :: rest =>
      if (alarm x =? alarm t)%Z then Ok 0
      else if (alarm t <? alarm x)%Z then Err 0
      else match find_index rest t with Ok i => Ok (S i) | Err i => Err (S i) end
  end.

Lemma find_index_ok l t i : StronglySorted (fun a b => (alarm a <= alarm b)%Z) l -> find_index l t = Ok i ->
  exists x, l !! i = Some x /\ alarm x = alarm t.
Proof.
  intros _. revert i. induction l as [|x l IH]; intros i; cbn; [done|]. destruct (_ =? _)%Z eqn:E; bool_to_prop.
  - intros [= <-]. by exists x.
  - destruct (_ <? _)%Z; [done|]. destruct (find_index l t) as [j|] eqn:Ej; [|done]. intros [= <-]. by apply IH.
Qed.

Lemma find_index_err l t i : StronglySorted (fun a b => (alarm a <= alarm b)%Z) l -> find_index l t = Err i ->
  i <= length l /\ Forall (fun x => (alarm x < alarm t)%Z) (take i l) /\ Forall (fun x => (alarm t < alarm x)%Z) (drop i l).
Proof.
  revert i. induction l as [|x l IH]; intros i Hs; cbn; [intros [= <-]; cbn; auto|].
  apply StronglySorted_inv in Hs as [Hs Hf]. destruct (_ =? _)%Z eqn:E; bool_to_prop; [done|].
  destruct (_ <? _)%Z eqn:E2; bool_to_prop.
  - intros [= <-]. cbn. split; [lia|]. split; [done|]. constructor; [done|]. eapply Forall_impl; [exact Hf|]. cbn. lia.
  - destruct (find_index l t) as [|j] eqn:Ej; [done|]. intros [= <-]. destruct (IH j Hs eq_refl) as (H1 & H2 & H3). cbn.
    split; [lia|]. split; [constructor; [lia|done]|done].
Qed.

Definition sample_queue : SleepQueue := mkQueue [mkTimer 0 5; mkTimer 1 9] {[0; 1]}.

Lemma sleep_queue_earliest_witness :
  sorted (register find_index sample_queue (mkTimer 2 7)) /\
  queue (register find_index sample_queue (mkTimer 2 7)) ≡ₚ mkTimer 2 7 :: queue sample_queue /\
  sorted (mkQueue [mkTimer 1 9] {[0; 1]}) /\ queue sample_queue = [mkTimer 0 5; mkTimer 1 9] /\ (5 <= 6)%Z /\
  Forall (fun y => (5 <= alarm y)%Z) [mkTimer 1 9].
Proof.
  apply (sleep_queue_earliest find_index find_index_ok find_index_err sample_queue (mkTimer 2 7) 6).
  repeat constructor; cbn; lia.
Defined.


End SleepQueue.

(** ** Executions *)
Module SchedulerWitness.
Import Scheduler CpuBMap.

(** A future that is never ready. *)
Definition never (cpu fut : nat) : Poll * nat * list (nat * bool) := (Pending, S fut, []).

Definition or_boot (o : outcome (Sys nat)) : Sys nat := match o with Done s => s | Panic => boot 2 end.
Definition or_boot2 {A} (o : outcome (A * Sys nat)) : Sys nat := match o with Done r => r.2 | Panic => boot 2 end.

(** CPU 0 polls task 0; a wake on CPU 1 queues it there; CPU 1 fetches it while it is still being
    polled; then the poll ends. *)
Definition spawned : Sys nat := or_boot (spawn 0 0 None (boot 2)).
Definition polling : Sys nat := or_boot2 (run_start 0 0 (or_boot2 (fetch_kernel_task 0 spawned))).
Definition woken : Sys nat := or_boot (wake 1 (mkWaker 0 false false 0) polling).
Definition fetched : Sys nat := or_boot2 (run_start 1 0 (or_boot2 (fetch_kernel_task 1 woken))).
Definition finished : Sys nat := or_boot (run_finish never 0 fetched).

Lemma to_polling : steps (step never) (boot 2) polling.
Proof.
  apply (steps_trans _ _ spawned).
  - apply (steps_trans _ _ (boot 2)); [apply steps_refl|]. apply (step_spawn never (boot 2) 0 0 None). vm_compute. reflexivity.
  - apply (step_fetch never spawned 0 0 (or_boot2 (fetch_kernel_task 0 spawned)) true); vm_compute; reflexivity.
Qed.

(** A wake that arrives while the task is being polled can be lost: the CPU that receives it
    cannot lock the task, drops the id, and when the poll then ends with [Pending] the task is
    alive but in no queue, so it is never polled again. *)
Theorem wake_during_poll_lost :
  exists s1 s2 s3 task w, steps (step never) (boot 2) s1 /\
    current s1 !! 0 = Some 0 /\ heap s1 !! 0 = Some task /\ waker task = Some w /\
    wake 1 w s1 = Done s2 /\ steps (step never) s2 s3 /\
    0 ∈ global_task_list s3 /\ polls s3 = [(0, 0, false)] /\
    map_Forall (fun _ e => local_queue e = [] /\ stealable_queue e = []) (execs s3) /\
    advertised_work s3 = [] /\ current s3 = ∅.
Proof.
  exists polling, woken, finished. eexists. eexists. split; [exact to_polling|].
  split; [vm_compute; reflexivity|]. split; [vm_compute; reflexivity|]. split; [reflexivity|].
  split; [vm_compute; reflexivity|]. split.
  - apply (steps_trans _ _ fetched).
    + apply (steps_trans _ _ woken); [apply steps_refl|].
      apply (step_fetch never woken 1 0 (or_boot2 (fetch_kernel_task 1 woken)) false); vm_compute; reflexivity.
    + apply (step_finish never fetched 0). vm_compute. reflexivity.
  - split; [apply (bool_decide_unpack _); vm_compute; exact I|]. split; [vm_compute; reflexivity|].
    split; [apply (bool_decide_unpack _); vm_compute; exact I|]. split; vm_compute; reflexivity.
Qed.

Lemma executor_polls_safe_witness :
  (forall c1 c2 t, current polling !! c1 = Some t -> current polling !! c2 = Some t -> c1 = c2) /\
  (forall cpu t, current polling !! cpu = Some t -> exists task, heap polling !! t = Some task /\
     is_valid cpu task = true /\ exited (context task) = false) /\
  once_ready (polls polling).
Proof. apply (executor_polls_safe never 2 polling to_polling). Defined.

(** A task that may only run on CPU 2 of three. *)
Lemma waker_routes_to_owner_witness :
  let c := mkCtx 7 (mk [3%Z]) None false true in
  exists w', reload 3 (mkWaker 7 false false 0) c = Done (w', mkCtx 7 (mk [3%Z]) None false false) /\ w_id w' = 7 /\
    forall cpu (s : Sys nat) e, execs s !! 2 = Some e -> length (local_queue e) < WORK_QUEUE_SIZE ->
      wake cpu w' s = Done (with_execs s (<[2 := mkExec (arbiter_local e) (local_queue e ++ [7])
                                                   (stealable_queue e) (local_task_cache e)]> (execs s))).
Proof.
  intros c. apply (waker_routes_to_owner (F := nat) 3 2 (mkWaker 7 false false 0) c).
  - lia.
  - lia.
  - repeat constructor; cbn; lia.
  - cbn. lia.
  - intros cpu. rewrite get_testbit. cbn [c affinity words].
    destruct cpu as [|[|[|cpu]]]; [reflexivity..|]. rewrite bool_decide_false by lia.
    destruct (decide (S (S (S cpu)) < 64)).
    + rewrite Nat.div_small, Nat.mod_small by lia. cbn [lookup list_lookup].
      apply (Z.bits_above_log2 3); [lia|]. cbn. lia.
    + rewrite lookup_ge_None_2; [done|]. change (length [3%Z]) with 1. apply Nat.div_le_lower_bound; lia.
Defined.

End SchedulerWitness.
