(* ===== verification/Ps2.v ===== *)
(** * PS/2 keyboards

    [lib/hid-8042] ([keyboard.rs], [controller.rs], [lib.rs]): the commands of the keyboard and of the
    8042 controller as bytes, the replies and the device types; and [drivers/hid-ps2] ([controller.rs]):
    the ports, their interrupt handler, the bring-up of the controller and of a port, and the file
    that hands scan codes to a reader.

    The hardware is the class [Hw8042]: the two ports of the controller, the passing of time and the
    deadline of the code.  Bytes are integers below 256; [u8; 7] and [u8; 4] are lists. *)
From stdpp Require Import prelude gmap.
From S2P Require Import Prelude Files.
Open Scope Z_scope.

Definition is_u8 (b : Z) : Prop := 0 <= b < 256.

Definition wrap8 (z : Z) : Z := z mod 256.

(** ** Keyboard commands *)
Module Keyboard.

Inductive ScanCodeSetSubcommand := GetScanCode | SetScancodeSetOne | SetScancodeSetTwo | SetScancodeSetThree.

Definition subcommand_byte (s : ScanCodeSetSubcommand) : Z :=
  match s with GetScanCode => 0 | SetScancodeSetOne => 1 | SetScancodeSetTwo => 2 | SetScancodeSetThree => 3 end.

(** [KeyboardLed] and [RepeatCtl] are bytes. *)
Inductive Command :=
| SetLed (led : Z)
| Echo
| ScanCodeSet (s : ScanCodeSetSubcommand)
| IdentifyDevice
| RepeatCtl (r : Z)
| EnableScan
| DisableScan
| SetDefaultParams
| SetTypmatic
| MakeRelease
| MakeOnly
| SetTypmaticMakeRelease
| SetKeyTypmatic (key : list Z)
| SetKeyMakeRelease (key : list Z)
| SetKeyMakeOnly (key : list Z)
| Resend
| ResetAndBIST.

Definition command_byte (c : Command) : Z :=
  match c with
  | SetLed _ => 0xed
  | Echo => 0xee
  | ScanCodeSet _ => 0xf0
  | IdentifyDevice => 0xf2
  | RepeatCtl _ => 0xf3
  | EnableScan => 0xf4
  | DisableScan => 0xf5
  | SetDefaultParams => 0xf6
  | SetTypmatic => 0xf7
  | MakeRelease => 0xf8
  | MakeOnly => 0xf9
  | SetTypmaticMakeRelease => 0xfa
  | SetKeyTypmatic _ => 0xfb
  | SetKeyMakeRelease _ => 0xfc
  | SetKeyMakeOnly _ => 0xfd
  | Resend => 0xfe
  | ResetAndBIST => 0xff
  end.

(** [CommandIter::next] at an index.  [p[index - 1]] of the guard panics out of bounds. *)
Definition iter_next (c : Command) (index : nat) : outcome (option Z) :=
  if bool_decide (index = 0)%nat then Done (Some (command_byte c))
  else
    let key (p : list Z) :=
      b ← unwrap (p !! (index - 1)%nat);
      Done (if b =? 0 then None else p !! (index - 1)%nat) in
    match c with
    | SetLed p => Done (if bool_decide (index = 1)%nat then Some p else None)
    | RepeatCtl p => Done (if bool_decide (index = 1)%nat then Some p else None)
    | ScanCodeSet p => Done (if bool_decide (index = 1)%nat then Some (subcommand_byte p) else None)
    | SetKeyMakeOnly p | SetKeyTypmatic p | SetKeyMakeRelease p => key p
    | _ => Done None
    end.

(** [for payload in cmd.raw_iter()], as the list of payloads. *)
Fixpoint raw_collect (fuel : nat) (c : Command) (index : nat) : outcome (list Z) :=
  match fuel with
  | O => Panic
  | S fuel =>
      b ← iter_next c index;
      match b with
      | None => Done []
      | Some b => bs ← raw_collect fuel c (S index); Done (b :: bs)
      end
  end.

(** The array has seven bytes, so the iterator is advanced at most nine times. *)
Definition raw_iter (c : Command) : outcome (list Z) := raw_collect 10 c 0.

Inductive RepeatDelay := Milis250 | Milis500 | Milis750 | Milis1000.

Definition delay_byte (d : RepeatDelay) : Z := match d with Milis250 => 0 | Milis500 => 1 | Milis750 => 2 | Milis1000 => 3 end.

Definition repeat_new (rate : Z) (d : RepeatDelay) : outcome Z :=
  _ ← assert_that (Z.land rate 0xe0 =? 0);
  Done (Z.lor (wrap8 (Z.shiftl (delay_byte d) 5)) rate).

(** The fields that [Debug for RepeatCtl] prints. *)
Definition repeat_fmt (r : Z) : outcome (Z * RepeatDelay) :=
  d ← (match Z.shiftr r 4 with
       | 0 => Done Milis250 | 1 => Done Milis500 | 2 => Done Milis750 | 3 => Done Milis1000 | _ => Panic
       end);
  Done (Z.land r 0x1f, d).

Inductive Response := Ack | RespResend | RespEcho | BISTSuccess | BISTFailure | RespError.

Definition response_try_from (value : Z) : option Response :=
  if (value =? 0) || (value =? 0xff) then Some RespError
  else if value =? 0xfa then Some Ack
  else if value =? 0xfe then Some RespResend
  else if value =? 0xee then Some RespEcho
  else if value =? 0xaa then Some BISTSuccess
  else if (value =? 0xfc) || (value =? 0xfd) then Some BISTFailure
  else None.

End Keyboard.

(** ** Device types *)
Module Device.

Inductive DeviceType :=
| AncientIBMKeyboard | StandardMouse | MouseWithScrollWheel | Mouse5Button | MF2Keyboard | ShortKeyboard
| Ncd97Or122HostConnectKeyboard | Key122 | JapaneseGKeyboard | JapanesePKeyboard | JapaneseAKeyboard | NCDSunKeyboard | Unknown.

Definition is_keyboard (d : DeviceType) : bool :=
  match d with StandardMouse | MouseWithScrollWheel | Mouse5Button | Unknown => false | _ => true end.

Definition is_rodent (d : DeviceType) : bool :=
  match d with StandardMouse | MouseWithScrollWheel | Mouse5Button => true | _ => false end.

Definition device_try_from (a b : Z) : result DeviceType DeviceType :=
  if a =? 0 then Ok StandardMouse
  else if a =? 3 then Ok MouseWithScrollWheel
  else if a =? 4 then Ok Mouse5Button
  else if (a =? 0xab) && (b =? 0x83) then Ok MF2Keyboard
  else if (a =? 0xab) && (b =? 0xc1) then Ok MF2Keyboard
  else if (a =? 0xab) && (b =? 0x84) then Ok ShortKeyboard
  else if (a =? 0xab) && (b =? 0x85) then Ok Ncd97Or122HostConnectKeyboard
  else if (a =? 0xab) && (b =? 0x86) then Ok Key122
  else if (a =? 0xab) && (b =? 0x90) then Ok JapaneseGKeyboard
  else if (a =? 0xab) && (b =? 0x91) then Ok JapanesePKeyboard
  else if (a =? 0xab) && (b =? 0x92) then Ok JapaneseAKeyboard
  else if (a =? 0xac) && (b =? 0xa1) then Ok NCDSunKeyboard
  else Err Unknown.

End Device.

(** ** Controller commands *)
Module Ctl.

(** [StatusFlags], [ConfigurationByte]. *)
Definition OUTPUT_BUFFER_FULL : Z := 1.
Definition INPUT_BUFFER_FULL : Z := Z.shiftl 1 1.
Definition PORT_ONE_INT : Z := 1.
Definition PORT_TWO_INT : Z := Z.shiftl 1 1.
Definition PORT_TWO_CLOCK_DISABLED : Z := Z.shiftl 1 5.
Definition PORT_TRANSLATION : Z := Z.shiftl 1 6.

(** [Address::new]; [TryFrom<u8>] is the same. *)
Definition address_new (address : Z) : option Z := if 32 <? address then None else Some address.

Inductive Command :=
| ReadByte (addr : Z)
| WriteByte (addr data : Z)
| DisablePort2
| EnablePort2
| TestPort2
| TestController
| TestPort1
| DiagnosticDump
| DisablePort1
| EnablePort1
| ReadControllerInput
| CopyLowNibbleToStatus
| CopyHighNibbleToStatus
| ReadControllerOutput
| WriteControllerOutput (payload : Z)
| WriteByteToFirstOutput (payload : Z)
| WriteByteToSecondOutput (payload : Z)
| WriteToSecondInput (payload : Z)
| PulseOutputPins (payload : Z).

Record RawCommand := mkRaw { first_byte : Z; second_byte : option Z }.

(** [From<Command> for RawCommand]; [0xf0 + payload & 8] adds first. *)
Definition raw (c : Command) : RawCommand :=
  match c with
  | ReadByte addr => mkRaw (wrap8 (0x20 + addr)) None
  | WriteByte addr data => mkRaw (wrap8 (0x60 + addr)) (Some data)
  | DisablePort2 => mkRaw 0xa7 None
  | EnablePort2 => mkRaw 0xa8 None
  | TestPort2 => mkRaw 0xa9 None
  | TestController => mkRaw 0xaa None
  | TestPort1 => mkRaw 0xab None
  | DiagnosticDump => mkRaw 0xac None
  | DisablePort1 => mkRaw 0xad None
  | EnablePort1 => mkRaw 0xae None
  | ReadControllerInput => mkRaw 0xc0 None
  | CopyLowNibbleToStatus => mkRaw 0xc1 None
  | CopyHighNibbleToStatus => mkRaw 0xc2 None
  | ReadControllerOutput => mkRaw 0xd0 None
  | WriteControllerOutput payload => mkRaw 0xd1 (Some payload)
  | WriteByteToFirstOutput payload => mkRaw 0xd2 (Some payload)
  | WriteByteToSecondOutput payload => mkRaw 0xd3 (Some payload)
  | WriteToSecondInput payload => mkRaw 0xd4 (Some payload)
  | PulseOutputPins payload => mkRaw (Z.land (wrap8 (0xf0 + payload)) 8) None
  end.

(** [PortTestResult::is_good] of [from_bits_retain]. *)
Definition is_good (r : Z) : bool := r =? 0.

End Ctl.

(** ** Byte arrays as text sinks

    [WritableByteArray] of [kernel/src/util/io_write.rs]. *)
Module ByteSink.

Record WritableByteArray := mkSink { arr : list Z; cursor : nat }.

Definition writable (a : list Z) : WritableByteArray := mkSink a 0.

Definition write_str (s : list Z) (w : WritableByteArray) : result unit unit * WritableByteArray :=
  let len := Nat.min (length (drop (cursor w) (arr w))) (length s) in
  let w' := mkSink (take (cursor w) (arr w) ++ take len s ++ drop (len + cursor w) (arr w)) (cursor w + len) in
  (if (length (arr w) <? len)%nat then Err tt else Ok tt, w').

End ByteSink.

(** ** The driver *)
Module Driver.
Import Keyboard Device.

Inductive PortNum := One | Two.
#[global] Instance PortNum_eq_dec : EqDecision PortNum.
Proof. solve_decision. Defined.

Inductive PortState := Down | Nuisance | PortDevice (d : DeviceType).

Inductive DevMeta := ScanCodeSetOne | ScanCodeSetTwo | ScanCodeSetThree.

Inductive CommandError := ControllerTimeout | PortTimeout | SinglePortDevice.

(** [out_buff] names the buffer a reader has left; the wakers have no counterpart, a task may be
    polled at any time. *)
Record PortComplex := mkPort {
  port_status : PortState; dev_meta : DevMeta; open : bool; ack_buffer : list Z; out_buff : option nat }.

Definition port_new : PortComplex := mkPort Down ScanCodeSetOne false [0; 0; 0; 0] None.

Definition set_state (s : PortState) (p : PortComplex) : PortComplex :=
  mkPort s (dev_meta p) (open p) (ack_buffer p) (out_buff p).
Definition set_meta (m : DevMeta) (p : PortComplex) : PortComplex :=
  mkPort (port_status p) m (open p) (ack_buffer p) (out_buff p).
Definition set_open (b : bool) (p : PortComplex) : PortComplex :=
  mkPort (port_status p) (dev_meta p) b (ack_buffer p) (out_buff p).
Definition set_ack (b : list Z) (p : PortComplex) : PortComplex :=
  mkPort (port_status p) (dev_meta p) (open p) b (out_buff p).
Definition set_out (o : option nat) (p : PortComplex) : PortComplex :=
  mkPort (port_status p) (dev_meta p) (open p) (ack_buffer p) o.

Definition cmd_clear (p : PortComplex) : PortComplex := set_ack (replicate 4 0) p.

(** [ack]: the slice [b[..buff.len()]] of the four bytes panics when it is longer. *)
Definition ack (buff : list Z) (p : PortComplex) : outcome PortComplex :=
  if (length buff <=? 4)%nat then Done (set_ack (buff ++ replicate (4 - length buff) 0) p) else Panic.

(** The buffers of the readers with the number of bytes they were given. *)
Abbreviation buffers := (gmap nat (list Z * Z)).

Definition new_data (data : list Z) (p : PortComplex) (bufs : buffers) : outcome (PortComplex * buffers) :=
  d0 ← unwrap (data !! 0%nat);
  match response_try_from d0 with
  | Some _ => p ← ack data p; Done (p, bufs)
  | None =>
      match out_buff p with
      | None => Done (p, bufs)
      | Some tgt =>
          t ← unwrap (bufs !! tgt);
          let cpy_len := Nat.min (length data) (length t.1) in
          let dma_tgt := take cpy_len data ++ drop cpy_len t.1 in
          Done (set_out None p, <[tgt := (dma_tgt, (t.2 ⊕ Z.of_nat (length data))%u64)]> bufs)
      end
  end.

(** [CmdFut::poll]: [None] is pending. *)
Definition cmd_poll (p : PortComplex) : outcome (option (list Z) * PortComplex) :=
  b0 ← unwrap (ack_buffer p !! 0%nat);
  if negb (b0 =? 0) then Done (Some (ack_buffer p), cmd_clear p) else Done (None, p).

Definition TIMEOUT_DURATION_MS : Z := 100.

(** The controller and the clock.  [arm] starts a deadline after some milliseconds and [passed] asks whether it is over;
    [suspend] is what happens while the task sleeps: the ports whose interrupt fires, and nothing if
    it is never woken. *)
Class Hw8042 (R : Type) := {
  in_64 : R -> Z * R;
  in_60 : R -> Z * R;
  out_64 : Z -> R -> R;
  out_60 : Z -> R -> R;
  arm : Z -> R -> R;
  passed : R -> bool * R;
  suspend : R -> option (list PortNum * R);
}.

Section Driver.
Context {R : Type} `{HW : Hw8042 R}.

Record Controller := mkCtl {
  ctl_raw : R; multi_port : bool; port_1 : PortComplex; port_2 : PortComplex; bufs : buffers }.

Definition set_raw (r : R) (c : Controller) : Controller := mkCtl r (multi_port c) (port_1 c) (port_2 c) (bufs c).

Definition get_port (n : PortNum) (c : Controller) : PortComplex := match n with One => port_1 c | Two => port_2 c end.

Definition set_port (n : PortNum) (p : PortComplex) (c : Controller) : Controller :=
  match n with
  | One => mkCtl (ctl_raw c) (multi_port c) p (port_2 c) (bufs c)
  | Two => mkCtl (ctl_raw c) (multi_port c) (port_1 c) p (bufs c)
  end.

Definition set_bufs (b : buffers) (c : Controller) : Controller := mkCtl (ctl_raw c) (multi_port c) (port_1 c) (port_2 c) b.

(** *** [PS2Controller] *)
Definition read_data (r : R) : option Z * R :=
  let '(st, r) := in_64 r in
  if Z.land st Ctl.OUTPUT_BUFFER_FULL =? Ctl.OUTPUT_BUFFER_FULL then let '(d, r) := in_60 r in (Some d, r) else (None, r).

Definition send_data (data : Z) (r : R) : result unit unit * R :=
  let '(st, r) := in_64 r in
  if negb (Z.land st Ctl.INPUT_BUFFER_FULL =? Ctl.INPUT_BUFFER_FULL) then (Ok tt, out_60 data r) else (Err tt, r).

Definition send_raw (c : Ctl.RawCommand) (r : R) : R :=
  let r := out_64 (Ctl.first_byte c) r in
  match Ctl.second_byte c with Some b => out_60 b r | None => r end.

Definition send_command (c : Ctl.Command) (r : R) : R := send_raw (Ctl.raw c) r.

(** *** The interrupt handler *)

(** At most eight bytes are read. *)
Fixpoint read_burst (n : nat) (r : R) : list Z * R :=
  match n with
  | O => ([], r)
  | S n =>
      match read_data r with
      | (Some d, r) => let '(ds, r) := read_burst n r in (d :: ds, r)
      | (None, r) => ([], r)
      end
  end.

Definition int_handler (n : PortNum) (c : Controller) : outcome Controller :=
  let '(in_buff, r) := read_burst 8 (ctl_raw c) in
  let c := set_raw r c in
  if (0 <? length in_buff)%nat then
    x ← new_data in_buff (get_port n c) (bufs c);
    Done (set_bufs x.2 (set_port n x.1 c))
  else Done c.

Fixpoint int_handlers (ns : list PortNum) (c : Controller) : outcome Controller :=
  match ns with [] => Done c | n :: ns => c ← int_handler n c; int_handlers ns c end.

(** [hootux::suspend!()]; [None] when the task is never woken. *)
Definition do_suspend (c : Controller) : outcome (option Controller) :=
  match suspend (ctl_raw c) with
  | None => Done None
  | Some (ns, r) => c ← int_handlers ns (set_raw r c); Done (Some c)
  end.

(** *** Commands

    The result [None] means that the task is still waiting after [fuel] turns of a loop, or for
    ever. *)
Abbreviation wait A := (outcome (option (A * Controller))).

Definition wbind {A B} (m : wait A) (f : A -> Controller -> wait B) : wait B :=
  match m with Done (Some (a, c)) => f a c | Done None => Done None | Panic => Panic end.

Fixpoint read_loop (fuel : nat) (c : Controller) : wait (option Z) :=
  match fuel with
  | O => Done None
  | S fuel =>
      let '(over, r) := passed (ctl_raw c) in
      if over then Done (Some (None, set_raw r c))
      else
        match read_data r with
        | (Some d, r) => Done (Some (Some d, set_raw r c))
        | (None, r) =>
            s ← do_suspend (set_raw r c);
            match s with None => Done None | Some c => read_loop fuel c end
        end
  end.

Definition read_data_with_timeout (fuel : nat) (c : Controller) : wait (option Z) :=
  read_loop fuel (set_raw (arm TIMEOUT_DURATION_MS (ctl_raw c)) c).

(** The loop around [send_data] for one byte; [e] is the error when the deadline is over. *)
Fixpoint send_loop (fuel : nat) (e : CommandError) (payload : Z) (c : Controller) : wait (result unit CommandError) :=
  match fuel with
  | O => Done None
  | S fuel =>
      match send_data payload (ctl_raw c) with
      | (Ok _, r) => Done (Some (Ok tt, set_raw r c))
      | (Err _, r) =>
          let '(over, r) := passed r in
          if over then Done (Some (Err e, set_raw r c))
          else
            s ← do_suspend (set_raw r c);
            match s with None => Done None | Some c => send_loop fuel e payload c end
      end
  end.

(** Every byte for the second port is announced with a command of its own. *)
Definition WRITE_PORT_2_CMD : Z := 0xd4.

Definition announce (n : PortNum) (c : Controller) : Controller :=
  match n with One => c | Two => set_raw (send_raw (Ctl.mkRaw WRITE_PORT_2_CMD None) (ctl_raw c)) c end.

Definition send_error (n : PortNum) : CommandError := match n with One => ControllerTimeout | Two => PortTimeout end.

Fixpoint send_bytes (fuel : nat) (n : PortNum) (payloads : list Z) (c : Controller) : wait (result unit CommandError) :=
  match payloads with
  | [] => Done (Some (Ok tt, c))
  | b :: payloads =>
      let c := announce n c in
      wbind (send_loop fuel (send_error n) b (set_raw (arm TIMEOUT_DURATION_MS (ctl_raw c)) c)) (fun r c =>
        match r with Ok _ => send_bytes fuel n payloads c | Err e => Done (Some (Err e, c)) end)
  end.

(** [select_biased!] polls the timer first. *)
Fixpoint reply_loop (fuel : nat) (n : PortNum) (c : Controller) : wait (result (list Z) CommandError) :=
  match fuel with
  | O => Done None
  | S fuel =>
      let '(over, r) := passed (ctl_raw c) in
      let c := set_raw r c in
      if over then Done (Some (Err PortTimeout, c))
      else
        x ← cmd_poll (get_port n c);
        let c := set_port n x.2 c in
        match x.1 with
        | Some ret => Done (Some (Ok ret, c))
        | None => s ← do_suspend c; match s with None => Done None | Some c => reply_loop fuel n c end
        end
  end.

Definition port_command (fuel : nat) (n : PortNum) (cmd : Command) (c : Controller) : wait (result (list Z) CommandError) :=
  if match n with One => false | Two => negb (multi_port c) end then Done (Some (Err SinglePortDevice, c))
  else
    payloads ← raw_iter cmd;
    wbind (send_bytes fuel n payloads c) (fun r c =>
      match r with
      | Ok _ => reply_loop fuel n (set_raw (arm TIMEOUT_DURATION_MS (ctl_raw c)) c)
      | Err e => Done (Some (Err e, c))
      end).

(** *** Bring-up of the controller *)
Definition set_operation (enabled : bool) (c : Controller) : Controller :=
  let r := send_command (if enabled then Ctl.EnablePort1 else Ctl.DisablePort1) (ctl_raw c) in
  set_raw (if multi_port c then send_command (if enabled then Ctl.EnablePort2 else Ctl.DisablePort2) r else r) c.

Definition EXPECTED_BUFFER_SIZE : nat := 256.

Fixpoint flush_loop (n : nat) (r : R) : R :=
  match n with
  | O => r
  | S n => match read_data r with (None, r) => r | (Some _, r) => flush_loop n r end
  end.

Definition flush_buffer (c : Controller) : Controller := set_raw (flush_loop EXPECTED_BUFFER_SIZE (ctl_raw c)) c.

(** The busy loop that waits for the configuration byte. *)
Fixpoint spin_read (fuel : nat) (c : Controller) : wait Z :=
  match fuel with
  | O => Done None
  | S fuel =>
      match read_data (ctl_raw c) with
      | (Some d, r) => Done (Some (d, set_raw r c))
      | (None, r) => spin_read fuel (set_raw r c)
      end
  end.

(** [ConfigurationByte::set]. *)
Definition set_bits (cfg flags : Z) (value : bool) : Z := if value then Z.lor cfg flags else Z.ldiff cfg flags.

Definition cmd_ctl (cmd : Ctl.Command) (c : Controller) : Controller := set_raw (send_command cmd (ctl_raw c)) c.

Definition config_byte (cfg : Z) : Z :=
  set_bits (set_bits cfg Ctl.PORT_TRANSLATION false) (Z.lor Ctl.PORT_ONE_INT Ctl.PORT_TWO_INT) true.

(** The self test and the search for the second port. *)
Definition init_test (fuel : nat) (c : Controller) : wait (result unit unit) :=
  wbind (read_data_with_timeout fuel (cmd_ctl Ctl.TestController c)) (fun bist c =>
    match bist with
    | Some 0x55 =>
        let c := cmd_ctl Ctl.EnablePort2 c in
        wbind (read_data_with_timeout fuel (cmd_ctl (Ctl.ReadByte 0) c)) (fun t c =>
          match t with
          | None => Done (Some (Err tt, c))
          | Some t =>
              let multi := negb (Z.land t Ctl.PORT_TWO_CLOCK_DISABLED =? Ctl.PORT_TWO_CLOCK_DISABLED) in
              let c := mkCtl (ctl_raw c) multi (port_1 c) (port_2 c) (bufs c) in
              Done (Some (Ok tt, if multi then cmd_ctl Ctl.DisablePort2 c else c))
          end)
    | _ => Done (Some (Err tt, c))
    end).

(** The test results of the ports are only logged. *)
Definition init_ports (fuel : nat) (c : Controller) : wait unit :=
  wbind (read_data_with_timeout fuel (cmd_ctl Ctl.TestPort1 c)) (fun _ c =>
  wbind (read_data_with_timeout fuel (cmd_ctl Ctl.TestPort2 c)) (fun _ c =>
  Done (Some (tt, set_operation true c)))).

Definition init (fuel : nat) (c : Controller) : wait (result unit unit) :=
  let c := flush_buffer (set_operation false c) in
  wbind (spin_read fuel (cmd_ctl (Ctl.ReadByte 0) c)) (fun cfg_byte c =>
  wbind (init_test fuel (cmd_ctl (Ctl.WriteByte 0 (config_byte cfg_byte)) c)) (fun r c =>
    match r with
    | Err e => Done (Some (Err e, c))
    | Ok _ => wbind (init_ports fuel c) (fun _ c => Done (Some (Ok tt, c)))
    end)).

(** *** Bring-up of a port

    [init_port!] for the port [n]; [send] is its command function.  [false] is an early return. *)
Definition RETRIES : nat := 3.

Section InitPort.
Context (n : PortNum) (send : Command -> Controller -> wait (result (list Z) CommandError)).

Definition mark (s : PortState) (c : Controller) : Controller := set_port n (set_state s (get_port n c)) c.

(** [r[0].try_into().ok()] *)
Definition answer (i : nat) (ret : list Z) : outcome (option Response) :=
  b ← unwrap (ret !! i); Done (response_try_from b).

(** The arms of the first match.  The response is [None] when the command failed, so that the arms
    for the errors come too late. *)
Fixpoint identify (turns : nat) (c : Controller) : wait bool :=
  match turns with
  | O => Done (Some (true, c))
  | S turns =>
      let last := bool_decide (turns = 0)%nat in
      wbind (send IdentifyDevice c) (fun ret_raw c =>
        response ← (match ret_raw with Ok r => answer 0 r | Err _ => Done None end);
        match response, ret_raw with
        | Some RespResend, _ => if last then Done (Some (false, mark Nuisance c)) else identify turns c
        | Some Ack, Ok [_; a; b; _] =>
            match device_try_from a b with
            | Ok device_type => Done (Some (true, mark (PortDevice device_type) c))
            | Err _ => if last then Done (Some (false, mark (PortDevice Unknown) c)) else identify turns c
            end
        | None, _ => identify turns (mark Nuisance c)
        | _, Err PortTimeout => Done (Some (false, mark Down c))
        | _, Err ControllerTimeout => Panic
        | _, Err SinglePortDevice => identify turns c
        | _, Ok _ => Panic
        end)
  end.

Fixpoint self_test (turns : nat) (c : Controller) : wait bool :=
  match turns with
  | O => Done (Some (true, c))
  | S turns =>
      let last := bool_decide (turns = 0)%nat in
      wbind (send ResetAndBIST c) (fun ret c =>
        match ret with
        | Ok r =>
            a ← answer 0 r;
            b ← answer 1 r;
            match a, b with
            | Some RespResend, _ => if last then Done (Some (false, mark Nuisance c)) else self_test turns c
            | Some Ack, Some BISTSuccess => Done (Some (true, c))
            | Some Ack, Some BISTFailure => Done (Some (false, c))
            | _, _ => if last then Done (Some (false, mark Nuisance c)) else self_test turns c
            end
        | Err PortTimeout => Done (Some (false, mark Down c))
        | Err SinglePortDevice => Done (Some (false, c))
        | Err ControllerTimeout => Panic
        end)
  end.

Definition with_meta (m : DevMeta) (c : Controller) : Controller := set_port n (set_meta m (get_port n c)) c.

Definition scan_set (c : Controller) : wait bool :=
  wbind (send (ScanCodeSet SetScancodeSetTwo) c) (fun ret c =>
    a ← (match ret with Ok r => a ← answer 0 r; Done (Ok a) | Err e => Done (Err e) end);
    match a with
    | Ok (Some Ack) => Done (Some (true, with_meta ScanCodeSetTwo c))
    | Ok (Some RespResend) =>
        wbind (send (ScanCodeSet SetScancodeSetOne) c) (fun ret c =>
          a ← (match ret with Ok r => a ← answer 0 r; Done (Ok a) | Err e => Done (Err e) end);
          match a with
          | Ok (Some Ack) => Done (Some (true, with_meta ScanCodeSetOne c))
          | Err PortTimeout => Done (Some (false, mark Down c))
          | _ => Done (Some (true, mark Nuisance c))
          end)
    | Err PortTimeout => Done (Some (false, mark Down c))
    | Err SinglePortDevice => Done (Some (true, c))
    | _ => Done (Some (true, mark Nuisance c))
    end).

Fixpoint enable_scan (turns : nat) (c : Controller) : wait unit :=
  match turns with
  | O => Done (Some (tt, c))
  | S turns =>
      let last := bool_decide (turns = 0)%nat in
      wbind (send EnableScan c) (fun ret c =>
        match ret with
        | Ok r =>
            a ← answer 0 r;
            match a with
            | Some Ack => Done (Some (tt, c))
            | Some RespResend => if last then Done (Some (tt, mark Nuisance c)) else enable_scan turns c
            | _ => enable_scan turns (mark Nuisance c)
            end
        | Err PortTimeout => enable_scan turns (mark Down c)
        | Err _ => enable_scan turns c
        end)
  end.

Definition init_port (c : Controller) : wait unit :=
  wbind (identify RETRIES c) (fun go c =>
    match go, port_status (get_port n c) with
    | true, PortDevice d =>
        if is_keyboard d then
          wbind (self_test RETRIES c) (fun go c =>
            if (go : bool) then
              wbind (scan_set c) (fun go c => if (go : bool) then enable_scan RETRIES c else Done (Some (tt, c)))
            else Done (Some (tt, c)))
        else Done (Some (tt, c))
    | _, _ => Done (Some (tt, c))
    end).

End InitPort.

Definition init_port1 (fuel : nat) : Controller -> wait unit := init_port One (port_command fuel One).
Definition init_port2 (fuel : nat) : Controller -> wait unit := init_port Two (port_command fuel Two).

(** *** The file of a port *)
Inductive OpenMode := Locked | ModeRead | ModeWrite | ModeReadWrite.

#[export] Instance OpenMode_eq_dec : EqDecision OpenMode.
Proof. solve_decision. Defined.

Definition is_read (m : OpenMode) : bool := match m with ModeRead | ModeReadWrite => true | _ => false end.

Record PortFileObject := mkFile { file_port : PortNum; mode : OpenMode }.

Definition file_new (p : PortNum) : PortFileObject := mkFile p Locked.
Definition file_clone (f : PortFileObject) : PortFileObject := mkFile (file_port f) Locked.

(** [open]: [compare_exchange(true, false)] succeeds when the port is marked open. *)
Definition file_open (m : OpenMode) (f : PortFileObject) (c : Controller) : result unit IoError * PortFileObject * Controller :=
  let p := get_port (file_port f) c in
  if open p then (Err Busy, f, set_port (file_port f) (set_open false p) c)
  else (Ok tt, mkFile (file_port f) m, c).

Definition file_close (f : PortFileObject) (c : Controller) : result unit IoError * PortFileObject * Controller :=
  if bool_decide (mode f = Locked) then (Err DeviceError, f, c)
  else (Ok tt, mkFile (file_port f) Locked, set_port (file_port f) (set_open false (get_port (file_port f) c)) c).

Definition locks_remain (f : PortFileObject) (c : Controller) : Z := if open (get_port (file_port f) c) then 0 else 1.

(** [IoFuture]: [started] when the guard has been taken; [strong_count] is above one while a port
    holds the buffer. *)
Record IoFuture := mkIo { started : bool; io_tgt : nat; io_port : PortNum }.

Definition io_new (buff : list Z) (p : PortNum) (c : Controller) : IoFuture * Controller :=
  let tgt := fresh (dom (bufs c)) in
  (mkIo false tgt p, set_bufs (<[tgt := (buff, 0)]> (bufs c)) c).

Definition held (tgt : nat) (c : Controller) : bool :=
  bool_decide (out_buff (port_1 c) = Some tgt) || bool_decide (out_buff (port_2 c) = Some tgt).

Definition io_poll (f : IoFuture) (c : Controller) : outcome (option (list Z * Z) * IoFuture * Controller) :=
  if started f then
    if held (io_tgt f) c then Done (None, f, c)
    else t ← unwrap (bufs c !! io_tgt f); Done (Some t, f, set_bufs (delete (io_tgt f) (bufs c)) c)
  else
    Done (None, mkIo true (io_tgt f) (io_port f), set_port (io_port f) (set_out (Some (io_tgt f)) (get_port (io_port f) c)) c).

End Driver.

(** *** Decoding

    [pc_keyboard] turns scan codes into characters, given as their bytes. *)
Class KeyDecoder (K : Type) := {
  decoder_new : DevMeta -> K;
  advance : K -> Z -> result (list Z) unit * K;
}.

Section Decode.
Context {K : Type} `{KD : KeyDecoder K}.

(** The loop of [read] at position 0; an error of the decoder ends it. *)
Fixpoint decode_loop (bytes : list Z) (k : K) (w : ByteSink.WritableByteArray) : option ByteSink.WritableByteArray :=
  match bytes with
  | [] => Some w
  | b :: bytes =>
      match advance k b with
      | (Err _, _) => None
      | (Ok [], k) => decode_loop bytes k w
      | (Ok ch, k) =>
          match ByteSink.write_str ch w with
          | (Ok _, w) => decode_loop bytes k w
          | (Err _, w) => Some w
          end
      end
  end.

(** What [read] does at position 0 with the buffer and the length of [IoFuture]: the slice
    [b_ref[0..len.max(b_ref.len())]] is decoded and the text replaces the start of the buffer. *)
Definition decode_read (meta : DevMeta) (b : list Z) (len : Z) : outcome (result (list Z * Z) IoError) :=
  match meta with
  | ScanCodeSetThree => Done (Err MediaError)
  | _ =>
      if Z.max len (Z.of_nat (length b)) <=? Z.of_nat (length b) then
        match decode_loop b (decoder_new meta) (ByteSink.writable (replicate 16 0)) with
        | None => Done (Err MediaError)
        | Some w =>
            let xfer_len := ByteSink.cursor w in
            if (xfer_len <=? length b)%nat
            then Done (Ok (take xfer_len (ByteSink.arr w) ++ drop xfer_len b, Z.of_nat xfer_len))
            else Panic
        end
      else Panic
  end.

(** [read] once the future has answered with [io]; [state_text] is the [Debug] text of the state. *)
Definition file_read (state_text : PortState -> list Z) (m : OpenMode) (pos : Z) (p : PortComplex) (buff : list Z) (io : list Z * Z) :
    outcome (result (list Z * Z) (IoError * Z)) :=
  if negb (is_read m) then Done (Err (DeviceError, 0))
  else if pos =? 0 then
    r ← decode_read (dev_meta p) io.1 io.2;
    Done (match r with Ok x => Ok x | Err e => Err (e, io.2) end)
  else if pos =? 1 then Done (Ok io)
  else if pos =? 2 then
    let '(r, w) := ByteSink.write_str (state_text (port_status p)) (ByteSink.writable buff) in
    let b_len := Z.of_nat (ByteSink.cursor w) in
    Done (match r with Ok _ => Ok (ByteSink.arr w, b_len) | Err _ => Err (EndOfFile, b_len) end)
  else Done (Err (EndOfFile, 0)).

End Decode.
End Driver.

(** ** Theorems on the encodings *)
Section Encodings.
Import Keyboard.

(** The bytes of a key code up to the first zero. *)
Fixpoint key_code (p : list Z) : list Z :=
  match p with [] => [] | b :: p => if b =? 0 then [] else b :: key_code p end.

Definition payload (c : Command) : list Z :=
  match c with
  | SetLed p | RepeatCtl p => [p]
  | ScanCodeSet p => [subcommand_byte p]
  | SetKeyTypmatic p | SetKeyMakeRelease p | SetKeyMakeOnly p => key_code p
  | _ => []
  end.

Definition key_of (c : Command) : option (list Z) :=
  match c with SetKeyTypmatic p | SetKeyMakeRelease p | SetKeyMakeOnly p => Some p | _ => None end.

(** [[u8; 7]] *)
Definition cmd_ok (c : Command) : Prop := forall p, key_of c = Some p -> length p = 7%nat.

Lemma raw_collect_key c p : key_of c = Some p -> forall fuel i, (i <= length p)%nat -> (length p - i < fuel)%nat ->
  raw_collect fuel c (S i) =
    if bool_decide (length (key_code (drop i p)) = length (drop i p)) then Panic else Done (key_code (drop i p)).
Proof.
  intros Hk. assert (forall i, iter_next c (S i) = (b ← unwrap (p !! i); Done (if b =? 0 then None else p !! i))) as Hn.
  { intros i. unfold iter_next. rewrite bool_decide_false by done. replace (S i - 1)%nat with i by lia.
    destruct c; cbn in Hk; simplify_eq; done. }
  induction fuel as [|fuel IH]; intros i Hi Hf; [lia|]. cbn [raw_collect]. rewrite Hn.
  destruct (decide (i < length p)%nat) as [Hlt|Hge].
  - destruct (lookup_lt_is_Some_2 p i Hlt) as [b Hb]. rewrite Hb. cbn [unwrap mbind outcome_bind].
    rewrite (drop_S p b i Hb). cbn [key_code length]. destruct (b =? 0) eqn:E; cbn [mbind outcome_bind length].
    + by rewrite bool_decide_false.
    + rewrite IH by lia. rewrite (bool_decide_ext (S _ = S _) (length (key_code (drop (S i) p)) = length (drop (S i) p))) by lia.
      by destruct (bool_decide _).
  - replace i with (length p) by lia. rewrite (lookup_ge_None_2 p), drop_all by lia. done.
Qed.

Lemma raw_iter_run c :
  cmd_ok c ->
  raw_iter c =
    match key_of c with
    | Some p => if bool_decide (0 ∈ p) then Done (command_byte c :: payload c) else Panic
    | None => Done (command_byte c :: payload c)
    end.
Proof.
  intros Hok. unfold raw_iter. destruct (key_of c) as [p|] eqn:Hk.
  - assert (length p = 7%nat) as Hl by by apply Hok. remember 9%nat as fuel eqn:Hfuel. cbn [raw_collect].
    change (iter_next c 0) with (Done (A := option Z) (Some (command_byte c))). cbn [mbind outcome_bind].
    rewrite (raw_collect_key c p Hk) by lia. rewrite drop_0. assert (payload c = key_code p) as -> by (destruct c; cbn in Hk; by simplify_eq).
    assert (length (key_code p) = length p <-> 0 ∉ p) as Hz.
    { clear. induction p as [|b p IH]; cbn; [split; [intros _; apply not_elem_of_nil|done]|]. rewrite not_elem_of_cons.
      destruct (Z.eqb_spec b 0) as [->|Hb]; cbn; [split; [done|tauto]|]. rewrite <- IH. split; [intros [=]; by split|]. by intros [_ ->]. }
    destruct (decide (0 ∈ p)); [rewrite (bool_decide_true (0 ∈ p)), bool_decide_false by (rewrite ?Hz; tauto); done|].
    by rewrite (bool_decide_false (0 ∈ p)), bool_decide_true by (rewrite ?Hz; tauto).
  - destruct c; cbn in Hk; simplify_eq; reflexivity.
Qed.

(** The bytes of a keyboard command are its code and its operand; a key code ends at its first zero.
    The iterator looks one byte too far: with a key code of the full seven bytes, which its type
    allows and a test of the library expects to work, it panics instead of ending. *)
Theorem raw_iter_spec c :
  cmd_ok c ->
  raw_iter c =
    match key_of c with
    | Some p => if bool_decide (0 ∈ p) then Done (command_byte c :: payload c) else Panic
    | None => Done (command_byte c :: payload c)
    end.
Proof. exact (raw_iter_run c). Qed.

(** The code of the command and the operand are recovered from the bytes. *)
Definition subcommand_of (b : Z) : option ScanCodeSetSubcommand :=
  match b with 0 => Some GetScanCode | 1 => Some SetScancodeSetOne | 2 => Some SetScancodeSetTwo | 3 => Some SetScancodeSetThree | _ => None end.

Definition parse (bs : list Z) : option Command :=
  let key p := p ++ replicate (7 - length p) 0 in
  match bs with
  | [0xed; p] => Some (SetLed p)
  | [0xee] => Some Echo
  | [0xf0; p] => s ← subcommand_of p; Some (ScanCodeSet s)
  | [0xf2] => Some IdentifyDevice
  | [0xf3; p] => Some (RepeatCtl p)
  | [0xf4] => Some EnableScan
  | [0xf5] => Some DisableScan
  | [0xf6] => Some SetDefaultParams
  | [0xf7] => Some SetTypmatic
  | [0xf8] => Some MakeRelease
  | [0xf9] => Some MakeOnly
  | [0xfa] => Some SetTypmaticMakeRelease
  | 0xfb :: p => Some (SetKeyTypmatic (key p))
  | 0xfc :: p => Some (SetKeyMakeRelease (key p))
  | 0xfd :: p => Some (SetKeyMakeOnly (key p))
  | [0xfe] => Some Resend
  | [0xff] => Some ResetAndBIST
  | _ => None
  end.

(** A key code whose bytes after the first zero are zero. *)
Definition canonical_key (c : Command) : Prop :=
  forall p, key_of c = Some p -> p = key_code p ++ replicate (7 - length (key_code p)) 0.

Lemma raw_iter_parse c : cmd_ok c -> canonical_key c -> forall bs, raw_iter c = Done bs -> parse bs = Some c.
Proof.
  intros Hok Hc bs. rewrite raw_iter_run by done.
  destruct c; cbn; try (intros [= <-]; reflexivity);
    try (case_bool_decide; [intros [= <-]|done]; cbn; by rewrite <- (Hc _ eq_refl)).
  intros [= <-]. by destruct s.
Qed.

(** The text of a [RepeatCtl] is right only for the shortest delay and the faster half of the rates. *)
Lemma repeat_fmt_correct rate d b :
  0 <= rate < 32 -> repeat_new rate d = Done b -> (repeat_fmt b = Done (rate, d) <-> d = Milis250 /\ rate < 16).
Proof.
  intros Hr. assert (exists r : nat, rate = Z.of_nat r /\ (r < 32)%nat) as (r & -> & Hlt) by (exists (Z.to_nat rate); lia).
  do 32 (destruct r as [|r]; [destruct d; vm_compute; intros [= <-]; (split; [try discriminate; intros _; done|intros [? ?]; try discriminate; try done])|]).
  lia.
Qed.

(** Pulsing output pins sends another command than the one it is meant to send. *)
Lemma pulse_raw b : Ctl.first_byte (Ctl.raw (Ctl.PulseOutputPins b)) ∈ [0; 8].
Proof.
  cbn. set (x := wrap8 (0xf0 + b)). assert (Z.land x 8 = 0 \/ Z.land x 8 = 8) as [->| ->]; [|left|right; left].
  change 8 with (Z.shiftl 1 3). rewrite <- (Z.land_diag (Z.shiftl 1 3)) at 1 2. destruct (Z.testbit x 3) eqn:E; [right|left];
    apply Z.bits_inj'; intros n Hn; rewrite !Z.land_spec, ?Z.bits_0; destruct (decide (n = 3)) as [->|Hne]; rewrite ?E; try done;
    (rewrite Z.shiftl_spec by lia; change 1 with (2 ^ 0); rewrite Z.pow2_bits_false by lia; by rewrite !andb_false_r).
Qed.

End Encodings.

(** ** Text sinks *)
Section Sink.
Import ByteSink.

Fixpoint write_strs (ss : list (list Z)) (w : WritableByteArray) : list (result unit unit) * WritableByteArray :=
  match ss with
  | [] => ([], w)
  | s :: ss => let '(r, w) := write_str s w in let '(rs, w) := write_strs ss w in (r :: rs, w)
  end.

(** The sink after the text [t] has been written to the array [a]. *)
Definition filled (a t : list Z) : WritableByteArray :=
  let n := Nat.min (length a) (length t) in mkSink (take n t ++ drop n a) n.

Lemma write_filled a t s : write_str s (filled a t) = (Ok tt, filled a (t ++ s)).
Proof.
  unfold write_str, filled. cbn [cursor arr]. rewrite !length_app, !length_drop, !length_app, length_take, length_drop.
  set (n := Nat.min (length a) (length t)). replace (Nat.min n (length t)) with n by lia.
  replace (n + (length a - n))%nat with (length a) by lia. set (l := Nat.min (length a - n) (length s)).
  rewrite (proj2 (Nat.ltb_ge (length a) l)) by lia. f_equal.
  replace (Nat.min (length a) (length t + length s)) with (n + l)%nat by lia. f_equal.
  assert (length (take n t) = n) as Hn by (rewrite length_take; lia).
  rewrite take_app_length' by done. rewrite drop_app_ge by (rewrite Hn; lia). rewrite Hn.
  rewrite drop_drop. replace (n + (l + n - n))%nat with (n + l)%nat by lia.
  rewrite app_assoc. f_equal. destruct (decide (length t <= length a)%nat).
  - assert (n = length t) as -> by lia. rewrite firstn_all, take_app_add. done.
  - assert (l = 0%nat) as -> by lia. cbn [take]. rewrite app_nil_r, Nat.add_0_r, take_app_le by lia. done.
Qed.

(** Writing texts to a byte array one after the other is the same as writing their concatenation
    once and cutting it off at the end of the array.  No write ever reports an error, not even one
    that loses text. *)
Theorem write_strs_truncate a ss :
  write_strs ss (writable a) = (replicate (length ss) (Ok tt), filled a (concat ss)).
Proof.
  assert (writable a = filled a []) as -> by (unfold filled; cbn [length]; rewrite Nat.min_0_r; done).
  rewrite <- (app_nil_l (concat ss)). generalize (@nil Z). induction ss as [|s ss IH]; intros t; cbn [write_strs concat length replicate].
  - by rewrite app_nil_r.
  - rewrite write_filled. rewrite IH. by rewrite app_assoc.
Qed.

End Sink.

(** ** Theorems on the driver *)
Section DriverLaws.
Import Keyboard Device Driver.

(** The data port gives bytes. *)
Class HwBytes (R : Type) `{Hw8042 R} := { in_60_byte : forall r, is_u8 (in_60 r).1 }.

Context {R : Type} `{HW : Hw8042 R} {HB : HwBytes R}.
Implicit Types c : Controller (R := R).

(** The reply buffer is four bytes, and a buffer that a port holds exists. *)
Definition port_ok (p : PortComplex) (b : gmap nat (list Z * Z)) : Prop :=
  length (ack_buffer p) = 4%nat /\ Forall is_u8 (ack_buffer p) /\ forall t, out_buff p = Some t -> is_Some (b !! t).

Definition ctl_ok c : Prop := port_ok (port_1 c) (bufs c) /\ port_ok (port_2 c) (bufs c).

Definition same_port (p p' : PortComplex) : Prop :=
  port_status p' = port_status p /\ dev_meta p' = dev_meta p /\ open p' = open p.

(** What the hardware and the commands do to the controller: the state of the ports is left to the
    driver, and the types of the fields are kept. *)
Definition evolves c c' : Prop :=
  same_port (port_1 c) (port_1 c') /\ same_port (port_2 c) (port_2 c') /\ multi_port c' = multi_port c /\ (ctl_ok c -> ctl_ok c').

#[local] Instance evolves_preorder : PreOrder evolves.
Proof.
  split.
  - intros c. unfold evolves, same_port. tauto.
  - intros c1 c2 c3 ((A1 & A2 & A3) & (B1 & B2 & B3) & C & D) ((A1' & A2' & A3') & (B1' & B2' & B3') & C' & D').
    unfold evolves, same_port. repeat split; try congruence; by apply D', D.
Qed.

Lemma evolves_raw r c : evolves c (set_raw r c).
Proof. unfold evolves, same_port. destruct c. cbn. tauto. Qed.

(** A port may change its reply and its reader. *)
Lemma evolves_port n p b c :
  same_port (get_port n c) p -> (ctl_ok c -> port_ok p b) -> (forall t, is_Some (bufs c !! t) -> is_Some (b !! t)) ->
  evolves c (set_bufs b (set_port n p c)).
Proof.
  intros Hs Hp Hb. unfold evolves. destruct n; cbn in *; (split; [try done; by unfold same_port|]); (split; [try done; by unfold same_port|]);
    (split; [done|]); intros Hok; specialize (Hp Hok); unfold ctl_ok in *; cbn; destruct Hok as [(H1 & H2 & H3) (H4 & H5 & H6)];
    (split; [done || (split; [done|]; split; [done|]; intros t Ht; by apply Hb, H3)|
      done || (split; [done|]; split; [done|]; intros t Ht; by apply Hb, H6)]).
Qed.

Lemma get_port_ok n c : ctl_ok c -> port_ok (get_port n c) (bufs c).
Proof. intros [H1 H2]. by destruct n. Qed.

Lemma read_burst_bytes : forall k (r : R), Forall is_u8 (read_burst k r).1.
Proof using HB.
  induction k as [|k IH]; intros r; cbn [read_burst]; [constructor|]. unfold read_data. destruct (in_64 r) as [st r1].
  destruct (_ =? _); [|constructor]. pose proof (in_60_byte r1) as Hb. destruct (in_60 r1) as [d r2]. cbn in Hb.
  specialize (IH r2). destruct (read_burst k r2). by constructor.
Qed.

Lemma new_data_ok data p b p' b' :
  new_data data p b = Done (p', b') -> Forall is_u8 data ->
  same_port p p' /\ (port_ok p b -> port_ok p' b') /\ (forall t, is_Some (b !! t) -> is_Some (b' !! t)).
Proof.
  unfold new_data. intros Heq Hd. apply outcome_bind_Done in Heq as (d0 & _ & Heq). destruct (response_try_from d0).
  - apply outcome_bind_Done in Heq as (p1 & Ha & Heq). injection Heq as <- <-. unfold ack in Ha.
    destruct (Nat.leb_spec (length data) 4); [|done]. injection Ha as <-. split; [done|]. split; [|done]. intros (H1 & H2 & H3).
    split; [cbn; rewrite length_app, length_replicate; lia|]. split; [|done]. cbn. apply Forall_app. split; [done|].
    apply Forall_replicate. unfold is_u8. lia.
  - destruct (out_buff p) as [tgt|] eqn:Eo; [|injection Heq as <- <-; done].
    apply outcome_bind_Done in Heq as (t & Ht & Heq). injection Heq as <- <-. split; [done|]. split.
    + intros (H1 & H2 & _). split; [done|]. split; [done|]. by intros x [=].
    + intros x Hx. destruct (decide (x = tgt)) as [->|Hne]; [by rewrite lookup_insert_eq|by rewrite lookup_insert_ne].
Qed.

Lemma int_handler_evolves n c c' : int_handler n c = Done c' -> evolves c c'.
Proof using HB.
  unfold int_handler. pose proof (read_burst_bytes 8 (ctl_raw c)) as Hb. destruct (read_burst 8 (ctl_raw c)) as [data r].
  destruct (0 <? length data)%nat; [|intros [= <-]; apply evolves_raw]. intros Heq.
  apply outcome_bind_Done in Heq as ([p b] & Hd & Heq). injection Heq as <-. cbn [fst snd] in *.
  destruct (new_data_ok _ _ _ _ _ Hd Hb) as (H1 & H2 & H3). etrans; [apply (evolves_raw r)|].
  apply evolves_port; [done| |done]. intros Hok. by apply H2, get_port_ok.
Qed.

Lemma int_handlers_evolves ns : forall c c', int_handlers ns c = Done c' -> evolves c c'.
Proof using HB.
  induction ns as [|n ns IH]; intros c c' Heq; cbn in Heq; [by injection Heq as <-|].
  apply outcome_bind_Done in Heq as (c1 & H1 & H2). etrans; [by apply (int_handler_evolves n)|by apply IH].
Qed.

Lemma do_suspend_evolves c c' : do_suspend c = Done (Some c') -> evolves c c'.
Proof using HB.
  unfold do_suspend. destruct (suspend _) as [[ns r]|]; [|done]. intros Heq.
  apply outcome_bind_Done in Heq as (c1 & H1 & [= <-]). etrans; [apply (evolves_raw r)|by apply (int_handlers_evolves ns)].
Qed.

Lemma cmd_poll_evolves n c ret p :
  cmd_poll (get_port n c) = Done (ret, p) -> evolves c (set_port n p c) /\
  (ctl_ok c -> forall b, ret = Some b -> length b = 4%nat /\ Forall is_u8 b /\ b !! 0%nat <> Some 0).
Proof.
  unfold cmd_poll. intros Heq. apply outcome_bind_Done in Heq as (b0 & Hb0 & Heq).
  assert (forall q, set_bufs (bufs c) (set_port n q c) = set_port n q c) as Hset by (intros q; destruct n, c; done).
  destruct (Z.eqb_spec b0 0) as [->|Hne]; cbn [negb] in Heq; injection Heq as <- <-.
  - split; [|done]. rewrite <- Hset. apply evolves_port; [done|apply get_port_ok|done].
  - split.
    + rewrite <- Hset. apply evolves_port; [done| |done]. intros Hok. destruct (get_port_ok n c Hok) as (H1 & H2 & H3).
      split; [done|]. split; [|done]. cbn. by repeat constructor.
    + intros Hok b [= <-]. destruct (get_port_ok n c Hok) as (H1 & H2 & H3). split; [done|]. split; [done|].
      destruct (ack_buffer (get_port n c) !! 0%nat); [|done]. cbn in Hb0. congruence.
Qed.

Lemma wbind_Done {A B} (m : outcome (option (A * Controller (R := R)))) (f : A -> Controller -> outcome (option (B * Controller))) x :
  wbind m f = Done (Some x) -> exists a c, m = Done (Some (a, c)) /\ f a c = Done (Some x).
Proof. destruct m as [[[a c]|]|]; [|done..]. intros Heq. by exists a, c. Qed.

Lemma send_loop_evolves e b : forall fuel c x c', send_loop fuel e b c = Done (Some (x, c')) -> evolves c c'.
Proof using HB.
  induction fuel as [|fuel IH]; intros c x c' Heq; [done|]. cbn [send_loop] in Heq.
  destruct (send_data b (ctl_raw c)) as [[] r]; [injection Heq as <- <-; apply evolves_raw|].
  destruct (passed r) as [[] r1]; [injection Heq as <- <-; apply evolves_raw|].
  apply outcome_bind_Done in Heq as ([c1|] & H1 & H2); [|done]. etrans; [apply (evolves_raw r1)|].
  etrans; [by apply do_suspend_evolves|by apply (IH _ x)].
Qed.

Lemma announce_evolves n c : evolves c (announce n c).
Proof. destruct n; [done|apply evolves_raw]. Qed.

Lemma send_bytes_evolves fuel n : forall bs c x c', send_bytes fuel n bs c = Done (Some (x, c')) -> evolves c c'.
Proof using HB.
  induction bs as [|b bs IH]; intros c x c' Heq; cbn [send_bytes] in Heq; [by injection Heq as <- <-|].
  apply wbind_Done in Heq as (r & c1 & H1 & H2). apply send_loop_evolves in H1.
  transitivity c1; [|destruct r; [by apply (IH _ x)|by injection H2 as <- <-]].
  etrans; [apply (announce_evolves n)|]. etrans; [apply evolves_raw|exact H1].
Qed.

Lemma reply_loop_evolves n : forall fuel c x c', reply_loop fuel n c = Done (Some (x, c')) ->
  evolves c c' /\ (ctl_ok c -> forall b, x = Ok b -> length b = 4%nat /\ Forall is_u8 b /\ b !! 0%nat <> Some 0).
Proof using HB.
  induction fuel as [|fuel IH]; intros c x c' Heq; [done|]. cbn [reply_loop] in Heq.
  destruct (passed (ctl_raw c)) as [over r]. pose proof (evolves_raw r c) as Hr. destruct over; [injection Heq as <- <-; by split|].
  apply outcome_bind_Done in Heq as ([ret p] & H1 & H2). apply cmd_poll_evolves in H1 as [H1 Hret]. cbn [fst snd] in H2.
  assert (ctl_ok c -> ctl_ok (set_raw r c)) as Hok by apply Hr. destruct ret as [b|].
  - injection H2 as <- <-. split; [by etrans|]. intros Hc b' [= <-]. by apply Hret; [apply Hok|].
  - apply outcome_bind_Done in H2 as ([c1|] & H2 & H3); [|done]. apply do_suspend_evolves in H2. apply IH in H3 as [H3 H4].
    split; [etrans; [exact Hr|]; etrans; [exact H1|]; by etrans|]. intros Hc. by apply H4, H2, H1, Hok.
Qed.

Lemma port_command_evolves fuel n cmd c x c' : port_command fuel n cmd c = Done (Some (x, c')) ->
  evolves c c' /\ (ctl_ok c -> forall b, x = Ok b -> length b = 4%nat /\ Forall is_u8 b /\ b !! 0%nat <> Some 0).
Proof using HB.
  unfold port_command. destruct (match n with One => false | Two => negb (multi_port c) end); [intros [= <- <-]; by split|].
  intros Heq. apply outcome_bind_Done in Heq as (bs & _ & Heq). apply wbind_Done in Heq as (r & c1 & H1 & H2).
  apply send_bytes_evolves in H1. destruct r as [u|e]; [|injection H2 as <- <-; by split].
  apply reply_loop_evolves in H2 as [H2 H3]. pose proof (evolves_raw (arm TIMEOUT_DURATION_MS (ctl_raw c1)) c1) as Ha.
  split; [etrans; [exact H1|]; by etrans|]. intros Hok. by apply H3, Ha, H1.
Qed.

(** *** What a command does

    The ports as a device sees them: [wire] is what has been sent to the two ports, and a byte of data goes to port [route], which is the first one
    except after the command 0xd4.  Time is in nanoseconds, and a task that sleeps does so for at least [pause]. *)
Class Wired (R : Type) `{Hw8042 R} := {
  wire : R -> list (PortNum * Z);
  route : R -> PortNum;
  now : R -> Z;
  deadline : R -> Z;
  pause : Z;
  pause_pos : 0 < pause;
  in_64_wired : forall r, let r' := (in_64 r).2 in wire r' = wire r /\ route r' = route r /\ deadline r' = deadline r /\ now r <= now r';
  in_60_wired : forall r, let r' := (in_60 r).2 in wire r' = wire r /\ route r' = route r /\ deadline r' = deadline r /\ now r <= now r';
  passed_wired : forall r, let r' := (passed r).2 in wire r' = wire r /\ route r' = route r /\ deadline r' = deadline r /\ now r <= now r' /\ (passed r).1 = (deadline r <? now r);
  arm_wired : forall t r, let r' := arm t r in wire r' = wire r /\ route r' = route r /\ deadline r' = now r + 1000000 * t /\ now r <= now r';
  suspend_wired : forall r, exists ns r', suspend r = Some (ns, r') /\ wire r' = wire r /\ route r' = route r /\ deadline r' = deadline r /\ now r + pause <= now r';
  out_60_wired : forall b r, let r' := out_60 b r in wire r' = wire r ++ [(route r, b)] /\ route r' = One /\ deadline r' = deadline r /\ now r <= now r';
  out_64_wired : forall r, let r' := out_64 0xd4 r in wire r' = wire r /\ route r' = Two /\ deadline r' = deadline r /\ now r <= now r';
}.

Section Wire.
Context {WR : Wired R}.

(** The code copies a reply into four bytes. *)
Definition short_replies : Prop := forall r, (length (read_burst 8 r).1 <= 4)%nat.
Context (Hshort : short_replies).

(** Nothing is sent meanwhile. *)
Definition rests (r r' : R) : Prop := wire r' = wire r /\ route r' = route r /\ deadline r' = deadline r /\ now r <= now r'.

#[local] Instance rests_preorder : PreOrder rests.
Proof. split; [by intros r|]. intros r1 r2 r3 (A1 & A2 & A3 & A4) (B1 & B2 & B3 & B4). unfold rests. split_and!; try congruence. lia. Qed.

(** A reply of a device: a burst that starts with the code of a response, padded with zeros. *)
Definition replied (b : list Z) : Prop := exists r d ds r' x, read_burst 8 r = (d :: ds, r') /\ response_try_from d = Some x /\ b = (d :: ds) ++ replicate (4 - length (d :: ds)) 0.

(** The reply buffer of a port is empty or has a reply. *)
Definition fresh_reply (p : PortComplex) : Prop := ack_buffer p !! 0%nat = Some 0 \/ replied (ack_buffer p).

(** What happens while a command waits. *)
Definition waits n c c' : Prop := evolves c c' /\ rests (ctl_raw c) (ctl_raw c') /\ (fresh_reply (get_port n c) -> fresh_reply (get_port n c')).

#[local] Instance waits_preorder n : PreOrder (waits n).
Proof.
  split; [intros c; split_and!; done|]. intros c1 c2 c3 (A1 & A2 & A3) (B1 & B2 & B3). split_and!; [by etrans|by etrans|auto].
Qed.

Lemma waits_raw n r c : rests (ctl_raw c) r -> waits n c (set_raw r c).
Proof. intros Hr. split_and!; [apply evolves_raw|done|by destruct n]. Qed.

Lemma read_burst_rests k : forall r, rests r (read_burst k r).2.
Proof.
  induction k as [|k IH]; intros r; [done|]. cbn [read_burst]. unfold read_data. pose proof (in_64_wired r) as H1. destruct (in_64 r) as [st r1]. destruct (_ =? _); [|exact H1].
  pose proof (in_60_wired r1) as H2. destruct (in_60 r1) as [d r2]. pose proof (IH r2) as H3. destruct (read_burst k r2) as [ds r3]. etrans; [exact H1|]. etrans; [exact H2|exact H3].
Qed.

Lemma get_set_port m n p c b r : get_port m (set_bufs b (set_port n p (set_raw r c))) = if decide (m = n) then p else get_port m c.
Proof. by destruct m, n. Qed.

Lemma int_handler_waits m n c : ctl_ok c -> exists c', int_handler n c = Done c' /\ waits m c c'.
Proof using HB Hshort WR.
  intros Hok. unfold int_handler. pose proof (read_burst_rests 8 (ctl_raw c)) as Hr. pose proof (Hshort (ctl_raw c)) as Hs. destruct (read_burst 8 (ctl_raw c)) as [data r] eqn:Hb. cbn [fst snd] in *.
  destruct data as [|d ds]; cbn [length Nat.ltb Nat.leb]; [eexists; split; [done|by apply waits_raw]|].
  assert (exists x, new_data (d :: ds) (get_port n (set_raw r c)) (bufs (set_raw r c)) = Done x /\ (fresh_reply (get_port n c) -> fresh_reply x.1)) as (x & Hx & Hf).
  { unfold new_data. cbn [lookup list_lookup unwrap mbind outcome_bind]. destruct (response_try_from d) as [rs|] eqn:Hd.
    - unfold ack. rewrite (proj2 (Nat.leb_le _ 4)) by done. cbn [mbind outcome_bind]. eexists. split; [done|]. intros _. right. by exists (ctl_raw c), d, ds, r, rs.
    - replace (out_buff (get_port n (set_raw r c))) with (out_buff (get_port n c)) by (by destruct n). destruct (out_buff (get_port n c)) as [tgt|] eqn:Ho; [|eexists; split; [done|]; by destruct n].
      destruct (get_port_ok n c Hok) as (_ & _ & Ht). destruct (Ht tgt Ho) as [y Hy]. cbn [bufs set_raw]. rewrite Hy. cbn [unwrap mbind outcome_bind]. eexists. split; [done|]. by destruct n. }
  rewrite Hx. cbn [mbind outcome_bind]. eexists. split; [done|]. split_and!.
  - apply (int_handler_evolves n). unfold int_handler. rewrite Hb. cbn [length Nat.ltb Nat.leb]. rewrite Hx. done.
  - by destruct n.
  - rewrite get_set_port. destruct (decide (m = n)) as [->|]; [done|done].
Qed.

Lemma int_handlers_waits m ns : forall c, ctl_ok c -> exists c', int_handlers ns c = Done c' /\ waits m c c'.
Proof using HB Hshort WR.
  induction ns as [|n ns IH]; intros c Hok; cbn [int_handlers]; [by exists c|]. destruct (int_handler_waits m n c Hok) as (c1 & -> & H1). cbn [mbind outcome_bind].
  destruct (IH c1) as (c2 & -> & H2); [by apply H1|]. exists c2. split; [done|]. by etrans.
Qed.

Lemma do_suspend_waits n c : ctl_ok c -> exists c', do_suspend c = Done (Some c') /\ waits n c c' /\ now (ctl_raw c) + pause <= now (ctl_raw c').
Proof using HB Hshort WR.
  intros Hok. unfold do_suspend. destruct (suspend_wired (ctl_raw c)) as (ns & r & -> & H1 & H2 & H3 & H4). pose proof pause_pos.
  assert (waits n c (set_raw r c)) as Hw by (apply waits_raw; split_and!; [done..|lia]). destruct (int_handlers_waits n ns (set_raw r c)) as (c' & -> & H5); [by apply Hw|]. cbn [mbind outcome_bind].
  exists c'. split; [done|]. split; [by etrans|]. destruct H5 as (_ & (_ & _ & _ & H5) & _). cbn in H5. lia.
Qed.

(** A byte is sent, or the deadline is over. *)
Lemma send_loop_waits n e b : forall fuel c, ctl_ok c -> deadline (ctl_raw c) - now (ctl_raw c) < pause * (Z.of_nat fuel - 1) -> (0 < fuel)%nat ->
  exists x c1 c', send_loop fuel e b c = Done (Some (x, c')) /\ waits n c c1 /\
    match x with Ok _ => c' = set_raw (out_60 b (ctl_raw c1)) c1 | Err e' => c' = c1 /\ e' = e /\ deadline (ctl_raw c) < now (ctl_raw c1) end.
Proof using HB Hshort WR.
  induction fuel as [|fuel IH]; intros c Hok Hd Hf; [lia|]. cbn [send_loop]. unfold send_data. pose proof (in_64_wired (ctl_raw c)) as H1. destruct (in_64 (ctl_raw c)) as [st r1]. cbn [snd] in H1.
  pose proof (waits_raw n r1 c H1) as W1. destruct (negb _); [by eexists _, (set_raw r1 c), _|]. pose proof (passed_wired r1) as (P1 & P2 & P3 & P4 & P5). destruct (passed r1) as [over r2]. cbn [fst snd] in *.
  assert (rests r1 r2) as Hr2 by done. pose proof (waits_raw n r2 (set_raw r1 c) Hr2) as W2. change (set_raw r2 (set_raw r1 c)) with (set_raw r2 c) in W2. assert (waits n c (set_raw r2 c)) as W by (by etrans).
  destruct H1 as (_ & _ & D1 & N1). rewrite P5, D1. destruct (Z.ltb_spec (deadline (ctl_raw c)) (now r1)) as [Hov|Hov].
  - eexists _, (set_raw r2 c), _. split; [done|]. split; [done|]. split; [done|]. split; [done|]. cbn. lia.
  - destruct (do_suspend_waits n (set_raw r2 c)) as (c3 & -> & W3 & N3); [by apply W|]. cbn [mbind outcome_bind]. cbn in N3. pose proof pause_pos.
    assert (waits n c c3) as W4 by (by etrans). pose proof W4 as (_ & (_ & _ & D4 & N4) & _).
    destruct (IH c3) as (x & c4 & c' & Hs & W5 & Hx); [by apply W4|nia|destruct fuel; [nia|lia]|]. exists x, c4, c'. split; [done|]. split; [by etrans|]. rewrite D4 in Hx. done.
Qed.

(** The bytes [bs] for port [n]; a byte that is not taken ends the command after its deadline. *)
Definition sent n (bs : list Z) c c' : Prop :=
  evolves c c' /\ (fresh_reply (get_port n c) -> fresh_reply (get_port n c')) /\ wire (ctl_raw c') = wire (ctl_raw c) ++ ((fun b => (n, b)) <$> bs) /\ now (ctl_raw c) <= now (ctl_raw c').

Lemma announce_route n c : route (ctl_raw c) = One -> waits n c c /\ wire (ctl_raw (announce n c)) = wire (ctl_raw c) /\ route (ctl_raw (announce n c)) = n /\ now (ctl_raw c) <= now (ctl_raw (announce n c)) /\
  get_port n (announce n c) = get_port n c.
Proof.
  intros Hr. split; [done|]. destruct n; cbn; [done|]. destruct (out_64_wired (ctl_raw c)) as (H1 & H2 & _ & H3). done.
Qed.

Lemma send_byte_sent n e b fuel c : ctl_ok c -> route (ctl_raw c) = One -> 1000000 * TIMEOUT_DURATION_MS < pause * (Z.of_nat fuel - 1) ->
  exists x c', send_loop fuel e b (set_raw (arm TIMEOUT_DURATION_MS (ctl_raw (announce n c))) (announce n c)) = Done (Some (x, c')) /\
    match x with
    | Ok _ => sent n [b] c c' /\ route (ctl_raw c') = One
    | Err e' => sent n [] c c' /\ e' = e /\ now (ctl_raw c) + 1000000 * TIMEOUT_DURATION_MS < now (ctl_raw c')
    end.
Proof using HB Hshort WR.
  intros Hok Hr Hf. destruct (announce_route n c Hr) as (_ & A1 & A2 & A3 & A4). set (c0 := announce n c) in *. destruct (arm_wired TIMEOUT_DURATION_MS (ctl_raw c0)) as (B1 & B2 & B3 & B4).
  set (r0 := arm _ (ctl_raw c0)) in *. assert (evolves c (set_raw r0 c0)) as E0 by (etrans; [apply (announce_evolves n)|apply evolves_raw]). pose proof pause_pos.
  assert (get_port n (set_raw r0 c0) = get_port n c) as Hg by (rewrite <- A4; by destruct n).
  destruct (send_loop_waits n e b fuel (set_raw r0 c0)) as (x & c1 & c' & Hs & (W1 & (W2 & W3 & W4 & W5) & W6) & Hx); [by apply E0|cbn [ctl_raw set_raw]; lia|unfold TIMEOUT_DURATION_MS in Hf; destruct fuel; [nia|lia]|].
  exists x, c'. split; [done|]. cbn in W2, W3, W4, W5. rewrite Hg in W6. destruct x as [[]|e'].
  - subst c'. destruct (out_60_wired b (ctl_raw c1)) as (O1 & O2 & O3 & O4). split; [|done]. split_and!.
    + etrans; [exact E0|]. etrans; [exact W1|apply evolves_raw].
    + intros Hfr. specialize (W6 Hfr). by destruct n.
    + cbn [ctl_raw set_raw]. rewrite O1, W2, B1, A1, W3, B2, A2. done.
    + cbn. lia.
  - destruct Hx as (-> & -> & Hn). cbn in Hn. split; [|split; [done|lia]]. split_and!; [by etrans|done|cbn; rewrite app_nil_r; congruence|lia].
Qed.

Lemma send_bytes_sent n fuel : 1000000 * TIMEOUT_DURATION_MS < pause * (Z.of_nat fuel - 1) -> forall bs c, ctl_ok c -> route (ctl_raw c) = One ->
  exists x c' k, send_bytes fuel n bs c = Done (Some (x, c')) /\ sent n (take k bs) c c' /\
    match x with
    | Ok _ => k = length bs /\ route (ctl_raw c') = One
    | Err e => (k < length bs)%nat /\ e = send_error n /\ now (ctl_raw c) + 1000000 * TIMEOUT_DURATION_MS < now (ctl_raw c')
    end.
Proof using HB Hshort WR.
  intros Hf. induction bs as [|b bs IH]; intros c Hok Hr; cbn [send_bytes].
  { eexists _, c, 0%nat. split; [done|]. split; [|done]. split_and!; [done|done|by rewrite app_nil_r|done]. }
  destruct (send_byte_sent n (send_error n) b fuel c Hok Hr Hf) as (x & c1 & -> & Hx). cbn [wbind]. destruct x as [[]|e].
  - destruct Hx as [(E1 & F1 & W1 & N1) Hr1]. destruct (IH c1) as (x & c' & k & -> & (E2 & F2 & W2 & N2) & Hx); [by apply E1|done|]. exists x, c', (S k). split; [done|]. split.
    + split_and!; [by etrans|auto|by rewrite W2, W1, <- app_assoc|lia].
    + destruct x; [cbn; destruct Hx; split; [lia|done]|]. cbn. destruct Hx as (? & ? & ?). split_and!; [lia|done|lia].
  - destruct Hx as (Hs & -> & Hn). exists (Err (send_error n)), c1, 0%nat. split; [done|]. split; [done|]. split; [cbn; lia|done].
Qed.

(** A reply that is not yet there is waited for. *)
Lemma reply_loop_waits n : forall fuel c, ctl_ok c -> fresh_reply (get_port n c) -> deadline (ctl_raw c) - now (ctl_raw c) < pause * (Z.of_nat fuel - 1) -> (0 < fuel)%nat ->
  exists x c', reply_loop fuel n c = Done (Some (x, c')) /\ evolves c c' /\ wire (ctl_raw c') = wire (ctl_raw c) /\ now (ctl_raw c) <= now (ctl_raw c') /\
    match x with Ok b => replied b /\ b !! 0%nat <> Some 0 | Err e => e = PortTimeout /\ deadline (ctl_raw c) < now (ctl_raw c') end.
Proof using HB Hshort WR.
  induction fuel as [|fuel IH]; intros c Hok Hfr Hd Hf; [lia|]. cbn [reply_loop]. pose proof (passed_wired (ctl_raw c)) as (P1 & P2 & P3 & P4 & P5). destruct (passed (ctl_raw c)) as [over r]. cbn [fst snd] in *.
  assert (waits n c (set_raw r c)) as W by (by apply waits_raw). rewrite P5. destruct (Z.ltb_spec (deadline (ctl_raw c)) (now (ctl_raw c))) as [Hov|Hov].
  { eexists _, _. split; [done|]. split; [apply W|]. split; [done|]. split; [done|]. split; [done|]. cbn. lia. }
  assert (ctl_ok (set_raw r c)) as Hok1 by (by apply W). destruct (get_port_ok n _ Hok1) as (Hl & _). destruct (ack_buffer (get_port n (set_raw r c)) !! 0%nat) as [b0|] eqn:Hb0.
  2: { apply lookup_ge_None in Hb0. lia. }
  assert (exists ret p, cmd_poll (get_port n (set_raw r c)) = Done (ret, p) /\ match ret with Some b => b0 <> 0 /\ b = ack_buffer (get_port n c) | None => p = get_port n (set_raw r c) end) as (ret & p & Hp & Hret).
  { unfold cmd_poll. rewrite Hb0. cbn [unwrap mbind outcome_bind]. destruct (Z.eqb_spec b0 0); cbn [negb]; [by eexists None, _|]. eexists (Some _), _. split; [done|]. split; [done|]. by destruct n. }
  destruct (cmd_poll_evolves n (set_raw r c) ret p Hp) as [E1 _]. rewrite Hp. cbn [mbind outcome_bind fst snd]. destruct ret as [b|].
  - eexists _, _. split; [done|]. split; [etrans; [apply W|exact E1]|]. split; [by destruct n|]. split; [by destruct n|]. destruct Hret as [Hne ->].
    replace (get_port n (set_raw r c)) with (get_port n c) in Hb0 by (by destruct n). rewrite Hb0. split; [|congruence]. destruct Hfr as [H0|]; [congruence|done].
  - subst p. replace (set_port n (get_port n (set_raw r c)) (set_raw r c)) with (set_raw r c) by (by destruct n, c).
    destruct (do_suspend_waits n (set_raw r c) Hok1) as (c1 & -> & W1 & N1). cbn [mbind outcome_bind]. cbn in N1. assert (waits n c c1) as (E2 & (R1 & R2 & R3 & R4) & F2) by (by etrans). pose proof pause_pos.
    destruct (IH c1) as (x & c' & -> & E3 & W3 & N3 & Hx); [by apply E2|by apply F2|nia|destruct fuel; [nia|lia]|]. exists x, c'. split; [done|]. split; [by etrans|]. split; [congruence|]. split; [lia|].
    rewrite R3 in Hx. done.
Qed.


End Wire.

(** *** Bring-up of a port *)

Lemma mark_status n s c : port_status (get_port n (mark n s c)) = s.
Proof. by destruct n. Qed.

Section Bringup.
Context (n : PortNum) (send : Command -> Controller (R := R) -> outcome (option (result (list Z) CommandError * Controller (R := R)))).

(** The command is answered with [ret] after at most [k] requests to send it again. *)
Inductive answered (cmd : Command) : nat -> Controller (R := R) -> list Z -> Controller (R := R) -> Prop :=
| answered_now k c ret c' : send cmd c = Done (Some (Ok ret, c')) -> answered cmd k c ret c'
| answered_resend k c x r c1 ret c' : send cmd c = Done (Some (Ok (0xfe :: x :: r), c1)) -> answered cmd k c1 ret c' -> answered cmd (S k) c ret c'.

Lemma identify_answered k c a b x c1 d :
  answered IdentifyDevice k c [0xfa; a; b; x] c1 -> device_try_from a b = Ok d ->
  identify n send (S k) c = Done (Some (true, mark n (PortDevice d) c1)).
Proof.
  intros Ha Hd. remember [0xfa; a; b; x] as ret eqn:Hret. induction Ha as [k c ret c1 Hs|k c y r c0 ret c1 Hs Ha IH]; subst ret.
  - cbn [identify]. rewrite Hs. cbn. by rewrite Hd.
  - remember (S k) as k' eqn:Hk. cbn [identify]. rewrite Hs. cbn. rewrite bool_decide_false by lia. subst k'. by apply IH.
Qed.

Lemma self_test_answered k c r c1 : answered ResetAndBIST k c (0xfa :: 0xaa :: r) c1 -> self_test n send (S k) c = Done (Some (true, c1)).
Proof.
  intros Ha. remember (0xfa :: 0xaa :: r) as ret eqn:Hret. induction Ha as [k c ret c1 Hs|k c y r0 c0 ret c1 Hs Ha IH]; subst ret.
  - cbn [self_test]. by rewrite Hs.
  - remember (S k) as k' eqn:Hk. cbn [self_test]. rewrite Hs. cbn. rewrite bool_decide_false by lia. subst k'. by apply IH.
Qed.

Lemma enable_scan_answered k c r c1 : answered EnableScan k c (0xfa :: r) c1 -> enable_scan n send (S k) c = Done (Some (tt, c1)).
Proof.
  intros Ha. remember (0xfa :: r) as ret eqn:Hret. induction Ha as [k c ret c1 Hs|k c y r0 c0 ret c1 Hs Ha IH]; subst ret.
  - cbn [enable_scan]. by rewrite Hs.
  - remember (S k) as k' eqn:Hk. cbn [enable_scan]. rewrite Hs. cbn. rewrite bool_decide_false by lia. subst k'. by apply IH.
Qed.

(** Commands leave the state and the metadata of the port to the driver. *)
Hypothesis send_frame : forall cmd c x c', send cmd c = Done (Some (x, c')) -> same_port (get_port n c) (get_port n c').

Lemma answered_frame cmd k c ret c' : answered cmd k c ret c' -> same_port (get_port n c) (get_port n c').
Proof using send_frame.
  induction 1 as [k c ret c' Hs|k c y r0 c0 ret c' Hs Ha IH]; [by apply (send_frame cmd _ (Ok ret))|].
  destruct (send_frame _ _ _ _ Hs) as (H1 & H2 & H3), IH as (H4 & H5 & H6). unfold same_port. repeat split; congruence.
Qed.

(** A keyboard comes up: if it names a keyboard type, passes its self test, takes scan code set two
    and starts to scan, asking at most twice to have a command sent again where the driver
    retries, then the port ends as a device of that type that uses scan code set two. *)
Theorem init_port_keyboard c a b x d c1 r2 c2 r3 c3 r4 c4 :
  answered IdentifyDevice 2 c [0xfa; a; b; x] c1 -> device_try_from a b = Ok d -> is_keyboard d = true ->
  answered ResetAndBIST 2 (mark n (PortDevice d) c1) (0xfa :: 0xaa :: r2) c2 ->
  send (ScanCodeSet SetScancodeSetTwo) c2 = Done (Some (Ok (0xfa :: r3), c3)) ->
  answered EnableScan 2 (with_meta n ScanCodeSetTwo c3) (0xfa :: r4) c4 ->
  init_port n send c = Done (Some (tt, c4)) /\
  port_status (get_port n c4) = PortDevice d /\ dev_meta (get_port n c4) = ScanCodeSetTwo.
Proof using send_frame.
  intros H1 Hd Hk H2 H3 H4. unfold init_port, RETRIES. rewrite (identify_answered _ _ _ _ _ _ _ H1 Hd). cbn [wbind].
  rewrite mark_status, Hk, (self_test_answered _ _ _ _ H2). cbn [wbind]. unfold scan_set. rewrite H3. cbn.
  split; [exact (enable_scan_answered _ _ _ _ H4)|].
  destruct (answered_frame _ _ _ _ _ H2) as (A1 & _), (send_frame _ _ _ _ H3) as (B1 & _), (answered_frame _ _ _ _ _ H4) as (C1 & C2 & _).
  rewrite C1, C2. rewrite mark_status in A1. destruct n; cbn in *; split; congruence.
Qed.

(** A port without a device: every command times out, but the arm for timeouts is never reached.
    The driver tries three times and then reports a device that acts improperly instead of a link
    that is down. *)
Theorem init_port_absent c :
  (forall c, exists c', send IdentifyDevice c = Done (Some (Err PortTimeout, c'))) ->
  exists c', init_port n send c = Done (Some (tt, c')) /\ port_status (get_port n c') = Nuisance.
Proof.
  intros Hs. assert (forall k c, exists c', identify n send (S k) c = Done (Some (true, mark n Nuisance c'))) as Hid.
  { induction k as [|k IH]; intros c0; cbn [identify]; destruct (Hs c0) as [c1 ->]; cbn; [by exists c1|]. apply IH. }
  destruct (Hid 2%nat c) as [c' Hc]. exists (mark n Nuisance c'). unfold init_port, RETRIES. rewrite Hc. cbn [wbind].
  rewrite mark_status. done.
Qed.

(** A reply to the identification that is neither an acknowledgement nor a request to send again
    ends in [unreachable!]. *)
Lemma init_port_unreachable c b0 r c' v :
  send IdentifyDevice c = Done (Some (Ok (b0 :: r), c')) -> response_try_from b0 = Some v -> v <> Ack -> v <> RespResend ->
  init_port n send c = Panic.
Proof.
  intros Hs Hv H1 H2. unfold init_port, RETRIES. cbn [identify]. rewrite Hs. cbn. rewrite Hv. cbn. destruct v; done.
Qed.

End Bringup.

(** *** Readers *)

(** A reply of more than four bytes does not fit the reply buffer, although the handler reads up to
    eight. *)
Lemma long_reply_panics n c d data r v :
  read_burst 8 (ctl_raw c) = (d :: data, r) -> response_try_from d = Some v -> (4 <= length data)%nat -> int_handler n c = Panic.
Proof.
  intros Hb Hv Hl. unfold int_handler. rewrite Hb. cbn. rewrite Hv. unfold ack. cbn [length].
  rewrite (proj2 (Nat.leb_gt _ _)) by lia. done.
Qed.

(** *** Opening the file of a port *)

(** Everything that can happen to the controller after it has been set up. *)
Inductive ctl_step : Controller (R := R) -> Controller (R := R) -> Prop :=
| step_open m f r f' c c' : file_open m f c = (r, f', c') -> ctl_step c c'
| step_close f r f' c c' : file_close f c = (r, f', c') -> ctl_step c c'
| step_irq n c c' : int_handler n c = Done c' -> ctl_step c c'
| step_command fuel n cmd c x c' : port_command fuel n cmd c = Done (Some (x, c')) -> ctl_step c c'
| step_io_new buff p c f c' : io_new buff p c = (f, c') -> ctl_step c c'
| step_io_poll f c x f' c' : io_poll f c = Done (x, f', c') -> ctl_step c c'.

Definition unopened c : Prop := open (port_1 c) = false /\ open (port_2 c) = false.

Lemma evolves_unopened c c' : evolves c c' -> unopened c -> unopened c'.
Proof. intros ((_ & _ & H1) & (_ & _ & H2) & _) [H3 H4]. split; congruence. Qed.

Lemma set_port_unopened n p c : open p = false -> unopened c -> unopened (set_port n p c).
Proof. intros Hp [H1 H2]. by destruct n. Qed.

Lemma get_port_unopened n c : unopened c -> open (get_port n c) = false.
Proof. intros [H1 H2]. by destruct n. Qed.

Lemma step_unopened c c' : ctl_step c c' -> unopened c -> unopened c'.
Proof using HB.
  intros Hst Hu. destruct Hst as [m f r f' c c' Heq|f r f' c c' Heq|n c c' Heq|fuel n cmd c x c' Heq|buff p c f c' Heq|f c x f' c' Heq].
  - unfold file_open in Heq. rewrite get_port_unopened in Heq by done. by injection Heq as <- <- <-.
  - unfold file_close in Heq. case_bool_decide; injection Heq as <- <- <-; [done|]. by apply set_port_unopened.
  - by apply (evolves_unopened c); [apply (int_handler_evolves n)|].
  - by apply (evolves_unopened c); [apply (port_command_evolves fuel n cmd _ x)|].
  - injection Heq as <- <-. done.
  - unfold io_poll in Heq. destruct (started f); [destruct (held _ _); [by injection Heq as <- <- <-|]|].
    + apply outcome_bind_Done in Heq as (t & _ & [= <- <- <-]). done.
    + injection Heq as <- <- <-. apply set_port_unopened; [|done]. by apply get_port_unopened.
Qed.

(** The file of a port can always be opened: in no state that a new controller can reach is an
    [open] refused, however many files are open on the port already, and [locks_remain] never
    counts one ([open] is exchanged from true to false, and nothing sets it). *)
Theorem open_not_exclusive (r : R) multi c m f :
  rtc ctl_step (mkCtl r multi port_new port_new ∅) c ->
  file_open m f c = (Ok tt, mkFile (file_port f) m, c) /\ locks_remain f c = 1.
Proof using HB.
  intros Hr. assert (unopened c) as Hu.
  { assert (unopened (mkCtl r multi port_new port_new ∅)) as H0 by done. revert H0. clear -Hr HB. remember (mkCtl r multi port_new port_new ∅) as c0 eqn:Hc0. clear Hc0.
    induction Hr as [c|c0 c1 c Hs Hr IH]; [done|]. intros H0. by apply IH, (step_unopened c0). }
  unfold file_open, locks_remain. by rewrite !get_port_unopened.
Qed.

Lemma read_burst_length : forall k (r : R), (length (read_burst k r).1 <= k)%nat.
Proof.
  induction k as [|k IH]; intros r; cbn [read_burst]; [done|]. destruct (read_data r) as [[d|] r1]; [|cbn; lia].
  specialize (IH r1). destruct (read_burst k r1). cbn in *. lia.
Qed.

(** A reader gets the next burst of scan codes: the bytes that fit replace the start of its buffer;
    the length it is told is that of the burst, also when that is more than the buffer holds. *)
Lemma reader_delivered n c buff d data r f c1 :
  io_new buff n c = (f, c1) -> read_burst 8 (ctl_raw c) = (d :: data, r) -> response_try_from d = None ->
  (forall m, out_buff (get_port m c) = None) ->
  exists f' c2 c3 c4, io_poll f c1 = Done (None, f', c2) /\ int_handler n c2 = Done c3 /\
    let len := Nat.min (S (length data)) (length buff) in
    io_poll f' c3 = Done (Some (take len (d :: data) ++ drop len buff, Z.of_nat (S (length data))), f', c4).
Proof.
  unfold io_new. set (tgt := fresh (dom (bufs c))). intros [= <- <-] Hb Hd Hout. set (c1 := set_bufs _ c).
  pose proof (read_burst_length 8 (ctl_raw c)) as Hlen. rewrite Hb in Hlen. cbn in Hlen.
  set (c2 := set_port n (set_out (Some tgt) (get_port n c1)) c1).
  assert (ctl_raw c2 = ctl_raw c) as Hraw by (destruct n; done).
  assert (bufs c2 !! tgt = Some (buff, 0)) as Hbuf by (destruct n; cbn; by rewrite lookup_insert_eq).
  assert (out_buff (get_port n (set_raw r c2)) = Some tgt) as Ho by (destruct n; done).
  eexists (mkIo true tgt n), c2, _, _. split; [done|]. unfold int_handler. rewrite Hraw, Hb. cbn [length Nat.ltb Nat.leb].
  unfold new_data. cbn [lookup list_lookup unwrap mbind outcome_bind]. rewrite Hd, Ho. change (bufs (set_raw r c2)) with (bufs c2). rewrite Hbuf.
  cbn [unwrap mbind outcome_bind fst snd length]. split; [reflexivity|]. unfold io_poll. cbn [started io_tgt].
  match goal with |- context [held tgt ?x] => assert (held tgt x = false) as ->; [|] end.
  { unfold held. pose proof (Hout One) as H1. pose proof (Hout Two) as H2. cbn in H1, H2. destruct n; cbn; rewrite ?H1, ?H2; done. }
  assert (forall b p (x : Controller (R := R)), bufs (set_bufs b (set_port n p x)) = b) as Hbs by (intros b p x; by destruct n).
  rewrite Hbs, lookup_insert_eq. cbn [unwrap mbind outcome_bind fst snd]. rewrite wadd_small by lia. done.
Qed.

(** Decoding such a burst panics: the larger of the two lengths is taken where the smaller is
    meant. *)
Lemma decode_overrun {K : Type} `{KD : KeyDecoder K} (meta : DevMeta) (b : list Z) (len : Z) :
  meta <> ScanCodeSetThree -> Z.of_nat (length b) < len -> decode_read (K := K) meta b len = Panic.
Proof. intros Hm Hl. unfold decode_read. rewrite (proj2 (Z.leb_gt _ _)) by lia. by destruct meta. Qed.

End DriverLaws.

(** ** A scripted keyboard *)
Module Ps2Witness.
Import Keyboard Device Driver.

(** A controller that has a list of bytes to read, is always ready to be written to, and interrupts
    for the first port whenever the driver waits. *)
#[export] Instance script_hw : Hw8042 (list Z) := {
  in_64 r := (match r with [] => 0 | _ => 1 end, r);
  in_60 r := (match r with [] => 0 | b :: _ => b mod 256 end, tail r);
  out_64 _ r := r;
  out_60 _ r := r;
  arm _ r := r;
  passed r := (false, r);
  suspend r := Some ([One], r);
}.

#[export] Instance script_bytes : HwBytes (list Z).
Proof. split. intros [|b r]; unfold is_u8; cbn; [lia|]. pose proof (Z.mod_pos_bound b 256). lia. Qed.

Definition fresh_ctl (bytes : list Z) : Controller (R := list Z) := mkCtl bytes true port_new port_new ∅.

Lemma raw_iter_spec_witness :
  raw_iter (SetKeyTypmatic [1; 2; 3; 4; 5; 6; 7]) = Panic /\ raw_iter (SetKeyTypmatic [1; 2; 3; 0; 0; 0; 0]) = Done [0xfb; 1; 2; 3].
Proof.
  split.
  - exact (raw_iter_spec (SetKeyTypmatic [1; 2; 3; 4; 5; 6; 7]) ltac:(by intros p [= <-])).
  - exact (raw_iter_spec (SetKeyTypmatic [1; 2; 3; 0; 0; 0; 0]) ltac:(by intros p [= <-])).
Defined.

(** A keyboard on the second port that acknowledges every byte; sleeping takes ten milliseconds. *)
Record Wires := mkWires { w_wire : list (PortNum * Z); w_route : PortNum; w_now : Z; w_deadline : Z; w_data : option Z }.

#[export] Instance wires_hw : Hw8042 Wires := {
  in_64 r := (match w_data r with Some _ => 1 | None => 0 end, r);
  in_60 r := (default 0 (w_data r) mod 256, mkWires (w_wire r) (w_route r) (w_now r) (w_deadline r) None);
  out_64 b r := mkWires (w_wire r) (if b =? 0xd4 then Two else One) (w_now r) (w_deadline r) (w_data r);
  out_60 b r := mkWires (w_wire r ++ [(w_route r, b)]) One (w_now r) (w_deadline r) (Some 0xfa);
  arm t r := mkWires (w_wire r) (w_route r) (w_now r) (w_now r + 1000000 * t) (w_data r);
  passed r := (w_deadline r <? w_now r, r);
  suspend r := Some ([Two], mkWires (w_wire r) (w_route r) (w_now r + 10000000) (w_deadline r) (w_data r));
}.

#[export] Instance wires_bytes : HwBytes Wires.
Proof. split. intros r. unfold is_u8. cbn. pose proof (Z.mod_pos_bound (default 0 (w_data r)) 256). lia. Qed.

#[export] Instance wires_wired : Wired Wires.
Proof.
  refine {| wire := w_wire; route := w_route; now := w_now; deadline := w_deadline; pause := 10000000 |}; try (intros; cbn; split_and!; done || lia).
  - lia.
  - intros r. eexists _, _. split; [reflexivity|]. cbn. split_and!; done || lia.
Defined.

Lemma wires_short : short_replies (R := Wires).
Proof. intros [w rt n d [b|]]; apply Nat.leb_le; reflexivity. Qed.


(** Commands that are answered from a list of replies. *)
Definition scripted (cmd : Command) (c : Controller (R := list (result (list Z) CommandError))) :
    outcome (option (result (list Z) CommandError * Controller)) :=
  match ctl_raw c with [] => Done None | r :: rs => Done (Some (r, set_raw rs c)) end.

Lemma scripted_frame cmd c x c' : scripted cmd c = Done (Some (x, c')) -> same_port (get_port One c) (get_port One c').
Proof. unfold scripted. destruct (ctl_raw c); [done|]. intros [= <- <-]. done. Qed.

Definition keyboard_replies : list (result (list Z) CommandError) :=
  [Ok [0xfe; 0; 0; 0]; Ok [0xfa; 0xab; 0x83; 0]; Ok [0xfa; 0xaa; 0; 0]; Ok [0xfa; 0; 0; 0]; Ok [0xfa; 0; 0; 0]].

Lemma init_port_keyboard_witness :
  exists c', init_port One scripted (mkCtl keyboard_replies true port_new port_new ∅) = Done (Some (tt, c')) /\
    port_status (get_port One c') = PortDevice MF2Keyboard /\ dev_meta (get_port One c') = ScanCodeSetTwo.
Proof.
  eexists. eapply (init_port_keyboard One scripted scripted_frame (mkCtl keyboard_replies true port_new port_new ∅) 0xab 0x83 0 MF2Keyboard).
  - eapply answered_resend; [reflexivity|]. apply answered_now. reflexivity.
  - reflexivity.
  - reflexivity.
  - apply answered_now. reflexivity.
  - reflexivity.
  - apply answered_now. reflexivity.
Defined.

Lemma init_port_absent_witness :
  exists c', init_port One (fun _ c => Done (Some (Err PortTimeout, c))) (fresh_ctl []) = Done (Some (tt, c')) /\
    port_status (get_port One c') = Nuisance.
Proof. apply (init_port_absent One (fun _ c => Done (Some (Err PortTimeout, c))) (fresh_ctl [])). intros c. exists c. reflexivity. Defined.

(** Two readers have the first port open. *)
Definition two_open : Controller (R := list Z) := (file_open ModeRead (file_new One) (file_open ModeRead (file_new One) (fresh_ctl [])).2).2.

Lemma open_not_exclusive_witness :
  file_open ModeRead (file_new One) two_open = (Ok tt, mkFile One ModeRead, two_open) /\ locks_remain (file_new One) two_open = 1.
Proof.
  apply (open_not_exclusive [] true two_open ModeRead (file_new One)).
  eapply rtc_l; [|eapply rtc_once]; eapply (step_open ModeRead (file_new One)); reflexivity.
Defined.

(** A burst of eight scan codes for a buffer of four bytes. *)
Example short_buffer :
  exists f c1 f' c2 c3 c4, io_new [0; 0; 0; 0] One (fresh_ctl [28; 29; 30; 31; 32; 33; 34; 35]) = (f, c1) /\
    io_poll f c1 = Done (None, f', c2) /\ int_handler One c2 = Done c3 /\ io_poll f' c3 = Done (Some ([28; 29; 30; 31], 8), f', c4).
Proof. do 6 eexists. do 3 (split; [vm_compute; reflexivity|]). vm_compute. reflexivity. Qed.

(** Hardware that records what is written; a byte becomes readable with the next command, [None] is a
    byte that never comes. *)
Record Logged := mkLog { ready : option Z; replies : list (option Z); log : list Z }.

#[export] Instance log_hw : Hw8042 Logged := {
  in_64 r := (match ready r with Some _ => 1 | None => 0 end, r);
  in_60 r := (default 0 (ready r), mkLog None (replies r) (log r));
  out_64 b r :=
    let gives := bool_decide (b ∈ [0x20; 0xaa; 0xa9; 0xab]) in
    mkLog (if gives then default None (head (replies r)) else ready r) (if gives then tail (replies r) else replies r) (log r ++ [b]);
  out_60 b r := mkLog (ready r) (replies r) (log r ++ [b]);
  arm _ r := r;
  passed r := (match ready r with Some _ => false | None => true end, r);
  suspend r := Some ([], r);
}.

(** A controller with one port: its clock bit stays set.  The configuration loses the translation
    and gains both interrupts; the second port is tested although it is known to be absent, and only
    the first one is enabled. *)
Example init_single_port :
  match init 3 (mkCtl (mkLog None [Some 0x74; Some 0x55; Some 0x27; Some 0; None] []) true port_new port_new ∅) with
  | Done (Some (Ok _, c)) => multi_port c = false /\
      log (ctl_raw c) = [0xad; 0xa7; 0x20; 0x60; 0x37; 0xaa; 0xa8; 0x20; 0xab; 0xa9; 0xae]
  | _ => False
  end.
Proof. vm_compute. split; reflexivity. Qed.

End Ps2Witness.
