(* ===== verification/Elf.v ===== *)
(** * Loading and relocating ELF images

    [lib/elfload] ([relocation.rs], [load.rs]) and [kernel/src/elf.rs]: relocation entries and the value
    and size of each relocation type, the two relocation loops (the one in assembly that the boot code
    runs on itself and the general one), the range and the sections of a file, and the move of the
    kernel image into the upper half.

    Memory is a finite map from addresses to bytes.  Headers are the parsed headers of the [elf] crate;
    its numbers for the relocation types are the parameter [abi], of which the code needs that
    different types have different numbers. *)
From Stdlib Require Import Sorted.
From stdpp Require Import prelude gmap.
From S2P Require Import Prelude Bytes Ranges HighOrder FrameAlloc PageTable MemMap VirtFixup FrameAttr.
Open Scope Z_scope.

(** ** Bytes in memory *)
Abbreviation memory := (gmap Z Z).

(** [write_unaligned] of a byte string. *)
Fixpoint write_bytes (a : Z) (bs : list Z) (m : memory) : memory :=
  match bs with [] => m | b :: bs => <[a := b]> (write_bytes (a + 1) bs m) end.

Fixpoint read_bytes (a : Z) (n : nat) (m : memory) : list Z :=
  match n with O => [] | S n => default 0 (m !! a) :: read_bytes (a + 1) n m end.

(** ** Relocation entries *)
Record Elf64_Rela := mkRela { r_offset : Z; r_info : Z; r_addend : Z }.

Inductive RelocError := OutsideOfImage | UnknownRelocType.

Inductive X86_64RelocType :=
| R_x86_64_64 | R_x86_64_PC32 | R_x86_64_GOT32 | R_x86_64_PLT32 | R_x86_64_GLOB_DAT | R_x86_64_JUMP_SLOT | R_x86_64_RELATIVE
| R_x86_64_GOTPCREL | R_x86_64_32 | R_x86_64_32S | R_x86_64_16 | R_x86_64_PC16 | R_x86_64_8 | R_x86_64_PC8 | R_x86_64_PC64
| R_x86_64_GOTOFF64 | R_x86_64_GOTPC32 | R_x86_64_SIZE32 | R_x86_64_SIZE64.

#[export] Instance RelocType_eq_dec : EqDecision X86_64RelocType.
Proof. solve_decision. Defined.

Inductive RelocSize := SizeU8 | SizeU16 | SizeU32 | SizeU64.

Definition reloc_size (t : X86_64RelocType) : RelocSize :=
  match t with
  | R_x86_64_64 | R_x86_64_GLOB_DAT | R_x86_64_JUMP_SLOT | R_x86_64_RELATIVE | R_x86_64_PC64 | R_x86_64_GOTOFF64
  | R_x86_64_SIZE64 => SizeU64
  | R_x86_64_PC32 | R_x86_64_GOT32 | R_x86_64_SIZE32 | R_x86_64_GOTPCREL | R_x86_64_32 | R_x86_64_32S | R_x86_64_GOTPC32
  | R_x86_64_PLT32 => SizeU32
  | R_x86_64_16 | R_x86_64_PC16 => SizeU16
  | R_x86_64_PC8 | R_x86_64_8 => SizeU8
  end.

Definition size_bytes (s : RelocSize) : nat := match s with SizeU8 => 1 | SizeU16 => 2 | SizeU32 => 4 | SizeU64 => 8 end.

(** [RelocSize::write]: the value must fit. *)
Definition reloc_write (s : RelocSize) (tgt value : Z) (m : memory) : outcome memory :=
  if value <? 256 ^ Z.of_nat (size_bytes s) then Done (write_bytes tgt (le_bytes (size_bytes s) value) m) else Panic.

Inductive Usage := UseNone | UseAdd | UseSub.

Record RelocCalc := mkCalc {
  addened : bool; base : bool; got_offset : bool; got : Usage; plt : bool; sym_offset : Usage; tgt_symbol : bool; symbol_size : bool }.

(** [reloc_calc]; the types with [todo!] panic. *)
Definition reloc_calc (t : X86_64RelocType) : outcome RelocCalc :=
  match t with
  | R_x86_64_64 | R_x86_64_32 | R_x86_64_32S | R_x86_64_16 | R_x86_64_8 =>
      Done (mkCalc false true false UseNone false UseNone true false)
  | R_x86_64_PC32 | R_x86_64_PC16 | R_x86_64_PC8 | R_x86_64_PC64 => Done (mkCalc false true false UseNone false UseSub true false)
  | R_x86_64_GLOB_DAT | R_x86_64_JUMP_SLOT => Done (mkCalc false false false UseNone false UseNone true false)
  | R_x86_64_RELATIVE => Done (mkCalc true true false UseNone false UseNone false false)
  | R_x86_64_SIZE32 | R_x86_64_SIZE64 => Done (mkCalc true false false UseNone false UseNone false true)
  | R_x86_64_GOT32 | R_x86_64_PLT32 | R_x86_64_GOTPCREL | R_x86_64_GOTOFF64 | R_x86_64_GOTPC32 => Panic
  end.

Definition calc (c : RelocCalc) (addened_ base_ got_ plt_ sym_offset_ dst_address sym_size : Z) : Z :=
  let sum := 0 in
  let sum := if addened c then (sum ⊕ addened_)%u64 else sum in
  let sum := if base c then (sum ⊕ base_)%u64 else sum in
  let sum := if got_offset c then (sum ⊕ (sym_offset_ ⊖ got_))%u64 else sum in
  let sum := if plt c then (sum ⊕ plt_)%u64 else sum in
  let sum := if tgt_symbol c then (sum ⊕ dst_address)%u64 else sum in
  let sum := if symbol_size c then (sum ⊕ sym_size)%u64 else sum in
  let sum := match got c with UseNone => sum | UseAdd => (sum ⊕ got_)%u64 | UseSub => (sum ⊖ got_)%u64 end in
  match sym_offset c with UseNone => sum | UseAdd => (sum ⊕ sym_offset_)%u64 | UseSub => (sum ⊖ sym_offset_)%u64 end.

Section Reloc.
Context (abi : X86_64RelocType -> Z).

(** The arms of [TryFrom<&Elf64_Rela>], in order. *)
Definition arms : list X86_64RelocType :=
  [R_x86_64_64; R_x86_64_PC32; R_x86_64_GOT32; R_x86_64_PLT32; R_x86_64_GLOB_DAT; R_x86_64_JUMP_SLOT; R_x86_64_RELATIVE;
   R_x86_64_GOTPCREL; R_x86_64_32; R_x86_64_32S; R_x86_64_16; R_x86_64_PC16; R_x86_64_8; R_x86_64_PC8; R_x86_64_PC64;
   R_x86_64_GOTOFF64; R_x86_64_GOTPC32; R_x86_64_SIZE32; R_x86_64_SIZE64].

Fixpoint match_arm (ts : list X86_64RelocType) (n : Z) : option X86_64RelocType :=
  match ts with [] => None | t :: ts => if n =? abi t then Some t else match_arm ts n end.

Definition reloc_try_from (r : Elf64_Rela) : option X86_64RelocType := match_arm arms (r_info r mod 2 ^ 32).

(** [relocate_image] for an image of [length] bytes at [base]. *)
Fixpoint relocate_image (base length got plt : Z) (rela : list Elf64_Rela) (m : memory) : outcome (result unit RelocError * memory) :=
  match rela with
  | [] => Done (Ok tt, m)
  | i :: rela =>
      match reloc_try_from i with
      | None => Done (Err UnknownRelocType, m)
      | Some reloc =>
          c ← reloc_calc reloc;
          let value := calc c (r_addend i) base got plt (r_offset i) 0 (Z.of_nat (size_bytes (reloc_size reloc))) in
          let tgt_addr := (base ⊕ r_offset i)%u64 in
          if (base <=? tgt_addr) && (tgt_addr <? base ⊕ length)%u64 then
            m ← reloc_write (reloc_size reloc) tgt_addr value m;
            relocate_image base length got plt rela m
          else Done (Err OutsideOfImage, m)
      end
  end.

(** [relocate_simple]: the count runs down, the whole [r_info] is compared. *)
Fixpoint relocate_simple (base : Z) (relocations : list Elf64_Rela) (count : nat) (m : memory) : memory :=
  match count with
  | O => m
  | S count =>
      match relocations !! count with
      | None => m
      | Some r =>
          relocate_simple base relocations count
            (if r_info r =? abi R_x86_64_RELATIVE
             then write_bytes (r_offset r ⊕ base)%u64 (le_bytes 8 (r_addend r ⊕ base)%u64) m else m)
      end
  end.

End Reloc.

(** ** Files *)
Record ProgramHeader := mkPhdr { p_offset : Z; p_vaddr : Z; p_filesz : Z; p_memsz : Z }.
Record SectionHeader := mkShdr { sh_type : Z; sh_flags : Z; sh_addr : Z; sh_offset : Z; sh_size : Z; sh_entsize : Z }.

(** What the [elf] crate parses; [section_data] gives the bytes of a section and whether they are
    compressed. *)
Record ElfFile := mkElf {
  segments : list ProgramHeader; section_headers : list SectionHeader;
  section_data : SectionHeader -> result (list Z * bool) unit }.

Definition load_step (r : Z * Z) (i : ProgramHeader) : Z * Z :=
  if p_memsz i =? 0 then r else (Z.min (p_vaddr i) r.1, Z.max (p_vaddr i ⊕ p_memsz i)%u64 r.2).

Definition load_range (e : ElfFile) : Z * Z := foldl load_step (2 ^ 64 - 1, 0) (segments e).

Inductive LoadData := LoadBytes (data : list Z) | LoadZero | LoadError.

Record LoadSectionIter := mkSecIter { it_index : nat; it_loaded : Z }.

Fixpoint find_section (P : SectionHeader -> bool) (i : nat) (l : list SectionHeader) : option (nat * SectionHeader) :=
  match l with [] => None | s :: l => if P s then Some (i, s) else find_section P (S i) l end.

(** [LoadSectionIter::next]: [index] counts sections, but it also selects the segment whose address is
    the base. *)
Definition sec_next (e : ElfFile) (segment : nat) (it : LoadSectionIter) : outcome (option (LoadData * Z) * LoadSectionIter) :=
  seg ← unwrap (segments e !! segment);
  match segments e !! it_index it with
  | None => Done (None, it)
  | Some b =>
      if it_loaded it =? p_memsz seg then Done (None, it)
      else if it_loaded it =? p_filesz seg then
        Done (Some (LoadZero, (p_memsz seg ⊕ p_vaddr b)%u64), mkSecIter (it_index it) (p_memsz seg))
      else
        let in_seg s := (p_vaddr seg <=? sh_offset s) && (sh_offset s <? p_offset seg ⊕ p_filesz seg)%u64 in
        match find_section in_seg (it_index it) (drop (it_index it) (section_headers e)) with
        | None => Done (None, it)
        | Some (i, shdr) =>
            match section_data e shdr with
            | Ok (data, false) => Done (Some (LoadBytes data, sh_addr shdr), mkSecIter (S i) (it_loaded it ⊕ sh_size shdr)%u64)
            | _ => Done (Some (LoadError, 2 ^ 64 - 1), mkSecIter (S i) (it_loaded it))
            end
        end
  end.

(** [section[a..a + data.len()].copy_from_slice(data)] *)
Definition slice_copy (a : Z) (data section : list Z) : outcome (list Z) :=
  let b := (a ⊕ Z.of_nat (length data))%u64 in
  if (a <=? b) && (b <=? Z.of_nat (length section))
  then Done (take (Z.to_nat a) section ++ data ++ drop (Z.to_nat b) section) else Panic.

(** The loop of [LoadSection::load] over the bytes of the section in memory. *)
Fixpoint load_loop (fuel : nat) (e : ElfFile) (segment : nat) (section_start : Z) (it : LoadSectionIter) (section : list Z) :
    outcome (result (list Z) unit) :=
  match fuel with
  | O => Panic
  | S fuel =>
      n ← sec_next e segment it;
      let '(x, it) := n in
      match x with
      | None => Done (Ok section)
      | Some (LoadBytes data, offset) =>
          section ← slice_copy (offset ⊖ section_start)%u64 data section;
          load_loop fuel e segment section_start it section
      | Some (LoadZero, offset) =>
          if offset <=? Z.of_nat (length section)
          then load_loop fuel e segment section_start it (take (Z.to_nat offset) section ++ replicate (length section - Z.to_nat offset) 0)
          else Panic
      | Some (LoadError, _) => Done (Err tt)
      end
  end.

(** [LoadSection::load]: the bytes that end up at the offset of the segment.  Each turn but two moves on
    by a section. *)
Definition load (e : ElfFile) (segment : nat) : outcome (result (list Z) unit) :=
  phdr ← unwrap (segments e !! segment);
  let offset_base := (load_range e).1 in
  let section_start := (offset_base ⊕ p_vaddr phdr)%u64 in
  load_loop (length (section_headers e) + 3) e segment section_start (mkSecIter 0 0) (replicate (Z.to_nat (p_memsz phdr)) 0).

(** [ElfLoad::relocate]. *)
Definition file_relocate (abi : X86_64RelocType -> Z) (SHT_RELA : Z) (relas : SectionHeader -> option (list Elf64_Rela))
    (e : ElfFile) (base length : Z) (m : memory) : outcome memory :=
  (fix go (l : list SectionHeader) (m : memory) :=
    match l with
    | [] => Done m
    | s :: l =>
        if sh_type s =? SHT_RELA then
          t ← unwrap (relas s);
          r ← relocate_image abi base length 0 0 t m;
          _ ← unwrap (result_ok r.1);
          go l r.2
        else go l m
    end) (section_headers e) m.

(** ** The kernel image

    [kernel/src/elf.rs]. *)
Definition DEFAULT_KERNEL_BASE : Z := 0xFFFF800000000000.
Definition get_base : Z := DEFAULT_KERNEL_BASE.

Definition SHF_WRITE : Z := 1.
Definition SHF_ALLOC : Z := 2.

Definition is_alloc (s : SectionHeader) : bool := contains (sh_flags s) SHF_ALLOC.

(** The size of [Elf64_Rela]. *)
Definition RELA_SIZE : Z := 24.

Section Image.
Context {F : Type} `{FS : FrameSource F} `{PF : PhysFrameOps} `{PO : PteOps} `{PA : PhysAddrOps} `{VA : VirtAddrOps} `{MD : MapperDefaults}.

(** [alloc_image] maps the pages of the sections; the first page of a section may be mapped already. *)
Fixpoint alloc_image (new_base : Z) (sections : list SectionHeader) (mm : MemoryMap (F := F)) (tail : Z) : outcome (Z * MemoryMap (F := F)) :=
  match sections with
  | [] => Done (tail, mm)
  | s :: sections =>
      if is_alloc s then
        let tail := Z.max tail (sh_addr s ⊕ sh_size s)%u64 in
        b ← virt_new new_base;
        dst_start ← virt_add b (sh_addr s);
        dst_end ← virt_add dst_start (sh_size s);
        let tgt_start := containing_address Size4KiB dst_start in
        let iter := range_inclusive Size4KiB tgt_start (containing_address Size4KiB dst_end) in
        t ← translate mm tgt_start;
        let iter := match t with Some _ => list.tail iter | None => iter end in
        let flags := if contains (sh_flags s) SHF_WRITE then Z.lor PRESENT WRITABLE else PRESENT in
        mm ← map_range mm Size4KiB iter flags;
        alloc_image new_base sections mm tail
      else alloc_image new_base sections mm tail
  end.

(** [reload_image] copies every section; write protection is off while it runs. *)
Fixpoint reload_image (new_base : Z) (sections : list SectionHeader) (m : memory) : memory :=
  match sections with
  | [] => m
  | s :: sections =>
      reload_image new_base sections
        (if is_alloc s then write_bytes (new_base + sh_addr s) (read_bytes (sh_addr s) (Z.to_nat (sh_size s)) m) m else m)
  end.

(** An entry of the slice of relocations. *)
Definition rela_at (m : memory) (a : Z) : Elf64_Rela :=
  mkRela (of_le (read_bytes a 8 m)) (of_le (read_bytes (a + 8) 8 m)) (of_le (read_bytes (a + 16) 8 m)).

Definition relas_at (m : memory) (a : Z) (n : nat) : list Elf64_Rela := (fun i => rela_at m (a + RELA_SIZE * Z.of_nat i)) <$> seq 0 n.

(** [relocate]: only the first relocation section is applied, read from the old image. *)
Definition relocate (abi : X86_64RelocType -> Z) (SHT_RELA : Z) (sections : list SectionHeader) (mm : MemoryMap (F := F)) (m : memory) :
    outcome (Z * MemoryMap (F := F) * memory) :=
  a ← alloc_image get_base sections mm 0;
  let '(image_tail, mm) := a in
  let m := reload_image get_base sections m in
  match list_find (fun s => sh_type s = SHT_RELA) sections with
  | None => Done (get_base, mm, m)
  | Some (_, sh_rela) =>
      _ ← assert_that (negb (sh_entsize sh_rela =? 0));
      let entries := sh_size sh_rela / sh_entsize sh_rela in
      _ ← assert_that (sh_entsize sh_rela =? RELA_SIZE);
      let rela := relas_at m (sh_addr sh_rela) (Z.to_nat entries) in
      r ← relocate_image abi get_base image_tail 0 0 rela m;
      _ ← unwrap (result_ok r.1);
      Done (get_base, mm, r.2)
  end.

Context {H : Type} `{HA : HeapAlloc H}.

(** [unload_image]: the pages of all sections, up to and including the page of the byte after each. *)
Fixpoint unload_pages (pages : list Z) (k : Kernel (F := F) (H := H)) : outcome (Kernel (F := F) (H := H)) :=
  match pages with [] => Done k | p :: pages => r ← unmap_and_free k p; unload_pages pages r.2 end.

Fixpoint unload_image (base : Z) (sections : list SectionHeader) (k : Kernel (F := F) (H := H)) : outcome (Kernel (F := F) (H := H)) :=
  match sections with
  | [] => Done k
  | s :: sections =>
      section_base ← virt_new (base ⊕ sh_addr s)%u64;
      section_tail ← virt_add section_base (sh_size s);
      k ← unload_pages (range_inclusive Size4KiB (containing_address Size4KiB section_base) (containing_address Size4KiB section_tail)) k;
      unload_image base sections k
  end.

End Image.

(** ** Memory lemmas *)
Lemma write_bytes_lookup bs : forall a m x,
  write_bytes a bs m !! x = if decide (a <= x < a + Z.of_nat (length bs)) then bs !! Z.to_nat (x - a) else m !! x.
Proof.
  induction bs as [|b bs IH]; intros a m x; cbn [write_bytes length]; [by rewrite decide_False by lia|].
  destruct (decide (x = a)) as [->|Hne].
  - rewrite lookup_insert_eq, decide_True by lia. by rewrite Z.sub_diag.
  - rewrite lookup_insert_ne, IH by done. destruct (decide (a + 1 <= x < _)).
    + rewrite decide_True by lia. replace (Z.to_nat (x - a)) with (S (Z.to_nat (x - (a + 1)))) by lia. done.
    + by rewrite decide_False by lia.
Qed.

Lemma read_bytes_length n : forall a m, length (read_bytes a n m) = n.
Proof. induction n as [|n IH]; intros a m; cbn; [done|]. by rewrite IH. Qed.

Lemma read_bytes_lookup n : forall a m i, (i < n)%nat -> read_bytes a n m !! i = Some (default 0 (m !! (a + Z.of_nat i))).
Proof.
  induction n as [|n IH]; intros a m i Hi; [lia|]. destruct i as [|i]; cbn [read_bytes lookup list_lookup].
  - by rewrite Z.add_0_r.
  - change (read_bytes (a + 1) n m !! i = Some (default 0 (m !! (a + Z.of_nat (S i))))). rewrite IH by lia. do 3 f_equal. lia.
Qed.

Lemma read_bytes_ext n : forall a m m', (forall x, a <= x < a + Z.of_nat n -> m !! x = m' !! x) -> read_bytes a n m = read_bytes a n m'.
Proof.
  induction n as [|n IH]; intros a m m' Hm; cbn; [done|]. rewrite (Hm a) by lia. f_equal. apply IH. intros x Hx. apply Hm. lia.
Qed.

Lemma read_write_bytes a bs m : read_bytes a (length bs) (write_bytes a bs m) = bs.
Proof.
  apply list_eq. intros i. destruct (decide (i < length bs)%nat) as [Hi|Hi].
  - rewrite read_bytes_lookup, write_bytes_lookup, decide_True by lia. replace (Z.to_nat (a + Z.of_nat i - a)) with i by lia.
    by destruct (lookup_lt_is_Some_2 bs i Hi) as [b ->].
  - rewrite !lookup_ge_None_2; [done|lia|rewrite read_bytes_length; lia].
Qed.

(** ** Relocation *)
Section RelocLaws.
Context (abi : X86_64RelocType -> Z) (abi_inj : forall s t, abi s = abi t -> s = t) (abi_range : forall t, 0 <= abi t < 2 ^ 32).

Lemma match_arm_spec ts t n : n = abi t -> t ∈ ts -> match_arm abi ts n = Some t.
Proof using abi_inj.
  intros -> Hin. induction ts as [|s ts IH]; [by apply elem_of_nil in Hin|]. cbn. destruct (Z.eqb_spec (abi t) (abi s)) as [E|E].
  - by rewrite (abi_inj _ _ E).
  - apply elem_of_cons in Hin as [->|Hin]; [done|by apply IH].
Qed.

(** Every type is found by its number. *)
Lemma reloc_try_from_abi t r : r_info r mod 2 ^ 32 = abi t -> reloc_try_from abi r = Some t.
Proof using abi_inj. intros Hr. apply match_arm_spec; [done|]. apply (bool_decide_unpack (t ∈ arms)). by destruct t. Qed.

(** A relative relocation that lies in an image of [length] bytes. *)
Definition relative_in (length : Z) (r : Elf64_Rela) : Prop :=
  r_info r = abi R_x86_64_RELATIVE /\ 0 <= r_offset r /\ r_offset r + 8 <= length.

Definition apply_rela (base : Z) (r : Elf64_Rela) (m : memory) : memory :=
  write_bytes (base + r_offset r) (le_bytes 8 (r_addend r ⊕ base)%u64) m.

(** One relative relocation whose first byte lies in the image. *)
Lemma relocate_relative_step base len got plt r relas m :
  0 <= base -> base + len < 2 ^ 64 -> r_info r = abi R_x86_64_RELATIVE -> 0 <= r_offset r < len ->
  relocate_image abi base len got plt (r :: relas) m = relocate_image abi base len got plt relas (apply_rela base r m).
Proof using abi_inj abi_range.
  intros Hb He Hi Ho. cbn [relocate_image].
  rewrite (reloc_try_from_abi R_x86_64_RELATIVE) by (rewrite Hi; apply Z.mod_small, abi_range). cbn [reloc_calc mbind outcome_bind].
  rewrite (wadd_small base (r_offset r)), (wadd_small base len) by lia.
  rewrite (proj2 (Z.leb_le _ _)), (proj2 (Z.ltb_lt _ _)) by lia. cbn [andb].
  unfold calc. cbn [addened Elf.base got_offset Elf.plt tgt_symbol symbol_size Elf.got sym_offset]. unfold reloc_write. cbn [reloc_size size_bytes].
  assert (((0 ⊕ r_addend r) ⊕ base)%u64 = (r_addend r ⊕ base)%u64) as ->.
  { unfold wadd, wrap64. rewrite Z.add_0_l, Zplus_mod_idemp_l. done. }
  pose proof (wrap64_range (r_addend r + base)) as Hr. unfold is_u64 in Hr.
  rewrite (proj2 (Z.ltb_lt _ _)) by (change (256 ^ Z.of_nat 8) with (2 ^ 64); unfold wadd; lia). done.
Qed.

Lemma relocate_image_relative base len got plt : forall relas m,
  0 <= base -> base + len < 2 ^ 64 -> Forall (relative_in len) relas ->
  relocate_image abi base len got plt relas m = Done (Ok tt, foldl (fun m r => apply_rela base r m) m relas).
Proof using abi_inj abi_range.
  induction relas as [|r relas IH]; intros m Hb He Hf; [done|]. apply Forall_cons in Hf as [(Hi & Ho & Hl) Hf].
  rewrite relocate_relative_step by (done || lia). by apply IH.
Qed.

Lemma relocate_simple_foldr base relas m :
  0 <= base -> Forall (fun r => r_info r = abi R_x86_64_RELATIVE /\ 0 <= r_offset r /\ base + r_offset r < 2 ^ 64) relas ->
  relocate_simple abi base relas (length relas) m = foldr (apply_rela base) m relas.
Proof.
  intros Hb Hf. assert (forall n m, (n <= length relas)%nat ->
    relocate_simple abi base relas n m = foldr (apply_rela base) m (take n relas)) as Hn.
  { induction n as [|n IH]; intros m0 Hle; [done|]. cbn [relocate_simple].
    destruct (lookup_lt_is_Some_2 relas n ltac:(lia)) as [r Hr]. rewrite Hr, IH by lia. rewrite (take_S_r _ _ r Hr), foldr_app. cbn [foldr].
    rewrite Forall_forall in Hf. destruct (Hf r ltac:(by apply list_elem_of_lookup_2 in Hr)) as (H1 & H2 & H3).
    rewrite (proj2 (Z.eqb_eq _ _) H1). unfold apply_rela. rewrite wadd_small by lia. by rewrite (Z.add_comm (r_offset r) base). }
  rewrite Hn by done. by rewrite firstn_all.
Qed.

(** Targets that do not overlap. *)
Definition apart (r s : Elf64_Rela) : Prop := r_offset r + 8 <= r_offset s \/ r_offset s + 8 <= r_offset r.

Lemma apply_rela_comm base r s m : apart r s -> apply_rela base r (apply_rela base s m) = apply_rela base s (apply_rela base r m).
Proof.
  intros Ha. apply map_eq. intros x. unfold apply_rela. rewrite !write_bytes_lookup, !le_bytes_length. unfold apart in Ha.
  repeat destruct (decide _); done || lia.
Qed.

Lemma foldl_foldr_apply base relas : forall m, StronglySorted apart relas -> foldl (fun m r => apply_rela base r m) m relas = foldr (apply_rela base) m relas.
Proof.
  induction relas as [|r relas IH]; intros m Hs; [done|]. apply StronglySorted_inv in Hs as [Hs Hf]. cbn [foldl foldr]. rewrite IH by done.
  clear IH Hs. induction Hf as [|s relas Hrs Hf IH]; [done|]. cbn [foldr]. rewrite IH. symmetry. by apply apply_rela_comm.
Qed.

(** C26. The relocation loop in assembly that the boot code applies to itself does the same as
    [relocate_image]: for relative relocations inside the image that do not overlap, both leave the same
    memory, although one goes through the entries from the last to the first and the other from the
    first to the last; the general one reports success. *)
Theorem relocate_simple_image base len got plt relas m :
  0 <= base -> base + len < 2 ^ 64 -> Forall (relative_in len) relas -> StronglySorted apart relas ->
  relocate_image abi base len got plt relas m = Done (Ok tt, relocate_simple abi base relas (length relas) m).
Proof using abi_inj abi_range.
  intros Hb He Hf Hs. rewrite relocate_image_relative by done. rewrite relocate_simple_foldr, foldl_foldr_apply; [done..|].
  apply (Forall_impl _ _ _ Hf). intros r (H1 & H2 & H3). split; [done|]. lia.
Qed.

(** [relocate_image] is meant not to write outside the image, but it only checks the first byte: a
    relocation of the last byte is accepted and the seven bytes after the image are overwritten. *)
Theorem relocate_image_overrun base len got plt r m :
  0 <= base -> 0 < len -> base + len < 2 ^ 64 -> r_info r = abi R_x86_64_RELATIVE -> r_offset r = len - 1 ->
  exists m', relocate_image abi base len got plt [r] m = Done (Ok tt, m') /\
    forall i, 0 <= i < 7 -> m' !! (base + len + i) = Some (((r_addend r ⊕ base)%u64 / 256 ^ (i + 1)) mod 256).
Proof using abi_inj abi_range.
  intros Hb Hl He Hi Ho. exists (apply_rela base r m). rewrite relocate_relative_step by (done || lia). unfold apply_rela.
  split; [done|]. intros i Hir. rewrite write_bytes_lookup, le_bytes_length, decide_True by lia.
  replace (base + len + i - (base + r_offset r)) with (i + 1) by lia. set (v := (r_addend r ⊕ base)%u64).
  assert (forall n k v, (k < n)%nat -> le_bytes n v !! k = Some ((v / 256 ^ Z.of_nat k) mod 256)) as Hle.
  { clear. induction n as [|n IH]; intros k v Hk; [lia|]. destruct k as [|k]; cbn [le_bytes lookup list_lookup]; [by rewrite Z.div_1_r|].
    change (le_bytes n (v / 256) !! k = Some ((v / 256 ^ Z.of_nat (S k)) mod 256)). rewrite IH by lia.
    rewrite Nat2Z.inj_succ, Z.pow_succ_r, Z.div_div by lia. done. }
  rewrite Hle by lia. by rewrite Z2Nat.id by lia.
Qed.

End RelocLaws.

(** ** Moving the kernel *)

(** A section that is loaded below [new_base] and fits above it. *)
Definition slides (new_base : Z) (s : SectionHeader) : Prop :=
  0 <= sh_addr s /\ 0 <= sh_size s /\ sh_addr s + sh_size s <= new_base.

Definition in_section (s : SectionHeader) (x : Z) : Prop := sh_addr s <= x < sh_addr s + sh_size s.

(** [reload_image] copies every allocated section to the same offset from the new base and changes
    nothing else, also when sections overlap. *)
Lemma reload_image_spec new_base : forall sections m, Forall (slides new_base) sections ->
  forall x, reload_image new_base sections m !! x =
    if decide (Exists (fun s => is_alloc s = true /\ in_section s (x - new_base)) sections)
    then Some (default 0 (m !! (x - new_base))) else m !! x.
Proof.
  induction sections as [|s sections IH]; intros m Hf x; cbn [reload_image]; [rewrite decide_False; [done|by intros Hn%Exists_nil]|].
  apply Forall_cons in Hf as [(Ha & Hs & Hb) Hf]. rewrite IH by done. clear IH.
  set (m1 := if is_alloc s then _ else m).
  assert (forall y, m1 !! y = if decide (is_alloc s = true /\ in_section s (y - new_base)) then Some (default 0 (m !! (y - new_base))) else m !! y) as Hm1.
  { intros y. unfold m1. destruct (is_alloc s); [|rewrite decide_False; [done|by intros [? _]]].
    rewrite write_bytes_lookup, read_bytes_length, Z2Nat.id by lia. unfold in_section. destruct (decide (_ <= y < _)) as [Hy|Hy].
    - rewrite decide_True by (split; [done|lia]). rewrite read_bytes_lookup by lia. do 3 f_equal. lia.
    - by rewrite decide_False by (intros [_ ?]; lia). }
  rewrite !Hm1. destruct (decide (Exists _ sections)) as [He|Hn].
  - rewrite (decide_True (P := Exists _ (s :: sections))) by by apply Exists_cons_tl. rewrite decide_False; [done|].
    rewrite Exists_exists in He. destruct He as (s' & Hin & _ & Hx). rewrite Forall_forall in Hf. destruct (Hf s' Hin) as (? & ? & ?).
    unfold in_section in *. intros [_ ?]. lia.
  - destruct (decide (is_alloc s = true /\ in_section s (x - new_base))) as [Hy|Hy]; [by rewrite decide_True by by apply Exists_cons_hd|].
    rewrite decide_False; [done|]. intros [?|?]%Exists_cons; done.
Qed.

Lemma foldl_apply_rela base : forall relas m x,
  (forall r, r ∈ relas -> ~ base + r_offset r <= x < base + r_offset r + 8) ->
  foldl (fun m r => apply_rela base r m) m relas !! x = m !! x.
Proof.
  induction relas as [|r relas IH]; intros m x Hx; [done|]. cbn [foldl]. rewrite IH by (intros s Hs; apply Hx; by right).
  unfold apply_rela. rewrite write_bytes_lookup, le_bytes_length, decide_False; [done|]. apply (Hx r). by left.
Qed.

(** The target of a relocation holds its value at the end. *)
Lemma foldl_apply_target base : forall relas m r, StronglySorted apart relas -> r ∈ relas ->
  read_bytes (base + r_offset r) 8 (foldl (fun m r => apply_rela base r m) m relas) = le_bytes 8 (r_addend r ⊕ base)%u64.
Proof.
  induction relas as [|s relas IH]; intros m r Hs Hin; [by apply elem_of_nil in Hin|]. apply StronglySorted_inv in Hs as [Hs Hf].
  cbn [foldl]. apply elem_of_cons in Hin as [->|Hin]; [|by apply IH]. rewrite Forall_forall in Hf.
  rewrite (read_bytes_ext _ _ _ (apply_rela base s m)).
  - unfold apply_rela. rewrite <- (le_bytes_length 8 (r_addend s ⊕ base)%u64) at 1. apply read_write_bytes.
  - intros x Hx. apply foldl_apply_rela. intros r Hr. specialize (Hf r Hr). unfold apart in Hf. lia.
Qed.

Section Move.
Context {F : Type} `{FS : FrameSource F} `{PF : PhysFrameOps} `{PO : PteOps} `{PA : PhysAddrOps} `{VA : VirtAddrOps} `{MD : MapperDefaults}.
Context (abi : X86_64RelocType -> Z) (abi_inj : forall s t, abi s = abi t -> s = t) (abi_range : forall t, 0 <= abi t < 2 ^ 32).

(** The kernel moves itself to the upper half: once the pages are mapped, every byte of an allocated
    section is found at the same offset from the new base, except the targets of the relocations, which
    hold their addend plus the new base; the old image is not touched.  The relocations must be
    relative, lie in the image and not overlap. *)
Theorem relocate_moves SHT_RELA sections mm m tail mm' i sh_rela :
  Forall (slides get_base) sections -> alloc_image get_base sections mm 0 = Done (tail, mm') -> get_base + tail < 2 ^ 64 ->
  list_find (fun s => sh_type s = SHT_RELA) sections = Some (i, sh_rela) -> sh_entsize sh_rela = RELA_SIZE ->
  let relas := relas_at m (sh_addr sh_rela) (Z.to_nat (sh_size sh_rela / RELA_SIZE)) in
  Forall (relative_in abi tail) relas -> StronglySorted apart relas ->
  exists m', relocate abi SHT_RELA sections mm m = Done (get_base, mm', m') /\
    (forall x, 0 <= x < get_base -> m' !! x = m !! x) /\
    (forall s x, s ∈ sections -> is_alloc s = true -> in_section s x -> (forall r, r ∈ relas -> ~ r_offset r <= x < r_offset r + 8) ->
       m' !! (get_base + x) = Some (default 0 (m !! x))) /\
    (forall r, r ∈ relas -> of_le (read_bytes (get_base + r_offset r) 8 m') = (r_addend r ⊕ get_base)%u64).
Proof using abi_inj abi_range.
  intros Hsl Hal Ht Hfind Hent relas Hrel Hap. set (m1 := reload_image get_base sections m).
  assert (0 < get_base) as Hb by (unfold get_base, DEFAULT_KERNEL_BASE; lia).
  assert (forall x, x < get_base -> m1 !! x = m !! x) as Hlow.
  { intros x Hx. unfold m1. rewrite reload_image_spec by done. rewrite decide_False; [done|]. rewrite Exists_exists. intros (s & Hin & _ & Hs).
    rewrite Forall_forall in Hsl. destruct (Hsl s Hin) as (? & ? & ?). unfold in_section in Hs. lia. }
  assert (sh_rela ∈ sections) as Hin by (apply list_find_Some in Hfind as (Hi & _); by apply list_elem_of_lookup_2 in Hi).
  assert (relas_at m1 (sh_addr sh_rela) (Z.to_nat (sh_size sh_rela / RELA_SIZE)) = relas) as Hre.
  { apply list_fmap_ext. intros j k Hj. apply lookup_seq in Hj as [-> Hj]. rewrite Forall_forall in Hsl. destruct (Hsl _ Hin) as (S1 & S2 & S3).
    unfold RELA_SIZE in *. pose proof (Z.div_mod (sh_size sh_rela) 24 ltac:(lia)). pose proof (Z.mod_pos_bound (sh_size sh_rela) 24 ltac:(lia)).
    unfold rela_at. rewrite !(read_bytes_ext 8 _ m1 m) by (intros x Hx; apply Hlow; lia). done. }
  unfold relocate. rewrite Hal. cbn [mbind outcome_bind]. fold m1. rewrite Hfind, Hent. change (negb (RELA_SIZE =? 0)) with true.
  change (RELA_SIZE =? RELA_SIZE) with true. cbn [assert_that mbind outcome_bind]. rewrite Hre.
  rewrite (relocate_image_relative abi abi_inj abi_range) by (done || lia). cbn [mbind outcome_bind fst snd result_ok unwrap].
  eexists. split; [done|]. rewrite Forall_forall in Hrel. split; [|split].
  - intros x Hx. rewrite foldl_apply_rela; [apply Hlow; lia|]. intros r Hr. destruct (Hrel r Hr) as (_ & ? & _). lia.
  - intros s x Hs Hsa Hx Hno. rewrite foldl_apply_rela by (intros r Hr; specialize (Hno r Hr); lia). unfold m1.
    rewrite reload_image_spec by done. replace (get_base + x - get_base) with x by lia. rewrite decide_True; [done|].
    apply Exists_exists. by exists s.
  - intros r Hr. rewrite foldl_apply_target by done. apply of_le_bytes. change (256 ^ Z.of_nat 8) with (2 ^ 64). apply wrap64_range.
Qed.

End Move.

(** ** Loading a file *)

(** A segment that has a part without file data cannot be loaded when its base is not zero: the
    offset of the rest is absolute, and the slice panics. *)
Lemma load_zero_panics e segment seg b fuel section_start it section :
  segments e !! segment = Some seg -> segments e !! it_index it = Some b -> it_loaded it = p_filesz seg -> p_filesz seg <> p_memsz seg ->
  length section = Z.to_nat (p_memsz seg) -> 0 <= p_memsz seg -> 0 < p_vaddr b -> p_memsz seg + p_vaddr b < 2 ^ 64 ->
  load_loop (S fuel) e segment section_start it section = Panic.
Proof.
  intros H1 H2 H3 H4 H5 H6 H7 H8. cbn [load_loop]. unfold sec_next. rewrite H1, H2. cbn [unwrap mbind outcome_bind].
  rewrite H3, (proj2 (Z.eqb_neq _ _) H4), Z.eqb_refl. cbn [mbind outcome_bind]. rewrite H5, wadd_small by lia.
  rewrite (proj2 (Z.leb_gt _ _)) by lia. done.
Qed.

(** Loading stops without an error when there are more sections than segments. *)
Lemma load_stops_early e segment seg fuel section_start it section :
  segments e !! segment = Some seg -> (length (segments e) <= it_index it)%nat ->
  load_loop (S fuel) e segment section_start it section = Done (Ok section).
Proof.
  intros H1 H2. cbn [load_loop]. unfold sec_next. rewrite H1, (lookup_ge_None_2 _ _ H2). done.
Qed.

(** [load_range] covers every segment that takes memory. *)
Lemma load_range_covers e seg :
  Forall (fun s => 0 <= p_vaddr s /\ 0 <= p_memsz s /\ p_vaddr s + p_memsz s < 2 ^ 64) (segments e) ->
  seg ∈ segments e -> p_memsz seg <> 0 -> (load_range e).1 <= p_vaddr seg /\ p_vaddr seg + p_memsz seg <= (load_range e).2.
Proof.
  unfold load_range. generalize (2 ^ 64 - 1, 0). generalize (segments e). clear e.
  assert (forall l r, (foldl load_step r l).1 <= r.1 /\ r.2 <= (foldl load_step r l).2) as Hmono.
  { induction l as [|s l IH]; intros r; cbn [foldl]; [split; reflexivity|]. specialize (IH (load_step r s)).
    assert ((load_step r s).1 <= r.1 /\ r.2 <= (load_step r s).2) by (unfold load_step; destruct (p_memsz s =? 0); cbn [fst snd]; lia). lia. }
  induction l as [|s l IH]; intros r Hf Hin Hm; [by apply elem_of_nil in Hin|]. apply Forall_cons in Hf as [(H1 & H2 & H3) Hf]. cbn [foldl].
  apply elem_of_cons in Hin as [->|Hin]; [|by apply IH]. specialize (Hmono l (load_step r s)).
  assert ((load_step r s).1 <= p_vaddr s /\ p_vaddr s + p_memsz s <= (load_step r s).2); [|lia].
  unfold load_step. rewrite (proj2 (Z.eqb_neq _ _) Hm), wadd_small by lia. cbn [fst snd]. lia.
Qed.

(** ** A small image *)
Module ElfWitness.
Import FrameWitness PageTableWitness MemMapWitness.

(** The numbers of the x86-64 ABI. *)
Definition psabi (t : X86_64RelocType) : Z :=
  match t with
  | R_x86_64_64 => 1 | R_x86_64_PC32 => 2 | R_x86_64_GOT32 => 3 | R_x86_64_PLT32 => 4 | R_x86_64_GLOB_DAT => 6
  | R_x86_64_JUMP_SLOT => 7 | R_x86_64_RELATIVE => 8 | R_x86_64_GOTPCREL => 9 | R_x86_64_32 => 10 | R_x86_64_32S => 11
  | R_x86_64_16 => 12 | R_x86_64_PC16 => 13 | R_x86_64_8 => 14 | R_x86_64_PC8 => 15 | R_x86_64_PC64 => 24
  | R_x86_64_GOTOFF64 => 25 | R_x86_64_GOTPC32 => 26 | R_x86_64_SIZE32 => 32 | R_x86_64_SIZE64 => 33
  end.

Lemma psabi_inj s t : psabi s = psabi t -> s = t.
Proof. by destruct s, t. Qed.

Lemma psabi_range t : 0 <= psabi t < 2 ^ 32.
Proof. destruct t; cbn; lia. Qed.

Definition two_relas : list Elf64_Rela := [mkRela 0x10 8 0x40; mkRela 0x20 8 0x80].

Lemma relocate_simple_image_witness :
  relocate_image psabi 0x1000 0x100 0 0 two_relas ∅ = Done (Ok tt, relocate_simple psabi 0x1000 two_relas 2 ∅).
Proof.
  apply (relocate_simple_image psabi psabi_inj psabi_range 0x1000 0x100 0 0 two_relas ∅); [lia|lia| |].
  - repeat (constructor; [split; [done|]; cbn; lia|]). constructor.
  - constructor; [constructor; [constructor|constructor]|]. constructor; [left; cbn; lia|constructor].
Defined.

Lemma relocate_image_overrun_witness :
  exists m', relocate_image psabi 0x1000 0x100 0 0 [mkRela 0xff 8 0x123456] ∅ = Done (Ok tt, m') /\
    forall i, 0 <= i < 7 -> m' !! (0x1000 + 0x100 + i) = Some (((0x123456 ⊕ 0x1000)%u64 / 256 ^ (i + 1)) mod 256).
Proof. apply (relocate_image_overrun psabi psabi_inj psabi_range 0x1000 0x100 0 0 (mkRela 0xff 8 0x123456) ∅); done || lia. Defined.

(** The symbol relocations use neither the symbol nor the addend. *)
Example symbol_reloc_is_base :
  relocate_image psabi 0x1000 0x100 0 0 [mkRela 0 1 0x77] ∅ = Done (Ok tt, write_bytes 0x1000 (le_bytes 8 0x1000) ∅).
Proof. reflexivity. Qed.

(** One section of data at [0x1000], and its relocations at [0x2000]. *)
Definition image_sections : list SectionHeader :=
  [mkShdr 1 (Z.lor SHF_WRITE SHF_ALLOC) 0x1000 0 0x40 0; mkShdr 4 SHF_ALLOC 0x2000 0x40 24 24].

Definition image : memory := write_bytes 0x1000 [1; 2; 3; 4] (write_bytes 0x2000 (le_bytes 8 0x1010 ++ le_bytes 8 8 ++ le_bytes 8 0x1000) ∅).

Definition mapped : Z * MemoryMap (F := list Z) :=
  match alloc_image get_base image_sections (Some empty) 0 with Done x => x | Panic => (0, None) end.

Lemma mapped_run : alloc_image get_base image_sections (Some empty) 0 = Done (0x2018, mapped.2).
Proof.
  unfold mapped. destruct (alloc_image get_base image_sections (Some empty) 0) as [[t mm]|] eqn:E.
  - assert (match alloc_image get_base image_sections (Some empty) 0 with Done (t, _) => t =? 0x2018 | Panic => false end = true) as Ht
      by (vm_compute; reflexivity). rewrite E in Ht. apply Z.eqb_eq in Ht as ->. done.
  - exfalso. assert (match alloc_image get_base image_sections (Some empty) 0 with Done _ => true | Panic => false end = true) as Ht
      by (vm_compute; reflexivity). by rewrite E in Ht.
Qed.

Lemma relocate_moves_witness :
  exists m', relocate psabi 4 image_sections (Some empty) image = Done (get_base, mapped.2, m') /\
    (forall x, 0 <= x < get_base -> m' !! x = image !! x) /\
    (forall s x, s ∈ image_sections -> is_alloc s = true -> in_section s x ->
       (forall r, r ∈ relas_at image 0x2000 1 -> ~ r_offset r <= x < r_offset r + 8) -> m' !! (get_base + x) = Some (default 0 (image !! x))) /\
    (forall r, r ∈ relas_at image 0x2000 1 -> of_le (read_bytes (get_base + r_offset r) 8 m') = (r_addend r ⊕ get_base)%u64).
Proof.
  assert (relas_at image 0x2000 1 = [mkRela 0x1010 8 0x1000]) as Hr by (vm_compute; reflexivity).
  apply (relocate_moves psabi psabi_inj psabi_range 4 image_sections (Some empty) image 0x2018 mapped.2 1 (mkShdr 4 SHF_ALLOC 0x2000 0x40 24 24)).
  - repeat (constructor; [unfold slides, get_base, DEFAULT_KERNEL_BASE; cbn; lia|]). constructor.
  - exact mapped_run.
  - unfold get_base, DEFAULT_KERNEL_BASE. lia.
  - reflexivity.
  - reflexivity.
  - cbn [sh_addr sh_size]. change (Z.to_nat (24 / RELA_SIZE)) with 1%nat. rewrite Hr. constructor; [|constructor]. split; [reflexivity|]. cbn. lia.
  - cbn [sh_addr sh_size]. change (Z.to_nat (24 / RELA_SIZE)) with 1%nat. rewrite Hr. repeat constructor.
Defined.

End ElfWitness.
