(* ===== verification/BootMem.v ===== *)
(** * Memory at boot

    [BasicPhysAllocator] of [lib/libboot/src/multiboot2_entry.rs], which hands out page frames before
    the kernel runs, and the memory map of [lib/libboot/src/boot_info.rs] that the kernel iterates
    over afterwards ([Multiboot2PmMemoryState] and its iterator, the conversion of UEFI
    descriptors, the TLS template).

    The Multiboot2 information is parsed by a third-party crate; [Mbi] is what its accessors
    return.  [align_up] and [align_down] of the [x86_64] crate and [arrangement] of the [ranges] crate
    are classes with their documented behaviour as laws.  [pb_panic] and [panic!] are both [Panic]. *)
From Stdlib Require Import Sorted.
From stdpp Require Import prelude.
From S2P Require Import Prelude Ranges HighOrder FrameAlloc.
Open Scope Z_scope.

(** ** Third-party code *)

Class AlignOps := { align_up_to : Z -> Z -> outcome Z; align_down_to : Z -> Z -> outcome Z }.

Class AlignLaws `{AlignOps} := {
  align_down_page : forall a, 0 <= a -> align_down_to a PAGE_SIZE = Done (a - a mod PAGE_SIZE);
  align_up_page : forall a, 0 <= a -> a + (- a) mod PAGE_SIZE < 2 ^ 64 -> align_up_to a PAGE_SIZE = Done (a + (- a) mod PAGE_SIZE);
}.

(** How one range lies with respect to another. *)
Inductive Arrangement :=
| ADisjoint
| ATouching
| AOverlapping (self_less : bool)
| AContaining (self_shorter : bool)
| AStarting (self_shorter : bool)
| AEnding (self_shorter : bool)
| AEqual
| AEmpty.

(** A half-open range: [(start, end)]. *)
Definition span_range : Type := Z * Z.

Class RangeOps := { arrangement : span_range -> span_range -> Arrangement }.

Class RangeLaws `{RangeOps} := {
  arrangement_spec : forall a b, a.1 < a.2 -> b.1 < b.2 ->
    match arrangement a b with
    | ADisjoint => a.2 < b.1 \/ b.2 < a.1
    | ATouching => a.2 = b.1 \/ b.2 = a.1
    | AOverlapping true => a.1 < b.1 < a.2 /\ a.2 < b.2
    | AOverlapping false => b.1 < a.1 < b.2 /\ b.2 < a.2
    | AContaining true => b.1 < a.1 /\ a.2 < b.2
    | AContaining false => a.1 < b.1 /\ b.2 < a.2
    | AStarting true => a.1 = b.1 /\ a.2 < b.2
    | AStarting false => a.1 = b.1 /\ b.2 < a.2
    | AEnding true => a.2 = b.2 /\ b.1 < a.1
    | AEnding false => a.2 = b.2 /\ a.1 < b.1
    | AEqual => a = b
    | AEmpty => False
    end;
  arrangement_empty : forall a b, a.1 = a.2 \/ b.1 = b.2 -> arrangement a b = AEmpty;
}.

Inductive MemoryAreaType := Available | Reserved | AcpiAvailable | ReservedHibernate | Defective | Custom (n : Z).
#[global] Instance MemoryAreaType_eq_dec : EqDecision MemoryAreaType.
Proof. solve_decision. Defined.

Record MemoryArea := mkArea { area_start : Z; area_end : Z; area_typ : MemoryAreaType }.

Inductive ElfSectionType := ProgramSection | Uninitialized | OtherSection.

Record ElfSection := mkSection { sec_start : Z; sec_end : Z; sec_size : Z; sec_flags : Z; sec_type : ElfSectionType }.

Record Module_ := mkModule { mod_start : Z; mod_end : Z }.

(** The accessors of [multiboot2::BootInformation]; a tag that is absent is [None]. *)
Record Mbi := mkMbi {
  mbi_start : Z; mbi_end : Z;
  memory_map_tag : option (list MemoryArea);
  elf_sections_tag : option (list ElfSection);
  module_tags : list Module_ }.

(** The number a type was parsed from. *)
Definition type_number (t : MemoryAreaType) : Z :=
  match t with Available => 1 | Reserved => 2 | AcpiAvailable => 3 | ReservedHibernate => 4 | Defective => 5 | Custom n => n end.

(** ** The frame allocator of the boot loader *)
Inductive AllocError := RegionExhausted.

Record BasicPhysAllocator := mkBpa {
  mbi_region : span_range; boot_info : Mbi; index : nat; last_address : Z; region_cached : option MemoryArea }.

Definition is_available (m : MemoryArea) : bool := bool_decide (area_typ m = Available).

(** The first entry that is available, with its index; [i] is the index of the head. *)
Fixpoint first_available (i : nat) (l : list MemoryArea) : option (nat * MemoryArea) :=
  match l with
  | [] => None
  | m :: l => if is_available m then Some (i, m) else first_available (S i) l
  end.

Definition contains_addr (r : span_range) (a : Z) : bool := (r.1 <=? a) && (a <? r.2).

Section Alloc.
Context `{AO : AlignOps}.

Definition bpa_new (mbi : Mbi) : outcome BasicPhysAllocator :=
  s ← align_down_to (mbi_start mbi) PAGE_SIZE;
  e ← align_up_to (mbi_end mbi) PAGE_SIZE;
  _ ← unwrap (elf_sections_tag mbi);
  mem_map ← unwrap (memory_map_tag mbi);
  r ← unwrap (first_available 0 mem_map);
  Done (mkBpa (s, e) mbi r.1 0x1000 (Some r.2)).

Definition get_region (b : BasicPhysAllocator) : outcome (MemoryArea * BasicPhysAllocator) :=
  match region_cached b with
  | Some cached => Done (cached, b)
  | None =>
      mem_map ← unwrap (memory_map_tag (boot_info b));
      region ← unwrap (mem_map !! index b);
      Done (region, mkBpa (mbi_region b) (boot_info b) (index b) (last_address b) (Some region))
  end.

Definition set_last (a : Z) (b : BasicPhysAllocator) : BasicPhysAllocator :=
  mkBpa (mbi_region b) (boot_info b) (index b) a (region_cached b).

Definition locate_addr (b : BasicPhysAllocator) : outcome (result Z AllocError * BasicPhysAllocator) :=
  r ← get_region b;
  let '(region, b) := r in
  if area_end region =? last_address b then Done (Err RegionExhausted, b)
  else if contains_addr (area_start region, area_end region) (last_address b) then
    let a := (last_address b ⊕ PAGE_SIZE)%u64 in Done (Ok a, set_last a b)
  else Done (Ok (area_start region), set_last (area_start region) b).

(** The two loops of [cmp_addr]: [true] when the address is in none of the ranges. *)
Fixpoint clear_of (l : list (Z * Z)) (addr : Z) : outcome bool :=
  match l with
  | [] => Done true
  | (s, e) :: l =>
      s ← align_down_to s PAGE_SIZE;
      e ← align_up_to e PAGE_SIZE;
      if contains_addr (s, e) addr then Done false else clear_of l addr
  end.

Definition cmp_addr (b : BasicPhysAllocator) (addr : Z) : outcome bool :=
  if contains_addr (mbi_region b) addr then Done false
  else
    m ← clear_of ((fun i => (mod_start i, mod_end i)) <$> module_tags (boot_info b)) addr;
    if negb m then Done false
    else
      elf_sections ← unwrap (elf_sections_tag (boot_info b));
      clear_of ((fun i => (sec_start i, sec_end i)) <$> elf_sections) addr.

Definition increment_index (b : BasicPhysAllocator) : outcome (result unit unit * BasicPhysAllocator) :=
  mem_map ← unwrap (memory_map_tag (boot_info b));
  match first_available (index b + 1) (drop (index b + 1) mem_map) with
  | None => Done (Err tt, b)
  | Some (i, _) => Done (Ok tt, mkBpa (mbi_region b) (boot_info b) i (last_address b) None)
  end.

(** The loop runs on fuel; [None] when it runs out. *)
Fixpoint alloc_as_u64 (fuel : nat) (b : BasicPhysAllocator) : outcome (option (Z * BasicPhysAllocator)) :=
  match fuel with
  | O => Done None
  | S fuel =>
      r ← locate_addr b;
      match r with
      | (Ok addr, b) => free ← cmp_addr b addr; if (free : bool) then Done (Some (addr, b)) else alloc_as_u64 fuel b
      | (Err RegionExhausted, b) =>
          r ← increment_index b;
          _ ← unwrap (result_ok r.1);
          alloc_as_u64 fuel r.2
      end
  end.

(** ** The memory map of the kernel *)

Record Multiboot2PmMemoryState := mkPm {
  pm_mbi_region : span_range; pm_boot_info : Mbi; used_boundary : Z; low_boundary : Z }.

Definition to_static_context (b : BasicPhysAllocator) : Multiboot2PmMemoryState :=
  mkPm (mbi_region b) (boot_info b) (last_address b ⊕ PAGE_SIZE)%u64 0.

End Alloc.

Record PmIter := mkPmIter {
  next_addr : Z; last_index : nat; hit_boundary : bool; hit_low_boundary : bool; low_boundary_counter : Z }.

Definition pm_iter : PmIter := mkPmIter 0 0 false false 0.

(** [MemoryRegionType::eq] compares the constructors. *)
Definition is_bootloader (t : MemoryRegionType) : bool := match t with Bootloader => true | _ => false end.
Definition is_usable_type (t : MemoryRegionType) : bool := match t with Usable => true | _ => false end.

Section Iterate.
Context `{AO : AlignOps} `{RO : RangeOps}.

Definition cmp_range (memory_range cmp_range : span_range) : outcome (span_range * MemoryRegionType) :=
  match arrangement memory_range cmp_range with
  | ADisjoint | ATouching => Done (memory_range, Usable)
  | AOverlapping true => Done ((memory_range.1, cmp_range.1), Usable)
  | AOverlapping false => Done ((memory_range.1, cmp_range.2), Bootloader)
  | AContaining true => Done (memory_range, Bootloader)
  | AContaining false => Done ((memory_range.1, cmp_range.1), Usable)
  | AStarting self_shorter =>
      Done ((memory_range.1, if self_shorter then memory_range.2 else cmp_range.2), Bootloader)
  | AEnding false => Done ((memory_range.1, cmp_range.1), Usable)
  | AEnding true => Done (memory_range, Bootloader)
  | AEqual => Done (cmp_range, Bootloader)
  | AEmpty => Panic
  end.

(** The loop over the sections of [address_occupied]. *)
Fixpoint occupied_sections (l : list ElfSection) (range : span_range) : outcome (span_range * MemoryRegionType) :=
  match l with
  | [] => Done (range, Usable)
  | i :: l =>
      start ← align_down_to (sec_start i) PAGE_SIZE;
      end_ ← align_up_to (sec_end i) PAGE_SIZE;
      if start =? end_ then occupied_sections l range
      else
        r ← cmp_range range (start, end_);
        if is_bootloader r.2 then Done r else occupied_sections l r.1
  end.

(** The loop over the modules; the bounds are rounded inwards. *)
Fixpoint occupied_modules (l : list Module_) (range : span_range) : outcome (span_range * MemoryRegionType) :=
  match l with
  | [] => Done (range, Usable)
  | i :: l =>
      start ← align_up_to (mod_start i) PAGE_SIZE;
      end_ ← align_down_to (mod_end i) PAGE_SIZE;
      r ← cmp_range range (start, end_);
      if is_bootloader r.2 then Done r else occupied_modules l r.1
  end.

Definition address_occupied (p : Multiboot2PmMemoryState) (range : span_range) : outcome (span_range * MemoryRegionType) :=
  r ← cmp_range range (pm_mbi_region p);
  if is_bootloader r.2 then Done r
  else
    r ← occupied_sections (default [] (elf_sections_tag (pm_boot_info p))) r.1;
    if is_bootloader r.2 then Done r
    else
      r ← occupied_modules (module_tags (pm_boot_info p)) r.1;
      if is_bootloader r.2 then Done r
      else cmp_range r.1 (pm_mbi_region p).

(** [next] of the iterator. *)
Definition pm_next (p : Multiboot2PmMemoryState) (it : PmIter) : outcome (option MemoryRegion * PmIter) :=
  areas ← unwrap (memory_map_tag (pm_boot_info p));
  match areas !! last_index it with
  | None => Done (None, it)
  | Some area0 =>
      e0 ← align_down_to (area_end area0) PAGE_SIZE;
      let last_index := if e0 =? next_addr it then S (last_index it) else last_index it in
      let it := mkPmIter (next_addr it) last_index (hit_boundary it) (hit_low_boundary it) (low_boundary_counter it) in
      match areas !! last_index with
      | None => Done (None, it)
      | Some area =>
          if is_available area then
            start ← align_up_to (Z.max (area_start area) (next_addr it)) PAGE_SIZE;
            end_ ← align_down_to (area_end area) PAGE_SIZE;
            o ← address_occupied p (start, end_);
            let '((rs, re), ty) := o in
            let num_pages := ((re ⊖ rs)%u64 / PAGE_SIZE) in
            if (low_boundary p <=? (low_boundary_counter it ⊕ num_pages)%u64) && negb (hit_low_boundary it) then
              let pages_until_boundary := (low_boundary p ⊖ low_boundary_counter it)%u64 in
              let re := (rs ⊕ (pages_until_boundary ⊗ PAGE_SIZE))%u64 in
              _ ← assert_that (is_usable_type ty);
              Done (Some (mkMemoryRegion rs (re ⊖ rs)%u64 Usable),
                    mkPmIter re last_index (hit_boundary it) true (low_boundary_counter it))
            else if contains_addr (rs, re) (used_boundary p) && negb (hit_boundary it) then
              let re := used_boundary p in
              Done (Some (mkMemoryRegion rs (re ⊖ rs)%u64 Bootloader),
                    mkPmIter re last_index true (hit_low_boundary it) (low_boundary_counter it))
            else
              ty ← (if is_usable_type ty then
                      match hit_low_boundary it, hit_boundary it with
                      | false, false => Done Usable
                      | true, false => Done Bootloader
                      | true, true => Done Usable
                      | false, true => Panic
                      end
                    else Done ty);
              Done (Some (mkMemoryRegion rs (re ⊖ rs)%u64 ty),
                    mkPmIter re last_index (hit_boundary it) (hit_low_boundary it) (low_boundary_counter it))
          else
            start ← align_down_to (area_start area) PAGE_SIZE;
            end_ ← align_up_to (area_end area) PAGE_SIZE;
            let last_index := S last_index in
            na ← align_up_to (match areas !! last_index with Some a => area_start a | None => area_end area end) PAGE_SIZE;
            Done (Some (mkMemoryRegion start (end_ ⊖ start)%u64 (Unusable (type_number (area_typ area)))),
                  mkPmIter na last_index (hit_boundary it) (hit_low_boundary it) (low_boundary_counter it))
      end
  end.

(** The regions of the first [k] calls of [next], up to [None]. *)
Fixpoint pm_collect (k : nat) (p : Multiboot2PmMemoryState) (it : PmIter) : outcome (list MemoryRegion * PmIter) :=
  match k with
  | O => Done ([], it)
  | S k =>
      r ← pm_next p it;
      match r with
      | (None, it) => Done ([], it)
      | (Some m, it) => r ← pm_collect k p it; Done (m :: r.1, r.2)
      end
  end.

End Iterate.

(** ** UEFI descriptors, TLS template, RSDP *)

(** Memory types of the UEFI specification. *)
Definition EFI_RESERVED : Z := 0.
Definition EFI_LOADER_CODE : Z := 1.
Definition EFI_LOADER_DATA : Z := 2.
Definition EFI_BOOT_SERVICES_CODE : Z := 3.
Definition EFI_BOOT_SERVICES_DATA : Z := 4.
Definition EFI_RUNTIME_SERVICES_CODE : Z := 5.
Definition EFI_RUNTIME_SERVICES_DATA : Z := 6.
Definition EFI_CONVENTIONAL : Z := 7.
Definition EFI_UNUSABLE : Z := 8.
Definition EFI_ACPI_RECLAIM : Z := 9.
Definition EFI_ACPI_NON_VOLATILE : Z := 10.
Definition EFI_MMIO : Z := 11.
Definition EFI_MMIO_PORT_SPACE : Z := 12.
Definition EFI_PAL_CODE : Z := 13.

Record MemoryDescriptor := mkDescriptor { desc_ty : Z; phys_start : Z; virt_start : Z; page_count : Z; att : Z }.

Definition from_descriptor (value : MemoryDescriptor) : MemoryRegion :=
  let t := desc_ty value in
  let ty :=
    if t =? EFI_LOADER_DATA then Bootloader
    else if existsb (Z.eqb t) [EFI_RESERVED; EFI_UNUSABLE; EFI_MMIO; EFI_RUNTIME_SERVICES_CODE; EFI_RUNTIME_SERVICES_DATA;
                               EFI_ACPI_RECLAIM; EFI_ACPI_NON_VOLATILE; EFI_PAL_CODE; EFI_MMIO_PORT_SPACE] then Unusable t
    else if existsb (Z.eqb t) [EFI_CONVENTIONAL; EFI_BOOT_SERVICES_DATA; EFI_BOOT_SERVICES_CODE; EFI_LOADER_CODE] then Usable
    else Unknown t in
  mkMemoryRegion (phys_start value) (page_count value ⊗ PAGE_SIZE)%u64 ty.

(** [SHF_TLS]. *)
Definition SHF_TLS : Z := 1024.

Record TlsTemplate := mkTls { tls_file : Z * Z; tls_size : Z }.

(** The loop of [get_tls_template]: the last initialised section, the first address, the last. *)
Definition tls_step (acc : option (Z * Z) * option Z * option Z) (s : ElfSection) : option (Z * Z) * option Z * option Z :=
  let '(init, start, end_) := acc in
  let start' := Some (match start with Some st => Z.min st (sec_start s) | None => sec_start s end) in
  let end' := Some (match end_ with Some ed => Z.max ed (sec_end s) | None => sec_end s end) in
  if negb (Z.land (sec_flags s) SHF_TLS =? 0) then
    match sec_type s with
    | ProgramSection => (Some (sec_start s, sec_size s), start', end')
    | Uninitialized => (init, start', end')
    | OtherSection => acc
    end
  else acc.

(** An empty slice has no address that matters. *)
Definition get_tls_template (mb2_info : option Mbi) : option TlsTemplate :=
  mbi ← mb2_info;
  sections ← elf_sections_tag mbi;
  match foldl tls_step (None, None, None) sections with
  | (init, Some start, Some end_) => Some (mkTls (default (0, 0) init) (end_ ⊖ start)%u64)
  | _ => None
  end.

Inductive E820Type := E820Usable | E820Reserved | E820AcpiReclaimable | E820AcpiNonVolatileStorage | E820BadRam | E820Other (n : Z).

Definition e820_from (t : MemoryAreaType) : E820Type :=
  match t with
  | Available => E820Usable
  | Reserved => E820Reserved
  | AcpiAvailable => E820AcpiReclaimable
  | ReservedHibernate => E820AcpiNonVolatileStorage
  | Defective => E820BadRam
  | Custom n => E820Other n
  end.

(** ** The allocator is a queue of candidates *)

(** The pages from one address to another, both included. *)
Definition pages_incl (a b : Z) : list Z := (fun i => a + 4096 * Z.of_nat i) <$> seq 0 (Z.to_nat ((b - a) / 4096 + 1)).

(** What the allocator will try in a region, and in the regions after it: the end of a region is
    tried too, although it does not belong to it. *)
Definition cand_region (last : Z) (r : MemoryArea) : list Z :=
  if area_end r =? last then []
  else if contains_addr (area_start r, area_end r) last then pages_incl (last + 4096) (area_end r)
  else pages_incl (area_start r) (area_end r).

Fixpoint cands (last : Z) (r : MemoryArea) (rest : list MemoryArea) : list Z :=
  cand_region last r ++ match rest with [] => [] | r' :: rest => cands (area_end r) r' rest end.

Definition page_aligned (a : Z) : Prop := a mod 4096 = 0.

Definition area_aligned (r : MemoryArea) : Prop :=
  page_aligned (area_start r) /\ page_aligned (area_end r) /\ 0 <= area_start r < area_end r /\ area_end r < 2 ^ 64 - 4096.

Fixpoint first_free (f : Z -> bool) (l : list Z) : option (Z * list Z) :=
  match l with [] => None | x :: l => if f x then Some (x, l) else first_free f l end.

(** The allocator is in region [r], and [rest] are the available regions after it. *)
Definition in_region (b : BasicPhysAllocator) (r : MemoryArea) (rest : list MemoryArea) : Prop :=
  exists areas, memory_map_tag (boot_info b) = Some areas /\ areas !! index b = Some r /\
    (region_cached b = Some r \/ region_cached b = None) /\ rest = List.filter is_available (drop (S (index b)) areas).

Lemma pages_incl_cons a b : page_aligned a -> page_aligned b -> a <= b ->
  pages_incl a b = a :: (if a =? b then [] else pages_incl (a + 4096) b).
Proof.
  unfold page_aligned. intros Ha Hb Hle. unfold pages_incl.
  assert (exists n, b = a + 4096 * Z.of_nat n) as [n ->].
  { exists (Z.to_nat (b / 4096 - a / 4096)). pose proof (Z.div_mod a 4096 ltac:(lia)). pose proof (Z.div_mod b 4096 ltac:(lia)). lia. }
  replace (a + 4096 * Z.of_nat n - a) with (Z.of_nat n * 4096) by lia. rewrite Z.div_mul by lia.
  replace (Z.to_nat (Z.of_nat n + 1)) with (S n) by lia. cbn [seq fmap list_fmap]. rewrite Z.mul_0_r, Z.add_0_r. f_equal.
  destruct n as [|n]; [by rewrite (proj2 (Z.eqb_eq _ _)) by lia|]. rewrite (proj2 (Z.eqb_neq _ _)) by lia.
  replace (a + 4096 * Z.of_nat (S n) - (a + 4096)) with (Z.of_nat n * 4096) by lia. rewrite Z.div_mul by lia.
  replace (Z.to_nat (Z.of_nat n + 1)) with (S n) by lia. rewrite <- seq_shift, <- list_fmap_compose. apply list_fmap_ext. intros _ i _. cbn. lia.
Qed.

(** One step of the search: the next candidate of the region, or its end. *)
Lemma cand_step last r : area_aligned r -> page_aligned last ->
  (area_end r = last /\ cand_region last r = []) \/
  (area_end r <> last /\ exists x, cand_region last r = x :: cand_region x r /\ page_aligned x /\
     x = (if contains_addr (area_start r, area_end r) last then last + 4096 else area_start r) /\ area_start r <= x <= area_end r).
Proof.
  intros (Hs & He & Hr & Hb) Hl. destruct (Z.eqb_spec (area_end r) last) as [E|E].
  { left. split; [done|]. unfold cand_region. by rewrite (proj2 (Z.eqb_eq _ _)). }
  right. split; [done|]. unfold cand_region at 1. rewrite (proj2 (Z.eqb_neq _ _)) by done.
  assert (forall x, page_aligned x -> area_start r <= x <= area_end r -> pages_incl x (area_end r) = x :: cand_region x r) as Hp.
  { intros x Hx Hin. rewrite pages_incl_cons by (done || lia). f_equal. unfold cand_region, contains_addr. cbn [fst snd].
    rewrite (Z.eqb_sym x). destruct (Z.eqb_spec (area_end r) x); [done|].
    by rewrite (proj2 (Z.leb_le _ _)), (proj2 (Z.ltb_lt _ _)) by lia. }
  unfold contains_addr. cbn [fst snd].
  destruct (Z.leb_spec (area_start r) last) as [H1|H1]; [destruct (Z.ltb_spec last (area_end r)) as [H2|H2]|]; cbn [andb].
  - assert (page_aligned (last + 4096)) by (unfold page_aligned in *; by rewrite Z.add_mod, Hl by lia).
    exists (last + 4096). assert (last + 4096 <= area_end r).
    { unfold page_aligned in *. pose proof (Z.div_mod last 4096 ltac:(lia)). pose proof (Z.div_mod (area_end r) 4096 ltac:(lia)). lia. }
    split; [apply Hp; [done|lia]|]. split; [done|]. split; [done|]. lia.
  - exists (area_start r). split; [apply Hp; [done|lia]|]. split; [done|]. split; [done|]. lia.
  - exists (area_start r). split; [apply Hp; [done|lia]|]. split; [done|]. split; [done|]. lia.
Qed.

Lemma first_available_filter l i :
  match List.filter is_available l with
  | [] => first_available i l = None
  | m :: rest => exists j, first_available i l = Some ((i + j)%nat, m) /\ l !! j = Some m /\ List.filter is_available (drop (S j) l) = rest
  end.
Proof.
  revert i. induction l as [|a l IH]; intros i; [done|]. cbn [List.filter first_available]. destruct (is_available a) eqn:Ea.
  - exists 0%nat. rewrite Nat.add_0_r. done.
  - specialize (IH (S i)). destruct (List.filter is_available l) as [|m rest]; [done|]. destruct IH as (j & H1 & H2 & H3).
    exists (S j). rewrite H1. replace (S i + j)%nat with (i + S j)%nat by lia. done.
Qed.

Section AllocLaws.
Context `{AO : AlignOps} {AL : AlignLaws}.

(** Which addresses are in use depends on the boot information only. *)
Definition decides (f : Z -> bool) (b : BasicPhysAllocator) : Prop := forall a, 0 <= a < 2 ^ 64 -> cmp_addr b a = Done (f a).

Lemma decides_same f b b' : mbi_region b' = mbi_region b -> boot_info b' = boot_info b -> decides f b -> decides f b'.
Proof. intros H1 H2 Hf a Ha. rewrite <- (Hf a Ha). unfold cmp_addr. by rewrite H1, H2. Qed.

Lemma locate_in_region b r rest :
  in_region b r rest -> area_aligned r -> page_aligned (last_address b) ->
  exists b1, boot_info b1 = boot_info b /\ mbi_region b1 = mbi_region b /\ index b1 = index b /\ region_cached b1 = Some r /\ last_address b1 = last_address b /\
  locate_addr b =
    if area_end r =? last_address b then Done (Err RegionExhausted, b1)
    else let x := if contains_addr (area_start r, area_end r) (last_address b) then last_address b + 4096 else area_start r in
         Done (Ok x, set_last x b1).
Proof.
  intros (areas & Hm & Hi & Hc & _) (Hs & He & Hr & Hb) Hl. unfold locate_addr, get_region.
  exists (mkBpa (mbi_region b) (boot_info b) (index b) (last_address b) (Some r)). do 5 (split; [done|]).
  assert ((match region_cached b with Some cached => Done (cached, b) | None => _ end) =
    Done (r, mkBpa (mbi_region b) (boot_info b) (index b) (last_address b) (Some r))) as ->.
  { destruct Hc as [Hc|Hc]; rewrite Hc; [by destruct b; cbn in *; subst|]. rewrite Hm. cbn [mbind outcome_bind unwrap]. by rewrite Hi. }
  cbn [mbind outcome_bind last_address]. destruct (area_end r =? last_address b); [done|].
  destruct (contains_addr _ _) eqn:E; [|done]. unfold contains_addr in E. cbn [fst snd] in E. bool_to_prop.
  rewrite wadd_small by (unfold PAGE_SIZE; lia). done.
Qed.

(** [alloc_as_u64] takes the first candidate that is not in use; it panics when there is none. *)
Lemma alloc_queue f fuel b r rest :
  decides f b -> in_region b r rest -> area_aligned r -> Forall area_aligned rest -> page_aligned (last_address b) ->
  (length (cands (last_address b) r rest) + length rest < fuel)%nat ->
  match first_free f (cands (last_address b) r rest) with
  | None => alloc_as_u64 fuel b = Panic
  | Some (x, l) => exists b' r' rest', alloc_as_u64 fuel b = Done (Some (x, b')) /\ in_region b' r' rest' /\ area_aligned r' /\ Forall area_aligned rest' /\
      boot_info b' = boot_info b /\ mbi_region b' = mbi_region b /\ last_address b' = x /\ page_aligned x /\ 0 <= x < 2 ^ 64 - 4096 /\ cands x r' rest' = l /\ (length rest' <= length rest)%nat
  end.
Proof using AL.
  revert b r rest. induction fuel as [|fuel IH]; intros b r rest Hf Hin Har Hrest Hl Hlen; [lia|].
  destruct (locate_in_region b r rest Hin Har Hl) as (b1 & H1 & H2 & H3 & H4 & H5 & Hloc). cbn [alloc_as_u64]. rewrite Hloc. clear Hloc.
  pose proof Hin as (areas & Hm & Hi & _ & Hre).
  assert (forall x, in_region (set_last x b1) r rest) as Hin1.
  { intros x. exists areas. cbn. rewrite H1, H3, H4. auto. }
  assert (cands (last_address b) r rest = cand_region (last_address b) r ++ match rest with [] => [] | r' :: rest => cands (area_end r) r' rest end) as Hcs by by destruct rest.
  destruct (cand_step (last_address b) r Har Hl) as [[E Hc]|(E & x & Hc & Hx & Hxe & Hxr)].
  - rewrite (proj2 (Z.eqb_eq _ _) E). cbn [mbind outcome_bind]. unfold increment_index. rewrite H1, Hm. cbn [mbind outcome_bind unwrap].
    rewrite H3. replace (index b + 1)%nat with (S (index b)) by lia. pose proof (first_available_filter (drop (S (index b)) areas) (S (index b))) as Hfa.
    rewrite <- Hre in Hfa. rewrite Hc in Hcs. cbn [app] in Hcs. destruct rest as [|r' rest].
    + rewrite Hcs, Hfa. done.
    + destruct Hfa as (j & Hj1 & Hj2 & Hj3). rewrite Hj1. cbn [mbind outcome_bind unwrap result_ok fst snd].
      apply Forall_cons in Hrest as [Hr' Hrest]. rewrite Hcs in Hlen |- *. rewrite E in Hlen |- *.
      set (b2 := mkBpa _ _ _ _ _). assert (last_address b2 = last_address b) as Hl2 by done.
      assert (in_region b2 r' rest) as Hin2.
      { exists areas. split; [done|]. rewrite lookup_drop in Hj2. split; [done|]. split; [by right|]. rewrite <- Hj3, drop_drop. cbn. do 2 f_equal. lia. }
      specialize (IH b2 r' rest). rewrite Hl2, <- E in IH. rewrite <- E in Hlen |- *. cbn [length] in Hlen.
      destruct (first_free f (cands (area_end r) r' rest)) as [[x l]|].
      * destruct IH as (b' & q' & rest' & G1 & G2 & G3 & G4 & G5 & G6 & G7); [..|]; try done.
        { by apply (decides_same f b). }
        { by rewrite E. } { lia. }
        exists b', q', rest'. rewrite G5, G6. cbn. rewrite H2. destruct G7 as (G7 & G8 & G9 & G10 & G11). split_and!; try done; cbn [length]; lia.
      * apply IH; try done.
        { by apply (decides_same f b). }
        { by rewrite E. } { lia. }
  - rewrite (proj2 (Z.eqb_neq _ _) E). cbn [mbind outcome_bind]. rewrite <- Hxe. destruct Har as (A1 & A2 & A3 & A4).
    assert (decides f (set_last x b1)) as Hf1 by by apply (decides_same f b). rewrite (Hf1 x) by lia. cbn [mbind outcome_bind].
    rewrite Hc in Hcs. assert (cands x r rest = cand_region x r ++ match rest with [] => [] | r' :: rest => cands (area_end r) r' rest end) as Hcs' by by destruct rest.
    cbn [app] in Hcs. rewrite <- Hcs' in Hcs. rewrite Hcs in Hlen |- *. cbn [length first_free] in Hlen |- *.
    destruct (f x) eqn:Efx.
    + exists (set_last x b1), r, rest. cbn. rewrite H1, H2. split; [done|]. split; [apply Hin1|]. split; [done|]. do 5 (split; [done|]). split; [lia|]. split; [done|lia].
    + specialize (IH (set_last x b1) r rest Hf1 (Hin1 x)). cbn [last_address set_last] in IH.
      destruct (first_free f (cands x r rest)) as [[y l]|].
      * destruct IH as (b' & q' & rest' & G1 & G2 & G3 & G4 & G5 & G6 & G7); [done|done|done|lia|].
        exists b', q', rest'. rewrite G5, G6. cbn. by rewrite H1, H2.
      * apply IH; [done|done|done|lia].
Qed.

(** [k] frames one after the other. *)
Fixpoint alloc_many (k fuel : nat) (b : BasicPhysAllocator) : outcome (option (list Z * BasicPhysAllocator)) :=
  match k with
  | O => Done (Some ([], b))
  | S k =>
      r ← alloc_as_u64 fuel b;
      match r with
      | None => Done None
      | Some (x, b) =>
          r ← alloc_many k fuel b;
          match r with None => Done None | Some (l, b) => Done (Some (x :: l, b)) end
      end
  end.

Lemma first_free_filter f l :
  match first_free f l with
  | None => List.filter f l = []
  | Some (x, l') => List.filter f l = x :: List.filter f l' /\ (length l' < length l)%nat
  end.
Proof.
  induction l as [|a l IH]; [done|]. cbn. destruct (f a); [split; [done|lia]|]. destruct (first_free f l) as [[x l']|]; [|done].
  destruct IH as [IH1 IH2]. split; [done|lia].
Qed.

Lemma last_default {A} (x d : A) l : List.last (x :: l) d = List.last l x.
Proof. revert x d. induction l as [|y l IH]; intros x d; [done|]. change (List.last (x :: y :: l) d) with (List.last (y :: l) d). by rewrite !IH. Qed.

Lemma alloc_many_queue f k fuel b r rest :
  decides f b -> in_region b r rest -> area_aligned r -> Forall area_aligned rest -> page_aligned (last_address b) -> 0 <= last_address b ->
  (length (cands (last_address b) r rest) + length rest < fuel)%nat -> (k <= length (List.filter f (cands (last_address b) r rest)))%nat ->
  exists b', alloc_many k fuel b = Done (Some (take k (List.filter f (cands (last_address b) r rest)), b')) /\
    boot_info b' = boot_info b /\ mbi_region b' = mbi_region b /\
    last_address b' = List.last (take k (List.filter f (cands (last_address b) r rest))) (last_address b).
Proof using AL.
  revert b r rest. induction k as [|k IH]; intros b r rest Hf Hin Har Hrest Hl H0 Hfuel Hk.
  { exists b. done. }
  pose proof (alloc_queue f fuel b r rest Hf Hin Har Hrest Hl Hfuel) as Hq. pose proof (first_free_filter f (cands (last_address b) r rest)) as Hff.
  cbn [alloc_many]. destruct (first_free f _) as [[x l]|]; [|rewrite Hff in Hk; cbn in Hk; lia]. destruct Hff as [Hff Hlen].
  destruct Hq as (b1 & r1 & rest1 & -> & Hin1 & Har1 & Hrest1 & G1 & G2 & G3 & G4 & G5 & G6 & G7). rewrite Hff in Hk |- *. cbn [length take] in Hk |- *.
  cbn [mbind outcome_bind]. rewrite <- G6, <- G3 in *.
  destruct (IH b1 r1 rest1) as (b' & -> & K1 & K2 & K3); try done; try lia.
  { by apply (decides_same f b). }
  cbn [mbind outcome_bind]. exists b'. split; [by rewrite G3|]. rewrite K1, K2, K3. split; [done|]. split; [done|].
  by rewrite last_default.
Qed.

(** *** Freshness *)

Lemma pages_incl_sorted a b x : x < a -> StronglySorted Z.lt (x :: pages_incl a b) /\ Forall (fun y => a <= y <= Z.max a b) (pages_incl a b).
Proof.
  intros Hx. unfold pages_incl. set (n := Z.to_nat ((b - a) / 4096 + 1)).
  assert (forall m k, StronglySorted Z.lt ((fun i => a + 4096 * Z.of_nat i) <$> seq k m)) as Hs.
  { induction m as [|m IH]; intros k; [constructor|]. cbn [seq fmap list_fmap]. constructor; [apply IH|].
    apply Forall_fmap, Forall_forall. intros i Hi%elem_of_seq. cbn. lia. }
  split.
  - constructor; [apply Hs|]. apply Forall_fmap, Forall_forall. intros i _. cbn. lia.
  - apply Forall_fmap, Forall_forall. intros i Hi%elem_of_seq. cbn. subst n. pose proof (Z.mul_div_le (b - a) 4096 ltac:(lia)). lia.
Qed.

(** Regions in ascending order. *)
Definition ascending (l : list MemoryArea) : Prop := StronglySorted (fun a b => area_end a <= area_start b) l.

Lemma ascending_next l i a b : ascending l -> l !! i = Some a -> l !! S i = Some b -> area_end a <= area_start b.
Proof.
  intros Hl. revert i. induction Hl as [|x l _ IH Hall]; intros [|i] Ha Hb; try done; [|by apply (IH i)].
  injection Ha as ->. destruct l as [|y l]; [done|]. injection Hb as ->. by apply Forall_cons in Hall as [? _].
Qed.

Lemma cands_sorted last r rest :
  area_aligned r -> Forall area_aligned rest -> ascending (r :: rest) -> page_aligned last -> last <= area_end r ->
  StronglySorted Z.lt (last :: cands last r rest).
Proof.
  revert last r. induction rest as [|r' rest IH]; intros last r Har Hrest Hasc Hl Hle.
  all: assert (StronglySorted Z.lt (last :: cand_region last r) /\ Forall (fun y => y <= area_end r) (cand_region last r)) as [H1 H2].
  1, 3: destruct Har as (A1 & A2 & A3 & A4); unfold cand_region, contains_addr; cbn [fst snd]; destruct (Z.eqb_spec (area_end r) last);
    [split; repeat constructor|]; destruct (Z.leb_spec (area_start r) last); [rewrite (proj2 (Z.ltb_lt _ _)) by lia|]; cbn [andb];
    (match goal with |- context [pages_incl ?a ?b] => destruct (pages_incl_sorted a b last ltac:(lia)) as [P1 P2] end;
     split; [done|]; apply (Forall_impl _ _ _ P2); intros y Hy; cbn in Hy).
  1, 3: unfold page_aligned in *; pose proof (Z.div_mod last 4096 ltac:(lia)); pose proof (Z.div_mod (area_end r) 4096 ltac:(lia)); lia.
  1, 2: lia.
  - cbn [cands]. by rewrite app_nil_r.
  - cbn [cands]. apply Forall_cons in Hrest as [Hr' Hrest]. inversion Hasc as [|? ? Hasc' Hall]; subst. apply Forall_cons in Hall as [Hrr' _].
    destruct Hr' as (B1 & B2 & B3 & B4). destruct Har as (A1 & A2 & A3 & A4).
    assert (StronglySorted Z.lt (area_end r :: cands (area_end r) r' rest)) as H3 by (apply IH; try done; lia).
    change (last :: cand_region last r ++ cands (area_end r) r' rest) with ((last :: cand_region last r) ++ cands (area_end r) r' rest).
    apply StronglySorted_app_iff. inversion H3 as [|? ? S1 F1]; subst. split; [done|]. split; [done|].
    intros x y Hx Hy. rewrite Forall_forall in F1. specialize (F1 y Hy). apply elem_of_cons in Hx as [->|Hx]; [lia|].
    rewrite Forall_forall in H2. specialize (H2 x Hx). lia.
Qed.

End AllocLaws.

(** ** The regions the kernel sees *)

Definition up (a : Z) : Z := a + (- a) mod 4096.
Definition down (a : Z) : Z := a - a mod 4096.
Definition inside (r : span_range) (x : Z) : Prop := r.1 <= x < r.2.

Lemma up_spec a : a <= up a < a + 4096 /\ page_aligned (up a).
Proof.
  unfold up, page_aligned. pose proof (Z.mod_pos_bound (- a) 4096 ltac:(lia)). split; [lia|].
  rewrite Z.add_mod, Z.mod_mod, <- Z.add_mod, Z.add_opp_diag_r by lia. done.
Qed.

Lemma down_spec a : a - 4096 < down a <= a /\ page_aligned (down a).
Proof.
  unfold down, page_aligned. pose proof (Z.mod_pos_bound a 4096 ltac:(lia)). split; [lia|].
  rewrite Zminus_mod_idemp_r, Z.sub_diag. done.
Qed.

Lemma aligned_le a b : page_aligned a -> page_aligned b -> a < b -> a + 4096 <= b.
Proof. unfold page_aligned. intros Ha Hb Hlt. pose proof (Z.div_mod a 4096 ltac:(lia)). pose proof (Z.div_mod b 4096 ltac:(lia)). lia. Qed.

Lemma up_aligned a : page_aligned a -> up a = a.
Proof. intros Ha. destruct (up_spec a) as [H1 H2]. destruct (decide (up a = a)); [done|]. pose proof (aligned_le a (up a) Ha H2 ltac:(lia)). lia. Qed.

Lemma up_le a b : page_aligned b -> a <= b -> up a <= b.
Proof.
  intros Hb Hle. destruct (up_spec a) as [H1 H2]. destruct (decide (up a <= b)); [done|]. pose proof (aligned_le b (up a) Hb H2 ltac:(lia)). lia.
Qed.

Lemma up_mono a b : a <= b -> up a <= up b.
Proof. intros Hle. apply up_le; [apply up_spec|]. pose proof (up_spec b). lia. Qed.

Section IterLaws.
Context `{AO : AlignOps} {AL : AlignLaws} `{RO : RangeOps} {RL : RangeLaws}.

(** [cmp_range] cuts the range at the first boundary of the other one and says on which side the
    piece lies. *)
Lemma cmp_range_spec m c :
  m.1 < m.2 -> c.1 < c.2 ->
  exists e ty, cmp_range m c = Done ((m.1, e), ty) /\ m.1 < e <= m.2 /\
    (ty = Usable /\ (forall x, inside (m.1, e) x -> ~ inside c x) \/ ty = Bootloader /\ (forall x, inside (m.1, e) x -> inside c x)).
Proof using RL.
  intros Hm Hc. pose proof (arrangement_spec m c Hm Hc) as Ha. unfold cmp_range, inside. destruct m as [m1 m2], c as [c1 c2]. cbn [fst snd] in *.
  destruct (arrangement _ _) as [| |[]|[]|[]|[]| |]; try done.
  all: try (eexists _, _; split; [reflexivity|]; split; [lia|]; first [left; split; [done|]; intros x Hx; lia | right; split; [done|]; intros x Hx; lia]).
  injection Ha as -> ->. eexists _, _. split; [done|]. split; [lia|]. right. split; [done|]. intros x Hx. lia.
Qed.

Definition section_ok (i : ElfSection) : Prop := 0 <= sec_start i <= sec_end i /\ sec_end i < 2 ^ 63.
Definition module_ok (i : Module_) : Prop := 0 <= mod_start i /\ mod_end i < 2 ^ 63 /\ up (mod_start i) < down (mod_end i).

(** The page ranges that are compared with. *)
Definition section_range (i : ElfSection) : span_range := (down (sec_start i), up (sec_end i)).
Definition module_range (i : Module_) : span_range := (up (mod_start i), down (mod_end i)).

(** A piece from the start of the range, wholly outside or wholly inside of the given ranges. *)
Definition piece (rs : list span_range) (r : span_range) (o : outcome (span_range * MemoryRegionType)) : Prop :=
  exists e ty, o = Done ((r.1, e), ty) /\ r.1 < e <= r.2 /\
    (ty = Usable /\ (forall x, inside (r.1, e) x -> Forall (fun c => ~ inside c x) rs) \/
     ty = Bootloader /\ (forall x, inside (r.1, e) x -> Exists (fun c => inside c x) rs)).

Lemma align_down_ok a : 0 <= a -> align_down_to a PAGE_SIZE = Done (down a).
Proof using AL. intros Ha. by rewrite align_down_page. Qed.

Lemma align_up_ok a : 0 <= a < 2 ^ 63 -> align_up_to a PAGE_SIZE = Done (up a).
Proof using AL. intros Ha. rewrite align_up_page; [done|lia|]. pose proof (up_spec a) as [? _]. unfold up, PAGE_SIZE in *. lia. Qed.

Lemma occupied_sections_piece l r : r.1 < r.2 -> Forall section_ok l -> piece (section_range <$> l) r (occupied_sections l r).
Proof using AL RL.
  revert r. induction l as [|i l IH]; intros r Hr Hl.
  { exists (r.2), Usable. destruct r. split; [done|]. split; [cbn in *; lia|]. left. split; [done|]. intros x _. constructor. }
  apply Forall_cons in Hl as [[Hi1 Hi2] Hl]. cbn [occupied_sections fmap list_fmap]. rewrite align_down_ok, align_up_ok by lia. cbn [mbind outcome_bind].
  fold (section_range i). destruct (down_spec (sec_start i)) as [D1 D2], (up_spec (sec_end i)) as [U1 U2].
  destruct (Z.eqb_spec (down (sec_start i)) (up (sec_end i))) as [E|E].
  { destruct (IH r Hr Hl) as (e & ty & Heq & He & Hc). exists e, ty. split; [done|]. split; [done|]. destruct Hc as [[-> Hc]|[-> Hc]]; [left|right]; (split; [done|]).
    - intros x Hx. constructor; [|by apply Hc]. unfold inside, section_range. cbn. lia.
    - intros x Hx. apply Exists_cons_tl. by apply Hc. }
  destruct (cmp_range_spec r (section_range i) Hr ltac:(cbn; lia)) as (e & ty & -> & He & Hc). cbn [mbind outcome_bind fst snd].
  destruct Hc as [[-> Hc]|[-> Hc]]; cbn [is_bootloader].
  - destruct (IH (r.1, e) ltac:(cbn; lia) Hl) as (e' & ty & -> & He' & Hc'). exists e', ty. cbn [fst snd] in *. split; [done|]. split; [lia|].
    destruct Hc' as [[-> Hc']|[-> Hc']]; [left|right]; (split; [done|]).
    + intros x Hx. constructor; [|by apply Hc']. apply Hc. unfold inside in *. cbn in *. lia.
    + intros x Hx. apply Exists_cons_tl. by apply Hc'.
  - exists e, Bootloader. split; [done|]. split; [done|]. right. split; [done|]. intros x Hx. apply Exists_cons_hd. by apply Hc.
Qed.

Lemma occupied_modules_piece l r : r.1 < r.2 -> Forall module_ok l -> piece (module_range <$> l) r (occupied_modules l r).
Proof using AL RL.
  revert r. induction l as [|i l IH]; intros r Hr Hl.
  { exists (r.2), Usable. destruct r. split; [done|]. split; [cbn in *; lia|]. left. split; [done|]. intros x _. constructor. }
  apply Forall_cons in Hl as [(Hi1 & Hi2 & Hi3) Hl]. cbn [occupied_modules fmap list_fmap].
  destruct (up_spec (mod_start i)) as [U1 _], (down_spec (mod_end i)) as [D1 _].
  rewrite align_down_ok, align_up_ok by lia. cbn [mbind outcome_bind]. fold (module_range i).
  destruct (cmp_range_spec r (module_range i) Hr ltac:(cbn; lia)) as (e & ty & -> & He & Hc). cbn [mbind outcome_bind fst snd].
  destruct Hc as [[-> Hc]|[-> Hc]]; cbn [is_bootloader].
  - destruct (IH (r.1, e) ltac:(cbn; lia) Hl) as (e' & ty & -> & He' & Hc'). exists e', ty. cbn [fst snd] in *. split; [done|]. split; [lia|].
    destruct Hc' as [[-> Hc']|[-> Hc']]; [left|right]; (split; [done|]).
    + intros x Hx. constructor; [|by apply Hc']. apply Hc. unfold inside in *. cbn in *. lia.
    + intros x Hx. apply Exists_cons_tl. by apply Hc'.
  - exists e, Bootloader. split; [done|]. split; [done|]. right. split; [done|]. intros x Hx. apply Exists_cons_hd. by apply Hc.
Qed.

(** The page ranges that [address_occupied] compares with. *)
Definition compared (p : Multiboot2PmMemoryState) : list span_range :=
  pm_mbi_region p :: (section_range <$> default [] (elf_sections_tag (pm_boot_info p))) ++ (module_range <$> module_tags (pm_boot_info p)).

Record boot_ok (p : Multiboot2PmMemoryState) : Prop := {
  ok_mbi : (pm_mbi_region p).1 < (pm_mbi_region p).2;
  ok_sections : Forall section_ok (default [] (elf_sections_tag (pm_boot_info p)));
  ok_modules : Forall module_ok (module_tags (pm_boot_info p));
}.

Lemma address_occupied_piece p r : boot_ok p -> r.1 < r.2 -> piece (compared p) r (address_occupied p r).
Proof using AL RL.
  intros [Hmb Hse Hmo] Hr. unfold address_occupied.
  destruct (cmp_range_spec r (pm_mbi_region p) Hr Hmb) as (e & ty & -> & He & Hc). cbn [mbind outcome_bind fst snd].
  destruct Hc as [[-> Hc]|[-> Hc]]; cbn [is_bootloader].
  2: { exists e, Bootloader. split; [done|]. split; [done|]. right. split; [done|]. intros x Hx. apply Exists_cons_hd. by apply Hc. }
  destruct (occupied_sections_piece _ (r.1, e) ltac:(cbn; lia) Hse) as (e1 & ty & -> & He1 & Hc1). cbn [mbind outcome_bind fst snd] in *.
  destruct Hc1 as [[-> Hc1]|[-> Hc1]]; cbn [is_bootloader].
  2: { exists e1, Bootloader. split; [done|]. split; [lia|]. right. split; [done|]. intros x Hx. apply Exists_cons_tl, Exists_app. left. by apply Hc1. }
  destruct (occupied_modules_piece _ (r.1, e1) ltac:(cbn; lia) Hmo) as (e2 & ty & -> & He2 & Hc2). cbn [mbind outcome_bind fst snd] in *.
  destruct Hc2 as [[-> Hc2]|[-> Hc2]]; cbn [is_bootloader].
  2: { exists e2, Bootloader. split; [done|]. split; [lia|]. right. split; [done|]. intros x Hx. apply Exists_cons_tl, Exists_app. right. by apply Hc2. }
  destruct (cmp_range_spec (r.1, e2) (pm_mbi_region p) ltac:(cbn; lia) Hmb) as (e3 & ty & -> & He3 & Hc3). cbn [fst snd] in *.
  exists e3, ty. split; [done|]. split; [lia|]. destruct Hc3 as [[-> Hc3]|[-> Hc3]]; [left|right]; (split; [done|]); intros x Hx.
  - constructor; [by apply Hc3|]. apply Forall_app. unfold inside in *. cbn [fst snd] in *. split; [apply Hc1; lia|apply Hc2; lia].
  - apply Exists_cons_hd. by apply Hc3.
Qed.

(** Pieces of page ranges are page ranges. *)
Definition pages_range (r : span_range) : Prop := page_aligned r.1 /\ page_aligned r.2.

Lemma cmp_range_pages m c r ty : pages_range m -> pages_range c -> cmp_range m c = Done (r, ty) -> pages_range r.
Proof.
  intros [M1 M2] [C1 C2]. unfold cmp_range, pages_range. destruct (arrangement m c) as [| |[]|[]|[]|[]| |]; intros [= <- <-]; done.
Qed.

Lemma sections_pages l r r' ty : Forall section_ok l -> pages_range r -> occupied_sections l r = Done (r', ty) -> pages_range r'.
Proof using AL.
  revert r. induction l as [|i l IH]; intros r Hl Hr; [by intros [= <- <-]|]. apply Forall_cons in Hl as [[Hi1 Hi2] Hl].
  cbn [occupied_sections]. rewrite align_down_ok, align_up_ok by lia. cbn [mbind outcome_bind]. destruct (_ =? _); [by apply IH|].
  destruct (cmp_range r _) as [[r1 ty1]|] eqn:E; [|done]. cbn [mbind outcome_bind fst snd].
  apply cmp_range_pages in E; [|done|split; [apply down_spec|apply up_spec]]. destruct (is_bootloader ty1); [by intros [= <- <-]|by apply IH].
Qed.

Lemma modules_pages l r r' ty : Forall module_ok l -> pages_range r -> occupied_modules l r = Done (r', ty) -> pages_range r'.
Proof using AL.
  revert r. induction l as [|i l IH]; intros r Hl Hr; [by intros [= <- <-]|]. apply Forall_cons in Hl as [(Hi1 & Hi2 & Hi3) Hl].
  destruct (up_spec (mod_start i)) as [U1 U2], (down_spec (mod_end i)) as [D1 D2].
  cbn [occupied_modules]. rewrite align_down_ok, align_up_ok by lia. cbn [mbind outcome_bind].
  destruct (cmp_range r _) as [[r1 ty1]|] eqn:E; [|done]. cbn [mbind outcome_bind fst snd].
  apply cmp_range_pages in E; [|done|done]. destruct (is_bootloader ty1); [by intros [= <- <-]|by apply IH].
Qed.

Lemma occupied_pages p r r' ty :
  boot_ok p -> pages_range (pm_mbi_region p) -> pages_range r -> address_occupied p r = Done (r', ty) -> pages_range r'.
Proof using AL.
  intros [Hmb Hse Hmo] Hpm Hr. unfold address_occupied. destruct (cmp_range r _) as [[r1 ty1]|] eqn:E1; [|done]. cbn [mbind outcome_bind fst snd].
  apply cmp_range_pages in E1; [|done|done]. destruct (is_bootloader ty1); [by intros [= <- <-]|].
  destruct (occupied_sections _ r1) as [[r2 ty2]|] eqn:E2; [|done]. cbn [mbind outcome_bind fst snd]. apply sections_pages in E2; [|done|done].
  destruct (is_bootloader ty2); [by intros [= <- <-]|].
  destruct (occupied_modules _ r2) as [[r3 ty3]|] eqn:E3; [|done]. cbn [mbind outcome_bind fst snd]. apply modules_pages in E3; [|done|done].
  destruct (is_bootloader ty3); [by intros [= <- <-]|]. by apply cmp_range_pages.
Qed.

(** *** The iterator *)

Definition area_ok (a : MemoryArea) : Prop :=
  0 <= area_start a < area_end a /\ area_end a < 2 ^ 62 /\ (is_available a = true -> up (area_start a) < down (area_end a)).

Record map_ok (p : Multiboot2PmMemoryState) (areas : list MemoryArea) : Prop := {
  map_boot : boot_ok p;
  map_mbi : pages_range (pm_mbi_region p);
  map_areas : memory_map_tag (pm_boot_info p) = Some areas;
  map_each : Forall area_ok areas;
  map_sorted : ascending areas;
  map_low : low_boundary p = 0;
  map_used : page_aligned (used_boundary p) /\ 0 <= used_boundary p < 2 ^ 63;
}.

(** The iterator is before the area of its index or inside of it, and past the boundary once it
    has hit it. *)
Record iter_ok (p : Multiboot2PmMemoryState) (areas : list MemoryArea) (it : PmIter) : Prop := {
  it_next : page_aligned (next_addr it) /\ 0 <= next_addr it < 2 ^ 63;
  it_pos : forall a, areas !! last_index it = Some a -> next_addr it <= up (area_start a) \/ is_available a = true /\ next_addr it <= down (area_end a);
  it_hit : hit_boundary it = true -> hit_low_boundary it = true /\ used_boundary p <= next_addr it;
  it_low : hit_low_boundary it = false -> (forall j b, (j < last_index it)%nat -> areas !! j = Some b -> is_available b = false) /\
    forall a, areas !! last_index it = Some a -> next_addr it <= up (area_start a);
  it_counter : low_boundary_counter it = 0;
}.

(** The first and the last page of a module, when the module does not fill them. *)
Definition module_edge (i : Module_) (x : Z) : Prop := x < up (mod_start i) \/ down (mod_end i) <= x.

(** What is promised of a region: memory that is called usable is memory, was not handed out before,
    and holds no byte of the boot information, of a section, or of a module other than in the pages
    that the module shares with what lies around it. *)
Definition region_free (p : Multiboot2PmMemoryState) (areas : list MemoryArea) (m : MemoryRegion) : Prop :=
  ty m = Usable -> forall x, phys_addr m <= x < phys_addr m + size m ->
    used_boundary p <= x /\ ~ inside (pm_mbi_region p) x /\
    (forall i, i ∈ default [] (elf_sections_tag (pm_boot_info p)) -> ~ inside (sec_start i, sec_end i) x) /\
    (forall i, i ∈ module_tags (pm_boot_info p) -> inside (mod_start i, mod_end i) x -> module_edge i x) /\
    exists a, a ∈ areas /\ is_available a = true /\ area_start a <= x < area_end a.

(** Staying clear of the ranges that are compared with is enough. *)
Lemma compared_clear p x :
  Forall (fun c => ~ inside c x) (compared p) ->
  ~ inside (pm_mbi_region p) x /\
  (forall i, i ∈ default [] (elf_sections_tag (pm_boot_info p)) -> ~ inside (sec_start i, sec_end i) x) /\
  (forall i, i ∈ module_tags (pm_boot_info p) -> inside (mod_start i, mod_end i) x -> module_edge i x).
Proof.
  intros [Hm [Hs Ho]%Forall_app]%Forall_cons. rewrite Forall_fmap, Forall_forall in Hs. rewrite Forall_fmap, Forall_forall in Ho. split; [done|]. split.
  - intros i Hi Hx. apply (Hs i Hi). pose proof (down_spec (sec_start i)). pose proof (up_spec (sec_end i)). unfold inside in *. cbn in *. lia.
  - intros i Hi Hx. specialize (Ho i Hi). unfold module_edge, inside in *. cbn in *. lia.
Qed.

(** A measure of what is left to iterate over. *)
Definition iter_left (areas : list MemoryArea) (it : PmIter) : Z :=
  (Z.of_nat (length areas) - Z.of_nat (last_index it)) * 2 ^ 67 + (2 ^ 63 - next_addr it) * 4 +
  (if hit_boundary it then 0 else 1) + (if hit_low_boundary it then 0 else 1).

(** The iterator moves upwards, and a usable region lies between where it was and where it is. *)
Definition moves (it : PmIter) (m : MemoryRegion) (it' : PmIter) : Prop :=
  next_addr it <= next_addr it' /\ (ty m = Usable -> next_addr it <= phys_addr m /\ 0 <= size m /\ phys_addr m + size m <= next_addr it').

(** The pages that hold some of the boot information, of a section or of a module. *)
Definition module_whole (i : Module_) : span_range := (down (mod_start i), up (mod_end i)).
Definition taken (p : Multiboot2PmMemoryState) : list span_range :=
  pm_mbi_region p :: (section_range <$> default [] (elf_sections_tag (pm_boot_info p))) ++ (module_whole <$> module_tags (pm_boot_info p)).

(** The first page of the first available area is free. *)
Definition low_clear (p : Multiboot2PmMemoryState) (areas : list MemoryArea) : Prop :=
  forall i a, first_available 0 areas = Some (i, a) -> Forall (fun c => ~ inside c (up (area_start a))) (taken p).

Lemma taken_compared p x : Forall (fun c => ~ inside c x) (taken p) -> Forall (fun c => ~ inside c x) (compared p).
Proof.
  intros [Hm [Hs Ho]%Forall_app]%Forall_cons. constructor; [done|]. apply Forall_app. split; [done|].
  rewrite Forall_fmap in Ho |- *. apply (Forall_impl _ _ _ Ho). intros i Hi Hx. apply Hi. unfold inside in *. cbn in *.
  pose proof (up_spec (mod_start i)). pose proof (down_spec (mod_start i)). pose proof (up_spec (mod_end i)). pose proof (down_spec (mod_end i)). lia.
Qed.

Lemma first_available_at l i k a :
  l !! k = Some a -> is_available a = true -> (forall j b, (j < k)%nat -> l !! j = Some b -> is_available b = false) ->
  first_available i l = Some ((i + k)%nat, a).
Proof.
  revert i k. induction l as [|x l IH]; intros i [|k] Hk Ha Hn; try done.
  - injection Hk as ->. cbn. rewrite Ha. by rewrite Nat.add_0_r.
  - cbn. rewrite (Hn 0%nat x) by (done || lia). rewrite (IH (S i) k Hk Ha); [by rewrite Nat.add_succ_r|].
    intros j b Hj Hb. apply (Hn (S j)); [lia|done].
Qed.

(** The area that [next] looks at: the one of the index, or the one after it when that is used up. *)
Lemma iter_area p areas it a0 :
  map_ok p areas -> iter_ok p areas it -> areas !! last_index it = Some a0 ->
  let li := if down (area_end a0) =? next_addr it then S (last_index it) else last_index it in
  (last_index it <= li)%nat /\
  forall a, areas !! li = Some a -> area_ok a /\ (next_addr it <= up (area_start a) \/ is_available a = true /\ next_addr it < down (area_end a)) /\
    (hit_low_boundary it = false -> next_addr it <= up (area_start a) /\ forall j b, (j < li)%nat -> areas !! j = Some b -> is_available b = false).
Proof.
  intros Hm Hit Ha0. cbv zeta. split; [destruct (_ =? _); lia|]. intros a Ha. destruct Hm as [_ _ _ Hall Hasc _ _]. destruct Hit as [_ Hpos _ Hlow _].
  split; [by apply (Forall_lookup_1 _ _ _ _ Hall Ha)|]. pose proof (Forall_lookup_1 _ _ _ _ Hall Ha0) as (O1 & O2 & O3).
  destruct (Z.eqb_spec (down (area_end a0)) (next_addr it)) as [E|E].
  - assert (area_end a0 <= area_start a) as Hle.
    { by apply (ascending_next areas (last_index it)). }
    destruct (down_spec (area_end a0)) as [D1 _], (up_spec (area_start a)) as [U1 _].
    split; [left; lia|]. intros Hl. split; [lia|]. destruct (Hlow Hl) as [H1 H2]. intros j b Hj Hb.
    destruct (decide (j = last_index it)) as [->|Hne]; [|apply (H1 j); [lia|done]].
    rewrite Ha0 in Hb. injection Hb as <-. specialize (H2 _ Ha0). destruct (is_available a0) eqn:Ea; [|done]. specialize (O3 eq_refl). lia.
  - rewrite Ha0 in Ha. injection Ha as <-. specialize (Hpos _ Ha0). split.
    + destruct Hpos as [?|[? ?]]; [by left|]. right. split; [done|lia].
    + intros Hl. destruct (Hlow Hl) as [H1 H2]. split; [by apply H2|done].
Qed.

(** Areas that are not available are reported whole. *)
Lemma pm_next_unusable p areas it a li :
  map_ok p areas -> iter_ok p areas it -> (last_index it <= li)%nat -> areas !! li = Some a -> is_available a = false ->
  next_addr it <= up (area_start a) -> (hit_low_boundary it = false -> forall j b, (j < li)%nat -> areas !! j = Some b -> is_available b = false) ->
  exists na, align_up_to (match areas !! S li with Some b => area_start b | None => area_end a end) PAGE_SIZE = Done na /\
    let it' := mkPmIter na (S li) (hit_boundary it) (hit_low_boundary it) (low_boundary_counter it) in
    iter_ok p areas it' /\ iter_left areas it' < iter_left areas it /\ next_addr it <= na.
Proof using AL.
  intros Hm Hit Hli Ha Hav Hnx Hlow. destruct Hm as [_ _ _ Hall Hasc _ Hub]. pose proof (Forall_lookup_1 _ _ _ _ Hall Ha) as (A1 & A2 & _).
  pose proof (up_spec (area_start a)) as [U1 _].
  set (q := match areas !! S li with Some b => area_start b | None => area_end a end).
  assert (area_end a <= q < 2 ^ 62) as Hq.
  { unfold q. destruct (areas !! S li) as [b|] eqn:Eb; [|lia]. pose proof (ascending_next _ _ _ _ Hasc Ha Eb). pose proof (Forall_lookup_1 _ _ _ _ Hall Eb) as (B1 & B2 & _). lia. }
  exists (up q). rewrite align_up_ok by lia. split; [done|]. pose proof (up_spec q) as [Q1 Q2]. destruct Hit as [[N1 N2] Hpos Hhit Hlo Hcnt].
  assert (next_addr it <= up q) as Hmono.
  { etransitivity; [exact Hnx|]. apply up_mono. lia. }
  split; [split|split; [|done]].
  - cbn. split; [done|lia].
  - cbn. intros b Hb. left. unfold q. by rewrite Hb.
  - cbn. intros Hh. destruct (Hhit Hh). split; [done|lia].
  - cbn. intros Hl. split; [|intros b Hb; unfold q; by rewrite Hb]. intros j b Hj Hb. destruct (decide (j = li)) as [->|]; [congruence|].
    apply (Hlow Hl j); [lia|done].
  - done.
  - unfold iter_left. cbn. apply lookup_lt_Some in Ha. nia.
Qed.

(** An available area is reported in pieces. *)
Lemma pm_next_available p areas it a li :
  map_ok p areas -> low_clear p areas -> iter_ok p areas it -> (last_index it <= li)%nat -> areas !! li = Some a -> is_available a = true ->
  (next_addr it <= up (area_start a) \/ next_addr it < down (area_end a)) ->
  (hit_low_boundary it = false -> next_addr it <= up (area_start a) /\ forall j b, (j < li)%nat -> areas !! j = Some b -> is_available b = false) ->
  let start := up (Z.max (area_start a) (next_addr it)) in
  start < down (area_end a) /\ next_addr it <= start /\ up (area_start a) <= start /\
  exists e ty, address_occupied p (start, down (area_end a)) = Done ((start, e), ty) /\ start < e <= down (area_end a) /\ page_aligned e /\
    (ty = Usable /\ (forall x, start <= x < e -> Forall (fun c => ~ inside c x) (compared p)) \/ ty = Bootloader) /\
    (hit_low_boundary it = false -> ty = Usable).
Proof using AL RL.
  intros Hm Hclr Hit Hli Ha Hav Hpos Hlow. cbv zeta. destruct Hm as [Hb Hpm _ Hall _ _ _]. pose proof (Forall_lookup_1 _ _ _ _ Hall Ha) as (A1 & A2 & A3).
  specialize (A3 Hav). destruct Hit as [[N1 N2] _ _ _ _]. destruct (down_spec (area_end a)) as [D1 D2], (up_spec (area_start a)) as [U1 U2].
  assert (up (Z.max (area_start a) (next_addr it)) = Z.max (up (area_start a)) (next_addr it)) as Hst.
  { destruct (Z.max_spec (area_start a) (next_addr it)) as [[H1 ->]|[H1 ->]].
    - rewrite (up_aligned (next_addr it)) by done. pose proof (up_le _ _ N1 (Z.lt_le_incl _ _ H1)). lia.
    - pose proof (up_spec (area_start a)). lia. }
  rewrite Hst. set (start := Z.max _ _). assert (start < down (area_end a)) as Hlt by lia. split; [done|]. split; [lia|]. split; [lia|].
  assert (page_aligned start) as Hal by (unfold start; destruct (Z.max_spec (up (area_start a)) (next_addr it)) as [[_ ->]|[_ ->]]; done).
  destruct (address_occupied_piece p (start, down (area_end a)) Hb Hlt) as (e & ty & Heq & He & Hc). cbn [fst snd] in *.
  exists e, ty. split; [done|]. split; [done|]. split.
  { apply occupied_pages in Heq; [by destruct Heq|done|done|done]. }
  split; [destruct Hc as [[-> Hc]|[-> _]]; [left|by right]; split; [done|]; intros x Hx; by apply Hc|].
  intros Hl. destruct (Hlow Hl) as [H1 H2]. pose proof (first_available_at areas 0 li a Ha Hav H2) as Hfa. apply Hclr, taken_compared in Hfa.
  destruct Hc as [[-> _]|[-> Hc]]; [done|]. exfalso. assert (start = up (area_start a)) as Hs by lia.
  specialize (Hc start ltac:(unfold inside; cbn; lia)). rewrite Hs in Hc. apply Exists_exists in Hc as (c & Hin & Hx). rewrite Forall_forall in Hfa. by apply (Hfa c).
Qed.

Lemma pm_next_step p areas it :
  map_ok p areas -> low_clear p areas -> iter_ok p areas it ->
  (exists it', pm_next p it = Done (None, it')) \/
  exists m it', pm_next p it = Done (Some m, it') /\ iter_ok p areas it' /\ region_free p areas m /\ iter_left areas it' < iter_left areas it /\ moves it m it'.
Proof using AL RL.
  intros Hm Hclr Hit. unfold pm_next. rewrite (map_areas _ _ Hm). cbn [mbind outcome_bind unwrap].
  destruct (areas !! last_index it) as [a0|] eqn:Ea0; [|left; by eexists]. pose proof (Forall_lookup_1 _ _ _ _ (map_each _ _ Hm) Ea0) as (O1 & O2 & _).
  rewrite align_down_ok by lia. cbn [mbind outcome_bind]. pose proof (iter_area p areas it a0 Hm Hit Ea0) as Hia. cbv zeta in Hia.
  set (li := if _ =? _ then _ else _) in *. destruct Hia as [Hli Hia]. destruct (areas !! li) as [a|] eqn:Ea; [|left; by eexists].
  destruct (Hia a eq_refl) as ((A1 & A2 & A3) & Hpos & Hlow). right. cbn [next_addr hit_boundary hit_low_boundary low_boundary_counter].
  destruct (is_available a) eqn:Eav.
  2: { rewrite align_down_ok by lia. cbn [mbind outcome_bind]. rewrite (align_up_ok (area_end a)) by lia. cbn [mbind outcome_bind].
       destruct (pm_next_unusable p areas it a li Hm Hit Hli Ea Eav) as (na & -> & H1 & H2 & H3).
       { destruct Hpos as [?|[? _]]; done. } { intros Hl. by destruct (Hlow Hl). }
       cbn [mbind outcome_bind]. eexists _, _. split; [done|]. split; [done|]. split; [intros [=]|]. split; [done|]. split; [done|intros [=]]. }
  destruct (pm_next_available p areas it a li Hm Hclr Hit Hli Ea Eav) as (Hlt & Hge & Hus & e & ty & Heq & He & Hea & Hty & Hty0); [naive_solver|done|].
  destruct Hit as [[N1 N2] Hposit Hhit Hloit Hcnt]. destruct Hm as [_ _ _ _ _ Hlb [Hub1 Hub2]].
  rewrite (align_up_ok (Z.max _ _)), align_down_ok by lia. cbn [mbind outcome_bind]. rewrite Heq. cbn [mbind outcome_bind]. set (start := up (Z.max (area_start a) (next_addr it))) in *.
  rewrite Hlb, Hcnt. destruct (up_spec (Z.max (area_start a) (next_addr it))) as [Hu1 Hu2]. fold start in Hu1, Hu2. destruct (down_spec (area_end a)) as [Hd1 _].
  assert (forall n, (0 <=? (0 ⊕ n)%u64) = true) as Hnn by (intros n; apply Z.leb_le, wrap64_range).
  rewrite Hnn. cbn [andb].
  assert (li < length areas)%nat as Hlen by by eapply lookup_lt_Some.
  destruct (hit_low_boundary it) eqn:Ehl; cbn [negb].
  - assert (forall re ty' hb, start <= re <= down (area_end a) -> page_aligned re -> (next_addr it < re \/ hit_boundary it = false /\ hb = true) ->
      (hb = true -> used_boundary p <= re) -> (hit_boundary it = true -> hb = true) ->
      (ty' = Usable -> ty = Usable /\ re <= e /\ hit_boundary it = true) ->
      iter_ok p areas (mkPmIter re li hb true 0) /\ region_free p areas (mkMemoryRegion start (re ⊖ start)%u64 ty') /\
      iter_left areas (mkPmIter re li hb true 0) < iter_left areas it /\ moves it (mkMemoryRegion start (re ⊖ start)%u64 ty') (mkPmIter re li hb true 0)) as Hfin.
    { intros re ty' hb Hre Hal Hprog Hhb Hhb' Hfree. split; [split; cbn|split; [|split]].
      - split; [done|lia].
      - intros b Hb. rewrite Ea in Hb. injection Hb as <-. right. split; [done|lia].
      - intros ->. split; [done|]. by apply Hhb.
      - done.
      - done.
      - intros Hu x Hx. cbn in Hu, Hx. rewrite wsub_small in Hx by lia. destruct (Hfree Hu) as (-> & Hree & Hh).
        destruct (Hhit Hh) as [_ Hbd]. split; [lia|]. destruct Hty as [[_ Hty]|?]; [|done]. destruct (compared_clear p x) as (K1 & K2 & K3); [apply Hty; lia|].
        do 3 (split; [done|]). exists a. split; [by eapply list_elem_of_lookup_2|]. split; [done|]. lia.
      - unfold iter_left. cbn. rewrite Ehl. destruct Hprog as [Hp|[Hp ->]]; [destruct (hit_boundary it); [rewrite (Hhb' eq_refl)|destruct hb]; nia|rewrite Hp; nia].
      - split; cbn; [lia|]. intros _. rewrite wsub_small by lia. lia. }
    destruct (contains_addr (start, e) (used_boundary p) && negb (hit_boundary it)) eqn:Ec.
    + apply andb_true_iff in Ec as [Ec Enb]. apply negb_true_iff in Enb. unfold contains_addr in Ec. cbn [fst snd] in Ec. bool_to_prop.
      eexists _, _. split; [done|]. apply Hfin; try done; [lia|by right].
    + destruct ty as [| |n|n]; cbn [is_usable_type]; try (exfalso; destruct Hty as [[? _]|?]; done).
      * destruct (hit_boundary it) eqn:Ehb; cbn [mbind outcome_bind]; (eexists _, _; split; [done|]); apply Hfin; try done; try lia.
      * cbn [mbind outcome_bind]. eexists _, _. split; [done|]. apply Hfin; try done; try lia. intros Hb. destruct (Hhit Hb). lia.
  - rewrite (Hty0 eq_refl). cbn [is_usable_type assert_that mbind outcome_bind]. change (0 ⊖ 0)%u64 with 0. change (0 ⊗ PAGE_SIZE)%u64 with 0.
    rewrite (wadd_small start 0) by lia. rewrite Z.add_0_r. eexists _, _. split; [done|].
    destruct (hit_boundary it) eqn:Ehb; [by destruct (Hhit eq_refl)|]. split; [split; cbn|split; [|split]].
    + split; [done|lia].
    + intros b Hb. rewrite Ea in Hb. injection Hb as <-. right. split; [done|lia].
    + done.
    + done.
    + done.
    + intros _ x Hx. cbn in Hx. rewrite wsub_small in Hx by lia. lia.
    + unfold iter_left. cbn. rewrite Ehl, Ehb. nia.
    + split; cbn; [lia|]. intros _. rewrite wsub_small by lia. lia.
Qed.

Lemma pm_iter_ok p areas : map_ok p areas -> iter_ok p areas pm_iter.
Proof.
  intros Hm. split; cbn; [split; [done|lia]| |done| |done].
  - intros a Ha. left. pose proof (Forall_lookup_1 _ _ _ _ (map_each _ _ Hm) Ha) as (A1 & _). pose proof (up_spec (area_start a)). lia.
  - intros _. split; [lia|]. intros a Ha. pose proof (Forall_lookup_1 _ _ _ _ (map_each _ _ Hm) Ha) as (A1 & _). pose proof (up_spec (area_start a)). lia.
Qed.

Lemma iter_left_pos p areas it a : iter_ok p areas it -> areas !! last_index it = Some a -> 0 < iter_left areas it.
Proof.
  intros [[_ N] _ _ _ _] Ha. apply lookup_lt_Some in Ha. unfold iter_left. destruct (hit_boundary it), (hit_low_boundary it); nia.
Qed.

Definition usable (m : MemoryRegion) : bool := is_usable_type (ty m).

(** One region ends before the other begins. *)
Definition before (m m' : MemoryRegion) : Prop := phys_addr m + size m <= phys_addr m'.

(** Iterating ends, without a panic, and the regions are free, in order and apart. *)
Lemma pm_collect_run p areas it :
  map_ok p areas -> low_clear p areas -> iter_ok p areas it ->
  exists n l it', (forall k, (n <= k)%nat -> pm_collect k p it = Done (l, it')) /\ Forall (region_free p areas) l /\
    StronglySorted before (List.filter usable l) /\ Forall (fun m => next_addr it <= phys_addr m) (List.filter usable l).
Proof using AL RL.
  intros Hm Hclr. remember (Z.to_nat (iter_left areas it)) as n eqn:En. revert it En. induction n as [n IH] using (well_founded_induction lt_wf).
  intros it -> Hit. destruct (pm_next_step p areas it Hm Hclr Hit) as [[it' Hn]|(m & it' & Hn & Hit' & Hfree & Hlt & Hmv1 & Hmv2)].
  { exists 1%nat, [], it'. split; [|repeat constructor]. intros [|k] Hk; [lia|]. cbn [pm_collect]. by rewrite Hn. }
  destruct (areas !! last_index it) as [a|] eqn:Ea.
  2: { unfold pm_next in Hn. rewrite (map_areas _ _ Hm) in Hn. cbn [mbind outcome_bind unwrap] in Hn. by rewrite Ea in Hn. }
  pose proof (iter_left_pos p areas it a Hit Ea) as H0.
  destruct (IH (Z.to_nat (iter_left areas it')) ltac:(lia) it' eq_refl Hit') as (n & l & it2 & Hl & Hf & Hs & Ha).
  exists (S n), (m :: l), it2. split; [|split; [by constructor|]].
  { intros [|k] Hk; [lia|]. cbn [pm_collect]. rewrite Hn. cbn [mbind outcome_bind]. by rewrite Hl by lia. }
  cbn [List.filter]. destruct (usable m) eqn:Eu.
  - assert (ty m = Usable) as Hty by (unfold usable in Eu; by destruct (ty m)). destruct (Hmv2 Hty) as (M1 & M2 & M3). split; constructor; try done.
    + apply (Forall_impl _ _ _ Ha). intros m' Hm'. unfold before. lia.
    + apply (Forall_impl _ _ _ Ha). intros m' Hm'. cbn in *. lia.
  - split; [done|]. apply (Forall_impl _ _ _ Ha). intros m' Hm'. cbn in *. lia.
Qed.

(** C3. The memory map that the kernel builds its frame allocator from is sound.  Iterating over it
    ends, without a panic, and of the memory it calls usable: it is memory, it lies at or above
    everything that the boot loader has handed out, no byte of it belongs to the boot information
    or to an ELF section, none belongs to a module unless the module fills its first or last page
    only partly and the byte lies in that page (such pages are wrongly called usable), and no two
    usable regions overlap.  The areas of the map ascend and do not overlap, each available one
    contains a whole page, every module contains a whole page, and the first page of the first
    available area holds none of what the boot loader loaded: otherwise the iterator panics. *)
Theorem memory_map_sound p areas :
  map_ok p areas -> low_clear p areas ->
  exists n l it, (forall k, (n <= k)%nat -> pm_collect k p pm_iter = Done (l, it)) /\
    Forall (region_free p areas) l /\ StronglySorted before (List.filter usable l).
Proof using AL RL.
  intros Hm Hclr. destruct (pm_collect_run p areas pm_iter Hm Hclr (pm_iter_ok p areas Hm)) as (n & l & it & H1 & H2 & H3 & _). by exists n, l, it.
Qed.

End IterLaws.

(** ** From the boot loader to the kernel *)
Section Boot.
Context `{AO : AlignOps} {AL : AlignLaws} `{RO : RangeOps} {RL : RangeLaws}.

(** What the allocator keeps away from. *)
Definition kept (mbi : Mbi) : list span_range :=
  (down (mbi_start mbi), up (mbi_end mbi)) :: (module_whole <$> module_tags mbi) ++ (section_range <$> default [] (elf_sections_tag mbi)).

Definition not_kept (mbi : Mbi) (x : Z) : bool := forallb (fun c => negb (contains_addr c x)) (kept mbi).

Record mbi_ok (mbi : Mbi) (areas : list MemoryArea) : Prop := {
  mbi_bounds : 0 <= mbi_start mbi < mbi_end mbi /\ mbi_end mbi < 2 ^ 63;
  mbi_elf : is_Some (elf_sections_tag mbi);
  mbi_sections : Forall section_ok (default [] (elf_sections_tag mbi));
  mbi_modules : Forall (fun i => 0 <= mod_start i <= mod_end i /\ mod_end i < 2 ^ 63) (module_tags mbi);
  mbi_map : memory_map_tag mbi = Some areas;
  mbi_areas : Forall area_aligned (List.filter is_available areas);
  mbi_sorted : ascending areas;
}.

Lemma clear_of_ok l x :
  Forall (fun q => 0 <= q.1 /\ 0 <= q.2 < 2 ^ 63) l ->
  clear_of l x = Done (forallb (fun c => negb (contains_addr c x)) ((fun q => (down q.1, up q.2)) <$> l)).
Proof using AL.
  induction l as [|[a e] l IH]; [done|]. intros [[H1 H2] Hl]%Forall_cons. cbn [fst snd] in *. cbn [clear_of]. rewrite align_down_ok, align_up_ok by lia.
  cbn [mbind outcome_bind fmap list_fmap forallb fst snd]. destruct (contains_addr _ x); [done|]. by apply IH.
Qed.

(** [cmp_addr] tells which frames are kept. *)
Lemma cmp_addr_ok mbi areas b :
  mbi_ok mbi areas -> boot_info b = mbi -> mbi_region b = (down (mbi_start mbi), up (mbi_end mbi)) -> decides (not_kept mbi) b.
Proof using AL.
  intros [_ [es He] Hs Hm _ _ _] Hb Hr a _. unfold cmp_addr, not_kept, kept. rewrite Hr, Hb. cbn [forallb]. destruct (contains_addr _ a); [done|].
  rewrite He in *. cbn [default from_option id] in *. cbn [negb andb]. rewrite clear_of_ok.
  2: { apply Forall_fmap. apply (Forall_impl _ _ _ Hm). intros i Hi. cbn. lia. }
  cbn [mbind outcome_bind]. rewrite <- list_fmap_compose, forallb_app. unfold module_whole, section_range, compose. cbn [fst snd].
  destruct (forallb _ (_ <$> module_tags mbi)); [|done]. cbn [negb andb unwrap mbind outcome_bind]. rewrite clear_of_ok; [by rewrite <- list_fmap_compose|].
  apply Forall_fmap. apply (Forall_impl _ _ _ Hs). intros i [Hi1 Hi2]. cbn. lia.
Qed.

Lemma filter_ascending l : ascending l -> ascending (List.filter is_available l).
Proof.
  induction 1 as [|a l _ IH Hall]; [constructor|]. cbn. destruct (is_available a); [|done]. constructor; [done|].
  rewrite Forall_forall in Hall |- *. intros x Hx. apply Hall. rewrite list_elem_of_In in Hx |- *. by apply filter_In in Hx as [? _].
Qed.

(** The allocator after [new]. *)
Lemma bpa_new_ok mbi areas r rest :
  mbi_ok mbi areas -> List.filter is_available areas = r :: rest ->
  exists b, bpa_new mbi = Done b /\ boot_info b = mbi /\ mbi_region b = (down (mbi_start mbi), up (mbi_end mbi)) /\ last_address b = 0x1000 /\ in_region b r rest.
Proof using AL.
  intros [Hb [es He] _ _ Hm _ _] Hf. unfold bpa_new. rewrite align_down_ok by lia. cbn [mbind outcome_bind]. rewrite align_up_ok by lia.
  rewrite He, Hm. cbn [mbind outcome_bind unwrap]. pose proof (first_available_filter areas 0) as Hfa. rewrite Hf in Hfa. destruct Hfa as (j & -> & Hj & Hd).
  cbn [mbind outcome_bind unwrap fst snd]. eexists. split; [done|]. do 3 (split; [done|]). exists areas. cbn. auto.
Qed.

(** What the allocator tries and finds free, in order. *)
Definition boot_frames (mbi : Mbi) (areas : list MemoryArea) : list Z :=
  match List.filter is_available areas with [] => [] | r :: rest => List.filter (not_kept mbi) (cands 0x1000 r rest) end.

(** Enough turns of the loop: one for each page and one for each region. *)
Definition boot_fuel (areas : list MemoryArea) : nat :=
  match List.filter is_available areas with [] => 0 | r :: rest => S (length (cands 0x1000 r rest) + length rest) end.

Lemma first_region_end r : area_aligned r -> 0x1000 <= area_end r.
Proof. intros (_ & He & Hr & _). pose proof (aligned_le 0 (area_end r) eq_refl He). lia. Qed.

Lemma boot_alloc_run mbi areas r rest k :
  mbi_ok mbi areas -> List.filter is_available areas = r :: rest -> (k <= length (boot_frames mbi areas))%nat ->
  exists b b', bpa_new mbi = Done b /\ alloc_many k (boot_fuel areas) b = Done (Some (take k (boot_frames mbi areas), b')) /\
    boot_info b' = mbi /\ mbi_region b' = (down (mbi_start mbi), up (mbi_end mbi)) /\ last_address b' = List.last (take k (boot_frames mbi areas)) 0x1000.
Proof using AL.
  intros Hok Hf Hk. destruct (bpa_new_ok mbi areas r rest Hok Hf) as (b & Hn & B1 & B2 & B3 & Hin). unfold boot_frames, boot_fuel in *. rewrite Hf in Hk |- *.
  pose proof (mbi_areas _ _ Hok) as Hal. rewrite Hf in Hal. apply Forall_cons in Hal as [Hr Hrest].
  destruct (alloc_many_queue (not_kept mbi) k (S (length (cands 0x1000 r rest) + length rest)) b r rest) as (b' & H1 & H2 & H3 & H4); try rewrite B3; try done; try lia.
  { by eapply cmp_addr_ok. }
  rewrite B3 in H1, H4. exists b, b'. by rewrite H2, H3.
Qed.

Lemma filter_sorted (f : Z -> bool) l : StronglySorted Z.lt l -> StronglySorted Z.lt (List.filter f l).
Proof.
  induction 1 as [|x l _ IH Hall]; [constructor|]. cbn [List.filter]. destruct (f x); [|done]. constructor; [done|].
  rewrite Forall_forall in Hall |- *. intros y Hy. apply Hall. rewrite list_elem_of_In in Hy |- *. by apply filter_In in Hy as [? _].
Qed.

Lemma boot_frames_sorted mbi areas r rest :
  mbi_ok mbi areas -> List.filter is_available areas = r :: rest -> StronglySorted Z.lt (0x1000 :: boot_frames mbi areas).
Proof.
  intros Hok Hf. unfold boot_frames. rewrite Hf. pose proof (mbi_areas _ _ Hok) as Hal. rewrite Hf in Hal. apply Forall_cons in Hal as [Hr Hrest].
  pose proof (filter_ascending _ (mbi_sorted _ _ Hok)) as Hasc. rewrite Hf in Hasc.
  pose proof (cands_sorted 0x1000 r rest Hr Hrest Hasc eq_refl (first_region_end r Hr)) as Hs. inversion Hs as [|? ? Hs' Hall]; subst. constructor.
  - by apply filter_sorted.
  - rewrite Forall_forall in Hall |- *. intros y Hy. apply Hall. rewrite list_elem_of_In in Hy |- *. by apply filter_In in Hy as [? _].
Qed.

Lemma sorted_last_ge d l x : StronglySorted Z.lt (d :: l) -> x ∈ d :: l -> x <= List.last l d.
Proof.
  revert d x. induction l as [|y l IH]; intros d x Hs Hx; [by apply list_elem_of_singleton in Hx as ->|]. rewrite last_default.
  inversion Hs as [|? ? Hs' Hall]; subst. apply elem_of_cons in Hx as [->|Hx]; [|by apply IH].
  apply Forall_cons in Hall as [Hd _]. specialize (IH y y Hs' (list_elem_of_here y l)). lia.
Qed.

Lemma cands_in last r rest x :
  Forall area_aligned (r :: rest) -> page_aligned last -> x ∈ cands last r rest ->
  page_aligned x /\ exists a, a ∈ r :: rest /\ area_start a <= x <= area_end a.
Proof.
  revert last r. induction rest as [|r' rest IH]; intros last r Hal Hl Hx; apply Forall_cons in Hal as [Hr Hal].
  all: assert (forall l, l = cand_region last r -> x ∈ l -> page_aligned x /\ area_start r <= x <= area_end r) as Hreg.
  1, 3: clear Hx; intros l Heq Hx; revert last Hl Heq; induction l as [|y l IHl]; intros last Hl Heq; [by apply not_elem_of_nil in Hx|];
    destruct (cand_step last r Hr Hl) as [[_ Hc]|(_ & z & Hc & Hz & _ & Hzr)]; rewrite Hc in Heq; [done|]; injection Heq as -> ->;
    apply elem_of_cons in Hx as [->|Hx]; [done|by apply (IHl Hx z)].
  - cbn [cands] in Hx. rewrite app_nil_r in Hx. destruct (Hreg _ eq_refl Hx). split; [done|]. exists r. split; [apply list_elem_of_here|done].
  - cbn [cands] in Hx. apply elem_of_app in Hx as [Hx|Hx].
    + destruct (Hreg _ eq_refl Hx). split; [done|]. exists r. split; [apply list_elem_of_here|done].
    + destruct Hr as (_ & Hre & _). destruct (IH _ _ Hal Hre Hx) as (H1 & a & H2 & H3). split; [done|]. exists a. split; [by apply list_elem_of_further|done].
Qed.

Lemma boot_frames_in mbi areas x :
  mbi_ok mbi areas -> x ∈ boot_frames mbi areas ->
  page_aligned x /\ Forall (fun c => ~ inside c x) (kept mbi) /\ exists a, a ∈ areas /\ is_available a = true /\ area_start a <= x <= area_end a.
Proof.
  intros Hok. pose proof (mbi_areas _ _ Hok) as Hal. unfold boot_frames. destruct (List.filter is_available areas) as [|r rest] eqn:Ef; [by intros ?%not_elem_of_nil|].
  intros [Hx Hk]%list_elem_of_In%filter_In. rewrite <- list_elem_of_In in Hx. apply cands_in in Hx as (H1 & a & Ha & Hxa); [|done|done].
  split; [done|]. split.
  - unfold not_kept in Hk. rewrite forallb_forall in Hk. apply Forall_forall. intros c Hc. rewrite list_elem_of_In in Hc. specialize (Hk c Hc).
    unfold contains_addr, inside in *. bool_to_prop. lia.
  - exists a. rewrite <- Ef, list_elem_of_In, filter_In, <- list_elem_of_In in Ha. by destruct Ha.
Qed.

(** *** The pages there are *)

(** The pages of an area, and the free pages of the available memory above the first two pages. *)
Definition region_pages (a : MemoryArea) : list Z :=
  (fun i => area_start a + 4096 * Z.of_nat i) <$> seq 0 (Z.to_nat ((area_end a - area_start a) / 4096)).

Definition free_pages (mbi : Mbi) (areas : list MemoryArea) : list Z :=
  List.filter (fun x => (0x1000 <? x) && not_kept mbi x) (concat (region_pages <$> List.filter is_available areas)).

Lemma elem_of_concat (x : Z) (l : list (list Z)) : x ∈ concat l <-> exists q, x ∈ q /\ q ∈ l.
Proof. rewrite list_elem_of_In, in_concat. split; intros (q & H1 & H2); exists q; rewrite !list_elem_of_In in *; done. Qed.

Lemma aligned_step a b : page_aligned a -> page_aligned b -> a <= b -> exists n, b = a + 4096 * Z.of_nat n.
Proof.
  unfold page_aligned. intros Ha Hb Hle. exists (Z.to_nat (b / 4096 - a / 4096)).
  pose proof (Z.div_mod a 4096 ltac:(lia)). pose proof (Z.div_mod b 4096 ltac:(lia)). lia.
Qed.

Lemma elem_of_region_pages a x : area_aligned a -> x ∈ region_pages a <-> page_aligned x /\ area_start a <= x < area_end a.
Proof.
  intros (Hs & He & Hr & _). unfold region_pages. rewrite list_elem_of_fmap. destruct (aligned_step _ _ Hs He ltac:(lia)) as [m Hm].
  replace ((area_end a - area_start a) / 4096) with (Z.of_nat m) by (rewrite Hm; apply Z.div_unique_exact; lia). rewrite Nat2Z.id. split.
  - intros (i & -> & Hi%elem_of_seq). split; [|lia]. unfold page_aligned in *. rewrite Z.add_mod, Hs, Z.mul_comm, Z.mod_mul by lia. done.
  - intros [Hx Hin]. destruct (aligned_step _ _ Hs Hx ltac:(lia)) as [n Hn]. exists n. split; [done|]. apply elem_of_seq. lia.
Qed.

Lemma elem_of_pages_incl a b x : page_aligned a -> page_aligned x -> a <= x <= b -> x ∈ pages_incl a b.
Proof.
  intros Ha Hx Hin. destruct (aligned_step _ _ Ha Hx ltac:(lia)) as [n Hn]. apply list_elem_of_fmap. exists n. split; [done|]. apply elem_of_seq.
  assert (Z.of_nat n <= (b - a) / 4096) by (apply Z.div_le_lower_bound; lia). lia.
Qed.

(** Every page of the regions above the last address is tried. *)
Lemma cands_complete last r rest a x :
  Forall area_aligned (r :: rest) -> ascending (r :: rest) -> page_aligned last -> last <= area_end r -> last < x -> page_aligned x ->
  a ∈ r :: rest -> area_start a <= x <= area_end a -> x ∈ cands last r rest.
Proof.
  revert last r. induction rest as [|r' rest IH]; intros last r Hal Hasc Hl Hle Hlt Hx Ha Hin; apply Forall_cons in Hal as [Hr Hal].
  all: assert (a = r -> x ∈ cand_region last r) as Hhd.
  1, 3: intros ->; destruct Hr as (R1 & R2 & R3 & _); unfold cand_region, contains_addr; cbn [fst snd]; rewrite (proj2 (Z.eqb_neq _ _)) by lia;
    destruct (Z.leb_spec (area_start r) last); [rewrite (proj2 (Z.ltb_lt _ _)) by lia; cbn [andb]|cbn [andb]; by apply elem_of_pages_incl];
    apply elem_of_pages_incl; [unfold page_aligned in *; by rewrite Z.add_mod, Hl by lia|done|]; pose proof (aligned_le last x Hl Hx Hlt); lia.
  - apply list_elem_of_singleton in Ha. cbn [cands]. rewrite app_nil_r. by apply Hhd.
  - cbn [cands]. apply elem_of_app. apply elem_of_cons in Ha as [Ha|Ha]; [left; by apply Hhd|]. inversion Hasc as [|? ? Hasc' Hall]; subst.
    rewrite Forall_forall in Hall. pose proof (Hall a Ha) as Hra. pose proof (Hall r' (list_elem_of_here _ _)) as Hrr.
    apply Forall_cons in Hal as [Hr' Hal]. destruct Hr as (R1 & R2 & R3 & _). pose proof Hr' as (R1' & R2' & R3' & _).
    destruct (decide (x = area_end r)) as [->|Hne].
    + left. unfold cand_region, contains_addr. cbn [fst snd]. rewrite (proj2 (Z.eqb_neq _ _)) by lia.
      destruct (Z.leb_spec (area_start r) last); [rewrite (proj2 (Z.ltb_lt _ _)) by lia; cbn [andb]|cbn [andb]; apply elem_of_pages_incl; (done || lia)].
      apply elem_of_pages_incl; [unfold page_aligned in *; by rewrite Z.add_mod, Hl by lia|done|]. pose proof (aligned_le last _ Hl Hx ltac:(lia)). lia.
    + right. apply IH; try done; [by constructor|lia|lia].
Qed.

Lemma free_pages_sorted mbi areas : mbi_ok mbi areas -> StronglySorted Z.lt (free_pages mbi areas).
Proof.
  intros Hok. apply filter_sorted. pose proof (mbi_areas _ _ Hok) as Hal. pose proof (filter_ascending _ (mbi_sorted _ _ Hok)) as Hasc.
  induction Hasc as [|a l Hasc IH Hall]; [constructor|]. apply Forall_cons in Hal as [Ha Hal]. cbn [fmap list_fmap concat].
  apply StronglySorted_app_iff. split; [|split; [by apply IH|]].
  - unfold region_pages. generalize (Z.to_nat ((area_end a - area_start a) / 4096)) 0%nat. intros n. induction n as [|n IHn]; intros k; [constructor|].
    cbn [seq fmap list_fmap]. constructor; [apply IHn|]. apply Forall_fmap, Forall_forall. intros i Hi%elem_of_seq. cbn. lia.
  - intros x y Hx Hy. apply elem_of_region_pages in Hx as [_ Hx]; [|done]. rewrite elem_of_concat in Hy. destruct Hy as (q & Hy & Hq).
    apply list_elem_of_fmap in Hq as (b & -> & Hb). rewrite Forall_forall in Hall, Hal. apply elem_of_region_pages in Hy as [_ Hy]; [|by apply Hal].
    specialize (Hall b Hb). lia.
Qed.

Lemma elem_of_free_pages mbi areas x :
  mbi_ok mbi areas ->
  x ∈ free_pages mbi areas <-> 0x1000 < x /\ not_kept mbi x = true /\ page_aligned x /\
    exists a, a ∈ List.filter is_available areas /\ area_start a <= x < area_end a.
Proof.
  intros Hok. pose proof (mbi_areas _ _ Hok) as Hal. rewrite Forall_forall in Hal. unfold free_pages.
  rewrite list_elem_of_In, filter_In, <- list_elem_of_In, andb_true_iff, Z.ltb_lt, elem_of_concat. split.
  - intros [(q & Hx & (a & -> & Ha)%list_elem_of_fmap) [H1 H2]]. apply elem_of_region_pages in Hx as [H3 H4]; [|by apply Hal]. eauto 10.
  - intros (H1 & H2 & H3 & a & Ha & H4). split; [|done]. exists (region_pages a). split; [apply elem_of_region_pages; [by apply Hal|done]|].
    apply list_elem_of_fmap. eauto.
Qed.

Lemma free_pages_tried mbi areas r rest x :
  mbi_ok mbi areas -> List.filter is_available areas = r :: rest -> x ∈ free_pages mbi areas -> x ∈ boot_frames mbi areas.
Proof.
  intros Hok Hf Hx. apply elem_of_free_pages in Hx as (H1 & H2 & H3 & a & Ha & H4); [|done]. unfold boot_frames. rewrite Hf in Ha |- *.
  apply list_elem_of_In, filter_In. split; [|done]. apply list_elem_of_In. pose proof (mbi_areas _ _ Hok) as Hal. rewrite Hf in Hal.
  pose proof (filter_ascending _ (mbi_sorted _ _ Hok)) as Hasc. rewrite Hf in Hasc.
  apply (cands_complete 0x1000 r rest a); try done; [|lia]. apply Forall_cons in Hal as [Hr _]. by apply first_region_end.
Qed.

Lemma boot_frames_free mbi areas x : x ∈ boot_frames mbi areas -> not_kept mbi x = true.
Proof. unfold boot_frames. destruct (List.filter is_available areas); [by intros ?%not_elem_of_nil|]. by intros [_ ?]%list_elem_of_In%filter_In. Qed.

Lemma sorted_nodup l : StronglySorted Z.lt l -> NoDup l.
Proof. induction 1 as [|x l _ IH Hall]; constructor; [|done]. intros Hx. rewrite Forall_forall in Hall. specialize (Hall x Hx). lia. Qed.

Lemma free_pages_fewer mbi areas r rest :
  mbi_ok mbi areas -> List.filter is_available areas = r :: rest -> (length (free_pages mbi areas) <= length (boot_frames mbi areas))%nat.
Proof.
  intros Hok Hf. apply submseteq_length, NoDup_submseteq; [by apply sorted_nodup, free_pages_sorted|]. intros x. by apply (free_pages_tried mbi areas r rest).
Qed.

(** Of two ascending lists, one part of the other, the shorter is where the longer starts as long as
    the elements it lacks come later. *)
Lemma sorted_prefix (l l' : list Z) k :
  StronglySorted Z.lt l -> StronglySorted Z.lt l' -> (forall x, x ∈ l' -> x ∈ l) -> (k <= length l')%nat ->
  (forall x y, x ∈ take k l' -> y ∈ l -> y < x -> y ∈ l') -> take k l = take k l'.
Proof.
  revert l l'. induction k as [|k IH]; intros l l' Hl Hl' Hsub Hk Hlate; [done|]. destruct l' as [|x l']; [cbn in Hk; lia|].
  destruct l as [|y l]; [by destruct (not_elem_of_nil x (Hsub x (list_elem_of_here _ _)))|].
  inversion Hl as [|? ? Sl Fl]; inversion Hl' as [|? ? Sl' Fl']; subst. rewrite Forall_forall in Fl, Fl'.
  assert (y = x) as ->.
  { pose proof (Hsub x (list_elem_of_here _ _)) as Hx. apply elem_of_cons in Hx as [?|Hx]; [done|]. specialize (Fl x Hx).
    specialize (Hlate x y (list_elem_of_here _ _) (list_elem_of_here _ _) Fl). apply elem_of_cons in Hlate as [?|Hy]; [done|]. specialize (Fl' y Hy). lia. }
  cbn [take]. f_equal. apply IH; try done.
  - intros z Hz. specialize (Hsub z (list_elem_of_further _ _ _ Hz)). apply elem_of_cons in Hsub as [->|?]; [|done]. specialize (Fl' x Hz). lia.
  - cbn in Hk. lia.
  - intros z y Hz Hy Hlt. specialize (Hlate z y (list_elem_of_further _ _ _ Hz) (list_elem_of_further _ _ _ Hy) Hlt).
    apply elem_of_cons in Hlate as [->|?]; [|done]. specialize (Fl x Hy). lia.
Qed.

(** C25. The boot loader's allocator implements a queue.  When the available regions ascend and
    begin and end on page boundaries, the frames it hands out one after the other are exactly the
    pages of the available regions above address 0x1000 that hold nothing of the boot information,
    the modules and the sections, in ascending order.  This holds up to the first frame that lies
    behind the end of a region whose next page is neither in use nor the beginning of another
    region: that page is handed out too, although it is not memory. *)
Theorem boot_alloc_refines mbi areas k :
  mbi_ok mbi areas -> (0 < k <= length (free_pages mbi areas))%nat ->
  let frames := take k (free_pages mbi areas) in
  (forall a x, a ∈ areas -> is_available a = true -> x ∈ frames -> area_end a < x ->
     not_kept mbi (area_end a) = false \/ exists a', a' ∈ areas /\ is_available a' = true /\ area_start a' = area_end a) ->
  exists b b', bpa_new mbi = Done b /\ alloc_many k (boot_fuel areas) b = Done (Some (frames, b')).
Proof using AL.
  intros Hok Hk frames Hends. destruct (List.filter is_available areas) as [|r rest] eqn:Hf.
  { unfold free_pages in Hk. rewrite Hf in Hk. cbn in Hk. lia. }
  assert (forall a, a ∈ r :: rest <-> a ∈ areas /\ is_available a = true) as Hav by (intros a; by rewrite <- Hf, list_elem_of_In, filter_In, <- list_elem_of_In).
  pose proof (boot_frames_sorted mbi areas r rest Hok Hf) as Hs. inversion Hs as [|? ? Hs' Hgt]; subst. rewrite Forall_forall in Hgt.
  assert (take k (boot_frames mbi areas) = frames) as Hfr.
  { apply sorted_prefix; [done|by apply free_pages_sorted|intros x; by apply (free_pages_tried mbi areas r rest)|lia|].
    intros x y Hx Hy Hlt. pose proof (Hgt y Hy) as Hy0. pose proof (boot_frames_free mbi areas y Hy) as Hnk.
    destruct (boot_frames_in mbi areas y Hok Hy) as (Hpy & _ & a & Ha & Haa & Hya). apply elem_of_free_pages; [done|]. do 3 (split; [done|]).
    destruct (decide (y < area_end a)); [exists a; rewrite Hf, Hav; split; [done|lia]|]. assert (y = area_end a) as -> by lia.
    destruct (Hends a x Ha Haa Hx Hlt) as [?|(a' & Ha' & Haa' & Hs0)]; [congruence|]. exists a'. rewrite Hf, Hav. split; [done|].
    pose proof (mbi_areas _ _ Hok) as Hal. rewrite Hf, Forall_forall in Hal. destruct (Hal a') as (_ & _ & ? & _); [by apply Hav|]. lia. }
  destruct (boot_alloc_run mbi areas r rest k Hok Hf) as (b & b' & H1 & H2 & _); [|exists b, b'; by rewrite <- Hfr].
  pose proof (free_pages_fewer mbi areas r rest Hok Hf). lia.
Qed.

(** The state the kernel is started with. *)
Lemma static_context_ok mbi areas b :
  mbi_ok mbi areas -> Forall area_ok areas -> Forall module_ok (module_tags mbi) ->
  boot_info b = mbi -> mbi_region b = (down (mbi_start mbi), up (mbi_end mbi)) -> page_aligned (last_address b) -> 0 <= last_address b < 2 ^ 62 ->
  map_ok (to_static_context b) areas /\ used_boundary (to_static_context b) = last_address b + 4096.
Proof.
  intros [Hb He Hs _ Hm _ Hso] Ha Hmo Hi Hr Hal Hlt. unfold to_static_context. rewrite Hi, Hr. cbn [used_boundary].
  rewrite wadd_small by (unfold PAGE_SIZE; lia). split; [|done].
  destruct (down_spec (mbi_start mbi)) as [D1 D2], (up_spec (mbi_end mbi)) as [U1 U2]. split; cbn; try done.
  - split; cbn; [lia|done|done].
  - unfold PAGE_SIZE. split; [|lia]. unfold page_aligned in *. by rewrite Z.add_mod, Hal by lia.
Qed.

(** C6. No frame that the boot loader has handed out, for page tables, stacks or the boot information,
    is in a region that the kernel is told it may use, however many were handed out before the
    memory map was built.  The areas of the map ascend and do not overlap, the available ones begin
    and end on page boundaries (the allocator repeats frames otherwise), there are enough free pages, every module
    contains a whole page, and the first page of the first available area holds none of what was
    loaded (the map cannot be built otherwise). *)
Theorem boot_frames_reserved mbi areas r rest k :
  mbi_ok mbi areas -> List.filter is_available areas = r :: rest -> (k <= length (free_pages mbi areas))%nat ->
  Forall area_ok areas -> Forall module_ok (module_tags mbi) -> low_clear (mkPm (down (mbi_start mbi), up (mbi_end mbi)) mbi 0 0) areas ->
  exists b b' frames n l it, bpa_new mbi = Done b /\ alloc_many k (boot_fuel areas) b = Done (Some (frames, b')) /\ length frames = k /\
    (forall j, (n <= j)%nat -> pm_collect j (to_static_context b') pm_iter = Done (l, it)) /\
    forall m x y, m ∈ l -> ty m = Usable -> x ∈ frames -> x <= y < x + 4096 -> ~ (phys_addr m <= y < phys_addr m + size m).
Proof using AL RL.
  intros Hok Hf Hk Ha Hmo Hlow. pose proof (free_pages_fewer mbi areas r rest Hok Hf) as Hfew.
  destruct (boot_alloc_run mbi areas r rest k Hok Hf ltac:(lia)) as (b & b' & H1 & H2 & H3 & H4 & H5).
  pose proof (boot_frames_sorted mbi areas r rest Hok Hf) as Hs. rewrite <- (take_drop k (boot_frames mbi areas)), app_comm_cons in Hs.
  apply StronglySorted_app_iff in Hs as (Hs & _ & _). pose proof (fun x => boot_frames_in mbi areas x Hok) as Hfr.
  set (frames := take k (boot_frames mbi areas)) in *.
  assert (forall x, x ∈ 0x1000 :: frames -> page_aligned x /\ 0 <= x < 2 ^ 62) as Hbd.
  { intros x Hx. apply elem_of_cons in Hx as [->|Hx]; [done|]. destruct (Hfr x) as (G1 & _ & a & G2 & _ & G3).
    { rewrite <- (take_drop k). apply elem_of_app. by left. }
    split; [done|]. rewrite Forall_forall in Ha. destruct (Ha a G2) as (? & ? & _). lia. }
  assert (last_address b' ∈ 0x1000 :: frames) as Hin.
  { rewrite H5. clear. generalize 0x1000. induction frames as [|y l IH]; intros d; [apply list_elem_of_here|]. rewrite last_default. apply list_elem_of_further, IH. }
  destruct (Hbd _ Hin) as [Hpa Hlt]. destruct (static_context_ok mbi areas b' Hok Ha Hmo H3 H4 Hpa Hlt) as [Hmap Hub].
  set (p := to_static_context b') in *.
  assert (low_clear p areas) as Hclr by (unfold low_clear, taken, p, to_static_context in *; cbn in *; by rewrite H3, H4).
  destruct (pm_collect_run p areas pm_iter Hmap Hclr (pm_iter_ok p areas Hmap)) as (n & l & it & L1 & L2 & _). exists b, b', frames, n, l, it.
  split; [done|]. split; [done|]. split; [unfold frames; rewrite length_take; lia|]. split; [done|].
  intros m x y Hm Hty Hx Hy Hmy. rewrite Forall_forall in L2. destruct (L2 m Hm Hty y Hmy) as [Hu _]. rewrite Hub, H5 in Hu.
  pose proof (sorted_last_ge 0x1000 frames x Hs (list_elem_of_further x 0x1000 frames Hx)). lia.
Qed.

(** A region that does not end on a page boundary is never exhausted: after the page that
    straddles its end, the search starts over at its beginning, with frames that are in use. *)
Theorem boot_alloc_repeats b r :
  region_cached b = Some r -> 0 <= area_start r <= last_address b -> last_address b < area_end r < last_address b + 4096 -> area_end r < 2 ^ 63 ->
  exists b1 b2, locate_addr b = Done (Ok (last_address b + 4096), b1) /\ locate_addr b1 = Done (Ok (area_start r), b2).
Proof.
  intros Hc H1 H2 H3. unfold locate_addr at 1, get_region. rewrite Hc. cbn [mbind outcome_bind]. rewrite (proj2 (Z.eqb_neq _ _)) by lia.
  unfold contains_addr. cbn [fst snd]. rewrite (proj2 (Z.leb_le _ _)), (proj2 (Z.ltb_lt _ _)) by lia. cbn [andb].
  rewrite wadd_small by (unfold PAGE_SIZE; lia). change PAGE_SIZE with 4096. eexists _, _. split; [done|].
  unfold locate_addr, get_region. cbn [set_last region_cached last_address]. rewrite Hc. cbn [mbind outcome_bind]. cbn [set_last last_address].
  rewrite (proj2 (Z.eqb_neq _ _)) by lia. unfold contains_addr. cbn [fst snd]. rewrite (proj2 (Z.ltb_ge (last_address b + 4096) _)) by lia.
  rewrite andb_false_r. done.
Qed.

End Boot.

(** ** Witnesses *)
Module BootWitness.

#[local] Instance align_ops : AlignOps := {
  align_up_to a p := Done ((a + (- a) mod p) mod 2 ^ 64);
  align_down_to a p := Done (a - a mod p) }.

#[local] Instance align_laws : AlignLaws.
Proof.
  split; [done|]. intros a Ha Hlt. cbn. f_equal. apply Z.mod_small. pose proof (Z.mod_pos_bound (- a) PAGE_SIZE eq_refl). lia.
Qed.

Definition arrange (a b : span_range) : Arrangement :=
  if (a.1 =? a.2) || (b.1 =? b.2) then AEmpty
  else if (a.2 <? b.1) || (b.2 <? a.1) then ADisjoint
  else if (a.2 =? b.1) || (b.2 =? a.1) then ATouching
  else if a.1 =? b.1 then (if a.2 =? b.2 then AEqual else AStarting (a.2 <? b.2))
  else if a.2 =? b.2 then AEnding (b.1 <? a.1)
  else if a.1 <? b.1 then (if a.2 <? b.2 then AOverlapping true else AContaining false)
  else if a.2 <? b.2 then AContaining true else AOverlapping false.

#[local] Instance range_ops : RangeOps := { arrangement := arrange }.

#[local] Instance range_laws : RangeLaws.
Proof.
  split.
  - intros [a1 a2] [b1 b2]. cbn. intros Ha Hb. unfold arrange. cbn [fst snd].
    rewrite (proj2 (Z.eqb_neq a1 a2)), (proj2 (Z.eqb_neq b1 b2)) by lia. cbn [orb].
    destruct (Z.ltb_spec a2 b1), (Z.ltb_spec b2 a1); cbn [orb]; try lia.
    destruct (Z.eqb_spec a2 b1), (Z.eqb_spec b2 a1); cbn [orb]; try lia.
    destruct (Z.eqb_spec a1 b1), (Z.eqb_spec a2 b2), (Z.ltb_spec a1 b1), (Z.ltb_spec a2 b2), (Z.ltb_spec b1 a1); subst; try lia; done.
  - intros [a1 a2] [b1 b2]. cbn. intros [->| ->]; unfold arrange; cbn [fst snd]; rewrite Z.eqb_refl; [done|]. by rewrite orb_true_r.
Qed.

Definition areas : list MemoryArea :=
  [mkArea 0 0x9f000 Available; mkArea 0x9f000 0x100000 Reserved; mkArea 0x100000 0x200000 Available].

Definition mbi : Mbi :=
  mkMbi 0x9100 0x9800 (Some areas) (Some [mkSection 0x100000 0x10f123 0xf123 6 ProgramSection; mkSection 0 0 0 0 OtherSection]) [mkModule 0x120000 0x125000].

Lemma mbi_fine : mbi_ok mbi areas.
Proof.
  split; cbn; unfold section_ok; try done; repeat constructor; cbn; try lia; try done.
Qed.

Lemma areas_fine : Forall area_ok areas.
Proof. unfold area_ok. repeat constructor; cbn; try lia; try done. Qed.

Lemma modules_fine : Forall module_ok (module_tags mbi).
Proof. unfold module_ok. repeat constructor; cbn; try lia; try done. Qed.

Definition p : Multiboot2PmMemoryState := mkPm (0x9000, 0xa000) mbi 0x5000 0.

Lemma p_fine : map_ok p areas.
Proof.
  split; cbn; unfold pages_range, page_aligned; try done; [split; cbn; [lia|apply mbi_fine|apply modules_fine]|apply areas_fine|apply mbi_fine].
Qed.

Lemma p_clear q : pm_mbi_region q = (0x9000, 0xa000) -> pm_boot_info q = mbi -> low_clear q areas.
Proof.
  intros H1 H2 i a Ha. vm_compute in Ha. injection Ha as <- <-. unfold taken. rewrite H1, H2. unfold inside. repeat constructor; vm_compute; intros [? ?]; done.
Qed.

Lemma memory_map_sound_witness :
  map_ok p areas /\ exists n l it, (forall k, (n <= k)%nat -> pm_collect k p pm_iter = Done (l, it)) /\
    Forall (region_free p areas) l /\ StronglySorted before (List.filter usable l).
Proof. split; [apply p_fine|]. apply memory_map_sound; [apply p_fine|by apply p_clear]. Defined.

(** The regions that are reported. *)
Example regions_reported :
  match pm_collect 20 p pm_iter with Done (l, _) => map (fun m => (phys_addr m, size m, ty m)) l | Panic => [] end =
  [(0, 0, Usable); (0, 0x5000, Bootloader); (0x5000, 0x4000, Usable); (0x9000, 0x1000, Bootloader); (0xa000, 0x95000, Usable);
        (0x9f000, 0x61000, Unusable 2); (0x100000, 0x10000, Bootloader); (0x110000, 0x10000, Usable); (0x120000, 0x5000, Bootloader); (0x125000, 0xdb000, Usable)].
Proof. vm_compute. reflexivity. Qed.

Lemma boot_alloc_refines_witness :
  mbi_ok mbi areas /\ exists b b', bpa_new mbi = Done b /\ alloc_many 9 (boot_fuel areas) b = Done (Some (take 9 (free_pages mbi areas), b')).
Proof.
  split; [apply mbi_fine|]. apply (boot_alloc_refines mbi areas 9); [apply mbi_fine|split; [lia|apply Nat.leb_le; vm_compute; reflexivity]|].
  intros a x Ha Hav Hx Hlt. exfalso.
  assert (Forall (fun y => forallb (fun a => negb (is_available a && (area_end a <? y))) areas = true) (take 9 (free_pages mbi areas))) as H by (vm_compute; repeat constructor).
  rewrite Forall_forall in H. specialize (H x Hx). rewrite forallb_forall in H. rewrite list_elem_of_In in Ha. specialize (H a Ha).
  rewrite Hav, (proj2 (Z.ltb_lt _ _) Hlt) in H. done.
Defined.

(** The page of the boot information is skipped. *)
Example frames_handed_out : take 9 (free_pages mbi areas) = [0x2000; 0x3000; 0x4000; 0x5000; 0x6000; 0x7000; 0x8000; 0xa000; 0xb000].
Proof. vm_compute. reflexivity. Qed.

Lemma boot_frames_reserved_witness :
  mbi_ok mbi areas /\ exists b b' frames n l it, bpa_new mbi = Done b /\ alloc_many 9 (boot_fuel areas) b = Done (Some (frames, b')) /\ length frames = 9%nat /\
    (forall j, (n <= j)%nat -> pm_collect j (to_static_context b') pm_iter = Done (l, it)) /\
    forall m x y, m ∈ l -> ty m = Usable -> x ∈ frames -> x <= y < x + 4096 -> ~ (phys_addr m <= y < phys_addr m + size m).
Proof.
  split; [apply mbi_fine|]. apply (boot_frames_reserved mbi areas (mkArea 0 0x9f000 Available) [mkArea 0x100000 0x200000 Available] 9);
    [apply mbi_fine|reflexivity|apply Nat.leb_le; vm_compute; reflexivity|apply areas_fine|apply modules_fine|by apply p_clear].
Defined.

(** Memory of two pages at [0x2000]: after them a frame is handed out that is not memory. *)
Example boot_alloc_past_end :
  let small := mkMbi 0x100 0x200 (Some [mkArea 0x2000 0x4000 Available]) (Some []) [] in
  match (b ← bpa_new small; alloc_many 3 10 b) with Done (Some (frames, _)) => frames | _ => [] end = [0x2000; 0x3000; 0x4000].
Proof. vm_compute. reflexivity. Qed.

Definition with_modules (l : list Module_) (sections : list ElfSection) : Multiboot2PmMemoryState :=
  mkPm (0x9000, 0xa000) (mkMbi 0x9100 0x9800 (Some areas) (Some sections) l) 0x5000 0.

(** A module from [0x120800] to [0x125800]: the pages of its first and its last bytes are usable. *)
Example module_edge_usable :
  match pm_collect 20 (with_modules [mkModule 0x120800 0x125800] []) pm_iter with
  | Done (l, _) => map (fun m => (phys_addr m, size m)) (List.filter usable l) | Panic => [] end =
  [(0, 0); (0x5000, 0x4000); (0xa000, 0x95000); (0x100000, 0x21000); (0x125000, 0xdb000)].
Proof. vm_compute. reflexivity. Qed.

(** A module that contains no whole page. *)
Example small_module_panics : pm_collect 20 (with_modules [mkModule 0x120000 0x120800] []) pm_iter = Panic.
Proof. vm_compute. reflexivity. Qed.

(** A section in the first page of the first available area. *)
Example low_page_occupied_panics : pm_collect 20 (with_modules [] [mkSection 0 0x800 0x800 6 ProgramSection]) pm_iter = Panic.
Proof. vm_compute. reflexivity. Qed.

End BootWitness.
