(* ===== verification/Dma.v ===== *)
(** * DMA buffers

    [kernel/src/mem/dma.rs]: the iterator that describes a buffer as regions of physical memory
    ([PhysicalRegionDescriber]), its adapters, the guards that lend a buffer to a device, and
    [DmaBuffer], which forgets the type a buffer was made from.

    The iterator translates addresses with [mem_map::translate_ptr]; its theorems are proved for
    every translation that maps whole pages and then for the page tables of [MemMap]. *)
From stdpp Require Import prelude gmap.
From S2P Require Import Prelude Ranges HighOrder FrameAlloc PageTable TlbEntry MemMap.
Open Scope Z_scope.

(** ** Regions of physical memory *)

(** [data] is a fat pointer: its address and its length. *)
Record PhysicalRegionDescriber := mkDescriber { data_ptr : Z; data_len : Z; next : Z }.

Record PhysicalRegionDescription := mkRegion { addr : Z; size : Z }.

Section Describe.
(** [mem_map::translate_ptr]. *)
Context (translate_ptr : Z -> outcome (option Z)).

Definition next_chunk (d : PhysicalRegionDescriber) (index : Z) : outcome (option Z) :=
  if index <? data_len d then translate_ptr (data_ptr d ⊕ index)%u64 else Done None.

(** The loop of [next]; [None] when the fuel runs out. *)
Fixpoint extend (fuel : nat) (d : PhysicalRegionDescriber) (base diff : Z) : outcome (option Z) :=
  match fuel with
  | O => Done None
  | S fuel =>
      c ← next_chunk d (diff ⊕ next d)%u64;
      match c with
      | Some a =>
          if (a ⊖ base)%u64 =? diff then
            let diff := Z.min (diff ⊕ PAGE_SIZE)%u64 (data_len d) in
            if diff =? data_len d then Done (Some diff) else extend fuel d base diff
          else Done (Some diff)
      | None => Done (Some diff)
      end
  end.

Definition prd_next (fuel : nat) (d : PhysicalRegionDescriber) :
    outcome (option (option PhysicalRegionDescription * PhysicalRegionDescriber)) :=
  c ← next_chunk d (next d);
  match c with
  | None => Done (Some (None, d))
  | Some base =>
      let diff := PAGE_SIZE - Z.min (Z.land base (PAGE_SIZE - 1)) (data_len d) in
      r ← extend fuel d base diff;
      match r with
      | None => Done None
      | Some diff => Done (Some (Some (mkRegion base diff), mkDescriber (data_ptr d) (data_len d) (next d ⊕ diff)%u64))
      end
  end.

(** [prd]: the iterator over a buffer. *)
Definition prd (ptr len : Z) : PhysicalRegionDescriber := mkDescriber ptr len 0.

(** All items of the iterator. *)
Fixpoint prd_collect (n fuel : nat) (d : PhysicalRegionDescriber) : outcome (option (list PhysicalRegionDescription)) :=
  match n with
  | O => Done None
  | S n =>
      r ← prd_next fuel d;
      match r with
      | None => Done None
      | Some (None, _) => Done (Some [])
      | Some (Some m, d) =>
          l ← prd_collect n fuel d;
          Done (match l with None => None | Some l => Some (m :: l) end)
      end
  end.

End Describe.

(** ** Adapters *)

(** One call of the closure of [limit]: what is left of the region is cut to [len]. *)
Definition limit_next (desc : PhysicalRegionDescription) (len state : Z) : option (PhysicalRegionDescription * Z) :=
  let remain := (size desc ⊖ state)%u64 in
  if size desc <=? state then None
  else
    let len := Z.min (Z.min (size desc) len) remain in
    Some (mkRegion (addr desc ⊕ state)%u64 len, (state ⊕ len)%u64).

(** [PhysicalRegionAdapter::next] until it returns [None]; the closure holds [state]. *)
Fixpoint adapt_all (f : Z -> option (PhysicalRegionDescription * Z)) (fuel : nat) (state : Z) : option (list PhysicalRegionDescription) :=
  match fuel with
  | O => None
  | S fuel =>
      match f state with
      | None => Some []
      | Some (r, state) => cons r <$> adapt_all f fuel state
      end
  end.

Definition limit (desc : PhysicalRegionDescription) (len : Z) (fuel : nat) : option (list PhysicalRegionDescription) :=
  adapt_all (limit_next desc len) fuel 0.

(** ** Lending a buffer *)

(** What has become of the value that a [DmaGuard] wraps. *)
Inductive Inner := Wrapped | Freed | Taken | Leaked.

(** Who holds the guard: its creator, or [DmaClaimed] around it. *)
Inductive Holder := HGuard | HClaimed | HNone.

(** A guard, the boolean it shares with its borrows, and the number of [BorrowedDmaGuard]s. *)
Record Loan := mkLoan { inner : Inner; holder : Holder; lock : option bool; borrows : nat }.

(** [DmaGuard::new] and [From]. *)
Definition guard_new : Loan := mkLoan Wrapped HGuard None 0.

Definition locked (l : Loan) : bool := default false (lock l).

(** [Drop for DmaGuard]: the value is leaked while it is locked. *)
Definition guard_drop (l : Loan) : Loan := mkLoan (if locked l then Leaked else Freed) HNone (lock l) (borrows l).

(** [DmaGuard::unwrap]. *)
Definition guard_unwrap (l : Loan) : outcome Loan :=
  if locked l then Panic else Done (mkLoan Taken HNone (lock l) (borrows l)).

(** [DmaGuard::claim]; a failed exchange returns [None] and drops [self]. *)
Definition claim (l : Loan) : bool * Loan :=
  match lock l with
  | Some true => (false, guard_drop l)
  | Some false | None => (true, mkLoan (inner l) HClaimed (Some true) (S (borrows l)))
  end.

Definition query_owned (l : Loan) : bool := locked l.

(** [DmaClaimed::unwrap]. *)
Definition claimed_unwrap (l : Loan) : result Loan Loan :=
  if negb (query_owned l) then Ok (mkLoan (inner l) HGuard (lock l) (borrows l)) else Err l.

(** [Drop for BorrowedDmaGuard]. *)
Definition borrow_drop (l : Loan) : Loan := mkLoan (inner l) (holder l) (Some false) (pred (borrows l)).

(** What the holder of the guard and the holder of a borrow may do. *)
Inductive loan_step : Loan -> Loan -> Prop :=
| StepDrop l : holder l <> HNone -> loan_step l (guard_drop l)
| StepUnwrap l l' : holder l = HGuard -> guard_unwrap l = Done l' -> loan_step l l'
| StepClaim l : holder l = HGuard -> loan_step l (claim l).2
| StepClaimedUnwrap l l' : holder l = HClaimed -> claimed_unwrap l = Ok l' -> loan_step l l'
| StepReturn l : (0 < borrows l)%nat -> loan_step l (borrow_drop l).

(** ** [DmaBuffer] *)

(** The allocator is known by the identity of its type. *)
Record DmaBuffer := mkBuffer { b_ptr : Z; b_len : Z; b_capacity : Z; b_alloc : Z }.
Record RVec := mkVec { v_ptr : Z; v_len : Z; v_capacity : Z; v_alloc : Z }.
Record RBox := mkBox { x_ptr : Z; x_len : Z; x_alloc : Z }.

Definition ty_eq (a b : Z) : bool := a =? b.

Definition from_vec (v : RVec) : DmaBuffer := mkBuffer (v_ptr v) (v_len v) (v_capacity v) (v_alloc v).
Definition from_box (x : RBox) : DmaBuffer := mkBuffer (x_ptr x) (x_len x) (x_len x) (x_alloc x).
(** [From<Box<[u8; LEN]>>]: the length is that of the type. *)
Definition from_array (len : Z) (x : RBox) : DmaBuffer := mkBuffer (x_ptr x) len len (x_alloc x).

Definition to_box (a : Z) (b : DmaBuffer) : result RBox DmaBuffer :=
  if ty_eq (b_alloc b) a then Ok (mkBox (b_ptr b) (b_capacity b) a) else Err b.

Definition try_from (a : Z) (b : DmaBuffer) : result RVec DmaBuffer :=
  if ty_eq (b_alloc b) a then Ok (mkVec (b_ptr b) (b_len b) (b_capacity b) a) else Err b.

(** The layout that [Drop for DmaBuffer] gives to its allocator. *)
Definition buffer_drop (b : DmaBuffer) : Z * Layout := (b_ptr b, mkLayout (b_capacity b) 1).

(** ** The regions of a buffer *)
Section Regions.
Context (tr : Z -> outcome (option Z)) (frame : Z -> Z) (ptr len : Z).

(** Where a byte of the buffer is. *)
Definition phys (v : Z) : Z := frame (v / 4096) + v mod 4096.

(** The buffer is mapped, page by page, to aligned frames; its length is that of a slice. *)
Record backed : Prop := {
  bk_len : 0 < len < 2 ^ 63;
  bk_range : 0 <= ptr /\ ptr + len <= 2 ^ 64;
  bk_translate : forall v, ptr <= v < ptr + len -> tr v = Done (Some (phys v));
  bk_frame : forall v, ptr <= v < ptr + len -> 0 <= frame (v / 4096) < 2 ^ 52 /\ frame (v / 4096) mod 4096 = 0;
}.

(** From offset [o] on, the regions are the buffer, in order: each of their bytes that belongs to the buffer is
    where the translation says, they meet at page boundaries, neighbours are not contiguous, and they end less than
    a page after the buffer. *)
Fixpoint regions_at (o : Z) (l : list PhysicalRegionDescription) : Prop :=
  match l with
  | [] => len <= o
  | r :: l =>
      o < len /\ 0 < size r /\ o + size r < len + 4096 /\
      (forall k, 0 <= k < size r -> o + k < len -> tr (ptr + o + k) = Done (Some (addr r + k))) /\
      (o + size r < len -> (ptr + o + size r) mod 4096 = 0 /\ tr (ptr + o + size r) <> Done (Some (addr r + size r))) /\
      regions_at (o + size r) l
  end.

Lemma phys_step v k : 0 <= k -> v mod 4096 + k < 4096 -> phys (v + k) = phys v + k.
Proof.
  intros Hk Hlt. unfold phys. pose proof (Z.mod_pos_bound v 4096 ltac:(lia)). pose proof (Z.div_mod v 4096 ltac:(lia)).
  assert ((v + k) / 4096 = v / 4096) as ->. { symmetry. apply (Z.div_unique _ _ _ (v mod 4096 + k)); lia. }
  assert ((v + k) mod 4096 = v mod 4096 + k) as ->. { symmetry. apply (Z.mod_unique _ _ (v / 4096)); lia. }
  lia.
Qed.

Hypothesis Hb : backed.

Lemma phys_range v : ptr <= v < ptr + len -> 0 <= phys v < 2 ^ 53.
Proof using Hb. intros Hv. destruct (bk_frame Hb v Hv). pose proof (Z.mod_pos_bound v 4096 ltac:(lia)). unfold phys. lia. Qed.

Lemma next_chunk_in d i : data_ptr d = ptr -> data_len d = len -> 0 <= i -> next_chunk tr d i = Done (if i <? len then Some (phys (ptr + i)) else None).
Proof using Hb.
  intros Hp Hl Hi. destruct Hb as [H0 Hr Ht _]. unfold next_chunk. rewrite Hp, Hl. destruct (Z.ltb_spec i len); [|done].
  rewrite wadd_small by lia. apply Ht. lia.
Qed.

(** The loop ends at the first page that is not contiguous, or past the end of the buffer. *)
Lemma prd_extend_ok fuel o base diff :
  0 <= o < len -> base = phys (ptr + o) -> 0 < diff -> o + diff < len + 4096 -> (o + diff < len -> (ptr + o + diff) mod 4096 = 0) ->
  (forall k, 0 <= k < diff -> o + k < len -> base + k = phys (ptr + o + k)) -> len - diff < 4096 * Z.of_nat fuel -> (0 < fuel)%nat ->
  exists diff', extend tr fuel (mkDescriber ptr len o) base diff = Done (Some diff') /\ diff <= diff' /\ o + diff' < len + 4096 /\
    (forall k, 0 <= k < diff' -> o + k < len -> base + k = phys (ptr + o + k)) /\
    (o + diff' < len -> (ptr + o + diff') mod 4096 = 0 /\ base + diff' <> phys (ptr + o + diff')).
Proof using Hb.
  intros Ho Hbase. pose proof (phys_range (ptr + o) ltac:(lia)) as Hpr. pose proof (bk_range Hb) as Hr. pose proof (bk_len Hb) as Hlb.
  revert diff. induction fuel as [|fuel IH]; intros diff H0 Hend Hal Hk Hf Hf0; [lia|]. cbn [extend next].
  rewrite (wadd_small diff o) by lia. rewrite next_chunk_in by (done || lia). cbn [mbind outcome_bind].
  destruct (Z.ltb_spec (diff + o) len) as [Hin|Hout].
  2: { exists diff. split; [done|]. split; [lia|]. split; [done|]. split; [done|]. lia. }
  specialize (Hal ltac:(lia)). assert (ptr + (diff + o) = ptr + o + diff) as Heq by lia. rewrite Heq.
  pose proof (phys_range (ptr + o + diff) ltac:(lia)) as Hpd. cbn [data_len].
  destruct (Z.eqb_spec (phys (ptr + o + diff) ⊖ base)%u64 diff) as [E|E].
  2: { exists diff. split; [done|]. split; [lia|]. split; [done|]. split; [done|]. intros _. split; [done|].
       intros Habs. apply E. unfold wsub, wrap64. rewrite <- Habs. rewrite Z.add_simpl_l. apply Z.mod_small. lia. }
  assert (phys (ptr + o + diff) = base + diff) as Hc.
  { unfold wsub, wrap64 in E. pose proof (Z.div_mod (phys (ptr + o + diff) - base) (2 ^ 64) ltac:(lia)) as Hq. rewrite E in Hq.
    set (q := (phys (ptr + o + diff) - base) / 2 ^ 64) in Hq. assert (q = 0) by lia. lia. }
  assert (forall k, 0 <= k < diff + 4096 -> o + k < len -> base + k = phys (ptr + o + k)) as Hk'.
  { intros k Hk1 Hk2. destruct (Z.lt_ge_cases k diff); [by apply Hk; lia|].
    replace (ptr + o + k) with (ptr + o + diff + (k - diff)) by lia. rewrite phys_step by lia. lia. }
  rewrite wadd_small by (unfold PAGE_SIZE; lia). change PAGE_SIZE with 4096. destruct (Z.eqb_spec (Z.min (diff + 4096) len) len) as [Em|Em].
  { exists (Z.min (diff + 4096) len). split; [done|]. split; [lia|]. split; [lia|]. split; [intros k Hk1 Hk2; apply Hk'; lia|]. lia. }
  assert (diff + 4096 < len) as Hlt by lia. rewrite (Z.min_l (diff + 4096)) by lia.
  destruct (IH (diff + 4096)) as (diff' & H1 & H2 & H3 & H4 & H5); try done; try lia.
  { intros _. rewrite Z.add_assoc, <- Z.add_mod_idemp_l, Hal by lia. done. }
  exists diff'. split; [done|]. split; [lia|]. done.
Qed.

(** The offset of the buffer in its first page is at most its length, or the buffer does not leave
    that page. *)
Definition starts_well (o : Z) : Prop := let off := (ptr + o) mod 4096 in off <= len \/ off + len <= 4096.

Lemma prd_next_ok fuel o :
  0 <= o < len -> (o = 0 -> starts_well 0) -> (o <> 0 -> (ptr + o) mod 4096 = 0) -> len < 4096 * Z.of_nat fuel ->
  exists r, prd_next tr fuel (mkDescriber ptr len o) = Done (Some (Some r, mkDescriber ptr len (o + size r))) /\
    0 < size r /\ o + size r < len + 4096 /\
    (forall k, 0 <= k < size r -> o + k < len -> addr r + k = phys (ptr + o + k)) /\
    (o + size r < len -> (ptr + o + size r) mod 4096 = 0 /\ addr r + size r <> phys (ptr + o + size r)).
Proof using Hb.
  intros Ho Hw Hal Hf. pose proof (bk_range Hb) as Hr. pose proof (bk_len Hb) as Hlb. unfold prd_next. cbn [next]. rewrite next_chunk_in by (done || lia).
  rewrite (proj2 (Z.ltb_lt o len)) by lia. cbn [mbind outcome_bind data_len].
  assert (Z.land (phys (ptr + o)) (PAGE_SIZE - 1) = (ptr + o) mod 4096) as ->.
  { change (PAGE_SIZE - 1) with (2 ^ 12 - 1). rewrite land_mask by lia. change (2 ^ 12) with 4096. unfold phys.
    rewrite <- Z.add_mod_idemp_l, (proj2 (bk_frame Hb (ptr + o) ltac:(lia))) by lia. apply Z.mod_mod. lia. }
  set (off := (ptr + o) mod 4096). pose proof (Z.mod_pos_bound (ptr + o) 4096 ltac:(lia)) as Hoff. fold off in Hoff. change PAGE_SIZE with 4096.
  assert (off <= len \/ o = 0 /\ off + len <= 4096) as Hcase.
  { destruct (decide (o = 0)) as [->|Hne]; [|left; unfold off; rewrite Hal by done; lia].
    destruct (Hw eq_refl) as [H|H]; rewrite Z.add_0_r in H; unfold off; rewrite Z.add_0_r; [by left|by right]. }
  destruct (prd_extend_ok fuel o (phys (ptr + o)) (4096 - Z.min off len)) as (diff & -> & H1 & H2 & H3 & H4); try done; try lia.
  { intros Hlt. destruct Hcase as [Hc|[-> Hc]]; [|lia]. rewrite Z.min_l by lia. replace (ptr + o + (4096 - off)) with ((ptr + o - off) + 1 * 4096) by lia.
    rewrite Z_mod_plus_full. unfold off. rewrite Zminus_mod_idemp_r, Z.sub_diag. done. }
  { intros k Hk1 Hk2. symmetry. apply phys_step; [lia|]. fold off. destruct Hcase as [Hc|[-> Hc]]; lia. }
  cbn [mbind outcome_bind]. exists (mkRegion (phys (ptr + o)) diff). cbn [size addr]. rewrite wadd_small by lia. split; [done|]. split; [lia|]. done.
Qed.

Lemma prd_collect_ok n fuel o :
  0 <= o < len + 4096 -> (o = 0 -> starts_well 0) -> (o <> 0 -> o < len -> (ptr + o) mod 4096 = 0) -> len < 4096 * Z.of_nat fuel -> len - o < Z.of_nat n -> (0 < n)%nat ->
  exists l, prd_collect tr n fuel (mkDescriber ptr len o) = Done (Some l) /\ regions_at o l.
Proof using Hb.
  revert o. induction n as [|n IH]; intros o Ho Hw Hal Hf Hn H0; [lia|]. cbn [prd_collect]. destruct (Z.lt_ge_cases o len) as [Hin|Hout].
  - destruct (prd_next_ok fuel o) as (r & -> & H1 & H2 & H3 & H4); try done; try lia. cbn [mbind outcome_bind].
    destruct (IH (o + size r)) as (l & -> & Hl); try lia.
    { intros _ Hlt. destruct (H4 Hlt) as [H5 _]. by rewrite Z.add_assoc. }
    cbn [mbind outcome_bind]. exists (r :: l). split; [done|]. cbn [regions_at]. do 3 (split; [done|]). pose proof (bk_translate Hb) as Ht. split; [|split; [|done]].
    + intros k Hk1 Hk2. rewrite Ht by lia. by rewrite H3.
    + intros Hlt. destruct (H4 Hlt) as [H5 H6]. split; [done|]. rewrite Ht by lia. intros [= He]. by apply H6.
  - unfold prd_next. cbn [next]. rewrite next_chunk_in by (done || lia). rewrite (proj2 (Z.ltb_ge o len)) by lia. exists []. done.
Qed.

End Regions.

(** Enough turns: one region takes at most one turn for each page, and there are at most as many regions as bytes. *)
Definition prd_all (tr : Z -> outcome (option Z)) (ptr len : Z) : outcome (option (list PhysicalRegionDescription)) :=
  prd_collect tr (S (Z.to_nat len)) (Z.to_nat (len / 4096 + 1)) (prd ptr len).

(** C8. The scatter-gather list of a buffer is right.  For a buffer whose pages a translation maps to
    aligned frames, in either half of the address space, iterating over the regions of physical
    memory ends, the regions are the bytes of the buffer in order, each where the translation has
    it, they meet at page boundaries and are as long as the frames are contiguous.  Only the last
    one may be longer, by less than a page, than what the buffer needs.  The buffer is not empty, and either
    its offset in its first page is at most its length or it does not leave that page: a
    shorter buffer that crosses into a second page is described wrongly. *)
Theorem prd_describes tr frame ptr len :
  backed tr frame ptr len -> starts_well ptr len 0 ->
  exists l, prd_all tr ptr len = Done (Some l) /\ regions_at tr ptr len 0 l.
Proof.
  intros Hb Hw. unfold prd_all, prd. pose proof (bk_len _ _ _ _ Hb). pose proof (Z.div_mod len 4096 ltac:(lia)). pose proof (Z.mod_pos_bound len 4096 ltac:(lia)).
  apply (prd_collect_ok tr frame ptr len Hb); try done; lia.
Qed.

(** A buffer of at most half a page that crosses into a second page is one region all the same: its
    bytes after the page boundary are taken to be behind the first page, wherever the second page is. *)
Theorem prd_short_crossing tr frame ptr len n :
  backed tr frame ptr len -> len <= 2048 -> 4096 < ptr mod 4096 + len -> (0 < n)%nat ->
  exists r d, prd_next tr n (prd ptr len) = Done (Some (Some r, d)) /\ addr r = phys frame ptr /\ len <= size r /\
    let k := 4096 - ptr mod 4096 in k < len /\ (phys frame (ptr + k) <> phys frame ptr + k -> tr (ptr + k) <> Done (Some (addr r + k))).
Proof.
  intros Hb H1 H2 Hn. pose proof (bk_range _ _ _ _ Hb) as Hr. pose proof (bk_len _ _ _ _ Hb) as H0. pose proof (Z.mod_pos_bound ptr 4096 ltac:(lia)) as Hm.
  destruct n as [|n]; [lia|]. unfold prd_next, prd. cbn [next]. rewrite (next_chunk_in tr frame ptr len Hb) by (done || lia).
  rewrite (proj2 (Z.ltb_lt 0 len)) by lia. cbn [mbind outcome_bind data_len]. rewrite Z.add_0_r.
  assert (Z.land (phys frame ptr) (PAGE_SIZE - 1) = ptr mod 4096) as ->.
  { change (PAGE_SIZE - 1) with (2 ^ 12 - 1). rewrite land_mask by lia. change (2 ^ 12) with 4096. unfold phys.
    rewrite <- Z.add_mod_idemp_l, (proj2 (bk_frame _ _ _ _ Hb ptr ltac:(lia))) by lia. apply Z.mod_mod. lia. }
  rewrite Z.min_r by lia. change PAGE_SIZE with 4096. cbn [extend next]. rewrite (wadd_small (4096 - len) 0) by lia.
  rewrite (next_chunk_in tr frame ptr len Hb) by (done || lia). rewrite (proj2 (Z.ltb_ge _ len)) by lia. cbn [mbind outcome_bind].
  eexists _, _. split; [done|]. cbn [addr size]. split; [done|]. split; [lia|]. split; [lia|]. intros Hne Habs.
  rewrite (bk_translate _ _ _ _ Hb) in Habs by lia. injection Habs as Habs. done.
Qed.

(** The page tables of [MemMap] back every buffer whose pages are mapped. *)
Section PageTables.
Context {F : Type} `{FS : FrameSource F} {FL : FrameSourceLaws F} `{PF : PhysFrameOps} `{PO : PteOps} {PTL : PteLaws}
  `{PA : PhysAddrOps} `{VA : VirtAddrOps} {VL : VirtAddrLaws}.

Lemma page_table_backed limit (st : OffsetPageTable (F := F)) ptr len :
  wf limit st -> 0 < len -> span ptr len ->
  (forall v, ptr <= v < ptr + len -> exists e, page_view st v = VEntry e /\ is_unused e = false /\
     contains (pte_flags e) PRESENT = true /\ contains (pte_flags e) HUGE_PAGE = false) ->
  backed (translate (Some st)) (fun p => match page_view st (p * 4096) with VEntry e => pte_addr e | _ => 0 end) ptr len.
Proof using FL PTL VL.
  intros Hwf H0 Hsp Hall.
  assert (forall v, v / 4096 * 4096 = containing_address Size4KiB v) as Hc.
  { intros v. unfold containing_address. cbn [SIZE]. pose proof (Z.div_mod v 4096 ltac:(lia)). lia. }
  split; [unfold span in Hsp; lia|unfold span in Hsp; lia| |].
  - intros v Hv. destruct (Hall v Hv) as (e & He & Hu & Hpr & Hh). unfold phys. rewrite Hc, page_view_containing, He.
    rewrite (translate_entry limit st v e); [by rewrite Hu|done|by apply (span_canonical ptr len)|done|by right].
  - intros v Hv. destruct (Hall v Hv) as (e & He & _). rewrite Hc, page_view_containing, He. apply addr_range.
Qed.

End PageTables.

(** ** Limited regions *)

(** Regions one after the other from an address on, none longer than [len]. *)
Fixpoint pieces (len a : Z) (l : list PhysicalRegionDescription) : Prop :=
  match l with [] => True | r :: l => addr r = a /\ 0 < size r <= len /\ pieces len (a + size r) l end.

Definition total (l : list PhysicalRegionDescription) : Z := foldr (fun r n => size r + n) 0 l.

Lemma limit_from desc len fuel state :
  0 < len -> 0 <= addr desc -> addr desc + size desc < 2 ^ 64 -> 0 <= state <= size desc -> size desc - state < Z.of_nat fuel ->
  exists l, adapt_all (limit_next desc len) fuel state = Some l /\ pieces len (addr desc + state) l /\ total l = size desc - state.
Proof.
  intros Hl Ha Hs. revert state. induction fuel as [|fuel IH]; intros state Hst Hf; [lia|]. cbn [adapt_all]. unfold limit_next at 1.
  destruct (Z.leb_spec (size desc) state) as [Hd|Hd]; [exists []; cbn; split; [done|]; split; [done|lia]|].
  rewrite (wsub_small (size desc) state), (wadd_small (addr desc) state) by lia. set (n := Z.min _ _). assert (0 < n <= len /\ state + n <= size desc) as Hn by lia.
  rewrite wadd_small by lia. destruct (IH (state + n)) as (l & -> & H1 & H2); [lia|lia|]. exists (mkRegion (addr desc + state) n :: l). cbn. split; [done|].
  split; [|unfold total in H2; lia]. split; [done|]. split; [lia|]. by rewrite <- Z.add_assoc.
Qed.

(** [limit] cuts a region into consecutive pieces of at most the given length that cover it exactly. *)
Theorem limit_tiles desc len :
  0 < len -> 0 <= addr desc -> 0 <= size desc -> addr desc + size desc < 2 ^ 64 ->
  exists l, limit desc len (S (Z.to_nat (size desc))) = Some l /\ pieces len (addr desc) l /\ total l = size desc.
Proof.
  intros Hl Ha H0 Hs. destruct (limit_from desc len (S (Z.to_nat (size desc))) 0) as (l & H1 & H2 & H3); try lia.
  exists l. split; [done|]. rewrite Z.add_0_r in H2. split; [done|lia].
Qed.

(** A limit of zero yields empty regions for ever. *)
Theorem limit_zero_diverges desc fuel : 0 < size desc -> is_u64 (addr desc) -> limit desc 0 fuel = None.
Proof.
  intros Hs Ha. unfold limit. induction fuel as [|fuel IH]; [done|]. cbn [adapt_all]. unfold limit_next at 1. rewrite (proj2 (Z.leb_gt (size desc) 0)) by lia.
  assert (Z.min (Z.min (size desc) 0) (size desc ⊖ 0)%u64 = 0) as ->. { pose proof (wrap64_range (size desc - 0)) as Hr. unfold wsub, is_u64 in *. lia. }
  change (0 ⊕ 0)%u64 with 0. by rewrite IH.
Qed.

(** ** Loans *)

Record loan_inv (l : Loan) : Prop := {
  li_lock : locked l = true <-> borrows l = 1%nat;
  li_one : (borrows l <= 1)%nat;
  li_guard : holder l = HGuard -> borrows l = 0%nat;
  li_held : holder l <> HNone -> inner l = Wrapped;
  li_gone : borrows l = 1%nat -> inner l = Wrapped \/ inner l = Leaked;
}.

Lemma loan_inv_step l l' : loan_inv l -> loan_step l l' -> loan_inv l'.
Proof.
  intros [H1 H2 H3 H4 H5] Hs. destruct Hs as [l Hh|l l' Hh Hu|l Hh|l l' Hh Hu|l Hb].
  - unfold guard_drop. split; cbn; try done. destruct (locked l) eqn:E; [by right|]. intros Hb. apply H1 in Hb. congruence.
  - unfold guard_unwrap in Hu. destruct (locked l) eqn:E in Hu; [done|]. injection Hu as <-. split; cbn; try done.
    intros Hb. rewrite (H3 Hh) in Hb. done.
  - unfold claim. rewrite (H3 Hh) in *. assert (inner l = Wrapped) as Hw by (apply H4; by rewrite Hh).
    destruct (lock l) as [[]|] eqn:E; [unfold locked in H1; rewrite E in H1; by destruct H1 as [H1 _]; specialize (H1 eq_refl)|split; cbn; auto; done..].
  - unfold claimed_unwrap, query_owned in Hu. destruct (locked l) eqn:E in Hu; [done|]. injection Hu as <-. split; cbn; auto.
    + intros _. assert (borrows l <> 1%nat) by (intros Hb; apply H1 in Hb; congruence). lia.
    + intros _. apply H4. by rewrite Hh.
  - assert (borrows l = 1%nat) as Hb1 by lia. unfold borrow_drop. rewrite Hb1. split; cbn; auto; done.
Qed.

Lemma loan_reachable l : rtc loan_step guard_new l -> loan_inv l.
Proof.
  assert (loan_inv guard_new) as H0 by (split; cbn; auto; done). revert H0. intros Hx Hr. revert Hx.
  induction Hr as [|x y z Hxy _ IH]; intros Hx; [done|]. apply IH. by apply (loan_inv_step x).
Qed.

(** C32. Lending is safe: however the holders of the guard and of the borrow interleave, while a borrow
    is live the buffer has been neither freed nor given back to its owner, only one borrow exists,
    and the guard is not unwrapped, so a device never writes to memory that somebody else uses. *)
Theorem dma_loan_safe l :
  rtc loan_step guard_new l -> (0 < borrows l)%nat -> borrows l = 1%nat /\ holder l <> HGuard /\ (inner l = Wrapped \/ inner l = Leaked).
Proof.
  intros Hr Hb. destruct (loan_reachable l Hr) as [H1 H2 H3 H4 H5].
  assert (borrows l = 1%nat) as Hb1 by lia. split; [done|]. split; [|auto]. intros Hh. rewrite (H3 Hh) in Hb. lia.
Qed.

(** Nothing is leaked when the borrow is returned first. *)
Lemma loan_returned_frees l : rtc loan_step guard_new l -> holder l <> HNone -> borrows l = 0%nat -> inner (guard_drop l) = Freed.
Proof.
  intros Hr Hh Hb. destruct (loan_reachable l Hr) as [H1 _ _ _ _].
  unfold guard_drop. cbn. destruct (locked l) eqn:E; [|done]. rewrite (proj1 H1) in Hb; done.
Qed.

(** A vector is recovered from a [DmaBuffer] as it was, by the type of allocator it had. *)
Theorem dma_buffer_vec_roundtrip v a : try_from a (from_vec v) = if v_alloc v =? a then Ok v else Err (from_vec v).
Proof. unfold try_from, ty_eq. cbn. destruct (Z.eqb_spec (v_alloc v) a) as [<-|]; [by destruct v|done]. Qed.

Lemma dma_buffer_box_roundtrip x : to_box (x_alloc x) (from_box x) = Ok x.
Proof. unfold to_box, ty_eq. cbn. rewrite Z.eqb_refl. by destruct x. Qed.

(** Through [to_box] a vector comes back with its capacity as length. *)
Lemma dma_buffer_to_box_capacity v : to_box (v_alloc v) (from_vec v) = Ok (mkBox (v_ptr v) (v_capacity v) (v_alloc v)).
Proof. unfold to_box, ty_eq. cbn. by rewrite Z.eqb_refl. Qed.

(** ** Witnesses *)
Module DmaWitness.

(** Three pages of the kernel heap, of which the last two are contiguous. *)
Definition HEAP_PAGE : Z := 0xffff808000000000 / 4096.
Definition frames (p : Z) : Z := if p =? HEAP_PAGE then 0x8000 else 0x20000 + (p - HEAP_PAGE) * 4096.
Definition tr (v : Z) : outcome (option Z) := Done (Some (phys frames v)).

Lemma buffer_backed : backed tr frames 0xffff808000000f00 0x1800.
Proof.
  split; [lia|lia|done|]. intros v Hv. unfold frames, HEAP_PAGE. change (0xffff808000000000 / 4096) with 0xffff808000000. assert (0xffff808000000 <= v / 4096 <= 0xffff808000002) as Hd.
  { split; [apply Z.div_le_lower_bound; lia|]. apply Z.lt_succ_r, Z.div_lt_upper_bound; lia. }
  assert (v / 4096 = 0xffff808000000 \/ v / 4096 = 0xffff808000001 \/ v / 4096 = 0xffff808000002) as [->|[->| ->]] by lia; done.
Qed.

Lemma prd_describes_witness :
  exists l, prd_all tr 0xffff808000000f00 0x1800 = Done (Some l) /\ regions_at tr 0xffff808000000f00 0x1800 0 l.
Proof. apply (prd_describes tr frames 0xffff808000000f00 0x1800 buffer_backed). left. vm_compute. discriminate. Defined.

Example prd_regions : prd_all tr 0xffff808000000f00 0x1800 = Done (Some [mkRegion 0x8f00 0x100; mkRegion 0x21000 0x1800]).
Proof. vm_compute. reflexivity. Qed.

Lemma dma_loan_safe_witness :
  let l := guard_drop (claim guard_new).2 in
  rtc loan_step guard_new l /\ borrows l = 1%nat /\ holder l <> HGuard /\ (inner l = Wrapped \/ inner l = Leaked).
Proof.
  cbv zeta. assert (rtc loan_step guard_new (guard_drop (claim guard_new).2)) as Hr.
  { apply (rtc_l _ _ (claim guard_new).2); [by apply StepClaim|]. apply rtc_once. by apply StepDrop. }
  split; [exact Hr|]. apply (dma_loan_safe _ Hr). cbn. lia.
Defined.

End DmaWitness.
