(* ===== verification/BitField.v ===== *)
(** * Bit fields

    Device structures are declared with the [bitfield] crate, which turns [name, setter: msb, lsb] into
    accessors of the bits from [lsb] to [msb].  The crate is not part of the repository: its
    accessors are the class [BitFieldOps] with their documented effect on each bit as laws.  A field
    that is declared with its bounds swapped has no documented meaning, and no law. *)
From stdpp Require Import prelude.
From S2P Require Import Prelude.
Open Scope Z_scope.

Class BitFieldOps := {
  bit_range : Z -> Z -> Z -> Z;
  set_bit_range : Z -> Z -> Z -> Z -> Z;
}.

Class BitFieldLaws `{BitFieldOps} := {
  bit_range_bits : forall w msb lsb i, 0 <= lsb <= msb -> 0 <= i ->
    Z.testbit (bit_range w msb lsb) i = if i <=? msb - lsb then Z.testbit w (i + lsb) else false;
  set_bit_range_bits : forall w msb lsb v i, 0 <= lsb <= msb -> 0 <= i ->
    Z.testbit (set_bit_range w msb lsb v) i = if (lsb <=? i) && (i <=? msb) then Z.testbit v (i - lsb) else Z.testbit w i;
}.

Section BitField.
Context `{BO : BitFieldOps}.

(** A field of one bit. *)
Definition get_bit (w n : Z) : bool := negb (bit_range w n n =? 0).
Definition put_bit (w n : Z) (b : bool) : Z := set_bit_range w n n (Z.b2z b).

End BitField.

Section BitFieldLemmas.
Context `{BO : BitFieldOps} {BL : BitFieldLaws}.

Lemma bit_range_land w msb lsb : 0 <= lsb <= msb -> bit_range w msb lsb = Z.shiftr w lsb mod 2 ^ (msb - lsb + 1).
Proof using BL.
  intros Hm. apply Z.bits_inj'. intros i Hi. rewrite bit_range_bits by done. destruct (Z.leb_spec i (msb - lsb)).
  - rewrite Z.mod_pow2_bits_low by lia. by rewrite Z.shiftr_spec.
  - by rewrite Z.mod_pow2_bits_high by lia.
Qed.

Lemma bit_range_bound w msb lsb : 0 <= lsb <= msb -> 0 <= bit_range w msb lsb < 2 ^ (msb - lsb + 1).
Proof using BL. intros Hm. rewrite bit_range_land by done. apply Z.mod_pos_bound. apply Z.pow_pos_nonneg; lia. Qed.

(** Reading what was written. *)
Lemma get_set_same w msb lsb v : 0 <= lsb <= msb -> 0 <= v < 2 ^ (msb - lsb + 1) -> bit_range (set_bit_range w msb lsb v) msb lsb = v.
Proof using BL.
  intros Hm Hv. apply Z.bits_inj'. intros i Hi. rewrite bit_range_bits, set_bit_range_bits by lia. destruct (Z.leb_spec i (msb - lsb)).
  - rewrite (proj2 (Z.leb_le lsb _)), (proj2 (Z.leb_le _ msb)) by lia. cbn [andb]. f_equal. lia.
  - rewrite <- (Z.mod_small v (2 ^ (msb - lsb + 1))) by done. by rewrite Z.mod_pow2_bits_high by lia.
Qed.

(** Fields that do not overlap do not disturb each other. *)
Lemma get_set_other w msb lsb msb' lsb' v :
  0 <= lsb <= msb -> 0 <= lsb' <= msb' -> (msb < lsb' \/ msb' < lsb) -> bit_range (set_bit_range w msb lsb v) msb' lsb' = bit_range w msb' lsb'.
Proof using BL.
  intros Hm Hm' Hd. apply Z.bits_inj'. intros i Hi. rewrite !bit_range_bits by done. destruct (Z.leb_spec i (msb' - lsb')); [|done].
  rewrite set_bit_range_bits by lia. destruct (Z.leb_spec lsb (i + lsb')), (Z.leb_spec (i + lsb') msb); cbn [andb]; try done. lia.
Qed.

Lemma get_put_bit w n b : 0 <= n -> get_bit (put_bit w n b) n = b.
Proof using BL.
  intros Hn. unfold get_bit, put_bit. rewrite get_set_same; [by destruct b|lia|]. replace (n - n + 1) with 1 by lia. destruct b; cbn; lia.
Qed.

Lemma get_put_bit_other w n n' b : 0 <= n -> 0 <= n' -> n <> n' -> get_bit (put_bit w n b) n' = get_bit w n'.
Proof using BL. intros Hn Hn' Hne. unfold get_bit, put_bit. rewrite get_set_other by lia. done. Qed.

Lemma range_put_bit w n b msb lsb : 0 <= n -> 0 <= lsb <= msb -> (n < lsb \/ msb < n) -> bit_range (put_bit w n b) msb lsb = bit_range w msb lsb.
Proof using BL. intros Hn Hm Hd. unfold put_bit. apply get_set_other; lia. Qed.

Lemma bit_set_range w msb lsb v n : 0 <= n -> 0 <= lsb <= msb -> (n < lsb \/ msb < n) -> get_bit (set_bit_range w msb lsb v) n = get_bit w n.
Proof using BL. intros Hn Hm Hd. unfold get_bit. by rewrite get_set_other by lia. Qed.

Lemma get_bit_test w n : 0 <= n -> get_bit w n = Z.testbit w n.
Proof using BL.
  intros Hn. unfold get_bit. pose proof (bit_range_bits w n n 0 ltac:(lia) ltac:(lia)) as H. replace (0 <=? n - n) with true in H by (symmetry; apply Z.leb_le; lia).
  rewrite Z.add_0_l in H. rewrite <- H. rewrite Z.bit0_odd. pose proof (bit_range_bound w n n ltac:(lia)) as Hb. replace (n - n + 1) with 1 in Hb by lia.
  assert (bit_range w n n = 0 \/ bit_range w n n = 1) as [-> | ->] by lia; done.
Qed.

Lemma set_range_zero msb lsb : 0 <= lsb <= msb -> bit_range 0 msb lsb = 0.
Proof using BL. intros Hm. rewrite bit_range_land by done. by rewrite Z.shiftr_0_l, Z.mod_0_l by (apply Z.pow_nonzero; lia). Qed.

Lemma get_bit_zero n : 0 <= n -> get_bit 0 n = false.
Proof using BL. intros Hn. rewrite get_bit_test by done. apply Z.bits_0. Qed.

End BitFieldLemmas.

(** Evaluates reads of written fields. *)
Ltac fields := repeat first [rewrite get_put_bit by lia | rewrite get_put_bit_other by lia | rewrite range_put_bit by lia | rewrite bit_set_range by lia |
                             rewrite get_set_same by lia | rewrite get_set_other by lia | rewrite set_range_zero by lia | rewrite get_bit_zero by lia].

(** ** The accessors as shifts and masks *)
Module BitFieldWitness.

#[export] Instance shift_ops : BitFieldOps := {
  bit_range w msb lsb := Z.land (Z.shiftr w lsb) (Z.ones (msb - lsb + 1));
  set_bit_range w msb lsb v := Z.lor (Z.ldiff w (Z.shiftl (Z.ones (msb - lsb + 1)) lsb)) (Z.shiftl (Z.land v (Z.ones (msb - lsb + 1))) lsb) }.

#[export] Instance shift_laws : BitFieldLaws.
Proof.
  split; intros; cbn.
  - rewrite Z.land_spec, Z.shiftr_spec, Z.testbit_ones_nonneg by lia. destruct (Z.leb_spec i (msb - lsb)).
    + rewrite (proj2 (Z.ltb_lt _ _)) by lia. apply andb_true_r.
    + rewrite (proj2 (Z.ltb_ge _ _)) by lia. apply andb_false_r.
  - rewrite Z.lor_spec, Z.ldiff_spec, !Z.shiftl_spec by lia. destruct (Z.leb_spec lsb i), (Z.leb_spec i msb); cbn [andb].
    + rewrite Z.land_spec, !Z.testbit_ones_nonneg by lia. rewrite (proj2 (Z.ltb_lt _ _)) by lia. by rewrite andb_false_r, andb_true_r.
    + rewrite Z.land_spec, !Z.testbit_ones_nonneg by lia. rewrite (proj2 (Z.ltb_ge _ _)) by lia. by rewrite andb_true_r, andb_false_r, orb_false_r.
    + rewrite !(Z.testbit_neg_r _ (i - lsb)) by lia. by rewrite andb_true_r, orb_false_r.
    + rewrite !(Z.testbit_neg_r _ (i - lsb)) by lia. by rewrite andb_true_r, orb_false_r.
Qed.

End BitFieldWitness.
