(* ===== verification/Ehci.v ===== *)
(** * EHCI data structures

    [drivers/usb/hci/ehci/src/frame_lists.rs]: link pointers, queue heads, transfer descriptors and
    isochronous descriptors that the driver and an EHCI controller share, as 32-bit words with
    bit fields.  The [volatile] accesses of the source are plain reads and writes. *)
From stdpp Require Import prelude.
From S2P Require Import Prelude BitField.
Open Scope Z_scope.

(** [!x] of a [u32]. *)
Definition not32 (x : Z) : Z := 2 ^ 32 - 1 - x.

Inductive TransactionDirection := DirOut | DirIn.

Definition direction_of_bool (b : bool) : TransactionDirection := if b then DirIn else DirOut.
Definition bool_of_direction (d : TransactionDirection) : bool := match d with DirIn => true | DirOut => false end.

(** [Endpoint::new] and [Address::new]. *)
Definition endpoint_new (endpoint : Z) : outcome Z := _ ← assert_that (endpoint <? 16); Done endpoint.
Definition address_new (address : Z) : outcome Z := _ ← assert_that (address <? 64); Done address.

Record LTarget := mkTarget { t_address : Z; t_endpoint : Z }.

Inductive FrameListLinkType := IsochronousTransferDescriptor_ | QueueHead_ | SplitTransactionIsochronousTransferDescriptor | FrameSpanTraversalNode.
#[global] Instance FrameListLinkType_eq_dec : EqDecision FrameListLinkType.
Proof. solve_decision. Defined.

Definition link_type_to (t : FrameListLinkType) : Z :=
  match t with IsochronousTransferDescriptor_ => 0 | QueueHead_ => 1 | SplitTransactionIsochronousTransferDescriptor => 2 | FrameSpanTraversalNode => 3 end.

(** [From<u32>] calls [value.try_into()].  The only conversion from [u32] is the one the standard library
    derives from this [From], which calls it again; [TryFromPrimitive] converts from [u8].  [None] when the
    fuel runs out. *)
Fixpoint link_type_from (fuel : nat) (v : Z) : option FrameListLinkType :=
  match fuel with O => None | S fuel => link_type_from fuel v end.

Inductive TransactionCount := One | Two | Three.

(** [TryFromPrimitive], from [u8], with [unwrap]. *)
Definition count_try_from (v : Z) : outcome TransactionCount :=
  if v =? 1 then Done One else if v =? 2 then Done Two else if v =? 3 then Done Three else Panic.
(** [From<u32>], as for [FrameListLinkType]. *)
Fixpoint count_from (fuel : nat) (v : Z) : option TransactionCount :=
  match fuel with O => None | S fuel => count_from fuel v end.
Definition count_to (c : TransactionCount) : Z := match c with One => 1 | Two => 2 | Three => 3 end.

Inductive EndpointSpeed := FullSpeed | LowSpeed | HighSpeed.

Definition speed_from (v : Z) : outcome EndpointSpeed :=
  let v := v mod 256 in if v =? 0 then Done FullSpeed else if v =? 1 then Done LowSpeed else if v =? 2 then Done HighSpeed else Panic.
Definition speed_to (s : EndpointSpeed) : Z := match s with FullSpeed => 0 | LowSpeed => 1 | HighSpeed => 2 end.

Inductive LPidCode := POut | PIn | PSetup.

Definition lpid_from (v : Z) : outcome LPidCode :=
  if v =? 0 then Done POut else if v =? 1 then Done PIn else if v =? 2 then Done PSetup else Panic.
Definition lpid_to (p : LPidCode) : Z := match p with POut => 0 | PIn => 1 | PSetup => 2 end.
Definition lpid_of_direction (d : TransactionDirection) : LPidCode := match d with DirIn => PIn | DirOut => POut end.

Section Structures.
Context `{BO : BitFieldOps}.

(** ** [FrameListLinkPointer] *)
Definition link_end (w : Z) : bool := get_bit w 0.
Definition link_set_end (w : Z) (b : bool) : Z := put_bit w 0 b.
Definition get_link_type (fuel : nat) (w : Z) : option FrameListLinkType := link_type_from fuel (bit_range w 2 1).
Definition set_link_type (w : Z) (t : FrameListLinkType) : Z := set_bit_range w 2 1 (link_type_to t).
Definition link_ptr (w : Z) : Z := bit_range w 31 5.
Definition link_set_ptr (w v : Z) : Z := set_bit_range w 31 5 v.

Definition set_address (w address : Z) : Z := link_set_end (link_set_ptr w (Z.shiftr address 5)) false.

(** The shift is one of [u32]. *)
Definition get_address (w : Z) : Z := Z.shiftl (link_ptr w) 5 mod 2 ^ 32.

Definition link_new (next_addr : option (Z * FrameListLinkType)) : Z :=
  match next_addr with
  | Some (ptr, ty) => link_set_end (set_link_type (set_address 0 ptr) ty) false
  | None => link_set_end 0 true
  end.

(** ** [FrameListLinkPointerWithNakCount] *)
Definition nak_count (w : Z) : Z := bit_range w 4 1.
Definition set_nak_count (w v : Z) : Z := set_bit_range w 4 1 v.
Definition nak_set_address (w addr : Z) : Z := link_set_ptr w (Z.shiftr addr 5).

(** ** [Ctl0] and [Ctl1] *)
Definition ctl0_addr (w : Z) : Z := bit_range w 6 0.
Definition ctl0_set_addr (w v : Z) : Z := set_bit_range w 6 0 v.
Definition set_inactive_on_next_transaction (w : Z) (b : bool) : Z := put_bit w 7 b.
Definition ctl0_endpoint (w : Z) : Z := bit_range w 11 8.
Definition set_enpoint (w v : Z) : Z := set_bit_range w 11 8 v.
Definition endpoint_speed (w : Z) : outcome EndpointSpeed := speed_from (bit_range w 13 12).
Definition set_endpoint_speed (w : Z) (s : EndpointSpeed) : Z := set_bit_range w 13 12 (speed_to s).
Definition get_data_toggle_ctl (w : Z) : bool := get_bit w 14.
Definition use_dt_from_qtd (w : Z) (b : bool) : Z := put_bit w 14 b.
Definition is_head_reclimation_list (w : Z) : bool := get_bit w 15.
Definition set_head_reclimation_list (w : Z) (b : bool) : Z := put_bit w 15 b.
Definition max_packet_len (w : Z) : Z := bit_range w 26 16.
Definition set_max_packet_len (w v : Z) : Z := set_bit_range w 26 16 v.
Definition set_control_endpoint_flags (w : Z) (b : bool) : Z := put_bit w 27 b.
Definition inerrupt_schedule_mask (w : Z) : Z := bit_range w 7 0.
Definition set_inerupt_schedule_mask (w v : Z) : Z := set_bit_range w 7 0 v.
Definition set_bridge_hub (w address : Z) : Z := set_bit_range w 22 16 address.
Definition get_endpoint_transaction_count (fuel : nat) (w : Z) : option TransactionCount := count_from fuel (bit_range w 31 30).
Definition set_endpoint_transaction_count (w : Z) (c : TransactionCount) : Z := set_bit_range w 31 30 (count_to c).

(** ** [QueueHead] *)
Record QueueHead := mkQh {
  next_link_ptr : Z; ctl0 : Z; ctl1 : Z; current_transaction : Z; next_pointer : Z; alternate_pointer : Z; overlay : list Z }.

Definition with_next_link (w : Z) (q : QueueHead) : QueueHead :=
  mkQh w (ctl0 q) (ctl1 q) (current_transaction q) (next_pointer q) (alternate_pointer q) (overlay q).
Definition with_ctl0 (w : Z) (q : QueueHead) : QueueHead :=
  mkQh (next_link_ptr q) w (ctl1 q) (current_transaction q) (next_pointer q) (alternate_pointer q) (overlay q).
Definition with_next_pointer (w : Z) (q : QueueHead) : QueueHead :=
  mkQh (next_link_ptr q) (ctl0 q) (ctl1 q) (current_transaction q) w (alternate_pointer q) (overlay q).

Definition qh_new (max_packet_len : Z) : QueueHead :=
  mkQh (link_new None) (set_max_packet_len 0 max_packet_len) 0 (link_set_end (link_new None) false) (link_new None) 1 (repeat 0 11).

Definition data_toggle_ctl (q : QueueHead) (b : bool) : QueueHead := with_ctl0 (use_dt_from_qtd (ctl0 q) b) q.
Definition set_max_len (q : QueueHead) (max_len : Z) : QueueHead := with_ctl0 (set_max_packet_len (ctl0 q) max_len) q.

Definition set_current_transaction (q : QueueHead) (addr : Z) : outcome QueueHead :=
  _ ← assert_that (Z.land addr (0x32 - 1) =? 0);
  Done (mkQh (next_link_ptr q) (ctl0 q) (ctl1 q) (set_address (current_transaction q) addr) (set_address (next_pointer q) addr) (alternate_pointer q) (overlay q)).

Definition set_head_of_list (q : QueueHead) : QueueHead := with_ctl0 (set_head_reclimation_list (ctl0 q) true) q.

Definition set_target (q : QueueHead) (target : LTarget) : QueueHead :=
  with_ctl0 (set_enpoint (ctl0_set_addr (ctl0 q) (t_address target)) (t_endpoint target)) q.

Definition current_qtd (q : QueueHead) : Z := get_address (current_transaction q).

Definition terminate_horizontal (q : QueueHead) (terminate : bool) : QueueHead := with_next_pointer (link_set_end (next_pointer q) terminate) q.

Definition set_next_queue_head (q : QueueHead) (addr : Z) : QueueHead :=
  terminate_horizontal (with_next_link (set_link_type (set_address (next_link_ptr q) addr) QueueHead_) q) false.

Definition set_interrupt_schedule_mask (q : QueueHead) (mask : Z) : QueueHead :=
  mkQh (next_link_ptr q) (ctl0 q) (set_inerupt_schedule_mask (ctl1 q) mask) (current_transaction q) (next_pointer q) (alternate_pointer q) (overlay q).

(** ** [QtdConfig] *)
Definition get_ping_state (w : Z) : bool := get_bit w 0.
Definition split_transaction_state (w : Z) : bool := get_bit w 1.
Definition missed_mocro_frame (w : Z) : bool := get_bit w 2.
Definition transaction_error (w : Z) : bool := get_bit w 3.
Definition babbble_detected (w : Z) : bool := get_bit w 4.
Definition data_buffer_err (w : Z) : bool := get_bit w 5.
Definition halted (w : Z) : bool := get_bit w 6.
Definition active (w : Z) : bool := get_bit w 7.
Definition config_set_active (w : Z) (b : bool) : Z := put_bit w 7 b.
Definition get_pid_code (w : Z) : outcome LPidCode := lpid_from (bit_range w 9 8).
Definition set_pid_code (w : Z) (p : LPidCode) : Z := set_bit_range w 9 8 (lpid_to p).
Definition error_count (w : Z) : Z := bit_range w 11 10.
Definition current_page (w : Z) : Z := bit_range w 14 12.
Definition set_current_page (w v : Z) : Z := set_bit_range w 14 12 v.
Definition get_interrupt_on_complete (w : Z) : bool := get_bit w 15.
Definition interrupt_on_complete (w : Z) (b : bool) : Z := put_bit w 15 b.
Definition get_expected_size (w : Z) : Z := bit_range w 30 16.
Definition expected_size (w v : Z) : Z := set_bit_range w 30 16 v.
Definition set_data_toggle (w : Z) (b : bool) : Z := put_bit w 31 b.

(** [QtdConfig::error]. *)
Definition config_error (w : Z) : bool := negb (Z.land w 0x7c =? 0).

(** ** Buffer pointers *)

(** [BufferPointerRegister], for [BufferOffset] and [BufferField]. *)
Definition get_buffer (w : Z) : Z := Z.land w (not32 (4096 - 1)).

Definition reg_set_buffer (w buffer : Z) : outcome Z :=
  _ ← assert_that (Z.land buffer (4096 - 1) =? 0);
  let buzz_cut := Z.land (get_buffer w) (4096 - 1) in
  Done (Z.lor buzz_cut buffer).

Definition reg_set_offset (w offset : Z) : outcome Z :=
  _ ← assert_that (offset <? 0x1000);
  Done (Z.lor (Z.land w (not32 (4096 - 1))) offset).

Definition reg_get_offset (w : Z) : Z := Z.land w (4096 - 1).

(** ** [QueueElementTransferDescriptor] *)
Record Qtd := mkQtd { next_qtd : Z; alt_qtd : Z; config : Z; buffer_offset : Z; buffers : list Z; high_puffer_pointers : list Z }.

Definition with_config (w : Z) (q : Qtd) : Qtd := mkQtd (next_qtd q) (alt_qtd q) w (buffer_offset q) (buffers q) (high_puffer_pointers q).

Definition qtd_new : Qtd := mkQtd (link_new None) (link_new None) (config_set_active 0 true) 0 (repeat 0 4) (repeat 0 5).

Definition set_next (q : Qtd) (next : option Z) : Qtd :=
  let w := match next with Some next => link_set_end (set_address (next_qtd q) next) false | None => link_set_end (next_qtd q) true end in
  mkQtd w (alt_qtd q) (config q) (buffer_offset q) (buffers q) (high_puffer_pointers q).

Definition set_alternate (q : Qtd) (alternate : option Z) : Qtd :=
  let w := match alternate with Some next => link_set_end (set_address (alt_qtd q) next) false | None => link_set_end (alt_qtd q) true end in
  mkQtd (next_qtd q) w (config q) (buffer_offset q) (buffers q) (high_puffer_pointers q).

Definition data_toggle (q : Qtd) (dt_state : bool) : Qtd := with_config (set_data_toggle (config q) dt_state) q.

(** Indexing out of range panics. *)
Definition set_buffer (q : Qtd) (buffer : nat) (addr : Z) : outcome Qtd :=
  q ← (match buffer with
       | 0%nat =>
           w ← reg_set_buffer (buffer_offset q) (addr mod 2 ^ 32);
           Done (mkQtd (next_qtd q) (alt_qtd q) (config q) w (buffers q) (high_puffer_pointers q))
       | 1%nat | 2%nat | 3%nat | 4%nat =>
           b ← unwrap (buffers q !! buffer);
           w ← reg_set_buffer b (addr mod 2 ^ 32);
           Done (mkQtd (next_qtd q) (alt_qtd q) (config q) (buffer_offset q) (<[buffer := w]> (buffers q)) (high_puffer_pointers q))
       | _ => Panic
       end);
  _ ← unwrap (high_puffer_pointers q !! buffer);
  Done (mkQtd (next_qtd q) (alt_qtd q) (config q) (buffer_offset q) (buffers q) (<[buffer := Z.shiftr addr 32]> (high_puffer_pointers q))).

Definition set_int_on_complete (q : Qtd) : Qtd := with_config (interrupt_on_complete (config q) true) q.
Definition set_active (q : Qtd) (b : bool) : Qtd := with_config (config_set_active (config q) b) q.
Definition is_active (q : Qtd) : bool := active (config q).
Definition set_pid (q : Qtd) (pid : LPidCode) : Qtd := with_config (set_pid_code (config q) pid) q.

Definition set_offset (q : Qtd) (offset : Z) : outcome Qtd :=
  w ← reg_set_offset (buffer_offset q) offset;
  Done (mkQtd (next_qtd q) (alt_qtd q) (config q) w (buffers q) (high_puffer_pointers q)).

Definition set_data_len (q : Qtd) (len : Z) : outcome Qtd :=
  _ ← assert_that (len <? 4096 * 5);
  Done (with_config (expected_size (config q) len) q).

(** ** Isochronous descriptors *)

(** [IsochronousTransactionDescriptor]. *)
Definition transaction_offset (w : Z) : Z := bit_range w 11 0.
Definition set_transaction_offset (w v : Z) : Z := set_bit_range w 11 0 v.
Definition selected_page (w : Z) : Z := bit_range w 14 12.
Definition set_page (w v : Z) : Z := set_bit_range w 14 12 v.
Definition td_interrupt_on_complete (w : Z) (b : bool) : Z := put_bit w 15 b.
Definition transaction_length (w : Z) : Z := bit_range w 27 16.
Definition set_transaction_length (w v : Z) : Z := set_bit_range w 27 16 v.
Definition is_pending (w : Z) : bool := get_bit w 31.
Definition set_pending (w : Z) (b : bool) : Z := put_bit w 31 b.

(** [BufferPointerField]. *)
Definition get_pointer (w : Z) : Z := Z.land w (not32 (4096 - 1)).

Definition set_pointer (w ptr : Z) : outcome Z :=
  let data := Z.land w (4096 - 1) in
  _ ← assert_that (Z.land ptr (not32 (4096 - 1)) =? 0);
  Done (Z.lor data ptr).

(** [MASK]: [!(1 << 6) - 1] is [(!(1 << 6)) - 1]. *)
Definition TGT_MASK : Z := Z.lor (not32 (Z.shiftl (not32 (Z.shiftl 1 6) - 1) 8 mod 2 ^ 32)) (not32 (Z.shiftl 1 4) - 1).

Definition set_tgt (w : Z) (target : LTarget) : Z :=
  let addr := Z.shiftl (t_endpoint target) 8 in
  let endpoint := Z.shiftl (t_endpoint target) 8 in
  Z.lor (Z.lor (Z.land w TGT_MASK) addr) endpoint.

Definition get_tgt (w : Z) : outcome LTarget :=
  let addr := Z.land w (not32 (Z.shiftl 1 6 - 1)) in
  let endpoint := Z.land (Z.shiftr w 8) (not32 (Z.shiftl 1 4 - 1)) in
  a ← address_new (addr mod 256);
  e ← endpoint_new (endpoint mod 256);
  Done (mkTarget a e).

Definition DIRECTION_BIT : Z := Z.shiftl 1 11.
Definition set_packet_size (w size : Z) : Z := size.
Definition set_direction (w : Z) (d : TransactionDirection) : Z :=
  if bool_of_direction d then Z.lor w DIRECTION_BIT else Z.land w (not32 DIRECTION_BIT).
Definition get_direction (w : Z) : TransactionDirection := direction_of_bool (negb (Z.land w DIRECTION_BIT =? 0)).
Definition get_multi_transaction (w : Z) : outcome TransactionCount := count_try_from (Z.land w 3).

Record Itd := mkItd {
  next_node : Z; descriptors : list Z; buff_addr : Z; buff_packet_desc : Z; buff_multi : Z; buffers_3_6 : list Z; high_pointers : list Z }.

Record ItdTransactionInfo := mkInfo { i_buffer : Z; i_offset : Z; i_length : option Z; i_int : bool }.

Definition info_new (buffer offset : Z) (len : option Z) (interrupt : bool) : outcome ItdTransactionInfo :=
  _ ← assert_that (buffer <? 8);
  _ ← assert_that (offset <? 1024);
  Done (mkInfo buffer offset len interrupt).

Definition itd_new (next : option (Z * FrameListLinkType)) (target : LTarget) (direction : TransactionDirection) : Itd :=
  mkItd (link_new next) (repeat 0 8) (set_tgt 0 target) (set_direction 0 direction) 0 (repeat 0 3) (repeat 0 5).

Definition itd_set_buffer (d : Itd) (buffer addr : Z) : outcome Itd :=
  _ ← assert_that (buffer <? 8);
  _ ← assert_that (addr <=? 2 ^ 32 - 1);
  d ← (if buffer =? 0 then
         w ← set_pointer (buff_addr d) addr;
         Done (mkItd (next_node d) (descriptors d) w (buff_packet_desc d) (buff_multi d) (buffers_3_6 d) (high_pointers d))
       else if buffer =? 1 then
         w ← set_pointer (buff_packet_desc d) addr;
         Done (mkItd (next_node d) (descriptors d) (buff_addr d) w (buff_multi d) (buffers_3_6 d) (high_pointers d))
       else if buffer =? 2 then
         w ← set_pointer (buff_multi d) addr;
         Done (mkItd (next_node d) (descriptors d) (buff_addr d) (buff_packet_desc d) w (buffers_3_6 d) (high_pointers d))
       else if buffer <=? 5 then
         b ← unwrap (buffers_3_6 d !! Z.to_nat (buffer - 3));
         w ← set_pointer b addr;
         Done (mkItd (next_node d) (descriptors d) (buff_addr d) (buff_packet_desc d) (buff_multi d) (<[Z.to_nat (buffer - 3) := w]> (buffers_3_6 d)) (high_pointers d))
       else Panic);
  _ ← unwrap (high_pointers d !! Z.to_nat buffer);
  Done (mkItd (next_node d) (descriptors d) (buff_addr d) (buff_packet_desc d) (buff_multi d) (buffers_3_6 d) (<[Z.to_nat buffer := Z.shiftr addr 32]> (high_pointers d))).

Definition set_transaction (d : Itd) (transaction : Z) (desc : ItdTransactionInfo) (pending : bool) : outcome Itd :=
  _ ← assert_that (transaction <? 8);
  td ← unwrap (descriptors d !! Z.to_nat transaction);
  let td := set_page td (i_buffer desc) in
  let td := set_transaction_offset td (i_offset desc) in
  let td := set_transaction_length td (default 0 (i_length desc)) in
  let td := td_interrupt_on_complete td (i_int desc) in
  let td := set_pending td pending in
  Done (mkItd (next_node d) (<[Z.to_nat transaction := td]> (descriptors d)) (buff_addr d) (buff_packet_desc d) (buff_multi d) (buffers_3_6 d) (high_pointers d)).

(** [PeriodicFrameList]. *)
Definition periodic_new : list Z := repeat 1 1024.

End Structures.

(** ** Lemmas *)
Section Laws.
Context `{BO : BitFieldOps} {BL : BitFieldLaws}.

(** A pointer that the controller can follow: 32-bit and aligned. *)
Definition link_aligned (a : Z) : Prop := 0 <= a < 2 ^ 32 /\ a mod 32 = 0.

Lemma ptr_field_aligned a : link_aligned a -> 0 <= Z.shiftr a 5 < 2 ^ 27 /\ Z.shiftl (Z.shiftr a 5) 5 mod 2 ^ 32 = a.
Proof.
  intros [Ha Hm]. rewrite Z.shiftr_div_pow2, Z.shiftl_mul_pow2 by lia. change (2 ^ 5) with 32. pose proof (Z.div_mod a 32 ltac:(lia)). split.
  - split; [apply Z.div_pos; lia|apply Z.div_lt_upper_bound; lia].
  - rewrite Z.mod_small; lia.
Qed.

(** What a link pointer says. *)
Definition link_view (w : Z) : Z * Z * bool := (get_address w, bit_range w 2 1, link_end w).

Lemma set_address_view w a : link_aligned a -> link_view (set_address w a) = (a, bit_range w 2 1, false).
Proof using BL.
  intros Ha. destruct (ptr_field_aligned a Ha) as [H1 H2]. unfold link_view, set_address, get_address, link_ptr, link_end, link_set_end, link_set_ptr. fields.
  by rewrite H2.
Qed.

Lemma link_type_bits t : 0 <= link_type_to t < 2 ^ (2 - 1 + 1).
Proof. by destruct t. Qed.

Lemma set_link_type_view w t : link_view (set_link_type w t) = (get_address w, link_type_to t, link_end w).
Proof using BL.
  unfold link_view, set_link_type, get_address, link_ptr, link_end. pose proof (link_type_bits t). by fields.
Qed.

Lemma set_end_view w b : link_view (link_set_end w b) = (get_address w, bit_range w 2 1, b).
Proof using BL. unfold link_view, link_set_end, get_address, link_ptr, link_end. by fields. Qed.

(** [FrameListLinkPointer::new]: a link to an aligned address, or a terminated one. *)
Lemma link_new_view a t : link_aligned a -> link_view (link_new (Some (a, t))) = (a, link_type_to t, false).
Proof using BL.
  intros Ha. unfold link_new. rewrite set_end_view. pose proof (set_link_type_view (set_address 0 a) t) as H1. pose proof (set_address_view 0 a Ha) as H2.
  unfold link_view in *. congruence.
Qed.

Lemma link_new_none : link_end (link_new None) = true.
Proof using BL. unfold link_new, link_end, link_set_end. by fields. Qed.

(** The conversions from [u32] call themselves. *)
Theorem link_type_from_diverges fuel v : link_type_from fuel v = None /\ count_from fuel v = None.
Proof. induction fuel as [|fuel IH]; done. Qed.

(** *** Queue heads *)

(** What a queue head tells the controller about its endpoint. *)
Record QhView := mkQhView { q_addr : Z; q_endpoint : Z; q_max : Z; q_toggle_ctl : bool; q_head : bool; q_mask : Z }.

Definition qh_view (q : QueueHead) : QhView :=
  mkQhView (ctl0_addr (ctl0 q)) (ctl0_endpoint (ctl0 q)) (max_packet_len (ctl0 q)) (get_data_toggle_ctl (ctl0 q)) (is_head_reclimation_list (ctl0 q))
    (inerrupt_schedule_mask (ctl1 q)).

Ltac qh_fields := unfold qh_view, set_max_len, data_toggle_ctl, set_target, set_head_of_list, set_interrupt_schedule_mask, with_ctl0, ctl0_addr, ctl0_set_addr, ctl0_endpoint, set_enpoint,
  max_packet_len, set_max_packet_len, get_data_toggle_ctl, use_dt_from_qtd, is_head_reclimation_list, set_head_reclimation_list, inerrupt_schedule_mask,
  set_inerupt_schedule_mask in *; cbn [ctl0 ctl1 next_link_ptr current_transaction next_pointer q_addr q_endpoint q_max q_toggle_ctl q_head q_mask] in *; fields.

Lemma qh_new_view n : 0 <= n < 2 ^ 11 -> qh_view (qh_new n) = mkQhView 0 0 n false false 0.
Proof using BL. intros Hn. unfold qh_new. qh_fields. done. Qed.

Lemma qh_set_max_view q n : 0 <= n < 2 ^ 11 ->
  qh_view (set_max_len q n) = mkQhView (q_addr (qh_view q)) (q_endpoint (qh_view q)) n (q_toggle_ctl (qh_view q)) (q_head (qh_view q)) (q_mask (qh_view q)).
Proof using BL. intros Hn. qh_fields. done. Qed.

Lemma qh_toggle_view q b :
  qh_view (data_toggle_ctl q b) = mkQhView (q_addr (qh_view q)) (q_endpoint (qh_view q)) (q_max (qh_view q)) b (q_head (qh_view q)) (q_mask (qh_view q)).
Proof using BL. qh_fields. done. Qed.

Lemma qh_target_view q t : 0 <= t_address t < 64 -> 0 <= t_endpoint t < 16 ->
  qh_view (set_target q t) = mkQhView (t_address t) (t_endpoint t) (q_max (qh_view q)) (q_toggle_ctl (qh_view q)) (q_head (qh_view q)) (q_mask (qh_view q)).
Proof using BL. intros Ha He. qh_fields. done. Qed.

Lemma qh_head_view q :
  qh_view (set_head_of_list q) = mkQhView (q_addr (qh_view q)) (q_endpoint (qh_view q)) (q_max (qh_view q)) (q_toggle_ctl (qh_view q)) true (q_mask (qh_view q)).
Proof using BL. qh_fields. done. Qed.

Lemma qh_mask_view q m : 0 <= m < 2 ^ 8 ->
  qh_view (set_interrupt_schedule_mask q m) = mkQhView (q_addr (qh_view q)) (q_endpoint (qh_view q)) (q_max (qh_view q)) (q_toggle_ctl (qh_view q)) (q_head (qh_view q)) m.
Proof using BL. intros Hm. qh_fields. done. Qed.

(** [set_next_queue_head] links to another queue head and leaves the endpoint alone. *)
Lemma set_next_queue_head_view q a : link_aligned a ->
  link_view (next_link_ptr (set_next_queue_head q a)) = (a, link_type_to QueueHead_, false) /\ qh_view (set_next_queue_head q a) = qh_view q.
Proof using BL.
  intros Ha. split; [|done]. unfold set_next_queue_head. cbn [next_link_ptr with_next_link terminate_horizontal with_next_pointer].
  pose proof (set_link_type_view (set_address (next_link_ptr q) a) QueueHead_) as H1. pose proof (set_address_view (next_link_ptr q) a Ha) as H2.
  unfold link_view in *. congruence.
Qed.

(** [terminate_horizontal] does not end the horizontal list: it changes the pointer to the next
    transfer descriptor. *)
Theorem terminate_horizontal_vertical q b :
  next_link_ptr (terminate_horizontal q b) = next_link_ptr q /\ link_end (next_pointer (terminate_horizontal q b)) = b.
Proof using BL. split; [done|]. unfold link_end. cbn. unfold link_set_end. by fields. Qed.

(** [set_current_transaction] tests the alignment with [0x32] for 32: half of the aligned addresses panic. *)
Theorem set_current_transaction_panics q a : Z.testbit a 5 = true -> set_current_transaction q a = Panic.
Proof.
  intros Ha. unfold set_current_transaction. destruct (Z.eqb_spec (Z.land a (0x32 - 1)) 0) as [E|E]; [|done].
  apply (f_equal (fun z => Z.testbit z 5)) in E. rewrite Z.land_spec, Ha, Z.bits_0 in E. done.
Qed.

Lemma set_current_transaction_ok q a : 0 <= a < 2 ^ 32 -> a mod 64 = 0 ->
  exists q', set_current_transaction q a = Done q' /\ current_qtd q' = a /\ link_end (next_pointer q') = false /\ get_address (next_pointer q') = a /\
    next_link_ptr q' = next_link_ptr q /\ qh_view q' = qh_view q.
Proof using BL.
  intros Ha Hm. assert (link_aligned a) as Hal.
  { split; [done|]. pose proof (Z.div_mod a 64 ltac:(lia)) as Hd. rewrite Hm, Z.add_0_r in Hd. rewrite Hd. replace (64 * (a / 64)) with (2 * (a / 64) * 32) by lia. apply Z_mod_mult. }
  assert (Z.land a (0x32 - 1) = 0) as Hz.
  { change (0x32 - 1) with (Z.land (2 ^ 6 - 1) 0x31). rewrite Z.land_assoc, land_mask by lia. change (2 ^ 6) with 64. by rewrite Hm. }
  unfold set_current_transaction. rewrite Hz. cbn [Z.eqb assert_that mbind outcome_bind]. eexists. split; [done|]. unfold current_qtd. cbn [current_transaction next_pointer next_link_ptr].
  pose proof (set_address_view (current_transaction q) a Hal) as H1. pose proof (set_address_view (next_pointer q) a Hal) as H2. unfold link_view in *.
  injection H1 as H1 _ _. injection H2 as H2 _ H2'. done.
Qed.

(** *** Transfer descriptors *)

Record QtdView := mkQtdView { w_active : bool; w_pid : Z; w_ioc : bool; w_len : Z; w_toggle : bool; w_error : bool }.

Definition qtd_view (q : Qtd) : QtdView :=
  let w := config q in mkQtdView (active w) (bit_range w 9 8) (get_interrupt_on_complete w) (get_expected_size w) (get_bit w 31) (halted w).

Ltac qtd_fields := unfold qtd_view, data_toggle, set_int_on_complete, set_active, set_pid, with_config, active, config_set_active, set_pid_code, get_interrupt_on_complete,
  interrupt_on_complete, get_expected_size, expected_size, set_data_toggle, halted in *; cbn [config w_active w_pid w_ioc w_len w_toggle w_error] in *; fields.

Lemma qtd_new_view : qtd_view qtd_new = mkQtdView true 0 false 0 false false.
Proof using BL. unfold qtd_new. qtd_fields. done. Qed.

Lemma qtd_pid_view q p :
  qtd_view (set_pid q p) = mkQtdView (w_active (qtd_view q)) (lpid_to p) (w_ioc (qtd_view q)) (w_len (qtd_view q)) (w_toggle (qtd_view q)) (w_error (qtd_view q)).
Proof using BL. assert (0 <= lpid_to p < 2 ^ (9 - 8 + 1)) by by destruct p. qtd_fields. done. Qed.

Lemma qtd_active_view q b :
  qtd_view (set_active q b) = mkQtdView b (w_pid (qtd_view q)) (w_ioc (qtd_view q)) (w_len (qtd_view q)) (w_toggle (qtd_view q)) (w_error (qtd_view q)).
Proof using BL. qtd_fields. done. Qed.

Lemma qtd_ioc_view q :
  qtd_view (set_int_on_complete q) = mkQtdView (w_active (qtd_view q)) (w_pid (qtd_view q)) true (w_len (qtd_view q)) (w_toggle (qtd_view q)) (w_error (qtd_view q)).
Proof using BL. qtd_fields. done. Qed.

Lemma qtd_toggle_view q b :
  qtd_view (data_toggle q b) = mkQtdView (w_active (qtd_view q)) (w_pid (qtd_view q)) (w_ioc (qtd_view q)) (w_len (qtd_view q)) b (w_error (qtd_view q)).
Proof using BL. qtd_fields. done. Qed.

(** The length is stored when it is below 20 KiB; the full 20 KiB that a descriptor can hold panics. *)
Lemma qtd_len_view q n : 0 <= n ->
  if n <? 20480 then exists q', set_data_len q n = Done q' /\ next_qtd q' = next_qtd q /\ buffers q' = buffers q /\ buffer_offset q' = buffer_offset q /\
    qtd_view q' = mkQtdView (w_active (qtd_view q)) (w_pid (qtd_view q)) (w_ioc (qtd_view q)) n (w_toggle (qtd_view q)) (w_error (qtd_view q))
  else set_data_len q n = Panic.
Proof using BL.
  intros Hn. unfold set_data_len. change (4096 * 5) with 20480. destruct (Z.ltb_spec n 20480); cbn [assert_that mbind outcome_bind]; [|done].
  eexists. split; [done|]. do 3 (split; [done|]). qtd_fields. done.
Qed.

Lemma page_masks a : a mod 4096 = 0 -> Z.land a (4096 - 1) = 0.
Proof. intros Ha. change (4096 - 1) with (2 ^ 12 - 1). rewrite land_mask by lia. done. Qed.

Lemma get_buffer_low w : Z.land (get_buffer w) (4096 - 1) = 0.
Proof.
  unfold get_buffer. rewrite <- Z.land_assoc. assert (Z.land (not32 (4096 - 1)) (4096 - 1) = 0) as -> by done. apply Z.land_0_r.
Qed.

(** Setting a buffer pointer replaces the whole register, the offset in its low bits too. *)
Lemma reg_set_buffer_ok w a : a mod 4096 = 0 -> reg_set_buffer w a = Done a.
Proof. intros Ha. unfold reg_set_buffer. rewrite (page_masks a) by done. cbn [Z.eqb assert_that mbind outcome_bind]. by rewrite get_buffer_low. Qed.

(** The five pages of a descriptor are stored in order, the first in the register with the offset and
    the others in [buffers]; page [i] belongs at index [i - 1].  [set_buffer] stores it at index [i]. *)
Theorem set_buffer_shifted q i a :
  (1 <= i <= 3)%nat -> length (buffers q) = 4%nat -> length (high_puffer_pointers q) = 5%nat -> 0 <= a < 2 ^ 32 -> a mod 4096 = 0 ->
  exists q', set_buffer q i a = Done q' /\ buffers q' !! i = Some a /\ buffers q' !! (i - 1)%nat = buffers q !! (i - 1)%nat.
Proof.
  intros Hi Hb Hh Ha Hm. assert (is_Some (buffers q !! i)) as [b Hbi] by (apply lookup_lt_is_Some; lia).
  assert (is_Some (high_puffer_pointers q !! i)) as [h Hhi] by (apply lookup_lt_is_Some; lia).
  assert (set_buffer q i a = Done (mkQtd (next_qtd q) (alt_qtd q) (config q) (buffer_offset q) (<[i:=a]> (buffers q)) (<[i:=Z.shiftr a 32]> (high_puffer_pointers q)))) as ->.
  { unfold set_buffer. destruct i as [|[|[|[|]]]]; try lia; rewrite Hbi; cbn [unwrap mbind outcome_bind]; rewrite Z.mod_small by done; rewrite reg_set_buffer_ok by done;
      cbn [mbind outcome_bind high_puffer_pointers]; rewrite Hhi; done. }
  eexists. split; [done|]. cbn [buffers]. split; [apply list_lookup_insert_eq; lia|]. apply list_lookup_insert_ne. lia.
Qed.

(** The fifth page cannot be set. *)
Theorem set_buffer_last_panics q a : length (buffers q) = 4%nat -> set_buffer q 4 a = Panic.
Proof. intros Hb. unfold set_buffer. rewrite lookup_ge_None_2 by lia. done. Qed.

Lemma set_buffer_0 q a : length (high_puffer_pointers q) = 5%nat -> a mod 4096 = 0 ->
  set_buffer q 0 a = Done (mkQtd (next_qtd q) (alt_qtd q) (config q) (a mod 2 ^ 32) (buffers q) (<[0%nat:=Z.shiftr a 32]> (high_puffer_pointers q))).
Proof.
  intros Hh Ha. unfold set_buffer. assert (a mod 2 ^ 32 mod 4096 = 0) as Hm.
  { change (2 ^ 32) with (4096 * 2 ^ 20). rewrite Z.rem_mul_r by lia. rewrite Ha, Z.add_0_l, Z.mul_comm. apply Z_mod_mult. }
  rewrite reg_set_buffer_ok by done. cbn [mbind outcome_bind high_puffer_pointers].
  assert (is_Some (high_puffer_pointers q !! 0%nat)) as [h ->] by (apply lookup_lt_is_Some; lia). done.
Qed.

Lemma page_kept a : 0 <= a < 2 ^ 32 -> a mod 4096 = 0 -> Z.land a (not32 (4096 - 1)) = a.
Proof.
  intros Ha Hm. change (not32 (4096 - 1)) with (Z.ldiff (Z.ones 32) (Z.ones 12)). rewrite <- (Z.mod_small a (2 ^ 32)) at 1 by done. rewrite <- Z.land_ones by lia.
  apply Z.bits_inj'. intros i Hi. rewrite !Z.land_spec, Z.ldiff_spec, !Z.testbit_ones_nonneg by lia.
  destruct (Z.ltb_spec i 12), (Z.ltb_spec i 32); cbn [negb andb]; rewrite ?andb_true_r, ?andb_false_r; try done; try lia.
  - symmetry. rewrite <- (Z.mod_pow2_bits_low a 12) by lia. change (2 ^ 12) with 4096. by rewrite Hm, Z.bits_0.
  - symmetry. rewrite <- (Z.mod_small a (2 ^ 32)) by done. by apply Z.mod_pow2_bits_high.
Qed.

(** Offset and page address do not share bits. *)
Lemma reg_set_offset_ok w off : 0 <= w < 2 ^ 32 -> w mod 4096 = 0 -> 0 <= off < 4096 -> reg_set_offset w off = Done (w + off).
Proof.
  intros Hw Hm Ho. unfold reg_set_offset. rewrite (proj2 (Z.ltb_lt off 0x1000)) by lia. cbn [assert_that mbind outcome_bind]. rewrite page_kept by done. f_equal.
  assert (Z.land w off = 0) as Hz.
  { apply Z.bits_inj'. intros i Hi. rewrite Z.land_spec, Z.bits_0. destruct (Z.lt_ge_cases i 12).
    - rewrite <- (Z.mod_pow2_bits_low w 12) by lia. change (2 ^ 12) with 4096. by rewrite Hm, Z.bits_0.
    - rewrite <- (Z.mod_small off (2 ^ 12)) by lia. rewrite Z.mod_pow2_bits_high by lia. apply andb_false_r. }
  rewrite <- Z.lxor_lor by done. symmetry. by apply Z.add_nocarry_lxor.
Qed.

(** Offset and pointer of the first page share a register; the offset has to be set last. *)
Theorem buffer_offset_order q a off :
  length (high_puffer_pointers q) = 5%nat -> 0 <= a < 2 ^ 32 -> a mod 4096 = 0 -> 0 <= off < 4096 ->
  (exists q1 q2, set_buffer q 0 a = Done q1 /\ set_offset q1 off = Done q2 /\ buffer_offset q2 = a + off) /\
  (exists q1 q2, set_offset q off = Done q1 /\ set_buffer q1 0 a = Done q2 /\ buffer_offset q2 = a).
Proof.
  intros Hh Ha Hm Ho. split.
  - rewrite set_buffer_0 by done. eexists _, _. split; [done|]. unfold set_offset. cbn [buffer_offset]. rewrite (Z.mod_small a) by done.
    rewrite reg_set_offset_ok by done. cbn [mbind outcome_bind]. split; done.
  - unfold set_offset, reg_set_offset. rewrite (proj2 (Z.ltb_lt off 0x1000)) by lia. cbn [assert_that mbind outcome_bind]. eexists _, _. split; [done|].
    rewrite set_buffer_0 by done. split; [done|]. cbn [buffer_offset]. by apply Z.mod_small.
Qed.

(** *** Isochronous descriptors *)

(** [set_transaction] sets the fields of the selected transaction and no other transaction. *)
Theorem set_transaction_spec d t info p :
  0 <= t < 8 -> length (descriptors d) = 8%nat -> 0 <= i_buffer info < 8 -> 0 <= i_offset info < 1024 -> (forall n, i_length info = Some n -> 0 <= n < 2 ^ 12) ->
  exists d' w, set_transaction d t info p = Done d' /\ descriptors d' = <[Z.to_nat t := w]> (descriptors d) /\
    selected_page w = i_buffer info /\ transaction_offset w = i_offset info /\ transaction_length w = default 0 (i_length info) /\ is_pending w = p.
Proof using BL.
  intros Ht Hd Hb Ho Hl. unfold set_transaction. rewrite (proj2 (Z.ltb_lt t 8)) by lia. cbn [assert_that mbind outcome_bind].
  assert (is_Some (descriptors d !! Z.to_nat t)) as [w ->] by (apply lookup_lt_is_Some; lia). cbn [unwrap mbind outcome_bind]. eexists _, _. split; [done|]. split; [done|].
  assert (0 <= default 0 (i_length info) < 2 ^ 12) as Hlen by (destruct (i_length info); cbn; [by apply Hl|lia]).
  unfold selected_page, transaction_offset, transaction_length, is_pending, set_pending, td_interrupt_on_complete, set_transaction_length, set_transaction_offset, set_page. fields. done.
Qed.

(** [set_pointer] accepts only what is not a page address: every page but the first panics. *)
Theorem set_pointer_panics w a : 0 < a < 2 ^ 32 -> a mod 4096 = 0 -> set_pointer w a = Panic.
Proof.
  intros Ha Hm. unfold set_pointer. destruct (Z.eqb_spec (Z.land a (not32 (4096 - 1))) 0) as [E|E]; [|done]. exfalso.
  assert (a = 0); [|lia]. apply Z.bits_inj'. intros i Hi. rewrite Z.bits_0. destruct (Z.lt_ge_cases i 12).
  - rewrite <- (Z.mod_pow2_bits_low a 12) by lia. change (2 ^ 12) with 4096. by rewrite Hm, Z.bits_0.
  - destruct (Z.lt_ge_cases i 32); [|rewrite <- (Z.mod_small a (2 ^ 32)) by lia; by apply Z.mod_pow2_bits_high].
    apply (f_equal (fun z => Z.testbit z i)) in E. rewrite Z.land_spec, Z.bits_0 in E. change (not32 (4096 - 1)) with (Z.ldiff (Z.ones 32) (Z.ones 12)) in E.
    rewrite Z.ldiff_spec, !Z.testbit_ones_nonneg in E by lia. rewrite (proj2 (Z.ltb_lt i 32)), (proj2 (Z.ltb_ge i 12)) in E by lia. by rewrite andb_true_r in E.
Qed.

(** The target of an isochronous descriptor never holds the device address. *)
Theorem set_tgt_forgets_address w a a' e : set_tgt w (mkTarget a e) = set_tgt w (mkTarget a' e).
Proof. done. Qed.

End Laws.
