(* ===== verification/EhciQueue.v ===== *)
(** * EHCI endpoint queues

    [drivers/usb/src/ehci.rs] (transaction strings and endpoint queues) and the vocabulary of
    [drivers/usb/src/lib.rs].

    Transfer descriptors are boxes in DMA memory that the controller also writes to, so they live
    in a store by physical address.  [DmaAlloc::new(Mem32, 32)] is the supply of the addresses it
    will hand out; [mem_map::translate_ptr] of a box is its address in the store.  Sending a
    completion wakes a task and is the completion itself here. *)
From stdpp Require Import prelude gmap.
From S2P Require Import Prelude HighOrder FrameAlloc Dma BitField Ehci.
Open Scope Z_scope.

(** ** USB vocabulary *)
Inductive DeviceAddress := DefaultAddress | Address (n : Z).
#[global] Instance DeviceAddress_eq_dec : EqDecision DeviceAddress.
Proof. solve_decision. Defined.

Definition device_address_new (address : Z) : option DeviceAddress :=
  if address =? 0 then Some DefaultAddress else if (1 <=? address) && (address <? 64) then Some (Address address) else None.

Definition device_address_to (a : DeviceAddress) : Z := match a with DefaultAddress => 0 | Address n => n end.

(** [Endpoint::new]. *)
Definition usb_endpoint_new (num : Z) : option Z := if (0 <=? num) && (num <? 16) then Some num else None.

Record Target := mkUTarget { dev : DeviceAddress; endpoint : Z }.
#[global] Instance Target_eq_dec : EqDecision Target.
Proof. solve_decision. Defined.

(** [TryFrom<Target>]. *)
Definition target_try_from (value : Target) : outcome (result LTarget unit) :=
  match dev value with
  | Address n =>
      if 64 <=? n then Done (Err tt)
      else a ← address_new n; e ← endpoint_new (endpoint value); Done (Ok (mkTarget a e))
  | DefaultAddress => a ← address_new 0; e ← endpoint_new (endpoint value); Done (Ok (mkTarget a e))
  end.

Inductive PidCode := Control | In | Out.
#[global] Instance PidCode_eq_dec : EqDecision PidCode.
Proof. solve_decision. Defined.

Definition pid_of_lists (code : LPidCode) : PidCode := match code with POut => Out | PIn => In | PSetup => Control end.
Definition pid_to_lists (code : PidCode) : LPidCode := match code with In => PIn | Out => POut | Control => PSetup end.

Inductive UsbError := UsbOk | RecoveredError | Halted.

(** The derived order. *)
Definition usb_rank (e : UsbError) : nat := match e with UsbOk => 0 | RecoveredError => 1 | Halted => 2 end.
Definition usb_add_assign (self other : UsbError) : UsbError := if (usb_rank self <? usb_rank other)%nat then other else self.
Definition to_result (e : UsbError) : result UsbError unit := match e with UsbOk => Ok e | RecoveredError => Ok e | Halted => Err tt end.

(** ** DMA memory *)
Record DmaMem := mkDma { qtds : gmap Z Qtd; supply : list Z }.

(** [Box::new_in]: the next address of the supply. *)
Definition dma_new (m : DmaMem) (q : Qtd) : outcome (Z * DmaMem) :=
  match supply m with [] => Panic | a :: l => Done (a, mkDma (<[a := q]> (qtds m)) l) end.

Definition dma_get (m : DmaMem) (a : Z) : outcome Qtd := unwrap (qtds m !! a).
Definition dma_set (m : DmaMem) (a : Z) (q : Qtd) : DmaMem := mkDma (<[a := q]> (qtds m)) (supply m).

(** [translate_ptr(..).unwrap().try_into().unwrap()]. *)
Definition as_u32 (a : Z) : outcome Z := if (0 <=? a) && (a <? 2 ^ 32) then Done a else Panic.

(** ** Transaction strings *)
Inductive TransactionStringMetadata := MControl | NormalData.
Inductive TransactionStringState := SNone | SInterrupt | SCompleted | SError.
Inductive StringInterruptConfiguration := Never | End_ | Always.

(** [str] holds the addresses of the descriptors, [data_len] the length of the data buffer. *)
Record TransactionString := mkString { meta : TransactionStringMetadata; str : list Z; data_len : Z }.

Record StringCompletion := mkCompletion { c_len : Z; c_state : result UsbError unit }.

(** [(start..end).step_by(PAGE_SIZE)]. *)
Fixpoint step_by (n : nat) (a b : Z) : list Z :=
  match n with O => [] | S n => if a <? b then a :: step_by n (a + PAGE_SIZE) b else [] end.

(** The pages that a region of physical memory touches. *)
Definition region_pages (r : PhysicalRegionDescription) : list Z :=
  let start_frame := Z.land (addr r) (wnot (PAGE_SIZE - 1)) in
  step_by (Z.to_nat (size r / PAGE_SIZE + 2)) start_frame (addr r ⊕ size r)%u64.

Definition div_ceil (a b : Z) : Z := (a + b - 1) / b.

Section Strings.
Context `{BO : BitFieldOps}.

(** [for i in 0..qtd_pages]: the pages of the descriptor, taken from the iterator. *)
Fixpoint fill_pages (n i : nat) (peek_last : bool) (q : Qtd) (prd : list Z) : outcome (Qtd * list Z) :=
  match n with
  | O => Done (q, prd)
  | S n =>
      if (i =? 5)%nat && peek_last then
        a ← unwrap (head prd);
        q ← set_buffer q i a;
        Done (q, prd)
      else
        a ← unwrap (head prd);
        q ← set_buffer q i a;
        fill_pages n (S i) peek_last q (tail prd)
  end.

(** Boxes a descriptor and links it behind the last one of the string. *)
Definition push_qtd (m : DmaMem) (string : list Z) (q : Qtd) : outcome (list Z * DmaMem) :=
  r ← dma_new m q;
  let '(b, m) := r in
  m ← (match last string with
       | Some l => lq ← dma_get m l; a ← as_u32 b; Done (dma_set m l (set_next lq (Some a)))
       | None => Done m
       end);
  Done (string ++ [b], m).

(** The [while] loop of [TransactionString::new]; [None] when the fuel runs out. *)
Fixpoint string_loop (fuel : nat) (cursor tgt_len transaction_len : Z) (pid : PidCode) (prd : list Z) (string : list Z) (m : DmaMem) :
    outcome (option (list Z * DmaMem)) :=
  match fuel with
  | O => Done None
  | S fuel =>
      if cursor <? tgt_len then
        _ ← assert_that (negb (transaction_len =? 0));
        let packets := Z.min 20480 (tgt_len - cursor) / transaction_len in
        let qtd_len_bytes := packets * transaction_len in
        let qtd_pages := div_ceil qtd_len_bytes PAGE_SIZE in
        let peek_last := (qtd_pages =? 5) && (qtd_len_bytes / PAGE_SIZE =? 4) in
        let qtd := set_pid qtd_new (pid_to_lists pid) in
        r ← fill_pages (Z.to_nat qtd_pages) 0 peek_last qtd prd;
        let '(qtd, prd) := r in
        qtd ← set_data_len qtd qtd_len_bytes;
        r ← push_qtd m string qtd;
        let '(string, m) := r in
        string_loop fuel (cursor + qtd_len_bytes) tgt_len transaction_len pid prd string m
      else Done (Some (string, m))
  end.

Fixpoint int_all (m : DmaMem) (l : list Z) : outcome DmaMem :=
  match l with [] => Done m | a :: l => q ← dma_get m a; int_all (dma_set m a (set_int_on_complete q)) l end.

(** [TransactionString::new]: a payload at [ptr], of [len] bytes, that lies in [regions].
    [&payload[0]] panics for an empty one. *)
Definition string_new (fuel : nat) (ptr len : Z) (regions : list PhysicalRegionDescription) (transaction_len : Z)
    (interrupt : StringInterruptConfiguration) (pid : PidCode) (m : DmaMem) : outcome (option (TransactionString * DmaMem)) :=
  _ ← assert_that (0 <? len);
  let offset_into_initial := Z.land ptr (PAGE_SIZE - 1) in
  r ← string_loop fuel offset_into_initial (len + offset_into_initial) transaction_len pid (regions ≫= region_pages) [] m;
  match r with
  | None => Done None
  | Some (string, m) =>
      m ← (match string with
           | a :: _ => q ← dma_get m a; q ← set_offset q offset_into_initial; Done (dma_set m a q)
           | [] => Done m
           end);
      m ← (match interrupt with
           | Never => Done m
           | End_ => a ← unwrap (last string); q ← dma_get m a; Done (dma_set m a (set_int_on_complete q))
           | Always => int_all m string
           end);
      Done (Some (mkString NormalData string len, m))
  end.

Fixpoint alt_all (m : DmaMem) (l : list Z) (a : Z) : outcome DmaMem :=
  match l with [] => Done m | x :: l => q ← dma_get m x; alt_all (dma_set m x (set_alternate q (Some a))) l a end.

Definition append_string (s other : TransactionString) (m : DmaMem) : outcome DmaMem :=
  next ← unwrap (head (str other));
  next_addr ← as_u32 next;
  tail ← unwrap (last (str s));
  q ← dma_get m tail;
  let m := dma_set m tail (set_alternate (set_next q (Some next_addr)) (Some next_addr)) in
  alt_all m (str s) next_addr.

(** The loop of [evaluate_state] for data strings; [i] is the index of the head of [l]. *)
Fixpoint evaluate_loop (m : DmaMem) (last_qtd : Z) (len i : nat) (rc : TransactionStringState) (l : list Z) : outcome (TransactionStringState * bool) :=
  match l with
  | [] => Panic
  | a :: l =>
      q ← dma_get m a;
      let c := config q in
      let qtd_phys_addr := a mod 2 ^ 32 in
      let rest rc :=
        if (i + 1 =? len)%nat then Done (SCompleted, false)
        else if qtd_phys_addr =? last_qtd then Done (rc, true)
        else evaluate_loop m last_qtd len (S i) rc l in
      if config_error c then Done (SError, true)
      else if negb (is_active q) && negb (get_expected_size c =? 0) then Done (SCompleted, false)
      else if negb (is_active q) && get_interrupt_on_complete c then rest SInterrupt
      else if active c && negb (qtd_phys_addr =? last_qtd) && (i =? 0)%nat then Done (SCompleted, false)
      else rest rc
  end.

(** The loop for control strings. *)
Fixpoint control_loop (m : DmaMem) (l : list Z) : outcome (TransactionStringState * bool) :=
  match l with
  | [] => Panic
  | a :: l =>
      q ← dma_get m a;
      if is_active q then Done (SNone, false) else if config_error (config q) then Done (SError, true) else control_loop m l
  end.

Definition evaluate_state (s : TransactionString) (m : DmaMem) (last_qtd : Z) : outcome (TransactionStringState * bool) :=
  match meta s with
  | NormalData => evaluate_loop m last_qtd (length (str s)) 0 SNone (str s)
  | MControl =>
      a ← unwrap (last (str s));
      q ← dma_get m a;
      if negb (active (config q)) then Done (SCompleted, false) else control_loop m (str s)
  end.

Definition set_tail_interrupt (s : TransactionString) (m : DmaMem) : outcome DmaMem :=
  match last (str s) with None => Done m | Some a => q ← dma_get m a; Done (dma_set m a (set_int_on_complete q)) end.

(** The five tests on each descriptor. *)
Definition add_errors (state : UsbError) (c : Z) : UsbError :=
  let state := if missed_mocro_frame c then usb_add_assign state RecoveredError else state in
  let state := if data_buffer_err c then usb_add_assign state RecoveredError else state in
  let state := if transaction_error c then usb_add_assign state RecoveredError else state in
  let state := if babbble_detected c then usb_add_assign state Halted else state in
  if halted c then usb_add_assign state Halted else state.

Fixpoint sum_errors (m : DmaMem) (l : list Z) (state : UsbError) : outcome UsbError :=
  match l with [] => Done state | a :: l => q ← dma_get m a; sum_errors m l (add_errors state (config q)) end.

Fixpoint sum_lens (m : DmaMem) (l : list Z) (len : Z) : outcome Z :=
  match l with [] => Done len | a :: l => q ← dma_get m a; sum_lens m l (len ⊖ get_expected_size (config q))%u64 end.

(** [complete]: what is sent to the task, and the last descriptor. *)
Definition complete (s : TransactionString) (m : DmaMem) : outcome (StringCompletion * option Z) :=
  comp ← (match meta s with
          | MControl =>
              a ← unwrap (str s !! 1%nat);
              q ← dma_get m a;
              let len := (data_len s ⊖ get_expected_size (config q))%u64 in
              state ← sum_errors m (str s) UsbOk;
              Done (mkCompletion len (to_result state))
          | NormalData =>
              len ← sum_lens m (str s) (data_len s);
              state ← sum_errors m (str s) UsbOk;
              Done (mkCompletion len (to_result state))
          end);
  Done (comp, last (str s)).

(** ** Control strings *)
Definition string_empty : TransactionString := mkString MControl [] 0.

(** [for (i, region) in ..]: the first five pages. *)
Fixpoint fill_first (i : nat) (q : Qtd) (pages : list Z) : outcome Qtd :=
  match pages with
  | [] => Done q
  | a :: pages => if (4 <? i)%nat then Done q else q ← set_buffer q i a; fill_first (S i) q pages
  end.

(** The pages of the closure: the start is aligned down by subtraction. *)
Definition adapt_pages (r : PhysicalRegionDescription) : list Z :=
  let align_down := Z.land (addr r) (PAGE_SIZE - 1) in
  step_by (Z.to_nat (size r / PAGE_SIZE + 2)) (addr r ⊖ align_down)%u64 (addr r ⊕ size r)%u64.

(** [append_qtd]; a payload of [len] bytes that lies in [regions]. *)
Definition append_qtd (s : TransactionString) (len : Z) (regions : list PhysicalRegionDescription) (pid : PidCode) (toggle : bool) (m : DmaMem) :
    outcome (TransactionString * DmaMem) :=
  let qtd := data_toggle qtd_new toggle in
  _ ← assert_that (len <=? 5 * PAGE_SIZE);
  let first := default (mkRegion 0 0) (head regions) in
  qtd ← fill_first 0 qtd (regions ≫= adapt_pages);
  qtd ← set_offset qtd (Z.land (addr first) (PAGE_SIZE - 1));
  let qtd := set_pid qtd (pid_to_lists pid) in
  let qtd := set_active qtd true in
  len ← as_u32 len;
  qtd ← set_data_len qtd len;
  r ← push_qtd m (str s) qtd;
  Done (mkString (meta s) r.1 (data_len s), r.2).

(** A buffer as [setup_transaction] sees it: its length, its regions and, for the request, its bytes. *)
Record Buffer := mkBuf { buf_len : Z; buf_regions : list PhysicalRegionDescription; buf_bytes : list Z }.

Definition setup_transaction (setup : Buffer) (data : option (Buffer * PidCode)) (m : DmaMem) : outcome (TransactionString * DmaMem) :=
  let this := string_empty in
  _ ← assert_that (buf_len setup =? 8);
  lo ← unwrap (buf_bytes setup !! 6%nat);
  hi ← unwrap (buf_bytes setup !! 7%nat);
  let len := lo + 256 * hi in
  let status_pid := match data with Some (_, p) => if decide (p = In) then Out else In | None => In end in
  r ← append_qtd this (buf_len setup) (buf_regions setup) Control false m;
  let '(this, m) := r in
  r ← (match data with
       | Some (payload, pid) =>
           _ ← assert_that (negb (len =? 0));
           _ ← assert_that (negb (bool_decide (pid = Control)));
           r ← append_qtd this (buf_len payload) (buf_regions payload) pid true m;
           Done (mkString (meta r.1) (str r.1) (buf_len payload), r.2)
       | None => Done (this, m)
       end);
  let '(this, m) := r in
  r ← append_qtd this 0 [] status_pid true m;
  let '(this, m) := r in
  m ← set_tail_interrupt this m;
  Done (this, m).

(** ** Endpoint queues *)
Record EndpointQueue := mkQueue {
  q_pid : PidCode; q_target : Target; packet_size : Z; q_headp : QueueHead; work : list TransactionString; terminator : option Z; waiting_for_drop : bool }.

Definition with_head (h : QueueHead) (q : EndpointQueue) : EndpointQueue :=
  mkQueue (q_pid q) (q_target q) (packet_size q) h (work q) (terminator q) (waiting_for_drop q).
Definition with_work (w : list TransactionString) (q : EndpointQueue) : EndpointQueue :=
  mkQueue (q_pid q) (q_target q) (packet_size q) (q_headp q) w (terminator q) (waiting_for_drop q).

Definition new_async (target : Target) (pid : PidCode) (packet_size : Z) (toggle : bool) (m : DmaMem) : outcome (EndpointQueue * DmaMem) :=
  let head := qh_new packet_size in
  r ← dma_new m (set_active qtd_new false);
  let '(term, m) := r in
  let head := data_toggle_ctl head toggle in
  head ← set_current_transaction head (term mod 2 ^ 32);
  t ← target_try_from target;
  t ← unwrap (result_ok t);
  Done (mkQueue pid target packet_size (set_target head t) [] (Some term) false, m).

(** [head_of_list]: [addr] is where the queue head is boxed. *)
Definition head_of_list (addr : Z) (m : DmaMem) : outcome (EndpointQueue * DmaMem) :=
  ep ← unwrap (usb_endpoint_new 0);
  r ← new_async (mkUTarget DefaultAddress ep) Control 64 true m;
  let '(q, m) := r in
  let h := set_head_of_list (q_headp q) in
  a ← as_u32 addr;
  Done (with_head (set_next_queue_head h a) q, m).

(** [EndpointQueue::new_periodic]. *)
Definition new_periodic (target : Target) (pid : PidCode) (packet_size period : Z) (m : DmaMem) : outcome (EndpointQueue * Z * DmaMem) :=
  _ ← assert_that (negb (bool_decide (pid = Control)));
  _ ← assert_that (negb (endpoint target =? 0));
  _ ← assert_that (negb (bool_decide (dev target = DefaultAddress)));
  r ← new_async target pid packet_size false m;
  Done (r.1, period, r.2).

Definition exit_idle_into (q : EndpointQueue) (qtd_addr : Z) : outcome EndpointQueue :=
  h ← set_current_transaction (q_headp q) qtd_addr; Done (with_head h q).

(** The descriptor that the queue head is at is one of the driver's. *)
Definition is_terminated (q : EndpointQueue) (m : DmaMem) : outcome bool :=
  qtd ← dma_get m (current_qtd (q_headp q)); Done (negb (is_active qtd)).

(** [new_string]; [self.work.len() - 1] wraps when the queue is idle, and nothing is at that index. *)
Definition new_string (fuel : nat) (q : EndpointQueue) (ptr len : Z) (regions : list PhysicalRegionDescription) (int_mode : StringInterruptConfiguration) (m : DmaMem) :
    outcome (option (EndpointQueue * DmaMem)) :=
  r ← string_new fuel ptr len regions (packet_size q) int_mode (q_pid q) m;
  match r with
  | None => Done None
  | Some (st, m) =>
      match last (work q) with
      | Some l =>
          m ← append_string l st m;
          Done (Some (with_work (work q ++ [st]) q, m))
      | None =>
          tgt ← unwrap (last (str st));
          a ← as_u32 tgt;
          q ← exit_idle_into q a;
          Done (Some (with_work (work q ++ [st]) q, m))
      end
  end.

Definition append_cmd_string (q : EndpointQueue) (string : TransactionString) (m : DmaMem) : outcome (EndpointQueue * DmaMem) :=
  match last (work q) with
  | Some l =>
      m ← append_string l string m;
      Done (with_work (work q ++ [string]) q, m)
  | None =>
      t ← is_terminated q m;
      _ ← assert_that t;
      h ← unwrap (head (str string));
      a ← as_u32 h;
      q ← exit_idle_into q a;
      Done (with_work (work q ++ [string]) q, m)
  end.

(** The loop of [check_state] over the work: what was completed, how many strings to drop, the terminator. *)
Fixpoint check_loop (m : DmaMem) (current_addr : Z) (l : list TransactionString) (current pull : nat) (rc : bool) (term : option Z) (done : list StringCompletion) :
    outcome (nat * bool * option Z * list StringCompletion) :=
  match l with
  | [] => Done (pull, rc, term, done)
  | s :: l =>
      let current := S current in
      e ← evaluate_state s m current_addr;
      match e with
      | (SCompleted, brk) =>
          c ← complete s m;
          let term := match c.2 with Some t => Some t | None => term end in
          if (brk : bool) then Done (current, true, term, done ++ [c.1]) else check_loop m current_addr l current current true term (done ++ [c.1])
      | (SInterrupt, brk) => if (brk : bool) then Done (pull, true, term, done) else check_loop m current_addr l current pull true term done
      | (SError, _) =>
          c ← complete s m;
          let term := match c.2 with Some t => Some t | None => term end in
          check_loop m current_addr l current current true term (done ++ [c.1])
      | (SNone, _) => check_loop m current_addr l current pull rc term done
      end
  end.

Definition check_state (q : EndpointQueue) (m : DmaMem) : outcome (bool * EndpointQueue * list StringCompletion) :=
  r ← check_loop m (current_qtd (q_headp q)) (work q) 0 0 false (terminator q) [];
  let '(pull, rc, term, done) := r in
  Done (rc, mkQueue (q_pid q) (q_target q) (packet_size q) (q_headp q) (drop pull (work q)) term (waiting_for_drop q), done).

(** [EndpointQueue::update_transaction_len]. *)
Definition update_transaction_len (q : EndpointQueue) (new_len : Z) (m : DmaMem) : outcome (result unit unit * EndpointQueue) :=
  t ← is_terminated q m;
  if negb t || negb (bool_decide (q_pid q = Control)) then Done (Err tt, q)
  else Done (Ok tt, with_head (set_max_len (q_headp q) new_len) q).

End Strings.

(** ** Theorems *)
Section StringLaws.
Context `{BO : BitFieldOps} {BL : BitFieldLaws}.

(** *** Building descriptors *)

Definition qtd_shape (q : Qtd) : Prop := length (buffers q) = 4%nat /\ length (high_puffer_pointers q) = 5%nat.

(** The physical address of the first byte that a descriptor transfers. *)
Definition qtd_start (q : Qtd) : Z := default 0 (high_puffer_pointers q !! 0%nat) * 2 ^ 32 + buffer_offset q.

Lemma set_buffer_any q i a : qtd_shape q -> (1 <= i <= 3)%nat -> a mod 4096 = 0 ->
  exists q', set_buffer q i a = Done q' /\ qtd_shape q' /\ config q' = config q /\ next_qtd q' = next_qtd q /\ buffer_offset q' = buffer_offset q /\
    high_puffer_pointers q' !! 0%nat = high_puffer_pointers q !! 0%nat /\ buffers q' !! 0%nat = buffers q !! 0%nat.
Proof.
  intros [H1 H2] Hi Ha. assert (is_Some (buffers q !! i)) as [b Hb] by (apply lookup_lt_is_Some; lia).
  assert (is_Some (high_puffer_pointers q !! i)) as [h Hh] by (apply lookup_lt_is_Some; lia).
  assert (a mod 2 ^ 32 mod 4096 = 0) as Hm.
  { change (2 ^ 32) with (4096 * 2 ^ 20). rewrite Z.rem_mul_r by lia. rewrite Ha, Z.add_0_l, Z.mul_comm. apply Z_mod_mult. }
  eexists. split.
  - unfold set_buffer. destruct i as [|[|[|[|]]]]; try lia; rewrite Hb; cbn [unwrap mbind outcome_bind]; rewrite reg_set_buffer_ok by done;
      cbn [mbind outcome_bind high_puffer_pointers next_qtd alt_qtd config buffer_offset buffers]; rewrite Hh; reflexivity.
  - cbn. unfold qtd_shape. cbn. rewrite !length_insert. split; [done|]. do 3 (split; [done|]). rewrite !list_lookup_insert_ne by lia. done.
Qed.

Lemma fill_rest pages i q : qtd_shape q -> (1 <= i)%nat -> (i + length pages <= 4)%nat -> Forall (fun a => a mod 4096 = 0) pages ->
  exists q', fill_first i q pages = Done q' /\ qtd_shape q' /\ config q' = config q /\ next_qtd q' = next_qtd q /\ buffer_offset q' = buffer_offset q /\
    high_puffer_pointers q' !! 0%nat = high_puffer_pointers q !! 0%nat.
Proof.
  revert i q. induction pages as [|a pages IH]; intros i q Hq Hi Hl Hp; [exists q; done|]. apply Forall_cons in Hp as [Ha Hp]. cbn [length] in Hl. cbn [fill_first].
  rewrite (proj2 (Nat.ltb_ge 4 i)) by lia. destruct (set_buffer_any q i a Hq ltac:(lia) Ha) as (q1 & -> & S1 & S2 & S3 & S4 & S5 & _). cbn [mbind outcome_bind].
  destruct (IH (S i) q1 S1 ltac:(lia) ltac:(lia) Hp) as (q2 & -> & T1 & T2 & T3 & T4 & T5). exists q2. split; [done|]. split; [done|]. by rewrite T2, T3, T4, T5.
Qed.

(** The pages after the first do not write the pointer to the second page, which the controller takes from [buffers[0]]. *)
Theorem second_page_unwritten pages : forall i q q', qtd_shape q -> (1 <= i)%nat -> (i + length pages <= 4)%nat -> Forall (fun a => a mod 4096 = 0) pages ->
  fill_first i q pages = Done q' -> buffers q' !! 0%nat = buffers q !! 0%nat.
Proof.
  induction pages as [|a pages IH]; intros i q q' Hq Hi Hl Hp; [by intros [= ->]|]. apply Forall_cons in Hp as [Ha Hp]. cbn [length] in Hl. cbn [fill_first].
  rewrite (proj2 (Nat.ltb_ge 4 i)) by lia. destruct (set_buffer_any q i a Hq ltac:(lia) Ha) as (q1 & -> & S1 & _ & _ & _ & _ & S6). cbn [mbind outcome_bind]. intros H. rewrite <- S6. apply (IH (S i) q1); try done; lia.
Qed.

(** Where a payload lies: its first region and the pages of all of them. *)
Record placed (regions : list PhysicalRegionDescription) (a : Z) : Prop := {
  pl_first : exists n rest, regions = mkRegion a n :: rest;
  pl_range : 0 <= a < 2 ^ 64;
  pl_pages : exists rest, regions ≫= adapt_pages = (a - a mod 4096) :: rest /\ (length rest <= 3)%nat /\ Forall (fun p => p mod 4096 = 0) rest;
}.

Lemma qtd_new_shape b : qtd_shape (data_toggle qtd_new b).
Proof. done. Qed.

Lemma fill_placed regions a b : placed regions a ->
  exists q' q'', fill_first 0 (data_toggle qtd_new b) (regions ≫= adapt_pages) = Done q' /\ set_offset q' (Z.land (addr (default (mkRegion 0 0) (head regions))) (PAGE_SIZE - 1)) = Done q'' /\
    config q'' = config (data_toggle qtd_new b) /\ next_qtd q'' = next_qtd qtd_new /\ qtd_start q'' = a.
Proof.
  intros [[n [rest Hr]] Ha (pages & Hp & Hl & Hall)]. rewrite Hp, Hr. cbn [head default from_option id addr]. set (p := a - a mod 4096).
  pose proof (Z.mod_pos_bound a 4096 ltac:(lia)) as Hma.
  assert (p mod 4096 = 0) as Hpm by (unfold p; by rewrite Zminus_mod_idemp_r, Z.sub_diag).
  cbn [fill_first Nat.ltb Nat.leb]. rewrite set_buffer_0 by done. cbn [mbind outcome_bind].
  set (q0 := mkQtd _ _ _ _ _ _). assert (qtd_shape q0) as Hq0 by done.
  destruct (fill_rest pages 1 q0 Hq0 ltac:(lia) ltac:(lia) Hall) as (q1 & -> & S1 & S2 & S3 & S4 & S5).
  exists q1. unfold set_offset. rewrite S4. change (buffer_offset q0) with (p mod 2 ^ 32). change (PAGE_SIZE - 1) with (2 ^ 12 - 1). rewrite land_mask by lia. change (2 ^ 12) with 4096.
  assert (p mod 2 ^ 32 mod 4096 = 0) as Hm.
  { change (2 ^ 32) with (4096 * 2 ^ 20). rewrite Z.rem_mul_r by lia. rewrite Hpm, Z.add_0_l, Z.mul_comm. apply Z_mod_mult. }
  rewrite reg_set_offset_ok; [|apply Z.mod_pos_bound; lia|done|done]. cbn [mbind outcome_bind]. eexists. split; [done|]. split; [done|]. cbn [config next_qtd]. rewrite S2, S3.
  split; [done|]. split; [done|]. unfold qtd_start. cbn [high_puffer_pointers buffer_offset]. rewrite S5. cbn. rewrite Z.shiftr_div_pow2 by lia.
  pose proof (Z.div_mod p (2 ^ 32) ltac:(lia)). unfold p in *. lia.
Qed.

(** No payload: all fields stay zero. *)
Lemma fill_none b : exists q', fill_first 0 (data_toggle qtd_new b) [] = Done (data_toggle qtd_new b) /\ set_offset (data_toggle qtd_new b) 0 = Done q' /\
  config q' = config (data_toggle qtd_new b) /\ next_qtd q' = next_qtd qtd_new.
Proof.
  eexists. split; [done|]. unfold set_offset. change (buffer_offset (data_toggle qtd_new b)) with 0. rewrite reg_set_offset_ok by (done || lia). cbn [mbind outcome_bind]. done.
Qed.

(** A descriptor of [append_qtd]: the view of its configuration and where it starts. *)
Definition describes_qtd (q : Qtd) (pid : LPidCode) (len : Z) (toggle : bool) : Prop :=
  qtd_view q = mkQtdView true (lpid_to pid) false len toggle false /\ link_end (next_qtd q) = true.

Lemma qtd_finish q1 pid toggle len :
  config q1 = config (data_toggle qtd_new toggle) -> next_qtd q1 = next_qtd qtd_new -> 0 <= len < 20480 ->
  exists q2, set_data_len (set_active (set_pid q1 (pid_to_lists pid)) true) len = Done q2 /\ describes_qtd q2 (pid_to_lists pid) len toggle /\ qtd_start q2 = qtd_start q1.
Proof using BL.
  intros Hc Hn Hl. pose proof (qtd_len_view (set_active (set_pid q1 (pid_to_lists pid)) true) len ltac:(lia)) as Hv. rewrite (proj2 (Z.ltb_lt len 20480)) in Hv by lia.
  destruct Hv as (q2 & Hq2 & N1 & _ & N2 & Hv). exists q2. split; [done|]. split; [split|].
  - rewrite Hv. assert (qtd_view q1 = mkQtdView true 0 false 0 toggle false) as H1.
    { pose proof (qtd_toggle_view qtd_new toggle) as Ht. rewrite qtd_new_view in Ht. unfold qtd_view in *. rewrite Hc. exact Ht. }
    rewrite qtd_active_view. cbn [w_pid w_ioc w_toggle w_error w_active]. rewrite qtd_pid_view, H1. done.
  - rewrite N1. change (next_qtd (set_active (set_pid q1 (pid_to_lists pid)) true)) with (next_qtd q1). rewrite Hn. apply link_new_none.
  - unfold set_data_len in Hq2. rewrite (proj2 (Z.ltb_lt len (4096 * 5))) in Hq2 by lia. injection Hq2 as <-. done.
Qed.

(** *** Linking *)

Lemma push_qtd_first m q b l : supply m = b :: l -> push_qtd m [] q = Done ([b], mkDma (<[b := q]> (qtds m)) l).
Proof. intros Hs. unfold push_qtd, dma_new. rewrite Hs. done. Qed.

Lemma push_qtd_next m s a q qa b l :
  supply m = b :: l -> 0 <= b < 2 ^ 32 -> qtds m !! a = Some qa -> a <> b ->
  push_qtd m (s ++ [a]) q = Done ((s ++ [a]) ++ [b], mkDma (<[a := set_next qa (Some b)]> (<[b := q]> (qtds m))) l).
Proof.
  intros Hs Hb Ha Hne. unfold push_qtd, dma_new. rewrite Hs. cbn [mbind outcome_bind]. rewrite last_snoc. unfold dma_get. cbn [qtds]. rewrite lookup_insert_ne by done. rewrite Ha.
  cbn [unwrap mbind outcome_bind]. unfold as_u32. rewrite (proj2 (Z.leb_le 0 b)), (proj2 (Z.ltb_lt b (2 ^ 32))) by lia. done.
Qed.

(** A descriptor points to the next one. *)
Definition linked_to (q : Qtd) (b : Z) : Prop := get_address (next_qtd q) = b /\ link_end (next_qtd q) = false.

Lemma set_next_linked q b : link_aligned b -> linked_to (set_next q (Some b)) b /\ qtd_view (set_next q (Some b)) = qtd_view q /\ qtd_start (set_next q (Some b)) = qtd_start q.
Proof using BL.
  intros Hb. split; [|done]. unfold linked_to, set_next. cbn [next_qtd]. pose proof (set_end_view (set_address (next_qtd q) b) false) as H1.
  pose proof (set_address_view (next_qtd q) b Hb) as H2. unfold link_view in *. split; congruence.
Qed.

Lemma append_qtd_ok s len regions a pid toggle m :
  placed regions a -> 0 <= len < 20480 ->
  exists q, append_qtd s len regions pid toggle m = (r ← push_qtd m (str s) q; Done (mkString (meta s) r.1 (data_len s), r.2)) /\
    describes_qtd q (pid_to_lists pid) len toggle /\ qtd_start q = a.
Proof using BL.
  intros Hp Hl. unfold append_qtd. rewrite (proj2 (Z.leb_le len (5 * PAGE_SIZE))) by (unfold PAGE_SIZE; lia). cbn [assert_that mbind outcome_bind].
  destruct (fill_placed regions a toggle Hp) as (q1 & q2 & -> & H2 & H3 & H4 & H5). cbn [mbind outcome_bind]. rewrite H2. cbn [mbind outcome_bind].
  unfold as_u32. rewrite (proj2 (Z.leb_le 0 len)), (proj2 (Z.ltb_lt len (2 ^ 32))) by lia. cbn [andb mbind outcome_bind].
  destruct (qtd_finish q2 pid toggle len H3 H4 Hl) as (q3 & -> & H6 & H7). cbn [mbind outcome_bind]. exists q3. split; [done|]. split; [done|]. by rewrite H7.
Qed.

Lemma append_qtd_empty s pid toggle m :
  exists q, append_qtd s 0 [] pid toggle m = (r ← push_qtd m (str s) q; Done (mkString (meta s) r.1 (data_len s), r.2)) /\ describes_qtd q (pid_to_lists pid) 0 toggle.
Proof using BL.
  unfold append_qtd. cbn [Z.leb assert_that mbind outcome_bind head default from_option id addr]. change (0 <=? 5 * PAGE_SIZE) with true. cbn [assert_that mbind outcome_bind].
  destruct (fill_none toggle) as (q1 & H1 & H2 & H3 & H4). cbn [list_bind]. rewrite H1. cbn [mbind outcome_bind]. rewrite Z.land_0_l, H2. cbn [mbind outcome_bind].
  change (as_u32 0) with (Done 0). cbn [mbind outcome_bind]. destruct (qtd_finish q1 pid toggle 0 H3 H4 ltac:(lia)) as (q3 & -> & H6 & _). cbn [mbind outcome_bind]. by exists q3.
Qed.

Lemma assert_true b : b = true -> assert_that b = Done tt.
Proof. by intros ->. Qed.

(** A control transfer with data is three descriptors: the eight bytes of the request as a setup
    packet with data toggle 0, the data in the given direction with toggle 1, and an empty status packet in
    the opposite direction that interrupts.  All are active, each starts at the first byte of its
    buffer, and each points to the next. *)
Theorem setup_transaction_spec setup sa payload pa pid m a1 a2 a3 rest lo hi :
  supply m = a1 :: a2 :: a3 :: rest -> NoDup [a1; a2; a3] -> link_aligned a1 -> link_aligned a2 -> link_aligned a3 ->
  buf_len setup = 8 -> placed (buf_regions setup) sa -> buf_bytes setup !! 6%nat = Some lo -> buf_bytes setup !! 7%nat = Some hi -> lo + 256 * hi <> 0 ->
  placed (buf_regions payload) pa -> 0 <= buf_len payload < 20480 -> pid <> Control ->
  exists m' q1 q2 q3,
    setup_transaction setup (Some (payload, pid)) m = Done (mkString MControl [a1; a2; a3] (buf_len payload), m') /\
    qtds m' !! a1 = Some q1 /\ qtd_view q1 = mkQtdView true 2 false 8 false false /\ qtd_start q1 = sa /\ linked_to q1 a2 /\
    qtds m' !! a2 = Some q2 /\ qtd_view q2 = mkQtdView true (lpid_to (pid_to_lists pid)) false (buf_len payload) true false /\ qtd_start q2 = pa /\ linked_to q2 a3 /\
    qtds m' !! a3 = Some q3 /\ qtd_view q3 = mkQtdView true (if decide (pid = In) then 0 else 1) true 0 true false /\ link_end (next_qtd q3) = true /\
    supply m' = rest /\ (forall a, a ∉ [a1; a2; a3] -> qtds m' !! a = qtds m !! a).
Proof using BL.
  intros Hs Hnd L1 L2 L3 Hlen Hsa Hlo Hhi Hne Hpa Hpl Hpid. apply NoDup_cons in Hnd as [Hn1 Hnd]. apply NoDup_cons in Hnd as [Hn2 _].
  assert (a1 <> a2 /\ a1 <> a3 /\ a2 <> a3) as (N12 & N13 & N23) by set_solver.
  unfold setup_transaction. rewrite Hlen, Hlo, Hhi. cbn [Z.eqb Pos.eqb assert_that mbind outcome_bind unwrap].
  destruct (append_qtd_ok string_empty 8 (buf_regions setup) sa Control false m Hsa ltac:(lia)) as (q1 & -> & [V1 E1] & S1).
  cbn [str string_empty]. rewrite (push_qtd_first m q1 a1 (a2 :: a3 :: rest)) by done. cbn [mbind outcome_bind fst snd].
  rewrite (assert_true (negb (lo + 256 * hi =? 0))) by (by apply negb_true_iff, Z.eqb_neq). cbn [mbind outcome_bind].
  rewrite (assert_true (negb (bool_decide (pid = Control)))) by (by apply negb_true_iff, bool_decide_eq_false). cbn [mbind outcome_bind].
  set (m1 := mkDma _ _). destruct (append_qtd_ok (mkString (meta string_empty) [a1] (data_len string_empty)) (buf_len payload) (buf_regions payload) pa pid true m1 Hpa Hpl) as (q2 & -> & [V2 E2] & S2).
  cbn [str meta data_len string_empty]. change [a1] with ([] ++ [a1]).
  rewrite (push_qtd_next m1 [] a1 q2 q1 a2 (a3 :: rest)) by (done || apply L2 || apply lookup_insert_eq). cbn [mbind outcome_bind fst snd meta str app].
  set (m2 := mkDma _ _). set (pst := if decide (pid = In) then Out else In).
  destruct (append_qtd_empty (mkString MControl [a1; a2] (buf_len payload)) pst true m2) as (q3 & -> & V3 & E3).
  cbn [str meta data_len]. change [a1; a2] with ([a1] ++ [a2]).
  assert (qtds m2 !! a2 = Some q2) as Hq2 by (cbn; rewrite lookup_insert_ne by done; apply lookup_insert_eq).
  rewrite (push_qtd_next m2 [a1] a2 q3 q2 a3 rest) by (done || apply L3). cbn [mbind outcome_bind fst snd meta str app].
  unfold set_tail_interrupt. cbn [str]. change (last [a1; a2; a3]) with (Some a3). unfold dma_get. cbn [qtds]. rewrite lookup_insert_ne, lookup_insert_eq by done.
  cbn [unwrap mbind outcome_bind]. destruct (set_next_linked q1 a2 L2) as (K1 & K2 & K3), (set_next_linked q2 a3 L3) as (K4 & K5 & K6).
  exists (dma_set (mkDma (<[a2:=set_next q2 (Some a3)]> (<[a3:=q3]> (qtds m2))) rest) a3 (set_int_on_complete q3)), (set_next q1 (Some a2)), (set_next q2 (Some a3)), (set_int_on_complete q3).
  split; [done|]. cbn [dma_set qtds m2 m1]. split; [by rewrite !lookup_insert_ne, lookup_insert_eq by done|]. split; [by rewrite K2, V1|]. split; [by rewrite K3|]. split; [done|].
  split; [by rewrite lookup_insert_ne, lookup_insert_eq by done|]. split; [by rewrite K5, V2|]. split; [by rewrite K6|]. split; [done|].
  split; [apply lookup_insert_eq|]. rewrite qtd_ioc_view, V3. split; [unfold pst; by destruct (decide (pid = In))|]. split; [done|]. split; [done|].
  intros a Ha. assert (a <> a1 /\ a <> a2 /\ a <> a3) as (? & ? & ?) by set_solver. by rewrite !lookup_insert_ne by done.
Qed.

(** *** Data strings *)

(** A payload shorter than a packet, or whose rest is, is never described: the loop adds empty
    descriptors until memory is exhausted. *)
Theorem string_new_short_never fuel ptr len regions tl int pid m r :
  0 < len < tl -> string_new fuel ptr len regions tl int pid m <> Done (Some r).
Proof.
  intros Hl. unfold string_new. rewrite (assert_true (0 <? len)) by (apply Z.ltb_lt; lia). cbn [mbind outcome_bind].
  set (c := Z.land ptr (PAGE_SIZE - 1)). assert (forall fuel prd s m x, string_loop fuel c (len + c) tl pid prd s m <> Done (Some x)) as Hloop.
  { clear -Hl. intros fuel. induction fuel as [|fuel IH]; intros prd s m x; [done|]. cbn [string_loop]. rewrite (proj2 (Z.ltb_lt c (len + c))) by lia.
    rewrite (assert_true (negb (tl =? 0))) by (apply negb_true_iff, Z.eqb_neq; lia). cbn [mbind outcome_bind].
    assert (Z.min 20480 (len + c - c) / tl = 0) as -> by (apply Z.div_small; lia). rewrite Z.mul_0_l. change (Z.to_nat (div_ceil 0 PAGE_SIZE)) with 0%nat. cbn [fill_pages mbind outcome_bind].
    destruct (set_data_len _ 0) as [q|]; [|done]. cbn [mbind outcome_bind]. destruct (push_qtd m s q) as [[s' m']|]; [|done]. cbn [mbind outcome_bind]. rewrite Z.add_0_r. apply IH. }
  destruct (string_loop _ _ _ _ _ _ _ _) as [[[s m']|]|] eqn:E; [by apply Hloop in E|done|done].
Qed.

(** The second page pointer is not written by the pages after the first. *)
Lemma fill_pages_rest n i pk q prd : qtd_shape q -> (1 <= i)%nat -> (i + n <= 4)%nat -> (n <= length prd)%nat -> Forall (fun a => a mod 4096 = 0) prd ->
  exists q', fill_pages n i pk q prd = Done (q', drop n prd) /\ qtd_shape q' /\ config q' = config q /\ next_qtd q' = next_qtd q /\ buffer_offset q' = buffer_offset q /\
    buffers q' !! 0%nat = buffers q !! 0%nat /\ high_puffer_pointers q' !! 0%nat = high_puffer_pointers q !! 0%nat.
Proof.
  revert i q prd. induction n as [|n IH]; intros i q prd Hq Hi Hn Hl Hp; [exists q; by rewrite drop_0|]. destruct prd as [|a prd]; [cbn in Hl; lia|]. apply Forall_cons in Hp as [Ha Hp].
  cbn [length] in Hl. cbn [fill_pages]. rewrite (proj2 (Nat.eqb_neq i 5)) by lia. cbn [andb head unwrap mbind outcome_bind tail drop].
  destruct (set_buffer_any q i a Hq ltac:(lia) Ha) as (q1 & -> & S1 & S2 & S3 & S4 & S5 & S6). cbn [mbind outcome_bind].
  destruct (IH (S i) q1 prd S1 ltac:(lia) ltac:(lia) ltac:(lia) Hp) as (q2 & -> & T1 & T2 & T3 & T4 & T5 & T6). exists q2. split; [done|]. split; [done|]. rewrite T2, T3, T4, T5, T6.
  by rewrite S2, S3, S4, S5, S6.
Qed.

Lemma min_len len : 0 < len <= 16384 -> Z.min 20480 len = len.
Proof. lia. Qed.

Lemma dma_get_insert m a q s : dma_get (mkDma (<[a := q]> m) s) a = Done q.
Proof. unfold dma_get. cbn [qtds]. by rewrite lookup_insert_eq. Qed.

Lemma dma_get_set m a q : dma_get (dma_set m a q) a = Done q.
Proof. apply dma_get_insert. Qed.

(** A page-aligned payload of whole packets and at most 16 KiB is one active descriptor of the right length that
    starts at its first page.  When it is longer than a page, the pointer to its second page is zero, so the
    controller goes on at physical address zero. *)
Theorem string_new_one ptr len regions a pages tl int pid m b l :
  ptr mod 4096 = 0 -> 0 < tl -> 0 < len <= 16384 -> len mod tl = 0 -> regions ≫= region_pages = a :: pages ->
  (Z.to_nat (div_ceil len 4096) <= S (length pages))%nat -> Forall (fun p => p mod 4096 = 0) (a :: pages) -> 0 <= a < 2 ^ 32 -> supply m = b :: l ->
  exists q m', string_new 2 ptr len regions tl int pid m = Done (Some (mkString NormalData [b] len, m')) /\ qtds m' !! b = Some q /\
    qtd_view q = mkQtdView true (lpid_to (pid_to_lists pid)) (match int with Never => false | _ => true end) len false false /\
    buffer_offset q = a /\ link_end (next_qtd q) = true /\ buffers q !! 0%nat = Some 0.
Proof using BL.
  intros Hptr Htl Hlen Hmod Hreg Hn Hal Ha Hs. apply Forall_cons in Hal as [Ha0 Hal]. unfold string_new. rewrite (assert_true (0 <? len)) by (apply Z.ltb_lt; lia).
  cbn [mbind outcome_bind]. assert (Z.land ptr (PAGE_SIZE - 1) = 0) as -> by (by apply page_masks). rewrite Hreg, Z.add_0_r.
  set (np := div_ceil len 4096) in *. assert (1 <= np <= 4) as Hnp.
  { unfold np, div_ceil. split; [apply Z.div_le_lower_bound; lia|]. apply Z.lt_succ_r, Z.div_lt_upper_bound; lia. }
  cbn [string_loop]. rewrite (proj2 (Z.ltb_lt 0 len)) by lia. rewrite (assert_true (negb (tl =? 0))) by (apply negb_true_iff, Z.eqb_neq; lia). cbn [mbind outcome_bind].
  rewrite Z.sub_0_r, min_len by done. assert (len / tl * tl = len) as ->. { pose proof (Z.div_mod len tl ltac:(lia)). lia. }
  change PAGE_SIZE with 4096. fold np. destruct (Z.to_nat np) as [|k] eqn:Ek; [lia|]. cbn [fill_pages Nat.eqb andb head unwrap mbind outcome_bind tail].
  rewrite set_buffer_0 by done. cbn [mbind outcome_bind]. set (q0 := mkQtd _ _ _ _ _ _). assert (qtd_shape q0) as Hq0 by done.
  destruct (fill_pages_rest k 1 ((np =? 5) && (len / 4096 =? 4)) q0 pages Hq0 ltac:(lia) ltac:(lia) ltac:(lia) Hal) as (q1 & -> & S1 & S2 & S3 & S4 & S5 & S6). cbn [mbind outcome_bind].
  pose proof (qtd_len_view q1 len ltac:(lia)) as Hv. rewrite (proj2 (Z.ltb_lt len 20480)) in Hv by lia. destruct Hv as (q2 & -> & N1 & N3 & N2 & Hv). cbn [mbind outcome_bind].
  rewrite (push_qtd_first m q2 b l) by done. cbn [mbind outcome_bind fst snd]. rewrite Z.add_0_l, Z.ltb_irrefl. cbn [mbind outcome_bind].
rewrite dma_get_insert. cbn [mbind outcome_bind].
  unfold set_offset. rewrite N2, S4. change (buffer_offset q0) with (a mod 2 ^ 32). rewrite (Z.mod_small a) by done. rewrite reg_set_offset_ok by (done || lia). cbn [mbind outcome_bind]. rewrite Z.add_0_r.
  set (q3 := mkQtd _ _ _ _ _ _). assert (qtd_view q1 = qtd_view (set_pid qtd_new (pid_to_lists pid))) as Hq1 by (unfold qtd_view; by rewrite S2).
  rewrite Hq1, qtd_pid_view, qtd_new_view in Hv. cbn [w_active w_pid w_ioc w_toggle w_error] in Hv.
  assert (link_end (next_qtd q3) = true) as Hend. { cbn [q3 next_qtd]. rewrite N1, S3. apply link_new_none. }
  assert (buffers q3 !! 0%nat = Some 0) as Hb0. { cbn [q3 buffers]. rewrite N3, S5. done. }
  assert (qtd_view q3 = qtd_view q2) as Hv3 by done.
  destruct int; cbn [int_all last unwrap mbind outcome_bind]; rewrite ?dma_get_set; cbn [mbind outcome_bind];
    eexists _, _; (split; [done|]); cbn [dma_set qtds]; (split; [apply lookup_insert_eq|]); rewrite ?qtd_ioc_view, Hv3, Hv; split_and!; done.
Qed.

(** *** Evaluation *)

(** The driver takes a transfer that the controller is still working on for finished: a string of one
    descriptor that is active and without errors, where the queue head is, is completed, and what is reported
    as transferred is the part of the buffer that was to be transferred before. *)
Theorem busy_string_completed q m s a qtd :
  work q = [s] -> meta s = NormalData -> str s = [a] -> qtds m !! a = Some qtd -> is_active qtd = true -> config_error (config qtd) = false ->
  current_qtd (q_headp q) = a -> 0 <= a < 2 ^ 32 ->
  exists q' c, check_state q m = Done (true, q', [c]) /\ work q' = [] /\ c_len c = (data_len s ⊖ get_expected_size (config qtd))%u64.
Proof.
  intros Hw Hm Hs Hq Ha He Hc Hr. unfold check_state. rewrite Hw, Hc. cbn [check_loop]. unfold evaluate_state. rewrite Hm, Hs. cbn [length evaluate_loop]. unfold dma_get. rewrite Hq. cbn [unwrap mbind outcome_bind].
  rewrite He, Ha. cbn [negb andb]. rewrite (Z.mod_small a) by done. rewrite Z.eqb_refl. cbn [negb andb]. rewrite andb_false_r. cbn [andb Nat.add Nat.eqb mbind outcome_bind].
  unfold complete. rewrite Hm, Hs. cbn [sum_lens sum_errors last]. unfold dma_get. rewrite Hq. cbn [unwrap mbind outcome_bind fst snd app]. eexists _, _. split; [done|]. done.
Qed.

Lemma sum_errors_rank m l st : (forall a, a ∈ l -> is_Some (qtds m !! a)) ->
  exists e, sum_errors m l st = Done e /\ (e = Halted <-> st = Halted \/ exists a q, a ∈ l /\ qtds m !! a = Some q /\ (babbble_detected (config q) || halted (config q)) = true).
Proof.
  revert st. induction l as [|a l IH]; intros st Hl; [exists st; split; [done|]; split; [by left|intros [H|(a & q & Ha & _)]; [done|by apply not_elem_of_nil in Ha]]|].
  destruct (Hl a (list_elem_of_here a l)) as [q Hq]. cbn [sum_errors]. unfold dma_get. rewrite Hq. cbn [unwrap mbind outcome_bind].
  destruct (IH (add_errors st (config q)) ltac:(intros x Hx; apply Hl; by right)) as (e & -> & He). exists e. split; [done|]. rewrite He.
  assert (add_errors st (config q) = Halted <-> st = Halted \/ (babbble_detected (config q) || halted (config q)) = true) as ->.
  { unfold add_errors. destruct st, (missed_mocro_frame _), (data_buffer_err _), (transaction_error _), (babbble_detected _), (halted _); cbn; naive_solver. }
  split.
  - intros [[H|H]|(x & y & H1 & H2 & H3)]; [by left|right; exists a, q; split; [apply list_elem_of_here|done]|right; exists x, y; split; [by right|done]].
  - intros [H|(x & y & H1 & H2 & H3)]; [by left; left|]. apply elem_of_cons in H1 as [->|H1]; [left; right; congruence|right; by exists x, y].
Qed.

Lemma sum_lens_spec m l n : (forall a, a ∈ l -> is_Some (qtds m !! a)) ->
  sum_lens m l n = Done (foldl (fun n a => match qtds m !! a with Some q => (n ⊖ get_expected_size (config q))%u64 | None => n end) n l).
Proof.
  revert n. induction l as [|a l IH]; intros n Hl; [done|]. destruct (Hl a (list_elem_of_here a l)) as [q Hq]. cbn [sum_lens foldl]. unfold dma_get. rewrite Hq. cbn [unwrap mbind outcome_bind].
  apply IH. intros x Hx. apply Hl. by right.
Qed.

(** What a completed data string reports: the length of its buffer less what each descriptor has left, and an
    error exactly when one of its descriptors was halted or saw babble. *)
Theorem complete_spec s m :
  meta s = NormalData -> (forall a, a ∈ str s -> is_Some (qtds m !! a)) ->
  exists c, complete s m = Done (c, last (str s)) /\
    c_len c = foldl (fun n a => match qtds m !! a with Some q => (n ⊖ get_expected_size (config q))%u64 | None => n end) (data_len s) (str s) /\
    (c_state c = Err tt <-> exists a q, a ∈ str s /\ qtds m !! a = Some q /\ (babbble_detected (config q) || halted (config q)) = true).
Proof.
  intros Hm Hl. unfold complete. rewrite Hm, sum_lens_spec by done. cbn [mbind outcome_bind]. destruct (sum_errors_rank m (str s) UsbOk Hl) as (e & -> & He). cbn [mbind outcome_bind].
  eexists. split; [done|]. split; [done|]. cbn [c_state]. transitivity (e = Halted); [destruct e; cbn; naive_solver|]. rewrite He. naive_solver.
Qed.

(** *** Control transfers *)

(** A buffer of [n] bytes within a page. *)
Definition one_page (a n : Z) : Prop := 0 <= a < 2 ^ 52 /\ 0 < n /\ a mod 4096 + n <= 4096.

Lemma one_page_placed a n : one_page a n -> placed [mkRegion a n] a.
Proof.
  intros (Ha & Hn & Hp). pose proof (Z.mod_pos_bound a 4096 ltac:(lia)) as Hm. pose proof (Z.mod_le a 4096 ltac:(lia) ltac:(lia)) as Hle. split; [by eexists _, _|lia|]. exists []. split; [|split; [cbn; lia|constructor]].
  change ([mkRegion a n] ≫= adapt_pages) with (adapt_pages (mkRegion a n) ++ []). rewrite app_nil_r. unfold adapt_pages. cbn [addr size]. change (PAGE_SIZE - 1) with (2 ^ 12 - 1). rewrite land_mask by lia.
  change (2 ^ 12) with 4096. change PAGE_SIZE with 4096. rewrite wsub_small, wadd_small by lia. assert (0 <= n / 4096 < 2) as Hd by (split; [apply Z.div_pos; lia|apply Z.div_lt_upper_bound; lia]).
  destruct (Z.to_nat (n / 4096 + 2)) as [|[|k]] eqn:Ek; [lia..|]. cbn [step_by]. change PAGE_SIZE with 4096. rewrite (proj2 (Z.ltb_lt (a - a mod 4096) (a + n))), (proj2 (Z.ltb_ge (a - a mod 4096 + 4096) (a + n))) by lia. done.
Qed.

(** What [setup_transaction] leaves for a transfer to the buffer at [pa]: the request at [sa], the data and the status. *)
Record control_in (l : gmap Z Qtd) (a1 a2 a3 sa pa n : Z) : Prop := {
  ci_aligned : link_aligned a1 /\ link_aligned a2 /\ link_aligned a3;
  ci_distinct : NoDup [a1; a2; a3];
  ci_setup : exists q, l !! a1 = Some q /\ qtd_view q = mkQtdView true 2 false 8 false false /\ qtd_start q = sa /\ linked_to q a2;
  ci_data : exists q, l !! a2 = Some q /\ qtd_view q = mkQtdView true 1 false n true false /\ qtd_start q = pa /\ linked_to q a3;
  ci_status : exists q, l !! a3 = Some q /\ qtd_view q = mkQtdView true 0 true 0 true false /\ link_end (next_qtd q) = true;
}.

(** A descriptor that the controller is done with, with [n] bytes left. *)
Definition retired (q : Qtd) (n : Z) : Prop := is_active q = false /\ config_error (config q) = false /\ get_expected_size (config q) = n.

Lemma no_errors c : config_error c = false -> add_errors UsbOk c = UsbOk.
Proof using BL.
  unfold config_error. intros Hc%negb_false_iff%Z.eqb_eq.
  assert (forall i, 0 <= i -> Z.testbit 0x7c i = true -> get_bit c i = false) as Hb.
  { intros i Hi Ht. rewrite get_bit_test by done. apply (f_equal (fun z => Z.testbit z i)) in Hc. by rewrite Z.land_spec, Ht, andb_true_r, Z.bits_0 in Hc. }
  unfold add_errors, missed_mocro_frame, data_buffer_err, transaction_error, babbble_detected, halted. by rewrite !Hb.
Qed.

(** The task of a control transfer whose descriptors are done is woken, with the length that arrived. *)
Lemma control_completed q m a1 a2 a3 n k q1 q2 q3 :
  work q = [mkString MControl [a1; a2; a3] n] -> qtds m !! a1 = Some q1 -> qtds m !! a2 = Some q2 -> qtds m !! a3 = Some q3 -> retired q1 0 -> retired q2 k -> retired q3 0 ->
  check_state q m = Done (true, mkQueue (q_pid q) (q_target q) (packet_size q) (q_headp q) [] (Some a3) (waiting_for_drop q), [mkCompletion (n ⊖ k)%u64 (Ok UsbOk)]).
Proof using BL.
  intros Hw H1 H2 H3 (A1 & E1 & _) (A2 & E2 & N2) (A3 & E3 & _). unfold check_state. rewrite Hw. cbn [check_loop]. unfold evaluate_state. cbn [meta str]. change (last [a1; a2; a3]) with (Some a3).
  unfold dma_get. cbn [unwrap mbind outcome_bind]. rewrite H3. cbn [unwrap mbind outcome_bind]. unfold is_active in A3. rewrite A3. cbn [negb mbind outcome_bind].
  unfold complete. cbn [meta str lookup list_lookup data_len sum_errors unwrap mbind outcome_bind]. unfold dma_get. rewrite H1, H2, H3. cbn [unwrap mbind outcome_bind].
  rewrite (no_errors _ E1), (no_errors _ E2), (no_errors _ E3), N2. done.
Qed.

End StringLaws.

(** ** Witnesses *)
Module EhciQueueWitness.
Import BitFieldWitness.

Definition mem : DmaMem := mkDma ∅ [0x1000; 0x1040; 0x1080].
(** GET_DESCRIPTOR of 18 bytes. *)
Definition request : Buffer := mkBuf 8 [mkRegion 0x5010 8] [0x80; 6; 0; 1; 0; 0; 18; 0].
Definition answer : Buffer := mkBuf 18 [mkRegion 0x123456000 18] [].

Lemma request_placed : placed (buf_regions request) 0x5010.
Proof. split; [by eexists _, _|lia|]. exists []. split; [vm_compute; reflexivity|]. split; [cbn; lia|constructor]. Qed.

Lemma answer_placed : placed (buf_regions answer) 0x123456000.
Proof. split; [by eexists _, _|lia|]. exists []. split; [vm_compute; reflexivity|]. split; [cbn; lia|constructor]. Qed.

Lemma setup_transaction_witness :
  placed (buf_regions request) 0x5010 /\ exists m' q1 q2 q3,
    setup_transaction request (Some (answer, In)) mem = Done (mkString MControl [0x1000; 0x1040; 0x1080] 18, m') /\
    qtds m' !! 0x1000 = Some q1 /\ qtd_view q1 = mkQtdView true 2 false 8 false false /\ qtd_start q1 = 0x5010 /\ linked_to q1 0x1040 /\
    qtds m' !! 0x1040 = Some q2 /\ qtd_view q2 = mkQtdView true 1 false 18 true false /\ qtd_start q2 = 0x123456000 /\ linked_to q2 0x1080 /\
    qtds m' !! 0x1080 = Some q3 /\ qtd_view q3 = mkQtdView true 0 true 0 true false /\ link_end (next_qtd q3) = true /\
    supply m' = [] /\ (forall a, a ∉ [0x1000; 0x1040; 0x1080] -> qtds m' !! a = qtds mem !! a).
Proof.
  split; [apply request_placed|].
  apply (setup_transaction_spec request 0x5010 answer 0x123456000 In mem 0x1000 0x1040 0x1080 [] 18 0); try done.
  - repeat constructor; set_solver.
  - apply request_placed.
  - apply answer_placed.
Defined.

Definition busy_qtd : Qtd := set_pid qtd_new PIn.
Definition busy : EndpointQueue :=
  mkQueue In (mkUTarget (Address 3) 1) 64 (mkQh 1 0 0 0x1000 0 1 []) [mkString NormalData [0x1000] 64] None false.

Lemma busy_string_completed_witness :
  is_active busy_qtd = true /\ exists q' c, check_state busy (mkDma {[0x1000 := busy_qtd]} []) = Done (true, q', [c]) /\ work q' = [] /\
    c_len c = (64 ⊖ get_expected_size (config busy_qtd))%u64.
Proof.
  split; [reflexivity|]. apply (busy_string_completed busy (mkDma {[0x1000 := busy_qtd]} []) (mkString NormalData [0x1000] 64) 0x1000 busy_qtd); try reflexivity; lia.
Defined.

End EhciQueueWitness.
