(* ===== verification/EhciSched.v ===== *)
(** * EHCI schedules

    [Ehci] of [drivers/usb/src/ehci.rs]: USB addresses, the ring of queue heads that is the
    asynchronous schedule, and the periodic schedule.

    An [EndpointQueue] is known by the physical address of its queue head, through which the
    controller reaches it; [queues] holds the queue at each address.  The command register is the
    two enable bits that the driver writes and reads back.  Awaiting the doorbell interrupt
    means that the controller has left the removed queue heads; it changes none of this state. *)
From stdpp Require Import prelude gmap.
From S2P Require Import Prelude HighOrder FrameAlloc VirtFixup Dma BitField Ehci EhciQueue.
Open Scope Z_scope.

(** ** Addresses *)

(** [u128::trailing_ones]. *)
Definition trailing_ones128 (x : Z) : Z := ctz 128 (2 ^ 128 - 1 - x).

Section Sched.
Context `{BO : BitFieldOps}.

Record Controller := mkEhci {
  address_bmp : Z;
  async_list : list Z;
  queues : gmap Z EndpointQueue;
  async_list_addr : Z;
  periodic_frame_list : option (list Z);
  periodic_queue_heads : list (Z * Z);
  async_enable : bool;
  periodic_enable : bool }.

Definition with_bmp (b : Z) (c : Controller) : Controller :=
  mkEhci b (async_list c) (queues c) (async_list_addr c) (periodic_frame_list c) (periodic_queue_heads c) (async_enable c) (periodic_enable c).
Definition with_queues (q : gmap Z EndpointQueue) (c : Controller) : Controller :=
  mkEhci (address_bmp c) (async_list c) q (async_list_addr c) (periodic_frame_list c) (periodic_queue_heads c) (async_enable c) (periodic_enable c).
Definition with_async (l : list Z) (c : Controller) : Controller :=
  mkEhci (address_bmp c) l (queues c) (async_list_addr c) (periodic_frame_list c) (periodic_queue_heads c) (async_enable c) (periodic_enable c).
Definition with_frames (l : option (list Z)) (c : Controller) : Controller :=
  mkEhci (address_bmp c) (async_list c) (queues c) (async_list_addr c) l (periodic_queue_heads c) (async_enable c) (periodic_enable c).
Definition with_heads (l : list (Z * Z)) (c : Controller) : Controller :=
  mkEhci (address_bmp c) (async_list c) (queues c) (async_list_addr c) (periodic_frame_list c) l (async_enable c) (periodic_enable c).

(** [set_bit] of a [u128], for the bits it has. *)
Definition alloc_address (c : Controller) : Z * Controller :=
  let bit := trailing_ones128 (address_bmp c) in
  (bit mod 256, with_bmp (Z.setbit (address_bmp c) bit) c).

Definition free_address (c : Controller) (address : DeviceAddress) : outcome Controller :=
  _ ← assert_that (negb (bool_decide (address = DefaultAddress)));
  let addr := device_address_to address in
  _ ← assert_that (Z.testbit (address_bmp c) addr);
  Done (with_bmp (Z.clearbit (address_bmp c) addr) c).

(** ** The asynchronous schedule *)

Definition get_queue (c : Controller) (a : Z) : outcome EndpointQueue := unwrap (queues c !! a).

(** [EndpointQueue::set_next_endpoint_queue]. *)
Definition set_next_endpoint_queue (c : Controller) (self other : Z) : outcome Controller :=
  _ ← get_queue c other;
  phys_addr ← as_u32 other;
  q ← get_queue c self;
  Done (with_queues (<[self := with_head (set_next_queue_head (q_headp q) phys_addr) q]> (queues c)) c).

(** [init_head_table]: the head of the list is boxed at [addr]. *)
Definition init_head_table (c : Controller) (addr : Z) (m : DmaMem) : outcome (Controller * DmaMem) :=
  r ← head_of_list addr m;
  let '(q, m) := r in
  let c := with_async (async_list c ++ [addr]) (with_queues (<[addr := q]> (queues c)) c) in
  start ← unwrap (head (async_list c));
  a ← as_u32 start;
  Done (mkEhci (address_bmp c) (async_list c) (queues c) a (periodic_frame_list c) (periodic_queue_heads c) (async_enable c) (periodic_enable c), m).

Definition insert_into_async (c : Controller) (queue : Z) : outcome Controller :=
  first ← unwrap (head (async_list c));
  c ← set_next_endpoint_queue c queue first;
  l ← unwrap (last (async_list c));
  c ← set_next_endpoint_queue c l queue;
  Done (with_async (async_list c ++ [queue]) c).

Definition get_default_table (c : Controller) : outcome Z := unwrap (async_list c !! 0%nat).

(** Whether a queue is waiting to be dropped. *)
Definition waiting (c : Controller) (a : Z) : bool := match queues c !! a with Some q => waiting_for_drop q | None => false end.
Definition alive (c : Controller) (l : list Z) : list Z := List.filter (fun a => negb (waiting c a)) l.

Definition set_waiting (c : Controller) (a : Z) : outcome Controller :=
  q ← get_queue c a;
  Done (with_queues (<[a := mkQueue (q_pid q) (q_target q) (packet_size q) (q_headp q) (work q) (terminator q) true]> (queues c)) c).

(** [iter().position()]. *)
Fixpoint position (i : Z) (l : list Z) : option nat :=
  match l with [] => None | a :: l => if a =? i then Some O else S <$> position i l end.

(** One turn of the loop of [drop_endpoints]. *)
Definition unlink (c : Controller) (i : Z) : outcome Controller :=
  t ← unwrap (position i (async_list c));
  c ← set_waiting c i;
  prev ← unwrap (head (alive c (rev (take t (async_list c)))));
  first ← unwrap (async_list c !! 0%nat);
  let next := default first (head (alive c (drop t (async_list c)))) in
  qn ← get_queue c next;
  next_addr ← as_u32 next;
  q ← get_queue c prev;
  Done (with_queues (<[prev := with_head (set_next_queue_head (q_headp q) next_addr) q]> (queues c)) c).

Fixpoint unlink_all (c : Controller) (l : list Z) : outcome Controller :=
  match l with [] => Done c | i :: l => c ← unlink c i; unlink_all c l end.

Definition drop_endpoints (c : Controller) (endpoints : list Z) : outcome Controller :=
  c ← unlink_all c endpoints;
  Done (with_async (alive c (async_list c)) c).

(** ** The periodic schedule *)
Definition execute_async (c : Controller) (state : bool) : Controller :=
  mkEhci (address_bmp c) (async_list c) (queues c) (async_list_addr c) (periodic_frame_list c) (periodic_queue_heads c) state (periodic_enable c).
Definition execute_periodic (c : Controller) (state : bool) : Controller :=
  mkEhci (address_bmp c) (async_list c) (queues c) (async_list_addr c) (periodic_frame_list c) (periodic_queue_heads c) (async_enable c) state.
Definition periodic_schedule_state (c : Controller) : bool := periodic_enable c.

Definition setup_periodic_list (c : Controller) : Controller := with_frames (Some periodic_new) c.

(** [PeriodicEndpointQueue::set_bitmap]: the loop adds a bit every [n] microframes. *)
Fixpoint bitmap_loop (fuel : nat) (n index bitmap : Z) : Z :=
  match fuel with
  | O => bitmap
  | S fuel => if index <? 8 then bitmap_loop fuel n (index + n) (Z.lor bitmap (Z.shiftl 1 index)) else bitmap
  end.

Definition set_bitmap (c : Controller) (queue : Z * Z) : outcome Controller :=
  let '(a, rate) := queue in
  n ← (if rate =? 0 then Panic else if rate <? 8 then Done rate else Done 8);
  let bitmap := bitmap_loop 9 n 0 0 in
  q ← get_queue c a;
  Done (with_queues (<[a := with_head (set_interrupt_schedule_mask (q_headp q) bitmap) q]> (queues c)) c).

(** [link_periodic_list]: [for i in (0..len).rev()]; [n] turns are left. *)
Fixpoint link_periodic_loop (n : nat) (c : Controller) : outcome Controller :=
  match n with
  | O => Done c
  | S i =>
      this ← unwrap (async_list c !! i);
      match i with
      | O =>
          q ← get_queue c this;
          Done (with_queues (<[this := with_head (terminate_horizontal (q_headp q) true) q]> (queues c)) c)
      | S next_index =>
          next ← unwrap (async_list c !! next_index);
          c ← set_next_endpoint_queue c this next;
          link_periodic_loop i c
      end
  end.

Definition link_periodic_list (c : Controller) : outcome Controller := link_periodic_loop (length (periodic_queue_heads c)) c.

(** [rfind]. *)
Fixpoint rfind {A} (f : A -> bool) (l : list A) : option A :=
  match l with [] => None | a :: l => match rfind f l with Some b => Some b | None => if f a then Some a else None end end.

(** [(i as u32).checked_rem(e.rate / 8).unwrap_or(0) == 0]. *)
Definition due (i : nat) (e : Z * Z) : bool :=
  let d := e.2 / 8 in if d =? 0 then true else Z.of_nat i mod d =? 0.

(** The loop over the frame list; [i] is the index of its head. *)
Fixpoint frames_loop (heads : list (Z * Z)) (i : nat) (l : list Z) : outcome (list Z) :=
  match l with
  | [] => Done []
  | ptr :: l =>
      ptr ← (match rfind (due i) heads with
             | None => Done ptr
             | Some head =>
                 head_addr ← as_u32 head.1;
                 Done (set_link_type (set_address ptr head_addr) QueueHead_)
             end);
      l ← frames_loop heads (S i) l;
      Done (ptr :: l)
  end.

(** The wait for the schedule to stop reads the enable bit that was just cleared, so its first turn
    ends it; the arm for the last retry is not reached. *)
Fixpoint wait_stopped (retries : nat) (c : Controller) : bool :=
  match retries with O => false | S retries => if negb (periodic_schedule_state c) then true else wait_stopped retries c end.

Definition rebuild_periodic_list (c : Controller) : outcome (result unit unit * Controller) :=
  let c := execute_periodic c false in
  if (length (periodic_queue_heads c) =? 0)%nat then Done (Ok tt, c)
  else if negb (wait_stopped 5 c) then Done (Err tt, c)
  else
    c ← link_periodic_list c;
    frames ← unwrap (periodic_frame_list c);
    frames ← frames_loop (periodic_queue_heads c) 0 frames;
    Done (Ok tt, execute_periodic (with_frames (Some frames) c) true).

(** The comparison of the binary search. *)
Definition cmp_rate (rate : Z) (f : Z * Z) : outcome comparison := Done (f.2 ?= rate).

Fixpoint insert_queues (c : Controller) (queues : list (Z * Z)) : outcome Controller :=
  match queues with
  | [] => Done c
  | queue :: queues =>
      c ← set_bitmap c queue;
      r ← binary_search_by (cmp_rate queue.2) (periodic_queue_heads c);
      let entry := match r with Ok e => e | Err e => e end in
      insert_queues (with_heads (take entry (periodic_queue_heads c) ++ queue :: drop entry (periodic_queue_heads c)) c) queues
  end.

Definition insert_into_periodic (c : Controller) (queues : list (Z * Z)) : outcome (result unit unit * Controller) :=
  c ← insert_queues c queues;
  rebuild_periodic_list c.

Fixpoint drop_queues (heads : list (Z * Z)) (endpoints : list Z) (dirty : bool) : list (Z * Z) * bool :=
  match endpoints with
  | [] => (heads, dirty)
  | e :: endpoints =>
      match position e heads.*1 with
      | Some index => drop_queues (delete index heads) endpoints true
      | None => drop_queues heads endpoints dirty
      end
  end.

Definition drop_periodic_endpoints (c : Controller) (endpoints : list Z) : outcome (result unit unit * Controller) :=
  let '(heads, dirty) := drop_queues (periodic_queue_heads c) endpoints false in
  let c := with_heads heads c in
  if (dirty : bool) then rebuild_periodic_list c else Done (Ok tt, c).

End Sched.

(** ** Theorems *)
Section SchedLaws.
Context `{BO : BitFieldOps} {BL : BitFieldLaws}.

(** *** The ring *)

(** The queue head at [a] leads to the queue head at [b]. *)
Definition leads_to (qs : gmap Z EndpointQueue) (a b : Z) : Prop :=
  exists q, qs !! a = Some q /\ link_view (next_link_ptr (q_headp q)) = (b, link_type_to QueueHead_, false).

(** Each queue head of the list leads to the one after it, the last one to [e]. *)
Fixpoint chain (qs : gmap Z EndpointQueue) (l : list Z) (e : Z) : Prop :=
  match l with
  | [] => True
  | a :: l => leads_to qs a (default e (head l)) /\ chain qs l e
  end.

(** The asynchronous schedule: following the links from the head of the list visits the queues of the
    list in order and comes back. *)
Record ring (c : Controller) (l : list Z) : Prop := {
  ring_nodup : NoDup l;
  ring_aligned : Forall link_aligned l;
  ring_head : exists h t, l = h :: t /\ chain (queues c) l h;
}.

Lemma chain_app qs l1 b l2 e : chain qs (l1 ++ b :: l2) e <-> chain qs l1 b /\ chain qs (b :: l2) e.
Proof.
  induction l1 as [|a l1 IH]; [cbn; tauto|]. cbn [app chain]. rewrite IH. destruct l1 as [|x l1]; cbn [app head default from_option id]; cbn [chain]; tauto.
Qed.

Lemma chain_frame qs p q l e : p ∉ l -> chain (<[p := q]> qs) l e <-> chain qs l e.
Proof.
  induction l as [|a l IH]; intros Hp; [done|]. apply not_elem_of_cons in Hp as [Hpa Hp]. cbn [chain]. rewrite (IH Hp). unfold leads_to. rewrite lookup_insert_ne by done. done.
Qed.

Lemma leads_set qs q p b : link_aligned b -> leads_to (<[p := with_head (set_next_queue_head (q_headp q) b) q]> qs) p b.
Proof using BL.
  intros Hb. eexists. split; [apply lookup_insert_eq|]. cbn [q_headp with_head]. by apply set_next_queue_head_view.
Qed.

(** Changing anything of a queue but its link keeps the chains. *)
Lemma chain_same_links qs qs' l e :
  (forall a q, qs !! a = Some q -> exists q', qs' !! a = Some q' /\ next_link_ptr (q_headp q') = next_link_ptr (q_headp q)) -> chain qs l e -> chain qs' l e.
Proof.
  intros Hs. induction l as [|a l IH]; [done|]. cbn [chain]. intros [(q & Hq & Hv) Hc]. split; [|by apply IH]. destruct (Hs a q Hq) as (q' & Hq' & He). exists q'. split; [done|]. by rewrite He.
Qed.

Lemma chain_queues qs l e a : chain qs l e -> a ∈ l -> is_Some (qs !! a).
Proof. induction l as [|x l IH]; intros Hc Ha; [by apply not_elem_of_nil in Ha|]. destruct Hc as [(q & Hq & _) Hc]. apply elem_of_cons in Ha as [->|Ha]; [done|by apply IH]. Qed.

Lemma as_u32_aligned a : link_aligned a -> as_u32 a = Done a.
Proof. intros [Ha _]. unfold as_u32. by rewrite (proj2 (Z.leb_le 0 a)), (proj2 (Z.ltb_lt a (2 ^ 32))) by lia. Qed.

Lemma set_next_ok c a b qa qb : queues c !! a = Some qa -> queues c !! b = Some qb -> link_aligned b ->
  set_next_endpoint_queue c a b = Done (with_queues (<[a := with_head (set_next_queue_head (q_headp qa) b) qa]> (queues c)) c).
Proof. intros Ha Hb Hal. unfold set_next_endpoint_queue, get_queue. rewrite Ha, Hb. cbn [unwrap mbind outcome_bind]. by rewrite as_u32_aligned. Qed.

(** Inserting a queue into the asynchronous schedule keeps it a ring that visits every queue: the new
    one is visited last, and the order of the others stays. *)
Theorem insert_into_async_ring c a q :
  ring c (async_list c) -> queues c !! a = Some q -> a ∉ async_list c -> link_aligned a ->
  exists c', insert_into_async c a = Done c' /\ async_list c' = async_list c ++ [a] /\ ring c' (async_list c').
Proof using BL.
  intros [Hnd Hal (h & t & Hl & Hch)] Hq Ha Haa. unfold insert_into_async. rewrite Hl in *. cbn [head unwrap mbind outcome_bind].
  assert (is_Some (queues c !! h)) as [qh Hqh] by (eapply chain_queues; [exact Hch|apply list_elem_of_here]).
  pose proof (Forall_inv Hal) as Hah. apply not_elem_of_cons in Ha as [Hna Hat].
  rewrite (set_next_ok c a h q qh) by done. cbn [mbind outcome_bind async_list with_queues]. rewrite Hl.
  destruct (exists_last (l := h :: t)) as (l1 & z & Hz); [done|]. rewrite Hz, last_snoc. cbn [unwrap mbind outcome_bind].
  assert (z ∈ h :: t) as Hzin by (rewrite Hz; apply elem_of_app; right; apply list_elem_of_here).
  assert (z <> a) as Hza by (intros ->; apply elem_of_cons in Hzin as [->|?]; done).
  assert (is_Some (queues c !! z)) as [qz Hqz] by (by eapply chain_queues).
  erewrite (set_next_ok (with_queues _ c) z a qz); [|cbn; by rewrite lookup_insert_ne|cbn; apply lookup_insert_eq|done]. cbn [mbind outcome_bind]. eexists. split; [done|]. cbn [async_list with_async with_queues]. rewrite Hl, Hz. split; [done|].
  assert (a ∉ h :: t) as Hnin by (by apply not_elem_of_cons). rewrite Hz in Hnin, Hnd, Hal, Hch.
  assert (z ∉ l1) as Hzl1. { apply NoDup_app in Hnd as (_ & Hd & _). intros Hin. apply (Hd z Hin). apply list_elem_of_here. }
  assert (a ∉ l1) as Hal1 by (intros Hin; apply Hnin, elem_of_app; by left).
  split; cbn [queues with_async with_queues].
  - apply NoDup_app. split; [done|]. split; [|apply NoDup_singleton]. intros x Hx ->%list_elem_of_singleton. done.
  - apply Forall_app. split; [done|]. by apply Forall_singleton.
  - exists h. destruct l1 as [|x l1].
    + injection Hz as -> ->. exists [a]. split; [done|]. cbn [app chain head default from_option id]. split; [by apply leads_set|]. split; [|done].
      destruct (leads_set (queues c) q a z Hah) as (q' & H1 & H2). exists q'. split; [by rewrite lookup_insert_ne|done].
    + injection Hz as -> ->. exists (l1 ++ [z] ++ [a]). split; [by rewrite <- !app_assoc|]. rewrite <- app_assoc. apply chain_app. apply chain_app in Hch as [Hc1 _]. cbn [app].
      split; [by rewrite !chain_frame|]. cbn [chain head default from_option id]. split; [by apply leads_set|]. split; [|done].
      destruct (leads_set (queues c) q a x Hah) as (q' & H1 & H2). exists q'. split; [by rewrite lookup_insert_ne|done].
Qed.

(** *** Removal *)

Lemma alive_app c l1 l2 : alive c (l1 ++ l2) = alive c l1 ++ alive c l2.
Proof. unfold alive. apply List.filter_app. Qed.

Lemma alive_rev c l : alive c (rev l) = rev (alive c l).
Proof. unfold alive. induction l as [|a l IH]; [done|]. cbn [rev]. rewrite List.filter_app, IH. cbn. destruct (negb (waiting c a)); cbn; by rewrite ?app_nil_r. Qed.

Lemma alive_ext c c' l : (forall a, a ∈ l -> waiting c a = waiting c' a) -> alive c l = alive c' l.
Proof.
  intros H. unfold alive. induction l as [|a l IH]; [done|]. cbn. rewrite (H a) by apply list_elem_of_here. rewrite IH; [done|]. intros x Hx. apply H. by right.
Qed.

Lemma alive_in c l a : a ∈ alive c l -> a ∈ l /\ waiting c a = false.
Proof. unfold alive. intros [H1 H2]%list_elem_of_In%filter_In. apply list_elem_of_In in H1. split; [done|]. by apply negb_true_iff. Qed.

Lemma alive_nodup c l : NoDup l -> NoDup (alive c l).
Proof.
  induction 1 as [|a l Hn _ IH]; [constructor|]. unfold alive in *. cbn. destruct (negb _); [|done]. constructor; [|done]. intros Ha. apply Hn. by apply (alive_in c).
Qed.

Lemma alive_forall c l (P : Z -> Prop) : Forall P l -> Forall P (alive c l).
Proof. rewrite !Forall_forall. intros H a Ha. apply H. by apply (alive_in c). Qed.

Lemma position_split i l : i ∈ l -> NoDup l -> exists l1 l2, l = l1 ++ i :: l2 /\ position i l = Some (length l1) /\ (i ∉ l1) /\ (i ∉ l2).
Proof.
  induction l as [|a l IH]; intros Hi Hnd; [by apply not_elem_of_nil in Hi|]. apply NoDup_cons in Hnd as [Hna Hnd]. cbn [position]. destruct (Z.eqb_spec a i) as [->|Hne].
  - exists [], l. split; [done|]. split; [done|]. split; [apply not_elem_of_nil|done].
  - apply elem_of_cons in Hi as [->|Hi]; [done|]. destruct (IH Hi Hnd) as (l1 & l2 & -> & -> & H1 & H2). exists (a :: l1), l2. split; [done|]. split; [done|]. split; [|done].
    by apply not_elem_of_cons.
Qed.

Lemma waiting_set c a q b : queues c !! a = Some q ->
  waiting (with_queues (<[a := mkQueue (q_pid q) (q_target q) (packet_size q) (q_headp q) (work q) (terminator q) true]> (queues c)) c) b = (if decide (b = a) then true else waiting c b).
Proof. intros Hq. unfold waiting. cbn [queues with_queues]. destruct (decide (b = a)) as [->|Hne]; [by rewrite lookup_insert_eq|by rewrite lookup_insert_ne]. Qed.

Lemma waiting_link c p q h b : queues c !! p = Some q -> waiting (with_queues (<[p := with_head h q]> (queues c)) c) b = waiting c b.
Proof. intros Hq. unfold waiting. cbn [queues with_queues]. destruct (decide (b = p)) as [->|Hne]; [by rewrite lookup_insert_eq, Hq|by rewrite lookup_insert_ne]. Qed.

(** The schedule while queues are removed: the ring visits those that are not marked. *)
Record ring_alive (c : Controller) : Prop := {
  ra_nodup : NoDup (async_list c);
  ra_aligned : Forall link_aligned (async_list c);
  ra_head : exists h t, async_list c = h :: t /\ waiting c h = false;
  ra_ring : exists h t, alive c (async_list c) = h :: t /\ chain (queues c) (alive c (async_list c)) h;
}.

(** Marking a queue keeps the links. *)
Lemma set_waiting_spec c i q : queues c !! i = Some q ->
  exists c', set_waiting c i = Done c' /\ async_list c' = async_list c /\ (forall b, waiting c' b = (if decide (b = i) then true else waiting c b)) /\
    (forall l e, chain (queues c) l e -> chain (queues c') l e).
Proof.
  intros Hq. unfold set_waiting, get_queue. rewrite Hq. cbn [unwrap mbind outcome_bind]. eexists. split; [done|]. split; [done|]. split; [intros b; by apply waiting_set|].
  intros l e. apply chain_same_links. intros a qa Ha. cbn [queues with_queues]. destruct (decide (a = i)) as [->|Hne].
  - rewrite lookup_insert_eq. eexists. split; [done|]. cbn. congruence.
  - rewrite lookup_insert_ne by done. by exists qa.
Qed.

Lemma head_alive_in c l x : head (alive c l) = Some x -> x ∈ alive c l.
Proof. destruct (alive c l); [done|]. intros [= ->]. apply list_elem_of_here. Qed.

(** One removal: the previous queue that stays is linked to the next one. *)
Lemma unlink_ring c i :
  ring_alive c -> i ∈ async_list c -> waiting c i = false -> head (async_list c) <> Some i ->
  exists c', unlink c i = Done c' /\ async_list c' = async_list c /\ ring_alive c' /\ forall b, waiting c' b = (if decide (b = i) then true else waiting c b).
Proof using BL.
  intros [Hnd Hal (h & t & Hl & Hh) (h' & t' & Ha & Hch)] Hi Hw Hne. assert (h' = h) as ->.
  { rewrite Hl in Ha. unfold alive in Ha. cbn in Ha. rewrite Hh in Ha. cbn in Ha. congruence. }
  destruct (position_split i (async_list c) Hi Hnd) as (l1 & l2 & Hsp & Hpos & Hn1 & Hn2).
  assert (exists l1', l1 = h :: l1') as [l1' Hl1]. { destruct l1 as [|x l1]; [rewrite Hsp in Hne; done|]. rewrite Hl in Hsp. injection Hsp as -> _. by exists l1. }
  assert (is_Some (queues c !! i)) as [qi Hqi]. { eapply chain_queues; [exact Hch|]. unfold alive. apply list_elem_of_In, filter_In. split; [by apply list_elem_of_In|by rewrite Hw]. }
  destruct (set_waiting_spec c i qi Hqi) as (c1 & Hc1 & Hl1c & Hw1 & Hk). unfold unlink. rewrite Hpos. cbn [unwrap mbind outcome_bind]. rewrite Hc1. cbn [mbind outcome_bind]. rewrite Hl1c.
  assert (forall l, i ∉ l -> alive c1 l = alive c l) as Hsame. { intros l Hni. apply alive_ext. intros a Hin. rewrite Hw1, decide_False; [done|]. by intros ->. }
  assert (alive c (async_list c) = alive c l1 ++ i :: alive c l2) as Hac. { rewrite Hsp, alive_app. unfold alive at 2. cbn. by rewrite Hw. }
  assert (alive c1 (async_list c) = alive c l1 ++ alive c l2) as Hac1. { rewrite Hsp, alive_app. unfold alive at 2. cbn. rewrite (Hw1 i), decide_True by done. cbn. fold (alive c1 l2). by rewrite !Hsame. }
  assert (take (length l1) (async_list c) = l1) as -> by (rewrite Hsp; apply take_app_length).
  assert (drop (length l1) (async_list c) = i :: l2) as Hdrop by (rewrite Hsp; apply drop_app_length).
  rewrite alive_rev, (Hsame l1 Hn1). assert (exists A p, alive c l1 = A ++ [p]) as (A & p & HA).
  { destruct (exists_last (l := alive c l1)) as (A & p & HA); [|by exists A, p]. rewrite Hl1. unfold alive. cbn. by rewrite Hh. }
  rewrite HA, rev_unit. cbn [head unwrap mbind outcome_bind]. rewrite Hl. cbn [lookup list_lookup unwrap mbind outcome_bind]. rewrite <- Hl, Hdrop.
  assert (alive c1 (i :: l2) = alive c l2) as ->. { unfold alive. cbn. rewrite (Hw1 i), decide_True by done. cbn. by apply Hsame. }
  set (nx := default h (head (alive c l2))). rewrite HA in Hac, Hac1. rewrite <- app_assoc in Hac, Hac1. cbn [app] in Hac, Hac1.
  assert (p ∈ async_list c /\ waiting c p = false) as [Hpin Hpw]. { apply alive_in. rewrite Hac. apply elem_of_app. right. apply list_elem_of_here. }
  assert (nx ∈ async_list c /\ waiting c nx = false) as [Hnin Hnw].
  { unfold nx. destruct (alive c l2) as [|x r] eqn:E2; cbn; [split; [rewrite Hl; apply list_elem_of_here|done]|]. apply alive_in. rewrite Hac. apply elem_of_app. right. right. right. apply list_elem_of_here. }
  assert (forall a, a ∈ async_list c -> waiting c a = false -> is_Some (queues c1 !! a)) as Hsome.
  { intros a Hain Haw. eapply chain_queues; [apply Hk, Hch|]. unfold alive. apply list_elem_of_In, filter_In. split; [by apply list_elem_of_In|by rewrite Haw]. }
  destruct (Hsome nx Hnin Hnw) as [qn Hqn], (Hsome p Hpin Hpw) as [qp Hqp]. unfold get_queue. rewrite Hqn. cbn [unwrap mbind outcome_bind].
  rewrite Forall_forall in Hal. rewrite as_u32_aligned by (by apply Hal). cbn [mbind outcome_bind]. rewrite Hqp. cbn [unwrap mbind outcome_bind].
  eexists. split; [done|]. cbn [async_list with_queues]. rewrite Hl1c. split; [done|].
  assert (forall b, waiting (with_queues (<[p:=with_head (set_next_queue_head (q_headp qp) nx) qp]> (queues c1)) c1) b = (if decide (b = i) then true else waiting c b)) as Hw2.
  { intros b. rewrite waiting_link by done. apply Hw1. }
  split; [|exact Hw2]. pose proof (alive_nodup c _ Hnd) as Hnda. rewrite Hac in Hnda.
  assert ((p ∉ A) /\ (p ∉ alive c l2)) as [HpA Hp2].
  { apply NoDup_app in Hnda as (_ & Hd & Hr). split; [intros Hin; apply (Hd p Hin), list_elem_of_here|]. apply NoDup_cons in Hr as [Hr _]. intros Hin. apply Hr. by right. }
  split.
  - cbn. by rewrite Hl1c.
  - cbn. rewrite Hl1c. by apply Forall_forall.
  - exists h, t. cbn [async_list with_queues]. rewrite Hl1c. split; [done|]. rewrite Hw2, decide_False; [done|]. intros ->. apply Hn1. rewrite Hl1. apply list_elem_of_here.
  - cbn [async_list with_queues queues]. rewrite Hl1c.
    assert (alive (with_queues (<[p:=with_head (set_next_queue_head (q_headp qp) nx) qp]> (queues c1)) c1) (async_list c) = A ++ p :: alive c l2) as ->.
    { rewrite <- Hac1. apply alive_ext. intros b _. by rewrite Hw2, Hw1. }
    rewrite Ha in Hac. exists h. assert (exists t2, A ++ p :: alive c l2 = h :: t2) as [t2 Ht2].
    { destruct A as [|x A]; cbn in Hac |- *; injection Hac as <- _; eauto. }
    exists t2. split; [done|]. apply Hk in Hch. rewrite Ha, Hac in Hch. apply chain_app in Hch as [Hc1' Hc2]. cbn [chain] in Hc2. destruct Hc2 as [_ Hc2]. cbn [chain] in Hc2. destruct Hc2 as [Hli Hc2].
    apply chain_app. split; [by apply chain_frame|]. cbn [chain]. split; [apply leads_set; by apply Hal|]. by apply chain_frame.
Qed.

Lemma unlink_all_ring es c :
  ring_alive c -> NoDup es -> (forall i, i ∈ es -> i ∈ async_list c /\ waiting c i = false /\ head (async_list c) <> Some i) ->
  exists c', unlink_all c es = Done c' /\ async_list c' = async_list c /\ ring_alive c' /\ forall b, waiting c' b = (if decide (b ∈ es) then true else waiting c b).
Proof using BL.
  revert c. induction es as [|i es IH]; intros c Hr Hnd Hes; [exists c; split; [done|]; split; [done|]; split; [done|]; intros b; by rewrite decide_False by apply not_elem_of_nil|].
  apply NoDup_cons in Hnd as [Hni Hnd]. destruct (Hes i (list_elem_of_here i es)) as (H1 & H2 & H3). destruct (unlink_ring c i Hr H1 H2 H3) as (c1 & Hc1 & Hl1 & Hr1 & Hw1).
  cbn [unlink_all]. rewrite Hc1. cbn [mbind outcome_bind]. destruct (IH c1 Hr1 Hnd) as (c2 & -> & Hl2 & Hr2 & Hw2).
  { intros j Hj. rewrite Hl1, Hw1, decide_False by (by intros ->). apply Hes. by right. }
  exists c2. split; [done|]. split; [congruence|]. split; [done|]. intros b. rewrite Hw2, Hw1.
  destruct (decide (b ∈ i :: es)) as [H|H]; rewrite elem_of_cons in H; destruct (decide (b ∈ es)), (decide (b = i)); try done; tauto.
Qed.

(** C17. Removing endpoints keeps the asynchronous schedule a ring: after [drop_endpoints] the links visit
    exactly the queues that were not removed, in their order, however many neighbours are removed at
    once.  Only the head of the list cannot be removed. *)
Theorem drop_endpoints_ring c es :
  ring c (async_list c) -> (forall a, a ∈ async_list c -> waiting c a = false) ->
  NoDup es -> (forall i, i ∈ es -> i ∈ async_list c /\ head (async_list c) <> Some i) ->
  exists c', drop_endpoints c es = Done c' /\ async_list c' = List.filter (fun a => negb (bool_decide (a ∈ es))) (async_list c) /\ ring c' (async_list c').
Proof using BL.
  intros [Hnd Hal (h & t & Hl & Hch)] Hw Hes Hin. assert (alive c (async_list c) = async_list c) as Hall.
  { unfold alive. clear -Hw. induction (async_list c) as [|a l IH]; [done|]. cbn. rewrite (Hw a) by apply list_elem_of_here. cbn. f_equal. apply IH. intros x Hx. apply Hw. by right. }
  assert (ring_alive c) as Hr. { split; [done|done|exists h, t; split; [done|]; apply Hw; rewrite Hl; apply list_elem_of_here|rewrite Hall; by exists h, t]. }
  destruct (unlink_all_ring es c Hr Hes) as (c1 & Hc1 & Hl1 & [Hnd1 Hal1 _ Hr1] & Hw1).
  { intros i Hi. destruct (Hin i Hi). split; [done|]. split; [by apply Hw|done]. }
  unfold drop_endpoints. rewrite Hc1. cbn [mbind outcome_bind]. eexists. split; [done|]. cbn [async_list with_async]. rewrite Hl1 in *. split.
  - unfold alive. clear -Hw Hw1. induction (async_list c) as [|a l IH]; [done|]. cbn. rewrite Hw1, (Hw a) by apply list_elem_of_here. rewrite IH by (intros x Hx; apply Hw; by right).
    destruct (decide (a ∈ es)) as [He|He]; [by rewrite bool_decide_eq_true_2|by rewrite bool_decide_eq_false_2].
  - split; [by apply alive_nodup|by apply alive_forall|]. destruct Hr1 as (h1 & t1 & H1 & H2). by exists h1, t1.
Qed.

(** The list starts as a ring of one queue. *)
Lemma init_head_table_ring c addr m b l :
  async_list c = [] -> link_aligned addr -> supply m = b :: l -> b mod 64 = 0 -> 0 <= b < 2 ^ 32 ->
  exists c' m', init_head_table c addr m = Done (c', m') /\ async_list c' = [addr] /\ async_list_addr c' = addr /\ ring c' [addr].
Proof using BL.
  intros Hl Ha Hs Hb Hb32. unfold init_head_table, head_of_list, new_async. cbn [usb_endpoint_new Z.leb Z.ltb Z.compare andb unwrap mbind outcome_bind]. unfold dma_new. rewrite Hs. cbn [mbind outcome_bind].
  rewrite (Z.mod_small b) by done. destruct (set_current_transaction_ok (data_toggle_ctl (qh_new 64) true) b Hb32 Hb) as (q & -> & _). cbn [mbind outcome_bind].
  unfold target_try_from, address_new, endpoint_new. cbn [dev endpoint Z.ltb Z.compare assert_that mbind outcome_bind unwrap result_ok]. rewrite as_u32_aligned by done. cbn [mbind outcome_bind].
  rewrite Hl. cbn [async_list with_async with_queues app head unwrap mbind outcome_bind]. rewrite as_u32_aligned by done. cbn [mbind outcome_bind].
  eexists _, _. split; [done|]. split; [done|]. split; [done|]. split; [apply NoDup_singleton|by apply Forall_singleton|]. exists addr, []. split; [done|]. cbn [queues chain head default from_option id]. split; [|done].
  eexists. split; [apply lookup_insert_eq|]. cbn [q_headp with_head]. by apply set_next_queue_head_view.
Qed.

(** *** Addresses *)

Lemma not128_bit x i : 0 <= x < 2 ^ 128 -> 0 <= i < 128 -> Z.testbit (2 ^ 128 - 1 - x) i = negb (Z.testbit x i).
Proof.
  intros Hx Hi. change (2 ^ 128 - 1) with (Z.ones 128). rewrite Z.sub_nocarry_ldiff.
  - rewrite Z.ldiff_spec, Z.testbit_ones_nonneg, (proj2 (Z.ltb_lt i 128)) by lia. done.
  - destruct (decide (x = 0)) as [->|]; [done|]. apply Z.ldiff_ones_r_low; [lia|]. apply Z.log2_lt_pow2; lia.
Qed.

(** [alloc_address] gives the lowest free address and marks it; the addresses in use are not zero, since
    bit zero is set from the start. *)
Theorem alloc_address_fresh c a :
  0 <= address_bmp c < 2 ^ 128 -> Z.testbit (address_bmp c) 0 = true -> 0 <= a < 128 -> Z.testbit (address_bmp c) a = false ->
  exists b c', alloc_address c = (b, c') /\ 1 <= b <= a /\ Z.testbit (address_bmp c) b = false /\
    (forall i, 0 <= i -> Z.testbit (address_bmp c') i = (i =? b) || Z.testbit (address_bmp c) i).
Proof.
  intros Hr H0 Ha Hf. unfold alloc_address. set (b := trailing_ones128 (address_bmp c)). assert (0 <= b <= 128) as Hb by apply ctz_bound.
  assert (b <= a) as Hba.
  { destruct (Z.le_gt_cases b a) as [|Hgt]; [done|]. pose proof (ctz_below 128 (2 ^ 128 - 1 - address_bmp c) a ltac:(unfold b, trailing_ones128 in Hgt; lia)) as Hc.
    rewrite not128_bit, Hf in Hc by done. done. }
  assert (Z.testbit (address_bmp c) b = false) as Hbf.
  { pose proof (ctz_at 128 (2 ^ 128 - 1 - address_bmp c) ltac:(unfold b, trailing_ones128 in *; lia)) as Hc. fold (trailing_ones128 (address_bmp c)) in Hc. fold b in Hc.
    rewrite not128_bit in Hc by (done || lia). by apply negb_true_iff. }
  assert (b <> 0) by (intros ->; congruence). rewrite Z.mod_small by lia. eexists _, _. split; [done|]. split; [lia|]. split; [done|]. intros i Hi. cbn [address_bmp with_bmp].
  rewrite Z.setbit_eqb by lia. by rewrite Z.eqb_sym.
Qed.

(** From the 64th device on the address is refused by [DeviceAddress::new]. *)
Theorem device_address_limit n : device_address_new n = None <-> n < 0 \/ 64 <= n.
Proof.
  unfold device_address_new. destruct (Z.eqb_spec n 0) as [->|]; [split; [done|lia]|]. destruct (Z.leb_spec 1 n), (Z.ltb_spec n 64); cbn; split; try done; lia.
Qed.

(** Freeing what was allocated restores the bitmap. *)
Lemma alloc_free_address c a :
  0 <= address_bmp c < 2 ^ 128 -> Z.testbit (address_bmp c) 0 = true -> 0 <= a < 128 -> Z.testbit (address_bmp c) a = false ->
  exists b c' c'', alloc_address c = (b, c') /\ free_address c' (Address b) = Done c'' /\ address_bmp c'' = address_bmp c.
Proof.
  intros Hr H0 Ha Hf. destruct (alloc_address_fresh c a Hr H0 Ha Hf) as (b & c' & Hal & Hb & Hbf & Hbits). exists b, c'. unfold free_address. cbn [device_address_to].
  rewrite bool_decide_eq_false_2 by done. cbn [negb assert_that mbind outcome_bind]. rewrite Hbits, Z.eqb_refl by lia. cbn [orb assert_that mbind outcome_bind]. eexists. split; [done|]. split; [done|].
  cbn [address_bmp with_bmp]. apply Z.bits_inj'. intros i Hi. rewrite Z.clearbit_eqb by lia. rewrite Hbits by done. rewrite (Z.eqb_sym b i). destruct (Z.eqb_spec i b) as [->|]; cbn; [by rewrite Hbf|].
  by rewrite andb_true_r.
Qed.

(** *** The periodic schedule *)

(** The schedule mask has a bit for every [rate]-th microframe. *)
Lemma bitmap_bits n i : 1 <= n <= 8 -> 0 <= i < 8 -> Z.testbit (bitmap_loop 9 n 0 0) i = (i mod n =? 0).
Proof.
  intros Hn Hi. assert (n = 1 \/ n = 2 \/ n = 3 \/ n = 4 \/ n = 5 \/ n = 6 \/ n = 7 \/ n = 8) as Hc by lia.
  assert (i = 0 \/ i = 1 \/ i = 2 \/ i = 3 \/ i = 4 \/ i = 5 \/ i = 6 \/ i = 7) as Hd by lia.
  destruct Hc as [->|[->|[->|[->|[->|[->|[->| ->]]]]]]], Hd as [->|[->|[->|[->|[->|[->|[->| ->]]]]]]]; reflexivity.
Qed.

Theorem set_bitmap_mask c a rate q :
  0 < rate -> queues c !! a = Some q ->
  exists c' q', set_bitmap c (a, rate) = Done c' /\ queues c' !! a = Some q' /\
    forall i, 0 <= i < 8 -> Z.testbit (q_mask (qh_view (q_headp q'))) i = (i mod Z.min rate 8 =? 0).
Proof using BL.
  intros Hr Hq. unfold set_bitmap. rewrite (proj2 (Z.eqb_neq rate 0)) by lia.
  assert ((if rate <? 8 then Done rate else Done 8) = Done (Z.min rate 8)) as -> by (destruct (Z.ltb_spec rate 8); f_equal; lia). cbn [mbind outcome_bind]. unfold get_queue. rewrite Hq. cbn [unwrap mbind outcome_bind].
  set (n := Z.min rate 8). assert (1 <= n <= 8) as Hn by lia. assert (0 <= bitmap_loop 9 n 0 0 < 2 ^ 8) as Hm.
  { assert (n = 1 \/ n = 2 \/ n = 3 \/ n = 4 \/ n = 5 \/ n = 6 \/ n = 7 \/ n = 8) as [->|[->|[->|[->|[->|[->|[->| ->]]]]]]] by lia; done. }
  eexists _, _. split; [done|]. cbn [queues with_queues]. split; [apply lookup_insert_eq|]. intros i Hi. cbn [q_headp with_head]. rewrite qh_mask_view by done. cbn [q_mask]. by apply bitmap_bits.
Qed.

Lemma rfind_spec {A} (f : A -> bool) l :
  match rfind f l with
  | Some a => exists l1 l2, l = l1 ++ a :: l2 /\ f a = true /\ Forall (fun x => f x = false) l2
  | None => Forall (fun x => f x = false) l
  end.
Proof.
  induction l as [|a l IH]; [constructor|]. cbn. destruct (rfind f l) as [b|].
  - destruct IH as (l1 & l2 & -> & H1 & H2). by exists (a :: l1), l2.
  - destruct (f a) eqn:E; [by exists [], l|]. by constructor.
Qed.

(** Each entry of the frame list leads to the last endpoint of the list that is due in its frame.  An entry in whose
    frame none is due keeps what it had: after endpoints were dropped, that can be one of them. *)
Theorem frames_loop_entries heads i l : Forall (fun e => link_aligned e.1) heads ->
  exists l', frames_loop heads i l = Done l' /\ length l' = length l /\
    forall j p, l !! j = Some p -> exists p', l' !! j = Some p' /\
      match rfind (due (i + j)) heads with Some e => link_view p' = (e.1, link_type_to QueueHead_, false) | None => p' = p end.
Proof using BL.
  intros Hh. revert i. induction l as [|p l IH]; intros i; [by exists []|]. cbn [frames_loop]. destruct (IH (S i)) as (l' & -> & Hlen & Hl').
  assert (exists p', (match rfind (due i) heads with None => Done p | Some h => a ← as_u32 h.1; Done (set_link_type (set_address p a) QueueHead_) end) = Done p' /\
    match rfind (due i) heads with Some e => link_view p' = (e.1, link_type_to QueueHead_, false) | None => p' = p end) as (p' & -> & Hp').
  { pose proof (rfind_spec (due i) heads) as Hr. destruct (rfind (due i) heads) as [e|]; [|by exists p]. destruct Hr as (l1 & l2 & -> & _). apply Forall_app in Hh as [_ Hh]. apply Forall_cons in Hh as [He _].
    rewrite as_u32_aligned by done. cbn [mbind outcome_bind]. eexists. split; [done|]. rewrite set_link_type_view. pose proof (set_address_view p e.1 He) as Hv. unfold link_view in Hv. congruence. }
  cbn [mbind outcome_bind]. exists (p' :: l'). split; [done|]. split; [cbn; by rewrite Hlen|]. intros [|j] x Hx.
  - injection Hx as <-. exists p'. rewrite Nat.add_0_r. done.
  - rewrite Nat.add_succ_r. apply (Hl' j x Hx).
Qed.

(** Linking the periodic queues changes the asynchronous ones: with two periodic endpoints, the second queue
    of the asynchronous schedule leads back to the first, and the ring no longer reaches the third. *)
Theorem link_periodic_cuts_async c h a b rest e1 e2 :
  ring c (async_list c) -> async_list c = h :: a :: b :: rest -> periodic_queue_heads c = [e1; e2] ->
  exists c', link_periodic_list c = Done c' /\ async_list c' = async_list c /\ leads_to (queues c') a h /\ ~ ring c' (async_list c').
Proof using BL.
  intros [Hnd Hal (h' & t & Hl' & Hch)] Hl Hp. rewrite Hl in *. injection Hl' as <- <-. unfold link_periodic_list. rewrite Hp. cbn [length link_periodic_loop]. rewrite Hl. cbn [lookup list_lookup unwrap mbind outcome_bind].
  assert (is_Some (queues c !! h) /\ is_Some (queues c !! a)) as [[qh Hqh] [qa Hqa]] by (split; eapply chain_queues; [exact Hch|..|exact Hch|]; set_solver).
  assert (h <> a /\ h <> b) as [Hha Hhb] by (apply NoDup_cons in Hnd as [Hn _]; set_solver). pose proof (Forall_inv Hal) as Hah. cbn in Hah.
  rewrite (set_next_ok c a h qa qh) by done. cbn [mbind outcome_bind async_list with_queues]. rewrite Hl. cbn [lookup list_lookup unwrap mbind outcome_bind].
  unfold get_queue. cbn [queues with_queues]. rewrite lookup_insert_ne by done. rewrite Hqh. cbn [unwrap mbind outcome_bind]. eexists. split; [done|]. cbn [async_list with_queues queues]. split; [done|].
  assert (leads_to (<[h:=with_head (terminate_horizontal (q_headp qh) true) qh]> (<[a:=with_head (set_next_queue_head (q_headp qa) h) qa]> (queues c))) a h) as Hlead.
  { destruct (leads_set (queues c) qa a h Hah) as (q & Hq & Hv). exists q. split; [by rewrite lookup_insert_ne|done]. }
  split; [done|]. rewrite Hl. intros [_ _ (h2 & t2 & Heq & Hc)]. cbn [queues with_queues] in Hc. injection Heq as <- <-. cbn [chain head default from_option id] in Hc. destruct Hc as (_ & (q2 & Hq2 & Hv2) & _).
  destruct Hlead as (q3 & Hq3 & Hv3). rewrite Hq2 in Hq3. injection Hq3 as <-. rewrite Hv2 in Hv3. injection Hv3 as Heq. congruence.
Qed.

End SchedLaws.

(** ** Witnesses *)
Module EhciSchedWitness.
Import BitFieldWitness.

Definition queue_at (next : Z) : EndpointQueue :=
  mkQueue In (mkUTarget (Address 3) 1) 64 (set_next_queue_head (qh_new 64) next) [] None false.

(** Four queues in a ring, and one that is not in it. *)
Definition ehci : Controller :=
  mkEhci 1 [0x1000; 0x1080; 0x1100; 0x1180]
    (<[0x1000 := queue_at 0x1080]> (<[0x1080 := queue_at 0x1100]> (<[0x1100 := queue_at 0x1180]> (<[0x1180 := queue_at 0x1000]> {[0x1200 := queue_at 0]}))))
    0x1000 None [] true false.

Lemma ehci_ring : ring ehci (async_list ehci).
Proof.
  split.
  - apply (bool_decide_unpack (NoDup (async_list ehci))). vm_compute. exact I.
  - unfold link_aligned. repeat constructor; cbn; lia.
  - exists 0x1000, [0x1080; 0x1100; 0x1180]. split; [reflexivity|]. repeat split; (eexists; split; [vm_compute; reflexivity|vm_compute; reflexivity]).
Qed.

Lemma insert_into_async_witness :
  ring ehci (async_list ehci) /\ exists c', insert_into_async ehci 0x1200 = Done c' /\ async_list c' = [0x1000; 0x1080; 0x1100; 0x1180; 0x1200] /\ ring c' (async_list c').
Proof.
  split; [apply ehci_ring|]. apply (insert_into_async_ring ehci 0x1200 (queue_at 0)); [apply ehci_ring|reflexivity| |split; [lia|reflexivity]].
  cbn. rewrite !elem_of_cons, elem_of_nil. lia.
Defined.

(** Two neighbours are removed at once. *)
Lemma drop_endpoints_witness :
  ring ehci (async_list ehci) /\ exists c', drop_endpoints ehci [0x1080; 0x1100] = Done c' /\ async_list c' = [0x1000; 0x1180] /\ ring c' (async_list c').
Proof.
  split; [apply ehci_ring|]. apply (drop_endpoints_ring ehci [0x1080; 0x1100]).
  - apply ehci_ring.
  - intros a Ha. cbn in Ha. rewrite !elem_of_cons, elem_of_nil in Ha. destruct Ha as [->|[->|[->|[->|[]]]]]; reflexivity.
  - apply (bool_decide_unpack (NoDup [0x1080; 0x1100])). vm_compute. exact I.
  - intros i Hi. rewrite !elem_of_cons, elem_of_nil in Hi. destruct Hi as [->|[->|[]]]; split; cbn; try discriminate; rewrite !elem_of_cons; tauto.
Defined.

End EhciSchedWitness.
