(* ===== verification/Ata.v ===== *)
(** * ATA commands and device identification

    [lib/ata]: the command codes ([command.rs]) with the constructors of composed commands, and the 512
    bytes that [IDENTIFY_DEVICE] returns ([structures/identification.rs]).  The structure is kept as its bytes:
    [identity_fields] lists the fields with their sizes and alignments, [repr(C)] gives each its
    offset, and the accessors read there.  A flag is a constructor of its [bitflags] type together with its bit. *)
From Stdlib Require Import String.
From stdpp Require Import prelude list.
From S2P Require Import Prelude Bytes.
Open Scope Z_scope.

(** ** Commands *)
Module Ata.

Inductive AtaCommand :=
  | READ_DMA | READ_DMA_EXT | WRITE_DMA | WRITE_DMA_EXT | WRITE_DMA_FUA_EXT | READ_BUFFER | WRITE_BUFFER
  | READ_BUFFER_DMA | WRITE_BUFFER_DMA | NOP | CFA_REQUEST_EXT_ERR_CODE | DATA_SET_MANAGEMENT | DATA_SET_MANAGEMENT_XL
  | REQ_SENSE_DATA_EXT | GET_PHYSICAL_ELEMENT_STATUS | READ_SECTORS | READ_SECTORS_EXT | READ_STREAM_DMA_EXT
  | READ_STREAM_EXT | READ_LOG_EXT | WRITE_SECTORS | WRITE_SECTORS_EXT | CFA_WRITE_SECTORS_WITHOUT_ERASE
  | WRITE_STREAM_DMA_EXT | WRITE_STREAM_EXT | WRITE_LOG_EXT | READ_VERIFY_SECTORS | READ_VERIFY_SECTORS_EXT | ZERO_EXT
  | WRITE_UNCORRECTABLE_EXT | READ_LOG_DMA_EXT | ZAC_MANAGEMENT_IN | CONFIG_STREAM | WRITE_LOG_DMA_EXT
  | TRUSTED_NON_DATA | TRUSTED_RECEIVE | TRUSTED_RECEIVE_DMA | TRUSTED_SEND | TRUSTED_SEND_DMA | READ_FPDMA_QUEUED
  | WRITE_FPDMA_QUEUED | NCQ_NON_DATA | SEND_FPDMA_QUEUED | RECEIVE_FPDMA_QUEUED | SET_DATE_TIME_EXT
  | ACCESSIBLE_MAX_ADDR_CONFIG | REMOVE_ELEMENT_AND_TRUNCATE | RESTORE_ELEMENTS_AND_REBUILD
  | REMOVE_ELEMENT_AND_MODIFY_ZONES | CFA_TRANSLATE_SECTOR | EXECUTE_EDV_DIAGNOSTIC | DOWNLOAD_MICROCODE
  | DOWNLOAD_MICROCODE_DMA | ZAC_MANAGEMENT_OUT | SMART | SET_SECTOR_CONFIG_EXT | SANITIZE_DEVICE
  | CFA_WRITE_MULTIPLE_WITHOUT_ERASE | STANDBY_IMMEDIATE | IDLE_IMMEDIATE | STANDBY | IDLE | CHECK_POWER_MODE | SLEEP
  | FLUSH_CACHE | FLUSH_CACHE_EXT | IDENTIFY_DEVICE | SET_FEATURES | SECURITY_SET_PASSWORD | SECURITY_UNLOCK
  | SECURITY_ERASE_PREPARE | SECURITY_ERASE_UNIT | SECURITY_FREEZE_LOCK | SECURITY_DISABLE_PASSWORD.

#[export] Instance AtaCommand_dec : EqDecision AtaCommand.
Proof. solve_decision. Defined.

(** The discriminants. *)
Definition ata_code (c : AtaCommand) : Z :=
  match c with
  | READ_DMA => 0xc8 | READ_DMA_EXT => 0x25 | WRITE_DMA => 0xca | WRITE_DMA_EXT => 0x35 | WRITE_DMA_FUA_EXT => 0x3d
  | READ_BUFFER => 0xe4 | WRITE_BUFFER => 0xe8 | READ_BUFFER_DMA => 0xe9 | WRITE_BUFFER_DMA => 0xeb | NOP => 0x00
  | CFA_REQUEST_EXT_ERR_CODE => 0x03 | DATA_SET_MANAGEMENT => 0x06 | DATA_SET_MANAGEMENT_XL => 0x07
  | REQ_SENSE_DATA_EXT => 0xb | GET_PHYSICAL_ELEMENT_STATUS => 0x12 | READ_SECTORS => 0x20 | READ_SECTORS_EXT => 0x24
  | READ_STREAM_DMA_EXT => 0x2a | READ_STREAM_EXT => 0x2b | READ_LOG_EXT => 0x2f | WRITE_SECTORS => 0x30
  | WRITE_SECTORS_EXT => 0x34 | CFA_WRITE_SECTORS_WITHOUT_ERASE => 0x38 | WRITE_STREAM_DMA_EXT => 0x3a
  | WRITE_STREAM_EXT => 0x3b | WRITE_LOG_EXT => 0x3f | READ_VERIFY_SECTORS => 0x40 | READ_VERIFY_SECTORS_EXT => 0x42
  | ZERO_EXT => 0x44 | WRITE_UNCORRECTABLE_EXT => 0x45 | READ_LOG_DMA_EXT => 0x47 | ZAC_MANAGEMENT_IN => 0x4a
  | CONFIG_STREAM => 0x51 | WRITE_LOG_DMA_EXT => 0x57 | TRUSTED_NON_DATA => 0x5b | TRUSTED_RECEIVE => 0x5c
  | TRUSTED_RECEIVE_DMA => 0x5d | TRUSTED_SEND => 0x5e | TRUSTED_SEND_DMA => 0x5f | READ_FPDMA_QUEUED => 0x60
  | WRITE_FPDMA_QUEUED => 0x61 | NCQ_NON_DATA => 0x63 | SEND_FPDMA_QUEUED => 0x64 | RECEIVE_FPDMA_QUEUED => 0x65
  | SET_DATE_TIME_EXT => 0x77 | ACCESSIBLE_MAX_ADDR_CONFIG => 0x78 | REMOVE_ELEMENT_AND_TRUNCATE => 0x7c
  | RESTORE_ELEMENTS_AND_REBUILD => 0x7d | REMOVE_ELEMENT_AND_MODIFY_ZONES => 0x7e | CFA_TRANSLATE_SECTOR => 0x87
  | EXECUTE_EDV_DIAGNOSTIC => 0x90 | DOWNLOAD_MICROCODE => 0x92 | DOWNLOAD_MICROCODE_DMA => 0x93
  | ZAC_MANAGEMENT_OUT => 0x9f | SMART => 0xb0 | SET_SECTOR_CONFIG_EXT => 0xb2 | SANITIZE_DEVICE => 0xb4
  | CFA_WRITE_MULTIPLE_WITHOUT_ERASE => 0xcd | STANDBY_IMMEDIATE => 0xe0 | IDLE_IMMEDIATE => 0xe1 | STANDBY => 0xe2
  | IDLE => 0xe3 | CHECK_POWER_MODE => 0xe5 | SLEEP => 0xe6 | FLUSH_CACHE => 0xe7 | FLUSH_CACHE_EXT => 0xea
  | IDENTIFY_DEVICE => 0xec | SET_FEATURES => 0xef | SECURITY_SET_PASSWORD => 0xf1 | SECURITY_UNLOCK => 0xf2
  | SECURITY_ERASE_PREPARE => 0xf3 | SECURITY_ERASE_UNIT => 0xf4 | SECURITY_FREEZE_LOCK => 0xf5
  | SECURITY_DISABLE_PASSWORD => 0xf6
  end.

Definition ata_commands : list AtaCommand :=
  [READ_DMA; READ_DMA_EXT; WRITE_DMA; WRITE_DMA_EXT; WRITE_DMA_FUA_EXT; READ_BUFFER; WRITE_BUFFER; READ_BUFFER_DMA;
   WRITE_BUFFER_DMA; NOP; CFA_REQUEST_EXT_ERR_CODE; DATA_SET_MANAGEMENT; DATA_SET_MANAGEMENT_XL; REQ_SENSE_DATA_EXT;
   GET_PHYSICAL_ELEMENT_STATUS; READ_SECTORS; READ_SECTORS_EXT; READ_STREAM_DMA_EXT; READ_STREAM_EXT; READ_LOG_EXT;
   WRITE_SECTORS; WRITE_SECTORS_EXT; CFA_WRITE_SECTORS_WITHOUT_ERASE; WRITE_STREAM_DMA_EXT; WRITE_STREAM_EXT;
   WRITE_LOG_EXT; READ_VERIFY_SECTORS; READ_VERIFY_SECTORS_EXT; ZERO_EXT; WRITE_UNCORRECTABLE_EXT; READ_LOG_DMA_EXT;
   ZAC_MANAGEMENT_IN; CONFIG_STREAM; WRITE_LOG_DMA_EXT; TRUSTED_NON_DATA; TRUSTED_RECEIVE; TRUSTED_RECEIVE_DMA;
   TRUSTED_SEND; TRUSTED_SEND_DMA; READ_FPDMA_QUEUED; WRITE_FPDMA_QUEUED; NCQ_NON_DATA; SEND_FPDMA_QUEUED;
   RECEIVE_FPDMA_QUEUED; SET_DATE_TIME_EXT; ACCESSIBLE_MAX_ADDR_CONFIG; REMOVE_ELEMENT_AND_TRUNCATE;
   RESTORE_ELEMENTS_AND_REBUILD; REMOVE_ELEMENT_AND_MODIFY_ZONES; CFA_TRANSLATE_SECTOR; EXECUTE_EDV_DIAGNOSTIC;
   DOWNLOAD_MICROCODE; DOWNLOAD_MICROCODE_DMA; ZAC_MANAGEMENT_OUT; SMART; SET_SECTOR_CONFIG_EXT; SANITIZE_DEVICE;
   CFA_WRITE_MULTIPLE_WITHOUT_ERASE; STANDBY_IMMEDIATE; IDLE_IMMEDIATE; STANDBY; IDLE; CHECK_POWER_MODE; SLEEP;
   FLUSH_CACHE; FLUSH_CACHE_EXT; IDENTIFY_DEVICE; SET_FEATURES; SECURITY_SET_PASSWORD; SECURITY_UNLOCK;
   SECURITY_ERASE_PREPARE; SECURITY_ERASE_UNIT; SECURITY_FREEZE_LOCK; SECURITY_DISABLE_PASSWORD].

(** The derived [TryFromPrimitive]. *)
Definition ata_try_from (v : Z) : result AtaCommand Z :=
  match List.find (fun c => ata_code c =? v) ata_commands with Some c => Ok c | None => Err v end.

Definition is_nqc (c : AtaCommand) : bool :=
  match c with
  | NCQ_NON_DATA | READ_FPDMA_QUEUED | RECEIVE_FPDMA_QUEUED | SEND_FPDMA_QUEUED | WRITE_DMA_FUA_EXT => true
  | _ => false
  end.

Definition is_write (c : AtaCommand) : bool :=
  match c with
  | WRITE_DMA | WRITE_DMA_EXT | WRITE_DMA_FUA_EXT | WRITE_BUFFER | WRITE_BUFFER_DMA | DATA_SET_MANAGEMENT
  | DATA_SET_MANAGEMENT_XL | WRITE_SECTORS | WRITE_SECTORS_EXT | CFA_WRITE_SECTORS_WITHOUT_ERASE | WRITE_STREAM_DMA_EXT
  | WRITE_STREAM_EXT | WRITE_LOG_EXT | WRITE_UNCORRECTABLE_EXT | ZAC_MANAGEMENT_IN | WRITE_LOG_DMA_EXT | TRUSTED_SEND
  | TRUSTED_SEND_DMA | WRITE_FPDMA_QUEUED | SEND_FPDMA_QUEUED | ZAC_MANAGEMENT_OUT | CFA_WRITE_MULTIPLE_WITHOUT_ERASE
  | SECURITY_SET_PASSWORD | SECURITY_UNLOCK | SECURITY_ERASE_UNIT | SECURITY_DISABLE_PASSWORD => true
  | _ => false
  end.

Inductive SanitiseSubcommand :=
  | SANITIZE_STATUS_EXT | CRYPTO_SCRAMBLE_EXT | BLOCK_ERASE_EXT | OVERWRITE_EXT | SANITIZE_FREEZE_LOCK_EXT | SANITIZE_ANTIFREEZE_LOCK_EXT.

Inductive OpaqueCommand := OpRead | OpWrite.

#[export] Instance OpaqueCommand_dec : EqDecision OpaqueCommand.
Proof. solve_decision. Defined.

Inductive MaybeOpaqueCommand := Concrete (c : AtaCommand) | Opaque (o : OpaqueCommand).

(** [TryInto<u8>]. *)
Definition maybe_try_into (m : MaybeOpaqueCommand) : result Z MaybeOpaqueCommand :=
  match m with Concrete c => Ok (ata_code c) | Opaque _ => Err m end.

Record ComposedCommand := mkComposed {
  command : MaybeOpaqueCommand; feature : option Z; count : option Z; lba : option Z;
  device : option Z; icc : option Z; aux : option Z }.

Definition zeroed (cmd : MaybeOpaqueCommand) : ComposedCommand :=
  mkComposed cmd (Some 0) (Some 0) (Some 0) (Some 0) (Some 0) (Some 0).

Definition empty_cmd (cmd : MaybeOpaqueCommand) : ComposedCommand := mkComposed cmd None None None None None None.

Definition is_48_bit (c : ComposedCommand) : bool :=
  match command c with
  | Concrete _ => true
  | Opaque _ =>
      match feature c, count c, lba c with
      | Some n, _, _ => 0xff <? n
      | None, Some n, _ => 0xff <? n
      | None, None, Some n => 0xfffffff <? n
      | None, None, None => false
      end
  end.

Inductive SpanningCmdType := SpanRead | SpanWrite.

Definition spanning_into (t : SpanningCmdType) : MaybeOpaqueCommand :=
  match t with SpanRead => Opaque OpRead | SpanWrite => Opaque OpWrite end.

Record SpanningCmd := mkSpanning { sp_cmd : SpanningCmdType; sp_lba : Z; sp_count : Z }.

Definition spanning_new (cmd_type : SpanningCmdType) (lba count : Z) : option SpanningCmd :=
  if Z.land lba (wnot 0xffffffffffff) =? 0 then Some (mkSpanning cmd_type lba count) else None.

Definition spanning_compose (s : SpanningCmd) : ComposedCommand :=
  mkComposed (spanning_into (sp_cmd s)) None (Some (sp_count s)) (Some (sp_lba s)) None None None.

Inductive NoArgCmd := IdentifyDevice.

Definition no_arg_into (n : NoArgCmd) : MaybeOpaqueCommand := match n with IdentifyDevice => Concrete IDENTIFY_DEVICE end.

Definition no_arg_compose (n : NoArgCmd) : ComposedCommand := zeroed (no_arg_into n).

End Ata.

(** ** Device identification *)
Module Identification.
Import Ata.

Definition identity_fields : list field :=
  [mkField "general_cfg" 2 2; mkField "ob0" 2 2; mkField "specific_cfg" 2 2; mkField "ob1" 8 2; mkField "res_cfa" 4 2;
   mkField "re0" 2 2; mkField "serial" 20 1; mkField "re1" 4 2; mkField "ob2" 2 2; mkField "firmware_vers" 8 1;
   mkField "model_num" 40 1; mkField "ob3" 2 2; mkField "trusted_computing" 2 2; mkField "capabilities" 2 2;
   mkField "cap_50" 2 2; mkField "ob4" 4 2; mkField "wd_53" 2 2; mkField "ob5" 10 2; mkField "sanitize_sub_cmd" 2 2;
   mkField "lba_28" 4 4; mkField "ob6" 2 2; mkField "multiword_dma" 2 2; mkField "wd_64_70" 14 2;
   mkField "res_for_command" 8 2; mkField "queue_depth" 2 2; mkField "sata_cap" 2 2; mkField "sata_cap2" 2 2;
   mkField "sata_features" 2 2; mkField "sata_features_en" 2 2; mkField "major_version" 2 2;
   mkField "minor_version" 2 2; mkField "features" 6 2; mkField "features_copy" 6 2; mkField "ultra_dma" 2 1;
   mkField "erase_time" 2 2; mkField "enhanced_erase_time" 2 2; mkField "apm_level" 2 1;
   mkField "master_passwd_id" 2 2; mkField "reset_results" 2 2; mkField "ob7" 2 2; mkField "streaming" 10 2;
   mkField "logical_sectors" 8 8; mkField "stream_transfer_pio" 2 2; mkField "max_sectors_per_sdm" 2 2;
   mkField "sector_geom" 2 2; mkField "seek_speed_for_sound_test" 2 2; mkField "world_wide_name" 8 8;
   mkField "re2" 8 2; mkField "ob8" 2 2; mkField "logical_sector_size" 4 2; mkField "features119" 2 2;
   mkField "features119_copy" 2 2; mkField "re3" 12 2; mkField "ob9" 2 2; mkField "security_status" 2 2;
   mkField "vendor_specific" 62 2; mkField "cfa_res" 16 2; mkField "form_factor" 2 2; mkField "data_management" 2 2;
   mkField "additional_product_id" 8 1; mkField "re4" 4 2; mkField "current_media_serial" 40 1;
   mkField "current_media_manufacturer" 20 1; mkField "sct_command_trans" 2 2; mkField "re5" 4 2;
   mkField "sector_alignment" 2 2; mkField "wrv_mode_3_count" 4 4; mkField "wrv_mode_2_count" 4 4; mkField "oba" 6 2;
   mkField "rpm" 2 2; mkField "re6" 2 2; mkField "ob219" 2 2; mkField "wrv_mode" 2 2; mkField "re221" 2 2;
   mkField "transport_major_version" 2 2; mkField "transport_minor_version" 2 2; mkField "re7" 12 2;
   mkField "sector_count_ext" 8 4; mkField "micro_blocks_min" 2 2; mkField "micro_blocks_max" 2 2; mkField "re8" 38 2;
   mkField "checksum" 2 1].

(** The fields of [TransferConfig], which is a field of [DeviceIdentity]. *)
Definition transfer_fields : list field :=
  [mkField "pio_mode" 2 2; mkField "min_dma_time" 2 2; mkField "recommended_min_dma_time" 2 2; mkField "min_pio_time" 2 2;
   mkField "min_pio_time_iordy" 2 2; mkField "additional_supported" 2 2; mkField "_res" 2 2].

Definition features_fields : list field := [mkField "features_82" 2 2; mkField "features_83" 2 2; mkField "features_84" 2 2].

Definition streaming_fields : list field :=
  [mkField "min_req_size" 2 2; mkField "access_time" 2 2; mkField "access_latency" 2 2; mkField "perf_granularity_low" 2 2; mkField "perf_granularity_high" 2 2].

Abbreviation DeviceIdentity := (list Z).

Definition get (d : DeviceIdentity) (name : string) : Z := field_val identity_fields d name.
Definition get_in (d : DeviceIdentity) (outer : string) (l : list field) (name : string) : Z :=
  field_val l (field_bytes identity_fields d outer) name.

(** ** Flags *)
Inductive Capabilities := STANDARD_STANDBY_TIMER | IORDY_SUPPORTED | IORDY_MAYBE_DISABLED | LBA_SUPPORTED | DMA_SUPPORTED.
Definition capabilities_bit (f : Capabilities) : Z :=
  match f with STANDARD_STANDBY_TIMER => bit 13 | IORDY_SUPPORTED => bit 11 | IORDY_MAYBE_DISABLED => bit 10 | LBA_SUPPORTED => bit 9 | DMA_SUPPORTED => bit 8 end.

Inductive AdditonalSupport :=
  | DETERMINISTIC_DATA_IN_TRIMM_LBA | LONG_PHYS_ALIGN_ERR_RORTING | READ_BUFF_DMA | WRITE_BUFF_DMA | DOWNLOAD_MICRO_DMA
  | NO_OPTIONAL_28_BIT_COMMANDS | TRIMMED_LBA_RETURNS_ZEROS | DEVICE_ENCRYPTS_ALL_DATA | EXTENDED_SECTOR_ADDRESSES | NON_VOLATILE_CACHE.
Definition additional_bit (f : AdditonalSupport) : Z :=
  match f with
  | DETERMINISTIC_DATA_IN_TRIMM_LBA => bit 14 | LONG_PHYS_ALIGN_ERR_RORTING => bit 13 | READ_BUFF_DMA => bit 11 | WRITE_BUFF_DMA => bit 10
  | DOWNLOAD_MICRO_DMA => bit 8 | NO_OPTIONAL_28_BIT_COMMANDS => bit 6 | TRIMMED_LBA_RETURNS_ZEROS => bit 5 | DEVICE_ENCRYPTS_ALL_DATA => bit 4
  | EXTENDED_SECTOR_ADDRESSES => bit 3 | NON_VOLATILE_CACHE => bit 2
  end.

Inductive Features82 :=
  | F82_NOP | F82_READ_BUFFER | F82_WRITE_BUFFER | DEVICE_RESET | LOOK_AHEAD | VOLATILE_WRITE_CACHE | PACKET_FEATURES
  | POWER_MANAGEMENT_FEATURES | SECUTITY_FEATURES | F82_SMART.
Definition features82_bit (f : Features82) : Z :=
  match f with
  | F82_NOP => bit 14 | F82_READ_BUFFER => bit 13 | F82_WRITE_BUFFER => bit 12 | DEVICE_RESET => bit 9 | LOOK_AHEAD => bit 6 | VOLATILE_WRITE_CACHE => bit 5
  | PACKET_FEATURES => bit 4 | POWER_MANAGEMENT_FEATURES => bit 3 | SECUTITY_FEATURES => bit 1 | F82_SMART => bit 0
  end.

Inductive Features83 := F83_FLUSH_CACHE_EXT | F83_FLUSH_CACHE | LBA_48 | SET_FEATURES_REQUIRED | PUIS | APM | F83_DOWNLOAD_MICROCODE.
Definition features83_bit (f : Features83) : Z :=
  match f with
  | F83_FLUSH_CACHE_EXT => bit 13 | F83_FLUSH_CACHE => bit 12 | LBA_48 => bit 10 | SET_FEATURES_REQUIRED => bit 6 | PUIS => bit 5 | APM => bit 3
  | F83_DOWNLOAD_MICROCODE => bit 0
  end.

Inductive Features84 :=
  | IDLE_IMMEDIATE_WITH_UNLOAD | WORLD_WIDE_NAME | F84_WRITE_DMA_FUA_EXT | GPL_FEATURES | STREAMING | SMART_SELF_TEST | SMAART_ERR_LOGGING.
Definition features84_bit (f : Features84) : Z :=
  match f with
  | IDLE_IMMEDIATE_WITH_UNLOAD => bit 13 | WORLD_WIDE_NAME => bit 8 | F84_WRITE_DMA_FUA_EXT => bit 6 | GPL_FEATURES => bit 5 | STREAMING => bit 4
  | SMART_SELF_TEST => bit 1 | SMAART_ERR_LOGGING => bit 0
  end.

Inductive Features119 :=
  | DSN | MAX_ADDR_CFG | EPC | SENSE_DATA_REPORTING | FREE_FALL_CTL | DOWNLOAD_MICRO_MODE_3 | LOG_DMA_EXT | WRITE_UNCORRECTABLE | READ_WRITE_VERIFY.
Definition features119_bit (f : Features119) : Z :=
  match f with
  | DSN => bit 9 | MAX_ADDR_CFG => bit 8 | EPC => bit 7 | SENSE_DATA_REPORTING => bit 6 | FREE_FALL_CTL => bit 5 | DOWNLOAD_MICRO_MODE_3 => bit 4
  | LOG_DMA_EXT => bit 3 | WRITE_UNCORRECTABLE => bit 2 | READ_WRITE_VERIFY => bit 1
  end.

Inductive SectorGeom := MULTIPLE_LOGICAL_PER_PHYS | LOGICAL_GREATHER_512_BYTES.
Definition sector_geom_bit (f : SectorGeom) : Z := match f with MULTIPLE_LOGICAL_PER_PHYS => bit 13 | LOGICAL_GREATHER_512_BYTES => bit 12 end.

(** ** Enumerations of the identification data *)
Inductive SpecificCfg := ReqSpinUpInCom | ReqSpinUpCom | NoSpinUpInCom | NoSpinUpCom | CfgReserved (r : Z).
Inductive MultiwordDmaMode := MwMode0 | MwMode1 | MwMode2.
Inductive UltraDmaMode := UdMode0 | UdMode1 | UdMode2 | UdMode3 | UdMode4 | UdMode5 | UdMode6.
Inductive ApmLevel := MinimumStandby | IntermediateStandby (n : Z) | ApmMin | Intermediate (n : Z) | MaxPerformance | ApmReserved (n : Z).
Inductive DeviceFromFactor := NotReported | Size5_25 | Size3_5 | Size2_5 | Size1_8 | SmallerThan1_8 | mSATA | M_2 | MicroSSD | CFast.
Inductive RotationRate := RateNotReported | SolidState | Rpm (n : Z).
Inductive WriteReadVerify := Always | Check64K | VendorSpecific | CheckFromCounter.
Inductive ParallelVersion := ParAta7 | ParAta8.
Inductive SerialVersion := Sata3_2 | Sata3_1 | Sata3_0 | Sata2_6 | Sata2_5 | Sata2 | Sata1 | SerAta8.
Inductive TransportIf := Parallel (v : ParallelVersion) | Serial (v : SerialVersion) | Pcie.
Inductive TransportMinorVersion := MinorNotReported | Ata8_AstT13ProjectD1697V0b | Ata_AstT13ProjectD1697V1.

Record VersionInfo := mkVersion { major_vers : option Z; minor_vers : Z; transport_major : option TransportIf; transport_minor : option TransportMinorVersion }.
Record DeviceGeometry := mkGeometry { sector_count : Z; logical_sec_size : Z; phys_sec_size : Z; alignment : Z }.

(** ** Accessors *)
(** The sum of the first 511 bytes; the mark is compared after its complement. *)
Definition checksum (d : DeviceIdentity) : bool :=
  let validity := nth 0 (field_bytes identity_fields d "checksum") 0 in
  if 255 - validity =? 0xa5 then false
  else foldl (fun sum i => (sum + i) mod 256) 0 (take 511 d) =? 0.

Definition is_ata (d : DeviceIdentity) : bool := Z.land (get d "general_cfg") (bit 15) =? 0.
Definition is_complete (d : DeviceIdentity) : bool := Z.land (get d "general_cfg") (bit 2) =? 0.

Definition get_specific_cfg (d : DeviceIdentity) : SpecificCfg :=
  match get d "specific_cfg" with
  | 0x37c8 => ReqSpinUpInCom
  | 0x738c => ReqSpinUpCom
  | 0x8c73 => NoSpinUpInCom
  | 0xc837 => NoSpinUpCom
  | r => CfgReserved r
  end.

(** [None] stands for the constant [DECODE_FAILED]. *)
Definition get_str (d : DeviceIdentity) (name : string) : option (list Z) :=
  let s := field_bytes identity_fields d name in if utf8_ok s then Some s else None.
Definition get_serial (d : DeviceIdentity) : option (list Z) := get_str d "serial".
Definition firmware_revision (d : DeviceIdentity) : option (list Z) := get_str d "firmware_vers".
Definition model_num (d : DeviceIdentity) : option (list Z) := get_str d "model_num".

Definition free_fall_sensitivity (d : DeviceIdentity) : Z := Z.shiftr (get d "wd_53") 8 mod 2 ^ 8.
Definition word_88_valid (d : DeviceIdentity) : bool := negb (Z.land (get d "wd_53") (bit 2) =? 0).
Definition word_64_70_valid (d : DeviceIdentity) : bool := negb (Z.land (get d "wd_53") (bit 1) =? 0).

Definition get_transfer_cfg (d : DeviceIdentity) : option (list Z) :=
  if word_64_70_valid d then Some (field_bytes identity_fields d "wd_64_70") else None.

Definition contains_data (major : Z) : bool := negb ((major =? 0xffff) || (major =? 0)).

Definition parallel_try_from (value : Z) : result ParallelVersion Z :=
  match Z.land value 0xfff with 0 => Ok ParAta8 | 1 => Ok ParAta7 | e => Err e end.

Definition serial_try_from (value : Z) : result SerialVersion Z :=
  match Z.land value 0xfff with
  | 0 => Ok SerAta8 | 1 => Ok Sata1 | 2 => Ok Sata2 | 3 => Ok Sata2_5 | 4 => Ok Sata2_6 | 5 => Ok Sata3_0 | 6 => Ok Sata3_1 | 7 => Ok Sata3_2
  | e => Err e
  end.

Definition transport_major_version (v : Z) : option TransportIf :=
  match Z.land (Z.shiftr v 12) 0xf with
  | 0 => p ← result_ok (parallel_try_from v); Some (Parallel p)
  | 1 => s ← result_ok (serial_try_from v); Some (Serial s)
  | 0xe => Some Pcie
  | _ => None
  end.

Definition transport_minor_version (v : Z) : option TransportMinorVersion :=
  match v with
  | 0 | 0xffff => Some MinorNotReported
  | 0x21 => Some Ata8_AstT13ProjectD1697V0b
  | 0x51 => Some Ata_AstT13ProjectD1697V1
  | _ => None
  end.

Definition version_info (d : DeviceIdentity) : VersionInfo :=
  mkVersion (if word_88_valid d && contains_data (get d "major_version") then Some (get d "major_version") else None)
    (get d "minor_version") (transport_major_version (get d "transport_major_version")) (transport_minor_version (get d "transport_minor_version")).

Definition get_transport_version (d : DeviceIdentity) : option (TransportIf * option TransportMinorVersion) :=
  t ← transport_major_version (get d "transport_major_version"); Some (t, transport_minor_version (get d "transport_minor_version")).

Definition perf_granularity (d : DeviceIdentity) : Z :=
  Z.lor (Z.shiftl (get_in d "streaming" streaming_fields "perf_granularity_high") 16) (get_in d "streaming" streaming_fields "perf_granularity_low").

Section Supported.
Context `{FO : FlagOps}.

Definition features82_supported (f : Z) (cmd : AtaCommand) : option bool :=
  match cmd with
  | NOP => Some (contains f (features82_bit F82_NOP))
  | READ_BUFFER => Some (contains f (features82_bit F82_READ_BUFFER))
  | WRITE_BUFFER => Some (contains f (features82_bit F82_WRITE_BUFFER))
  | SMART => Some (contains f (features82_bit F82_SMART))
  | _ => None
  end.

Definition features83_supported (f : Z) (cmd : AtaCommand) : option bool :=
  match cmd with
  | FLUSH_CACHE_EXT => Some (contains f (features83_bit F83_FLUSH_CACHE_EXT))
  | FLUSH_CACHE => Some (contains f (features83_bit F83_FLUSH_CACHE))
  | DOWNLOAD_MICROCODE => Some (contains f (features83_bit F83_DOWNLOAD_MICROCODE))
  | _ => None
  end.

Definition features119_supported (f : Z) (cmd : AtaCommand) : option bool :=
  match cmd with
  | READ_LOG_DMA_EXT => Some (contains f (features119_bit LOG_DMA_EXT))
  | WRITE_LOG_DMA_EXT => Some (contains f (features119_bit LOG_DMA_EXT))
  | WRITE_UNCORRECTABLE_EXT => Some (contains f (features119_bit WRITE_UNCORRECTABLE))
  | _ => None
  end.

Definition sanitize_supported (v : Z) (cmd : SanitiseSubcommand) : bool :=
  if Z.land v (bit 12) =? 0 then false
  else match cmd with
       | CRYPTO_SCRAMBLE_EXT => negb (Z.land v (bit 13) =? 0)
       | BLOCK_ERASE_EXT => negb (Z.land v (bit 15) =? 0)
       | OVERWRITE_EXT => negb (Z.land v (bit 14) =? 0)
       | SANITIZE_ANTIFREEZE_LOCK_EXT => negb (Z.land v (bit 10) =? 0)
       | _ => true
       end.

Definition chk_ata_cmd (d : DeviceIdentity) (cmd : AtaCommand) : option bool :=
  match features82_supported (get_in d "features" features_fields "features_82") cmd with
  | Some n => Some n
  | None =>
      match features83_supported (get_in d "features" features_fields "features_83") cmd with
      | Some n => Some n
      | None =>
          match features119_supported (get d "features119") cmd with
          | Some n => Some n
          | None => if decide (cmd = SANITIZE_DEVICE) then Some (sanitize_supported (get d "sanitize_sub_cmd") SANITIZE_STATUS_EXT) else None
          end
      end
  end.

(** The sealed trait [CheckableCommand] has two implementations. *)
Definition is_supported (d : DeviceIdentity) (cmd : AtaCommand + SanitiseSubcommand) : option bool :=
  match cmd with inl c => chk_ata_cmd d c | inr s => Some (sanitize_supported (get d "sanitize_sub_cmd") s) end.

Definition world_wide_name (d : DeviceIdentity) : option Z :=
  if contains (get_in d "features" features_fields "features_84") (features84_bit WORLD_WIDE_NAME) then Some (get d "world_wide_name") else None.

Definition log_sec_per_phys (geom : Z) : Z := Z.shiftl 1 (Z.land geom 0xf) mod 2 ^ 16.

Definition lba_size_read (d : DeviceIdentity) : Z := 
  let b := field_bytes identity_fields d "logical_sector_size" in
  Z.lor (of_le (slice b 0 2)) (Z.shiftl (of_le (slice b 2 2)) 16 mod 2 ^ 32).

Definition get_alignment (v : Z) : Z := Z.land v 0x3fff.

Definition get_device_geometry (d : DeviceIdentity) : DeviceGeometry :=
  let lba :=
    if (match get_transfer_cfg d with
        | Some t => contains (field_val transfer_fields t "additional_supported") (additional_bit EXTENDED_SECTOR_ADDRESSES)
        | None => false
        end)
    then get d "sector_count_ext"
    else if get d "lba_28" =? 0xfffffff then Z.land (get d "logical_sectors") 0xffffffffffff
    else get d "lba_28" in
  let logical :=
    if contains (get d "sector_geom") (sector_geom_bit LOGICAL_GREATHER_512_BYTES) then Z.shiftl (lba_size_read d) 1 mod 2 ^ 32 else 512 in
  let phys :=
    if contains (get d "sector_geom") (sector_geom_bit MULTIPLE_LOGICAL_PER_PHYS)
    then (logical ⊗ log_sec_per_phys (get d "sector_geom"))%u64 else logical in
  mkGeometry lba logical phys (get_alignment (get d "sector_alignment")).

End Supported.

Definition is_acs2 (v : Z) : bool := Z.land v (bit 11) =? 0.
Definition long_sec_err_reporting (v : Z) : Z := Z.land v 3.

Definition max_supported_mode (v : Z) : option MultiwordDmaMode :=
  let t := Z.land v 7 in
  if t =? 0 then None else if 4 <? t then Some MwMode2 else if 2 <? t then Some MwMode1 else Some MwMode0.

Definition is_selected (v : Z) (mode : MultiwordDmaMode) : bool :=
  match mode with
  | MwMode2 => negb (Z.land v (bit 10) =? 0)
  | MwMode1 => negb (Z.land v (bit 9) =? 0)
  | MwMode0 => negb (Z.land v (bit 8) =? 0)
  end.

Definition mode_4_supported (v : Z) : bool := negb (Z.land v (bit 1) =? 0).
Definition mode_3_supported (v : Z) : bool := negb (Z.land v (bit 1) =? 0).

(** [QueueDepth::get_depth]. *)
Definition queue_depth (d : DeviceIdentity) : Z := Z.land (get d "queue_depth") 0x1f + 1.

Definition get_sata_gen (v : Z) : outcome Z := let t := Z.land v 7 in assert_that (t <? 4);; Done t.

Definition ultra_current (selected : Z) : option UltraDmaMode :=
  if selected =? 0 then None
  else match selected with
       | 1 => Some UdMode0 | 2 => Some UdMode1 | 4 => Some UdMode2 | 8 => Some UdMode3 | 16 => Some UdMode4 | 32 => Some UdMode5 | 64 => Some UdMode6
       | _ => None
       end.

Definition ultra_supported (supported : Z) (mode : UltraDmaMode) : bool :=
  negb (Z.land supported (match mode with UdMode0 => 1 | UdMode1 => 2 | UdMode2 => 4 | UdMode3 => 8 | UdMode4 => 16 | UdMode5 => 32 | UdMode6 => 64 end) =? 0).

Definition get_erase_time (v : Z) : Z := if Z.land v (bit 15) =? 0 then Z.land v 0xff else Z.ldiff v (bit 15).

Definition apm_mode (level : Z) : ApmLevel :=
  if level =? 1 then MinimumStandby
  else if (1 <? level) && (level <? 0x80) then IntermediateStandby level
  else if level =? 0x80 then MinimumStandby
  else if (0x80 <? level) && (level <? 0xfe) then Intermediate level
  else if level =? 0xfe then MaxPerformance
  else ApmReserved level.

Definition current_power_level (d : DeviceIdentity) : ApmLevel := apm_mode (nth 0 (field_bytes identity_fields d "apm_level") 0).

Definition form (v : Z) : option DeviceFromFactor :=
  match Z.land v 0xf with
  | 0 => Some NotReported | 1 => Some Size5_25 | 2 => Some Size3_5 | 3 => Some Size2_5 | 4 => Some Size1_8
  | 5 => Some SmallerThan1_8 | 6 => Some MicroSSD | 7 => Some M_2 | 8 => Some MicroSSD | 9 => Some CFast
  | _ => None
  end.

Definition trim_support (v : Z) : bool := negb (Z.land v 1 =? 0).
Definition get_vendor (v : Z) : Z := Z.land (Z.shiftr v 12) 0xf.

Definition get_rate (v : Z) : option RotationRate :=
  if (0x400 <? v) && (v <? 0xffff) then Some (Rpm v)
  else match v with 0 => Some RateNotReported | 1 => Some SolidState | _ => None end.
Definition get_dev_rpm (d : DeviceIdentity) : option RotationRate := get_rate (get d "rpm").

Definition wrv_get_mode (v : Z) : option WriteReadVerify :=
  match v with 0 => Some Always | 1 => Some Check64K | 2 => Some VendorSpecific | 3 => Some CheckFromCounter | _ => None end.

(** ** The data as the words of the ATA standard *)
Definition word (d : DeviceIdentity) (n : nat) : Z := nth (2 * n) d 0 + 256 * nth (2 * n + 1) d 0.

(** [k] words as one number, the lowest first. *)
Fixpoint words (d : DeviceIdentity) (n k : nat) : Z :=
  match k with O => 0 | S k => word d n + 65536 * words d (S n) k end.

(** The word at which the standard has each field. *)
Definition at_word (name : string) (n : nat) : string * nat := (name, n).

Definition standard_words : list (string * nat) :=
  [at_word "general_cfg" 0; at_word "specific_cfg" 2; at_word "serial" 10; at_word "firmware_vers" 23; at_word "model_num" 27; at_word "trusted_computing" 48;
   at_word "capabilities" 49; at_word "cap_50" 50; at_word "wd_53" 53; at_word "sanitize_sub_cmd" 59; at_word "lba_28" 60; at_word "multiword_dma" 63; at_word "wd_64_70" 64;
   at_word "queue_depth" 75; at_word "sata_cap" 76; at_word "sata_cap2" 77; at_word "sata_features" 78; at_word "sata_features_en" 79; at_word "major_version" 80;
   at_word "minor_version" 81; at_word "features" 82; at_word "features_copy" 85; at_word "ultra_dma" 88; at_word "erase_time" 89; at_word "enhanced_erase_time" 90;
   at_word "apm_level" 91; at_word "master_passwd_id" 92; at_word "streaming" 95; at_word "logical_sectors" 100; at_word "sector_geom" 106; at_word "world_wide_name" 108;
   at_word "logical_sector_size" 117; at_word "features119" 119; at_word "features119_copy" 120; at_word "security_status" 128; at_word "form_factor" 168;
   at_word "data_management" 169; at_word "additional_product_id" 170; at_word "current_media_serial" 176; at_word "sct_command_trans" 206;
   at_word "sector_alignment" 209; at_word "wrv_mode_3_count" 210; at_word "wrv_mode_2_count" 212; at_word "rpm" 217; at_word "wrv_mode" 220;
   at_word "transport_major_version" 222; at_word "transport_minor_version" 223; at_word "sector_count_ext" 230; at_word "micro_blocks_min" 234; at_word "checksum" 255].

(** [repr(C)] puts every field where the standard has it, without padding, and the structure is 512 bytes
    as the compile-time assertion says. *)
Lemma identity_layout :
  struct_size identity_fields = 512%nat /\ struct_size transfer_fields = 14%nat /\
  Forall (fun e => fst <$> offset_of identity_fields (fst e) = Some (2 * snd e)%nat) standard_words /\
  foldr (fun f n => f_size f + n)%nat 0%nat identity_fields = 512%nat.
Proof. split_and!; try reflexivity. unfold standard_words. repeat (constructor; [reflexivity|]). constructor. Qed.

Lemma ata_code_roundtrip c : ata_try_from (ata_code c) = Ok c.
Proof. by destruct c. Qed.

Lemma ata_try_from_code v c : ata_try_from v = Ok c -> v = ata_code c.
Proof.
  unfold ata_try_from. destruct (List.find _ ata_commands) as [c'|] eqn:E; [|done]. intros [= ->]. apply List.find_some in E as [_ E]. symmetry. by apply Z.eqb_eq.
Qed.

Lemma slice_word d n : (2 * n + 2 <= length d)%nat -> slice d (2 * n) 2 = [nth (2 * n) d 0; nth (2 * n + 1) d 0].
Proof.
  intros Hl. unfold slice. assert (exists a b r, drop (2 * n) d = a :: b :: r) as (a & b & r & Hd).
  { destruct (drop (2 * n) d) as [|a [|b r]] eqn:E; [| |by eauto]; apply (f_equal length) in E; rewrite length_drop in E; cbn in E; lia. }
  rewrite Hd. cbn [take]. rewrite <- (take_drop (2 * n) d), Hd.
  assert (length (take (2 * n) d) = (2 * n)%nat) as Ht by (rewrite length_take; lia).
  rewrite !List.app_nth2 by lia. rewrite Ht, Nat.sub_diag. replace (2 * n + 1 - 2 * n)%nat with 1%nat by lia. done.
Qed.

Lemma slice_words d n k : (2 * n + 2 * k <= length d)%nat -> of_le (slice d (2 * n) (2 * k)) = words d n k.
Proof.
  revert n. induction k as [|k IH]; intros n Hl; [done|]. cbn [words]. rewrite <- IH by lia.
  assert (slice d (2 * n) (2 * S k) = slice d (2 * n) 2 ++ slice d (2 * S n) (2 * k)) as ->.
  { unfold slice. replace (2 * S k)%nat with (2 + 2 * k)%nat by lia. replace (2 * S n)%nat with (2 * n + 2)%nat by lia.
    rewrite <- drop_drop. generalize (drop (2 * n) d). intros [|x [|y l]]; cbn [Nat.add take drop app]; by rewrite ?take_nil. }
  rewrite slice_word by lia. cbn [app of_le]. unfold word. lia.
Qed.

Lemma words_one d n : words d n 1 = word d n.
Proof. cbn [words]. lia. Qed.

(** A field is the words at its place. *)
Lemma get_words d name n k : length d = 512%nat -> offset_of identity_fields name = Some (2 * n, 2 * k)%nat -> (2 * n + 2 * k <= 512)%nat ->
  get d name = words d n k.
Proof. intros Hd Ho Hn. unfold get, field_val, field_bytes. rewrite Ho. apply slice_words. lia. Qed.

Lemma words_bound d n k : Forall is_byte d -> 0 <= words d n k < 65536 ^ Z.of_nat k.
Proof.
  intros Hd. assert (forall i, is_byte (nth i d 0)) as Hb.
  { intros i. destruct (decide (i < length d)%nat); [|rewrite List.nth_overflow by lia; unfold is_byte; lia].
    rewrite List.Forall_forall in Hd. by apply Hd, List.nth_In. }
  revert n. induction k as [|k IH]; intros n; cbn [words]; [cbn; lia|]. rewrite Nat2Z.inj_succ, Z.pow_succ_r by lia.
  pose proof (IH (S n)). pose proof (Hb (2 * n)%nat). pose proof (Hb (2 * n + 1)%nat). unfold word, is_byte in *. lia.
Qed.

Section Geometry.
Context `{FO : FlagOps} {FL : FlagLaws}.

Lemma additional_word d : length d = 512%nat ->
  field_val transfer_fields (field_bytes identity_fields d "wd_64_70") "additional_supported" = word d 69.
Proof.
  intros Hd. unfold field_val, field_bytes. change (offset_of identity_fields "wd_64_70") with (Some (128, 14)%nat).
  change (offset_of transfer_fields "additional_supported") with (Some (10, 2)%nat). cbv iota.
  assert (slice (slice d 128 14) 10 2 = slice d (2 * 69) (2 * 1)) as ->.
  { unfold slice. rewrite skipn_firstn_comm, drop_drop, take_take. done. }
  rewrite slice_words by lia. apply words_one.
Qed.

Lemma lba_size_words d : Forall is_byte d -> length d = 512%nat -> lba_size_read d = words d 117 2.
Proof.
  intros Hb Hd. unfold lba_size_read, field_bytes. change (offset_of identity_fields "logical_sector_size") with (Some (234, 4)%nat). cbv iota.
  assert (slice (slice d 234 4) 0 2 = slice d (2 * 117) (2 * 1)) as -> by (unfold slice; by rewrite drop_0, take_take).
  assert (slice (slice d 234 4) 2 2 = slice d (2 * 118) (2 * 1)) as -> by (unfold slice; by rewrite skipn_firstn_comm, drop_drop, take_take).
  rewrite !slice_words, !words_one by lia. cbn [words].
  pose proof (words_bound d 117 1 Hb) as B1. pose proof (words_bound d 118 1 Hb) as B2. rewrite words_one in B1, B2. change (65536 ^ Z.of_nat 1) with (2 ^ 16) in *.
  rewrite Z.shiftl_mul_pow2 by lia. rewrite Z.mod_small by lia. rewrite <- Z.add_nocarry_lor; [lia|].
  apply Z.bits_inj'. intros i Hi. rewrite Z.land_spec, Z.bits_0, Z.mul_pow2_bits by lia. destruct (Z.ltb_spec i 16).
  - rewrite (Z.testbit_neg_r _ (i - 16)) by lia. apply andb_false_r.
  - rewrite <- (Z.mod_small (word d 117) (2 ^ 16)) by lia. by rewrite Z.mod_pow2_bits_high by lia.
Qed.

(** The geometry that the driver takes from the identification data is the one that the words of the ATA standard
    give: the number of sectors from words 230 to 233, 100 to 103 or 60 and 61 as words 53 and 69
    select, the sector sizes from words 106, 117 and 118, and the alignment from word 209.  The physical
    sector is a multiple of the logical one. *)
Theorem device_geometry_words d : Forall is_byte d -> length d = 512%nat ->
  let g := get_device_geometry d in
  sector_count g = (if Z.testbit (word d 53) 1 && Z.testbit (word d 69) 3 then words d 230 4
                    else if words d 60 2 =? 0xfffffff then words d 100 4 mod 2 ^ 48 else words d 60 2) /\
  logical_sec_size g = (if Z.testbit (word d 106) 12 then 2 * words d 117 2 mod 2 ^ 32 else 512) /\
  phys_sec_size g = (if Z.testbit (word d 106) 13 then logical_sec_size g * 2 ^ (word d 106 mod 16) else logical_sec_size g) /\
  alignment g = word d 209 mod 2 ^ 14 /\ (logical_sec_size g | phys_sec_size g).
Proof using FL.
  intros Hb Hd g.
  assert (get d "wd_53" = word d 53) as E53 by (rewrite <- words_one; apply get_words; [done|reflexivity|lia]).
  assert (get d "sector_geom" = word d 106) as E106 by (rewrite <- words_one; apply get_words; [done|reflexivity|lia]).
  assert (get d "sector_alignment" = word d 209) as E209 by (rewrite <- words_one; apply get_words; [done|reflexivity|lia]).
  assert (0 <= (if Z.testbit (word d 106) 12 then 2 * words d 117 2 mod 2 ^ 32 else 512) < 2 ^ 32) as Hlog by (destruct (Z.testbit _ 12); [apply Z.mod_pos_bound; lia|lia]).
  assert (sector_count g = (if Z.testbit (word d 53) 1 && Z.testbit (word d 69) 3 then words d 230 4
                    else if words d 60 2 =? 0xfffffff then words d 100 4 mod 2 ^ 48 else words d 60 2)) as H1.
  { unfold g, get_device_geometry, get_transfer_cfg, word_64_70_valid. cbn [sector_count]. rewrite E53, land_bit_zero, negb_involutive by lia.
    rewrite (get_words d "sector_count_ext" 230 4), (get_words d "lba_28" 60 2), (get_words d "logical_sectors" 100 4) by (done || reflexivity || lia).
    change 0xffffffffffff with (2 ^ 48 - 1). rewrite land_mask by lia. destruct (Z.testbit (word d 53) 1); cbn [andb]; [|done].
    rewrite additional_word by done. cbn [additional_bit]. by rewrite flags_contain_bit by lia. }
  assert (logical_sec_size g = (if Z.testbit (word d 106) 12 then 2 * words d 117 2 mod 2 ^ 32 else 512)) as H2.
  { unfold g, get_device_geometry. cbn [logical_sec_size sector_geom_bit]. rewrite E106, flags_contain_bit by lia. rewrite lba_size_words by done.
    rewrite Z.shiftl_mul_pow2 by lia. change (2 ^ 1) with 2. by rewrite Z.mul_comm. }
  assert (phys_sec_size g = (if Z.testbit (word d 106) 13 then logical_sec_size g * 2 ^ (word d 106 mod 16) else logical_sec_size g)) as H3.
  { unfold g, get_device_geometry in *. cbn [phys_sec_size logical_sec_size sector_geom_bit] in *. rewrite H2. rewrite E106, flags_contain_bit by lia.
    destruct (Z.testbit (word d 106) 13); [|done]. unfold log_sec_per_phys. change 0xf with (2 ^ 4 - 1). rewrite land_mask by lia. change (2 ^ 4) with 16.
    pose proof (Z.mod_pos_bound (word d 106) 16 ltac:(lia)) as Hm. rewrite Z.shiftl_1_l.
    assert (2 ^ (word d 106 mod 16) <= 2 ^ 15) as Hp by (apply Z.pow_le_mono_r; lia).
    assert (0 < 2 ^ (word d 106 mod 16)) as Hp0 by (apply Z.pow_pos_nonneg; lia).
    rewrite (Z.mod_small (2 ^ _)) by lia. unfold wmul, wrap64. apply Z.mod_small. nia. }
  split; [done|]. split; [done|]. split; [done|]. split.
  - unfold g, get_device_geometry, get_alignment. cbn [alignment]. rewrite E209. change 0x3fff with (2 ^ 14 - 1). by rewrite land_mask by lia.
  - rewrite H3. destruct (Z.testbit (word d 106) 13); [apply Z.divide_factor_l|done].
Qed.

End Geometry.

(** [sum] of bytes modulo 256. *)
Lemma foldl_sum l a : foldl (fun sum i => (sum + i) mod 256) (a mod 256) l = foldl Z.add a l mod 256.
Proof. revert a. induction l as [|b l IH]; intros a; cbn [foldl]; [done|]. rewrite Z.add_mod_idemp_l by lia. apply IH. Qed.

(** A good sector, whose mark is 0xa5 and whose 512 bytes sum up to 0, passes the check only when its
    checksum byte is 0: the byte itself is not summed. *)
Theorem checksum_misses_last d c : length d = 511%nat -> is_byte c -> nth 510 d 0 = 0xa5 -> foldl Z.add 0 (d ++ [c]) mod 256 = 0 ->
  checksum (d ++ [c]) = bool_decide (c = 0).
Proof.
  intros Hl Hc Hm Hs. unfold checksum, field_bytes. change (offset_of identity_fields "checksum") with (Some (2 * 255, 2)%nat). cbv iota.
  rewrite slice_word by (rewrite length_app; cbn; lia). cbn [nth]. rewrite List.app_nth1 by lia. change (2 * 255)%nat with 510%nat. rewrite Hm.
  change (255 - 0xa5 =? 0xa5) with false. cbv iota. replace 511%nat with (length d) by done. rewrite take_app_length.
  change 0 with (0 mod 256) at 1. rewrite foldl_sum. rewrite foldl_app in Hs. cbn [foldl] in Hs. unfold is_byte in Hc.
  pose proof (Z.mod_pos_bound (foldl Z.add 0 d) 256 ltac:(lia)) as Hb. rewrite <- Z.add_mod_idemp_l in Hs by lia. set (x := foldl Z.add 0 d mod 256) in *.
  destruct (decide (c = 0)) as [->|Hne].
  - rewrite bool_decide_eq_true_2 by done. rewrite Z.add_0_r, Z.mod_small in Hs by lia. by rewrite Hs.
  - rewrite bool_decide_eq_false_2 by done. apply Z.eqb_neq. intros ->. rewrite Z.add_0_l, Z.mod_small in Hs by lia. lia.
Qed.

(** A mark other than 0xa5 is not noticed, unless it is the complement. *)
Lemma checksum_mark d c : length d = 511%nat -> nth 510 d 0 <> 0x5a -> checksum (d ++ [c]) = (foldl Z.add 0 d mod 256 =? 0).
Proof.
  intros Hl Hm. unfold checksum, field_bytes. change (offset_of identity_fields "checksum") with (Some (2 * 255, 2)%nat). cbv iota.
  rewrite slice_word by (rewrite length_app; cbn; lia). cbn [nth]. rewrite List.app_nth1 by lia. change (2 * 255)%nat with 510%nat.
  rewrite (proj2 (Z.eqb_neq _ _)) by lia. replace 511%nat with (length d) by done. rewrite take_app_length. change 0 with (0 mod 256) at 1. by rewrite foldl_sum.
Qed.

(** Mode 2 alone is taken for mode 1, and mode 1 alone for mode 0. *)
Lemma multiword_modes : max_supported_mode 4 = Some MwMode1 /\ max_supported_mode 2 = Some MwMode0 /\ max_supported_mode 7 = Some MwMode2.
Proof. done. Qed.

End Identification.

(** ** A disk with sectors of 512 bytes in physical sectors of 4096 bytes *)
Module AtaWitness.
Import Ata Identification FlagWitness.

Definition disk : list Z :=
  foldl (fun d '(w, v) => <[(2 * w)%nat := v mod 256]> (<[(2 * w + 1)%nat := v / 256]> d)) (replicate 512 0)
    [(53%nat, 6); (60%nat, 0xffff); (61%nat, 0xfff); (100%nat, 0x6db0); (101%nat, 0x7470); (83%nat, 0x7400); (106%nat, 0x6003); (209%nat, 0x4000)].

Lemma device_geometry_words_witness :
  length disk = 512%nat /\ sector_count (get_device_geometry disk) = 0x74706db0 /\ logical_sec_size (get_device_geometry disk) = 512 /\
  phys_sec_size (get_device_geometry disk) = 4096 /\ alignment (get_device_geometry disk) = 0.
Proof.
  assert (Forall is_byte disk) as Hb.
  { unfold disk. vm_compute. repeat (constructor; [by split|]). constructor. }
  split; [reflexivity|]. destruct (device_geometry_words disk Hb eq_refl) as (H1 & H2 & H3 & H4 & _).
  rewrite H3, H2, H1, H4. vm_compute. repeat split.
Defined.

End AtaWitness.
