(* ===== verification/AhciRegs.v ===== *)
(** * The registers and structures of an AHCI controller

    [drivers/ahci/src/register.rs] and [drivers/ahci/src/hba]: the general registers ([general_control.rs]), the
    registers of a port ([port_control.rs]), command headers, command tables and physical
    region descriptors ([command.rs]) and the frames that are sent to a device
    ([frame_information_structure.rs]).

    A register is its value as an unsigned number.  What the hardware does with a write is what the
    comments of the source say of the register: writing to PxCI and PxSACT sets bits, writing to PxIS and
    IS clears them, and the bits of PxIS that mirror another register do not change. *)
From Stdlib Require Import String.
From stdpp Require Import prelude list.
From S2P Require Import Prelude Bytes Ata.
Open Scope Z_scope.
Import Ata.

(** [1 << n] on a [u32]. *)
Definition bit32 (n : Z) : Z := bit (n mod 32).

(** [HbaAddr::set]. *)
Definition hba_addr_set (align addr : Z) : outcome Z := assert_that (Z.land addr (align - 1) =? 0);; Done addr.

(** ** Port registers *)
Inductive InterruptStatus :=
  | COLD_PORT_DETECT | TASK_FILE_ERROR | HOST_BUS_FATAL | HOST_BUS_DATA_ERR | INTERFACE_FATAL | INTERFACE_NON_FATAL | OVERFLOW
  | BAD_PORT_MULTIPLIER_STATUS | PHY_RDY_CHANGE | DEVICE_MECHANICAL_PRESENCE | PORT_CONNECT_CHANGE | DESCRIPTOR_PROCESSED | UNKNOWN_FIS_INT
  | SET_DEV_BITS | DMA_SETUP_FIS | PIO_SETUP_FIS | DEV_TO_HOST_FIS.
Definition int_bit (f : InterruptStatus) : Z :=
  match f with
  | COLD_PORT_DETECT => bit 31 | TASK_FILE_ERROR => bit 30 | HOST_BUS_FATAL => bit 29 | HOST_BUS_DATA_ERR => bit 28 | INTERFACE_FATAL => bit 27
  | INTERFACE_NON_FATAL => bit 26 | OVERFLOW => bit 24 | BAD_PORT_MULTIPLIER_STATUS => bit 23 | PHY_RDY_CHANGE => bit 22
  | DEVICE_MECHANICAL_PRESENCE => bit 7 | PORT_CONNECT_CHANGE => bit 6 | DESCRIPTOR_PROCESSED => bit 5 | UNKNOWN_FIS_INT => bit 4
  | SET_DEV_BITS => bit 3 | DMA_SETUP_FIS => bit 2 | PIO_SETUP_FIS => bit 1 | DEV_TO_HOST_FIS => bit 0
  end.
Definition ints (l : list InterruptStatus) : Z := any_of (int_bit <$> l).
Definition all_ints : Z :=
  ints [COLD_PORT_DETECT; TASK_FILE_ERROR; HOST_BUS_FATAL; HOST_BUS_DATA_ERR; INTERFACE_FATAL; INTERFACE_NON_FATAL; OVERFLOW;
        BAD_PORT_MULTIPLIER_STATUS; PHY_RDY_CHANGE; DEVICE_MECHANICAL_PRESENCE; PORT_CONNECT_CHANGE; DESCRIPTOR_PROCESSED; UNKNOWN_FIS_INT;
        SET_DEV_BITS; DMA_SETUP_FIS; PIO_SETUP_FIS; DEV_TO_HOST_FIS].
(** The flags marked (RO). *)
Definition read_only_ints : Z := ints [PHY_RDY_CHANGE; PORT_CONNECT_CHANGE; UNKNOWN_FIS_INT].

Inductive CommStatus :=
  | AGGRESSIVE_LOW_POWER | AGGRESSIVE_LINK_POWER_MAN_ENABLE | DRIVE_LED_ON_ATAPI | DEVICE_IS_ATAPI | AUTO_PARTIAL_TO_SLUMBER
  | FIS_BASED_SWITCHING_CAPABLE | ESATA_PORT | COLD_PRESENCE_DETECTION | MECHAINICAL_PRESENCE_SWITCH_ATTACHED | HOT_PLUG_CAPABLE
  | PORT_MULTIPLIER_ATTACHED | COLD_PRESENCE_STATE | COMMAND_LIST_RUNNING | FIS_RECIEVE_RUNNING | MECHANICAL_PRESENCE_SWITCH_STATE
  | FIS_RECIEVE_ENABLE | COMMAND_LIST_OVERRIDE | POWER_ON_DEVICE | SPIN_UP_DEVICE | START.
Definition comm_bit (f : CommStatus) : Z :=
  match f with
  | AGGRESSIVE_LOW_POWER => bit 27 | AGGRESSIVE_LINK_POWER_MAN_ENABLE => bit 26 | DRIVE_LED_ON_ATAPI => bit 25 | DEVICE_IS_ATAPI => bit 24
  | AUTO_PARTIAL_TO_SLUMBER => bit 23 | FIS_BASED_SWITCHING_CAPABLE => bit 22 | ESATA_PORT => bit 21 | COLD_PRESENCE_DETECTION => bit 20
  | MECHAINICAL_PRESENCE_SWITCH_ATTACHED => bit 19 | HOT_PLUG_CAPABLE => bit 18 | PORT_MULTIPLIER_ATTACHED => bit 17 | COLD_PRESENCE_STATE => bit 16
  | COMMAND_LIST_RUNNING => bit 15 | FIS_RECIEVE_RUNNING => bit 14 | MECHANICAL_PRESENCE_SWITCH_STATE => bit 13 | FIS_RECIEVE_ENABLE => bit 4
  | COMMAND_LIST_OVERRIDE => bit 3 | POWER_ON_DEVICE => bit 2 | SPIN_UP_DEVICE => bit 1 | START => bit 0
  end.

Inductive PortState := NotImplemented | NoPort | Cold | Warm | Hot.
#[export] Instance PortState_dec : EqDecision PortState.
Proof. solve_decision. Defined.
(** The derived order of [PortState]. *)
Definition state_rank (s : PortState) : Z := match s with NotImplemented => 0 | NoPort => 1 | Cold => 2 | Warm => 3 | Hot => 4 end.

Inductive PowerState := Idle | Active | Partial | Slumber | DevSleep.
#[export] Instance PowerState_dec : EqDecision PowerState.
Proof. solve_decision. Defined.
(** The discriminants: [Partial] follows [Active] and is 2. *)
Definition power_disc (p : PowerState) : Z := match p with Idle => 0 | Active => 1 | Partial => 2 | Slumber => 6 | DevSleep => 8 end.

Definition power_into (p : PowerState) : Z := Z.shiftl (power_disc p) 28.

Definition power_of_u8 (value : Z) : outcome PowerState :=
  match value with 0 => Done Idle | 1 => Done Active | 3 => Done Partial | 6 => Done Slumber | 8 => Done DevSleep | _ => Panic end.
Definition power_of_u32 (value : Z) : outcome PowerState := power_of_u8 (Z.land (Z.shiftr value 28) 0xf).

Definition set_power_state (w : Z) (command : PowerState) : Z := Z.lor (Z.ldiff w (Z.shiftl 0xf 28)) (power_into command).
Definition get_power_state (w : Z) : outcome PowerState := power_of_u32 w.
Definition get_current_command (w : Z) : Z := Z.land (Z.shiftr w 8 mod 256) 0xf.

Inductive DeviceDetection := NoDevice | NoComm | InComm | Offline.
#[export] Instance DeviceDetection_dec : EqDecision DeviceDetection.
Proof. solve_decision. Defined.
Definition detection_of (value : Z) : outcome DeviceDetection :=
  match Z.land value 7 with 0 => Done NoDevice | 1 => Done NoComm | 3 => Done InComm | 4 => Done Offline | _ => Panic end.

Definition power_management (w : Z) : outcome PowerState := power_of_u8 (Z.land (Z.shiftr w 8 mod 256) 0xf).
Definition dev_detect (w : Z) : outcome DeviceDetection := detection_of w.

Inductive SataGeneration := Gen1 | Gen2 | Gen3.
Definition gen_disc (g : SataGeneration) : Z := match g with Gen1 => 1 | Gen2 => 2 | Gen3 => 3 end.
Definition interface_speed (w : Z) : outcome (option SataGeneration) :=
  match Z.land (Z.shiftr w 4) 0xf with 0 => Done None | 1 => Done (Some Gen1) | 2 => Done (Some Gen2) | 3 => Done (Some Gen3) | _ => Panic end.

Inductive DeviceDetectionInit := NoAction | ResetInterface | DisableInterface.
Definition detect_init_of (value : Z) : outcome DeviceDetectionInit :=
  match Z.land value 0xf with 0 => Done NoAction | 1 => Done ResetInterface | 4 => Done DisableInterface | _ => Panic end.
Definition detect_init_disc (a : DeviceDetectionInit) : Z := match a with NoAction => 0 | ResetInterface => 1 | DisableInterface => 4 end.

(** [SataControl]. *)
Definition all_power_modes : Z := any_of [bit 8; bit 9; bit 10; bit 11].
Definition set_power_man_trans_allow (w mode : Z) : Z := Z.lor (Z.ldiff w all_power_modes) mode.
Definition get_allowed_limit (w : Z) : outcome (option SataGeneration) :=
  match Z.land (Z.shiftr w 4) 0xf with 0 => Done None | 1 => Done (Some Gen1) | 2 => Done (Some Gen2) | 3 => Done (Some Gen3) | _ => Panic end.
Definition set_speed_limit (w : Z) (limit : option SataGeneration) : Z := Z.lor (Z.ldiff w 0xf0) (match limit with Some g => gen_disc g | None => 0 end).
Definition set_dev_detect_init (w : Z) (action : DeviceDetectionInit) : Z := Z.lor (Z.ldiff w 0xf) (detect_init_disc action).

(** [SataNotification]: the bit is or-ed in and not masked. *)
Definition notification_get_bit (notification b : Z) : outcome bool :=
  assert_that (b <? 32);; Done (negb (Z.lor notification (bit (b mod 16)) =? 0)).

(** [FisSwitchingCtl]. *)
Definition get_dev_err (w : Z) : Z := Z.ldiff (Z.shiftr w 16) 0xf mod 256.
Definition get_dev_optimization (w : Z) : Z := Z.land (Z.shiftr w 12) 7.
Definition set_dev_to_issue (w id : Z) : outcome Z := assert_that (id <? 16);; Done (Z.lor (Z.ldiff w (Z.shiftl 0xf 8)) (Z.shiftl id 8)).
Definition get_dev_to_issue (w : Z) : Z := Z.land (Z.shiftr w 8) 0xf.

(** [DevSleep]. *)
Definition get_dito_mul (w : Z) : Z := Z.land (Z.shiftr w 25) 0xf + 1.
Definition get_dev_idle_timeout_raw (w : Z) : Z := Z.land (Z.shiftr w 15) 0x3f.
Definition set_dev_idle_timeout_raw (w timeout : Z) : outcome Z := assert_that (timeout <? 1023);; Done (Z.lor (Z.ldiff w (Z.shiftl 0x3ff 15)) (Z.shiftl timeout 15)).
Definition get_idle_timeout_adjusted (w : Z) : Z := get_dev_idle_timeout_raw w * get_dito_mul w.
Definition get_min_assertion_time (w : Z) : Z := Z.land (Z.shiftr w 10) 0x1f.
Definition set_min_assertion_time (w duration : Z) : outcome Z := assert_that (duration <? 32);; Done (Z.lor (Z.ldiff w (Z.shiftl 0x1f 10)) (Z.shiftl duration 10)).
Definition get_dev_exit_timeout (w : Z) : Z := Z.shiftr w 2 mod 256.
Definition set_device_exit_timeout (w duration : Z) : Z := Z.lor (Z.land w (Z.shiftl 0xff 2)) (Z.shiftl duration 2).
Definition set_enable (w : Z) (state : bool) : Z := if state then Z.lor w 1 else Z.ldiff w 1.
Definition is_enabled (w : Z) : bool := negb (Z.land w 1 =? 0).

Record TaskFileData := mkTfd { tfd_status : Z; tfd_err : Z }.

Record PortControl := mkRegs {
  command_list_base : Z; fis_base_address : Z; interrupt_status : Z; interrupt_enable : Z; cmd_status : Z; task_file_data : TaskFileData;
  signature : Z; sata_status : Z; sata_ctl : Z; sata_err : Z; sata_active : Z; command_issue : Z; sata_notification : Z;
  fis_based_switching_proto : Z; dev_sleep : Z }.

Definition with_clb (v : Z) (r : PortControl) : PortControl :=
  mkRegs v (fis_base_address r) (interrupt_status r) (interrupt_enable r) (cmd_status r) (task_file_data r) (signature r) (sata_status r) (sata_ctl r)
    (sata_err r) (sata_active r) (command_issue r) (sata_notification r) (fis_based_switching_proto r) (dev_sleep r).
Definition with_is (v : Z) (r : PortControl) : PortControl :=
  mkRegs (command_list_base r) (fis_base_address r) v (interrupt_enable r) (cmd_status r) (task_file_data r) (signature r) (sata_status r) (sata_ctl r)
    (sata_err r) (sata_active r) (command_issue r) (sata_notification r) (fis_based_switching_proto r) (dev_sleep r).
Definition with_ie (v : Z) (r : PortControl) : PortControl :=
  mkRegs (command_list_base r) (fis_base_address r) (interrupt_status r) v (cmd_status r) (task_file_data r) (signature r) (sata_status r) (sata_ctl r)
    (sata_err r) (sata_active r) (command_issue r) (sata_notification r) (fis_based_switching_proto r) (dev_sleep r).
Definition with_cmd (v : Z) (r : PortControl) : PortControl :=
  mkRegs (command_list_base r) (fis_base_address r) (interrupt_status r) (interrupt_enable r) v (task_file_data r) (signature r) (sata_status r) (sata_ctl r)
    (sata_err r) (sata_active r) (command_issue r) (sata_notification r) (fis_based_switching_proto r) (dev_sleep r).
Definition with_sact (v : Z) (r : PortControl) : PortControl :=
  mkRegs (command_list_base r) (fis_base_address r) (interrupt_status r) (interrupt_enable r) (cmd_status r) (task_file_data r) (signature r) (sata_status r)
    (sata_ctl r) (sata_err r) v (command_issue r) (sata_notification r) (fis_based_switching_proto r) (dev_sleep r).
Definition with_ci (v : Z) (r : PortControl) : PortControl :=
  mkRegs (command_list_base r) (fis_base_address r) (interrupt_status r) (interrupt_enable r) (cmd_status r) (task_file_data r) (signature r) (sata_status r)
    (sata_ctl r) (sata_err r) (sata_active r) v (sata_notification r) (fis_based_switching_proto r) (dev_sleep r).

(** [CmdIssue::issue] on the value of the register. *)
Definition issue (w cmd : Z) : outcome Z := assert_that (Z.land w (bit32 cmd) =? 0);; Done (Z.lor w (bit32 cmd)).

Definition port_exec_cmd (r : PortControl) (cmd : Z) : outcome PortControl := ci ← issue (command_issue r) cmd; Done (with_ci ci r).

Definition port_exec_nqc (r : PortControl) (cmd : Z) : outcome PortControl :=
  sa ← issue (sata_active r) cmd; port_exec_cmd (with_sact sa r) cmd.

Definition get_ci (r : PortControl) : Z := command_issue r.
Definition cmd_state (r : PortControl) : Z := command_issue r.
Definition set_ci (r : PortControl) (cmds : Z) : PortControl := with_ci (Z.lor (command_issue r) cmds) r.

(** [tfd_wait] spins until this holds. *)
Definition tfd_idle (r : PortControl) : bool := Z.land (tfd_status (task_file_data r)) 0x88 =? 0.

Section PortOps.
Context `{FO : FlagOps}.

Definition get_port_state (r : PortControl) : outcome PortState :=
  if contains (cmd_status r) (comm_bit COLD_PRESENCE_STATE) then Done Cold
  else d ← dev_detect (sata_status r);
       if decide (d = InComm) then
         p ← power_management (sata_status r); Done (if decide (p = Active) then Hot else Warm)
       else Done NoPort.

(** [interrupt_status.clear]. *)
Definition clear_is (r : PortControl) (int : Z) : PortControl :=
  with_is (Z.ldiff (interrupt_status r) (Z.ldiff (flag_truncate all_ints int) read_only_ints)) r.

(** [interrupt_enable.write]: [clear_reserved] drops its result. *)
Definition write_ie (r : PortControl) (ie : Z) : PortControl := with_ie ie r.

(** [set_cmd_table], with the translation of the address of the list. *)
Definition set_cmd_table (r : PortControl) (translated : option Z) : outcome PortControl :=
  a ← unwrap translated; b ← hba_addr_set 1028 a; Done (with_clb b r).

Definition port_start (r : PortControl) (state : bool) : PortControl := with_cmd (flag_set (cmd_status r) (comm_bit START) state) r.

End PortOps.

(** ** General registers *)
Inductive HbaCapabilities :=
  | QWORD_BIT_ADDRESSING | NATIVE_COMMAND_QUEUEING | SNOTIFICATION | PRESENCE_SWITCH | STAGGERED_SPIN_UP | AGGRESSIVE_LINK_POWER_MANGEMENT
  | ACTIVITY_LED | CAP_COMMAND_LIST_OVERRIDE | AHCI_MODE_ONLY | PORT_MULTIPLIER | FIS_BASED_SWITCHING | PIO_MULTIPLE_DRQ_BLOCK | SLUMBER_STATE
  | PARTIAL_STATE | COMMAND_COMPLETION_COALESCING | ENCLOSURE_MANAGEMENT | E_SATA.
Definition cap_bit (f : HbaCapabilities) : Z :=
  match f with
  | QWORD_BIT_ADDRESSING => bit 31 | NATIVE_COMMAND_QUEUEING => bit 30 | SNOTIFICATION => bit 29 | PRESENCE_SWITCH => bit 28 | STAGGERED_SPIN_UP => bit 27
  | AGGRESSIVE_LINK_POWER_MANGEMENT => bit 26 | ACTIVITY_LED => bit 25 | CAP_COMMAND_LIST_OVERRIDE => bit 24 | AHCI_MODE_ONLY => bit 18
  | PORT_MULTIPLIER => bit 17 | FIS_BASED_SWITCHING => bit 16 | PIO_MULTIPLE_DRQ_BLOCK => bit 15 | SLUMBER_STATE => bit 14 | PARTIAL_STATE => bit 13
  | COMMAND_COMPLETION_COALESCING => bit 7 | ENCLOSURE_MANAGEMENT => bit 6 | E_SATA => bit 5
  end.

Definition BIOS_HANDOFF : Z := bit 0.

(** [GlobalHbaCtl]: the constants are numbers shifted by one, not bits. *)
Inductive GlobalHbaCtl := AHCI_ENABLE | MSI_SINGLE_MESSAGE | INTERRUPT_ENABLE | HBA_RESET.
Definition hba_ctl_bit (f : GlobalHbaCtl) : Z :=
  match f with AHCI_ENABLE => Z.shiftl 31 1 | MSI_SINGLE_MESSAGE => Z.shiftl 2 1 | INTERRUPT_ENABLE => Z.shiftl 1 1 | HBA_RESET => 1 end.

Inductive FirmwareHandoffCtl := FW_BUSY | OWNERSHIP_CHANGE | SMI_ON_OWNERSHIP_CHANGE | OS_OWNED_SEMAPHORE | FW_OWNED_SEMAPHORE.
Definition handoff_bit (f : FirmwareHandoffCtl) : Z :=
  match f with FW_BUSY => bit 4 | OWNERSHIP_CHANGE => bit 3 | SMI_ON_OWNERSHIP_CHANGE => bit 2 | OS_OWNED_SEMAPHORE => bit 1 | FW_OWNED_SEMAPHORE => bit 0 end.

Record GeneralControl := mkGeneral {
  capabilities : Z; host_ctl : Z; g_interrupt_status : Z; ports_implemented : Z; version : Z; ccc_control : Z; ccc_ports : Z;
  enclosure_management : Z; capabilities_2 : Z; bios_handoff_ctl_status : Z }.

Definition get_command_slots (cap : Z) : Z := Z.land (Z.shiftr cap 8 mod 256) 0x1f + 1.
Definition get_if_speed (cap : Z) : Z := Z.land (Z.shiftr cap 20) 7.
Definition port_count (cap : Z) : Z := Z.land (cap mod 256) 0xf.

Definition implemented (w port : Z) : outcome bool := assert_that (port <? 32);; Done (negb (Z.land w (bit32 port) =? 0)).
Definition check_port (g : GeneralControl) (port : Z) : outcome bool := implemented (ports_implemented g) port.

Definition int_status (g : GeneralControl) : Z := g_interrupt_status g.

(** A write of [mask] clears the bits of [mask]. *)
Definition clear_int (g : GeneralControl) (mask : Z) : GeneralControl :=
  mkGeneral (capabilities g) (host_ctl g) (Z.ldiff (g_interrupt_status g) mask) (ports_implemented g) (version g) (ccc_control g) (ccc_ports g)
    (enclosure_management g) (capabilities_2 g) (bios_handoff_ctl_status g).

Definition with_host_ctl (v : Z) (g : GeneralControl) : GeneralControl :=
  mkGeneral (capabilities g) v (g_interrupt_status g) (ports_implemented g) (version g) (ccc_control g) (ccc_ports g)
    (enclosure_management g) (capabilities_2 g) (bios_handoff_ctl_status g).
Definition with_handoff (v : Z) (g : GeneralControl) : GeneralControl :=
  mkGeneral (capabilities g) (host_ctl g) (g_interrupt_status g) (ports_implemented g) (version g) (ccc_control g) (ccc_ports g)
    (enclosure_management g) (capabilities_2 g) v.

Section GeneralOps.
Context `{FO : FlagOps}.

Definition supports_qword_addr (cap : Z) : bool := contains cap (cap_bit QWORD_BIT_ADDRESSING).

Definition int_enable (g : GeneralControl) (state : bool) : GeneralControl :=
  with_host_ctl (flag_set (host_ctl g) (hba_ctl_bit INTERRUPT_ENABLE) state) g.

(** The request and the condition [claim_blocking] waits for; the firmware answers in between. *)
Definition claim_request (w : Z) : Z := flag_set w (handoff_bit OS_OWNED_SEMAPHORE) true.
Definition claim_granted (w : Z) : bool := negb (contains w (handoff_bit FW_OWNED_SEMAPHORE)).

Definition claim_from_firmware (firmware : Z -> Z) (g : GeneralControl) : option GeneralControl :=
  if contains (capabilities_2 g) BIOS_HANDOFF then
    let w := firmware (claim_request (bios_handoff_ctl_status g)) in
    if claim_granted w then Some (with_handoff w g) else None
  else Some g.

End GeneralOps.

Inductive HbaVersion := Vers0_95 | Vers1 | Vers1_1 | Vers1_2 | Vers1_3 | Vers1_3_1.
Definition maj_min (w : Z) : Z * Z := (Z.shiftr w 16 mod 2 ^ 16, w mod 2 ^ 16).
Definition version_try_from (v : Z * Z) : option HbaVersion :=
  match v with
  | (0, 0x0905) => Some Vers0_95
  | (1, 0) => Some Vers1
  | (1, 0x0100) => Some Vers1_1
  | (1, 0x0200) => Some Vers1_2
  | (1, 0x0300) => Some Vers1_3
  | (1, 0x0301) => Some Vers1_3_1
  | _ => None
  end.
Definition hba_get_version (w : Z) : option HbaVersion := version_try_from (maj_min w).

(** [CCCControl] and [EnclosureManagement]. *)
Definition ccc_set_timeout (w milis : Z) : outcome Z := assert_that (negb (milis =? 0));; Done (Z.lor (Z.land w 0xfffff) (Z.shiftl milis 16)).
Definition ccc_set_completions (w completions : Z) : Z := Z.lor (Z.ldiff w (Z.shiftl 0xff 8)) (Z.shiftl completions 8).
Definition ccc_set_vector (w vector : Z) : outcome Z := assert_that (vector <? 32);; Done (Z.lor (Z.ldiff w (Z.shiftl 31 3)) (Z.shiftl vector 3)).
Definition ccc_enable (w : Z) (state : bool) : Z := if state then Z.lor w 1 else Z.ldiff w 1.
Definition enclosure_offset (w : Z) : Z := Z.shiftr w 16 * 4.
Definition enclosure_size (w : Z) : Z := Z.land w (Z.shiftl 0xffff 16).

(** The registers of a port as they are declared. *)
Definition port_control_fields : list field :=
  [mkField "command_list_base" 8 8; mkField "fis_base_address" 8 8; mkField "interrupt_status" 4 4; mkField "interrupt_enable" 4 4;
   mkField "cmd_status" 4 4; mkField "_res0" 4 4; mkField "task_file_data" 4 2; mkField "signature" 4 1; mkField "sata_status" 4 4;
   mkField "sata_ctl" 4 4; mkField "sata_err" 4 4; mkField "sata_active" 4 4; mkField "command_issue" 4 4; mkField "sata_notification" 4 2;
   mkField "fis_based_switching_proto" 4 4; mkField "dev_sleep" 4 4; mkField "_res1" 4 4; mkField "vendor_specific" 16 4].

(** [HostBusAdapter::from_raw]: the offsets of the ports in the register region. *)
Definition port_offsets (region_len : Z) : list Z :=
  (fun i => Z.of_nat (i * struct_size port_control_fields) + 0x100) <$> seq 0 (Z.to_nat (Z.min ((region_len ⊖ 0x100)%u64 / 0x80) 32)).

(** ** Command headers, tables and regions *)
Inductive DescriptionInformation := CLEAR_BUSY_ON_OK | BIST | RESET | PREFETCHABLE | WRITE | ATAPI.
Definition desc_bit (f : DescriptionInformation) : Z :=
  match f with CLEAR_BUSY_ON_OK => bit 10 | BIST => bit 9 | RESET => bit 8 | PREFETCHABLE => bit 7 | WRITE => bit 6 | ATAPI => bit 5 end.

Definition set_pm_port (w port : Z) : outcome Z := assert_that (port <? 16);; Done (Z.lor (Z.ldiff w (Z.shiftl 0xf 12)) (Z.shiftl port 12)).
Definition get_mp_port (w : Z) : Z := Z.land (Z.shiftr w 12) 0xf.
Definition get_command_fis_len (w : Z) : Z := Z.land w 0xf.
Definition set_command_fis_len (w len : Z) : outcome Z := assert_that (len <? 16);; assert_that (1 <? len);; Done (Z.lor (Z.ldiff w 0xf) len).

Record CommandHeader := mkHeader { description_info : Z; physical_region_table_len : Z; command_table_base_addr : Z }.

Definition set_table (h : CommandHeader) (addr len : Z) : outcome CommandHeader :=
  a ← hba_addr_set 256 addr; Done (mkHeader (description_info h) len a).

Definition set_fis_len (h : CommandHeader) (len : Z) : outcome CommandHeader :=
  assert_that (1 <? len);; assert_that (len <=? 16);;
  d ← set_command_fis_len (description_info h) len; Done (mkHeader d (physical_region_table_len h) (command_table_base_addr h)).

Section HeaderOps.
Context `{FO : FlagOps}.

Definition set_prefetch (h : CommandHeader) (value : bool) : CommandHeader :=
  mkHeader (flag_set (description_info h) (desc_bit PREFETCHABLE) value) (physical_region_table_len h) (command_table_base_addr h).
Definition set_write (h : CommandHeader) (value : bool) : CommandHeader :=
  mkHeader (flag_set (description_info h) (desc_bit WRITE) value) (physical_region_table_len h) (command_table_base_addr h).

End HeaderOps.

(** [PhysicalDataCount] and the [PhysicalRegionDescription] of a command table. *)
Definition set_data_count (inner count : Z) : outcome Z :=
  assert_that (count <? bit 22);; assert_that (negb (count =? 0));; Done (Z.lor (Z.land inner (bit 22 - 1)) (count - 1)).

Definition data_count_new (count : Z) : outcome (option Z) :=
  if (bit 21 <? count) || negb (Z.land count 1 =? 0) then Done None else c ← set_data_count 0 count; Done (Some c).

Record PrdEntry := mkPrd { base_addr : Z; data_count : Z }.

Definition prd_entry_new (start len : Z) : outcome (option PrdEntry) :=
  if 0x40000 <? len then Done None
  else c ← data_count_new len; Done (option_map (mkPrd start) c).

(** The layout that [CommandTableRaw::new] allocates for [len] entries, and the size of the structure. *)
Definition table_alloc_size (len : Z) : Z := 32 + 16 * len.
Definition table_size_of (len : Z) : Z := 64 + 16 + 0x30 + 16 * len.

(** ** Frames *)
Inductive FisType :=
  | RegisterH2D | RegisterD2H | DmaActiveD2H | DmaSetupBiDir | DataFisBiDir | BistActivateBiDir | PioSetupD2H | SetDevBitsD2H
  | Res0 | Res1 | Res3 | Vendor0 | Vendor1 | Res4.
Definition fis_code (t : FisType) : Z :=
  match t with
  | RegisterH2D => 0x27 | RegisterD2H => 0x34 | DmaActiveD2H => 0x39 | DmaSetupBiDir => 0x41 | DataFisBiDir => 0x46 | BistActivateBiDir => 0x58
  | PioSetupD2H => 0x5f | SetDevBitsD2H => 0xa1 | Res0 => 0xa6 | Res1 => 0xb8 | Res3 => 0xbf | Vendor0 => 0xc7 | Vendor1 => 0xd4 | Res4 => 0xd9
  end.
Definition is_host_to_dev (t : FisType) : bool :=
  match t with RegisterH2D | DmaSetupBiDir | DataFisBiDir | BistActivateBiDir => true | _ => false end.

(** [FisCommand]. *)
Definition set_cmd_bit (low : Z) (value : bool) : Z := if value then Z.lor low (bit 7) else Z.ldiff low (bit 7).
Definition get_cmd_bit (low : Z) : bool := negb (Z.land low (bit 7) =? 0).
Definition fis_set_port (low port : Z) : outcome Z := assert_that (port <? 16);; Done (Z.lor (Z.ldiff low 0xf) port).

Record RegisterHostToDevFis := mkFis {
  fis_type : FisType; cfg : Z; fis_command : Z; features_low : Z; lba_low : list Z; dev : Z; lba_high : list Z; features_high : Z;
  fis_count : Z; fis_icc : Z; control : Z; fis_aux : Z }.

Definition fis_new (cmd : AtaCommand) (port features lba device count icc control aux : Z) : outcome RegisterHostToDevFis :=
  assert_that (lba <? bit 48);;
  let lba_bytes := le_bytes 8 lba in
  let f := le_bytes 2 features in
  cfg ← fis_set_port 0 port;
  Done (mkFis RegisterH2D cfg (ata_code cmd) (nth 0 f 0) (slice lba_bytes 0 3) device (slice lba_bytes 3 3) (nth 1 f 0) count icc control aux).

Definition fis_try_from (value : ComposedCommand) : outcome (option RegisterHostToDevFis) :=
  match command value with
  | Concrete c =>
      f ← fis_new c 0 (default 0 (feature value)) (default 0 (lba value)) (default 0 (device value)) (default 0 (count value)) (default 0 (icc value)) 0
            (default 0 (aux value));
      Done (Some f)
  | Opaque _ => Done None
  end.

(** The bytes of the frame in memory. *)
Definition fis_bytes (f : RegisterHostToDevFis) : list Z :=
  [fis_code (fis_type f); cfg f; fis_command f; features_low f] ++ lba_low f ++ [dev f] ++ lba_high f ++ [features_high f] ++
  le_bytes 2 (fis_count f) ++ [fis_icc f; control f] ++ le_bytes 4 (fis_aux f).

(** [CommandBuff::send_cmd]: all fields are copied, the configuration is port 0 with the command bit. *)
Definition send_cmd (buff : list Z) (f : RegisterHostToDevFis) : outcome (list Z) :=
  c ← fis_set_port (nth 1 buff 0) 0;
  Done (fis_bytes (mkFis (fis_type f) (set_cmd_bit c true) (fis_command f) (features_low f) (lba_low f) (dev f) (lba_high f) (features_high f)
                         (fis_count f) (fis_icc f) (control f) (fis_aux f)) ++ drop 20 buff).

(** [PioSetupFis::get_lba]. *)
Definition pio_get_lba (low high : list Z) : Z := of_le (low ++ high ++ [0; 0]).

(** [DmaSetupFis], [DmaSetupFlags] and [PioSetupFlags]. *)
Definition dma_set_offset (value : Z) : outcome Z := assert_that (Z.land value 3 =? 0);; Done value.
Definition flags_set_port (inner port : Z) : outcome Z := assert_that (port <? 16);; Done (Z.lor (Z.ldiff inner 0xf) port).
Definition is_sender_sending (inner : Z) : bool := negb (Z.land inner (bit 5) =? 0).
Definition set_interrupt_bit (inner : Z) (value : bool) : Z := if value then Z.lor inner (bit 6) else Z.ldiff inner (bit 6).
Definition set_auto (inner : Z) (value : bool) : Z := if value then Z.lor inner (bit 7) else Z.ldiff inner (bit 7).
Definition get_auto (inner : Z) : bool := negb (Z.land inner (bit 7) =? 0).

(** ** Theorems *)
(** The registers up to PxDEVSLP are where the standard has them, but the structure is 96 bytes long, so
    no port other than the first is found at its place, 0x80 bytes after the port before it. *)
Theorem port_offsets_shifted i o : port_offsets 0x1100 !! i = Some o ->
  struct_size port_control_fields = 0x60%nat /\ (o = Z.of_nat i * 0x80 + 0x100 <-> i = 0%nat) /\
  (fst <$> offset_of port_control_fields "command_issue") = Some 0x38%nat /\ (fst <$> offset_of port_control_fields "dev_sleep") = Some 0x44%nat.
Proof.
  intros Ho. split; [reflexivity|]. split; [|by split].
  unfold port_offsets in Ho. rewrite list_lookup_fmap in Ho. destruct (seq _ _ !! i) as [j|] eqn:E; [|done]. apply lookup_seq in E as [-> _].
  cbn [fmap option_fmap option_map] in Ho. injection Ho as <-. change (struct_size port_control_fields) with 0x60%nat. lia.
Qed.

(** A power state is read back as it was written, except that [Partial] is written as 2 and reading 2 panics. *)
Lemma power_state_roundtrip w p : 0 <= w < 2 ^ 32 -> get_power_state (set_power_state w p) = if decide (p = Partial) then Panic else Done p.
Proof.
  intros Hw. unfold get_power_state, power_of_u32, set_power_state.
  assert (Z.land (Z.shiftr (Z.lor (Z.ldiff w (Z.shiftl 0xf 28)) (power_into p)) 28) 0xf = power_disc p) as ->; [|by destruct p].
  apply Z.bits_inj'. intros i Hi. change 0xf with (Z.ones 4). rewrite Z.land_spec, Z.shiftr_spec, Z.lor_spec, Z.ldiff_spec by done.
  unfold power_into. rewrite !Z.shiftl_spec by lia. replace (i + 28 - 28) with i by lia. rewrite Z.testbit_ones_nonneg by lia.
  destruct (Z.ltb_spec i 4); [rewrite andb_true_r; by rewrite andb_false_r|]. rewrite andb_false_r. symmetry.
  assert (0 <= power_disc p < 2 ^ 4) as Hp by (destruct p; cbn; lia). rewrite <- (Z.mod_small _ _ Hp). by apply Z.mod_pow2_bits_high.
Qed.

(** The speed is or-ed in at bit 0 instead of bit 4: setting a limit removes it and changes the detection field. *)
Lemma set_speed_limit_lost g : get_allowed_limit (set_speed_limit 0 (Some g)) = Done None /\
  (detect_init_of (set_speed_limit 0 (Some g)) = Done ResetInterface \/ detect_init_of (set_speed_limit 0 (Some g)) = Panic).
Proof. destruct g; vm_compute; auto. Qed.

Lemma notification_always n b : 0 <= n < 2 ^ 16 -> 0 <= b < 32 -> notification_get_bit n b = Done true.
Proof.
  intros Hn Hb. unfold notification_get_bit. rewrite (proj2 (Z.ltb_lt _ _)) by lia. cbn. f_equal. apply negb_true_iff, Z.eqb_neq.
  intros H. apply Z.lor_eq_0_iff in H as [_ H]. pose proof (bit_pos (b mod 16) ltac:(apply Z.mod_pos_bound; lia)). lia.
Qed.

(** The timer field keeps the lower bits of its old value. *)
Lemma ccc_timeout_sticky : ccc_set_timeout (Z.shiftl 0xf 16) 0x10 = Done (Z.shiftl 0x1f 16).
Proof. done. Qed.

(** An entry describes an even number of at most 256 KiB; the field holds the number less one. *)
Lemma prd_entry_spec start len : 0 < len -> 
  prd_entry_new start len = Done (if (len <=? 0x40000) && Z.even len then Some (mkPrd start (len - 1)) else None).
Proof.
  intros Hl. unfold prd_entry_new. destruct (Z.ltb_spec 0x40000 len); [by rewrite (proj2 (Z.leb_gt _ _)) by lia|]. rewrite (proj2 (Z.leb_le _ _)) by lia. cbn [andb].
  unfold data_count_new. change (bit 21) with 0x200000. rewrite (proj2 (Z.ltb_ge _ _)) by lia. cbn [orb].
  assert ((Z.land len 1 =? 0) = Z.even len) as ->.
  { change 1 with (2 ^ 1 - 1). rewrite land_mask by lia. rewrite <- Z.negb_odd, Zodd_mod. change (2 ^ 1) with 2. destruct (Z.mod_pos_bound len 2 ltac:(lia)).
    assert (len mod 2 = 0 \/ len mod 2 = 1) as [-> | ->] by lia; done. }
  destruct (Z.even len); cbn [negb]; [|done]. unfold set_data_count. change (bit 22) with 0x400000. rewrite (proj2 (Z.ltb_lt _ _)) by lia.
  rewrite (proj2 (Z.eqb_neq _ _)) by lia. cbn. done.
Qed.

(** The memory for a command table is 96 bytes short: with 250 entries it does not fit in the page
    that is allocated for it. *)
Lemma table_alloc_short len : table_size_of len - table_alloc_size len = 96 /\ table_alloc_size 250 <= 4096 < table_size_of 250.
Proof. unfold table_size_of, table_alloc_size. lia. Qed.

Lemma fis_set_port_zero b : is_byte b -> fis_set_port b 0 = Done (Z.ldiff b 0xf).
Proof. intros Hb. unfold fis_set_port. cbn. by rewrite Z.lor_0_r. Qed.

Lemma slices_app (l : list Z) a b : (a + b <= length l)%nat -> slice l 0 a ++ slice l a b = take (a + b) l.
Proof.
  intros H. unfold slice. rewrite drop_0. rewrite <- (take_drop a (take (a + b) l)), take_take, skipn_firstn_comm. f_equal; f_equal; lia.
Qed.

(** The frame of a command is the one of the SATA standard: it is 20 bytes long, starts with the code of a host to
    device frame and the command bit, and the device finds in it the command, the 48-bit address, the
    count, the features, the device, ICC, control and auxiliary fields it was composed from. *)
Theorem fis_frame cmd features lba device count icc control aux buff :
  0 <= features < 2 ^ 16 -> 0 <= lba < 2 ^ 48 -> is_byte device -> 0 <= count < 2 ^ 16 -> is_byte icc -> is_byte control -> 0 <= aux < 2 ^ 32 ->
  length buff = 64%nat -> nth 1 buff 0 = 0 ->
  exists f b, fis_new cmd 0 features lba device count icc control aux = Done f /\ send_cmd buff f = Done b /\ length b = 64%nat /\
    take 4 b = [0x27; 0x80; ata_code cmd; features mod 256] /\ of_le (slice b 4 3 ++ slice b 8 3) = lba /\
    nth 7 b 0 = device /\ nth 11 b 0 = features / 256 /\ of_le (slice b 12 2) = count /\ slice b 14 2 = [icc; control] /\ of_le (slice b 16 4) = aux.
Proof.
  intros Hf Hl Hd Hc Hi Hct Ha Hlen Hb1. unfold fis_new. change (bit 48) with (2 ^ 48). rewrite (proj2 (Z.ltb_lt _ _)) by lia. cbn [assert_that mbind outcome_bind].
  rewrite (fis_set_port_zero 0) by (unfold is_byte; lia). cbn [mbind outcome_bind]. eexists _, _. split; [done|].
  unfold send_cmd. rewrite Hb1, (fis_set_port_zero 0) by (unfold is_byte; lia). cbn [mbind outcome_bind]. split; [done|].
  assert (of_le (slice (le_bytes 8 lba) 0 3 ++ slice (le_bytes 8 lba) 3 3) = lba) as Hlba.
  { rewrite slices_app by (rewrite le_bytes_length; lia). change 8%nat with (6 + 2)%nat. rewrite le_bytes_app by lia.
    rewrite take_app_length' by (by rewrite le_bytes_length). apply of_le_bytes. change (256 ^ Z.of_nat 6) with (2 ^ 48). lia. }
  assert (le_bytes 2 count = [count mod 256; count / 256 mod 256]) as Ec by done. pose proof (of_le_bytes 2 count ltac:(lia)) as Hcount. pose proof (of_le_bytes 4 aux ltac:(lia)) as Haux.
  assert (features / 256 mod 256 = features / 256) as Ef by (apply Z.mod_small; split; [apply Z.div_pos; lia|apply Z.div_lt_upper_bound; lia]).
  assert (length (drop 20 buff) = 44%nat) as Hdl by (rewrite length_drop; lia).
  revert Hlba. unfold fis_bytes, slice. cbn. rewrite Ef. intros Hlba. rewrite Hdl. split_and!; done.
Qed.

(** The address in a frame from the device is put together the same way. *)
Lemma pio_get_lba_roundtrip lba : 0 <= lba < 2 ^ 48 -> pio_get_lba (slice (le_bytes 8 lba) 0 3) (slice (le_bytes 8 lba) 3 3) = lba.
Proof.
  intros Hl. unfold pio_get_lba. rewrite app_assoc, of_le_app. rewrite slices_app by (rewrite le_bytes_length; lia). change 8%nat with (6 + 2)%nat. rewrite le_bytes_app by lia.
  rewrite take_app_length' by (by rewrite le_bytes_length). rewrite of_le_bytes by (change (256 ^ Z.of_nat 6) with (2 ^ 48); lia). cbn. lia.
Qed.

Module FisWitness.

Lemma fis_frame_witness : exists f b, fis_new READ_SECTORS_EXT 0 0 0x123456789a 0x40 8 0 0 0 = Done f /\ send_cmd (replicate 64 0) f = Done b /\
  of_le (slice b 4 3 ++ slice b 8 3) = 0x123456789a.
Proof.
  destruct (fis_frame READ_SECTORS_EXT 0 0x123456789a 0x40 8 0 0 0 (replicate 64 0)) as (f & b & H1 & H2 & _ & _ & H3 & _);
    [lia|lia|unfold is_byte; lia|lia|unfold is_byte; lia|unfold is_byte; lia|lia|reflexivity|reflexivity|].
  exists f, b. by split_and!.
Defined.

End FisWitness.
