(* ===== verification/AhciCmd.v ===== *)
(** * AHCI command tables

    [drivers/ahci/src/driver/cmd_ctl.rs] and the conversion of a command into a frame
    ([Port::compile_fis] of [driver.rs]): the 32 command headers of a port, their command tables with the
    region table that describes the buffer of a command, and the sizes and addresses of sectors.

    Memory for tables comes from the DMA allocator of [AllocIf], which is the list of
    physical addresses it will give next. *)
From Stdlib Require Import String.
From stdpp Require Import prelude list.
From S2P Require Import Prelude Bytes Ata AhciRegs FrameAlloc Dma.
Open Scope Z_scope.
Import Ata.

Record HbaInfo := mkInfo { is_64_bit : bool; info_queue_depth : Z; mech_presence_switch : bool; pci_addr : Z }.

Inductive CommandError := BadAddress | BuffTooLong (n : Z) | BadBuffer.

Section Info.
Context `{FO : FlagOps}.

Definition from_general (ctl : GeneralControl) (addr : Z) : HbaInfo :=
  mkInfo (supports_qword_addr (capabilities ctl)) (get_command_slots (capabilities ctl)) (contains (capabilities ctl) (cap_bit PRESENCE_SWITCH)) addr.

End Info.

Definition mem_region (i : HbaInfo) : MemRegion := if is_64_bit i then Mem64 else Mem32.

(** ** Command tables *)
(** [CommandTableRaw]: the frame buffer and the region table. *)
Record CommandTableRaw := mkTable { command_fis : list Z; prdt : list PrdEntry }.

(** [CommandTableRaw::new]: zeroed memory at the next address of the allocator. *)
Definition table_new (len : Z) (supply : list Z) : outcome (CommandTableRaw * Z * list Z) :=
  match supply with
  | a :: rest => Done (mkTable (replicate 64 0) (replicate (Z.to_nat len) (mkPrd 0 0)), a, rest)
  | [] => Panic
  end.

Definition table_len (t : CommandTableRaw) : Z := Z.of_nat (length (prdt t)).

(** [UnboundCommandTable] with the header it points to. *)
Record CommandTable := mkUnbound { table_size : Z; parent : CommandHeader; table : CommandTableRaw }.

Definition import_table (u : CommandTable) (t : CommandTableRaw) (phys_addr : Z) : outcome CommandTable :=
  a ← hba_addr_set 256 phys_addr;
  let len := if table_len t =? 0x10000 then 0 else table_len t in
  Done (mkUnbound (table_size u) (mkHeader (description_info (parent u)) (len mod 2 ^ 16) a) t).

Definition set_len (u : CommandTable) (len : Z) (supply : list Z) : outcome (CommandTable * list Z) :=
  if table_size u <? len then
    r ← table_new len supply;
    let '(t, a, supply) := r in
    u ← import_table u t a;
    Done (mkUnbound len (parent u) (table u), supply)
  else Done (mkUnbound (table_size u) (mkHeader (description_info (parent u)) len (command_table_base_addr (parent u))) (table u), supply).

Section Prdt.
Context (translate_ptr : Z -> outcome (option Z)).

(** [prd().flat_map(|prd| prd.limit(0x40_0000))]; [None] stands for an iterator that does not end. *)
Definition limit_fuel (r : PhysicalRegionDescription) : nat := Z.to_nat (size r / 0x400000 + 2).
Fixpoint limit_all (l : list PhysicalRegionDescription) : option (list PhysicalRegionDescription) :=
  match l with
  | [] => Some []
  | r :: l => a ← limit r 0x400000 (limit_fuel r); b ← limit_all l; Some (a ++ b)
  end.
Definition buffer_regions (ptr len : Z) : outcome (option (list PhysicalRegionDescription)) :=
  r ← prd_all translate_ptr ptr len; Done (r ≫= limit_all).

(** The loop that fills the table: the index is converted to a [u16] first. *)
Fixpoint fill_prdt (i : Z) (regions : list PhysicalRegionDescription) (t : list PrdEntry) : outcome (list PrdEntry) :=
  match regions with
  | [] => Done t
  | r :: regions =>
      if 0xffff <? i then Done t
      else
        e ← prd_entry_new (addr r) (size r mod 2 ^ 32);
        e ← unwrap e;
        assert_that (i <? Z.of_nat (length t));;
        fill_prdt (i + 1) regions (<[Z.to_nat i := e]> t)
  end.

Definition build_prdt (u : CommandTable) (ptr len : Z) (supply : list Z) : outcome (option (result (CommandTable * list Z) CommandError)) :=
  if negb (Z.land len 1 =? 0) then Done (Some (Err BadBuffer))
  else
    r ← buffer_regions ptr len;
    match r with
    | None => Done None
    | Some regions =>
        let prd_len := Z.of_nat (length regions) in
        if 0xffff <? prd_len then Done (Some (Err (BuffTooLong prd_len)))
        else
          r ← (if table_len (table u) <? prd_len then
                 n ← table_new prd_len supply;
                 let '(t, a, supply) := n in
                 u ← import_table u t a;
                 Done (u, supply)
               else set_len u prd_len supply);
          let '(u, supply) := r in
          p ← fill_prdt 0 regions (prdt (table u));
          Done (Some (Ok (mkUnbound (table_size u) (parent u) (mkTable (command_fis (table u)) p), supply)))
    end.

Context `{FO : FlagOps}.

Definition send_fis (u : CommandTable) (cmd : RegisterHostToDevFis) (buff : option (Z * Z)) (supply : list Z) :
    outcome (option (result (CommandTable * list Z) CommandError)) :=
  r ← (match buff with Some (ptr, len) => build_prdt u ptr len supply | None => Done (Some (Ok (u, supply))) end);
  match r with
  | None => Done None
  | Some (Err e) => Done (Some (Err e))
  | Some (Ok (u, supply)) =>
      h ← set_fis_len (parent u) (20 / 4);
      ata_cmd ← unwrap (result_ok (ata_try_from (fis_command cmd)));
      let h := set_write h (is_write ata_cmd) in
      b ← send_cmd (command_fis (table u)) cmd;
      let h := if negb (is_nqc ata_cmd) && negb (table_len (table u) =? 0) then set_prefetch h true else h in
      Done (Some (Ok (mkUnbound (table_size u) h (mkTable b (prdt (table u))), supply)))
  end.

End Prdt.

(** [Drop for UnboundCommandTable], and the address of the dead table, which [Cell::take] leaves 0. *)
Definition dead_get_addr (phys_addr : Z) : Z * Z := (phys_addr, 0).
Definition table_drop (h : CommandHeader) (dead : Z) : outcome (CommandHeader * Z) :=
  let '(a, dead) := dead_get_addr dead in
  a ← hba_addr_set 256 a; Done (mkHeader (description_info h) 1 a, dead).

(** [CmdList::new]: tables of 64 entries for the slots the controller has. *)
Definition DEF_TABLE_LEN : Z := 64.
Fixpoint tables_new (n : nat) (headers : list CommandHeader) (supply : list Z) : outcome (list (option CommandTable) * list Z) :=
  match n, headers with
  | S n, h :: headers =>
      r ← table_new DEF_TABLE_LEN supply;
      let '(t, a, supply) := r in
      h ← set_table h a DEF_TABLE_LEN;
      r ← tables_new n headers supply;
      Done (Some (mkUnbound DEF_TABLE_LEN h t) :: r.1, r.2)
  | S _, [] => Panic
  | O, _ => Done (replicate (length headers) None, supply)
  end.
Definition cmd_list_new (i : HbaInfo) (headers : list CommandHeader) (supply : list Z) : outcome (list (option CommandTable) * list Z) :=
  tables_new (Z.to_nat (info_queue_depth i)) headers supply.

(** ** From a command to a frame *)
Definition compile_fis (cmd : ComposedCommand) : outcome (option (RegisterHostToDevFis * bool)) :=
  match command cmd with
  | Concrete c => f ← fis_try_from cmd; f ← unwrap f; Done (Some (f, is_nqc c))
  | Opaque c =>
      let dev := Z.lor (default 0 (device cmd)) (bit 6) in
      let conc := match c with OpRead => READ_SECTORS_EXT | OpWrite => WRITE_SECTORS_EXT end in
      let cmd' := mkComposed (Concrete conc) (feature cmd) (count cmd) (lba cmd) (Some dev) (icc cmd) (aux cmd) in
      let finish := (f ← fis_try_from cmd'; f ← unwrap f; Done (Some (f, is_nqc conc))) in
      if bool_decide (c = OpRead) || (bool_decide (c = OpWrite) && negb (is_48_bit cmd')) then
        n ← unwrap (count cmd);
        if 256 <? n then Done None
        else
          l ← unwrap (lba cmd);
          if 0xfffffff <? l then Done None else finish
      else finish
  end.

(** [SectorAddress], [SectorCount] and [DevIdentity]. *)
Definition sector_address_new (a : Z) : option Z := if a <? bit 48 then Some a else None.
Definition sector_count_new (count : Z) : option Z := if count =? 0 then None else if bit 16 <? count then None else Some count.
Definition count_ext (n : Z) : Z := if n =? bit 16 then 0 else n mod 2 ^ 16.

Record DevIdentity := mkIdentity { lba_size : Z; id_phys_sec_size : Z; id_offset : Z; lba_count : Z; support_48_bit : bool }.

Definition exceeds_dev (d : DevIdentity) (lba count : Z) : bool := lba_count d <? (lba ⊕ count_ext count)%u64.

Section Identity.
Context `{FO : FlagOps}.
Import Identification.

Definition dev_identity_from (value : list Z) : DevIdentity :=
  let g := get_device_geometry value in
  mkIdentity (logical_sec_size g) (phys_sec_size g) (alignment g) (sector_count g)
    (contains (get_in value "features" features_fields "features_83") (features83_bit LBA_48)).

End Identity.

Inductive CmdErr := AtaErr | DevErr (b : Z) | Disowned | BadArgs | BuildErr (e : CommandError).

(** The arguments of [Port::read], up to the command that is issued. *)
Definition read_command (id : DevIdentity) (lba len : Z) : outcome (result ComposedCommand CmdErr) :=
  assert_that (negb (lba_size id =? 0));;
  let raw_count := len / lba_size id in
  if 2 ^ 32 <=? raw_count then Done (Err BadArgs)
  else match sector_count_new raw_count with
       | None => Done (Err BadArgs)
       | Some n =>
           if exceeds_dev id lba n then Done (Err BadArgs)
           else match spanning_new SpanRead lba (count_ext n) with
                | None => Done (Err BadArgs)
                | Some c => Done (Ok (spanning_compose c))
                end
       end.

Definition write_command (id : DevIdentity) (lba len : Z) : outcome (result ComposedCommand CmdErr) :=
  assert_that (negb (lba_size id =? 0));;
  if negb (len mod lba_size id =? 0) then Done (Err BadArgs)
  else
    let count_raw := len / lba_size id in
    if 2 ^ 32 <=? count_raw then Done (Err BadArgs)
    else match sector_count_new count_raw with
         | None => Done (Err BadArgs)
         | Some n =>
             if exceeds_dev id lba n || (len =? 0) then Done (Err BadArgs)
             else match spanning_new SpanWrite lba (count_ext n) with
                  | None => Done (Err BadArgs)
                  | Some c => Done (Ok (spanning_compose c))
                  end
         end.

(** ** The regions of a command's buffer *)
Section Regions.
Context (tr : Z -> outcome (option Z)) (ptr len : Z).

(** Behind the first region every region but the last fills whole pages. *)
Lemma regions_count_aligned o l : regions_at tr ptr len o l -> o < len + 4096 -> (o < len -> (ptr + o) mod 4096 = 0) -> 4096 * Z.of_nat (length l) < len - o + 4096.
Proof.
  revert o. induction l as [|r l IH]; intros o Hr Ho Ha; cbn [length] in *; [lia|]. destruct Hr as (H1 & H2 & H3 & _ & H5 & H6). specialize (Ha H1).
  destruct (Z.lt_ge_cases (o + size r) len) as [Hlt|Hge].
  - destruct (H5 Hlt) as [Hm _]. assert (4096 <= size r).
    { assert (size r mod 4096 = 0) as Hs by (rewrite <- (Z.add_mod_idemp_l _ _ 4096) in Hm by lia; rewrite Ha, Z.add_0_l in Hm; done).
      apply Z.div_exact in Hs; [|lia]. assert (0 < size r / 4096) by nia. lia. }
    pose proof (IH (o + size r) H6 ltac:(lia) ltac:(rewrite Z.add_assoc; done)). lia.
  - destruct l as [|r' l]; [cbn; lia|]. destruct H6 as (? & _). lia.
Qed.

Lemma regions_count l : regions_at tr ptr len 0 l -> 0 <= len -> 4096 * Z.of_nat (length l) < len + 8192.
Proof.
  intros Hr Hl. destruct l as [|r l]; cbn [length]; [lia|]. destruct Hr as (H1 & H2 & H3 & _ & H5 & H6). rewrite Z.add_0_l in *.
  pose proof (regions_count_aligned (size r) l H6 ltac:(lia)) as Hc. assert (4096 * Z.of_nat (length l) < len - size r + 4096); [|lia].
  apply Hc. intros Hlt. destruct (H5 Hlt) as [Hm _]. rewrite Z.add_0_r in Hm. done.
Qed.

Lemma regions_sizes o l : regions_at tr ptr len o l -> 0 <= o -> Forall (fun r => 0 < size r < len + 4096) l.
Proof.
  revert o. induction l as [|r l IH]; intros o Hr Ho; constructor; destruct Hr as (H1 & H2 & H3 & _ & _ & H6); [lia|]. apply (IH (o + size r)); [done|lia].
Qed.

(** A buffer at an even address and of even length has regions of even length. *)
Hypothesis even_ptr : (2 ^ 1 | ptr).
Hypothesis even_len : (2 ^ 1 | len).
Hypothesis even_tr : forall i a, 0 <= i < len -> (2 ^ 1 | i) -> tr (ptr ⊕ i)%u64 = Done (Some a) -> (2 ^ 1 | a).

Lemma extend_even fuel o base diff r : (2 ^ 1 | diff) -> extend tr fuel (mkDescriber ptr len o) base diff = Done (Some r) -> (2 ^ 1 | r).
Proof using even_len.
  revert diff. induction fuel as [|fuel IH]; intros diff Hd He; [done|]. cbn [extend data_len] in He. destruct (next_chunk _ _ _) as [[a|]|] eqn:E; cbn [mbind outcome_bind] in He; try done.
  2: { injection He as <-. done. }
  destruct (_ =? diff); [|injection He as <-; done]. assert (2 ^ 1 | Z.min (diff ⊕ PAGE_SIZE)%u64 len) as Hm.
  { destruct (Z.min_spec (diff ⊕ PAGE_SIZE)%u64 len) as [[_ ->]|[_ ->]]; [|done]. apply wadd_divide; [lia|done|]. exists 2048. reflexivity. }
  destruct (_ =? len); [injection He as <-; done|]. by apply (IH _ Hm).
Qed.

Lemma collect_even n fuel o l : (2 ^ 1 | o) -> 0 <= o -> prd_collect tr n fuel (mkDescriber ptr len o) = Done (Some l) -> Forall (fun r => (2 ^ 1 | size r)) l.
Proof using even_ptr even_len even_tr.
  revert o l. induction n as [|n IH]; intros o l Ho Ho0 Hc; [done|]. cbn [prd_collect] in Hc. unfold prd_next in Hc. cbn [next data_len data_ptr] in Hc.
  unfold next_chunk in Hc at 1. cbn [data_len data_ptr] in Hc. destruct (Z.ltb_spec o len) as [Hlt|Hge]; [|cbn in Hc; by injection Hc as <-].
  destruct (tr (ptr ⊕ o)%u64) as [[base|]|] eqn:Et; cbn [mbind outcome_bind] in Hc; try done; [|by injection Hc as <-].
  destruct (extend _ _ _ _ _) as [[diff|]|] eqn:Ee; cbn [mbind outcome_bind] in Hc; try done.
  assert (2 ^ 1 | diff) as Hd.
  { apply extend_even in Ee; [done|]. apply Z.divide_sub_r; [exists 2048; reflexivity|]. destruct (Z.min_spec (Z.land base (PAGE_SIZE - 1)) len) as [[_ ->]|[_ ->]]; [|done].
    change (PAGE_SIZE - 1) with (2 ^ 12 - 1). rewrite land_mask by lia. rewrite Z.mod_eq by lia. apply Z.divide_sub_r; [by apply (even_tr o)|].
    apply Z.divide_mul_l. exists 2048. reflexivity. }
  destruct (prd_collect _ _ _ _) as [[l'|]|] eqn:El; cbn [mbind outcome_bind] in Hc; try done. injection Hc as <-. constructor; [done|].
  apply (IH (o ⊕ diff)%u64 l'); [by apply wadd_divide|apply wrap64_range|done].
Qed.

End Regions.

Lemma limit_one r : 0 < size r <= 0x400000 -> 0 <= addr r < 2 ^ 64 -> limit r 0x400000 (limit_fuel r) = Some [r].
Proof.
  intros Hs Ha. unfold limit. assert (exists n, limit_fuel r = S (S n)) as [n ->].
  { unfold limit_fuel. exists (Z.to_nat (size r / 0x400000)). pose proof (Z.div_pos (size r) 0x400000 ltac:(lia) ltac:(lia)). lia. }
  cbn [adapt_all]. unfold limit_next at 1. rewrite (proj2 (Z.leb_gt _ _)) by lia.
  rewrite (wsub_small (size r) 0), (wadd_small (addr r) 0) by lia. set (n' := Z.min _ _). assert (n' = size r) as -> by lia.
  rewrite (wadd_small 0 (size r)) by lia. rewrite Z.add_0_r, Z.add_0_l. unfold limit_next. rewrite (proj2 (Z.leb_le _ _)) by lia. by destruct r.
Qed.

Lemma limit_all_id l : Forall (fun r => 0 < size r <= 0x400000 /\ 0 <= addr r < 2 ^ 64) l -> limit_all l = Some l.
Proof. induction 1 as [|r l [H1 H2] _ IH]; [done|]. cbn [limit_all]. rewrite limit_one by done. cbn. by rewrite IH. Qed.

(** A buffer of at most 63 pages that begins and ends on a word is at most 64 regions that each fit an entry. *)
Lemma buffer_regions_fit tr frame ptr len :
  backed tr frame ptr len -> starts_well ptr len 0 -> (2 ^ 1 | ptr) -> (2 ^ 1 | len) -> len <= 63 * 4096 ->
  exists l, buffer_regions tr ptr len = Done (Some l) /\ regions_at tr ptr len 0 l /\ (length l <= 64)%nat /\
    Forall (fun r => 0 < size r <= 0x40000 /\ Z.even (size r) = true) l.
Proof.
  intros Hb Hw Hp Hl Hmax. pose proof (bk_len _ _ _ _ Hb) as H0. pose proof (bk_range _ _ _ _ Hb) as Hr.
  assert (exists l, prd_all tr ptr len = Done (Some l) /\ regions_at tr ptr len 0 l) as (l & Hc & Hat).
  { unfold prd_all, prd. pose proof (Z.div_mod len 4096 ltac:(lia)). pose proof (Z.mod_pos_bound len 4096 ltac:(lia)). apply (prd_collect_ok tr frame ptr len Hb); try done; lia. }
  exists l. assert (Forall (fun r => (2 ^ 1 | size r)) l) as He.
  { refine (collect_even tr ptr len Hp Hl _ _ _ 0 l (Z.divide_0_r _) ltac:(lia) Hc). intros i a Hi Hev Ht. rewrite wadd_small in Ht by lia.
    rewrite (bk_translate _ _ _ _ Hb) in Ht by lia. injection Ht as <-. unfold phys. destruct (bk_frame _ _ _ _ Hb (ptr + i) ltac:(lia)) as [_ Hfm].
    apply Z.divide_add_r; [apply Z.div_exact in Hfm; [|lia]; rewrite Hfm; apply Z.divide_mul_l; exists 2048; reflexivity|].
    rewrite Z.mod_eq by lia. apply Z.divide_sub_r; [by apply Z.divide_add_r|]. apply Z.divide_mul_l. exists 2048. reflexivity. }
  pose proof (regions_sizes tr ptr len 0 l Hat ltac:(lia)) as Hs. pose proof (regions_count tr ptr len l Hat ltac:(lia)) as Hn.
  assert (forall o l, regions_at tr ptr len o l -> 0 <= o -> Forall (fun r => 0 <= addr r < 2 ^ 64) l) as Haddr.
  { clear -Hb Hr. intros o l. revert o. induction l as [|r l IH]; intros o Hat Ho; constructor; destruct Hat as (H1 & H2 & H3 & H4 & _ & H6); [|by apply (IH (o + size r)); [done|lia]].
    specialize (H4 0 ltac:(lia) ltac:(lia)). rewrite (bk_translate _ _ _ _ Hb) in H4 by lia. injection H4 as H4. pose proof (phys_range _ _ _ _ Hb (ptr + o + 0) ltac:(lia)). lia. }
  split; [|split; [done|split; [lia|]]].
  - unfold buffer_regions. rewrite Hc. cbn [mbind outcome_bind option_bind]. rewrite limit_all_id; [done|]. specialize (Haddr 0 l Hat ltac:(lia)).
    rewrite Forall_forall in *. intros r Hin. specialize (Hs r Hin). specialize (Haddr r Hin). lia.
  - rewrite Forall_forall in *. intros r Hin. specialize (Hs r Hin). specialize (He r Hin). split; [lia|]. destruct He as [k ->]. rewrite Z.even_mul. change (Z.even (2 ^ 1)) with true. apply orb_true_r.
Qed.

(** A region of more than 256 KiB, such as a buffer in contiguous frames, does not fit an entry: building the
    table panics, although 4 MiB is what regions are cut to and what the comments allow. *)
Theorem fill_prdt_large_panics r l t : 0x40000 < size r < 2 ^ 32 -> fill_prdt 0 (r :: l) t = Panic.
Proof.
  intros Hs. cbn [fill_prdt]. change (0xffff <? 0) with false. cbv iota. rewrite Z.mod_small by lia. unfold prd_entry_new. by rewrite (proj2 (Z.ltb_lt 0x40000 (size r))) by lia.
Qed.

(** ** Sectors *)
Lemma land_above_48 lba : 0 <= lba < 2 ^ 48 -> Z.land lba (wnot 0xffffffffffff) = 0.
Proof.
  intros Hl. unfold wnot. change (2 ^ 64 - 1 - 0xffffffffffff) with (Z.shiftl (Z.ones 16) 48). apply Z.bits_inj'. intros i Hi. rewrite Z.land_spec, Z.shiftl_spec, Z.bits_0 by lia.
  destruct (Z.lt_ge_cases i 48); [rewrite (Z.testbit_neg_r _ (i - 48)) by lia; apply andb_false_r|].
  rewrite <- (Z.mod_small lba (2 ^ 48)) by lia. by rewrite Z.mod_pow2_bits_high by lia.
Qed.

Lemma spanning_new_ok t lba n : 0 <= lba < 2 ^ 48 -> spanning_new t lba n = Some (mkSpanning t lba n).
Proof. intros Hl. unfold spanning_new. by rewrite land_above_48. Qed.

(** What is sent to a disk for a read or a write of less than 65536 sectors lies on the disk: an accepted call has an
    address below 2^48, the number of whole sectors of the buffer as its count, and ends at or before the
    last sector.  Everything else is refused with [BadArgs], and a write also when the buffer is not whole sectors. *)
Lemma rw_command_spec (write : bool) id lba len :
  0 <= lba < 2 ^ 48 -> 0 <= len < 2 ^ 64 -> 0 < lba_size id -> len / lba_size id <> 65536 ->
  let n := len / lba_size id in
  (if write then write_command id lba len else read_command id lba len) =
  Done (if bool_decide (1 <= n < 65536 /\ lba + n <= lba_count id /\ (write = true -> len mod lba_size id = 0))
        then Ok (mkComposed (Opaque (if write then OpWrite else OpRead)) None (Some n) (Some lba) None None None) else Err BadArgs).
Proof.
  intros Hlba Hlen Hsz Hn n. pose proof (Z.div_pos len (lba_size id) ltac:(lia) ltac:(lia)) as Hn0. fold n in Hn, Hn0.
  assert (forall t, spanning_new t lba n = Some (mkSpanning t lba n)) as Hsp by (intros t; by apply spanning_new_ok).
  assert (sector_count_new n = if bool_decide (1 <= n <= 65536) then Some n else None) as Hcn.
  { unfold sector_count_new. change (bit 16) with 65536. destruct (Z.eqb_spec n 0), (Z.ltb_spec 65536 n); try (rewrite bool_decide_eq_false_2 by lia; done); try lia. by rewrite bool_decide_eq_true_2 by lia. }
  assert (1 <= n < 65536 -> exceeds_dev id lba n = bool_decide (lba_count id < lba + n) /\ count_ext n = n) as Hex.
  { intros Hb. unfold exceeds_dev, count_ext. change (bit 16) with 65536. rewrite (proj2 (Z.eqb_neq _ _)) by lia. rewrite Z.mod_small by lia. rewrite wadd_small by lia. split; [|done].
    destruct (Z.ltb_spec (lba_count id) (lba + n)); [by rewrite bool_decide_eq_true_2|by rewrite bool_decide_eq_false_2 by lia]. }
  assert (len = 0 -> n = 0) as Hz by (intros ->; unfold n; apply Z.div_0_l; lia).
  destruct write.
  - unfold write_command. rewrite (proj2 (Z.eqb_neq (lba_size id) 0)) by lia. cbn [negb assert_that mbind outcome_bind]. fold n.
    destruct (Z.eqb_spec (len mod lba_size id) 0) as [Hm|Hm]; cbn [negb]; [|rewrite bool_decide_eq_false_2; [done|intros (_ & _ & H); auto]].
    rewrite Hcn. destruct (Z.leb_spec (2 ^ 32) n); [rewrite bool_decide_eq_false_2 by lia; done|].
    destruct (decide (1 <= n <= 65536)) as [Hb|Hb]; [rewrite (bool_decide_eq_true_2 (1 <= n <= 65536)) by done|rewrite (bool_decide_eq_false_2 (1 <= n <= 65536)) by done; rewrite bool_decide_eq_false_2 by lia; done].
    destruct Hex as [-> ->]; [lia|]. rewrite (proj2 (Z.eqb_neq len 0)) by lia. rewrite orb_false_r, Hsp.
    destruct (decide (lba_count id < lba + n)); [rewrite (bool_decide_eq_true_2 (lba_count id < _)) by done; by rewrite bool_decide_eq_false_2 by lia|].
    rewrite (bool_decide_eq_false_2 (lba_count id < _)) by done. by rewrite bool_decide_eq_true_2 by (split_and!; lia).
  - unfold read_command. rewrite (proj2 (Z.eqb_neq (lba_size id) 0)) by lia. cbn [negb assert_that mbind outcome_bind]. fold n.
    rewrite Hcn. destruct (Z.leb_spec (2 ^ 32) n); [rewrite bool_decide_eq_false_2 by lia; done|].
    destruct (decide (1 <= n <= 65536)) as [Hb|Hb]; [rewrite (bool_decide_eq_true_2 (1 <= n <= 65536)) by done|rewrite (bool_decide_eq_false_2 (1 <= n <= 65536)) by done; rewrite bool_decide_eq_false_2 by lia; done].
    destruct Hex as [-> ->]; [lia|]. rewrite Hsp.
    destruct (decide (lba_count id < lba + n)); [rewrite (bool_decide_eq_true_2 (lba_count id < _)) by done; by rewrite bool_decide_eq_false_2 by lia|].
    rewrite (bool_decide_eq_false_2 (lba_count id < _)) by done. rewrite bool_decide_eq_true_2; [done|]. split; [lia|]. split; [lia|done].
Qed.

(** The frame of a transfer: a write always has one, a read only up to 256 sectors and below sector 2^28. *)
Lemma compile_rw (write : bool) start n :
  0 <= start < 2 ^ 48 ->
  let cmd := mkComposed (Opaque (if write then OpWrite else OpRead)) None (Some n) (Some start) None None None in
  if write || ((n <=? 256) && (start <=? 0xfffffff))
  then exists f, compile_fis cmd = Done (Some (f, false)) /\ fis_command f = ata_code (if write then WRITE_SECTORS_EXT else READ_SECTORS_EXT) /\
    of_le (lba_low f ++ lba_high f) = start /\ fis_count f = n /\ dev f = 0x40
  else compile_fis cmd = Done None.
Proof.
  intros Hs cmd. assert (forall c, exists f, fis_try_from (mkComposed (Concrete c) None (Some n) (Some start) (Some 0x40) None None) = Done (Some f) /\
    fis_command f = ata_code c /\ of_le (lba_low f ++ lba_high f) = start /\ fis_count f = n /\ dev f = 0x40) as Hf.
  { intros c. unfold fis_try_from, fis_new. cbn [command feature lba device count icc aux default from_option id]. rewrite (proj2 (Z.ltb_lt start (bit 48))) by (change (bit 48) with (2 ^ 48); lia).
    cbn [assert_that mbind outcome_bind]. change (fis_set_port 0 0) with (Done 0). cbn [mbind outcome_bind]. eexists. split; [done|]. cbn [fis_command lba_low lba_high fis_count dev].
    split; [done|]. split; [|done]. change (slice (le_bytes 8 start) 0 3 ++ slice (le_bytes 8 start) 3 3) with (le_bytes 6 start). apply of_le_bytes. lia. }
  unfold cmd, compile_fis. destruct write; cbn [command device count lba feature icc aux orb].
  - destruct (Hf WRITE_SECTORS_EXT) as (f & H1 & H2). exists f. split; [|done]. unfold is_48_bit. cbn [command negb andb]. rewrite bool_decide_eq_false_2 by done.
    rewrite andb_false_r. cbn [orb]. change (Z.lor (default 0 None) (bit 6)) with 0x40. rewrite H1. done.
  - rewrite bool_decide_eq_true_2 by done. cbn [orb unwrap mbind outcome_bind]. destruct (Z.leb_spec n 256); cbn [andb]; [|by rewrite (proj2 (Z.ltb_lt 256 n)) by lia].
    rewrite (proj2 (Z.ltb_ge 256 n)) by lia. destruct (Z.leb_spec start 0xfffffff); [|by rewrite (proj2 (Z.ltb_lt _ start)) by lia].
    rewrite (proj2 (Z.ltb_ge _ start)) by lia. destruct (Hf READ_SECTORS_EXT) as (f & H1 & H2). exists f. split; [|done]. change (Z.lor (default 0 None) (bit 6)) with 0x40. rewrite H1. done.
Qed.

(** The largest transfer has the count 0, and with it the check of the end of the disk never fails. *)
Theorem full_transfer_unchecked id lba : 0 <= lba <= lba_count id -> lba < 2 ^ 48 -> lba_size id = 512 ->
  read_command id lba (65536 * 512) = Done (Ok (mkComposed (Opaque OpRead) None (Some 0) (Some lba) None None None)).
Proof.
  intros Hl Hb Hs. unfold read_command. rewrite Hs. change (65536 * 512 / 512) with 65536. cbn [Z.eqb negb assert_that mbind outcome_bind].
  change (2 ^ 32 <=? 65536) with false. change (sector_count_new 65536) with (Some 65536). cbv iota. unfold exceeds_dev. change (count_ext 65536) with 0.
  rewrite wadd_small by lia. rewrite (proj2 (Z.ltb_ge _ _)) by lia. by rewrite spanning_new_ok by lia.
Qed.
