(* ===== verification/Ahci.v ===== *)
(** * The AHCI driver

    [drivers/ahci/src/driver.rs] and [driver/file.rs]: the command slots of a port and their locks, the futures of
    commands, issuing, queueing and completing commands, error handling, interrupts, and the
    character device of a port.

    A port is a record of its registers, the tables of [AhciCmd], the lock and the future of each slot,
    the queue of waiting commands and the store of the futures, which are shared between the queue, the
    slots and the tasks that wait for them.  A call that waits for the device inside (for BSY to clear, or for
    the identity) is [Blocked] in the state in which it waits.  The exchanges of the slot locks do not
    fail spuriously on x86.  A call runs to its end before the next one begins, as it does for the tasks of one CPU;
    what several CPUs do to a port at the same time is not modelled. *)
From stdpp Require Import prelude list gmap.
From S2P Require Import Prelude Files Bytes Ata AhciRegs AhciCmd FrameAlloc Dma.
Open Scope Z_scope.
Import Ata.

(** ** Futures of commands *)
Inductive CmdState := Waiting | Completed | Failed (e : CmdErr).

(** [CmdDataInner]; [waker] tells whether a task has registered. *)
Record CmdData := mkCmd { c_cmd : ComposedCommand; c_state : CmdState; c_buff : option (Z * Z); c_waker : bool; c_nqc : bool; c_wakes : nat }.

Definition with_state (s : CmdState) (d : CmdData) : CmdData := mkCmd (c_cmd d) s (c_buff d) (c_waker d) (c_nqc d) (c_wakes d).
Definition with_nqc (b : bool) (d : CmdData) : CmdData := mkCmd (c_cmd d) (c_state d) (c_buff d) (c_waker d) b (c_wakes d).
(** [AtomicWaker::wake] takes the waker and wakes its task. *)
Definition wake (d : CmdData) : CmdData :=
  mkCmd (c_cmd d) (c_state d) (c_buff d) false (c_nqc d) (if c_waker d then S (c_wakes d) else c_wakes d).
Definition register (d : CmdData) : CmdData := mkCmd (c_cmd d) (c_state d) (c_buff d) true (c_nqc d) (c_wakes d).
Definition take_buff (d : CmdData) : option (Z * Z) * CmdData :=
  (c_buff d, mkCmd (c_cmd d) (c_state d) None (c_waker d) (c_nqc d) (c_wakes d)).

Definition ready (d : CmdData) : CmdData := wake (with_state Completed d).
Definition err (e : CmdErr) (d : CmdData) : CmdData := wake (with_state (Failed e) d).

(** [Future::poll]. *)
Inductive Poll := Pending | ReadyOk (b : option (Z * Z)) | ReadyErr (b : option (Z * Z)) (e : CmdErr).
Definition poll (d : CmdData) : Poll * CmdData :=
  match c_state d with
  | Completed => let '(b, d) := take_buff d in (ReadyOk b, d)
  | Failed e => let '(b, d) := take_buff d in (ReadyErr b e, d)
  | Waiting => (Pending, register d)
  end.

(** ** Locks of the command slots *)
Inductive CmdLockState := Unlocked | Setup | Running.
#[export] Instance CmdLockState_dec : EqDecision CmdLockState.
Proof. solve_decision. Defined.

Abbreviation CmdLock := (list CmdLockState).

Definition cmd_lock_new : CmdLock := replicate 32 Unlocked.

(** [CmdLock::get_cmd], inside of its lock. *)
Fixpoint get_cmd (l : CmdLock) : option Z * CmdLock :=
  match l with
  | [] => (None, [])
  | Unlocked :: l => (Some 0, Setup :: l)
  | s :: l => let '(r, l) := get_cmd l in (option_map Z.succ r, s :: l)
  end.

Definition full_lock (l : CmdLock) (cmd : Z) : outcome CmdLock :=
  s ← unwrap (l !! Z.to_nat cmd);
  assert_that (bool_decide (s = Setup));; Done (<[Z.to_nat cmd := Running]> l).

Definition free (l : CmdLock) (cmd : Z) : CmdLock := <[Z.to_nat cmd := Unlocked]> l.

(** ** Error checking *)
Record PortErrChkInner := mkErrChk { waiting : bool; err_cmd : Z; err_chk : option Z }.
Definition err_chk_new : PortErrChkInner := mkErrChk false 0 None.

Definition trailing_zeros32 (x : Z) : Z := ctz 32 x.
Definition count_ones32 (x : Z) : Z := popcount 32 x.

(** The slots that are running and whose bit in PxCI is clear. *)
Fixpoint finished (ci : Z) (i : Z) (l : CmdLock) : Z :=
  match l with
  | [] => 0
  | s :: l => Z.lor (if bool_decide (s = Running) && (Z.land ci (bit i) =? 0) then bit i else 0) (finished ci (i + 1) l)
  end.

(** [PortErrChk::chk]. *)
Definition chk (e : PortErrChkInner) (tfd : TaskFileData) (lock : CmdLock) (ci : Z) : option Z * PortErrChkInner :=
  if tfd_err tfd =? 0 then (None, e)
  else
    let cmds := Z.lor (err_cmd e) (finished ci 0 lock) in
    if count_ones32 cmds =? 1 then (Some (trailing_zeros32 0), mkErrChk (waiting e) 0 (err_chk e))
    else (None, mkErrChk (waiting e) cmds (Some (trailing_zeros32 cmds))).

Definition is_err (e : PortErrChkInner) : bool := match err_chk e with Some _ => true | None => waiting e end.

(** [PortErrChk::next]. *)
Definition next_chk (e : PortErrChkInner) : outcome (Z * PortErrChkInner) :=
  let n := trailing_zeros32 (err_cmd e) in
  ret ← unwrap (err_chk e);
  Done (ret, mkErrChk (waiting e) (Z.lxor (err_cmd e) (bit32 n)) (Some n)).

(** ** Ports *)
Record Port := mkPort {
  info : HbaInfo; known_state : PortState; identity : option DevIdentity; port : PortControl; cmd_tables : list (option CommandTable);
  active_cmd_fut : list (option nat); cmd_lock : CmdLock; cmd_queue : list nat; p_err : PortErrChkInner; futures : gmap nat CmdData; p_supply : list Z }.

Definition with_regs (r : PortControl) (p : Port) : Port :=
  mkPort (info p) (known_state p) (identity p) r (cmd_tables p) (active_cmd_fut p) (cmd_lock p) (cmd_queue p) (p_err p) (futures p) (p_supply p).
Definition with_tables (t : list (option CommandTable)) (s : list Z) (p : Port) : Port :=
  mkPort (info p) (known_state p) (identity p) (port p) t (active_cmd_fut p) (cmd_lock p) (cmd_queue p) (p_err p) (futures p) s.
Definition with_active (a : list (option nat)) (p : Port) : Port :=
  mkPort (info p) (known_state p) (identity p) (port p) (cmd_tables p) a (cmd_lock p) (cmd_queue p) (p_err p) (futures p) (p_supply p).
Definition with_lock (l : CmdLock) (p : Port) : Port :=
  mkPort (info p) (known_state p) (identity p) (port p) (cmd_tables p) (active_cmd_fut p) l (cmd_queue p) (p_err p) (futures p) (p_supply p).
Definition with_queue (q : list nat) (p : Port) : Port :=
  mkPort (info p) (known_state p) (identity p) (port p) (cmd_tables p) (active_cmd_fut p) (cmd_lock p) q (p_err p) (futures p) (p_supply p).
Definition with_err (e : PortErrChkInner) (p : Port) : Port :=
  mkPort (info p) (known_state p) (identity p) (port p) (cmd_tables p) (active_cmd_fut p) (cmd_lock p) (cmd_queue p) e (futures p) (p_supply p).
Definition with_futures (f : gmap nat CmdData) (p : Port) : Port :=
  mkPort (info p) (known_state p) (identity p) (port p) (cmd_tables p) (active_cmd_fut p) (cmd_lock p) (cmd_queue p) (p_err p) f (p_supply p).
Definition with_known (s : PortState) (p : Port) : Port :=
  mkPort (info p) s (identity p) (port p) (cmd_tables p) (active_cmd_fut p) (cmd_lock p) (cmd_queue p) (p_err p) (futures p) (p_supply p).
Definition with_identity (i : option DevIdentity) (p : Port) : Port :=
  mkPort (info p) (known_state p) i (port p) (cmd_tables p) (active_cmd_fut p) (cmd_lock p) (cmd_queue p) (p_err p) (futures p) (p_supply p).

Definition on_future (f : CmdData -> CmdData) (c : nat) (p : Port) : Port := with_futures (alter f c (futures p)) p.

Inductive exec := Started (slot : option Z) (p : Port) | Blocked (p : Port).

(** [self.active_cmd_fut[n].lock().take().unwrap()]. *)
Definition take_active (p : Port) (n : Z) : outcome (nat * Port) :=
  o ← unwrap (active_cmd_fut p !! Z.to_nat n);
  c ← unwrap o; Done (c, with_active (<[Z.to_nat n := None]> (active_cmd_fut p)) p).

Section Driver.
Context `{FO : FlagOps}.
Context (translate_ptr : Z -> outcome (option Z)).

(** [Port::new]; [list_addr] is the translation of the address of the command headers. *)
Definition port_new (regs : PortControl) (i : HbaInfo) (list_addr : option Z) (headers : list CommandHeader) (supply : list Z) : outcome Port :=
  r ← cmd_list_new i headers supply;
  let '(tables, supply) := r in
  regs ← set_cmd_table regs list_addr;
  s ← get_port_state regs;
  Done (mkPort i s None regs tables (replicate 32 None) cmd_lock_new [] err_chk_new ∅ supply).

Definition enable (p : Port) (state : bool) : Port := with_regs (port_start (port p) state) p.

Definition construct_future (cmd : ComposedCommand) (buff : option (Z * Z)) : CmdData := mkCmd cmd Waiting buff false false 0.

(** The end of [exec_cmd], after [tfd_wait]. *)
Definition exec_finish (p : Port) (slot : Z) (nqc : bool) : outcome exec :=
  r ← (if nqc then port_exec_nqc (port p) slot else port_exec_cmd (port p) slot);
  l ← full_lock (cmd_lock p) slot;
  Done (Started (Some slot) (with_lock l (with_regs r p))).

Definition exec_cmd (p : Port) (c : nat) : outcome exec :=
  if is_err (p_err p) then Done (Started None p)
  else
    match get_cmd (cmd_lock p) with
    | (None, _) => Done (Started None p)
    | (Some slot, l) =>
        let p := with_lock l p in
        d ← unwrap (futures p !! c);
        r ← compile_fis (c_cmd d);
        match r with
        | None => match identity p with None => Done (Blocked p) | Some _ => Panic end
        | Some (fis, nqc) =>
            let p := on_future (with_nqc nqc) c p in
            t ← unwrap (cmd_tables p !! Z.to_nat slot);
            t ← unwrap t;
            r ← send_fis translate_ptr t fis (c_buff d) (p_supply p);
            match r with
            | None => Done (Blocked p)
            | Some (Err _) => Panic
            | Some (Ok (t, supply)) =>
                let p := with_tables (<[Z.to_nat slot := Some t]> (cmd_tables p)) supply p in
                let p := with_active (<[Z.to_nat slot := Some c]> (active_cmd_fut p)) p in
                if tfd_idle (port p) then exec_finish p slot nqc else Done (Blocked p)
            end
        end
    end.

(** [Port::complete]. *)
Definition complete (p : Port) : Z := finished (get_ci (port p)) 0 (cmd_lock p).

Definition chk_complete (p : Port) (cmd : Z) : outcome bool :=
  s ← unwrap (cmd_lock p !! Z.to_nat cmd);
  Done (bool_decide (s = Running) && (Z.land (cmd_state (port p)) (bit cmd) =? 0)).

Definition err_refresh (p : Port) : outcome Port :=
  let e := p_err p in
  if negb (get_ci (port p) =? 0) then Done (with_err (mkErrChk true (err_cmd e) (err_chk e)) p)
  else
    let p := with_err (mkErrChk false (err_cmd e) (err_chk e)) p in
    let done := trailing_zeros32 (complete p) in
    let status := tfd_status (task_file_data (port p)) in
    r ← take_active p done;
    let '(c, p) := r in
    let p := on_future (if status =? 0 then ready else err (DevErr status)) c p in
    r ← next_chk (p_err p);
    let '(n, e) := r in
    let p := with_err e p in
    o ← unwrap (active_cmd_fut p !! Z.to_nat n);
    c ← unwrap o;
    d ← unwrap (futures p !! c);
    regs ← (if c_nqc d then port_exec_nqc (port p) n else port_exec_cmd (port p) n);
    Done (with_regs regs p).

(** The loop of [refresh_exec] over the slots. *)
Fixpoint refresh_loop (slots : list nat) (p : Port) : outcome exec :=
  match slots with
  | [] => Done (Started None p)
  | i :: slots =>
      b ← chk_complete p (Z.of_nat i);
      if (b : bool) then
        r ← take_active p (Z.of_nat i);
        let '(c, p) := r in
        let p := with_lock (free (cmd_lock p) (Z.of_nat i)) (on_future ready c p) in
        match cmd_queue p with
        | c :: q =>
            x ← exec_cmd (with_queue q p) c;
            match x with Started _ p => refresh_loop slots p | Blocked p => Done (Blocked p) end
        | [] => refresh_loop slots p
        end
      else refresh_loop slots p
  end.

Definition refresh_exec (p : Port) : outcome exec :=
  if is_err (p_err p) then p ← err_refresh p; Done (Started None p)
  else
    let tfd := task_file_data (port p) in
    let '(r, e) := chk (p_err p) tfd (cmd_lock p) (get_ci (port p)) in
    let p := with_err e p in
    p ← (match r with
         | Some n => x ← take_active p n; let '(c, p) := x in Done (on_future (err (DevErr (tfd_err tfd))) c p)
         | None => Done p
         end);
    if is_err (p_err p) then p ← err_refresh p; Done (Started None p)
    else refresh_loop (seq 0 (Z.to_nat (info_queue_depth (info p)))) p.

Definition queue_command (p : Port) (c : nat) : outcome exec := refresh_exec (with_queue (cmd_queue p ++ [c]) p).

(** [issue_cmd] up to the point where it awaits the future [c]. *)
Definition issue_cmd (p : Port) (c : nat) (cmd : ComposedCommand) (buff : option (Z * Z)) : outcome exec :=
  let p := with_futures (<[c := construct_future cmd buff]> (futures p)) p in
  r ← exec_cmd p c;
  match r with
  | Started None p => queue_command p c
  | _ => Done r
  end.

(** [get_identity] of an identity that is known, and when the buffer of [IDENTIFY_DEVICE] has arrived. *)
Definition store_identity (p : Port) (data : list Z) : Port := with_identity (Some (dev_identity_from data)) p.

(** ** Interrupts *)
Definition int_clear (p : Port) (int : Z) : Port := with_regs (clear_is (port p) int) p.

Definition abandon (o : option nat) (f : gmap nat CmdData) : gmap nat CmdData :=
  match o with Some c => alter (err Disowned) c f | None => f end.
Definition abandon_cmd (p : Port) : Port :=
  let f := foldl (fun f o => abandon o f) (futures p) (active_cmd_fut p) in
  let f := foldl (fun f c => alter (err Disowned) c f) f (cmd_queue p) in
  with_queue [] (with_active (const None <$> active_cmd_fut p) (with_futures f p)).

(** [state_update]: every state in which a device is present ends in [todo!]. *)
Definition state_update (p : Port) : outcome Port :=
  s ← get_port_state (port p);
  match s with
  | NoPort => Done (with_known NoPort (abandon_cmd p))
  | NotImplemented | Cold | Warm | Hot => Panic
  end.

(** The retry of all commands after an error of the interface. *)
Fixpoint retry_all (i : Z) (l : CmdLock) (r : PortControl) : PortControl :=
  match l with
  | [] => r
  | s :: l => retry_all (i + 1) l (set_ci r (if bool_decide (s = Running) then bit i else 0))
  end.

Definition handle_int (p : Port) : outcome (bool * Port) :=
  let status := interrupt_status (port p) in
  if intersects status (ints [COLD_PORT_DETECT; DEVICE_MECHANICAL_PRESENCE; PORT_CONNECT_CHANGE]) then
    p ← state_update (int_clear p all_ints); Done (false, p)
  else
    let p :=
      if contains status (int_bit INTERFACE_FATAL) then
        let p := int_clear p (int_bit INTERFACE_FATAL) in
        let p := with_regs (retry_all 0 (cmd_lock p) (port p)) p in
        int_clear p (ints [INTERFACE_FATAL; DESCRIPTOR_PROCESSED; TASK_FILE_ERROR; INTERFACE_NON_FATAL; DMA_SETUP_FIS; OVERFLOW])
      else p in
    if contains status (int_bit TASK_FILE_ERROR) then
      p ← err_refresh p;
      Done (false, int_clear p (ints [TASK_FILE_ERROR; DEV_TO_HOST_FIS; PIO_SETUP_FIS]))
    else
      let chk := ints [DEV_TO_HOST_FIS; PIO_SETUP_FIS; DMA_SETUP_FIS] in
      Done (intersects status chk, int_clear p chk).

Definition update (p : Port) : outcome exec :=
  r ← handle_int p;
  if (r.1 : bool) then refresh_exec r.2 else Done (Started None r.2).

(** [Port::set_int_enable]: the flags that are not allowed, or the port with the flags enabled. *)
Definition set_int_enable (p : Port) (ie : Z) : result Port Z :=
  let cold := contains ie (int_bit COLD_PORT_DETECT) && negb (contains (cmd_status (port p)) (comm_bit COLD_PRESENCE_DETECTION)) in
  let mech := contains ie (int_bit DEVICE_MECHANICAL_PRESENCE) && negb (mech_presence_switch (info p)) in
  match cold, mech with
  | false, false => Ok (with_regs (write_ie (port p) ie) p)
  | true, false => Err (int_bit COLD_PORT_DETECT)
  | false, true => Err (int_bit DEVICE_MECHANICAL_PRESENCE)
  | true, true => Err (Z.lor (int_bit COLD_PORT_DETECT) (int_bit DEVICE_MECHANICAL_PRESENCE))
  end.

(** The retry of [AhciDriver::start] until no forbidden flag is left. *)
Fixpoint enable_ints (fuel : nat) (p : Port) (ie : Z) : option Port :=
  match fuel with
  | O => None
  | S fuel => match set_int_enable p ie with Ok p => Some p | Err b => enable_ints fuel p (flag_set ie b false) end
  end.

(** ** The host bus adapter *)
Record AbstractHba := mkHba { h_info : HbaInfo; general : GeneralControl; ports : list (option Port); state : list PortState }.

(** Ports the controller implements; [regs] are the ports in the register region. *)
Fixpoint ports_new (general : GeneralControl) (i : HbaInfo) (n : Z) (regs : list (PortControl * option Z * list CommandHeader * list Z)) :
    outcome (list (option Port)) :=
  match regs with
  | [] => Done []
  | (r, a, h, s) :: regs =>
      b ← check_port general n;
      p ← (if (b : bool) then p ← port_new r i a h s; Done (Some p) else Done None);
      l ← ports_new general i (n + 1) regs;
      Done (p :: l)
  end.

Definition start_port (p : Port) : Port := enable (int_clear p all_ints) true.

(** [update_state]: the state of ports that are not implemented does not change. *)
Fixpoint update_state (ports : list (option Port)) (state : list PortState) : outcome (list PortState) :=
  match ports, state with
  | p :: ports, s :: state =>
      s ← (match p with Some p => get_port_state (port p) | None => Done s end);
      l ← update_state ports state; Done (s :: l)
  | _, _ => Done []
  end.

Definition hba_new (g : GeneralControl) (firmware : Z -> Z) (addr : Z) (regs : list (PortControl * option Z * list CommandHeader * list Z)) :
    outcome (option AbstractHba) :=
  match claim_from_firmware firmware g with
  | None => Done None
  | Some g =>
      let i := from_general g addr in
      l ← ports_new g i 0 regs;
      let l := (option_map start_port <$> l) ++ replicate (32 - length l) None in
      s ← update_state l (replicate 32 NotImplemented);
      Done (Some (mkHba i g l s))
  end.

(** [chk_ports]: the loop leaves [t] without the bits it has seen, and with bit 0 flipped by the last
    shift, by 32; that is the mask it clears. *)
Fixpoint chk_loop (fuel : nat) (ps : list (option Port)) (t : Z) : outcome (option (Z * list (option Port))) :=
  match fuel with
  | O => Done None
  | S fuel =>
      let i := trailing_zeros32 t in
      let t := Z.lxor t (bit32 i) in
      if i =? 32 then Done (Some (t, ps))
      else
        o ← unwrap (ps !! Z.to_nat i);
        p ← unwrap o;
        x ← update p;
        match x with
        | Started _ p => chk_loop fuel (<[Z.to_nat i := Some p]> ps) t
        | Blocked _ => Done None
        end
  end.

Definition chk_ports (h : AbstractHba) : outcome (option AbstractHba) :=
  r ← chk_loop 33 (ports h) (int_status (general h));
  Done (match r with
        | None => None
        | Some (t, ps) => Some (mkHba (h_info h) (clear_int (general h) t) ps (state h))
        end).

(** ** The character device *)
Definition len_bytes (id : DevIdentity) : Z := (lba_size id ⊗ lba_count id)%u64.

(** [op_sanity_check]; [owner] is whether this file object holds the lock. *)
Definition op_sanity_check (id : DevIdentity) (owner : bool) (pos len : Z) : outcome (result Z IoError) :=
  if negb owner then Done (Err Exclusive)
  else
    assert_that (negb (lba_size id =? 0));;
    if negb (pos mod lba_size id =? 0) then Done (Err InvalidData)
    else
      let this_len := len_bytes id in
      if this_len <? pos then Done (Err EndOfFile)
      else if negb (len mod lba_size id =? 0) then Done (Err InvalidData)
      else
        let end_ := (len ⊕ pos)%u64 in
        Done (Ok (if this_len <? end_ then (len ⊖ (end_ ⊖ this_len))%u64 else len)).

(** [Read::read] and [Write::write] up to the command that is issued: its command, or the error of the file. *)
Definition file_command (write : bool) (id : DevIdentity) (owner : bool) (pos len : Z) : outcome (result (ComposedCommand * Z) IoError) :=
  r ← op_sanity_check id owner pos len;
  match r with
  | Err e => Done (Err e)
  | Ok n =>
      sector ← unwrap (sector_address_new (pos / lba_size id));
      r ← (if write then write_command id sector len else read_command id sector len);
      match r with
      | Err _ => Done (Err DeviceError)
      | Ok c => Done (Ok (c, n))
      end
  end.

(** The answer of the file to the result of the command. *)
Definition file_result (n : Z) (r : Poll) : option (result Z IoError) :=
  match r with
  | Pending => None
  | ReadyOk _ => Some (Ok n)
  | ReadyErr _ (DevErr _) | ReadyErr _ Disowned => Some (Err MediaError)
  | ReadyErr _ _ => Some (Err DeviceError)
  end.

End Driver.

(** ** The slots as a pool *)
Definition lock_of (o : option nat) : CmdLockState := match o with Some _ => Running | None => Unlocked end.

Lemma get_cmd_full (a : list (option nat)) : Forall is_Some a -> get_cmd (lock_of <$> a) = (None, lock_of <$> a).
Proof. induction 1 as [|o a [c ->] _ IH]; [done|]. cbn. by rewrite IH. Qed.

Lemma get_cmd_free (a : list (option nat)) i : a !! i = Some None -> Forall is_Some (take i a) ->
  get_cmd (lock_of <$> a) = (Some (Z.of_nat i), <[i := Setup]> (lock_of <$> a)).
Proof.
  revert i. induction a as [|o a IH]; intros i Hi Hf; [done|]. destruct i as [|i]; cbn in *.
  - injection Hi as ->. done.
  - inversion Hf as [|? ? [c ->] Hf']; subst. cbn. rewrite (IH i) by done. cbn. by rewrite Nat2Z.inj_succ.
Qed.

Lemma first_free (a : list (option nat)) : ~ Forall is_Some a -> exists i, a !! i = Some None /\ Forall is_Some (take i a).
Proof.
  induction a as [|o a IH]; intros H; [by destruct H|]. destruct o as [c|]; [|by exists 0%nat]. destruct IH as (i & Hi & Hf).
  - intros Ha. apply H. by constructor.
  - exists (S i). split; [done|]. cbn. by constructor.
Qed.

Lemma testbit_bit (i j : nat) : Z.testbit (bit (Z.of_nat i)) (Z.of_nat j) = bool_decide (j = i).
Proof. rewrite bit_test by lia. apply bool_decide_ext. lia. Qed.

Lemma bit32_nat i : (i < 32)%nat -> bit32 (Z.of_nat i) = bit (Z.of_nat i).
Proof. intros Hi. unfold bit32. by rewrite Z.mod_small by lia. Qed.

(** What the slot and the queue hold after [refresh_exec]: a slot whose command has ended takes the
    next command of the queue. *)
Fixpoint refill (ci : Z) (i : Z) (a : list (option nat)) (q : list nat) : list (option nat) * list nat * list nat :=
  match a with
  | [] => ([], q, [])
  | o :: a =>
      match o with
      | Some c =>
          if Z.testbit ci i then let '(a', q', d) := refill ci (i + 1) a q in (Some c :: a', q', d)
          else let '(a', q', d) := refill ci (i + 1) a (tail q) in (head q :: a', q', c :: d)
      | None => let '(a', q', d) := refill ci (i + 1) a q in (None :: a', q', d)
      end
  end.

Ltac port_simpl :=
  cbn [info known_state identity port cmd_tables active_cmd_fut cmd_lock cmd_queue p_err futures p_supply
       with_regs with_tables with_active with_lock with_queue with_err with_futures with_known with_identity on_future].

Section Pool.
Context `{FO : FlagOps} {FL : FlagLaws}.
Context (translate_ptr : Z -> outcome (option Z)).

(** A command table with room for 64 regions, and a buffer with at most that many, each of which fits an entry. *)
Definition table_ok (o : option CommandTable) : Prop :=
  exists u, o = Some u /\ 64 <= table_size u /\ 64 <= table_len (table u).
Definition buffer_ok (b : option (Z * Z)) : Prop :=
  match b with
  | None => True
  | Some (ptr, len) =>
      Z.land len 1 = 0 /\ exists l, buffer_regions translate_ptr ptr len = Done (Some l) /\ (length l <= 64)%nat /\
        Forall (fun r => 0 < size r <= 0x40000 /\ Z.even (size r) = true) l
  end.
Definition command_ok (d : CmdData) : Prop :=
  buffer_ok (c_buff d) /\ exists fis, compile_fis (c_cmd d) = Done (Some (fis, false)) /\ is_Some (result_ok (ata_try_from (fis_command fis))).

Lemma fill_prdt_ok l : forall i t, 0 <= i -> i + Z.of_nat (length l) <= Z.of_nat (length t) -> i + Z.of_nat (length l) <= 0x10000 ->
  Forall (fun r => 0 < size r <= 0x40000 /\ Z.even (size r) = true) l ->
  exists t', fill_prdt i l t = Done t' /\ length t' = length t /\ (forall k, Z.of_nat k < i -> t' !! k = t !! k) /\
    (forall k r, l !! k = Some r -> t' !! (Z.to_nat i + k)%nat = Some (mkPrd (addr r) (size r - 1))).
Proof.
  induction l as [|r l IH]; intros i t Hi Hl Hm Hf; cbn [fill_prdt].
  - exists t. split_and!; done.
  - inversion Hf as [|? ? [Hr1 Hr2] Hf']; subst. cbn [length] in *. rewrite (proj2 (Z.ltb_ge 0xffff i)) by lia. rewrite Z.mod_small by lia.
    rewrite prd_entry_spec by lia. rewrite (proj2 (Z.leb_le _ _)) by lia. rewrite Hr2. cbn [andb mbind outcome_bind unwrap].
    rewrite (proj2 (Z.ltb_lt _ _)) by lia. cbn [assert_that mbind outcome_bind].
    destruct (IH (i + 1) (<[Z.to_nat i := mkPrd (addr r) (size r - 1)]> t)) as (t' & H1 & H2 & H3 & H4); [lia|rewrite length_insert; lia|lia|done|].
    rewrite length_insert in H2. exists t'. split; [done|]. split; [done|]. split.
    + intros k Hk. rewrite H3 by lia. apply list_lookup_insert_ne. lia.
    + intros [|k] r' Hk; cbn in Hk.
      * injection Hk as <-. rewrite Nat.add_0_r, H3 by lia. apply list_lookup_insert_eq. lia.
      * rewrite <- (H4 k r' Hk). f_equal. lia.
Qed.

(** The table that [send_fis] leaves for a buffer of few regions. *)
Lemma send_fis_ok u fis ptr len supply l cmd :
  table_ok (Some u) -> Z.land len 1 = 0 -> buffer_regions translate_ptr ptr len = Done (Some l) -> (length l <= 64)%nat ->
  Forall (fun r => 0 < size r <= 0x40000 /\ Z.even (size r) = true) l -> ata_try_from (fis_command fis) = Ok cmd ->
  exists u', send_fis translate_ptr u fis (Some (ptr, len)) supply = Done (Some (Ok (u', supply))) /\ table_ok (Some u') /\
    physical_region_table_len (parent u') = Z.of_nat (length l) /\
    (forall k r, l !! k = Some r -> prdt (table u') !! k = Some (mkPrd (addr r) (size r - 1))) /\
    Done (command_fis (table u')) = send_cmd (command_fis (table u)) fis /\
    Z.testbit (description_info (parent u')) 6 = is_write cmd.
Proof using FL.
  intros (u0 & [= <-] & Ht1 & Ht2) Hlen Hr Hn Hf Hc. unfold send_fis, build_prdt. rewrite Hlen. cbn [Z.eqb negb]. rewrite Hr. cbn [mbind outcome_bind].
  rewrite (proj2 (Z.ltb_ge 0xffff _)), (proj2 (Z.ltb_ge (table_len _) _)) by lia. unfold set_len. rewrite (proj2 (Z.ltb_ge (table_size u) _)) by lia. cbn [mbind outcome_bind table parent].
  unfold table_len in Ht2. destruct (fill_prdt_ok l 0 (prdt (table u))) as (t' & -> & H2 & _ & H4); [lia|lia|lia|done|]. cbn [mbind outcome_bind parent table table_size command_fis prdt].
  unfold set_fis_len, set_command_fis_len. cbn [description_info assert_that mbind outcome_bind]. rewrite Hc. cbn [result_ok unwrap mbind outcome_bind].
  destruct (send_cmd (command_fis (table u)) fis) as [b|] eqn:Hs; [|exfalso; revert Hs; unfold send_cmd, fis_set_port; cbn; done]. cbn [mbind outcome_bind].
  eexists. split; [done|]. split.
  { eexists. split; [done|]. cbn [table_size table]. split; [done|]. unfold table_len. cbn [prdt]. rewrite H2. done. }
  split; [by destruct (negb (is_nqc cmd) && _)|]. split; [done|]. split; [done|]. cbn [parent].
  assert (forall w, Z.testbit (flag_set (flag_set w (desc_bit WRITE) (is_write cmd)) (desc_bit PREFETCHABLE) true) 6 = is_write cmd /\ Z.testbit (flag_set w (desc_bit WRITE) (is_write cmd)) 6 = is_write cmd) as Hb.
  { intros w. cbn [desc_bit]. split; rewrite !flag_set_test by lia; [rewrite decide_False by lia|]; by rewrite decide_True. }
  destruct (negb (is_nqc cmd) && _); cbn [description_info set_prefetch set_write]; apply Hb.
Qed.

(** C30. What the controller is given for a command describes its buffer.  For every non-empty buffer of at most 63 pages that is
    mapped page by page, in either half of the address space, and begins and ends on a word, the header counts the regions of physical memory that hold the
    bytes of the buffer in order, entry by entry the table has their addresses and lengths, less one
    as the hardware wants it, the frame is in place, and the header tells the direction.  The table has the 64 entries it
    is made with, and the offset of the buffer in its first page is at most its length, or it does not leave that page. *)
Theorem command_describes_buffer u fis frame ptr len supply cmd :
  table_ok (Some u) -> backed translate_ptr frame ptr len -> starts_well ptr len 0 -> (2 ^ 1 | ptr) -> (2 ^ 1 | len) -> len <= 63 * 4096 ->
  ata_try_from (fis_command fis) = Ok cmd ->
  exists u' l, send_fis translate_ptr u fis (Some (ptr, len)) supply = Done (Some (Ok (u', supply))) /\
    regions_at translate_ptr ptr len 0 l /\ physical_region_table_len (parent u') = Z.of_nat (length l) /\
    (forall k r, l !! k = Some r -> prdt (table u') !! k = Some (mkPrd (addr r) (size r - 1))) /\
    Done (command_fis (table u')) = send_cmd (command_fis (table u)) fis /\
    Z.testbit (description_info (parent u')) 6 = is_write cmd.
Proof using FL.
  intros Ht Hb Hw Hp Hl Hm Hc. destruct (buffer_regions_fit _ _ _ _ Hb Hw Hp Hl Hm) as (l & H1 & H2 & H3 & H4).
  assert (Z.land len 1 = 0) as He.
  { change 1 with (2 ^ 1 - 1). rewrite land_mask by lia. by apply Z.mod_divide. }
  destruct (send_fis_ok u fis ptr len supply l cmd Ht He H1 H3 H4 Hc) as (u' & G1 & _ & G2 & G3 & G4 & G5). exists u', l. by split_and!.
Qed.

(** The part of a port that the pool is about. *)
Record pool (p : Port) : Prop := {
  pl_depth : info_queue_depth (info p) = 32;
  pl_len : length (active_cmd_fut p) = 32%nat;
  pl_lock : cmd_lock p = lock_of <$> active_cmd_fut p;
  pl_tables : length (cmd_tables p) = 32%nat /\ Forall table_ok (cmd_tables p);
  pl_err : p_err p = err_chk_new;
  pl_idle : tfd_idle (port p) = true /\ tfd_err (task_file_data (port p)) = 0;
  pl_ci : forall i, Z.testbit (command_issue (port p)) (Z.of_nat i) = true -> exists c, active_cmd_fut p !! i = Some (Some c);
  pl_nodup : NoDup (omap id (active_cmd_fut p) ++ cmd_queue p);
  pl_wait : forall c, c ∈ omap id (active_cmd_fut p) ++ cmd_queue p -> exists d, futures p !! c = Some d /\ c_state d = Waiting /\ command_ok d;
  pl_kept : forall c d, futures p !! c = Some d -> c_state d = Waiting -> c ∈ omap id (active_cmd_fut p) ++ cmd_queue p;
  pl_busy : cmd_queue p <> [] -> Forall is_Some (active_cmd_fut p);
}.

Lemma send_fis_fits d fis u supply : buffer_ok (c_buff d) -> is_Some (result_ok (ata_try_from (fis_command fis))) -> table_ok (Some u) ->
  exists u', send_fis translate_ptr u fis (c_buff d) supply = Done (Some (Ok (u', supply))) /\ table_ok (Some u').
Proof using FL.
  intros Hb [cmd Hc] Ht. assert (ata_try_from (fis_command fis) = Ok cmd) as Hc' by (destruct (ata_try_from (fis_command fis)); cbn in Hc; congruence).
  destruct (c_buff d) as [[ptr len]|].
  - destruct Hb as (H1 & l & H2 & H3 & H4). destruct (send_fis_ok u fis ptr len supply l cmd Ht H1 H2 H3 H4 Hc') as (u' & G1 & G2 & _). by exists u'.
  - unfold send_fis. cbn [mbind outcome_bind]. unfold set_fis_len, set_command_fis_len. cbn [assert_that mbind outcome_bind Z.ltb Z.compare Z.div].
    destruct Ht as (u0 & [= <-] & T1 & T2). rewrite Hc. cbn. eexists. split; [done|]. eexists. split; [done|]. done.
Qed.

(** [exec_cmd] takes the first free slot. *)
Lemma exec_cmd_free p c d i :
  info_queue_depth (info p) = 32 -> length (active_cmd_fut p) = 32%nat -> cmd_lock p = lock_of <$> active_cmd_fut p ->
  length (cmd_tables p) = 32%nat -> Forall table_ok (cmd_tables p) -> p_err p = err_chk_new -> tfd_idle (port p) = true ->
  Z.testbit (command_issue (port p)) (Z.of_nat i) = false -> active_cmd_fut p !! i = Some None -> Forall is_Some (take i (active_cmd_fut p)) ->
  futures p !! c = Some d -> command_ok d ->
  exists t, exec_cmd translate_ptr p c =
      Done (Started (Some (Z.of_nat i))
        (mkPort (info p) (known_state p) (identity p) (with_ci (Z.lor (command_issue (port p)) (bit (Z.of_nat i))) (port p)) (<[i := Some t]> (cmd_tables p))
          (<[i := Some c]> (active_cmd_fut p)) (<[i := Running]> (cmd_lock p)) (cmd_queue p) (p_err p) (alter (with_nqc false) c (futures p)) (p_supply p))) /\
    table_ok (Some t).
Proof using FL.
  intros Hd Hl Hlk Htl Ht He Hi Hci Ha Hf Hc (Hb & fis & Hfis & Hcode). unfold exec_cmd. rewrite He. cbn [is_err err_chk err_chk_new waiting]. rewrite Hlk.
  rewrite (get_cmd_free _ i) by done. cbn [futures with_lock]. rewrite Hc. cbn [unwrap mbind outcome_bind]. rewrite Hfis. cbn [mbind outcome_bind].
  assert (i < 32)%nat as Hi32 by (rewrite <- Hl; by apply lookup_lt_Some in Ha).
  destruct (cmd_tables p !! i) as [o|] eqn:Eo; [|apply lookup_ge_None in Eo; lia]. assert (table_ok o) as Hto by (by eapply Forall_lookup_1).
  destruct (Hto) as (u & -> & _). rewrite Nat2Z.id. port_simpl. rewrite Eo. cbn [unwrap mbind outcome_bind].
  destruct (send_fis_fits d fis u (p_supply p) Hb Hcode Hto) as (u' & -> & Hu'). cbn [mbind outcome_bind]. port_simpl. rewrite Hi.
  unfold exec_finish, port_exec_cmd, issue, full_lock. port_simpl. rewrite bit32_nat, land_bit_zero, Hci by lia. cbn [negb assert_that mbind outcome_bind].
  rewrite Nat2Z.id. rewrite list_lookup_insert_eq by (rewrite length_fmap; lia). cbn [unwrap mbind outcome_bind]. rewrite bool_decide_eq_true_2 by done. cbn [assert_that mbind outcome_bind].
  rewrite list_insert_insert_eq. 
  exists u'. split; [|done]. unfold with_lock, with_regs, with_active, with_tables, on_future, with_futures. port_simpl. by rewrite He.
Qed.

Lemma exec_cmd_full p c : p_err p = err_chk_new -> cmd_lock p = lock_of <$> active_cmd_fut p -> Forall is_Some (active_cmd_fut p) -> exec_cmd translate_ptr p c = Done (Started None p).
Proof. intros He Hl Hf. unfold exec_cmd. rewrite He. cbn [is_err err_chk err_chk_new waiting]. by rewrite Hl, get_cmd_full. Qed.

Lemma omap_take_out (a : list (option nat)) i c : a !! i = Some (Some c) -> omap id a ≡ₚ c :: omap id (<[i := None]> a).
Proof.
  revert i. induction a as [|o a IH]; intros i Hi; [done|]. destruct i as [|i]; cbn in *; [by injection Hi as ->|].
  destruct o as [x|]; cbn; [rewrite (IH i Hi); apply Permutation_swap|by apply IH].
Qed.

Lemma omap_put (a : list (option nat)) i x : a !! i = Some None -> omap id (<[i := Some x]> a) ≡ₚ x :: omap id a.
Proof.
  revert i. induction a as [|o a IH]; intros i Hi; [done|]. destruct i as [|i]; cbn in *; [by injection Hi as ->|].
  destruct o as [y|]; cbn; [rewrite (IH i Hi); apply Permutation_swap|by apply IH].
Qed.

(** A slot whose command [c] has ended takes the next command of the queue. *)
Lemma omap_next (a : list (option nat)) i c q : a !! i = Some (Some c) -> omap id a ++ q ≡ₚ c :: omap id (<[i := head q]> a) ++ tail q.
Proof.
  intros Hi. rewrite (omap_take_out a i c Hi). destruct q as [|x q]; cbn [head tail]; [done|].
  assert (<[i := None]> a !! i = Some None) as Hn by (apply list_lookup_insert_eq; by apply lookup_lt_Some in Hi).
  pose proof (omap_put _ i x Hn) as Hp. rewrite list_insert_insert_eq in Hp. rewrite Hp. cbn [app]. apply Permutation_skip. symmetry. apply Permutation_middle.
Qed.

(** Who waits, after [c] has been completed. *)
Lemma waiting_after (l l' : list nat) (f f' : gmap nat CmdData) c :
  l ≡ₚ c :: l' -> NoDup l -> (forall x, x ∈ l -> exists d, f !! x = Some d /\ c_state d = Waiting /\ command_ok d) ->
  (forall x d, f !! x = Some d -> c_state d = Waiting -> x ∈ l) ->
  (forall x d, x <> c -> f !! x = Some d -> exists d', f' !! x = Some d' /\ c_state d' = c_state d /\ c_cmd d' = c_cmd d /\ c_buff d' = c_buff d) ->
  (forall x d, f' !! x = Some d -> c_state d = Waiting -> x <> c /\ exists d0, f !! x = Some d0 /\ c_state d0 = Waiting) ->
  NoDup l' /\ (forall x, x ∈ l' -> exists d, f' !! x = Some d /\ c_state d = Waiting /\ command_ok d) /\ (forall x d, f' !! x = Some d -> c_state d = Waiting -> x ∈ l').
Proof.
  intros Hp Hnd Hw Hk Hf Hb. rewrite Hp in Hnd. apply NoDup_cons in Hnd as [Hc Hnd]. split; [done|]. split.
  - intros x Hx. destruct (Hw x) as (d & H1 & H2 & H3); [rewrite Hp; by right|]. destruct (Hf x d) as (d' & G1 & G2 & G3 & G4); [by intros ->|done|].
    exists d'. split; [done|]. split; [congruence|]. unfold command_ok. by rewrite G3, G4.
  - intros x d Hx Hs. destruct (Hb x d Hx Hs) as (Hne & d0 & H1 & H2). specialize (Hk x d0 H1 H2). rewrite Hp in Hk. apply elem_of_cons in Hk as [->|Hk]; done.
Qed.

Lemma lock_of_insert (a : list (option nat)) i o : <[i := lock_of o]> (lock_of <$> a) = lock_of <$> <[i := o]> a.
Proof. symmetry. apply list_fmap_insert. Qed.

(** One turn of the loop at a slot whose command has ended. *)
Lemma refresh_ended p i c : pool p -> active_cmd_fut p !! i = Some (Some c) -> Z.testbit (command_issue (port p)) (Z.of_nat i) = false ->
  exists p', (forall l, refresh_loop translate_ptr (i :: l) p = refresh_loop translate_ptr l p') /\ pool p' /\
    active_cmd_fut p' = <[i := head (cmd_queue p)]> (active_cmd_fut p) /\ cmd_queue p' = tail (cmd_queue p) /\
    (forall j, (i < j)%nat -> Z.testbit (command_issue (port p')) (Z.of_nat j) = Z.testbit (command_issue (port p)) (Z.of_nat j)) /\
    interrupt_status (port p') = interrupt_status (port p) /\
    (c_state <$> futures p' !! c = Some Completed) /\ (forall x, x <> c -> c_state <$> futures p' !! x = c_state <$> futures p !! x).
Proof using FL.
  intros Hp Ha Hci. destruct Hp as [Hd Hl Hlk [Htl Ht] He [Hi Hte] Hcia Hnd Hw Hk Hbusy].
  assert (i < 32)%nat as Hi32 by (rewrite <- Hl; by apply lookup_lt_Some in Ha).
  assert (forall l, refresh_loop translate_ptr (i :: l) p =
    let p1 := with_lock (free (cmd_lock p) (Z.of_nat i)) (on_future ready c (with_active (<[i := None]> (active_cmd_fut p)) p)) in
    match cmd_queue p with
    | x :: q => r ← exec_cmd translate_ptr (with_queue q p1) x; match r with Started _ p => refresh_loop translate_ptr l p | Blocked p => Done (Blocked p) end
    | [] => refresh_loop translate_ptr l p1
    end) as Hbody.
  { intros l. cbn [refresh_loop]. unfold chk_complete, take_active. rewrite Nat2Z.id, Hlk, list_lookup_fmap, Ha. cbn [fmap option_fmap option_map unwrap mbind outcome_bind lock_of].
    rewrite bool_decide_eq_true_2 by done. unfold cmd_state. rewrite land_bit_zero, Hci by lia. cbn [andb negb].
    by rewrite <- Hlk. }
  pose proof (omap_next (active_cmd_fut p) i c (cmd_queue p) Ha) as Hperm.
  destruct (Hw c) as (dc & Hdc & Hsc & _); [rewrite Hperm; by left|].
  unfold free in Hbody. rewrite Hlk in Hbody. rewrite Nat2Z.id in Hbody. rewrite (lock_of_insert (active_cmd_fut p) i None : <[i := Unlocked]> _ = _) in Hbody.
  destruct (cmd_queue p) as [|x q] eqn:Eq.
  - (* nothing waits *)
    eexists. split; [intros l; rewrite (Hbody l); reflexivity|]. cbn zeta.
    destruct (waiting_after _ _ (futures p) (alter ready c (futures p)) c Hperm Hnd Hw Hk) as (W1 & W2 & W3).
    { intros y d Hy Hyd. exists d. by rewrite lookup_alter_ne. }
    { intros y d Hy Hs. destruct (decide (y = c)) as [->|Hne]; [rewrite lookup_alter_eq, Hdc in Hy; cbn in Hy; by injection Hy as <-|].
      rewrite lookup_alter_ne in Hy by done. split; [done|]. by exists d. }
    cbn [head tail] in *. split_and!; port_simpl; try done.
    + split; port_simpl; rewrite ?Eq; try done; [by rewrite length_insert|].
      intros j Hj. destruct (Hcia j Hj) as [y Hy]. exists y. rewrite list_lookup_insert_ne; [done|]. intros ->. congruence.
    + by rewrite lookup_alter_eq, Hdc.
    + intros y Hy. by rewrite lookup_alter_ne.
  - (* the next command starts in this slot *)
    assert (x <> c) as Hxc by (intros ->; rewrite Hperm in Hnd; apply NoDup_cons in Hnd as [Hn _]; apply Hn, elem_of_app; left; cbn [head];
      apply list_elem_of_omap; exists (Some c); split; [|done]; apply list_elem_of_lookup; exists i; apply list_lookup_insert_eq; lia).
    destruct (Hw x) as (dx & Hdx & Hsx & Hox); [apply elem_of_app; right; apply list_elem_of_here|].
    cbn zeta in Hbody. set (p1 := with_queue q _) in Hbody.
    destruct (exec_cmd_free p1 x dx i) as (t & Hex & Htok); unfold p1; port_simpl; try done.
    { by rewrite length_insert. }
    { apply list_lookup_insert_eq. lia. }
    { rewrite take_insert_ge by lia. apply Forall_take. by apply Hbusy. }
    { by rewrite lookup_alter_ne. }
    rewrite Hex in Hbody. cbn [mbind outcome_bind] in Hbody. eexists. split; [exact Hbody|]. unfold p1. clear Hbody Hex p1. port_simpl.
    change Running with (lock_of (Some x)). rewrite lock_of_insert, !list_insert_insert_eq.
    set (f' := alter (with_nqc false) x (alter ready c (futures p))).
    assert (forall y, y <> c -> y <> x -> f' !! y = futures p !! y) as Hfo by (intros y ? ?; unfold f'; by rewrite !lookup_alter_ne by congruence).
    assert (f' !! x = Some (with_nqc false dx)) as Hfx by (unfold f'; rewrite lookup_alter_eq, lookup_alter_ne by done; by rewrite Hdx).
    assert (f' !! c = Some (ready dc)) as Hfc by (unfold f'; rewrite lookup_alter_ne, lookup_alter_eq by done; by rewrite Hdc).
    destruct (waiting_after _ _ (futures p) f' c Hperm Hnd Hw Hk) as (W1 & W2 & W3).
    { intros y d Hy Hyd. destruct (decide (y = x)) as [->|Hne]; [exists (with_nqc false dx); split; [done|]; cbn; naive_solver|]. exists d. by rewrite Hfo. }
    { intros y d Hy Hs. destruct (decide (y = c)) as [->|Hne]; [rewrite Hfc in Hy; by injection Hy as <-|]. split; [done|].
      destruct (decide (y = x)) as [->|Hne2]; [by exists dx|]. rewrite Hfo in Hy by done. by exists d. }
    cbn [head tail] in *. split_and!; try done.
    + split; port_simpl; try done.
      * by rewrite length_insert.
      * split; [by rewrite length_insert|]. by apply Forall_insert.
      * intros j. cbn [command_issue with_ci]. rewrite Z.lor_spec, testbit_bit. intros Hj. destruct (decide (j = i)) as [->|Hne]; [exists x; apply list_lookup_insert_eq; lia|].
        rewrite bool_decide_eq_false_2, orb_false_r in Hj by done. destruct (Hcia j Hj) as [y Hy]. exists y. by rewrite list_lookup_insert_ne by congruence.
      * intros _. apply Forall_insert; [by apply Hbusy|done].
    + intros j Hj. cbn [command_issue with_ci]. rewrite Z.lor_spec, testbit_bit, bool_decide_eq_false_2 by lia. apply orb_false_r.
    + by rewrite Hfc.
    + intros y Hy. destruct (decide (y = x)) as [->|Hne]; [by rewrite Hfx, Hdx|]. by rewrite Hfo.
Qed.

Lemma refresh_skip p i : pool p -> (i < 32)%nat -> (active_cmd_fut p !! i = Some None \/ Z.testbit (command_issue (port p)) (Z.of_nat i) = true) ->
  forall l, refresh_loop translate_ptr (i :: l) p = refresh_loop translate_ptr l p.
Proof.
  intros Hp Hi Hc l. cbn [refresh_loop]. unfold chk_complete. rewrite Nat2Z.id, (pl_lock _ Hp), list_lookup_fmap.
  destruct (active_cmd_fut p !! i) as [o|] eqn:E; [|apply lookup_ge_None in E; rewrite (pl_len _ Hp) in E; lia].
  cbn [fmap option_fmap option_map unwrap mbind outcome_bind]. unfold cmd_state. rewrite land_bit_zero by lia.
  destruct Hc as [[= ->] | ->]; cbn [lock_of]; [by rewrite bool_decide_eq_false_2|]. cbn [negb]. by rewrite andb_false_r.
Qed.

Lemma refill_ext ci ci' i a q : (forall j, i <= j -> Z.testbit ci j = Z.testbit ci' j) -> refill ci i a q = refill ci' i a q.
Proof.
  revert i q. induction a as [|o a IH]; intros i q H; [done|]. cbn [refill]. rewrite (H i) by lia.
  assert (forall q, refill ci (i + 1) a q = refill ci' (i + 1) a q) as E by (intros q'; apply IH; intros j Hj; apply H; lia). by rewrite !E.
Qed.

Lemma take_prefix {A} (l l' : list A) i : take (S i) l = take (S i) l' -> take i l = take i l'.
Proof. intros H. apply (f_equal (take i)) in H. rewrite !take_take in H. by replace (i `min` S i)%nat with i in H by lia. Qed.

(** The loop from slot [i] on. *)
Lemma refresh_loop_refill n i p : pool p -> (i + n = 32)%nat ->
  exists p' done, refresh_loop translate_ptr (seq i n) p = Done (Started None p') /\ pool p' /\ take i (active_cmd_fut p') = take i (active_cmd_fut p) /\
    refill (command_issue (port p)) (Z.of_nat i) (drop i (active_cmd_fut p)) (cmd_queue p) = (drop i (active_cmd_fut p'), cmd_queue p', done) /\
    interrupt_status (port p') = interrupt_status (port p) /\
    (forall c, c ∈ done -> c_state <$> futures p' !! c = Some Completed) /\ (forall c, c ∉ done -> c_state <$> futures p' !! c = c_state <$> futures p !! c).
Proof using FL.
  revert i p. induction n as [|n IH]; intros i p Hp Hin.
  { exists p, []. cbn [seq refresh_loop]. rewrite drop_ge by (rewrite (pl_len _ Hp); lia). cbn [refill]. split_and!; try done. intros c Hc. by apply not_elem_of_nil in Hc. }
  cbn [seq]. assert (i < 32)%nat as Hi by lia. destruct (active_cmd_fut p !! i) as [o|] eqn:Eo; [|apply lookup_ge_None in Eo; rewrite (pl_len _ Hp) in Eo; lia].
  destruct o as [c|]; [destruct (Z.testbit (command_issue (port p)) (Z.of_nat i)) eqn:Eb|].
  - rewrite (refresh_skip p i Hp Hi) by (by right). destruct (IH (S i) p Hp ltac:(lia)) as (p' & done & H1 & H2 & H3 & H4 & H5 & H6 & H7).
    assert (active_cmd_fut p' !! i = Some (Some c)) as Ea. { rewrite <- (lookup_take_lt _ (S i)), H3, lookup_take_lt by lia. done. }
    exists p', done. split; [done|]. split; [done|]. split; [|split; [|done]].
    { by apply take_prefix. }
    rewrite (drop_S _ _ _ Eo), (drop_S _ _ _ Ea). cbn [refill]. rewrite Eb. replace (Z.of_nat i + 1) with (Z.of_nat (S i)) by lia. by rewrite H4.
  - destruct (refresh_ended p i c Hp Eo Eb) as (p1 & R1 & Hp1 & R2 & R3 & R4 & R5 & R6 & R7). rewrite R1.
    destruct (IH (S i) p1 Hp1 ltac:(lia)) as (p' & done & H1 & H2 & H3 & H4 & H5 & H6 & H7).
    assert (active_cmd_fut p' !! i = Some (head (cmd_queue p))) as Ea.
    { rewrite <- (lookup_take_lt _ (S i)), H3, lookup_take_lt by lia. rewrite R2. apply list_lookup_insert_eq. rewrite (pl_len _ Hp). lia. }
    exists p', (c :: done). split; [done|]. split; [done|]. split; [|split; [|split; [congruence|split]]].
    + apply take_prefix in H3. rewrite H3, R2. apply take_insert_ge. lia.
    + rewrite (drop_S _ _ _ Eo), (drop_S _ _ _ Ea). cbn [refill]. rewrite Eb. replace (Z.of_nat i + 1) with (Z.of_nat (S i)) by lia.
      rewrite (refill_ext _ (command_issue (port p1))); [|intros j Hj; rewrite <- (Z2Nat.id j) by lia; symmetry; apply R4; lia].
      rewrite R2, R3 in H4. rewrite drop_insert_lt in H4 by lia. by rewrite H4.
    + intros x Hx. apply elem_of_cons in Hx as [->|Hx]; [|by apply H6]. destruct (decide (c ∈ done)); [by apply H6|]. by rewrite H7.
    + intros x Hx. apply not_elem_of_cons in Hx as [Hx1 Hx2]. rewrite H7, R7 by done. done.
  - rewrite (refresh_skip p i Hp Hi) by (by left). destruct (IH (S i) p Hp ltac:(lia)) as (p' & done & H1 & H2 & H3 & H4 & H5 & H6 & H7).
    assert (active_cmd_fut p' !! i = Some None) as Ea. { rewrite <- (lookup_take_lt _ (S i)), H3, lookup_take_lt by lia. done. }
    exists p', done. split; [done|]. split; [done|]. split; [|split; [|done]].
    { by apply take_prefix. }
    rewrite (drop_S _ _ _ Eo), (drop_S _ _ _ Ea). cbn [refill]. replace (Z.of_nat i + 1) with (Z.of_nat (S i)) by lia. by rewrite H4.
Qed.

(** Without errors [refresh_exec] is the loop over all slots. *)
Lemma refresh_exec_refill p : pool p ->
  exists p' done, refresh_exec translate_ptr p = Done (Started None p') /\ pool p' /\
    refill (command_issue (port p)) 0 (active_cmd_fut p) (cmd_queue p) = (active_cmd_fut p', cmd_queue p', done) /\
    interrupt_status (port p') = interrupt_status (port p) /\
    (forall c, c ∈ done -> c_state <$> futures p' !! c = Some Completed) /\ (forall c, c ∉ done -> c_state <$> futures p' !! c = c_state <$> futures p !! c).
Proof using FL.
  intros Hp. destruct (refresh_loop_refill 32 0 p Hp eq_refl) as (p' & done & H1 & H2 & _ & H4 & H5). rewrite !drop_0 in H4. exists p', done. split; [|done].
  unfold refresh_exec. rewrite (pl_err _ Hp). cbn [is_err err_chk err_chk_new waiting]. unfold chk. rewrite (proj2 (pl_idle _ Hp)). cbn [Z.eqb mbind outcome_bind].
  assert (with_err err_chk_new p = p) as -> by (rewrite <- (pl_err _ Hp); by destruct p).
  rewrite (pl_err _ Hp). cbn [is_err err_chk err_chk_new waiting]. rewrite (pl_depth _ Hp). exact H1.
Qed.

(** Registers that the pool does not look at may change. *)
Lemma pool_regs p r : pool p -> tfd_idle r = true -> tfd_err (task_file_data r) = 0 ->
  (forall i, Z.testbit (command_issue r) (Z.of_nat i) = true -> Z.testbit (command_issue (port p)) (Z.of_nat i) = true) -> pool (with_regs r p).
Proof. intros [] H1 H2 H3. split; port_simpl; try done. intros i Hi. auto. Qed.

Lemma pool_slot_clear p i : pool p -> active_cmd_fut p !! i = Some None -> Z.testbit (command_issue (port p)) (Z.of_nat i) = false.
Proof. intros Hp Ha. destruct (Z.testbit _ _) eqn:E; [|done]. destruct (pl_ci _ Hp i E) as [c Hc]. congruence. Qed.

Lemma pool_fresh p c : pool p -> futures p !! c = None -> c ∉ omap id (active_cmd_fut p) ++ cmd_queue p.
Proof. intros Hp Hc Hin. destruct (pl_wait _ Hp c Hin) as (d & Hd & _). congruence. Qed.

(** A new command runs in the first free slot, or waits when there is none. *)
Lemma issue_cmd_ok p c cmd buff : pool p -> futures p !! c = None -> command_ok (construct_future cmd buff) ->
  exists o p', issue_cmd translate_ptr p c cmd buff = Done (Started o p') /\ pool p' /\ interrupt_status (port p') = interrupt_status (port p) /\
    (forall x, x <> c -> c_state <$> futures p !! x = Some Completed -> c_state <$> futures p' !! x = Some Completed).
Proof using FL.
  intros Hp Hc Hok. pose proof (pool_fresh p c Hp Hc) as Hnew. set (d := construct_future cmd buff) in *.
  set (p0 := with_futures (<[c := d]> (futures p)) p). assert (futures p0 !! c = Some d) as Hd by (unfold p0; port_simpl; apply lookup_insert_eq).
  assert (forall x, x ∈ omap id (active_cmd_fut p) ++ cmd_queue p -> exists d, futures p0 !! x = Some d /\ c_state d = Waiting /\ command_ok d) as Hw0.
  { intros x Hx. destruct (pl_wait _ Hp x Hx) as (dx & H1 & H2). exists dx. unfold p0. port_simpl. rewrite lookup_insert_ne; [done|]. by intros ->. }
  assert (forall x e, futures p0 !! x = Some e -> c_state e = Waiting -> x = c \/ x ∈ omap id (active_cmd_fut p) ++ cmd_queue p) as Hk0.
  { intros x e Hx He. destruct (decide (x = c)) as [->|Hne]; [by left|]. right. unfold p0 in Hx. revert Hx. port_simpl. rewrite lookup_insert_ne by done. intros Hx. by apply (pl_kept _ Hp x e). }
  destruct (decide (Forall is_Some (active_cmd_fut p))) as [Hfull|Hfree].
  - (* queued *)
    assert (pool (with_queue (cmd_queue p0 ++ [c]) p0)) as Hq.
    { destruct Hp. unfold p0. split; port_simpl; try done.
      - rewrite app_assoc. apply NoDup_app. split; [done|]. split; [|apply NoDup_singleton]. intros x Hx ->%list_elem_of_singleton. done.
      - rewrite app_assoc. intros x Hx. apply elem_of_app in Hx as [Hx| ->%list_elem_of_singleton]; [by apply Hw0|]. exists d. by split.
      - rewrite app_assoc. intros x e Hx He. apply elem_of_app. destruct (Hk0 x e Hx He) as [->|H]; [right; apply list_elem_of_here|by left]. }
    destruct (refresh_exec_refill _ Hq) as (p' & done & H1 & H2 & _ & H4 & H5 & H6). exists None, p'. split_and!; [|done|done|].
    + unfold issue_cmd. fold d p0. rewrite (exec_cmd_full p0); [|by destruct Hp|by destruct Hp|done]. cbn [mbind outcome_bind]. exact H1.
    + intros x Hx Hcx. destruct (decide (x ∈ done)); [by apply H5|]. rewrite H6 by done. port_simpl. unfold p0. port_simpl. by rewrite lookup_insert_ne.
  - (* in a slot *)
    destruct (first_free _ Hfree) as (i & Hi & Hti). assert (cmd_queue p = []) as Hq0 by (destruct (cmd_queue p) eqn:E; [done|]; exfalso; apply Hfree, (pl_busy _ Hp); by rewrite E).
    pose proof (pool_slot_clear p i Hp Hi) as Hcl. destruct (pl_tables _ Hp) as [Ht1 Ht2]. destruct (pl_idle _ Hp) as [Hi1 Hi2].
    assert (i < 32)%nat as Hi32 by (rewrite <- (pl_len _ Hp); by apply lookup_lt_Some in Hi).
    destruct (exec_cmd_free p0 c d i) as (t & Hex & Htok); try done; try (by destruct Hp).
    unfold issue_cmd. fold d p0. rewrite Hex. cbn [mbind outcome_bind]. eexists _, _. split; [done|]. pose proof (omap_put _ i c Hi) as Hperm. rewrite Hq0, app_nil_r in *.
    split_and!; [|done|].
    + destruct Hp. unfold p0. split; port_simpl; rewrite ?Hq0, ?app_nil_r; try done.
      * by rewrite length_insert.
      * rewrite pl_lock0. apply (lock_of_insert _ i (Some c)).
      * split; [by rewrite length_insert|]. by apply Forall_insert.
      * intros j. cbn [command_issue with_ci]. rewrite Z.lor_spec, testbit_bit. intros Hj. destruct (decide (j = i)) as [->|Hne]; [exists c; apply list_lookup_insert_eq; lia|].
        rewrite bool_decide_eq_false_2, orb_false_r in Hj by done. destruct (pl_ci0 j Hj) as [y Hy]. exists y. by rewrite list_lookup_insert_ne by congruence.
      * rewrite Hperm. apply NoDup_cons. split; [done|]. rewrite Hq0, app_nil_r in pl_nodup0. done.
      * intros x Hx. rewrite Hperm in Hx. apply elem_of_cons in Hx as [->|Hx].
        { exists (with_nqc false d). rewrite lookup_alter_eq, lookup_insert_eq. by split. }
        destruct (Hw0 x Hx) as (dx & G1 & G2). exists dx. rewrite lookup_alter_ne by (by intros ->). done.
      * intros x e Hx He. rewrite Hperm. destruct (decide (x = c)) as [->|Hne]; [by left|]. right. rewrite lookup_alter_ne in Hx by done. destruct (Hk0 x e Hx He); done.
    + intros x Hx Hcx. port_simpl. unfold p0. port_simpl. by rewrite lookup_alter_ne, lookup_insert_ne.
Qed.

(** Interrupts that report no error. *)
Definition error_ints : Z := ints [COLD_PORT_DETECT; DEVICE_MECHANICAL_PRESENCE; PORT_CONNECT_CHANGE; INTERFACE_FATAL; TASK_FILE_ERROR].
Definition calm (p : Port) : Prop := Z.land (interrupt_status (port p)) error_ints = 0.
Definition data_ints : Z := ints [DEV_TO_HOST_FIS; PIO_SETUP_FIS; DMA_SETUP_FIS].

Lemma land_sub w m m' : Z.land m m' = m -> Z.land w m' = 0 -> Z.land w m = 0.
Proof. intros H1 H2. rewrite <- H1, (Z.land_comm m), Z.land_assoc, H2. apply Z.land_0_l. Qed.

Lemma calm_clear p int : calm p -> calm (int_clear p int).
Proof.
  unfold calm, int_clear, clear_is. port_simpl. cbn [interrupt_status with_is]. generalize (Z.ldiff (flag_truncate all_ints int) read_only_ints). intros m H.
  apply Z.bits_inj'. intros i Hi. rewrite Z.land_spec, Z.ldiff_spec, Z.bits_0. apply (f_equal (fun z => Z.testbit z i)) in H. rewrite Z.land_spec, Z.bits_0 in H.
  destruct (Z.testbit (interrupt_status (port p)) i), (Z.testbit error_ints i), (Z.testbit m i); done.
Qed.

Lemma pool_clear p int : pool p -> pool (int_clear p int).
Proof. intros Hp. destruct (pl_idle _ Hp) as [H1 H2]. by apply pool_regs. Qed.

Lemma handle_int_calm p : calm p -> handle_int p = Done (negb (Z.land (interrupt_status (port p)) data_ints =? 0), int_clear p data_ints).
Proof using FL.
  intros Hc. unfold handle_int, calm in *. rewrite !intersects_spec, !contains_spec.
  assert (forall f, Z.land f error_ints = f -> Z.land (interrupt_status (port p)) f = 0) as H by (intros f Hf; by apply (land_sub _ f error_ints)).
  rewrite (H (ints [COLD_PORT_DETECT; DEVICE_MECHANICAL_PRESENCE; PORT_CONNECT_CHANGE]) eq_refl). rewrite (H (int_bit INTERFACE_FATAL) eq_refl), (H (int_bit TASK_FILE_ERROR) eq_refl). done.
Qed.

Lemma update_ok p : pool p -> calm p ->
  exists p' done, update translate_ptr p = Done (Started None p') /\ pool p' /\ calm p' /\
    (if Z.land (interrupt_status (port p)) data_ints =? 0 then (active_cmd_fut p', cmd_queue p', done) = (active_cmd_fut p, cmd_queue p, [])
     else refill (command_issue (port p)) 0 (active_cmd_fut p) (cmd_queue p) = (active_cmd_fut p', cmd_queue p', done)) /\
    (forall c, c ∈ done -> c_state <$> futures p' !! c = Some Completed) /\ (forall c, c ∉ done -> c_state <$> futures p' !! c = c_state <$> futures p !! c).
Proof using FL.
  intros Hp Hc. unfold update. rewrite handle_int_calm by done. cbn [mbind outcome_bind fst snd]. pose proof (pool_clear p data_ints Hp) as Hp1. pose proof (calm_clear p data_ints Hc) as Hc1.
  destruct (Z.eqb_spec (Z.land (interrupt_status (port p)) data_ints) 0) as [E|E]; cbn [negb].
  - exists (int_clear p data_ints), []. split_and!; try done. intros c H. by apply not_elem_of_nil in H.
  - destruct (refresh_exec_refill _ Hp1) as (p' & done & H1 & H2 & H3 & H4 & H5 & H6). exists p', done. split_and!; try done. unfold calm in *. by rewrite H4.
Qed.

(** ** Runs of a port *)
(** The controller ends the commands in [mask], each with a frame from the device. *)
Definition device_done (mask : Z) (p : Port) : Port :=
  with_regs (with_is (Z.lor (interrupt_status (port p)) (int_bit DEV_TO_HOST_FIS)) (with_ci (Z.ldiff (command_issue (port p)) mask) (port p))) p.

Inductive port_step : Port -> Port -> Prop :=
  | step_issue p c cmd buff o p' :
      futures p !! c = None -> command_ok (construct_future cmd buff) -> issue_cmd translate_ptr p c cmd buff = Done (Started o p') -> port_step p p'
  | step_device p mask : port_step p (device_done mask p)
  | step_update p o p' : update translate_ptr p = Done (Started o p') -> port_step p p'
  | step_poll p c : port_step p (on_future (fun d => (poll d).2) c p).

Lemma pool_device p mask : pool p -> calm p -> pool (device_done mask p) /\ calm (device_done mask p).
Proof.
  intros Hp Hc. destruct (pl_idle _ Hp) as [H1 H2]. split.
  - apply pool_regs; try done. intros i. cbn [command_issue with_is with_ci]. rewrite Z.ldiff_spec. intros H. by apply andb_true_iff in H as [H _].
  - unfold calm, device_done in *. port_simpl. cbn [interrupt_status with_is with_ci int_bit]. rewrite Z.land_lor_distr_l, Hc. done.
Qed.

Lemma pool_poll p c : pool p -> pool (on_future (fun d => (poll d).2) c p).
Proof.
  intros []. assert (forall x d, futures p !! x = Some d -> exists d', alter (fun d => (poll d).2) c (futures p) !! x = Some d' /\ c_state d' = c_state d /\ (c_state d = Waiting -> c_cmd d' = c_cmd d /\ c_buff d' = c_buff d)) as Hf.
  { intros x d Hx. destruct (decide (x = c)) as [->|Hne]; [|exists d; by rewrite lookup_alter_ne]. exists (poll d).2. rewrite lookup_alter_eq, Hx. split; [done|]. unfold poll. by destruct (c_state d) eqn:E; cbn. }
  split; port_simpl; try done.
  - intros x Hx. destruct (pl_wait0 x Hx) as (d & H1 & H2 & H3). destruct (Hf x d H1) as (d' & G1 & G2 & G3). destruct (G3 H2) as [G4 G5]. exists d'. split; [done|]. split; [congruence|]. unfold command_ok. by rewrite G4, G5.
  - intros x d Hx Hs. destruct (futures p !! x) as [d0|] eqn:E.
    + destruct (Hf x d0 E) as (d' & G1 & G2 & _). apply (pl_kept0 x d0 E). congruence.
    + exfalso. destruct (decide (x = c)) as [->|Hne]; [by rewrite lookup_alter_eq, E in Hx|]. by rewrite lookup_alter_ne, E in Hx.
Qed.

Lemma port_step_inv p p' : pool p -> calm p -> port_step p p' -> pool p' /\ calm p'.
Proof using FL.
  intros Hp Hc Hs. destruct Hs as [p c cmd buff o p' H1 H2 H3|p mask|p o p' H|p c].
  - destruct (issue_cmd_ok p c cmd buff Hp H1 H2) as (o' & q & G1 & G2 & G3 & _). rewrite G1 in H3. injection H3 as <- <-. split; [done|]. unfold calm in *. by rewrite G3.
  - by apply pool_device.
  - destruct (update_ok p Hp Hc) as (q & done & G1 & G2 & G3 & _). rewrite G1 in H. injection H as <- <-. done.
  - split; [by apply pool_poll|done].
Qed.

(** C9. A port never loses or duplicates a command.  Whatever the order in which commands are issued, the controller
    ends them, interrupts are handled and futures are polled: every command that is not
    answered is in exactly one slot or waits in the queue, the locks and PxCI agree with the slots, commands
    wait only while all slots are in use, and the next command and the next interrupt are taken without a panic.
    The controller has 32 command slots, the device is not busy, reports no error and is neither removed nor added, each command has a frame
    and a buffer of at most 64 regions that fit the table, and the calls are those of tasks of one CPU, which do not overlap. *)
Theorem ahci_port_safe p p' :
  pool p -> calm p -> rtc port_step p p' ->
  pool p' /\
  (forall c cmd buff, futures p' !! c = None -> command_ok (construct_future cmd buff) -> exists o q, issue_cmd translate_ptr p' c cmd buff = Done (Started o q)) /\
  (exists q, update translate_ptr p' = Done (Started None q)).
Proof using FL.
  intros Hp Hc Hs. assert (pool p' /\ calm p') as [Hp' Hc'].
  { clear -Hp Hc Hs FL. induction Hs as [|p q r H1 _ IH]; [done|]. destruct (port_step_inv p q Hp Hc H1). auto. }
  split; [done|]. split.
  - intros c cmd buff H1 H2. destruct (issue_cmd_ok p' c cmd buff Hp' H1 H2) as (o & q & H & _). eauto.
  - destruct (update_ok p' Hp' Hc') as (q & done & H & _). eauto.
Qed.

(** C11. An interrupt for finished commands implements the pool: the futures of the slots whose bit in PxCI is clear, and no
    others, become ready, and each of these slots takes the next command of the queue. *)
Theorem refresh_exec_refines p :
  pool p -> calm p -> Z.land (interrupt_status (port p)) data_ints <> 0 ->
  exists p' done, update translate_ptr p = Done (Started None p') /\
    refill (command_issue (port p)) 0 (active_cmd_fut p) (cmd_queue p) = (active_cmd_fut p', cmd_queue p', done) /\
    (forall c, c ∈ done -> c_state <$> futures p' !! c = Some Completed) /\ (forall c, c ∉ done -> c_state <$> futures p' !! c = c_state <$> futures p !! c).
Proof using FL.
  intros Hp Hc Hi. destruct (update_ok p Hp Hc) as (p' & done & H1 & _ & _ & H4 & H5). exists p', done. rewrite (proj2 (Z.eqb_neq _ _)) in H4 by done. done.
Qed.

(** The controller ends all commands, and the interrupt is handled, [n] times. *)
Fixpoint rounds (n : nat) (p : Port) : outcome exec :=
  match n with
  | O => Done (Started None p)
  | S n => r ← update translate_ptr (device_done (command_issue (port p)) p); match r with Started _ p => rounds n p | Blocked p => Done (Blocked p) end
  end.

Lemma refill_all i a q : exists a' q', refill 0 i a q = (a', q', omap id a) /\ omap id a' ++ q' = q.
Proof.
  revert i q. induction a as [|o a IH]; intros i q; [by exists [], q|]. cbn [refill]. rewrite Z.bits_0. destruct o as [c|].
  - destruct (IH (i + 1) (tail q)) as (a' & q' & -> & H). eexists _, _. split; [done|]. destruct q as [|x q]; cbn in *; [done|]. by rewrite H.
  - destruct (IH (i + 1) q) as (a' & q' & -> & H). eexists _, _. split; [done|]. done.
Qed.

Lemma round_ok p : pool p -> calm p ->
  exists p', update translate_ptr (device_done (command_issue (port p)) p) = Done (Started None p') /\ pool p' /\ calm p' /\
    omap id (active_cmd_fut p') ++ cmd_queue p' = cmd_queue p /\
    (forall c, c ∈ omap id (active_cmd_fut p) -> c_state <$> futures p' !! c = Some Completed) /\ (forall c, c ∉ omap id (active_cmd_fut p) -> c_state <$> futures p' !! c = c_state <$> futures p !! c).
Proof using FL.
  intros Hp Hc. destruct (pool_device p (command_issue (port p)) Hp Hc) as [Hp1 Hc1]. destruct (update_ok _ Hp1 Hc1) as (p' & done & H1 & H2 & H3 & H4 & H5 & H6).
  assert (Z.land (interrupt_status (port (device_done (command_issue (port p)) p))) data_ints <> 0) as Hd.
  { unfold device_done. port_simpl. cbn [interrupt_status with_is with_ci int_bit]. rewrite Z.land_lor_distr_l. intros H. apply Z.lor_eq_0_iff in H as [_ H]. by vm_compute in H. }
  rewrite (proj2 (Z.eqb_neq _ _)) in H4 by done. unfold device_done in H4. revert H4. port_simpl. cbn [command_issue with_is with_ci]. rewrite Z.ldiff_diag.
  destruct (refill_all 0 (active_cmd_fut p) (cmd_queue p)) as (a' & q' & -> & Hq). intros [= -> -> <-]. exists p'. by split_and!.
Qed.

(** C10. Every command that was accepted is answered.  When the controller ends the commands it is given, then after at most as many
    interrupts as there are commands all of them are completed, those that waited in the queue included,
    and the port is idle.  The controller has 32 command slots, the device is not busy, reports no error and is neither removed nor added, and
    each command has a frame and a buffer of at most 64 regions that fit the table: with fewer slots, with an error or with a queued read of
    more than 256 sectors the driver panics instead. *)
Theorem ahci_port_drains p n :
  pool p -> calm p -> (length (omap id (active_cmd_fut p) ++ cmd_queue p) <= n)%nat ->
  exists p', rounds n p = Done (Started None p') /\ pool p' /\ omap id (active_cmd_fut p') ++ cmd_queue p' = [] /\
    (forall c d, futures p !! c = Some d -> c_state d = Waiting -> c_state <$> futures p' !! c = Some Completed).
Proof using FL.
  intros Hp Hc Hn. assert (exists p', rounds n p = Done (Started None p') /\ pool p' /\ omap id (active_cmd_fut p') ++ cmd_queue p' = [] /\
    (forall c, (c ∈ omap id (active_cmd_fut p) ++ cmd_queue p \/ c_state <$> futures p !! c = Some Completed) -> c_state <$> futures p' !! c = Some Completed)) as (p' & H1 & H2 & H3 & H4).
  2: { exists p'. split_and!; try done. intros c d Hd Hs. apply H4. left. by apply (pl_kept _ Hp c d). }
  revert p Hp Hc Hn. induction n as [|n IH]; intros p Hp Hc Hn.
  - exists p. destruct (omap id (active_cmd_fut p) ++ cmd_queue p) eqn:E; [|cbn in Hn; lia]. split_and!; try done. intros c [Hc'|Hc']; [by apply not_elem_of_nil in Hc'|done].
  - destruct (round_ok p Hp Hc) as (p1 & R1 & R2 & R3 & R4 & R5 & R6). cbn [rounds]. rewrite R1. cbn [mbind outcome_bind].
    destruct (IH p1 R2 R3) as (p' & H1 & H2 & H3 & H4).
    { rewrite R4. rewrite length_app in Hn. destruct (decide (cmd_queue p = [])) as [->|Hne]; [cbn; lia|]. pose proof (pl_busy _ Hp Hne) as Hb. pose proof (pl_len _ Hp) as Hl.
      destruct (active_cmd_fut p) as [|o a]; [done|]. inversion Hb as [|? ? [x ->] _]; subst. cbn [omap list_omap id length] in Hn. cbn in Hn. lia. }
    exists p'. split_and!; try done. intros c Hcc. apply H4. rewrite R4. destruct (decide (c ∈ omap id (active_cmd_fut p))) as [Hin|Hin]; [right; by apply R5|].
    destruct Hcc as [Hcc|Hcc]; [apply elem_of_app in Hcc as [Hcc|Hcc]; [done|by left]|right; by rewrite R6].
Qed.

(** A port that [port_new] has set up is an empty pool. *)
Lemma tables_new_ok n headers supply ts s : tables_new n headers supply = Done (ts, s) -> length ts = length headers /\ Forall table_ok (take n ts).
Proof.
  revert headers supply ts s. induction n as [|n IH]; intros headers supply ts s H; cbn [tables_new] in H.
  - injection H as <- <-. by rewrite length_replicate.
  - destruct headers as [|h headers]; [done|]. destruct supply as [|a supply]; [done|]. cbn [table_new mbind outcome_bind] in H.
    destruct (set_table h a DEF_TABLE_LEN); cbn [mbind outcome_bind] in H; [|done]. destruct (tables_new n headers supply) as [[ts' s']|] eqn:E; cbn [mbind outcome_bind fst snd] in H; [|done].
    injection H as <- <-. destruct (IH _ _ _ _ E) as [H1 H2]. split; [cbn; lia|]. cbn [take]. constructor; [|done]. eexists. split; [done|]. by cbn.
Qed.

Lemma port_new_pool regs i a headers supply p :
  port_new regs i a headers supply = Done p -> info_queue_depth i = 32 -> length headers = 32%nat ->
  tfd_idle regs = true -> tfd_err (task_file_data regs) = 0 -> command_issue regs = 0 -> pool p.
Proof.
  unfold port_new, cmd_list_new, set_cmd_table. intros H Hd Hh H1 H2 H3. rewrite Hd in H. destruct (tables_new _ headers supply) as [[ts s]|] eqn:Et; cbn [mbind outcome_bind] in H; [|done].
  destruct (tables_new_ok _ _ _ _ _ Et) as [Hl Ht]. destruct a as [a|]; cbn [unwrap mbind outcome_bind] in H; [|done]. destruct (hba_addr_set 1028 a); cbn [mbind outcome_bind] in H; [|done].
  destruct (get_port_state _); cbn [mbind outcome_bind] in H; [|done]. injection H as <-. split; port_simpl; try done.
  - split; [congruence|]. rewrite take_ge in Ht; [done|]. rewrite Hl, Hh. done.
  - intros j. cbn [command_issue with_clb]. rewrite H3. by rewrite Z.bits_0.
  - apply NoDup_nil_2.
  - intros c Hc. by apply not_elem_of_nil in Hc.
Qed.

(** ** Where the driver stops *)
(** After one command has failed the search for its slot looks at the number of slots that is left, none, and
    the driver panics instead of failing the command. *)
Theorem device_error_panics p :
  is_err (p_err p) = false -> tfd_err (task_file_data (port p)) <> 0 -> length (active_cmd_fut p) = 32%nat ->
  count_ones32 (Z.lor (err_cmd (p_err p)) (finished (get_ci (port p)) 0 (cmd_lock p))) = 1 -> refresh_exec translate_ptr p = Panic.
Proof.
  intros He Ht Hl Hc. unfold refresh_exec, chk. rewrite He. rewrite (proj2 (Z.eqb_neq _ _)) by done. rewrite Hc. cbn [Z.eqb Pos.eqb mbind outcome_bind].
  unfold take_active. port_simpl. change (Z.to_nat (trailing_zeros32 0)) with 32%nat. by rewrite lookup_ge_None_2 by lia.
Qed.

(** The same happens when the controller reports the error with an interrupt of its own. *)
Theorem task_file_error_panics p : get_ci (port p) = 0 -> err_chk (p_err p) = None -> err_refresh p = Panic.
Proof.
  intros Hc He. unfold err_refresh. rewrite Hc. cbn [Z.eqb negb]. unfold take_active. port_simpl.
  destruct (active_cmd_fut p !! _) as [[c|]|]; cbn [unwrap mbind outcome_bind]; try done. port_simpl. unfold next_chk. cbn [err_chk err_cmd waiting]. by rewrite He.
Qed.

(** A device that is plugged in, or wakes up, stops the kernel. *)
Theorem hot_plug_panics p s :
  intersects (interrupt_status (port p)) (ints [COLD_PORT_DETECT; DEVICE_MECHANICAL_PRESENCE; PORT_CONNECT_CHANGE]) = true ->
  get_port_state (port p) = Done s -> s <> NoPort -> update translate_ptr p = Panic.
Proof.
  intros Hi Hs Hn. unfold update, handle_int. rewrite Hi. unfold state_update. replace (get_port_state (port (int_clear p all_ints))) with (get_port_state (port p)) by done.
  rewrite Hs. cbn [mbind outcome_bind]. by destruct s.
Qed.

(** A read of more than 256 sectors, or beyond sector 2^28, panics when it reaches a slot, although the device takes
    48-bit addresses. *)
Theorem large_read_panics p c d n lba slot l :
  is_err (p_err p) = false -> get_cmd (cmd_lock p) = (Some slot, l) -> is_Some (identity p) ->
  futures p !! c = Some d -> c_cmd d = mkComposed (Opaque OpRead) None (Some n) (Some lba) None None None -> 256 < n \/ 0xfffffff < lba ->
  exec_cmd translate_ptr p c = Panic.
Proof.
  intros He Hg [id Hid] Hf Hc Hn. unfold exec_cmd. rewrite He, Hg. port_simpl. rewrite Hf. cbn [unwrap mbind outcome_bind]. rewrite Hc. unfold compile_fis. cbn [command Ata.count Ata.lba].
  rewrite bool_decide_eq_true_2 by done. cbn [orb unwrap mbind outcome_bind]. destruct (Z.ltb_spec 256 n); cbn [mbind outcome_bind]; [by rewrite Hid|].
  rewrite (proj2 (Z.ltb_lt _ _)) by lia. cbn [mbind outcome_bind]. by rewrite Hid.
Qed.

(** A command that completes between the load of its state and the registration of the waker wakes nobody. *)
Theorem poll_lost_wakeup d : c_waker d = false ->
  c_state (register (ready d)) = Completed /\ c_wakes (register (ready d)) = c_wakes d.
Proof. intros Hw. unfold ready, wake, register. cbn. by rewrite Hw. Qed.

(** [chk_ports] acknowledges port 0, whichever ports have raised the interrupt. *)
Lemma chk_loop_mask fuel ps t t' ps' : 0 <= t < 2 ^ 32 -> chk_loop translate_ptr fuel ps t = Done (Some (t', ps')) -> t' = 1.
Proof.
  revert ps t. induction fuel as [|fuel IH]; intros ps t Ht H; cbn [chk_loop] in H; [done|]. destruct (Z.eqb_spec (trailing_zeros32 t) 32) as [E|E].
  - injection H as <- _. assert (t = 0) as ->; [|by vm_compute]. apply Z.bits_inj'. intros i Hi. rewrite Z.bits_0. destruct (Z.lt_ge_cases i 32).
    + apply (ctz_below 32). unfold trailing_zeros32 in E. lia.
    + rewrite <- (Z.mod_small t (2 ^ 32)) by lia. by rewrite Z.mod_pow2_bits_high by lia.
  - destruct (ps !! _) as [o|]; cbn [unwrap mbind outcome_bind] in H; [|done]. destruct o as [q|]; cbn [unwrap mbind outcome_bind] in H; [|done].
    destruct (update translate_ptr q) as [[o q'|q']|]; cbn [mbind outcome_bind] in H; try done. apply IH in H; [done|].
    pose proof (ctz_bound 32 t) as Hb. unfold trailing_zeros32 in *. assert (0 <= bit32 (ctz 32 t) < 2 ^ 32) as Hbit.
    { unfold bit32. rewrite Z.mod_small by lia. unfold bit. rewrite Z.shiftl_1_l. split; [lia|apply Z.pow_lt_mono_r; lia]. }
    split; [by apply Z.lxor_nonneg; lia|]. destruct (Z.eq_dec (Z.lxor t (bit32 (ctz 32 t))) 0) as [->|Hne]; [lia|].
    apply Z.log2_lt_cancel. rewrite Z.log2_pow2 by lia. assert (forall x, 0 <= x < 2 ^ 32 -> Z.log2 x < 32) as Hlog.
    { intros x Hx. destruct (Z.eq_dec x 0) as [->|]; [done|]. apply Z.log2_lt_pow2; lia. }
    pose proof (Z.log2_lxor t (bit32 (ctz 32 t)) ltac:(lia) ltac:(lia)) as Hx. pose proof (Hlog t Ht). pose proof (Hlog _ Hbit). lia.
Qed.

Theorem chk_ports_acks_port0 h h' : 0 <= int_status (general h) < 2 ^ 32 -> chk_ports translate_ptr h = Done (Some h') -> general h' = clear_int (general h) 1.
Proof.
  intros Hi. unfold chk_ports. generalize 33%nat. intros n H. destruct (chk_loop _ _ _ _) as [[[t ps]|]|] eqn:E; cbn [mbind outcome_bind] in H; try done. injection H as <-. cbn [general].
  by rewrite (chk_loop_mask _ _ _ _ _ Hi E).
Qed.

End Pool.

(** ** The character device *)
(** C33. What reading or writing the device file at [pos] sends to the disk.  A position that is not on a sector, or a length that is not whole
    sectors, is [InvalidData], a position past the end [EndOfFile].  Otherwise a transfer of 1 to
    65535 sectors that ends on the disk is composed into a command for exactly these sectors, and one that runs over the end is refused
    with [DeviceError] as a whole, although its length was cut to the end of the disk before.  The frame of a write, and of
    a read of at most 256 sectors from below sector 2^28, has the address of the first sector, the number of sectors and the
    command for 48-bit addresses; a longer or a later read is given no frame, and panics when it is issued.  The caller holds the file,
    and the transfer is not of exactly 65536 sectors, of which the count is lost. *)
Theorem file_command_spec (write : bool) id pos len :
  0 < lba_size id -> 0 <= lba_count id -> lba_size id * lba_count id < 2 ^ 64 -> 0 <= pos -> 0 <= len -> pos + len < 2 ^ 64 -> pos / lba_size id < 2 ^ 48 -> len / lba_size id <> 65536 ->
  let n := len / lba_size id in let start := pos / lba_size id in
  let cmd := mkComposed (Opaque (if write then OpWrite else OpRead)) None (Some n) (Some start) None None None in
  file_command write id true pos len =
  Done (if negb (pos mod lba_size id =? 0) then Err InvalidData
        else if lba_size id * lba_count id <? pos then Err EndOfFile
        else if negb (len mod lba_size id =? 0) then Err InvalidData
        else if bool_decide (1 <= n < 65536 /\ start + n <= lba_count id) then Ok (cmd, len)
        else Err DeviceError) /\
  (if write || ((n <=? 256) && (start <=? 0xfffffff))
   then exists f, compile_fis cmd = Done (Some (f, false)) /\ fis_command f = ata_code (if write then WRITE_SECTORS_EXT else READ_SECTORS_EXT) /\
     of_le (lba_low f ++ lba_high f) = start /\ fis_count f = n /\ dev f = 0x40
   else compile_fis cmd = Done None).
Proof.
  intros Hs Hc Hm Hp Hl Hpl Hsec Hn n start cmd. pose proof (Z.div_pos pos (lba_size id) Hp Hs) as Hst.
  split; [|apply compile_rw; fold start in Hst; lia]. unfold file_command, op_sanity_check, len_bytes. cbn [negb].
  rewrite (proj2 (Z.eqb_neq (lba_size id) 0)) by lia. cbn [negb assert_that mbind outcome_bind]. assert ((lba_size id ⊗ lba_count id)%u64 = lba_size id * lba_count id) as -> by (apply Z.mod_small; nia).
  destruct (Z.eqb_spec (pos mod lba_size id) 0) as [Hp0|]; cbn [negb mbind outcome_bind]; [|done]. destruct (Z.ltb_spec (lba_size id * lba_count id) pos); cbn [mbind outcome_bind]; [done|].
  destruct (Z.eqb_spec (len mod lba_size id) 0) as [Hl0|]; cbn [negb mbind outcome_bind]; [|done].
  rewrite wadd_small by lia. unfold sector_address_new. rewrite (proj2 (Z.ltb_lt _ (bit 48))) by (change (bit 48) with (2 ^ 48); done). cbn [unwrap mbind outcome_bind].
  fold start. pose proof (rw_command_spec write id start len) as Hrw. cbv zeta in Hrw. fold n in Hrw. rewrite Hrw by (done || lia). cbn [mbind outcome_bind].
  assert (pos = lba_size id * start) as Ep by (by apply Z.div_exact; lia). assert (len = lba_size id * n) as El by (by apply Z.div_exact; lia).
  destruct (decide (1 <= n < 65536 /\ start + n <= lba_count id)) as [[H1 H2]|Hno].
  - rewrite !bool_decide_eq_true_2 by (split_and!; done || lia). rewrite (proj2 (Z.ltb_ge _ _)) by nia. done.
  - rewrite !bool_decide_eq_false_2 by (intros ?; apply Hno; lia || tauto). done.
Qed.

(** ** Witnesses *)
Module AhciWitness.
Import FlagWitness DmaWitness.

Definition regs : PortControl := mkRegs 0 0 0 0 0 (mkTfd 0x40 0) 0 0x123 0 0 0 0 0 0 0.
Definition info32 : HbaInfo := mkInfo true 32 false 0.
Definition headers : list CommandHeader := replicate 32 (mkHeader 0 0 0).
Definition supply : list Z := (fun n => 0x100000 + Z.of_nat n * 0x1000) <$> seq 0 32.
Definition new_port (i : HbaInfo) : Port := match port_new regs i (Some 0) headers supply with Done p => p | Panic => mkPort i NoPort None regs [] [] [] [] err_chk_new ∅ [] end.

Definition read8 : ComposedCommand := mkComposed (Opaque OpRead) None (Some 8) (Some 100) None None None.
Definition buff : option (Z * Z) := Some (0xffff808000000f00, 0x1000).

Lemma new_pool : pool tr (new_port info32).
Proof. apply (port_new_pool tr regs info32 (Some 0) headers supply); vm_compute; reflexivity. Qed.

Lemma read8_ok : command_ok tr (construct_future read8 buff).
Proof.
  split; [|eexists; split; [vm_compute; reflexivity|vm_compute; eauto]]. cbn [construct_future c_buff buff buffer_ok]. split; [reflexivity|]. eexists. split; [vm_compute; reflexivity|].
  split; [cbn; lia|]. repeat constructor; cbn; lia.
Qed.

(** Issue [read8] once for each name, all of them new. *)
Fixpoint issue_all (l : list nat) (p : Port) : outcome Port :=
  match l with
  | [] => Done p
  | c :: l =>
      match futures p !! c with Some _ => Panic | None => x ← issue_cmd tr p c read8 buff; match x with Started _ p => issue_all l p | Blocked _ => Panic end end
  end.

Lemma issue_all_run l p q : issue_all l p = Done q -> pool tr p -> calm p -> rtc (port_step tr) p q /\ pool tr q /\ calm q.
Proof.
  revert p. induction l as [|c l IH]; intros p H Hp Hc; cbn [issue_all] in H; [injection H as <-; split; [apply rtc_refl|done]|].
  destruct (futures p !! c) eqn:Hf; [done|]. destruct (issue_cmd_ok tr p c read8 buff Hp Hf read8_ok) as (o & p1 & H1 & H2 & H3 & _). rewrite H1 in H. cbn [mbind outcome_bind] in H.
  destruct (IH p1) as (G1 & G2); try done; [unfold calm in *; by rewrite H3|]. split; [|done]. eapply rtc_l; [|done]. by eapply step_issue; [|apply read8_ok|].
Qed.

(** A port with 34 commands: 32 in the slots, two in the queue. *)
Definition busy_port : Port := match issue_all (seq 0 34) (new_port info32) with Done p => p | Panic => new_port info32 end.

Lemma busy_run : rtc (port_step tr) (new_port info32) busy_port /\ pool tr busy_port /\ calm busy_port.
Proof. apply (issue_all_run (seq 0 34)); [vm_compute; reflexivity|apply new_pool|vm_compute; reflexivity]. Qed.

Lemma ahci_port_safe_witness : pool tr busy_port /\ exists q, update tr busy_port = Done (Started None q).
Proof.
  destruct busy_run as (H & _). destruct (ahci_port_safe tr (new_port info32) busy_port new_pool ltac:(vm_compute; reflexivity) H) as (H1 & _ & H2). by split.
Defined.

Lemma ahci_port_drains_witness : exists p, rounds tr 34 busy_port = Done (Started None p) /\ c_state <$> futures p !! 33%nat = Some Completed.
Proof.
  destruct busy_run as (_ & H1 & H2). destruct (ahci_port_drains tr busy_port 34 H1 H2) as (p & G1 & _ & _ & G2); [vm_compute; lia|]. exists p. split; [exact G1|].
  destruct (futures busy_port !! 33%nat) as [d|] eqn:E; [|vm_compute in E; discriminate]. apply (G2 33%nat d E). revert E. vm_compute. intros E. injection E as <-. reflexivity.
Defined.

(** The first two commands end. *)
Definition served : Port := device_done 3 busy_port.

Lemma refresh_exec_refines_witness : exists p, update tr served = Done (Started None p) /\ cmd_queue p = [] /\ c_state <$> futures p !! 1%nat = Some Completed /\ c_state <$> futures p !! 2%nat = Some Waiting.
Proof.
  destruct busy_run as (_ & H1 & H2). destruct (pool_device tr busy_port 3 H1 H2) as [H3 H4].
  destruct (refresh_exec_refines tr served H3 H4) as (p & l & G1 & G2 & G3 & G4); [vm_compute; discriminate|]. exists p. split; [exact G1|]. vm_compute in G2.
  injection G2 as _ G2 Gl. split; [done|]. subst l. split; [apply G3; apply list_elem_of_further, list_elem_of_here|].
  rewrite G4; [vm_compute; reflexivity|]. intros Hin. apply elem_of_cons in Hin as [Hin|Hin]; [discriminate|]. apply elem_of_cons in Hin as [Hin|Hin]; [discriminate|]. by apply not_elem_of_nil in Hin.
Defined.

Lemma command_describes_buffer_witness :
  let u := mkUnbound 64 (mkHeader 0 0 0) (mkTable (replicate 64 0) (replicate 64 (mkPrd 0 0))) in
  exists f u', compile_fis read8 = Done (Some (f, false)) /\ send_fis tr u f (Some (0xffff808000000f00, 0x1800)) [] = Done (Some (Ok (u', []))) /\ Z.testbit (description_info (parent u')) 6 = false.
Proof.
  intros u. eexists. 
  destruct (command_describes_buffer tr u (mkFis RegisterH2D 0 0x24 0 [100; 0; 0] 0x40 [0; 0; 0] 0 8 0 0 0) frames 0xffff808000000f00 0x1800 [] READ_SECTORS_EXT) as (u' & l & H1 & _ & _ & _ & _ & H2).
  - eexists. split; [reflexivity|]. split; vm_compute; discriminate.
  - exact buffer_backed.
  - left. vm_compute. discriminate.
  - exists 0x7fffc04000000780. reflexivity.
  - exists 0xc00. reflexivity.
  - lia.
  - reflexivity.
  - exists u'. split; [vm_compute; reflexivity|]. split; [exact H1|exact H2].
Defined.

(** A disk of 1000 sectors. *)
Definition disk : DevIdentity := mkIdentity 512 512 0 1000 true.

Lemma file_command_spec_witness :
  file_command false disk true 0x1000 0x400 = Done (Ok (mkComposed (Opaque OpRead) None (Some 2) (Some 8) None None None, 0x400)) /\
  file_command true disk true (998 * 512) (4 * 512) = Done (Err DeviceError).
Proof.
  split.
  - destruct (file_command_spec false disk 0x1000 0x400) as [H _]; try (cbn; lia); [vm_compute; reflexivity|vm_compute; discriminate|]. rewrite H. reflexivity.
  - destruct (file_command_spec true disk (998 * 512) (4 * 512)) as [H _]; try (cbn; lia); [vm_compute; reflexivity|vm_compute; discriminate|]. rewrite H. reflexivity.
Defined.

(** A controller with one slot: the second command is given a slot that has no table. *)
Theorem few_slots_panic :
  let p := new_port (mkInfo true 1 false 0) in
  exists p1, issue_cmd tr p 0 read8 buff = Done (Started (Some 0) p1) /\ issue_cmd tr p1 1 read8 buff = Panic.
Proof. cbv zeta. eexists. split; [vm_compute; reflexivity|vm_compute; reflexivity]. Qed.

(** When a device with a running command is pulled out, the slot stays marked as running: the next interrupt finds it
    complete and without a future. *)
Theorem abandon_then_panics : exists p, issue_all [0%nat] (new_port info32) = Done p /\
  update tr (device_done 1 (abandon_cmd p)) = Panic.
Proof. eexists. split; [vm_compute; reflexivity|vm_compute; reflexivity]. Qed.

End AhciWitness.
