(* ===== verification/PciCfg.v ===== *)
(** * PCI functions

    [kernel/src/system/pci.rs], [pci/configuration.rs], [pci/configuration/register.rs], [pci/capabilities.rs] and
    [pci/scan.rs]: addresses of functions, the configuration space of a function, base address
    registers and how their size is found, the list of capabilities, and the search for functions.

    A function of the hardware is its 4096 bytes of configuration space with the bits that software can
    change; a write changes these bits only, which is how the size of a base address register is
    found.  Where no function is, reads return ones.  A call that never returns is [None]. *)
From Stdlib Require Import String.
From stdpp Require Import prelude list gmap.
From S2P Require Import Prelude Bytes.
Open Scope Z_scope.

(** ** Addresses *)
Record DeviceAddress := mkAddr { segment_group : Z; bus : Z; device : Z; function : Z }.
#[export] Instance DeviceAddress_dec : EqDecision DeviceAddress.
Proof. solve_decision. Defined.

Definition address_new (group bus device function : Z) : outcome DeviceAddress :=
  assert_that (device <? 32);; assert_that (function <? 8);; Done (mkAddr group bus device function).

(** The entries of the MCFG table, from the [acpi] crate. *)
Record McfgEntry := mkMcfg { base_address : Z; pci_segment_group : Z; bus_number_start : Z; bus_number_end : Z }.

Definition advanced_cfg_addr (a : DeviceAddress) (region : McfgEntry) : option Z :=
  Some (base_address region ⊕ Z.lor (Z.lor (Z.shiftl ((bus a - bus_number_start region) mod 256) 20) (Z.shiftl (device a) 15)) (Z.shiftl (function a) 12))%u64.

Definition as_int_joined (a : DeviceAddress) : Z :=
  Z.lor (Z.lor (Z.lor (function a) (Z.shiftl (device a) 4)) (Z.shiftl (bus a) 9)) (Z.shiftl (segment_group a) 18).

Definition new_function (a : DeviceAddress) (f_num : Z) : outcome DeviceAddress := address_new (segment_group a) (bus a) (device a) f_num.

(** Strings are their bytes. *)
Definition COLON : Z := 58.
Definition DOT : Z := 46.
Fixpoint rfind_from (i : nat) (c : Z) (s : list Z) : option nat :=
  match s with
  | [] => None
  | b :: s => match rfind_from (S i) c s with Some j => Some j | None => if b =? c then Some i else None end
  end.
Definition rfind (c : Z) (s : list Z) : option nat := rfind_from 0 c s.
Definition split_at (s : list Z) (n : nat) : list Z * list Z := (take n s, drop n s).

(** [str::parse] of an unsigned number below [max]: an optional plus sign and digits. *)
Fixpoint parse_digits (max acc : Z) (s : list Z) : option Z :=
  match s with
  | [] => Some acc
  | b :: s => if (48 <=? b) && (b <=? 57) then let acc := acc * 10 + (b - 48) in if acc <? max then parse_digits max acc s else None else None
  end.
Definition parse (max : Z) (s : list Z) : option Z :=
  match s with
  | [] => None
  | 43 :: [] => None
  | 43 :: s => parse_digits max 0 s
  | s => parse_digits max 0 s
  end.

Definition ok_or {A} (o : option A) : result A unit := match o with Some a => Ok a | None => Err tt end.

(** [DeviceAddress::from_str]. *)
Definition from_str (s : list Z) : outcome (result DeviceAddress unit) :=
  match rfind DOT s with
  | None => Done (Err tt)
  | Some i =>
      let '(remain, func) := split_at s i in
      match rfind COLON remain with
      | None => Done (Err tt)
      | Some i =>
          let '(remain, device) := split_at remain i in
          let '(bus_seg, bus) := split_at remain (default 0%nat (rfind COLON remain)) in
          match (if Nat.eqb (length bus_seg) 0 then Some 0 else if Nat.eqb (length bus_seg) 4 then parse (2 ^ 16) bus_seg else None) with
          | None => Done (Err tt)
          | Some parsed_bus_seg =>
              if negb (Nat.eqb (length bus) 2) then Done (Err tt)
              else match parse 256 bus with
                   | None => Done (Err tt)
                   | Some parsed_bus =>
                       if negb (Nat.eqb (length device) 2) then Done (Err tt)
                       else match parse 256 device with
                            | None => Done (Err tt)
                            | Some parsed_dev =>
                                if negb (Nat.eqb (length func) 1) then Done (Err tt)
                                else match parse 256 func with
                                     | None => Done (Err tt)
                                     | Some parsed_func => a ← address_new parsed_bus_seg parsed_bus parsed_dev parsed_func; Done (Ok a)
                                     end
                            end
                   end
          end
      end
  end.

(** [Display]: hexadecimal digits with at least [width] of them. *)
Definition hex_digit (d : Z) : Z := if d <? 10 then 48 + d else 87 + d.
Fixpoint hex (fuel : nat) (width : nat) (n : Z) : list Z :=
  match fuel with
  | O => []
  | S fuel => (if (n <? 16) && Nat.leb width 1 then [] else hex fuel (width - 1) (n / 16)) ++ [hex_digit (n mod 16)]
  end.
Definition display (a : DeviceAddress) : list Z :=
  hex 16 4 (segment_group a) ++ [COLON] ++ hex 16 2 (bus a) ++ [COLON] ++ hex 16 2 (device a) ++ [COLON] ++ hex 16 1 (function a).

(** ** Configuration space *)
Record Function := mkFn { cfg : list Z; wmask : list Z }.
Abbreviation Bus := (gmap Z Function).

Definition merge (old new mask : Z) : Z := Z.lor (Z.ldiff old mask) (Z.land new mask).
Definition rd (f : Function) (o n : nat) : Z := of_le (slice (cfg f) o n).
Definition rd_mask (f : Function) (o n : nat) : Z := of_le (slice (wmask f) o n).
Definition wr (f : Function) (o n : nat) (v : Z) : Function :=
  mkFn (take o (cfg f) ++ le_bytes n (merge (rd f o n) v (rd_mask f o n)) ++ drop (o + n) (cfg f)) (wmask f).

(** The headers, as [repr(C)] lays them out. *)
Open Scope string_scope.
Definition u8f (n : string) : field := mkField n 1 1.
Definition u16f (n : string) : field := mkField n 2 2.
Definition u32f (n : string) : field := mkField n 4 4.
Definition common_fields : list field :=
  [u16f "vendor_id"; u16f "device_id"; u16f "command"; u16f "status"; u8f "revision"; mkField "class" 3 1; u8f "cache_line_size";
   u8f "latency_timer"; u8f "header_type"; u8f "self_test"].
Definition generic_fields : list field :=
  mkField "common" 16 2 ::
  [u32f "bar_0"; u32f "bar_1"; u32f "bar_2"; u32f "bar_3"; u32f "bar_4"; u32f "bar_5"; u32f "card_bus_info_ptr"; u16f "subsystem_vendor_id";
   u16f "subsystem_id"; u32f "expansion_rom_base_addr"; u32f "capabilities_ptr"; u32f "_res"; u8f "int_line"; u8f "int_pin"; u8f "min_grant"; u8f "max_latency"].
Definition bridge_fields : list field :=
  mkField "common" 16 2 ::
  [u32f "bar_0"; u32f "bar_1"; u8f "primary_bus_number"; u8f "secondary_bus_number"; u8f "subordinate_bus_number"; u8f "secondary_latency_timer";
   u8f "io_base"; u8f "io_limit"; u16f "secondary_status"; u16f "mem_base"; u16f "mem_limit"; u16f "prefetch_mem_base"; u16f "prefetch_mem_limit";
   u32f "prefetch_base_upper"; u32f "prefetch_limit_upper"; u16f "io_base_upper"; u16f "io_limit_upper"; u32f "capabilities_ptr";
   u32f "expansion_rom_base_addr"; u8f "int_line"; u8f "int_pin"; u16f "bridge_ctl"].
Definition cardbus_fields : list field :=
  mkField "common" 16 2 ::
  [u32f "card_bus_base_address"; u16f "secondary_status"; u8f "_res0"; u8f "capabilities_ptr"; u8f "card_bus_latency_timer"; u8f "subordinate_bus";
   u8f "card_bus"; u8f "pci_bus"; u32f "mem_base_addr_0"; u32f "mem_limit_0"; u32f "mem_base_addr_1"; u32f "mem_limit_1"; u32f "io_base_addr_0";
   u32f "io_limit_0"; u32f "io_base_addr_1"; u32f "io_limit_1"; u16f "bridge_ctl"; u8f "int_pin"; u8f "int_line"; u16f "subsystem_vendor_id";
   u16f "subsystem_device_id"; u32f "legacy_mode_base_address"].
Close Scope string_scope.

Definition at_field (l : list field) (name : string) : nat := match offset_of l name with Some (o, _) => o | None => 0%nat end.

(** ** Registers *)
Inductive CommandRegister :=
  | IO_SPACE | MEMORY_SPACE | BUS_MASTER | SPECIAL_CYCLES | MEMORY_WRITE_AND_INVALIDATE_ENABLE | VGA_PALLETE_SNOOP | PARITY_ERROR_RESPONSE
  | SERR_ENABLE | FAST_BTB_ENABLE | INTERRUPT_DISABLE.
Definition command_bit (c : CommandRegister) : Z :=
  match c with
  | IO_SPACE => bit 0 | MEMORY_SPACE => bit 1 | BUS_MASTER => bit 2 | SPECIAL_CYCLES => bit 3 | MEMORY_WRITE_AND_INVALIDATE_ENABLE => bit 4
  | VGA_PALLETE_SNOOP => bit 5 | PARITY_ERROR_RESPONSE => bit 6 | SERR_ENABLE => bit 8 | FAST_BTB_ENABLE => bit 9 | INTERRUPT_DISABLE => bit 10
  end.
Inductive StatusRegister :=
  | INTERRUPT_STATUS | CAPABILITES_LIST | FFQ66_MHZ_CAPABLE | FAST_BTB_CAPABLE | MASTER_DATA_PARITY_ERR | DEVSEL_MEDIUM | DEVSEL_SLOW
  | SIGNALLED_TARGET_ABORT | RECIEVED_TARGET_ABORT | RECIEVED_MASTER_ABORT | SIGNALLED_SYSTEM_ERR | DETECTED_PARITY_ERR.
Definition status_bit (s : StatusRegister) : Z :=
  match s with
  | INTERRUPT_STATUS => bit 3 | CAPABILITES_LIST => bit 4 | FFQ66_MHZ_CAPABLE => bit 5 | FAST_BTB_CAPABLE => bit 7 | MASTER_DATA_PARITY_ERR => bit 8
  | DEVSEL_MEDIUM => bit 10 | DEVSEL_SLOW => Z.shiftl 2 10 | SIGNALLED_TARGET_ABORT => bit 11 | RECIEVED_TARGET_ABORT => bit 12
  | RECIEVED_MASTER_ABORT => bit 13 | SIGNALLED_SYSTEM_ERR => bit 14 | DETECTED_PARITY_ERR => bit 15
  end.

Inductive HeaderType := Generic | Bridge | CardBusBridge.
#[export] Instance HeaderType_dec : EqDecision HeaderType.
Proof. solve_decision. Defined.
Definition header_type_from (value : Z) : outcome HeaderType :=
  match Z.land value 3 with 0 => Done Generic | 1 => Done Bridge | 2 => Done CardBusBridge | _ => Panic end.

Inductive BarType := DwordIO | Dword (prefetch : bool) | Qword (prefetch : bool).
#[export] Instance BarType_dec : EqDecision BarType.
Proof. solve_decision. Defined.

Definition get_type (data : Z) : outcome BarType :=
  if negb (Z.land data 1 =? 0) then Done DwordIO
  else
    let prefetch := negb (Z.land (Z.shiftr data 3) 1 =? 0) in
    match Z.land (Z.shiftr data 1) 3 with 0 => Done (Dword prefetch) | 2 => Done (Qword prefetch) | _ => Panic end.

Definition bar_mask (data : Z) : Z := if Z.land data 1 =? 0 then Z.ldiff data 0xf else Z.ldiff data 3.

Definition bar_read (f : Function) (o : nat) : Z := bar_mask (rd f o 4).
Definition bar_write (f : Function) (o : nat) (addr : Z) : Function := wr f o 4 addr.

Definition not32 (x : Z) : Z := 2 ^ 32 - 1 - x.

(** [BaseAddressRegister::alignment]. *)
Definition bar_alignment (f : Function) (o : nat) : outcome (Z * Function) :=
  let cache := bar_read f o in
  let f := bar_write f o (2 ^ 32 - 1) in
  let align := bar_read f o in
  bt ← get_type (rd f o 4);
  let f := bar_write f o cache in
  Done (match bt with
        | DwordIO => (not32 (Z.ldiff align 3) + 1) mod 2 ^ 32
        | _ => (not32 (Z.ldiff align 0xf) + 1) mod 2 ^ 32
        end, f).

Definition long_read (f : Function) (o : nat) : Z := Z.ldiff (rd f o 8) 0xf.
Definition long_write (f : Function) (o : nat) (data : Z) : Function := wr f o 8 data.
Definition long_alignment (f : Function) (o : nat) : Z * Function :=
  let cache := long_read f o in
  let f := long_write f o (2 ^ 64 - 1) in
  let align := (wnot (Z.ldiff (long_read f o) 0xf) ⊕ 1)%u64 in
  (align, long_write f o cache).

(** ** Headers *)
Definition header_type (f : Function) : outcome HeaderType := header_type_from (rd f 14 1).
Definition is_multi_fn (f : Function) : bool := negb (Z.land (rd f 14 1) 0x80 =? 0).
Definition vendor (f : Function) : Z := rd f 0 2.
Definition device_id (f : Function) : Z := rd f 2 2.
Definition class (f : Function) : list Z := slice (cfg f) 9 3.
Definition get_secondary_bus (f : Function) : Z := rd f 0x19 1.

Definition bar_count (h : HeaderType) : nat := match h with Generic => 6 | Bridge => 2 | CardBusBridge => 0 end.
(** [PciHeader::bar]: the offset of the register. *)
Definition header_bar (h : HeaderType) (n : nat) : option nat := if Nat.ltb n (bar_count h) then Some (16 + 4 * n)%nat else None.

Section Config.
Context `{FO : FlagOps}.

Definition update_control (f : Function) (flags : Z) (value : bool) : Z * Function :=
  let f := wr f 4 2 (flag_set (rd f 4 2) flags value) in (rd f 4 2, f).

Definition header_capabilities (h : HeaderType) (f : Function) : option Z :=
  match h with
  | Generic | Bridge => if contains (rd f 6 2) (status_bit CAPABILITES_LIST) then Some (rd f 0x34 4 mod 256) else None
  | CardBusBridge => None
  end.

(** The built-in self test. *)
Definition BIST_CAPABLE : Z := bit 7.
Definition BIST_TEST_RUN : Z := bit 6.
Definition run_bist (f : Function) : result unit unit * Function :=
  let t := rd f 15 1 in
  if contains t BIST_CAPABLE then (Ok tt, wr f 15 1 (flag_set t BIST_TEST_RUN true)) else (Err tt, f).
Definition check_self_test (f : Function) : option (result Z Z) :=
  let t := rd f 15 1 in
  if contains t BIST_TEST_RUN then None else if Z.land t 7 =? 0 then Some (Ok 0) else Some (Err (Z.land t 7)).

(** ** Base address registers *)
Record BarInfo := mkBar { bar_id : nat; align : Z; reg_info : BarType; addr : Z }.

Definition space_flags : Z := Z.lor (command_bit MEMORY_SPACE) (command_bit IO_SPACE).

(** [BarInfo::new]; the early return of a register that does not exist leaves the spaces disabled. *)
Definition bar_info_new (h : HeaderType) (f : Function) (id : nat) : outcome (option BarInfo * Function) :=
  let f := (update_control f space_flags false).2 in
  match header_bar h id with
  | None => Done (None, f)
  | Some o =>
      reg_info ← get_type (rd f o 4);
      match reg_info with
      | DwordIO | Dword _ =>
          r ← bar_alignment f o;
          let '(align, f) := r in
          let b := mkBar id align reg_info (bar_read f o) in
          let f := (update_control f space_flags true).2 in
          Done (if align =? 0 then None else Some b, f)
      | Qword _ =>
          let '(align, f) := long_alignment f o in
          let b := mkBar id align reg_info (long_read f o) in
          let f := (update_control f space_flags true).2 in
          Done (if align =? 0 then None else Some b, f)
      end
  end.

(** [BarInfo::layout]: size and alignment, which must be a power of two. *)
Definition bar_layout (b : BarInfo) : outcome (Z * Z) :=
  assert_that ((0 <? align b) && (Z.land (align b) (align b - 1) =? 0) && (align b <=? 2 ^ 63));; Done (align b, align b).

(** The loop over the registers in [DeviceControl::new]: the register after a 64-bit one is skipped. *)
Fixpoint bar_loop (h : HeaderType) (ids : list nat) (f : Function) (bars : list (option BarInfo)) : outcome (list (option BarInfo) * Function) :=
  match ids with
  | [] => Done (bars, f)
  | i :: rest =>
      r ← bar_info_new h f i;
      match r with
      | (Some info, f) =>
          assert_that (Nat.ltb i (length bars));;
          let bars := <[i := Some info]> bars in
          match reg_info info, rest with
          | Qword _, _ :: rest => bar_loop h rest f bars
          | _, _ => bar_loop h rest f bars
          end
      | (None, f) => bar_loop h rest f bars
      end
  end.

(** ** Capabilities *)
Inductive CapabilityId :=
  | Null | PciPowerManagement | Agp | Vpd | SlotId | Msi | CompactPciHotSwap | PciX | HyperTransport | VendorSpecific | DebugPort | CompactPCi
  | PciHotPlug | PciBridgeSubsystemVendorId | Agp8x | SecureDevice | PciExpress | MsiX | SataDataIndexConfig | AdvancedFeatures
  | EnhancedAllocation | FlatteningPortalBridge | Reserved (c : Z).

#[export] Instance CapabilityId_dec : EqDecision CapabilityId.
Proof. solve_decision. Defined.

Definition capability_ids : list CapabilityId :=
  [Null; PciPowerManagement; Agp; Vpd; SlotId; Msi; CompactPciHotSwap; PciX; HyperTransport; VendorSpecific; DebugPort; CompactPCi; PciHotPlug;
   PciBridgeSubsystemVendorId; Agp8x; SecureDevice; PciExpress; MsiX; SataDataIndexConfig; AdvancedFeatures; EnhancedAllocation; FlatteningPortalBridge].
Definition capability_from (value : Z) : CapabilityId := default (Reserved value) (capability_ids !! Z.to_nat value).

Record CapabilityPointer := mkCap { cap_id : CapabilityId; cap_offset : Z }.

(** [CapabilityIter::next] at an offset, and the collection of the list into a map. *)
Definition cap_next (region : list Z) (next : Z) : CapabilityPointer * option Z :=
  let id := nth (Z.to_nat next) region 0 in
  let n := nth (Z.to_nat next + 1) region 0 in
  (mkCap (capability_from id) (next mod 256), if n =? 0 then None else Some n).

Fixpoint cap_iter (fuel : nat) (region : list Z) (next : option Z) : option (list CapabilityPointer) :=
  match next with
  | None => Some []
  | Some n =>
      match fuel with
      | O => None
      | S fuel => let '(c, next) := cap_next region n in l ← cap_iter fuel region next; Some (c :: l)
      end
  end.

Definition insert_cap (l : list CapabilityPointer) (c : CapabilityPointer) : list CapabilityPointer :=
  c :: filter (fun c' => cap_id c' <> cap_id c) l.
Definition cap_map (l : list CapabilityPointer) : list CapabilityPointer := foldl insert_cap [] l.
Definition capability (m : list CapabilityPointer) (id : CapabilityId) : option CapabilityPointer := List.find (fun c => bool_decide (cap_id c = id)) m.

(** ** Functions *)
Record DeviceControl := mkDev {
  address : DeviceAddress; dev_vendor : Z; dev_device : Z; dev_type : HeaderType; dev_class : list Z; cfg_addr : Z;
  dev_bar : list (option BarInfo); capabilities : list CapabilityPointer }.

(** [DeviceControl::new] on the function at [a]: the inner [None] is a list of capabilities without an end. *)
Definition device_new (a : Z) (address : DeviceAddress) (b : Bus) : outcome (option (option DeviceControl * Bus)) :=
  match b !! a with
  | None => Done (Some (None, b))
  | Some f =>
      if vendor f =? 0xffff then Done (Some (None, b))
      else
        h ← header_type f;
        r ← bar_loop h (seq 0 (bar_count h)) f (replicate 6 None);
        let '(bars, f) := r in
        Done (l ← cap_iter 257 (cfg f) (header_capabilities h f);
              Some (Some (mkDev address (vendor f) (device_id f) h (rev (class f)) a bars (cap_map l)), <[a := f]> b))
  end.

Inductive BarError := IllegalId | IdInvalid | BarIsIO | PhysAddrMismatch.

Definition get_bar (d : DeviceControl) (id : nat) : outcome (option BarInfo) := unwrap (dev_bar d !! id).

Definition validate_bar (d : DeviceControl) (f : Function) (id : nat) : outcome (result unit BarError) :=
  if Nat.ltb (bar_count (dev_type d)) id then Done (Err IllegalId)
  else
    o ← unwrap (dev_bar d !! id);
    match o with
    | None => Done (Err IdInvalid)
    | Some bar =>
        match reg_info bar with
        | DwordIO => Done (Err BarIsIO)
        | Dword _ => o ← unwrap (header_bar (dev_type d) id); Done (if addr bar =? bar_read f o then Ok tt else Err PhysAddrMismatch)
        | Qword _ =>
            o ← unwrap (header_bar (dev_type d) id);
            t ← get_type (rd f o 4);
            match t with
            | Qword _ => Done (if addr bar =? long_read f o then Ok tt else Err PhysAddrMismatch)
            | _ => Panic
            end
        end
    end.

Definition locate_bar (d : DeviceControl) (id : nat) : outcome (result unit BarError) :=
  if Nat.ltb (bar_count (dev_type d)) id then Done (Err IllegalId)
  else o ← unwrap (dev_bar d !! id); Done (match o with None => Err IdInvalid | Some _ => Ok tt end).

(** [PciResourceContainer::class]: the class in the upper three bytes. *)
Definition container_class (f : Function) : Z := of_le (0 :: class f).

(** ** The search for functions *)
(** The configuration spaces and the functions that were handed to sysfs. *)
Record Scan := mkScan { sc_bus : Bus; sc_found : list DeviceControl }.

(** A call that may never return. *)
Definition spin (A : Type) : Type := outcome (option A).
Definition then_ {A B} (m : spin A) (k : A -> spin B) : spin B :=
  match m with Done (Some a) => k a | Done None => Done None | Panic => Panic end.
Definition probe (region : McfgEntry) (a : DeviceAddress) (s : Scan) (k : DeviceControl -> Scan -> spin Scan) : spin Scan :=
  match advanced_cfg_addr a region with
  | None => Done (Some s)
  | Some p =>
      then_ (device_new p a (sc_bus s)) (fun r =>
        let s := mkScan r.2 (sc_found s) in
        match r.1 with None => Done (Some s) | Some d => k d s end)
  end.

(** [check_dev]; [rec] is [scan_bus]. *)
Definition check_dev (rec : Z -> Z -> Scan -> spin Scan) (d : DeviceControl) (s : Scan) : spin Scan :=
  then_ (match dev_type d with
         | Bridge => match sc_bus s !! cfg_addr d with Some f => rec (segment_group (address d)) (get_secondary_bus f) s | None => Panic end
         | _ => Done (Some s)
         end)
        (fun s => Done (Some (mkScan (sc_bus s) (sc_found s ++ [d])))).

Fixpoint fns_loop (rec : Z -> Z -> Scan -> spin Scan) (region : McfgEntry) (a : DeviceAddress) (fns : list Z) (s : Scan) : spin Scan :=
  match fns with
  | [] => Done (Some s)
  | i :: fns =>
      match new_function a i with
      | Panic => Panic
      | Done a' => then_ (probe region a' s (check_dev rec)) (fns_loop rec region a fns)
      end
  end.
Definition check_fns rec (region : McfgEntry) (a : DeviceAddress) (s : Scan) : spin Scan := fns_loop rec region a [1; 2; 3; 4; 5; 6; 7] s.

Fixpoint devs_loop (rec : Z -> Z -> Scan -> spin Scan) (region : McfgEntry) (group bus : Z) (devs : list Z) (s : Scan) : spin Scan :=
  match devs with
  | [] => Done (Some s)
  | d :: devs =>
      match address_new group bus d 0 with
      | Panic => Panic
      | Done a =>
          then_ (probe region a s (fun dev s =>
                   then_ (match sc_bus s !! cfg_addr dev with
                          | Some f => if is_multi_fn f then check_fns rec region (address dev) s else Done (Some s)
                          | None => Panic
                          end) (check_dev rec dev)))
                (devs_loop rec region group bus devs)
      end
  end.
Definition all_devs : list Z := Z.of_nat <$> seq 0 32.

(** [scan_bus]: the fuel is the depth of bridges. *)
Fixpoint scan_bus (fuel : nat) (region : McfgEntry) (group bus : Z) (s : Scan) : spin Scan :=
  match fuel with
  | O => Done None
  | S fuel => devs_loop (scan_bus fuel region) region group bus all_devs s
  end.

Fixpoint scan_advanced (fuel : nat) (mcfg : list McfgEntry) (s : Scan) : spin Scan :=
  match mcfg with
  | [] => Done (Some s)
  | seg :: mcfg => then_ (scan_bus fuel seg (pci_segment_group seg) 0 s) (scan_advanced fuel mcfg)
  end.

End Config.

(** ** Addresses: facts *)
Lemma rfind_from_none i c s : rfind_from i c s = None -> c ∉ s.
Proof.
  revert i. induction s as [|b s IH]; intros i H; [apply not_elem_of_nil|]. cbn [rfind_from] in H. destruct (rfind_from (S i) c s) eqn:E; [done|].
  destruct (Z.eqb_spec b c); [done|]. apply not_elem_of_cons. split; [done|by apply (IH (S i))].
Qed.

Lemma rfind_from_spec i c s j : rfind_from i c s = Some j -> (i <= j)%nat /\ exists t, drop (j - i) s = c :: t.
Proof.
  revert i j. induction s as [|b s IH]; intros i j H; cbn [rfind_from] in H; [done|]. destruct (rfind_from (S i) c s) as [k|] eqn:E.
  - injection H as ->. destruct (IH (S i) j E) as [H1 [t Ht]]. split; [lia|]. exists t. replace (j - i)%nat with (S (j - S i)) by lia. exact Ht.
  - destruct (Z.eqb_spec b c) as [->|]; [|done]. injection H as ->. split; [done|]. exists s. by rewrite Nat.sub_diag.
Qed.

(** No string is the address of a function: the part behind the last point still begins with the point. *)
Theorem from_str_never s : from_str s = Done (Err tt).
Proof.
  unfold from_str, split_at. destruct (rfind DOT s) as [i|] eqn:Hd; [|done]. destruct (rfind COLON (take i s)) as [j|]; [|done].
  destruct (if Nat.eqb _ 0 then _ else _); [|done]. destruct (negb _); [done|]. destruct (parse 256 _); [|done]. destruct (negb _); [done|]. destruct (parse 256 _); [|done].
  destruct (rfind_from_spec 0 DOT s i Hd) as [_ [t Ht]]. rewrite Nat.sub_0_r in Ht. rewrite Ht. destruct t; [done|]. done.
Qed.

Lemma lor_add a b k : 0 <= k -> 0 <= a < 2 ^ k -> 0 <= b -> Z.lor a (Z.shiftl b k) = a + b * 2 ^ k.
Proof.
  intros Hk Ha Hb. rewrite Z.shiftl_mul_pow2 by done. symmetry. apply Z.add_nocarry_lor. apply Z.bits_inj'. intros i Hi. rewrite Z.land_spec, Z.bits_0.
  destruct (Z.lt_ge_cases i k) as [Hlt|Hge].
  - rewrite Z.mul_pow2_bits_low by lia. apply andb_false_r.
  - rewrite <- (Z.mod_small a (2 ^ k)) by lia. by rewrite Z.mod_pow2_bits_high by lia.
Qed.

(** The joined number tells functions apart. *)
Theorem as_int_joined_inj a b :
  (0 <= segment_group a < 2 ^ 16 /\ 0 <= PciCfg.bus a < 256 /\ 0 <= PciCfg.device a < 32 /\ 0 <= function a < 8) ->
  (0 <= segment_group b < 2 ^ 16 /\ 0 <= PciCfg.bus b < 256 /\ 0 <= PciCfg.device b < 32 /\ 0 <= function b < 8) ->
  as_int_joined a = as_int_joined b -> a = b.
Proof.
  intros (A1 & A2 & A3 & A4) (B1 & B2 & B3 & B4). unfold as_int_joined. rewrite !(lor_add _ _ 4), !(lor_add _ _ 9), !(lor_add _ _ 18) by lia.
  destruct a, b; cbn in *. intros H. f_equal; lia.
Qed.

(** ** Configuration space: facts *)
Record wf (f : Function) : Prop := {
  wf_cfg : length (cfg f) = 4096%nat;
  wf_mask : length (wmask f) = 4096%nat;
  wf_bytes : Forall is_byte (cfg f);
  wf_mask_bytes : Forall is_byte (wmask f);
}.

Lemma merge_bound old v m n : 0 <= n -> 0 <= old < 2 ^ n -> 0 <= v < 2 ^ n -> 0 <= merge old v m < 2 ^ n.
Proof.
  intros Hn Ho Hv. assert (merge old v m = merge old v m mod 2 ^ n) as ->; [|apply Z.mod_pos_bound; lia].
  apply Z.bits_inj'. intros i Hi. destruct (Z.lt_ge_cases i n); [by rewrite Z.mod_pow2_bits_low|]. rewrite Z.mod_pow2_bits_high by lia. unfold merge.
  rewrite Z.lor_spec, Z.ldiff_spec, Z.land_spec. rewrite <- (Z.mod_small old (2 ^ n)), <- (Z.mod_small v (2 ^ n)) by lia. by rewrite !Z.mod_pow2_bits_high by lia.
Qed.

Lemma merge_merge old v w m : merge (merge old v m) w m = merge old w m.
Proof. unfold merge. apply Z.bits_inj'. intros i Hi. rewrite !Z.lor_spec, !Z.ldiff_spec, !Z.land_spec, Z.lor_spec, Z.ldiff_spec, Z.land_spec. by destruct (Z.testbit old i), (Z.testbit v i), (Z.testbit w i), (Z.testbit m i). Qed.

Lemma merge_same old v m : Z.land v m = Z.land old m -> merge old v m = old.
Proof.
  intros H. unfold merge. rewrite H. apply Z.bits_inj'. intros i Hi. rewrite Z.lor_spec, Z.ldiff_spec, Z.land_spec. by destruct (Z.testbit old i), (Z.testbit m i).
Qed.

Section Access.
Context (f : Function) (Hf : wf f).

Lemma pow256 n : 256 ^ Z.of_nat n = 2 ^ (8 * Z.of_nat n).
Proof. change 256 with (2 ^ 8). by rewrite <- Z.pow_mul_r by lia. Qed.

Lemma rd_bound o n : (o + n <= 4096)%nat -> 0 <= rd f o n < 2 ^ (8 * Z.of_nat n).
Proof using Hf.
  intros Ho. pose proof (of_le_bound _ (slice_bytes _ o n (wf_bytes _ Hf))) as H. rewrite slice_length, pow256 in H by (rewrite (wf_cfg _ Hf); lia). exact H.
Qed.

Lemma mask_bound o n : (o + n <= 4096)%nat -> 0 <= rd_mask f o n < 2 ^ (8 * Z.of_nat n).
Proof using Hf.
  intros Ho. pose proof (of_le_bound _ (slice_bytes _ o n (wf_mask_bytes _ Hf))) as H. rewrite slice_length, pow256 in H by (rewrite (wf_mask _ Hf); lia). exact H.
Qed.

Lemma wr_wf o n v : (o + n <= 4096)%nat -> wf (wr f o n v).
Proof using Hf.
  intros Ho. destruct Hf as [H1 H2 H3 H4]. split; cbn [wr cfg wmask]; try done.
  - rewrite !length_app, le_bytes_length, length_take, length_drop. lia.
  - apply Forall_app. split; [by apply Forall_take|]. apply Forall_app. split; [apply le_bytes_bytes|by apply Forall_drop].
Qed.

Lemma cfg_rd_wr o n v : (o + n <= 4096)%nat -> 0 <= v < 2 ^ (8 * Z.of_nat n) -> rd (wr f o n v) o n = merge (rd f o n) v (rd_mask f o n).
Proof using Hf.
  intros Ho Hv. unfold rd at 1, slice. cbn [wr cfg]. rewrite drop_app_length' by (rewrite length_take, (wf_cfg _ Hf); lia).
  rewrite take_app_length' by (by rewrite le_bytes_length). apply of_le_bytes. rewrite pow256. apply merge_bound; [lia|by apply rd_bound|done].
Qed.

Lemma slice_wr_other o n v o' n' : (o + n <= 4096)%nat -> (o' + n' <= o)%nat \/ (o + n <= o')%nat -> slice (cfg (wr f o n v)) o' n' = slice (cfg f) o' n'.
Proof using Hf.
  intros Ho Hd. unfold slice. cbn [wr cfg]. pose proof (wf_cfg _ Hf) as Hl. destruct Hd as [Hd|Hd].
  - rewrite drop_app_le by (rewrite length_take; lia). rewrite take_app_le by (rewrite length_drop, length_take; lia).
    rewrite !take_drop_commute, take_take. f_equal. f_equal. lia.
  - rewrite app_assoc. rewrite drop_app_ge by (rewrite length_app, le_bytes_length, length_take; lia). rewrite length_app, le_bytes_length, length_take, drop_drop.
    f_equal. f_equal. lia.
Qed.

Lemma rd_wr_other o n v o' n' : (o + n <= 4096)%nat -> (o' + n' <= o)%nat \/ (o + n <= o')%nat -> rd (wr f o n v) o' n' = rd f o' n'.
Proof using Hf. intros Ho Hd. unfold rd. by rewrite slice_wr_other. Qed.

Lemma wr_wr o n v w : (o + n <= 4096)%nat -> 0 <= v < 2 ^ (8 * Z.of_nat n) -> wr (wr f o n v) o n w = wr f o n w.
Proof using Hf.
  intros Ho Hv. unfold wr at 1. rewrite cfg_rd_wr by done. change (rd_mask (wr f o n v) o n) with (rd_mask f o n). rewrite merge_merge. unfold wr. cbn [cfg wmask]. pose proof (wf_cfg _ Hf) as Hl.
  f_equal. f_equal; [by rewrite take_app_le, take_take, Nat.min_id by (rewrite length_take; lia)|]. f_equal.
  rewrite app_assoc, drop_app_length' by (rewrite length_app, le_bytes_length, length_take; lia). done.
Qed.

Lemma wr_same o n v : (o + n <= 4096)%nat -> Z.land v (rd_mask f o n) = Z.land (rd f o n) (rd_mask f o n) -> wr f o n v = f.
Proof using Hf.
  intros Ho Hm. unfold wr. rewrite merge_same by done. pose proof (wf_cfg _ Hf) as Hl. destruct Hf as [_ _ Hb _]. destruct f as [c m]. cbn [cfg wmask] in *. f_equal.
  unfold rd. cbn [cfg]. assert (le_bytes n (of_le (slice c o n)) = slice c o n) as ->.
  { rewrite <- (slice_length c o n) at 1 by lia. apply le_bytes_of_le. by apply slice_bytes. }
  unfold slice. rewrite <- (drop_drop c n o), take_drop. apply take_drop.
Qed.

(** A word of 8 bytes is two of 4. *)
Lemma rd_split o : (o + 8 <= 4096)%nat -> rd f o 8 = rd f o 4 + 2 ^ 32 * rd f (o + 4) 4.
Proof using Hf.
  intros Ho. unfold rd, slice. change (take 8 (drop o (cfg f))) with (take (4 + 4) (drop o (cfg f))).
  rewrite <- (take_drop 4 (take (4 + 4) (drop o (cfg f)))). rewrite take_take, of_le_app. rewrite length_take, length_drop, (wf_cfg _ Hf).
  replace (Nat.min 4 (4 + 4)) with 4%nat by lia. replace (Nat.min 4 (4096 - o)) with 4%nat by lia. f_equal. f_equal. f_equal.
  rewrite <- take_drop_commute. by rewrite drop_drop.
Qed.

End Access.

(** ** The size of a base address register *)
Lemma high_test w k i : 0 <= k <= w -> 0 <= i -> Z.testbit (2 ^ w - 2 ^ k) i = (k <=? i) && (i <? w).
Proof.
  intros Hk Hi. assert (2 ^ w - 2 ^ k = Z.shiftl (Z.ones (w - k)) k) as ->.
  { rewrite Z.shiftl_mul_pow2, Z.ones_equiv, <- Z.sub_1_r by lia. rewrite Z.mul_sub_distr_r, <- Z.pow_add_r by lia. replace (w - k + k) with w by lia. lia. }
  rewrite Z.shiftl_spec by done. destruct (Z.leb_spec k i); cbn [andb]; [|by apply Z.testbit_neg_r; lia].
  destruct (Z.ltb_spec i w); [by apply Z.ones_spec_low; lia|by apply Z.ones_spec_high; lia].
Qed.

Lemma base_test k q t i : 0 <= k -> 0 <= q -> 0 <= t < 2 ^ k -> 0 <= i -> Z.testbit (q * 2 ^ k + t) i = if i <? k then Z.testbit t i else Z.testbit q (i - k).
Proof.
  intros Hk Hq Ht Hi. rewrite Z.add_comm, <- lor_add by done. rewrite Z.lor_spec, Z.shiftl_spec by done. destruct (Z.ltb_spec i k).
  - rewrite (Z.testbit_neg_r q) by lia. apply orb_false_r.
  - rewrite <- (Z.mod_small t (2 ^ k)) by done. by rewrite Z.mod_pow2_bits_high by lia.
Qed.

(** What an all-ones write leaves, and that writing the base again restores the register. *)
Lemma merge_ones w k q t : 0 <= k <= w -> 0 <= q -> 0 <= t < 2 ^ k -> q * 2 ^ k + t < 2 ^ w -> merge (q * 2 ^ k + t) (2 ^ w - 1) (2 ^ w - 2 ^ k) = (2 ^ (w - k) - 1) * 2 ^ k + t.
Proof.
  intros Hk Hq Ht Hw. assert (0 < 2 ^ (w - k)) by (apply Z.pow_pos_nonneg; lia). apply Z.bits_inj'. intros i Hi. unfold merge. rewrite Z.lor_spec, Z.ldiff_spec, Z.land_spec, high_test by lia.
  rewrite !base_test by lia. replace (2 ^ w - 1) with (Z.ones w) by (rewrite Z.ones_equiv; lia). replace (2 ^ (w - k) - 1) with (Z.ones (w - k)) by (rewrite Z.ones_equiv; lia).
  rewrite !Z.testbit_ones by lia.
  destruct (Z.ltb_spec i k), (Z.leb_spec k i), (Z.ltb_spec i w); try lia; cbn [andb negb orb]; rewrite ?andb_true_r, ?andb_false_r, ?orb_false_r; try done.
  all: try (rewrite (proj2 (Z.leb_le 0 i)), (proj2 (Z.leb_le 0 (i - k))), (proj2 (Z.ltb_lt (i - k) (w - k))) by lia; done).
  - rewrite (proj2 (Z.ltb_ge (i - k) (w - k))) by lia. rewrite andb_false_r.
    assert (q < 2 ^ (w - k)) as Hq'.
    { apply (Z.mul_lt_mono_pos_r (2 ^ k)); [lia|]. rewrite <- Z.pow_add_r by lia. replace (w - k + k) with w by lia. lia. }
    rewrite <- (Z.mod_small q (2 ^ (w - k))) by lia. by rewrite Z.mod_pow2_bits_high by lia.
Qed.

Lemma land_base w k q t : 0 <= k <= w -> 0 <= q -> 0 <= t < 2 ^ k -> Z.land (q * 2 ^ k) (2 ^ w - 2 ^ k) = Z.land (q * 2 ^ k + t) (2 ^ w - 2 ^ k).
Proof.
  intros Hk Hq Ht. rewrite <- (Z.add_0_r (q * 2 ^ k)) at 1. apply Z.bits_inj'. intros i Hi. rewrite !Z.land_spec, high_test, !base_test by lia.
  destruct (Z.ltb_spec i k), (Z.leb_spec k i); try lia; try done; cbn; by rewrite !andb_false_r.
Qed.

Lemma ldiff_ones x n : 0 <= n -> Z.ldiff x (2 ^ n - 1) = x - x mod 2 ^ n.
Proof.
  intros Hn. replace (2 ^ n - 1) with (Z.ones n) by (rewrite Z.ones_equiv; lia). rewrite Z.ldiff_ones_r, Z.shiftl_mul_pow2, Z.shiftr_div_pow2 by done.
  rewrite Z.mod_eq by lia. lia.
Qed.

Lemma mul_pow_mod q k n : 0 <= n <= k -> (q * 2 ^ k) mod 2 ^ n = 0.
Proof. intros H. replace k with ((k - n) + n) by lia. rewrite Z.pow_add_r, Z.mul_assoc by lia. apply Z.mod_mul. lia. Qed.

Lemma ldiff_base k q t n : 0 <= n <= k -> 0 <= t < 2 ^ n -> Z.ldiff (q * 2 ^ k + t) (2 ^ n - 1) = q * 2 ^ k.
Proof. intros Hn Ht. rewrite ldiff_ones by lia. rewrite <- Z.add_mod_idemp_l, mul_pow_mod, Z.add_0_l, Z.mod_small by lia. lia. Qed.

Definition bar_width (ty : BarType) : nat := match ty with Qword _ => 8 | _ => 4 end.
Definition flag_bits (ty : BarType) : Z := match ty with DwordIO => 2 | _ => 4 end.

(** The flags of a register decide its type. *)
Lemma get_type_base k q t ty : flag_bits ty <= k -> 0 <= t < 2 ^ flag_bits ty -> get_type t = Done ty -> get_type (q * 2 ^ k + t) = Done ty.
Proof.
  intros Hk Ht Hty. unfold get_type in *. assert ((q * 2 ^ k + t) mod 2 ^ flag_bits ty = t) as Hm.
  { assert (0 <= flag_bits ty) by (destruct ty; cbn; lia). rewrite <- Z.add_mod_idemp_l, mul_pow_mod, Z.add_0_l, Z.mod_small by lia. done. }
  change 1 with (2 ^ 1 - 1) in *. change 3 with (2 ^ 2 - 1) in *. rewrite !land_mask in * by lia. generalize dependent (q * 2 ^ k + t). intros x Hm.
  rewrite !Z.shiftr_div_pow2 in * by lia. change (2 ^ (2 ^ 2 - 1)) with 8 in *. change (2 ^ (2 ^ 1 - 1)) with 2 in *. change (2 ^ 1) with 2 in *. change (2 ^ 2) with 4 in *.
  assert (x mod 2 = t mod 2) as Hx1 by (destruct ty; cbn in Hm, Ht; Z.to_euclidean_division_equations; lia).
  rewrite Hx1. destruct (t mod 2 =? 0) eqn:E; cbn [negb] in *; [|done].
  assert (flag_bits ty = 4) as H4 by (destruct ty; [|done..]; exfalso; repeat (case_match; try done)). rewrite H4 in *. change (2 ^ 4) with 16 in *.
  assert ((x / 2) mod 4 = (t / 2) mod 4) as -> by (Z.to_euclidean_division_equations; lia).
  assert ((x / 8) mod 2 = (t / 8) mod 2) as -> by (Z.to_euclidean_division_equations; lia). done.
Qed.

(** A register that decodes [2 ^ k] bytes at [base]: the bits above are writable, and the flags [t] tell its type. *)
Record decodes (f : Function) (o : nat) (ty : BarType) (k base t : Z) : Prop := {
  dc_mask : rd_mask f o (bar_width ty) = 2 ^ (8 * Z.of_nat (bar_width ty)) - 2 ^ k;
  dc_size : flag_bits ty <= k < 8 * Z.of_nat (bar_width ty);
  dc_value : rd f o (bar_width ty) = base + t;
  dc_base : 0 <= base /\ (2 ^ k | base);
  dc_flags : 0 <= t < 2 ^ flag_bits ty;
  dc_type : get_type t = Done ty;
}.

Section Sizing.
Context (f : Function) (Hf : wf f) (o : nat) (Ho : (o + 8 <= 4096)%nat).

Lemma bar_alignment_ok ty k base t : decodes f o ty k base t -> bar_width ty = 4%nat ->
  get_type (rd f o 4) = Done ty /\ bar_read f o = base /\ bar_alignment f o = Done (2 ^ k, f).
Proof using Hf Ho.
  intros [Hm Hs Hv [Hb0 [q ->]] Ht Hty] Hw. rewrite Hw in *. change (8 * Z.of_nat 4) with 32 in *.
  assert (0 <= flag_bits ty) by (destruct ty; cbn; lia). assert (2 ^ flag_bits ty <= 2 ^ k) by (apply Z.pow_le_mono_r; lia). assert (0 <= q) by nia.
  pose proof (rd_bound f Hf o 4 ltac:(lia)) as Hb. change (8 * Z.of_nat 4) with 32 in Hb. rewrite Hv in Hb.
  assert (forall q', get_type (q' * 2 ^ k + t) = Done ty) as Hg by (intros q'; apply get_type_base; [lia|done..]).
  assert (forall q', bar_mask (q' * 2 ^ k + t) = q' * 2 ^ k /\ match ty with DwordIO => Z.ldiff (q' * 2 ^ k) 3 | _ => Z.ldiff (q' * 2 ^ k) 0xf end = q' * 2 ^ k) as Hbm.
  { intros q'. unfold bar_mask. pose proof (Hg q') as Hq. unfold get_type in Hq. destruct (Z.land (q' * 2 ^ k + t) 1 =? 0); cbn [negb] in Hq.
    - assert (flag_bits ty = 4) as H4 by (destruct ty; [|done..]; exfalso; repeat (case_match; try done)). rewrite H4 in *. split; [apply (ldiff_base k q' t 4); lia|].
      destruct ty; [done|..]; rewrite <- (Z.add_0_r (q' * 2 ^ k)) at 1; apply (ldiff_base k q' 0 4); lia.
    - injection Hq as <-. split; [apply (ldiff_base k q' t 2); cbn in *; lia|]. rewrite <- (Z.add_0_r (q' * 2 ^ k)) at 1. apply (ldiff_base k q' 0 2); cbn in *; lia. }
  assert (bar_read f o = q * 2 ^ k) as Hr by (unfold bar_read; rewrite Hv; apply Hbm). split; [by rewrite Hv|]. split; [done|].
  unfold bar_alignment. rewrite Hr. unfold bar_write at 1, bar_read. unfold bar_write. rewrite cfg_rd_wr by (done || lia). rewrite Hv, Hm, (merge_ones 32) by lia.
  rewrite Hg. cbn [mbind outcome_bind]. destruct (Hbm (2 ^ (32 - k) - 1)) as [-> Hl].
  rewrite wr_wr by (done || lia). rewrite wr_same; [|done|lia|rewrite Hv, Hm; apply land_base; lia].
  f_equal. f_equal. assert ((2 ^ (32 - k) - 1) * 2 ^ k = 2 ^ 32 - 2 ^ k) as He by (rewrite Z.mul_sub_distr_r, <- Z.pow_add_r by lia; replace (32 - k + k) with 32 by lia; lia).
  assert (0 < 2 ^ k < 2 ^ 32) by (split; [apply Z.pow_pos_nonneg; lia|apply Z.pow_lt_mono_r; lia]).
  destruct ty; rewrite Hl, He; unfold not32; replace (2 ^ 32 - 1 - (2 ^ 32 - 2 ^ k) + 1) with (2 ^ k) by lia; by rewrite Z.mod_small by lia.
Qed.

Lemma long_alignment_ok ty k base t : decodes f o ty k base t -> bar_width ty = 8%nat ->
  get_type (rd f o 4) = Done ty /\ long_read f o = base /\ long_alignment f o = (2 ^ k, f).
Proof using Hf Ho.
  intros [Hm Hs Hv [Hb0 [q ->]] Ht Hty] Hw. rewrite Hw in *. change (8 * Z.of_nat 8) with 64 in *. assert (flag_bits ty = 4) as H4 by (by destruct ty). rewrite H4 in *.
  assert (2 ^ 4 <= 2 ^ k) by (apply Z.pow_le_mono_r; lia). assert (0 <= q) by nia.
  pose proof (rd_bound f Hf o 8 ltac:(lia)) as Hb. change (8 * Z.of_nat 8) with 64 in Hb. rewrite Hv in Hb.
  assert (long_read f o = q * 2 ^ k) as Hr by (unfold long_read; rewrite Hv; apply (ldiff_base k q t 4); lia). split; [|split; [done|]].
  - pose proof (rd_split f Hf o Ho) as Hsp. rewrite Hv in Hsp. assert (rd f o 4 = (q * 2 ^ k - 2 ^ 32 * rd f (o + 4) 4) + t) as -> by lia.
    destruct (Z.le_gt_cases k 32).
    + replace (q * 2 ^ k - 2 ^ 32 * rd f (o + 4) 4) with ((q - 2 ^ (32 - k) * rd f (o + 4) 4) * 2 ^ k) by
        (rewrite Z.mul_sub_distr_r; replace (2 ^ (32 - k) * rd f (o + 4) 4 * 2 ^ k) with (2 ^ (32 - k) * 2 ^ k * rd f (o + 4) 4) by lia; rewrite <- Z.pow_add_r by lia; replace (32 - k + k) with 32 by lia; lia).
      apply get_type_base; [lia|by rewrite H4|done].
    + replace (q * 2 ^ k - 2 ^ 32 * rd f (o + 4) 4) with ((q * 2 ^ (k - 32) - rd f (o + 4) 4) * 2 ^ 32) by
        (rewrite Z.mul_sub_distr_r; rewrite <- Z.mul_assoc, <- Z.pow_add_r by lia; replace (k - 32 + 32) with k by lia; lia).
      apply get_type_base; [rewrite H4; lia|by rewrite H4|done].
  - unfold long_alignment. rewrite Hr. unfold long_write, long_read. rewrite cfg_rd_wr by (done || lia). rewrite Hv, Hm. change (8 * Z.of_nat 8) with 64. rewrite (merge_ones 64) by lia.
    rewrite wr_wr by (done || lia). rewrite wr_same; [|done|lia|rewrite Hv, Hm; apply land_base; lia].
    change 0xf with (2 ^ 4 - 1). rewrite (ldiff_base k _ t 4) by lia. rewrite <- (Z.add_0_r ((2 ^ (64 - k) - 1) * 2 ^ k)). rewrite (ldiff_base k _ 0 4) by lia. f_equal.
    rewrite Z.mul_sub_distr_r, <- Z.pow_add_r by lia. replace (64 - k + k) with 64 by lia. unfold wnot.
    assert (0 < 2 ^ k < 2 ^ 64) by (split; [apply Z.pow_pos_nonneg; lia|apply Z.pow_lt_mono_r; lia]). rewrite wadd_small by lia. lia.
Qed.

End Sizing.

Section Functions.
Context `{FO : FlagOps} {FL : FlagLaws}.

(** A function whose memory and I/O spaces are switched on, as far as it lets software do so. *)
Definition spaces_on (f : Function) : Function := wr f 4 2 (Z.lor (rd f 4 2) 3).

Lemma update_control_other f flags b o n : wf f -> (6 <= o)%nat -> rd (update_control f flags b).2 o n = rd f o n.
Proof. intros Hf Ho. unfold update_control. cbn [snd]. apply rd_wr_other; [done|lia|lia]. Qed.

Lemma update_control_wf f flags b : wf f -> wf (update_control f flags b).2.
Proof. intros Hf. unfold update_control. cbn [snd]. apply wr_wf; [done|lia]. Qed.

Lemma wr_merge f o n v w : wf f -> merge (rd f o n) v (rd_mask f o n) = merge (rd f o n) w (rd_mask f o n) -> wr f o n v = wr f o n w.
Proof. intros _ H. unfold wr. by rewrite H. Qed.

Lemma space_flags_3 : space_flags = 3.
Proof. reflexivity. Qed.

Lemma spaces_off_on f : wf f -> (update_control (update_control f space_flags false).2 space_flags true).2 = spaces_on f.
Proof using FL.
  intros Hf. pose proof (rd_bound f Hf 4 2 ltac:(lia)) as Hb. change (8 * Z.of_nat 2) with 16 in Hb. unfold update_control. cbn [snd]. rewrite space_flags_3, !flag_set_spec.
  assert (0 <= Z.ldiff (rd f 4 2) 3 < 2 ^ 16) as Hl by (change 3 with (2 ^ 2 - 1); rewrite ldiff_ones by lia; pose proof (Z.mod_le (rd f 4 2) (2 ^ 2) ltac:(lia) ltac:(lia)); pose proof (Z.mod_pos_bound (rd f 4 2) (2 ^ 2) ltac:(lia)); lia).
  rewrite cfg_rd_wr, wr_wr by (done || lia). apply wr_merge; [done|]. unfold merge. apply Z.bits_inj'. intros i Hi.
  rewrite !Z.lor_spec, !Z.ldiff_spec, !Z.land_spec, !Z.lor_spec, !Z.ldiff_spec, !Z.land_spec, !Z.ldiff_spec. by destruct (Z.testbit (rd f 4 2) i), (Z.testbit 3 i), (Z.testbit (rd_mask f 4 2) i).
Qed.

Lemma spaces_on_wf f : wf f -> wf (spaces_on f).
Proof. intros Hf. apply wr_wf; [done|lia]. Qed.

Lemma spaces_on_other f o n : wf f -> (o + n <= 4)%nat \/ (6 <= o)%nat -> rd (spaces_on f) o n = rd f o n.
Proof. intros Hf Ho. apply rd_wr_other; [done|lia|lia]. Qed.

Lemma spaces_on_idem f : wf f -> spaces_on (spaces_on f) = spaces_on f.
Proof.
  intros Hf. pose proof (rd_bound f Hf 4 2 ltac:(lia)) as Hb. change (8 * Z.of_nat 2) with 16 in Hb. assert (0 <= Z.lor (rd f 4 2) 3 < 2 ^ 16) as Hl.
  { split; [apply Z.lor_nonneg; lia|]. destruct (Z.eq_dec (Z.lor (rd f 4 2) 3) 0) as [->|Hne]; [lia|]. apply Z.log2_lt_cancel. rewrite Z.log2_lor, Z.log2_pow2 by lia.
    apply Z.max_lub_lt; [|reflexivity]. destruct (Z.eq_dec (rd f 4 2) 0) as [->|]; [done|]. apply Z.log2_lt_pow2; lia. }
  unfold spaces_on at 1. unfold spaces_on. rewrite cfg_rd_wr, wr_wr by (done || lia). apply wr_merge; [done|]. unfold merge. apply Z.bits_inj'. intros i Hi.
  rewrite !Z.lor_spec, !Z.ldiff_spec, !Z.land_spec, !Z.lor_spec, !Z.ldiff_spec, !Z.land_spec, !Z.lor_spec. by destruct (Z.testbit (rd f 4 2) i), (Z.testbit 3 i), (Z.testbit (rd_mask f 4 2) i).
Qed.

(** What a base address register tells: nothing, when it is not implemented, or what it decodes. *)
Inductive bar_hw (h : HeaderType) (f : Function) (i : nat) : option BarInfo -> Prop :=
  | hw_none o : header_bar h i = Some o -> rd_mask f o 4 = 0 -> rd f o 4 = 0 -> bar_hw h f i None
  | hw_some o ty k base t : header_bar h i = Some o -> decodes f o ty k base t -> bar_hw h f i (Some (mkBar i (2 ^ k) ty base)).

Lemma header_bar_range h i o : header_bar h i = Some o -> (16 <= o /\ o + 8 <= 48)%nat.
Proof. unfold header_bar. destruct (Nat.ltb_spec i (bar_count h)) as [Hi|]; [|done]. intros [= <-]. destruct h; cbn in Hi; lia. Qed.

Lemma decodes_ext f f' o ty k base t : (forall n, rd f' o n = rd f o n) -> wmask f' = wmask f -> decodes f o ty k base t -> decodes f' o ty k base t.
Proof. intros Hr Hm []. split; try done; [unfold rd_mask in *; by rewrite Hm|by rewrite Hr]. Qed.

Lemma bar_hw_ext h f f' i b : (forall o n, (6 <= o)%nat -> rd f' o n = rd f o n) -> wmask f' = wmask f -> bar_hw h f i b -> bar_hw h f' i b.
Proof.
  intros Hr Hm Hb. destruct Hb as [o Ho H1 H2|o ty k base t Ho Hd]; pose proof (header_bar_range h i o Ho).
  - apply (hw_none h f' i o Ho); [unfold rd_mask in *; by rewrite Hm|by rewrite Hr by lia].
  - apply (hw_some h f' i o ty k base t Ho). apply (decodes_ext f); [intros n; apply Hr; lia|done|done].
Qed.

(** [BarInfo::new] finds out what a base address register decodes and leaves the function as it was: for a register of
    each kind, I/O, 32-bit and 64-bit memory, that decodes a power of two of bytes at a base, it returns exactly
    this size and base and the type, for a register that is not implemented nothing.  All of configuration
    space has its old contents afterwards, but both spaces of the function are switched on, whatever they were. *)
Lemma bar_info_sizing h f i b : wf f -> bar_hw h f i b -> bar_info_new h f i = Done (b, spaces_on f).
Proof using FL.
  intros Hf Hb. unfold bar_info_new. set (f1 := (update_control f space_flags false).2). assert (wf f1) as Hf1 by (by apply update_control_wf).
  assert (forall o n, (6 <= o)%nat -> rd f1 o n = rd f o n) as Hr by (intros; by apply update_control_other).
  apply (bar_hw_ext h f f1) in Hb; [|done|done]. destruct Hb as [o Ho H1 H2|o ty k base t Ho Hd]; pose proof (header_bar_range h i o Ho) as Hor; rewrite Ho.
  - rewrite H2. change (get_type 0) with (Done (Dword false)). cbn [mbind outcome_bind]. assert (forall v, wr f1 o 4 v = f1) as Hw by (intros v; apply wr_same; [done|lia|by rewrite H1, !Z.land_0_r]).
    unfold bar_alignment, bar_write, bar_read. rewrite !Hw, H2. change (get_type 0) with (Done (Dword false)). cbn [mbind outcome_bind]. by rewrite <- spaces_off_on.
  - destruct (decide (bar_width ty = 4%nat)) as [Hw|Hw].
    + destruct (bar_alignment_ok f1 Hf1 o ltac:(lia) ty k base t Hd Hw) as (-> & H2 & ->). cbn [mbind outcome_bind]. rewrite H2, <- spaces_off_on by done.
      assert (0 < 2 ^ k) by (pose proof (dc_size _ _ _ _ _ _ Hd); apply Z.pow_pos_nonneg; [lia|destruct ty; cbn in *; lia]). destruct ty; [..|done]; by rewrite (proj2 (Z.eqb_neq _ _)) by lia.
    + assert (bar_width ty = 8%nat) as Hw8 by (by destruct ty). destruct (long_alignment_ok f1 Hf1 o ltac:(lia) ty k base t Hd Hw8) as (-> & H2 & Ha). cbn [mbind outcome_bind].
      destruct ty as [| |p]; [done..|]. rewrite Ha, H2, <- spaces_off_on by done. assert (0 < 2 ^ k) by (pose proof (dc_size _ _ _ _ _ _ Hd); apply Z.pow_pos_nonneg; cbn in *; lia).
      by rewrite (proj2 (Z.eqb_neq _ _)) by lia.
Qed.

(** The registers of a function in the order of the loop. *)
Inductive bars_hw (h : HeaderType) (f : Function) : list nat -> list (option BarInfo) -> list (option BarInfo) -> Prop :=
  | bars_nil bars : bars_hw h f [] bars bars
  | bars_none i rest bars r : bar_hw h f i None -> bars_hw h f rest bars r -> bars_hw h f (i :: rest) bars r
  | bars_word i rest b bars r : bar_hw h f i (Some b) -> bar_width (reg_info b) = 4%nat -> (i < length bars)%nat ->
      bars_hw h f rest (<[i := Some b]> bars) r -> bars_hw h f (i :: rest) bars r
  | bars_long i rest b bars r : bar_hw h f i (Some b) -> bar_width (reg_info b) = 8%nat -> (i < length bars)%nat ->
      bars_hw h f (tail rest) (<[i := Some b]> bars) r -> bars_hw h f (i :: rest) bars r.

(** What [DeviceControl::new] leaves of a function. *)
Definition probed (h : HeaderType) (f : Function) : Function := match h with CardBusBridge => f | _ => spaces_on f end.

Lemma bars_hw_ext h f f' ids bars r : (forall o n, (6 <= o)%nat -> rd f' o n = rd f o n) -> wmask f' = wmask f -> bars_hw h f ids bars r -> bars_hw h f' ids bars r.
Proof.
  intros Hr Hm. induction 1 as [|i rest bars r Hb _ IH|i rest b bars r Hb Hw Hl _ IH|i rest b bars r Hb Hw Hl _ IH]; [constructor|..]; apply (bar_hw_ext h f f') in Hb; try done.
  - by apply bars_none.
  - by eapply bars_word.
  - by eapply bars_long.
Qed.

Lemma bar_loop_ok h f ids bars r : wf f -> bars_hw h f ids bars r -> bar_loop h ids f bars = Done (r, if decide (ids = []) then f else spaces_on f).
Proof using FL.
  intros Hf Hb. revert bars r f Hf Hb. induction ids as [ids IH] using (induction_ltof1 _ (@length nat)). unfold ltof in IH. intros bars r f Hf Hb.
  assert (forall ids' bars' r', (length ids' < length ids)%nat -> bars_hw h f ids' bars' r' -> bar_loop h ids' (spaces_on f) bars' = Done (r', spaces_on f)) as IH'.
  { intros ids' bars' r' Hl Hb'. rewrite (IH ids' Hl bars' r' (spaces_on f)); [|by apply spaces_on_wf|].
    - case_decide; [done|]. by rewrite spaces_on_idem.
    - apply (bars_hw_ext h f); [|done|done]. intros o n Ho. apply spaces_on_other; [done|lia]. }
  clear IH. inversion Hb as [|i rest bars0 r0 H1 H2|i rest b bars0 r0 H1 H2 H3 H4|i rest b bars0 r0 H1 H2 H3 H4]; subst; [done|..]; cbn [bar_loop]; rewrite (bar_info_sizing h f i _ Hf H1); cbn [mbind outcome_bind].
  - rewrite (IH' rest bars r) by (done || cbn; lia). done.
  - rewrite (proj2 (Nat.ltb_lt _ _)) by done. cbn [assert_that mbind outcome_bind]. destruct (reg_info b); [..|done]; rewrite (IH' rest _ r) by (done || cbn; lia); done.
  - rewrite (proj2 (Nat.ltb_lt _ _)) by done. cbn [assert_that mbind outcome_bind]. destruct (reg_info b); [done..|]. destruct rest as [|i' rest]; cbn [tail] in H4; (rewrite (IH' _ _ r); [done|cbn; lia|done]).
Qed.

(** ** Capabilities *)
Lemma cap_iter_fuel region k k' n l : cap_iter k region n = Some l -> (length l <= k')%nat -> cap_iter k' region n = Some l.
Proof.
  revert k' n l. induction k as [|k IH]; intros k' n l H Hl; destruct n as [n|]; cbn [cap_iter] in *; [done|by destruct k'| |by destruct k'].
  destruct (cap_next region n) as [c m] eqn:E. destruct (cap_iter k region m) as [l'|] eqn:Hc; cbn in H; [|done]. injection H as <-. destruct k' as [|k']; [cbn in Hl; lia|].
  cbn [cap_iter]. rewrite E. rewrite (IH k' m l' Hc) by (cbn in Hl; lia). done.
Qed.

Lemma cap_iter_suffix region k n l o : Forall is_byte region -> cap_iter k region n = Some l -> (forall m, n = Some m -> is_byte m) -> o ∈ (cap_offset <$> l) ->
  exists k' l', cap_iter k' region (Some o) = Some l' /\ (length l' <= length l)%nat.
Proof.
  intros Hr. revert n l. induction k as [|k IH]; intros n l H Hn Ho; destruct n as [n|]; cbn [cap_iter] in H; try done.
  - injection H as <-. by apply not_elem_of_nil in Ho.
  - destruct (cap_next region n) as [c m] eqn:E. destruct (cap_iter k region m) as [l'|] eqn:Hc; cbn in H; [|done]. injection H as <-. cbn in Ho. unfold cap_next in E. injection E as <- <-.
    specialize (Hn n eq_refl). unfold is_byte in Hn. apply elem_of_cons in Ho as [->|Ho].
    + exists (S k), (fst (cap_next region n) :: l'). cbn [cap_offset]. rewrite Z.mod_small by lia. split; [|done]. cbn [cap_iter]. unfold cap_next at 1. rewrite Hc. done.
    + destruct (IH _ _ Hc) as (k' & l'' & H1 & H2); [|done|exists k', l''; split; [done|cbn; lia]].
      intros m. case_match; [done|]. intros [= <-]. destruct (nth_in_or_default (Z.to_nat n + 1) region 0) as [Hin| ->]; [|unfold is_byte; lia].
      rewrite Forall_forall in Hr. apply Hr. by apply list_elem_of_In.
  - injection H as <-. by apply not_elem_of_nil in Ho.
Qed.

(** The offsets of a list that ends are different bytes. *)
Lemma cap_iter_nodup region k n l : Forall is_byte region -> (forall m, n = Some m -> is_byte m) -> cap_iter k region n = Some l ->
  NoDup (cap_offset <$> l) /\ Forall is_byte (cap_offset <$> l).
Proof.
  intros Hr. revert n l. induction k as [|k IH]; intros n l Hn H; destruct n as [n|]; cbn [cap_iter] in H; try done; [injection H as <-; split; constructor| |injection H as <-; split; constructor].
  destruct (cap_next region n) as [c m] eqn:E. destruct (cap_iter k region m) as [l'|] eqn:Hc; cbn in H; [|done]. injection H as <-. pose proof (Hn n eq_refl) as Hb. unfold is_byte in Hb.
  assert (forall m', m = Some m' -> is_byte m') as Hm.
  { unfold cap_next in E. injection E as _ <-. intros m'. case_match; [done|]. intros [= <-]. destruct (nth_in_or_default (Z.to_nat n + 1) region 0) as [Hin| ->]; [|unfold is_byte; lia].
    rewrite Forall_forall in Hr. apply Hr. by apply list_elem_of_In. }
  destruct (IH m l' Hm Hc) as [H1 H2]. assert (cap_offset c = n) as Hoff by (unfold cap_next in E; injection E as <- _; cbn; apply Z.mod_small; lia). rewrite fmap_cons, Hoff. split; [|by constructor].
  apply NoDup_cons. split; [|done]. intros Hin. destruct (cap_iter_suffix region k m l' n Hr Hc Hm Hin) as (k' & l'' & G1 & G2).
  assert (cap_iter (S k) region (Some n) = Some (c :: l')) as Hfull by (cbn [cap_iter]; rewrite E, Hc; done).
  pose proof (cap_iter_fuel region (S k) (S k + k') (Some n) _ Hfull) as F1. pose proof (cap_iter_fuel region k' (S k + k') (Some n) _ G1) as F2.
  assert (length l' <= k)%nat as Hl.
  { clear -Hc. revert m l' Hc. induction k as [|k IH]; intros m l' Hc; destruct m as [m|]; cbn [cap_iter] in Hc; try done; [injection Hc as <-; done| |injection Hc as <-; cbn; lia].
    destruct (cap_next region m) as [c m']. destruct (cap_iter k region m') eqn:E; cbn in Hc; [|done]. injection Hc as <-. apply IH in E. cbn. lia. }
  rewrite F1 in F2 by (cbn; lia). specialize (F2 ltac:(lia)). injection F2 as <-. cbn in G2. lia.
Qed.

(** The search for capabilities returns within 257 steps or not at all. *)
Lemma cap_iter_total region n k l : Forall is_byte region -> (forall m, n = Some m -> is_byte m) -> cap_iter k region n = Some l -> cap_iter 257 region n = Some l.
Proof.
  intros Hr Hn H. apply (cap_iter_fuel region k); [done|]. destruct (cap_iter_nodup region k n l Hr Hn H) as [H1 H2].
  rewrite <- (length_fmap cap_offset). assert (cap_offset <$> l ⊆+ seqZ 0 256) as Hs.
  { apply NoDup_submseteq; [done|]. intros o Ho. apply elem_of_seqZ. rewrite Forall_forall in H2. specialize (H2 o Ho). unfold is_byte in H2. lia. }
  apply submseteq_length in Hs. rewrite length_seqZ in Hs. lia.
Qed.

(** ** Functions *)
Lemma cap_map_find l id : capability (cap_map l) id = last (filter (fun c => cap_id c = id) l).
Proof.
  unfold cap_map. induction l as [|c l IH] using rev_ind; [done|]. rewrite foldl_app. cbn [foldl]. unfold insert_cap at 1. unfold capability in *. cbn [List.find].
  rewrite filter_app, filter_cons, filter_nil. case_bool_decide as Hc; [rewrite decide_True by done; by rewrite last_snoc|]. rewrite decide_False by done. rewrite app_nil_r, <- IH.
  clear IH. generalize (foldl insert_cap [] l). intros m. induction m as [|x m IHm]; [done|]. rewrite filter_cons. case_decide as Hx; cbn [List.find].
  - case_bool_decide; [done|]. apply IHm.
  - assert (cap_id x = cap_id c) as He by (destruct (decide (cap_id x = cap_id c)); tauto). rewrite bool_decide_eq_false_2 by congruence. apply IHm.
Qed.

Lemma bars_hw_entries h f ids bars r : bars_hw h f ids bars r -> forall i b, r !! i = Some (Some b) -> bars !! i = Some (Some b) \/ bar_hw h f i (Some b).
Proof.
  induction 1 as [|i rest bars r Hb _ IH|i rest b bars r Hb Hw Hl _ IH|i rest b bars r Hb Hw Hl _ IH]; intros j c Hj; [by left|by apply IH|..].
  all: destruct (IH j c Hj) as [Hi|Hi]; [|by right]; destruct (decide (j = i)) as [->|Hne]; [rewrite list_lookup_insert_eq in Hi by done; injection Hi as <-; by right|rewrite list_lookup_insert_ne in Hi by done; by left].
Qed.

(** A function as its header describes it. *)
Record function_hw (f : Function) (h : HeaderType) (bars : list (option BarInfo)) (caps : list CapabilityPointer) : Prop := {
  fh_wf : wf f;
  fh_vendor : vendor f <> 0xffff;
  fh_type : header_type f = Done h;
  fh_bars : bars_hw h f (seq 0 (bar_count h)) (replicate 6 None) bars;
  fh_caps : exists k, cap_iter k (cfg (probed h f)) (header_capabilities h f) = Some caps;
}.

Lemma probed_other h f o n : wf f -> (o + n <= 4)%nat \/ (6 <= o)%nat -> slice (cfg (probed h f)) o n = slice (cfg f) o n /\ rd (probed h f) o n = rd f o n.
Proof.
  intros Hf Ho. destruct h; cbn [probed]; [..|done]; (split; [unfold spaces_on; apply slice_wr_other; [done|lia|lia]|by apply spaces_on_other]).
Qed.

Lemma probed_wf h f : wf f -> wf (probed h f).
Proof. intros Hf. destruct h; cbn [probed]; [by apply spaces_on_wf..|done]. Qed.

Lemma bar_loop_probed h f bars : wf f -> bars_hw h f (seq 0 (bar_count h)) (replicate 6 None) bars -> bar_loop h (seq 0 (bar_count h)) f (replicate 6 None) = Done (bars, probed h f).
Proof using FL. intros Hf Hb. rewrite (bar_loop_ok h f _ _ bars) by done. by destruct h. Qed.

Lemma device_new_ok a address b f h bars caps : b !! a = Some f -> function_hw f h bars caps ->
  device_new a address b = Done (Some (Some (mkDev address (vendor f) (device_id f) h (rev (class f)) a bars (cap_map caps)), <[a := probed h f]> b)).
Proof using FL.
  intros Ha [Hf Hv Ht Hb [k Hc]]. unfold device_new. rewrite Ha. rewrite (proj2 (Z.eqb_neq _ _)) by done. rewrite Ht. cbn [mbind outcome_bind]. rewrite bar_loop_probed with (bars := bars) by done. cbn [mbind outcome_bind].
  assert (header_capabilities h (probed h f) = header_capabilities h f) as -> by (unfold header_capabilities; by rewrite !(fun o n H => proj2 (probed_other h f o n Hf H)) by lia).
  rewrite (cap_iter_total _ _ k caps); [|apply (wf_bytes _ (probed_wf h f Hf))|..|done].
  - unfold vendor, device_id, class. by rewrite !(fun o n H => proj2 (probed_other h f o n Hf H)), (fun o n H => proj1 (probed_other h f o n Hf H)) by lia.
  - intros m Hm. unfold header_capabilities in Hm. destruct h; try done; (destruct (contains _ _); [|done]; injection Hm as <-; apply Z.mod_pos_bound; lia).
Qed.

(** C15. What [DeviceControl::new] knows of a function is what the hardware has.  The base address registers are found
    with the size, type and base that they decode, 64-bit ones as one, each capability with its last place in the list,
    the walk of which ends if the list has an end.  Afterwards configuration space is as it was but for the two
    spaces that are switched on, and [validate_bar] agrees for every memory register.  The registers are memory registers and those for
    I/O whose upper 16 bits can be written: of a register for 16 bits of I/O addresses the size is computed wrongly. *)
Theorem device_new_spec a address b f h bars caps :
  b !! a = Some f -> function_hw f h bars caps ->
  exists d, device_new a address b = Done (Some (Some d, <[a := probed h f]> b)) /\
    dev_vendor d = vendor f /\ dev_device d = device_id f /\ dev_type d = h /\ dev_class d = rev (class f) /\ dev_bar d = bars /\
    (forall i bar, bars !! i = Some (Some bar) -> bar_hw h f i (Some bar) /\
       validate_bar d (probed h f) i = Done (match reg_info bar with DwordIO => Err BarIsIO | _ => Ok tt end)) /\
    (forall id, capability (capabilities d) id = last (filter (fun c => cap_id c = id) caps)).
Proof using FL.
  intros Ha Hhw. eexists. split; [by apply device_new_ok|]. cbn [dev_vendor dev_device dev_type dev_class dev_bar capabilities]. do 5 (split; [done|]). split; [|intros id; apply cap_map_find].
  intros i bar Hi. destruct Hhw as [Hf Hv Ht Hb Hc]. destruct (bars_hw_entries h f _ _ _ Hb i bar Hi) as [Hbad|Hbar].
  { apply lookup_replicate in Hbad as [Hbad _]. done. }
  split; [done|]. unfold validate_bar. cbn [dev_type dev_bar]. rewrite Hi. cbn [unwrap mbind outcome_bind].
  assert (bar_hw h (probed h f) i (Some bar)) as Hp by (apply (bar_hw_ext h f); [intros o' n' Ho'; apply (probed_other h f o' n' Hf); lia|by destruct h|done]).
  inversion Hp as [|o ty k base t Ho Hd]; subst. pose proof (header_bar_range h i o Ho). cbn [reg_info addr bar_id].
  assert (i <= bar_count h)%nat as Hile by (unfold header_bar in Ho; destruct (Nat.ltb_spec i (bar_count h)); [lia|done]). rewrite (proj2 (Nat.ltb_ge _ _)) by lia. pose proof (probed_wf h f Hf) as Hpf.
  destruct ty as [|p|p]; [done|..]; rewrite Ho; cbn [unwrap mbind outcome_bind].
  - destruct (bar_alignment_ok _ Hpf o ltac:(lia) _ _ _ _ Hd eq_refl) as (_ & -> & _). by rewrite Z.eqb_refl.
  - destruct (long_alignment_ok _ Hpf o ltac:(lia) _ _ _ _ Hd eq_refl) as (-> & -> & _). cbn [mbind outcome_bind]. by rewrite Z.eqb_refl.
Qed.

End Functions.

(** ** The search for functions *)
Lemma all_devs_elem d : d ∈ all_devs <-> 0 <= d < 32.
Proof.
  unfold all_devs. rewrite list_elem_of_fmap. split; [intros (n & -> & Hn); apply elem_of_seq in Hn; lia|]. intros Hd. exists (Z.to_nat d). split; [lia|]. apply elem_of_seq. lia.
Qed.

Section Search.
Context `{FO : FlagOps} {FL : FlagLaws}.
Context (region : McfgEntry) (b0 : Bus).
Local Abbreviation group := (pci_segment_group region).

(** Where the specification puts the configuration space of a function. *)
Definition ecam (x : DeviceAddress) : Z := base_address region + PciCfg.bus x * 2 ^ 20 + PciCfg.device x * 2 ^ 15 + function x * 2 ^ 12.
Definition at_addr (x : DeviceAddress) : option Function := b0 !! ecam x.
Definition in_range (x : DeviceAddress) : Prop := 0 <= PciCfg.bus x < 256 /\ 0 <= PciCfg.device x < 32 /\ 0 <= function x < 8.

Definition present (x : DeviceAddress) : Prop := exists f, at_addr x = Some f /\ vendor f <> 0xffff.
Definition multi (x : DeviceAddress) : Prop := exists f, at_addr x = Some f /\ vendor f <> 0xffff /\ is_multi_fn f = true.
Definition bridge_to (x : DeviceAddress) (sec : Z) : Prop :=
  exists f, at_addr x = Some f /\ vendor f <> 0xffff /\ header_type f = Done Bridge /\ get_secondary_bus f = sec.

(** The functions of a bus, and those below it behind bridges. *)
Definition on_bus (b : Z) (x : DeviceAddress) : Prop :=
  segment_group x = group /\ PciCfg.bus x = b /\ in_range x /\ present x /\ (function x = 0 \/ multi (mkAddr group b (PciCfg.device x) 0)).
Inductive visible : Z -> DeviceAddress -> Prop :=
  | vis_here b x : on_bus b x -> visible b x
  | vis_below b x sec y : on_bus b x -> bridge_to x sec -> visible sec y -> visible b y.
Definition below (x y : DeviceAddress) : Prop := y = x \/ exists sec, bridge_to x sec /\ visible sec y.

Lemma visible_below b y : visible b y <-> exists x, on_bus b x /\ below x y.
Proof.
  split.
  - intros [b' x H|b' x sec y' H1 H2 H3]; [exists x; split; [done|by left]|exists x; split; [done|right; by exists sec]].
  - intros (x & H & [->|(sec & H1 & H2)]); [by apply vis_here|by apply (vis_below b x sec)].
Qed.

Hypothesis segment_start : bus_number_start region = 0.
Hypothesis segment_range : 0 <= base_address region /\ base_address region + 2 ^ 28 <= 2 ^ 64.
Hypothesis functions_ok : forall a f, b0 !! a = Some f -> wf f /\ (vendor f <> 0xffff -> exists h bars caps, function_hw f h bars caps).

Lemma cfg_addr_ecam x : in_range x -> advanced_cfg_addr x region = Some (ecam x).
Proof using segment_start segment_range.
  intros (H1 & H2 & H3). unfold advanced_cfg_addr, ecam. rewrite segment_start, Z.sub_0_r, Z.mod_small by lia. f_equal. rewrite (Z.lor_comm (Z.shiftl (PciCfg.bus x) 20)).
  rewrite <- (Z.lor_assoc), (Z.lor_comm (Z.shiftl (PciCfg.bus x) 20)), Z.lor_assoc, (Z.lor_comm (Z.shiftl (PciCfg.device x) 15)).
  rewrite (Z.shiftl_mul_pow2 (function x)) by lia. rewrite (lor_add _ _ 15), (lor_add _ _ 20) by lia. rewrite wadd_small by lia. lia.
Qed.

(** The configuration spaces during the search: some functions have been switched on. *)
Definition agree (f f' : Function) : Prop := f' = f \/ f' = spaces_on f.
Definition same (b : Bus) : Prop := forall a, match b0 !! a, b !! a with Some f, Some f' => agree f f' | None, None => True | _, _ => False end.

Lemma agree_other f f' o n : wf f -> agree f f' -> (o + n <= 4)%nat \/ (6 <= o)%nat -> rd f' o n = rd f o n.
Proof. intros Hf [-> | ->] Ho; [done|by apply spaces_on_other]. Qed.

Lemma agree_hw f f' h bars caps : function_hw f h bars caps -> agree f f' -> function_hw f' h bars caps.
Proof using FL.
  intros Hhw [-> | ->]; [done|]. destruct Hhw as [Hf Hv Ht Hb [k Hc]]. split.
  - by apply spaces_on_wf.
  - unfold vendor in *. by rewrite spaces_on_other by (done || lia).
  - unfold header_type in *. by rewrite spaces_on_other by (done || lia).
  - apply (bars_hw_ext h f); [|done|done]. intros o n Ho. apply spaces_on_other; [done|lia].
  - assert (header_capabilities h (spaces_on f) = header_capabilities h f) as -> by (unfold header_capabilities; by rewrite !spaces_on_other by (done || lia)).
    destruct h; cbn [probed] in *; [exists k; by rewrite spaces_on_idem..|]. exists k. by destruct k.
Qed.

Lemma agree_probed f f' h : wf f -> agree f f' -> agree f (probed h f').
Proof.
  intros Hf [-> | ->]; destruct h; cbn [probed]; try (by left); try (by right); right; by apply spaces_on_idem.
Qed.

Lemma same_lookup b x f : same b -> b0 !! x = Some f -> exists f', b !! x = Some f' /\ agree f f'.
Proof. intros Hs Hx. specialize (Hs x). rewrite Hx in Hs. destruct (b !! x) as [f'|]; [by exists f'|done]. Qed.

(** One step of the search. *)
Lemma probe_absent x s k : same (sc_bus s) -> in_range x -> ~ present x -> probe region x s k = Done (Some s).
Proof using segment_start segment_range functions_ok.
  intros Hs Hx Hp. unfold probe. rewrite cfg_addr_ecam by done. unfold device_new. pose proof (Hs (ecam x)) as Ha. destruct s as [b l]. cbn [sc_bus sc_found] in *.
  destruct (b !! ecam x) as [f'|] eqn:E; [|done]. destruct (b0 !! ecam x) as [f|] eqn:E0; [|done]. destruct (functions_ok _ _ E0) as [Hf _].
  assert (vendor f' = vendor f) as Hv by (unfold vendor; apply agree_other; [done|done|lia]). rewrite Hv. destruct (Z.eqb_spec (vendor f) 0xffff); [done|]. exfalso. apply Hp. by exists f.
Qed.

Lemma probe_present x s k : same (sc_bus s) -> in_range x -> present x ->
  exists d b f f' h, probe region x s k = k d (mkScan b (sc_found s)) /\ same b /\ address d = x /\ at_addr x = Some f /\ vendor f <> 0xffff /\
    header_type f = Done h /\ dev_type d = h /\ cfg_addr d = ecam x /\ b !! ecam x = Some f' /\ agree f f' /\ wf f.
Proof using FL segment_start segment_range functions_ok.
  intros Hs Hx (f & Hf & Hv). destruct (functions_ok _ _ Hf) as [Hwf Hhw]. destruct (Hhw Hv) as (h & bars & caps & Hfh). destruct (same_lookup _ _ _ Hs Hf) as (f' & Hf' & Ha).
  pose proof (agree_hw f f' h bars caps Hfh Ha) as Hfh'. unfold probe. rewrite cfg_addr_ecam by done. rewrite (device_new_ok _ _ _ f' h bars caps) by done. cbn [then_ fst snd].
  eexists _, _, f, (probed h f'), h. split; [done|]. split.
  - intros a. destruct (decide (a = ecam x)) as [->|Hne]; [|rewrite lookup_insert_ne by done; apply Hs]. rewrite lookup_insert_eq. unfold at_addr in Hf. rewrite Hf. by apply agree_probed.
  - cbn [address dev_type cfg_addr]. rewrite lookup_insert_eq. split_and!; try done; [apply (fh_type _ _ _ _ Hfh)|by apply agree_probed].
Qed.

(** What a part of the search adds to the functions that are known. *)
Definition adds (s s' : Scan) (P : DeviceAddress -> Prop) : Prop := exists l, sc_found s' = sc_found s ++ l /\ forall y, y ∈ (address <$> l) <-> P y.
Definition runs (m : spin Scan) (s : Scan) (P : DeviceAddress -> Prop) : Prop := exists s', m = Done (Some s') /\ same (sc_bus s') /\ adds s s' P.

Lemma runs_skip s P : same (sc_bus s) -> (forall y, ~ P y) -> runs (Done (Some s)) s P.
Proof. intros Hs HP. exists s. split; [done|]. split; [done|]. exists []. split; [by rewrite app_nil_r|]. intros y. split; [intros Hy; by apply not_elem_of_nil in Hy|intros Hy; by destruct (HP y)]. Qed.

Lemma runs_then m k s P Q R : runs m s P -> (forall s', same (sc_bus s') -> runs (k s') s' Q) -> (forall y, R y <-> P y \/ Q y) -> runs (then_ m k) s R.
Proof.
  intros (s1 & -> & H1 & l1 & H2 & H3) Hk HR. destruct (Hk s1 H1) as (s2 & H4 & H5 & l2 & H6 & H7). exists s2. cbn [then_]. split; [done|]. split; [done|]. exists (l1 ++ l2).
  split; [by rewrite H6, H2, app_assoc|]. intros y. by rewrite fmap_app, elem_of_app, H3, H7, HR.
Qed.

Lemma runs_ext m s P Q : (forall y, P y <-> Q y) -> runs m s P -> runs m s Q.
Proof. intros He (s' & H1 & H2 & l & H3 & H4). exists s'. split; [done|]. split; [done|]. exists l. split; [done|]. intros y. by rewrite H4, He. Qed.

(** The state after a probe, seen from the state before it. *)
Lemma runs_from m s b P : runs m (mkScan b (sc_found s)) P -> runs m s P.
Proof. intros (s' & H1 & H2 & l & H3 & H4). by exists s'; split; [|split; [|exists l]]. Qed.

(** Secondary buses have larger numbers. *)
Hypothesis tree : forall x sec, in_range x -> bridge_to x sec -> PciCfg.bus x < sec.

Lemma bridge_bound x sec : bridge_to x sec -> 0 <= sec < 256.
Proof using functions_ok. intros (f & Hf & _ & _ & <-). destruct (functions_ok _ _ Hf) as [Hwf _]. apply (rd_bound f Hwf 0x19 1). lia. Qed.

Section Level.
Context (rec : Z -> Z -> Scan -> spin Scan) (bus : Z).
Hypothesis rec_ok : forall sec s, bus < sec < 256 -> same (sc_bus s) -> runs (rec group sec s) s (visible sec).

Lemma check_dev_ok x d f f' h s : in_range x -> PciCfg.bus x = bus -> segment_group x = group -> same (sc_bus s) -> address d = x -> at_addr x = Some f -> vendor f <> 0xffff ->
  header_type f = Done h -> dev_type d = h -> cfg_addr d = ecam x -> sc_bus s !! ecam x = Some f' -> agree f f' -> wf f -> runs (check_dev rec d s) s (below x).
Proof using segment_range functions_ok rec_ok tree.
  intros Hx Hbx Hg Hs Hd Hf Hv Hh Hdt Hca Hf' Ha Hwf. unfold check_dev. rewrite Hdt, Hca, Hd, Hg, Hf'.
  apply (runs_then _ _ s (fun y => exists sec, bridge_to x sec /\ visible sec y) (fun y => y = x)).
  - assert (get_secondary_bus f' = get_secondary_bus f) as Hsec by (unfold get_secondary_bus; apply agree_other; [done|done|lia]). destruct (decide (h = Bridge)) as [->|Hne].
    + assert (bridge_to x (get_secondary_bus f)) as Hbr by (by exists f). rewrite Hsec. apply (runs_ext _ _ (visible (get_secondary_bus f))).
      * intros y. split; [intros Hy; by exists (get_secondary_bus f)|]. intros (sec & (f2 & G1 & _ & _ & <-) & G2). by rewrite Hf in G1; injection G1 as <-.
      * apply rec_ok; [|done]. pose proof (tree x _ Hx Hbr). pose proof (bridge_bound x _ Hbr). lia.
    + assert (forall y, ~ exists sec, bridge_to x sec /\ visible sec y) as Hno.
      { intros y (sec & (f2 & G1 & _ & G2 & _) & _). rewrite Hf in G1. injection G1 as <-. congruence. }
      destruct h; [|done|]; by apply runs_skip.
  - intros s' Hs'. eexists. split; [done|]. split; [done|]. exists [d]. cbn [sc_found]. split; [done|]. intros y. cbn. rewrite Hd. by rewrite list_elem_of_singleton.
  - intros y. unfold below. tauto.
Qed.

Lemma fns_loop_ok x fns s : in_range x -> PciCfg.bus x = bus -> segment_group x = group -> (forall i, i ∈ fns -> 0 <= i < 8) -> same (sc_bus s) ->
  runs (fns_loop rec region x fns s) s (fun y => exists i, i ∈ fns /\ present (mkAddr group bus (PciCfg.device x) i) /\ below (mkAddr group bus (PciCfg.device x) i) y).
Proof using FL segment_start segment_range functions_ok rec_ok tree.
  intros Hx Hbx Hg. revert s. induction fns as [|i fns IH]; intros s Hi Hs; cbn [fns_loop].
  - apply runs_skip; [done|]. intros y (i & Hin & _). by apply not_elem_of_nil in Hin.
  - pose proof (Hi i (list_elem_of_here _ _)) as Hi8. destruct Hx as (X1 & X2 & X3). unfold new_function, address_new. rewrite (proj2 (Z.ltb_lt (PciCfg.device x) 32)) by lia. cbn [assert_that mbind outcome_bind]. rewrite (proj2 (Z.ltb_lt i 8)) by lia. cbn [assert_that mbind outcome_bind].
    rewrite Hg, Hbx. set (x' := mkAddr group bus (PciCfg.device x) i). assert (in_range x') as Hx' by (unfold in_range; cbn; lia).
    apply (runs_then _ _ s (fun y => present x' /\ below x' y) (fun y => exists i, i ∈ fns /\ present (mkAddr group bus (PciCfg.device x) i) /\ below (mkAddr group bus (PciCfg.device x) i) y)).
    + destruct (at_addr x') as [f|] eqn:Hf; [destruct (decide (vendor f = 0xffff)) as [Hv|Hv]|].
      * assert (~ present x') as Hn by (intros (f2 & G1 & G2); congruence). rewrite probe_absent by done. apply runs_skip; [done|]. tauto.
      * assert (present x') as Hp by (by exists f). destruct (probe_present x' s (check_dev rec) Hs Hx' Hp) as (d & b & f1 & f' & h & -> & H1 & H2 & H3 & H4 & H5 & H6 & H7 & H8 & H9 & H10).
        apply (runs_from _ s b). apply (runs_ext _ _ (below x')); [intros y; tauto|]. by apply (check_dev_ok x' d f1 f' h).
      * assert (~ present x') as Hn by (intros (f2 & G1 & G2); congruence). rewrite probe_absent by done. apply runs_skip; [done|]. tauto.
    + intros s' Hs'. apply IH; [|done]. intros j Hj. apply Hi. by apply list_elem_of_further.
    + intros y. split.
      * intros (j & Hj & H1 & H2). apply elem_of_cons in Hj as [->|Hj]; [by left|right; by exists j].
      * intros [[H1 H2]|(j & Hj & H)]; [exists i; split; [apply list_elem_of_here|done]|exists j; split; [by apply list_elem_of_further|done]].
Qed.

(** The functions of one device. *)
Definition of_device (d : Z) (y : DeviceAddress) : Prop :=
  let x := mkAddr group bus d 0 in
  present x /\ (below x y \/ (multi x /\ exists i, 1 <= i < 8 /\ present (mkAddr group bus d i) /\ below (mkAddr group bus d i) y)).

Lemma devs_loop_ok devs s : 0 <= bus < 256 -> (forall d, d ∈ devs -> 0 <= d < 32) -> same (sc_bus s) ->
  runs (devs_loop rec region group bus devs s) s (fun y => exists d, d ∈ devs /\ of_device d y).
Proof using FL segment_start segment_range functions_ok rec_ok tree.
  intros Hbus. revert s. induction devs as [|d devs IH]; intros s Hd Hs; cbn [devs_loop].
  - apply runs_skip; [done|]. intros y (d & Hin & _). by apply not_elem_of_nil in Hin.
  - pose proof (Hd d (list_elem_of_here _ _)) as Hd32. unfold address_new. rewrite (proj2 (Z.ltb_lt d 32)) by lia. change (0 <? 8) with true. cbn [assert_that mbind outcome_bind].
    set (x := mkAddr group bus d 0). assert (in_range x) as Hx by (unfold in_range; cbn; lia).
    apply (runs_then _ _ s (of_device d) (fun y => exists d, d ∈ devs /\ of_device d y)).
    + destruct (at_addr x) as [f|] eqn:Hf; [destruct (decide (vendor f = 0xffff)) as [Hv|Hv]|].
      * assert (~ present x) as Hn by (intros (f2 & G1 & G2); congruence). rewrite probe_absent by done. apply runs_skip; [done|]. unfold of_device. tauto.
      * assert (present x) as Hp by (by exists f).
        destruct (probe_present x s (fun dev s => then_ (match sc_bus s !! cfg_addr dev with
            | Some f => if is_multi_fn f then check_fns rec region (address dev) s else Done (Some s) | None => Panic end) (check_dev rec dev)) Hs Hx Hp)
          as (dv & b & f1 & f' & h & -> & H1 & H2 & H3 & H4 & H5 & H6 & H7 & H8 & H9 & H10).
        rewrite Hf in H3. injection H3 as <-. apply (runs_from _ s b). cbn [sc_bus]. rewrite H7, H8, H2. assert (is_multi_fn f' = is_multi_fn f) as -> by (unfold is_multi_fn; rewrite (agree_other f f') by (done || lia); done).
        apply (runs_then _ _ _ (fun y => multi x /\ exists i, 1 <= i < 8 /\ present (mkAddr group bus d i) /\ below (mkAddr group bus d i) y) (below x)).
        -- destruct (is_multi_fn f) eqn:Em.
           ++ assert (multi x) as Hm by (by exists f). unfold check_fns. eapply runs_ext; [|apply (fns_loop_ok x); [done|done|done| |done]].
              ** intros y. cbn [PciCfg.device]. split.
                 --- intros (i & Hi & H). split; [done|]. exists i. split; [|done]. repeat (apply elem_of_cons in Hi as [->|Hi]; [lia|]). by apply not_elem_of_nil in Hi.
                 --- intros (_ & i & Hi & H). exists i. split; [|done]. assert (i = 1 \/ i = 2 \/ i = 3 \/ i = 4 \/ i = 5 \/ i = 6 \/ i = 7) as Hc by lia. rewrite !elem_of_cons. tauto.
              ** intros i Hi. repeat (apply elem_of_cons in Hi as [->|Hi]; [lia|]). by apply not_elem_of_nil in Hi.
           ++ apply runs_skip; [done|]. intros y [(f2 & G1 & _ & G2) _]. rewrite Hf in G1. injection G1 as <-. congruence.
        -- intros s' Hs'. destruct (same_lookup _ _ _ Hs' Hf) as (f2 & G1 & G2). by apply (check_dev_ok x dv f f2 h).
        -- intros y. unfold of_device. fold x. tauto.
      * assert (~ present x) as Hn by (intros (f2 & G1 & G2); congruence). rewrite probe_absent by done. apply runs_skip; [done|]. unfold of_device. tauto.
    + intros s' Hs'. apply IH; [|done]. intros j Hj. apply Hd. by apply list_elem_of_further.
    + intros y. split.
      * intros (j & Hj & H). apply elem_of_cons in Hj as [->|Hj]; [by left|right; by exists j].
      * intros [H|(j & Hj & H)]; [exists d; split; [apply list_elem_of_here|done]|exists j; split; [by apply list_elem_of_further|done]].
Qed.

Lemma of_device_visible y : 0 <= bus < 256 -> (exists d, d ∈ all_devs /\ of_device d y) <-> visible bus y.
Proof.
  intros Hbus. rewrite visible_below. split.
  - intros (d & Hd & Hp & Hy). apply all_devs_elem in Hd. destruct Hy as [Hy|(Hm & i & Hi & Hpi & Hy)].
    + exists (mkAddr group bus d 0). split; [|done]. unfold on_bus, in_range. cbn. split_and!; first [done|lia|by left].
    + exists (mkAddr group bus d i). split; [|done]. unfold on_bus, in_range. cbn. split_and!; first [done|lia|by right].
  - intros ([g b d i] & (H1 & H2 & (R1 & R2 & R3) & H3 & H4) & Hy). cbn in *. subst g b. exists d. split; [by apply all_devs_elem|].
    unfold of_device. destruct (decide (i = 0)) as [->|Hi].
    + split; [done|]. by left.
    + destruct H4 as [H4|H4]; [done|]. split; [destruct H4 as (f & G1 & G2 & _); by exists f|]. right. split; [done|]. exists i. split; [lia|done].
Qed.

End Level.

Lemma scan_bus_ok fuel bus s : 0 <= bus < 256 -> 256 - bus <= Z.of_nat fuel -> same (sc_bus s) -> runs (scan_bus fuel region group bus s) s (visible bus).
Proof using FL segment_start segment_range functions_ok tree.
  revert bus s. induction fuel as [|fuel IH]; intros bus s Hb Hf Hs; [lia|]. cbn [scan_bus].
  apply (runs_ext _ _ (fun y => exists d, d ∈ all_devs /\ of_device bus d y)); [intros y; by apply of_device_visible|].
  apply devs_loop_ok; [|done| |done].
  - intros sec s' Hsec Hs'. apply IH; [lia|lia|done].
  - intros d Hd. by apply all_devs_elem.
Qed.

(** C12. The search of a segment group finds exactly the functions that software can reach: those on bus 0 and, behind every bridge that was found, those on its secondary bus,
    where functions 1 to 7 of a device count only if function 0 is there and says so.  It ends, and without a
    panic.  There is one segment group, its first bus is number 0 (a group that starts at another bus is searched at wrong addresses), secondary buses have larger
    numbers than the bus of their bridge, and every function has a header of a known type, a list of capabilities that ends, and base address registers in which
    all bits above the size can be written, as in those of 32-bit I/O but not of 16-bit I/O. *)
Theorem scan_finds :
  exists s, scan_advanced 256 [region] (mkScan b0 []) = Done (Some s) /\ forall y, y ∈ (address <$> sc_found s) <-> visible 0 y.
Proof using FL segment_start segment_range functions_ok tree.
  cbn [scan_advanced]. destruct (scan_bus_ok 256 0 (mkScan b0 [])) as (s & H1 & _ & l & H3 & H4); [lia|lia| |].
  - intros a. cbn [sc_bus]. destruct (b0 !! a); [by left|done].
  - exists s. rewrite H1. split; [done|]. cbn in H3. by rewrite H3.
Qed.

(** A bridge on device 0 that leads to its own bus, as firmware leaves one that it has not set up: the search never returns. *)
Theorem self_bridge_never n bus s :
  0 <= bus < 256 -> bridge_to (mkAddr group bus 0 0) bus -> ~ multi (mkAddr group bus 0 0) -> same (sc_bus s) -> scan_bus n region group bus s = Done None.
Proof using FL segment_start segment_range functions_ok.
  intros Hb (f & Hf & Hv & Ht & Hsec) Hm. revert s. induction n as [|n IH]; intros s Hs; [done|]. cbn [scan_bus]. change all_devs with (0 :: (Z.of_nat <$> seq 1 31)). cbn [devs_loop].
  set (x := mkAddr group bus 0 0) in *. change (address_new group bus 0 0) with (Done x). cbv iota.
  edestruct (probe_present x s) as (d & b & f1 & f' & h & -> & H1 & H2 & H3 & H4 & H5 & H6 & H7 & H8 & H9 & H10); [done|unfold in_range; cbn; lia|by exists f|].
  rewrite Hf in H3. injection H3 as <-. rewrite Ht in H5. injection H5 as <-. cbn [sc_bus]. rewrite H7, H8.
  assert (is_multi_fn f' = false) as ->.
  { assert (is_multi_fn f' = is_multi_fn f) as -> by (unfold is_multi_fn; rewrite (agree_other f f') by (done || lia); done). destruct (is_multi_fn f) eqn:E; [|done]. exfalso. apply Hm. by exists f. }
  cbn [then_]. unfold check_dev. rewrite H6, H7, H2. cbn [sc_bus]. rewrite H8. assert (get_secondary_bus f' = bus) as -> by (unfold get_secondary_bus in *; rewrite (agree_other f f') by (done || lia); done).
  cbn [segment_group]. rewrite IH by done. done.
Qed.

End Search.

(** ** More of the hardware *)
(** The structures match the offsets of the specification. *)
Open Scope string_scope.
Theorem header_layouts :
  struct_size common_fields = 16%nat /\ struct_size generic_fields = 64%nat /\ struct_size bridge_fields = 64%nat /\ struct_size cardbus_fields = 72%nat /\
  header_bar Generic <$> seq 0 6 = (fun n => Some (at_field generic_fields n)) <$> ["bar_0"; "bar_1"; "bar_2"; "bar_3"; "bar_4"; "bar_5"] /\
  header_bar Bridge <$> seq 0 2 = (fun n => Some (at_field bridge_fields n)) <$> ["bar_0"; "bar_1"] /\
  at_field common_fields "class" = 9%nat /\ at_field common_fields "header_type" = 14%nat /\ at_field common_fields "self_test" = 15%nat /\
  at_field generic_fields "capabilities_ptr" = 0x34%nat /\ at_field bridge_fields "capabilities_ptr" = 0x34%nat /\ at_field bridge_fields "secondary_bus_number" = 0x19%nat.
Proof. vm_compute. split_and!; reflexivity. Qed.
Close Scope string_scope.

(** The number of a register that does not exist is accepted when it is the count, and indexes behind the array. *)
Theorem locate_bar_panics d : dev_type d = Generic -> length (dev_bar d) = 6%nat -> locate_bar d 6 = Panic.
Proof. intros Ht Hl. unfold locate_bar. rewrite Ht. cbn [bar_count Nat.ltb Nat.leb]. by rewrite lookup_ge_None_2 by lia. Qed.

(** A segment whose first bus is not 0 is searched at the wrong addresses. *)
Theorem segment_start_wraps region d : 0 < bus_number_start region < 256 -> 0 <= base_address region < 2 ^ 63 -> 0 <= d < 32 ->
  exists a, advanced_cfg_addr (mkAddr (pci_segment_group region) 0 d 0) region = Some a /\ base_address region + 2 ^ 20 <= a.
Proof.
  intros Hs Hb Hd. eexists. split; [done|]. cbn [PciCfg.bus PciCfg.device function]. rewrite Z.shiftl_0_l, Z.lor_0_r, Z.lor_comm.
  assert ((0 - bus_number_start region) mod 256 = 256 - bus_number_start region) as -> by (rewrite <- (Z.mod_add _ 1) by lia; rewrite Z.mod_small by lia; lia).
  rewrite (Z.shiftl_mul_pow2 d) by lia. rewrite (lor_add _ _ 20) by lia. rewrite wadd_small by lia. lia.
Qed.

(** ** Witnesses *)
Module PciWitness.
Import FlagWitness.

(** Bytes at given offsets, zero elsewhere. *)
Fixpoint fill (n : nat) (o : nat) (l : list (nat * Z)) : list Z :=
  match n with
  | O => []
  | S n => match l with
           | (o', b) :: l' => if Nat.eqb o o' then b :: fill n (S o) l' else 0 :: fill n (S o) l
           | [] => 0 :: fill n (S o) []
           end
  end.
Definition bytes_at (o : nat) (bs : list Z) : list (nat * Z) := imap (fun i b => ((o + i)%nat, b)) bs.

(** A function with 4 KiB of memory at 0xfebf0000, a 64-bit region of 64 KiB, and the capabilities MSI and MSI-X. *)
Definition nic : Function := mkFn
  (fill 4096 0 (bytes_at 0 [0x86; 0x80; 0xd3; 0x10; 0; 0; 0x10; 0; 0; 0; 0; 2] ++ bytes_at 16 [0; 0; 0xbf; 0xfe; 0x0c; 0; 0; 0; 1; 0; 0; 0] ++
                bytes_at 0x34 [0x40] ++ bytes_at 0x40 [5; 0x50] ++ bytes_at 0x50 [0x11; 0]))
  (fill 4096 0 (bytes_at 4 [7; 4] ++ bytes_at 16 [0; 0xf0; 0xff; 0xff; 0; 0; 0xff; 0xff; 0xff; 0xff; 0xff; 0xff])).
(** A bridge to bus 1. *)
Definition bridge1 : Function := mkFn (fill 4096 0 (bytes_at 0 [0x86; 0x80; 0x18; 0x24] ++ bytes_at 14 [1] ++ bytes_at 0x18 [0; 1; 1])) (fill 4096 0 (bytes_at 4 [7; 4])).

Lemma bytes_dec l : forallb (fun b => (0 <=? b) && (b <? 256)) l = true -> Forall is_byte l.
Proof. intros H. rewrite forallb_forall in H. apply Forall_forall. intros b Hb. apply list_elem_of_In in Hb. specialize (H b Hb). unfold is_byte. lia. Qed.

Definition nic_bars : list (option BarInfo) := [Some (mkBar 0 (2 ^ 12) (Dword false) 0xfebf0000); Some (mkBar 1 (2 ^ 16) (Qword true) 0x100000000); None; None; None; None].
Definition nic_caps : list CapabilityPointer := [mkCap Msi 0x40; mkCap MsiX 0x50].

Lemma nic_hw : function_hw nic Generic nic_bars nic_caps.
Proof.
  split; [split; [vm_compute; reflexivity..| |]; apply bytes_dec; vm_compute; reflexivity|vm_compute; discriminate|vm_compute; reflexivity| |exists 3%nat; vm_compute; reflexivity].
  cbn [bar_count seq]. apply (bars_word _ _ 0 _ (mkBar 0 (2 ^ 12) (Dword false) 0xfebf0000)); [|reflexivity|cbn; lia|].
  { apply (hw_some _ _ 0 16 (Dword false) 12 0xfebf0000 0); [reflexivity|]. split; try (vm_compute; reflexivity); [cbn; lia|split; [lia|exists 0xfebf0; reflexivity]|cbn; lia]. }
  apply (bars_long _ _ 1 _ (mkBar 1 (2 ^ 16) (Qword true) 0x100000000)); [|reflexivity|cbn; lia|].
  { apply (hw_some _ _ 1 20 (Qword true) 16 0x100000000 12); [reflexivity|]. split; try (vm_compute; reflexivity); [cbn; lia|split; [lia|exists 0x10000; reflexivity]|cbn; lia]. }
  cbn [tail]. do 3 (apply bars_none; [eapply hw_none; vm_compute; reflexivity|]). apply bars_nil.
Qed.

Lemma bridge1_hw : function_hw bridge1 Bridge (replicate 6 None) [].
Proof.
  split; [split; [vm_compute; reflexivity..| |]; apply bytes_dec; vm_compute; reflexivity|vm_compute; discriminate|vm_compute; reflexivity| |exists 0%nat; vm_compute; reflexivity].
  cbn [bar_count seq]. do 2 (apply bars_none; [eapply hw_none; vm_compute; reflexivity|]). apply bars_nil.
Qed.

Definition slot0 : DeviceAddress := mkAddr 0 0 3 0.

Lemma device_new_spec_witness : exists d, device_new 0xe0018000 slot0 {[ 0xe0018000 := nic ]} = Done (Some (Some d, <[0xe0018000 := probed Generic nic]> {[ 0xe0018000 := nic ]})) /\
  dev_bar d = nic_bars /\ capability (capabilities d) MsiX = Some (mkCap MsiX 0x50) /\ validate_bar d (probed Generic nic) 1 = Done (Ok tt).
Proof.
  destruct (device_new_spec 0xe0018000 slot0 {[ 0xe0018000 := nic ]} nic Generic nic_bars nic_caps) as (d & H1 & _ & _ & _ & _ & H2 & H3 & H4); [apply lookup_singleton_eq|exact nic_hw|].
  exists d. split; [exact H1|]. split; [exact H2|]. split; [rewrite H4; vm_compute; reflexivity|]. apply (H3 1%nat (mkBar 1 (2 ^ 16) (Qword true) 0x100000000) eq_refl).
Defined.

(** The bridge is device 2 of bus 0, the network card device 3 of bus 1. *)
Definition segment : McfgEntry := mkMcfg 0xe0000000 0 0 255.
Definition machine : Bus := {[ 0xe0010000 := bridge1; 0xe0118000 := nic ]}.

Lemma machine_cases a f : machine !! a = Some f -> (a = 0xe0010000 /\ f = bridge1) \/ (a = 0xe0118000 /\ f = nic).
Proof. unfold machine. intros H. apply lookup_insert_Some in H as [[<- <-]|[_ H]]; [by left|]. apply lookup_singleton_Some in H as [<- <-]. by right. Qed.

Lemma scan_finds_witness : exists s, scan_advanced 256 [segment] (mkScan machine []) = Done (Some s) /\ mkAddr 0 1 3 0 ∈ (address <$> sc_found s).
Proof.
  destruct (scan_finds segment machine) as (s & H1 & H2).
  - reflexivity.
  - cbn. lia.
  - intros a f H. apply machine_cases in H as [[_ ->]|[_ ->]]; (split; [|intros _]).
    + exact (fh_wf _ _ _ _ bridge1_hw).
    + exists Bridge, (replicate 6 None), []. exact bridge1_hw.
    + exact (fh_wf _ _ _ _ nic_hw).
    + exists Generic, nic_bars, nic_caps. exact nic_hw.
  - intros x sec (R1 & R2 & R3) (f & Hf & _ & Ht & <-). unfold at_addr, ecam in Hf. apply machine_cases in Hf as [[Ha ->]|[_ ->]].
    + cbn [segment base_address] in Ha. assert (PciCfg.bus x = 0) as -> by lia. vm_compute. reflexivity.
    + vm_compute in Ht. discriminate.
  - exists s. split; [exact H1|]. apply H2. apply (vis_below segment machine 0 (mkAddr 0 0 2 0) 1).
    + unfold on_bus, in_range. cbn. split_and!; try lia. exists bridge1. split; [vm_compute; reflexivity|vm_compute; discriminate].
    + exists bridge1. split_and!; [vm_compute; reflexivity|vm_compute; discriminate|vm_compute; reflexivity..].
    + apply vis_here. unfold on_bus, in_range. cbn. split_and!; try lia. exists nic. split; [vm_compute; reflexivity|vm_compute; discriminate].
Defined.

(** An I/O register of 32 bytes on a function that decodes 16 bits of I/O addresses, as most do: its size is taken to be almost
    4 GiB, and is no size at all. *)
Definition io16 : Function := mkFn (fill 4096 0 (bytes_at 0 [0x86; 0x80; 0x18; 0x24] ++ bytes_at 16 [1; 0xc0; 0; 0])) (fill 4096 0 (bytes_at 16 [0xe0; 0xff; 0; 0])).
Theorem io_bar_wrong_size : exists b f, bar_info_new Generic io16 0 = Done (Some b, f) /\ align b = 0xffff0020 /\ bar_layout b = Panic.
Proof. eexists _, _. split; [vm_compute; reflexivity|]. split; vm_compute; reflexivity. Qed.

End PciWitness.
