(* ===== verification/PciMsi.v ===== *)
(** * Message signalled interrupts of PCI functions

    [kernel/src/system/pci/capabilities/msi.rs], the part of [pci.rs] that configures the interrupts of a
    function, and the files of a function in [pci/file.rs].  Vectors are reserved in the registry of
    [Irq]; the table of MSI-X lies in the memory of the function, one entry every 16 bytes.  A wait
    for the manual lock of the registry is [None]. *)
From Stdlib Require Import String.
From stdpp Require Import prelude list gmap strings.
From S2P Require Import Prelude Bytes Files PciCfg Irq.
Open Scope Z_scope.
Import HandleRegistry.

(** ** Messages *)
Inductive InterruptDeliveryMode := Fixed | Smi | Nmi | ExternalInt | Init.
Definition mode_code (m : InterruptDeliveryMode) : Z := match m with Fixed => 0 | Smi => 2 | Nmi => 4 | ExternalInt => 7 | Init => 5 end.

Definition interrupt_address_new (cpu : Z) : Z := Z.lor 0xfee00000 (Z.shiftl cpu 12).
Definition half (a : Z) : Z * Z := (Z.shiftr a 32 mod 2 ^ 32, a mod 2 ^ 32).
Definition from_half (low high : Z) : Z := low + Z.shiftl high 32.
Definition interrupt_message_new (vector : Z) (mode : InterruptDeliveryMode) (level_trigger trigger_high : bool) : Z :=
  let n := Z.lor vector (Z.shiftl (mode_code mode) 8) in
  if level_trigger then let n := Z.lor n (bit 15) in if trigger_high then Z.lor n (bit 14) else n else n.

(** [get_next_msi_affinity]: the counter and the CPU; the number of CPUs is the constant 1. *)
Definition get_next_msi_affinity (next : Z) : Z * Z := (next mod Z.min 1 255, (next ⊕ 1)%u64).

(** ** MSI *)
Definition MSI_ENABLE : Z := bit 0.
Definition BITS_64 : Z := bit 7.
Definition PER_VEC_MASK : Z := bit 8.

(** [MessageSigInt]: the offsets of its registers in configuration space. *)
Record MessageSigInt := mkMsi { m_control : nat; m_addr_low : nat; m_addr_high : option nat; m_message : nat; m_mask : option nat; m_pending : option nat }.

Definition requested_vectors (ctl : Z) : outcome Z :=
  let t := Z.land (Z.shiftr ctl 1) 7 in assert_that (t <? 5);; Done (Z.shiftl 1 t).
Definition allocated_vectors (ctl : Z) : outcome Z :=
  let t := Z.land (Z.shiftr ctl 4) 7 in assert_that (t <? 5);; Done (Z.shiftl 1 t).

Definition is_power_of_two (n : Z) : bool := (0 <? n) && (Z.land n (n - 1) =? 0).

(** [MsiControlBits::set_vectors]: [count] is one of the powers of two that the match has, or it panics. *)
Definition set_vectors (f : Function) (m : MessageSigInt) (count : Z) : outcome (Z * Function) :=
  assert_that (is_power_of_two count);; assert_that (count <=? 32);;
  let cont := Z.ldiff (rd f (m_control m) 2) 0x70 in
  cont ← (match count with
          | 0 => Done cont
          | 2 => Done (Z.lor cont 0x10)
          | 4 => Done (Z.lor cont 0x20)
          | 8 => Done (Z.lor cont 0x30)
          | 16 => Done (Z.lor cont 0x40)
          | 32 => Done (Z.lor cont 0x50)
          | _ => Panic
          end);
  let f := wr f (m_control m) 2 cont in
  n ← allocated_vectors (rd f (m_control m) 2); Done (n, f).

Definition mask_get (f : Function) (o : nat) (vector : Z) : bool := negb (Z.land (Z.shiftl 1 (vector mod 32)) (rd f o 4) =? 0).
Definition mask_set (f : Function) (o : nat) (vector : Z) (value : bool) : bool * Function :=
  let t := rd f o 4 in
  let mask := Z.shiftl 1 (vector mod 32) in
  let f := wr f o 4 (if value then Z.lor t mask else Z.ldiff t mask) in (mask_get f o vector, f).

Definition msi_addr (f : Function) (m : MessageSigInt) : Z := from_half (rd f (m_addr_low m) 4) (match m_addr_high m with Some o => rd f o 4 | None => 0 end).
Definition msi_msg (f : Function) (m : MessageSigInt) : Z := rd f (m_message m) 2.
Definition set_interrupt (f : Function) (m : MessageSigInt) (addr msg : Z) : Function :=
  let '(high, low) := half addr in
  let f := wr f (m_addr_low m) 4 low in
  let f := match m_addr_high m with Some o => wr f o 4 high | None => f end in
  wr f (m_message m) 2 (msg mod 2 ^ 16).

(** ** MSI-X *)
Definition MSIX_MASK : Z := bit 0.
Definition table_size (ctl : Z) : Z := Z.land ctl 0x7f + 1.

Record MessageSignaledIntX := mkMsiX { x_control : nat; table_bar : Z; table_offset : Z; pba_bar : Z; pba_offset : Z }.
Record MsiXVectorEntry := mkEntry { e_address : Z; e_message : Z; e_control : Z }.
(** After reset an entry is masked. *)
Definition reset_entry : MsiXVectorEntry := mkEntry 0 0 1.

Definition set_entry (e : MsiXVectorEntry) (addr msg : Z) : MsiXVectorEntry := mkEntry addr msg (e_control e).

(** [PendingBitArray::get_bit] of an array of [len] bits in words of 64. *)
Definition pending_get_bit (len : Z) (array : list Z) (b : Z) : outcome (option bool) :=
  if len <? b then Done None
  else t ← unwrap (array !! Z.to_nat (Z.shiftr b 6)); Done (Some (negb (Z.land t (Z.shiftl 1 (Z.land b 0x7f mod 64)) =? 0))).

Section Msi.
Context `{FO : FlagOps}.

Definition mask_entry (e : MsiXVectorEntry) (value : bool) : MsiXVectorEntry := mkEntry (e_address e) (e_message e) (flag_set (e_control e) MSIX_MASK value).

Definition msi_enable (f : Function) (m : MessageSigInt) (enable : bool) : Function := wr f (m_control m) 2 (flag_set (rd f (m_control m) 2) MSI_ENABLE enable).

Definition msi_try_from (d : DeviceControl) (f : Function) : result MessageSigInt unit :=
  match capability (capabilities d) Msi with
  | None => Err tt
  | Some ptr =>
      let base := Z.to_nat (cap_offset ptr) in
      let control := rd f (base + 2) 2 in
      let '(addr_high, higher_offset) := if contains control BITS_64 then (Some (base + 8)%nat, 4%nat) else (None, 0%nat) in
      let '(mask, pending) := if contains control PER_VEC_MASK then (Some (base + 0xc + higher_offset)%nat, Some (base + 0x10 + higher_offset)%nat) else (None, None) in
      Ok (mkMsi (base + 2) (base + 4) addr_high (base + 8 + higher_offset) mask pending)
  end.

Definition msix_try_from (d : DeviceControl) (f : Function) : result MessageSignaledIntX unit :=
  match capability (capabilities d) MsiX with
  | None => Err tt
  | Some cap =>
      let base := Z.to_nat (cap_offset cap) in
      let table_entry := rd f (base + 4) 4 in
      let pba_entry := rd f (base + 8) 4 in
      Ok (mkMsiX (base + 2) (Z.land table_entry 3) (Z.ldiff table_entry 3) (Z.land pba_entry 3) (Z.ldiff pba_entry 3))
  end.

(** The physical address of the vector table. *)
Definition get_vec_table (d : DeviceControl) (x : MessageSignaledIntX) : outcome Z :=
  o ← unwrap (dev_bar d !! Z.to_nat (table_bar x));
  b ← unwrap o; Done (addr b ⊕ table_offset x)%u64.
Definition get_pba (d : DeviceControl) (x : MessageSignaledIntX) : outcome Z :=
  o ← unwrap (dev_bar d !! Z.to_nat (pba_bar x));
  b ← unwrap o; Done (addr b ⊕ pba_offset x)%u64.

(** ** Configuring interrupts *)
Inductive CfgIntResult := SetMsi (alloc req : Z) | SetMsiX (messages : list Z) | SetLegacy | Failed.

Definition success (r : CfgIntResult) : bool := match r with Failed => false | _ => true end.
Definition count (r : CfgIntResult) : outcome Z :=
  match r with SetMsi a _ => Done a | SetMsiX v => Done (Z.of_nat (length v)) | SetLegacy => Done 1 | Failed => Panic end.
Definition message (r : CfgIntResult) (vector : Z) : outcome Z :=
  n ← count r;
  if vector <? n then
    match r with
    | SetMsi _ _ => Done vector
    | SetMsiX a => unwrap (a !! Z.to_nat vector)
    | SetLegacy => Done 1
    | Failed => Panic
    end
  else Panic.

(** Configuration space of the function, the registry, device memory and the counter of [get_next_msi_affinity]. *)
Record Platform := mkPlat { p_fn : Function; p_ihr : HandleRegistry; p_mem : gmap Z MsiXVectorEntry; p_affinity : Z }.

Definition with_ihr (h : HandleRegistry) (p : Platform) : Platform := mkPlat (p_fn p) h (p_mem p) (p_affinity p).
Definition with_mem (m : gmap Z MsiXVectorEntry) (n : Z) (p : Platform) : Platform := mkPlat (p_fn p) (p_ihr p) m n.
Definition with_fn (f : Function) (n : Z) (p : Platform) : Platform := mkPlat f (p_ihr p) (p_mem p) n.

(** The vectors that [cfg_msi_x] reserves one by one: [None] when not even one is free. *)
Fixpoint reserve_singles (n : nat) (h : HandleRegistry) (got : list nat) : outcome (option (list nat) * HandleRegistry) :=
  match n with
  | O => Done (Some got, h)
  | S n =>
      r ← reserve_single h 0;
      match r with
      | (Some v, h) => reserve_singles n h (got ++ [v])
      | (None, h) => Done (match got with [] => None | _ => Some got end, h)
      end
  end.

(** The handlers of the vectors, in order. *)
Fixpoint set_handlers (h : HandleRegistry) (queue : nat) (i : Z) (vs : list nat) : outcome HandleRegistry :=
  match vs with
  | [] => Done h
  | v :: vs => r ← alloc_irq h v queue i; match r with (Ok _, h) => set_handlers h queue (i + 1) vs | (Err _, _) => Panic end
  end.

(** The loop over the entries of the table. *)
Fixpoint table_loop (n : nat) (i : nat) (table : Z) (irqs : list nat) (m : gmap Z MsiXVectorEntry) (next : Z) (ret : list Z) :
    outcome (gmap Z MsiXVectorEntry * Z * list Z) :=
  match n with
  | O => Done (m, next, ret)
  | S n =>
      assert_that (negb (Nat.eqb (length irqs) 0));;
      let loc_msg := (i mod length irqs)%nat in
      i_vec ← unwrap (irqs !! loc_msg);
      let a := table + 16 * Z.of_nat i in
      let e := default reset_entry (m !! a) in
      let '(cpu, next) := get_next_msi_affinity next in
      let e := set_entry e (interrupt_address_new cpu) (interrupt_message_new (Z.of_nat i_vec) Fixed false false) in
      let e := mask_entry e false in
      table_loop n (S i) table irqs (<[a := e]> m) next (ret ++ [Z.of_nat loc_msg])
  end.

Fixpoint mask_rest (n : nat) (v : nat) (table : Z) (m : gmap Z MsiXVectorEntry) : gmap Z MsiXVectorEntry :=
  match n with
  | O => m
  | S n => let a := table + 16 * Z.of_nat v in mask_rest n (S v) table (<[a := mask_entry (default reset_entry (m !! a)) true]> m)
  end.

Definition cfg_msi_x (d : DeviceControl) (queue : nat) (override_count : option Z) (p : Platform) : outcome (option (CfgIntResult * option (list nat) * Platform)) :=
  assert_that (default 0 override_count <? 2048);;
  match msix_try_from d (p_fn p) with
  | Err _ => Done (Some (Failed, None, p))
  | Ok msi =>
      let ts := table_size (rd (p_fn p) (x_control msi) 2) in
      let vectors := match override_count with Some n => Z.min ts n | None => ts end in
      if lock (p_ihr p) then Done None
      else
        let h := mkIHR true (arr (p_ihr p)) in
        let irq_count := if vectors <? get_free h then vectors else 1 in
        r ← reserve_singles (Z.to_nat irq_count) h [];
        match r with
        | (None, h) => Done (Some (Failed, None, with_ihr h p))
        | (Some irqs, h) =>
            h ← set_handlers h queue 0 irqs;
            table ← get_vec_table d msi;
            r ← table_loop (Z.to_nat ts) 0 table irqs (p_mem p) (p_affinity p) [];
            let '(m, next, ret) := r in
            let m := match override_count with Some count => mask_rest (Z.to_nat (ts - count)) (Z.to_nat count) table m | None => m end in
            Done (Some (SetMsiX ret, Some irqs, with_mem m next (with_ihr h p)))
        end
  end.

(** The search of [cfg_msi] for enough vectors: after a failed attempt the assertion wants 32 vectors or more. *)
Definition next_power_of_two (n : Z) : Z := if n <=? 1 then 1 else 2 ^ Z.log2_up n.
Fixpoint find_vectors (fuel : nat) (use_vectors : Z) (h : HandleRegistry) : outcome (option (option (nat * Z) * HandleRegistry)) :=
  match fuel with
  | O => Done None
  | S fuel =>
      r ← reserve_irq h 0 (Z.to_nat use_vectors);
      match r with
      | (None, _) => Done None
      | (Some (Ok n), h) => Done (Some (Some (n, use_vectors), h))
      | (Some (Err n), h) =>
          let use_vectors := Z.shiftr (next_power_of_two (Z.of_nat n)) 1 in
          assert_that (32 <=? use_vectors);;
          if use_vectors =? 0 then Done (Some (None, h)) else find_vectors fuel use_vectors h
      end
  end.

Fixpoint add_masks (n : nat) (v : Z) (mask : Z) : Z := match n with O => mask | S n => add_masks n (v + 1) (Z.lor mask (bit v)) end.

(** The range of the vectors ends in a [u8], so it is empty when it should end at 256. *)
Definition cfg_msi (fuel : nat) (d : DeviceControl) (queue : nat) (override_count : option Z) (p : Platform) :
    outcome (option (CfgIntResult * option (list nat) * Platform)) :=
  assert_that (default 0 override_count <? 32);;
  match msi_try_from d (p_fn p) with
  | Err _ => Done (Some (Failed, None, p))
  | Ok msi =>
      req ← requested_vectors (rd (p_fn p) (m_control msi) 2);
      let req_vec := Z.min req (default 255 override_count mod 256) in
      r ← find_vectors fuel req_vec (p_ihr p);
      match r with
      | None => Done None
      | Some (None, h) => Done (Some (Failed, None, with_ihr h p))
      | Some (Some (irq, count), h) =>
          let irqs := seq irq (Z.to_nat ((Z.of_nat irq + count) mod 256 - Z.of_nat irq)) in
          h ← set_handlers h queue 0 irqs;
          let '(cpu, next) := get_next_msi_affinity (p_affinity p) in
          let f := set_interrupt (p_fn p) msi (interrupt_address_new cpu) (interrupt_message_new (Z.of_nat irq) Fixed false false) in
          let f := match override_count, m_mask msi with
                   | Some oc, Some mask => wr f mask 4 (Z.lor (add_masks (Z.to_nat (count - oc mod 256)) (oc mod 256) 0) (rd f mask 4))
                   | _, _ => f
                   end in
          Done (Some (SetMsi count req_vec, Some irqs, with_fn f next (with_ihr h p)))
      end
  end.

(** [cfg_interrupts]: MSI-X first, then MSI; legacy interrupts are not implemented. *)
Definition cfg_interrupts (fuel : nat) (d : DeviceControl) (queue : nat) (override_count : option Z) (p : Platform) :
    outcome (option (CfgIntResult * option (list nat) * Platform)) :=
  assert_that (default 0 override_count <? 2048);;
  let try_msi (p : Platform) :=
    match capability (capabilities d) Msi with
    | None => Panic
    | Some _ =>
        let oc := match override_count with Some n => if 32 <? n then None else Some n | None => None end in
        r ← cfg_msi fuel d queue oc p;
        match r with
        | None => Done None
        | Some (c, irqs, p) => if success c then Done (Some (c, irqs, p)) else Panic
        end
    end in
  match capability (capabilities d) MsiX with
  | None => try_msi p
  | Some _ =>
      r ← cfg_msi_x d queue override_count p;
      match r with
      | None => Done None
      | Some (c, irqs, p) => if success c then Done (Some (c, irqs, p)) else try_msi p
      end
  end.

End Msi.

(** ** The files of a function *)
Inductive FuncFile := FDir | FBusDir | FClass | FCfg | FBind.
Definition func_entries : nat := 2.
Open Scope string_scope.
Definition func_file_list : list string := ["class"; "cfg"; "bind"].
Definition func_get_file (name : string) : result FuncFile IoError :=
  if String.eqb name "." then Ok FDir else if String.eqb name ".." then Ok FBusDir else if String.eqb name "class" then Ok FClass
  else if String.eqb name "cfg" then Ok FCfg else if String.eqb name "bind" then Ok FBind else Err NotPresent.
Close Scope string_scope.

(** Slices of arrays and buffers, which panic outside. *)
Definition slice_to {A} (l : list A) (n : nat) : outcome (list A) := assert_that (Nat.leb n (length l));; Done (take n l).
Definition slice_from {A} (l : list A) (n : nat) : outcome (list A) := assert_that (Nat.leb n (length l));; Done (drop n l).

(** [Class::read]: the buffer afterwards and the number of bytes. *)
Definition class_read (d : DeviceControl) (buff : list Z) : outcome (list Z * nat) :=
  let blen := Nat.max (length buff) 3 in
  tgt ← slice_to buff blen;
  let len := length tgt in
  c ← slice_to (dev_class d) len; Done (c ++ drop len buff, len).

(** [ConfigRegionFile::read]. *)
Definition config_read (f : Function) (pos : nat) (buff : list Z) : outcome (list Z * nat) :=
  region ← slice_from (cfg f) pos;
  let len := Nat.max (length buff) (length region) in
  _ ← slice_to buff len;
  c ← slice_to region len; Done (c ++ drop len buff, len).

(** ** Reserving vectors one by one *)
(** [h] is [h0] after [got] has been reserved. *)
Record reserved_in (h0 h : HandleRegistry) (got : list nat) : Prop := {
  ri_len : length (arr h) = 256%nat;
  ri_lock : lock h = lock h0;
  ri_nodup : NoDup got;
  ri_got : forall v, v ∈ got -> (32 <= v < 256)%nat /\ arr h0 !! v = Some Empty /\ arr h !! v = Some HandleRegistry.Reserved;
  ri_rest : forall v, v ∉ got -> arr h !! v = arr h0 !! v;
}.

Lemma reserve_single_ok h0 h got : reserved_in h0 h got ->
  (exists v h', reserve_single h 0 = Done (Some v, h') /\ reserved_in h0 h' (got ++ [v])) \/
  (reserve_single h 0 = Done (None, h) /\ arr h !! 255%nat <> Some Empty).
Proof.
  intros [Hl Hk Hn Hg Hr]. unfold reserve_single. change (Nat.max 0 PUB_VEC_START) with 32%nat.
  destruct (reserve_contiguous_spec h 32 1 Hl ltac:(lia) ltac:(lia)) as [(v & -> & H1 & H2 & H3 & _)|(m & -> & _ & _ & _ & H5)]; cbn [mbind outcome_bind fst snd result_ok].
  - left. eexists v, _. split; [done|]. assert (arr h !! v = Some Empty) as Hv by (apply H3; lia). assert (v ∉ got) as Hvg by (intros Hin; destruct (Hg v Hin) as (_ & _ & G); congruence).
    split; cbn [arr lock]; [|done| | |].
    + unfold mark. rewrite !length_app, length_take, length_replicate, length_drop. lia.
    + apply NoDup_app. split; [done|]. split; [|apply NoDup_singleton]. intros x Hx ->%list_elem_of_singleton. done.
    + intros x Hx. rewrite mark_lookup by lia. apply elem_of_app in Hx as [Hx| ->%list_elem_of_singleton].
      * destruct (Hg x Hx) as (G1 & G2 & G3). case_bool_decide; split_and!; try done; lia.
      * rewrite bool_decide_eq_true_2 by lia. split_and!; [lia|lia|by rewrite <- Hr|done].
    + intros x Hx. rewrite not_elem_of_app, not_elem_of_cons in Hx. destruct Hx as [Hx1 [Hx2 _]]. rewrite mark_lookup by lia. rewrite bool_decide_eq_false_2 by lia. by apply Hr.
  - right. split; [done|]. by apply H5.
Qed.

Lemma reserve_singles_ok h0 n h got : reserved_in h0 h got -> got <> [] \/ ((0 < n)%nat /\ arr h !! 255%nat = Some Empty) ->
  exists got' h', reserve_singles n h got = Done (Some got', h') /\ reserved_in h0 h' got' /\ got' <> [] /\ (length got' <= length got + n)%nat.
Proof.
  revert h got. induction n as [|n IH]; intros h got Hr Hc; cbn [reserve_singles].
  - exists got, h. destruct Hc as [Hc|[Hc _]]; [|lia]. split_and!; try done. lia.
  - destruct (reserve_single_ok h0 h got Hr) as [(v & h' & -> & Hr')|[-> Hlast]]; cbn [mbind outcome_bind].
    + destruct (IH h' (got ++ [v]) Hr') as (got' & h'' & H1 & H2 & H3 & H4); [left; by destruct got|]. exists got', h''. split_and!; try done. rewrite length_app in H4. cbn in H4. lia.
    + destruct Hc as [Hc|[_ Hc]]; [|done]. destruct got as [|g got]; [done|]. eexists _, _. split; [done|]. split_and!; try done. lia.
Qed.

Lemma set_handlers_ok queue vs i h : NoDup vs -> (forall v, v ∈ vs -> arr h !! v = Some HandleRegistry.Reserved) ->
  exists h', set_handlers h queue i vs = Done h' /\ lock h' = lock h /\
    (forall j v, vs !! j = Some v -> arr h' !! v = Some (HandleRegistry.Generic queue (i + Z.of_nat j))) /\ (forall v, v ∉ vs -> arr h' !! v = arr h !! v).
Proof.
  revert i h. induction vs as [|v vs IH]; intros i h Hn Hv; cbn [set_handlers]; [exists h; by split_and!|]. apply NoDup_cons in Hn as [Hn1 Hn2].
  pose proof (Hv v (list_elem_of_here _ _)) as Hr. unfold alloc_irq, HandleRegistry.set. rewrite Hr. cbn [unwrap mbind outcome_bind].
  destruct (IH (i + 1) (put h v (HandleRegistry.Generic queue i)) Hn2) as (h' & H1 & H2 & H3 & H4).
  { intros x Hx. cbn [put arr]. rewrite list_lookup_insert_ne by (by intros ->). apply Hv. by apply list_elem_of_further. }
  exists h'. split; [done|]. split; [done|]. split.
  - intros [|j] x Hx; cbn in Hx.
    + injection Hx as <-. rewrite H4 by done. cbn [put arr]. rewrite list_lookup_insert_eq by (by apply lookup_lt_Some in Hr). do 2 f_equal. lia.
    + rewrite (H3 j x Hx). do 2 f_equal. lia.
  - intros x Hx. apply not_elem_of_cons in Hx as [Hx1 Hx2]. rewrite H4 by done. cbn [put arr]. by apply list_lookup_insert_ne.
Qed.

(** ** The vector table *)
Section Routes.
Context `{FO : FlagOps} {FL : FlagLaws}.

Definition entry_for (irqs : list nat) (k : nat) (e : MsiXVectorEntry) : Prop :=
  exists v, irqs !! (k mod length irqs)%nat = Some v /\ e_address e = 0xfee00000 /\ e_message e = Z.of_nat v.

Lemma table_loop_ok n table irqs : irqs <> [] -> forall i m next ret,
  exists m' next', table_loop n i table irqs m next ret = Done (m', next', ret ++ ((fun k => Z.of_nat (k mod length irqs)) <$> seq i n)) /\
    (forall k, (i <= k < i + n)%nat -> exists e, m' !! (table + 16 * Z.of_nat k) = Some e /\ entry_for irqs k e /\ Z.testbit (e_control e) 0 = false) /\
    (forall k, (k < i)%nat -> m' !! (table + 16 * Z.of_nat k) = m !! (table + 16 * Z.of_nat k)).
Proof using FL.
  intros Hne. assert (0 < length irqs)%nat as Hlen by (destruct irqs; [done|cbn; lia]). induction n as [|n IH]; intros i m next ret; cbn [table_loop seq].
  - exists m, next. rewrite app_nil_r. split_and!; [done|intros; lia|done].
  - rewrite (proj2 (Nat.eqb_neq _ _)) by lia. cbn [negb assert_that mbind outcome_bind]. assert (i mod length irqs < length irqs)%nat as Hm by (apply Nat.mod_upper_bound; lia).
    destruct (irqs !! (i mod length irqs)%nat) as [v|] eqn:Ev; [|apply lookup_ge_None in Ev; lia]. cbn [unwrap mbind outcome_bind].
    unfold get_next_msi_affinity. change (Z.min 1 255) with 1. rewrite Z.mod_1_r. change (interrupt_address_new 0) with 0xfee00000.
    set (e := mask_entry _ false). destruct (IH (S i) (<[table + 16 * Z.of_nat i := e]> m) (next ⊕ 1)%u64 (ret ++ [Z.of_nat (i mod length irqs)])) as (m' & next' & H1 & H2 & H3).
    exists m', next'. split; [rewrite H1; f_equal; f_equal; by rewrite <- app_assoc|]. split.
    + intros k Hk. destruct (decide (k = i)) as [->|Hki]; [|apply H2; lia]. exists e. split; [rewrite H3 by lia; apply lookup_insert_eq|]. split.
      * exists v. split; [done|]. split; [done|]. unfold e, mask_entry, set_entry, interrupt_message_new. cbn [e_message mode_code]. by rewrite Z.shiftl_0_l, Z.lor_0_r.
      * unfold e, mask_entry. cbn [e_control]. unfold MSIX_MASK. by rewrite flag_set_test by lia.
    + intros k Hk. rewrite H3 by lia. apply lookup_insert_ne. lia.
Qed.

Lemma mask_rest_ok n table : forall v m k, mask_rest n v table m !! (table + 16 * Z.of_nat k) =
  if decide (v <= k < v + n)%nat then Some (mask_entry (default reset_entry (m !! (table + 16 * Z.of_nat k))) true) else m !! (table + 16 * Z.of_nat k).
Proof.
  induction n as [|n IH]; intros v m k; cbn [mask_rest]; [by rewrite decide_False by lia|]. rewrite IH. destruct (decide (k = v)) as [->|Hne].
  - rewrite decide_False by lia. rewrite decide_True by lia. apply lookup_insert_eq.
  - rewrite lookup_insert_ne by lia. case_decide; case_decide; done || lia.
Qed.

(** The entries that the code takes for the table of the function. *)
Lemma table_entries d queue oc p x bar :
  length (arr (p_ihr p)) = 256%nat -> lock (p_ihr p) = false -> arr (p_ihr p) !! 255%nat = Some Empty ->
  msix_try_from d (p_fn p) = Ok x -> dev_bar d !! Z.to_nat (table_bar x) = Some (Some bar) ->
  match oc with Some c => 0 < c < 2048 | None => True end ->
  let ts := Z.to_nat (table_size (rd (p_fn p) (x_control x) 2)) in
  exists ret irqs p', cfg_msi_x d queue oc p = Done (Some (SetMsiX ret, Some irqs, p')) /\ length ret = ts /\ p_fn p' = p_fn p /\
    (forall i, (i < ts)%nat -> exists v e msg, ret !! i = Some msg /\
       p_mem p' !! ((addr bar ⊕ table_offset x)%u64 + 16 * Z.of_nat i) = Some e /\ e_address e = 0xfee00000 /\ e_message e = Z.of_nat v /\
       Z.testbit (e_control e) 0 = match oc with Some c => c <=? Z.of_nat i | None => false end /\
       (32 <= v < 256)%nat /\ arr (p_ihr p) !! v = Some Empty /\ arr (p_ihr p') !! v = Some (HandleRegistry.Generic queue msg)) /\
    (forall v, v ∉ irqs -> arr (p_ihr p') !! v = arr (p_ihr p) !! v).
Proof using FL.
  intros Hl Hk Hlast Hx Hbar Hoc ts. unfold cfg_msi_x. set (size := table_size _) in *. assert (1 <= size <= 128) as Hsz.
  { unfold size, table_size. change 0x7f with (2 ^ 7 - 1). rewrite land_mask by lia. pose proof (Z.mod_pos_bound (rd (p_fn p) (x_control x) 2) (2 ^ 7) ltac:(lia)). lia. }
  assert ((default 0 oc <? 2048) = true) as -> by (destruct oc; cbn; [apply Z.ltb_lt; lia|done]). cbn [assert_that mbind outcome_bind]. rewrite Hx, Hk. fold size.
  set (h := mkIHR true _). set (vectors := match oc with Some n => Z.min size n | None => size end). assert (1 <= vectors) as Hvec by (unfold vectors; destruct oc; lia).
  set (irq_count := if vectors <? get_free h then vectors else 1). assert (0 < Z.to_nat irq_count)%nat as Hic by (unfold irq_count; destruct (vectors <? get_free h); lia).
  assert (reserved_in h h []) as Hr0 by (split; try done; [constructor|intros v Hv; by apply not_elem_of_nil in Hv]).
  destruct (reserve_singles_ok h (Z.to_nat irq_count) h [] Hr0) as (irqs & h1 & -> & Hr1 & Hne & _); [right; split; done|]. cbn [mbind outcome_bind].
  destruct (set_handlers_ok queue irqs 0 h1 (ri_nodup _ _ _ Hr1)) as (h2 & -> & Hk2 & Hg2 & Hrest2); [intros v Hv; apply (ri_got _ _ _ Hr1 v Hv)|]. cbn [mbind outcome_bind].
  unfold get_vec_table. rewrite Hbar. cbn [unwrap mbind outcome_bind]. set (table := (addr bar ⊕ table_offset x)%u64).
  destruct (table_loop_ok (Z.to_nat size) table irqs Hne 0 (p_mem p) (p_affinity p) []) as (m & next & -> & Hm & _). cbn [mbind outcome_bind app].
  eexists _, irqs, _. split; [done|]. split; [by rewrite length_fmap, length_seq|]. split; [done|]. cbn [p_mem with_mem p_ihr with_ihr]. split.
  - intros i Hi. unfold ts in Hi. destruct (Hm i ltac:(lia)) as (e & He & (v & Hv & Ha & Hmsg) & Hc). destruct (ri_got _ _ _ Hr1 v) as (V1 & V2 & _); [by eapply list_elem_of_lookup_2|].
    assert (exists e', match oc with Some count => mask_rest (Z.to_nat (size - count)) (Z.to_nat count) table m | None => m end !! (table + 16 * Z.of_nat i) = Some e' /\
      e_address e' = e_address e /\ e_message e' = e_message e /\ Z.testbit (e_control e') 0 = match oc with Some c => c <=? Z.of_nat i | None => false end) as (e' & E1 & E2 & E3 & E4).
    { destruct oc as [c|]; [|by exists e]. rewrite mask_rest_ok. case_decide as Hd.
      - rewrite He. cbn [default]. eexists. split; [done|]. split; [done|]. split; [done|]. unfold mask_entry, MSIX_MASK. cbn [e_control]. rewrite flag_set_test by lia. rewrite decide_True by done. symmetry. apply Z.leb_le. lia.
      - exists e. split; [done|]. split; [done|]. split; [done|]. rewrite Hc. symmetry. apply Z.leb_gt. lia. }
    exists v, e', (Z.of_nat (i mod length irqs)). split.
    + rewrite list_lookup_fmap, lookup_seq_lt by lia. done.
    + split; [exact E1|]. split; [congruence|]. split; [congruence|]. split; [done|]. split; [done|]. split; [done|]. apply (Hg2 _ _ Hv).
  - intros v Hv. rewrite Hrest2 by done. by apply (ri_rest _ _ _ Hr1).
Qed.

(** The size of the vector table, the register of its memory and its place there, as the hardware encodes them. *)
Definition hw_table_size (f : Function) (cap : CapabilityPointer) : Z := rd f (Z.to_nat (cap_offset cap) + 2) 2 mod 2048 + 1.
Definition hw_table_bar (f : Function) (cap : CapabilityPointer) : Z := rd f (Z.to_nat (cap_offset cap) + 4) 4 mod 8.
Definition hw_table_offset (f : Function) (cap : CapabilityPointer) : Z := rd f (Z.to_nat (cap_offset cap) + 4) 4 / 8 * 8.

(** The code reads 7 of the 11 bits of the size and 2 of the 3 bits of the register number. *)
Lemma msix_hw d f cap :
  capability (capabilities d) MsiX = Some cap -> hw_table_size f cap <= 128 -> hw_table_bar f cap < 4 ->
  exists x, msix_try_from d f = Ok x /\ table_size (rd f (x_control x) 2) = hw_table_size f cap /\ table_bar x = hw_table_bar f cap /\ table_offset x = hw_table_offset f cap.
Proof.
  intros Hc Hs Hb. unfold msix_try_from. rewrite Hc. eexists. split; [done|]. cbn [x_control table_bar table_offset]. unfold hw_table_size, hw_table_bar, hw_table_offset, table_size in *.
  set (w := rd f _ 2) in *. set (v := rd f _ 4) in *. change 0x7f with (2 ^ 7 - 1). change 3 with (2 ^ 2 - 1). rewrite !land_mask, ldiff_ones by lia.
  change (2 ^ 7) with 128. change (2 ^ 2) with 4. split_and!; Z.to_euclidean_division_equations; lia.
Qed.


(** Asking for no vectors divides by their number. *)
Theorem msix_none_panics d queue p x :
  lock (p_ihr p) = false -> 0 < get_free (mkIHR true (arr (p_ihr p))) -> msix_try_from d (p_fn p) = Ok x ->
  cfg_msi_x d queue (Some 0) p = Panic.
Proof.
  intros Hk Hf Hx. unfold cfg_msi_x. cbn [default from_option id Z.ltb Z.compare assert_that mbind outcome_bind]. rewrite Hx, Hk. set (ts := table_size _).
  assert (1 <= ts <= 128) as Hts. { unfold ts, table_size. change 0x7f with (2 ^ 7 - 1). rewrite land_mask by lia. pose proof (Z.mod_pos_bound (rd (p_fn p) (x_control x) 2) (2 ^ 7) ltac:(lia)). lia. }
  rewrite (Z.min_r ts 0) by lia. rewrite (proj2 (Z.ltb_lt 0 _)) by done. cbn [Z.to_nat reserve_singles mbind outcome_bind set_handlers].
  destruct (get_vec_table d x) as [a|]; [|done]. cbn [mbind outcome_bind]. destruct (Z.to_nat ts) as [|n] eqn:E; [lia|]. done.
Qed.

(** The manual lock of the registry stays taken, so the next [reserve_irq] waits for ever. *)
Theorem msix_keeps_lock d queue oc p c irqs p' n :
  lock (p_ihr p) = false -> length (arr (p_ihr p)) = 256%nat -> cfg_msi_x d queue oc p = Done (Some (SetMsiX c, irqs, p')) -> (0 < n)%nat -> reserve_irq (p_ihr p') 0 n = Done (None, p_ihr p').
Proof.
  intros Hk Hl H Hn. assert (lock (p_ihr p') = true) as Hlk.
  { unfold cfg_msi_x in H. destruct (assert_that _); cbn [mbind outcome_bind] in H; [|done]. destruct (msix_try_from _ _) as [x|]; [|done]. rewrite Hk in H.
    set (h := mkIHR true _) in *. assert (forall k h got r h', lock h = true -> length (arr h) = 256%nat -> reserve_singles k h got = Done (r, h') -> lock h' = true) as Hs.
    { clear. intros k. induction k as [|k IH]; intros h got r h' Hk Hl H; cbn [reserve_singles] in H; [by injection H as _ <-|].
      unfold reserve_single in H. change (Nat.max 0 PUB_VEC_START) with 32%nat in H.
      destruct (reserve_contiguous_spec h 32 1 Hl ltac:(lia) ltac:(lia)) as [(v & Hv & _ & Hv2 & _)|(m & Hv & _)]; rewrite Hv in H; cbn [mbind outcome_bind fst snd result_ok] in H.
      - apply IH in H; [done|done|]. cbn [arr]. unfold mark. rewrite !length_app, length_take, length_replicate, length_drop. lia.
      - by injection H as _ <-. }
    assert (forall vs i h h', lock h = true -> set_handlers h queue i vs = Done h' -> lock h' = true) as Hh.
    { clear. intros vs. induction vs as [|v vs IH]; intros i h h' Hk H; cbn [set_handlers] in H; [by injection H as <-|]. unfold alloc_irq, HandleRegistry.set in H.
      destruct (arr h !! v) as [[]|]; cbn [unwrap mbind outcome_bind] in H; try done; by apply IH in H. }
    destruct (reserve_singles _ h []) as [[[l|] h1]|] eqn:E; cbn [mbind outcome_bind] in H; try done. apply Hs in E; [|done|done].
    destruct (set_handlers h1 queue 0 l) as [h2|] eqn:E2; cbn [mbind outcome_bind] in H; [|done]. apply Hh in E2; [|done]. destruct (get_vec_table d x); cbn [mbind outcome_bind] in H; [|done].
    destruct (table_loop _ _ _ _ _ _ _) as [[[m next] ret]|]; cbn [mbind outcome_bind] in H; [|done]. injection H as _ _ <-. done. }
  unfold reserve_irq. rewrite bool_decide_eq_true_2 by done. cbn [assert_that mbind outcome_bind]. by rewrite Hlk.
Qed.

End Routes.

(** ** Where the code stops or errs *)
(** When the vectors of MSI are not all free, the code panics instead of taking fewer. *)
Theorem msi_shortage_panics fuel h n m h' : reserve_irq h 0 n = Done (Some (Err m), h') -> (m <= 32)%nat -> find_vectors (S fuel) (Z.of_nat n) h = Panic.
Proof.
  intros Hr Hm. cbn [find_vectors]. rewrite Nat2Z.id, Hr. cbn [mbind outcome_bind]. assert (Z.shiftr (next_power_of_two (Z.of_nat m)) 1 < 32) as Hs.
  { unfold next_power_of_two. destruct (Z.leb_spec (Z.of_nat m) 1); [by vm_compute|]. rewrite Z.shiftr_div_pow2 by lia. change (2 ^ 1) with 2. apply Z.div_lt_upper_bound; [lia|].
    apply (Z.le_lt_trans _ (2 ^ 5)); [|lia]. apply Z.pow_le_mono_r; [lia|]. change 5 with (Z.log2_up 32). apply Z.log2_up_le_mono. lia. }
  by rewrite (proj2 (Z.leb_gt _ _)) by lia.
Qed.

(** A single vector, which is what most functions need, cannot be set. *)
Theorem set_vectors_one_panics f m : set_vectors f m 1 = Panic.
Proof. reflexivity. Qed.

(** A function may ask for 32 vectors; reading this request panics. *)
Theorem requested_32_panics ctl : Z.land (Z.shiftr ctl 1) 7 = 5 -> requested_vectors ctl = Panic.
Proof. intros H. unfold requested_vectors. by rewrite H. Qed.

(** The override of 32 vectors passes the check of [cfg_interrupts] but not the one of [cfg_msi]. *)
Theorem override_32_panics `{FO : FlagOps} fuel d queue p : capability (capabilities d) MsiX = None -> cfg_interrupts fuel d queue (Some 32) p = Panic.
Proof. intros Hx. unfold cfg_interrupts. cbn [default assert_that mbind outcome_bind Z.ltb Z.compare Pos.compare Pos.compare_cont]. rewrite Hx. by destruct (capability (capabilities d) Msi). Qed.

(** A table with more than 128 entries is taken to be smaller: the size field has 11 bits, the mask 7. *)
Theorem msix_table_size ctl : 0 <= ctl -> table_size ctl = ctl mod 128 + 1.
Proof. intros Hc. unfold table_size. change 0x7f with (2 ^ 7 - 1). by rewrite land_mask by lia. Qed.

(** The number of the register has three bits, of which the code takes two: a table behind register 4 is looked for behind register 0, four bytes on. *)
Theorem msix_bar_truncated `{FO : FlagOps} d f cap x o :
  capability (capabilities d) MsiX = Some cap -> msix_try_from d f = Ok x -> rd f (Z.to_nat (cap_offset cap) + 4) 4 = 8 * o + 4 -> 0 <= o -> table_bar x = 0 /\ table_offset x = 8 * o + 4.
Proof.
  intros Hc Hx Ht Ho. unfold msix_try_from in Hx. rewrite Hc in Hx. injection Hx as <-. cbn [table_bar table_offset]. rewrite Ht. change 3 with (2 ^ 2 - 1).
  rewrite land_mask, ldiff_ones by lia. change (2 ^ 2) with 4. Z.to_euclidean_division_equations. lia.
Qed.

(** The class can only be read into a buffer of 3 bytes, everything else panics, and the configuration space only into a buffer that ends where it ends. *)
Theorem class_read_three d buff : length (dev_class d) = 3%nat -> class_read d buff = if Nat.eqb (length buff) 3 then Done (dev_class d, 3%nat) else Panic.
Proof.
  intros Hd. unfold class_read, slice_to. destruct (Nat.leb_spec (Nat.max (length buff) 3) (length buff)); cbn [assert_that mbind outcome_bind]; [|by rewrite (proj2 (Nat.eqb_neq _ _)) by lia].
  rewrite length_take, Hd. destruct (Nat.leb_spec (Nat.min (Nat.max (length buff) 3) (length buff)) 3); cbn [assert_that mbind outcome_bind]; [|by rewrite (proj2 (Nat.eqb_neq _ _)) by lia].
  assert (length buff = 3%nat) as Hb by lia. rewrite Hb. cbn [Nat.eqb Nat.min Nat.max]. rewrite (take_ge (dev_class d)), (drop_ge buff), app_nil_r by lia. done.
Qed.

Theorem config_read_exact f pos buff : length (cfg f) = 4096%nat ->
  config_read f pos buff = if Nat.leb pos 4096 && Nat.eqb (length buff) (4096 - pos) then Done (drop pos (cfg f), length buff) else Panic.
Proof.
  intros Hf. unfold config_read, slice_from, slice_to. rewrite Hf. destruct (Nat.leb_spec pos 4096); cbn [assert_that mbind outcome_bind andb]; [|done]. rewrite length_drop, Hf.
  destruct (Nat.leb_spec (Nat.max (length buff) (4096 - pos)) (length buff)); cbn [assert_that mbind outcome_bind]; [|by rewrite (proj2 (Nat.eqb_neq _ _)) by lia].
  destruct (Nat.leb_spec (Nat.max (length buff) (4096 - pos)) (4096 - pos)); cbn [assert_that mbind outcome_bind]; [|by rewrite (proj2 (Nat.eqb_neq _ _)) by lia].
  rewrite (proj2 (Nat.eqb_eq _ _)) by lia. rewrite (take_ge (drop pos (cfg f))) by (rewrite length_drop; lia). rewrite (drop_ge buff), app_nil_r by lia. do 2 f_equal. lia.
Qed.

(** ** Witnesses *)
Module PciMsiWitness.
Import FlagWitness PciWitness.

(** A function with four vectors, of which the driver wants three; its table is at 0x2000 behind register 0. *)
Definition disk_fn : Function := mkFn (fill 4096 0 (bytes_at 0x50 [0x11; 0; 3; 0; 0; 0x20; 0; 0])) (fill 4096 0 []).
Definition disk_ctl : DeviceControl := mkDev slot0 0x8086 0x2922 PciCfg.Generic [1; 6; 1] 0xe0018000 nic_bars [mkCap MsiX 0x50].
Definition platform : Platform := mkPlat disk_fn HandleRegistry.new ∅ 0.


(** MSI with one vector while 255 is the only one left: the range of vectors to set up ends at 256, which is 0 in a byte, so no handler is set. *)
Definition one_left : HandleRegistry := mkIHR false (replicate 255 (HandleRegistry.Generic 0 0) ++ [Empty]).
Definition msi_fn : Function := mkFn (fill 4096 0 (bytes_at 0x40 [5; 0])) (fill 4096 0 []).
Theorem last_vector_unset : exists p',
  cfg_msi 1 (mkDev slot0 0x8086 0x2922 PciCfg.Generic [1; 6; 1] 0xe0018000 nic_bars [mkCap Msi 0x40]) 7 None (mkPlat msi_fn one_left ∅ 0) = Done (Some (SetMsi 1 1, Some [], p')) /\
  arr (p_ihr p') !! 255%nat = Some HandleRegistry.Reserved.
Proof. eexists. split; [vm_compute; reflexivity|]. vm_compute. reflexivity. Qed.

End PciMsiWitness.
