(* ===== verification/Serial.v ===== *)
(** * Serial ports

    [kernel/src/serial.rs]: the driver of the 16550 and of its relatives, its interrupt handler and
    the search for ports (Module [Port]); [kernel/src/serial/dispatcher.rs]: the file of a port with
    its readers and writers (Module [Dispatcher]) and the file that shows and sets the line format
    (Module [FrameCtl]); [OpenMode] of [kernel/src/fs/device.rs].

    The I/O ports of the machine are the class [PortOps]; what the driver relies on is the register
    interface of the chip, as its data sheet has it: [u_in] and [u_out] are the effects of a read and
    of a write of one of its eight registers, [u_tick] the end of the transmission of a character and
    [u_arrive] the arrival of one.  [UartLaws] says that the ports at the address of a chip are its
    registers.  A loop that does not end on its own runs on fuel; [None] is a call that does not
    return, because the fuel is used up or because a spin lock is never released. *)
From Stdlib Require Import SpecFloat.
From stdpp Require Import prelude gmap.
From S2P Require Import Prelude Bytes Files Irq PciCfg Ps2.
Open Scope Z_scope.

(** ** The chip *)
Module Uart.

(** [u_hold] is the transmitter holding register, [u_thri] its pending interrupt, [u_rx] what has
    arrived and [u_line] what has been sent. *)
Record Uart := mkUart {
  u_ier : Z; u_lcr : Z; u_mcr : Z; u_dll : Z; u_dlm : Z; u_scr : Z; u_has_scr : bool; u_msr : Z; u_fifo : bool;
  u_hold : option Z; u_thri : bool; u_rx : list Z; u_line : list Z }.

Definition set_u_ier v u := mkUart v (u_lcr u) (u_mcr u) (u_dll u) (u_dlm u) (u_scr u) (u_has_scr u) (u_msr u) (u_fifo u) (u_hold u) (u_thri u) (u_rx u) (u_line u).
Definition set_u_lcr v u := mkUart (u_ier u) v (u_mcr u) (u_dll u) (u_dlm u) (u_scr u) (u_has_scr u) (u_msr u) (u_fifo u) (u_hold u) (u_thri u) (u_rx u) (u_line u).
Definition set_u_mcr v u := mkUart (u_ier u) (u_lcr u) v (u_dll u) (u_dlm u) (u_scr u) (u_has_scr u) (u_msr u) (u_fifo u) (u_hold u) (u_thri u) (u_rx u) (u_line u).
Definition set_u_dll v u := mkUart (u_ier u) (u_lcr u) (u_mcr u) v (u_dlm u) (u_scr u) (u_has_scr u) (u_msr u) (u_fifo u) (u_hold u) (u_thri u) (u_rx u) (u_line u).
Definition set_u_dlm v u := mkUart (u_ier u) (u_lcr u) (u_mcr u) (u_dll u) v (u_scr u) (u_has_scr u) (u_msr u) (u_fifo u) (u_hold u) (u_thri u) (u_rx u) (u_line u).
Definition set_u_scr v u := mkUart (u_ier u) (u_lcr u) (u_mcr u) (u_dll u) (u_dlm u) v (u_has_scr u) (u_msr u) (u_fifo u) (u_hold u) (u_thri u) (u_rx u) (u_line u).
Definition set_u_fifo v u := mkUart (u_ier u) (u_lcr u) (u_mcr u) (u_dll u) (u_dlm u) (u_scr u) (u_has_scr u) (u_msr u) v (u_hold u) (u_thri u) (u_rx u) (u_line u).
Definition set_u_hold v u := mkUart (u_ier u) (u_lcr u) (u_mcr u) (u_dll u) (u_dlm u) (u_scr u) (u_has_scr u) (u_msr u) (u_fifo u) v (u_thri u) (u_rx u) (u_line u).
Definition set_u_thri v u := mkUart (u_ier u) (u_lcr u) (u_mcr u) (u_dll u) (u_dlm u) (u_scr u) (u_has_scr u) (u_msr u) (u_fifo u) (u_hold u) v (u_rx u) (u_line u).
Definition set_u_rx v u := mkUart (u_ier u) (u_lcr u) (u_mcr u) (u_dll u) (u_dlm u) (u_scr u) (u_has_scr u) (u_msr u) (u_fifo u) (u_hold u) (u_thri u) v (u_line u).
Definition set_u_line v u := mkUart (u_ier u) (u_lcr u) (u_mcr u) (u_dll u) (u_dlm u) (u_scr u) (u_has_scr u) (u_msr u) (u_fifo u) (u_hold u) (u_thri u) (u_rx u) v.

(** The divisor latch access bit of LCR and the loopback bit of MCR. *)
Definition dlab (u : Uart) : bool := Z.testbit (u_lcr u) 7.
Definition loopback (u : Uart) : bool := Z.testbit (u_mcr u) 4.
Definition thre (u : Uart) : bool := match u_hold u with None => true | Some _ => false end.
Definition ready (u : Uart) : bool := match u_rx u with [] => false | _ => true end.

(** The line status without errors: data ready, holding register empty, transmitter empty. *)
Definition lsr (u : Uart) : Z := (if ready u then 1 else 0) + (if thre u then 0x60 else 0).

(** The interrupt identification: received data before the empty holding register. *)
Definition iir (u : Uart) : Z :=
  if Z.testbit (u_ier u) 0 && ready u then 4
  else if Z.testbit (u_ier u) 1 && u_thri u then 2
  else 1.

(** A read of a register. *)
Definition u_in (off : Z) (u : Uart) : Z * Uart :=
  match off with
  | 0 => if dlab u then (u_dll u, u) else (default 0 (head (u_rx u)), set_u_rx (tail (u_rx u)) u)
  | 1 => (if dlab u then u_dlm u else u_ier u, u)
  | 2 => (iir u, if iir u =? 2 then set_u_thri false u else u)
  | 3 => (u_lcr u, u)
  | 4 => (u_mcr u, u)
  | 5 => (lsr u, u)
  | 6 => (u_msr u, u)
  | _ => (if u_has_scr u then u_scr u else 0xff, u)
  end.

(** A write of a register.  In loopback mode what is transmitted is received at once.  Enabling the
    interrupt of the empty holding register raises it.  A change of the FIFO mode empties the FIFO;
    its reset bits count only when the FIFO is enabled. *)
Definition u_out (off v : Z) (u : Uart) : Uart :=
  match off with
  | 0 =>
      if dlab u then set_u_dll v u
      else if loopback u then set_u_thri true (set_u_rx (u_rx u ++ [v]) u)
      else set_u_thri false (set_u_hold (Some v) u)
  | 1 =>
      if dlab u then set_u_dlm v u
      else set_u_ier (Z.land v 0xf)
             (if Z.testbit v 1 && negb (Z.testbit (u_ier u) 1) && thre u then set_u_thri true u else u)
  | 2 =>
      if eqb (Z.testbit v 0) (u_fifo u) && negb (Z.testbit v 0 && Z.testbit v 1) then u
      else set_u_fifo (Z.testbit v 0) (set_u_rx [] u)
  | 3 => set_u_lcr v u
  | 4 => set_u_mcr v u
  | 7 => set_u_scr v u
  | _ => u
  end.

(** The character in the holding register has been sent. *)
Definition u_tick (u : Uart) : Uart :=
  match u_hold u with
  | None => u
  | Some b => set_u_line (u_line u ++ [b]) (set_u_thri true (set_u_hold None u))
  end.

Definition u_arrive (b : Z) (u : Uart) : Uart := set_u_rx (u_rx u ++ [b]) u.

(** What LCR selects: data bits, parity enable, even parity, stick parity and the second stop bit. *)
Record Format := mkFormat { f_bits : Z; f_two_stop : bool; f_parity : bool; f_even : bool; f_stick : bool }.
Definition lcr_format (v : Z) : Format :=
  mkFormat (5 + Z.land v 3) (Z.testbit v 2) (Z.testbit v 3) (Z.testbit v 4) (Z.testbit v 5).

End Uart.
Import Uart.

(** The I/O ports, bytes read and written at 16-bit addresses. *)
Class PortOps (P : Type) := { inb : Z -> P -> Z * P; outb : Z -> Z -> P -> P }.

Definition SERIAL_ADDR : list Z := [0x3f8; 0x2f8; 0x3e8; 0x2e8; 0x5f8; 0x4f8; 0x5e8; 0x4e8].

(** The chip at each address, if there is one; nobody drives the bus at other addresses. *)
Class UartLaws (P : Type) `{PortOps P} := {
  uart : Z -> P -> option Uart;
  tick : Z -> P -> P;
  arrive : Z -> Z -> P -> P;
  uart_in : forall a off p u, a ∈ SERIAL_ADDR -> 0 <= off < 8 -> uart a p = Some u ->
    (inb (a + off) p).1 = (u_in off u).1 /\ uart a (inb (a + off) p).2 = Some (u_in off u).2;
  uart_out : forall a off v p u, a ∈ SERIAL_ADDR -> 0 <= off < 8 -> uart a p = Some u ->
    uart a (outb (a + off) v p) = Some (u_out off v u);
  none_in : forall a off p, a ∈ SERIAL_ADDR -> 0 <= off < 8 -> uart a p = None ->
    (inb (a + off) p).1 = 0xff /\ uart a (inb (a + off) p).2 = None;
  none_out : forall a off v p, a ∈ SERIAL_ADDR -> 0 <= off < 8 -> uart a p = None -> uart a (outb (a + off) v p) = None;
  other_in : forall a b off p, a ∈ SERIAL_ADDR -> b ∈ SERIAL_ADDR -> a <> b -> 0 <= off < 8 -> uart b (inb (a + off) p).2 = uart b p;
  other_out : forall a b off v p, a ∈ SERIAL_ADDR -> b ∈ SERIAL_ADDR -> a <> b -> 0 <= off < 8 -> uart b (outb (a + off) v p) = uart b p;
  uart_tick : forall a p u, uart a p = Some u -> uart a (tick a p) = Some (u_tick u);
  uart_arrive : forall a b p u, uart a p = Some u -> uart a (arrive a b p) = Some (u_arrive b u);
}.

(** ** The driver of a port *)
Module Port.

Inductive SerialError := NotPresent | NoLoopback.
Inductive Parity := PNone | Odd | Even | Mark | Space.
Inductive StopBits := One | Two.
Inductive DataBits := Five | Six | Seven | Eight.

(** The discriminants. *)
Definition parity_u8 (p : Parity) : Z := match p with PNone => 0 | Odd => 1 | Even => 2 | Mark => 3 | Space => 4 end.
Definition stop_u8 (s : StopBits) : Z := match s with One => 0 | Two => 1 end.
Definition bits_u8 (d : DataBits) : Z := match d with Five => 0 | Six => 1 | Seven => 2 | Eight => 3 end.

(** [Into<char>] of [Parity] and [Into<u8>] of [DataBits]. *)
Definition parity_char (p : Parity) : Z := match p with PNone => 78 | Odd => 79 | Mark => 77 | Even => 69 | Space => 83 end.
Definition data_bits_number (d : DataBits) : Z := match d with Five => 5 | Six => 6 | Seven => 7 | Eight => 8 end.

Inductive ModemCtl := DATA_TERMINAL_READY | REQUEST_TO_SEND | AUX1 | AUX2 | LOOPBACK | AUTOFLOW_CTL_ENABLE.
Definition modem_bit (m : ModemCtl) : Z :=
  match m with DATA_TERMINAL_READY => 1 | REQUEST_TO_SEND => bit 1 | AUX1 => bit 2 | AUX2 => bit 3 | LOOPBACK => bit 4 | AUTOFLOW_CTL_ENABLE => bit 5 end.

Inductive LineStatus := DATA_READY | OVERRUN_ERR | PARITY_ERR | FRAMING_ERR | BREAK_INT | EMPTY_TRANSMIT_REG | EMPTY_DATA_REG | ERR_IN_FIFO.
Definition line_bit (l : LineStatus) : Z :=
  match l with
  | DATA_READY => 1 | OVERRUN_ERR => bit 1 | PARITY_ERR => bit 2 | FRAMING_ERR => bit 3 | BREAK_INT => bit 4 | EMPTY_TRANSMIT_REG => bit 5
  | EMPTY_DATA_REG => bit 6 | ERR_IN_FIFO => bit 7
  end.

Inductive InterruptEnable := DATA_RECEIVED | TRANSMIT_HOLDING_REGISTER_EMPTY | RECIEVER_LIE_STATUS | MODEM_STATUS_INTERRUPT | SLEEP_MODE | LOW_POWER_MODE.
Definition enable_bit (i : InterruptEnable) : Z :=
  match i with
  | DATA_RECEIVED => 1 | TRANSMIT_HOLDING_REGISTER_EMPTY => bit 1 | RECIEVER_LIE_STATUS => bit 2 | MODEM_STATUS_INTERRUPT => bit 3
  | SLEEP_MODE => bit 4 | LOW_POWER_MODE => bit 5
  end.

(** [IntIdentification]: bit 0 is [pending], bits 1 to 3 are the reason.  The getter panics for a
    number that is no [IntReason]. *)
Inductive IntReason := ModemStatus | TransmitterEmpty | DataAvailable | LineStatusInt | FifoTimeOut.
Definition pending (id : Z) : bool := Z.testbit id 0.
Definition reason (id : Z) : outcome IntReason :=
  match Z.land (Z.shiftr id 1) 7 with
  | 0 => Done ModemStatus
  | 1 => Done TransmitterEmpty
  | 2 => Done DataAvailable
  | 3 => Done LineStatusInt
  | 6 => Done FifoTimeOut
  | _ => Panic
  end.

(** [write_locked] is the lock of [write_buff].  [rx_tgt] holds the bytes of the buffer behind the
    pointer; [dispatcher] is the registered waker and [woken] the wakers woken so far. *)
Record Serial := mkSerial {
  base : Z; divisor : Z; bits : DataBits; parity : Parity; stop : StopBits; modem_state : Z;
  write_buff : ChonkyBuff.ChonkyBuff Z; write_locked : bool; run : bool; rx_idle : bool; rx_idle_enable : bool;
  rx_tgt : option (list Z * nat); dispatcher : option nat; dirty : bool; woken : list nat }.

Definition set_divisor_field v s := mkSerial (base s) v (bits s) (parity s) (stop s) (modem_state s) (write_buff s) (write_locked s) (run s) (rx_idle s) (rx_idle_enable s) (rx_tgt s) (dispatcher s) (dirty s) (woken s).
Definition set_frame b p t s := mkSerial (base s) (divisor s) b p t (modem_state s) (write_buff s) (write_locked s) (run s) (rx_idle s) (rx_idle_enable s) (rx_tgt s) (dispatcher s) (dirty s) (woken s).
Definition set_modem v s := mkSerial (base s) (divisor s) (bits s) (parity s) (stop s) v (write_buff s) (write_locked s) (run s) (rx_idle s) (rx_idle_enable s) (rx_tgt s) (dispatcher s) (dirty s) (woken s).
Definition set_buff v s := mkSerial (base s) (divisor s) (bits s) (parity s) (stop s) (modem_state s) v (write_locked s) (run s) (rx_idle s) (rx_idle_enable s) (rx_tgt s) (dispatcher s) (dirty s) (woken s).
Definition set_locked v s := mkSerial (base s) (divisor s) (bits s) (parity s) (stop s) (modem_state s) (write_buff s) v (run s) (rx_idle s) (rx_idle_enable s) (rx_tgt s) (dispatcher s) (dirty s) (woken s).
Definition set_run v s := mkSerial (base s) (divisor s) (bits s) (parity s) (stop s) (modem_state s) (write_buff s) (write_locked s) v (rx_idle s) (rx_idle_enable s) (rx_tgt s) (dispatcher s) (dirty s) (woken s).
Definition set_idle_enable v s := mkSerial (base s) (divisor s) (bits s) (parity s) (stop s) (modem_state s) (write_buff s) (write_locked s) (run s) (rx_idle s) v (rx_tgt s) (dispatcher s) (dirty s) (woken s).
Definition set_tgt v s := mkSerial (base s) (divisor s) (bits s) (parity s) (stop s) (modem_state s) (write_buff s) (write_locked s) (run s) (rx_idle s) (rx_idle_enable s) v (dispatcher s) (dirty s) (woken s).
Definition set_dispatcher v s := mkSerial (base s) (divisor s) (bits s) (parity s) (stop s) (modem_state s) (write_buff s) (write_locked s) (run s) (rx_idle s) (rx_idle_enable s) (rx_tgt s) v (dirty s) (woken s).
Definition set_dirty v s := mkSerial (base s) (divisor s) (bits s) (parity s) (stop s) (modem_state s) (write_buff s) (write_locked s) (run s) (rx_idle s) (rx_idle_enable s) (rx_tgt s) (dispatcher s) v (woken s).
(** [AtomicWaker::wake] takes the registered waker. *)
Definition wake s := mkSerial (base s) (divisor s) (bits s) (parity s) (stop s) (modem_state s) (write_buff s) (write_locked s) (run s) (rx_idle s) (rx_idle_enable s) (rx_tgt s) None (dirty s)
  (match dispatcher s with Some w => woken s ++ [w] | None => woken s end).

Definition INT_ENABLE : Z := 1.
Definition INT_ID : Z := 2.
Definition LINE_CTL : Z := 3.
Definition MODEL_CTL : Z := 4.
Definition LINE_STS : Z := 5.
Definition MODEM_STS : Z := 6.
Definition SCRATCH_REG : Z := 7.

(** [self.base + offset], in 16 bits. *)
Definition port (s : Serial) (off : Z) : Z := (base s + off) mod 2 ^ 16.

Section Ops.
Context {P : Type} `{PortOps P} {FO : FlagOps}.
Implicit Types (s : Serial) (p : P).

Definition set_char_mode (data_bits : DataBits) (par : Parity) (stop_bits : StopBits) s p : Serial * P :=
  let b := Z.lor (Z.lor (bits_u8 data_bits) (Z.shiftl (parity_u8 par) 2)) (Z.shiftl (stop_u8 stop_bits) 3) in
  (set_frame data_bits par stop_bits s, outb (port s LINE_CTL) b p).

Definition set_divisor (d : Z) s p : outcome (Serial * P) :=
  assert_that (negb (d =? 0));;
  let p := outb (port s LINE_CTL) 0x80 p in
  let p := outb (base s) (d mod 256) p in
  let p := outb (port s 1) (d / 256) p in
  let p := outb (port s LINE_CTL) 0 p in
  let s := set_divisor_field d s in
  Done (set_char_mode (bits s) (parity s) (stop s) s p).

Definition modem_ctl (state : Z) s p : Serial * P := (set_modem state s, outb (port s MODEL_CTL) state p).

Definition line_state s p : Z * P := inb (port s LINE_STS) p.
Definition can_send s p : bool * P := let '(line, p) := inb (port s LINE_STS) p in (contains line (line_bit EMPTY_TRANSMIT_REG), p).

Definition try_send (data : Z) s p : result unit Z * P :=
  let '(c, p) := can_send s p in
  if c then (Ok tt, outb (base s) data p) else (Err data, p).

Definition receive s p : option Z * P :=
  let '(line, p) := line_state s p in
  if contains line (line_bit DATA_READY) then let '(b, p) := inb (base s) p in (Some b, p) else (None, p).

Definition set_int_enable (mode : Z) s p : P := outb (port s INT_ENABLE) mode p.
Definition get_modem_state s p : Z * P := inb (port s MODEM_STS) p.
Definition set_fifo (data : Z) s p : P := outb (port s INT_ID) data p.
Definition int_id s p : Z * P := inb (port s INT_ID) p.

(** [test]: the scratch register decides about [is_8250]. *)
Definition scratch_missing s p : bool * P :=
  let p := outb (port s SCRATCH_REG) 0 p in
  let '(v, p) := inb (port s SCRATCH_REG) p in
  if v =? 0 then
    let p := outb (port s SCRATCH_REG) 0xff p in
    let '(v, p) := inb (port s SCRATCH_REG) p in
    (negb (v =? 0xff), p)
  else (true, p).

Definition test s p : outcome (result unit SerialError * Serial * P) :=
  let p := outb (port s INT_ENABLE) 0 p in
  sp ← set_divisor 3 s p; let '(s, p) := (sp : Serial * P) in
  let '(s, p) := modem_ctl (modem_bit LOOPBACK) s p in
  let '(is_8250, p) := scratch_missing s p in
  let s := set_idle_enable is_8250 s in
  let '(_, p) := try_send 1 s p in
  match receive s p with
  | (Some 1, p) => let '(s, p) := modem_ctl (modem_bit DATA_TERMINAL_READY) s p in Done (Ok tt, s, p)
  | (_, p) => Done (Err NoLoopback, s, p)
  end.

Definition fresh (addr : Z) : Serial :=
  mkSerial addr 3 Eight PNone One 0 ChonkyBuff.new false false true false None None false [].

Definition new (addr : Z) p : outcome (result Serial SerialError * P) :=
  r ← test (fresh addr) p; let '(r, s, p) := (r : result unit SerialError * Serial * P) in
  Done (match r with Ok _ => Ok s | Err e => Err e end, p).

(** The lock of [write_buff] is taken and released, or waited for for ever. *)
Definition queue_send (buff : list Z) s p : outcome (option (nat * Serial * P)) :=
  if write_locked s then Done None else
  let '(r, l) := ChonkyBuff.push buff (write_buff s) in
  if run s then Done (Some (r, set_buff l s, p))
  else
    x ← ChonkyBuff.pop l;
    match (x : option Z * _) with
    | (Some b, l) =>
        let s := set_buff l s in
        let '(sent, p) := try_send b s p in
        Done (Some (r, if is_ok sent then set_run true s else s, p))
    | (None, l) => Done (Some (r, set_buff l s, p))
    end.

Definition irq s : option Z :=
  if bool_decide (base s ∈ [0x3f8; 0x3e8]) then Some 4
  else if bool_decide (base s ∈ [0x2f8; 0x2e8]) then Some 3
  else None.

(** *** The interrupt handler *)

(** [IntReason::TransmitterEmpty]. *)
Fixpoint tx_loop (fuel : nat) s p : outcome (option (Serial * P)) :=
  match fuel with
  | O => Done None
  | S fuel =>
      let '(c, p) := can_send s p in
      if c then
        if write_locked s then Done None else
        x ← ChonkyBuff.pop (write_buff s);
        match (x : option Z * _) with
        | (Some b, l) =>
            let s := set_buff l s in
            let '(sent, p) := try_send b s p in
            unwrap (result_ok sent);;
            tx_loop fuel s p
        | (None, l) => Done (Some (set_run false (set_buff l s), p))
        end
      else Done (Some (s, p))
  end.

(** [IntReason::DataAvailable].  Without a buffer the byte is dropped. *)
Fixpoint rx_loop (fuel : nat) s p : outcome (option (Serial * P)) :=
  match fuel with
  | O => Done None
  | S fuel =>
      match receive s p with
      | (None, p) => Done (Some (s, p))
      | (Some b, p) =>
          match rx_tgt s with
          | None => rx_loop fuel s p
          | Some (buff, i) =>
              assert_that (Nat.ltb i (length buff));;
              let s := set_tgt (Some (<[i := b]> buff, S i)) s in
              if Nat.leb (length buff) (S i) then Done (Some (s, set_int_enable (enable_bit TRANSMIT_HOLDING_REGISTER_EMPTY) s p))
              else rx_loop fuel s p
          end
      end
  end.

(** [IntReason::FifoTimeOut]. *)
Fixpoint timeout_loop (fuel : nat) s p : outcome (option (Serial * P)) :=
  match rx_tgt s with
  | None => let '(_, p) := receive s p in Done (Some (s, p))
  | Some (buff, i) =>
      match fuel with
      | O => Done None
      | S fuel =>
          match receive s p with
          | (None, p) => Done (Some (s, p))
          | (Some b, p) =>
              if Nat.ltb (length buff) i then timeout_loop fuel s p
              else assert_that (Nat.ltb i (length buff));; timeout_loop fuel (set_tgt (Some (<[i := b]> buff, S i)) s) p
          end
      end
  end.

Definition serve (fuel : nat) (r : IntReason) s p : outcome (option (Serial * P)) :=
  match r with
  | ModemStatus => Panic
  | TransmitterEmpty => tx_loop fuel s p
  | DataAvailable => rx_loop fuel s p
  | LineStatusInt => Panic
  | FifoTimeOut => timeout_loop fuel s p
  end.

(** The handler up to the end-of-interrupt message; [id] has just been read. *)
Fixpoint int_loop (fuel : nat) (id : Z) s p : outcome (option (Serial * P)) :=
  if pending id then Done (Some (s, p))
  else
    match fuel with
    | O => Done None
    | S fuel' =>
        let s := set_dirty true s in
        r ← reason id;
        x ← serve fuel r s p;
        match (x : option (Serial * P)) with
        | None => Done None
        | Some (s, p) => let s := wake s in let '(id, p) := int_id s p in int_loop fuel' id s p
        end
    end.

Definition int_handler (fuel : nat) s p : outcome (option (Serial * P)) :=
  let '(id, p) := int_id s p in int_loop fuel id s p.

(** [Future::poll] of the port: the dispatcher's task waits for interrupts. *)
Definition poll (cx : nat) s : bool * Serial :=
  if dirty s then (true, set_dispatcher (Some cx) (set_dirty false s)) else (false, set_dispatcher (Some cx) (set_dirty false s)).

(** *** The search for ports *)

(** Pending interrupts are read away. *)
Fixpoint drain (fuel : nat) s p : outcome (option P) :=
  match fuel with
  | O => Done None
  | S fuel =>
      let '(id, p) := int_id s p in
      if pending id then Done (Some p)
      else
        r ← reason id;
        drain fuel s
          match r with
          | ModemStatus => (get_modem_state s p).2
          | TransmitterEmpty => p
          | DataAvailable => (receive s p).2
          | LineStatusInt => (line_state s p).2
          | FifoTimeOut => (receive s p).2
          end
  end.

(** The first loop of [init_rt_serial]; the registration in the file system and the task of the
    dispatcher are in [Dispatcher]. *)
Fixpoint find_ports (fuel : nat) (addrs : list Z) p : outcome (option (list Serial * P)) :=
  match addrs with
  | [] => Done (Some ([], p))
  | a :: addrs =>
      r ← new a p;
      match (r : result Serial SerialError * P) with
      | (Ok s, p) =>
          let p := set_fifo 6 s p in
          d ← drain fuel s p;
          match (d : option P) with
          | None => Done None
          | Some p =>
              let p := set_int_enable (Z.lor (enable_bit TRANSMIT_HOLDING_REGISTER_EMPTY) (enable_bit DATA_RECEIVED)) s p in
              rest ← find_ports fuel addrs p;
              match (rest : option (list Serial * P)) with
              | None => Done None
              | Some (com, p) => Done (Some (s :: com, p))
              end
          end
      | (Err _, p) => find_ports fuel addrs p
      end
  end.

(** [irq_map]: the indices of the ports by interrupt line, in the order of [com]. *)
Definition irq_ports (line : Z) (com : list Serial) : list nat :=
  (fun x => x.1) <$> filter (fun x => irq x.2 = Some line) (imap (fun i s => (i, s)) com).
Definition irq_map (com : list Serial) : list (Z * list nat) :=
  filter (fun x => x.2 <> []) ((fun line => (line, irq_ports line com)) <$> [3; 4]).

(** The last loop: interrupts leave the chip when AUX2 is set. *)
Fixpoint connect (com : list Serial) p : list Serial * P :=
  match com with
  | [] => ([], p)
  | s :: com =>
      let '(s, p) := match irq s with Some _ => modem_ctl (Z.lor (modem_bit AUX2) (modem_bit DATA_TERMINAL_READY)) s p | None => (s, p) end in
      let '(com, p) := connect com p in
      (s :: com, p)
  end.

Definition init_rt_serial (fuel : nat) p : outcome (option (list Serial * list (Z * list nat) * P)) :=
  r ← find_ports fuel SERIAL_ADDR p;
  match (r : option (list Serial * P)) with
  | None => Done None
  | Some (com, p) => let '(com', p) := connect com p in Done (Some (com', irq_map com, p))
  end.

End Ops.
End Port.

(** ** The file of a port *)
Module Dispatcher.
Import Port.

(** [OpenMode]. *)
Inductive OpenMode := Locked | Read | Write | ReadWrite.
Definition is_read (m : OpenMode) : bool := match m with Read | ReadWrite => true | _ => false end.
Definition is_write (m : OpenMode) : bool := match m with Write | ReadWrite => true | _ => false end.

Definition DEFAULT_QUOTA_SIZE : Z := 4096.

(** [SerialDispatcherInner]; [alive] tells whether [real] can be upgraded, [stream] is the waker of a
    reader, [ended] the wakers of the file that have been woken. *)
Record Inner := mkInner { alive : bool; quota : Z; pend : list nat; draining : bool; stream : option nat; stream_lock : bool; id : DevID; ended : list nat }.

Definition set_stream v d := mkInner (alive d) (quota d) (pend d) (draining d) v (stream_lock d) (id d) (ended d).
Definition set_stream_lock v d := mkInner (alive d) (quota d) (pend d) (draining d) (stream d) v (id d) (ended d).
Definition wake_stream d := mkInner (alive d) (quota d) (pend d) (draining d) None (stream_lock d) (id d) (match stream d with Some w => ended d ++ [w] | None => ended d end).
(** The swap of [draining] and the front of the queue of waiting writers. *)
Definition wake_pend d :=
  if draining d then d
  else mkInner (alive d) (quota d) (tail (pend d)) true (stream d) (stream_lock d) (id d) (match head (pend d) with Some w => ended d ++ [w] | None => ended d end).

(** [SerialDispatcher::new]; [minor] is the counter [MINOR]. *)
Definition new (major minor : Z) : Inner * OpenMode * Z :=
  (mkInner true DEFAULT_QUOTA_SIZE [] false None false (mkDevID major minor) [], Locked, wadd minor 1).

(** A handle is its [fifo_lock].  The exchange of [open] does not fail spuriously. *)
Definition open (mode : OpenMode) (h : OpenMode) (d : Inner) : result unit IoError * OpenMode * Inner :=
  if negb (alive d) then (Err MediaError, h, d)
  else if is_read mode then
    if stream_lock d then (Err Busy, h, d) else (Ok tt, mode, set_stream_lock true d)
  else (Ok tt, mode, d).

Definition close (h : OpenMode) (d : Inner) : result unit IoError * OpenMode * Inner :=
  match h with
  | Locked => (Err NotReady, h, d)
  | _ => (Ok tt, Locked, if is_write h then set_stream_lock false d else d)
  end.

Definition locks_remain (mode : OpenMode) (d : Inner) : Z :=
  if is_write mode then (if stream_lock d then 0 else 1) else 2 ^ 64 - 1.

(** [Drop]. *)
Definition drop_handle (h : OpenMode) (d : Inner) : Inner := (close h d).2.

(** The masks of the interrupt lines of all ports. *)
Definition block_interrupts (blocked : bool) (masks : list bool) : bool * list bool :=
  (default false (last masks), (fun _ => blocked) <$> masks).
Definition without_interrupts {A} (f : A) (masks : list bool) : A * list bool :=
  let '(original, masks) := block_interrupts true masks in (f, (block_interrupts original masks).2).

Record Sys (P : Type) := mkSys { ser : Serial; ports : P; disp : Inner }.
Arguments mkSys {P}.
Arguments ser {P}.
Arguments ports {P}.
Arguments disp {P}.

Section Ops.
Context {P : Type} `{PortOps P} {FO : FlagOps}.
Implicit Types y : Sys P.

Definition set_ser (s : Serial) y := mkSys s (ports y) (disp y).
Definition set_ports (p : P) y := mkSys (ser y) p (disp y).
Definition set_disp (d : Inner) y := mkSys (ser y) (ports y) d.

(** One turn of [run] up to the next suspension: the port has been awaited with the waker [cx]. *)
Definition run_turn (cx : nat) y : option (Sys P) :=
  let '(rdy, s) := poll cx (ser y) in
  let y := set_ser s y in
  if negb rdy then Some y else
  let d := wake_stream (disp y) in
  if write_locked s then None else
  let l := write_buff s in
  let l' := ChonkyBuff.free l in
  let d :=
    if ChonkyBuff.valid_len l <? ChonkyBuff.buff_len l then
      if ChonkyBuff.buff_len l' <? quota d then wake_pend d else d
    else d in
  Some (set_disp d (set_ser (set_buff l' s) y)).

(** *** Writing *)

(** A write waits for the chunk [wf_id]; [wf_guard] tells whether the future holds the guard of
    [write_buff]: it is moved and dropped only on the branch that starts the transmission. *)
Record WriteFut := mkWriteFut { wf_id : nat; wf_len : nat; wf_guard : bool }.

(** The checks of [write] and the exchange of [run], whose old value is the result. *)
Definition write_begin (h : OpenMode) y : result bool IoError * Sys P :=
  if negb (is_write h) then (Err NotReady, y)
  else if negb (alive (disp y)) then (Err MediaError, y)
  else (Ok (run (ser y)), set_ser (set_run true (ser y)) y).

(** The guard of the buffer, taken with interrupts on, and the new chunk.  [None]: the lock is taken. *)
Definition write_push (buff : list Z) y : option (nat * Sys P) :=
  if write_locked (ser y) then None
  else
    let '(i, l) := ChonkyBuff.push buff (write_buff (ser y)) in
    Some (i, set_ser (set_locked true (set_buff l (ser y))) y).

(** The first byte, with interrupts off, and the end of the guard; nothing of it when the transmission is [running]. *)
Definition write_kick (running : bool) (i len : nat) y : outcome (WriteFut * Sys P) :=
  if negb running then
    x ← ChonkyBuff.pop (write_buff (ser y));
    match (x : option Z * _) with
    | (Some b, l) =>
        let '(sent, p) := try_send b (ser y) (ports y) in
        unwrap (result_ok sent);;
        Done (mkWriteFut i len false, mkSys (set_locked false (set_buff l (ser y))) p (disp y))
    | (None, l) => Done (mkWriteFut i len false, set_ser (set_locked false (set_buff l (ser y))) y)
    end
  else Done (mkWriteFut i len true, y).

(** [write] up to the first poll of the chunk, when nothing comes between its parts. *)
Definition write_start (h : OpenMode) (buff : list Z) y : outcome (option (result WriteFut IoError * Sys P)) :=
  match write_begin h y with
  | (Err e, y) => Done (Some (Err e, y))
  | (Ok running, y) =>
      match write_push buff y with
      | None => Done None
      | Some (i, y) => x ← write_kick running i (length buff) y; let '(f, y) := (x : WriteFut * Sys P) in Done (Some (Ok f, y))
      end
  end.

(** A poll of the suspended write: the number of bytes when it is over. *)
Definition write_poll (f : WriteFut) y : option nat * Sys P :=
  if ChonkyBuff.poll_push (wf_id f) (write_buff (ser y)) then
    (Some (wf_len f), if wf_guard f then set_ser (set_locked false (ser y)) y else y)
  else (None, y).

(** *** Reading *)

(** The loop of [read] over the bytes that are there; the result is the number of bytes when the
    buffer is full. *)
Fixpoint read_loop (fuel : nat) (buff : list Z) (count : nat) (s : Serial) (p : P) : outcome (option (bool * list Z * nat * P)) :=
  match fuel with
  | O => Done None
  | S fuel =>
      match receive s p with
      | (None, p) => Done (Some (false, buff, count, p))
      | (Some b, p) =>
          assert_that (Nat.ltb count (length buff));;
          let buff := <[count := b]> buff in
          if Nat.leb (length buff) (S count) then Done (Some (true, buff, S count, p))
          else read_loop fuel buff (S count) s p
      end
  end.

(** [read] up to [ReadFut]: an early result, or the buffer has become the target. *)
Definition read_start (fuel : nat) (h : OpenMode) (buff : list Z) y :
  outcome (option (option (result (list Z * nat) IoError) * Sys P)) :=
  if negb (is_read h) then Done (Some (Some (Err NotReady), y))
  else if negb (alive (disp y)) then Done (Some (Some (Err MediaError), y))
  else
    match rx_tgt (ser y) with
    | Some _ => Done (Some (Some (Err Busy), y))
    | None =>
        x ← read_loop fuel buff 0 (ser y) (ports y);
        match (x : option (bool * list Z * nat * P)) with
        | None => Done None
        | Some (true, buff, count, p) => Done (Some (Some (Ok (buff, count)), set_ports p y))
        | Some (false, buff, count, p) => Done (Some (None, mkSys (set_tgt (Some (buff, count)) (ser y)) p (disp y)))
        end
    end.

(** [ReadFut::poll]. *)
Definition read_poll (h : OpenMode) (cx : nat) y : outcome (option (result (list Z * nat) IoError) * Sys P) :=
  if negb (is_read h) then Done (Some (Err NotReady), y)
  else if negb (alive (disp y)) then Done (Some (Err MediaError), y)
  else
    t ← unwrap (rx_tgt (ser y));
    let '(buff, i) := (t : list Z * nat) in
    if Nat.eqb i (length buff) then Done (Some (Ok (buff, length buff)), set_ser (set_tgt None (ser y)) y)
    else if rx_idle (ser y) && Nat.ltb 0 i then Done (Some (Ok (buff, i)), set_ser (set_tgt None (ser y)) y)
    else Done (None, set_disp (set_stream (Some cx) (disp y)) y).

End Ops.
End Dispatcher.

(** ** The frame control file *)
Module FrameCtl.
Import Port Dispatcher.

(** *** Text *)

(** Decimal digits of a number below 10^fuel. *)
Fixpoint decimal (fuel : nat) (n : Z) : list Z :=
  match fuel with
  | O => []
  | S fuel => if n <? 10 then [48 + n] else decimal fuel (n / 10) ++ [48 + n mod 10]
  end.

(** [f32] division of whole numbers. *)
Definition f32_of_Z (n : Z) : spec_float := binary_normalize 24 128 n 0 false.
Definition f32_div (a b : spec_float) : spec_float := SFdiv 24 128 a b.

(** The format [{:.0}]: the value of the number, rounded to a whole number with ties to even. *)
Definition round_even (num den : Z) : Z :=
  let q := num / den in
  let r := num mod den in
  if 2 * r <? den then q else if den <? 2 * r then q + 1 else if Z.even q then q else q + 1.
Definition f32_round (x : spec_float) : option Z :=
  match x with
  | S754_zero _ => Some 0
  | S754_finite false m e => Some (if 0 <=? e then Z.pos m * 2 ^ e else round_even (Z.pos m) (2 ^ (- e)))
  | _ => None
  end.

(** [str::find] of a character below 128. *)
Fixpoint find (c : Z) (s : list Z) : option nat :=
  match s with [] => None | b :: s => if b =? c then Some 0%nat else S <$> find c s end.

(** [str::chars] of well-formed text. *)
Fixpoint chars (l : list Z) : list Z :=
  match l with
  | [] => []
  | b :: l1 =>
      if b <? 128 then b :: chars l1
      else if b <? 224 then match l1 with c :: l2 => (Z.land b 31 * 64 + Z.land c 63) :: chars l2 | [] => [] end
      else if b <? 240 then match l1 with c :: d :: l3 => (Z.land b 15 * 4096 + Z.land c 63 * 64 + Z.land d 63) :: chars l3 | _ => [] end
      else match l1 with c :: d :: e :: l4 => (Z.land b 7 * 262144 + Z.land c 63 * 4096 + Z.land d 63 * 64 + Z.land e 63) :: chars l4 | _ => [] end
  end.

Definition to_ascii_uppercase (c : Z) : Z := if (97 <=? c) && (c <=? 122) then c - 32 else c.

Definition DASH : Z := 45.

(** *** Reading *)

(** The pieces that [write!] writes. *)
Definition mode_text (s : Serial) : outcome (list (list Z)) :=
  b_rate ← unwrap (f32_round (f32_div (f32_of_Z 115200) (f32_of_Z (divisor s))));
  Done [decimal 20 b_rate; [DASH]; decimal 3 (data_bits_number (bits s)); [parity_char (parity s)]; decimal 3 (stop_u8 (stop s) + 1)].

Definition position_zero (l : list Z) : option nat := find 0 l.

Definition read (alive : bool) (buff : list Z) (s : Serial) : outcome (result (list Z * nat) (IoError * list Z * nat)) :=
  if negb alive then Done (Err (MediaError, buff, 0%nat)) else
  pieces ← mode_text s;
  let end_ := Nat.min (length buff) 10 in
  let buff := replicate end_ 0 ++ drop end_ buff in
  let '(rs, w) := write_strs pieces (ByteSink.writable buff) in
  let buff := ByteSink.arr w in
  if existsb (fun r => negb (is_ok r)) rs then Done (Err (EndOfFile, buff, length buff))
  else
    assert_that (Nat.leb 10 (length buff));;
    Done (Ok (buff, default 10%nat (position_zero (take 10 buff)))).

(** *** Writing *)

(** The divisor of a baud rate; a rate of zero divides by zero. *)
Definition divisor_of (baud_rate : Z) : outcome (option Z) :=
  let clock_rate := Z.shiftl 115200 16 in
  assert_that (negb (baud_rate =? 0));;
  let div_high := clock_rate / baud_rate in
  let div := if (2 ^ 16 - 1) / 2 <? Z.land div_high (2 ^ 16 - 1) then Z.shiftr div_high 16 + 1 else Z.shiftr div_high 16 in
  Done (if div <? 2 ^ 16 then Some div else None).

Definition data_bits_of (c : Z) : option DataBits :=
  match c with 53 => Some Five | 54 => Some Six | 55 => Some Seven | 56 => Some Eight | _ => None end.
Definition parity_of (c : Z) : option Parity :=
  match to_ascii_uppercase c with 78 => Some PNone | 79 => Some Odd | 77 => Some Mark | 69 => Some Even | 83 => Some Space | _ => None end.
Definition stop_bits_of (c : Z) : option StopBits := match c with 49 => Some One | 50 => Some Two | _ => None end.

(** The text as baud rate, divisor and frame format; [None] is [IoError::InvalidData]. *)
Definition parse_frame (frame : list Z) : option (DataBits * Parity * StopBits) :=
  if negb (Nat.eqb (length frame) 4) then None
  else
    match drop 1 (chars frame) with
    | [c0; c1; c2] =>
        match data_bits_of c0 with
        | None => None
        | Some b =>
            match parity_of c1 with
            | None => None
            | Some q => match stop_bits_of c2 with None => None | Some t => Some (b, q, t) end
            end
        end
    | _ => None
    end.

Definition parse_mode (buff : list Z) : outcome (option (Z * (DataBits * Parity * StopBits))) :=
  if negb (utf8_ok buff) then Done None
  else
    match find DASH buff with
    | None => Done None
    | Some i =>
        let '(baud_rate, frame) := split_at buff i in
        match PciCfg.parse (2 ^ 32) baud_rate with
        | None => Done None
        | Some baud_rate =>
            if 115200 <? baud_rate then Done None
            else
              d ← divisor_of baud_rate;
              Done (match d with None => None | Some d => match parse_frame frame with None => None | Some f => Some (d, f) end end)
        end
    end.

Section Ops.
Context {P : Type} `{PortOps P} {FO : FlagOps}.

Definition write (alive : bool) (buff : list Z) (s : Serial) (p : P) : outcome (result (list Z * nat) (IoError * list Z * nat) * Serial * P) :=
  m ← parse_mode buff;
  match (m : option (Z * (DataBits * Parity * StopBits))) with
  | None => Done (Err (InvalidData, buff, 0%nat), s, p)
  | Some (d, (b, q, t)) =>
      if negb alive then Done (Err (MediaError, buff, 0%nat), s, p) else
      let '(s, p) := set_char_mode b q t s p in
      sp ← set_divisor d s p;
      let '(s, p) := (sp : Serial * P) in
      Done (Ok (buff, length buff), s, p)
  end.

End Ops.
End FrameCtl.

(** ** Registers *)
Section Regs.
Context {P : Type} `{UartLaws P} {FO : FlagOps} {FL : FlagLaws}.
Import Port.
Implicit Types (s : Serial) (p : P) (u : Uart).

(** The ports of [a] show the chip [u], and the other chips are as before. *)
Definition upd (a : Z) u p p' : Prop :=
  uart a p' = Some u /\ forall b, b ∈ SERIAL_ADDR -> a <> b -> uart b p' = uart b p.

Lemma upd_trans a u u' p p' p'' : upd a u p p' -> upd a u' p' p'' -> upd a u' p p''.
Proof. intros [_ H1] [H2 H3]. split; [done|]. intros b Hb Hne. rewrite H3, H1 by done. done. Qed.

Lemma upd_refl a u p : uart a p = Some u -> upd a u p p.
Proof. by split. Qed.

Lemma in_ok a off p u : a ∈ SERIAL_ADDR -> 0 <= off < 8 -> uart a p = Some u ->
  exists p', inb (a + off) p = ((u_in off u).1, p') /\ upd a (u_in off u).2 p p'.
Proof.
  intros Ha Ho Hu. destruct (uart_in a off p u Ha Ho Hu) as [H1 H2]. exists (inb (a + off) p).2.
  split; [rewrite <- H1; by destruct (inb _ p)|]. split; [done|]. intros b Hb Hne. by apply other_in.
Qed.

Lemma out_ok a off v p u : a ∈ SERIAL_ADDR -> 0 <= off < 8 -> uart a p = Some u -> upd a (u_out off v u) p (outb (a + off) v p).
Proof. intros Ha Ho Hu. split; [by apply uart_out|]. intros b Hb Hne. by apply other_out. Qed.

Lemma port_eq s off : base s ∈ SERIAL_ADDR -> 0 <= off < 8 -> port s off = base s + off.
Proof.
  intros Ha Ho. unfold port. apply Z.mod_small.
  assert (0 <= base s < 0x600); [|lia]. unfold SERIAL_ADDR in Ha. set_unfold. intuition lia.
Qed.

Lemma lsr_thre u : contains (lsr u) (line_bit EMPTY_TRANSMIT_REG) = thre u.
Proof. rewrite contains_spec. unfold lsr. by destruct (ready u), (thre u). Qed.

Lemma lsr_ready u : contains (lsr u) (line_bit DATA_READY) = ready u.
Proof. rewrite contains_spec. unfold lsr. by destruct (ready u), (thre u). Qed.

Lemma can_send_ok s p u : base s ∈ SERIAL_ADDR -> uart (base s) p = Some u ->
  exists p', can_send s p = (thre u, p') /\ upd (base s) u p p'.
Proof.
  intros Ha Hu. unfold can_send. rewrite port_eq by done. destruct (in_ok (base s) LINE_STS p u) as (p' & -> & Hp); [done|done|done|].
  exists p'. cbn [u_in LINE_STS fst]. by rewrite lsr_thre.
Qed.

(** Bytes put into the holding register. *)
Definition send (v : Z) u : Uart := u_out 0 v u.

Lemma try_send_ok v s p u : base s ∈ SERIAL_ADDR -> uart (base s) p = Some u ->
  exists p', try_send v s p = (if thre u then Ok tt else Err v, p') /\ upd (base s) (if thre u then send v u else u) p p'.
Proof.
  intros Ha Hu. unfold try_send. destruct (can_send_ok s p u Ha Hu) as (p1 & -> & H1). destruct (thre u).
  - eexists. split; [done|]. eapply upd_trans; [exact H1|]. rewrite <- (Z.add_0_r (base s)) at 2. apply out_ok; [done|done|]. apply H1.
  - eexists. split; [done|]. done.
Qed.

Lemma receive_ok s p u : base s ∈ SERIAL_ADDR -> uart (base s) p = Some u -> dlab u = false ->
  exists p', receive s p = (head (u_rx u), p') /\ upd (base s) (set_u_rx (tail (u_rx u)) u) p p'.
Proof.
  intros Ha Hu Hd. unfold receive, line_state. rewrite port_eq by done.
  destruct (in_ok (base s) LINE_STS p u) as (p1 & -> & H1); [done..|]. cbn [u_in LINE_STS fst snd] in *. rewrite lsr_ready.
  unfold ready. destruct (u_rx u) as [|b r] eqn:Hr.
  - exists p1. split; [done|]. cbn [tail]. replace (set_u_rx [] u) with u; [done|]. destruct u; cbn in *; by subst.
  - destruct (in_ok (base s) 0 p1 u) as (p2 & Hi & H2); [done|done|apply H1|]. rewrite Z.add_0_r in Hi. rewrite Hi.
    exists p2. cbn [u_in] in *. rewrite Hd, Hr in *. split; [done|]. by eapply upd_trans.
Qed.

Lemma int_id_ok s p u : base s ∈ SERIAL_ADDR -> uart (base s) p = Some u ->
  exists p', int_id s p = (iir u, p') /\ upd (base s) (if iir u =? 2 then set_u_thri false u else u) p p'.
Proof.
  intros Ha Hu. unfold int_id. rewrite port_eq by done. destruct (in_ok (base s) INT_ID p u) as (p' & -> & Hp); [done..|]. by exists p'.
Qed.

Lemma write_reg s off v p u : base s ∈ SERIAL_ADDR -> 0 <= off < 8 -> uart (base s) p = Some u ->
  upd (base s) (u_out off v u) p (outb (port s off) v p).
Proof. intros Ha Ho Hu. rewrite port_eq by done. by apply out_ok. Qed.

Lemma data_reg s v p u : base s ∈ SERIAL_ADDR -> uart (base s) p = Some u -> upd (base s) (u_out 0 v u) p (outb (base s) v p).
Proof. intros Ha Hu. pose proof (out_ok (base s) 0 v p u Ha ltac:(lia) Hu) as Hp. by rewrite Z.add_0_r in Hp. Qed.

(** *** Configuration *)

Definition frame_lcr (b : DataBits) (q : Parity) (t : StopBits) : Z :=
  Z.lor (Z.lor (bits_u8 b) (Z.shiftl (parity_u8 q) 2)) (Z.shiftl (stop_u8 t) 3).

Lemma set_char_mode_ok b q t s p u : base s ∈ SERIAL_ADDR -> uart (base s) p = Some u ->
  exists p', set_char_mode b q t s p = (set_frame b q t s, p') /\ upd (base s) (set_u_lcr (frame_lcr b q t) u) p p'.
Proof. intros Ha Hu. eexists. split; [done|]. by apply (write_reg s LINE_CTL _ p u). Qed.

Lemma set_divisor_ok d s p u : base s ∈ SERIAL_ADDR -> uart (base s) p = Some u -> 0 < d < 2 ^ 16 ->
  exists p', set_divisor d s p = Done (set_frame (bits s) (parity s) (stop s) (set_divisor_field d s), p') /\
    upd (base s) (set_u_lcr (frame_lcr (bits s) (parity s) (stop s)) (set_u_dlm (d / 256) (set_u_dll (d mod 256) u))) p p'.
Proof.
  intros Ha Hu Hd. unfold set_divisor. rewrite (proj2 (Z.eqb_neq d 0)) by lia. cbn [negb assert_that mbind outcome_bind].
  eexists. split; [reflexivity|]. cbn [set_divisor_field set_frame base bits parity stop].
  assert (forall off, 0 <= off < 8 -> 0 <= off < 8) as Ho by done.
  pose proof (write_reg s LINE_CTL 0x80 p u Ha (Ho 3 ltac:(lia)) Hu) as H1. set (p1 := outb _ _ p) in *.
  pose proof (data_reg s (d mod 256) p1 _ Ha (proj1 H1)) as H2. set (p2 := outb _ _ p1) in *.
  pose proof (write_reg s 1 (d / 256) p2 _ Ha (Ho 1 ltac:(lia)) (proj1 H2)) as H3. set (p3 := outb _ _ p2) in *.
  pose proof (write_reg s LINE_CTL 0 p3 _ Ha (Ho 3 ltac:(lia)) (proj1 H3)) as H4. set (p4 := outb _ _ p3) in *.
  pose proof (write_reg s LINE_CTL (frame_lcr (bits s) (parity s) (stop s)) p4 _ Ha (Ho 3 ltac:(lia)) (proj1 H4)) as H5.
  pose proof (upd_trans _ _ _ _ _ _ H1 (upd_trans _ _ _ _ _ _ H2 (upd_trans _ _ _ _ _ _ H3 (upd_trans _ _ _ _ _ _ H4 H5)))) as H6.
  by destruct u.
Qed.

End Regs.

(** ** Detection *)
Section Detection.
Context {P : Type} `{UartLaws P} {FO : FlagOps} {FL : FlagLaws}.
Import Port.
Implicit Types (s : Serial) (p : P) (u : Uart).

(** A chip that neither sends nor holds received data, with access to its data registers. *)
Definition quiet u : Prop := u_rx u = [] /\ u_hold u = None /\ dlab u = false.

(** What [test] leaves: interrupts off, divisor 3, eight bits without parity, DTR. *)
Definition tested u : Uart :=
  mkUart 0 3 1 3 0 (if u_has_scr u then 0xff else 0) (u_has_scr u) (u_msr u) (u_fifo u) None true [] (u_line u).
Definition found (a : Z) u : Serial := set_modem 1 (set_idle_enable (negb (u_has_scr u)) (fresh a)).

Lemma scratch_ok s p u : base s ∈ SERIAL_ADDR -> uart (base s) p = Some u ->
  exists p', scratch_missing s p = (negb (u_has_scr u), p') /\ upd (base s) (set_u_scr (if u_has_scr u then 0xff else 0) u) p p'.
Proof.
  intros Ha Hu. unfold scratch_missing. pose proof (write_reg s SCRATCH_REG 0 p u Ha ltac:(done) Hu) as H1. set (p1 := outb _ 0 p) in *.
  rewrite port_eq by done. destruct (in_ok (base s) SCRATCH_REG p1 _ Ha ltac:(done) (proj1 H1)) as (p2 & -> & H2).
  cbn [u_in u_out SCRATCH_REG fst snd u_has_scr u_scr set_u_scr] in *. pose proof (upd_trans _ _ _ _ _ _ H1 H2) as H12.
  destruct (u_has_scr u) eqn:Hs; cbn [Z.eqb negb]; [|by exists p2].
  pose proof (out_ok (base s) SCRATCH_REG 0xff p2 _ Ha ltac:(done) (proj1 H12)) as H3. set (p3 := outb _ 0xff p2) in *.
  destruct (in_ok (base s) SCRATCH_REG p3 _ Ha ltac:(done) (proj1 H3)) as (p4 & -> & H4).
  cbn [u_in u_out SCRATCH_REG fst snd u_has_scr u_scr set_u_scr] in *. rewrite Hs. exists p4. split; [done|].
  eapply upd_trans; [exact H12|]. eapply upd_trans; [exact H3|]. done.
Qed.

Lemma test_ok s p u : base s ∈ SERIAL_ADDR -> uart (base s) p = Some u -> quiet u -> bits s = Eight -> parity s = PNone -> stop s = One ->
  exists p', test s p = Done (Ok tt, set_modem 1 (set_idle_enable (negb (u_has_scr u)) (set_modem 16 (set_frame Eight PNone One (set_divisor_field 3 s)))), p') /\
    upd (base s) (tested u) p p'.
Proof.
  intros Ha Hu (Hrx & Hh & Hd) Hb Hq Ht. unfold test.
  pose proof (write_reg s INT_ENABLE 0 p u Ha ltac:(done) Hu) as H1. set (p1 := outb _ 0 p) in *.
  destruct (set_divisor_ok 3 s p1 _ Ha (proj1 H1) ltac:(done)) as (p2 & -> & H2). rewrite Hb, Hq, Ht in *. cbn [mbind outcome_bind].
  set (s2 := set_frame Eight PNone One (set_divisor_field 3 s)). unfold modem_ctl at 1.
  pose proof (write_reg s2 MODEL_CTL 16 p2 _ Ha ltac:(done) (proj1 H2)) as H3. change (modem_bit LOOPBACK) with 16. set (p3 := outb _ 16 p2) in *.
  destruct (scratch_ok (set_modem 16 s2) p3 _ Ha (proj1 H3)) as (p4 & -> & H4).
  assert (forall v w, u_has_scr (u_out 4 v (set_u_lcr 3 (set_u_dlm 0 (set_u_dll 3 (u_out 1 w u))))) = u_has_scr u) as Hsc.
  { intros v w. cbn [u_out]. by destruct (dlab u), (Z.testbit w 1 && negb (Z.testbit (u_ier u) 1) && thre u). }
  rewrite Hsc. set (s4 := set_idle_enable _ _). destruct (try_send_ok 1 s4 p4 _ Ha (proj1 H4)) as (p5 & -> & H5).
  change (base s4) with (base s) in *. change (base s2) with (base s) in *. change (base (set_modem 16 s2)) with (base s) in *.
  pose proof (upd_trans _ _ _ _ _ _ H1 (upd_trans _ _ _ _ _ _ H2 (upd_trans _ _ _ _ _ _ H3 (upd_trans _ _ _ _ _ _ H4 H5)))) as H6.
  clear H1 H2 H3 H4 H5. destruct u as [ier lcr mcr dll dlm scr hs msr fi ho th rx li]. cbn in Hrx, Hh. subst rx ho.
  unfold dlab in Hd. cbn [u_lcr] in Hd.
  match type of H6 with upd _ ?v _ _ => set (v5 := v) in * end.
  assert (v5 = mkUart 0 3 16 3 0 (if hs then 0xff else 0) hs msr fi None true [1] li) as Hv.
  { subst v5. cbn [u_out INT_ENABLE MODEL_CTL]. unfold dlab, send. cbn [u_lcr]. rewrite Hd. by destruct hs. }
  rewrite Hv in H6. destruct (receive_ok s4 p5 _ Ha (proj1 H6) eq_refl) as (p6 & -> & H7). cbn [u_rx head]. cbn [modem_ctl].
  eexists. split; [reflexivity|]. eapply upd_trans; [exact H6|]. eapply upd_trans; [exact H7|].
  change (tested _) with (u_out MODEL_CTL 1 (set_u_rx [] (mkUart 0 3 16 3 0 (if hs then 0xff else 0) hs msr fi None true [1] li))).
  apply (write_reg s4 MODEL_CTL); [done|done|apply H7].
Qed.

(** A quiet chip is found. *)
Lemma port_new_ok a p u : a ∈ SERIAL_ADDR -> uart a p = Some u -> quiet u ->
  exists p', Port.new a p = Done (Ok (found a u), p') /\ upd a (tested u) p p'.
Proof.
  intros Ha Hu Hq. unfold Port.new. destruct (test_ok (fresh a) p u Ha Hu Hq) as (p' & -> & Hp); [done..|]. by exists p'.
Qed.

(** *** Empty addresses *)

Definition same p p' : Prop := forall b, b ∈ SERIAL_ADDR -> uart b p' = uart b p.

Lemma none_read s off p : base s ∈ SERIAL_ADDR -> 0 <= off < 8 -> uart (base s) p = None ->
  exists p', inb (port s off) p = (0xff, p') /\ same p p'.
Proof.
  intros Ha Ho Hu. rewrite port_eq by done. destruct (none_in (base s) off p Ha Ho Hu) as [H1 H2]. exists (inb (base s + off) p).2.
  split; [rewrite <- H1; by destruct (inb _ p)|]. intros b Hb. destruct (decide (base s = b)) as [<-|Hne]; [by rewrite Hu|by apply other_in].
Qed.

Lemma none_write s off v p : base s ∈ SERIAL_ADDR -> 0 <= off < 8 -> uart (base s) p = None -> same p (outb (port s off) v p).
Proof.
  intros Ha Ho Hu b Hb. rewrite port_eq by done. destruct (decide (base s = b)) as [<-|Hne]; [by rewrite Hu, none_out|by apply other_out].
Qed.

Lemma port_0 s : base s ∈ SERIAL_ADDR -> base s = port s 0.
Proof. intros Ha. rewrite port_eq by done. lia. Qed.

(** Nothing answers at an empty address. *)
Lemma new_absent a p : a ∈ SERIAL_ADDR -> uart a p = None ->
  exists p', Port.new a p = Done (Err NoLoopback, p') /\ same p p'.
Proof.
  intros Ha Hu. unfold Port.new, test. assert (forall q, same p q -> uart a q = None) as Hn by (intros q Hq; by rewrite Hq).
  assert (forall q q', same p q -> same q q' -> same p q') as Htr by (intros q q' H1 H2 b Hb; by rewrite H2, H1).
  assert (forall s off v q, base s = a -> 0 <= off < 8 -> same p q -> same p (outb (port s off) v q)) as Hw.
  { intros s off v q <- Ho Hq. eapply Htr; [exact Hq|]. apply none_write; auto. }
  assert (forall s off q, base s = a -> 0 <= off < 8 -> same p q -> exists q', inb (port s off) q = (0xff, q') /\ same p q') as Hr.
  { intros s off q <- Ho Hq. destruct (none_read s off q) as (q' & -> & Hq'); eauto. }
  cbn [set_divisor Z.eqb negb assert_that mbind outcome_bind modem_ctl set_char_mode]. rewrite (port_0 (fresh a)) by done.
  match goal with |- context [scratch_missing ?s ?q] => assert (base s = a /\ same p q) as [Hb1 Hq1]; [split; [done|]; repeat (apply Hw; [done|done|]); done|]; set (s1 := s) in *; set (q1 := q) in * end.
  unfold scratch_missing. destruct (Hr s1 SCRATCH_REG (outb (port s1 SCRATCH_REG) 0 q1)) as (q2 & -> & Hq2); [done|done|by apply Hw|].
  cbn [Z.eqb]. set (s2 := set_idle_enable true s1). unfold try_send, can_send.
  destruct (Hr s2 LINE_STS q2) as (q3 & -> & Hq3); [done..|]. assert (forall f, contains 0xff (line_bit f) = true) as Hff by (intros f; rewrite contains_spec; by destruct f). rewrite Hff.
  unfold receive, line_state. rewrite (port_0 s2) by (by rewrite <- Hb1 in Ha).
  destruct (Hr s2 LINE_STS (outb (port s2 0) 1 q3)) as (q4 & -> & Hq4); [done|done|by apply Hw|].
  rewrite Hff. destruct (Hr s2 0 q4) as (q5 & -> & Hq5); [done..|].
  by exists q5.
Qed.

End Detection.

(** ** Transmission *)
Section Transmit.
Context {P : Type} `{UartLaws P} {FO : FlagOps} {FL : FlagLaws}.
Import Port Dispatcher.
Implicit Types (s : Serial) (p : P) (u : Uart) (y : Sys P).

(** What happens to a port while a write is under way. *)
Inductive event := Tick | Arrive (b : Z) | Interrupt | Turn (cx : nat).

Definition step (fuel : nat) (e : event) y : outcome (option (Sys P)) :=
  match e with
  | Tick => Done (Some (set_ports (tick (base (ser y)) (ports y)) y))
  | Arrive b => Done (Some (set_ports (arrive (base (ser y)) b (ports y)) y))
  | Interrupt =>
      x ← int_handler fuel (ser y) (ports y);
      Done (match (x : option (Serial * P)) with None => None | Some (s, p) => Some (mkSys s p (disp y)) end)
  | Turn cx => Done (run_turn cx y)
  end.

Fixpoint steps (fuel : nat) (es : list event) y : outcome (option (Sys P)) :=
  match es with
  | [] => Done (Some y)
  | e :: es =>
      x ← step fuel e y;
      match (x : option (Sys P)) with None => Done None | Some y => steps fuel es y end
  end.

(** [write] with the events [e1] before it has the guard of the buffer and [e2] before interrupts are off. *)
Definition write_among (fuel : nat) (h : OpenMode) (buff : list Z) (e1 e2 : list event) y : outcome (option (result WriteFut IoError * Sys P)) :=
  match write_begin h y with
  | (Err e, y) => Done (Some (Err e, y))
  | (Ok running, y) =>
      x ← steps fuel e1 y;
      match (x : option (Sys P)) with
      | None => Done None
      | Some y =>
          match write_push buff y with
          | None => Done None
          | Some (i, y) =>
              x ← steps fuel e2 y;
              match (x : option (Sys P)) with
              | None => Done None
              | Some y => x ← write_kick running i (length buff) y; let '(f, y) := (x : WriteFut * Sys P) in Done (Some (Ok f, y))
              end
          end
      end
  end.

(** The chip has access to its data registers, is connected to the line and has the interrupt of the
    holding register on; the port has no reader. *)
Record wired s p u : Prop := {
  on_base : base s ∈ SERIAL_ADDR;
  on_uart : uart (base s) p = Some u;
  on_dlab : dlab u = false;
  on_loop : loopback u = false;
  on_ier : Z.testbit (u_ier u) 1 = true;
  on_tgt : rx_tgt s = None;
}.

(** No write has the guard of the buffer. *)
Record online s p u : Prop := {
  on_wired :> wired s p u;
  on_lock : write_locked s = false;
  on_buff : ChonkyBuff.inv (write_buff s);
}.

(** Nothing is being sent. *)
Record idle s u : Prop := {
  idle_run : run s = false;
  idle_hold : u_hold u = None;
  idle_chonk : ChonkyBuff.chonk (write_buff s) = [];
}.

(** The write of [data] as chunk [i] after [l0], by what is left: two for each character that is not
    yet on the line, less one when the chip waits for the next character. *)
Inductive tx (l0 data : list Z) (i : nat) s u : nat -> Prop :=
| tx_hold o b : ChonkyBuff.chonk (write_buff s) = [ChonkyBuff.mkChunk i data] -> ChonkyBuff.chonk_offset (write_buff s) = S o ->
    data !! o = Some b -> u_hold u = Some b -> u_line u = l0 ++ take o data -> u_thri u = false -> run s = true ->
    i ∉ ChonkyBuff.completed (write_buff s) -> tx l0 data i s u (2 * (length data - o))
| tx_wait o : ChonkyBuff.chonk (write_buff s) = [ChonkyBuff.mkChunk i data] -> ChonkyBuff.chonk_offset (write_buff s) = S o ->
    (o < length data)%nat -> u_hold u = None -> u_line u = l0 ++ take (S o) data -> u_thri u = true -> run s = true ->
    i ∉ ChonkyBuff.completed (write_buff s) -> tx l0 data i s u (2 * (length data - o) - 1)
| tx_done : idle s u -> u_thri u = false -> u_line u = l0 ++ data -> i ∈ ChonkyBuff.completed (write_buff s) -> tx l0 data i s u 0.

(** [n] bounds what has arrived and has not been read. *)
Definition sending (l0 data : list Z) (i n r : nat) y : Prop :=
  exists u, online (ser y) (ports y) u /\ tx l0 data i (ser y) u r /\ (length (u_rx u) <= n)%nat /\ alive (disp y) = true.

(** The handler looks at the fields of the port that [online] and [tx] mention. *)
Lemma tx_ext l0 data i s s' u u' r : write_buff s' = write_buff s -> run s' = run s -> u_hold u' = u_hold u -> u_line u' = u_line u -> u_thri u' = u_thri u ->
  tx l0 data i s u r -> tx l0 data i s' u' r.
Proof.
  intros Hb Hr Hh Hl Ht [o b|o|[] Hth]; [eapply tx_hold|eapply tx_wait|eapply tx_done; [split|..]]; rewrite ?Hb, ?Hr, ?Hh, ?Hl, ?Ht; done.
Qed.

Lemma wired_upd s p u p' u' : wired s p u -> upd (base s) u' p p' -> u_lcr u' = u_lcr u -> u_mcr u' = u_mcr u -> u_ier u' = u_ier u -> wired s p' u'.
Proof.
  intros [] [Hu _] Hl Hm Hi. split; try done; unfold dlab, loopback in *; by rewrite ?Hl, ?Hm, ?Hi.
Qed.

Lemma wired_ser s s' p u : wired s p u -> base s' = base s -> rx_tgt s' = rx_tgt s -> wired s' p u.
Proof. intros [] Hb Ht. split; by rewrite ?Hb, ?Ht. Qed.

Lemma online_upd s p u p' u' : online s p u -> upd (base s) u' p p' -> u_lcr u' = u_lcr u -> u_mcr u' = u_mcr u -> u_ier u' = u_ier u -> online s p' u'.
Proof. intros [] Hu Hl Hm Hi. split; [by eapply wired_upd|done..]. Qed.

Lemma online_ser s s' p u : online s p u -> base s' = base s -> write_locked s' = write_locked s -> rx_tgt s' = rx_tgt s -> write_buff s' = write_buff s -> online s' p u.
Proof. intros [] Hb Hl Ht Hw. split; [by eapply wired_ser|by rewrite ?Hl, ?Hw..]. Qed.

(** Received bytes are dropped. *)
Lemma rx_loop_ok fuel s p u : wired s p u -> (length (u_rx u) < fuel)%nat ->
  exists p', rx_loop fuel s p = Done (Some (s, p')) /\ wired s p' (set_u_rx [] u).
Proof.
  revert p u. induction fuel as [|fuel IH]; intros p u Hon Hf; [lia|]. cbn [rx_loop].
  destruct (receive_ok s p u (on_base _ _ _ Hon) (on_uart _ _ _ Hon) (on_dlab _ _ _ Hon)) as (p1 & -> & H1).
  destruct (u_rx u) as [|b rx] eqn:Hrx; cbn [head tail] in *.
  - exists p1. split; [done|]. by eapply wired_upd.
  - rewrite (on_tgt _ _ _ Hon). destruct (IH p1 (set_u_rx rx u)) as (p2 & -> & H2).
    + by eapply wired_upd.
    + cbn in *. lia.
    + exists p2. split; [done|]. done.
Qed.

(** The handler of the empty holding register passes the next byte on, or ends the write. *)
Lemma tx_loop_ok l0 data i r fuel s p u : online s p u -> tx l0 data i s (set_u_thri true u) r -> u_thri u = false -> u_hold u = None -> (2 <= fuel)%nat ->
  exists s' p' u', tx_loop fuel s p = Done (Some (s', p')) /\ base s' = base s /\ online s' p' u' /\ u_thri u' = false /\ u_rx u' = u_rx u /\ u_ier u' = u_ier u /\ tx l0 data i s' u' (r - 1).
Proof.
  intros Hon Htx Hth Hh Hf. destruct fuel as [|[|fuel]]; [lia..|]. cbn [tx_loop].
  destruct (can_send_ok s p u (on_base _ _ _ Hon) (on_uart _ _ _ Hon)) as (p1 & -> & H1). unfold thre. rewrite Hh. rewrite (on_lock _ _ _ Hon).
  assert (online s p1 u) as Hon1 by (by eapply online_upd).
  destruct (ChonkyBuff.pop_inv _ (on_buff _ _ _ Hon)) as (l' & Hpop & Hinv & _).
  destruct Htx as [o b Hc Ho Hb Hh'|o Hc Ho Hlt Hh' Hl _ Hr Hi|]; cbn [set_u_thri u_hold u_line u_thri] in *; [..|done].
  - congruence.
  - unfold ChonkyBuff.pop in Hpop |- *. rewrite Hc in Hpop |- *. cbn [ChonkyBuff.cdata] in Hpop |- *. rewrite Ho in Hpop |- *.
    destruct (data !! S o) as [b|] eqn:Hb; injection Hpop as _ <-; cbn [mbind outcome_bind].
    + match goal with |- context [set_buff ?l s] => set (l1 := l) in * end. set (s1 := set_buff l1 s).
      destruct (try_send_ok b s1 p1 u) as (p2 & -> & H2); [apply Hon1..|]. unfold thre in *. rewrite Hh in *. cbn [result_ok unwrap mbind outcome_bind].
      unfold send in H2. cbn [u_out] in H2. rewrite (on_dlab _ _ _ Hon), (on_loop _ _ _ Hon) in H2.
      assert (online s1 p2 (set_u_thri false (set_u_hold (Some b) u))) as Hon2.
      { split; [|apply Hon1|done]. eapply (wired_ser s); [|done..]. eapply (wired_upd s p1); [apply Hon1|exact H2|done..]. }
      destruct (can_send_ok s1 p2 _ (on_base _ _ _ Hon2) (on_uart _ _ _ Hon2)) as (p3 & -> & H3). cbn [thre u_hold set_u_thri set_u_hold].
      do 3 eexists. split; [done|]. split; [done|]. split; [by eapply online_upd|]. split; [done|]. split; [done|]. split; [done|].
      replace (2 * (length data - o) - 1 - 1)%nat with (2 * (length data - S o))%nat by lia.
      eapply (tx_hold _ _ _ _ _ (S o) b); cbn; done.
    + do 3 eexists. split; [done|]. split; [done|]. apply lookup_ge_None in Hb. split; [|split; [done|split; [done|split; [done|]]]].
      * split; [|apply Hon1|done]. by eapply (wired_ser s); [apply Hon1|..].
      * replace (2 * (length data - o) - 1 - 1)%nat with 0%nat by lia. apply tx_done; cbn; [split; done|done| |set_solver].
        rewrite Hl, firstn_all2; [done|lia].
Qed.

(** The rank of a write after the handler: it is smaller when the chip was waiting. *)
Definition served (l0 data : list Z) (i n r : nat) (a : Z) (x : outcome (option (Serial * P))) : Prop :=
  exists s' p' u' r', x = Done (Some (s', p')) /\ base s' = a /\ online s' p' u' /\ tx l0 data i s' u' r' /\
    (length (u_rx u') <= n)%nat /\ (r' <= r)%nat /\ (Nat.odd r = true -> r' <= r - 1)%nat.

Lemma int_handler_tx l0 data i n r fuel s p u : online s p u -> tx l0 data i s u r -> (length (u_rx u) <= n)%nat -> (2 <= fuel)%nat ->
  Z.testbit (u_ier u) 0 && ready u = false -> served l0 data i n r (base s) (int_handler fuel s p).
Proof.
  intros Hon Htx Hn Hf Hrx. unfold int_handler. destruct (int_id_ok s p u (on_base _ _ _ Hon) (on_uart _ _ _ Hon)) as (p1 & -> & H1).
  assert (iir u = if u_thri u then 2 else 1) as Hi by (unfold iir; by rewrite Hrx, (on_ier _ _ _ Hon)).
  rewrite Hi in *. destruct (u_thri u) eqn:Hth; cbn [Z.eqb] in H1.
  - destruct fuel as [|fuel]; [lia|]. cbn [int_loop]. change (pending 2) with false. change (reason 2) with (Done TransmitterEmpty). cbn [mbind outcome_bind serve].
    set (s1 := set_dirty true s). set (u1 := set_u_thri false u) in *.
    assert (u_hold u = None) as Hh by (destruct Htx as [| |[]]; congruence).
    destruct (tx_loop_ok l0 data i r (S fuel) s1 p1 u1) as (s2 & p2 & u2 & -> & Hb2 & Hon2 & Hth2 & Hrx2 & Hie2 & Htx2); try done.
    { eapply (online_ser s); [|done..]. by eapply online_upd. }
    { eapply tx_ext; [.. |exact Htx]; done. }
    cbn [mbind outcome_bind]. cbv beta iota zeta. set (s3 := wake s2). assert (online s3 p2 u2) as Hon3 by (by eapply (online_ser s2)).
    destruct (int_id_ok s3 p2 u2 (on_base _ _ _ Hon3) (on_uart _ _ _ Hon3)) as (p3 & -> & H3).
    assert (iir u2 = 1) as Hi2. { unfold iir. rewrite Hie2, Hth2, andb_false_r. unfold ready in *. rewrite Hrx2. cbn [u1 set_u_thri u_rx u_ier]. by rewrite Hrx. }
    rewrite Hi2 in *. cbn [Z.eqb] in H3. exists s3, p3, u2, (r - 1)%nat. split; [by destruct fuel|]. split; [done|]. split; [by eapply online_upd|].
    split; [by eapply tx_ext; [.. |exact Htx2]|]. rewrite Hrx2. split; [done|]. split; [lia|done].
  - exists s, p1, u, r. split; [by destruct fuel|]. split; [done|]. split; [by eapply online_upd|]. split; [done|]. split; [done|]. split; [lia|].
    intros Hodd. destruct Htx as [o b|o|]; [|congruence|done]. by rewrite Nat.odd_even in Hodd.
Qed.

Lemma int_handler_ok l0 data i n r fuel s p u : online s p u -> tx l0 data i s u r -> (length (u_rx u) <= n)%nat -> (n + 3 <= fuel)%nat ->
  served l0 data i n r (base s) (int_handler fuel s p).
Proof.
  intros Hon Htx Hn Hf. destruct (Z.testbit (u_ier u) 0 && ready u) eqn:Hrx; [|eapply int_handler_tx; [done..|lia|done]].
  unfold int_handler at 1. destruct (int_id_ok s p u (on_base _ _ _ Hon) (on_uart _ _ _ Hon)) as (p1 & -> & H1).
  unfold iir in *. rewrite Hrx in *. cbn [Z.eqb] in H1.
  destruct fuel as [|fuel]; [lia|]. cbn [int_loop]. change (pending 4) with false. change (reason 4) with (Done DataAvailable). cbn [mbind outcome_bind serve].
  set (s1 := set_dirty true s). destruct (rx_loop_ok (S fuel) s1 p1 u) as (p2 & -> & Hw2).
  { eapply (wired_ser s); [|done..]. by eapply (wired_upd s p); [apply Hon|..]. }
  { lia. }
  assert (online s1 p2 (set_u_rx [] u)) as Hon2 by (by split; [|apply Hon..]).
  cbn [mbind outcome_bind]. cbv beta iota zeta. change (base s) with (base (wake s1)). eapply (int_handler_tx l0 data i n r fuel (wake s1) p2 (set_u_rx [] u)).
  - by eapply (online_ser s1).
  - by eapply tx_ext; [.. |exact Htx].
  - cbn. lia.
  - lia.
  - cbn [set_u_rx u_ier]. apply andb_false_r.
Qed.

Lemma wired_tick s p u : wired s p u -> wired s (tick (base s) p) (u_tick u).
Proof.
  intros []. split; [done|by apply uart_tick| | | |done]; unfold u_tick; by case_match.
Qed.

Lemma wired_arrive s p u b : wired s p u -> wired s (arrive (base s) b p) (u_arrive b u).
Proof. intros []. split; [done|by apply uart_arrive|done..]. Qed.

Lemma tick_ok l0 data i s p u r : online s p u -> tx l0 data i s u r ->
  exists u' r', online s (tick (base s) p) u' /\ tx l0 data i s u' r' /\ u_rx u' = u_rx u /\ (r' <= r)%nat /\ (Nat.even r = true -> r' <= r - 1)%nat.
Proof.
  intros Hon Htx. assert (online s (tick (base s) p) (u_tick u)) as Hon' by (destruct Hon; split; [by apply wired_tick|done..]). unfold u_tick in Hon'.
  destruct Htx as [o b Hc Ho Hb Hh Hl Ht Hr Hi|o Hc Ho Hlt Hh Hl Ht Hr Hi|[Hr Hh Hc] Hth Hl Hi]; rewrite Hh in Hon'.
  - eexists _, (2 * (length data - o) - 1)%nat. split; [exact Hon'|]. split; [|split; [done|lia]].
    apply lookup_lt_Some in Hb as Hlt. eapply tx_wait; try done. cbn [set_u_line u_line]. by rewrite Hl, <- app_assoc, <- take_S_r.
  - exists u, (2 * (length data - o) - 1)%nat. split; [done|]. split; [by eapply tx_wait|]. split; [done|]. split; [lia|].
    intros Hev. exfalso. destruct (length data - o)%nat as [|k] eqn:Hk; [lia|]. replace (2 * S k - 1)%nat with (1 + 2 * k)%nat in Hev by lia.
    by rewrite Nat.even_add_mul_2 in Hev.
  - exists u, 0%nat. split; [done|]. split; [by apply tx_done; [split|..]|]. split; [done|lia].
Qed.

Lemma turn_ok l0 data i n r cx y : sending l0 data i n r y -> exists y', run_turn cx y = Some y' /\ base (ser y') = base (ser y) /\ sending l0 data i n r y'.
Proof.
  intros (u & Hon & Htx & Hn & Hal). unfold run_turn, poll.
  assert (forall d : Inner, alive (wake_stream d) = alive d) as Hw by done.
  assert (forall d : Inner, alive (wake_pend d) = alive d) as Hp by (intros d; unfold wake_pend; by destruct (draining d)).
  destruct (dirty (ser y)); cbn [negb].
  - cbn [set_dispatcher set_dirty write_locked]. rewrite (on_lock _ _ _ Hon). eexists. split; [done|]. split; [done|]. exists u. split; [|split; [|split; [done|]]].
    + split; [by eapply wired_ser; [apply Hon|..]|apply Hon|]. cbn. apply ChonkyBuff.free_inv, Hon.
    + destruct Htx as [o b|o|[] Hth]; [eapply tx_hold|eapply tx_wait|eapply tx_done; [split|..]]; done.
    + cbn [disp set_disp]. repeat case_match; by rewrite ?Hp, ?Hw.
  - eexists. split; [done|]. split; [done|]. exists u. split; [|split; [|done]].
    + by eapply online_ser.
    + by eapply tx_ext; [.. |exact Htx].
Qed.

(** Every event succeeds and brings the write no further away from its end. *)
Lemma step_ok l0 data i n r fuel e y : sending l0 data i n r y -> (n + 3 <= fuel)%nat ->
  exists y' r', step fuel e y = Done (Some y') /\ base (ser y') = base (ser y) /\ sending l0 data i (S n) r' y' /\ (r' <= r)%nat /\
    match e with Tick => Nat.even r = true -> r' <= r - 1 | Interrupt => Nat.odd r = true -> r' <= r - 1 | _ => True end%nat.
Proof.
  intros Hs Hf. destruct e as [|b| |cx]; cbn [step].
  - destruct Hs as (u & Hon & Htx & Hn & Hal). destruct (tick_ok _ _ _ _ _ _ _ Hon Htx) as (u' & r' & H1 & H2 & H3 & H4 & H5).
    eexists _, r'. split; [done|]. split; [done|]. split; [|done]. exists u'. rewrite H3. split; [done|]. split; [done|]. split; [lia|done].
  - destruct Hs as (u & Hon & Htx & Hn & Hal). eexists _, r. split; [done|]. split; [done|]. split; [|done]. exists (u_arrive b u). split; [|split; [|split; [|done]]].
    + split; [by apply wired_arrive, Hon|apply Hon..].
    + by eapply tx_ext; [.. |exact Htx].
    + cbn. rewrite length_app. cbn. lia.
  - destruct Hs as (u & Hon & Htx & Hn & Hal). destruct (int_handler_ok _ _ _ _ _ fuel _ _ _ Hon Htx Hn Hf) as (s' & p' & u' & r' & -> & Hb & H1 & H2 & H3 & H4 & H5).
    eexists _, r'. split; [done|]. split; [done|]. split; [|done]. exists u'. split; [done|]. split; [done|]. split; [lia|done].
  - destruct (turn_ok _ _ _ _ _ cx _ Hs) as (y' & -> & Hb & u & Hon & Htx & Hn & Hal). eexists _, r. split; [done|]. split; [done|]. split; [|done].
    exists u. split; [done|]. split; [done|]. split; [lia|done].
Qed.

Lemma steps_ok l0 data i fuel es : forall n r y, sending l0 data i n r y -> (length es + n + 2 <= fuel)%nat ->
  exists y' r', steps fuel es y = Done (Some y') /\ base (ser y') = base (ser y) /\ sending l0 data i (length es + n) r' y' /\ (r' <= r)%nat.
Proof.
  induction es as [|e es IH]; intros n r y Hs Hf; cbn [steps length]; [by exists y, r|].
  destruct (step_ok _ _ _ _ _ fuel e _ Hs ltac:(cbn in Hf; lia)) as (y1 & r1 & -> & Hb1 & H1 & H2 & _). cbn [mbind outcome_bind].
  destruct (IH (S n) r1 y1 H1 ltac:(cbn in Hf; lia)) as (y' & r' & -> & Hb & H3 & H4). exists y', r'. rewrite Hb. split; [done|]. split; [done|].
  replace (S (length es) + n)%nat with (length es + S n)%nat by lia. split; [done|lia].
Qed.

Lemma port_steps_app fuel es1 es2 y y1 : steps fuel es1 y = Done (Some y1) -> steps fuel (es1 ++ es2) y = steps fuel es2 y1.
Proof.
  revert y. induction es1 as [|e es1 IH]; intros y; cbn [steps app]; [by intros [= ->]|].
  destruct (step fuel e y) as [[y2|]|]; cbn [mbind outcome_bind]; [apply IH|done|done].
Qed.

(** A stretch of events in which a character leaves the chip and an interrupt follows. *)
Definition round (es : list event) : Prop := exists e1 e2 e3, es = e1 ++ Tick :: e2 ++ Interrupt :: e3.

Lemma tx_round_ok l0 data i fuel es n k r y : round es -> sending l0 data i n r y -> (r <= 2 * k)%nat -> (length es + n + 2 <= fuel)%nat ->
  exists y' r', steps fuel es y = Done (Some y') /\ base (ser y') = base (ser y) /\ sending l0 data i (length es + n) r' y' /\ (r' <= 2 * (k - 1))%nat.
Proof.
  intros (e1 & e2 & e3 & ->) Hs Hk Hf. rewrite !length_app in *. cbn [length] in *. rewrite length_app in *. cbn [length] in *.
  destruct (steps_ok _ _ _ fuel e1 _ _ _ Hs ltac:(lia)) as (y1 & r1 & E1 & Hb1 & H1 & L1). rewrite (port_steps_app _ _ _ _ _ E1). cbn [steps].
  destruct (step_ok _ _ _ _ _ fuel Tick _ H1 ltac:(lia)) as (y2 & r2 & -> & Hb2 & H2 & L2 & L2'). cbn [mbind outcome_bind].
  assert (r2 <= 2 * k - 1)%nat as Hr2.
  { destruct (decide (r1 = 2 * k)%nat) as [->|]; [|lia]. apply L2'. by rewrite Nat.even_even. }
  destruct (steps_ok _ _ _ fuel e2 _ _ _ H2 ltac:(lia)) as (y3 & r3 & E3 & Hb3 & H3 & L3). rewrite (port_steps_app _ _ _ _ _ E3). cbn [steps].
  destruct (step_ok _ _ _ _ _ fuel Interrupt _ H3 ltac:(lia)) as (y4 & r4 & -> & Hb4 & H4 & L4 & L4'). cbn [mbind outcome_bind].
  assert (r4 <= 2 * (k - 1))%nat as Hr4.
  { destruct k as [|k]; [lia|]. destruct (decide (r3 = 2 * k + 1)%nat) as [->|]; [|lia]. specialize (L4' (Nat.odd_odd k)). lia. }
  destruct (steps_ok _ _ _ fuel e3 _ _ _ H4 ltac:(lia)) as (y5 & r5 & -> & Hb5 & H5 & L5). exists y5, r5. split; [done|]. split; [congruence|].
  split; [|lia]. replace (length e1 + S (length e2 + S (length e3)) + n)%nat with (length e3 + S (length e2 + S (length e1 + n)))%nat by lia. done.
Qed.

Lemma rounds_ok l0 data i fuel blocks : Forall round blocks -> forall n k r y, sending l0 data i n r y -> (r <= 2 * k)%nat -> (length (concat blocks) + n + 2 <= fuel)%nat ->
  exists y' r', steps fuel (concat blocks) y = Done (Some y') /\ base (ser y') = base (ser y) /\ sending l0 data i (length (concat blocks) + n) r' y' /\ (r' <= 2 * (k - length blocks))%nat.
Proof.
  induction 1 as [|es blocks Hes _ IH]; intros n k r y Hs Hk Hf; cbn [concat length steps].
  { exists y, r. split; [done|]. split; [done|]. split; [done|lia]. }
  cbn [concat] in Hf. rewrite length_app in *. destruct (tx_round_ok _ _ _ fuel es _ _ _ _ Hes Hs Hk ltac:(lia)) as (y1 & r1 & E1 & Hb1 & H1 & L1). rewrite (port_steps_app _ _ _ _ _ E1).
  destruct (IH _ _ _ _ H1 L1 ltac:(lia)) as (y2 & r2 & -> & Hb2 & H2 & L2). exists y2, r2. split; [done|]. split; [congruence|]. split; [|lia].
  replace (length es + length (concat blocks) + n)%nat with (length (concat blocks) + (length es + n))%nat by lia. done.
Qed.

(** A write has marked the port as running and the chip has nothing to send; [b] tells whether it has the guard of the buffer. *)
Record paused (b : bool) (n : nat) y u : Prop := {
  pa_wired : wired (ser y) (ports y) u;
  pa_lock : write_locked (ser y) = b;
  pa_buff : ChonkyBuff.inv (write_buff (ser y));
  pa_run : run (ser y) = true;
  pa_hold : u_hold u = None;
  pa_thri : u_thri u = false;
  pa_rx : (length (u_rx u) <= n)%nat;
  pa_alive : alive (disp y) = true;
}.

(** The same bytes are waiting. *)
Definition same_queue (l l' : ChonkyBuff.ChonkyBuff Z) : Prop :=
  ChonkyBuff.chonk l' = ChonkyBuff.chonk l /\ ChonkyBuff.chonk_offset l' = ChonkyBuff.chonk_offset l /\ ChonkyBuff.completed l' = ChonkyBuff.completed l.

(** The handler does not come to the buffer. *)
Lemma int_handler_paused b n fuel y u : paused b n y u -> (n + 3 <= fuel)%nat ->
  exists s' p' u', int_handler fuel (ser y) (ports y) = Done (Some (s', p')) /\ paused b n (mkSys s' p' (disp y)) u' /\ base s' = base (ser y) /\ u_line u' = u_line u /\ write_buff s' = write_buff (ser y).
Proof.
  intros [Hw Hl Hb Hr Hh Ht Hrx Ha] Hf. unfold int_handler. destruct (int_id_ok _ _ u (on_base _ _ _ Hw) (on_uart _ _ _ Hw)) as (p1 & -> & H1).
  assert (forall v, u_thri v = false -> iir v = if Z.testbit (u_ier v) 0 && ready v then 4 else 1) as Hi.
  { intros v Hv. unfold iir. by rewrite Hv, andb_false_r. }
  rewrite (Hi u Ht) in *. destruct (Z.testbit (u_ier u) 0 && ready u); cbn [Z.eqb] in H1; (assert (wired (ser y) p1 u) as Hw1 by (by eapply wired_upd)).
  - destruct fuel as [|fuel]; [lia|]. cbn [int_loop]. change (pending 4) with false. change (reason 4) with (Done DataAvailable). cbn [mbind outcome_bind serve].
    set (s1 := set_dirty true (ser y)). destruct (rx_loop_ok (S fuel) s1 p1 u) as (p2 & -> & Hw2); [by eapply (wired_ser (ser y))|lia|].
    cbn [mbind outcome_bind]. cbv beta iota zeta. assert (wired (wake s1) p2 (set_u_rx [] u)) as Hw3 by (by eapply (wired_ser s1)).
    destruct (int_id_ok (wake s1) p2 _ (on_base _ _ _ Hw3) (on_uart _ _ _ Hw3)) as (p3 & -> & H3). rewrite (Hi (set_u_rx [] u) Ht) in *.
    cbn [set_u_rx u_ier] in *. rewrite andb_false_r in *. cbn [Z.eqb] in H3. exists (wake s1), p3, (set_u_rx [] u). split; [by destruct fuel|]. split; [|done].
    split; try done; [by eapply wired_upd|cbn; lia].
  - exists (ser y), p1, u. split; [by destruct fuel|]. split; [|done]. by split.
Qed.

(** While the write has the guard, the task of the port waits for it. *)
Definition no_turn (e : event) : Prop := match e with Turn _ => False | _ => True end.

Lemma paused_step b n fuel e y u : paused b n y u -> (n + 3 <= fuel)%nat -> (b = true -> no_turn e) ->
  exists y' u', step fuel e y = Done (Some y') /\ paused b (S n) y' u' /\ base (ser y') = base (ser y) /\ u_line u' = u_line u /\ same_queue (write_buff (ser y)) (write_buff (ser y')).
Proof.
  intros Hp Hf He. destruct e as [|c| |cx]; cbn [step].
  - destruct Hp as [Hw Hl Hb Hr Hh Ht Hrx Ha]. eexists _, u. split; [done|]. split; [|done]. apply wired_tick in Hw. unfold u_tick in Hw. rewrite Hh in Hw. split; try done. lia.
  - destruct Hp as [Hw Hl Hb Hr Hh Ht Hrx Ha]. eexists _, (u_arrive c u). split; [done|]. split; [|done]. split; try done; [by apply wired_arrive|cbn; rewrite length_app; cbn; lia].
  - destruct (int_handler_paused b n fuel y u Hp Hf) as (s' & p' & u' & -> & H1 & H2 & H3 & H4). eexists _, u'. split; [done|]. split; [|split; [done|split; [done|by cbn; rewrite H4]]].
    destruct H1. split; try done. lia.
  - destruct Hp as [Hw Hl Hb Hr Hh Ht Hrx Ha]. destruct b; [by destruct He|]. unfold run_turn, poll.
    assert (forall d : Inner, alive (wake_pend d) = alive d) as Hpe by (intros d; unfold wake_pend; by destruct (draining d)).
    destruct (dirty (ser y)); cbn [negb set_dispatcher set_dirty write_locked]; rewrite ?Hl; eexists _, u; (split; [done|]); (split; [|done]).
    + split; try done; [by eapply wired_ser|by apply ChonkyBuff.free_inv|lia|]. cbn [disp set_disp]. repeat case_match; rewrite ?Hpe; done.
    + split; try done; [by eapply wired_ser|lia].
Qed.

Lemma paused_steps b fuel es : forall n y u, paused b n y u -> (length es + n + 2 <= fuel)%nat -> (b = true -> Forall no_turn es) ->
  exists y' u', steps fuel es y = Done (Some y') /\ paused b (length es + n) y' u' /\ base (ser y') = base (ser y) /\ u_line u' = u_line u /\ same_queue (write_buff (ser y)) (write_buff (ser y')).
Proof.
  induction es as [|e es IH]; intros n y u Hp Hf He; cbn [steps length]; [by exists y, u|]. cbn in Hf.
  destruct (paused_step b n fuel e y u Hp ltac:(lia)) as (y1 & u1 & -> & H1 & H2 & H3 & Q1 & Q2 & Q3); [intros Hb; by destruct (Forall_cons_1 _ _ _ (He Hb))|]. cbn [mbind outcome_bind].
  destruct (IH (S n) y1 u1 H1 ltac:(lia)) as (y' & u' & -> & H4 & H5 & H6 & Q4 & Q5 & Q6); [intros Hb; by destruct (Forall_cons_1 _ _ _ (He Hb))|].
  exists y', u'. split; [done|]. replace (S (length es) + n)%nat with (length es + S n)%nat by lia. split; [done|]. unfold same_queue. split_and!; congruence.
Qed.

(** The first byte goes to the chip. *)
Lemma write_kick_ok data i n y u : paused true n y u -> data <> [] ->
  ChonkyBuff.chonk (write_buff (ser y)) = [ChonkyBuff.mkChunk i data] -> ChonkyBuff.chonk_offset (write_buff (ser y)) = 0%nat -> i ∉ ChonkyBuff.completed (write_buff (ser y)) ->
  exists y1, write_kick false i (length data) y = Done (mkWriteFut i (length data) false, y1) /\ base (ser y1) = base (ser y) /\ sending (u_line u) data i n (2 * length data) y1.
Proof.
  intros [Hw Hlk Hinv Hr Hho Hth Hrx Hal] Hne Hc Ho Hi. unfold write_kick. cbn [negb]. destruct data as [|b data]; [done|].
  destruct (ChonkyBuff.pop_inv _ Hinv) as (l' & Hpop & Hinv' & _). unfold ChonkyBuff.pop in Hpop |- *. rewrite Hc, Ho in *. cbn [ChonkyBuff.cdata lookup list_lookup] in *.
  injection Hpop as _ <-. cbn [mbind outcome_bind]. destruct (try_send_ok b (ser y) (ports y) u (on_base _ _ _ Hw) (on_uart _ _ _ Hw)) as (p1 & -> & H1).
  unfold thre in *. rewrite Hho in *. cbn [result_ok unwrap mbind outcome_bind]. unfold send in H1. cbn [u_out] in H1. rewrite (on_dlab _ _ _ Hw), (on_loop _ _ _ Hw) in H1.
  eexists. split; [reflexivity|]. split; [done|]. exists (set_u_thri false (set_u_hold (Some b) u)). split; [|split; [|by split]].
  - split; [|done..]. eapply (wired_ser (ser y)); [|done..]. by eapply wired_upd.
  - replace (2 * length (b :: data))%nat with (2 * (length (b :: data) - 0))%nat by lia. eapply (tx_hold _ _ _ _ _ 0 b); cbn; try done. by rewrite app_nil_r.
Qed.

(** The start of a write. *)
Lemma write_among_ok fuel h data e1 e2 y u : is_write h = true -> online (ser y) (ports y) u -> idle (ser y) u -> u_thri u = false -> alive (disp y) = true -> data <> [] ->
  Forall no_turn e2 -> (length e1 + length e2 + length (u_rx u) + 2 <= fuel)%nat ->
  exists f y1, write_among fuel h data e1 e2 y = Done (Some (Ok f, y1)) /\ base (ser y1) = base (ser y) /\ wf_len f = length data /\ wf_guard f = false /\
    sending (u_line u) data (wf_id f) (length e1 + length e2 + length (u_rx u)) (2 * length data) y1.
Proof.
  intros Hh Hon [Hr Hho Hc] Hth Hal Hne He2 Hf. unfold write_among, write_begin. rewrite Hh, Hal, Hr. cbn [negb].
  destruct (paused_steps false fuel e1 (length (u_rx u)) (set_ser (set_run true (ser y)) y) u) as (y1 & u1 & -> & [Hw Hlk Hinv Hr1 Hho1 Hth1 Hrx1 Hal1] & Hb1 & Hl1 & Q1 & Q2 & Q3).
  { destruct Hon. split; try done. by eapply wired_ser. }
  { lia. }
  { done. }
  cbn [mbind outcome_bind]. unfold write_push. rewrite Hlk. pose proof (ChonkyBuff.push_inv data _ Hinv) as [Hpi _]. cbn [ser set_ser set_run write_buff] in Q1, Q2, Q3. rewrite Hc in Q1.
  assert (ChonkyBuff.chonk_offset (write_buff (ser y1)) = 0%nat) as Ho. { pose proof (ChonkyBuff.inv_offset _ Hinv) as Ho. by rewrite Q1 in Ho. }
  pose proof (ChonkyBuff.inv_done _ Hinv) as Hd. destruct (ChonkyBuff.push data (write_buff (ser y1))) as [i l] eqn:Hp. cbn [snd] in Hpi.
  assert (ChonkyBuff.chonk l = [ChonkyBuff.mkChunk i data] /\ ChonkyBuff.chonk_offset l = 0%nat /\ i ∉ ChonkyBuff.completed l) as (P1 & P2 & P3).
  { unfold ChonkyBuff.push in Hp. destruct data; [done|]. injection Hp as <- <-. cbn. rewrite Q1, Ho. split; [done|]. split; [done|].
    intros Hin. rewrite Forall_forall in Hd. apply Hd in Hin. lia. }
  destruct (paused_steps true fuel e2 (length e1 + length (u_rx u)) (set_ser (set_locked true (set_buff l (ser y1))) y1) u1) as (y2 & u2 & -> & Hpa & Hb2 & Hl2 & Q4 & Q5 & Q6).
  { split; try done. by eapply wired_ser. }
  { lia. }
  { done. }
  cbn [mbind outcome_bind ser set_ser set_locked set_buff write_buff base] in *.
  destruct (write_kick_ok data i _ y2 u2 Hpa Hne) as (y3 & -> & Hb3 & Hs); [by rewrite ?Q4, ?Q5, ?Q6..|]. eexists (mkWriteFut _ _ _), y3. split; [done|]. split; [rewrite Hb3, Hb2; exact Hb1|]. split; [done|]. split; [done|].
  rewrite Hl2, Hl1 in Hs. cbn [wf_id]. by replace (length e1 + length e2 + length (u_rx u))%nat with (length e2 + (length e1 + length (u_rx u)))%nat by lia.
Qed.

Lemma sending_poll l0 data f n r y : sending l0 data (wf_id f) n r y -> wf_guard f = false -> wf_len f = length data ->
  exists u, uart (base (ser y)) (ports y) = Some u /\ u_line u `prefix_of` l0 ++ data /\
    write_poll f y = (if bool_decide (r = 0%nat) then Some (length data) else None, y) /\
    (r = 0%nat -> u_line u = l0 ++ data /\ online (ser y) (ports y) u /\ idle (ser y) u /\ u_thri u = false).
Proof.
  intros (u & Hon & Htx & Hn & Hal) Hg Hl. exists u. split; [apply Hon|]. unfold write_poll, ChonkyBuff.poll_push. rewrite Hg, Hl.
  destruct Htx as [o b Hc Ho Hb Hh Hli Ht Hr Hi|o Hc Ho Hlt Hh Hli Ht Hr Hi|Hid Hth Hli Hi].
  - apply lookup_lt_Some in Hb. rewrite Hli, (bool_decide_eq_false_2 (wf_id f ∈ _)), bool_decide_eq_false_2 by (done || lia).
    split; [apply prefix_app, prefix_take|]. split; [done|lia].
  - rewrite Hli, (bool_decide_eq_false_2 (wf_id f ∈ _)), bool_decide_eq_false_2 by (done || lia). split; [apply prefix_app, prefix_take|]. split; [done|lia].
  - rewrite Hli, !bool_decide_eq_true_2 by done. done.
Qed.

(** C13. A write of at least one byte to an idle port sends its bytes, in order and once.  The port has no reader, its chip has interrupts on and no interrupt of the empty
    holding register is pending.  The write takes its steps, the exchange of the running mark, the lock of the buffer with interrupts on and the first
    byte with interrupts off, among the other events: characters leave the chip, others arrive, interrupts are handled and the task of the port runs (not while the write has the lock), in any order.
    No step panics or blocks, what is on the line is a prefix of what was there followed by the data, and a write that is over has its length as the
    result and all of its bytes on the line.  After as many stretches with a sent character and an interrupt as there are bytes it is over, and the port is idle again. *)
Theorem serial_write_sends h data y u fuel e1 e2 :
  is_write h = true -> online (ser y) (ports y) u -> idle (ser y) u -> u_thri u = false -> alive (disp y) = true -> data <> [] -> Forall no_turn e2 ->
  let n := (length e1 + length e2 + length (u_rx u))%nat in (n + 2 <= fuel)%nat ->
  exists f y1, write_among fuel h data e1 e2 y = Done (Some (Ok f, y1)) /\
    (forall es, (length es + n + 2 <= fuel)%nat ->
       exists y2 u2, steps fuel es y1 = Done (Some y2) /\ uart (base (ser y)) (ports y2) = Some u2 /\ u_line u2 `prefix_of` u_line u ++ data /\
         (write_poll f y2 = (None, y2) \/ write_poll f y2 = (Some (length data), y2) /\ u_line u2 = u_line u ++ data)) /\
    (forall blocks, Forall round blocks -> (length data <= length blocks)%nat -> (length (concat blocks) + n + 2 <= fuel)%nat ->
       exists y2 u2, steps fuel (concat blocks) y1 = Done (Some y2) /\ write_poll f y2 = (Some (length data), y2) /\
         u_line u2 = u_line u ++ data /\ online (ser y2) (ports y2) u2 /\ idle (ser y2) u2 /\ u_thri u2 = false).
Proof.
  intros Hh Hon Hid Hth Hal Hne He2 n Hf. destruct (write_among_ok fuel h data e1 e2 y u Hh Hon Hid Hth Hal Hne He2 Hf) as (f & y1 & E1 & Hb1 & Hl & Hg & Hs). exists f, y1. split; [done|]. split.
  - intros es Hes. destruct (steps_ok _ _ _ fuel es _ _ _ Hs Hes) as (y2 & r & E2 & Hb2 & H2 & _).
    destruct (sending_poll _ _ f _ _ _ H2 Hg Hl) as (u2 & Hu2 & Hp & Hw & Hz). exists y2, u2. rewrite Hb2, Hb1 in Hu2. split; [done|]. split; [done|]. split; [done|].
    rewrite Hw. destruct (decide (r = 0%nat)) as [->|Hr]; [right; by split; [|apply Hz]|left; by rewrite bool_decide_eq_false_2].
  - intros blocks Hbl Hlen Hfb. destruct (rounds_ok _ _ _ fuel blocks Hbl _ (length data) _ _ Hs ltac:(lia) Hfb) as (y2 & r & E2 & Hb2 & H2 & Hr).
    assert (r = 0%nat) as -> by lia. destruct (sending_poll _ _ f _ _ _ H2 Hg Hl) as (u2 & Hu2 & Hp & Hw & Hz). destruct (Hz eq_refl) as (H3 & H4 & H5 & H6).
    exists y2, u2. done.
Qed.

(** A write that is interrupted while it has the guard: when the interrupt of the empty holding register is pending, its handler waits for the guard on the same CPU. *)
Theorem guard_interrupted_blocks fuel h data y u :
  is_write h = true -> wired (ser y) (ports y) u -> write_locked (ser y) = false -> alive (disp y) = true -> iir u = 2 -> u_hold u = None ->
  write_among fuel h data [] [Interrupt] y = Done None.
Proof.
  intros Hh Hw Hlk Hal Hi Hho. unfold write_among, write_begin. rewrite Hh, Hal. cbn [negb steps mbind outcome_bind]. unfold write_push. cbn [ser set_ser set_run write_locked]. rewrite Hlk.
  destruct (ChonkyBuff.push data _) as [i l]. cbn [steps step ser ports set_ser]. set (s1 := set_locked _ _). unfold int_handler.
  destruct (int_id_ok s1 (ports y) u (on_base _ _ _ Hw) (on_uart _ _ _ Hw)) as (p1 & E & H1). cbn [ser set_ser ports]. rewrite E, Hi in *.
  destruct fuel as [|fuel]; [done|]. cbn [int_loop]. change (pending 2) with false. change (reason 2) with (Done TransmitterEmpty). cbn [mbind outcome_bind serve tx_loop].
  destruct (can_send_ok (set_dirty true s1) p1 _ (on_base _ _ _ Hw) (proj1 H1)) as (p2 & -> & H2). unfold thre. change (2 =? 2) with true. cbn [set_u_thri u_hold]. by rewrite Hho.
Qed.

(** A write that finds the transmission under way keeps the guard of the buffer while it waits, and
    the next interrupt of the empty holding register waits for the guard on the same CPU. *)
Theorem second_write_blocks h data y fuel u :
  is_write h = true -> alive (disp y) = true -> run (ser y) = true -> write_locked (ser y) = false ->
  base (ser y) ∈ SERIAL_ADDR -> uart (base (ser y)) (ports y) = Some u -> iir u = 2 -> u_hold u = None ->
  exists f y1, write_start h data y = Done (Some (Ok f, y1)) /\ wf_guard f = true /\ int_handler fuel (ser y1) (ports y1) = Done None.
Proof.
  intros Hh Hal Hr Hlk Ha Hu Hi Hho. unfold write_start, write_begin, write_push. rewrite Hh, Hal, Hr. cbn [negb ser set_ser set_run write_locked write_buff]. rewrite Hlk.
  destruct (ChonkyBuff.push data _) as [i l] eqn:Hp. cbn [write_kick negb mbind outcome_bind]. eexists (mkWriteFut _ _ _), _. split; [done|]. split; [done|]. cbn [ser ports set_ser].
  set (s1 := set_locked _ _). unfold int_handler. destruct (int_id_ok s1 (ports y) u Ha Hu) as (p1 & -> & H1). rewrite Hi in *.
  destruct fuel as [|fuel]; [done|]. cbn [int_loop]. change (pending 2) with false. change (reason 2) with (Done TransmitterEmpty). cbn [mbind outcome_bind serve tx_loop].
  destruct (can_send_ok (set_dirty true s1) p1 _ Ha (proj1 H1)) as (p2 & -> & H2). unfold thre. change (2 =? 2) with true. cbn [set_u_thri u_hold]. by rewrite Hho.
Qed.

(** An empty write to an idle port marks the transmission as running although nothing is sent: the
    chip raises no interrupt for it, and the next write sends nothing and keeps the guard. *)
Theorem empty_write_wedges h data y u :
  is_write h = true -> online (ser y) (ports y) u -> idle (ser y) u -> alive (disp y) = true ->
  exists f1 f2 y1 y2, write_start h [] y = Done (Some (Ok f1, y1)) /\ write_poll f1 y1 = (Some 0%nat, y1) /\ ports y1 = ports y /\
    write_start h data y1 = Done (Some (Ok f2, y2)) /\ ports y2 = ports y /\ wf_guard f2 = true.
Proof.
  intros Hh Hon [Hr Hho Hc] Hal. unfold write_start at 1, write_begin, write_push. rewrite Hh, Hal, Hr. cbn [negb ser set_ser set_run write_locked write_buff]. rewrite (on_lock _ _ _ Hon).
  unfold ChonkyBuff.push at 1. unfold write_kick at 1, ChonkyBuff.pop. cbn [negb ser set_ser set_locked set_buff write_buff ChonkyBuff.free ChonkyBuff.chonk ChonkyBuff.next_id]. rewrite Hc. cbn [mbind outcome_bind].
  eexists (mkWriteFut _ _ _), (mkWriteFut _ _ _), _, _. split; [done|]. split; [unfold write_poll, ChonkyBuff.poll_push; cbn; rewrite bool_decide_eq_true_2 by set_solver; done|]. split; [done|].
  unfold write_start, write_begin, write_push. rewrite Hh. cbn [disp ser set_ser set_buff set_locked set_run run write_locked write_buff]. rewrite Hal. cbn [negb ser set_ser set_run write_locked write_buff].
  rewrite (surjective_pairing (ChonkyBuff.push data _)). split; [done|]. done.
Qed.

End Transmit.

(** ** Line formats *)
Section Frames.
Context {P : Type} `{UartLaws P} {FO : FlagOps} {FL : FlagLaws}.
Import Port FrameCtl.
Implicit Types (s : Serial) (p : P) (u : Uart).

(** C35. For the rates from 2 to 115200 the divisor is the quotient of the clock and the rate, rounded to the nearest whole number with
    halves upwards: the sixteen fractional bits decide exactly; it is not 0 and fits its sixteen bits.  The rate 1, which the documentation of the
    frame control file has among the accepted ones, is refused: its divisor 115200 does not fit. *)
Theorem divisor_of_nearest b : 1 <= b <= 115200 ->
  divisor_of b = Done (if b =? 1 then None else Some ((2 * 115200 + b) / (2 * b))) /\
  (1 < b -> 1 <= (2 * 115200 + b) / (2 * b) < 2 ^ 16).
Proof.
  intros Hb. unfold divisor_of. rewrite (proj2 (Z.eqb_neq b 0)) by lia. cbn [negb assert_that mbind outcome_bind].
  change (Z.shiftl 115200 16) with (115200 * 65536). change ((2 ^ 16 - 1) / 2) with 32767. rewrite land_mask by lia. rewrite Z.shiftr_div_pow2 by lia.
  change (2 ^ 16) with 65536. set (h := 115200 * 65536 / b).
  assert (h = (115200 * 65536) / b) as Hh by done. pose proof (Z.div_mod (115200 * 65536) b ltac:(lia)) as Hd. pose proof (Z.mod_pos_bound (115200 * 65536) b ltac:(lia)) as Hm.
  rewrite <- Hh in Hd. set (r := (115200 * 65536) mod b) in *. clearbody h r.
  pose proof (Z.div_mod h 65536 ltac:(lia)) as Hq. pose proof (Z.mod_pos_bound h 65536 ltac:(lia)) as Hf. set (q := h / 65536) in *. set (f := h mod 65536) in *. clearbody q f.
  assert ((2 * 115200 + b) / (2 * b) = if 32767 <? f then q + 1 else q) as Hdiv.
  { symmetry. destruct (Z.ltb_spec 32767 f); [apply (Z.div_unique_pos _ _ _ (2 * 115200 + b - 2 * b * (q + 1)))|apply (Z.div_unique_pos _ _ _ (2 * 115200 + b - 2 * b * q))]; nia. }
  rewrite Hdiv. assert (1 < b -> 1 <= (if 32767 <? f then q + 1 else q) < 65536) as Hrange.
  { intros Hb1. rewrite <- Hdiv. split; [apply Z.div_le_lower_bound; lia|apply Z.div_lt_upper_bound; lia]. }
  split; [|done]. f_equal. destruct (Z.eqb_spec b 1) as [->|].
  - rewrite (proj2 (Z.ltb_ge _ 65536)); [done|]. rewrite <- Hdiv. done.
  - rewrite (proj2 (Z.ltb_lt _ 65536)); [done|]. lia.
Qed.

(** The documentation has rates from 1 on, and a rate of zero divides by zero. *)
Theorem lowest_rates : divisor_of 1 = Done None /\ divisor_of 0 = Panic.
Proof. done. Qed.

(** *** The text of a rate *)

Definition is_digit (c : Z) : bool := (48 <=? c) && (c <? 58).

Definition rate_text_ok (d : Z) : bool :=
  match f32_round (f32_div (f32_of_Z 115200) (f32_of_Z d)) with
  | None => false
  | Some b =>
      forallb is_digit (decimal 20 b) && Nat.leb (length (decimal 20 b)) 6 && bool_decide (PciCfg.parse (2 ^ 32) (decimal 20 b) = Some b) && (b <=? 115200) &&
      match divisor_of b with Done (Some d') => d' =? d | _ => false end
  end.

Lemma rate_text d : 1 <= d <= 354 ->
  exists b, f32_round (f32_div (f32_of_Z 115200) (f32_of_Z d)) = Some b /\ forallb is_digit (decimal 20 b) = true /\ (length (decimal 20 b) <= 6)%nat /\
    PciCfg.parse (2 ^ 32) (decimal 20 b) = Some b /\ b <= 115200 /\ divisor_of b = Done (Some d).
Proof.
  intros Hd. assert (forallb rate_text_ok (seqZ 1 354) = true) as Hall by (vm_compute; reflexivity).
  rewrite forallb_forall in Hall. specialize (Hall d). rewrite <- list_elem_of_In, elem_of_seqZ in Hall. specialize (Hall ltac:(lia)).
  unfold rate_text_ok in Hall. destruct (f32_round _) as [b|]; [|done]. exists b. split; [done|].
  apply andb_prop in Hall as [[[[H1 H2]%andb_prop H3]%andb_prop H4]%andb_prop H5]. split; [done|]. split; [by apply Nat.leb_le|]. split; [by apply bool_decide_eq_true in H3|].
  split; [by apply Z.leb_le|]. destruct (divisor_of b) as [[d'|]|]; [|done..]. apply Z.eqb_eq in H5. by subst.
Qed.

Lemma utf8_ascii l k : forallb (fun c => c <? 128) l = true -> utf8_ok (l ++ k) = utf8_ok k.
Proof. induction l as [|c l IH]; [done|]. cbn [forallb app utf8_ok]. intros [Hc Hl]%andb_prop. rewrite Hc. by apply IH. Qed.

Lemma find_app c l k : forallb (fun x => negb (x =? c)) l = true -> FrameCtl.find c (l ++ k) = (fun j => length l + j)%nat <$> FrameCtl.find c k.
Proof.
  induction l as [|x l IH]; [cbn; by destruct (FrameCtl.find c k)|]. cbn [forallb app FrameCtl.find length]. intros [Hx Hl]%andb_prop.
  apply negb_true_iff in Hx. rewrite Hx, IH by done. by destruct (FrameCtl.find c k).
Qed.

Lemma forallb_impl {A} (f g : A -> bool) l : (forall x, f x = true -> g x = true) -> forallb f l = true -> forallb g l = true.
Proof. intros Hfg. induction l as [|x l IH]; [done|]. cbn. intros [Hx Hl]%andb_prop. by rewrite Hfg, IH. Qed.

Lemma digit_bounds c : is_digit c = true -> 48 <= c < 58.
Proof. unfold is_digit. lia. Qed.

(** The three characters of the frame format. *)
Definition frame_text (b : DataBits) (q : Parity) (t : StopBits) : list Z := [48 + data_bits_number b; parity_char q; 49 + stop_u8 t].

Lemma parse_frame_text b q t : parse_frame (DASH :: frame_text b q t) = Some (b, q, t) /\ utf8_ok (DASH :: frame_text b q t) = true /\ forallb (fun x => negb (x =? 0)) (DASH :: frame_text b q t) = true.
Proof. by destruct b, q, t. Qed.

Lemma mode_text_concat s b : f32_round (f32_div (f32_of_Z 115200) (f32_of_Z (divisor s))) = Some b ->
  exists pieces, mode_text s = Done pieces /\ length pieces = 5%nat /\ concat pieces = decimal 20 b ++ DASH :: frame_text (bits s) (parity s) (stop s).
Proof. intros Hb. unfold mode_text. rewrite Hb. eexists. split; [done|]. split; [done|]. by destruct (bits s), (parity s), (stop s). Qed.

Lemma parse_mode_text ds r d b q t : forallb is_digit ds = true -> PciCfg.parse (2 ^ 32) ds = Some r -> r <= 115200 -> divisor_of r = Done (Some d) ->
  parse_mode (ds ++ DASH :: frame_text b q t) = Done (Some (d, (b, q, t))).
Proof.
  intros Hds Hp Hr Hd. destruct (parse_frame_text b q t) as (Hf & Hu & _). unfold parse_mode.
  rewrite utf8_ascii by (eapply forallb_impl; [|exact Hds]; intros c Hc%digit_bounds; lia). rewrite Hu. cbn [negb].
  rewrite find_app by (eapply forallb_impl; [|exact Hds]; intros c Hc%digit_bounds; unfold DASH; lia). cbn [FrameCtl.find]. change (DASH =? DASH) with true.
  cbn [fmap option_fmap option_map]. rewrite Nat.add_0_r. unfold split_at. rewrite take_app_length, drop_app_length, Hp.
  rewrite (proj2 (Z.ltb_ge 115200 r)) by lia. by rewrite Hd; cbn [mbind outcome_bind]; rewrite Hf.
Qed.

(** The frame control file round-trips: for every divisor up to 354 and every frame format,
    reading the file into a buffer of at least ten bytes gives a text of at most ten bytes, and
    writing this text to the file of any port sets its divisor and its format, in the driver and in
    the chip. *)
Theorem frame_ctl_roundtrip s s2 p2 u2 buff :
  1 <= divisor s <= 354 -> (10 <= length buff)%nat -> base s2 ∈ SERIAL_ADDR -> uart (base s2) p2 = Some u2 ->
  exists buff' n p', FrameCtl.read true buff s = Done (Ok (buff', n)) /\ (n <= 10)%nat /\ length buff' = length buff /\
    FrameCtl.write true (take n buff') s2 p2 =
      Done (Ok (take n buff', n), set_frame (bits s) (parity s) (stop s) (set_divisor_field (divisor s) (set_frame (bits s) (parity s) (stop s) s2)), p') /\
    uart (base s2) p' = Some (set_u_lcr (frame_lcr (bits s) (parity s) (stop s)) (set_u_dlm (divisor s / 256) (set_u_dll (divisor s mod 256) u2))).
Proof.
  intros Hd Hl Ha Hu. destruct (rate_text _ Hd) as (b & Hb & Hdig & Hlen & Hpar & Hle & Hdiv).
  destruct (mode_text_concat s b Hb) as (pieces & Hm & Hpl & Hpc). set (text := decimal 20 b ++ DASH :: frame_text (bits s) (parity s) (stop s)) in *.
  assert (length text <= 10)%nat as Htl. { subst text. rewrite length_app. cbn [length frame_text]. lia. }
  unfold FrameCtl.read. cbn [negb]. rewrite Hm. cbn [mbind outcome_bind]. rewrite Nat.min_r by lia. rewrite write_strs_truncate, Hpl, Hpc.
  cbn [existsb replicate is_ok negb orb]. unfold filled. cbn [ByteSink.arr]. set (a := [_;_;_;_;_;_;_;_;_;_] ++ drop 10 buff).
  assert (length a = length buff) as Hal. { subst a. rewrite length_app, length_drop. cbn [length]. lia. }
  rewrite Hal, Nat.min_r by lia. rewrite firstn_all. assert (length (text ++ drop (length text) a) = length buff) as Hbl by (rewrite length_app, length_drop; lia).
  rewrite Hbl. rewrite (proj2 (Nat.leb_le 10 (length buff))) by lia. cbn [assert_that mbind outcome_bind].
  assert (default 10%nat (position_zero (take 10 (text ++ drop (length text) a))) = length text) as Hpos.
  { rewrite take_app_ge by lia. rewrite take_drop_commute. replace (length text + (10 - length text))%nat with 10%nat by lia.
    subst a. rewrite take_app_le by (cbn; lia). change (take 10 _) with (replicate 10 0). rewrite drop_replicate.
    unfold position_zero. rewrite find_app.
    - destruct (10 - length text)%nat as [|k] eqn:Hk; cbn [replicate FrameCtl.find Z.eqb fmap option_fmap option_map default]; unfold default, id; lia.
    - subst text. rewrite forallb_app. destruct (parse_frame_text (bits s) (parity s) (stop s)) as (_ & _ & ->). rewrite andb_true_r.
      eapply forallb_impl; [|exact Hdig]. intros c Hc%digit_bounds. lia. }
  rewrite Hpos. exists (text ++ drop (length text) a), (length text).
  destruct (set_char_mode_ok (bits s) (parity s) (stop s) s2 p2 u2 Ha Hu) as (p3 & Hw1 & H3).
  destruct (set_divisor_ok (divisor s) (set_frame (bits s) (parity s) (stop s) s2) p3 _ Ha (proj1 H3) ltac:(lia)) as (p4 & Hw2 & H4). exists p4.
  split; [done|]. split; [done|]. split; [done|]. rewrite take_app_length. split; [|by etrans; [apply (proj1 H4)|]].
  unfold FrameCtl.write. subst text. rewrite (parse_mode_text _ _ _ _ _ _ Hdig Hpar Hle Hdiv). cbn [mbind outcome_bind negb]. by rewrite Hw1, Hw2.
Qed.

(** Reading into a shorter buffer panics, whatever fits. *)
Theorem short_frame_read_panics s buff : (length buff < 10)%nat -> 1 <= divisor s <= 354 -> FrameCtl.read true buff s = Panic.
Proof.
  intros Hl Hd. destruct (rate_text _ Hd) as (b & Hb & _). destruct (mode_text_concat s b Hb) as (pieces & Hm & Hpl & Hpc).
  unfold FrameCtl.read. cbn [negb]. rewrite Hm. cbn [mbind outcome_bind]. rewrite write_strs_truncate, Hpl. cbn [existsb replicate is_ok negb orb].
  match goal with |- context [Nat.leb 10 ?n] => assert (n = length buff) as -> end.
  { unfold filled. cbn [ByteSink.arr]. repeat rewrite ?length_app, ?length_take, ?length_drop, ?length_replicate. lia. }
  by rewrite (proj2 (Nat.leb_gt 10 _)).
Qed.

(** The parity is put where the chip has the second stop bit, and the stop bits where it has the
    parity: eight bits with odd parity and one stop bit become two stop bits without parity, and
    eight bits without parity and two stop bits become odd parity and one stop bit. *)
Theorem frame_bits_swapped :
  lcr_format (frame_lcr Eight Odd One) = mkFormat 8 true false false false /\
  lcr_format (frame_lcr Eight PNone Two) = mkFormat 8 false true false false.
Proof. done. Qed.

End Frames.

(** ** Start-up *)
Section Startup.
Context {P : Type} `{UartLaws P} {FO : FlagOps} {FL : FlagLaws}.
Import Port.
Implicit Types (s : Serial) (p : P) (u : Uart).

(** The chip after the first loop of [init_rt_serial], and after the last one. *)
Definition enabled u : Uart := set_u_ier 3 (set_u_fifo false (tested u)).
Definition connected (a : Z) u : Uart := if bool_decide (a ∈ [0x3f8; 0x3e8; 0x2f8; 0x2e8]) then set_u_mcr 9 u else u.
Definition connected_port s : Serial := if bool_decide (base s ∈ [0x3f8; 0x3e8; 0x2f8; 0x2e8]) then set_modem 9 s else s.

Definition all_quiet p : Prop := forall a u, a ∈ SERIAL_ADDR -> uart a p = Some u -> quiet u.

Lemma find_one fuel a p u : a ∈ SERIAL_ADDR -> uart a p = Some u -> quiet u -> (0 < fuel)%nat ->
  exists p1 p2 p3, Port.new a p = Done (Ok (found a u), p1) /\ set_fifo 6 (found a u) p1 = p2 /\ drain fuel (found a u) p2 = Done (Some p3) /\
    upd a (enabled u) p (set_int_enable 3 (found a u) p3).
Proof.
  intros Ha Hu Hq Hf. destruct (port_new_ok a p u Ha Hu Hq) as (p1 & Hn & H1). set (s := found a u) in *.
  pose proof (write_reg s INT_ID 6 p1 _ Ha ltac:(done) (proj1 H1)) as H2. set (p2 := outb _ 6 p1) in *.
  assert (u_out INT_ID 6 (tested u) = set_u_fifo false (tested u)) as Hfi.
  { cbn [u_out INT_ID tested u_fifo]. change (Z.testbit 6 0) with false. unfold set_u_fifo, set_u_rx, tested. cbn. by destruct (u_fifo u). }
  rewrite Hfi in H2. destruct (int_id_ok s p2 _ Ha (proj1 H2)) as (p3 & Hid & H3). exists p1, p2, p3. split; [done|]. split; [done|]. split.
  - destruct fuel as [|fuel]; [lia|]. cbn [drain]. by rewrite Hid.
  - eapply upd_trans; [exact H1|]. eapply upd_trans; [exact H2|]. eapply upd_trans; [exact H3|].
    apply (write_reg s INT_ENABLE 3 p3 (set_u_fifo false (tested u)) Ha ltac:(done)). apply H3.
Qed.

Lemma bool_decide_cons_ne (a b : Z) l : a <> b -> bool_decide (b ∈ a :: l) = bool_decide (b ∈ l).
Proof. intros Hne. apply bool_decide_ext. rewrite elem_of_cons. intuition congruence. Qed.

Lemma find_ports_ok fuel addrs : (0 < fuel)%nat -> NoDup addrs -> addrs ⊆ SERIAL_ADDR -> forall p, all_quiet p ->
  exists p', find_ports fuel addrs p = Done (Some (omap (fun a => found a <$> uart a p) addrs, p')) /\
    forall a, a ∈ SERIAL_ADDR -> uart a p' = if bool_decide (a ∈ addrs) then enabled <$> uart a p else uart a p.
Proof.
  intros Hf. induction addrs as [|a addrs IH]; intros Hnd Hsub p Hq.
  { exists p. split; [done|]. intros a _. by rewrite bool_decide_eq_false_2 by apply not_elem_of_nil. }
  apply NoDup_cons in Hnd as [Hna Hnd]. assert (a ∈ SERIAL_ADDR) as Ha by (apply Hsub; by left). assert (addrs ⊆ SERIAL_ADDR) as Hsub' by (intros x Hx; apply Hsub; by right). cbn [find_ports omap list_omap].
  assert (forall q, (forall b, b ∈ SERIAL_ADDR -> a <> b -> uart b q = uart b p) -> omap (fun b => found b <$> uart b q) addrs = omap (fun b => found b <$> uart b p) addrs) as Hom.
  { intros q Hqq. clear IH Hnd Hsub. induction addrs as [|b addrs IH]; [done|]. cbn [omap list_omap]. apply not_elem_of_cons in Hna as [Hab Hna].
    rewrite Hqq, IH; [done|done| |apply Hsub'; by left|done]. intros x Hx. apply Hsub'. by right. }
  assert (forall q q' f, (forall b, b ∈ SERIAL_ADDR -> a <> b -> uart b q = uart b p) -> uart a q = f <$> uart a p ->
    (forall b, b ∈ SERIAL_ADDR -> uart b q' = if bool_decide (b ∈ addrs) then enabled <$> uart b q else uart b q) ->
    f <$> uart a p = enabled <$> uart a p ->
    forall b, b ∈ SERIAL_ADDR -> uart b q' = if bool_decide (b ∈ a :: addrs) then enabled <$> uart b p else uart b p) as Hfin.
  { intros q q' f H1 H2 H3 Hfe b Hb. rewrite H3 by done. destruct (decide (a = b)) as [<-|Hne].
    - rewrite bool_decide_eq_false_2, bool_decide_eq_true_2 by (done || by left). by rewrite H2.
    - rewrite H1 by done. by rewrite bool_decide_cons_ne by done. }
  destruct (uart a p) as [u|] eqn:Hu; cbn [fmap option_fmap option_map] in *.
  - destruct (find_one fuel a p u Ha Hu (Hq a u Ha Hu) Hf) as (p1 & p2 & p3 & -> & Hp2 & Hdr & H4). cbn [mbind outcome_bind]. rewrite Hp2, Hdr. cbn [mbind outcome_bind].
    change (Z.lor (enable_bit TRANSMIT_HOLDING_REGISTER_EMPTY) (enable_bit DATA_RECEIVED)) with 3. set (p4 := set_int_enable 3 _ p3) in *. destruct H4 as [H4 H5].
    destruct (IH Hnd Hsub' p4) as (p5 & -> & H6).
    { intros b v Hb Hv. destruct (decide (a = b)) as [<-|Hne]; [|rewrite H5 in Hv by done; by apply (Hq b)]. rewrite H4 in Hv. injection Hv as <-. by split. }
    cbn [mbind outcome_bind]. rewrite (Hom p4 H5). exists p5. split; [done|]. by apply (Hfin p4 p5 enabled).
  - destruct (new_absent a p Ha Hu) as (p1 & -> & H1). cbn [mbind outcome_bind]. destruct (IH Hnd Hsub' p1) as (p2 & -> & H2).
    { intros b v Hb Hv. rewrite H1 in Hv by done. by apply (Hq b). }
    rewrite (Hom p1) by auto. exists p2. split; [done|]. apply (Hfin p1 p2 enabled); [auto|by rewrite H1|done|done].
Qed.

Lemma irq_some s : is_Some (irq s) <-> base s ∈ [0x3f8; 0x3e8; 0x2f8; 0x2e8].
Proof.
  change [0x3f8; 0x3e8; 0x2f8; 0x2e8] with ([0x3f8; 0x3e8] ++ [0x2f8; 0x2e8]). rewrite elem_of_app. unfold irq.
  destruct (decide (base s ∈ [0x3f8; 0x3e8])) as [H1|H1]; [rewrite bool_decide_eq_true_2 by done|rewrite bool_decide_eq_false_2 by done].
  { split; [by left|by eexists]. }
  destruct (decide (base s ∈ [0x2f8; 0x2e8])) as [H2|H2]; [rewrite bool_decide_eq_true_2 by done|rewrite bool_decide_eq_false_2 by done].
  - split; [by right|by eexists].
  - split; [by intros []|tauto].
Qed.

Lemma new_buff_inv : ChonkyBuff.inv (@ChonkyBuff.new Z).
Proof. split; cbn; try done; constructor. Qed.

Lemma irq_ports_ext line f com : (forall s, irq (f s) = irq s) -> irq_ports line (f <$> com) = irq_ports line com.
Proof.
  intros Hf. unfold irq_ports. rewrite imap_fmap. unfold compose.
  assert (forall h : nat -> nat, (fun x : nat * Serial => x.1) <$> filter (fun x => irq x.2 = Some line) (imap (fun i s => (h i, f s)) com) =
    (fun x : nat * Serial => x.1) <$> filter (fun x => irq x.2 = Some line) (imap (fun i s => (h i, s)) com)) as Hg; [|apply (Hg (fun i => i))].
  induction com as [|s com IH]; intros h; [done|]. rewrite !imap_cons, !filter_cons. cbn [snd]. rewrite Hf. specialize (IH (fun i => h (S i))).
  unfold compose in *. destruct (decide _); [rewrite !fmap_cons|]; by rewrite IH.
Qed.

Lemma connect_ok com : forall p, NoDup (base <$> com) -> (forall s, s ∈ com -> base s ∈ SERIAL_ADDR /\ is_Some (uart (base s) p)) ->
  exists p', connect com p = (connected_port <$> com, p') /\
    forall a, a ∈ SERIAL_ADDR -> uart a p' = if bool_decide (a ∈ base <$> com) then connected a <$> uart a p else uart a p.
Proof.
  induction com as [|s com IH]; intros p Hnd Hall; cbn [connect fmap list_fmap].
  { exists p. split; [done|]. intros a _. by rewrite bool_decide_eq_false_2 by apply not_elem_of_nil. }
  apply NoDup_cons in Hnd as [Hn Hnd]. destruct (Hall s) as [Ha [u Hu]]; [by left|].
  assert (exists p1, (match irq s with Some _ => modem_ctl (Z.lor (modem_bit AUX2) (modem_bit DATA_TERMINAL_READY)) s p | None => (s, p) end) = (connected_port s, p1) /\
    upd (base s) (connected (base s) u) p p1) as (p1 & -> & H1 & H1').
  { unfold connected_port, connected. destruct (irq s) eqn:Hi.
    - rewrite !bool_decide_eq_true_2 by (apply irq_some; by eexists). eexists. split; [done|]. by apply (write_reg s MODEL_CTL 9 p u).
    - rewrite !bool_decide_eq_false_2 by (intros [? ?]%irq_some; congruence). exists p. split; [done|]. by apply upd_refl. }
  assert (forall b, b ∈ base <$> com -> b ∈ SERIAL_ADDR /\ base s <> b) as Hcom.
  { intros b (s' & -> & Hs')%list_elem_of_fmap. split; [apply (Hall s'); by right|]. intros He. apply Hn. rewrite He. by apply list_elem_of_fmap_2. }
  destruct (IH p1 Hnd) as (p2 & -> & H2).
  { intros s' Hs'. split; [apply (Hall s'); by right|]. rewrite H1'; [apply (Hall s'); by right|apply Hcom, list_elem_of_fmap_2, Hs'..]. }
  exists p2. split; [done|]. intros a Haa. rewrite H2 by done. destruct (decide (base s = a)) as [<-|Hne].
  - rewrite bool_decide_eq_false_2, bool_decide_eq_true_2 by (done || by left). by rewrite H1, Hu.
  - rewrite H1' by done. by rewrite bool_decide_cons_ne by done.
Qed.

(** The start-up finds exactly the chips that are there, in the order of the addresses; each becomes
    a port on which nothing is being sent, ready for a write.  Only the ports with an interrupt line
    are connected to it. *)
Theorem init_finds_ports fuel p : all_quiet p -> (0 < fuel)%nat ->
  exists com p', init_rt_serial fuel p = Done (Some (com, irq_map com, p')) /\
    base <$> com = filter (fun a => is_Some (uart a p)) SERIAL_ADDR /\
    forall s, s ∈ com -> exists u, online s p' u /\ idle s u /\ (Z.testbit (u_mcr u) 3 = true <-> is_Some (irq s)).
Proof.
  intros Hq Hf. unfold init_rt_serial. assert (NoDup SERIAL_ADDR) as Hnd by (apply (bool_decide_unpack _); by vm_compute).
  destruct (find_ports_ok fuel SERIAL_ADDR Hf Hnd ltac:(done) p Hq) as (p1 & -> & H1). cbn [mbind outcome_bind].
  set (com := omap _ SERIAL_ADDR). assert (base <$> com = filter (fun a => is_Some (uart a p)) SERIAL_ADDR) as Hbase.
  { subst com. clear. induction SERIAL_ADDR as [|a l IH]; [done|]. cbn [omap list_omap]. rewrite filter_cons. destruct (uart a p) as [u|]; cbn [fmap option_fmap option_map].
    - rewrite decide_True by (by eexists). by rewrite fmap_cons, IH.
    - rewrite decide_False by (by intros [? ?]). done. }
  assert (forall s, s ∈ com -> base s ∈ SERIAL_ADDR /\ exists u, uart (base s) p = Some u /\ s = found (base s) u) as Hcom.
  { intros s (a & Ha & Hs)%list_elem_of_omap. destruct (uart a p) as [u|] eqn:Hu; [|done]. injection Hs as <-. split; [done|]. by exists u. }
  destruct (connect_ok com p1) as (p2 & -> & H2).
  { rewrite Hbase. by apply NoDup_filter. }
  { intros s Hs. destruct (Hcom s Hs) as (Ha & u & Hu & _). split; [done|]. rewrite H1, bool_decide_eq_true_2, Hu by done. by eexists. }
  exists (connected_port <$> com), p2. assert (forall s, base (connected_port s) = base s) as Hb by (intros s; unfold connected_port; by case_bool_decide).
  assert (base <$> (connected_port <$> com) = base <$> com) as Hbb. { rewrite <- list_fmap_compose. apply list_fmap_ext. intros; apply Hb. }
  split; [|split; [by rewrite Hbb|]].
  - do 4 f_equal. unfold irq_map. f_equal. apply list_fmap_ext. intros _ line _. f_equal. symmetry. apply irq_ports_ext. intros s. unfold irq. by rewrite Hb.
  - intros s' (s & -> & Hs)%list_elem_of_fmap. destruct (Hcom s Hs) as (Ha & u & Hu & Hfs).
    assert (uart (base s) p2 = Some (connected (base s) (enabled u))) as Hu2.
    { rewrite H2 by done. rewrite bool_decide_eq_true_2 by (by apply list_elem_of_fmap_2). rewrite H1, bool_decide_eq_true_2, Hu by done. done. }
    exists (connected (base s) (enabled u)). pose proof (irq_some s) as Hirq.
    assert (irq (connected_port s) = irq s) as -> by (unfold irq; by rewrite Hb).
    rewrite Hfs in *. cbn [found base set_modem set_idle_enable fresh] in *. unfold connected_port, connected in *. cbn [found base set_modem set_idle_enable fresh] in *.
    case_bool_decide as Hin.
    + split; [split; done || apply new_buff_inv|split; [by split|by rewrite Hirq]].
    + split; [split; done || apply new_buff_inv|split; [by split|by rewrite Hirq]].
Qed.

End Startup.

(** ** Reception *)
Section Reception.
Context {P : Type} `{UartLaws P} {FO : FlagOps} {FL : FlagLaws}.
Import Port Dispatcher.
Implicit Types (s : Serial) (p : P) (u : Uart) (y : Sys P).

(** The buffer after [bs] have been stored from [i] on. *)
Definition stored (buff : list Z) (i : nat) (bs : list Z) : list Z := take i buff ++ bs ++ drop (i + length bs) buff.

Lemma stored_step buff i b bs : (i < length buff)%nat -> stored (<[i := b]> buff) (S i) bs = stored buff i (b :: bs).
Proof.
  intros Hi. unfold stored. rewrite insert_take_drop by done. assert (length (take i buff) = i) as Hl by (rewrite length_take; lia).
  rewrite take_app_ge by lia. rewrite Hl. replace (S i - i)%nat with 1%nat by lia. cbn [take length]. rewrite take_0, <- !app_assoc. f_equal. cbn [app]. f_equal. f_equal.
  rewrite drop_app_ge by lia. rewrite Hl. replace (S i + length bs - i)%nat with (S (length bs)) by lia. cbn [drop]. rewrite drop_drop. f_equal. lia.
Qed.

(** Received bytes go to the buffer in order; when it is full, the interrupt for received data is
    switched off and the rest stays in the chip. *)
Lemma rx_loop_fill fuel : forall s p u buff i, base s ∈ SERIAL_ADDR -> uart (base s) p = Some u -> dlab u = false ->
  rx_tgt s = Some (buff, i) -> (i < length buff)%nat -> (length (u_rx u) < fuel)%nat ->
  exists p', let k := Nat.min (length buff - i) (length (u_rx u)) in
    rx_loop fuel s p = Done (Some (set_tgt (Some (stored buff i (take k (u_rx u)), i + k)%nat) s, p')) /\
    upd (base s) (let v := set_u_rx (drop k (u_rx u)) u in if Nat.leb (length buff) (i + k) then u_out 1 2 v else v) p p'.
Proof.
  induction fuel as [|fuel IH]; intros s p u buff i Ha Hu Hd Ht Hi Hf; [lia|]. cbn [rx_loop].
  destruct (receive_ok s p u Ha Hu Hd) as (p1 & -> & H1). destruct (u_rx u) as [|b bs] eqn:Hrx; cbn [head tail length] in *.
  - exists p1. rewrite Nat.min_0_r. cbn zeta. rewrite Nat.add_0_r, (proj2 (Nat.leb_gt _ i)) by lia. cbn [take drop]. split; [|done].
    unfold stored. cbn [length app]. rewrite Nat.add_0_r, take_drop. do 3 f_equal. destruct s; cbn in *; by subst.
  - rewrite Ht, (proj2 (Nat.ltb_lt i _)) by lia. cbn [assert_that mbind outcome_bind]. set (s1 := set_tgt _ s). destruct (Nat.leb_spec (length buff) (S i)) as [Hfull|Hroom].
    + replace (Nat.min (length buff - i) (S (length bs))) with 1%nat by lia. eexists. cbn zeta. cbn [take drop]. rewrite take_0. split.
      * rewrite <- stored_step, Nat.add_1_r by done. unfold stored. cbn [app length]. by rewrite Nat.add_0_r, take_drop.
      * rewrite (proj2 (Nat.leb_le _ (i + 1))) by lia. eapply upd_trans; [exact H1|]. apply (write_reg s1 INT_ENABLE 2); [done|done|apply H1].
    + destruct (IH s1 p1 (set_u_rx bs u) (<[i := b]> buff) (S i)) as (p2 & E2 & H2); [done|apply H1|done|done|rewrite length_insert; lia|cbn; lia|].
      exists p2. cbn zeta in *. cbn [u_rx set_u_rx] in *. rewrite length_insert in *.
      replace (Nat.min (length buff - i) (S (length bs))) with (S (Nat.min (length buff - S i) (length bs))) by lia. cbn [take drop]. set (k := Nat.min _ _) in *.
      rewrite E2. split.
      * rewrite <- stored_step by done. replace (i + S k)%nat with (S i + k)%nat by lia. done.
      * replace (i + S k)%nat with (S i + k)%nat by lia. eapply upd_trans; [exact H1|]. exact H2.
Qed.

(** A reader gets what has arrived, in order and up to the size of its buffer. *)
Theorem read_receives fuel y u buff i h cx :
  is_read h = true -> alive (disp y) = true -> base (ser y) ∈ SERIAL_ADDR -> uart (base (ser y)) (ports y) = Some u -> dlab u = false ->
  rx_tgt (ser y) = Some (buff, i) -> (i < length buff)%nat -> u_rx u <> [] -> rx_idle (ser y) = true ->
  u_ier u = 3 -> u_thri u = false -> (length (u_rx u) + 2 <= fuel)%nat ->
  let k := Nat.min (length buff - i) (length (u_rx u)) in
  exists s' p' u' y', int_handler fuel (ser y) (ports y) = Done (Some (s', p')) /\ uart (base (ser y)) p' = Some u' /\ u_rx u' = drop k (u_rx u) /\
    read_poll h cx (mkSys s' p' (disp y)) = Done (Some (Ok (stored buff i (take k (u_rx u)), (i + k)%nat)), y') /\ rx_tgt (ser y') = None.
Proof.
  intros Hh Hal Ha Hu Hd Ht Hi Hrx Hidle Hier Hth Hf. cbn zeta. set (k := Nat.min _ _). unfold int_handler.
  destruct (int_id_ok (ser y) (ports y) u Ha Hu) as (p1 & -> & H1).
  assert (ready u = true) as Hrd by (unfold ready; by destruct (u_rx u)).
  assert (iir u = 4) as Hii by (unfold iir; by rewrite Hier, Hrd). rewrite Hii in *. cbn [Z.eqb] in H1.
  destruct fuel as [|fuel]; [lia|]. cbn [int_loop]. change (pending 4) with false. change (reason 4) with (Done DataAvailable). cbn [mbind outcome_bind serve].
  destruct (rx_loop_fill (S fuel) (set_dirty true (ser y)) p1 u buff i Ha (proj1 H1) Hd Ht Hi ltac:(lia)) as (p2 & -> & H2). fold k in H2 |- *. cbn [mbind outcome_bind]. cbv beta iota zeta.
  set (s2 := wake _). match type of H2 with upd _ ?v _ _ => set (u2 := v) in H2 end.
  assert (k <= length (u_rx u) /\ 0 < k)%nat as [Hk Hk0]. { subst k. destruct (u_rx u); [done|]. cbn [length]. lia. }
  destruct (int_id_ok s2 p2 u2 Ha (proj1 H2)) as (p3 & -> & H3).
  assert (iir u2 = 1 /\ u_rx u2 = drop k (u_rx u)) as [Hii2 Hrx2].
  { subst u2. cbn zeta. unfold iir, ready. destruct (Nat.leb_spec (length buff) (i + k)).
    - cbn [u_out]. change (dlab (set_u_rx _ u)) with (dlab u). rewrite Hd. cbn [set_u_rx u_ier]. rewrite Hier. change (Z.testbit 2 1) with true. change (Z.testbit 3 1) with true. cbn [andb negb].
      cbn [set_u_ier set_u_rx u_ier u_rx u_thri]. by rewrite Hth.
    - cbn [set_u_rx u_ier u_rx u_thri]. rewrite Hth, andb_false_r. replace k with (length (u_rx u)) by lia. rewrite drop_all. by rewrite andb_false_r. }
  rewrite Hii2 in *. exists s2, p3, u2. unfold read_poll. cbn [disp ser ports]. rewrite Hh, Hal. cbn [negb].
  change (rx_tgt s2) with (Some (stored buff i (take k (u_rx u)), i + k)%nat). cbn [unwrap mbind outcome_bind].
  assert (length (stored buff i (take k (u_rx u))) = length buff) as Hls. { unfold stored. repeat rewrite ?length_app, ?length_take, ?length_drop. lia. }
  change (rx_idle s2) with (rx_idle (ser y)). rewrite Hls, Hidle, (proj2 (Nat.ltb_lt 0 (i + k))) by lia. cbn [andb].
  destruct (Nat.eqb_spec (i + k) (length buff)) as [He|_]; eexists; (split; [by destruct fuel|]); (split; [apply H3|]); (split; [done|]); [by rewrite He|done].
Qed.

(** Nothing switches the interrupt on again: a read after a full buffer that finds no data waits, and
    stays waiting when data arrives. *)
Theorem second_read_starves fuel y u buff b h cx :
  is_read h = true -> alive (disp y) = true -> base (ser y) ∈ SERIAL_ADDR -> uart (base (ser y)) (ports y) = Some u -> dlab u = false ->
  rx_tgt (ser y) = None -> buff <> [] -> u_rx u = [] -> u_ier u = 2 -> u_thri u = false -> (0 < fuel)%nat ->
  exists y1 s2 p2 y3, read_start fuel h buff y = Done (Some (None, y1)) /\
    int_handler fuel (ser y1) (arrive (base (ser y1)) b (ports y1)) = Done (Some (s2, p2)) /\ read_poll h cx (mkSys s2 p2 (disp y1)) = Done (None, y3).
Proof.
  intros Hh Hal Ha Hu Hd Ht Hne Hrx Hier Hth Hf. unfold read_start. rewrite Hh, Hal, Ht. cbn [negb]. destruct fuel as [|fuel]; [lia|]. cbn [read_loop].
  destruct (receive_ok (ser y) (ports y) u Ha Hu Hd) as (p1 & -> & H1). rewrite Hrx in *. cbn [head tail mbind outcome_bind] in *.
  set (s1 := set_tgt (Some (buff, 0%nat)) (ser y)). pose proof (uart_arrive (base s1) b p1 _ (proj1 H1)) as H2.
  destruct (int_id_ok s1 (arrive (base s1) b p1) _ Ha H2) as (p2 & Hid & H3).
  assert (iir (u_arrive b (set_u_rx [] u)) = 1) as Hii. { unfold iir. cbn [u_arrive set_u_rx u_ier u_thri]. by rewrite Hier, Hth. }
  exists (mkSys s1 p1 (disp y)), s1, p2. eexists. split; [done|]. cbn [ser ports disp]. split; [unfold int_handler; by rewrite Hid, Hii|].
  unfold read_poll. cbn [disp ser]. rewrite Hh, Hal. cbn [negb s1 set_tgt rx_tgt unwrap mbind outcome_bind].
  rewrite (proj2 (Nat.eqb_neq 0 (length buff))) by (by destruct buff). rewrite andb_false_r. done.
Qed.

(** The time-out of the FIFO stores a byte behind the end of a full buffer. *)
Theorem timeout_full_panics fuel s p u buff b rx : base s ∈ SERIAL_ADDR -> uart (base s) p = Some u -> dlab u = false -> u_rx u = b :: rx ->
  rx_tgt s = Some (buff, length buff) -> timeout_loop (S fuel) s p = Panic.
Proof.
  intros Ha Hu Hd Hrx Ht. cbn [timeout_loop]. rewrite Ht. destruct (receive_ok s p u Ha Hu Hd) as (p1 & -> & _). rewrite Hrx. cbn [head]. by rewrite Nat.ltb_irrefl.
Qed.

(** A read into an empty buffer panics when there is data. *)
Theorem empty_read_panics fuel h y u b rx : is_read h = true -> alive (disp y) = true -> rx_tgt (ser y) = None ->
  base (ser y) ∈ SERIAL_ADDR -> uart (base (ser y)) (ports y) = Some u -> dlab u = false -> u_rx u = b :: rx -> read_start (S fuel) h [] y = Panic.
Proof.
  intros Hh Hal Ht Ha Hu Hd Hrx. unfold read_start. rewrite Hh, Hal, Ht. cbn [negb read_loop]. destruct (receive_ok (ser y) (ports y) u Ha Hu Hd) as (p1 & -> & _). by rewrite Hrx.
Qed.

(** *** The lock of the reader *)

(** Closing a handle that was opened for reading keeps the lock, so that no later reader can open the
    port; closing one that was opened for writing, or dropping it, releases the lock of a reader. *)
Theorem close_keeps_read_lock d h h' : alive d = true -> stream_lock d = false ->
  exists d1, open Read h d = (Ok tt, Read, d1) /\ exists d2, close Read d1 = (Ok tt, Locked, d2) /\ open Read h' d2 = (Err Busy, h', d2).
Proof. destruct d. cbn. intros -> ->. eexists. split; [done|]. eexists. by split. Qed.

Theorem writer_close_releases d h1 h2 h3 : alive d = true -> stream_lock d = false ->
  exists d1 d2, open Read h1 d = (Ok tt, Read, d1) /\ open Write h2 d1 = (Ok tt, Write, d2) /\ (open Read h3 (drop_handle Write d2)).1 = (Ok tt, Read).
Proof. destruct d. cbn. intros -> ->. eexists _, _. split; [done|]. by split. Qed.

(** [locks_remain] answers about the lock of the readers when asked about writers. *)
Theorem locks_remain_inverted d : stream_lock d = true -> locks_remain Write d = 0 /\ locks_remain Read d = 2 ^ 64 - 1.
Proof. intros Hl. unfold locks_remain. by rewrite Hl. Qed.

(** Blocking and restoring the interrupts gives every line the mask of the last one. *)
Theorem block_restores (b : bool) n : without_interrupts tt (replicate n b) = (tt, replicate n b).
Proof.
  unfold without_interrupts, block_interrupts. rewrite <- list_fmap_compose. unfold compose. f_equal. destruct n as [|n]; [done|].
  assert (last (replicate (S n) b) = Some b) as -> by (induction n as [|n IH]; [done|exact IH]). cbn [default]. clear. unfold default, id. induction (S n) as [|k IH]; [done|]. cbn. f_equal. exact IH.
Qed.

End Reception.

(** ** Witnesses *)
Module SerialWitness.
Import Port Dispatcher FrameCtl FlagWitness.

(** Chips on eight-byte boundaries. *)
#[local] Instance chips : PortOps (gmap Z Uart) := {|
  inb a m := match m !! (a - a mod 8) with
             | None => (0xff, m)
             | Some u => let r := u_in (a mod 8) u in (r.1, <[a - a mod 8 := r.2]> m)
             end;
  outb a v m := alter (u_out (a mod 8) v) (a - a mod 8) m |}.

Lemma address_split a off : a ∈ SERIAL_ADDR -> 0 <= off < 8 -> (a + off) mod 8 = off /\ a + off - (a + off) mod 8 = a.
Proof.
  intros Ha Ho. assert (a mod 8 = 0) as H8. { revert a Ha. apply Forall_forall. repeat constructor. }
  assert ((a + off) mod 8 = off) as Hm. { rewrite Z.add_mod, H8, Z.add_0_l, Z.mod_mod, Z.mod_small by lia. done. }
  rewrite Hm. lia.
Qed.

#[local, program] Instance chips_laws : UartLaws (gmap Z Uart) := {|
  uart a m := m !! a;
  tick a m := alter u_tick a m;
  arrive a b m := alter (u_arrive b) a m |}.
Next Obligation. intros a off m u Ha Ho Hu. destruct (address_split a off Ha Ho) as [H1 H2]. cbn. rewrite H2, H1, Hu. cbn. split; [done|]. by rewrite lookup_insert_eq. Qed.
Next Obligation. intros a off v m u Ha Ho Hu. destruct (address_split a off Ha Ho) as [H1 H2]. cbn. rewrite H2, H1. by rewrite lookup_alter_eq, Hu. Qed.
Next Obligation. intros a off m Ha Ho Hu. destruct (address_split a off Ha Ho) as [H1 H2]. cbn. rewrite H2, Hu. done. Qed.
Next Obligation. intros a off v m Ha Ho Hu. destruct (address_split a off Ha Ho) as [H1 H2]. cbn. rewrite H2. by rewrite lookup_alter_eq, Hu. Qed.
Next Obligation.
  intros a b off m Ha Hb Hne Ho. destruct (address_split a off Ha Ho) as [H1 H2]. cbn. rewrite H2. destruct (m !! a); [|done]. cbn. by rewrite lookup_insert_ne.
Qed.
Next Obligation. intros a b off v m Ha Hb Hne Ho. destruct (address_split a off Ha Ho) as [H1 H2]. cbn. rewrite H2. by rewrite lookup_alter_ne. Qed.
Next Obligation. intros a m u Hu. cbn. by rewrite lookup_alter_eq, Hu. Qed.
Next Obligation. intros a b m u Hu. cbn. by rewrite lookup_alter_eq, Hu. Qed.

(** A connected chip at 0x3f8, and its port after the start-up. *)
Definition chip : Uart := mkUart 3 3 9 3 0 0xff true 0 false None false [] [].
Definition machine : gmap Z Uart := {[ 0x3f8 := chip ]}.
Definition com1 : Serial := set_modem 9 (fresh 0x3f8).
Definition file1 : Sys (gmap Z Uart) := mkSys com1 machine (Dispatcher.new 5 0).1.1.

Lemma com1_online : online com1 machine chip.
Proof. split; [split; try done; by left|done|apply new_buff_inv]. Qed.

Lemma com1_idle : idle com1 chip.
Proof. by split. Qed.

Lemma serial_write_sends_witness :
  exists f y1, write_among 20 Write [72; 105] [Turn 0] [Arrive 7; Interrupt; Tick] file1 = Done (Some (Ok f, y1)) /\
    exists y2 u2, steps 20 [Tick; Interrupt; Turn 0; Tick; Interrupt] y1 = Done (Some y2) /\ write_poll f y2 = (Some 2%nat, y2) /\ u_line u2 = [72; 105].
Proof.
  destruct (serial_write_sends Write [72; 105] file1 chip 20 [Turn 0] [Arrive 7; Interrupt; Tick] eq_refl com1_online com1_idle eq_refl eq_refl ltac:(done)) as (f & y1 & H1 & _ & H2).
  - repeat constructor.
  - cbn. lia.
  - exists f, y1. split; [done|]. destruct (H2 [[Tick; Interrupt; Turn 0]; [Tick; Interrupt]]) as (y2 & u2 & H3 & H4 & H5 & _).
    + repeat constructor; [by exists [], [], [Turn 0]|by exists [], [], []].
    + done.
    + cbn. lia.
    + by exists y2, u2.
Defined.

Lemma frame_ctl_roundtrip_witness :
  exists buff' n p', FrameCtl.read true (replicate 16 0) com1 = Done (Ok (buff', n)) /\
    FrameCtl.write true (take n buff') (set_divisor_field 12 com1) machine = Done (Ok (take n buff', n), set_divisor_field 3 com1, p').
Proof.
  destruct (frame_ctl_roundtrip com1 (set_divisor_field 12 com1) machine chip (replicate 16 0)) as (buff' & n & p' & H1 & _ & _ & H2 & _).
  - cbn. lia.
  - cbn. lia.
  - by left.
  - reflexivity.
  - exists buff', n, p'. split; [exact H1|exact H2].
Defined.

(** The chip is found at start-up. *)
Lemma init_finds_com1 : exists com p', init_rt_serial 1 {[ 0x3f8 := mkUart 0 0 0 0 0 0 true 0 true None false [] [] ]} = Done (Some (com, irq_map com, p')) /\ base <$> com = [0x3f8].
Proof.
  destruct (init_finds_ports 1 {[ 0x3f8 := mkUart 0 0 0 0 0 0 true 0 true None false [] [] ]}) as (com & p' & H1 & H2 & _).
  - intros a u _ Hu. cbn in Hu. apply lookup_singleton_Some in Hu as [_ <-]. by split.
  - lia.
  - exists com, p'. split; [done|]. rewrite H2. by vm_compute.
Qed.

Lemma divisor_of_nearest_witness : divisor_of 9600 = Done (Some 12) /\ 1 <= (2 * 115200 + 9600) / (2 * 9600) < 2 ^ 16.
Proof. destruct (divisor_of_nearest 9600) as [H1 H2]; [lia|]. split; [exact H1|]. apply H2. lia. Defined.

End SerialWitness.
