(* ===== verification/UsbProto.v ===== *)
(** * USB requests and descriptors

    [drivers/usb/usb-proto] ([lib.rs], [descriptor.rs]): the requests that are sent to the control
    endpoint of a device, the descriptors that a device answers with, and the iterators over the
    descriptors of a configuration.

    Descriptors are bytes.  An iterator is a pair of offsets into the bytes it was made from, as the
    pointers of the source point into one buffer; reading a header outside of the bytes is undefined
    and appears as a panic.  Fields of a byte are read and written through the [bitfield] crate. *)
From Stdlib Require Import String.
From stdpp Require Import prelude.
From S2P Require Import Prelude Bytes BitField.
Open Scope Z_scope.

(** ** Requests *)

Inductive RequestType := Standard | Class_ | Vendor.
Definition request_type_u8 (t : RequestType) : Z := match t with Standard => 0 | Class_ => 1 | Vendor => 2 end.

Inductive Recipient := RDevice | RInterface | REndpoint | ROther.
Definition recipient_u8 (r : Recipient) : Z := match r with RDevice => 0 | RInterface => 1 | REndpoint => 2 | ROther => 3 end.
#[export] Instance Recipient_eq_dec : EqDecision Recipient.
Proof. solve_decision. Defined.

Inductive RequestCode :=
| GetStatus | ClearFeature | SetFeature | SetAddress | GetDescriptor | SetDescriptor | GetConfiguration | SetConfiguration
| GetInterface | SetInterface | SynchFrame.
Definition request_code (c : RequestCode) : Z :=
  match c with
  | GetStatus => 0 | ClearFeature => 1 | SetFeature => 3 | SetAddress => 5 | GetDescriptor => 6 | SetDescriptor => 7
  | GetConfiguration => 8 | SetConfiguration => 9 | GetInterface => 10 | SetInterface => 11 | SynchFrame => 12
  end.

(** [DescriptorType] is a byte with named values. *)
Module DescriptorType.
Definition Device : Z := 1.
Definition Configuration : Z := 2.
Definition String : Z := 3.
Definition Interface : Z := 4.
Definition Endpoint : Z := 5.
Definition DeviceQualifier : Z := 6.
Definition OtherSpeedConfiguration : Z := 7.
Definition InterfacePower : Z := 8.
End DescriptorType.

Inductive FeatureDescriptor := EndpointHalt | DeviceRemoteWakeup | TestMode.
Definition feature_code (f : FeatureDescriptor) : Z := match f with EndpointHalt => 0 | DeviceRemoteWakeup => 1 | TestMode => 2 end.

(** [size_of] the parts of [CtlTransfer] are 1, 1, 2, 2 and 2 bytes. *)
Record CtlTransfer := mkCtl { request_type : Z; request : Z; value : Z; index : Z; length_ : Z }.

Definition ctl_data_len (t : CtlTransfer) : Z := length_ t.
Definition to_bytes (t : CtlTransfer) : list Z :=
  [request_type t; request t] ++ le_bytes 2 (value t) ++ le_bytes 2 (index t) ++ le_bytes 2 (length_ t).

(** ** Descriptors *)

Abbreviation u8 n := (mkField n 1 1).
Abbreviation packed16 n := (mkField n 2 1).

Definition device_fields : list field :=
  [u8 "length"; u8 "descriptor_type"; packed16 "bcd_usb"; u8 "device_class"; u8 "device_sub_class"; u8 "device_protocol"; u8 "max_packet_size_0";
   packed16 "vendor_id"; packed16 "product_id"; packed16 "bcd_device"; u8 "manufacturer"; u8 "product"; u8 "serial_number"; u8 "num_configurations"]%string.

Definition qualifier_fields : list field :=
  [u8 "length"; u8 "descriptor_type"; packed16 "bcd_usb"; u8 "device_class"; u8 "device_sub_class"; u8 "device_protocol"; u8 "max_packet_size_0";
   u8 "num_configurations"; u8 "_reserved"]%string.

Definition configuration_fields : list field :=
  [u8 "length"; u8 "descriptor_type"; packed16 "total_length"; u8 "num_interfaces"; u8 "configuration_value"; u8 "configuration_index"; u8 "attributes";
   u8 "max_power"]%string.

Definition interface_fields : list field :=
  [u8 "length"; u8 "descriptor_type"; u8 "interface_number"; u8 "alternate_setting"; u8 "num_endpoints"; u8 "interface_class"; u8 "interface_sub_class";
   u8 "interface_protocol"; u8 "interface_index"]%string.

(** Not packed. *)
Definition endpoint_fields : list field :=
  [u8 "length"; u8 "descriptor_type"; u8 "endpoint_address"; u8 "attributes"; mkField "max_packet_size" 2 2; u8 "interval"]%string.

(** The types with [Descriptor] and those with [RequestableDescriptor]. *)
Inductive DescTy := DDevice | DConfiguration | DOtherSpeed | DInterface | DEndpoint | DQualifier.
Definition desc_fields (t : DescTy) : list field :=
  match t with
  | DDevice => device_fields
  | DConfiguration | DOtherSpeed => configuration_fields
  | DInterface => interface_fields
  | DEndpoint => endpoint_fields
  | DQualifier => qualifier_fields
  end.
Definition descriptor_type (t : DescTy) : Z :=
  match t with
  | DDevice => DescriptorType.Device
  | DConfiguration => DescriptorType.Configuration
  | DOtherSpeed => DescriptorType.OtherSpeedConfiguration
  | DInterface => DescriptorType.Interface
  | DEndpoint => DescriptorType.Endpoint
  | DQualifier => DescriptorType.DeviceQualifier
  end.
Definition size_of (t : DescTy) : nat := struct_size (desc_fields t).

Inductive Requestable := QDevice | QQualifier | QConfiguration | QOtherSpeed.
Definition requestable (r : Requestable) : DescTy :=
  match r with QDevice => DDevice | QQualifier => DQualifier | QConfiguration => DConfiguration | QOtherSpeed => DOtherSpeed end.

(** [Descriptor::from_raw]. *)
Definition from_raw (t : DescTy) (raw : list Z) : option (list Z) :=
  if Nat.ltb (length raw) (size_of t) then None
  else if negb (default 0 (raw !! 1%nat) =? descriptor_type t) then None
  else Some (take (size_of t) raw).

(** [DeviceDescriptor::packet_size] of eight bytes, and the classes. *)
Definition packet_size (buffer : list Z) : option Z :=
  if default 0 (buffer !! 1%nat) =? DescriptorType.Device then Some (field_val device_fields buffer "max_packet_size_0") else None.
Definition device_class (d : list Z) : list Z :=
  [field_val device_fields d "device_class"; field_val device_fields d "device_sub_class"; field_val device_fields d "device_protocol"]%string.
Definition interface_class (d : list Z) : list Z :=
  [field_val interface_fields d "interface_class"; field_val interface_fields d "interface_sub_class"; field_val interface_fields d "interface_protocol"]%string.

(** The numbers that [Display] of [BcdUsb] separates by points. *)
Definition bcd_display (v : Z) : list Z :=
  let b0 := v mod 256 in
  let b1 := v / 256 mod 256 in
  [b0; Z.land b1 0xf0] ++ (if Z.land b1 0x0f =? 0 then [] else [Z.land b1 0x0f]).

(** *** Endpoints *)

Inductive EndpointTransferType := Control | Isochronous | Bulk | Interrupt.
Definition transfer_type_from (v : Z) : outcome EndpointTransferType :=
  match v with 0 => Done Control | 1 => Done Isochronous | 2 => Done Bulk | 3 => Done Interrupt | _ => Panic end.
#[export] Instance EndpointTransferType_eq_dec : EqDecision EndpointTransferType.
Proof. solve_decision. Defined.

Inductive EndpointSynchronisationType := NoSynchronisation | Asynchronous | Adaptive | Synchronous.
Definition synchronisation_u8 (s : EndpointSynchronisationType) : Z :=
  match s with NoSynchronisation => 0 | Asynchronous => 1 | Adaptive => 2 | Synchronous => 3 end.
Definition synchronisation_from (v : Z) : outcome EndpointSynchronisationType :=
  match v with 0 => Done NoSynchronisation | 1 => Done Adaptive | 2 => Done Synchronous | 3 => Done Adaptive | _ => Panic end.

Inductive EndpointUsageType := Data | Feedback | ImplicitFeedbackData.
Definition usage_from (v : Z) : outcome EndpointUsageType :=
  match v with 0 => Done Data | 1 => Done Feedback | 2 => Done ImplicitFeedbackData | _ => Panic end.

Section Fields.
Context `{BO : BitFieldOps}.

(** [EndpointAddress], [EndpointAttributes] and [MaxPacketSize]. *)
Definition ep_number (a : Z) : Z := bit_range a 3 0.
Definition in_endpoint (a : Z) : bool := get_bit a 7.
Definition transfer_type (a : Z) : outcome EndpointTransferType := transfer_type_from (bit_range a 1 0).
Definition endpoint_synchronisation (a : Z) : outcome EndpointSynchronisationType := synchronisation_from (bit_range a 3 2).
Definition endpoint_usage (a : Z) : outcome EndpointUsageType := usage_from (bit_range a 5 4).
Definition max_packet_size (m : Z) : Z := bit_range m 10 0.
Definition isochronus_mult (m : Z) : Z := bit_range m 12 11.

(** *** The requests *)

(** [RequestHeader]. *)
Definition recipent (h : Z) (r : Recipient) : Z := set_bit_range h 4 0 (recipient_u8 r).
Definition target_type (h : Z) (t : RequestType) : Z := set_bit_range h 6 5 (request_type_u8 t).
Definition data_direction (h : Z) (b : bool) : Z := put_bit h 7 b.
Definition get_data_direction (h : Z) : bool := get_bit h 7.

Definition ctl_new (recipient : Recipient) (ty : RequestType) (will_receive_data : bool) (req val idx len : Z) : CtlTransfer :=
  let header := data_direction (target_type (recipent 0 recipient) ty) will_receive_data in
  mkCtl header req val idx len.

Definition is_rx_command (t : CtlTransfer) : bool := get_data_direction (request_type t).

Definition clear_feature (recipient : Recipient) (feature_selector : Z) : outcome CtlTransfer :=
  assert_that (negb (bool_decide (recipient = ROther)));;
  Done (mkCtl (recipent 0 recipient) (request_code ClearFeature) feature_selector 0 0).

Definition get_configuration : CtlTransfer := mkCtl (data_direction 0 true) (request_code GetConfiguration) 0 0 1.

Definition get_descriptor (d : Requestable) (idx : Z) (len : option Z) : CtlTransfer :=
  let idx := match d with QDevice | QQualifier => 0 | _ => idx end in
  mkCtl (data_direction 0 true) (request_code GetDescriptor) (of_le [idx; descriptor_type (requestable d)]) 0
    (default (Z.of_nat (size_of (requestable d)) mod 2 ^ 16) len).

Definition get_interface (interface : Z) : CtlTransfer := mkCtl (data_direction 0 true) (request_code GetInterface) 0 interface 1.

Definition get_status (recipient : Recipient) (interface : Z) : outcome CtlTransfer :=
  let header := recipent (data_direction 0 true) recipient in
  assert_that (negb (bool_decide (recipient = ROther)));;
  if bool_decide (recipient = RDevice) && negb (interface =? 0) then Panic
  else Done (mkCtl header (request_code GetStatus) 0 interface 2).

Definition set_address (address : Z) : outcome CtlTransfer :=
  assert_that (address <? 128);; Done (mkCtl 0 (request_code SetAddress) address 0 0).

Definition set_configuration (configuration_value : Z) : CtlTransfer := mkCtl 0 (request_code SetConfiguration) configuration_value 0 0.

Definition set_feature (recipient : Recipient) (feature_selector target : Z) : outcome CtlTransfer :=
  let header := recipent 0 recipient in
  assert_that (negb (bool_decide (recipient = ROther)));;
  Done (mkCtl header (request_code SetFeature) feature_selector target 0).

Definition set_interface (interface alternate : Z) : CtlTransfer :=
  mkCtl (recipent 0 RInterface) (request_code SetInterface) alternate interface 0.

Definition synch_frame (endpoint : Z) : CtlTransfer :=
  mkCtl (recipent (data_direction 0 true) RInterface) (request_code SynchFrame) 0 endpoint 2.

End Fields.

(** ** Iterators *)

(** [DescriptorHeader], with the place it points to. *)
Record DescriptorHeader := mkHeader { h_off : Z; descriptor_len : Z; descriptor_id : Z }.

Record DescriptorIterator := mkIter { it_next : Z; it_end : Z }.

(** [ConfigurationDescriptor::iter] on the descriptor at the start of [mem]. *)
Definition iter (mem : list Z) : DescriptorIterator :=
  let start := Z.of_nat (struct_size configuration_fields) in
  mkIter start (start + field_val configuration_fields mem "total_length" - field_val configuration_fields mem "length").

Section Iterators.
Context (mem : list Z).

Definition header_at (o : Z) : outcome DescriptorHeader :=
  l ← unwrap (mem !! Z.to_nat o);
  i ← unwrap (mem !! Z.to_nat (o + 1));
  Done (mkHeader o l i).

Definition get_header (it : DescriptorIterator) : outcome (option DescriptorHeader) :=
  if it_end it <=? it_next it then Done None else h ← header_at (it_next it); Done (Some h).

(** [DescriptorIterator::next]. *)
Definition desc_next (it : DescriptorIterator) : outcome (option DescriptorHeader * DescriptorIterator) :=
  h ← get_header it;
  match (h : option DescriptorHeader) with
  | None => Done (None, it)
  | Some h => Done (Some h, mkIter (it_next it + descriptor_len h) (it_end it))
  end.

(** [FoldingDescriptorIterator::next]: the first loop finds the start, the second the end.  [None] in
    the place of a result is a loop that does not end. *)
Fixpoint fold_start (fuel : nat) (fold_on : Z) (it : DescriptorIterator) : outcome (option (option DescriptorHeader * DescriptorIterator)) :=
  match fuel with
  | O => Done None
  | S fuel =>
      r ← desc_next it;
      match (r : option DescriptorHeader * DescriptorIterator) with
      | (None, it) => Done (Some (None, it))
      | (Some this, it) => if descriptor_id this =? fold_on then Done (Some (Some this, it)) else fold_start fuel fold_on it
      end
  end.

Fixpoint fold_end (fuel : nat) (fold_on : Z) (it : DescriptorIterator) : outcome (option (Z * DescriptorIterator)) :=
  match fuel with
  | O => Done None
  | S fuel =>
      h ← get_header it;
      match (h : option DescriptorHeader) with
      | None => Done (Some (it_end it, it))
      | Some header =>
          if descriptor_id header =? fold_on then Done (Some (it_next it, it))
          else r ← desc_next it; fold_end fuel fold_on r.2
      end
  end.

Definition fold_next (fuel : nat) (fold_on : Z) (it : DescriptorIterator) : outcome (option (option DescriptorIterator * DescriptorIterator)) :=
  s ← fold_start fuel fold_on it;
  match (s : option (option DescriptorHeader * DescriptorIterator)) with
  | None => Done None
  | Some (None, it) => Done (Some (None, it))
  | Some (Some start, it) =>
      e ← fold_end fuel fold_on it;
      match (e : option (Z * DescriptorIterator)) with
      | None => Done None
      | Some (e, it) => Done (Some (Some (mkIter (h_off start) e), it))
      end
  end.

(** [DescriptorHeader::as_raw] and [DescriptorHeader::cast]: the bytes from the header on, as long as
    the type that is cast to. *)
Definition as_raw (h : DescriptorHeader) : list Z := slice mem (Z.to_nat (h_off h)) (Z.to_nat (descriptor_len h)).
Definition cast (t : DescTy) (h : DescriptorHeader) : option (list Z) :=
  if descriptor_type t =? descriptor_id h then Some (slice mem (Z.to_nat (h_off h)) (size_of t)) else None.

Inductive BaseDescriptor :=
| BDevice (d : list Z) | BDeviceQualifier (d : list Z) | BConfiguration (d : list Z) | BOtherSpeed (d : list Z) | BInterface (d : list Z)
| BEndpoint (d : list Z).

Definition base_descriptor (h : DescriptorHeader) : outcome (option BaseDescriptor) :=
  if descriptor_id h =? DescriptorType.Device then d ← unwrap (cast DDevice h); Done (Some (BDevice d))
  else if descriptor_id h =? DescriptorType.DeviceQualifier then d ← unwrap (cast DQualifier h); Done (Some (BDeviceQualifier d))
  else if descriptor_id h =? DescriptorType.Configuration then d ← unwrap (cast DConfiguration h); Done (Some (BConfiguration d))
  else if descriptor_id h =? DescriptorType.OtherSpeedConfiguration then d ← unwrap (cast DOtherSpeed h); Done (Some (BOtherSpeed d))
  else if descriptor_id h =? DescriptorType.Interface then d ← unwrap (cast DInterface h); Done (Some (BInterface d))
  else if descriptor_id h =? DescriptorType.Endpoint then d ← unwrap (cast DEndpoint h); Done (Some (BEndpoint d))
  else Done None.

(** A [for] loop over an iterator, and over the iterators of [fold_on]. *)
Fixpoint collect (fuel : nat) (it : DescriptorIterator) : outcome (option (list DescriptorHeader)) :=
  match fuel with
  | O => Done None
  | S fuel =>
      r ← desc_next it;
      match (r : option DescriptorHeader * DescriptorIterator) with
      | (None, _) => Done (Some [])
      | (Some h, it) => t ← collect fuel it; Done ((fun t => h :: t) <$> t)
      end
  end.

Fixpoint collect_fold (fuel : nat) (fold_on : Z) (it : DescriptorIterator) : outcome (option (list (list DescriptorHeader))) :=
  match fuel with
  | O => Done None
  | S fuel =>
      r ← fold_next (S fuel) fold_on it;
      match (r : option (option DescriptorIterator * DescriptorIterator)) with
      | None => Done None
      | Some (None, _) => Done (Some [])
      | Some (Some g, it) =>
          hs ← collect (S fuel) g;
          t ← collect_fold fuel fold_on it;
          Done (match hs, t with Some hs, Some t => Some (hs :: t) | _, _ => None end)
      end
  end.

End Iterators.

(** ** Iteration *)

(** What a device sends: each descriptor starts with its length. *)
Definition wf_desc (d : list Z) : Prop := (2 <= length d)%nat /\ d !! 0%nat = Some (Z.of_nat (length d)).
Definition desc_id (d : list Z) : Z := default 0 (d !! 1%nat).

(** The groups that start with a descriptor of type [t] and go on to the next one. *)
Fixpoint take_until (t : Z) (ds : list (list Z)) : list (list Z) :=
  match ds with [] => [] | d :: ds => if desc_id d =? t then [] else d :: take_until t ds end.
Fixpoint groups (t : Z) (ds : list (list Z)) : list (list (list Z)) :=
  match ds with [] => [] | d :: ds => if desc_id d =? t then (d :: take_until t ds) :: groups t ds else groups t ds end.

Definition others (t : Z) (ds : list (list Z)) : Prop := Forall (fun d => desc_id d <> t) ds.

Lemma groups_skip t a b : others t a -> groups t (a ++ b) = groups t b.
Proof. induction 1 as [|d a Hd _ IH]; [done|]. cbn. by rewrite (proj2 (Z.eqb_neq _ _)). Qed.

Lemma take_until_app t a b : others t a -> (b = [] \/ exists d b', b = d :: b' /\ desc_id d = t) -> take_until t (a ++ b) = a.
Proof.
  induction 1 as [|d a Hd _ IH]; intros Hb; cbn.
  - destruct Hb as [-> |(d & b' & -> & Hd)]; cbn; [done|]. by rewrite Hd, Z.eqb_refl.
  - by rewrite (proj2 (Z.eqb_neq _ _)), IH.
Qed.

Section Walk.
Context (t : Z).

(** The descriptors [ds] follow the bytes [pre] in [mem]. *)
Definition at_ (mem pre : list Z) (ds : list (list Z)) : Prop := exists post, mem = pre ++ concat ds ++ post.
Abbreviation off l := (Z.of_nat (length l)).

Lemma at_shift mem pre d ds : at_ mem pre (d :: ds) -> at_ mem (pre ++ d) ds.
Proof. intros [post ->]. exists post. cbn. by rewrite <- !app_assoc. Qed.

Lemma at_split mem pre a b : at_ mem pre (a ++ b) -> at_ mem (pre ++ concat a) b.
Proof. intros [post ->]. exists post. by rewrite concat_app, <- !app_assoc. Qed.

Lemma at_prefix mem pre a b : at_ mem pre (a ++ b) -> at_ mem pre a.
Proof. intros [post ->]. exists (concat b ++ post). by rewrite concat_app, <- !app_assoc. Qed.

Lemma header_at_ok mem pre d ds : at_ mem pre (d :: ds) -> wf_desc d -> header_at mem (off pre) = Done (mkHeader (off pre) (off d) (desc_id d)).
Proof.
  intros [post ->] [Hl H0]. unfold header_at. rewrite Nat2Z.id. replace (Z.to_nat (off pre + 1)) with (length pre + 1)%nat by lia. rewrite <- (Nat.add_0_r (length pre)) at 1.
  assert (forall k, (k < length d)%nat -> (pre ++ concat (d :: ds) ++ post) !! (length pre + k)%nat = d !! k) as Hk.
  { intros k Hk. rewrite lookup_app_r by lia. replace (length pre + k - length pre)%nat with k by lia. cbn [concat]. rewrite <- app_assoc. by rewrite lookup_app_l. }
  rewrite !Hk by lia. rewrite H0. unfold desc_id. destruct d as [|x [|y d]]; [cbn in Hl; lia..|done].
Qed.

Lemma get_header_ok mem pre d ds e : at_ mem pre (d :: ds) -> wf_desc d -> off pre + off d <= e ->
  get_header mem (mkIter (off pre) e) = Done (Some (mkHeader (off pre) (off d) (desc_id d))).
Proof.
  intros Hm Hd He. unfold get_header. cbn [it_next it_end]. destruct Hd as [Hl H0]. rewrite (proj2 (Z.leb_gt e _)) by lia.
  by rewrite (header_at_ok mem pre d ds Hm ltac:(done)).
Qed.

Lemma desc_next_ok mem pre d ds e : at_ mem pre (d :: ds) -> wf_desc d -> off pre + off d <= e ->
  desc_next mem (mkIter (off pre) e) = Done (Some (mkHeader (off pre) (off d) (desc_id d)), mkIter (off (pre ++ d)) e).
Proof. intros Hm Hd He. unfold desc_next. rewrite (get_header_ok mem pre d ds e) by done. cbn. by rewrite length_app, Nat2Z.inj_add. Qed.

Lemma desc_next_end mem e n : e <= n -> desc_next mem (mkIter n e) = Done (None, mkIter n e).
Proof. intros He. unfold desc_next, get_header. cbn [it_next it_end]. by rewrite (proj2 (Z.leb_le _ _)). Qed.

Lemma off_concat (d : list Z) ds : off (concat (d :: ds)) = off d + off (concat ds).
Proof. cbn. by rewrite length_app, Nat2Z.inj_add. Qed.

(** A loop visits the descriptors one after the other. *)
Lemma collect_ok ds : Forall wf_desc ds -> forall mem pre fuel, at_ mem pre ds -> (length ds < fuel)%nat ->
  exists hs, collect mem fuel (mkIter (off pre) (off pre + off (concat ds))) = Done (Some hs) /\ map (as_raw mem) hs = ds.
Proof.
  induction 1 as [|d ds Hd _ IH]; intros mem pre fuel Hm Hf; (destruct fuel as [|fuel]; [lia|]); cbn [collect].
  { exists []. rewrite desc_next_end by (cbn; lia). done. }
  rewrite off_concat. rewrite (desc_next_ok mem pre d ds) by (done || lia). cbn [mbind outcome_bind].
  destruct (IH mem (pre ++ d) fuel (at_shift _ _ _ _ Hm)) as (hs & Hc & Hr); [cbn in Hf; lia|].
  replace (off pre + (off d + off (concat ds))) with (off (pre ++ d) + off (concat ds)) by (rewrite length_app; lia). rewrite Hc. cbn.
  eexists. split; [done|]. cbn. f_equal; [|done]. unfold as_raw, slice. cbn [h_off descriptor_len]. rewrite !Nat2Z.id. destruct Hm as [post ->].
  rewrite drop_app_length. cbn [concat]. rewrite <- app_assoc. by rewrite take_app_length.
Qed.

Lemma fold_start_ok ds : Forall wf_desc ds -> forall mem pre fuel e, at_ mem pre ds -> e = off pre + off (concat ds) -> (length ds < fuel)%nat ->
  exists a b, ds = a ++ b /\ others t a /\
    ((b = [] /\ exists it, fold_start mem fuel t (mkIter (off pre) e) = Done (Some (None, it))) \/
     exists d b', b = d :: b' /\ desc_id d = t /\
       fold_start mem fuel t (mkIter (off pre) e) = Done (Some (Some (mkHeader (off (pre ++ concat a)) (off d) t), mkIter (off (pre ++ concat a ++ d)) e))).
Proof.
  induction 1 as [|d ds Hd _ IH]; intros mem pre fuel e Hm He Hf; (destruct fuel as [|fuel]; [lia|]); cbn [fold_start].
  { exists [], []. split; [done|]. split; [constructor|]. left. split; [done|]. rewrite desc_next_end by (cbn in He; lia). by eexists. }
  rewrite off_concat in He. rewrite (desc_next_ok mem pre d ds) by (done || lia). cbn [mbind outcome_bind descriptor_id]. destruct (Z.eqb_spec (desc_id d) t) as [Ht|Ht].
  - exists [], (d :: ds). split; [done|]. split; [constructor|]. right. exists d, ds. cbn [concat]. rewrite app_nil_r. cbn [app]. by subst t.
  - destruct (IH mem (pre ++ d) fuel e (at_shift _ _ _ _ Hm)) as (a & b & -> & Ha & Hr); [rewrite length_app; lia|cbn in Hf; lia|].
    exists (d :: a), b. split; [done|]. split; [by constructor|]. cbn [concat]. destruct Hr as [Hr|(d' & b' & -> & Hd' & ->)]; [by left|].
    right. exists d', b'. by rewrite <- !app_assoc.
Qed.

Lemma fold_end_ok ds : Forall wf_desc ds -> forall mem pre fuel e, at_ mem pre ds -> e = off pre + off (concat ds) -> (length ds < fuel)%nat ->
  exists a b, ds = a ++ b /\ others t a /\ (b = [] \/ exists d b', b = d :: b' /\ desc_id d = t) /\
    fold_end mem fuel t (mkIter (off pre) e) = Done (Some (off (pre ++ concat a), mkIter (off (pre ++ concat a)) e)).
Proof.
  induction 1 as [|d ds Hd _ IH]; intros mem pre fuel e Hm He Hf; (destruct fuel as [|fuel]; [lia|]); cbn [fold_end].
  { exists [], []. split; [done|]. split; [constructor|]. split; [by left|]. unfold get_header. cbn [it_next it_end]. rewrite (proj2 (Z.leb_le _ _)) by (cbn in He; lia).
    cbn in He. rewrite app_nil_r. rewrite Z.add_0_r in He. by rewrite He. }
  rewrite off_concat in He. rewrite (get_header_ok mem pre d ds) by (done || lia). cbn [mbind outcome_bind descriptor_id it_next]. destruct (Z.eqb_spec (desc_id d) t) as [Ht|Ht].
  - exists [], (d :: ds). split; [done|]. split; [constructor|]. split; [right; by exists d, ds|]. cbn [concat]. by rewrite app_nil_r.
  - rewrite (desc_next_ok mem pre d ds) by (done || lia). cbn [mbind outcome_bind snd].
    destruct (IH mem (pre ++ d) fuel e (at_shift _ _ _ _ Hm)) as (a & b & -> & Ha & Hb & Hr); [rewrite length_app; lia|cbn in Hf; lia|].
    exists (d :: a), b. split; [done|]. split; [by constructor|]. split; [done|]. cbn [concat]. rewrite <- !app_assoc in Hr. done.
Qed.

Lemma collect_fold_ok fuel : forall ds mem pre, Forall wf_desc ds -> at_ mem pre ds -> (length ds < fuel)%nat ->
  exists gs, collect_fold mem fuel t (mkIter (off pre) (off pre + off (concat ds))) = Done (Some gs) /\ map (map (as_raw mem)) gs = groups t ds.
Proof.
  induction fuel as [|fuel IH]; intros ds mem pre Hwf Hm Hf; [lia|]. cbn [collect_fold]. unfold fold_next.
  destruct (fold_start_ok ds Hwf mem pre (S fuel) _ Hm eq_refl Hf) as (a & b & -> & Ha & [[-> [it ->]]|(d & b' & -> & Hd & ->)]); cbn [mbind outcome_bind].
  { exists []. split; [done|]. rewrite groups_skip by done. done. }
  rewrite length_app in Hf. cbn [length] in Hf. apply Forall_app in Hwf as [Hwa Hwf]. apply Forall_cons in Hwf as [Hwd Hwf].
  apply at_split in Hm. assert (at_ mem (pre ++ concat a ++ d) b') as Hm2. { apply at_shift in Hm. by rewrite <- app_assoc in Hm. }
  set (e := off pre + off (concat (a ++ d :: b'))). assert (e = off (pre ++ concat a ++ d) + off (concat b')) as He.
  { subst e. rewrite concat_app. cbn [concat]. rewrite !length_app. lia. }
  destruct (fold_end_ok b' Hwf mem (pre ++ concat a ++ d) (S fuel) e Hm2 He) as (g & r & -> & Hg & Hr & ->); [lia|]. cbn [mbind outcome_bind h_off].
  apply Forall_app in Hwf as [Hwg Hwr]. rewrite length_app in Hf.
  pose proof (at_prefix mem (pre ++ concat a) (d :: g) r Hm) as Hm3. apply at_split in Hm2.
  destruct (collect_ok (d :: g) ltac:(by constructor) mem (pre ++ concat a) (S fuel) Hm3) as (hs & Hc & Hrw); [cbn; lia|].
  replace (off (pre ++ concat a) + off (concat (d :: g))) with (off ((pre ++ concat a ++ d) ++ concat g)) in Hc by (cbn [concat]; rewrite !length_app; lia).
  rewrite Hc. cbn [mbind outcome_bind]. destruct (IH r mem ((pre ++ concat a ++ d) ++ concat g) Hwr Hm2) as (gs & Hgs & Hgr); [lia|].
  replace e with (off ((pre ++ concat a ++ d) ++ concat g) + off (concat r)) by (rewrite He, concat_app, !length_app; lia). rewrite Hgs. cbn [mbind outcome_bind].
  eexists. split; [done|]. rewrite groups_skip by done. cbn [groups]. rewrite Hd, Z.eqb_refl, take_until_app by done. cbn [map]. rewrite Hrw, Hgr. f_equal. by rewrite groups_skip.
Qed.

End Walk.

(** The fields of a configuration descriptor at the start of more bytes. *)
Lemma configuration_field_app cfg rest n o k : length cfg = 9%nat -> offset_of configuration_fields n = Some (o, k) -> (o + k <= 9)%nat ->
  field_val configuration_fields (cfg ++ rest) n = field_val configuration_fields cfg n.
Proof.
  intros Hl Ho Hk. unfold field_val, field_bytes. rewrite Ho. unfold slice. rewrite drop_app_le by lia. by rewrite take_app_le by (rewrite length_drop; lia).
Qed.

(** What the configuration iterators yield.  For the bytes of a configuration as a device sends
    them, the configuration descriptor followed by any well-formed descriptors, with its lengths
    right: iterating visits exactly those descriptors, in order, with their bytes; and [fold_on] gives
    for every descriptor of the asked type, in order, the run of descriptors from it up to the next
    one of that type.  Both end, and nothing outside of the bytes is read. *)
Theorem descriptors_grouped cfg ds t fuel :
  length cfg = 9%nat -> Forall wf_desc ds -> field_val configuration_fields cfg "length" = 9 ->
  field_val configuration_fields cfg "total_length" = 9 + Z.of_nat (length (concat ds)) -> (length ds < fuel)%nat ->
  let mem := cfg ++ concat ds in
  exists hs gs, collect mem fuel (iter mem) = Done (Some hs) /\ map (as_raw mem) hs = ds /\
    collect_fold mem fuel t (iter mem) = Done (Some gs) /\ map (map (as_raw mem)) gs = groups t ds.
Proof.
  intros Hl Hwf H1 H2 Hf. cbn zeta. set (mem := cfg ++ concat ds).
  assert (at_ mem cfg ds) as Hm by (exists []; by rewrite app_nil_r).
  assert (iter mem = mkIter (Z.of_nat (length cfg)) (Z.of_nat (length cfg) + Z.of_nat (length (concat ds)))) as ->.
  { unfold iter. rewrite Hl. change (Z.of_nat (struct_size configuration_fields)) with 9. unfold mem.
    rewrite (configuration_field_app cfg _ "length" 0 1), (configuration_field_app cfg _ "total_length" 2 2) by (done || lia). rewrite H1, H2. f_equal. lia. }
  destruct (collect_ok ds Hwf mem cfg fuel Hm Hf) as (hs & Hc & Hr). destruct (collect_fold_ok t fuel ds mem cfg Hwf Hm Hf) as (gs & Hg & Hgr).
  by exists hs, gs.
Qed.

(** A descriptor that claims to be empty stops every loop: the iterator does not move. *)
Theorem empty_descriptor_stuck mem o i e : mem !! Z.to_nat o = Some 0 -> mem !! Z.to_nat (o + 1) = Some i -> o < e ->
  forall fuel, collect mem fuel (mkIter o e) = Done None.
Proof.
  intros H0 H1 He. assert (desc_next mem (mkIter o e) = Done (Some (mkHeader o 0 i), mkIter o e)) as Hn.
  { unfold desc_next, get_header, header_at. cbn [it_next it_end]. rewrite (proj2 (Z.leb_gt _ _)) by lia. rewrite H0, H1. cbn. by rewrite Z.add_0_r. }
  induction fuel as [|fuel IH]; [done|]. cbn [collect]. rewrite Hn. cbn [mbind outcome_bind]. by rewrite IH.
Qed.

(** An endpoint descriptor is seven bytes long; the structure has eight and wants even addresses. *)
Theorem endpoint_size : size_of DEndpoint = 8%nat /\ struct_align endpoint_fields = 2%nat /\ forall d, length d = 7%nat -> from_raw DEndpoint d = None.
Proof. split; [done|]. split; [done|]. intros d Hd. unfold from_raw. by rewrite Hd. Qed.

(** Version 2.0 is shown as 0.0.2. *)
Theorem bcd_display_swapped : bcd_display 0x0200 = [0; 0; 2].
Proof. done. Qed.

(** Of the kinds of synchronisation only the first survives the conversion. *)
Theorem synchronisation_wrong s : synchronisation_from (synchronisation_u8 s) = Done s <-> s = NoSynchronisation.
Proof. by destruct s. Qed.

(** ** The bytes of the requests *)
Section Requests.
Context `{BO : BitFieldOps} {BL : BitFieldLaws}.

Lemma bits_above_8 v i : 0 <= v < 256 -> 8 <= i -> Z.testbit v i = false.
Proof. intros Hv Hi. rewrite <- (Z.mod_small v (2 ^ 8)) by (cbn; lia). apply Z.mod_pow2_bits_high. lia. Qed.

(** The first byte of a request: recipient, type and direction. *)
Lemma header_byte r t b : data_direction (target_type (recipent 0 r) t) b = recipient_u8 r + 32 * request_type_u8 t + 128 * Z.b2z b.
Proof using BL.
  apply Z.bits_inj'. intros i Hi. unfold data_direction, put_bit, target_type, recipent. rewrite !set_bit_range_bits by lia.
  destruct (decide (i < 8)) as [Hlt|Hge].
  - assert (i = 0 \/ i = 1 \/ i = 2 \/ i = 3 \/ i = 4 \/ i = 5 \/ i = 6 \/ i = 7) as Hc by lia. destruct r, t, b; destruct_or! Hc; subst i; reflexivity.
  - rewrite (bits_above_8 (recipient_u8 r + _ + _)) by (destruct r, t, b; cbn; lia). rewrite (proj2 (Z.leb_gt i 7)), (proj2 (Z.leb_gt i 6)), (proj2 (Z.leb_gt i 4)) by lia.
    rewrite !andb_false_r. apply Z.bits_0.
Qed.

Lemma header_in b : data_direction 0 b = 128 * Z.b2z b.
Proof using BL.
  apply Z.bits_inj'. intros i Hi. unfold data_direction, put_bit. rewrite set_bit_range_bits by lia. destruct (decide (i < 8)).
  - assert (i = 0 \/ i = 1 \/ i = 2 \/ i = 3 \/ i = 4 \/ i = 5 \/ i = 6 \/ i = 7) as Hc by lia. destruct b; destruct_or! Hc; subst i; reflexivity.
  - rewrite (bits_above_8 (128 * _)) by (destruct b; cbn; lia). rewrite (proj2 (Z.leb_gt i 7)) by lia. rewrite andb_false_r. apply Z.bits_0.
Qed.

Lemma header_to r b : recipent (128 * Z.b2z b) r = recipient_u8 r + 128 * Z.b2z b.
Proof using BL.
  apply Z.bits_inj'. intros i Hi. unfold recipent. rewrite set_bit_range_bits by lia. destruct (decide (i < 8)).
  - assert (i = 0 \/ i = 1 \/ i = 2 \/ i = 3 \/ i = 4 \/ i = 5 \/ i = 6 \/ i = 7) as Hc by lia. destruct r, b; destruct_or! Hc; subst i; reflexivity.
  - rewrite (bits_above_8 (128 * _)), (bits_above_8 (recipient_u8 r + _)) by (destruct r, b; cbn; lia). by rewrite (proj2 (Z.leb_gt i 4)), andb_false_r by lia.
Qed.

(** The requests as the USB specification has them on the wire. *)
Theorem request_bytes i l a f r n :
  to_bytes (get_descriptor QDevice i l) = [0x80; 6; 0; 1; 0; 0] ++ le_bytes 2 (default 18 l) /\
  (0 <= i < 256 -> to_bytes (get_descriptor QConfiguration i l) = [0x80; 6; i; 2; 0; 0] ++ le_bytes 2 (default 9 l)) /\
  (0 <= a < 128 -> to_bytes <$> set_address a = Done [0; 5; a; 0; 0; 0; 0; 0]) /\
  (128 <= a -> set_address a = Panic) /\
  (0 <= a < 256 -> to_bytes (UsbProto.set_configuration a) = [0; 9; a; 0; 0; 0; 0; 0]) /\
  to_bytes get_configuration = [0x80; 8; 0; 0; 0; 0; 1; 0] /\
  (r <> ROther -> to_bytes <$> set_feature r f n = Done ([recipient_u8 r; 3] ++ le_bytes 2 f ++ le_bytes 2 n ++ [0; 0])) /\
  to_bytes (set_interface n a) = [1; 11] ++ le_bytes 2 a ++ le_bytes 2 n ++ [0; 0].
Proof using BL.
  assert (forall x, 0 <= x < 256 -> le_bytes 2 x = [x; 0]) as Hle.
  { intros x Hx. cbn. rewrite Z.mod_small by lia. rewrite Z.div_small by lia. done. }
  assert (forall x y, 0 <= x < 256 -> 0 <= y < 256 -> le_bytes 2 (of_le [x; y]) = [x; y]) as Hle2.
  { intros x y Hx Hy. cbn. rewrite Z.mul_0_r, Z.add_0_r. replace ((x + 256 * y) mod 256) with x by (rewrite (Z.mul_comm 256), Z_mod_plus_full, Z.mod_small by lia; done).
    replace ((x + 256 * y) / 256) with y by (rewrite (Z.mul_comm 256), Z_div_plus_full, Z.div_small by lia; lia). by rewrite Z.mod_small by lia. }
  assert (forall r, recipent 0 r = recipient_u8 r) as Hr. { intros r'. pose proof (header_to r' false) as Hh. cbn [Z.b2z] in Hh. rewrite Z.mul_0_r, Z.add_0_r in Hh. done. }
  unfold to_bytes, get_descriptor, get_configuration, set_address, UsbProto.set_configuration, set_feature, set_interface. rewrite !header_in, !Hr. cbn [request_type request value index length_ Z.b2z app].
  split_and!.
  - by rewrite Hle2.
  - intros Hi. by rewrite Hle2.
  - intros Ha. rewrite (proj2 (Z.ltb_lt _ _)) by lia. cbn -[le_bytes]. by rewrite Hle by lia.
  - intros Ha. by rewrite (proj2 (Z.ltb_ge _ _)) by lia.
  - intros Ha. by rewrite Hle by lia.
  - done.
  - intros Hne. by rewrite bool_decide_eq_false_2 by done.
  - done.
Qed.

(** The endpoint whose halt is to be cleared is not sent, and the frame of an endpoint is asked from
    an interface. *)
Theorem request_recipients_wrong f e : to_bytes <$> clear_feature REndpoint f = Done ([2; 1] ++ le_bytes 2 f ++ [0; 0; 0; 0]) /\
  to_bytes (synch_frame e) = [0x81; 12; 0; 0] ++ le_bytes 2 e ++ [2; 0].
Proof using BL.
  assert (recipent 0 REndpoint = 2) as Hr by (pose proof (header_to REndpoint false) as Hh; done). unfold clear_feature, synch_frame. rewrite header_in, Hr, header_to. done.
Qed.

End Requests.

