(* ===== verification/UsbDevice.v ===== *)
(** * USB devices

    [drivers/usb/src/ehci/device.rs]: the control interface that a device driver acquires
    ([UsbDevCtl]), the set-up of endpoints, the search for a class and the configuration file of a
    device, and the directory of a device.

    A command on the control pipe goes its way through [EhciQueue]: [setup_transaction] builds the three descriptors in DMA
    memory, [append_cmd_string] puts them into the queue, and [check_state] finds them completed.  What the
    controller and the device do in between is the class [UsbBus]; it also tells where buffers lie in physical memory.  The laws of
    [StandardDevice] are how a controller carries out the descriptors of a request for a descriptor, and how a device answers it.  The
    mutex around the endpoints is the flag [ep_guard]; [None] is a call that waits for ever. *)
From Stdlib Require Import String.
From stdpp Require Import prelude gmap.
From S2P Require Import Prelude Bytes Files HighOrder FrameAlloc VirtFixup Dma BitField Ehci EhciQueue EhciSched UsbProto.
Open Scope list_scope.
Open Scope Z_scope.

(** [bus_run] gives the head of a queue, the descriptors and the data buffer when the controller has done what it can with them; the request is the
    eight bytes of the setup buffer.  [request_at] and [buffer_at] are the regions of a setup buffer and of a buffer of some length. *)
Class UsbBus (D : Type) := {
  request_at : D -> list PhysicalRegionDescription;
  buffer_at : D -> nat -> list PhysicalRegionDescription;
  bus_run : QueueHead -> gmap Z Qtd -> list Z -> list Z -> D -> QueueHead * gmap Z Qtd * list Z * D }.

(** The queue that [ctl_endpoint] refers to, the memory of its descriptors, and the device. *)
Record Pipe (D : Type) := mkUsbPipe { p_queue : EndpointQueue; p_mem : DmaMem; p_dev : D }.
Arguments mkUsbPipe {D}.
Arguments p_queue {D}.
Arguments p_mem {D}.
Arguments p_dev {D}.

(** Code behind an [await]. *)
Definition await {A B} (m : outcome (option A)) (k : A -> outcome (option B)) : outcome (option B) :=
  x ← m; match (x : option A) with None => Done None | Some a => k a end.
Notation "'await!' x ':=' m 'in' k" := (await m (fun x => k)) (at level 10, x name, m at level 100, k at level 200).

(** [UsbDeviceAccessor]; the queue of [ctl_endpoint] is in the [Pipe].  [endpoints] are the fifteen places for queues, [ep_guard] tells whether
    their mutex is locked, [driver] is the directory of the driver, [has_controller] whether the
    controller is still there. *)
Record Accessor := mkAcc {
  acc_address : DeviceAddress; endpoints : list (option Z); ep_guard : bool; driver : option (list string);
  configurations : Z; has_controller : bool }.

Definition set_endpoints l a := mkAcc (acc_address a) l (ep_guard a) (driver a) (configurations a) (has_controller a).
Definition set_guard b a := mkAcc (acc_address a) (endpoints a) b (driver a) (configurations a) (has_controller a).
Definition set_driver d a := mkAcc (acc_address a) (endpoints a) (ep_guard a) d (configurations a) (has_controller a).

(** [UsbDeviceFile::acquire_ctl]; [None] is an accessor that is gone. *)
Definition acquire_ctl (dir : list string) (acc : option Accessor) : result unit IoError * option Accessor :=
  match acc with
  | None => (Err NotPresent, acc)
  | Some a =>
      if ep_guard a then (Err Busy, acc)
      else match driver a with
           | Some _ => (Err AlreadyExists, acc)
           | None => (Ok tt, Some (set_guard true (set_driver (Some dir) a)))
           end
  end.

(** The directory of a device; a driver adds its own files. *)
Definition dev_entries (acc : option Accessor) : outcome nat :=
  a ← unwrap acc; Done (from_option length 0 (driver a) + 2)%nat.
Definition dev_file_list (acc : option Accessor) : outcome (list string) :=
  a ← unwrap acc; Done (from_option id [] (driver a) ++ ["configuration"; "class"]%string).

Inductive DevFile := ThisDir | Controller_ | ConfigurationIo | ClassFinder | DriverFile (name : string).
Definition dev_get_file (name : string) (acc : option Accessor) : result DevFile IoError :=
  if bool_decide (name = ".")%string then Ok ThisDir
  else if bool_decide (name = "..")%string then Ok Controller_
  else if bool_decide (name = "configuration")%string then Ok ConfigurationIo
  else if bool_decide (name = "class")%string then Ok ClassFinder
  else match acc with
       | None => Err NotPresent
       | Some a => match driver a with Some l => if bool_decide (name ∈ l) then Ok (DriverFile name) else Err NotPresent | None => Err NotPresent end
       end.

(** [Vec::resize] with zeros. *)
Definition resize (n : nat) (l : list Z) : list Z := take n l ++ replicate (n - length l) 0.

Module DescriptorBitmap.
Definition DEVICE : Z := 1.
Definition INTERFACE : Z := bit 1.
Definition MATCH_CLASS : Z := bit 7.
Definition MATCH_SUBCLASS : Z := bit 6.
Definition all : Z := any_of [DEVICE; INTERFACE; MATCH_CLASS; MATCH_SUBCLASS].
End DescriptorBitmap.
Import DescriptorBitmap.

Section Device.
Context {D : Type} `{UsbBus D} {BO : BitFieldOps} {FO : FlagOps}.
Implicit Types d : Pipe D.

(** [append_cmd_string(setup_transaction(..)).await.complete()]: the buffer, the length that was transferred and the
    state.  [None]: the interrupt of the controller does not find the transfer completed. *)
Definition ctl_cmd (t : CtlTransfer) (data : option (list Z * PidCode)) (d : Pipe D) : outcome (option (list Z * nat * result UsbError unit * Pipe D)) :=
  let setup := mkBuf (Z.of_nat (length (to_bytes t))) (request_at (p_dev d)) (to_bytes t) in
  let payload := (fun x : list Z * PidCode => (mkBuf (Z.of_nat (length x.1)) (buffer_at (p_dev d) (length x.1)) x.1, x.2)) <$> data in
  r ← setup_transaction setup payload (p_mem d);
  let '(ts, m) := (r : TransactionString * DmaMem) in
  r ← append_cmd_string (p_queue d) ts m;
  let '(q, m) := (r : EndpointQueue * DmaMem) in
  let '(h, l, b, dev) := bus_run (q_headp q) (qtds m) (to_bytes t) (from_option fst [] data) (p_dev d) in
  let m := mkDma l (supply m) in
  r ← check_state (with_head h q) m;
  let '(_, q, completed) := (r : bool * EndpointQueue * list StringCompletion) in
  Done (match work q, last completed with [], Some c => Some (b, Z.to_nat (c_len c), c_state c, mkUsbPipe q m dev) | _, _ => None end).

(** [from_bits] and [complement] of the flags. *)
Definition from_bits (b : Z) : option Z := if flag_truncate all b =? b then Some b else None.
Definition complement (f : Z) : Z := flag_truncate all (255 - f).

(** The length of the range [0..n] of the class bytes to compare. *)
Definition class_len (f : Z) : nat :=
  if negb (contains f MATCH_CLASS) && negb (contains f MATCH_SUBCLASS) then 3
  else if negb (contains f MATCH_CLASS) && contains f MATCH_SUBCLASS then 2
  else if contains f MATCH_CLASS && negb (contains f MATCH_SUBCLASS) then 1
  else 0.

(** The macro [get_descriptor_full]: 255 bytes are asked for, what came is kept. *)
Definition get_descriptor_full (r : Requestable) (index : Z) (d : Pipe D) : outcome (option (option (list Z) * Pipe D)) :=
  await! x := ctl_cmd (UsbProto.get_descriptor r index (Some 255)) (Some (replicate 255 0, In)) d in
  let '(buf, len, st, d) := x in
  Done (Some (match st with Ok _ => Some (take len buf) | Err _ => None end, d)).

(** The loop over the descriptors of a configuration: the filter lets device descriptors through, and
    only interface descriptors are expected behind it.  [None] is a loop that does not end. *)
Fixpoint class_loop (fuel : nat) (cfg : list Z) (flags : Z) (class : list Z) (it : DescriptorIterator) : outcome (option bool) :=
  match fuel with
  | O => Done None
  | S fuel =>
      r ← desc_next cfg it;
      match (r : option DescriptorHeader * DescriptorIterator) with
      | (None, _) => Done (Some false)
      | (Some h, it) =>
          match cast cfg DDevice h with
          | None => class_loop fuel cfg flags class it
          | Some _ =>
              b ← base_descriptor cfg h;
              match (b : option BaseDescriptor) with
              | Some (BInterface i) =>
                  if contains flags INTERFACE && bool_decide (take (class_len flags) (interface_class i) = take (class_len flags) class) then Done (Some true)
                  else class_loop fuel cfg flags class it
              | _ => Panic
              end
          end
      end
  end.

Definition write_two (buff : list Z) (a b : Z) : outcome (list Z) :=
  assert_that (Nat.leb 2 (length buff));; Done (a :: b :: drop 2 buff).

(** The loop over the configurations.  The outer [None] is a loop over descriptors that does not end. *)
Fixpoint class_configs (fuel : nat) (flags : Z) (class : list Z) (buff : list Z) (cs : list Z) (d : Pipe D) :
    outcome (option (result (list Z * nat) (IoError * list Z * nat) * Pipe D)) :=
  match cs with
  | [] => Done (Some (Ok (buff, 0%nat), d))
  | c :: cs =>
      await! x := get_descriptor_full QConfiguration c d in
      match x with
      | (None, d) => Done (Some (Err (MediaError, buff, 0%nat), d))
      | (Some cfg, d) =>
          match from_raw DConfiguration cfg with
          | None => Done (Some (Err (MediaError, buff, 0%nat), d))
          | Some _ =>
              found ← class_loop fuel cfg flags class (UsbProto.iter cfg);
              match (found : option bool) with
              | None => Done None
              | Some true => b ← write_two buff c INTERFACE; Done (Some (Ok (b, 2%nat), d))
              | Some false => class_configs fuel flags class buff cs d
              end
          end
      end
  end.

(** [Read] of [ClassFinderFle]. *)
Definition class_read (fuel : nat) (alive : bool) (pos : Z) (buff : list Z) (d : Pipe D) : outcome (option (result (list Z * nat) (IoError * list Z * nat) * Pipe D)) :=
  match le_bytes 8 pos with
  | [c0; c1; c2; bmp; z0; z1; z2; z3] =>
      if default 0 (from_bits bmp) =? 0 then Done (Some (Err (InvalidData, buff, 0%nat), d))
      else if negb ((z0 =? 0) && (z1 =? 0) && (z2 =? 0) && (z3 =? 0)) then Done (Some (Err (EndOfFile, buff, 0%nat), d))
      else
        let class := [c0; c1; c2] in
        flags ← unwrap (from_bits bmp);
        if negb alive then Done (Some (Err (NotPresent, buff, 0%nat), d)) else
        await! x := get_descriptor_full QDevice 0 d in
        match x with
        | (None, d) => Done (Some (Err (MediaError, buff, 0%nat), d))
        | (Some raw, d) =>
            match from_raw DDevice raw with
            | None => Done (Some (Err (MediaError, buff, length buff), d))
            | Some desc =>
                if bool_decide (take (class_len flags) (device_class desc) = take (class_len flags) class) && contains flags DEVICE then
                  b ← write_two buff 0 1; Done (Some (Ok (b, 2%nat), d))
                else if negb (contains flags (complement DEVICE)) then Done (Some (Ok (buff, 0%nat), d))
                else class_configs fuel flags class buff (seqZ 0 (field_val device_fields desc "num_configurations")) d
            end
        end
  | _ => Panic
  end.

(** [Read] of [ConfigurationIo]: the request is chosen by the position. *)
Definition config_command (configs pos : Z) (len : nat) : option CtlTransfer :=
  let n := if Z.of_nat len <? 2 ^ 16 then Z.of_nat len else 255 in
  let b0 := pos mod 256 in
  let b1 := pos / 256 mod 256 in
  if (b0 =? 0) && (b1 =? DescriptorType.Device) then Some (UsbProto.get_descriptor QDevice 0 (Some n))
  else if (b0 =? 0) && (b1 =? DescriptorType.DeviceQualifier) then Some (UsbProto.get_descriptor QQualifier 0 (Some n))
  else if (b1 =? DescriptorType.Configuration) && (b0 <? configs) then Some (UsbProto.get_descriptor QConfiguration b0 (Some n))
  else if (b1 =? DescriptorType.OtherSpeedConfiguration) && (b0 <? configs) then Some (UsbProto.get_descriptor QOtherSpeed b0 (Some n))
  else if pos =? 0 then Some get_configuration
  else None.

Definition config_read (acc : option Accessor) (pos : Z) (buff : list Z) (d : Pipe D) : outcome (option (result (list Z * nat) (IoError * list Z * nat) * Pipe D)) :=
  match acc with
  | None => Done (Some (Err (NotPresent, buff, 0%nat), d))
  | Some a =>
      match config_command (configurations a) pos (length buff) with
      | None => Done (Some (Err (EndOfFile, buff, 0%nat), d))
      | Some cmd =>
          if (pos =? 0) && Nat.eqb (length buff) 0 then Done (Some (Ok (buff, 0%nat), d)) else
          await! x := ctl_cmd cmd (Some (buff, In)) d in
          let '(buff, len, st, d) := x in
          Done (Some (match st with
                      | Err _ => Err (MediaError, buff, len)
                      | Ok _ => Ok (buff, if negb (pos =? 0) then len else 1%nat)
                      end, d))
      end
  end.

(** ** [UsbDevCtl] *)

Definition get_descriptor (alive : bool) (r : Requestable) (index : Z) (d : Pipe D) : outcome (option (result (list Z) IoError * Pipe D)) :=
  let buffer := replicate (size_of (requestable r)) 0 in
  let command := UsbProto.get_descriptor r index (Some (Z.of_nat (length buffer) mod 2 ^ 16)) in
  if negb alive then Done (Some (Err NotPresent, d)) else
  await! x := ctl_cmd command (Some (buffer, In)) d in
  let '(b, _, st, d) := x in
  match st with
  | Err _ => Done (Some (Err MediaError, d))
  | Ok _ =>
      b2 ← unwrap (b !! 2%nat);
      b3 ← unwrap (b !! 3%nat);
      let op_len := of_le [b2; b3] in
      await! x := ctl_cmd (UsbProto.get_descriptor r index (Some op_len)) (Some (resize (Z.to_nat op_len) b, In)) d in
      let '(b, _, st, d) := x in
      match st with
      | Err _ => Done (Some (Err MediaError, d))
      | Ok _ => t ← unwrap (b !! 1%nat); Done (Some (if t =? descriptor_type (requestable r) then Ok b else Err MediaError, d))
      end
  end.

Definition set_configuration (acc : option Accessor) (configuration : Z) (d : Pipe D) : outcome (option (result unit IoError * Pipe D)) :=
  match acc with
  | None => Done (Some (Err NotPresent, d))
  | Some a =>
      if configurations a <? configuration then Done (Some (Err InvalidData, d))
      else
        await! x := ctl_cmd (UsbProto.set_configuration configuration) None d in
        let '(_, _, st, d) := x in
        Done (Some (match st with Ok _ => Ok tt | Err _ => Err MediaError end, d))
  end.

Definition send_command (alive : bool) (command : CtlTransfer) (buffer : option (list Z)) (d : Pipe D) : outcome (option (option (list Z) * result nat IoError * Pipe D)) :=
  if negb alive then Done (Some (buffer, Err NotPresent, d)) else
  let buffer_present := match buffer with Some _ => true | None => false end in
  if eqb (ctl_data_len command =? 0) buffer_present then Done (Some (buffer, Err InvalidData, d))
  else
    let pid := if is_rx_command command then In else Out in
    await! x := ctl_cmd command ((fun b => (b, pid)) <$> buffer) d in
    let '(b, len, st, d) := x in
    r ← match st with
        | Ok RecoveredError => Done (Ok len)
        | Ok UsbOk => Done (Ok len)
        | Err _ => Done (Err MediaError)
        | Ok Halted => Panic
        end;
    Done (Some (if buffer_present then Some b else None, r, d)).

(** The world of a driver: the accessor, the controller and the memory of the transfers. *)
Record World := mkWorld { w_acc : option Accessor; w_ctl : Controller; w_mem : DmaMem }.

Definition endpoint_pid (tt_ : EndpointTransferType) (address : Z) : PidCode :=
  if bool_decide (tt_ = UsbProto.Control) then EhciQueue.Control else if in_endpoint address then In else Out.

(** [setup_endpoint]: the head of the new queue is boxed at [qaddr].  A queue that was made for a number
    that is taken is dropped again. *)
Definition setup_endpoint (qaddr : Z) (desc : list Z) (w : World) : outcome (result Z IoError * World) :=
  match w_acc w with
  | None => Done (Err NotPresent, w)
  | Some a =>
      let address := field_val endpoint_fields desc "endpoint_address" in
      let n := ep_number address in
      tt_ ← transfer_type (field_val endpoint_fields desc "attributes");
      let pid := endpoint_pid tt_ address in
      let dt_ctl := bool_decide (pid = EhciQueue.Control) in
      let target := mkUTarget (acc_address a) n in
      let size := max_packet_size (field_val endpoint_fields desc "max_packet_size") in
      ep ← match tt_ with
           | Bulk | UsbProto.Control => r ← new_async target pid size dt_ctl (w_mem w); Done (Some (r.1, None, r.2))
           | Interrupt =>
               let rate := 2 ^ ((field_val endpoint_fields desc "interval" - 1) mod 2 ^ 8 mod 32) in
               r ← new_periodic target pid size rate (w_mem w); Done (Some (r.1.1, Some r.1.2, r.2))
           | Isochronous => Done None
           end;
      match (ep : option (EndpointQueue * option Z * DmaMem)) with
      | None => Done (Err InvalidData, w)
      | Some (q, rate, m) =>
          slot ← unwrap (endpoints a !! Z.to_nat n);
          match slot with
          | Some _ => Done (Err AlreadyExists, w)
          | None =>
              let a := set_endpoints (<[Z.to_nat n := Some qaddr]> (endpoints a)) a in
              if negb (has_controller a) then Done (Err NotPresent, mkWorld (Some a) (w_ctl w) m) else
              let c := with_queues (<[qaddr := q]> (queues (w_ctl w))) (w_ctl w) in
              match rate with
              | None => c ← insert_into_async c qaddr; Done (Ok qaddr, mkWorld (Some a) c m)
              | Some rate =>
                  r ← insert_into_periodic c [(qaddr, rate)];
                  Done (match r.1 with Ok _ => Ok qaddr | Err _ => Err MediaError end, mkWorld (Some a) r.2 m)
              end
          end
      end
  end.

Definition endpoint_of (n : Z) (a : Accessor) : outcome (option Z) := unwrap (endpoints a !! Z.to_nat n).

(** [shutdown_inner], called by the holder of the guard of [endpoints], who locks the mutex again. *)
Definition shutdown_inner (w : World) (d : Pipe D) : outcome (option (World * Pipe D)) :=
  match w_acc w with
  | None => Done (Some (w, d))
  | Some a =>
      await! x := ctl_cmd (UsbProto.set_configuration 0) None d in
      let '(_, _, _, d) := x in
      if negb (has_controller a) then Done (Some (w, d))
      else if ep_guard a then Done None
      else c ← drop_endpoints (w_ctl w) (omap id (endpoints a)); Done (Some (mkWorld (w_acc w) c (w_mem w), d))
  end.

Definition shutdown (w : World) (d : Pipe D) : outcome (option (World * Pipe D)) :=
  await! x := shutdown_inner w d in
  let '(w, d) := x in
  Done (Some (mkWorld ((fun a => set_guard false (set_endpoints ((fun _ => None) <$> endpoints a) a)) <$> w_acc w) (w_ctl w) (w_mem w), d)).

(** [Drop]: the guard is released and the endpoints stay. *)
Definition drop_ctl (w : World) (d : Pipe D) : outcome (option (World * Pipe D)) :=
  match w_acc w with
  | None => Done (Some (w, d))
  | Some _ =>
      await! x := shutdown_inner w d in
      let '(w, d) := x in
      Done (Some (mkWorld (set_guard false <$> w_acc w) (w_ctl w) (w_mem w), d))
  end.

(** [UsbDeviceAccessor::insert_into_controller]: the accessor of a new device. *)
Definition attach (address : DeviceAddress) (d : Pipe D) : outcome (option (Accessor * Pipe D)) :=
  await! x := ctl_cmd (UsbProto.get_descriptor QDevice 0 (Some 8)) (Some (replicate 8 0, In)) d in
  let '(buffer, n, st, d) := x in
  match st with
  | Err _ => Panic
  | Ok _ =>
      assert_that (Nat.eqb n 8);;
      assert_that (Nat.eqb (length buffer) 8);;
      size ← unwrap (UsbProto.packet_size buffer);
      r ← update_transaction_len (p_queue d) size (p_mem d);
      unwrap (result_ok r.1);;
      await! x := ctl_cmd (UsbProto.get_descriptor QDevice 0 (Some 18)) (Some (replicate (size_of DDevice) 0, In)) (mkUsbPipe r.2 (p_mem d) (p_dev d)) in
      let '(raw, _, st, d) := x in
      match st with
      | Err _ => Panic
      | Ok _ =>
          desc ← unwrap (from_raw DDevice raw);
          Done (Some (mkAcc address (replicate 15 None) false None (field_val device_fields desc "num_configurations") true, d))
      end
  end.

End Device.

(** ** A device that answers *)

(** Buffers of at most a page lie in one page, as the blocks of the heap do.  What the EHCI and USB specifications promise of [GET_DESCRIPTOR]: when a queue head is
    at the three descriptors of a control transfer to a buffer, the controller sends the request, the device sends its descriptor, as far as it was
    asked for, into the start of the buffer, the controller retires the descriptors without errors, with the number of bytes that did not come in the second, and stays at the last;
    the device keeps the same descriptors. *)
Class StandardDevice (D : Type) `{UsbBus D} `{BitFieldOps} := {
  descriptor_of : D -> Requestable -> Z -> option (list Z);
  std_request : forall d, exists a, request_at d = [mkRegion a 8] /\ one_page a 8;
  std_buffer : forall d n, (0 < n <= 4096)%nat -> exists a, buffer_at d n = [mkRegion a (Z.of_nat n)] /\ one_page a (Z.of_nat n);
  std_answer : forall d h l a1 a2 a3 sa pa r i buf desc, descriptor_of d r i = Some desc -> 0 <= i < 256 -> (0 < length buf <= 4096)%nat ->
    link_end (next_pointer h) = false -> get_address (next_pointer h) = a1 ->
    request_at d = [mkRegion sa 8] -> buffer_at d (length buf) = [mkRegion pa (Z.of_nat (length buf))] -> control_in l a1 a2 a3 sa pa (Z.of_nat (length buf)) ->
    exists h' q1 q2 q3 d', bus_run h l (to_bytes (UsbProto.get_descriptor r i (Some (Z.of_nat (length buf))))) buf d =
        (h', <[a3 := q3]> (<[a2 := q2]> (<[a1 := q1]> l)), take (length buf) desc ++ drop (length desc) buf, d') /\
      retired q1 0 /\ retired q2 (Z.of_nat (length buf - length desc)) /\ retired q3 0 /\ current_qtd h' = a3 /\ ctl0 h' = ctl0 h /\
      forall r i, descriptor_of d' r i = descriptor_of d r i }.

(** ** Theorems *)

(** A field of the first bytes of a descriptor. *)
Lemma field_val_take fs n l name o k : offset_of fs name = Some (o, k) -> (o + k <= n)%nat -> field_val fs (take n l) name = field_val fs l name.
Proof.
  intros Ho Hk. unfold field_val, field_bytes. rewrite Ho. unfold slice. replace n with (o + (n - o))%nat by lia. rewrite <- take_drop_commute, take_take. by rewrite Nat.min_l by lia.
Qed.

Section DeviceLaws.
Context {D : Type} `{UsbBus D} `{BO : BitFieldOps} {BL : BitFieldLaws} `{FO : FlagOps} {FL : FlagLaws} `{!StandardDevice D}.
Implicit Types d : Pipe D.

Definition same_device (d d' : Pipe D) : Prop := forall r i, descriptor_of (p_dev d') r i = descriptor_of (p_dev d) r i.

(** The control queue is idle, and there is memory for the descriptors of [k] commands, at multiples of 64. *)
Record ready (k : nat) (d : Pipe D) : Prop := {
  rd_work : work (p_queue d) = [];
  rd_idle : exists q, qtds (p_mem d) !! current_qtd (q_headp (p_queue d)) = Some q /\ is_active q = false;
  rd_fresh : NoDup (current_qtd (q_headp (p_queue d)) :: supply (p_mem d));
  rd_supply : Forall (fun a => 0 <= a < 2 ^ 32 /\ a mod 64 = 0) (supply (p_mem d));
  rd_enough : (3 * k <= length (supply (p_mem d)))%nat;
}.

Lemma ready_less k d : ready (S k) d -> ready k d.
Proof. intros []. split; try done. lia. Qed.

Lemma aligned_64 a : 0 <= a < 2 ^ 32 /\ a mod 64 = 0 -> link_aligned a.
Proof. intros [Ha Hm]. split; [done|]. Z.to_euclidean_division_equations. lia. Qed.

Lemma append_idle q ts m a l q0 : work q = [] -> qtds m !! current_qtd (q_headp q) = Some q0 -> is_active q0 = false -> str ts = a :: l -> 0 <= a < 2 ^ 32 -> a mod 64 = 0 ->
  exists h, append_cmd_string q ts m = Done (with_work [ts] (with_head h q), m) /\ link_end (next_pointer h) = false /\ get_address (next_pointer h) = a /\ ctl0 h = ctl0 (q_headp q).
Proof using BL.
  intros Hw Hq Ha Hs Hr Hm. unfold append_cmd_string, is_terminated, dma_get. rewrite Hw, Hq. cbn [last unwrap mbind outcome_bind]. rewrite Ha, Hs. cbn [negb assert_that head unwrap mbind outcome_bind].
  unfold as_u32. rewrite (proj2 (Z.leb_le 0 a)), (proj2 (Z.ltb_lt a _)) by lia. cbn [andb mbind outcome_bind]. unfold exit_idle_into.
  destruct (set_current_transaction_ok (q_headp q) a Hr Hm) as (h & Hh & _ & H1 & H2 & _). rewrite Hh. cbn [mbind outcome_bind]. exists h. split; [by cbn [with_head work]; rewrite Hw|]. split; [done|]. split; [done|].
  unfold set_current_transaction in Hh. destruct (assert_that _); [|done]. by injection Hh as <-.
Qed.

(** A request for a descriptor: [setup_transaction], [append_cmd_string] and [check_state] around the answer of the device. *)
Lemma ctl_answer k d r i buf desc : ready (S k) d -> descriptor_of (p_dev d) r i = Some desc -> 0 <= i < 256 -> (0 < length buf <= 4096)%nat ->
  exists d', ctl_cmd (UsbProto.get_descriptor r i (Some (Z.of_nat (length buf)))) (Some (buf, In)) d =
      Done (Some (take (length buf) desc ++ drop (length desc) buf, Nat.min (length buf) (length desc), Ok UsbOk, d')) /\
    same_device d d' /\ ready k d' /\ q_pid (p_queue d') = q_pid (p_queue d) /\ ctl0 (q_headp (p_queue d')) = ctl0 (q_headp (p_queue d)).
Proof using BL.
  clear FL FO. intros [Hw (q0 & Hq0 & Ha0) Hnd Hal Hen] Hd Hi Hb. set (t := UsbProto.get_descriptor r i _). set (n := length buf) in *.
  destruct (supply (p_mem d)) as [|a1 [|a2 [|a3 rest]]] eqn:Hs; try (cbn in Hen; lia). do 3 (apply Forall_cons in Hal as [? Hal]).
  destruct (std_request (p_dev d)) as (sa & Hsr & Hsa), (std_buffer (p_dev d) n Hb) as (pa & Hpr & Hpa).
  assert (to_bytes t !! 6%nat = Some (Z.of_nat n mod 256)) as H6 by done. assert (to_bytes t !! 7%nat = Some (Z.of_nat n / 256 mod 256)) as H7 by done.
  apply NoDup_cons in Hnd as [Hn0 Hnd]. change (a1 :: a2 :: a3 :: rest) with ([a1; a2; a3] ++ rest) in Hnd. apply NoDup_app in Hnd as (Hnd3 & Hnr & Hndr).
  assert (link_aligned a1 /\ link_aligned a2 /\ link_aligned a3) as Hla by (split_and!; by apply aligned_64).
  unfold ctl_cmd. cbn [fmap option_fmap option_map fst snd from_option]. change (Z.of_nat (length (to_bytes t))) with 8. fold n. rewrite Hsr, Hpr.
  destruct (setup_transaction_spec (mkBuf 8 [mkRegion sa 8] (to_bytes t)) sa (mkBuf (Z.of_nat n) [mkRegion pa (Z.of_nat n)] buf) pa In (p_mem d) a1 a2 a3 rest (Z.of_nat n mod 256) (Z.of_nat n / 256 mod 256))
    as (m' & q1 & q2 & q3 & -> & S1 & V1 & B1 & L1 & S2 & V2 & B2 & L2 & S3 & V3 & L3 & Hs' & Hfr); try done; try apply Hla; try (by apply one_page_placed); cbn [buf_len]; try lia.
  { Z.to_euclidean_division_equations. lia. }
  cbn [mbind outcome_bind buf_len]. destruct (append_idle (p_queue d) (mkString MControl [a1; a2; a3] (Z.of_nat n)) m' a1 [a2; a3] q0) as (h & -> & Hh1 & Hh2 & Hh3); try done; try tauto.
  { rewrite Hfr; [done|]. set_solver. }
  cbn [mbind outcome_bind with_work with_head q_headp].
  destruct (std_answer (p_dev d) h (qtds m') a1 a2 a3 sa pa r i buf desc Hd Hi Hb Hh1 Hh2 Hsr Hpr) as (h' & r1 & r2 & r3 & dev' & Hrun & R1 & R2 & R3 & Hcur & Hc0 & Hsame).
  { split; [done|done|by exists q1|by exists q2|by exists q3]. }
  fold n in Hrun. fold t in Hrun. rewrite Hrun. apply NoDup_cons in Hnd3 as [N1 Hnd3]. apply NoDup_cons in Hnd3 as [N2 _]. assert (a1 <> a2 /\ a1 <> a3 /\ a2 <> a3) as (N12 & N13 & N23) by set_solver.
  erewrite (control_completed _ _ a1 a2 a3 (Z.of_nat n) _ r1 r2 r3); [..|exact R1|exact R2|exact R3]; [|done|cbn [qtds]; by rewrite ?lookup_insert_ne, lookup_insert_eq by done..].
  cbn [mbind outcome_bind work last c_len c_state]. eexists. split.
  { do 5 f_equal. change (length buf) with n. rewrite wsub_small by lia. lia. }
  split; [done|]. split; [|split; [done|cbn; congruence]]. split; cbn [p_queue p_mem work q_headp qtds supply with_head with_work].
  - done.
  - rewrite Hcur. exists r3. rewrite lookup_insert_eq. by destruct R3.
  - rewrite Hcur, Hs'. apply NoDup_cons. split; [|done]. apply Hnr. set_solver.
  - by rewrite Hs'.
  - rewrite Hs'. cbn in Hen. lia.
Qed.

(** A request for [n] bytes of a descriptor that has that many. *)
Lemma ask_short k d r i n buf desc : ready (S k) d -> descriptor_of (p_dev d) r i = Some desc -> 0 <= i < 256 -> length buf = n -> (0 < n <= length desc)%nat -> (n <= 4096)%nat ->
  exists d', ctl_cmd (UsbProto.get_descriptor r i (Some (Z.of_nat n))) (Some (buf, In)) d = Done (Some (take n desc, n, Ok UsbOk, d')) /\ same_device d d' /\ ready k d' /\
    q_pid (p_queue d') = q_pid (p_queue d) /\ ctl0 (q_headp (p_queue d')) = ctl0 (q_headp (p_queue d)).
Proof using BL.
  intros Hr Hd Hi <- Hn Hm. destruct (ctl_answer k d r i buf desc Hr Hd Hi ltac:(lia)) as (d' & Hc & Hs). exists d'. split; [|done].
  rewrite Hc, drop_ge, app_nil_r, Nat.min_l by lia. done.
Qed.

(** A request for [n] bytes of a descriptor that has fewer. *)
Lemma ask_long k d r i n desc : ready (S k) d -> descriptor_of (p_dev d) r i = Some desc -> 0 <= i < 256 -> (length desc <= n)%nat -> (0 < n <= 4096)%nat ->
  exists d', ctl_cmd (UsbProto.get_descriptor r i (Some (Z.of_nat n))) (Some (replicate n 0, In)) d = Done (Some (desc ++ replicate (n - length desc) 0, length desc, Ok UsbOk, d')) /\
    same_device d d' /\ ready k d'.
Proof using BL.
  intros Hr Hd Hi Hn Hm. destruct (ctl_answer k d r i (replicate n 0) desc Hr Hd Hi) as (d' & Hc & Hs & Hr' & _); [by rewrite length_replicate|]. rewrite length_replicate in Hc.
  exists d'. split; [|done]. by rewrite Hc, take_ge, Nat.min_r, drop_replicate by lia.
Qed.

(** [get_descriptor] of a configuration: the length is read from the head, then the whole is asked for. *)
Lemma get_configuration_whole k d i cfg : ready (S (S k)) d -> descriptor_of (p_dev d) QConfiguration i = Some cfg -> 0 <= i < 256 -> (9 <= length cfg <= 4096)%nat ->
  cfg !! 1%nat = Some DescriptorType.Configuration -> field_val configuration_fields cfg "total_length" = Z.of_nat (length cfg) ->
  exists d', get_descriptor true QConfiguration i d = Done (Some (Ok cfg, d')) /\ same_device d d' /\ ready k d'.
Proof using BL.
  intros Hrd Hd Hi Hl Ht Htl. unfold get_descriptor. cbn [negb]. change (size_of (requestable QConfiguration)) with 9%nat. change (length (replicate 9 0)) with 9%nat.
  change (Z.of_nat 9 mod 2 ^ 16) with (Z.of_nat 9). destruct (ask_short (S k) d QConfiguration i 9 (replicate 9 0) cfg) as (d1 & Hc & Hs & Hr1 & _); [done..|lia|lia|]. rewrite Hc. cbn [await mbind outcome_bind].
  destruct cfg as [|c0 [|c1 [|c2 [|c3 rest]]]]; cbn in Hl; try lia. set (cfg := c0 :: c1 :: c2 :: c3 :: rest) in *.
  assert (of_le [c2; c3] = Z.of_nat (length cfg)) as Hop by (rewrite <- Htl; done).
  change (take 9 cfg !! 2%nat) with (Some c2). change (take 9 cfg !! 3%nat) with (Some c3). cbn [unwrap mbind outcome_bind]. rewrite Hop, Nat2Z.id.
  assert (length (resize (length cfg) (take 9 cfg)) = length cfg) as Hr. { unfold resize. rewrite length_app, length_take, length_replicate, length_take. subst cfg. cbn. lia. }
  destruct (ask_short k d1 QConfiguration i (length cfg) (resize (length cfg) (take 9 cfg)) cfg) as (d2 & Hc2 & Hs2 & Hr2 & _); [done|by rewrite Hs|done|done|cbn; lia|cbn; lia|]. rewrite Hc2, take_ge by done.
  cbn [await mbind outcome_bind]. rewrite Ht. cbn [unwrap mbind outcome_bind]. exists d2. split; [done|]. split; [|done]. intros r j. by rewrite Hs2, Hs.
Qed.


(** Bytes 2 and 3 of a device descriptor are the version of USB: for version 2.0 the driver gets 512 bytes, the
    descriptor and zeros. *)
Theorem device_descriptor_padded d i desc : ready 2 d -> descriptor_of (p_dev d) QDevice i = Some desc -> 0 <= i < 256 -> length desc = 18%nat ->
  desc !! 1%nat = Some DescriptorType.Device -> field_val device_fields desc "bcd_usb" = 0x200 ->
  exists d', get_descriptor true QDevice i d = Done (Some (Ok (desc ++ replicate 494 0), d')).
Proof using BL.
  intros Hrd Hd Hi Hl Ht Hb. unfold get_descriptor. cbn [negb]. change (size_of (requestable QDevice)) with 18%nat. change (length (replicate 18 0)) with 18%nat.
  change (Z.of_nat 18 mod 2 ^ 16) with (Z.of_nat 18). destruct (ask_short 1 d QDevice i 18 (replicate 18 0) desc) as (d1 & Hc & Hs & Hr1 & _); [done..|lia|lia|]. rewrite Hc. cbn [await mbind outcome_bind].
  rewrite take_ge by lia. destruct desc as [|c0 [|c1 [|c2 [|c3 rest]]]]; try (cbn in Hl; lia). set (desc := c0 :: c1 :: c2 :: c3 :: rest) in *.
  assert (of_le [c2; c3] = 0x200) as Hop by (rewrite <- Hb; done). change (desc !! 2%nat) with (Some c2). change (desc !! 3%nat) with (Some c3). cbn [unwrap mbind outcome_bind]. rewrite Hop.
  assert (length (resize (Z.to_nat 0x200) desc) = 512%nat) as Hr by (unfold resize; rewrite length_app, length_take, length_replicate, Hl; done).
  destruct (ctl_answer 0 d1 QDevice i (resize (Z.to_nat 0x200) desc) desc) as (d2 & Hc2 & _); [done|by rewrite Hs|done|rewrite Hr; lia|].
  rewrite Hr in Hc2. change (Z.of_nat 512) with 0x200 in Hc2. rewrite Hc2. cbn [await mbind outcome_bind]. exists d2. rewrite take_ge by lia.
  unfold resize. rewrite take_ge by (rewrite Hl; vm_compute; lia). rewrite drop_app_length, Hl, lookup_app_l by lia. by rewrite Ht.
Qed.

(** ** Attaching *)

(** A new device is attached as it describes itself.  When the control queue is idle and the device
    has a device descriptor of eighteen bytes, [insert_into_controller] sets the length of the packets of the
    queue to the one of the descriptor, and makes an accessor with fifteen free endpoints, no driver, and the
    number of configurations of the descriptor. *)
Theorem attach_describes address d desc :
  ready 2 d -> descriptor_of (p_dev d) QDevice 0 = Some desc -> length desc = 18%nat -> desc !! 1%nat = Some DescriptorType.Device -> q_pid (p_queue d) = EhciQueue.Control ->
  exists d', attach address d = Done (Some (mkAcc address (replicate 15 None) false None (field_val device_fields desc "num_configurations") true, d')) /\ same_device d d' /\ ready 0 d' /\
    ctl0 (q_headp (p_queue d')) = set_max_packet_len (ctl0 (q_headp (p_queue d))) (field_val device_fields desc "max_packet_size_0").
Proof using BL.
  intros Hrd Hd Hl Ht Hp. unfold attach. destruct (ask_short 1 d QDevice 0 8 (replicate 8 0) desc) as (d1 & Hc & Hs & Hr1 & Hp1 & Hc1); [done..|lia|lia|]. change (Z.of_nat 8) with 8 in Hc. rewrite Hc.
  cbn [await mbind outcome_bind]. rewrite length_take, Hl. cbn [Nat.eqb Nat.min assert_that mbind outcome_bind]. unfold UsbProto.packet_size. rewrite lookup_take_lt by lia. rewrite Ht. cbn [default from_option id Z.eqb DescriptorType.Device Pos.eqb].
  assert (field_val device_fields (take 8 desc) "max_packet_size_0" = field_val device_fields desc "max_packet_size_0") as ->.
  { by apply (field_val_take _ _ _ _ 7 1). }
  destruct Hr1 as [Hw1 (q1 & Hq1 & Ha1) Hn1 Hs1 He1].
  cbn [unwrap mbind outcome_bind]. unfold update_transaction_len, is_terminated, dma_get. rewrite Hq1. cbn [unwrap mbind outcome_bind]. rewrite Ha1, Hp1, Hp. cbn [negb orb bool_decide result_ok unwrap mbind outcome_bind fst snd decide].
  rewrite bool_decide_eq_true_2 by done. cbn [negb orb mbind outcome_bind fst snd result_ok unwrap]. set (d1' := mkUsbPipe _ _ _).
  destruct (ask_short 0 d1' QDevice 0 18 (replicate (size_of DDevice) 0) desc) as (d2 & Hc2 & Hs2 & Hr2 & _ & Hc0); [|by cbn; rewrite Hs|done|done|lia|lia|].
  { split; try done. by exists q1. }
  change (Z.of_nat 18) with 18 in Hc2. rewrite Hc2. cbn [await mbind outcome_bind].
  unfold from_raw. rewrite take_ge by lia. change (size_of DDevice) with 18%nat. rewrite Hl, Ht. cbn [Nat.ltb Nat.leb default from_option id Z.eqb DescriptorType.Device descriptor_type Pos.eqb negb unwrap mbind outcome_bind].
  exists d2. rewrite take_ge by lia. split; [done|]. split; [intros r j; by rewrite Hs2, <- Hs|]. split; [done|]. rewrite Hc0, <- Hc1. done.
Qed.

(** ** Endpoints *)

Lemma new_async_ok t pid size toggle m b l : supply m = b :: l -> b mod 64 = 0 -> 0 <= b < 2 ^ 32 -> (forall n, dev t = Address n -> n < 64) -> endpoint t < 16 ->
  exists q m', new_async t pid size toggle m = Done (q, m') /\ q_target q = t /\ q_pid q = pid /\ EhciQueue.packet_size q = size /\ work q = [].
Proof using BL.
  intros Hs Hb Hb32 Ht He. unfold new_async, dma_new. rewrite Hs. cbn [mbind outcome_bind]. rewrite (Z.mod_small b) by done.
  destruct (set_current_transaction_ok (data_toggle_ctl (qh_new size) toggle) b Hb32 Hb) as (q & -> & _). cbn [mbind outcome_bind].
  assert (exists lt, target_try_from t = Done (Ok lt)) as [lt ->].
  { unfold target_try_from, address_new, endpoint_new. rewrite (proj2 (Z.ltb_lt (endpoint t) 16)) by done. destruct (dev t) as [|n] eqn:Hd; cbn; [by eexists|].
    specialize (Ht n eq_refl). rewrite (proj2 (Z.leb_gt 64 n)), (proj2 (Z.ltb_lt n 64)) by lia. cbn. by eexists. }
  cbn. by eexists _, _.
Qed.

(** Linking queues keeps what they are for. *)
Definition same_purpose (q q' : EndpointQueue) : Prop := q_target q' = q_target q /\ q_pid q' = q_pid q /\ EhciQueue.packet_size q' = EhciQueue.packet_size q.

Lemma set_next_purpose c a b c' : set_next_endpoint_queue c a b = Done c' -> forall x q, queues c !! x = Some q -> exists q', queues c' !! x = Some q' /\ same_purpose q q'.
Proof.
  unfold set_next_endpoint_queue, get_queue. intros Hc x q Hx. destruct (queues c !! b); [|done]. cbn in Hc. destruct (as_u32 b); [|done]. cbn in Hc. destruct (queues c !! a) as [qa|] eqn:Ha; [|done]. cbn in Hc.
  injection Hc as <-. cbn. destruct (decide (x = a)) as [->|Hn]; [rewrite lookup_insert_eq|rewrite lookup_insert_ne by done]; [|by exists q].
  eexists. split; [done|]. replace q with qa by congruence. done.
Qed.

Lemma insert_into_async_purpose c a c' : insert_into_async c a = Done c' -> forall x q, queues c !! x = Some q -> exists q', queues c' !! x = Some q' /\ same_purpose q q'.
Proof.
  unfold insert_into_async. intros Hc x q Hx. destruct (head (async_list c)) as [f|]; [|done]. cbn in Hc. destruct (set_next_endpoint_queue c a f) as [c1|] eqn:H1; [|done]. cbn in Hc.
  destruct (last (async_list c1)) as [l|]; [|done]. cbn in Hc. destruct (set_next_endpoint_queue c1 l a) as [c2|] eqn:H2; [|done]. injection Hc as <-. cbn.
  destruct (set_next_purpose _ _ _ _ H1 x q Hx) as (q1 & Hq1 & P1 & P2 & P3). destruct (set_next_purpose _ _ _ _ H2 x q1 Hq1) as (q2 & Hq2 & P4 & P5 & P6).
  exists q2. split; [done|]. unfold same_purpose. by rewrite P4, P5, P6.
Qed.

(** The fields of an endpoint descriptor that [setup_endpoint] uses. *)
Definition desc_number (desc : list Z) : Z := ep_number (field_val endpoint_fields desc "endpoint_address").
Definition desc_transfer (desc : list Z) : outcome EndpointTransferType := transfer_type (field_val endpoint_fields desc "attributes").

Lemma ep_number_bound a : 0 <= ep_number a < 16.
Proof using BL.
  apply (bit_range_bound a 3 0). lia.
Qed.

(** C19. Setting up a bulk or control endpoint schedules it.  When its place is free, the controller is there and the
    asynchronous schedule is a ring, [setup_endpoint] returns the new queue, which is for the address of the device
    and the number, direction and packet size of the descriptor; the queue is in the place of its number, no other
    place changes, and the schedule is again a ring, with the new queue as the last. *)
Theorem setup_endpoint_scheduled qaddr desc w a t b l :
  w_acc w = Some a -> has_controller a = true -> (forall n, acc_address a = Address n -> n < 64) ->
  desc_transfer desc = Done t -> t = Bulk \/ t = UsbProto.Control -> endpoints a !! Z.to_nat (desc_number desc) = Some None ->
  supply (w_mem w) = b :: l -> b mod 64 = 0 -> 0 <= b < 2 ^ 32 ->
  ring (w_ctl w) (async_list (w_ctl w)) -> qaddr ∉ async_list (w_ctl w) -> link_aligned qaddr ->
  exists w' q, setup_endpoint qaddr desc w = Done (Ok qaddr, w') /\
    w_acc w' = Some (set_endpoints (<[Z.to_nat (desc_number desc) := Some qaddr]> (endpoints a)) a) /\
    async_list (w_ctl w') = async_list (w_ctl w) ++ [qaddr] /\ ring (w_ctl w') (async_list (w_ctl w')) /\
    queues (w_ctl w') !! qaddr = Some q /\ q_target q = mkUTarget (acc_address a) (desc_number desc) /\
    q_pid q = endpoint_pid t (field_val endpoint_fields desc "endpoint_address") /\
    EhciQueue.packet_size q = max_packet_size (field_val endpoint_fields desc "max_packet_size").
Proof using BL.
  intros Ha Hc Had Ht Htt Hslot Hs Hb Hb32 Hring Hq Hal. unfold setup_endpoint. rewrite Ha. unfold desc_transfer in Ht. rewrite Ht. cbn [mbind outcome_bind]. fold (desc_number desc).
  set (pid := endpoint_pid t _). set (size := max_packet_size _). set (n := desc_number desc) in *.
  destruct (new_async_ok (mkUTarget (acc_address a) n) pid size (bool_decide (pid = EhciQueue.Control)) (w_mem w) b l Hs Hb Hb32 Had) as (q & m' & Hnew & Q1 & Q2 & Q3 & _); [apply ep_number_bound|].
  set (c := with_queues (<[qaddr := q]> (queues (w_ctl w))) (w_ctl w)).
  assert (ring c (async_list c)) as Hr. { destruct Hring as [R1 R2 (h & tl & R3 & R4)]. split; [done..|]. exists h, tl. split; [done|]. cbn. by apply chain_frame. }
  destruct (insert_into_async_ring c qaddr q Hr) as (c' & Hi & Hl & Hr'); [cbn; apply lookup_insert_eq|done|done|].
  destruct (insert_into_async_purpose c qaddr c' Hi qaddr q) as (q' & Hq' & P1 & P2 & P3); [cbn; apply lookup_insert_eq|].
  exists (mkWorld (Some (set_endpoints (<[Z.to_nat n := Some qaddr]> (endpoints a)) a)) c' m'), q'.
  split; [|split_and!; first [done|congruence]].
  destruct Htt as [->| ->]; rewrite Hnew; cbn [mbind outcome_bind fst snd]; rewrite Hslot; cbn [unwrap mbind outcome_bind]; cbn [has_controller set_endpoints]; rewrite Hc; cbn [negb]; fold c; by rewrite Hi.
Qed.

(** A second endpoint of the same number is refused, also when it is for the other direction. *)
Theorem setup_endpoint_taken qaddr desc w a q b l :
  w_acc w = Some a -> (forall n, acc_address a = Address n -> n < 64) -> desc_transfer desc = Done Bulk -> endpoints a !! Z.to_nat (desc_number desc) = Some (Some q) ->
  supply (w_mem w) = b :: l -> b mod 64 = 0 -> 0 <= b < 2 ^ 32 -> setup_endpoint qaddr desc w = Done (Err AlreadyExists, w).
Proof using BL.
  intros Ha Had Ht Hslot Hs Hb Hb32. unfold setup_endpoint. rewrite Ha. unfold desc_transfer in Ht. rewrite Ht. cbn [mbind outcome_bind]. fold (desc_number desc).
  destruct (new_async_ok (mkUTarget (acc_address a) (desc_number desc)) (endpoint_pid Bulk (field_val endpoint_fields desc "endpoint_address")) (max_packet_size (field_val endpoint_fields desc "max_packet_size"))
    (bool_decide (endpoint_pid Bulk (field_val endpoint_fields desc "endpoint_address") = EhciQueue.Control)) (w_mem w) b l Hs Hb Hb32 Had) as (q1 & m' & Hnew & _); [apply ep_number_bound|].
  rewrite Hnew. cbn [mbind outcome_bind]. rewrite Hslot. done.
Qed.

(** There are fifteen places, indexed by the number itself: endpoint 15 has none. *)
Theorem setup_endpoint_15 qaddr desc w a : w_acc w = Some a -> length (endpoints a) = 15%nat -> desc_number desc = 15 -> desc_transfer desc <> Done Isochronous ->
  setup_endpoint qaddr desc w = Panic.
Proof.
  intros Ha Hl Hn Ht. unfold setup_endpoint. rewrite Ha. unfold desc_transfer in Ht. destruct (transfer_type _) as [t|]; [|done]. cbn [mbind outcome_bind]. fold (desc_number desc). rewrite Hn.
  assert (endpoints a !! Z.to_nat 15 = None) as Hnone by (apply lookup_ge_None; rewrite Hl; done). rewrite Hnone. destruct t; try done.
  all: match goal with |- context [new_async ?a ?b ?c ?d ?e] => destruct (new_async a b c d e) end || match goal with |- context [new_periodic ?a ?b ?c ?d ?e] => destruct (new_periodic a b c d e) end; done.
Qed.

(** ** Acquiring and shutting down *)

(** Shutting down does not end.  A driver that acquired a device whose controller is there waits for ever
    in [shutdown], as in dropping its handle: [shutdown_inner] locks the endpoints, which the handle keeps
    locked since [acquire_ctl]. *)
Theorem shutdown_waits dir a acc' c m d : acquire_ctl dir (Some a) = (Ok tt, acc') -> has_controller a = true -> ctl_cmd (UsbProto.set_configuration 0) None d <> Panic ->
  shutdown (mkWorld acc' c m) d = Done None /\ drop_ctl (mkWorld acc' c m) d = Done None.
Proof.
  unfold acquire_ctl. intros Ha Hc Hnp. destruct (ep_guard a); [done|]. destruct (driver a); [done|]. injection Ha as <-. unfold shutdown, drop_ctl, shutdown_inner. cbn.
  destruct (ctl_cmd _ _ d) as [[[[[? ?] ?] ?]|]|]; cbn [await mbind outcome_bind]; [|done|done]. rewrite Hc. done.
Qed.

(** One driver at a time; and when the controller is gone the device can be released, but not acquired again:
    the driver is never forgotten. *)
Theorem acquire_once dir dir2 a acc' c m d x d' : acquire_ctl dir (Some a) = (Ok tt, acc') -> ctl_cmd (UsbProto.set_configuration 0) None d = Done (Some (x, d')) ->
  acquire_ctl dir2 acc' = (Err Busy, acc') /\
  (has_controller a = false -> exists a2, shutdown (mkWorld acc' c m) d = Done (Some (mkWorld (Some a2) c m, d')) /\ acquire_ctl dir2 (Some a2) = (Err AlreadyExists, Some a2)).
Proof.
  unfold acquire_ctl. intros Ha Hx. destruct (ep_guard a); [done|]. destruct (driver a); [done|]. injection Ha as <-. split; [done|]. intros Hc. unfold shutdown, shutdown_inner. cbn.
  destruct x as [[? ?] ?]. rewrite Hx. cbn [await mbind outcome_bind]. rewrite Hc. cbn. by eexists.
Qed.

(** ** Searching for a class *)

(** A search of the device descriptor alone. *)
Lemma class_read_own k d desc c0 c1 c2 f fuel buff :
  ready (S k) d -> descriptor_of (p_dev d) QDevice 0 = Some desc -> length desc = 18%nat -> desc !! 1%nat = Some DescriptorType.Device -> Forall is_byte [c0; c1; c2; f] -> (2 <= length buff)%nat ->
  f <> 0 -> from_bits f = Some f -> contains f DEVICE = true -> contains f (complement DEVICE) = false ->
  exists d', class_read fuel true (of_le [c0; c1; c2; f; 0; 0; 0; 0]) buff d =
    Done (Some (Ok (if bool_decide (take (class_len f) (device_class desc) = take (class_len f) [c0; c1; c2]) then (0 :: 1 :: drop 2 buff, 2%nat) else (buff, 0%nat)), d')).
Proof using BL.
  intros Hrd Hd Hl Ht Hby Hbf Hf0 Hfb Hcd Hcc. unfold class_read. change 8%nat with (length [c0; c1; c2; f; 0; 0; 0; 0]). rewrite le_bytes_of_le.
  2: { change [c0; c1; c2; f; 0; 0; 0; 0] with ([c0; c1; c2; f] ++ [0; 0; 0; 0]). apply Forall_app. split; [done|]. unfold is_byte. repeat constructor; lia. }
  rewrite Hfb. cbn [default from_option id Z.eqb andb negb unwrap mbind outcome_bind]. rewrite (proj2 (Z.eqb_neq f 0)) by done.
  unfold get_descriptor_full. destruct (ask_long k d QDevice 0 255 desc Hrd Hd) as (d1 & Hc & _); [lia|lia|lia|]. change (Z.of_nat 255) with 255 in Hc. rewrite Hc. cbn [await mbind outcome_bind]. rewrite take_app_length.
  unfold from_raw. change (size_of DDevice) with 18%nat. rewrite Hl, Ht. cbn [Nat.ltb Nat.leb default from_option id Z.eqb DescriptorType.Device descriptor_type Pos.eqb negb]. rewrite (take_ge desc 18) by lia.
  rewrite Hcd, Hcc, andb_true_r. exists d1. destruct (bool_decide _); [|done]. unfold write_two. destruct buff as [|x [|y buff]]; cbn in Hbf; [lia..|done].
Qed.

(** Whether a device is of a class is found in its descriptor.  When the position names a class and the
    device descriptor, a read of the [class] file answers the configuration 0 and the descriptor 1 exactly when the
    descriptor's class agrees in the fields that are to be compared (three, or the first two or one by the flag),
    and nothing otherwise. *)
Theorem class_read_device d desc c0 c1 c2 f k fuel buff :
  ready 1 d -> descriptor_of (p_dev d) QDevice 0 = Some desc -> length desc = 18%nat -> desc !! 1%nat = Some DescriptorType.Device -> Forall is_byte [c0; c1; c2] -> (2 <= length buff)%nat ->
  (f, k) ∈ [(DEVICE, 3%nat); (DEVICE + MATCH_SUBCLASS, 2%nat); (DEVICE + MATCH_CLASS, 1%nat)] ->
  exists d', class_read fuel true (of_le [c0; c1; c2; f; 0; 0; 0; 0]) buff d =
    Done (Some (Ok (if bool_decide (take k (device_class desc) = take k [c0; c1; c2]) then (0 :: 1 :: drop 2 buff, 2%nat) else (buff, 0%nat)), d')).
Proof using BL FL.
  intros Hrd Hd Hl Ht Hby Hbf Hf. rewrite !elem_of_cons, elem_of_nil in Hf.
  assert (class_len f = k) as <-. { unfold class_len. rewrite !contains_spec. by destruct Hf as [[= -> ->]|[[= -> ->]|[[= -> ->]|[]]]]. }
  apply (class_read_own 0); try done.
  - change [c0; c1; c2; f] with ([c0; c1; c2] ++ [f]). apply Forall_app. split; [done|]. repeat constructor; destruct Hf as [[= -> ?]|[[= -> ?]|[[= -> ?]|[]]]]; done.
  - by destruct Hf as [[= -> ?]|[[= -> ?]|[[= -> ?]|[]]]].
  - unfold from_bits. rewrite flag_truncate_spec. by destruct Hf as [[= -> ?]|[[= -> ?]|[[= -> ?]|[]]]].
  - rewrite contains_spec. by destruct Hf as [[= -> ?]|[[= -> ?]|[[= -> ?]|[]]]].
  - unfold complement. rewrite contains_spec, flag_truncate_spec. by destruct Hf as [[= -> ?]|[[= -> ?]|[[= -> ?]|[]]]].
Qed.

Lemma class_loop_no_match fuel cfg f class : forall it, class_loop fuel cfg f class it <> Done (Some true).
Proof.
  induction fuel as [|fuel IH]; intros it; [done|]. cbn [class_loop]. destruct (desc_next cfg it) as [[[h|] it']|]; cbn [mbind outcome_bind]; [|done..].
  unfold cast at 1. destruct (Z.eqb_spec (descriptor_type DDevice) (descriptor_id h)) as [Hi|]; [|apply IH]. unfold base_descriptor, cast. rewrite <- Hi. done.
Qed.

(** An interface is never found: only device descriptors pass the filter, and those are not expected behind it. *)
Theorem class_never_interface fuel f class cs : forall buff d b n d', class_configs fuel f class buff cs d = Done (Some (Ok (b, n), d')) -> b = buff /\ n = 0%nat.
Proof.
  induction cs as [|c cs IH]; intros buff d b n d'; cbn [class_configs]; [by intros [= -> -> _]|]. destruct (get_descriptor_full QConfiguration c d) as [[[[cfg|] d1]|]|]; cbn [await mbind outcome_bind]; [|done..].
  destruct (from_raw DConfiguration cfg); [|done]. pose proof (class_loop_no_match fuel cfg f class (UsbProto.iter cfg)) as Hno.
  destruct (class_loop fuel cfg f class _) as [[[]|]|]; cbn [mbind outcome_bind]; try done. apply IH.
Qed.

(** The configurations are searched only when every other flag is set, and with those no field of the class is compared. *)
Theorem class_search_gate f : contains f (complement DEVICE) = true -> class_len f = 0%nat.
Proof using FL.
  unfold complement. rewrite contains_spec, flag_truncate_spec. change (Z.land (255 - DEVICE) all) with 194. intros Hf%Z.eqb_eq.
  assert (forall i, Z.testbit 194 i = true -> Z.testbit f i = true) as Hb. { intros i Hi. rewrite <- Hf, Z.land_spec in Hi. by apply andb_true_iff in Hi as [??]. }
  unfold class_len, MATCH_CLASS, MATCH_SUBCLASS. rewrite !flags_contain_bit by lia. by rewrite !Hb.
Qed.

(** ** The configuration file *)

(** Reading at the [wValue] of a request gives the descriptor, as much as fits. *)
Theorem config_read_descriptor a i buff d cfg : ready 1 d -> descriptor_of (p_dev d) QConfiguration i = Some cfg -> 0 <= i < 256 -> i < configurations a -> (length cfg <= length buff)%nat -> (0 < length buff <= 4096)%nat ->
  exists d', config_read (Some a) (of_le [i; DescriptorType.Configuration]) buff d = Done (Some (Ok (cfg ++ drop (length cfg) buff, length cfg), d')).
Proof using BL.
  intros Hrd Hd Hi Hc Hl Hm. unfold config_read, config_command. rewrite (proj2 (Z.ltb_lt (Z.of_nat (length buff)) (2 ^ 16))) by lia. assert (of_le [i; DescriptorType.Configuration] = i + 512) as -> by (change DescriptorType.Configuration with 2; cbn [of_le]; lia).
  assert ((i + 512) mod 256 = i) as -> by (replace (i + 512) with (i + 2 * 256) by lia; rewrite Z_mod_plus_full; by apply Z.mod_small).
  assert ((i + 512) / 256 mod 256 = 2) as -> by (replace (i + 512) with (i + 2 * 256) by lia; rewrite Z_div_plus_full, Z.div_small by lia; done).
  change (2 =? DescriptorType.Device) with false. change (2 =? DescriptorType.DeviceQualifier) with false. change (2 =? DescriptorType.Configuration) with true. rewrite !andb_false_r, (proj2 (Z.ltb_lt _ _) Hc). cbn [andb].
  rewrite (proj2 (Z.eqb_neq (i + 512) 0)) by lia. cbn [andb negb]. destruct (ctl_answer 0 d QConfiguration i buff cfg Hrd Hd Hi Hm) as (d' & -> & _). exists d'. cbn [await mbind outcome_bind]. by rewrite take_ge, Nat.min_r by done.
Qed.

End DeviceLaws.

(** ** Witnesses *)
Module UsbDeviceWitness.
Import BitFieldWitness FlagWitness EhciSchedWitness.

(** A keyboard with one configuration. *)
Definition keyboard : list (list Z) := [[9; 4; 0; 0; 1; 3; 1; 1; 0]; [9; 0x21; 0x11; 1; 0; 1; 0x22; 63; 0]; [7; 5; 0x81; 3; 8; 0; 10]].
Definition kbd_config : list Z := [9; 2; 34; 0; 1; 1; 0; 0xa0; 50].
Definition kbd_device : list Z := [18; 1; 0; 2; 3; 1; 1; 8; 0x6d; 4; 0x1c; 0xc3; 0; 0x64; 1; 2; 0; 1].

Definition kbd_descriptor (ty i : Z) : option (list Z) :=
  if ty =? 1 then Some kbd_device else if (ty =? 2) && (i =? 0) then Some (kbd_config ++ concat keyboard) else None.

Definition kbd_answer (bytes : list Z) : option (list Z) := match bytes with _ :: 6 :: i :: ty :: _ => kbd_descriptor ty i | _ => None end.

(** A controller that carries out the control transfer at a queue head for a device with these answers. *)
Definition retire (n : nat) : Qtd := mkQtd 1 1 (Z.shiftl (Z.of_nat n) 16) 0 [] [].
Definition stalled : Qtd := mkQtd 1 1 0x40 0 [] [].
Definition at_qtd (a : Z) (h : QueueHead) : QueueHead := mkQh (next_link_ptr h) (ctl0 h) (ctl1 h) (Ehci.set_address (current_transaction h) a) (next_pointer h) (alternate_pointer h) (overlay h).

Definition control_run (answer : list Z -> option (list Z)) (h : QueueHead) (l : gmap Z Qtd) (bytes buf : list Z) : QueueHead * gmap Z Qtd * list Z :=
  let a1 := get_address (next_pointer h) in
  match l !! a1 with
  | None => (h, l, buf)
  | Some q1 =>
      let a2 := get_address (next_qtd q1) in
      match l !! a2 with
      | None => (h, l, buf)
      | Some q2 =>
          if link_end (next_qtd q2) then (at_qtd a2 h, <[a2 := retire 0]> (<[a1 := retire 0]> l), buf)
          else
            let a3 := get_address (next_qtd q2) in
            match answer bytes with
            | Some desc => (at_qtd a3 h, <[a3 := retire 0]> (<[a2 := retire (length buf - length desc)]> (<[a1 := retire 0]> l)), take (length buf) desc ++ drop (length desc) buf)
            | None => (at_qtd a2 h, <[a2 := stalled]> (<[a1 := retire 0]> l), buf)
            end
      end
  end.

Lemma retire_ok n : Z.of_nat n < 2 ^ 15 -> retired (retire n) (Z.of_nat n).
Proof.
  intros Hn. assert (forall i, 0 <= i < 16 -> Z.testbit (Z.shiftl (Z.of_nat n) 16) i = false) as Hb. { intros i Hi. rewrite Z.shiftl_spec by lia. apply Z.testbit_neg_r. lia. }
  split; [|split].
  - unfold is_active, active. cbn [retire config]. rewrite get_bit_test by lia. by apply Hb.
  - unfold config_error. cbn [retire config]. apply negb_false_iff, Z.eqb_eq, Z.bits_inj'. intros i Hi. rewrite Z.land_spec, Z.bits_0. destruct (Z.ltb_spec i 16); [by rewrite Hb|].
    rewrite (Z.bits_above_log2 0x7c i), andb_false_r; [done|done|]. change (Z.log2 0x7c) with 6. lia.
  - unfold get_expected_size. cbn [retire config]. rewrite bit_range_land by lia. rewrite Z.shiftr_shiftl_l by lia. change (16 - 16) with 0. rewrite Z.shiftl_0_r. apply Z.mod_small. lia.
Qed.

Lemma at_qtd_current a h : link_aligned a -> current_qtd (at_qtd a h) = a.
Proof. intros Ha. unfold current_qtd. cbn [at_qtd current_transaction]. pose proof (set_address_view (current_transaction h) a Ha) as Hv. unfold link_view in Hv. congruence. Qed.

Lemma control_run_ok answer h l a1 a2 a3 sa pa bytes buf desc : link_end (next_pointer h) = false -> get_address (next_pointer h) = a1 -> control_in l a1 a2 a3 sa pa (Z.of_nat (length buf)) ->
  answer bytes = Some desc -> (length buf <= 4096)%nat ->
  exists h' q1 q2 q3, control_run answer h l bytes buf = (h', <[a3 := q3]> (<[a2 := q2]> (<[a1 := q1]> l)), take (length buf) desc ++ drop (length desc) buf) /\
    retired q1 0 /\ retired q2 (Z.of_nat (length buf - length desc)) /\ retired q3 0 /\ current_qtd h' = a3 /\ ctl0 h' = ctl0 h.
Proof.
  intros _ Ha [(_ & _ & La3) _ (q1 & H1 & _ & _ & L1 & _) (q2 & H2 & _ & _ & L2 & E2) _] Han Hl. unfold control_run. rewrite Ha, H1, L1, H2, E2, L2, Han. eexists _, _, _, _. split; [done|].
  split; [by apply (retire_ok 0)|]. split; [apply retire_ok; lia|]. split; [by apply (retire_ok 0)|]. split; [by apply at_qtd_current|done].
Qed.

#[export] Instance kbd_bus : UsbBus unit := {
  request_at _ := [mkRegion 0x5000 8];
  buffer_at _ n := [mkRegion 0x6000 (Z.of_nat n)];
  bus_run h l bytes buf d := (control_run kbd_answer h l bytes buf, d) }.

#[export] Instance kbd_standard : StandardDevice unit.
Proof.
  refine {| descriptor_of := fun _ r i => match r with QDevice => Some kbd_device | QConfiguration => if i =? 0 then Some (kbd_config ++ concat keyboard) else None | _ => None end |}.
  - intros d. exists 0x5000. split; [done|]. by split; [lia|].
  - intros d n Hn. exists 0x6000. split; [done|]. split; [lia|]. split; [lia|]. change (0x6000 mod 4096) with 0. lia.
  - intros d h l a1 a2 a3 sa pa r i buf desc Hd Hi Hl Hh Ha Hr Hb Hc. set (bytes := to_bytes _).
    assert (kbd_answer bytes = Some desc) as Han. { destruct r; try done. destruct (Z.eqb_spec i 0) as [->|]; [|done]. exact Hd. }
    destruct (control_run_ok kbd_answer h l a1 a2 a3 sa pa bytes buf desc Hh Ha Hc Han ltac:(lia)) as (h' & q1 & q2 & q3 & Hrun & R1 & R2 & R3 & Hcur & Hc0).
    exists h', q1, q2, q3, d. split; [change (bus_run h l bytes buf d) with (control_run kbd_answer h l bytes buf, d); by rewrite Hrun|]. done.
Defined.

Definition idle_mem : DmaMem := mkDma {[0x2000 := set_active qtd_new false]} [0x3000; 0x3040; 0x3080; 0x30c0; 0x3100; 0x3140].
Definition ctl_queue : EndpointQueue :=
  mkQueue EhciQueue.Control (mkUTarget (Address 3) 0) 64 (match set_current_transaction (qh_new 64) 0x2000 with Done q => q | Panic => qh_new 64 end) [] None false.
Definition kbd_pipe : Pipe unit := mkUsbPipe ctl_queue idle_mem tt.

Lemma kbd_ready : ready 2 kbd_pipe.
Proof.
  split.
  - reflexivity.
  - exists (set_active qtd_new false). split; reflexivity.
  - apply (bool_decide_unpack _). vm_compute. exact I.
  - repeat constructor; lia.
  - cbn. lia.
Qed.


Lemma attach_witness : exists acc d', attach (Address 3) kbd_pipe = Done (Some (acc, d')) /\ configurations acc = 1 /\ same_device kbd_pipe d'.
Proof.
  destruct (attach_describes (Address 3) kbd_pipe kbd_device kbd_ready) as (d' & Ha & Hs & _); try reflexivity. eexists _, d'. split; [exact Ha|]. split; [reflexivity|exact Hs].
Defined.

Definition kbd_acc : Accessor := mkAcc (Address 3) (replicate 15 None) false None 1 true.

(** A bulk endpoint 2 for input with packets of 512 bytes. *)
Definition bulk_in : list Z := [7; 5; 0x82; 2; 0; 2; 0; 0].

Lemma setup_endpoint_witness :
  exists w' q, setup_endpoint 0x1200 bulk_in (mkWorld (Some kbd_acc) ehci idle_mem) = Done (Ok 0x1200, w') /\ ring (w_ctl w') (async_list (w_ctl w')) /\
    queues (w_ctl w') !! 0x1200 = Some q /\ q_target q = mkUTarget (Address 3) 2 /\ q_pid q = In /\ EhciQueue.packet_size q = 512.
Proof.
  destruct (setup_endpoint_scheduled 0x1200 bulk_in (mkWorld (Some kbd_acc) ehci idle_mem) kbd_acc Bulk 0x3000 [0x3040; 0x3080; 0x30c0; 0x3100; 0x3140]) as (w' & q & H1 & _ & _ & H2 & H3 & H4 & H5 & H6).
  - reflexivity.
  - reflexivity.
  - intros n [= <-]. lia.
  - reflexivity.
  - left. reflexivity.
  - reflexivity.
  - reflexivity.
  - reflexivity.
  - lia.
  - apply ehci_ring.
  - cbn. rewrite !elem_of_cons, elem_of_nil. lia.
  - split; [lia|reflexivity].
  - exists w', q. split; [exact H1|]. split; [exact H2|]. split; [exact H3|]. split; [exact H4|]. split; [exact H5|exact H6].
Defined.

Lemma shutdown_waits_witness : exists acc', acquire_ctl [] (Some kbd_acc) = (Ok tt, acc') /\ shutdown (mkWorld acc' ehci idle_mem) kbd_pipe = Done None.
Proof. eexists. split; [reflexivity|]. apply (shutdown_waits [] kbd_acc _ ehci idle_mem kbd_pipe); [reflexivity|reflexivity|]. vm_compute. discriminate. Defined.

(** Looking for the class 3 and subclass 1, whatever the protocol. *)
Lemma class_read_witness : exists d', class_read 1 true (of_le [3; 1; 9; 65; 0; 0; 0; 0]) [7; 7; 7] kbd_pipe = Done (Some (Ok ([0; 1; 7], 2%nat), d')).
Proof.
  apply (class_read_device kbd_pipe kbd_device 3 1 9 65 2 1 [7; 7; 7]); try reflexivity.
  - apply (ready_less 1), kbd_ready.
  - unfold is_byte. repeat constructor; lia.
  - cbn. lia.
  - rewrite !elem_of_cons. right. left. reflexivity.
Defined.

End UsbDeviceWitness.
