(* ===== verification/Hid.v ===== *)
(** * Human interface devices

    [lib/hid] (the streams of a HID file, the characters of a keyboard) and
    [drivers/usb/device-drivers/usb-hid/src/driver_obj/hid_if.rs] with the pipe of
    [driver_obj.rs]: keyboard reports become key characters, which are sent to the readers of the
    device's file.

    Report descriptors are parsed by the [hidreport] crate, the class [HidReport]; searching a
    [VecDeque] is the class [SliceSearch] with its documented law.  A waiting read is named by a number;
    completions are collected in [done].  [None] is a call that waits for a lock it holds. *)
From stdpp Require Import prelude.
From S2P Require Import Prelude Bytes Files Serial.
Open Scope Z_scope.

(** ** Keyboard characters *)
Module Keyboard.

Inductive ControlKey :=
| Escape | Left | Right | Up | Down | Insert | PageUp | PageDown | Home | End
| PrintScreen | Pause | NumLock | ScrollLock | CapsLock | Application | Power | Execute | Help | Menu
| Select | Stop | Again | Undo | Cut | Copy | Paste | Find | Mute | VolumeUp
| VolumeDown | LockingCapsLock | LockingNumLock | LockingScrollLock | International1 | International2 | International3 | International4 | International5 | International6
| International7 | International8 | International9 | Lang1 | Lang2 | Lang3 | Lang4 | Lang5 | Lang6 | Lang7
| Lang8 | Lang9 | AlternateErase | SysReq | Cancel | Prior | Return | Seperator | Out | Oper
| CrSel | ExSel | Hundreds | Thousands | ThousandsSeperator | DecimalSeperator | CurrencyUnit | CurrencySubUnit | MemoryStore | MemoryRecall
| MemoryClear | MemoryAdd | MemorySub | MemoryMultiply | MemoryDivide | Clear | ClearEntry | Binary | Octal | Decimal
| Hexadecimal.
Definition control_key_u32 (k : ControlKey) : Z :=
  match k with
  | Escape => 0 | Left => 1 | Right => 2 | Up => 3 | Down => 4 | Insert => 5
  | PageUp => 6 | PageDown => 7 | Home => 8 | End => 9 | PrintScreen => 10 | Pause => 11
  | NumLock => 12 | ScrollLock => 13 | CapsLock => 14 | Application => 15 | Power => 16 | Execute => 17
  | Help => 18 | Menu => 19 | Select => 20 | Stop => 21 | Again => 22 | Undo => 23
  | Cut => 24 | Copy => 25 | Paste => 26 | Find => 27 | Mute => 28 | VolumeUp => 29
  | VolumeDown => 30 | LockingCapsLock => 31 | LockingNumLock => 32 | LockingScrollLock => 33 | International1 => 34 | International2 => 35
  | International3 => 36 | International4 => 37 | International5 => 38 | International6 => 39 | International7 => 40 | International8 => 41
  | International9 => 42 | Lang1 => 43 | Lang2 => 44 | Lang3 => 45 | Lang4 => 46 | Lang5 => 47
  | Lang6 => 48 | Lang7 => 49 | Lang8 => 50 | Lang9 => 51 | AlternateErase => 52 | SysReq => 53
  | Cancel => 54 | Prior => 55 | Return => 56 | Seperator => 57 | Out => 58 | Oper => 59
  | CrSel => 60 | ExSel => 61 | Hundreds => 62 | Thousands => 63 | ThousandsSeperator => 64 | DecimalSeperator => 65
  | CurrencyUnit => 66 | CurrencySubUnit => 67 | MemoryStore => 0x10000 | MemoryRecall => 0x10001 | MemoryClear => 0x10002 | MemoryAdd => 0x10003
  | MemorySub => 0x10004 | MemoryMultiply => 0x10005 | MemoryDivide => 0x10006 | Clear => 0x10007 | ClearEntry => 0x10008 | Binary => 0x10009
  | Octal => 0x1000a | Decimal => 0x1000b | Hexadecimal => 0x1000c
  end.
Definition KEYPAD_OFFSET : Z := 0x110000.

Inductive ModifierKey := LeftControl | LeftShift | LeftAlt | LeftSuper | RightControl | AltRight | RightSuper | RightShift.
Definition modifier_u32 (m : ModifierKey) : Z :=
  match m with LeftControl => 0 | LeftShift => 1 | LeftAlt => 2 | LeftSuper => 3 | RightControl => 4 | AltRight => 5 | RightSuper => 6 | RightShift => 7 end.

Inductive KeyState := Released | Pressed.

Inductive KeyGroup := MainBody (c : Z) | Control (k : ControlKey) | Keypad (c : Z) | FunctionKey (n : Z) | Modifier (m : ModifierKey) | Extra (n : Z).

Definition group_tag (g : KeyGroup) : Z := match g with MainBody _ => 0 | Control _ => 1 | Keypad _ => 2 | FunctionKey _ => 3 | Modifier _ => 4 | Extra _ => 5 end.
Definition group_value (g : KeyGroup) : Z :=
  match g with MainBody c => c | Control k => control_key_u32 k | Keypad c => c | FunctionKey n => n | Modifier m => modifier_u32 m | Extra n => n end.

Record KeyChar := mkChar { key_group : KeyGroup; state : KeyState }.

(** [KeyChar::into_bytes]: the tag, three bytes of padding, the value and the state. *)
Definition into_bytes (c : KeyChar) : list Z :=
  [group_tag (key_group c); 0; 0; 0] ++ le_bytes 4 (group_value (key_group c)) ++ [match state c with Released => 0 | Pressed => 1 end].

End Keyboard.
Import Keyboard.

(** ** Key codes *)

Definition in_range (k lo hi : Z) : bool := (lo <=? k) && (k <=? hi).

(** The arms of [usb_2_hid] for one code each, up to [0x98] and from there. *)
Definition low_key (k : Z) : option KeyGroup :=
  match k with
  | 0x27 => Some (MainBody 0x30) | 0x28 => Some (MainBody 0xa) | 0x29 => Some (Control Escape) | 0x2a => Some (MainBody 0x8)
  | 0x2b => Some (MainBody 0x9) | 0x2c => Some (MainBody 0x20) | 0x2d => Some (MainBody 0x2d) | 0x2e => Some (MainBody 0x3d)
  | 0x2f => Some (MainBody 0x5b) | 0x30 => Some (MainBody 0x5d) | 0x31 => Some (MainBody 0x5c) | 0x32 => Some (MainBody 0x23)
  | 0x33 => Some (MainBody 0x3b) | 0x34 => Some (MainBody 0x27) | 0x35 => Some (MainBody 0x60) | 0x36 => Some (MainBody 0x2c)
  | 0x37 => Some (MainBody 0x2e) | 0x38 => Some (MainBody 0x2f) | 0x39 => Some (Control CapsLock) | 0x46 => Some (Control PrintScreen)
  | 0x47 => Some (Control ScrollLock) | 0x48 => Some (Control Pause) | 0x49 => Some (Control Insert) | 0x4a => Some (Control Home)
  | 0x4b => Some (Control PageUp) | 0x4c => Some (MainBody 0x177) | 0x4d => Some (Control End) | 0x4e => Some (Control PageDown)
  | 0x4f => Some (Control Right) | 0x50 => Some (Control Left) | 0x51 => Some (Control Down) | 0x52 => Some (Control Up)
  | 0x53 => Some (Control NumLock) | 0x54 => Some (Keypad 0x2f) | 0x55 => Some (Keypad 0x2a) | 0x56 => Some (Keypad 0x2d)
  | 0x57 => Some (Keypad 0x2b) | 0x58 => Some (Keypad 0xa) | 0x62 => Some (Keypad 0x30) | 0x63 => Some (Keypad 0x2e)
  | 0x64 => Some (MainBody 0x2216) | 0x65 => Some (Control Application) | 0x66 => Some (Control Power) | 0x67 => Some (Keypad 0x3d)
  | 0x74 => Some (Control Execute) | 0x75 => Some (Control Help) | 0x76 => Some (Control Menu) | 0x77 => Some (Control Select)
  | 0x78 => Some (Control Stop) | 0x79 => Some (Control Again) | 0x7a => Some (Control Undo) | 0x7b => Some (Control Cut)
  | 0x7c => Some (Control Copy) | 0x7d => Some (Control Paste) | 0x7e => Some (Control Find) | 0x7f => Some (Control Mute)
  | 0x80 => Some (Control VolumeUp) | 0x81 => Some (Control VolumeDown) | 0x82 => Some (Control LockingCapsLock)
  | 0x83 => Some (Control LockingNumLock) | 0x84 => Some (Control LockingScrollLock) | 0x85 => Some (Keypad 0x2c) | 0x86 => Some (Keypad 0x3d)
  | 0x87 => Some (Control International1) | 0x88 => Some (Control International2) | 0x89 => Some (Control International3)
  | 0x8a => Some (Control International4) | 0x8b => Some (Control International5) | 0x8c => Some (Control International6)
  | 0x8d => Some (Control International7) | 0x8e => Some (Control International8) | 0x8f => Some (Control International9)
  | 0x90 => Some (Control Lang1) | 0x91 => Some (Control Lang2) | 0x92 => Some (Control Lang3) | 0x93 => Some (Control Lang4)
  | 0x94 => Some (Control Lang5) | 0x95 => Some (Control Lang6) | 0x96 => Some (Control Lang7) | 0x97 => Some (Control Lang8)
  | 0x98 => Some (Control Lang9)
  | _ => None
  end.

Definition high_key (k : Z) : option KeyGroup :=
  match k with
  | 0x99 => Some (Control AlternateErase) | 0x9a => Some (Control SysReq) | 0x9b => Some (Control Cancel) | 0x9c => Some (Control Clear)
  | 0x9d => Some (Control Prior) | 0x9e => Some (Control Return) | 0x9f => Some (Control Seperator) | 0xa0 => Some (Control Out)
  | 0xa1 => Some (Control Oper) | 0xa2 => Some (Control Clear) | 0xa3 => Some (Control CrSel) | 0xa4 => Some (Control ExSel)
  | 0xb0 => Some (Control Hundreds) | 0xb1 => Some (Control Thousands) | 0xb2 => Some (Control ThousandsSeperator)
  | 0xb3 => Some (Control DecimalSeperator) | 0xb4 => Some (Control CurrencyUnit) | 0xb5 => Some (Control CurrencySubUnit)
  | 0xb6 => Some (Keypad 0x28) | 0xb7 => Some (Keypad 0x29) | 0xb8 => Some (Keypad 0x7b) | 0xb9 => Some (Keypad 0x7d)
  | 0xba => Some (Keypad 0x9) | 0xbb => Some (Keypad 0x8) | 0xc2 => Some (Keypad 0x2295) | 0xc3 => Some (Keypad 0x5e)
  | 0xc4 => Some (Keypad 0x25) | 0xc5 => Some (Keypad 0x3c) | 0xc6 => Some (Keypad 0x3e) | 0xc7 => Some (Keypad 0x26)
  | 0xc8 => Some (Keypad 0x2227) | 0xc9 => Some (Keypad 0x7c) | 0xca => Some (Keypad 0x2228) | 0xcb => Some (Keypad 0x3a)
  | 0xcc => Some (Keypad 0x23) | 0xcd => Some (Keypad 0x20) | 0xce => Some (Keypad 0x40) | 0xcf => Some (Keypad 0x21)
  | 0xd0 => Some (Keypad (control_key_u32 MemoryStore + KEYPAD_OFFSET)) | 0xd1 => Some (Keypad (control_key_u32 MemoryRecall + KEYPAD_OFFSET))
  | 0xd2 => Some (Keypad (control_key_u32 MemoryClear + KEYPAD_OFFSET)) | 0xd3 => Some (Keypad (control_key_u32 MemoryAdd + KEYPAD_OFFSET))
  | 0xd4 => Some (Keypad (control_key_u32 MemorySub + KEYPAD_OFFSET)) | 0xd5 => Some (Keypad (control_key_u32 MemoryMultiply + KEYPAD_OFFSET))
  | 0xd6 => Some (Keypad (control_key_u32 MemoryDivide + KEYPAD_OFFSET)) | 0xd7 => Some (Keypad 0xb1)
  | 0xd8 => Some (Keypad (control_key_u32 Clear + KEYPAD_OFFSET)) | 0xd9 => Some (Keypad (control_key_u32 ClearEntry + KEYPAD_OFFSET))
  | 0xda => Some (Keypad (control_key_u32 Binary + KEYPAD_OFFSET)) | 0xdb => Some (Keypad (control_key_u32 Octal + KEYPAD_OFFSET))
  | 0xdc => Some (Keypad (control_key_u32 Decimal + KEYPAD_OFFSET)) | 0xdd => Some (Keypad (control_key_u32 Hexadecimal + KEYPAD_OFFSET))
  | 0xe0 => Some (Modifier LeftControl) | 0xe1 => Some (Modifier LeftShift) | 0xe2 => Some (Modifier LeftAlt)
  | 0xe3 => Some (Modifier LeftSuper) | 0xe4 => Some (Modifier RightControl) | 0xe5 => Some (Modifier RightShift)
  | 0xe6 => Some (Modifier AltRight) | 0xe7 => Some (Modifier RightSuper)
  | _ => None
  end.

Definition usb_2_hid (k : Z) : result KeyGroup IoError :=
  if k =? 0 then Err InvalidData
  else if k =? 1 then Err Busy
  else if k =? 2 then Err MediaError
  else if in_range k 4 0x1d then Ok (MainBody ((93 + k) mod 256))
  else if in_range k 0x1e 0x26 then Ok (MainBody ((19 + k) mod 256))
  else if in_range k 0x3a 0x45 then Ok (FunctionKey (k - 0x39))
  else if in_range k 0x59 0x61 then Ok (Keypad (k - 0x58))
  else if in_range k 0x68 0x73 then Ok (FunctionKey ((k - (0x68 + 13)) mod 2 ^ 16))
  else if in_range k 0xbc 0xc1 then Ok (Keypad ((k mod 256 - 0xbd + 65) mod 256))
  else match low_key k with
       | Some g => Ok g
       | None => match high_key k with Some g => Ok g | None => Err InvalidData end
       end.

(** ** The state of the keys *)

Definition KeyboardStateMachine : Type := Z * Z.
Definition kb_empty : KeyboardStateMachine := (0, 0).

(** [1 << n] of a [u128]. *)
Definition one_shl (n : Z) : Z := Z.shiftl 1 (n mod 128).

Definition flip_first_bit (s : KeyboardStateMachine) : option Z * KeyboardStateMachine :=
  let pos := ctz 128 s.1 in
  if pos =? 128 then
    let pos := ctz 128 s.2 in
    if pos =? 128 then (None, s) else (Some ((pos + 128) mod 256), (s.1, Z.lxor s.2 (one_shl pos)))
  else (Some (pos mod 256), (Z.lxor s.1 (one_shl pos), s.2)).

Definition kb_get_bit (s : KeyboardStateMachine) (index : Z) : bool :=
  let '(word, index) := if 128 <? index then (s.2, index - 128) else (s.1, index) in
  negb (Z.land word (one_shl index) =? 0).

Definition kb_set_bit (s : KeyboardStateMachine) (index : Z) : KeyboardStateMachine :=
  if 128 <? index then (s.1, Z.lor s.2 (one_shl (index - 128))) else (Z.lor s.1 (one_shl index), s.2).

Definition kb_xor (a b : KeyboardStateMachine) : KeyboardStateMachine := (Z.lxor a.1 b.1, Z.lxor a.2 b.2).

(** ** Streams of a file *)
Module HidIndexFlags.
Definition KEYBOARD_IF : Z := 1.
Definition RODENT_IF : Z := 2.
Definition NO_BITFIELD : Z := bit 63.
Definition QUERY : Z := bit 62.
Definition KEYBOARD : Z := bit (KEYBOARD_IF - 1).
Definition RODENT : Z := bit (RODENT_IF - 1).
End HidIndexFlags.
Import HidIndexFlags.

(** ** Report descriptors, as the crate gives them *)
Class HidReport := {
  ReportDescriptor : Type;
  VariableField : Type;
  ArrayField : Type;
  rd_try_from : list Z -> option ReportDescriptor;
  input_reports : ReportDescriptor -> list (list (VariableField + ArrayField + unit) * Z);
  output_sizes : ReportDescriptor -> list Z;
  feature_sizes : ReportDescriptor -> list Z;
  var_page : VariableField -> Z;
  var_id : VariableField -> Z;
  extract : VariableField -> list Z -> option Z;
  array_page : ArrayField -> Z;
  report_count : ArrayField -> nat;
  extract_one : ArrayField -> list Z -> nat -> option Z }.

(** [binary_search_by]. *)
Class SliceSearch := {
  search : forall {A}, (A -> comparison) -> list A -> result nat nat;
  search_spec : forall A (f : A -> comparison) l1 l2 l3,
    Forall (fun a => f a = Lt) l1 -> Forall (fun a => f a = Eq) l2 -> Forall (fun a => f a = Gt) l3 ->
    match search f (l1 ++ l2 ++ l3) with
    | Ok i => (length l1 <= i < length l1 + length l2)%nat
    | Err i => l2 = [] /\ i = length l1
    end }.

Section Hid.
Context `{FO : FlagOps} `{HR : HidReport} `{SS : SliceSearch}.

Definition is_multiple (f : Z) : bool := if contains f NO_BITFIELD then true else popcount 32 (f mod 2 ^ 32) <? 2.

Definition is_interface (f interface : Z) : bool :=
  if contains f NO_BITFIELD then Z.land f (wnot NO_BITFIELD) mod 2 ^ 32 =? interface
  else if 31 <? interface then false
  else negb (Z.land (f mod 2 ^ 32) (Z.shiftl 1 ((interface - 1) mod 2 ^ 32 mod 32)) =? 0).

(** ** The pipe *)

Record QueuedOp := mkOp { payload : list Z; op_serial : Z; op_pending : Z; op_interface : Z }.

Record HidPipeInner := mkPipe { pend : list (list Z * Z * nat); open_read : Z; p_serial : Z; queued : list QueuedOp; interfaces : list Z; done : list (nat * list Z * nat) }.

Definition pipe_new : HidPipeInner := mkPipe [] 0 0 [] [] [].
Definition enable_interface (i : Z) (p : HidPipeInner) : HidPipeInner :=
  mkPipe (pend p) (open_read p) (p_serial p) (queued p) (if bool_decide (i ∈ interfaces p) then interfaces p else interfaces p ++ [i]) (done p).
Definition set_queued (q : list QueuedOp) (p : HidPipeInner) : HidPipeInner := mkPipe (pend p) (open_read p) (p_serial p) q (interfaces p) (done p).
Definition set_open (n : Z) (p : HidPipeInner) : HidPipeInner := mkPipe (pend p) n (p_serial p) (queued p) (interfaces p) (done p).

(** The bytes of one waiting read: the buffer and the length that is reported. *)
Definition fill (buffer : list Z) (select : Z) (payload : list Z) (interface_index : Z) : outcome (list Z * nat) :=
  r ← (if is_multiple select then assert_that (Nat.ltb 0 (length buffer));; Done ([interface_index mod 256], drop 1 buffer) else Done ([], buffer));
  let '(pre, tgt) := (r : list Z * list Z) in
  let len := Nat.min (length tgt) (length payload) in
  Done (pre ++ take len payload ++ drop len tgt, len).

(** [extract_if]: the reads that select the interface are taken out and completed. *)
Fixpoint deliver (payload : list Z) (interface_index : Z) (l : list (list Z * Z * nat)) : outcome (list (list Z * Z * nat) * list (nat * list Z * nat)) :=
  match l with
  | [] => Done ([], [])
  | (buffer, select, tx) :: l =>
      if is_interface select interface_index then
        b ← fill buffer select payload interface_index;
        r ← deliver payload interface_index l;
        Done (r.1, (tx, b.1, b.2) :: r.2)
      else r ← deliver payload interface_index l; Done ((buffer, select, tx) :: r.1, r.2)
  end.

Definition pend_op (payload : list Z) (interface count : Z) (p : HidPipeInner) : HidPipeInner :=
  set_queued (queued p ++ [mkOp payload (p_serial p) count interface]) p.

Definition send_op (payload : list Z) (interface_index : Z) (p : HidPipeInner) : outcome HidPipeInner :=
  let count := (open_read p ⊖ Z.of_nat (length (pend p)))%u64 in
  r ← deliver payload interface_index (pend p);
  let p := mkPipe r.1 (open_read p) (p_serial p ⊕ 1)%u64 (queued p) (interfaces p) (done p ++ r.2) in
  Done (if 0 <? count then pend_op payload interface_index count p else p).

Fixpoint clean (q : list QueuedOp) : list QueuedOp :=
  match q with [] => [] | op :: q' => if op_pending op =? 0 then clean q' else q end.
Definition clean_queue (p : HidPipeInner) : HidPipeInner := set_queued (clean (queued p)) p.

Definition dec_pending (op : QueuedOp) : QueuedOp := mkOp (payload op) (op_serial op) (op_pending op ⊖ 1)%u64 (op_interface op).

Definition close_from_serial (serial : Z) (p : HidPipeInner) : HidPipeInner :=
  let old := open_read p in
  let p := set_open (old ⊖ 1)%u64 p in
  if old =? 1 then set_queued [] p
  else match search (fun e => Z.compare (op_serial e) serial) (queued p) with
       | Ok start => clean_queue (set_queued (take start (queued p) ++ (dec_pending <$> drop start (queued p))) p)
       | Err _ => p
       end.

(** The loop of [receive_queued]: the operations it passed, the one it stopped at, and whether one of
    them is not awaited any more. *)
Fixpoint recv_loop (interface : Z) (dirty : bool) (q : list QueuedOp) : list QueuedOp * option QueuedOp * bool :=
  match q with
  | [] => ([], None, dirty)
  | i :: q =>
      let dirty := dirty || (op_pending i =? 1) in
      if is_interface interface (op_interface i) then (dec_pending i :: q, Some i, dirty)
      else let '(q, found, dirty) := recv_loop interface dirty q in (dec_pending i :: q, found, dirty)
  end.

(** Cleaning the queue locks it again. *)
Definition receive_queued (buffer : list Z) (interface serial : Z) (p : HidPipeInner) : option (result nat unit * Z * list Z * HidPipeInner) :=
  let start := match search (fun e => Z.compare serial (op_serial e)) (queued p) with Ok s => s | Err s => s end in
  let '(q, found, dirty) := recv_loop interface false (drop start (queued p)) in
  if (dirty : bool) then None
  else
    let p := set_queued (take start (queued p) ++ q) p in
    match found with
    | Some i => let len := Nat.min (length (payload i)) (length buffer) in Some (Ok len, op_serial i, take len (payload i) ++ drop len buffer, p)
    | None => Some (Err tt, p_serial p, buffer, p)
    end.

(** ** File objects *)

Record HidPipe := mkHid { f_alive : bool; open_mode : Dispatcher.OpenMode; f_serial : Z }.

Definition to_file (interface : Z) (p : HidPipeInner) : outcome HidPipe := assert_that (interface <? 16);; Done (mkHid true Dispatcher.Locked (p_serial p)).

Definition hid_open (m : Dispatcher.OpenMode) (f : HidPipe) (p : HidPipeInner) : result unit IoError * HidPipe * HidPipeInner :=
  if negb (f_alive f) then (Err NotPresent, f, p)
  else match open_mode f with
       | Dispatcher.Locked =>
           if Dispatcher.is_read m then (Ok tt, mkHid true m (p_serial p), set_open (open_read p ⊕ 1)%u64 p) else (Ok tt, mkHid true m (f_serial f), p)
       | _ => (Err Busy, f, p)
       end.

Definition hid_close (f : HidPipe) (p : HidPipeInner) : result unit IoError * HidPipe * HidPipeInner :=
  match open_mode f with
  | Dispatcher.Locked => (Err Busy, f, p)
  | _ => if negb (f_alive f) then (Err NotPresent, f, p) else (Ok tt, mkHid true Dispatcher.Locked (f_serial f), close_from_serial (f_serial f) p)
  end.

Inductive ReadResult := RErr (e : IoError) (buff : list Z) | RReady (buff : list Z) (len : nat) | RWait.

(** [recv_data]; [tx] is the new message. *)
Definition recv_data (tx : nat) (buffer : list Z) (interface : Z) (f : HidPipe) (p : HidPipeInner) : option (ReadResult * HidPipe * HidPipeInner) :=
  let wait buffer f p := Some (RWait, f, mkPipe (pend p ++ [(buffer, interface, tx)]) (open_read p) (p_serial p) (queued p) (interfaces p) (done p)) in
  if f_serial f =? p_serial p then wait buffer f p
  else match receive_queued buffer interface (f_serial f) p with
       | None => None
       | Some (rc, serial, buffer, p) =>
           let f := mkHid (f_alive f) (open_mode f) serial in
           match rc with Ok n => Some (RReady buffer n, f, p) | Err _ => wait buffer f p end
       end.

(** The loop over the bits of an index; the fuel is one more than the bits of a [u32]. *)
Fixpoint bit_scan (fuel : nat) (flags : Z) (ifs : list Z) (no_if : bool) : option bool :=
  match fuel with
  | O => None
  | S fuel =>
      if flags =? 0 then Some no_if
      else let bit := ctz 32 flags in bit_scan fuel (Z.ldiff flags (Z.shiftl 1 bit)) ifs (if bool_decide (bit ∈ ifs) then false else no_if)
  end.

Definition supported (pos : Z) (ifs : list Z) : bool :=
  if contains pos NO_BITFIELD then match bit_scan 33 (pos mod 2 ^ 32) ifs true with Some no_if => negb no_if | None => false end
  else bool_decide (pos mod 2 ^ 32 ∈ ifs).

Definition hid_read (tx : nat) (pos : Z) (buff : list Z) (f : HidPipe) (p : HidPipeInner) : option (ReadResult * HidPipe * HidPipeInner) :=
  if Nat.leb (length buff) 1 then Some (RErr InvalidData buff, f, p)
  else if negb (Dispatcher.is_read (open_mode f)) then Some (RErr NotReady buff, f, p)
  else if negb (f_alive f) then Some (RErr NotPresent buff, f, p)
  else if negb (supported pos (interfaces p)) then Some (RErr NotSupported buff, f, p)
  else recv_data tx buff pos f p.

(** ** Keyboards *)

Record BaseKeyboardIf := mkKeyboard { modifier_keys : list VariableField; main_keys : ArrayField; state_machine : KeyboardStateMachine }.

Definition KEYBOARD_PAGE : Z := 7.

Definition keyboard_new (report : ReportDescriptor) : option BaseKeyboardIf :=
  let '(vs, a) := foldl (fun acc (f : VariableField + ArrayField + unit) =>
      let '(vs, a) := acc in
      match f with
      | inl (inl v) => if var_page v =? KEYBOARD_PAGE then (vs ++ [v], a) else (vs, a)
      | inl (inr ar) => if array_page ar =? KEYBOARD_PAGE then (vs, Some ar) else (vs, a)
      | inr _ => (vs, a)
      end) ([], None) (mjoin (fst <$> input_reports report)) in
  match a with
  | Some ar => if bool_decide (vs = []) then None else Some (mkKeyboard vs ar kb_empty)
  | None => None
  end.

(** [dedup_by] the usage page, which is the same for every keyboard. *)
Definition resolve_interfaces (report : ReportDescriptor) : result (list BaseKeyboardIf) IoError :=
  let collection := option_list (keyboard_new report) in
  let initial_len := length collection in
  let collection := take 1 collection in
  if Nat.eqb (length collection) initial_len then Ok collection else Err AlreadyExists.

(** [max] over the sizes of the reports. *)
Definition resolve_interface_sizes (report : ReportDescriptor) : Z * Z * Z :=
  (foldl Z.max 0 (snd <$> input_reports report), foldl Z.max 0 (output_sizes report), foldl Z.max 0 (feature_sizes report)).

Definition modifiers (fields : list VariableField) (report : list Z) (s : KeyboardStateMachine) : KeyboardStateMachine :=
  foldl (fun s f => match extract f report with
                    | Some data => if data =? 0 then s else kb_set_bit s (var_id f mod 256)
                    | None => s
                    end) s fields.

Fixpoint main_loop (field : ArrayField) (report : list Z) (n i : nat) (s : KeyboardStateMachine) : KeyboardStateMachine :=
  match n with
  | O => s
  | S n =>
      match extract_one field report i with
      | None => s
      | Some key => if key =? 0 then s else main_loop field report n (S i) (kb_set_bit s (key mod 256))
      end
  end.

(** The loop over the changed keys; the fuel is one more than the keys. *)
Fixpoint update_loop (fuel : nat) (diff state : KeyboardStateMachine) (stream : HidPipeInner) : outcome (option (result unit IoError * HidPipeInner)) :=
  match fuel with
  | O => Done None
  | S fuel =>
      match flip_first_bit diff with
      | (None, _) => Done (Some (Ok tt, stream))
      | (Some key, diff) =>
          match usb_2_hid key with
          | Err e => Done (Some (Err e, stream))
          | Ok keycode =>
              let char := mkChar keycode (if kb_get_bit state key then Pressed else Released) in
              stream ← send_op (into_bytes char) KEYBOARD_IF stream;
              update_loop fuel diff state stream
          end
      end
  end.

Definition parse_report (kb : BaseKeyboardIf) (report : list Z) (stream : HidPipeInner) : outcome (option (result unit IoError * BaseKeyboardIf * HidPipeInner)) :=
  let curr_state := modifiers (modifier_keys kb) report kb_empty in
  let curr_state := main_loop (main_keys kb) report (report_count (main_keys kb)) 0 curr_state in
  let prev_state := state_machine kb in
  let kb := mkKeyboard (modifier_keys kb) (main_keys kb) curr_state in
  r ← update_loop 257 (kb_xor prev_state curr_state) curr_state stream;
  Done (match (r : option (result unit IoError * HidPipeInner)) with Some (rc, stream) => Some (rc, kb, stream) | None => None end).

End Hid.

(** ** Theorems *)

(** *** The state of the keys *)

(** Whether a key is in the state, for the 256 codes. *)
Definition key_bit (s : KeyboardStateMachine) (k : Z) : bool := if k <? 128 then Z.testbit s.1 k else Z.testbit s.2 (k - 128).

(** Code 128 is kept at the place of code 0, and its own place is never used. *)
Definition place (k : Z) : Z := if k =? 128 then 0 else k.
Record kb_wf (s : KeyboardStateMachine) : Prop := { kb_low : 0 <= s.1 < 2 ^ 128; kb_high : 0 <= s.2 < 2 ^ 128; kb_128 : key_bit s 128 = false }.

Lemma kb_empty_wf : kb_wf kb_empty.
Proof. split; done. Qed.

Lemma one_shl_bit n j : 0 <= j -> Z.testbit (one_shl n) j = (j =? n mod 128).
Proof.
  intros Hj. unfold one_shl. pose proof (Z.mod_pos_bound n 128 ltac:(lia)). rewrite Z.shiftl_1_l, Z.pow2_bits_eqb by lia. apply Z.eqb_sym.
Qed.

Lemma bits_bound w x : 0 <= w -> 0 <= x -> (forall i, w <= i -> Z.testbit x i = false) -> 0 <= x < 2 ^ w.
Proof.
  intros Hw Hx Hb. split; [done|]. rewrite <- (Z.mod_small x (2 ^ Z.max w (Z.log2 x + 1))).
  2: { split; [done|]. destruct (decide (x = 0)) as [->|]; [apply Z.pow_pos_nonneg; lia|]. apply Z.log2_lt_pow2; lia. }
  assert (x mod 2 ^ Z.max w (Z.log2 x + 1) = x mod 2 ^ w) as ->; [|apply Z.mod_pos_bound, Z.pow_pos_nonneg; lia].
  apply Z.bits_inj'. intros i Hi. destruct (decide (i < w)); [by rewrite !Z.mod_pow2_bits_low by lia|]. rewrite (Z.mod_pow2_bits_high x w) by lia.
  destruct (decide (i < Z.max w (Z.log2 x + 1))); [rewrite Z.mod_pow2_bits_low by lia; apply Hb; lia|by rewrite Z.mod_pow2_bits_high by lia].
Qed.

Lemma high_bits x i : 0 <= x < 2 ^ 128 -> 128 <= i -> Z.testbit x i = false.
Proof. intros Hx Hi. rewrite <- (Z.mod_small x (2 ^ 128)) by done. by rewrite Z.mod_pow2_bits_high by lia. Qed.

Lemma kb_get_bit_key s k : 0 <= k < 256 -> k <> 128 -> kb_get_bit s k = key_bit s k.
Proof.
  intros Hk Hn. assert (forall w i, 0 <= i < 128 -> negb (Z.land w (one_shl i) =? 0) = Z.testbit w i) as Hw.
  { intros w i Hi. unfold one_shl. rewrite Z.mod_small by lia. change (Z.shiftl 1 i) with (bit i). rewrite land_bit_zero by lia. apply negb_involutive. }
  unfold kb_get_bit, key_bit. destruct (Z.ltb_spec 128 k), (Z.ltb_spec k 128); try lia; apply Hw; lia.
Qed.

Lemma kb_set_bit_key s i j : 0 <= i < 256 -> 0 <= j < 256 -> kb_wf s -> key_bit (kb_set_bit s i) j = key_bit s j || (j =? place i).
Proof.
  intros Hi Hj Hs. unfold kb_set_bit, key_bit, place. destruct (Z.ltb_spec 128 i), (Z.ltb_spec j 128), (Z.eqb_spec i 128); try lia; cbn [fst snd]; rewrite ?Z.lor_spec, ?one_shl_bit by lia.
  - replace (j =? i) with false by (symmetry; apply Z.eqb_neq; lia). by rewrite orb_false_r.
  - rewrite Z.mod_small by lia. f_equal. destruct (Z.eqb_spec (j - 128) (i - 128)), (Z.eqb_spec j i); lia || done.
  - subst i. done.
  - by rewrite Z.mod_small by lia.
  - replace (j =? 0) with false by (symmetry; apply Z.eqb_neq; lia). by rewrite orb_false_r.
  - replace (j =? i) with false by (symmetry; apply Z.eqb_neq; lia). by rewrite orb_false_r.
Qed.

Lemma kb_set_bit_wf s i : 0 <= i < 256 -> kb_wf s -> kb_wf (kb_set_bit s i).
Proof.
  intros Hi Hs. split.
  - unfold kb_set_bit. destruct (Z.ltb_spec 128 i); [apply Hs|]. cbn [fst]. apply bits_bound; [lia|apply Z.lor_nonneg; split; [apply Hs|apply Z.shiftl_nonneg; lia]|].
    intros j Hj. pose proof (Z.mod_pos_bound i 128 ltac:(lia)). rewrite Z.lor_spec, one_shl_bit, (high_bits s.1) by (apply Hs || lia). apply Z.eqb_neq. lia.
  - unfold kb_set_bit. destruct (Z.ltb_spec 128 i); [|apply Hs]. cbn [snd]. apply bits_bound; [lia|apply Z.lor_nonneg; split; [apply Hs|apply Z.shiftl_nonneg; lia]|].
    intros j Hj. pose proof (Z.mod_pos_bound (i - 128) 128 ltac:(lia)). rewrite Z.lor_spec, one_shl_bit, (high_bits s.2) by (apply Hs || lia). apply Z.eqb_neq. lia.
  - rewrite kb_set_bit_key by (done || lia). rewrite (kb_128 s Hs). cbn [orb]. unfold place. apply Z.eqb_neq. destruct (Z.eqb_spec i 128); lia.
Qed.

Lemma kb_xor_key a b k : key_bit (kb_xor a b) k = xorb (key_bit a k) (key_bit b k).
Proof. unfold key_bit, kb_xor. cbn [fst snd]. destruct (k <? 128); apply Z.lxor_spec. Qed.

Lemma ctz_least x k : 0 <= k < 128 -> Z.testbit x k = true -> (forall j, 0 <= j < k -> Z.testbit x j = false) -> ctz 128 x = k.
Proof.
  intros Hk Hb Hl. pose proof (ctz_bound 128 x). destruct (Z.lt_trichotomy (ctz 128 x) k) as [Hlt|[->|Hgt]]; [|done|].
  - pose proof (ctz_at 128 x ltac:(lia)) as Hat. rewrite Hl in Hat by lia. done.
  - rewrite (ctz_below 128 x k) in Hb by lia. done.
Qed.

Lemma ctz_none x : (forall j, 0 <= j < 128 -> Z.testbit x j = false) -> ctz 128 x = 128.
Proof.
  intros Hl. pose proof (ctz_bound 128 x). destruct (decide (ctz 128 x = 128)) as [|Hn]; [done|]. pose proof (ctz_at 128 x ltac:(lia)) as Hat. rewrite Hl in Hat by lia. done.
Qed.

Lemma flip_none s : (forall k, 0 <= k < 256 -> key_bit s k = false) -> flip_first_bit s = (None, s).
Proof.
  intros Hk. unfold flip_first_bit. rewrite !ctz_none; [done|..]; intros j Hj.
  - specialize (Hk (j + 128) ltac:(lia)). unfold key_bit in Hk. rewrite (proj2 (Z.ltb_ge _ _)) in Hk by lia. by replace (j + 128 - 128) with j in Hk by lia.
  - specialize (Hk j ltac:(lia)). unfold key_bit in Hk. by rewrite (proj2 (Z.ltb_lt _ _)) in Hk by lia.
Qed.

(** The first key of the state is taken out. *)
Lemma flip_some s k : 0 <= k < 256 -> key_bit s k = true -> (forall j, 0 <= j < k -> key_bit s j = false) ->
  exists s', flip_first_bit s = (Some k, s') /\ forall j, 0 <= j < 256 -> key_bit s' j = key_bit s j && negb (j =? k).
Proof.
  intros Hk Hb Hl. assert (forall w i j, 0 <= i < 128 -> 0 <= j -> Z.testbit w i = true -> Z.testbit (Z.lxor w (one_shl i)) j = Z.testbit w j && negb (j =? i)) as Hx.
  { intros w i j Hi Hj Hw. rewrite Z.lxor_spec, one_shl_bit, Z.mod_small by lia. destruct (Z.eqb_spec j i) as [->|]; [by rewrite Hw|]. by rewrite xorb_false_r, andb_true_r. }
  unfold flip_first_bit. destruct (Z.lt_ge_cases k 128) as [Hlt|Hge].
  - assert (Z.testbit s.1 k = true) as Hw by (unfold key_bit in Hb; by rewrite (proj2 (Z.ltb_lt _ _)) in Hb by lia). rewrite (ctz_least s.1 k) by (done || lia || (intros j Hj; specialize (Hl j Hj); unfold key_bit in Hl; by rewrite (proj2 (Z.ltb_lt _ _)) in Hl by lia)).
    rewrite (proj2 (Z.eqb_neq k 128)), Z.mod_small by lia. eexists. split; [done|]. intros j Hj. unfold key_bit. cbn [fst snd]. destruct (Z.ltb_spec j 128); [apply Hx; done || lia|].
    replace (j =? k) with false by (symmetry; apply Z.eqb_neq; lia). by rewrite andb_true_r.
  - assert (Z.testbit s.2 (k - 128) = true) as Hw by (unfold key_bit in Hb; by rewrite (proj2 (Z.ltb_ge _ _)) in Hb by lia).
    rewrite (ctz_none s.1) by (intros j Hj; specialize (Hl j ltac:(lia)); unfold key_bit in Hl; by rewrite (proj2 (Z.ltb_lt _ _)) in Hl by lia).
    rewrite (ctz_least s.2 (k - 128)) by (done || lia || (intros j Hj; specialize (Hl (j + 128) ltac:(lia)); unfold key_bit in Hl; rewrite (proj2 (Z.ltb_ge _ _)) in Hl by lia; by replace (j + 128 - 128) with j in Hl by lia)).
    rewrite Z.eqb_refl, (proj2 (Z.eqb_neq (k - 128) 128)) by lia. replace (k - 128 + 128) with k by lia. rewrite Z.mod_small by lia. eexists. split; [done|]. intros j Hj. unfold key_bit. cbn [fst snd].
    destruct (Z.ltb_spec j 128); [replace (j =? k) with false by (symmetry; apply Z.eqb_neq; lia); by rewrite andb_true_r|]. rewrite Hx by (done || lia). f_equal. f_equal.
    destruct (Z.eqb_spec (j - 128) (k - 128)), (Z.eqb_spec j k); lia || done.
Qed.

Section KeyLaws.
Context `{FO : FlagOps} {FL : FlagLaws} `{HR : HidReport} `{SS : SliceSearch}.

(** *** Reports *)

(** The codes a report names: the modifiers that are down, and the array up to its first zero. *)
Definition held_modifiers (fields : list VariableField) (report : list Z) : list Z :=
  omap (fun f => match extract f report with Some data => if data =? 0 then None else Some (var_id f mod 256) | None => None end) fields.
Fixpoint held_main (field : ArrayField) (report : list Z) (n i : nat) : list Z :=
  match n with
  | O => []
  | S n => match extract_one field report i with Some key => if key =? 0 then [] else key mod 256 :: held_main field report n (S i) | None => [] end
  end.
Definition held (kb : BaseKeyboardIf) (report : list Z) : list Z :=
  held_modifiers (modifier_keys kb) report ++ held_main (main_keys kb) report (report_count (main_keys kb)) 0.

(** Whether a key is down. *)
Definition key_down (kb : BaseKeyboardIf) (k : Z) : bool := key_bit (state_machine kb) k.

(** One character for each of the keys, until a code has none. *)
Fixpoint send_keys (down : Z -> bool) (l : list Z) (p : HidPipeInner) : outcome (result unit IoError * HidPipeInner) :=
  match l with
  | [] => Done (Ok tt, p)
  | k :: l =>
      match usb_2_hid k with
      | Err e => Done (Err e, p)
      | Ok g => p ← send_op (into_bytes (mkChar g (if down k then Pressed else Released))) KEYBOARD_IF p; send_keys down l p
      end
  end.

Definition all_keys : list Z := seqZ 0 256.

Definition add_keys (s : KeyboardStateMachine) (l : list Z) : KeyboardStateMachine := foldl kb_set_bit s l.

Lemma add_keys_wf l : Forall is_byte l -> forall s, kb_wf s -> kb_wf (add_keys s l) /\ forall k, 0 <= k < 256 -> key_bit (add_keys s l) k = key_bit s k || bool_decide (k ∈ place <$> l).
Proof.
  induction 1 as [|i l Hi _ IH]; intros s Hs.
  { split; [done|]. intros k _. cbn. by rewrite orb_false_r. }
  cbn [add_keys foldl]. destruct (IH (kb_set_bit s i)) as [Hw Hk]; [by apply kb_set_bit_wf|]. split; [done|]. intros k Hkr. unfold add_keys in Hk. rewrite Hk, kb_set_bit_key by done.
  rewrite <- orb_assoc. f_equal. rewrite fmap_cons. destruct (Z.eqb_spec k (place i)) as [->|Hn]; cbn [orb].
  - symmetry. apply bool_decide_eq_true. apply list_elem_of_here.
  - apply bool_decide_ext. rewrite elem_of_cons. tauto.
Qed.

Lemma modifiers_add fields report s : modifiers fields report s = add_keys s (held_modifiers fields report).
Proof.
  revert s. induction fields as [|f fields IH]; intros s; [done|]. unfold modifiers, held_modifiers in *. cbn [foldl omap list_omap]. destruct (extract f report) as [data|]; [|apply IH]. destruct (data =? 0); apply IH.
Qed.

Lemma main_loop_add field report n : forall i s, main_loop field report n i s = add_keys s (held_main field report n i).
Proof. induction n as [|n IH]; intros i s; [done|]. cbn [main_loop held_main]. destruct (extract_one field report i) as [key|]; [|done]. destruct (key =? 0); [done|]. apply IH. Qed.

Lemma held_bytes kb report : Forall is_byte (held kb report).
Proof.
  assert (forall x, is_byte (x mod 256)) as Hm by (intros x; apply Z.mod_pos_bound; lia). unfold held. apply Forall_app. split.
  - unfold held_modifiers. apply Forall_forall. intros x Hx. apply list_elem_of_omap in Hx as (f & _ & Hx). destruct (extract f report) as [data|]; [|done]. destruct (data =? 0); [done|]. by injection Hx as <-.
  - generalize 0%nat. induction (report_count (main_keys kb)) as [|n IH]; intros i; cbn [held_main]; [constructor|]. destruct (extract_one _ _ i) as [key|]; [|constructor]. destruct (key =? 0); [constructor|]. by constructor.
Qed.

(** The loop over the changed keys. *)
Lemma update_loop_ok st m : forall n fuel d p, m = Z.to_nat (256 - n) -> 0 <= n <= 256 -> (m < fuel)%nat -> (forall j, 0 <= j < n -> key_bit d j = false) -> key_bit d 128 = false ->
  update_loop fuel d st p = (r ← send_keys (key_bit st) (List.filter (key_bit d) (seqZ n (256 - n))) p; Done (Some r)).
Proof.
  induction m as [|m IH]; intros n fuel d p Hm Hn Hf Hz H128; (destruct fuel as [|fuel]; [lia|]); cbn [update_loop].
  { assert (n = 256) as -> by lia. rewrite flip_none by (intros k Hk; apply Hz; lia). done. }
  rewrite seqZ_cons by lia. cbn [List.filter]. replace (Z.succ n) with (n + 1) by lia. replace (Z.pred (256 - n)) with (256 - (n + 1)) by lia. destruct (key_bit d n) eqn:Hb.
  - destruct (flip_some d n ltac:(lia) Hb Hz) as (d' & -> & Hd'). cbn [send_keys]. destruct (usb_2_hid n) as [g|e]; [|done]. rewrite kb_get_bit_key by (lia || congruence).
    assert (forall p', update_loop fuel d' st p' = (r ← send_keys (key_bit st) (List.filter (key_bit d) (seqZ (n + 1) (256 - (n + 1)))) p'; Done (Some r))) as Hrec.
    { intros p'. rewrite (IH (n + 1)); [|lia|lia|lia|..].
      - assert (List.filter (key_bit d') (seqZ (n + 1) (256 - (n + 1))) = List.filter (key_bit d) (seqZ (n + 1) (256 - (n + 1)))) as ->; [|done].
        apply filter_ext_in. intros k Hk. apply list_elem_of_In, elem_of_seqZ in Hk. rewrite Hd' by lia. replace (k =? n) with false by (symmetry; apply Z.eqb_neq; lia). apply andb_true_r.
      - intros j Hj. rewrite Hd' by lia. destruct (Z.eqb_spec j n); [apply andb_false_r|]. by rewrite Hz by lia.
      - rewrite Hd' by lia. by rewrite H128. }
    destruct (send_op _ _ p) as [p'|]; cbn [mbind outcome_bind]; [apply Hrec|done].
  - change (update_loop (S fuel) d st p = (r ← send_keys (key_bit st) (List.filter (key_bit d) (seqZ (n + 1) (256 - (n + 1)))) p; Done (Some r))).
    apply IH; [lia|lia|lia| |done]. intros j Hj. destruct (decide (j = n)) as [->|]; [done|]. apply Hz. lia.
Qed.

(** [parse_report] sends the keys of the difference. *)
Lemma parse_report_spec kb report p : kb_wf (state_machine kb) ->
  let s := add_keys kb_empty (held kb report) in
  kb_wf s /\ (forall k, 0 <= k < 256 -> key_bit s k = bool_decide (k ∈ place <$> held kb report)) /\
  parse_report kb report p = (r ← send_keys (key_bit s) (List.filter (key_bit (kb_xor (state_machine kb) s)) all_keys) p; Done (Some (r.1, mkKeyboard (modifier_keys kb) (main_keys kb) s, r.2))).
Proof.
  intros Hw. cbn zeta. unfold parse_report. rewrite modifiers_add, main_loop_add. set (s := add_keys (add_keys kb_empty _) _).
  assert (s = add_keys kb_empty (held kb report)) as Hs by (unfold held, add_keys, s; by rewrite foldl_app). rewrite <- Hs.
  destruct (add_keys_wf (held kb report) (held_bytes kb report) kb_empty kb_empty_wf) as [Hsw Hsk]. rewrite <- Hs in Hsw, Hsk. split; [done|]. split.
  { intros k Hk. rewrite Hsk by done. unfold key_bit, kb_empty. cbn [fst snd]. rewrite !Z.bits_0. by destruct (k <? 128). }
  rewrite (update_loop_ok s 256 0) by (lia || done || (rewrite kb_xor_key, (kb_128 _ Hw), (kb_128 _ Hsw); done)). unfold all_keys. change (256 - 0) with 256.
  destruct (send_keys _ _ p) as [[rc p']|]; done.
Qed.

(** A report without the codes 1 (too many keys) and 128: every code has a place of its own in the state. *)
Definition plain_report (kb : BaseKeyboardIf) (report : list Z) : Prop := Forall (fun k => k <> 1 /\ k <> 128) (held kb report).

Lemma plain_place kb report : plain_report kb report -> place <$> held kb report = held kb report.
Proof.
  unfold plain_report. induction 1 as [|k l [_ Hk] _ IH]; [done|]. cbn [fmap list_fmap]. rewrite IH. f_equal. unfold place. by rewrite (proj2 (Z.eqb_neq k 128)).
Qed.

(** C20. A report of a keyboard that names neither code 1, which stands for too many keys, nor code 128 becomes the characters of exactly the keys that changed.  After [parse_report] the
    keys that are down are those that the report names, modifiers and array alike; and the pipe was sent one
    character for each key that is now down and was not, or was and is not, by ascending code, each with its
    new state, up to the first code that has no character; the result is the error of that code, or success.  The loop over the 256 keys always ends.  (With code 1 the keys of the report are
    kept, although the documentation of [usb_2_hid] has the state rolled back; code 128 is taken for code 0.) *)
Theorem report_updates kb report p : kb_wf (state_machine kb) -> plain_report kb report ->
  exists kb', kb_wf (state_machine kb') /\ (forall k, 0 <= k < 256 -> key_down kb' k = bool_decide (k ∈ held kb report)) /\
    parse_report kb report p =
      (r ← send_keys (key_down kb') (List.filter (fun k => xorb (key_down kb k) (key_down kb' k)) all_keys) p; Done (Some (r.1, kb', r.2))).
Proof.
  intros Hw Hpl. destruct (parse_report_spec kb report p Hw) as (Hs & Hk & ->). rewrite (plain_place kb report Hpl) in Hk. eexists (mkKeyboard (modifier_keys kb) (main_keys kb) _). split; [exact Hs|]. split; [exact Hk|]. unfold key_down. cbn [state_machine].
  by rewrite (filter_ext _ (fun k => xorb (key_bit (state_machine kb) k) (key_bit (add_keys kb_empty (held kb report)) k))) by apply kb_xor_key.
Qed.

(** A report of too many keys replaces the state: the keys that were down before are taken to be up, and nothing is sent about them. *)
Theorem rollover_not_rolled_back kb report p : kb_wf (state_machine kb) -> held kb report = [1] -> key_down kb 0 = false -> key_down kb 1 = false ->
  exists kb', parse_report kb report p = Done (Some (Err Busy, kb', p)) /\ forall k, 0 <= k < 256 -> key_down kb' k = (k =? 1).
Proof.
  intros Hw Hh H0 H1. destruct (parse_report_spec kb report p Hw) as (_ & Hk & ->). rewrite Hh in Hk |- *.
  assert (forall k, 0 <= k < 256 -> key_bit (add_keys kb_empty [1]) k = (k =? 1)) as Hk'. { intros k Hr. rewrite Hk by done. cbn. destruct (Z.eqb_spec k 1) as [->|Hn]; [done|]. apply bool_decide_eq_false. set_solver. }
  eexists (mkKeyboard (modifier_keys kb) (main_keys kb) _). split; [|exact Hk']. unfold all_keys. rewrite seqZ_cons by lia. cbn [List.filter]. unfold key_down in H0, H1. rewrite kb_xor_key, H0, Hk' by lia. cbn [xorb Z.eqb].
  rewrite seqZ_cons by lia. cbn [List.filter]. rewrite kb_xor_key. change (Z.succ 0) with 1. rewrite H1, Hk' by lia. done.
Qed.

(** When a code has no character the rest of the changes are lost, but the keys count as sent. *)
Theorem bad_code_loses kb report p : kb_wf (state_machine kb) -> (forall k, 0 <= k < 256 -> key_down kb k = false) -> 128 ∈ held kb report ->
  exists kb', parse_report kb report p = Done (Some (Err InvalidData, kb', p)).
Proof.
  intros Hw Hup Hin. destruct (parse_report_spec kb report p Hw) as (_ & Hk & ->). unfold all_keys. rewrite seqZ_cons by lia. cbn [List.filter].
  unfold key_down in Hup. rewrite kb_xor_key, Hup, Hk by lia. rewrite bool_decide_eq_true_2 by (apply list_elem_of_fmap; by exists 128). by eexists.
Qed.

(** *** Sending *)

(** Reads wait with at least two bytes. *)
Definition pipe_ok (p : HidPipeInner) : Prop := Forall (fun w => (1 < length w.1.1)%nat) (pend p).

Definition selects (interface : Z) (w : list Z * Z * nat) : bool := is_interface w.1.2 interface.

(** What a waiting read gets. *)
Definition completion (payload : list Z) (interface : Z) (w : list Z * Z * nat) : nat * list Z * nat :=
  let tgt := if is_multiple w.1.2 then drop 1 w.1.1 else w.1.1 in
  let len := Nat.min (length tgt) (length payload) in
  (w.2, (if is_multiple w.1.2 then [interface mod 256] else []) ++ take len payload ++ drop len tgt, len).

Lemma fill_ok buffer select tx payload interface : (1 < length buffer)%nat ->
  fill buffer select payload interface = Done ((completion payload interface (buffer, select, tx)).1.2, (completion payload interface (buffer, select, tx)).2).
Proof. intros Hb. unfold fill, completion. cbn [fst snd]. destruct (is_multiple select); [|done]. by rewrite (proj2 (Nat.ltb_lt 0 (length buffer))) by lia. Qed.

Lemma deliver_ok payload interface l : Forall (fun w => (1 < length w.1.1)%nat) l ->
  deliver payload interface l = Done (List.filter (fun w => negb (selects interface w)) l, completion payload interface <$> List.filter (selects interface) l).
Proof.
  induction 1 as [|[[buffer select] tx] l Hb _ IH]; [done|]. cbn [deliver List.filter]. change (selects interface (buffer, select, tx)) with (is_interface select interface). rewrite IH. destruct (is_interface select interface); cbn [negb mbind outcome_bind fst snd]; [|done].
  by rewrite (fill_ok buffer select tx).
Qed.

Lemma filter_pipe_ok i p (p' : HidPipeInner) : pipe_ok p -> pend p' = List.filter (fun w => negb (selects i w)) (pend p) -> pipe_ok p'.
Proof. intros Hp He. unfold pipe_ok. rewrite He. apply Forall_forall. intros w Hw. apply list_elem_of_In, filter_In in Hw as [Hw _]. apply list_elem_of_In in Hw. by eapply Forall_forall in Hp. Qed.

(** Sending always returns. *)
Lemma send_op_total payload i p : pipe_ok p -> exists p', send_op payload i p = Done p' /\ pipe_ok p'.
Proof. intros Hp. unfold send_op. rewrite (deliver_ok payload i (pend p) Hp). cbn [mbind outcome_bind fst snd]. destruct (0 <? _); (eexists; split; [done|]; by eapply filter_pipe_ok). Qed.

Lemma send_keys_total down l : forall p, pipe_ok p -> exists rc p', send_keys down l p = Done (rc, p') /\ pipe_ok p'.
Proof.
  induction l as [|k l IH]; intros p Hp; cbn [send_keys]; [by eexists _, _|]. destruct (usb_2_hid k) as [g|e]; [|by eexists _, _].
  destruct (send_op_total (into_bytes (mkChar g (if down k then Pressed else Released))) HidIndexFlags.KEYBOARD_IF p Hp) as (p1 & -> & Hp1). cbn [mbind outcome_bind]. by apply IH.
Qed.

Lemma parse_report_total kb report p : kb_wf (state_machine kb) -> pipe_ok p ->
  exists rc kb' p', parse_report kb report p = Done (Some (rc, kb', p')) /\ kb_wf (state_machine kb') /\ pipe_ok p' /\ modifier_keys kb' = modifier_keys kb /\ main_keys kb' = main_keys kb /\
    forall k, 0 <= k < 256 -> key_down kb' k = bool_decide (k ∈ place <$> held kb report).
Proof.
  intros Hw Hp. destruct (parse_report_spec kb report p Hw) as (Hs & Hk & ->). destruct (send_keys_total (key_bit (add_keys kb_empty (held kb report))) (List.filter (key_bit (kb_xor (state_machine kb) (add_keys kb_empty (held kb report)))) all_keys) p Hp) as (rc & p' & -> & Hp').
  cbn. by eexists _, _, _.
Qed.

(** C21. A character reaches every reader that waits for its interface.  The waiting reads have at least two bytes, and there are at most as many as files open for reading.  [send_op] completes exactly the reads that select
    the interface, in order, each with the payload as far as it fits, behind the number of the interface when the
    selection says so; the other reads go on waiting; and the character is queued, under a serial number of
    its own, exactly when more files are open for reading than reads were waiting, for as many files as the difference.  A file whose read waits for another interface
    counts as served: against the documentation, nothing is queued for it. *)
Theorem send_op_delivers payload i p : pipe_ok p -> Z.of_nat (length (pend p)) <= open_read p < 2 ^ 64 -> 0 <= p_serial p < 2 ^ 64 - 1 ->
  exists p', send_op payload i p = Done p' /\ pipe_ok p' /\
    pend p' = List.filter (fun w => negb (selects i w)) (pend p) /\
    done p' = done p ++ (completion payload i <$> List.filter (selects i) (pend p)) /\
    p_serial p' = p_serial p + 1 /\ open_read p' = open_read p /\ interfaces p' = interfaces p /\
    queued p' = queued p ++ (if decide (Z.of_nat (length (pend p)) < open_read p) then [mkOp payload (p_serial p + 1) (open_read p - Z.of_nat (length (pend p))) i] else []).
Proof.
  intros Hp Ho Hs. unfold send_op. rewrite (deliver_ok payload i (pend p) Hp). cbn [mbind outcome_bind fst snd]. rewrite wsub_small, wadd_small by lia. eexists. split; [done|].
  destruct (decide _) as [Hlt|Hge].
  - rewrite (proj2 (Z.ltb_lt 0 _)) by lia. split; [by eapply filter_pipe_ok|]. done.
  - rewrite (proj2 (Z.ltb_ge 0 _)) by lia. split; [by eapply filter_pipe_ok|]. cbn. by rewrite app_nil_r.
Qed.

(** The only open file waits for another interface: the character neither reaches it nor is it queued. *)
Theorem other_interface_misses payload i w p : pipe_ok p -> pend p = [w] -> selects i w = false -> open_read p = 1 ->
  exists p', send_op payload i p = Done p' /\ pend p' = [w] /\ done p' = done p /\ queued p' = queued p.
Proof.
  intros Hp Hw Hs Ho. unfold send_op. rewrite (deliver_ok payload i (pend p) Hp), Hw. cbn [List.filter]. rewrite Hs, Ho. cbn [negb mbind outcome_bind fst snd fmap list_fmap]. eexists. split; [done|]. cbn. by rewrite app_nil_r.
Qed.

(** *** Receiving what was queued *)

(** Characters that are newer than the file are not found: the search looks for them the wrong way round. *)
Lemma receive_nothing buffer i serial p : Forall (fun op => serial < op_serial op) (queued p) -> receive_queued buffer i serial p = Some (Err tt, p_serial p, buffer, p).
Proof.
  intros Hq. unfold receive_queued. pose proof (search_spec _ (fun e => Z.compare serial (op_serial e)) (queued p) [] []) as Hs. rewrite !app_nil_r in Hs.
  specialize (Hs ltac:(apply (Forall_impl _ _ _ Hq); intros e He; by apply Z.compare_lt_iff) ltac:(constructor) ltac:(constructor)).
  destruct (search _ (queued p)) as [st|st]; [cbn in Hs; lia|]. destruct Hs as [_ ->]. rewrite drop_all, take_ge by lia. cbn [recv_loop]. unfold set_queued. rewrite app_nil_r. by destruct p.
Qed.

Fixpoint send_all (ops : list (list Z * Z)) (p : HidPipeInner) : outcome HidPipeInner :=
  match ops with [] => Done p | (payload, i) :: ops => p ← send_op payload i p; send_all ops p end.

Lemma send_op_serials payload i p p' s : send_op payload i p = Done p' -> 0 <= p_serial p < 2 ^ 64 - 1 -> s <= p_serial p -> Forall (fun op => s < op_serial op) (queued p) ->
  p_serial p' = p_serial p + 1 /\ Forall (fun op => s < op_serial op) (queued p').
Proof.
  unfold send_op. intros Hsend Hs Hle Hq. destruct (deliver payload i (pend p)) as [r|]; [|done]. cbn [mbind outcome_bind] in Hsend. rewrite wadd_small in Hsend by lia. destruct (0 <? _); injection Hsend as <-; [|done].
  split; [done|]. cbn. apply Forall_app. split; [done|]. constructor; [cbn; lia|constructor].
Qed.

Lemma send_all_serials ops : forall p p' s, send_all ops p = Done p' -> 0 <= p_serial p -> p_serial p + Z.of_nat (length ops) < 2 ^ 64 -> s <= p_serial p -> Forall (fun op => s < op_serial op) (queued p) ->
  Forall (fun op => s < op_serial op) (queued p') /\ p_serial p' = p_serial p + Z.of_nat (length ops).
Proof.
  induction ops as [|[payload i] ops IH]; intros p p' s Hsend H0 Hm Hle Hq; cbn [send_all length] in *.
  { injection Hsend as <-. split; [done|]. lia. }
  destruct (send_op payload i p) as [p1|] eqn:H1; [|done]. cbn [mbind outcome_bind] in Hsend. destruct (send_op_serials _ _ _ _ s H1) as [Hp1 Hq1]; [lia|lia|done|].
  destruct (IH p1 p' s Hsend) as [Hq' Hp']; [lia|lia|lia|done|]. split; [done|]. lia.
Qed.

(** A character that is sent while a reader is not waiting never reaches it.  Whatever is sent to a pipe with an
    empty queue after a file is opened for reading, and however much of it was queued for that file, a read that
    would be served from the queue waits for the next character, and the file counts as up to date. *)
Theorem queued_never_received f p f' p' ops p'' tx buffer i :
  hid_open Dispatcher.Read f p = (Ok tt, f', p') -> queued p = [] -> 0 <= p_serial p -> p_serial p + Z.of_nat (length ops) < 2 ^ 64 ->
  send_all ops p' = Done p'' ->
  recv_data tx buffer i f' p'' = Some (RWait, mkHid true Dispatcher.Read (p_serial p''),
    mkPipe (pend p'' ++ [(buffer, i, tx)]) (open_read p'') (p_serial p'') (queued p'') (interfaces p'') (done p'')).
Proof.
  unfold hid_open. intros Ho Hq H0 Hm Hsend. destruct (f_alive f); [|done]. destruct (open_mode f); try done. cbn [negb Dispatcher.is_read] in Ho. injection Ho as <- <-.
  destruct (send_all_serials ops _ p'' (p_serial p) Hsend) as [Hq' Hp']; cbn; [done|done|lia|by rewrite Hq|]. cbn in Hp'. unfold recv_data. cbn [f_serial]. destruct (Z.eqb_spec (p_serial p) (p_serial p'')) as [He|].
  { by rewrite <- He. }
  by rewrite receive_nothing.
Qed.

(** A file that was opened for writing only counts as a reader that is gone when it is closed. *)
Theorem write_close_underflow f p : f_alive f = true -> open_mode f = Dispatcher.Write -> open_read p = 0 -> queued p = [] ->
  exists f' p', hid_close f p = (Ok tt, f', p') /\ open_read p' = 2 ^ 64 - 1.
Proof.
  intros Ha Hm Ho Hq. unfold hid_close. rewrite Hm, Ha. cbn [negb]. eexists _, _. split; [done|]. unfold close_from_serial. rewrite Ho. cbn [Z.eqb]. cbn [queued set_open]. rewrite Hq.
  pose proof (search_spec _ (fun e => Z.compare (op_serial e) (f_serial f)) [] [] [] ltac:(constructor) ltac:(constructor) ltac:(constructor)) as Hs. cbn [app] in Hs. destruct (search _ []); [cbn in Hs; lia|]. done.
Qed.

(** *** Selections *)

(** A selection of one stream counts as multiple, one of two streams as single, and an index as multiple. *)
Theorem is_multiple_inverted : is_multiple KEYBOARD = true /\ is_multiple (KEYBOARD + RODENT) = false /\ forall n, 0 <= n < 2 ^ 32 -> is_multiple (NO_BITFIELD + n) = true.
Proof using FL.
  unfold is_multiple. rewrite !contains_spec. split; [done|]. split; [done|]. intros n Hn. rewrite contains_spec.
  assert (Z.land (NO_BITFIELD + n) NO_BITFIELD = NO_BITFIELD) as ->; [|by rewrite Z.eqb_refl].
  unfold NO_BITFIELD. rewrite land_bit by lia. assert (Z.testbit (bit 63 + n) 63 = true) as ->; [|done].
  rewrite Z.testbit_true by lia. change (bit 63) with (1 * 2 ^ 63). rewrite Z.add_comm, Z_div_plus_full, Z.div_small by lia. done.
Qed.

(** A selection by bits picks the streams whose bits are set. *)
Theorem is_interface_bits f i : contains f NO_BITFIELD = false -> 1 <= i -> is_interface f i = (i <=? 31) && Z.testbit f (i - 1).
Proof.
  intros Hf Hi. unfold is_interface. rewrite Hf. destruct (Z.ltb_spec 31 i); [by rewrite (proj2 (Z.leb_gt i 31)) by lia|]. rewrite (proj2 (Z.leb_le i 31)) by lia. cbn [andb].
  rewrite (Z.mod_small (i - 1)), (Z.mod_small (i - 1)) by lia. change (Z.shiftl 1 (i - 1)) with (bit (i - 1)). rewrite land_bit_zero, negb_involutive by lia. by rewrite Z.mod_pow2_bits_low by lia.
Qed.

Lemma forallb_same (f g : Z -> bool) l : (forall b, b ∈ l -> f b = g b) -> forallb f l = forallb g l.
Proof. induction l as [|b l IH]; intros Hl; [done|]. cbn. rewrite Hl by apply list_elem_of_here. rewrite IH; [done|]. intros x Hx. by apply Hl, list_elem_of_further. Qed.

(** What the check of a read takes for supported: an index by its bits, and bits as an index. *)
Lemma bit_scan_ok ifs m : forall n fuel flags no_if, m = Z.to_nat (32 - n) -> 0 <= n <= 32 -> (m < fuel)%nat -> (forall j, 0 <= j < n -> Z.testbit flags j = false) -> 0 <= flags < 2 ^ 32 ->
  bit_scan fuel flags ifs no_if = Some (no_if && forallb (fun b => negb (Z.testbit flags b && bool_decide (b ∈ ifs))) (seqZ n (32 - n))).
Proof.
  induction m as [|m IH]; intros n fuel flags no_if Hm Hn Hf Hz Hb; (destruct fuel as [|fuel]; [lia|]); cbn [bit_scan].
  { assert (n = 32) as -> by lia. assert (flags = 0) as ->. { apply Z.bits_inj'. intros i Hi. rewrite Z.bits_0. destruct (decide (i < 32)); [by apply Hz|]. rewrite <- (Z.mod_small flags (2 ^ 32)) by done. by rewrite Z.mod_pow2_bits_high by lia. }
    cbn. by rewrite andb_true_r. }
  rewrite seqZ_cons by lia. cbn [forallb]. replace (Z.succ n) with (n + 1) by lia. replace (Z.pred (32 - n)) with (32 - (n + 1)) by lia. destruct (Z.testbit flags n) eqn:Hbit.
  - assert (ctz 32 flags = n) as Hc.
    { pose proof (ctz_bound 32 flags). destruct (Z.lt_trichotomy (ctz 32 flags) n) as [Hlt|[->|Hgt]]; [|done|].
      - pose proof (ctz_at 32 flags ltac:(lia)) as Hat. rewrite Hz in Hat by lia. done.
      - rewrite (ctz_below 32 flags n) in Hbit by lia. done. }
    destruct (Z.eqb_spec flags 0) as [->|]; [by rewrite Z.bits_0 in Hbit|]. rewrite Hc. cbn [andb].
    assert (forall j, 0 <= j -> Z.testbit (Z.ldiff flags (Z.shiftl 1 n)) j = Z.testbit flags j && negb (j =? n)) as Hd.
    { intros j Hj. rewrite Z.ldiff_spec, Z.shiftl_1_l, Z.pow2_bits_eqb by lia. by rewrite (Z.eqb_sym n). }
    rewrite (IH (n + 1)); [|lia|lia|lia|..].
    + f_equal. rewrite (forallb_same _ (fun b => negb (Z.testbit flags b && bool_decide (b ∈ ifs)))).
      * destruct (bool_decide (n ∈ ifs)); cbn [negb andb]; [by rewrite andb_false_r|done].
      * intros b Hin. apply elem_of_seqZ in Hin. rewrite Hd by lia. replace (b =? n) with false by (symmetry; apply Z.eqb_neq; lia). by rewrite andb_true_r.
    + intros j Hj. rewrite Hd by lia. destruct (Z.eqb_spec j n); [apply andb_false_r|]. by rewrite Hz by lia.
    + apply bits_bound; [lia|apply Z.ldiff_nonneg; lia|]. intros j Hj. rewrite Hd by lia. rewrite <- (Z.mod_small flags (2 ^ 32)) by done. by rewrite Z.mod_pow2_bits_high by lia.
  - change (bit_scan (S fuel) flags ifs no_if = Some (no_if && (true && forallb (fun b => negb (Z.testbit flags b && bool_decide (b ∈ ifs))) (seqZ (n + 1) (32 - (n + 1)))))). cbn [andb].
    apply IH; [lia|lia|lia| |done]. intros j Hj. destruct (decide (j = n)) as [->|]; [done|]. apply Hz. lia.
Qed.

(** An index is taken for the set of its bits. *)
Theorem supported_index pos ifs : contains pos NO_BITFIELD = true -> 0 <= pos ->
  supported pos ifs = negb (forallb (fun b => negb (Z.testbit pos b && bool_decide (b ∈ ifs))) (seqZ 0 32)).
Proof.
  intros Hc Hp. unfold supported. rewrite Hc. rewrite (bit_scan_ok ifs 32 0) by (done || lia || apply Z.mod_pos_bound; lia). cbn [andb]. f_equal. apply forallb_same.
  intros b Hb. apply elem_of_seqZ in Hb. by rewrite Z.mod_pow2_bits_low by lia.
Qed.

(** Reading the keyboard by its index is refused when the device is a keyboard, and both streams at once always. *)
Theorem read_check_swapped : supported (NO_BITFIELD + KEYBOARD_IF) [KEYBOARD_IF] = false /\ supported KEYBOARD [KEYBOARD_IF] = true /\ supported (KEYBOARD + RODENT) [KEYBOARD_IF; RODENT_IF] = false.
Proof using FL. unfold supported. rewrite !contains_spec. split; [done|]. split; done. Qed.

End KeyLaws.

(** *** Characters *)

Definition control_keys : list ControlKey :=
  [Escape; Left; Right; Up; Down; Insert; PageUp; PageDown; Home; End; PrintScreen; Pause;
   NumLock; ScrollLock; CapsLock; Application; Power; Execute; Help; Menu; Select; Stop; Again; Undo;
   Cut; Copy; Paste; Find; Mute; VolumeUp; VolumeDown; LockingCapsLock; LockingNumLock; LockingScrollLock; International1; International2;
   International3; International4; International5; International6; International7; International8; International9; Lang1; Lang2; Lang3; Lang4; Lang5;
   Lang6; Lang7; Lang8; Lang9; AlternateErase; SysReq; Cancel; Prior; Return; Seperator; Out; Oper;
   CrSel; ExSel; Hundreds; Thousands; ThousandsSeperator; DecimalSeperator; CurrencyUnit; CurrencySubUnit; MemoryStore; MemoryRecall; MemoryClear; MemoryAdd;
   MemorySub; MemoryMultiply; MemoryDivide; Clear; ClearEntry; Binary; Octal; Decimal; Hexadecimal].

(** The character that bytes stand for. *)
Definition decode (b : list Z) : option KeyChar :=
  let v := of_le (slice b 4 4) in
  st ← (match b !! 8%nat with Some 0 => Some Released | Some 1 => Some Pressed | _ => None end);
  g ← (match b !! 0%nat with
       | Some 0 => Some (MainBody v)
       | Some 1 => Control <$> find (fun k => control_key_u32 k =? v) control_keys
       | Some 2 => Some (Keypad v)
       | Some 3 => Some (FunctionKey v)
       | Some 4 => Modifier <$> find (fun m => modifier_u32 m =? v) [LeftControl; LeftShift; LeftAlt; LeftSuper; RightControl; AltRight; RightSuper; RightShift]
       | Some 5 => Some (Extra v)
       | _ => None
       end);
  Some (mkChar g st).

Lemma group_value_le4 g : 0 <= group_value g < 2 ^ 32 -> of_le (le_bytes 4 (group_value g)) = group_value g.
Proof. intros Hg. by apply of_le_bytes. Qed.

(** A key character can be read back: the nine bytes that a reader gets determine the key and its state. *)
Theorem key_char_roundtrip c : 0 <= group_value (key_group c) < 2 ^ 32 -> length (into_bytes c) = 9%nat /\ decode (into_bytes c) = Some c.
Proof.
  intros Hg. pose proof (group_value_le4 _ Hg) as Hv. destruct c as [g st]. cbn [key_group] in *. split.
  - unfold into_bytes. rewrite !length_app, le_bytes_length. done.
  - assert (slice (into_bytes (mkChar g st)) 4 4 = le_bytes 4 (group_value g)) as Hs by done. unfold decode. rewrite Hs, Hv. destruct st; (destruct g as [c|k|c|n|m|n]; [done|by destruct k|done|done|by destruct m|done]).
Qed.

(** A code has a character unless it is reserved or reports an error. *)
Theorem usb_2_hid_defined k : 0 <= k < 2 ^ 16 ->
  is_ok (usb_2_hid k) = negb (in_range k 0 3 || in_range k 0xa5 0xaf || in_range k 0xde 0xdf || in_range k 0xe8 0xffff).
Proof.
  intros Hk. destruct (Z.lt_ge_cases k 256) as [Hlt|Hge].
  - assert (forallb (fun k => eqb (is_ok (usb_2_hid k)) (negb (in_range k 0 3 || in_range k 0xa5 0xaf || in_range k 0xde 0xdf || in_range k 0xe8 0xffff))) (seqZ 0 256) = true) as Ht by (vm_compute; reflexivity).
    rewrite forallb_forall in Ht. apply eqb_prop, Ht. apply list_elem_of_In, elem_of_seqZ. lia.
  - assert (low_key k = None /\ high_key k = None) as [H1 H2]. { destruct k as [|p|p]; [lia| |lia]. do 8 (destruct p as [p|p|]; try lia); done. }
    unfold usb_2_hid. rewrite H1, H2. unfold in_range. rewrite !(proj2 (Z.leb_gt k _)) by lia. rewrite !(proj2 (Z.eqb_neq k _)) by lia. rewrite !andb_false_r. rewrite (proj2 (Z.leb_le k 0xffff)), (proj2 (Z.leb_le 0xe8 k)) by lia. done.
Qed.

(** Letters and digits are the characters that their codes stand for. *)
Theorem letter_keys n : (0 <= n < 26 -> usb_2_hid (4 + n) = Ok (MainBody (0x61 + n))) /\ (1 <= n <= 9 -> usb_2_hid (0x1d + n) = Ok (MainBody (0x30 + n))).
Proof.
  split; intros Hn; unfold usb_2_hid; rewrite !(proj2 (Z.eqb_neq (_ + n) _)) by lia; unfold in_range.
  - rewrite (proj2 (Z.leb_le 4 _)), (proj2 (Z.leb_le (4 + n) 0x1d)) by lia. cbn [andb]. rewrite Z.mod_small by lia. do 2 f_equal. lia.
  - rewrite (proj2 (Z.leb_gt (0x1d + n) 0x1d)), andb_false_r, (proj2 (Z.leb_le 0x1e _)), (proj2 (Z.leb_le (0x1d + n) 0x26)) by lia. cbn [andb]. rewrite Z.mod_small by lia. do 2 f_equal. lia.
Qed.

(** The digits of the keypad are numbers and not characters; F13 is a function key with the number 65523; the
    hexadecimal keys are one off; "delete" is a letter; and two codes are "clear". *)
Theorem keys_wrong : usb_2_hid 0x59 = Ok (Keypad 1) /\ usb_2_hid 0x62 = Ok (Keypad 0x30) /\ usb_2_hid 0x68 = Ok (FunctionKey 65523) /\ usb_2_hid 0xbc = Ok (Keypad 0x40) /\
  usb_2_hid 0x4c = Ok (MainBody 0x177) /\ usb_2_hid 0x9c = usb_2_hid 0xa2.
Proof. done. Qed.

(** ** Witnesses *)
Module HidWitness.
Import FlagWitness.

(** A linear search. *)
Fixpoint linear {A} (f : A -> comparison) (l : list A) : result nat nat :=
  match l with
  | [] => Err 0%nat
  | a :: l => match f a with Lt => match linear f l with Ok i => Ok (S i) | Err i => Err (S i) end | Eq => Ok 0%nat | Gt => Err 0%nat end
  end.

#[export] Instance linear_search : SliceSearch.
Proof.
  refine {| search := @linear |}. intros A f l1 l2 l3 H1 H2 H3. induction H1 as [|a l1 Ha _ IH]; cbn [app length linear].
  - inversion H2 as [|b l2' Hb H2' E]; subst; cbn [app linear]; [|rewrite Hb; cbn; lia]. inversion H3 as [|c l3' Hc H3' E]; subst; cbn [linear]; [done|by rewrite Hc].
  - rewrite Ha. destruct (linear f _) as [i|i]; [lia|]. destruct IH as [-> ->]. done.
Defined.

(** The report of a keyboard in the boot protocol: a byte of modifiers, a reserved byte and six codes. *)
#[export] Instance boot_report : HidReport := {|
  ReportDescriptor := unit;
  VariableField := Z;
  ArrayField := unit;
  rd_try_from := fun _ => Some tt;
  input_reports := fun _ => [((fun m => inl (inl m)) <$> seqZ 0xe0 8, 0); ([inl (inr tt)], 8)];
  output_sizes := fun _ => [1];
  feature_sizes := fun _ => [];
  var_page := fun _ => 7;
  var_id := fun m => m;
  extract := fun m r => (fun b => Z.b2z (Z.testbit b (m - 0xe0))) <$> r !! 0%nat;
  array_page := fun _ => 7;
  report_count := fun _ => 6%nat;
  extract_one := fun _ r i => r !! (2 + i)%nat |}.

Definition kbd : BaseKeyboardIf := mkKeyboard (seqZ 0xe0 8) (tt : ArrayField) kb_empty.
(** Left shift and the key A. *)
Definition shift_a : list Z := [2; 0; 4; 0; 0; 0; 0; 0].
(** One open file that waits for the keyboard. *)
Definition reader : HidPipeInner := mkPipe [(repeat 0 10, KEYBOARD, 7%nat)] 1 0 [] [KEYBOARD_IF] [].

Lemma report_updates_witness : exists kb' p', kb_wf (state_machine kb') /\ key_down kb' 4 = true /\ key_down kb' 0xe1 = true /\
  parse_report kbd shift_a reader = Done (Some (Ok tt, kb', p')) /\ done p' = [(7%nat, [1; 0; 0; 0; 0; 0x61; 0; 0; 0; 1], 9%nat)] /\ length (queued p') = 1%nat.
Proof.
  destruct (report_updates kbd shift_a reader) as (kb' & Hw & Hk & Hp); [apply kb_empty_wf|repeat constructor; done|].
  assert (key_down kb' 4 = true) as H4 by (rewrite Hk by lia; reflexivity). assert (key_down kb' 0xe1 = true) as Hs by (rewrite Hk by lia; reflexivity).
  eexists kb', _. split; [exact Hw|]. split; [exact H4|]. split; [exact Hs|]. rewrite Hp.
  assert (List.filter (fun k => xorb (key_down kbd k) (key_down kb' k)) all_keys = [4; 0xe1]) as Hl.
  { transitivity (List.filter (fun k => xorb (key_down kbd k) (bool_decide (k ∈ held kbd shift_a))) all_keys); [|vm_compute; reflexivity].
    apply filter_ext_in. intros k Hin. apply list_elem_of_In, elem_of_seqZ in Hin. rewrite Hk by lia. reflexivity. }
  rewrite Hl. cbn [send_keys]. rewrite H4, Hs. split; [reflexivity|]. split; reflexivity.
Defined.

Lemma send_op_witness : exists p', send_op [5; 6] KEYBOARD_IF reader = Done p' /\ pend p' = [] /\ done p' = [(7%nat, [1; 5; 6; 0; 0; 0; 0; 0; 0; 0], 2%nat)] /\ queued p' = [].
Proof.
  destruct (send_op_delivers [5; 6] KEYBOARD_IF reader) as (p' & H1 & _ & H2 & H3 & _ & _ & _ & H4).
  - repeat constructor.
  - cbn. lia.
  - cbn. lia.
  - exists p'. split; [exact H1|]. split; [exact H2|]. split; [exact H3|exact H4].
Defined.

Lemma queued_witness : exists f' p' p'', hid_open Dispatcher.Read (mkHid true Dispatcher.Locked 0) pipe_new = (Ok tt, f', p') /\ send_all [([5; 6], KEYBOARD_IF)] p' = Done p'' /\ length (queued p'') = 1%nat /\
  exists f2 p2, recv_data 1 [0; 0; 0] KEYBOARD f' p'' = Some (RWait, f2, p2).
Proof.
  eexists _, _, _. split; [reflexivity|]. split; [reflexivity|]. split; [reflexivity|]. eexists _, _.
  apply (queued_never_received (mkHid true Dispatcher.Locked 0) pipe_new (mkHid true Dispatcher.Read 0) (set_open 1 pipe_new) [([5; 6], KEYBOARD_IF)]); try reflexivity; cbn; lia.
Defined.

Lemma key_char_witness : decode (into_bytes (mkChar (Control Escape) Pressed)) = Some (mkChar (Control Escape) Pressed).
Proof. apply (key_char_roundtrip (mkChar (Control Escape) Pressed)). cbn. lia. Defined.

End HidWitness.
