(* ===== verification/UsbHid.v ===== *)
(** * The USB HID driver

    [drivers/usb/device-drivers/usb-hid]: the requests ([requests.rs]) and descriptors
    ([descriptors.rs]) of the HID class, finding HID devices ([lib.rs]), and the driver of a device
    ([driver_obj.rs]), which configures it, reads its reports and gives them to the interfaces of [Hid].

    The driver is written in a monad over the state of the driver, the device and the
    controller ([HidWorld]) with the errors of [?]; [None] is a loop that does not end or a call that waits for
    ever.  [boxes] are the addresses of the queue heads that will be allocated. *)
From Stdlib Require Import String.
From stdpp Require Import prelude gmap pretty.
From S2P Require Import Prelude Bytes Files Serial BitField HighOrder FrameAlloc Dma Ehci EhciQueue EhciSched UsbProto UsbDevice Hid.
Open Scope list_scope.
Open Scope Z_scope.

(** ** Requests *)

Inductive ReportType := Input | Output | Feature.
Definition report_type_u8 (t : ReportType) : Z := match t with Input => 1 | Output => 2 | Feature => 3 end.
Inductive Protocol := Boot | Report.
Definition protocol_u16 (p : Protocol) : Z := match p with Boot => 0 | Report => 1 end.

(** [Duration]. *)
Definition from_msec (msec : Z) : Z := msec / 4 mod 256.
Definition msec (d : Z) : Z := d * 4.

Inductive Request :=
| GetReport (ty : ReportType) (id : option Z) (interface len : Z)
| SetReport (ty : ReportType) (id : option Z) (interface : Z)
| GetIdle (id interface : Z)
| SetIdle (duration : Z) (id : option Z) (interface : Z)
| GetProtocol (interface : Z)
| SetProtocol (protocol : Protocol) (interface : Z).

Definition hid_request_code (r : Request) : Z :=
  match r with GetReport _ _ _ _ => 1 | SetReport _ _ _ => 2 | GetIdle _ _ => 3 | SetIdle _ _ _ => 9 | GetProtocol _ => 0xb | SetProtocol _ _ => 0xa end.

Section Requests.
Context `{BO : BitFieldOps}.

Definition request_transfer (r : Request) : CtlTransfer :=
  match r with
  | GetReport ty id interface len => ctl_new RInterface Class_ true (hid_request_code r) (of_le [default 0 id; report_type_u8 ty]) interface len
  | SetReport ty id interface => ctl_new RInterface Class_ false (hid_request_code r) (of_le [default 0 id; report_type_u8 ty]) interface 1
  | GetIdle id interface => ctl_new RInterface Class_ true (hid_request_code r) (of_le [id; 0]) interface 1
  | SetIdle duration id interface => ctl_new RInterface Class_ false (hid_request_code r) (of_le [default 0 id; duration]) interface 0
  | SetProtocol protocol interface => ctl_new RInterface Class_ false (hid_request_code r) (protocol_u16 protocol) interface 0
  | GetProtocol interface => ctl_new RInterface Class_ true (hid_request_code r) 0 interface 0
  end.

(** ** Descriptors *)

Inductive HidDescriptorRequestType := RHid | RReport | RPhysical (n : Z).
Definition hid_discriminant (t : HidDescriptorRequestType) : Z := match t with RHid => 0x21 | RReport => 0x22 | RPhysical _ => 0x23 end.

Definition request_descriptor_command (t : HidDescriptorRequestType) (interface len : Z) : CtlTransfer :=
  let value_low := match t with RPhysical v => v | _ => 0 end in
  ctl_new RInterface Standard true (request_code GetDescriptor) (of_le [value_low; hid_discriminant t]) interface len.

End Requests.

Definition HID_DESCRIPTOR : Z := 0x21.
Definition hid_fields : list field :=
  [mkField "length" 1 1; mkField "class" 1 1; mkField "bcd_hid" 2 1; mkField "country_code" 1 1; mkField "num_descriptors" 1 1]%string.

(** Looking for the report descriptor among the [DescriptorDescriber]s of [optionals], which take three bytes
    each; what is read outside of the bytes is undefined. *)
Fixpoint find_report (fuel : nat) (mem : list Z) (off n : Z) : outcome (option Z) :=
  match fuel with
  | O => Panic
  | S fuel =>
      if n <=? 0 then Done None
      else
        id ← unwrap (mem !! Z.to_nat off);
        if id =? hid_discriminant RReport then
          l ← unwrap (mem !! Z.to_nat (off + 1));
          h ← unwrap (mem !! Z.to_nat (off + 2));
          Done (Some (of_le [l; h]))
        else find_report fuel mem (off + 3) (n - 1)
  end.

Definition report_length (mem : list Z) (h : DescriptorHeader) : outcome (option Z) :=
  let tail_len_bytes := (descriptor_len h ⊖ Z.of_nat (struct_size hid_fields))%u64 in
  let elements := tail_len_bytes / 3 in
  find_report (S (length mem)) mem (h_off h + Z.of_nat (struct_size hid_fields)) elements.

Inductive UsagePage :=
  | Undefined | GenericDesktop | SimulationControls | VrControls | SportsControls | GameControls | GenericDeviceControls | KeyboardKeypad | LedPage
  | ButtonPage | Ordinal | Telephony | Consumer | Digitizers | Haptics | PhysicalInputDevice | Unicode | SoC
  | EyeAndHeadTrackers | AuxiliaryDisplay | Sensors | MedicalInstrument | BrailleDisplay | LightingAndIllumination | MonitorPage | MonitorEnumerated | PowerPage
  | BatterySystem | BarcodeScanner | Scales | MagneticTapeReader | CameraControlPage | ArcadePage | GamingDevice | FidoAlliance | OtherPage (n : Z).

Definition usage_page_u16 (p : UsagePage) : Z :=
  match p with
  | Undefined => 0 | GenericDesktop => 1 | SimulationControls => 2 | VrControls => 3 | SportsControls => 4 | GameControls => 5 | GenericDeviceControls => 6
  | KeyboardKeypad => 7 | LedPage => 8 | ButtonPage => 9 | Ordinal => 0xa | Telephony => 0xb | Consumer => 0xc | Digitizers => 0xd
  | Haptics => 0xe | PhysicalInputDevice => 0xf | Unicode => 0x10 | SoC => 0x11 | EyeAndHeadTrackers => 0x12 | AuxiliaryDisplay => 0x14 | Sensors => 0x20
  | MedicalInstrument => 0x40 | BrailleDisplay => 0x41 | LightingAndIllumination => 0x59 | MonitorPage => 0x80 | MonitorEnumerated => 0x81 | PowerPage => 0x84 | BatterySystem => 0x85
  | BarcodeScanner => 0x8c | Scales => 0x8d | MagneticTapeReader => 0x8e | CameraControlPage => 0x90 | ArcadePage => 0x91 | GamingDevice => 0x92 | FidoAlliance => 0xf1d0
  | OtherPage v => v
  end.

Definition usage_page_from (v : Z) : UsagePage :=
  match v with
  | 0 => Undefined | 1 => GenericDesktop | 2 => SimulationControls | 3 => VrControls | 4 => SportsControls | 5 => GameControls | 6 => GenericDeviceControls
  | 7 => KeyboardKeypad | 8 => LedPage | 9 => ButtonPage | 0xa => Ordinal | 0xb => Telephony | 0xc => Consumer | 0xd => Digitizers
  | 0xe => Haptics | 0xf => PhysicalInputDevice | 0x10 => Unicode | 0x11 => SoC | 0x12 => EyeAndHeadTrackers | 0x14 => AuxiliaryDisplay | 0x20 => Sensors
  | 0x40 => MedicalInstrument | 0x41 => BrailleDisplay | 0x59 => LightingAndIllumination | 0x80 => MonitorPage | 0x81 => MonitorEnumerated | 0x84 => PowerPage | 0x85 => BatterySystem
  | 0x8c => BarcodeScanner | 0x8d => Scales | 0x8e => MagneticTapeReader | 0x8f => CameraControlPage | 0x91 => ArcadePage | 0x94 => GamingDevice | 0xf1d0 => FidoAlliance
  | o => OtherPage o
  end.

(** ** Finding devices *)

(** The names that [scan_ports] looks for: the buffer is not cleared between them. *)
Fixpoint scan_names (buffer : string) (l : list Z) : list string :=
  match l with
  | [] => []
  | i :: l => let buffer := (buffer +:+ pretty i)%string in buffer :: scan_names buffer l
  end.
Definition port_names : list string := scan_names EmptyString (seqZ 0 127).

Inductive Found := FBound | FBusy | FNoCtl | FHub | FOther.

Section Find.
Context {D : Type} `{UsbBus D} {BO : BitFieldOps} {FO : FlagOps}.

(** What [find_hid_recursive] does with a device. *)
Definition find_hid (fuel : nat) (buffer : list Z) (acc : option Accessor) (d : Pipe D) : outcome (option (Found * option Accessor * list Z * Pipe D)) :=
  r ← class_read fuel (match acc with Some _ => true | None => false end) (of_le [3; 0; 0; 0x83]) buffer d;
  match (r : option (result (list Z * nat) (IoError * list Z * nat) * Pipe D)) with
  | None => Done None
  | Some (Ok (buffer, _), d) =>
      let '(rc, acc) := acquire_ctl ["."; ".."; "if0"]%string acc in
      Done (Some (match rc with Ok _ => FBound | Err Busy => FBusy | Err _ => FNoCtl end, acc, buffer, d))
  | Some (Err (_, buffer, _), d) => Done (Some (match dev_get_file "ports" acc with Ok _ => FHub | Err _ => FOther end, acc, buffer, d))
  end.

End Find.

(** ** The driver *)
Section Driver.
Context {D : Type} `{UP : UsbBus D} {BO : BitFieldOps} {FO : FlagOps} {HR : HidReport} {SS : SliceSearch}.

Record DriverState := mkDriver { devctl : bool; in_endpoint : option Z; out_endpoint : option Z; pipe : HidPipeInner; minor_number : option Z; hid_interfaces : list BaseKeyboardIf }.
Definition driver_new : DriverState := mkDriver false None None pipe_new None [].

Definition with_in (e : Z) (s : DriverState) := mkDriver (devctl s) (Some e) (out_endpoint s) (pipe s) (minor_number s) (hid_interfaces s).
Definition with_out (e : Z) (s : DriverState) := mkDriver (devctl s) (in_endpoint s) (Some e) (pipe s) (minor_number s) (hid_interfaces s).
Definition with_ifs (l : list BaseKeyboardIf) (s : DriverState) := mkDriver (devctl s) (in_endpoint s) (out_endpoint s) (pipe s) (minor_number s) l.
Definition with_pipe (p : HidPipeInner) (s : DriverState) := mkDriver (devctl s) (in_endpoint s) (out_endpoint s) p (minor_number s) (hid_interfaces s).
Definition with_minor (m : Z) (s : DriverState) := mkDriver (devctl s) (in_endpoint s) (out_endpoint s) (pipe s) (Some m) (hid_interfaces s).
Definition install_ctl (s : DriverState) := mkDriver true (in_endpoint s) (out_endpoint s) (pipe s) (minor_number s) (hid_interfaces s).

(** Every interface is a keyboard. *)
Definition reload_pipe (s : DriverState) : DriverState := with_pipe (foldl (fun p _ => enable_interface HidIndexFlags.KEYBOARD_IF p) pipe_new (hid_interfaces s)) s.

(** The directory of the driver. *)
Definition drv_entries : nat := 3.
Definition drv_file_list : list string := ["."; ".."; "if0"]%string.
Inductive DrvFile := DrvDir | DevDir | DrvPipe (f : HidPipe).
Definition drv_get_file (name : string) (acc : option Accessor) (s : DriverState) : outcome (result DrvFile IoError) :=
  if bool_decide (name = ".")%string then Done (Ok DrvDir)
  else if bool_decide (name = "..")%string then assert_that (devctl s);; Done (match acc with Some _ => Ok DevDir | None => Err NotPresent end)
  else if bool_decide (name = "if1")%string then f ← to_file 0 (pipe s); Done (Ok (DrvPipe f))
  else Done (Err NotPresent).

Record HidWorld := mkHw { drv : DriverState; wld : World; dev_ : Pipe D; boxes : list Z }.

(** *** The monad *)
Definition M (A : Type) : Type := HidWorld -> outcome (option (result A IoError * HidWorld)).
Definition retM {A} (a : A) : M A := fun w => Done (Some (Ok a, w)).
Definition errM {A} (e : IoError) : M A := fun w => Done (Some (Err e, w)).
Definition bindM {A B} (m : M A) (k : A -> M B) : M B := fun w =>
  r ← m w;
  match (r : option (result A IoError * HidWorld)) with
  | None => Done None
  | Some (Err e, w) => Done (Some (Err e, w))
  | Some (Ok a, w) => k a w
  end.
Local Notation "'let!' x ':=' m 'in' k" := (bindM m (fun x => k)) (at level 10, x name, m at level 100, k at level 200).
Definition liftM {A} (o : outcome A) : M A := fun w => a ← o; Done (Some (Ok a, w)).
Definition loopM {A} (o : outcome (option A)) : M A := fun w => a ← o; Done (match (a : option A) with Some a => Some (Ok a, w) | None => None end).
Definition getM : M HidWorld := fun w => Done (Some (Ok w, w)).
Definition modM (f : DriverState -> DriverState) : M unit := fun w => Done (Some (Ok tt, mkHw (f (drv w)) (wld w) (dev_ w) (boxes w))).
Definition alive_ (w : HidWorld) : bool := match w_acc (wld w) with Some _ => true | None => false end.

(** The operations of the control handle, which must be there. *)
Definition ctl_get_descriptor (r : Requestable) (i : Z) : M (list Z) := fun w =>
  assert_that (devctl (drv w));;
  await! x := UsbDevice.get_descriptor (alive_ w) r i (dev_ w) in Done (Some (x.1, mkHw (drv w) (wld w) x.2 (boxes w))).
Definition ctl_set_configuration (n : Z) : M unit := fun w =>
  assert_that (devctl (drv w));;
  await! x := UsbDevice.set_configuration (w_acc (wld w)) n (dev_ w) in Done (Some (x.1, mkHw (drv w) (wld w) x.2 (boxes w))).
Definition ctl_setup_endpoint (desc : list Z) : M Z := fun w =>
  assert_that (devctl (drv w));;
  match boxes w with
  | [] => Panic
  | b :: l => r ← setup_endpoint b desc (wld w); Done (Some (r.1, mkHw (drv w) r.2 (dev_ w) l))
  end.
Definition ctl_send_command (c : CtlTransfer) (buffer : option (list Z)) : M (option (list Z) * result nat IoError) := fun w =>
  assert_that (devctl (drv w));;
  await! x := send_command (alive_ w) c buffer (dev_ w) in Done (Some (Ok x.1, mkHw (drv w) (wld w) x.2 (boxes w))).

(** *** Configuring a device *)

(** A HID descriptor: the report descriptor is fetched and parsed. *)
Definition read_report_descriptor (mem interface : list Z) (h : DescriptorHeader) (sizes : option (Z * Z * Z)) : M (option (Z * Z * Z)) :=
  let! found := liftM (report_length mem h) in
  let! length_ := liftM (unwrap found) in
  let command := request_descriptor_command RReport (field_val interface_fields interface "interface_number") length_ in
  let! rc := ctl_send_command command (Some (replicate (Z.to_nat length_) 0)) in
  match rc with
  | (_, Err e) => errM e
  | (None, Ok _) => liftM Panic
  | (Some buffer, Ok len) =>
      let buffer := if Nat.ltb (length buffer) len then take len buffer else buffer in
      match rd_try_from buffer with
      | None => let! _ := liftM (assert_that (Nat.leb len (length buffer))) in errM MediaError
      | Some report =>
          match resolve_interfaces report with
          | Err e => errM e
          | Ok ifs =>
              let! _ := modM (with_ifs ifs) in
              match sizes with None => retM (Some (resolve_interface_sizes report)) | Some _ => errM AlreadyExists end
          end
      end
  end.

(** The descriptors of an interface, until both endpoints are there. *)
Fixpoint group_loop (fuel : nat) (mem interface : list Z) (it : DescriptorIterator) (sizes : option (Z * Z * Z)) : M (option (Z * Z * Z)) :=
  match fuel with
  | O => loopM (Done None)
  | S fuel =>
      let! r := liftM (desc_next mem it) in
      match r with
      | (None, _) => retM sizes
      | (Some h, it) =>
          let! b := liftM (base_descriptor mem h) in
          match b with
          | Some (BEndpoint ep) =>
              let! t := liftM (transfer_type (field_val endpoint_fields ep "attributes")) in
              if bool_decide (t = Interrupt) then
                let! e := ctl_setup_endpoint ep in
                let! _ := modM (if UsbProto.in_endpoint (field_val endpoint_fields ep "endpoint_address") then with_in e else with_out e) in
                let! w := getM in
                match in_endpoint (drv w), out_endpoint (drv w) with
                | Some _, Some _ => retM sizes
                | _, _ => group_loop fuel mem interface it sizes
                end
              else group_loop fuel mem interface it sizes
          | None => if descriptor_id h =? HID_DESCRIPTOR then let! sizes := read_report_descriptor mem interface h sizes in group_loop fuel mem interface it sizes else group_loop fuel mem interface it sizes
          | _ => group_loop fuel mem interface it sizes
          end
      end
  end.

Definition USB_HID_CLASS : Z := 3.

(** The interfaces of a configuration; the flag tells that one was taken. *)
Fixpoint interface_loop (fuel : nat) (mem : list Z) (it : DescriptorIterator) (configuration_no : Z) : M (bool * option (Z * Z * Z)) :=
  match fuel with
  | O => loopM (Done None)
  | S fuel =>
      let! r := loopM (fold_next mem (S fuel) DescriptorType.Interface it) in
      match r with
      | (None, _) => retM (false, None)
      | (Some group, it) =>
          let! n := liftM (desc_next mem group) in
          let! h := liftM (unwrap n.1) in
          let! interface := liftM (unwrap (cast mem DInterface h)) in
          if default 0 (interface_class interface !! 0%nat) =? USB_HID_CLASS then
            let! _ := ctl_set_configuration configuration_no in
            let! sizes := group_loop (S fuel) mem interface n.2 None in
            retM (true, sizes)
          else interface_loop fuel mem it configuration_no
      end
  end.

Fixpoint cfg_loop (fuel : nat) (l : list Z) : M (option (Z * Z * Z)) :=
  match l with
  | [] => retM None
  | configuration_no :: l =>
      let! mem := ctl_get_descriptor QConfiguration configuration_no in
      let! _ := liftM (unwrap (from_raw DConfiguration mem)) in
      let! r := interface_loop fuel mem (UsbProto.iter mem) configuration_no in
      if (r.1 : bool) then retM r.2 else cfg_loop fuel l
  end.

(** [configure_device]; [minor] is the number that the dispenser gives. *)
Definition configure_device (fuel : nat) (minor : Z) : M (Z * Z * Z) :=
  let! raw := ctl_get_descriptor QDevice 0 in
  let! desc := liftM (unwrap (from_raw DDevice raw)) in
  let! report_sizes := cfg_loop fuel (seqZ 0 (field_val device_fields desc "num_configurations")) in
  let! _ := modM reload_pipe in
  let! _ := modM (with_minor minor) in
  match report_sizes with Some s => retM s | None => errM NotPresent end.

(** *** Reports *)

Fixpoint handle_ifs (data : list Z) (before l : list BaseKeyboardIf) (p : HidPipeInner) : outcome (option (result unit IoError * list BaseKeyboardIf * HidPipeInner)) :=
  match l with
  | [] => Done (Some (Err NotSupported, before, p))
  | i :: l =>
      r ← parse_report i data p;
      match (r : option (result unit IoError * BaseKeyboardIf * HidPipeInner)) with
      | None => Done None
      | Some (Ok _, i, p) => Done (Some (Ok tt, before ++ i :: l, p))
      | Some (Err _, i, p) => handle_ifs data (before ++ [i]) l p
      end
  end.

Definition handle_input (data : list Z) (s : DriverState) : outcome (option (result unit IoError * DriverState)) :=
  r ← handle_ifs data [] (hid_interfaces s) (pipe s);
  Done (match (r : option (result unit IoError * list BaseKeyboardIf * HidPipeInner)) with
        | Some (rc, l, p) => Some (rc, with_pipe p (with_ifs l s))
        | None => None
        end).

(** The turns of [mainloop] for what the endpoint completes: the buffer, its length and the status.  [None] in
    the place of the result is a driver that waits for the next report. *)
Fixpoint mainloop_turns (l : list (list Z * nat * result UsbError unit)) (s : DriverState) : outcome (option (option (result unit IoError) * DriverState)) :=
  match l with
  | [] => Done (Some (None, s))
  | (buff, len, status) :: l =>
      match status with
      | Err _ => Done (Some (Some (Err MediaError), s))
      | Ok _ =>
          assert_that (Nat.leb len (length buff));;
          r ← handle_input (take len buff) s;
          match (r : option (result unit IoError * DriverState)) with None => Done None | Some (_, s) => mainloop_turns l s end
      end
  end.

Definition mainloop (l : list (list Z * nat * result UsbError unit)) (s : DriverState) : outcome (option (option (result unit IoError) * DriverState)) :=
  match in_endpoint s with
  | None => Done (Some (Some (Err NotPresent), s))
  | Some _ => mainloop_turns l s
  end.

Inductive TaskResult := ExitedNormally | StoppedExternally | TaskError.

(** [DriverRuntime::run]: the outer [None] is a shutdown that waits for ever, the inner one a driver that waits for
    reports. *)
Definition run (fuel : nat) (minor : Z) (l : list (list Z * nat * result UsbError unit)) (w : HidWorld) : outcome (option (option TaskResult * HidWorld)) :=
  r ← configure_device fuel minor w;
  match (r : option (result (Z * Z * Z) IoError * HidWorld)) with
  | None => Done None
  | Some (Err _, w) => Done (Some (Some TaskError, w))
  | Some (Ok _, w) =>
      r ← ctl_send_command (request_transfer (SetProtocol Boot 0)) None w;
      match (r : option (result (option (list Z) * result nat IoError) IoError * HidWorld)) with
      | None => Done None
      | Some (_, w) =>
          m ← mainloop l (drv w);
          match (m : option (option (result unit IoError) * DriverState)) with
          | None => Done None
          | Some (None, s) => Done (Some (None, mkHw s (wld w) (dev_ w) (boxes w)))
          | Some (Some rc, s) =>
              let rc := match rc with Ok _ => ExitedNormally | Err NotPresent => StoppedExternally | Err _ => TaskError end in
              assert_that (devctl s);;
              r ← shutdown (wld w) (dev_ w);
              Done (match (r : option (World * Pipe D)) with
                    | None => None
                    | Some (wd, d) => Some (Some rc, mkHw (mkDriver false (in_endpoint s) (out_endpoint s) (pipe s) (minor_number s) (hid_interfaces s)) wd d (boxes w))
                    end)
          end
      end
  end.

End Driver.

(** ** Theorems *)

(** *** Reports *)
Section DriverLaws.
Context {D : Type} `{UP : UsbBus D} `{BO : BitFieldOps} {BL : BitFieldLaws} `{FO : FlagOps} {FL : FlagLaws} `{HR : HidReport} `{SS : SliceSearch} `{!StandardDevice D}.

(** Completions without error, whose reports are within the buffers. *)
Definition good_completion (c : list Z * nat * result UsbError unit) : Prop := (c.1.2 <= length c.1.1)%nat /\ is_ok c.2 = true.
Definition report_of (c : list Z * nat * result UsbError unit) : list Z := take c.1.2 c.1.1.

(** One keyboard, well-formed, and a pipe with well-formed reads. *)
Record keyboard_driver (s : DriverState) (kb : BaseKeyboardIf) : Prop := { kd_ifs : hid_interfaces s = [kb]; kd_wf : kb_wf (state_machine kb); kd_pipe : pipe_ok (pipe s) }.

Lemma handle_input_keyboard data s kb : keyboard_driver s kb ->
  exists rc s' kb', handle_input data s = Done (Some (rc, s')) /\ keyboard_driver s' kb' /\ in_endpoint s' = in_endpoint s /\ modifier_keys kb' = modifier_keys kb /\ main_keys kb' = main_keys kb /\
    forall k, 0 <= k < 256 -> key_down kb' k = bool_decide (k ∈ place <$> held kb data).
Proof.
  intros [Hi Hw Hp]. unfold handle_input. rewrite Hi. cbn [handle_ifs]. destruct (parse_report_total kb data (pipe s) Hw Hp) as (rc & kb' & p' & -> & Hw' & Hp' & Hm & Ha & Hk). cbn [mbind outcome_bind].
  destruct rc as [[]|e]; cbn [app mbind outcome_bind]; (eexists _, _, kb'; split; [done|]; split; [by split|]; done).
Qed.

(** C34. The keys that the driver takes to be down are those of the last report.  For a driver with a keyboard whose reads are well-formed, and any
    sequence of reports that its endpoint completes without error, the main loop does not panic and goes on
    waiting, and afterwards, when the last report names neither code 1 (too many keys) nor code 128 (which is taken for 0), a key is down exactly when the last report named it, whatever came before, also when
    a report in between named such a code or one that has no character. *)
Theorem mainloop_tracks l c s kb e :
  keyboard_driver s kb -> in_endpoint s = Some e -> Forall good_completion (l ++ [c]) -> plain_report kb (report_of c) ->
  exists s' kb', mainloop (l ++ [c]) s = Done (Some (None, s')) /\ keyboard_driver s' kb' /\
    forall k, 0 <= k < 256 -> key_down kb' k = bool_decide (k ∈ held kb (report_of c)).
Proof.
  intros Hs He Hl Hpl. rewrite <- (plain_place kb _ Hpl). clear Hpl. unfold mainloop. rewrite He. clear He. revert s kb Hs Hl. induction l as [|[[buff len] st] l IH]; intros s kb Hs Hl; cbn [app] in *; inversion_clear Hl as [|? ? [Hlen Hok] Hl']; cbn [fst snd] in *.
  - destruct c as [[buff len] st]. cbn [mainloop_turns fst snd] in *. destruct st as [st|]; [|done]. rewrite (proj2 (Nat.leb_le _ _) Hlen). cbn [assert_that mbind outcome_bind].
    destruct (handle_input_keyboard (take len buff) s kb Hs) as (rc & s' & kb' & -> & Hs' & _ & _ & _ & Hk). cbn [mbind outcome_bind]. by exists s', kb'.
  - cbn [mainloop_turns]. destruct st as [st|]; [|done]. rewrite (proj2 (Nat.leb_le _ _) Hlen). cbn [assert_that mbind outcome_bind].
    destruct (handle_input_keyboard (take len buff) s kb Hs) as (rc & s' & kb' & -> & Hs' & _ & Hm & Ha & _). cbn [mbind outcome_bind].
    destruct (IH s' kb' Hs' Hl') as (s2 & kb2 & Hrun & Hs2 & Hk). exists s2, kb2. split; [done|]. split; [done|]. intros k Hkr. rewrite Hk by done. unfold held. by rewrite Hm, Ha.
Qed.

(** A halted endpoint ends the main loop, and the driver then waits for ever in [shutdown] when its controller is there. *)
Theorem halted_driver_waits fuel minor w w1 l a s x d' : configure_device fuel minor w = Done (Some (Ok l, w1)) -> (devctl (drv w1) = true) -> in_endpoint (drv w1) = Some s ->
  w_acc (wld w1) = Some a -> ep_guard a = true -> has_controller a = true -> ctl_cmd (request_transfer (SetProtocol Boot 0)) None (dev_ w1) = Done (Some (x, d')) -> x.2 <> Ok Halted ->
  ctl_cmd (UsbProto.set_configuration 0) None d' <> Panic -> run fuel minor [([], 0%nat, Err tt)] w = Done None.
Proof.
  intros Hc Hd Hi Ha Hg Hct Hx Hh Hnp. unfold run. rewrite Hc. cbn [mbind outcome_bind]. unfold ctl_send_command, send_command, alive_. rewrite Hd, Ha. cbn [assert_that mbind outcome_bind negb]. change (ctl_data_len (request_transfer (SetProtocol Boot 0)) =? 0) with true. cbn [eqb fmap option_fmap option_map].
  rewrite Hx. destruct x as [[b n] st]. cbn [await mbind outcome_bind snd] in *.
  assert (exists rc : result nat IoError, match st with Ok RecoveredError => Done (Ok n) | Ok UsbOk => Done (Ok n) | Err _ => Done (Err MediaError) | Ok Halted => Panic end = Done rc) as [rc Hrc].
  { destruct st as [[]|]; [by eexists|by eexists|by destruct Hh|by eexists]. }
  rewrite Hrc. cbn [await mbind outcome_bind drv wld dev_ boxes fst snd]. unfold mainloop. rewrite Hi. cbn [mainloop_turns mbind outcome_bind]. rewrite Hd. cbn [assert_that mbind outcome_bind].
  unfold shutdown, shutdown_inner. rewrite Ha. destruct (ctl_cmd (UsbProto.set_configuration 0) None d') as [[[[[? ?] ?] ?]|]|]; cbn [await mbind outcome_bind]; [|done|done]. by rewrite Hct, Hg.
Qed.

(** *** Finding devices *)

(** Any device with a device descriptor is taken for a HID device: that nothing was found is not looked at. *)
Theorem hid_binds_any fuel buffer a d desc : ready 1 d -> descriptor_of (p_dev d) QDevice 0 = Some desc -> length desc = 18%nat -> desc !! 1%nat = Some DescriptorType.Device -> (2 <= length buffer)%nat ->
  ep_guard a = false -> driver a = None -> exists acc' b d', find_hid fuel buffer (Some a) d = Done (Some (FBound, acc', b, d')).
Proof using BL FL.
  intros Hrd Hd Hl Ht Hb Hg Hdr. unfold find_hid. destruct (class_read_own 0 d desc 3 0 0 0x83 fuel buffer Hrd Hd Hl Ht) as (d' & Hc); [unfold is_byte; repeat constructor; lia|done|done|..].
  - unfold from_bits. by rewrite flag_truncate_spec.
  - by rewrite contains_spec.
  - unfold complement. by rewrite contains_spec, flag_truncate_spec.
  - change (of_le [3; 0; 0; 0x83]) with (of_le [3; 0; 0; 0x83; 0; 0; 0; 0]). rewrite Hc. cbn [mbind outcome_bind]. unfold acquire_ctl. rewrite Hg, Hdr. destruct (bool_decide _); by eexists _, _, _.
Qed.

(** *** Requests *)

(** The codes of the HID specification. *)
Definition spec_code (r : Request) : Z :=
  match r with GetReport _ _ _ _ => 1 | GetIdle _ _ => 2 | GetProtocol _ => 3 | SetReport _ _ _ => 9 | SetIdle _ _ _ => 10 | SetProtocol _ _ => 11 end.

(** Only [GET_REPORT] has its code. *)
Theorem hid_codes_wrong r : hid_request_code r = spec_code r <-> exists t id i l, r = GetReport t id i l.
Proof. destruct r; cbn; (split; [|intros (? & ? & ? & ? & [=])]); try done; intros _; by eexists _, _, _, _. Qed.

(** Asking for the boot protocol asks for no idle rate instead. *)
Theorem set_protocol_is_set_idle i : 0 <= i < 256 -> to_bytes (request_transfer (SetProtocol Boot i)) = [0x21; 10; 0; 0; i; 0; 0; 0].
Proof using BL.
  intros Hi. unfold request_transfer, ctl_new, to_bytes. rewrite header_byte. cbn [request_type request value index length_ hid_request_code protocol_u16 recipient_u8 request_type_u8 Z.b2z].
  assert (le_bytes 2 i = [i; 0]) as ->; [|done]. cbn. by rewrite Z.mod_small, Z.div_small by lia.
Qed.

End DriverLaws.

(** *** Names and numbers *)

(** A usage page survives the conversions, unless it is the camera page or the gaming page, which get other numbers. *)
Theorem usage_page_roundtrip v : 0 <= v -> usage_page_u16 (usage_page_from v) = v <-> v <> 0x8f /\ v <> 0x94.
Proof.
  intros Hv. assert (v = 0x8f \/ v = 0x94 \/ usage_page_u16 (usage_page_from v) = v) as [->|[->|He]]; [|split; [done|lia]|split; [done|lia]|].
  - destruct v as [|p|p]; [auto| |auto]. do 16 (try destruct p as [p|p|]; try (right; right; reflexivity)); auto.
  - rewrite He. split; [|done]. intros _. split; intros ->; done.
Qed.

(** The names of the ports: after the first they have a zero in front, and none is a number of a port. *)
Theorem port_names_wrong : port_names !! 1%nat = Some "01"%string /\ port_names !! 2%nat = Some "012"%string /\ forall i n, (0 < i)%nat -> port_names !! i = Some n -> forall k, 0 <= k < 127 -> n <> pretty k.
Proof.
  split; [reflexivity|]. split; [reflexivity|]. assert (forallb (fun n => forallb (fun k => negb (bool_decide (n = pretty k))) (seqZ 0 127)) (drop 1 port_names) = true) as Hf by (vm_compute; reflexivity).
  intros i n Hi Hn k Hk. rewrite forallb_forall in Hf. assert (List.In n (drop 1 port_names)) as Hin. { apply list_elem_of_In, list_elem_of_lookup. exists (i - 1)%nat. rewrite lookup_drop. by replace (1 + (i - 1))%nat with i by lia. }
  specialize (Hf n Hin). rewrite forallb_forall in Hf. specialize (Hf k). rewrite <- list_elem_of_In, elem_of_seqZ in Hf. specialize (Hf ltac:(lia)). by apply negb_true_iff, bool_decide_eq_false in Hf.
Qed.

(** The directory of the driver lists a file that it does not have, and has one that it does not list. *)
Theorem drv_files_disagree {HR : HidReport} {SS : SliceSearch} acc (s : DriverState) : ("if0" ∈ drv_file_list)%string /\ drv_get_file "if0" acc s = Done (Err NotPresent) /\
  ~ ("if1" ∈ drv_file_list)%string /\ exists f, drv_get_file "if1" acc s = Done (Ok (DrvPipe f)).
Proof.
  split; [unfold drv_file_list; rewrite !elem_of_cons; auto|]. split; [done|]. split; [|by eexists]. unfold drv_file_list. rewrite !elem_of_cons, elem_of_nil. intros [?|[?|[?|[]]]]; done.
Qed.

(** ** Witnesses *)
Module UsbHidWitness.
Import BitFieldWitness FlagWitness EhciSchedWitness UsbDeviceWitness HidWitness.

(** A keyboard that remembers the requests, and sends a report descriptor of ones. *)
Definition log_answer (bytes : list Z) : option (list Z) := match bytes with _ :: 6 :: i :: ty :: _ => if ty =? 0x22 then Some (repeat 1 63) else kbd_descriptor ty i | _ => None end.
#[export] Instance log_bus : UsbBus (list (list Z)) := {
  request_at _ := [mkRegion 0x5000 8];
  buffer_at _ n := [mkRegion 0x6000 (Z.of_nat n)];
  bus_run h l bytes buf d := (control_run log_answer h l bytes buf, d ++ [bytes]) }.

Definition frames : Controller := with_frames (Some (replicate 1024 1)) ehci.
Definition big_mem : DmaMem := mkDma {[0x2000 := set_active qtd_new false]} ((fun i => 0x3000 + 64 * i) <$> seqZ 0 60).
Definition bound : HidWorld (D := list (list Z)) :=
  mkHw (install_ctl driver_new) (mkWorld (Some (set_guard true kbd_acc)) frames idle_mem) (mkUsbPipe ctl_queue big_mem []) [0x1300; 0x1380].

(** The keyboard is configured, and is told to leave its configuration: the number of the first configuration is not its
    value. *)
Theorem kbd_deconfigured : exists w, configure_device 40 0 bound = Done (Some (Ok (8, 1, 0), w)) /\ in_endpoint (drv w) = Some 0x1300 /\ out_endpoint (drv w) = None /\
  interfaces (pipe (drv w)) = [HidIndexFlags.KEYBOARD_IF] /\ length (hid_interfaces (drv w)) = 1%nat /\ to_bytes (UsbProto.set_configuration 0) ∈ p_dev (dev_ w).
Proof.
  eexists. split; [vm_compute; reflexivity|]. split; [vm_compute; reflexivity|]. split; [vm_compute; reflexivity|]. split; [vm_compute; reflexivity|]. split; [vm_compute; reflexivity|].
  apply list_elem_of_lookup. exists 4%nat. vm_compute. reflexivity.
Qed.

Definition kbd_driver : DriverState := mkDriver true (Some 0x1300) None reader (Some 0) [kbd].

Lemma mainloop_tracks_witness : exists s' kb', mainloop [(shift_a, 8%nat, Ok UsbOk); (repeat 0 8, 8%nat, Ok RecoveredError)] kbd_driver = Done (Some (None, s')) /\
  keyboard_driver s' kb' /\ key_down kb' 4 = false.
Proof.
  destruct (mainloop_tracks [(shift_a, 8%nat, Ok UsbOk)] (repeat 0 8, 8%nat, Ok RecoveredError) kbd_driver kbd 0x1300) as (s' & kb' & Hr & Hs & Hk).
  - split; [reflexivity|apply kb_empty_wf|repeat constructor].
  - reflexivity.
  - repeat constructor.
  - constructor.
  - exists s', kb'. split; [exact Hr|]. split; [exact Hs|]. rewrite Hk by lia. reflexivity.
Defined.

End UsbHidWitness.
