(* ===== verification/Apic.v ===== *)
(** * Interrupt controllers and the system time

    [kernel/src/interrupts/apic*]: the registers of the local APIC ([apic_structures.rs], Module [Lvt]), the
    local APIC and its timer ([xapic.rs], Module [XApic]), the I/O APIC ([ioapic.rs], Module [IoApic]), the
    routing of interrupts through all I/O APICs ([system/sysfs/systemctl.rs], Module [Routing]), and the system
    time ([kernel/src/time.rs], Module [SystemTime]).

    Fields of words are declared with the [modular_bitfield] crate from the lowest bit on; its accessors are those of
    [BitFieldOps].  An I/O APIC is its select register and its registers, as the 82093 has them. *)
From Stdlib Require Import SpecFloat String.
From stdpp Require Import prelude gmap.
From S2P Require Import Prelude Bytes BitField Serial.
Open Scope list_scope.
Open Scope Z_scope.

(** ** Registers of the local vector table *)
Module Lvt.

Inductive InterruptDeliveryMode := Fixed | Smi | Nmi | ExternalInt | Init.
Definition delivery_u8 (m : InterruptDeliveryMode) : Z := match m with Fixed => 0 | Smi => 2 | Nmi => 4 | ExternalInt => 7 | Init => 5 end.
Definition check_vector (m : InterruptDeliveryMode) (vector : Z) : Z := match m with Fixed | ExternalInt | Init => vector | Smi | Nmi => 0 end.
Definition delivery_from (reg : Z) : outcome InterruptDeliveryMode :=
  match Z.land (Z.shiftr reg 8) 7 with 0 => Done Fixed | 2 => Done Smi | 4 => Done Nmi | 7 => Done ExternalInt | 5 => Done Init | _ => Panic end.

(** [!x] of a [u32]. *)
Definition not32 (x : Z) : Z := 2 ^ 32 - 1 - x.

Definition set_vector (reg vector : Z) (mode : InterruptDeliveryMode) : outcome Z :=
  assert_that (15 <? vector);;
  let reg := Z.land reg (not32 0x3ff) in
  let reg := Z.lor reg (check_vector mode vector) in
  Done (Z.lor reg (Z.shiftl (delivery_u8 mode) 8)).
Definition get_vector (reg : Z) : Z := reg mod 256.
Definition get_mode (reg : Z) : outcome InterruptDeliveryMode := delivery_from reg.
Definition get_mask (reg : Z) : bool := 0 <? Z.land reg (bit 16).
Definition set_mask (reg : Z) (mask : bool) : Z :=
  if eqb (get_mask reg) mask then reg else if mask then Z.lor reg (bit 16) else Z.land reg (not32 (bit 16)).
Definition get_status (reg : Z) : bool := 0 <? Z.land reg (bit 12).

(** [ApicErrorInt::set_vector]. *)
Definition err_set_vector (reg vector : Z) : outcome Z := assert_that (15 <? vector);; Done (Z.lor (Z.land reg (not32 0xff)) vector).

Inductive TimerMode := OneShot | Periodic | TscDeadline.
Definition timer_mode_u32 (m : TimerMode) : Z := Z.shiftl (match m with OneShot => 0 | Periodic => 1 | TscDeadline => 2 end) 17.
Definition timer_mode_from (reg : Z) : outcome TimerMode :=
  match Z.land (Z.shiftr reg 17) 3 with 0 => Done OneShot | 1 => Done Periodic | 2 => Done TscDeadline | _ => Panic end.
Definition TIMER_MODE_MASK : Z := Z.shiftl 3 17.
Definition set_timer_mode (reg : Z) (m : TimerMode) : Z := Z.lor (Z.land reg (not32 TIMER_MODE_MASK)) (timer_mode_u32 m).
Definition get_timer_mode (reg : Z) : outcome TimerMode := timer_mode_from reg.

(** [LocalInt]. *)
Definition get_polarity (reg : Z) : bool := 0 <? Z.land reg (bit 13).
Definition get_trigger_mode (reg : Z) : bool := 0 <? Z.land reg (bit 15).
Definition set_trigger_mode (reg : Z) (state : bool) : Z := Z.lor reg (Z.shiftl (Z.b2z state) 15).
Definition get_interrupt_request (reg : Z) : bool := 0 <? Z.land reg (bit 14).

(** [SpuriousVector]. *)
Definition APIC_ENABLE : Z := bit 8.
Definition spurious_set_vector (reg vector : Z) : outcome Z := assert_that (15 <? vector);; Done (Z.lor (Z.ldiff reg 0xff) vector).

Inductive TimerDivisionMode := Divide2 | Divide4 | Divide8 | Divide16 | Divide32 | Divide64 | Divide128 | Divide1.
Definition division_u32 (d : TimerDivisionMode) : Z :=
  match d with Divide2 => 0 | Divide4 => 1 | Divide8 => 2 | Divide16 => 3 | Divide32 => 0x10 | Divide64 => 9 | Divide128 => 10 | Divide1 => 11 end.
Definition division_from (n : Z) : outcome TimerDivisionMode :=
  match n with
  | 0 => Done Divide2 | 1 => Done Divide4 | 2 => Done Divide8 | 3 => Done Divide8 | 8 => Done Divide32 | 9 => Done Divide64 | 10 => Done Divide128 | 11 => Done Divide1
  | _ => Panic
  end.
Definition to_divide_value (d : TimerDivisionMode) : Z :=
  match d with Divide1 => 1 | Divide2 => 2 | Divide4 => 4 | Divide8 => 8 | Divide16 => 16 | Divide32 => 32 | Divide64 => 64 | Divide128 => 128 end.
Definition from_divide_value (num : Z) : option TimerDivisionMode :=
  match num with
  | 1 => Some Divide1 | 2 => Some Divide2 | 4 => Some Divide4 | 8 => Some Divide8 | 16 => Some Divide16 | 32 => Some Divide32 | 64 => Some Divide64 | 128 => Some Divide128
  | _ => None
  end.

Definition best_try_divide (num : Z) : outcome (Z * TimerDivisionMode) :=
  let low := num mod 2 ^ 32 in
  if num <=? 0xffffffff then Done (low, Divide1)
  else if num <=? 0x1ffffffff then Done (low / 2, Divide2)
  else if num <=? 0x3ffffffff then Done (low / 4, Divide4)
  else if num <=? 0x7ffffffff then Done (low / 8, Divide8)
  else if num <=? 0xfffffffff then Done (low / 16, Divide16)
  else if num <=? 0x1fffffffff then Done (low / 32, Divide32)
  else if num <=? 0x3fffffffff then Done (low / 64, Divide64)
  else if num <=? 0x7fffffffff then Done (low / 128, Divide128)
  else Panic.

End Lvt.

(** ** The local APIC *)
Module XApic.
Import Lvt.

Inductive IpiError := BadTarget | BadMode.
Inductive IpiTarget := Other (cpu : Z) | ThisCpu | All | AllNotThisCpu.
Inductive InterruptType := TFixed | LowestPriority | TSmi | NMI | TInit | SIPI.
Definition interrupt_type_bits (t : InterruptType) : Z := match t with TFixed => 0 | LowestPriority => 1 | TSmi => 2 | NMI => 4 | TInit => 5 | SIPI => 6 end.
Inductive DestinationShorthand := NoShorthand | DThisCpu | DAll | AllNotSelf.
Definition shorthand_bits (s : DestinationShorthand) : Z := match s with NoShorthand => 0 | DThisCpu => 1 | DAll => 2 | AllNotSelf => 3 end.

Inductive TimerError := ClockPeriodUnknown | DivisionModeUnsupported | FeatureUnavailable | CountTooHigh.

Abbreviation reg n := (mkField n 16 16).
Abbreviation regs n k := (mkField n (16 * k) 16).

(** The structure over the registers; each but [eoi_reg] takes sixteen bytes. *)
Definition xapic_fields : list field :=
  [regs "_reserved0" 2; reg "id_register"; reg "version_register"; regs "_reserved1" 4; reg "task_priority"; reg "arbitration_priority"; reg "processor_priority";
   mkField "eoi_reg" 4 4; reg "remote_read"; reg "logical_destination"; reg "destination_format"; reg "spurious_interrupt_vector"; regs "in_service" 8;
   regs "trigger_mode" 8; regs "interrupt_request" 8; reg "error_status"; regs "_reserved2" 6; reg "cmc_vector"; regs "interrupt_command_register" 2;
   reg "timer_vector"; reg "thermal_sensor_vector"; reg "perf_mon_counter_vector"; reg "local_interrupt_0_vector"; reg "local_interrupt_1_vector";
   reg "error_interrupt_vector"; reg "initial_timer_count"; reg "current_timer_count"; regs "_reserved" 4; reg "divide_configuration_register"; reg "_reserved4"]%string.

(** The registers that are used. *)
Record xApic := mkApic { id_register : Z; spurious : Z; error_status : Z; error_vector : Z; timer_vector : Z; divide : TimerDivisionMode; initial_count : Z; icr_high : Z; icr_low : Z; eois : nat }.

Definition with_timer (t : Z) (d : TimerDivisionMode) (c : Z) (a : xApic) : xApic :=
  mkApic (id_register a) (spurious a) (error_status a) (error_vector a) t d c (icr_high a) (icr_low a) (eois a).
Definition with_icr (h l : Z) (a : xApic) : xApic :=
  mkApic (id_register a) (spurious a) (error_status a) (error_vector a) (timer_vector a) (divide a) (initial_count a) h l (eois a).

(** [f32] to [u64]: towards zero, and saturating. *)
Definition f32_to_u64 (x : spec_float) : Z :=
  match x with
  | S754_finite false m e => Z.min (2 ^ 64 - 1) (if 0 <=? e then Z.shiftl (Z.pos m) e else Z.shiftr (Z.pos m) (- e))
  | S754_infinity false => 2 ^ 64 - 1
  | _ => 0
  end.
Definition TARGET_PERIOD : Z := 3333333.

Section Ops.
Context `{BO : BitFieldOps} `{FO : FlagOps}.

Definition set_enable (enable : bool) (a : xApic) : xApic :=
  mkApic (id_register a) (flag_set (spurious a) APIC_ENABLE enable) (error_status a) (error_vector a) (timer_vector a) (divide a) (initial_count a) (icr_high a) (icr_low a) (eois a).

Definition init_err (vector : Z) (mask : bool) (a : xApic) : outcome xApic :=
  v ← err_set_vector (error_vector a) vector;
  Done (mkApic (id_register a) (spurious a) 0 (set_mask v mask) (timer_vector a) (divide a) (initial_count a) (icr_high a) (icr_low a) (eois a)).

Definition init_timer (vector : Z) (mask : bool) (a : xApic) : outcome xApic :=
  t ← set_vector (timer_vector a) vector Fixed;
  Done (with_timer (set_mask t mask) Divide1 (initial_count a) a).

Definition set_timer (mode : TimerMode) (time : Z) (a : xApic) : xApic := with_timer (set_timer_mode (timer_vector a) mode) (divide a) time a.

Definition declare_eoi (a : xApic) : xApic :=
  mkApic (id_register a) (spurious a) (error_status a) (error_vector a) (timer_vector a) (divide a) (initial_count a) (icr_high a) (icr_low a) (S (eois a)).

Definition clear_err (a : xApic) : xApic :=
  mkApic (id_register a) (spurious a) 0 (error_vector a) (timer_vector a) (divide a) (initial_count a) (icr_high a) (icr_low a) (eois a).

Definition set_spurious_vec (vector : Z) (a : xApic) : outcome xApic :=
  s ← spurious_set_vector (spurious a) vector;
  Done (mkApic (id_register a) s (error_status a) (error_vector a) (timer_vector a) (divide a) (initial_count a) (icr_high a) (icr_low a) (eois a)).

(** [begin_calibration]: whether the vector is free, the time at the first interrupt and at the second. *)
Definition begin_calibration (free : bool) (initial_time new test_time vec : Z) (a : xApic) : outcome xApic :=
  assert_that free;;
  a ← init_timer vec false a;
  let a := set_timer Periodic test_time a in
  let duration := (new ⊖ initial_time)%u64 in
  let ratio := SFdiv 24 128 (FrameCtl.f32_of_Z TARGET_PERIOD) (FrameCtl.f32_of_Z duration) in
  let out := SFmul 24 128 ratio (FrameCtl.f32_of_Z test_time) in
  r ← best_try_divide (f32_to_u64 out);
  let '(time, div) := (r : Z * TimerDivisionMode) in
  let a := with_timer (timer_vector a) div (initial_count a) a in
  a ← init_timer vec true a;
  Done (set_timer Periodic time a).

Definition get_id (a : xApic) : Z := Z.land (Z.shiftr (id_register a) 24) (not32 255).

(** [InterruptCommandRegisterLow] and [InterruptCommandRegisterHigh]. *)
Definition icr_low_word (vector : Z) (t : InterruptType) (s : DestinationShorthand) : Z :=
  set_bit_range (set_bit_range (set_bit_range (set_bit_range 0 7 0 vector) 10 8 (interrupt_type_bits t)) 14 14 1) 19 18 (shorthand_bits s).
Definition icr_high_word (dst : Z) : Z := set_bit_range 0 31 24 dst.
Definition delivery_status (icr : Z) : bool := get_bit icr 12.

Definition ipi_dest (target : IpiTarget) : Z * DestinationShorthand :=
  match target with Other v => (v, NoShorthand) | ThisCpu => (0, DThisCpu) | All => (0, DAll) | AllNotThisCpu => (0, AllNotSelf) end.

(** [send_ipi]; [reads] is what the command register reads as while it is waited for, and [None] a wait that does
    not end. *)
Definition send_ipi (target : IpiTarget) (t : InterruptType) (vector : Z) (reads : list Z) (a : xApic) : option (result unit IpiError * xApic) :=
  let '(dst, short) := ipi_dest target in
  if negb (match t with TFixed | SIPI => true | _ => false end) && negb (vector =? 0) then Some (Err BadMode, a)
  else if 255 <? dst then Some (Err BadTarget, a)
  else if existsb (fun r => negb (delivery_status r)) reads then Some (Ok tt, with_icr (icr_high_word dst) (icr_low_word vector t short) a)
  else None.

(** [Timer]. *)
Definition get_division_mode (a : xApic) : Z := to_divide_value (divide a).
Definition set_division_mode (div : Z) (a : xApic) : result unit TimerError * xApic :=
  if 128 <? div then (Err DivisionModeUnsupported, a)
  else match from_divide_value (div mod 256) with
       | Some mode => (Ok tt, with_timer (timer_vector a) mode (initial_count a) a)
       | None => (Err DivisionModeUnsupported, a)
       end.
Definition set_clock_count (count : Z) (mode : TimerMode) (a : xApic) : result unit TimerError * xApic :=
  if 2 ^ 32 - 1 <? count then (Err CountTooHigh, a) else (Ok tt, with_timer (set_timer_mode (timer_vector a) mode) (divide a) count a).

End Ops.
End XApic.

(** ** The I/O APIC *)
Module IoApic.

(** The select register and the registers of the chip. *)
Record Chip := mkChip { select : Z; regs : gmap Z Z }.
Definition chip_select (addr : Z) (c : Chip) : Chip := mkChip addr (regs c).
Definition chip_write (data : Z) (c : Chip) : Chip := mkChip (select c) (<[select c := data]> (regs c)).
Definition chip_read (c : Chip) : Z := default 0 (regs c !! select c).

Record IoApic := mkIo { chip : Chip; gsi_base : Z; size : Z }.
Definition VER : Z := 1.

Definition write (addr data : Z) (s : IoApic) : IoApic := mkIo (chip_write data (chip_select addr (chip s))) (gsi_base s) (size s).
Definition read (addr : Z) (s : IoApic) : Z * IoApic := let c := chip_select addr (chip s) in (chip_read c, mkIo c (gsi_base s) (size s)).

(** [IoApicVersion]. *)
Definition revision (v : Z) : Z := v mod 256.
Definition entries (v : Z) : Z := v / 2 ^ 16 mod 256.

Definition new (c : Chip) (base : Z) : outcome IoApic :=
  assert_that (base <? 256);;
  let '(v, s) := read VER (mkIo c base 0) in
  Done (mkIo (chip s) base (entries v)).

(** The registers of an entry; the index is a [u8]. *)
Definition low_reg (index : Z) : Z := (index * 2 + 0x10) mod 256.
Definition high_reg (index : Z) : Z := (index * 2 + 0x11) mod 256.

Definition get_entry (index : Z) (s : IoApic) : outcome (Z * IoApic) :=
  assert_that (index <? size s);;
  let '(l, s) := read (low_reg index) s in
  let '(h, s) := read (high_reg index) s in
  Done (l + 2 ^ 32 * h, s).

Section Entries.
Context `{BO : BitFieldOps}.

Inductive DeliveryMode := Fixed | LowestPriority | Smi | Nmi | Init | ExtInt.
Definition delivery_bits (m : DeliveryMode) : Z := match m with Fixed => 0 | LowestPriority => 1 | Smi => 2 | Nmi => 4 | Init => 5 | ExtInt => 7 end.
Inductive DestinationMode := PhysicalMode | LogicalMode.
Definition destination_bits (m : DestinationMode) : Z := match m with PhysicalMode => 0 | LogicalMode => 1 end.
Inductive TriggerMode := EdgeTriggered | LevelTriggered.
Definition trigger_bits (m : TriggerMode) : Z := match m with EdgeTriggered => 0 | LevelTriggered => 1 end.
Inductive PinPolarity := AssertHigh | AssertLow.
Definition polarity_bits (m : PinPolarity) : Z := match m with AssertHigh => 0 | AssertLow => 1 end.

(** [RedirectionTableEntry], a word of 64 bits. *)
Definition set_vector (e v : Z) : Z := set_bit_range e 7 0 v.
Definition set_delivery_mode (e : Z) (m : DeliveryMode) : Z := set_bit_range e 10 8 (delivery_bits m).
Definition set_destination_mode (e : Z) (m : DestinationMode) : Z := set_bit_range e 11 11 (destination_bits m).
Definition set_polarity (e : Z) (m : PinPolarity) : Z := set_bit_range e 13 13 (polarity_bits m).
Definition set_trigger_mode (e : Z) (m : TriggerMode) : Z := set_bit_range e 15 15 (trigger_bits m).
Definition set_mask (e : Z) (b : bool) : Z := set_bit_range e 16 16 (Z.b2z b).
Definition set_destination (e d : Z) : Z := set_bit_range e 63 56 d.

(** [set_entry]: the writes in their order. *)
Definition masked_word : Z := set_mask 0 true mod 2 ^ 32.
Definition entry_writes (index entry : Z) : list (Z * Z) := [(low_reg index, masked_word); (high_reg index, entry / 2 ^ 32); (low_reg index, entry mod 2 ^ 32)].
Definition set_entry (index entry : Z) (s : IoApic) : outcome IoApic :=
  assert_that (index <? size s);; Done (foldl (fun s w => write w.1 w.2 s) s (entry_writes index entry)).

Definition is_gsi (gsi : Z) (s : IoApic) : bool := (gsi_base s <? gsi) && (gsi <? (gsi_base s + size s) mod 256).
Definition get_gsi (gsi : Z) (s : IoApic) : outcome (Z * IoApic) := assert_that (is_gsi gsi s);; get_entry ((gsi - gsi_base s) mod 256) s.
Definition set_gsi (gsi entry : Z) (s : IoApic) : outcome IoApic := assert_that (is_gsi gsi s);; set_entry ((gsi - gsi_base s) mod 256) entry s.

(** [GlobalSystemInterrupt]. *)
Inductive Target := Logical (t : Z) | Physical (id : Z).
Definition physical_target (id : Z) : outcome Target := assert_that (id <? 16);; Done (Physical id).
Record GlobalSystemInterrupt := mkGsi { vector : Z; gsi : Z; target : Target; polarity : PinPolarity; trigger_mode : TriggerMode; delivery_mode : DeliveryMode; mask : bool }.
Definition gsi_new (gsi vector : Z) : GlobalSystemInterrupt := mkGsi vector gsi (Physical 0) AssertHigh EdgeTriggered Fixed true.

Definition rt_entry (g : GlobalSystemInterrupt) : Z :=
  let rte := match target g with
             | Logical t => set_destination_mode (set_destination 0 t) LogicalMode
             | Physical t => set_destination_mode (set_destination 0 t) PhysicalMode
             end in
  set_vector (set_mask (set_delivery_mode (set_trigger_mode (set_polarity rte (polarity g)) (trigger_mode g)) (delivery_mode g)) (mask g)) (vector g).

End Entries.
End IoApic.

(** ** Routing *)
Module Routing.
Import IoApic.

(** [InterruptOverride] and what ACPI has for it. *)
Record InterruptOverride := mkOverride { isa_source : Z; global_system_interrupt : Z; o_polarity : option PinPolarity; o_trigger : option TriggerMode }.
Inductive AcpiTrigger := TSameAsBus | Edge | Level.
Inductive AcpiPolarity := PSameAsBus | ActiveHigh | ActiveLow.
Record SourceOverride := mkSource { s_isa : Z; s_gsi : Z; s_polarity : AcpiPolarity; s_trigger : AcpiTrigger }.
Definition override_from (v : SourceOverride) : InterruptOverride :=
  mkOverride (s_isa v) (s_gsi v)
    (match s_polarity v with PSameAsBus => None | ActiveHigh => Some AssertHigh | ActiveLow => Some AssertLow end)
    (match s_trigger v with TSameAsBus => None | Edge => Some EdgeTriggered | Level => Some LevelTriggered end).

(** The entry of the MADT for an override, and its conversion: the flags have the polarity in bits 0 and 1 and the trigger
    mode in bits 2 and 3. *)
Record InterruptSourceOverrideEntry := mkEntry { e_irq : Z; e_gsi : Z; e_flags : Z }.
Definition flags_polarity (flags : Z) : outcome (option PinPolarity) :=
  match Z.land flags 3 with 0 => Done None | 1 => Done (Some AssertHigh) | 3 => Done (Some AssertLow) | _ => Panic end.
Definition flags_trigger (flags : Z) : outcome (option TriggerMode) :=
  match Z.shiftr (Z.land flags (Z.shiftl 3 2)) 2 with 0 => Done None | 1 => Done (Some EdgeTriggered) | 3 => Done (Some LevelTriggered) | _ => Panic end.
Definition override_from_entry (v : InterruptSourceOverrideEntry) : outcome InterruptOverride :=
  polarity ← flags_polarity (e_flags v);
  trigger ← flags_trigger (e_flags v);
  Done (mkOverride (e_irq v) (e_gsi v) polarity trigger).

(** Entries of the MADT: an I/O APIC with its chip and base, an override, or something else. *)
Inductive MadtEntry := MIoApic (c : Chip) (base : Z) | MOverride (v : InterruptSourceOverrideEntry) | MOther.

Record GlobalIoApic := mkGlobal { inner : list IoApic; overrides : option (list InterruptOverride) }.

(** The second loop of [cfg_madt]. *)
Fixpoint collect_overrides (madt : list MadtEntry) : outcome (list InterruptOverride) :=
  match madt with
  | [] => Done []
  | MOverride v :: madt => o ← override_from_entry v; l ← collect_overrides madt; Done (o :: l)
  | _ :: madt => collect_overrides madt
  end.

(** The first loop of [cfg_madt], over the [Option] that [find] returns. *)
Definition first_io_apic (madt : list MadtEntry) : outcome (list IoApic) :=
  match find (fun e => match e with MIoApic _ _ => true | _ => false end) madt with
  | Some (MIoApic c base) => a ← new c base; Done [a]
  | _ => Done []
  end.

Definition cfg_madt (madt : list MadtEntry) (g : GlobalIoApic) : outcome GlobalIoApic :=
  arr ← first_io_apic madt;
  ov ← collect_overrides madt;
  match overrides g with Some _ => Panic | None => Done (mkGlobal arr (Some ov)) end.

Definition lookup_override (isa : Z) (g : GlobalIoApic) : outcome (option InterruptOverride) :=
  l ← unwrap (overrides g); Done (find (fun i => isa_source i =? isa) l).

Section Ops.
Context `{BO : BitFieldOps}.

Fixpoint set_first (gsi cfg : Z) (l : list IoApic) : outcome (result unit unit * list IoApic) :=
  match l with
  | [] => Done (Err tt, [])
  | i :: l => if is_gsi gsi i then i ← set_gsi gsi cfg i; Done (Ok tt, i :: l) else r ← set_first gsi cfg l; Done (r.1, i :: r.2)
  end.
Definition global_set_gsi (gsi cfg : Z) (g : GlobalIoApic) : outcome (result unit unit * GlobalIoApic) :=
  r ← set_first gsi cfg (inner g); Done (r.1, mkGlobal r.2 (overrides g)).

Fixpoint get_first (gsi : Z) (l : list IoApic) : outcome (result Z unit * list IoApic) :=
  match l with
  | [] => Done (Err tt, [])
  | i :: l => if is_gsi gsi i then r ← get_gsi gsi i; Done (Ok r.1, r.2 :: l) else r ← get_first gsi l; Done (r.1, i :: r.2)
  end.
Definition global_get_gsi (gsi : Z) (g : GlobalIoApic) : outcome (result Z unit * GlobalIoApic) :=
  r ← get_first gsi (inner g); Done (r.1, mkGlobal r.2 (overrides g)).

(** [GlobalSystemInterrupt::set] and [get]. *)
Definition gsi_set (i : GlobalSystemInterrupt) (g : GlobalIoApic) : outcome (result unit unit * GlobalIoApic) := global_set_gsi (gsi i) (rt_entry i) g.
Definition gsi_get (i : GlobalSystemInterrupt) (g : GlobalIoApic) : outcome (result Z unit * GlobalIoApic) := global_get_gsi (gsi i) g.

End Ops.

(** [InterruptIndex::get_isa] for the vector [v]. *)
Definition get_isa (v isa_irq : Z) (g : GlobalIoApic) : outcome (GlobalSystemInterrupt * option InterruptOverride) :=
  o ← lookup_override isa_irq g;
  Done (match (o : option InterruptOverride) with
        | Some o =>
            let i := gsi_new (global_system_interrupt o mod 256) v in
            (mkGsi (vector i) (gsi i) (target i) (default (polarity i) (o_polarity o)) (default (trigger_mode i) (o_trigger o)) (delivery_mode i) (mask i), Some o)
        | None => (gsi_new isa_irq v, None)
        end).

End Routing.

(** ** The system time *)
Module SystemTime.

(** Where a processor is in [update]: not in it, holding the flag, having read the clock, having added the period,
    having recorded the clock. *)
Inductive Pc := Idle | Holding | Read (period clock : Z) | Added (clock : Z) | Recorded.

(** [SystemTime]; [pcs] are the processors, [readings] the clock readings that were used, latest first. *)
Record St := mkSt { dirty : bool; time : Z; last_check : Z; pcs : nat -> Pc; readings : list Z }.

Definition at_ (s : St) (cpu : nat) (p : Pc) (s' : St) : Prop := pcs s' cpu = p /\ forall j, j <> cpu -> pcs s' j = pcs s j.

Section Steps.
(** [TimeKeeper::time_since] at the clock [now]: the period from the old reading, and the new reading. *)
Context (period_of : Z -> Z -> Z).

Inductive step : St -> St -> Prop :=
| s_acquire s s' cpu : pcs s cpu = Idle -> dirty s = false -> at_ s cpu Holding s' -> dirty s' = true -> time s' = time s -> last_check s' = last_check s -> readings s' = readings s -> step s s'
| s_fail s cpu : pcs s cpu = Idle -> step s s
| s_read s s' cpu now : pcs s cpu = Holding -> at_ s cpu (Read (period_of (last_check s) now) now) s' -> dirty s' = dirty s -> time s' = time s -> last_check s' = last_check s -> readings s' = readings s -> step s s'
| s_add s s' cpu p c : pcs s cpu = Read p c -> at_ s cpu (Added c) s' -> dirty s' = dirty s -> time s' = (time s ⊕ p)%u64 -> last_check s' = last_check s -> readings s' = c :: readings s -> step s s'
| s_record s s' cpu c : pcs s cpu = Added c -> at_ s cpu Recorded s' -> dirty s' = dirty s -> time s' = time s -> last_check s' = c -> readings s' = readings s -> step s s'
| s_release s s' cpu : pcs s cpu = Recorded -> at_ s cpu Idle s' -> dirty s' = false -> time s' = time s -> last_check s' = last_check s -> readings s' = readings s -> step s s'.

(** [init]: the first reading [c0]. *)
Definition init_st (c0 : Z) : St := mkSt false 0 c0 (fun _ => Idle) [c0].

(** The periods between consecutive readings, latest first. *)
Fixpoint total (l : list Z) : Z :=
  match l with
  | c :: ((old :: _) as rest) => period_of old c + total rest
  | _ => 0
  end.

End Steps.

(** [Duration] and [AbsoluteTime]. *)
Definition seconds (s : Z) : Z := (s ⊗ 1000000000)%u64.
Definition millis (m : Z) : Z := (m ⊗ 1000000)%u64.
Definition absolute (now duration : Z) : Z := (now ⊕ duration)%u64.

(** [block_ipi_delivered]: the readings of the clock and of the command register, turn by turn; [None] when they end
    before the call does. *)
Fixpoint block_ipi_delivered `{BO : BitFieldOps} (wakeup : Z) (turns : list (Z * Z)) : option bool :=
  match turns with
  | [] => None
  | (now, icr) :: turns => if wakeup <? now then Some (negb (XApic.delivery_status icr)) else if negb (XApic.delivery_status icr) then Some true else block_ipi_delivered wakeup turns
  end.

End SystemTime.

(** ** Theorems *)

(** *** Words *)

Lemma u32_bits x i : 0 <= x < 2 ^ 32 -> 32 <= i -> Z.testbit x i = false.
Proof. intros Hx Hi. rewrite <- (Z.mod_small x (2 ^ 32)) by done. by rewrite Z.mod_pow2_bits_high by lia. Qed.

Lemma small_bits n x i : 0 <= n -> 0 <= x < 2 ^ n -> n <= i -> Z.testbit x i = false.
Proof. intros Hn Hx Hi. rewrite <- (Z.mod_small x (2 ^ n)) by done. by rewrite Z.mod_pow2_bits_high by lia. Qed.

Lemma not32_bits x i : 0 <= x < 2 ^ 32 -> 0 <= i < 32 -> Z.testbit (Lvt.not32 x) i = negb (Z.testbit x i).
Proof.
  intros Hx Hi. unfold Lvt.not32. change (2 ^ 32 - 1) with (Z.ones 32). rewrite Z.sub_nocarry_ldiff.
  - rewrite Z.ldiff_spec, Z.testbit_ones_nonneg, (proj2 (Z.ltb_lt i 32)) by lia. done.
  - destruct (decide (x = 0)) as [->|]; [done|]. apply Z.ldiff_ones_r_low; [lia|]. apply Z.log2_lt_pow2; lia.
Qed.

(** Bits of a word below a bound. *)
Lemma bits_below n a b : 0 <= n -> 0 <= a < 2 ^ n -> 0 <= b < 2 ^ n -> (forall i, 0 <= i < n -> Z.testbit a i = Z.testbit b i) -> a = b.
Proof. intros Hn Ha Hb Hi. apply Z.bits_inj'. intros i H0. destruct (decide (i < n)); [apply Hi; lia|]. by rewrite !(small_bits n) by lia. Qed.

Lemma mod_bits n x : 0 <= n -> forall i, 0 <= i -> Z.testbit (x mod 2 ^ n) i = (i <? n) && Z.testbit x i.
Proof. intros Hn i Hi. destruct (Z.ltb_spec i n); [by rewrite Z.mod_pow2_bits_low by lia|by rewrite Z.mod_pow2_bits_high by lia]. Qed.

Lemma land_ones_mod x n : 0 <= n -> Z.land x (2 ^ n - 1) = x mod 2 ^ n.
Proof. intros Hn. rewrite <- Z.land_ones by done. by rewrite Z.ones_equiv, <- Z.sub_1_r. Qed.

(** A word without bits from 64 on. *)
Lemma bits_u64 x : (forall i, 64 <= i -> Z.testbit x i = false) -> 0 <= x < 2 ^ 64.
Proof.
  intros Hb. assert (x = x mod 2 ^ 64) as ->; [|apply Z.mod_pos_bound; lia]. apply Z.bits_inj'. intros i Hi. rewrite mod_bits by lia. destruct (Z.ltb_spec i 64); [done|]. by rewrite Hb.
Qed.

(** *** Local vector table *)

Lemma set_vector_bits reg v m r i : 0 <= reg < 2 ^ 32 -> 0 <= i < 32 -> Lvt.set_vector reg v m = Done r ->
  Z.testbit r i = (Z.testbit reg i && (10 <=? i)) || Z.testbit (Lvt.check_vector m v) i || (if 8 <=? i then Z.testbit (Lvt.delivery_u8 m) (i - 8) else false).
Proof.
  intros Hr Hi Hs. unfold Lvt.set_vector in Hs. destruct (15 <? v); [|done]. cbn in Hs. injection Hs as <-. rewrite !Z.lor_spec, Z.land_spec, not32_bits by lia.
  assert (Z.testbit 0x3ff i = negb (10 <=? i)) as ->. { change 0x3ff with (Z.ones 10). rewrite Z.testbit_ones_nonneg by lia. destruct (Z.ltb_spec i 10), (Z.leb_spec 10 i); lia || done. }
  rewrite negb_involutive. f_equal. destruct (Z.leb_spec 8 i); [by rewrite Z.shiftl_spec by lia|by rewrite Z.shiftl_spec_low by lia].
Qed.

(** A vector and a mode are read back as they were set, and nothing above them changes, when bit 10 was clear. *)
Theorem lvt_set_get reg v m : 0 <= reg < 2 ^ 32 -> 16 <= v < 256 -> Z.testbit reg 10 = false ->
  exists r, Lvt.set_vector reg v m = Done r /\ Lvt.get_vector r = Lvt.check_vector m v /\ Lvt.get_mode r = Done m /\ forall i, 11 <= i < 32 -> Z.testbit r i = Z.testbit reg i.
Proof.
  intros Hr Hv H10. assert (exists r, Lvt.set_vector reg v m = Done r) as [r Hs] by (unfold Lvt.set_vector; rewrite (proj2 (Z.ltb_lt 15 v)) by lia; by eexists). exists r. split; [done|].
  assert (0 <= Lvt.check_vector m v < 2 ^ 8) as Hc by (destruct m; cbn; lia). assert (0 <= Lvt.delivery_u8 m < 2 ^ 3) as Hd by (destruct m; cbn; lia).
  pose proof (fun i Hi => set_vector_bits reg v m r i Hr Hi Hs) as Hb. split_and!.
  - unfold Lvt.get_vector. change 256 with (2 ^ 8). apply (bits_below 8); [lia|apply Z.mod_pos_bound; lia|done|]. intros i Hi. rewrite mod_bits, (proj2 (Z.ltb_lt i 8)), Hb by lia. cbn [andb].
    rewrite (proj2 (Z.leb_gt 10 i)), (proj2 (Z.leb_gt 8 i)) by lia. by rewrite andb_false_r, orb_false_r.
  - unfold Lvt.get_mode, Lvt.delivery_from. change 7 with (2 ^ 3 - 1) at 1. rewrite land_ones_mod by lia.
    assert (Z.shiftr r 8 mod 2 ^ 3 = Lvt.delivery_u8 m) as ->; [|by destruct m].
    apply (bits_below 3); [lia|apply Z.mod_pos_bound; lia|done|]. intros i Hi. rewrite mod_bits, (proj2 (Z.ltb_lt i 3)), Z.shiftr_spec, Hb by lia. cbn [andb].
    rewrite (small_bits 8 (Lvt.check_vector m v)) by lia. rewrite (proj2 (Z.leb_le 8 (i + 8))) by lia. replace (i + 8 - 8) with i by lia. rewrite orb_false_r.
    destruct (Z.leb_spec 10 (i + 8)); [|by rewrite andb_false_r]. replace (i + 8) with 10 by lia. by rewrite H10.
  - intros i Hi. rewrite Hb by lia. rewrite (proj2 (Z.leb_le 10 i)), (proj2 (Z.leb_le 8 i)) by lia. rewrite (small_bits 8 (Lvt.check_vector m v)), (small_bits 3 (Lvt.delivery_u8 m)) by lia. by rewrite andb_true_r, !orb_false_r.
Qed.

(** Bit 10 belongs to the mode and is not cleared: an entry that was for NMIs stays so. *)
Theorem lvt_mode_sticks v : 16 <= v < 256 -> exists r1 r2, Lvt.set_vector 0 v Lvt.Nmi = Done r1 /\ Lvt.set_vector r1 v Lvt.Fixed = Done r2 /\ Lvt.get_mode r2 = Done Lvt.Nmi.
Proof.
  intros Hv. assert (exists r1, Lvt.set_vector 0 v Lvt.Nmi = Done r1 /\ r1 = 0x400) as (r1 & H1 & ->) by (unfold Lvt.set_vector; rewrite (proj2 (Z.ltb_lt 15 v)) by lia; by eexists).
  assert (exists r2, Lvt.set_vector 0x400 v Lvt.Fixed = Done r2) as [r2 H2] by (unfold Lvt.set_vector; rewrite (proj2 (Z.ltb_lt 15 v)) by lia; by eexists).
  exists 0x400, r2. split; [done|]. split; [done|]. unfold Lvt.get_mode, Lvt.delivery_from. change 7 with (2 ^ 3 - 1) at 1. rewrite land_ones_mod by lia.
  assert (Z.shiftr r2 8 mod 2 ^ 3 = 4) as ->; [|done]. apply (bits_below 3); [lia|apply Z.mod_pos_bound; lia|lia|]. intros i Hi. rewrite mod_bits, (proj2 (Z.ltb_lt i 3)), Z.shiftr_spec by lia.
  rewrite (set_vector_bits 0x400 v Lvt.Fixed r2) by (done || lia). cbn [Lvt.check_vector Lvt.delivery_u8 andb]. rewrite (small_bits 8 v) by lia. rewrite Z.bits_0. assert (i = 0 \/ i = 1 \/ i = 2) as [->|[->| ->]] by lia; done.
Qed.

(** The mode of the timer. *)
Theorem timer_mode_set_get reg m : 0 <= reg < 2 ^ 32 -> Lvt.get_timer_mode (Lvt.set_timer_mode reg m) = Done m.
Proof.
  intros Hr. unfold Lvt.get_timer_mode, Lvt.timer_mode_from, Lvt.set_timer_mode. change 3 with (2 ^ 2 - 1) at 1. rewrite land_ones_mod by lia.
  set (k := match m with Lvt.OneShot => 0 | Lvt.Periodic => 1 | Lvt.TscDeadline => 2 end). assert (0 <= k < 2 ^ 2) as Hk by (unfold k; destruct m; lia).
  assert (Z.shiftr (Z.lor (Z.land reg (Lvt.not32 Lvt.TIMER_MODE_MASK)) (Lvt.timer_mode_u32 m)) 17 mod 2 ^ 2 = k) as ->; [|unfold k; by destruct m].
  assert (0 <= Lvt.TIMER_MODE_MASK < 2 ^ 32) as Hmask by (vm_compute; done).
  apply (bits_below 2); [lia|apply Z.mod_pos_bound; lia|done|]. intros i Hi. rewrite mod_bits, (proj2 (Z.ltb_lt i 2)), Z.shiftr_spec, Z.lor_spec, Z.land_spec, not32_bits by (done || lia).
  assert (Z.testbit Lvt.TIMER_MODE_MASK (i + 17) = true) as -> by (assert (i = 0 \/ i = 1) as [->| ->] by lia; done). rewrite andb_false_r. unfold Lvt.timer_mode_u32. fold k. rewrite Z.shiftl_spec by lia. cbn [andb orb]. f_equal. lia.
Qed.

(** The trigger mode can be set but not cleared. *)
Theorem trigger_mode_sticks reg : Lvt.get_trigger_mode reg = true -> Lvt.get_trigger_mode (Lvt.set_trigger_mode reg false) = true.
Proof. intros Hr. unfold Lvt.set_trigger_mode. cbn [Z.b2z]. rewrite Z.shiftl_0_l, Z.lor_0_r. done. Qed.

(** *** The timer *)

(** Counts of 32 bits are kept; of longer ones only the low bits are divided. *)
Theorem best_try_divide_spec n : 0 <= n ->
  (n < 2 ^ 32 -> Lvt.best_try_divide n = Done (n, Lvt.Divide1)) /\
  (2 ^ 32 <= n < 2 ^ 39 -> exists c d, Lvt.best_try_divide n = Done (c, d) /\ c * Lvt.to_divide_value d <= n - 2 ^ 32) /\
  (2 ^ 39 <= n -> Lvt.best_try_divide n = Panic).
Proof.
  intros Hn. assert (forall d, 0 < d -> n mod 2 ^ 32 / d * d <= n mod 2 ^ 32) as Hd by (intros d Hd; rewrite Z.mul_comm; by apply Z.mul_div_le).
  assert (2 ^ 32 <= n -> n mod 2 ^ 32 <= n - 2 ^ 32) as Hm. { intros H. pose proof (Z.div_mod n (2 ^ 32) ltac:(lia)). assert (1 <= n / 2 ^ 32) by (apply Z.div_le_lower_bound; lia). lia. }
  unfold Lvt.best_try_divide. split_and!; intros H.
  - rewrite (proj2 (Z.leb_le _ _)) by lia. by rewrite Z.mod_small by lia.
  - specialize (Hm ltac:(lia)). rewrite (proj2 (Z.leb_gt n 0xffffffff)) by lia.
    repeat (match goal with |- context [if n <=? ?k then _ else _] => destruct (Z.leb_spec n k) end; [eexists _, _; split; [done|]; cbn [Lvt.to_divide_value]; etransitivity; [apply Hd; lia|done]|]). lia.
  - rewrite !(proj2 (Z.leb_gt n _)) by lia. done.
Qed.

(** Of the divisions, 16 is read back as 8 and the word for 32 is not one of the hardware. *)
Theorem division_roundtrip d : Lvt.division_from (Lvt.division_u32 d) = Done d <-> d <> Lvt.Divide16 /\ d <> Lvt.Divide32.
Proof. destruct d; cbn; (split; [intros [=]; try (split; discriminate)|intros [? ?]; congruence]). Qed.

Theorem divide_value_roundtrip d : Lvt.from_divide_value (Lvt.to_divide_value d) = Some d.
Proof. by destruct d. Qed.

Section ApicLaws.
Context `{BO : BitFieldOps} {BL : BitFieldLaws} `{FO : FlagOps} {FL : FlagLaws}.

(** Writing a field above everything that is set. *)
Lemma set_range_low w msb lsb v : 0 <= lsb <= msb -> 0 <= w < 2 ^ lsb -> 0 <= v < 2 ^ (msb - lsb + 1) -> set_bit_range w msb lsb v = w + 2 ^ lsb * v.
Proof using BL.
  intros Hm Hw Hv. apply Z.bits_inj'. intros i Hi. rewrite set_bit_range_bits by lia. pose proof (Z.pow_pos_nonneg 2 lsb ltac:(lia) ltac:(lia)). destruct (Z.leb_spec lsb i) as [Hl|Hl]; cbn [andb].
  - replace (Z.testbit (w + 2 ^ lsb * v) i) with (Z.testbit (Z.shiftr (w + 2 ^ lsb * v) lsb) (i - lsb)) by (rewrite Z.shiftr_spec by lia; f_equal; lia).
    rewrite Z.shiftr_div_pow2 by lia. rewrite (Z.mul_comm (2 ^ lsb)), Z.div_add by lia. rewrite Z.div_small by lia. cbn [Z.add]. destruct (Z.leb_spec i msb); [done|].
    rewrite (small_bits lsb w), (small_bits (msb - lsb + 1) v) by lia. done.
  - replace (Z.testbit (w + 2 ^ lsb * v) i) with (Z.testbit ((w + 2 ^ lsb * v) mod 2 ^ lsb) i) by (by rewrite Z.mod_pow2_bits_low by lia). rewrite (Z.mul_comm (2 ^ lsb)), Z.mod_add by lia. by rewrite Z.mod_small by lia.
Qed.

(** The division that calibration chose is lost: the timer always runs undivided. *)
Theorem calibration_undivided free t0 t1 test vec a a' : XApic.begin_calibration free t0 t1 test vec a = Done a' -> XApic.divide a' = Lvt.Divide1.
Proof.
  unfold XApic.begin_calibration, XApic.init_timer. intros H. destruct free; [|done]. cbn [assert_that mbind outcome_bind] in H. destruct (Lvt.set_vector (XApic.timer_vector a) vec Lvt.Fixed) as [r|]; [|done]. cbn [mbind outcome_bind] in H.
  destruct (Lvt.best_try_divide _) as [[time div]|]; [|done]. cbn [mbind outcome_bind] in H. destruct (Lvt.set_vector _ vec Lvt.Fixed) as [r2|]; [|done]. by injection H as <-.
Qed.

(** Every processor has the number 0: the mask keeps the wrong bits. *)
Theorem get_id_zero a : 0 <= XApic.id_register a < 2 ^ 32 -> XApic.get_id a = 0.
Proof.
  intros Hi. unfold XApic.get_id. apply Z.bits_inj'. intros i H0. rewrite Z.bits_0, Z.land_spec, Z.shiftr_spec by done. destruct (decide (i < 8)) as [Hlt|Hge].
  - rewrite not32_bits by lia. change 255 with (Z.ones 8). rewrite Z.testbit_ones_nonneg, (proj2 (Z.ltb_lt i 8)) by lia. apply andb_false_r.
  - by rewrite u32_bits by lia.
Qed.

(** The registers are where the manual has them. *)
Theorem xapic_layout : (fun n => fst <$> offset_of XApic.xapic_fields n) <$>
  ["id_register"; "version_register"; "task_priority"; "processor_priority"; "eoi_reg"; "logical_destination"; "destination_format"; "spurious_interrupt_vector"; "in_service"; "trigger_mode";
   "interrupt_request"; "error_status"; "cmc_vector"; "interrupt_command_register"; "timer_vector"; "thermal_sensor_vector"; "perf_mon_counter_vector"; "local_interrupt_0_vector";
   "local_interrupt_1_vector"; "error_interrupt_vector"; "initial_timer_count"; "current_timer_count"; "divide_configuration_register"]%string =
  Some <$> (Z.to_nat <$> [0x20; 0x30; 0x80; 0xa0; 0xb0; 0xd0; 0xe0; 0xf0; 0x100; 0x180; 0x200; 0x280; 0x2f0; 0x300; 0x320; 0x330; 0x340; 0x350; 0x360; 0x370; 0x380; 0x390; 0x3e0]).
Proof. vm_compute. reflexivity. Qed.

(** *** Interrupts between processors *)

(** The command that raises an interrupt on another processor.  When the command register becomes free, [send_ipi]
    writes the words of the manual: the number of the target in the top byte of the high word, and in the low word the
    vector, the kind, the assert bit and the shorthand.  It refuses targets above 255, and vectors for kinds that have none,
    without touching the registers; and it waits only while a delivery is pending. *)
Theorem ipi_command t ty v reads a : 0 <= v < 256 -> (forall n, t = XApic.Other n -> 0 <= n) ->
  let bad_mode := negb (match ty with XApic.TFixed | XApic.SIPI => true | _ => false end) && negb (v =? 0) in
  XApic.send_ipi t ty v reads a =
    if bad_mode then Some (Err XApic.BadMode, a)
    else if 255 <? (XApic.ipi_dest t).1 then Some (Err XApic.BadTarget, a)
    else if forallb XApic.delivery_status reads then None
    else Some (Ok tt, XApic.with_icr (2 ^ 24 * (XApic.ipi_dest t).1) (v + 2 ^ 8 * XApic.interrupt_type_bits ty + 2 ^ 14 + 2 ^ 18 * XApic.shorthand_bits (XApic.ipi_dest t).2) a).
Proof using BL.
  intros Hv Ht. cbn zeta. unfold XApic.send_ipi. destruct (XApic.ipi_dest t) as [dst short] eqn:Hd. cbn [fst snd]. destruct (negb _ && negb _); [done|]. destruct (Z.ltb_spec 255 dst); [done|].
  assert (0 <= dst < 256) as Hdst by (destruct t; cbn in Hd; injection Hd as <- <-; [specialize (Ht _ eq_refl)|..]; lia).
  assert (existsb (fun r => negb (XApic.delivery_status r)) reads = negb (forallb XApic.delivery_status reads)) as ->. { induction reads as [|r reads IH]; [done|]. cbn. rewrite IH, negb_andb. done. }
  destruct (forallb _ _); [done|]. cbn [negb]. do 3 f_equal.
  - unfold XApic.icr_high_word. rewrite set_range_low by lia. lia.
  - unfold XApic.icr_low_word. set (k := XApic.interrupt_type_bits ty). set (s := XApic.shorthand_bits short). assert (0 <= k < 8) as Hk by (unfold k; destruct ty; cbn; lia). assert (0 <= s < 4) as Hs by (unfold s; destruct short; cbn; lia).
    rewrite (set_range_low 0 7 0 v), (set_range_low _ 10 8 k), (set_range_low _ 14 14 1), (set_range_low _ 19 18 s) by lia. lia.
Qed.

(** *** Redirection entries *)

(** Both halves of the entry of a pin, as the chip has them. *)
Definition pin_entry (c : IoApic.Chip) (index : Z) : Z :=
  default 0 (IoApic.regs c !! IoApic.low_reg index) + 2 ^ 32 * default 0 (IoApic.regs c !! IoApic.high_reg index).
Definition pin_masked (e : Z) : bool := Z.testbit e 16.

Lemma pin_regs i j : 0 <= i < 120 -> 0 <= j < 120 -> IoApic.low_reg i <> IoApic.high_reg j /\ (i <> j -> IoApic.low_reg i <> IoApic.low_reg j /\ IoApic.high_reg i <> IoApic.high_reg j).
Proof. intros Hi Hj. unfold IoApic.low_reg, IoApic.high_reg. rewrite !Z.mod_small by lia. lia. Qed.

Definition run_writes (s : IoApic.IoApic) (l : list (Z * Z)) : IoApic.IoApic := foldl (fun s w => IoApic.write w.1 w.2 s) s l.

Lemma masked_word_masked h : pin_masked (IoApic.masked_word + 2 ^ 32 * h) = true.
Proof using BL.
  unfold pin_masked, IoApic.masked_word, IoApic.set_mask. cbn [Z.b2z]. rewrite (set_range_low 0 16 16 1) by lia. change ((0 + 2 ^ 16 * 1) mod 2 ^ 32) with (2 ^ 16). rewrite Z.testbit_true by lia.
  replace (2 ^ 16 + 2 ^ 32 * h) with (1 * 2 ^ 16 + 2 * (2 ^ 15 * h) * 2 ^ 16) by lia. rewrite Z.div_add by lia. change (1 * 2 ^ 16 / 2 ^ 16) with 1. rewrite Z.mul_comm. by rewrite Z_mod_plus_full.
Qed.

Ltac io_cbn := cbn [foldl IoApic.write IoApic.chip IoApic.chip_write IoApic.chip_select IoApic.regs IoApic.select fst snd].

(** The writes of [set_entry] leave the new entry, and touch no other pin. *)
Lemma writes_last s index entry : 0 <= index < 120 -> pin_entry (IoApic.chip (run_writes s (IoApic.entry_writes index entry))) index = entry.
Proof.
  intros Hi. destruct (pin_regs index index Hi Hi) as [Hlh _]. unfold pin_entry, run_writes, IoApic.entry_writes. io_cbn. rewrite lookup_insert_eq, lookup_insert_ne, lookup_insert_eq by done. cbn [default from_option id].
  pose proof (Z.div_mod entry (2 ^ 32) ltac:(lia)). lia.
Qed.

Lemma writes_other s index entry n j : 0 <= index < 120 -> 0 <= j < 120 -> j <> index ->
  pin_entry (IoApic.chip (run_writes s (take n (IoApic.entry_writes index entry)))) j = pin_entry (IoApic.chip s) j.
Proof.
  intros Hi Hj Hne. destruct (pin_regs index j Hi Hj) as [H1 H2]. destruct (pin_regs j index Hj Hi) as [H3 _]. destruct (H2 ltac:(done)) as [H4 H5].
  assert (forall l s0, Forall (fun w => w.1 = IoApic.low_reg index \/ w.1 = IoApic.high_reg index) l -> pin_entry (IoApic.chip (run_writes s0 l)) j = pin_entry (IoApic.chip s0) j) as Hrun.
  { induction l as [|[addr v] l IH]; intros s0 Hl; [done|]. apply Forall_cons in Hl as [Ha Hl]. cbn [run_writes foldl]. fold (run_writes (IoApic.write addr v s0) l). rewrite IH by done.
    unfold pin_entry. io_cbn. cbn [fst] in Ha. destruct Ha as [->| ->]; rewrite !lookup_insert_ne; auto. }
  apply Hrun, Forall_take. unfold IoApic.entry_writes. do 3 (apply Forall_cons; split; [cbn; auto|]). apply Forall_nil_2.
Qed.

(** C29. Changing where a pin leads never raises an interrupt by half an entry.  While [set_entry] writes, after each of its
    register writes, the entry of the pin is masked or it is the new one; the entries of the other pins do not
    change; and in the end the entry is the new one.  Pins are below 120, as far as the eight bits of the register select reach. *)
Theorem set_entry_glitchless s s' index entry : 0 <= index < 120 -> IoApic.set_entry index entry s = Done s' ->
  pin_entry (IoApic.chip s') index = entry /\
  (forall n, (1 <= n <= 3)%nat -> let e := pin_entry (IoApic.chip (run_writes s (take n (IoApic.entry_writes index entry)))) index in pin_masked e = true \/ e = entry) /\
  (forall n j, 0 <= j < 120 -> j <> index -> pin_entry (IoApic.chip (run_writes s (take n (IoApic.entry_writes index entry)))) j = pin_entry (IoApic.chip s) j).
Proof using BL.
  intros Hi Hs. unfold IoApic.set_entry in Hs. destruct (index <? IoApic.size s); [|done]. cbn [assert_that mbind outcome_bind] in Hs. injection Hs as <-. destruct (pin_regs index index Hi Hi) as [Hlh _].
  split; [by apply writes_last|]. split; [|intros n j Hj Hne; by apply writes_other].
  intros n Hn. cbn zeta. destruct n as [|[|[|[|n]]]]; try lia; cbn [take IoApic.entry_writes]; [left..|right; by apply writes_last].
  - unfold pin_entry, run_writes. io_cbn. rewrite lookup_insert_eq. apply masked_word_masked.
  - unfold pin_entry, run_writes. io_cbn. rewrite lookup_insert_ne, lookup_insert_eq by done. apply masked_word_masked.
Qed.

(** The fields of an entry. *)
Record entry_for (g : IoApic.GlobalSystemInterrupt) (e : Z) : Prop := {
  ef_vector : bit_range e 7 0 = IoApic.vector g;
  ef_delivery : bit_range e 10 8 = IoApic.delivery_bits (IoApic.delivery_mode g);
  ef_polarity : bit_range e 13 13 = IoApic.polarity_bits (IoApic.polarity g);
  ef_trigger : bit_range e 15 15 = IoApic.trigger_bits (IoApic.trigger_mode g);
  ef_mask : bit_range e 16 16 = Z.b2z (IoApic.mask g);
  ef_target : (bit_range e 11 11, bit_range e 63 56) = match IoApic.target g with IoApic.Logical t => (1, t) | IoApic.Physical t => (0, t) end }.

Definition gsi_wf (g : IoApic.GlobalSystemInterrupt) : Prop :=
  0 <= IoApic.vector g < 256 /\ 0 <= match IoApic.target g with IoApic.Logical t => t | IoApic.Physical t => t end < 256.

Lemma rt_entry_fields g : gsi_wf g -> entry_for g (IoApic.rt_entry g) /\ 0 <= IoApic.rt_entry g < 2 ^ 64.
Proof using BL.
  intros [Hv Ht]. assert (exists t m, (t, m) = match IoApic.target g with IoApic.Logical t => (t, IoApic.LogicalMode) | IoApic.Physical t => (t, IoApic.PhysicalMode) end /\ 0 <= t < 256) as (t & m & Htm & Htb) by (destruct (IoApic.target g); eexists _, _; done).
  assert (IoApic.rt_entry g = IoApic.set_vector (IoApic.set_mask (IoApic.set_delivery_mode (IoApic.set_trigger_mode (IoApic.set_polarity (IoApic.set_destination_mode (IoApic.set_destination 0 t) m) (IoApic.polarity g)) (IoApic.trigger_mode g)) (IoApic.delivery_mode g)) (IoApic.mask g)) (IoApic.vector g)) as He
    by (unfold IoApic.rt_entry; destruct (IoApic.target g); by injection Htm as -> ->).
  assert (0 <= IoApic.delivery_bits (IoApic.delivery_mode g) < 2 ^ 3) by (destruct (IoApic.delivery_mode g); cbn; lia). assert (0 <= IoApic.polarity_bits (IoApic.polarity g) < 2) by (destruct (IoApic.polarity g); cbn; lia).
  assert (0 <= IoApic.trigger_bits (IoApic.trigger_mode g) < 2) by (destruct (IoApic.trigger_mode g); cbn; lia). assert (0 <= IoApic.destination_bits m < 2) by (destruct m; cbn; lia). assert (0 <= Z.b2z (IoApic.mask g) < 2) by (destruct (IoApic.mask g); cbn; lia).
  rewrite He. unfold IoApic.set_vector, IoApic.set_mask, IoApic.set_delivery_mode, IoApic.set_trigger_mode, IoApic.set_polarity, IoApic.set_destination_mode, IoApic.set_destination. split.
  - split; repeat first [rewrite get_set_same by (cbn; lia)|rewrite get_set_other by lia]; try done. destruct (IoApic.target g); by injection Htm as -> ->.
  - apply bits_u64. intros i Hi. rewrite !set_bit_range_bits by lia. rewrite !(proj2 (Z.leb_gt i _)) by lia. rewrite !andb_false_r. apply Z.bits_0.
Qed.

(** *** Routing *)

Lemma set_first_ok gsi cfg l1 s l2 s' : Forall (fun i => IoApic.is_gsi gsi i = false) l1 -> IoApic.is_gsi gsi s = true -> IoApic.set_gsi gsi cfg s = Done s' ->
  Routing.set_first gsi cfg (l1 ++ s :: l2) = Done (Ok tt, l1 ++ s' :: l2).
Proof.
  intros Hl Hs Hset. induction Hl as [|i l1 Hi _ IH]; cbn [app Routing.set_first].
  - by rewrite Hs, Hset.
  - by rewrite Hi, IH.
Qed.

Lemma get_first_ok gsi l1 s l2 e s' : Forall (fun i => IoApic.is_gsi gsi i = false) l1 -> IoApic.is_gsi gsi s = true -> IoApic.get_gsi gsi s = Done (e, s') ->
  Routing.get_first gsi (l1 ++ s :: l2) = Done (Ok e, l1 ++ s' :: l2).
Proof.
  intros Hl Hs Hget. induction Hl as [|i l1 Hi _ IH]; cbn [app Routing.get_first].
  - by rewrite Hs, Hget.
  - by rewrite Hi, IH.
Qed.

Lemma get_entry_pin index s : index < IoApic.size s -> exists s', IoApic.get_entry index s = Done (pin_entry (IoApic.chip s) index, s') /\ IoApic.regs (IoApic.chip s') = IoApic.regs (IoApic.chip s).
Proof. intros Hi. unfold IoApic.get_entry. rewrite (proj2 (Z.ltb_lt _ _) Hi). cbn. by eexists. Qed.

(** C28. An interrupt that is routed is routed as it is configured.  When the first controller that owns the pin has its
    numbers within a byte, [GlobalSystemInterrupt::set] succeeds, and reading the pin back gives an entry with the
    vector, the delivery mode, the polarity, the trigger mode, the mask and the target that were configured; no other pin of that
    controller changes, and no other controller does. *)
Theorem gsi_routed i g l1 s l2 : gsi_wf i -> Routing.inner g = l1 ++ s :: l2 -> Forall (fun c => IoApic.is_gsi (IoApic.gsi i) c = false) l1 -> IoApic.is_gsi (IoApic.gsi i) s = true ->
  0 <= IoApic.gsi_base s -> 0 <= IoApic.size s <= 120 -> IoApic.gsi_base s + IoApic.size s < 256 ->
  exists g' s' e g'', Routing.gsi_set i g = Done (Ok tt, g') /\ Routing.inner g' = l1 ++ s' :: l2 /\ Routing.gsi_get i g' = Done (Ok e, g'') /\ entry_for i e /\
    (forall j, 0 <= j < 120 -> j <> IoApic.gsi i - IoApic.gsi_base s -> pin_entry (IoApic.chip s') j = pin_entry (IoApic.chip s) j).
Proof using BL.
  intros Hw Hg Hl1 His Hb Hsz Hsum. destruct (rt_entry_fields i Hw) as [Hf _]. pose proof His as His'. unfold IoApic.is_gsi in His'. apply andb_true_iff in His' as [H1%Z.ltb_lt H2%Z.ltb_lt].
  rewrite Z.mod_small in H2 by lia.
  set (index := IoApic.gsi i - IoApic.gsi_base s). set (s' := run_writes s (IoApic.entry_writes index (IoApic.rt_entry i))).
  assert (IoApic.set_gsi (IoApic.gsi i) (IoApic.rt_entry i) s = Done s') as Hset. { unfold IoApic.set_gsi. rewrite His. cbn [assert_that mbind outcome_bind]. rewrite Z.mod_small by lia. fold index. unfold IoApic.set_entry. by rewrite (proj2 (Z.ltb_lt index _)) by (unfold index; lia). }
  assert (IoApic.is_gsi (IoApic.gsi i) s' = true) as His2 by exact His. assert (IoApic.size s' = IoApic.size s) as Hs' by done.
  destruct (get_entry_pin index s') as (s'' & Hget & _); [unfold index; lia|].
  assert (IoApic.get_gsi (IoApic.gsi i) s' = Done (IoApic.rt_entry i, s'')) as Hgg. { unfold IoApic.get_gsi. rewrite His2. cbn [assert_that mbind outcome_bind]. change (IoApic.gsi_base s') with (IoApic.gsi_base s). rewrite Z.mod_small by lia. fold index. rewrite Hget. unfold s'. by rewrite writes_last by (unfold index; lia). }
  unfold Routing.gsi_set, Routing.global_set_gsi. rewrite Hg, (set_first_ok _ _ l1 s l2 s' Hl1 His Hset). cbn [mbind outcome_bind fst snd].
  eexists _, s', (IoApic.rt_entry i), _. split; [done|]. split; [done|]. split; [|split; [done|]].
  - unfold Routing.gsi_get, Routing.global_get_gsi. cbn [Routing.inner]. by rewrite (get_first_ok _ l1 s' l2 _ s'' Hl1 His2 Hgg).
  - intros j Hj Hne. unfold s'. rewrite <- (take_ge (IoApic.entry_writes index (IoApic.rt_entry i)) 3) by done. apply writes_other; unfold index; lia.
Qed.

(** The first pin of a controller cannot be reached, nor the last: the version register has the index of the last entry and not
    their number. *)
Theorem pins_unreachable c base s : IoApic.new c base = Done s -> 0 <= base -> base + IoApic.size s < 256 ->
  IoApic.is_gsi base s = false /\ IoApic.is_gsi (base + IoApic.entries (default 0 (IoApic.regs c !! IoApic.VER))) s = false.
Proof.
  unfold IoApic.new. intros Hn Hb Hs. destruct (base <? 256); [|done]. cbn in Hn. injection Hn as <-. unfold IoApic.is_gsi. cbn [IoApic.gsi_base IoApic.size] in *. split.
  - by rewrite Z.ltb_irrefl.
  - apply andb_false_iff. right. apply Z.ltb_ge. unfold IoApic.chip_read in *. cbn [IoApic.regs IoApic.select IoApic.chip_select] in *. pose proof (Z.mod_pos_bound (default 0 (IoApic.regs c !! IoApic.VER) / 2 ^ 16) 256 ltac:(lia)). unfold IoApic.entries in *. rewrite Z.mod_small by lia. lia.
Qed.

(** Only the first I/O APIC of the machine is configured. *)
Theorem one_io_apic madt g g' : Routing.cfg_madt madt g = Done g' -> (length (Routing.inner g') <= 1)%nat.
Proof.
  unfold Routing.cfg_madt. intros H. destruct (Routing.first_io_apic madt) as [arr|] eqn:Ha; [|done]. cbn [mbind outcome_bind] in H. destruct (Routing.collect_overrides madt); [|done]. cbn [mbind outcome_bind] in H.
  destruct (Routing.overrides g); [done|]. injection H as <-. cbn. unfold Routing.first_io_apic in Ha. destruct (find _ madt) as [[c base|v|]|]; [destruct (IoApic.new c base); [|done]|..]; injection Ha as <-; cbn; lia.
Qed.

(** An entry whose polarity or trigger mode has the reserved value stops the start of the system. *)
Theorem reserved_override_panics v : Z.land (Routing.e_flags v) 3 = 2 \/ Z.shiftr (Z.land (Routing.e_flags v) 12) 2 = 2 ->
  forall madt g, List.In (Routing.MOverride v) madt -> Routing.cfg_madt madt g = Panic.
Proof.
  intros Hv madt g Hin. assert (Routing.override_from_entry v = Panic) as Hp.
  { unfold Routing.override_from_entry. destruct Hv as [Hv|Hv]; [unfold Routing.flags_polarity; by rewrite Hv|]. assert (Routing.flags_trigger (Routing.e_flags v) = Panic) as -> by (unfold Routing.flags_trigger; change (Z.shiftl 3 2) with 12; by rewrite Hv). by destruct (Routing.flags_polarity _). }
  assert (Routing.collect_overrides madt = Panic) as Hc.
  { induction madt as [|e madt IH]; [done|]. destruct Hin as [->|Hin]; cbn; [by rewrite Hp|]. rewrite (IH Hin). destruct e as [| w|]; try done. by destruct (Routing.override_from_entry w). }
  unfold Routing.cfg_madt. rewrite Hc. by destruct (Routing.first_io_apic madt).
Qed.

(** The line of an ISA interrupt that the tables override: the number, the polarity and the trigger mode of the entry. *)
Theorem isa_override_applied madt g g' v o irq vec : Routing.cfg_madt madt g = Done g' -> Routing.override_from_entry v = Done o -> Routing.e_irq v = irq ->
  (exists l1 l2, madt = l1 ++ Routing.MOverride v :: l2 /\ forall w, List.In (Routing.MOverride w) l1 -> Routing.e_irq w <> irq) ->
  Routing.get_isa vec irq g' = Done (IoApic.mkGsi vec (Routing.e_gsi v mod 256) (IoApic.Physical 0) (default IoApic.AssertHigh (Routing.o_polarity o)) (default IoApic.EdgeTriggered (Routing.o_trigger o)) IoApic.Fixed true, Some o).
Proof.
  intros Hc Ho Hirq (l1 & l2 & -> & Hl).
  assert (forall w o', Routing.override_from_entry w = Done o' -> Routing.isa_source o' = Routing.e_irq w /\ Routing.global_system_interrupt o' = Routing.e_gsi w) as Hs.
  { intros w o' Hw. unfold Routing.override_from_entry in Hw. destruct (Routing.flags_polarity _); [|done]. cbn [mbind outcome_bind] in Hw. destruct (Routing.flags_trigger _); [|done]. by injection Hw as <-. }
  assert (exists ov, Routing.overrides g' = Some ov /\ Routing.collect_overrides (l1 ++ Routing.MOverride v :: l2) = Done ov) as (ov & Hov & Hcol).
  { unfold Routing.cfg_madt in Hc. destruct (Routing.first_io_apic _); [|done]. cbn [mbind outcome_bind] in Hc. destruct (Routing.collect_overrides _) as [ov|]; [|done]. cbn [mbind outcome_bind] in Hc. destruct (Routing.overrides g); [done|]. injection Hc as <-. by exists ov. }
  assert (find (fun i => Routing.isa_source i =? irq) ov = Some o) as Hf.
  { clear Hov Hc. revert ov Hcol. induction l1 as [|e l1 IH]; intros ov Hcol; cbn in Hcol.
    - rewrite Ho in Hcol. cbn [mbind outcome_bind] in Hcol. destruct (Routing.collect_overrides l2); [|done]. injection Hcol as <-. cbn. destruct (Hs v o Ho) as [-> _]. by rewrite Hirq, Z.eqb_refl.
    - assert (forall w, List.In (Routing.MOverride w) l1 -> Routing.e_irq w <> irq) as Hl' by (intros w Hw; apply Hl; by right). destruct e as [| w|]; [by apply IH| |by apply IH].
      destruct (Routing.override_from_entry w) as [ow|] eqn:Hw; [|done]. cbn [mbind outcome_bind] in Hcol. destruct (Routing.collect_overrides _) as [ov'|] eqn:Hc'; [|done]. injection Hcol as <-. cbn. destruct (Hs w ow Hw) as [-> _].
      rewrite (proj2 (Z.eqb_neq _ _)) by (apply Hl; by left). by apply IH. }
  unfold Routing.get_isa, Routing.lookup_override. rewrite Hov. cbn [unwrap mbind outcome_bind]. rewrite Hf. cbn. by destruct (Hs v o Ho) as [_ ->].
Qed.

End ApicLaws.

(** *** The system time *)
Section TimeLaws.
Import SystemTime.
Context (period_of : Z -> Z -> Z).

(** Who is in [update], and what it knows. *)
Definition holder (s : St) (cpu : nat) : Prop :=
  match pcs s cpu with
  | Idle => False
  | Holding | Recorded => head (readings s) = Some (last_check s)
  | Read p c => head (readings s) = Some (last_check s) /\ p = period_of (last_check s) c
  | Added c => head (readings s) = Some c
  end.

Record time_inv (s : St) : Prop := {
  ti_time : time s = wrap64 (total period_of (readings s));
  ti_free : dirty s = false -> (forall j, pcs s j = Idle) /\ head (readings s) = Some (last_check s);
  ti_held : dirty s = true -> exists cpu, holder s cpu /\ forall j, j <> cpu -> pcs s j = Idle }.

Lemma total_cons c old l : head l = Some old -> total period_of (c :: l) = period_of old c + total period_of l.
Proof. destruct l as [|x l]; [done|]. by intros [= ->]. Qed.

(** The processor that is not idle is the one that holds the flag. *)
Lemma held_by s cpu : time_inv s -> pcs s cpu <> Idle -> dirty s = true /\ holder s cpu /\ forall j, j <> cpu -> pcs s j = Idle.
Proof.
  intros [_ Hf Hh] Hn. destruct (dirty s); [|destruct (Hf eq_refl) as [Hi _]; congruence]. split; [done|]. destruct (Hh eq_refl) as (c & Hc & Ho). destruct (decide (cpu = c)) as [->|Hne]; [done|]. by rewrite Ho in Hn.
Qed.

Lemma time_step_inv s s' : step period_of s s' -> time_inv s -> time_inv s'.
Proof.
  intros Hstep Hinv. pose proof Hinv as [Ht Hf Hh]. inversion Hstep; subst; try done; unfold at_ in *.
  - destruct (Hf ltac:(done)) as [Hi Hl]. destruct H1 as [Hp Ho]. split; [congruence|congruence|]. intros _. exists cpu. split; [unfold holder; rewrite Hp; congruence|]. intros j Hj. by rewrite Ho.
  - destruct (held_by s cpu Hinv ltac:(congruence)) as (Hd & Hc & Hi). destruct H0 as [Hp Ho]. unfold holder in Hc. rewrite H in Hc. split; [congruence|congruence|]. intros _. exists cpu. split; [unfold holder; rewrite Hp; split; congruence|]. intros j Hj. rewrite Ho by done. by apply Hi.
  - destruct (held_by s cpu Hinv ltac:(congruence)) as (Hd & Hc & Hi). destruct H0 as [Hp Ho]. unfold holder in Hc. rewrite H in Hc. destruct Hc as [Hhd ->]. split; [|congruence|].
    + rewrite H2, H4, Ht, (total_cons _ _ _ Hhd). unfold wadd, wrap64. rewrite Zplus_mod_idemp_l. f_equal. lia.
    + intros _. exists cpu. split; [unfold holder; rewrite Hp, H4; done|]. intros j Hj. rewrite Ho by done. by apply Hi.
  - destruct (held_by s cpu Hinv ltac:(congruence)) as (Hd & Hc & Hi). destruct H0 as [Hp Ho]. unfold holder in Hc. rewrite H in Hc. split; [congruence|congruence|]. intros _. exists cpu. split; [unfold holder; rewrite Hp; congruence|]. intros j Hj. rewrite Ho by done. by apply Hi.
  - destruct (held_by s cpu Hinv ltac:(congruence)) as (Hd & Hc & Hi). destruct H0 as [Hp Ho]. unfold holder in Hc. rewrite H in Hc. split; [congruence| |congruence]. intros _. split; [|congruence]. intros j. destruct (decide (j = cpu)) as [->|Hne]; [done|]. rewrite Ho by done. by apply Hi.
Qed.

(** C24. The system time counts every period of the clock once.  For any number of processors and any interleaving of their
    updates: the time is the sum of the periods between the consecutive readings of the clock, starting with
    the reading of [init], modulo 64 bits; at most one processor is inside an update; and when none is, the reading that the
    next period starts from is the latest one that was counted. *)
Theorem system_time_counts c0 s : rtc (step period_of) (init_st c0) s ->
  time s = wrap64 (total period_of (readings s)) /\
  (forall i j, pcs s i <> Idle -> pcs s j <> Idle -> i = j) /\
  (dirty s = false -> head (readings s) = Some (last_check s)).
Proof.
  intros Hr. assert (time_inv s) as Hinv. { assert (time_inv (init_st c0)) as H0 by (split; [done|done|done]). induction Hr as [|x y z Hxy _ IH]; [done|]. apply IH. by eapply time_step_inv. }
  split; [apply Hinv|]. split; [|intros Hd; by apply Hinv]. intros i j Hi Hj. destruct (held_by s i Hinv Hi) as (_ & _ & Ho). destruct (decide (i = j)) as [|Hne]; [done|]. destruct Hj. apply Ho. auto.
Qed.

End TimeLaws.

(** ** Witnesses *)
Module ApicWitness.
Import BitFieldWitness.

Definition apic : XApic.xApic := XApic.mkApic (2 ^ 24) 0 0 0 0 Lvt.Divide1 0 0 0 0.

Lemma ipi_command_witness : XApic.send_ipi (XApic.Other 3) XApic.TFixed 0x20 [2 ^ 12; 0] apic = Some (Ok tt, XApic.with_icr 0x3000000 0x4020 apic).
Proof. etransitivity; [apply (ipi_command (XApic.Other 3) XApic.TFixed 0x20 [2 ^ 12; 0] apic); [lia|intros n [= <-]; lia]|vm_compute; reflexivity]. Defined.

(** A controller with 24 pins. *)
Definition io : IoApic.IoApic := IoApic.mkIo (IoApic.mkChip 0 {[1 := 0x170011]}) 0 23.
Definition line : IoApic.GlobalSystemInterrupt := IoApic.mkGsi 0x41 4 (IoApic.Physical 2) IoApic.AssertLow IoApic.LevelTriggered IoApic.Fixed false.

Lemma set_entry_witness : exists s', IoApic.set_entry 4 (2 ^ 57 + 0x41) io = Done s' /\ pin_entry (IoApic.chip s') 4 = 2 ^ 57 + 0x41.
Proof. eexists. split; [reflexivity|]. apply (set_entry_glitchless io _ 4 (2 ^ 57 + 0x41)); [lia|reflexivity]. Defined.

Lemma gsi_routed_witness : exists g' s' e g'', Routing.gsi_set line (Routing.mkGlobal [io] None) = Done (Ok tt, g') /\ Routing.inner g' = [s'] /\ Routing.gsi_get line g' = Done (Ok e, g'') /\ entry_for line e.
Proof.
  destruct (gsi_routed line (Routing.mkGlobal [io] None) [] io []) as (g' & s' & e & g'' & H1 & H2 & H3 & H4 & _).
  - split; cbn; lia.
  - reflexivity.
  - constructor.
  - reflexivity.
  - cbn; lia.
  - cbn; lia.
  - cbn; lia.
  - exists g', s', e, g''. split; [exact H1|]. split; [exact H2|]. split; [exact H3|exact H4].
Defined.

(** Processor 1 reads the clock 12 after the reading 5, and adds the period. *)
Definition at1 (p : SystemTime.Pc) : nat -> SystemTime.Pc := fun j => if Nat.eqb j 1 then p else SystemTime.Idle.
Definition period (old now : Z) : Z := now - old.

Lemma system_time_witness : rtc (SystemTime.step period) (SystemTime.init_st 5) (SystemTime.mkSt true 7 5 (at1 (SystemTime.Added 12)) [12; 5]) /\ 7 = wrap64 (SystemTime.total period [12; 5]).
Proof.
  assert (forall p q : SystemTime.Pc, forall j, j <> 1%nat -> at1 p j = at1 q j) as Hat by (intros p q j Hj; unfold at1; destruct (Nat.eqb_spec j 1); [contradiction|reflexivity]).
  assert (rtc (SystemTime.step period) (SystemTime.init_st 5) (SystemTime.mkSt true 7 5 (at1 (SystemTime.Added 12)) [12; 5])) as Hr.
  { eapply rtc_l with (SystemTime.mkSt true 0 5 (at1 SystemTime.Holding) [5]).
    { apply (SystemTime.s_acquire period _ _ 1%nat); try reflexivity. split; [reflexivity|]. intros j Hj. cbn. unfold at1. destruct (Nat.eqb_spec j 1); [contradiction|reflexivity]. }
    eapply rtc_l with (SystemTime.mkSt true 0 5 (at1 (SystemTime.Read 7 12)) [5]).
    { apply (SystemTime.s_read period _ _ 1%nat 12); try reflexivity. split; [reflexivity|]. intros j Hj. apply Hat. exact Hj. }
    eapply rtc_l; [|apply rtc_refl]. apply (SystemTime.s_add period _ _ 1%nat 7 12); try reflexivity. split; [reflexivity|]. intros j Hj. apply Hat. exact Hj. }
  split; [exact Hr|]. apply (proj1 (system_time_counts period 5 _ Hr)).
Defined.

End ApicWitness.
