(* ===== verification/Console.v ===== *)
(** * The console

    [kernel/src/graphics.rs] and [graphics/pixel.rs]: pixels and the frame buffer; [graphics/basic_output.rs]: the
    terminal that prints text to it (Module [Tty]); [kernel/src/kshell.rs]: the kernel shell (Module [Shell]).

    The frame buffer is its bytes.  The bitmaps of characters come from the [bitmap_fontgen] crate, which is the class
    [FontOps]: [draw_scan] calls a function on each pixel of a line of the bitmap until the bitmap or the buffer ends. *)
From stdpp Require Import prelude.
From S2P Require Import Prelude Bytes.
Open Scope list_scope.
Open Scope Z_scope.

(** ** Pixels *)
Module Pixels.

Inductive PixelFormat := Bgr4Byte | Bgr3Byte | Grey1Byte.
Definition bytes_per_pixel (f : PixelFormat) : Z := match f with Bgr4Byte => 4 | Bgr3Byte => 3 | Grey1Byte => 1 end.

Inductive GenericPixelData := Colour (r g b : Z) | Greyscale (g : Z).

(** The pixel types; [bytes] is what [copy_to_buff] copies and how a slice of them lies in memory. *)
Record PixBgr4Byte := mk4 { red4 : Z; green4 : Z; blue4 : Z; _reserved : Z }.
Definition new4 (red green blue : Z) : PixBgr4Byte := mk4 red green blue 0.
Definition pix_data4 (p : PixBgr4Byte) : GenericPixelData := Colour (red4 p) (green4 p) (blue4 p).
Definition from_pix_data4 (d : GenericPixelData) : PixBgr4Byte := match d with Colour r g b => new4 r g b | Greyscale g => new4 g g g end.
Definition bytes4 (p : PixBgr4Byte) : list Z := [red4 p; green4 p; blue4 p; _reserved p].

Record PixBgr3Byte := mk3 { red3 : Z; green3 : Z; blue3 : Z }.
Definition new3 (red green blue : Z) : PixBgr3Byte := mk3 red green blue.
Definition pix_data3 (p : PixBgr3Byte) : GenericPixelData := Colour (red3 p) (green3 p) (blue3 p).
Definition from_pix_data3 (d : GenericPixelData) : PixBgr3Byte := match d with Colour r g b => new3 r g b | Greyscale g => new3 g g g end.
Definition bytes3 (p : PixBgr3Byte) : list Z := [red3 p; green3 p; blue3 p].
Definition into4 (p : PixBgr3Byte) : PixBgr4Byte := from_pix_data4 (pix_data3 p).

Record PixGrey1Byte := mk1 { value : Z }.
Definition pix_data1 (p : PixGrey1Byte) : GenericPixelData := Greyscale (value p).
Definition from_pix_data1 (d : GenericPixelData) : outcome PixGrey1Byte := match d with Colour _ _ _ => Panic | Greyscale g => Done (mk1 g) end.
Definition grey_into3 (p : PixGrey1Byte) : PixBgr3Byte := new3 (value p) (value p) (value p).
Definition grey_into4 (p : PixGrey1Byte) : PixBgr4Byte := new4 (value p) (value p) (value p).

(** [PixBuff]: the bytes of a slice as pixels of [size] bytes. *)
Fixpoint chunks (size n : nat) (l : list Z) : list (list Z) := match n with O => [] | S n => take size l :: chunks size n (drop size l) end.
Definition pix_buff (size : nat) (buff : list Z) : outcome (list (list Z)) :=
  assert_that (length buff mod size =? 0)%nat;; Done (chunks size (length buff / size) buff).

End Pixels.
Import Pixels.

(** ** Characters *)
Class FontOps := {
  Bitmap : Type;
  (** [Font::get] for the weight and the size of the terminal. *)
  font_get : Z -> option Bitmap;
  bm_width : Bitmap -> Z;
  bm_height : Bitmap -> Z;
  bm_pixel : Bitmap -> nat -> nat -> bool;
  draw_scan : forall {T}, Bitmap -> Z -> (bool -> T) -> list T -> list T }.

Definition FONT_WIDTH : Z := 8.
Definition FONT_HEIGHT : Z := 16.

Class FontLaws `{FontOps} := {
  font_size c b : font_get c = Some b -> bm_width b = FONT_WIDTH /\ bm_height b = FONT_HEIGHT;
  draw_scan_pixels {T} b (scan : nat) (f : bool -> T) buff : Z.of_nat scan < bm_height b ->
    draw_scan b (Z.of_nat scan) f buff = imap (fun i old => if Z.of_nat i <? bm_width b then f (bm_pixel b i scan) else old) buff }.

(** ** The frame buffer *)
Module Fb.

Record FrameBuffer := mkFb { height : Z; width : Z; stride : Z; format : PixelFormat; data : list Z }.
Definition set_data (d : list Z) (fb : FrameBuffer) : FrameBuffer := mkFb (height fb) (width fb) (stride fb) (format fb) d.

(** [&data[a..b]], and writing [new] over the bytes from [a] on. *)
Definition range (d : list Z) (a b : Z) : outcome (list Z) :=
  assert_that ((a <=? b) && (b <=? Z.of_nat (length d)));; Done (slice d (Z.to_nat a) (Z.to_nat (b - a))).
Definition splice (d : list Z) (a : nat) (new : list Z) : list Z := take a d ++ new ++ drop (a + length new) d.

Definition new (width height stride : Z) (buff : list Z) (format : PixelFormat) : outcome FrameBuffer :=
  assert_that (Z.of_nat (length buff) <=? (height ⊗ width ⊗ bytes_per_pixel format)%u64);; Done (mkFb height width stride format buff).

Definition last_px (fb : FrameBuffer) : Z := (stride fb ⊗ height fb ⊗ bytes_per_pixel (format fb))%u64.

(** [copy_within] to the start. *)
Definition scroll_up (l : Z) (fb : FrameBuffer) : outcome FrameBuffer :=
  let scroll_px := (l ⊗ stride fb ⊗ bytes_per_pixel (format fb))%u64 in
  moved ← range (data fb) scroll_px (last_px fb);
  Done (set_data (splice (data fb) 0 moved) fb).

(** [clear_lines] for the [n] lines from [scan] on. *)
Fixpoint clear_lines (n : nat) (scan : Z) (fb : FrameBuffer) : outcome FrameBuffer :=
  match n with
  | O => Done fb
  | S n =>
      let start := (scan ⊗ stride fb ⊗ bytes_per_pixel (format fb))%u64 in
      line ← range (data fb) start (start ⊕ (width fb ⊗ bytes_per_pixel (format fb)))%u64;
      clear_lines n (scan + 1) (set_data (splice (data fb) (Z.to_nat start) (replicate (length line) 0)) fb)
  end.

Definition clear (fb : FrameBuffer) : outcome FrameBuffer :=
  all ← range (data fb) 0 (last_px fb); Done (set_data (splice (data fb) 0 (replicate (length all) 0)) fb).

(** [scan], with where the line begins. *)
Definition scan (n : Z) (fb : FrameBuffer) : outcome (option (Z * list Z)) :=
  if n <=? height fb then
    let start := (stride fb ⊗ n ⊗ bytes_per_pixel (format fb))%u64 in
    line ← range (data fb) start ((stride fb ⊗ n ⊕ width fb) ⊗ bytes_per_pixel (format fb))%u64; Done (Some (start, line))
  else Done None.

Section Draw.
Context `{FO : FontOps}.

(** [convert_rgb] of a bitmap for [u8], and [cvt_px]. *)
Definition convert_rgb (raw : bool) : Z * Z * Z := if raw then (255, 255, 255) else (0, 0, 0).
Definition cvt_data (raw : bool) : GenericPixelData := let '(r, g, b) := convert_rgb raw in Colour r g b.

(** The body of the loop of [draw_into_self]. *)
Definition draw_line (f : PixelFormat) (other : Bitmap) (other_scan x : Z) (buff : list Z) : outcome (list Z) :=
  assert_that (negb (length buff =? 0)%nat);;
  let draw size cvt :=
    px ← pix_buff size buff;
    assert_that (x <=? Z.of_nat (length px));;
    Done (concat (take (Z.to_nat x) px ++ draw_scan other other_scan cvt (drop (Z.to_nat x) px))) in
  match f with
  | Bgr4Byte => draw 4%nat (fun raw => bytes4 (from_pix_data4 (cvt_data raw)))
  | Bgr3Byte => draw 3%nat (fun raw => bytes3 (from_pix_data3 (cvt_data raw)))
  | Grey1Byte => Panic
  end.

Fixpoint draw_lines (n : nat) (other : Bitmap) (other_scan x y : Z) (fb : FrameBuffer) : outcome FrameBuffer :=
  match n with
  | O => Done fb
  | S n =>
      r ← scan (y + other_scan) fb;
      match r with
      | None => Done fb
      | Some (start, buff) =>
          line ← draw_line (format fb) other other_scan x buff;
          draw_lines n other (other_scan + 1) x y (set_data (splice (data fb) (Z.to_nat start) line) fb)
      end
  end.
Definition draw_into_self (other : Bitmap) (x y : Z) (fb : FrameBuffer) : outcome FrameBuffer :=
  draw_lines (Z.to_nat ((y ⊕ bm_height other)%u64 - y)) other 0 x y fb.

End Draw.
End Fb.

(** ** The terminal *)
Module Tty.
Import Fb.

Record BasicTTY := mkTty { cursor_x : Z; cursor_y : Z; cursor_x_max : Z; cursor_y_max : Z; char_width : Z; char_height : Z }.
Definition set_x (x : Z) (t : BasicTTY) : BasicTTY := mkTty x (cursor_y t) (cursor_x_max t) (cursor_y_max t) (char_width t) (char_height t).
Definition set_y (y : Z) (t : BasicTTY) : BasicTTY := mkTty (cursor_x t) y (cursor_x_max t) (cursor_y_max t) (char_width t) (char_height t).

Definition new (fb : FrameBuffer) : BasicTTY :=
  mkTty 0 0 (width fb / FONT_WIDTH) (height fb / FONT_HEIGHT ⊖ 1)%u64 FONT_WIDTH FONT_HEIGHT.

Definition carriage_return (t : BasicTTY) : BasicTTY := set_x 0 t.
Definition newline_inner (s : BasicTTY * FrameBuffer) : outcome (BasicTTY * FrameBuffer) :=
  let '(t, fb) := s in
  if cursor_y_max t <=? (cursor_y t ⊕ 1)%u64 then fb ← scroll_up (char_height t) fb; Done (t, fb)
  else Done (set_y (cursor_y t ⊕ 1)%u64 t, fb).

Section Print.
Context `{FO : FontOps}.

Definition print_char (c : Z) (s : BasicTTY * FrameBuffer) : outcome (BasicTTY * FrameBuffer) :=
  if c =? 10 then s ← newline_inner s; Done (carriage_return s.1, s.2)
  else if c =? 13 then Done (carriage_return s.1, s.2)
  else match font_get c with
       | None => Done s
       | Some bitmap =>
           s ← (if cursor_x_max s.1 <=? cursor_x s.1 then s ← newline_inner s; Done (carriage_return s.1, s.2) else Done s);
           let '(t, fb) := (s : BasicTTY * FrameBuffer) in
           fb ← draw_into_self bitmap (cursor_x t ⊗ char_width t)%u64 (cursor_y t ⊗ char_height t)%u64 fb;
           Done (set_x (cursor_x t ⊕ 1)%u64 t, fb)
       end.

Fixpoint print_str (l : list Z) (s : BasicTTY * FrameBuffer) : outcome (BasicTTY * FrameBuffer) :=
  match l with [] => Done s | c :: l => s ← print_char c s; print_str l s end.

Definition tty_clear (s : BasicTTY * FrameBuffer) : outcome (BasicTTY * FrameBuffer) :=
  fb ← Fb.clear s.2; Done (set_y 0 (set_x 0 s.1), fb).

End Print.
End Tty.

(** ** The shell *)
Module Shell.

Inductive CommandResult := COk | BadMatch | CErr.
Inductive TaskResult := ExitedNormally | Error.
Definition BUFER_SIZE : nat := 256.

(** The Unicode property [White_Space], as UTF-8: the number of bytes of the white space character that begins the text, 0 when
    there is none. *)
Definition space_len (l : list Z) : nat :=
  match l with
  | b :: l' =>
      if ((9 <=? b) && (b <=? 13)) || (b =? 32) then 1%nat
      else match l' with
           | c :: l'' =>
               if (b =? 0xc2) && ((c =? 0x85) || (c =? 0xa0)) then 2%nat
               else match l'' with
                    | d :: _ =>
                        if (b =? 0xe1) && (c =? 0x9a) && (d =? 0x80) then 3%nat
                        else if (b =? 0xe2) && (c =? 0x80) && (((0x80 <=? d) && (d <=? 0x8a)) || (d =? 0xa8) || (d =? 0xa9) || (d =? 0xaf)) then 3%nat
                        else if (b =? 0xe2) && (c =? 0x81) && (d =? 0x9f) then 3%nat
                        else if (b =? 0xe3) && (c =? 0x80) && (d =? 0x80) then 3%nat
                        else O
                    | [] => O
                    end
           | [] => O
           end
  | [] => O
  end.

(** The text from the first character that is not white space; the whole text when there is none. *)
Fixpoint trim_loop (fuel : nat) (whole l : list Z) : list Z :=
  match fuel with
  | O => whole
  | S fuel => match l with [] => whole | _ => match space_len l with O => l | n => trim_loop fuel whole (drop n l) end end
  end.
Definition trim (l : list Z) : list Z := trim_loop (S (length l)) l l.

Definition EXIT : list Z := [101; 120; 105; 116].
Definition starts_with (p l : list Z) : bool := bool_decide (take (length p) l = p).

Section Run.
(** The command sets, and what each does with a command. *)
Context (command_sets : list (list Z -> CommandResult)).

(** The loop over the command sets: how many were asked. *)
Fixpoint execute_first (sets : list (list Z -> CommandResult)) (args : list Z) : nat :=
  match sets with
  | [] => O
  | i :: sets => match i args with COk | CErr => 1%nat | BadMatch => S (execute_first sets args) end
  end.

(** [parse_input]: whether to stop, and the text that was given to the command sets with how many of them were asked. *)
Definition parse_input (buffer : list Z) : bool * option (list Z * nat) :=
  if utf8_ok buffer then
    let args := trim buffer in
    if starts_with EXIT args then (true, None) else (false, Some (args, execute_first command_sets args))
  else (false, None).

(** What a read of the input gives: the buffer of 256 bytes with the number that was read, or an error. *)
Inductive Input := Bytes (buffer : list Z) (len : nat) | EndOfFile | ReadError.

(** The shell: [buffered], and the commands that were run, latest first. *)
Record St := mkSt { buffered : list Z; ran : list (list Z * nat) }.
Definition submit (buffer : list Z) (s : St) : bool * St :=
  let r := parse_input buffer in (r.1, mkSt (buffered s) (match r.2 with Some a => a :: ran s | None => ran s end)).

(** One turn of [run]. *)
Definition turn (i : Input) (s : St) : option TaskResult * St :=
  let exit (r : bool * St) := (if r.1 then Some ExitedNormally else None, r.2) in
  match i with
  | EndOfFile => (None, s)
  | ReadError => (Some Error, s)
  | Bytes buffer len =>
      if (len =? 0)%nat then (None, s)
      else if (len =? 1)%nat then
        let s := mkSt (buffered s ++ take len buffer) (ran s) in
        if bool_decide (head buffer = Some 10) then exit (submit (take (length (buffered s) - 1) (buffered s)) s) else (None, s)
      else if (len =? BUFER_SIZE)%nat && negb (bool_decide (last buffer = Some 10)) then (None, mkSt (buffered s ++ take len buffer) (ran s))
      else
        let use_buffer := if bool_decide (last buffer = Some 10) then take (len - 1) buffer else take len buffer in
        if negb (length (buffered s) =? 0)%nat then
          let s := mkSt (buffered s ++ use_buffer) (ran s) in
          let r := submit (buffered s) s in
          if r.1 then (Some ExitedNormally, r.2) else (None, mkSt [] (ran r.2))
        else exit (submit use_buffer s)
  end.

Fixpoint run (l : list Input) (s : St) : option TaskResult * St :=
  match l with
  | [] => (None, s)
  | i :: l => let r := turn i s in match r.1 with Some t => (Some t, r.2) | None => run l r.2 end
  end.

End Run.
End Shell.

(** ** Theorems *)

(** *** Bytes *)

Lemma wmul_nat a b : Z.of_nat (a * b) < 2 ^ 64 -> (Z.of_nat a ⊗ Z.of_nat b)%u64 = Z.of_nat (a * b).
Proof. intros H. unfold wmul, wrap64. rewrite <- Nat2Z.inj_mul. apply Z.mod_small. lia. Qed.
Lemma wadd_nat a b : Z.of_nat (a + b) < 2 ^ 64 -> (Z.of_nat a ⊕ Z.of_nat b)%u64 = Z.of_nat (a + b).
Proof. intros H. unfold wadd, wrap64. rewrite <- Nat2Z.inj_add. apply Z.mod_small. lia. Qed.

Lemma splice_length d a n : (a + length n <= length d)%nat -> length (Fb.splice d a n) = length d.
Proof. intros H. unfold Fb.splice. rewrite !length_app, length_take, length_drop. lia. Qed.

(** What was written, and what lies before or after it. *)
Lemma slice_splice_in d a n o k : (a + length n <= length d)%nat -> (a <= o)%nat -> (o + k <= a + length n)%nat -> slice (Fb.splice d a n) o k = slice n (o - a) k.
Proof.
  intros Hd Ho Hk. unfold slice, Fb.splice. rewrite drop_app_ge by (rewrite length_take; lia). rewrite length_take, Nat.min_l by lia.
  rewrite drop_app_le by lia. rewrite take_app_le by (rewrite length_drop; lia). done.
Qed.
Lemma slice_splice_before d a n o k : (a + length n <= length d)%nat -> (o + k <= a)%nat -> slice (Fb.splice d a n) o k = slice d o k.
Proof.
  intros Hd Hk. unfold slice, Fb.splice. rewrite drop_app_le by (rewrite length_take; lia). rewrite take_app_le by (rewrite length_drop, length_take; lia).
  rewrite skipn_firstn_comm, take_take. f_equal. lia.
Qed.
Lemma slice_splice_after d a n o k : (a + length n <= length d)%nat -> (a + length n <= o)%nat -> slice (Fb.splice d a n) o k = slice d o k.
Proof.
  intros Hd Ho. unfold slice, Fb.splice. rewrite drop_app_ge by (rewrite length_take; lia). rewrite length_take, Nat.min_l by lia. rewrite drop_app_ge by lia. rewrite drop_drop. do 2 f_equal. lia.
Qed.
Lemma slice_slice d o n p k : (p + k <= n)%nat -> slice (slice d o n) p k = slice d (o + p) k.
Proof. intros H. unfold slice. rewrite skipn_firstn_comm, take_take, drop_drop. f_equal. lia. Qed.

(** *** Pixels in a line *)

Lemma chunks_length k n : forall l, length (chunks k n l) = n.
Proof. induction n as [|n IH]; intros l; cbn; [done|]. by rewrite IH. Qed.
Lemma chunks_lookup k n : forall l i, (i < n)%nat -> chunks k n l !! i = Some (slice l (i * k) k).
Proof.
  induction n as [|n IH]; intros l i Hi; [lia|]. destruct i as [|i]; cbn [chunks lookup list_lookup]; [done|]. rewrite IH by lia. unfold slice. rewrite drop_drop. done.
Qed.
Lemma concat_length_k (k : nat) (L : list (list Z)) : Forall (fun p => length p = k) L -> length (concat L) = (length L * k)%nat.
Proof. induction 1 as [|p L Hp _ IH]; [done|]. cbn. rewrite length_app, IH, Hp. done. Qed.
Lemma concat_slice (k : nat) (L : list (list Z)) : Forall (fun p => length p = k) L -> forall i p, L !! i = Some p -> slice (concat L) (i * k) k = p.
Proof.
  induction 1 as [|q L Hq HL IH]; intros i p Hi; [done|]. destruct i as [|i]; cbn in Hi.
  - injection Hi as <-. unfold slice. change (0 * k)%nat with 0%nat. rewrite drop_0. cbn [concat]. rewrite take_app_le by lia. apply take_ge. lia.
  - unfold slice. cbn [concat]. rewrite drop_app_ge by (cbn; lia). replace (S i * k - length q)%nat with (i * k)%nat by (cbn; lia). by apply IH.
Qed.

Section ConsoleLaws.
Context `{FO : FontOps} {FL : FontLaws}.

(** The bytes of a pixel that is set or clear. *)
Definition dot (f : PixelFormat) (b : bool) : list Z :=
  match f with Bgr4Byte => bytes4 (from_pix_data4 (Fb.cvt_data b)) | Bgr3Byte => bytes3 (from_pix_data3 (Fb.cvt_data b)) | Grey1Byte => [] end.
Definition psize (f : PixelFormat) : nat := Z.to_nat (bytes_per_pixel f).
Definition colour (f : PixelFormat) : Prop := f <> Grey1Byte.

Lemma dot_length f b : colour f -> length (dot f b) = psize f.
Proof. by destruct f, b. Qed.
Lemma dot_black f : colour f -> dot f false = replicate (psize f) 0.
Proof. by destruct f. Qed.
Lemma psize_pos f : (0 < psize f)%nat.
Proof. by destruct f; apply Nat.ltb_lt. Qed.

(** Drawing a line of a character at pixel [x] of a line of [w] pixels. *)
Lemma draw_line_spec f b s x w buff : colour f -> bm_width b = 8 -> bm_height b = 16 -> (s < 16)%nat -> (x + 8 <= w)%nat -> length buff = (w * psize f)%nat ->
  exists line, Fb.draw_line f b (Z.of_nat s) (Z.of_nat x) buff = Done line /\ length line = (w * psize f)%nat /\
  forall i, (i < w)%nat -> slice line (i * psize f) (psize f) = if decide (x <= i < x + 8)%nat then dot f (bm_pixel b (i - x) s) else slice buff (i * psize f) (psize f).
Proof using FL.
  intros Hf Hbw Hbh Hs Hx Hb. set (k := psize f) in *. pose proof (psize_pos f : (0 < k)%nat) as Hk.
  set (px := chunks k w buff). set (L := take x px ++ draw_scan b (Z.of_nat s) (dot f) (drop x px)).
  assert (length px = w) as Hlen by apply chunks_length.
  assert (Forall (fun p => length p = k) px) as Hpx.
  { apply Forall_lookup_2. intros i p Hi. pose proof (lookup_lt_Some _ _ _ Hi) as Hlt. unfold px in Hi. rewrite chunks_lookup in Hi by lia. injection Hi as <-. apply slice_length. nia. }
  assert (forall i p, L !! i = Some p -> (i < w)%nat /\ p = if decide (x <= i < x + 8)%nat then dot f (bm_pixel b (i - x) s) else slice buff (i * k) k) as HL.
  { intros i p Hi. unfold L in Hi. rewrite draw_scan_pixels in Hi by lia. destruct (decide (i < x)%nat) as [Hlt|Hge].
    - rewrite lookup_app_l in Hi by (rewrite length_take; lia). rewrite lookup_take_lt in Hi by lia. unfold px in Hi. rewrite chunks_lookup in Hi by lia. injection Hi as <-. split; [lia|]. rewrite decide_False by lia. done.
    - rewrite lookup_app_r in Hi by (rewrite length_take; lia). rewrite length_take, Nat.min_l in Hi by lia. rewrite list_lookup_imap, lookup_drop in Hi. replace (x + (i - x))%nat with i in Hi by lia.
      destruct (px !! i) as [q|] eqn:Hq; [|done]. pose proof (lookup_lt_Some _ _ _ Hq) as Hlt. unfold px in Hq. rewrite chunks_lookup in Hq by lia. injection Hq as <-. cbn in Hi. injection Hi as <-. split; [lia|].
      rewrite Hbw. destruct (Z.ltb_spec (Z.of_nat (i - x)) 8); [rewrite decide_True by lia|rewrite decide_False by lia]; done. }
  assert (length L = w) as HLw. { unfold L. rewrite draw_scan_pixels by lia. rewrite length_app, length_take, length_imap, length_drop. lia. }
  assert (Forall (fun p => length p = k) L) as HLk.
  { apply Forall_lookup_2. intros i p Hi. destruct (HL i p Hi) as [Hlt ->]. case_decide; [by apply dot_length|]. apply slice_length. nia. }
  exists (concat L). split; [|split].
  - unfold Fb.draw_line. destruct (Nat.eqb_spec (length buff) 0) as [H0|_]; [rewrite Hb in H0; nia|]. cbn [negb assert_that mbind outcome_bind].
    assert (forall cvt, (px0 ← pix_buff k buff; assert_that (Z.of_nat x <=? Z.of_nat (length px0));; Done (concat (take (Z.to_nat (Z.of_nat x)) px0 ++ draw_scan b (Z.of_nat s) cvt (drop (Z.to_nat (Z.of_nat x)) px0)))) = Done (concat (take x px ++ draw_scan b (Z.of_nat s) cvt (drop x px)))) as Hd.
    { intros cvt. unfold pix_buff. rewrite Hb, Nat.Div0.mod_mul, Nat.div_mul by lia. cbn [Nat.eqb assert_that mbind outcome_bind]. fold px. rewrite Hlen, (proj2 (Z.leb_le _ _)) by lia. cbn [assert_that mbind outcome_bind]. by rewrite Nat2Z.id. }
    destruct f; [apply Hd|apply Hd|done].
  - rewrite (concat_length_k k) by done. by rewrite HLw.
  - intros i Hi. destruct (lookup_lt_is_Some_2 L i ltac:(lia)) as [p Hp]. rewrite (concat_slice k L HLk i p Hp). apply (HL i p Hp).
Qed.

(** *** The frame buffer *)

(** A buffer of [w] by [h] pixels whose lines are [s] pixels apart. *)
Record fb_wf (w h s : nat) (fb : Fb.FrameBuffer) : Prop := {
  wf_width : Fb.width fb = Z.of_nat w;
  wf_height : Fb.height fb = Z.of_nat h;
  wf_stride : Fb.stride fb = Z.of_nat s;
  wf_format : colour (Fb.format fb);
  wf_data : length (Fb.data fb) = (s * h * psize (Fb.format fb))%nat;
  wf_fits : Z.of_nat (length (Fb.data fb)) < 2 ^ 64;
  wf_line : (0 < w <= s)%nat }.

Definition pixel (fb : Fb.FrameBuffer) (x y : nat) : list Z := let k := psize (Fb.format fb) in slice (Fb.data fb) ((Z.to_nat (Fb.stride fb) * y + x) * k) k.

Lemma bpp_nat f : bytes_per_pixel f = Z.of_nat (psize f).
Proof. by destruct f. Qed.

(** A line of the buffer. *)
Lemma scan_spec w h s fb y : fb_wf w h s fb -> (y < h)%nat ->
  Fb.scan (Z.of_nat y) fb = Done (Some (Z.of_nat (s * y * psize (Fb.format fb)), slice (Fb.data fb) (s * y * psize (Fb.format fb)) (w * psize (Fb.format fb)))).
Proof using Type.
  intros [Hw Hh Hs Hf Hd Hfit Hl] Hy. unfold Fb.scan. rewrite Hw, Hh, Hs, bpp_nat. set (k := psize (Fb.format fb)) in *. pose proof (psize_pos (Fb.format fb) : (0 < k)%nat) as Hk.
  assert (s * y + s <= s * h)%nat as H1 by nia. assert ((s * y + w) * k <= s * h * k)%nat as H2 by nia. assert (s * y <= s * y * k)%nat as H3 by nia.
  rewrite (proj2 (Z.leb_le _ _)) by lia. rewrite wmul_nat by nia. rewrite wmul_nat by nia. rewrite wadd_nat by nia. rewrite wmul_nat by nia.
  unfold Fb.range. rewrite (proj2 (Z.leb_le (Z.of_nat (s * y * k)) _)) by nia. rewrite (proj2 (Z.leb_le (Z.of_nat ((s * y + w) * k)) _)) by lia. cbn [andb assert_that mbind outcome_bind]. rewrite Nat2Z.id. do 4 f_equal. nia.
Qed.

(** Replacing a line changes the pixels of that line only. *)
Lemma pixel_line w h s fb y line x' y' : fb_wf w h s fb -> (y < h)%nat -> length line = (w * psize (Fb.format fb))%nat -> (x' < w)%nat -> (y' < h)%nat ->
  let fb' := Fb.set_data (Fb.splice (Fb.data fb) (s * y * psize (Fb.format fb)) line) fb in
  pixel fb' x' y' = if decide (y' = y) then slice line (x' * psize (Fb.format fb)) (psize (Fb.format fb)) else pixel fb x' y'.
Proof using Type.
  intros [Hw Hh Hs Hf Hd Hfit Hl] Hy Hline Hx' Hy'. unfold pixel, Fb.set_data. cbn [Fb.format Fb.data Fb.stride]. rewrite Hs, Nat2Z.id. set (k := psize (Fb.format fb)) in *.
  assert (s * y + s <= s * h)%nat as H1 by nia. assert (s * y * k + w * k <= s * h * k)%nat as H2 by nia. case_decide as Hc.
  - subst y'. rewrite slice_splice_in by nia. f_equal. nia.
  - destruct (decide (y' < y)%nat).
    + apply slice_splice_before; [lia|]. assert (s * y' + s <= s * y)%nat by nia. nia.
    + apply slice_splice_after; [lia|]. assert (s * y + s <= s * y')%nat by nia. nia.
Qed.

Lemma set_data_wf w h s fb d : fb_wf w h s fb -> length d = length (Fb.data fb) -> fb_wf w h s (Fb.set_data d fb).
Proof using Type. intros [] Hd. split; unfold Fb.set_data; cbn; try done; by rewrite Hd. Qed.

(** Drawing the lines of a character from line [n0] on. *)
Lemma draw_lines_spec w h s b x y : bm_width b = 8 -> bm_height b = 16 -> (x + 8 <= w)%nat -> (y + 16 <= h)%nat -> forall n n0 fb, (n0 + n = 16)%nat -> fb_wf w h s fb ->
  exists fb', Fb.draw_lines n b (Z.of_nat n0) (Z.of_nat x) (Z.of_nat y) fb = Done fb' /\ fb_wf w h s fb' /\ Fb.format fb' = Fb.format fb /\
  forall x' y', (x' < w)%nat -> (y' < h)%nat -> pixel fb' x' y' = if decide ((x <= x' < x + 8)%nat /\ (y + n0 <= y' < y + 16)%nat) then dot (Fb.format fb) (bm_pixel b (x' - x) (y' - y)) else pixel fb x' y'.
Proof using FL.
  intros Hbw Hbh Hx Hy n. induction n as [|n IH]; intros n0 fb Hn Hwf.
  { exists fb. split; [done|]. split; [done|]. split; [done|]. intros x' y' _ _. rewrite decide_False by lia. done. }
  pose proof Hwf as [Hw Hh Hs Hf Hd Hfit Hl]. cbn [Fb.draw_lines]. replace (Z.of_nat y + Z.of_nat n0) with (Z.of_nat (y + n0)) by lia. rewrite (scan_spec w h s) by (done || lia). cbn [mbind outcome_bind].
  set (k := psize (Fb.format fb)) in *. set (o := (s * (y + n0) * k)%nat).
  assert (s * (y + n0) + s <= s * h)%nat as H1 by nia. assert (o + w * k <= s * h * k)%nat as H2 by (unfold o; nia).
  destruct (draw_line_spec (Fb.format fb) b n0 x w (slice (Fb.data fb) o (w * k)) Hf Hbw Hbh ltac:(lia) Hx (slice_length _ _ _ ltac:(rewrite Hd; exact H2))) as (line & Hline & Hll & Hpix). fold k in Hll, Hpix.
  rewrite Hline. cbn [mbind outcome_bind]. rewrite Nat2Z.id. replace (Z.of_nat n0 + 1) with (Z.of_nat (S n0)) by lia. set (fb1 := Fb.set_data (Fb.splice (Fb.data fb) o line) fb).
  assert (fb_wf w h s fb1) as Hwf1. { apply set_data_wf; [done|]. apply splice_length. rewrite Hll, Hd. exact H2. }
  destruct (IH (S n0) fb1 ltac:(lia) Hwf1) as (fb' & Hdraw & Hwf' & Hfmt & Hp). exists fb'. split; [exact Hdraw|]. split; [done|]. split; [done|]. intros x' y' Hx' Hy'. rewrite Hp by done.
  change (Fb.format fb1) with (Fb.format fb). assert (pixel fb1 x' y' = if decide (y' = y + n0)%nat then slice line (x' * k) k else pixel fb x' y') as -> by (apply (pixel_line w h s); (done || lia)).
  destruct (decide (y' = y + n0)%nat) as [->|Hne].
  - rewrite decide_False by lia. rewrite Hpix by done. destruct (decide (x <= x' < x + 8)%nat).
    + rewrite decide_True by lia. do 2 f_equal. lia.
    + rewrite decide_False by lia. rewrite slice_slice by nia. unfold pixel. fold k. rewrite Hs, Nat2Z.id. f_equal. unfold o. nia.
  - destruct (decide ((x <= x' < x + 8)%nat /\ (y + S n0 <= y' < y + 16)%nat)); [rewrite decide_True by lia; done|rewrite decide_False by lia; done].
Qed.

(** Scrolling by [l] lines. *)
Lemma scroll_up_spec w h s fb l : fb_wf w h s fb -> (l <= h)%nat ->
  exists fb', Fb.scroll_up (Z.of_nat l) fb = Done fb' /\ fb_wf w h s fb' /\ Fb.format fb' = Fb.format fb /\
  forall x y, (x < w)%nat -> (y < h)%nat -> pixel fb' x y = if decide (y + l < h)%nat then pixel fb x (y + l) else pixel fb x y.
Proof using Type.
  intros Hwf Hle. pose proof Hwf as [Hw Hh Hs Hf Hd Hfit Hl]. unfold Fb.scroll_up, Fb.last_px. rewrite Hh, Hs, bpp_nat. set (k := psize (Fb.format fb)) in *. pose proof (psize_pos (Fb.format fb) : (0 < k)%nat) as Hk.
  assert (l * s <= s * h)%nat as H0 by nia. assert (l * s * k <= s * h * k)%nat as H1 by nia. assert (s * h <= s * h * k)%nat as H2 by nia. rewrite !wmul_nat by lia.
  unfold Fb.range. rewrite !(proj2 (Z.leb_le _ _)) by lia. cbn [andb assert_that mbind outcome_bind]. rewrite Nat2Z.id. replace (Z.to_nat (Z.of_nat (s * h * k) - Z.of_nat (l * s * k))) with (s * h * k - l * s * k)%nat by lia.
  set (moved := slice (Fb.data fb) (l * s * k) (s * h * k - l * s * k)). assert (length moved = s * h * k - l * s * k)%nat as Hm by (apply slice_length; lia).
  eexists. split; [done|]. split; [apply set_data_wf; [done|]; apply splice_length; lia|]. split; [done|]. intros x y Hx Hy. unfold pixel, Fb.set_data. cbn [Fb.format Fb.data Fb.stride]. fold k. rewrite Hs, Nat2Z.id. case_decide as Hc.
  - assert (s * y + s + l * s <= s * h)%nat as H3 by nia. rewrite slice_splice_in by nia. rewrite Nat.sub_0_r. unfold moved. rewrite slice_slice by nia. f_equal. nia.
  - apply slice_splice_after; [lia|]. rewrite Hm. assert (s * h <= s * y + l * s)%nat by nia. nia.
Qed.

(** *** Text on the screen *)

(** What a terminal shows: the character in each cell, and the cursor. *)
Record Text := mkText { cells : nat -> nat -> option Bitmap; tx : nat; ty : nat }.

(** A line feed on a screen of [rows] lines: the next line, or all lines one up and the last one empty. *)
Definition line_feed (rows : nat) (t : Text) : Text :=
  if (S (ty t) <? rows)%nat then mkText (cells t) 0 (S (ty t)) else mkText (fun r c => if (S r <? rows)%nat then cells t (S r) c else None) 0 (ty t).
Definition type_char (rows cols : nat) (c : Z) (t : Text) : Text :=
  if c =? 10 then line_feed rows t
  else if c =? 13 then mkText (cells t) 0 (ty t)
  else match font_get c with
       | None => t
       | Some b =>
           let t := if (cols <=? tx t)%nat then line_feed rows t else t in
           mkText (fun r c => if decide (r = ty t /\ c = tx t) then Some b else cells t r c) (S (tx t)) (ty t)
       end.
Definition type_str (rows cols : nat) (l : list Z) (t : Text) : Text := foldl (fun t c => type_char rows cols c t) t l.

(** The pixels of a text. *)
Definition lit (t : Text) (x y : nat) : bool := match cells t (y / 16)%nat (x / 8)%nat with Some b => bm_pixel b (x mod 8) (y mod 16) | None => false end.

(** The terminal [tty] on [fb] shows [t]; [rows] lines are used, which leaves the last line of the screen empty. *)
Record shows (w h s rows cols : nat) (t : Text) (tty : Tty.BasicTTY) (fb : Fb.FrameBuffer) : Prop := {
  sh_fb : fb_wf w h s fb;
  sh_rows : (S rows = h / 16)%nat /\ (0 < rows)%nat;
  sh_cols : cols = (w / 8)%nat /\ (0 < cols)%nat;
  sh_tty : tty = Tty.mkTty (Z.of_nat (tx t)) (Z.of_nat (ty t)) (Z.of_nat cols) (Z.of_nat rows) 8 16;
  sh_cursor : (tx t <= cols)%nat /\ (ty t < rows)%nat;
  sh_cells : forall r c, ~ (r < rows /\ c < cols)%nat -> cells t r c = None;
  sh_pixels : forall x y, (x < w)%nat -> (y < h)%nat -> pixel fb x y = dot (Fb.format fb) (lit t x y) }.

(** Lines and cells fit into a machine word. *)
Lemma shows_bounds w h s rows cols t tty fb : shows w h s rows cols t tty fb ->
  Z.of_nat w < 2 ^ 64 /\ Z.of_nat h < 2 ^ 64 /\ (16 * rows + 16 <= h < 16 * rows + 32)%nat /\ (8 * cols <= w < 8 * cols + 8)%nat.
Proof using Type.
  intros [[_ _ _ _ Hd Hfit Hl] [Hr Hr0] [Hc Hc0] _ _ _ _]. pose proof (psize_pos (Fb.format fb)) as Hk. set (k := psize (Fb.format fb)) in *.
  pose proof (Nat.div_mod_eq h 16). pose proof (Nat.mod_upper_bound h 16 ltac:(lia)). pose proof (Nat.div_mod_eq w 8). pose proof (Nat.mod_upper_bound w 8 ltac:(lia)).
  assert (0 < h)%nat by lia. assert (h <= s * h)%nat by (apply Nat.le_mul_l; lia). assert (s <= s * h)%nat by (apply Nat.le_mul_r; lia). assert (s * h <= s * h * k)%nat by (apply Nat.le_mul_r; lia). lia.
Qed.

Lemma newline_shows w h s rows cols t tty fb : shows w h s rows cols t tty fb ->
  exists r, Tty.newline_inner (tty, fb) = Done r /\ Fb.format r.2 = Fb.format fb /\ shows w h s rows cols (line_feed rows t) (Tty.carriage_return r.1) r.2.
Proof using Type.
  intros Hsh. destruct (shows_bounds _ _ _ _ _ _ _ _ Hsh) as (Hw & Hh & Hrb & Hcb). destruct Hsh as [Hwf Hrows Hcols -> Hcur Hcells Hpix].
  unfold Tty.newline_inner. cbn [Tty.cursor_y Tty.cursor_y_max Tty.char_height]. change 1 with (Z.of_nat 1). rewrite wadd_nat by lia. rewrite Nat.add_1_r. unfold line_feed. destruct (Nat.ltb_spec (S (ty t)) rows) as [Hlt|Hge].
  - rewrite (proj2 (Z.leb_gt _ _)) by lia. eexists. split; [done|]. split; [done|]. split; cbn [fst snd tx ty cells]; try done. lia.
  - rewrite (proj2 (Z.leb_le _ _)) by lia. change 16 with (Z.of_nat 16). destruct (scroll_up_spec w h s fb 16 Hwf ltac:(lia)) as (fb' & -> & Hwf' & Hfmt & Hp). cbn [mbind outcome_bind]. eexists. split; [done|]. split; [done|].
    split; cbn [fst snd tx ty cells]; try done; [lia| |].
    + intros r c Hrc. destruct (Nat.ltb_spec (S r) rows); [|done]. apply Hcells. lia.
    + intros x y Hx Hy. rewrite Hp, Hfmt by done. unfold lit. cbn [cells]. pose proof (Nat.div_mod_eq y 16). pose proof (Nat.mod_upper_bound y 16 ltac:(lia)). case_decide as Hc.
      * rewrite Hpix by lia. unfold lit. replace (y + 16)%nat with (y + 1 * 16)%nat by lia. rewrite Nat.div_add, Nat.Div0.mod_add by lia. rewrite Nat.add_1_r. destruct (Nat.ltb_spec (S (y / 16)) rows); [done|]. by rewrite Hcells by lia.
      * rewrite Hpix by lia. unfold lit. rewrite Hcells by lia. destruct (Nat.ltb_spec (S (y / 16)) rows); [lia|done].
Qed.

Lemma draw_shows w h s rows cols t tty fb c b : font_get c = Some b -> shows w h s rows cols t tty fb -> (tx t < cols)%nat ->
  exists fb', Fb.draw_into_self b (Tty.cursor_x tty ⊗ Tty.char_width tty)%u64 (Tty.cursor_y tty ⊗ Tty.char_height tty)%u64 fb = Done fb' /\
  shows w h s rows cols (mkText (fun r c => if decide (r = ty t /\ c = tx t) then Some b else cells t r c) (S (tx t)) (ty t)) (Tty.set_x (Tty.cursor_x tty ⊕ 1)%u64 tty) fb'.
Proof using FL.
  intros Hb Hsh Htx. destruct (shows_bounds _ _ _ _ _ _ _ _ Hsh) as (Hw & Hh & Hrb & Hcb). destruct Hsh as [Hwf Hrows Hcols -> Hcur Hcells Hpix]. destruct (font_size c b Hb) as [Hbw Hbh].
  cbn [Tty.cursor_x Tty.cursor_y Tty.char_width Tty.char_height]. change 8 with (Z.of_nat 8) at 1. change 16 with (Z.of_nat 16) at 1. rewrite !wmul_nat by lia. change 1 with (Z.of_nat 1). rewrite wadd_nat by lia. rewrite Nat.add_1_r.
  unfold Fb.draw_into_self. rewrite Hbh. change FONT_HEIGHT with (Z.of_nat 16). rewrite wadd_nat by lia. replace (Z.to_nat (Z.of_nat (ty t * 16 + 16) - Z.of_nat (ty t * 16))) with 16%nat by lia.
  destruct (draw_lines_spec w h s b (tx t * 8) (ty t * 16) Hbw Hbh ltac:(lia) ltac:(lia) 16 0 fb ltac:(lia) Hwf) as (fb' & Hd & Hwf' & Hfmt & Hp). exists fb'. split; [exact Hd|]. split; cbn [tx ty cells]; try done; [lia| |].
  - intros r c' Hrc. rewrite decide_False by lia. by apply Hcells.
  - intros x y Hx Hy. rewrite Hp, Hfmt by done. unfold lit. cbn [cells].
    pose proof (Nat.div_mod_eq y 16). pose proof (Nat.mod_upper_bound y 16 ltac:(lia)). pose proof (Nat.div_mod_eq x 8). pose proof (Nat.mod_upper_bound x 8 ltac:(lia)).
    destruct (decide ((tx t * 8 <= x < tx t * 8 + 8)%nat /\ (ty t * 16 + 0 <= y < ty t * 16 + 16)%nat)) as [Hin|Hout].
    + rewrite decide_True by lia. do 2 f_equal; lia.
    + rewrite decide_False by lia. by apply Hpix.
Qed.

Lemma print_char_shows w h s rows cols t tty fb c : shows w h s rows cols t tty fb ->
  exists tty' fb', Tty.print_char c (tty, fb) = Done (tty', fb') /\ shows w h s rows cols (type_char rows cols c t) tty' fb'.
Proof using FL.
  intros Hsh. unfold Tty.print_char, type_char. destruct (newline_shows _ _ _ _ _ _ _ _ Hsh) as ([tn fn] & Hn & _ & Hnl). cbn [fst snd] in Hnl. destruct (c =? 10).
  { rewrite Hn. cbn [mbind outcome_bind fst snd]. eauto. }
  destruct (c =? 13).
  { cbn [fst snd]. eexists _, _. split; [done|]. destruct Hsh as [Hwf Hrows Hcols -> Hcur Hcells Hpix]. split; cbn [tx ty cells]; try done. lia. }
  destruct (font_get c) as [b|] eqn:Hb; [|eauto]. cbn [fst snd].
  assert (exists t1 f1, (if Tty.cursor_x_max tty <=? Tty.cursor_x tty then s0 ← Tty.newline_inner (tty, fb); Done (Tty.carriage_return s0.1, s0.2) else Done (tty, fb)) = Done (t1, f1) /\
    shows w h s rows cols (if (cols <=? tx t)%nat then line_feed rows t else t) t1 f1 /\ (tx (if (cols <=? tx t)%nat then line_feed rows t else t) < cols)%nat) as (t1 & f1 & -> & Hs1 & Hlt).
  { assert (Tty.cursor_x_max tty = Z.of_nat cols /\ Tty.cursor_x tty = Z.of_nat (tx t)) as [-> ->] by (destruct Hsh as [_ _ _ -> _ _ _]; done). destruct (Nat.leb_spec cols (tx t)) as [Hle|Hgt].
    - rewrite (proj2 (Z.leb_le _ _)) by lia. rewrite Hn. cbn [mbind outcome_bind fst snd]. eexists _, _. split; [done|]. split; [done|]. unfold line_feed. destruct Hsh as [_ _ [_ H0] _ _ _ _]. by destruct (S (ty t) <? rows)%nat.
    - rewrite (proj2 (Z.leb_gt _ _)) by lia. eauto. }
  cbn [mbind outcome_bind]. destruct (draw_shows _ _ _ _ _ _ _ _ c b Hb Hs1 Hlt) as (f2 & Hd & Hs2). rewrite Hd. cbn [mbind outcome_bind]. eauto.
Qed.

(** C14. The terminal shows the text that was printed.  On a frame buffer of at least two lines and one column of characters
    that shows a text, printing any string does not panic, and afterwards the frame buffer shows, pixel by pixel, the
    text that a teletype would have: characters at the cursor, lines wrapped at the right edge, and everything moved
    up by one line, with an empty one at the bottom, when the lines are used up. *)
Theorem tty_prints w h s rows cols t tty fb l : shows w h s rows cols t tty fb ->
  exists tty' fb', Tty.print_str l (tty, fb) = Done (tty', fb') /\ shows w h s rows cols (type_str rows cols l t) tty' fb'.
Proof using FL.
  revert t tty fb. induction l as [|c l IH]; intros t tty fb Hsh; [eauto|]. cbn [Tty.print_str type_str foldl]. destruct (print_char_shows _ _ _ _ _ _ _ _ c Hsh) as (tty1 & fb1 & -> & H1). cbn [mbind outcome_bind]. by apply IH.
Qed.

(** A terminal on a cleared frame buffer shows nothing, which is where [tty_prints] starts. *)
Theorem cleared_shows w h s fb : fb_wf w h s fb -> (32 <= h)%nat -> (8 <= w)%nat ->
  exists fb', Fb.clear fb = Done fb' /\ shows w h s (h / 16 - 1) (w / 8) (mkText (fun _ _ => None) 0 0) (Tty.new fb') fb'.
Proof using Type.
  intros Hwf Hh32 Hw8. pose proof Hwf as [Hw Hh Hs Hf Hd Hfit Hl]. unfold Fb.clear, Fb.last_px. rewrite Hh, Hs, bpp_nat. set (k := psize (Fb.format fb)) in *. pose proof (psize_pos (Fb.format fb) : (0 < k)%nat) as Hk.
  assert (s * h <= s * h * k)%nat by nia. assert (2 <= h / 16)%nat by (apply Nat.div_le_lower_bound; lia). assert (1 <= w / 8)%nat by (apply Nat.div_le_lower_bound; lia). assert (h / 16 <= h)%nat by (apply Nat.Div0.div_le_upper_bound; lia). assert (h <= s * h * k)%nat by nia.
  rewrite !wmul_nat by lia. unfold Fb.range. rewrite !(proj2 (Z.leb_le _ _)) by lia. cbn [andb assert_that mbind outcome_bind]. eexists. split; [done|].
  rewrite slice_length by lia. replace (Z.to_nat (Z.of_nat (s * h * k) - 0)) with (s * h * k)%nat by lia. set (d := Fb.splice (Fb.data fb) 0 (replicate (s * h * k) 0)).
  assert (length d = length (Fb.data fb)) as Hld by (apply splice_length; rewrite length_replicate; lia).
  split; cbn [tx ty cells]; try done; [by apply set_data_wf|lia| | |].
  - unfold Tty.new, Fb.set_data. cbn [Fb.width Fb.height]. rewrite Hw, Hh. unfold FONT_WIDTH, FONT_HEIGHT. f_equal; [by rewrite Nat2Z.inj_div|]. change 16 with (Z.of_nat 16). rewrite <- Nat2Z.inj_div. rewrite wsub_small by lia. lia.
  - lia.
  - intros x y Hx Hy. unfold pixel, Fb.set_data, lit. cbn [Fb.format Fb.data Fb.stride cells]. fold k. rewrite dot_black by done. fold k. rewrite Hs, Nat2Z.id. unfold d. assert (s * y + s <= s * h)%nat by nia. rewrite slice_splice_in by (rewrite ?length_replicate; nia).
    unfold slice. rewrite drop_replicate, take_replicate. f_equal. nia.
Qed.

(** *** Where the code departs from what it means to do *)

(** The check of [FrameBuffer::new] is the wrong way round: a buffer whose lines are padded is refused, and one that is too
    small is accepted. *)
Theorem padded_buffer_refused w h s f buff : (0 < h)%nat -> (w < s)%nat -> length buff = (s * h * psize f)%nat -> Z.of_nat (length buff) < 2 ^ 64 ->
  Fb.new (Z.of_nat w) (Z.of_nat h) (Z.of_nat s) buff f = Panic.
Proof using Type.
  intros Hh Hw Hb Hfit. unfold Fb.new. rewrite bpp_nat. pose proof (psize_pos f). assert (h * w < s * h)%nat by nia. assert (h * w * psize f < s * h * psize f)%nat by nia. assert (h * w <= h * w * psize f)%nat by nia.
  rewrite wmul_nat by nia. rewrite wmul_nat by lia. rewrite (proj2 (Z.leb_gt _ _)) by lia. done.
Qed.
Theorem small_buffer_accepted w h s f : 0 <= w -> 0 <= h -> exists fb, Fb.new w h s [] f = Done fb.
Proof using Type. intros Hw Hh. unfold Fb.new. cbn [length]. pose proof (wrap64_range (wmul h w * bytes_per_pixel f)) as [H _]. unfold wmul at 1. rewrite (proj2 (Z.leb_le _ _)) by exact H. by eexists. Qed.

(** The line after the last one is not refused but read out of bounds. *)
Theorem scan_past_end w h s fb : fb_wf w h s fb -> Z.of_nat ((s * h + w) * psize (Fb.format fb)) < 2 ^ 64 -> Fb.scan (Z.of_nat h) fb = Panic.
Proof using Type.
  intros [Hw Hh Hs Hf Hd Hfit Hl] Hfit2. unfold Fb.scan. rewrite Hw, Hh, Hs, bpp_nat, Z.leb_refl. set (k := psize (Fb.format fb)) in *. pose proof (psize_pos (Fb.format fb) : (0 < k)%nat) as Hk.
  assert (s * h + w <= (s * h + w) * k)%nat by nia. assert (s * h * k < (s * h + w) * k)%nat by nia. rewrite wmul_nat by lia. rewrite wmul_nat by lia. rewrite wadd_nat by lia. rewrite wmul_nat by lia.
  unfold Fb.range. rewrite (proj2 (Z.leb_gt (Z.of_nat ((s * h + w) * k)) _)) by lia. by rewrite andb_false_r.
Qed.

(** The pixels of the BGR formats have red in their first byte and blue in their third. *)
Theorem bgr_is_rgb r g b : bytes4 (from_pix_data4 (Colour r g b)) = [r; g; b; 0] /\ bytes3 (from_pix_data3 (Colour r g b)) = [r; g; b].
Proof using Type. done. Qed.

End ConsoleLaws.

(** *** The shell *)
Section ShellLaws.
Import Shell.
Context (sets : list (list Z -> CommandResult)).

(** What [run] is given when each character arrives alone; the rest of the buffer is anything. *)
Definition typed (l : list Z) (rest : list Z) : list Input := (fun c => Bytes (c :: rest) 1) <$> l.

Lemma turn_plain c rest s : c <> 10 -> turn sets (Bytes (c :: rest) 1) s = (None, mkSt (buffered s ++ [c]) (ran s)).
Proof. intros Hc. cbn. rewrite bool_decide_eq_false_2 by congruence. done. Qed.

Lemma turn_newline rest s : turn sets (Bytes (10 :: rest) 1) s =
  (if (submit sets (buffered s) (mkSt (buffered s ++ [10]) (ran s))).1 then Some ExitedNormally else None, (submit sets (buffered s) (mkSt (buffered s ++ [10]) (ran s))).2).
Proof.
  assert (take (length (buffered s ++ [10%Z]) - 1) (buffered s ++ [10%Z]) = buffered s) as H by (rewrite length_app; cbn [length]; rewrite Nat.add_sub; apply take_app_length).
  cbn [turn Nat.eqb buffered ran firstn]. rewrite bool_decide_eq_true_2 by done. change (take 0 rest) with (@nil Z). by rewrite H.
Qed.

Lemma run_plain l rest : Forall (fun c => c <> 10) l -> forall more s, run sets (typed l rest ++ more) s = run sets more (mkSt (buffered s ++ l) (ran s)).
Proof.
  induction 1 as [|c l Hc _ IH]; intros more s.
  - cbn [typed fmap list_fmap app]. rewrite app_nil_r. by destruct s.
  - change (typed (c :: l) rest) with (Bytes (c :: rest) 1 :: typed l rest). cbn [app run]. rewrite turn_plain by done. cbn [fst snd]. rewrite IH. cbn [buffered ran]. by rewrite <- app_assoc.
Qed.

(** A line that is typed ends in the buffer with all the lines before it, and that is what the command sets are given:
    [buffered] is not cleared after a command. *)
Theorem typed_lines_pile_up l rest s : Forall (fun c => c <> 10) l -> (parse_input sets (buffered s ++ l)).1 = false ->
  run sets (typed (l ++ [10]) rest) s =
  (None, mkSt (buffered s ++ l ++ [10]) (match (parse_input sets (buffered s ++ l)).2 with Some a => a :: ran s | None => ran s end)).
Proof.
  intros Hl Hp. unfold typed. rewrite fmap_app. rewrite (run_plain l rest Hl). cbn [fmap list_fmap run]. rewrite turn_newline. cbn [buffered ran]. unfold submit. cbn [fst snd buffered ran]. rewrite Hp. cbn [fst snd]. by rewrite <- app_assoc.
Qed.

(** A line that arrives in one read, into an empty buffer, is run with the newline that ends it, since the byte that is compared is
    the last one of the buffer and not of what was read. *)
Theorem read_line_keeps_newline l pad s : buffered s = [] -> (1 < S (length l) < BUFER_SIZE)%nat -> last pad <> Some 10 -> (0 < length pad)%nat ->
  turn sets (Bytes (l ++ [10] ++ pad) (S (length l))) s =
  (let r := submit sets (l ++ [10]) s in if r.1 then Some ExitedNormally else None, (submit sets (l ++ [10]) s).2).
Proof.
  intros Hb [Hl Hlt] Hpad Hp. unfold turn. rewrite (proj2 (Nat.eqb_neq _ 0)), (proj2 (Nat.eqb_neq _ 1)), (proj2 (Nat.eqb_neq _ BUFER_SIZE)) by lia. cbn [andb].
  assert (last (l ++ [10] ++ pad) = last pad) as ->. { rewrite !last_app. destruct pad as [|p pad]; [cbn in Hp; lia|]. by destruct (last (p :: pad)) eqn:E; [|apply last_None in E]. }
  rewrite bool_decide_eq_false_2 by done. rewrite Hb. cbn [length Nat.eqb negb]. rewrite app_assoc. replace (S (length l)) with (length (l ++ [10])) by (rewrite length_app; cbn; lia). by rewrite take_app_length.
Qed.

End ShellLaws.

(** ** Witnesses *)
Module ConsoleWitness.

(** A font with a pattern for each printable character. *)
#[local] Instance font : FontOps := {|
  Bitmap := Z;
  font_get c := if (32 <=? c) && (c <? 127) then Some c else None;
  bm_width _ := 8;
  bm_height _ := 16;
  bm_pixel b x y := Z.testbit b (Z.of_nat (x + y) mod 7);
  draw_scan T b scan f buff := imap (fun i old => if Z.of_nat i <? 8 then f (Z.testbit b (Z.of_nat (i + Z.to_nat scan) mod 7)) else old) buff |}.
#[local] Instance font_laws : FontLaws.
Proof. split; [done|]. intros T b scan f buff _. cbn. by rewrite Nat2Z.id. Qed.

(** A screen of two characters and two lines. *)
Definition screen : Fb.FrameBuffer := Fb.mkFb 32 16 16 Bgr4Byte (replicate (16 * 32 * 4) 0).
Definition blank : Text := mkText (fun _ _ => None) 0 0.

Lemma screen_shows : shows 16 32 16 1 2 blank (Tty.new screen) screen.
Proof.
  destruct (cleared_shows 16 32 16 screen) as (fb' & Hc & Hs); [|lia|lia|].
  - split; try reflexivity; [discriminate|lia].
  - assert (Fb.clear screen = Done screen) as Hc' by (vm_compute; reflexivity). rewrite Hc' in Hc. injection Hc as <-. exact Hs.
Qed.

Lemma tty_prints_witness : exists tty fb, Tty.print_str [72; 105; 33; 10] (Tty.new screen, screen) = Done (tty, fb) /\ shows 16 32 16 1 2 (type_str 1 2 [72; 105; 33; 10] blank) tty fb.
Proof. apply (tty_prints 16 32 16 1 2 blank (Tty.new screen) screen [72; 105; 33; 10]). exact screen_shows. Defined.

End ConsoleWitness.
